(* ===== verification/_CoqProject ===== *)
-Q . S2P
Prelude.v
Proc.v
Sql.v
Limit.v
Resources.v
Scope.v
ScopeInv.v
RcMgr.v
RcProps.v
Strconv.v
Checksum.v
Hex.v
UploadDb.v
ManagerDb.v
Storage.v
StorageLaws.v
PieceStore.v
S3Store.v
S3Laws.v
StorageProps.v
Traffic.v
TrafficProps.v
PieceOp.v
PrefixTree.v
PrefixTreeProps.v
TaskKey.v
Task.v
TaskTypes.v
TaskProps.v
TQueue.v
TQueueProps.v
Approver.v
ApproverProps.v
VGroup.v
VirtualGroup.v
VirtualGroupProps.v
ManagerTask.v
Manager.v
ManagerRun.v
ManagerFacts.v
ManagerProps.v
ManagerCases.v
Policy.v
PolicyProps.v
AuthDb.v
Authenticator.v
RequestAuth.v
AuthProps.v
AuthCases.v
Uploader.v
UploadFacts.v
UploadProps.v
Resumable.v
ResumableProgress.v
ResumableProps.v
Downloader.v
DownloadFacts.v
DownloadProps.v
Receiver.v
ReceiverProps.v
EvmState.v
EvmStore.v
EvmInv.v
EvmSpec.v
EvmProps.v
EvmManager.v
EvmAuto.v
EvmResolve.v
EvmRecovery.v
EvmRun.v
EvmMgrProps.v
GateDownload.v
GateDownloadFacts.v
GateDownloadProps.v
GateEndpoint.v
GateUpload.v
GateUploadProps.v
GateCases.v
EvmDispose.v
EvmDisposeProps.v
