(* ===== verification/Prelude.v ===== *)
(** * The storage provider of Moca, modelled in Rocq

    moca-storage-provider is the Go server a storage provider (SP) runs.  An
    application shell (base/gfspapp) hosts modules (modular/: gateway, approver,
    authenticator, uploader, receiver, downloader, executor, manager, signer,
    metadata, block syncer, p2p).  Modules exchange tasks (base/types/gfsptask),
    which wait in priority queues (base/gfsptqueue) and may run only after they
    have reserved memory, task slots and connections in a tree of resource scopes
    (base/gfsprcmgr).  Objects are cut into pieces (base/gfsppieceop).  The signer
    signs the SP's chain transactions; for EVM transactions it keeps, in four
    database tables under a fenced lease, the state that prevents an operation from
    being signed twice (modular/signer/evm_*.go).  The manager (modular/manager) keeps the
    queues through which an object goes from upload to replication to sealing, hands tasks
    to executors, and picks the virtual group of providers an object is replicated to
    (base/gfspvgmgr).  This library models these parts
    as the code has them, with their error branches and machine widths, and proves
    what makes them correct.

    ** Files

    - Prelude (this file): Go's integers with wrap-around, the result type of fallible
      calls, list, map and string lemmas, the tactics [go_lia], [go_wrap], [zbool].
    - Proc: programs of atomic actions on a shared state, for handlers that run
      concurrently: their runs, their interleavings, and two logics: invariants that hold
      between any two actions ([wp], and [wlp] where a program may panic), and facts that once true stay true whatever the
      other handlers do ([wps]).
    - Limit: core/rcmgr/limit.go, base/types/gfsplimit/limit.go.  The Go interface
      [Limit] is a class with the instances Unlimited, NullLimit and GfSpLimit.
    - Resources: base/gfsprcmgr/resource.go.  The counters of one scope, generic in
      the limit; the overflow tests and the big-integer comparison of checkMemory.
    - Scope: base/gfsprcmgr/scope.go.  Scopes are pointers that charge their owner
      (spans) or their edges (services), so operations act on a heap of scopes in a
      partial state monad.  ScopeInv: the limits invariant, reserve/release inverses
      and span lifecycle.  RcMgr: base/gfsprcmgr/rcmgr.go and the two functions by
      which modules use it.  RcProps: their properties.
    - Strconv, PieceOp: base/gfsppieceop/piece_op.go, with the parts of strings and
      strconv it uses; the properties that the keys parse back, that segments and EC
      pieces partition the payload.
    - TaskKey, Task, TaskTypes, TaskProps: base/types/gfsptask and
      base/types/gfsperrors, with the timeouts, retries and priorities of
      base/gfspapp/task_options.go.  The Task interface is the class [CoreTask]; each of the
      twenty task types is a module with its instance (TaskTypes); TaskProps shows
      which tasks share a key, and what they ask of the resource manager.
    - TQueue, TQueueProps: both queues of base/gfsptqueue over the class [QueueTask],
      which TaskTypes discharges: capacity, exact Push and Pop, no lost task,
      round-robin Top.
    - Approver: modular/approver with its server (base/gfspapp/approval_server.go) and the
      signer's signing of approvals, as programs of concurrent requests.  ApproverProps: what
      is sent back was signed by this provider, what a single request
      answers, and the requests that panic.
    - Sql: how the database layer uses gorm: transactions, the fate of a connection,
      updates from a struct.  Traffic, TrafficProps: the month keys and the quota and
      traffic tables (store/sqldb/util.go, traffic.go): a read charged once and tier by tier,
      the free quota spent once.
    - PrefixTree, PrefixTreeProps: the slash prefix tree of the block syncer
      (modular/blocksyncer/modules/prefixtree): blocks that only create or only delete
      keep it exact; the mixed blocks that break it.
    - Checksum, Hex, UploadDb: CRC-32C readers, the text encodings of checksum lists, the
      tables of integrity metadata, piece checksums and upload progress.
    - Storage, StorageLaws, PieceStore, S3Store, S3Laws, StorageProps: store/piecestore.
      The interface ObjectStorage is a class; what it promises are the classes
      [StorageLaws] and [ListLaws], proved for the memory storage, for sharding over any
      lawful storage and for S3 over a service with the documented behaviour.  The piece
      store client over a lawful storage has the laws [PieceStoreLaws], on which the
      upload, download and receive theorems rest.
    - VGroup, VirtualGroup, VirtualGroupProps: base/gfspvgmgr.  VGroup is what the manager
      needs: the class [VirtualGroupManager] of the Go interface and its laws, which
      VirtualGroupProps proves of the implementation: which groups are picked, what a new
      group consists of, which groups are deleted, how long a provider is frozen.  Weights
      are IEEE doubles (Stdlib's primitive floats).
    - ManagerDb: the queries of the manager.  ManagerTask, Manager, ManagerRun: the tasks
      and queues of modular/manager, every handler of manage_task.go, and the dispatching,
      loading and collecting of manager.go, with the server in base/gfspapp.
      ManagerFacts: the invariant of the manager under every action.  ManagerProps: what
      holds in every interleaving (dynamic types, no panic, bounded dispatches, capacities).
      ManagerCases: single handlers (the weighted pick, refused uploads, the ranges of
      blocks that are collected, failures that lose a task).
    - Uploader, UploadFacts, UploadProps: modular/uploader, uploads in one request.
      Resumable, ResumableProgress, ResumableProps: resumable uploads, with the
      reservation of an object as a step relation over all requests; the progress in
      the database is a prefix of the payload whose segments are stored.
    - Downloader, DownloadFacts, DownloadProps: modular/downloader: quota admission,
      ranges over segments through the piece cache, challenges.  Receiver,
      ReceiverProps: modular/receiver, a secondary provider's pieces, its signature and
      its answers to challenges.
    - Policy, PolicyProps: the permission service (modular/metadata/metadata_permission.go
      over store/bsdb): who may do what with a bucket, an object or a group, by ownership,
      visibility and the policies of accounts and groups.
    - AuthDb, Authenticator, RequestAuth: the tables of off-chain keys and nonces
      (store/sqldb/auth_nonce.go, off_chain_auth_key*.go), modular/authenticator, and how the
      gateway authenticates a request (modular/gater/request_context.go, auth_handler.go and
      the authorisation of getObjectHandler).  AuthProps: a nonce is accepted at most once in
      every interleaving, only permitted accounts download.  AuthCases: registering a key
      and using it, the texts that are signed, the expiry of signatures.
    - GateDownload: [downloadObject] of modular/gater/object_handler.go with the calls it
      makes through base/gfspclient/downloader.go and base/gfspapp/download_server.go to the
      downloader, each of which may be lost, and the writes to a connection that may break.
      GateDownloadFacts, GateDownloadProps: the response is the range asked for, and what
      is charged and given back.  GateEndpoint: the universal endpoint, and who reads
      private objects through it.
    - GateUpload: the handlers of object_handler.go that put objects and folders, for
      owners and agents, as computations that leave a trace of approvals, messages and tasks,
      and the reports on uploads.  GateUploadProps: a logic of effects, what each
      request may do, what an answer without an error means, and from where a resumable
      upload goes on.  GateCases: concrete requests.
    - EvmState: modular/signer/evm_state.go and the tables of
      store/sqldb/signer_evm*.go.  EvmStore: modular/signer/evm_state_store_sql.go,
      each method as a transaction on the four tables.  EvmInv: transactions, the
      database invariant, the status of an operation.  EvmSpec: the calls as steps,
      the abstract machine of operation statuses and the proof that every call
      refines it.  EvmProps: at most one live transaction, fencing, exactness of
      recording and resolving, evidence verification.
    - EvmManager, EvmAuto, EvmResolve, EvmRecovery: what a node's answer to a send proves
      (signer_client.go), modular/signer/evm_state_manager.go,
      evm_state_auto.go, [submitEvmTx], evm_lease.go and evm_state_recovery.go, as
      computations on a world (database, process memory, trace of the sent bytes)
      against the class [Env], which answers every interaction and lets other
      processes write before each store call.  EvmRun: every function only makes store
      calls, and sends only what is recorded.  EvmMgrProps: these two facts for any
      run, finality of a transition seen through, what a request that may be signed
      finds, and what the start check has verified.
    - EvmDispose: modular/signer/evm_disposition.go and evm_state_report.go, the commands
      of the signer-evm tool, against the class [DisposeEnv] of its further questions.
      EvmDisposeProps: they only make store calls and re-send recorded bytes; what is
      changed was shown at two heights; exit codes, dry runs, the report.

    ** Conventions

    A Go integer is a [Z] within its type, and arithmetic wraps where Go's does.  A
    function that returns (T, error) returns [result]; one that can panic returns an
    option.  Methods that hold a mutex throughout are atomic functions on the state;
    a run is a sequence of them.  The clock, the iteration order of maps, the order in
    which a database returns unordered rows ([scan]) and the process identity are
    arguments.  Logging and metrics are dropped.  What comes from outside the repository
    is a class or an argument: go-ethereum's decoding and signature recovery ([EthTx]),
    the answers of nodes and clocks ([Env]), the calls of the AWS SDK ([S3API], with the
    documented behaviour as [S3Laws]), the LRU cache of the downloader ([PieceCache]), the
    two hash functions of moca-common, the chain's message fields a task reads (records
    in TaskTypes), the fate of a database connection ([fate]): a statement commits, fails
    before it runs, or commits and its answer is lost.  A handler that makes several
    database calls takes one fate per call, so that its theorems hold for every history
    of failures.  An update from a Go struct skips the fields that have their zero value,
    as gorm does.  A handler of the manager is a program whose actions are its calls of
    queues, database, channel and virtual groups; a goroutine it starts is a job, which
    begins at any later time, and a request may begin at any time.  A task in a queue is a
    pointer, so that two tasks with equal contents differ.

    ** Bounds and fuel

    The depth of owner chains in Scope: [scopeM] fails ([None]) on a
    dangling or cyclic owner, and the theorems of ScopeInv produce a result for every
    heap that [NewResourceManager], [OpenService] and [BeginSpan] build, with fuel one
    more than the scope's own number, because owners are always older than their spans
    ([fuel_of], [targets_fuel]).  The lease
    epoch is a uint64: the fencing theorems bound the number of calls by the epochs
    left.  The recursions of EvmResolve are the code's own bounds (evmResolveMaxDepth,
    BroadcastTxRetry), whose ends are the code's errors.  Deleting by prefix lists page by
    page: its fuel is the number of pages, and the theorems of StorageProps show that it
    ends and with which fuel.  The upload loop runs once per read of the stream: its fuel
    [upload_fuel] is one more than the reads that return data, and UploadFacts shows
    that a run never needs more.  DispatchTask receives until its context is done: its
    [patience] is the number of tasks it receives before that, and the theorems hold for
    every number.  Counters of requests are int64 and
    their theorems ask for parallel limits below 2^63.

    ** Not modelled

    Network clients, gRPC servers, configuration, generated messages, the
    drivers of file systems and further object stores, the gorm queries of the tables
    that no modelled part uses.  Of the gateway, the handlers of administration, migration,
    replication and of the metadata queries, and the XML of its answers.
    Of modular/manager the schedulers of bucket migrations, exits,
    recoveries and retries are not modelled: what they push is a request of the model, what
    they answer is an argument.  Within the program's own logic the next parts are, in this
    order: these schedulers, the executor, that the lease view implies a live
    lease, and the listing queries of the block syncer database. *)
From Stdlib Require Import ZArith Lia.
From stdpp Require Import base gmap list strings sorting.

Local Open Scope Z_scope.

(** ** Machine integers

    Go's sized integers wrap around.  A value of a w-bit integer type is a [Z];
    every arithmetic operation of the source is followed by [swrap w] (signed)
    or [uwrap w] (unsigned).  [int] is 64 bits wide (every supported platform
    of the repository is a 64-bit one). *)

Definition swrap (w x : Z) : Z := (x + 2 ^ (w - 1)) mod 2 ^ w - 2 ^ (w - 1).
Definition uwrap (w x : Z) : Z := x mod 2 ^ w.

Definition MaxInt64 : Z := 2 ^ 63 - 1.
Definition MinInt64 : Z := - 2 ^ 63.
Definition MaxInt32 : Z := 2 ^ 31 - 1.
Definition MinInt32 : Z := - 2 ^ 31.
Definition MaxUint64 : Z := 2 ^ 64 - 1.
Definition MaxUint32 : Z := 2 ^ 32 - 1.

Definition is_int64 (x : Z) : Prop := MinInt64 <= x <= MaxInt64.
Definition is_int32 (x : Z) : Prop := MinInt32 <= x <= MaxInt32.
Definition is_uint64 (x : Z) : Prop := 0 <= x <= MaxUint64.
Definition is_uint32 (x : Z) : Prop := 0 <= x <= MaxUint32.
Definition is_uint8 (x : Z) : Prop := 0 <= x <= 255.

Declare Scope go_scope.
Delimit Scope go_scope with go.

(** Arithmetic on [int64] (and [int]), truncated division included. *)
Notation "a +' b" := (swrap 64 (a + b)) (at level 50, left associativity) : go_scope.
Notation "a -' b" := (swrap 64 (a - b)) (at level 50, left associativity) : go_scope.
Notation "a *' b" := (swrap 64 (a * b)) (at level 40, left associativity) : go_scope.
Notation "a /' b" := (swrap 64 (Z.quot a b)) (at level 40, left associativity) : go_scope.

Create HintDb go.

Section wrap.
Lemma pow2_half w : 0 < w -> 2 ^ w = 2 * 2 ^ (w - 1).
Proof.
  intros Hw. replace w with (1 + (w - 1)) at 1 by lia.
  rewrite Z.pow_add_r by lia. lia.
Qed.

Lemma swrap_range w x : 0 < w -> - 2 ^ (w - 1) <= swrap w x < 2 ^ (w - 1).
Proof.
  intros Hw. unfold swrap. pose proof (pow2_half w Hw).
  pose proof (Z.mod_pos_bound (x + 2 ^ (w - 1)) (2 ^ w) ltac:(lia)). lia.
Qed.

Lemma swrap_id w x : 0 < w -> - 2 ^ (w - 1) <= x < 2 ^ (w - 1) -> swrap w x = x.
Proof.
  intros Hw Hx. unfold swrap. pose proof (pow2_half w Hw).
  rewrite Z.mod_small by lia. lia.
Qed.

(** Wrapped values are determined by their residue. *)
Lemma swrap_mod w x : 0 < w -> swrap w x mod 2 ^ w = x mod 2 ^ w.
Proof.
  intros Hw. unfold swrap.
  rewrite Zminus_mod_idemp_l. f_equal. lia.
Qed.

Lemma swrap_congr w x y : x mod 2 ^ w = y mod 2 ^ w -> swrap w x = swrap w y.
Proof.
  intros H. unfold swrap. rewrite <-(Zplus_mod_idemp_l x), <-(Zplus_mod_idemp_l y).
  by rewrite H.
Qed.

(** A wrapped addition is undone by the wrapped subtraction, overflow or not. *)
Lemma swrap_add_sub w a b : 0 < w -> swrap w (swrap w (a + b) - b) = swrap w a.
Proof.
  intros Hw. apply swrap_congr.
  rewrite <-Zminus_mod_idemp_l, swrap_mod, Zminus_mod_idemp_l by lia. f_equal. lia.
Qed.
End wrap.

Lemma int64_wrap_id x : is_int64 x -> swrap 64 x = x.
Proof. intros [? ?]. apply swrap_id; [lia|]. unfold MinInt64, MaxInt64 in *. lia. Qed.

Lemma int32_wrap_id x : is_int32 x -> swrap 32 x = x.
Proof. intros [? ?]. apply swrap_id; [lia|]. unfold MinInt32, MaxInt32 in *. lia. Qed.

Lemma uint64_wrap_id x : is_uint64 x -> uwrap 64 x = x.
Proof. intros [? ?]. apply Z.mod_small. unfold MaxUint64 in *. lia. Qed.

Lemma swrap64_is_int64 x : is_int64 (swrap 64 x).
Proof. pose proof (swrap_range 64 x ltac:(lia)). unfold is_int64, MinInt64, MaxInt64. lia. Qed.

Lemma swrap32_is_int32 x : is_int32 (swrap 32 x).
Proof. pose proof (swrap_range 32 x ltac:(lia)). unfold is_int32, MinInt32, MaxInt32. lia. Qed.

Lemma int64_add_sub a b : is_int64 a -> swrap 64 (swrap 64 (a + b) - b) = a.
Proof. intros Ha. rewrite swrap_add_sub by lia. by apply int64_wrap_id. Qed.

#[export] Hint Resolve swrap64_is_int64 swrap32_is_int32 : go.

(** [go_unfold] exposes the numeric bounds; [go_lia] closes linear goals about
    them; [go_wrap] removes wrap-arounds that the context shows not to happen. *)
Ltac go_unfold :=
  unfold is_int64, is_int32, is_uint64, is_uint32, is_uint8,
    MaxInt64, MinInt64, MaxInt32, MinInt32, MaxUint64, MaxUint32 in *.
Ltac go_lia := go_unfold; lia.
Ltac go_wrap :=
  repeat match goal with
  | |- context [swrap 64 ?x] => rewrite (int64_wrap_id x) by go_lia
  | |- context [swrap 32 ?x] => rewrite (int32_wrap_id x) by go_lia
  | |- context [uwrap 64 ?x] => rewrite (uint64_wrap_id x) by go_lia
  | H : context [swrap 64 ?x] |- _ => rewrite (int64_wrap_id x) in H by go_lia
  | H : context [swrap 32 ?x] |- _ => rewrite (int32_wrap_id x) in H by go_lia
  | H : context [uwrap 64 ?x] |- _ => rewrite (uint64_wrap_id x) in H by go_lia
  end.

(** ** Results: a Go function [(T, error)] returns [Ok] or [Err]. *)

Inductive result (E A : Type) : Type :=
| Ok (a : A)
| Err (e : E).
Arguments Ok {E A} a.
Arguments Err {E A} e.

Definition is_ok {E A} (r : result E A) : bool :=
  match r with Ok _ => true | Err _ => false end.

Definition rbind {E A B} (r : result E A) (f : A -> result E B) : result E B :=
  match r with Ok a => f a | Err e => Err e end.

Notation "'let?' x ':=' r 'in' k" := (rbind r (fun x => k))
  (at level 10, x pattern, r at level 100, k at level 200) : go_scope.

Lemma rbind_ok {E A B} (r : result E A) (f : A -> result E B) b :
  rbind r f = Ok b <-> exists a, r = Ok a /\ f a = Ok b.
Proof. destruct r; cbn; [|naive_solver]. split; [by eauto|]. by intros (? & [= ->] & ?). Qed.

(** Case analysis on the boolean tests of the source. *)
Ltac zbool :=
  repeat match goal with
  | H : (_ && _) = true |- _ => apply andb_prop in H as [? ?]
  | H : (_ <? _) = true |- _ => apply Z.ltb_lt in H
  | H : (_ <? _) = false |- _ => apply Z.ltb_ge in H
  | H : (_ <=? _) = true |- _ => apply Z.leb_le in H
  | H : (_ <=? _) = false |- _ => apply Z.leb_gt in H
  | H : (_ =? _) = true |- _ => apply Z.eqb_eq in H
  | H : (_ =? _) = false |- _ => apply Z.eqb_neq in H
  | H : (_ >? _) = true |- _ => apply Z.gtb_lt in H
  | H : (_ >? _) = false |- _ => rewrite Z.gtb_ltb in H; apply Z.ltb_ge in H
  end.

(** The wrapped value differs from the exact one by a multiple of the modulus. *)
Lemma swrap_offset w x : 0 < w -> exists k, swrap w x = x + k * 2 ^ w.
Proof.
  intros Hw. unfold swrap. exists (- ((x + 2 ^ (w - 1)) / 2 ^ w)).
  pose proof (pow2_half w Hw).
  rewrite Zmod_eq by lia. lia.
Qed.

Lemma swrap64_offset x :
  exists k, swrap 64 x = x + k * 18446744073709551616 /\ is_int64 (swrap 64 x).
Proof. destruct (swrap_offset 64 x ltac:(lia)) as [k ?]. exists k. auto using swrap64_is_int64. Qed.

(** ** Strings with separators *)

(** [c] does not occur in [s]. *)
Fixpoint no_char (c : Ascii.ascii) (s : string) : bool :=
  match s with
  | EmptyString => true
  | String a s => negb (bool_decide (a = c)) && no_char c s
  end.

Section strings.
Implicit Types (a b r s : string) (c : Ascii.ascii).

Lemma string_app_cons x a b : (String x a +:+ b)%string = String x (a +:+ b)%string.
Proof. done. Qed.

Lemma string_app_nil b : ("" +:+ b)%string = b.
Proof. done. Qed.

Lemma string_app_assoc a b s : ((a +:+ b) +:+ s = a +:+ (b +:+ s))%string.
Proof. induction a as [|x a IH]; [done|]. by rewrite !string_app_cons, IH. Qed.

Lemma string_app_inv_l a b s : (a +:+ b = a +:+ s)%string -> b = s.
Proof. induction a as [|x a IH]; [done|]. rewrite !string_app_cons. intros [= H]. auto. Qed.

Lemma string_length_app a b : String.length (a +:+ b) = (String.length a + String.length b)%nat.
Proof. induction a as [|x a IH]; [done|]. rewrite string_app_cons. cbn. by rewrite IH. Qed.

Lemma string_app_inv_r a b s : (a +:+ s = b +:+ s)%string -> a = b.
Proof.
  revert b. induction a as [|x a IH]; intros [|y b]; try done.
  - intros H%(f_equal String.length). rewrite !string_length_app in H. cbn in H. lia.
  - intros H%(f_equal String.length). rewrite !string_length_app in H. cbn in H. lia.
  - rewrite !string_app_cons. intros [= -> H]. f_equal. auto.
Qed.

Lemma no_char_app c a b : no_char c (a +:+ b) = no_char c a && no_char c b.
Proof.
  induction a as [|x a IH]; [done|]. rewrite string_app_cons. cbn. by rewrite IH, andb_assoc.
Qed.

(** Splitting at the first occurrence of [c]. *)
Lemma split_first c a b r s :
  no_char c a -> no_char c b -> (a +:+ String c r = b +:+ String c s)%string -> a = b /\ r = s.
Proof.
  revert b. induction a as [|x a IH]; intros [|y b]; rewrite ?string_app_nil, ?string_app_cons; cbn.
  - by intros _ _ [= ->].
  - intros _ Hb [= -> _]. rewrite bool_decide_true in Hb by done. done.
  - intros Ha _ [= -> _]. rewrite bool_decide_true in Ha by done. done.
  - intros [_ Ha]%andb_True [_ Hb]%andb_True [= -> E].
    apply IH in E as [-> ->]; auto.
Qed.

(** Splitting at the last occurrence of [c]. *)
Lemma split_last c a b r s :
  no_char c r -> no_char c s -> (a +:+ String c r = b +:+ String c s)%string -> a = b /\ r = s.
Proof.
  revert b. induction a as [|x a IH]; intros [|y b]; rewrite ?string_app_nil, ?string_app_cons;
    intros Hr Hs.
  - by intros [= ->].
  - intros [= -> ->]. rewrite no_char_app in Hr. cbn in Hr.
    by rewrite bool_decide_true, andb_false_r in Hr.
  - intros [= -> <-]. rewrite no_char_app in Hs. cbn in Hs.
    by rewrite bool_decide_true, andb_false_r in Hs.
  - intros [= -> E]. apply IH in E as [-> ->]; auto.
Qed.
End strings.
