(* ===== verification/Proc.v ===== *)
(** Programs of atomic actions, for the parts whose handlers run concurrently.

    A handler is a program: it returns, it panics, or it acts on the shared state in one
    atomic step and goes on with the answer.  An action that cannot be done yet (a full
    channel, a held mutex) blocks.  [run] executes a program alone; [steps] interleaves
    any number of programs action by action; [wp] is a logic of invariants that is sound
    for every interleaving. *)
From Stdlib Require Import ZArith Lia.
From stdpp Require Import base list option relations.
From S2P Require Import Prelude.

Section prog.
Context {W : Type}.

Inductive prog (A : Type) : Type :=
| Ret (a : A)
| Panic
| Act {B : Type} (f : W -> option (W * B)) (k : B -> prog A).
#[global] Arguments Ret {A} a.
#[global] Arguments Panic {A}.
#[global] Arguments Act {A B} f k.

Fixpoint pbind {A B} (p : prog A) (f : A -> prog B) : prog B :=
  match p with
  | Ret a => f a
  | Panic => Panic
  | Act g k => Act g (fun b => pbind (k b) f)
  end.

(** An action that never blocks. *)
Definition act {B} (f : W -> W * B) : prog B := Act (fun w => Some (f w)) Ret.
Definition modify (f : W -> W) : prog unit := act (fun w => (f w, tt)).
Definition asks {B} (f : W -> B) : prog B := act (fun w => (w, f w)).

(** Repeat for the elements of a list, in order. *)
Fixpoint for_each {T} (f : T -> prog unit) (l : list T) : prog unit :=
  match l with
  | [] => Ret tt
  | t :: l => pbind (f t) (fun _ => for_each f l)
  end.

Inductive outcome (A : Type) : Type :=
| Done (w : W) (a : A)
| Blocked
| Panicked.
#[global] Arguments Done {A} w a.
#[global] Arguments Blocked {A}.
#[global] Arguments Panicked {A}.

Fixpoint run {A} (p : prog A) (w : W) : outcome A :=
  match p with
  | Ret a => Done w a
  | Panic => Panicked
  | Act f k =>
    match f w with
    | None => Blocked
    | Some (w', b) => run (k b) w'
    end
  end.

(** A critical section, inside which nothing blocks: the whole program in one step. *)
Definition atomic {A} (p : prog A) : prog A :=
  Act (fun w => match run p w with
                | Done w' a => Some (w', Some a)
                | Panicked => Some (w, None)
                | Blocked => None
                end)
    (fun r => match r with Some a => Ret a | None => Panic end).

Lemma run_bind {A B} (p : prog A) (f : A -> prog B) w :
  run (pbind p f) w =
    match run p w with
    | Done w' a => run (f a) w'
    | Blocked => Blocked
    | Panicked => Panicked
    end.
Proof.
  revert w. induction p as [a| |C g k IH]; intros w; cbn; [done..|].
  destruct (g w) as [[w' b]|]; [apply IH|done].
Qed.

Lemma run_bind_done {A B} (p : prog A) (f : A -> prog B) w w' a :
  run p w = Done w' a -> run (pbind p f) w = run (f a) w'.
Proof. intros E. by rewrite run_bind, E. Qed.

(** ** Interleaving

    A state and the programs that are running on it; a program that has returned stays with
    its result.  [start] says which programs may begin: a request that arrives, a goroutine
    that was spawned. *)
Section interleave.
Context {R : Type} (start : W -> W -> prog R -> Prop).

Inductive pstep : W * list (prog R) -> W * list (prog R) -> Prop :=
| step_act ps1 ps2 B (f : W -> option (W * B)) k w w' b :
    f w = Some (w', b) ->
    pstep (w, ps1 ++ Act f k :: ps2) (w', ps1 ++ k b :: ps2)
| step_start w w' p ps :
    start w w' p -> pstep (w, ps) (w', p :: ps).

Definition psteps := rtc pstep.
End interleave.

(** ** Invariants

    [wp I p Q]: from any state that satisfies [I], [p] does not panic, each of its actions
    keeps [I], and what it returns satisfies [Q].  Between two actions others may run, so
    nothing but [I] is known of the state.  In [wlp I p Q] the program may panic. *)
Fixpoint wpg (may_panic : Prop) (I : W -> Prop) {A} (p : prog A) (Q : A -> Prop) : Prop :=
  match p with
  | Ret a => Q a
  | Panic => may_panic
  | Act f k => forall w w' b, I w -> f w = Some (w', b) -> I w' /\ wpg may_panic I (k b) Q
  end.
#[local] Notation wp := (wpg False).

Section rules.
Context {pn : Prop}.

Lemma wp_mono I {A} (p : prog A) (P Q : A -> Prop) :
  (forall a, P a -> Q a) -> wpg pn I p P -> wpg pn I p Q.
Proof.
  intros HPQ. induction p as [a| |C g k IH]; cbn; [auto|done|].
  intros H w w' b HI Hg. destruct (H w w' b HI Hg) as [? ?]. auto.
Qed.

Lemma wp_bind I {A B} (p : prog A) (f : A -> prog B) Q :
  wpg pn I p (fun a => wpg pn I (f a) Q) -> wpg pn I (pbind p f) Q.
Proof.
  induction p as [a| |C g k IH]; cbn; [done|done|].
  intros H w w' b HI Hg. destruct (H w w' b HI Hg) as [? ?]. auto.
Qed.

(** A program that is known to return something that satisfies [P]. *)
Lemma wp_use I {A B} (p : prog A) (f : A -> prog B) (P : A -> Prop) Q :
  wpg pn I p P -> (forall a, P a -> wpg pn I (f a) Q) -> wpg pn I (pbind p f) Q.
Proof. intros Hp Hf. apply wp_bind. by eapply wp_mono. Qed.

Lemma wp_act I {B} (f : W -> W * B) (Q : B -> Prop) :
  (forall w, I w -> I (f w).1 /\ Q (f w).2) -> wpg pn I (act f) Q.
Proof. intros H w w' b HI [= E]. specialize (H w HI). by rewrite E in H. Qed.

Lemma wp_modify I (f : W -> W) (Q : unit -> Prop) :
  (forall w, I w -> I (f w)) -> Q tt -> wpg pn I (modify f) Q.
Proof. intros H HQ. apply wp_act. intros w HI. split; [by apply H|done]. Qed.

Lemma wp_asks I {B} (f : W -> B) (Q : B -> Prop) :
  (forall w, I w -> Q (f w)) -> wpg pn I (asks f) Q.
Proof. intros H. apply wp_act. intros w HI. split; [done|by apply H]. Qed.

Lemma wp_for_each I {T} (f : T -> prog unit) l :
  (forall t, t ∈ l -> wpg pn I (f t) (fun _ => True)) -> wpg pn I (for_each f l) (fun _ => True).
Proof.
  induction l as [|t l IH]; intros H; [done|]. cbn.
  eapply wp_use; [apply H; left|]. intros _ _. apply IH. intros t' ?. apply H. by right.
Qed.

End rules.

(** A program that runs alone keeps the invariant and does not panic. *)
Lemma wp_run I {A} (p : prog A) (Q : A -> Prop) w :
  wp I p Q -> I w ->
  match run p w with Done w' a => I w' /\ Q a | Blocked => True | Panicked => False end.
Proof.
  revert w. induction p as [a| |C g k IH]; intros w Hp HI; cbn in *; [done|done|].
  destruct (g w) as [[w' b]|] eqn:Eg; [|done]. destruct (Hp w w' b HI Eg) as [? ?]. by apply IH.
Qed.
Lemma wp_atomic I {A} (p : prog A) (Q : A -> Prop) : wp I p Q -> wp I (atomic p) Q.
Proof.
  intros Hp w w' a HI. pose proof (wp_run I p Q w Hp HI) as H.
  destruct (run p w); intros [= <- <-]; tauto.
Qed.

(** An invariant of every program is an invariant of every interleaving, in which
    moreover no program panics. *)
Theorem wp_invariant {pn R} (start : W -> W -> prog R -> Prop) I (Q : R -> Prop) w ps w' ps' :
  (forall w w' p, I w -> start w w' p -> I w' /\ wpg pn I p Q) ->
  I w -> Forall (fun p => wpg pn I p Q) ps ->
  psteps start (w, ps) (w', ps') ->
  I w' /\ Forall (fun p => wpg pn I p Q) ps'.
Proof.
  intros Hstart HI Hps Hsteps. remember (w, ps) as s eqn:Es. remember (w', ps') as s' eqn:Es'.
  revert w ps Es HI Hps. induction Hsteps as [s|s s1 s2 Hstep _ IH]; intros w ps -> HI Hps.
  { by injection Es' as -> ->. }
  inversion Hstep as [ps1 ps2 B f k v v' b Hf|v v' p qs Hs]; subst.
  - apply Forall_app in Hps as [H1 [Ha H2]%Forall_cons].
    destruct (Ha w v' b HI Hf) as [HI' Hk]. eapply IH; [done..|].
    apply Forall_app. split; [done|]. by constructor.
  - destruct (Hstart _ _ _ HI Hs) as [HI' Hp]. eapply IH; [done..|]. by constructor.
Qed.

(** A program alone: its run is an interleaving. *)
Lemma run_psteps {R} (start : W -> W -> prog R -> Prop) p w w' a ps1 ps2 :
  run p w = Done w' a -> psteps start (w, ps1 ++ p :: ps2) (w', ps1 ++ Ret a :: ps2).
Proof.
  revert w. induction p as [b| |C g k IH]; intros w; cbn; [by intros [= -> ->]|done|].
  destruct (g w) as [[w1 b]|] eqn:Eg; [|done]. intros Hr.
  eapply rtc_l; [by apply step_act|]. by apply IH.
Qed.
(** ** Facts that last

    Between two actions others may run, but only as [R] allows, which is reflexive and
    transitive: a fact about the last state seen that [R] preserves still holds.
    [wps R I p w0 Q]: [w0] is the last state that [p] has seen. *)
Section lasting.
Context (R : W -> W -> Prop) `{!PreOrder R} (I : W -> Prop).

Fixpoint wps {A} (p : prog A) (w0 : W) (Q : A -> W -> Prop) : Prop :=
  match p with
  | Ret a => Q a w0
  | Panic => False
  | Act f k => forall w w' b, R w0 w -> I w -> f w = Some (w', b) -> I w' /\ R w w' /\ wps (k b) w' Q
  end.

Lemma wps_mono {A} (p : prog A) w0 (P Q : A -> W -> Prop) :
  (forall a w, R w0 w -> P a w -> Q a w) -> wps p w0 P -> wps p w0 Q.
Proof.
  revert w0. induction p as [a| |C g k IH]; intros w0 HPQ; cbn; [intros H; apply HPQ; [reflexivity|done]|done|].
  intros H w w' b Hr HI Hg. destruct (H w w' b Hr HI Hg) as (? & Hr' & ?). split_and!; [done..|].
  apply IH; [|done]. intros a v Hv. apply HPQ. transitivity w'; [by transitivity w|done].
Qed.

Lemma wps_bind {A B} (p : prog A) (f : A -> prog B) w0 Q :
  wps p w0 (fun a w => wps (f a) w Q) -> wps (pbind p f) w0 Q.
Proof.
  revert w0. induction p as [a| |C g k IH]; intros w0; cbn; [done|done|].
  intros H w w' b Hr HI Hg. destruct (H w w' b Hr HI Hg) as (? & ? & ?). auto.
Qed.

(** A program that is known to end well, and what comes after it. *)
Lemma wps_use {A B} (p : prog A) (f : A -> prog B) w0 (P : A -> W -> Prop) Q :
  wps p w0 P -> (forall a w, R w0 w -> P a w -> wps (f a) w Q) -> wps (pbind p f) w0 Q.
Proof. intros Hp Hf. apply wps_bind. eapply wps_mono; [|exact Hp]. done. Qed.

Lemma wps_act {B} (f : W -> W * B) w0 (Q : B -> W -> Prop) :
  (forall w, R w0 w -> I w -> I (f w).1 /\ R w (f w).1 /\ Q (f w).2 (f w).1) -> wps (act f) w0 Q.
Proof. intros H w w' b Hr HI [= E]. specialize (H w Hr HI). by rewrite E in H. Qed.

(** An invariant of every program that lasts is one of every interleaving. *)
Theorem wps_invariant {T} (start : W -> W -> prog T -> Prop) w ps w' ps' :
  (forall w w' p, I w -> start w w' p -> I w' /\ R w w' /\ wps p w' (fun _ _ => True)) ->
  I w -> Forall (fun p => exists w0, R w0 w /\ wps p w0 (fun _ _ => True)) ps ->
  psteps start (w, ps) (w', ps') -> I w'.
Proof.
  intros Hstart HI Hps Hsteps. remember (w, ps) as s eqn:Es. remember (w', ps') as s' eqn:Es'.
  revert w ps Es HI Hps. induction Hsteps as [s|s s1 s2 Hstep _ IH]; intros w ps -> HI Hps.
  { by injection Es' as -> ->. }
  assert (forall v qs, R w v -> Forall (fun p : prog T => exists w0, R w0 w /\ wps p w0 (fun _ _ => True)) qs ->
    Forall (fun p : prog T => exists w0, R w0 v /\ wps p w0 (fun _ _ => True)) qs) as Hlast.
  { intros v qs Hv Hqs. eapply Forall_impl; [exact Hqs|]. intros p (w0 & H0 & Hp). exists w0. split; [by transitivity w|done]. }
  inversion Hstep as [ps1 ps2 B f k v v' b Hf|v v' p qs Hs]; subst.
  - apply Forall_app in Hps as [H1 [(w0 & H0 & Ha) H2]%Forall_cons].
    destruct (Ha w v' b H0 HI Hf) as (HI' & Hr & Hk). eapply IH; [done..|].
    apply Forall_app. split; [by apply Hlast|]. constructor; [|by apply Hlast]. exists v'. by split.
  - destruct (Hstart _ _ _ HI Hs) as (HI' & Hr & Hp). eapply IH; [done..|]. constructor; [|by apply Hlast]. by exists v'.
Qed.
End lasting.
End prog.
#[global] Arguments prog W A : clear implicits.
#[global] Arguments outcome W A : clear implicits.

Notation wp := (wpg False).
Notation wlp := (wpg True).

Declare Scope prog_scope.
Delimit Scope prog_scope with prog.
Notation "x <-- p ;; q" := (pbind p (fun x => q))
  (at level 100, p at next level, right associativity) : prog_scope.
Notation "p ;;; q" := (pbind p (fun _ => q))
  (at level 100, right associativity) : prog_scope.
