(* ===== verification/Sql.v ===== *)
(** The SP database as the store/sqldb code uses it through gorm: transactions, the
    fate of a connection, and updates from a struct, which skip the fields that have
    their zero value.  The tables are the records of the files that use them. *)
From Stdlib Require Import ZArith Lia.
From stdpp Require Import base gmap list strings.
From S2P Require Import Prelude.

Local Open Scope Z_scope.

(** The fate of a transaction's connection: any statement may fail, and a COMMIT
    whose answer is lost may or may not have taken effect. *)
Inductive fate :=
| Committed
| FailedBefore
| UnknownApplied
| UnknownLost.

#[export] Instance fate_eq_dec : EqDecision fate.
Proof. solve_decision. Defined.

Inductive sql_error :=
| ErrRecordNotFound
| ErrMissingWhereClause
| ErrDuplicateEntry
| ErrConnection.

#[export] Instance sql_error_eq_dec : EqDecision sql_error.
Proof. solve_decision. Defined.

Section transaction.
Context {DB E A : Type} (lost : E).

(** gorm's [Transaction]: an error of the body rolls back; [lost] is the error of a
    broken connection. *)
Definition transaction (f : fate) (body : DB -> result E (DB * A)) (db : DB) : DB * result E A :=
  match f with
  | FailedBefore => (db, Err lost)
  | _ =>
    match body db with
    | Err e => (db, Err e)
    | Ok (db', a) =>
      match f with
      | UnknownApplied => (db', Err lost)
      | UnknownLost => (db, Err lost)
      | _ => (db', Ok a)
      end
    end
  end.

Lemma transaction_ok f body db db' a :
  transaction f body db = (db', Ok a) <-> f = Committed /\ body db = Ok (db', a).
Proof. unfold transaction. destruct f, (body db) as [[? ?]|]; naive_solver. Qed.

(** Whatever the fate, a transaction leaves the tables as they were or as its body leaves them. *)
Lemma transaction_all_or_nothing f body db :
  (transaction f body db).1 = db \/
  exists db' a, body db = Ok (db', a) /\ (transaction f body db).1 = db'.
Proof. unfold transaction. destruct f, (body db) as [[? ?]|]; naive_solver. Qed.
End transaction.

(** The new value of a column in [Updates(struct)]: a zero field is skipped. *)
Definition nz (old new : Z) : Z := if new =? 0 then old else new.
Definition nz_str (old new : string) : string := if bool_decide (new = ""%string) then old else new.

(** gorm's [Limit(n)] on a list of rows: a negative [n] means no limit. *)
Definition limit {A} (n : Z) (l : list A) : list A := if n <? 0 then l else take (Z.to_nat n) l.
