(* ===== verification/Limit.v ===== *)
(** Resource limits: the [Limit] and [Limiter] interfaces of core/rcmgr/limit.go,
    their implementations [Unlimited] and [NullLimit] (same file) and [GfSpLimit],
    [GfSpLimiter] (base/types/gfsplimit/limit.go), and [ScopeStat]
    (core/rcmgr/rcmgr.go).

    The Go interface is the class [Limit]; [LimitOk] is what every client relies
    on: the getters return values of their Go types. *)
From Stdlib Require Import ZArith Lia.
From stdpp Require Import base gmap list strings.
From S2P Require Import Prelude.

Local Open Scope Z_scope.
Local Open Scope go_scope.

(** ** core/rcmgr/rcmgr.go *)

Inductive Direction := DirUnknown | DirInbound | DirOutbound.

Inductive ReserveTaskPriority :=
| ReserveTaskPriorityUnknown
| ReserveTaskPriorityHigh
| ReserveTaskPriorityMedium
| ReserveTaskPriorityLow.

#[export] Instance Direction_eq_dec : EqDecision Direction.
Proof. solve_decision. Defined.
#[export] Instance ReserveTaskPriority_eq_dec : EqDecision ReserveTaskPriority.
Proof. solve_decision. Defined.

Definition ReservationPriorityLow : Z := 101.
Definition ReservationPriorityMedium : Z := 152.
Definition ReservationPriorityHigh : Z := 203.
Definition ReservationPriorityAlways : Z := 255.

Record ScopeStat := mkStat {
  Memory : Z;
  NumTasksHigh : Z;
  NumTasksMedium : Z;
  NumTasksLow : Z;
  NumConnsInbound : Z;
  NumConnsOutbound : Z;
  NumFD : Z
}.

Definition zero_stat : ScopeStat := mkStat 0 0 0 0 0 0 0.

#[export] Instance ScopeStat_eq_dec : EqDecision ScopeStat.
Proof. solve_decision. Defined.

(** ** The [Limit] interface *)

Class Limit (L : Type) := {
  GetMemoryLimit : L -> Z;
  GetFDLimit : L -> Z;
  GetConnLimit : L -> Direction -> Z;
  GetConnTotalLimit : L -> Z;
  GetTaskLimit : L -> ReserveTaskPriority -> Z;
  GetTaskTotalLimit : L -> Z
}.

(** The getters return an [int64] or an [int]. *)
Class LimitOk (L : Type) `{Limit L} (inv : L -> Prop) := {
  memory_limit_ok l : inv l -> is_int64 (GetMemoryLimit l);
  fd_limit_ok l : inv l -> is_int64 (GetFDLimit l);
  conn_limit_ok l d : inv l -> is_int64 (GetConnLimit l d);
  conn_total_ok l : inv l -> is_int64 (GetConnTotalLimit l);
  task_limit_ok l p : inv l -> is_int64 (GetTaskLimit l p);
  task_total_ok l : inv l -> is_int64 (GetTaskTotalLimit l)
}.

(** The comparison method, against any other implementation. *)
Class LimitCompare (L : Type) := NotLess : forall {X} `{Limit X}, L -> X -> bool.

(** ** [GfSpLimit] *)

Module GfSpLimit.
Record t := mk {
  Memory : Z;
  Tasks : Z;
  TasksHighPriority : Z;
  TasksMediumPriority : Z;
  TasksLowPriority : Z;
  Fd : Z;
  Conns : Z;
  ConnsInbound : Z;
  ConnsOutbound : Z
}.

Definition zero : t := mk 0 0 0 0 0 0 0 0 0.

#[export] Instance t_eq_dec : EqDecision t.
Proof. solve_decision. Defined.

(** The fields hold values of the message's types (int64 and int32). *)
Definition typed (m : t) : Prop :=
  is_int64 (Memory m) /\ is_int32 (Tasks m) /\ is_int32 (TasksHighPriority m) /\
  is_int32 (TasksMediumPriority m) /\ is_int32 (TasksLowPriority m) /\
  is_int32 (Fd m) /\ is_int32 (Conns m) /\ is_int32 (ConnsInbound m) /\
  is_int32 (ConnsOutbound m).

Definition get_conn_limit (m : t) (direction : Direction) : Z :=
  match direction with
  | DirOutbound => ConnsOutbound m
  | _ => ConnsInbound m
  end.

Definition get_task_limit (m : t) (priority : ReserveTaskPriority) : Z :=
  match priority with
  | ReserveTaskPriorityHigh => TasksHighPriority m
  | ReserveTaskPriorityMedium => TasksMediumPriority m
  | _ => TasksLowPriority m
  end.

#[export] Instance limit : Limit t := {
  GetMemoryLimit := Memory;
  GetFDLimit := Fd;
  GetConnLimit := get_conn_limit;
  GetConnTotalLimit := Conns;
  GetTaskLimit := get_task_limit;
  GetTaskTotalLimit := Tasks
}.

Definition ScopeStat (m : t) : ScopeStat :=
  mkStat (Memory m)
    (GetTaskLimit m ReserveTaskPriorityHigh)
    (GetTaskLimit m ReserveTaskPriorityMedium)
    (GetTaskLimit m ReserveTaskPriorityLow)
    (GetConnLimit m DirInbound)
    (GetConnLimit m DirOutbound)
    (GetFDLimit m).

Section ops.
Context {X : Type} `{Limit X}.

Definition not_less (m : t) (x : X) : bool :=
  if GetMemoryLimit m <? GetMemoryLimit x then false
  else if GetFDLimit m <? GetFDLimit x then false
  else if GetTaskTotalLimit m <? GetTaskTotalLimit x then false
  else if GetConnLimit m DirOutbound <? GetConnLimit x DirOutbound then false
  else if GetConnLimit m DirInbound <? GetConnLimit x DirInbound then false
  else if GetConnTotalLimit m <? GetConnTotalLimit x then false
  else if GetTaskLimit m ReserveTaskPriorityHigh <? GetTaskLimit x ReserveTaskPriorityHigh then false
  else if GetTaskLimit m ReserveTaskPriorityMedium <? GetTaskLimit x ReserveTaskPriorityMedium then false
  else if GetTaskLimit m ReserveTaskPriorityLow <? GetTaskLimit x ReserveTaskPriorityLow then false
  else true.

Definition Add (m : t) (x : X) : t :=
  mk (Memory m +' GetMemoryLimit x)
    (swrap 32 (Tasks m + swrap 32 (GetTaskTotalLimit x)))
    (swrap 32 (TasksHighPriority m + swrap 32 (GetTaskLimit x ReserveTaskPriorityHigh)))
    (swrap 32 (TasksMediumPriority m + swrap 32 (GetTaskLimit x ReserveTaskPriorityMedium)))
    (swrap 32 (TasksLowPriority m + swrap 32 (GetTaskLimit x ReserveTaskPriorityLow)))
    (swrap 32 (Fd m + swrap 32 (GetFDLimit x)))
    (swrap 32 (Conns m + swrap 32 (GetConnTotalLimit x)))
    (swrap 32 (ConnsInbound m + swrap 32 (GetConnLimit x DirInbound)))
    (swrap 32 (ConnsOutbound m + swrap 32 (GetConnLimit x DirOutbound))).

(** Returns the new receiver and the boolean result. *)
Definition Sub (m : t) (x : X) : t * bool :=
  if negb (not_less m x) then (m, false)
  else
    (mk (Memory m -' GetMemoryLimit x)
       (swrap 32 (Tasks m - swrap 32 (GetTaskTotalLimit x)))
       (swrap 32 (TasksHighPriority m - swrap 32 (GetTaskLimit x ReserveTaskPriorityHigh)))
       (swrap 32 (TasksMediumPriority m - swrap 32 (GetTaskLimit x ReserveTaskPriorityMedium)))
       (swrap 32 (TasksLowPriority m - swrap 32 (GetTaskLimit x ReserveTaskPriorityLow)))
       (swrap 32 (Fd m - swrap 32 (GetFDLimit x)))
       (swrap 32 (Conns m - swrap 32 (GetConnTotalLimit x)))
       (swrap 32 (ConnsInbound m - swrap 32 (GetConnLimit x DirInbound)))
       (swrap 32 (ConnsOutbound m - swrap 32 (GetConnLimit x DirOutbound))), true).

Definition Equal (m : t) (x : X) : bool :=
  if negb (GetMemoryLimit m =? GetMemoryLimit x) then false
  else if negb (GetFDLimit m =? GetFDLimit x) then false
  else if negb (GetTaskTotalLimit m =? GetTaskTotalLimit x) then false
  else if negb (GetConnLimit m DirOutbound =? GetConnLimit x DirOutbound) then false
  else if negb (GetConnLimit m DirInbound =? GetConnLimit x DirInbound) then false
  else if negb (GetConnTotalLimit m =? GetConnTotalLimit x) then false
  else if negb (GetTaskLimit m ReserveTaskPriorityHigh =? GetTaskLimit x ReserveTaskPriorityHigh) then false
  else if negb (GetTaskLimit m ReserveTaskPriorityMedium =? GetTaskLimit x ReserveTaskPriorityMedium) then false
  else if negb (GetTaskLimit m ReserveTaskPriorityLow =? GetTaskLimit x ReserveTaskPriorityLow) then false
  else true.
End ops.

#[export] Instance compare : LimitCompare t := fun X _ m x => not_less m x.

#[export] Instance limit_ok : LimitOk t typed.
Proof.
  split; intros l; unfold typed; cbn; try intros [];
    cbn; intros; destruct_and?; go_lia.
Qed.
End GfSpLimit.
Export (hints) GfSpLimit.

(** ** [Unlimited] and [NullLimit] (core/rcmgr/limit.go) *)

Module Unlimited.
Inductive t := mk.
#[export] Instance limit : Limit t := {
  GetMemoryLimit _ := MaxInt64;
  GetFDLimit _ := MaxInt64;
  GetConnLimit _ _ := MaxInt64;
  GetConnTotalLimit _ := MaxInt64;
  GetTaskLimit _ _ := MaxInt64;
  GetTaskTotalLimit _ := MaxInt64
}.
#[export] Instance compare : LimitCompare t := fun X _ _ _ => true.
#[export] Instance limit_ok : LimitOk t (fun _ => True).
Proof. split; cbn; intros; go_lia. Qed.
End Unlimited.
Export (hints) Unlimited.

Module NullLimit.
Inductive t := mk.
#[export] Instance limit : Limit t := {
  GetMemoryLimit _ := 0;
  GetFDLimit _ := 0;
  GetConnLimit _ _ := 0;
  GetConnTotalLimit _ := 0;
  GetTaskLimit _ _ := 0;
  GetTaskTotalLimit _ := 0
}.
#[export] Instance compare : LimitCompare t := fun X _ _ _ => false.
#[export] Instance limit_ok : LimitOk t (fun _ => True).
Proof. split; cbn; intros; go_lia. Qed.
End NullLimit.
Export (hints) NullLimit.

(** ** [GfSpLimiter] *)

Record GfSpLimiter := mkLimiter {
  System : GfSpLimit.t;
  Transient : GfSpLimit.t;
  ServiceLimit : gmap string GfSpLimit.t
}.

Definition GetSystemLimits (m : GfSpLimiter) : GfSpLimit.t := System m.
Definition GetTransientLimits (m : GfSpLimiter) : GfSpLimit.t := Transient m.
Definition GetServiceLimits (m : GfSpLimiter) (svc : string) : option GfSpLimit.t :=
  match ServiceLimit m !! svc with
  | None => None
  | Some l => Some l
  end.

(** ** Properties *)

(** The pointwise order that [NotLess] decides. *)
Definition limit_le {X Y} `{Limit X, Limit Y} (x : X) (y : Y) : Prop :=
  GetMemoryLimit x <= GetMemoryLimit y /\
  GetFDLimit x <= GetFDLimit y /\
  GetTaskTotalLimit x <= GetTaskTotalLimit y /\
  (forall d, d <> DirUnknown -> GetConnLimit x d <= GetConnLimit y d) /\
  GetConnTotalLimit x <= GetConnTotalLimit y /\
  (forall p, p <> ReserveTaskPriorityUnknown -> GetTaskLimit x p <= GetTaskLimit y p).

Section limit_lemmas.
Context {X : Type} `{Limit X}.
Implicit Types (m : GfSpLimit.t) (x : X).

Lemma not_less_iff m x : GfSpLimit.not_less m x = true <-> limit_le x m.
Proof.
  unfold GfSpLimit.not_less, limit_le. split.
  - intros Hn. repeat case_match; try discriminate. zbool.
    repeat split; try lia; intros []; done || lia.
  - intros (? & ? & ? & Hc & ? & Ht).
    pose proof (Hc DirInbound ltac:(done)). pose proof (Hc DirOutbound ltac:(done)).
    pose proof (Ht ReserveTaskPriorityHigh ltac:(done)).
    pose proof (Ht ReserveTaskPriorityMedium ltac:(done)).
    pose proof (Ht ReserveTaskPriorityLow ltac:(done)).
    repeat case_match; zbool; try lia; done.
Qed.
End limit_lemmas.

Lemma limit_le_refl {X} `{Limit X} (x : X) : limit_le x x.
Proof. unfold limit_le. repeat split; intros; lia. Qed.

Lemma limit_le_trans {X Y W} `{Limit X, Limit Y, Limit W} (x : X) (y : Y) (w : W) :
  limit_le x y -> limit_le y w -> limit_le x w.
Proof.
  unfold limit_le. intros (? & ? & ? & Hc & ? & Ht) (? & ? & ? & Hc' & ? & Ht').
  repeat split; try lia; intros a Ha;
    first [specialize (Hc a Ha); specialize (Hc' a Ha)
          |specialize (Ht a Ha); specialize (Ht' a Ha)]; lia.
Qed.

(** Limits with non-negative fields, as a configuration sets them. *)
Definition nonneg_limit (m : GfSpLimit.t) : Prop :=
  0 <= GfSpLimit.Memory m /\ 0 <= GfSpLimit.Tasks m /\ 0 <= GfSpLimit.TasksHighPriority m /\
  0 <= GfSpLimit.TasksMediumPriority m /\ 0 <= GfSpLimit.TasksLowPriority m /\
  0 <= GfSpLimit.Fd m /\ 0 <= GfSpLimit.Conns m /\ 0 <= GfSpLimit.ConnsInbound m /\
  0 <= GfSpLimit.ConnsOutbound m.

Module GfSpLimitFacts.
Import GfSpLimit.

(** On non-negative operands a successful [Sub] computes the exact difference:
    no field wraps around and none becomes negative. *)
Lemma Sub_exact (m x : t) :
  typed m -> typed x -> nonneg_limit x ->
  Sub m x =
    if not_less m x then
      (mk (Memory m - Memory x) (Tasks m - Tasks x)
         (TasksHighPriority m - TasksHighPriority x)
         (TasksMediumPriority m - TasksMediumPriority x)
         (TasksLowPriority m - TasksLowPriority x) (Fd m - Fd x)
         (Conns m - Conns x) (ConnsInbound m - ConnsInbound x)
         (ConnsOutbound m - ConnsOutbound x), true)
    else (m, false).
Proof.
  intros Hm Hx Hp. unfold Sub. destruct (not_less m x) eqn:E; cbn [negb]; [|done].
  apply not_less_iff in E. destruct E as (?&?&?&Hc&?&Ht).
  pose proof (Hc DirInbound ltac:(done)). pose proof (Hc DirOutbound ltac:(done)).
  pose proof (Ht ReserveTaskPriorityHigh ltac:(done)).
  pose proof (Ht ReserveTaskPriorityMedium ltac:(done)).
  pose proof (Ht ReserveTaskPriorityLow ltac:(done)).
  unfold typed, nonneg_limit in *. cbn in *. destruct_and!. clear Hc Ht.
  go_wrap. done.
Qed.

Lemma Sub_nonneg (m x m' : t) :
  typed m -> typed x -> nonneg_limit x -> nonneg_limit m -> Sub m x = (m', true) -> nonneg_limit m'.
Proof.
  intros Hm Hx Hp Hpm. rewrite Sub_exact by done.
  destruct (not_less m x) eqn:E; [|done]. intros [= <-].
  apply not_less_iff in E. destruct E as (?&?&?&Hc&?&Ht).
  pose proof (Hc DirInbound ltac:(done)). pose proof (Hc DirOutbound ltac:(done)).
  pose proof (Ht ReserveTaskPriorityHigh ltac:(done)).
  pose proof (Ht ReserveTaskPriorityMedium ltac:(done)).
  pose proof (Ht ReserveTaskPriorityLow ltac:(done)).
  unfold nonneg_limit in *. cbn in *. clear Hc Ht. destruct_and!. repeat split; lia.
Qed.

(** Subtracting what was added gives the limit back, wrap-around included. *)
Lemma swrap32_add_sub a b : is_int32 a -> swrap 32 (swrap 32 (a + b) - b) = a.
Proof. intros Ha. rewrite swrap_add_sub by lia. by apply int32_wrap_id. Qed.

Lemma Add_Sub (m x m' : t) :
  typed m -> Sub (Add m x) x = (m', true) -> m' = m.
Proof.
  intros Hm. unfold Sub. case_match; [done|]. intros [= <-].
  unfold typed in Hm. destruct_and!. destruct m; cbn in *.
  rewrite int64_add_sub, !swrap32_add_sub by done. done.
Qed.

Lemma Equal_iff (m x : t) : Equal m x = true <-> m = x.
Proof.
  unfold Equal. destruct m, x; cbn. split.
  - intros E. repeat match type of E with
      | (if negb ?b then _ else _) = true => destruct b eqn:?; cbn in E; [|done]
      end. zbool. by subst.
  - intros [= -> -> -> -> -> -> -> -> ->]. by rewrite !Z.eqb_refl.
Qed.
End GfSpLimitFacts.
