(* ===== verification/Resources.v ===== *)
(** Resource accounting of one scope: base/gfsprcmgr/resource.go, with the error
    values of base/gfsprcmgr/error.go.  [resources] is generic in the limit
    implementation ([Limit] of Limit.v); its operations keep Go's wrap-around
    arithmetic, the overflow tests and the big-integer fallback included. *)
From Stdlib Require Import ZArith Lia.
From stdpp Require Import base gmap list strings.
From S2P Require Import Prelude Limit.

Local Open Scope Z_scope.
Local Open Scope go_scope.

(** ** error.go *)

Inductive rerror :=
| ErrResourceScopeClosed
| ErrNegativeMemory (rsvp : Z)
| ErrMemoryLimitExceeded (current attempted limit : Z) (priority : Z)
| ErrTaskLimitExceeded (what : string) (current attempted limit : Z)
| ErrConnLimitExceeded (what : string) (current attempted limit : Z)
| ErrWrapped (name : string) (err : rerror).

(** ** resource.go *)

Record resources (L : Type) := mkResources {
  limit : L;
  nconnsIn : Z;
  nconnsOut : Z;
  nfd : Z;
  ntasksHigh : Z;
  ntasksMedium : Z;
  ntasksLow : Z;
  memory : Z
}.
Arguments mkResources {L}.
Arguments limit {L}.
Arguments nconnsIn {L}.
Arguments nconnsOut {L}.
Arguments nfd {L}.
Arguments ntasksHigh {L}.
Arguments ntasksMedium {L}.
Arguments ntasksLow {L}.
Arguments memory {L}.

(** Reduces the projections of explicit accountings, and nothing else. *)
Ltac rproj :=
  cbn [limit nconnsIn nconnsOut nfd ntasksHigh ntasksMedium ntasksLow memory] in *.

Definition set_memory {L} (m : Z) (rc : resources L) : resources L :=
  mkResources (limit rc) (nconnsIn rc) (nconnsOut rc) (nfd rc)
    (ntasksHigh rc) (ntasksMedium rc) (ntasksLow rc) m.
Definition set_tasks {L} (h m l : Z) (rc : resources L) : resources L :=
  mkResources (limit rc) (nconnsIn rc) (nconnsOut rc) (nfd rc) h m l (memory rc).
Definition set_conns {L} (i o f : Z) (rc : resources L) : resources L :=
  mkResources (limit rc) i o f (ntasksHigh rc) (ntasksMedium rc) (ntasksLow rc) (memory rc).

(** [resources{limit: limit}] *)
Definition new_resources {L} (l : L) : resources L := mkResources l 0 0 0 0 0 0 0.

Definition addInt64WithOverflow (a b : Z) : Z * bool :=
  let c := a +' b in (c, Bool.eqb (c >? a) (b >? 0)).

Definition mulInt64WithOverflow (a b : Z) : Z * bool :=
  let c := a *' b in
  if (a =? 0) || (b =? 0) || (a =? 1) || (b =? 1) then (c, true)
  else if (a =? MaxInt64) || (b =? MinInt64) then (c, false)
  else (c, c /' b =? a).

(** [if x < 0 { x = 0 }] of the release operations. *)
Definition clamp0 (x : Z) : Z := if x <? 0 then 0 else x.

Section resources.
Context {L : Type} `{Limit L}.
Implicit Types rc : resources L.

Definition remaining rc : GfSpLimit.t :=
  let used := ntasksHigh rc +' ntasksMedium rc +' ntasksLow rc in
  let left (lim used : Z) := if lim >? used then swrap 32 (lim -' used) else 0 in
  {| GfSpLimit.Memory :=
       if GetMemoryLimit (limit rc) >? memory rc
       then GetMemoryLimit (limit rc) -' memory rc else 0;
     GfSpLimit.Tasks := left (GetTaskTotalLimit (limit rc)) used;
     GfSpLimit.TasksHighPriority :=
       left (GetTaskLimit (limit rc) ReserveTaskPriorityHigh) (ntasksHigh rc);
     GfSpLimit.TasksMediumPriority :=
       left (GetTaskLimit (limit rc) ReserveTaskPriorityMedium) (ntasksMedium rc);
     GfSpLimit.TasksLowPriority :=
       left (GetTaskLimit (limit rc) ReserveTaskPriorityLow) (ntasksLow rc);
     GfSpLimit.Fd := 0; GfSpLimit.Conns := 0;
     GfSpLimit.ConnsInbound := 0; GfSpLimit.ConnsOutbound := 0 |}.

(** The threshold of [checkMemory]: the product, or its big-integer version
    when the product overflows. *)
Definition threshold (lim prio : Z) : Z :=
  let '(th, mulOk) := mulInt64WithOverflow (1 + prio) lim in
  if negb mulOk then
    let thresholdBig := Z.shiftr (lim * (1 + prio)) 8 in
    if (MinInt64 <=? thresholdBig) && (thresholdBig <=? MaxInt64)
    then thresholdBig else lim
  else th /' 256.

Definition checkMemory rc (rsvp prio : Z) : option rerror :=
  if rsvp <? 0 then Some (ErrNegativeMemory rsvp)
  else
    let lim := GetMemoryLimit (limit rc) in
    if lim =? MaxInt64 then None
    else
      let '(newMem, addOk) := addInt64WithOverflow (memory rc) rsvp in
      if negb addOk || (newMem >? threshold lim prio)
      then Some (ErrMemoryLimitExceeded (memory rc) rsvp lim prio)
      else None.

Definition reserveMemory rc (size prio : Z) : result rerror (resources L) :=
  match checkMemory rc size prio with
  | Some err => Err err
  | None => Ok (set_memory (memory rc +' size) rc)
  end.

Definition releaseMemory rc (size : Z) : resources L :=
  set_memory (clamp0 (memory rc -' size)) rc.

Definition addTasks rc (high medium low : Z) : result rerror (resources L) :=
  let lim := limit rc in
  if ntasksHigh rc +' ntasksMedium rc +' ntasksLow rc +' high +' medium +' low
       >? GetTaskTotalLimit lim
  then Err (ErrTaskLimitExceeded "total"
              (ntasksHigh rc +' ntasksMedium rc +' ntasksLow rc)
              (high +' medium +' low) (GetTaskTotalLimit lim))
  else if high +' ntasksHigh rc >? GetTaskLimit lim ReserveTaskPriorityHigh
  then Err (ErrTaskLimitExceeded "high" (ntasksHigh rc) high
              (GetTaskLimit lim ReserveTaskPriorityHigh))
  else if medium +' ntasksMedium rc >? GetTaskLimit lim ReserveTaskPriorityMedium
  then Err (ErrTaskLimitExceeded "medium" (ntasksMedium rc) medium
              (GetTaskLimit lim ReserveTaskPriorityMedium))
  else if low +' ntasksLow rc >? GetTaskLimit lim ReserveTaskPriorityLow
  then Err (ErrTaskLimitExceeded "low" (ntasksLow rc) low
              (GetTaskLimit lim ReserveTaskPriorityLow))
  else Ok (set_tasks (ntasksHigh rc +' high) (ntasksMedium rc +' medium)
             (ntasksLow rc +' low) rc).

Definition addTask rc (num : Z) (prio : ReserveTaskPriority) : result rerror (resources L) :=
  match prio with
  | ReserveTaskPriorityHigh => addTasks rc num 0 0
  | ReserveTaskPriorityMedium => addTasks rc 0 num 0
  | _ => addTasks rc 0 0 num
  end.

Definition removeTasks rc (high medium low : Z) : resources L :=
  set_tasks (clamp0 (ntasksHigh rc -' high)) (clamp0 (ntasksMedium rc -' medium))
    (clamp0 (ntasksLow rc -' low)) rc.

(** Unlike [addTask], which counts every other priority as low, an unknown
    priority removes nothing. *)
Definition removeTask rc (num : Z) (prio : ReserveTaskPriority) : resources L :=
  match prio with
  | ReserveTaskPriorityHigh => removeTasks rc num 0 0
  | ReserveTaskPriorityMedium => removeTasks rc 0 num 0
  | ReserveTaskPriorityLow => removeTasks rc 0 0 num
  | ReserveTaskPriorityUnknown => rc
  end.

Definition addConns rc (inCount outCount fdCount : Z) : result rerror (resources L) :=
  let lim := limit rc in
  if (inCount >? 0) && (nconnsIn rc +' inCount >? GetConnLimit lim DirInbound)
  then Err (ErrConnLimitExceeded "inbound" (nconnsIn rc) inCount (GetConnLimit lim DirInbound))
  else if (outCount >? 0) && (nconnsOut rc +' outCount >? GetConnLimit lim DirOutbound)
  then Err (ErrConnLimitExceeded "outbound" (nconnsOut rc) outCount (GetConnLimit lim DirOutbound))
  else if nconnsIn rc +' inCount +' nconnsOut rc +' outCount >? GetConnTotalLimit lim
  then Err (ErrConnLimitExceeded "total" (nconnsIn rc +' nconnsOut rc)
              (inCount +' outCount) (GetConnTotalLimit lim))
  else if (fdCount >? 0) && (nfd rc +' fdCount >? GetFDLimit lim)
  then Err (ErrConnLimitExceeded "fd" (nfd rc) fdCount (GetFDLimit lim))
  else Ok (set_conns (nconnsIn rc +' inCount) (nconnsOut rc +' outCount)
             (nfd rc +' fdCount) rc).

Definition addConn rc (dir : Direction) : result rerror (resources L) :=
  match dir with
  | DirInbound => addConns rc 1 0 1
  | _ => addConns rc 0 1 1
  end.

Definition removeConns rc (inCount outCount fdCount : Z) : resources L :=
  set_conns (clamp0 (nconnsIn rc -' inCount)) (clamp0 (nconnsOut rc -' outCount))
    (clamp0 (nfd rc -' fdCount)) rc.

Definition removeConn rc (dir : Direction) : resources L :=
  match dir with
  | DirInbound => removeConns rc 1 0 1
  | _ => removeConns rc 0 1 1
  end.

Definition stat rc : ScopeStat :=
  mkStat (memory rc) (ntasksHigh rc) (ntasksMedium rc) (ntasksLow rc)
    (nconnsIn rc) (nconnsOut rc) (nfd rc).
End resources.

(** ** Overflow tests *)

(** The addition test is exact. *)
Lemma add_overflow_exact a b :
  is_int64 a -> is_int64 b ->
  snd (addInt64WithOverflow a b) = true <-> is_int64 (a + b).
Proof.
  intros Ha Hb. unfold addInt64WithOverflow. cbn.
  destruct (swrap64_offset (a + b)) as (k & Hk & Hr).
  rewrite Hk in *. rewrite Bool.eqb_true_iff.
  rewrite !Z.gtb_ltb. go_unfold. split.
  - intros E. assert (k = 0) as ->; [|lia].
    destruct (Z.ltb_spec a (a + b + k * 18446744073709551616)),
      (Z.ltb_spec 0 b); try done; lia.
  - intros ?. assert (k = 0) as -> by lia.
    destruct (Z.ltb_spec a (a + b + 0 * 18446744073709551616)),
      (Z.ltb_spec 0 b); try done; lia.
Qed.

(** A product reported as fitting is the exact product, for every pair of
    operands but (MinInt64, -1). *)
Lemma mul_overflow_exact a b :
  is_int64 a -> is_int64 b -> ~ (a = MinInt64 /\ b = -1) ->
  snd (mulInt64WithOverflow a b) = true ->
  fst (mulInt64WithOverflow a b) = a * b.
Proof.
  intros Ha Hb Hne. unfold mulInt64WithOverflow.
  destruct ((a =? 0) || _ || _ || _) eqn:E0.
  { intros _. cbn. rewrite !orb_true_iff, !Z.eqb_eq in E0.
    destruct_or!; subst; apply int64_wrap_id; go_lia. }
  rewrite !orb_false_iff in E0. destruct_and!. zbool.
  destruct ((a =? MaxInt64) || _) eqn:E1; [done|].
  rewrite orb_false_iff in E1. destruct_and!. zbool. cbn. intros E2. zbool.
  destruct (swrap64_offset (a * b)) as (k & Hk & Hr). rewrite Hk in *.
  set (c := a * b + k * 18446744073709551616) in *.
  assert (~ (c = MinInt64 /\ b = -1)) as Hc.
  { intros [Hc ->]. rewrite Hc in E2. vm_compute in E2. apply Hne. split; [|done]. by subst. }
  assert (is_int64 (Z.quot c b)) as Hq.
  { pose proof (Z.quot_rem' c b). pose proof (Z.rem_bound_abs c b ltac:(lia)).
    go_unfold. destruct (Z.eq_dec b (-1)) as [->|]; [|nia].
    change (-1) with (- (1)). rewrite Z.quot_opp_r, Z.quot_1_r by lia. lia. }
  rewrite int64_wrap_id in E2 by done.
  pose proof (Z.quot_rem' c b) as Hqr. pose proof (Z.rem_bound_abs c b ltac:(lia)).
  rewrite E2 in Hqr. subst c. go_unfold. lia.
Qed.

(** Conversely a product that fits is reported as fitting, unless an operand
    is one of the two values the code rejects without dividing. *)
Lemma mul_overflow_complete a b :
  is_int64 a -> is_int64 (a * b) -> a <> MaxInt64 -> b <> MinInt64 ->
  snd (mulInt64WithOverflow a b) = true.
Proof.
  intros Ha Hab Hna Hnb. unfold mulInt64WithOverflow.
  destruct ((a =? 0) || _ || _ || _) eqn:E0; [done|].
  rewrite !orb_false_iff in E0. destruct_and!. zbool.
  destruct ((a =? MaxInt64) || _) eqn:E1.
  { rewrite orb_true_iff in E1. destruct_or!; zbool; done. }
  cbn. rewrite (int64_wrap_id (a * b)) by done. rewrite Z.quot_mul by done.
  rewrite int64_wrap_id by done. apply Z.eqb_refl.
Qed.

(** The threshold is the exact fraction of the limit: the big-integer path and
    the fallback of the source compute nothing else. *)
Lemma threshold_exact lim prio :
  0 <= lim <= MaxInt64 -> 0 <= prio <= 255 ->
  threshold lim prio = (1 + prio) * lim / 256.
Proof.
  intros Hl Hp. unfold threshold.
  pose proof (mul_overflow_exact (1 + prio) lim ltac:(go_lia) ltac:(go_lia) ltac:(go_lia)) as Hm.
  assert (0 <= (1 + prio) * lim / 256 <= lim) as Hr.
  { split; [apply Z.div_pos; nia|]. apply Z.div_le_upper_bound; nia. }
  destruct (mulInt64WithOverflow (1 + prio) lim) as [c ok]. cbn in Hm.
  destruct ok; cbn [negb].
  - rewrite Hm by done. rewrite Z.quot_div_nonneg by nia. apply int64_wrap_id. go_lia.
  - rewrite Z.shiftr_div_pow2 by lia. change (2 ^ 8) with 256.
    rewrite (Z.mul_comm lim). case_match eqn:E; [done|].
    rewrite andb_false_iff in E. destruct_or!; zbool; go_lia.
Qed.

(** ** The invariant of a scope's accounting *)

(** Limits as a configuration gives them: non-negative counts of 32 bits, and a
    memory limit that is not the "no limit" value. *)
Definition limit_bounded {L} `{Limit L} (l : L) : Prop :=
  0 <= GetMemoryLimit l < MaxInt64 /\
  0 <= GetFDLimit l <= MaxInt32 /\
  (forall d, 0 <= GetConnLimit l d <= MaxInt32) /\
  0 <= GetConnTotalLimit l <= MaxInt32 /\
  (forall p, 0 <= GetTaskLimit l p <= MaxInt32) /\
  0 <= GetTaskTotalLimit l <= MaxInt32.

(** Every counter is non-negative and within its limit, totals included. *)
Definition res_inv {L} `{Limit L} (rc : resources L) : Prop :=
  limit_bounded (limit rc) /\
  0 <= memory rc <= GetMemoryLimit (limit rc) /\
  0 <= nconnsIn rc <= GetConnLimit (limit rc) DirInbound /\
  0 <= nconnsOut rc <= GetConnLimit (limit rc) DirOutbound /\
  nconnsIn rc + nconnsOut rc <= GetConnTotalLimit (limit rc) /\
  0 <= nfd rc <= GetFDLimit (limit rc) /\
  0 <= ntasksHigh rc <= GetTaskLimit (limit rc) ReserveTaskPriorityHigh /\
  0 <= ntasksMedium rc <= GetTaskLimit (limit rc) ReserveTaskPriorityMedium /\
  0 <= ntasksLow rc <= GetTaskLimit (limit rc) ReserveTaskPriorityLow /\
  ntasksHigh rc + ntasksMedium rc + ntasksLow rc <= GetTaskTotalLimit (limit rc).

(** Only the types: what the undo of a failed reservation needs. *)
Definition res_typed {L} (rc : resources L) : Prop :=
  0 <= memory rc <= MaxInt64 /\ 0 <= nconnsIn rc <= MaxInt64 /\ 0 <= nconnsOut rc <= MaxInt64 /\
  0 <= nfd rc <= MaxInt64 /\ 0 <= ntasksHigh rc <= MaxInt64 /\
  0 <= ntasksMedium rc <= MaxInt64 /\ 0 <= ntasksLow rc <= MaxInt64.

(** The arguments of a reservation: non-negative and far from the [int] bounds. *)
Definition count_ok (n : Z) : Prop := 0 <= n <= 2 ^ 61.

Lemma clamp0_id x : 0 <= x -> clamp0 x = x.
Proof. unfold clamp0. case_match; zbool; lia. Qed.

Lemma clamp0_range x hi : 0 <= hi -> x <= hi -> 0 <= clamp0 x <= hi.
Proof. unfold clamp0. case_match; zbool; lia. Qed.

Lemma clamp0_undo a b : 0 <= a <= MaxInt64 -> clamp0 (swrap 64 (swrap 64 (a + b) - b)) = a.
Proof. intros. rewrite int64_add_sub by go_lia. apply clamp0_id. lia. Qed.

Lemma clamp0_keep a : 0 <= a <= MaxInt64 -> clamp0 (swrap 64 (a - 0)) = a.
Proof. intros. rewrite Z.sub_0_r. rewrite int64_wrap_id by go_lia. apply clamp0_id. lia. Qed.

Lemma clamp0_exact a b : 0 <= a <= MaxInt64 -> clamp0 (swrap 64 (a + b - b)) = a.
Proof.
  intros. replace (a + b - b) with a by lia. rewrite int64_wrap_id by go_lia. apply clamp0_id. lia.
Qed.

Section resource_lemmas.
Context {L : Type} `{Limit L}.
Implicit Types rc : resources L.

(** *** Undo: a release gives back exactly what the reservation took, even where
    the counters overflowed in between. *)

Lemma reserve_release rc size prio rc' :
  res_typed rc -> reserveMemory rc size prio = Ok rc' -> releaseMemory rc' size = rc.
Proof.
  unfold reserveMemory. intros Ht. case_match; [done|]. intros [= <-].
  unfold res_typed in Ht. destruct_and!.
  unfold releaseMemory, set_memory; cbn. rewrite clamp0_undo by done. by destruct rc.
Qed.

Lemma addTasks_ok rc h m l rc' :
  addTasks rc h m l = Ok rc' ->
  rc' = set_tasks (ntasksHigh rc +' h) (ntasksMedium rc +' m) (ntasksLow rc +' l) rc.
Proof. unfold addTasks. repeat (case_match; [done|]). by intros [= <-]. Qed.

Lemma addTasks_removeTasks rc h m l rc' :
  res_typed rc -> addTasks rc h m l = Ok rc' -> removeTasks rc' h m l = rc.
Proof.
  intros Ht ->%addTasks_ok. unfold res_typed in Ht. destruct_and!.
  unfold removeTasks, set_tasks; cbn. rewrite !clamp0_undo by done. by destruct rc.
Qed.

Lemma addTask_removeTask rc num prio rc' :
  res_typed rc -> prio <> ReserveTaskPriorityUnknown ->
  addTask rc num prio = Ok rc' -> removeTask rc' num prio = rc.
Proof. intros Ht Hp. unfold addTask, removeTask.
  destruct prio; [done|..]; by apply addTasks_removeTasks. Qed.

Lemma addConns_ok rc i o f rc' :
  addConns rc i o f = Ok rc' ->
  rc' = set_conns (nconnsIn rc +' i) (nconnsOut rc +' o) (nfd rc +' f) rc.
Proof. unfold addConns. repeat (case_match; [done|]). by intros [= <-]. Qed.

Lemma addConns_removeConns rc i o f rc' :
  res_typed rc -> addConns rc i o f = Ok rc' -> removeConns rc' i o f = rc.
Proof.
  intros Ht ->%addConns_ok. unfold res_typed in Ht. destruct_and!.
  unfold removeConns, set_conns; cbn. rewrite !clamp0_undo by done. by destruct rc.
Qed.

Lemma addConn_removeConn rc dir rc' :
  res_typed rc -> addConn rc dir = Ok rc' -> removeConn rc' dir = rc.
Proof. intros Ht. unfold addConn, removeConn. destruct dir; by apply addConns_removeConns. Qed.

(** *** Functional behaviour inside the invariant *)

Lemma res_inv_typed rc : res_inv rc -> res_typed rc.
Proof.
  unfold res_inv, res_typed, limit_bounded. intros (Hl & ?). destruct Hl as (?&?&Hc&?&Ht&?).
  pose proof (Hc DirInbound). pose proof (Hc DirOutbound).
  pose proof (Ht ReserveTaskPriorityHigh). pose proof (Ht ReserveTaskPriorityMedium).
  pose proof (Ht ReserveTaskPriorityLow). destruct_and!. repeat split; go_lia.
Qed.

Lemma checkMemory_iff rc rsvp prio :
  0 <= memory rc <= MaxInt64 -> 0 <= GetMemoryLimit (limit rc) <= MaxInt64 ->
  is_int64 rsvp -> 0 <= prio <= 255 ->
  checkMemory rc rsvp prio = None <->
  0 <= rsvp /\ (GetMemoryLimit (limit rc) = MaxInt64 \/
    memory rc + rsvp <= (1 + prio) * GetMemoryLimit (limit rc) / 256).
Proof.
  intros Hm Hl Hr Hp. unfold checkMemory.
  destruct (rsvp <? 0) eqn:E; zbool.
  { split; [done|lia]. }
  destruct (_ =? MaxInt64) eqn:E1; zbool.
  { split; [intros _; split; [lia|by left]|done]. }
  pose proof (add_overflow_exact (memory rc) rsvp ltac:(go_lia) Hr) as Ha.
  rewrite threshold_exact by done.
  assert ((1 + prio) * GetMemoryLimit (limit rc) / 256 <= GetMemoryLimit (limit rc)) as Hth.
  { apply Z.div_le_upper_bound; nia. }
  unfold addInt64WithOverflow in *. cbn in *. destruct (Bool.eqb _ _); cbn.
  - destruct Ha as [Ha _]. specialize (Ha eq_refl). rewrite int64_wrap_id by done.
    destruct (_ >? _) eqn:E2; zbool; [split; [done|lia]|]. split; [intros _; lia|done].
  - split; [done|]. intros [_ [?|Hs]]; [done|]. exfalso.
    destruct Ha as [_ Ha]. discriminate Ha. go_lia.
Qed.

Lemma reserveMemory_inv rc size prio rc' :
  res_inv rc -> is_int64 size -> 0 <= prio <= 255 ->
  reserveMemory rc size prio = Ok rc' ->
  res_inv rc' /\ memory rc' = memory rc + size /\ 0 <= size.
Proof.
  intros Hi Hs Hp. unfold reserveMemory. destruct (checkMemory rc size prio) eqn:E; [done|].
  intros [= <-]. pose proof Hi as Hi'. unfold res_inv, limit_bounded in Hi'. destruct_and!.
  apply checkMemory_iff in E as [Hs0 E]; [|go_lia|go_lia|done|done].
  destruct E as [E|E]; [lia|].
  assert ((1 + prio) * GetMemoryLimit (limit rc) / 256 <= GetMemoryLimit (limit rc)) as Hth.
  { apply Z.div_le_upper_bound; nia. }
  cbn. rewrite int64_wrap_id by go_lia. split; [|done].
  unfold res_inv, limit_bounded; cbn; split_and!; auto; lia.
Qed.

Lemma releaseMemory_inv rc size :
  res_inv rc -> 0 <= size <= MaxInt64 -> res_inv (releaseMemory rc size).
Proof.
  intros Hi Hs. unfold res_inv, limit_bounded in *. destruct_and!. cbn.
  rewrite int64_wrap_id by go_lia.
  assert (0 <= clamp0 (memory rc - size) <= GetMemoryLimit (limit rc)) by (apply clamp0_range; lia).
  split_and!; auto; lia.
Qed.

(** Task reservations are granted exactly when all four limits allow them. *)
Lemma addTasks_iff rc h m l :
  res_inv rc -> count_ok h -> count_ok m -> count_ok l ->
  is_ok (addTasks rc h m l) = true <->
  ntasksHigh rc + ntasksMedium rc + ntasksLow rc + h + m + l <= GetTaskTotalLimit (limit rc) /\
  ntasksHigh rc + h <= GetTaskLimit (limit rc) ReserveTaskPriorityHigh /\
  ntasksMedium rc + m <= GetTaskLimit (limit rc) ReserveTaskPriorityMedium /\
  ntasksLow rc + l <= GetTaskLimit (limit rc) ReserveTaskPriorityLow.
Proof.
  intros Hi Hh Hm Hl. unfold res_inv, limit_bounded in Hi.
  destruct Hi as ((?&?&_&?&Ht&?)&?&_&_&_&_&?&?&?&?).
  pose proof (Ht ReserveTaskPriorityHigh). pose proof (Ht ReserveTaskPriorityMedium).
  pose proof (Ht ReserveTaskPriorityLow). clear Ht. unfold count_ok in *.
  unfold addTasks. go_wrap. split.
  - repeat case_match; try done; zbool; intros; lia.
  - intros. repeat case_match; try done; zbool; lia.
Qed.

Lemma addTasks_inv rc h m l rc' :
  res_inv rc -> count_ok h -> count_ok m -> count_ok l ->
  addTasks rc h m l = Ok rc' ->
  res_inv rc' /\ ntasksHigh rc' = ntasksHigh rc + h /\
  ntasksMedium rc' = ntasksMedium rc + m /\ ntasksLow rc' = ntasksLow rc + l.
Proof.
  intros Hi Hh Hm Hl E. pose proof (addTasks_iff rc h m l Hi Hh Hm Hl) as [Hok _].
  rewrite E in Hok. specialize (Hok eq_refl). apply addTasks_ok in E as ->.
  unfold res_inv, limit_bounded in Hi |- *. cbn. destruct Hi as ((?&?&Hc&?&Ht&?)&?&?&?&?&?&?&?&?&?).
  pose proof (Ht ReserveTaskPriorityHigh). pose proof (Ht ReserveTaskPriorityMedium).
  pose proof (Ht ReserveTaskPriorityLow). unfold count_ok in *. go_wrap.
  split_and!; auto; lia.
Qed.

Lemma removeTasks_inv rc h m l :
  res_inv rc -> count_ok h -> count_ok m -> count_ok l -> res_inv (removeTasks rc h m l).
Proof.
  intros Hi Hh Hm Hl. pose proof (res_inv_typed rc Hi) as Hty.
  unfold res_inv, limit_bounded, res_typed, count_ok in *.
  destruct Hi as ((?&?&Hc&?&Ht&?)&?&?&?&?&?&?&?&?&?). destruct_and!. cbn. go_wrap.
  pose proof (clamp0_range (ntasksHigh rc - h) (ntasksHigh rc) ltac:(lia) ltac:(lia)).
  pose proof (clamp0_range (ntasksMedium rc - m) (ntasksMedium rc) ltac:(lia) ltac:(lia)).
  pose proof (clamp0_range (ntasksLow rc - l) (ntasksLow rc) ltac:(lia) ltac:(lia)).
  split_and!; auto; lia.
Qed.

(** Connection reservations likewise. *)
Lemma addConns_iff rc i o f :
  res_inv rc -> count_ok i -> count_ok o -> count_ok f ->
  is_ok (addConns rc i o f) = true <->
  nconnsIn rc + i <= GetConnLimit (limit rc) DirInbound /\
  nconnsOut rc + o <= GetConnLimit (limit rc) DirOutbound /\
  nconnsIn rc + nconnsOut rc + i + o <= GetConnTotalLimit (limit rc) /\
  nfd rc + f <= GetFDLimit (limit rc).
Proof.
  intros Hi ? ? ?. unfold res_inv, limit_bounded in Hi.
  destruct Hi as ((?&?&Hc&?&_&?)&?&?&?&?&?&_&_&_&_).
  pose proof (Hc DirInbound). pose proof (Hc DirOutbound). clear Hc. unfold count_ok in *.
  unfold addConns. go_wrap. split.
  - intros E. repeat case_match; try done; zbool;
      repeat match goal with X : (_ && _) = false |- _ => apply andb_false_iff in X; destruct X end;
      zbool; repeat split; lia.
  - intros. repeat case_match; try done; zbool; lia.
Qed.

Lemma addConns_inv rc i o f rc' :
  res_inv rc -> count_ok i -> count_ok o -> count_ok f ->
  addConns rc i o f = Ok rc' ->
  res_inv rc' /\ nconnsIn rc' = nconnsIn rc + i /\
  nconnsOut rc' = nconnsOut rc + o /\ nfd rc' = nfd rc + f.
Proof.
  intros Hi Hh Hm Hl E. pose proof (addConns_iff rc i o f Hi Hh Hm Hl) as [Hok _].
  rewrite E in Hok. specialize (Hok eq_refl). apply addConns_ok in E as ->.
  unfold res_inv, limit_bounded in Hi |- *. cbn. destruct Hi as ((?&?&Hc&?&Ht&?)&?&?&?&?&?&?&?&?&?).
  pose proof (Hc DirInbound). pose proof (Hc DirOutbound). unfold count_ok in *. go_wrap.
  split_and!; auto; lia.
Qed.

Lemma removeConns_inv rc i o f :
  res_inv rc -> count_ok i -> count_ok o -> count_ok f -> res_inv (removeConns rc i o f).
Proof.
  intros Hi Hh Hm Hl. pose proof (res_inv_typed rc Hi) as Hty.
  unfold res_inv, limit_bounded, res_typed, count_ok in *.
  destruct Hi as ((?&?&Hc&?&Ht&?)&?&?&?&?&?&?&?&?&?). destruct_and!. cbn. go_wrap.
  pose proof (clamp0_range (nconnsIn rc - i) (nconnsIn rc) ltac:(lia) ltac:(lia)).
  pose proof (clamp0_range (nconnsOut rc - o) (nconnsOut rc) ltac:(lia) ltac:(lia)).
  pose proof (clamp0_range (nfd rc - f) (nfd rc) ltac:(lia) ltac:(lia)).
  split_and!; auto; lia.
Qed.
End resource_lemmas.

#[export] Hint Resolve res_inv_typed reserveMemory_inv releaseMemory_inv addTasks_inv
  removeTasks_inv addConns_inv removeConns_inv : go.
