(* ===== verification/Scope.v ===== *)
(** Resource scopes: base/gfsprcmgr/scope.go.

    Scopes are Go pointers that share state: a span charges its owner, a DAG scope
    charges its edges.  The store of scopes is a heap [gmap nat (scope L)] and an
    operation on a pointer is a computation in the partial state monad [scopeM]:
    [None] is a crash (dangling pointer, or a cycle of owners, on which the source
    deadlocks).  Every public operation holds the mutexes of all the scopes it
    touches until it returns, so operations are atomic and a run is a sequence of
    them.  The recursion along owners has fuel; [targets_fuel] and [reserve_up_spec]
    show that one unit more than the pointer's number is enough on a well-formed
    heap, where an owner is always allocated before its spans. *)
From Stdlib Require Import ZArith Lia.
From stdpp Require Import base gmap list strings pretty.
From S2P Require Import Prelude Limit Resources.

Local Open Scope Z_scope.
Local Open Scope go_scope.

Record scope (L : Type) := mkScope {
  done : bool;
  refCnt : Z;
  spanID : Z;
  rc : resources L;
  owner : option nat;
  edges : list nat;
  name : string
}.
Arguments mkScope {L}.
Arguments done {L}.
Arguments refCnt {L}.
Arguments spanID {L}.
Arguments rc {L}.
Arguments owner {L}.
Arguments edges {L}.
Arguments name {L}.

Definition set_rc {L} (r : resources L) (s : scope L) : scope L :=
  mkScope (done s) (refCnt s) (spanID s) r (owner s) (edges s) (name s).
Definition set_done {L} (b : bool) (s : scope L) : scope L :=
  mkScope b (refCnt s) (spanID s) (rc s) (owner s) (edges s) (name s).
Definition set_refCnt {L} (n : Z) (s : scope L) : scope L :=
  mkScope (done s) n (spanID s) (rc s) (owner s) (edges s) (name s).
Definition set_spanID {L} (n : Z) (s : scope L) : scope L :=
  mkScope (done s) (refCnt s) n (rc s) (owner s) (edges s) (name s).

(** ** The monad *)

Abbreviation heap L := (gmap nat (scope L)).

Definition scopeM (L A : Type) : Type := heap L -> option (heap L * A).

#[export] Instance scopeM_ret L : MRet (scopeM L) := fun A a h => Some (h, a).
#[export] Instance scopeM_bind L : MBind (scopeM L) := fun A B f m h =>
  match m h with
  | Some (h', a) => f a h'
  | None => None
  end.

Definition crash {L A} : scopeM L A := fun _ => None.
Definition load {L} (s : nat) : scopeM L (scope L) := fun h =>
  match h !! s with Some sc => Some (h, sc) | None => None end.
Definition store {L} (s : nat) (sc : scope L) : scopeM L unit := fun h =>
  Some (<[s := sc]> h, tt).
(** [s.f = g(s.f)] on the fields of the scope [s] points to. *)
Definition modify {L} (s : nat) (g : scope L -> scope L) : scopeM L unit :=
  sc ← load s; store s (g sc).

Section scope.
Context {L : Type} `{Limit L}.
Implicit Types (sc : scope L) (h : heap L) (st : ScopeStat).

(** A local reservation: the new accounting and the error, if any.  On an error
    the accounting is what the source leaves behind. *)
#[local] Abbreviation attempt := (resources L -> resources L * option rerror).
#[local] Abbreviation release := (resources L -> resources L).

Definition run_result (r : resources L) (x : result rerror (resources L)) :
    resources L * option rerror :=
  match x with Ok r' => (r', None) | Err e => (r, Some e) end.

Definition try_memory (size prio : Z) : attempt := fun r => run_result r (reserveMemory r size prio).
Definition try_task (num : Z) (prio : ReserveTaskPriority) : attempt := fun r =>
  run_result r (addTask r num prio).
Definition try_conn (dir : Direction) : attempt := fun r => run_result r (addConn r dir).

Definition wrapError sc (err : rerror) : rerror := ErrWrapped (name sc) err.

(** The statements that give a whole [ScopeStat] back, as [ReleaseForChild],
    [Release], [ReleaseResourcesWithoutLock] and the rollback of
    [ReserveResources] repeat them. *)
Definition release_stat st : release := fun r =>
  let r := releaseMemory r (Memory st) in
  let r := removeConns r (NumConnsInbound st) (NumConnsOutbound st) (NumFD st) in
  let r := removeTask r (NumTasksHigh st) ReserveTaskPriorityHigh in
  let r := removeTask r (NumTasksMedium st) ReserveTaskPriorityMedium in
  removeTask r (NumTasksLow st) ReserveTaskPriorityLow.

(** The local part of [ReserveForChild] and [ReserveResources]: five
    reservations, each failure rolling back the ones before it. *)
Definition try_stat st : attempt := fun r =>
  match reserveMemory r (Memory st) ReservationPriorityAlways with
  | Err err => (r, Some err)
  | Ok r =>
    match addConns r (NumConnsInbound st) (NumConnsOutbound st) (NumFD st) with
    | Err err => (releaseMemory r (Memory st), Some err)
    | Ok r =>
      match addTask r (NumTasksHigh st) ReserveTaskPriorityHigh with
      | Err err =>
        let r := releaseMemory r (Memory st) in
        (removeConns r (NumConnsInbound st) (NumConnsOutbound st) (NumFD st), Some err)
      | Ok r =>
        match addTask r (NumTasksMedium st) ReserveTaskPriorityMedium with
        | Err err =>
          let r := releaseMemory r (Memory st) in
          let r := removeConns r (NumConnsInbound st) (NumConnsOutbound st) (NumFD st) in
          (removeTask r (NumTasksHigh st) ReserveTaskPriorityHigh, Some err)
        | Ok r =>
          match addTask r (NumTasksLow st) ReserveTaskPriorityLow with
          | Err err =>
            let r := releaseMemory r (Memory st) in
            let r := removeConns r (NumConnsInbound st) (NumConnsOutbound st) (NumFD st) in
            let r := removeTask r (NumTasksHigh st) ReserveTaskPriorityHigh in
            (removeTask r (NumTasksMedium st) ReserveTaskPriorityMedium, Some err)
          | Ok r => (r, None)
          end
        end
      end
    end
  end.

(** ** Operations on one scope, called by its children *)

(** [ReserveMemoryForChild], [AddTaskForChild], [AddConnForChild],
    [ReserveForChild]: the stat is only logged by the callers. *)
Definition reserve_for_child (try : attempt) (s : nat) : scopeM L (ScopeStat * option rerror) :=
  sc ← load s;
  if done sc then mret (stat (rc sc), Some (wrapError sc ErrResourceScopeClosed))
  else
    let '(r, err) := try (rc sc) in
    store s (set_rc r sc);;
    match err with
    | Some err => mret (stat r, Some (wrapError sc err))
    | None => mret (zero_stat, None)
    end.

(** [ReleaseMemoryForChild], [RemoveTaskForChild], [RemoveConnForChild],
    [ReleaseForChild]. *)
Definition release_for_child (rel : release) (s : nat) : scopeM L unit :=
  sc ← load s;
  if done sc then mret tt else store s (set_rc (rel (rc sc)) sc).

Fixpoint release_edges (rel : release) (es : list nat) : scopeM L unit :=
  match es with
  | [] => mret tt
  | e :: es => release_for_child rel e;; release_edges rel es
  end.

(** The loop of [reserveMemoryForEdges] (and its task and connection versions):
    stops at the first error and counts the edges that were charged. *)
Fixpoint reserve_loop (try : attempt) (es : list nat) (reserved : nat) :
    scopeM L (nat * option rerror) :=
  match es with
  | [] => mret (reserved, None)
  | e :: es =>
    '(_, err) ← reserve_for_child try e;
    match err with
    | Some err => mret (reserved, Some err)
    | None => reserve_loop try es (S reserved)
    end
  end.

(** ... and the undo of the charged prefix. *)
Definition reserve_edges (try : attempt) (undo : release) (es : list nat) :
    scopeM L (option rerror) :=
  '(reserved, err) ← reserve_loop try es 0%nat;
  match err with
  | Some err => release_edges undo (take reserved es);; mret (Some err)
  | None => mret None
  end.

(** [ReserveResources] charges only the first edge ([break] in the loop body). *)
Definition reserve_first_edge (try : attempt) (es : list nat) : scopeM L (option rerror) :=
  match es with
  | [] => mret None
  | e :: _ => '(_, err) ← reserve_for_child try e; mret err
  end.

(** ** Operations along the owner chain *)

(** The common body of [ReserveMemory], [AddTask], [AddConn] and
    [ReserveResources]: closed check, local reservation, reservation in the owner
    or in the edges, local undo when that failed. *)
Fixpoint reserve_up (try : attempt) (undo : release)
    (for_edges : list nat -> scopeM L (option rerror))
    (wrap : scope L -> rerror -> rerror) (fuel : nat) (s : nat) : scopeM L (option rerror) :=
  match fuel with
  | O => crash
  | S fuel =>
    sc ← load s;
    if done sc then mret (Some (wrapError sc ErrResourceScopeClosed))
    else
      let '(r, err) := try (rc sc) in
      store s (set_rc r sc);;
      match err with
      | Some err => mret (Some (wrapError sc err))
      | None =>
        err ← match owner sc with
              | Some o => reserve_up try undo for_edges wrap fuel o
              | None => for_edges (edges sc)
              end;
        match err with
        | Some err =>
          modify s (fun sc => set_rc (undo (rc sc)) sc);;
          mret (Some (wrap sc err))
        | None => mret None
        end
      end
  end.

(** The common body of [ReleaseMemory], [RemoveTask], [RemoveConn] and
    [ReleaseResources].  [both]: [removeTaskForEdges] and [removeConnForEdges] do
    not return after the owner but go on with the edges. *)
Fixpoint release_up (rel : release) (both : bool) (fuel : nat) (s : nat) : scopeM L unit :=
  match fuel with
  | O => crash
  | S fuel =>
    sc ← load s;
    if done sc then mret tt
    else
      store s (set_rc (rel (rc sc)) sc);;
      match owner sc with
      | Some o =>
        release_up rel both fuel o;;
        if both then release_edges rel (edges sc) else mret tt
      | None => release_edges rel (edges sc)
      end
  end.

(** Fuel of an operation on the pointer [s]. *)
Definition fuel_of (s : nat) : nat := S s.

Definition ReserveMemory (s : nat) (size prio : Z) : scopeM L (option rerror) :=
  let try := try_memory size prio in
  let undo r := releaseMemory r size in
  reserve_up try undo (reserve_edges try undo) wrapError (fuel_of s) s.

Definition ReleaseMemory (s : nat) (size : Z) : scopeM L unit :=
  release_up (fun r => releaseMemory r size) false (fuel_of s) s.

Definition AddTask (s : nat) (num : Z) (prio : ReserveTaskPriority) : scopeM L (option rerror) :=
  let try := try_task num prio in
  let undo r := removeTask r num prio in
  reserve_up try undo (reserve_edges try undo) wrapError (fuel_of s) s.

Definition RemoveTask (s : nat) (num : Z) (prio : ReserveTaskPriority) : scopeM L unit :=
  release_up (fun r => removeTask r num prio) true (fuel_of s) s.

Definition AddConn (s : nat) (dir : Direction) : scopeM L (option rerror) :=
  let try := try_conn dir in
  let undo r := removeConn r dir in
  reserve_up try undo (reserve_edges try undo) wrapError (fuel_of s) s.

Definition RemoveConn (s : nat) (dir : Direction) : scopeM L unit :=
  release_up (fun r => removeConn r dir) true (fuel_of s) s.

Definition ReserveForChild (s : nat) st : scopeM L (option rerror) :=
  '(_, err) ← reserve_for_child (try_stat st) s; mret err.

Definition ReleaseForChild (s : nat) st : scopeM L unit := release_for_child (release_stat st) s.

Definition ReleaseResources (s : nat) st : scopeM L unit :=
  release_up (release_stat st) false (fuel_of s) s.

(** The error of the owner or edge is returned as it is. *)
Definition ReserveResources (s : nat) st : scopeM L (option rerror) :=
  reserve_up (try_stat st) (release_stat st) (reserve_first_edge (try_stat st))
    (fun _ err => err) (fuel_of s) s.

Definition IncRef (s : nat) : scopeM L unit := modify s (fun sc => set_refCnt (refCnt sc +' 1) sc).
Definition DecRef (s : nat) : scopeM L unit := modify s (fun sc => set_refCnt (refCnt sc -' 1) sc).

Fixpoint for_each (f : nat -> scopeM L unit) (es : list nat) : scopeM L unit :=
  match es with
  | [] => mret tt
  | e :: es => f e;; for_each f es
  end.

Definition Release (s : nat) : scopeM L unit :=
  sc ← load s;
  if done sc then mret tt
  else
    let st := stat (rc sc) in
    store s (set_rc (release_stat st (rc sc)) sc);;
    match owner sc with
    | Some o => ReleaseResources o st
    | None => for_each (fun e => ReleaseForChild e st) (edges sc)
    end.

(** What [Done] gives back to the owner or to the edges. *)
Definition release_parents sc st : scopeM L unit :=
  match owner sc with
  | Some o => ReleaseResources o st;; DecRef o
  | None => for_each (fun e => ReleaseForChild e st;; DecRef e) (edges sc)
  end.

(** The task counters are not reset, the others are. *)
Definition Done (s : nat) : scopeM L unit :=
  sc ← load s;
  if done sc then mret tt
  else
    release_parents sc (stat (rc sc));;
    modify s (fun sc => set_done true (set_rc (set_memory 0 (set_conns 0 0 0 (rc sc))) sc)).

(** ** Creation *)

(** Pointers are numbered in allocation order. *)
Definition next_ptr h : nat := map_fold (fun i _ m => Nat.max (S i) m) 0%nat h.
Definition alloc sc : scopeM L nat := fun h =>
  let s := next_ptr h in Some (<[s := sc]> h, s).

Definition newResourceScope (limit : L) (es : list nat) (nm : string) : scopeM L nat :=
  for_each IncRef es;;
  alloc (mkScope false 0 0 (new_resources limit) None es nm).

Definition newResourceScopeSpan (o : nat) (id : Z) (nm : string) : scopeM L nat :=
  sc ← load o;
  alloc (mkScope false 0 0 (new_resources (limit (rc sc))) (Some o) []
           (name sc +:+ ".span-" +:+ nm +:+ "-" +:+ pretty id)).

Definition NextSpanID (s : nat) : scopeM L Z :=
  sc ← load s;
  let id := spanID sc +' 1 in
  store s (set_spanID id sc);; mret id.

Definition BeginSpan (s : nat) : scopeM L (result rerror nat) :=
  sc ← load s;
  if done sc then mret (Err (wrapError sc ErrResourceScopeClosed))
  else
    store s (set_refCnt (refCnt sc +' 1) sc);;
    id ← NextSpanID s;
    p ← newResourceScopeSpan s id "temp";
    mret (Ok p).

(** ** Queries *)

Definition RemainingResource (s : nat) : scopeM L GfSpLimit.t :=
  sc ← load s; mret (remaining (rc sc)).
Definition Stat (s : nat) : scopeM L ScopeStat := sc ← load s; mret (stat (rc sc)).
Definition Name (s : nat) : scopeM L string := sc ← load s; mret (name sc).

Definition IsUnused (s : nat) : scopeM L bool :=
  sc ← load s;
  if done sc then mret true
  else if refCnt sc >? 0 then mret false
  else
    let st := stat (rc sc) in
    mret ((NumConnsInbound st =? 0) && (NumConnsOutbound st =? 0) && (NumFD st =? 0)).
End scope.

(** ** The attempts undo themselves *)

(** What the proofs need from an attempt and its undo, on the accountings that
    satisfy [P]: a failed attempt leaves the accounting as it was, and the undo
    reverts a successful one. *)
Class Attempt {L} (P : resources L -> Prop)
    (try : resources L -> resources L * option rerror)
    (undo : resources L -> resources L) : Prop := {
  attempt_fail r r' e : P r -> try r = (r', Some e) -> r' = r;
  attempt_undo r r' : P r -> try r = (r', None) -> undo r' = r
}.

Section attempts.
Context {L : Type} `{Limit L}.

Lemma run_result_some (r r' : resources L) x e : run_result r x = (r', Some e) -> r' = r /\ x = Err e.
Proof. destruct x; cbn; [done|]. by intros [= <- <-]. Qed.
Lemma run_result_none (r r' : resources L) x : run_result r x = (r', None) -> x = Ok r'.
Proof. destruct x; cbn; [by intros [= <-]|done]. Qed.

#[export] Instance attempt_memory size prio :
  Attempt res_typed (try_memory size prio) (fun r => releaseMemory r size).
Proof.
  split; unfold try_memory.
  - intros r r' e Hr E. by apply run_result_some in E as [-> ?].
  - intros r r' Hr E%run_result_none. by eapply reserve_release.
Qed.

Lemma attempt_task num prio :
  prio <> ReserveTaskPriorityUnknown ->
  Attempt res_typed (try_task num prio) (fun r => removeTask r num prio).
Proof.
  intros Hp. split; unfold try_task.
  - intros r r' e Hr E. by apply run_result_some in E as [-> ?].
  - intros r r' Hr E%run_result_none. by eapply addTask_removeTask.
Qed.

#[export] Instance attempt_conn dir : Attempt res_typed (try_conn dir) (fun r => removeConn r dir).
Proof.
  split; unfold try_conn.
  - intros r r' e Hr E. by apply run_result_some in E as [-> ?].
  - intros r r' Hr E%run_result_none. by eapply addConn_removeConn.
Qed.

(** The arguments of a whole-stat reservation. *)
Definition stat_ok (st : ScopeStat) : Prop :=
  is_int64 (Memory st) /\ count_ok (NumTasksHigh st) /\ count_ok (NumTasksMedium st) /\
  count_ok (NumTasksLow st) /\ count_ok (NumConnsInbound st) /\
  count_ok (NumConnsOutbound st) /\ count_ok (NumFD st).

(** The accounting plus a stat, as exact integers. *)
Definition plus_stat (st : ScopeStat) (r : resources L) : resources L :=
  mkResources (limit r) (nconnsIn r + NumConnsInbound st) (nconnsOut r + NumConnsOutbound st)
    (nfd r + NumFD st) (ntasksHigh r + NumTasksHigh st) (ntasksMedium r + NumTasksMedium st)
    (ntasksLow r + NumTasksLow st) (memory r + Memory st).

Lemma count_ok_0 : count_ok 0.
Proof. unfold count_ok. lia. Qed.

Lemma addTask_inv r num prio r' :
  res_inv r -> count_ok num -> addTask r num prio = Ok r' ->
  res_inv r' /\ r' = match prio with
    | ReserveTaskPriorityHigh => set_tasks (ntasksHigh r + num) (ntasksMedium r) (ntasksLow r) r
    | ReserveTaskPriorityMedium => set_tasks (ntasksHigh r) (ntasksMedium r + num) (ntasksLow r) r
    | _ => set_tasks (ntasksHigh r) (ntasksMedium r) (ntasksLow r + num) r
    end.
Proof.
  intros Hi Hn. unfold addTask.
  destruct prio; intros E; pose proof E as E';
    apply addTasks_inv in E as (? & ? & ? & ?); auto using count_ok_0;
    apply addTasks_ok in E'; subst r'; cbn in *; split; auto; unfold set_tasks; f_equal; lia.
Qed.

Lemma reserveMemory_exact r size prio r' :
  res_inv r -> is_int64 size -> 0 <= prio <= 255 -> reserveMemory r size prio = Ok r' ->
  res_inv r' /\ 0 <= size /\ r' = set_memory (memory r + size) r.
Proof.
  intros Hi Hs Hp E. pose proof E as E'. apply reserveMemory_inv in E as (? & Hm & ?); auto.
  split; [done|]. split; [done|]. unfold reserveMemory in E'. case_match; [done|].
  injection E' as <-. cbn in Hm. by rewrite Hm.
Qed.

Lemma addConns_exact r i o f r' :
  res_inv r -> count_ok i -> count_ok o -> count_ok f -> addConns r i o f = Ok r' ->
  res_inv r' /\ r' = set_conns (nconnsIn r + i) (nconnsOut r + o) (nfd r + f) r.
Proof.
  intros Hi ? ? ? E. pose proof E as E'. apply addConns_inv in E as (? & ? & ? & ?); auto.
  split; [done|]. apply addConns_ok in E'. subst r'. cbn in *. unfold set_conns. f_equal; lia.
Qed.

(** The release operations on explicit counters. *)
Lemma releaseMemory_raw l i o f th tm tl m n :
  0 <= m <= MaxInt64 ->
  releaseMemory (mkResources (L:=L) l i o f th tm tl (m + n)) n = mkResources l i o f th tm tl m.
Proof. intros. unfold releaseMemory, set_memory; rproj. by rewrite clamp0_exact. Qed.

Lemma removeConns_raw l i o f th tm tl m ni no nf :
  0 <= i <= MaxInt64 -> 0 <= o <= MaxInt64 -> 0 <= f <= MaxInt64 ->
  removeConns (mkResources (L:=L) l (i + ni) (o + no) (f + nf) th tm tl m) ni no nf =
  mkResources l i o f th tm tl m.
Proof. intros. unfold removeConns, set_conns; rproj. by rewrite !clamp0_exact. Qed.

Lemma removeHigh_raw l i o f th tm tl m n :
  0 <= th <= MaxInt64 -> 0 <= tm <= MaxInt64 -> 0 <= tl <= MaxInt64 ->
  removeTasks (mkResources (L:=L) l i o f (th + n) tm tl m) n 0 0 =
  mkResources l i o f th tm tl m.
Proof. intros. unfold removeTasks, set_tasks; rproj. by rewrite clamp0_exact, !clamp0_keep. Qed.

Lemma removeMedium_raw l i o f th tm tl m n :
  0 <= th <= MaxInt64 -> 0 <= tm <= MaxInt64 -> 0 <= tl <= MaxInt64 ->
  removeTasks (mkResources (L:=L) l i o f th (tm + n) tl m) 0 n 0 =
  mkResources l i o f th tm tl m.
Proof. intros. unfold removeTasks, set_tasks; rproj. by rewrite clamp0_exact, !clamp0_keep. Qed.

Lemma removeLow_raw l i o f th tm tl m n :
  0 <= th <= MaxInt64 -> 0 <= tm <= MaxInt64 -> 0 <= tl <= MaxInt64 ->
  removeTasks (mkResources (L:=L) l i o f th tm (tl + n) m) 0 0 n =
  mkResources l i o f th tm tl m.
Proof. intros. unfold removeTasks, set_tasks; rproj. by rewrite clamp0_exact, !clamp0_keep. Qed.

Lemma try_stat_ok st r r' :
  res_inv r -> stat_ok st -> try_stat st r = (r', None) ->
  res_inv r' /\ 0 <= Memory st /\ r' = plus_stat st r.
Proof.
  intros Hi (Hm & ? & ? & ? & ? & ? & ?). unfold try_stat.
  destruct (reserveMemory _ _ _) as [r1|] eqn:E1; [|done].
  apply reserveMemory_exact in E1 as (? & ? & ->); auto; [|unfold ReservationPriorityAlways; lia].
  destruct (addConns _ _ _ _) as [r2|] eqn:E2; [|done].
  apply addConns_exact in E2 as (? & ->); auto.
  destruct (addTask _ (NumTasksHigh st) _) as [r3|] eqn:E3; [|done].
  apply addTask_inv in E3 as (? & ->); auto.
  destruct (addTask _ (NumTasksMedium st) _) as [r4|] eqn:E4; [|done].
  apply addTask_inv in E4 as (? & ->); auto.
  destruct (addTask _ (NumTasksLow st) _) as [r5|] eqn:E5; [|done].
  apply addTask_inv in E5 as (? & ->); auto.
  intros [= <-]. auto.
Qed.

(** A stat is granted exactly when the accounting with it respects every limit. *)
Lemma try_stat_iff st r :
  res_inv r -> stat_ok st ->
  snd (try_stat st r) = None <-> 0 <= Memory st /\ res_inv (plus_stat st r).
Proof.
  intros Hi Hst. split.
  { intros E. destruct (try_stat st r) as [r' o] eqn:Et. cbn in E. subst o.
    apply try_stat_ok in Et as (? & ? & ->); auto. }
  intros [Hm Hp]. destruct Hst as (Hm' & ? & ? & ? & ? & ? & ?). unfold try_stat.
  unfold res_inv in Hp. cbn in Hp. destruct_and!.
  destruct (reserveMemory _ _ _) as [r1|] eqn:E1.
  2:{ exfalso. unfold reserveMemory in E1. destruct (checkMemory _ _ _) eqn:Ec; [|done].
      assert (checkMemory r (Memory st) ReservationPriorityAlways = None); [|congruence].
      unfold res_inv, limit_bounded in *. destruct_and!. unfold ReservationPriorityAlways.
      apply checkMemory_iff; [go_lia|go_lia|done|lia|]. split; [done|]. right.
      replace ((1 + 255) * _) with (GetMemoryLimit (limit r) * 256) by lia.
      rewrite Z.div_mul; lia. }
  apply reserveMemory_exact in E1 as (? & ? & ->); auto; [|unfold ReservationPriorityAlways; lia].
  destruct (addConns _ _ _ _) as [r2|] eqn:E2.
  2:{ exfalso. assert (is_ok (addConns (set_memory (memory r + Memory st) r) (NumConnsInbound st)
        (NumConnsOutbound st) (NumFD st)) = true) as Hok by (apply addConns_iff; auto; cbn; lia).
      by rewrite E2 in Hok. }
  apply addConns_exact in E2 as (? & ->); auto.
  assert (forall r0 n p r1, res_inv r0 -> count_ok n -> addTask r0 n p = Err r1 ->
    ~ is_ok (addTask r0 n p) = true) as Herr by (by intros ? ? ? ? _ _ ->).
  destruct (addTask _ (NumTasksHigh st) _) as [r3|] eqn:E3.
  2:{ exfalso. eapply Herr in E3; eauto. apply E3. apply addTasks_iff; auto using count_ok_0. unfold count_ok in *. cbn. lia. }
  apply addTask_inv in E3 as (? & ->); auto.
  destruct (addTask _ (NumTasksMedium st) _) as [r4|] eqn:E4.
  2:{ exfalso. eapply Herr in E4; eauto. apply E4. apply addTasks_iff; auto using count_ok_0. unfold count_ok in *. cbn. lia. }
  apply addTask_inv in E4 as (? & ->); auto.
  destruct (addTask _ (NumTasksLow st) _) as [r5|] eqn:E5; [done|].
  exfalso. eapply Herr in E5; eauto. apply E5. apply addTasks_iff; auto using count_ok_0. unfold count_ok in *. cbn. lia.
Qed.

(** Closes [undo (updated r) = r]: the ranges of the counters are in the context. *)
Ltac acct :=
  unfold removeTask;
  repeat match goal with X : (_ <= _ <= _) /\ _ |- _ => destruct X end;
  rewrite ?releaseMemory_raw, ?removeConns_raw by assumption;
  rewrite ?removeHigh_raw by assumption; rewrite ?removeMedium_raw by assumption;
  rewrite ?removeLow_raw by assumption; reflexivity.

Lemma release_plus_stat st r :
  res_inv (plus_stat st r) -> res_inv r -> release_stat st (plus_stat st r) = r.
Proof.
  intros Hi' Hi. apply res_inv_typed in Hi', Hi. destruct r.
  unfold plus_stat, res_typed, release_stat in *. rproj. acct.
Qed.

Lemma try_stat_fail st r r' e :
  res_inv r -> stat_ok st -> try_stat st r = (r', Some e) -> r' = r.
Proof.
  intros Hi (Hm & ? & ? & ? & ? & ? & ?). unfold try_stat.
  destruct (reserveMemory _ _ _) as [r1|] eqn:E1; [|by intros [= <-]].
  apply reserveMemory_exact in E1 as (I1 & _ & ->); auto; [|unfold ReservationPriorityAlways; lia].
  destruct r as [l i o f th tm tl m].
  apply res_inv_typed in Hi. unfold res_typed in Hi. unfold set_memory in *. rproj.
  destruct (addConns _ _ _ _) as [r2|] eqn:E2; [|intros [= <- _]; acct].
  apply addConns_exact in E2 as (I2 & ->); auto. unfold set_conns in *. rproj.
  destruct (addTask _ (NumTasksHigh st) _) as [r3|] eqn:E3; [|intros [= <- _]; acct].
  apply addTask_inv in E3 as (I3 & ->); auto. unfold set_tasks in *. rproj.
  destruct (addTask _ (NumTasksMedium st) _) as [r4|] eqn:E4; [|intros [= <- _]; acct].
  apply addTask_inv in E4 as (I4 & ->); auto. unfold set_tasks in *. rproj.
  pose proof (res_inv_typed _ I4) as T4. unfold res_typed in T4; rproj.
  destruct (addTask _ (NumTasksLow st) _) as [r5|] eqn:E5; [done|intros [= <- _]; acct].
Qed.

Lemma attempt_stat st : stat_ok st -> Attempt res_inv (try_stat st) (release_stat st).
Proof.
  intros Hst. split.
  - intros. by eapply try_stat_fail.
  - intros r r' Hr E. apply try_stat_ok in E as (? & ? & ->); auto. by apply release_plus_stat.
Qed.
End attempts.

(** ** Well-formed heaps *)

(** Owners and edges are live and were allocated before; a scope is a span or a
    DAG scope, not both; its edges are distinct. *)
Definition wf_scope {L} (h : heap L) (s : nat) (sc : scope L) : Prop :=
  (forall o, owner sc = Some o -> (o < s)%nat /\ is_Some (h !! o)) /\
  (forall e, e ∈ edges sc -> (e < s)%nat /\ is_Some (h !! e)) /\
  NoDup (edges sc) /\
  (owner sc = None \/ edges sc = []).

Definition wf_heap {L} (h : heap L) : Prop := forall s sc, h !! s = Some sc -> wf_scope h s sc.

(** [P] holds of the accounting of every scope up to [s]. *)
Definition below {L} (P : resources L -> Prop) (s : nat) (h : heap L) : Prop :=
  forall i sc, (i <= s)%nat -> h !! i = Some sc -> P (rc sc).

(** [f] applied to the scopes [es]. *)
Definition apply_on {L} (f : scope L -> scope L) (es : list nat) (h : heap L) : heap L :=
  map_imap (fun i sc => Some (if decide (i ∈ es) then f sc else sc)) h.

(** The scopes an operation on [s] charges: the owner chain and the edges at its
    end ([first]: only the first edge). *)
Fixpoint targets {L} (pick : list nat -> list nat) (fuel : nat) (h : heap L) (s : nat) : list nat :=
  match fuel with
  | O => []
  | S fuel =>
    match h !! s with
    | None => [s]
    | Some sc =>
      s :: match owner sc with
           | Some o => targets pick fuel h o
           | None => pick (edges sc)
           end
    end
  end.

(** The scope is open and its own limits admit the attempt. *)
Definition admits {L} (try : resources L -> resources L * option rerror) (h : heap L) (i : nat) : bool :=
  match h !! i with
  | Some sc => negb (done sc) && bool_decide (snd (try (rc sc)) = None)
  | None => false
  end.

Section apply_on.
Context {L : Type}.
Implicit Types (h : heap L) (f g : scope L -> scope L).

Lemma lookup_apply_on f es h i :
  apply_on f es h !! i = (fun sc => if decide (i ∈ es) then f sc else sc) <$> h !! i.
Proof. unfold apply_on. rewrite map_lookup_imap. by destruct (h !! i). Qed.

Lemma apply_on_nil f h : apply_on f [] h = h.
Proof.
  apply map_eq. intros i. rewrite lookup_apply_on. destruct (h !! i); cbn; [|done].
  case_decide as Hd; [|done]. by apply not_elem_of_nil in Hd.
Qed.

Lemma apply_on_cons f e es h sc :
  e ∉ es -> h !! e = Some sc ->
  apply_on f es (<[e := f sc]> h) = apply_on f (e :: es) h.
Proof.
  intros He Hsc. apply map_eq. intros i. rewrite !lookup_apply_on.
  destruct (decide (i = e)) as [->|Hne].
  - rewrite lookup_insert_eq, Hsc. cbn. rewrite decide_False by done.
    by rewrite decide_True by set_solver.
  - rewrite lookup_insert_ne by done. destruct (h !! i); cbn; [|done]. f_equal.
    apply decide_ext. set_solver.
Qed.

Lemma apply_on_undo f g es h :
  (forall i sc, i ∈ es -> h !! i = Some sc -> g (f sc) = sc) ->
  apply_on g es (apply_on f es h) = h.
Proof.
  intros Hu. apply map_eq. intros i. rewrite !lookup_apply_on.
  destruct (h !! i) eqn:E; cbn; [|done]. case_decide; [|done]. by erewrite Hu.
Qed.

Lemma apply_on_insert_ne f es h s sc :
  s ∉ es -> apply_on f es (<[s := sc]> h) = <[s := sc]> (apply_on f es h).
Proof.
  intros Hs. apply map_eq. intros i. rewrite lookup_apply_on.
  destruct (decide (i = s)) as [->|].
  - rewrite !lookup_insert_eq. cbn. by rewrite decide_False by done.
  - rewrite !lookup_insert_ne by done. by rewrite lookup_apply_on.
Qed.
End apply_on.

(** ** Reservations are all or nothing *)

(** The owner and the edges of a scope never change. *)
Definition shape {L} (h : heap L) (i : nat) : option (option nat * list nat) :=
  (fun sc => (owner sc, edges sc)) <$> h !! i.

Section shapes.
Context {L : Type}.
Implicit Types (h : heap L) (sc : scope L).

Lemma shape_insert h s sc sc' :
  h !! s = Some sc -> owner sc' = owner sc -> edges sc' = edges sc ->
  forall i, shape (<[s := sc']> h) i = shape h i.
Proof.
  intros Hs Ho He i. unfold shape. destruct (decide (i = s)) as [->|].
  - by rewrite lookup_insert_eq, Hs; cbn; rewrite Ho, He.
  - by rewrite lookup_insert_ne.
Qed.

Lemma shape_apply_on h (f : scope L -> scope L) es :
  (forall sc, owner (f sc) = owner sc /\ edges (f sc) = edges sc) ->
  forall i, shape (apply_on f es h) i = shape h i.
Proof.
  intros Hf i. unfold shape. rewrite lookup_apply_on. destruct (h !! i) as [sc|]; cbn; [|done].
  case_decide; [|done]. by destruct (Hf sc) as [-> ->].
Qed.

Lemma targets_shape pick h h' fuel s :
  (forall i, shape h' i = shape h i) -> targets pick fuel h' s = targets pick fuel h s.
Proof.
  intros Hs. revert s. induction fuel as [|fuel IH]; intros s; cbn; [done|].
  specialize (Hs s). unfold shape in Hs. destruct (h !! s) as [sc|], (h' !! s) as [sc'|]; try done.
  cbn in Hs. injection Hs as Ho He. rewrite Ho, He. destruct (owner sc); [|done]. by rewrite IH.
Qed.

Lemma wf_heap_shape h h' :
  (forall i, shape h' i = shape h i) -> wf_heap h -> wf_heap h'.
Proof.
  intros Hs Hw s sc' E. assert (forall i, is_Some (h !! i) <-> is_Some (h' !! i)) as Hd.
  { intros i. specialize (Hs i). unfold shape in Hs. by destruct (h !! i), (h' !! i). }
  pose proof (Hs s) as Hss. unfold shape in Hss. rewrite E in Hss.
  destruct (h !! s) as [sc|] eqn:E'; [|done]. injection Hss as Ho He.
  specialize (Hw s sc E'). unfold wf_scope in *. rewrite Ho, He.
  by setoid_rewrite <-Hd.
Qed.

Lemma targets_le pick h fuel s i :
  wf_heap h -> (forall es e, e ∈ pick es -> e ∈ es) ->
  i ∈ targets pick fuel h s -> (i <= s)%nat.
Proof.
  intros Hw Hp. revert s. induction fuel as [|fuel IH]; intros s Hi; cbn in Hi; [set_solver|].
  destruct (h !! s) as [sc|] eqn:E; [|set_solver].
  destruct (Hw s sc E) as (Ho & He & _ & _).
  apply elem_of_cons in Hi as [->|Hi]; [lia|].
  destruct (owner sc) as [o|] eqn:Eo.
  - specialize (IH o Hi). destruct (Ho o eq_refl). lia.
  - destruct (He i (Hp _ _ Hi)). lia.
Qed.

(** More fuel than the pointer's number changes nothing. *)
Lemma targets_fuel pick h f1 f2 s :
  wf_heap h -> (s < f1)%nat -> (s < f2)%nat -> targets pick f1 h s = targets pick f2 h s.
Proof.
  intros Hw. revert f2 s. induction f1 as [|f1 IH]; intros [|f2] s H1 H2; try lia. cbn.
  destruct (h !! s) as [sc|] eqn:E; [|done]. destruct (Hw s sc E) as (Ho & _).
  destruct (owner sc) as [o|]; [|done]. destruct (Ho o eq_refl). f_equal. apply IH; lia.
Qed.
End shapes.

Section release_one.
Context {L : Type}.
Implicit Types (h : heap L) (sc : scope L).

(** The effect of a release on a scope. *)
Definition discharge (rel : resources L -> resources L) sc : scope L :=
  if done sc then sc else set_rc (rel (rc sc)) sc.

Lemma set_rc_id sc : set_rc (rc sc) sc = sc.
Proof. by destruct sc. Qed.

Lemma release_for_child_spec rel h s sc :
  h !! s = Some sc -> release_for_child rel s h = Some (<[s := discharge rel sc]> h, tt).
Proof.
  intros Hs. unfold release_for_child, load, store, mbind, scopeM_bind, mret, scopeM_ret, discharge.
  rewrite Hs. destruct (done sc); [|done]. by rewrite insert_id.
Qed.

Lemma release_edges_spec rel es h :
  NoDup es -> (forall e, e ∈ es -> is_Some (h !! e)) ->
  release_edges rel es h = Some (apply_on (discharge rel) es h, tt).
Proof.
  revert h. induction es as [|e es IH]; intros h Hnd Hd; cbn [release_edges].
  { by rewrite apply_on_nil. }
  apply NoDup_cons in Hnd as [He Hnd]. destruct (Hd e) as [sc Hsc]; [set_solver|].
  unfold mbind, scopeM_bind. rewrite (release_for_child_spec rel h e sc Hsc).
  rewrite IH; [by rewrite <-(apply_on_cons _ _ _ _ sc)|done|].
  intros e' He'. destruct (decide (e' = e)) as [->|]; [done|].
  rewrite lookup_insert_ne by done. apply Hd. set_solver.
Qed.

Lemma admits_insert_ne try h s sc i : i <> s -> admits try (<[s := sc]> h) i = admits try h i.
Proof. intros. unfold admits. by rewrite lookup_insert_ne. Qed.

Lemma forallb_admits_insert try h s sc es :
  s ∉ es -> forallb (admits try (<[s := sc]> h)) es = forallb (admits try h) es.
Proof.
  induction es as [|e es IH]; intros Hs; cbn; [done|].
  rewrite admits_insert_ne by set_solver. rewrite IH by set_solver. done.
Qed.

End release_one.

Section atomic.
Context {L : Type} `{Limit L}.
Context (P : resources L -> Prop) (try : resources L -> resources L * option rerror)
  (undo : resources L -> resources L) `{!Attempt P try undo}.
Implicit Types (h : heap L) (sc : scope L).

(** The effect of a granted attempt on a scope. *)
Definition charge sc : scope L := set_rc (fst (try (rc sc))) sc.


(** The two outcomes of a local attempt on an allocated scope. *)
Lemma attempt_cases h s sc :
  h !! s = Some sc -> P (rc sc) ->
  (admits try h s = true /\ done sc = false /\ try (rc sc) = (rc (charge sc), None) /\
     undo (rc (charge sc)) = rc sc) \/
  (admits try h s = false /\
     (done sc = true \/ done sc = false /\ exists e, try (rc sc) = (rc sc, Some e))).
Proof.
  intros Hs HP. unfold admits. rewrite Hs. destruct (done sc) eqn:Hd; cbn; [by right; auto|].
  unfold charge. destruct (try (rc sc)) as [r' [e|]] eqn:E; cbn.
  - right. split; [done|]. right. split; [done|]. exists e.
    by rewrite (attempt_fail _ _ _ HP E).
  - left. split_and!; try done. by eapply attempt_undo.
Qed.

Lemma reserve_for_child_spec h s sc :
  h !! s = Some sc -> P (rc sc) ->
  (admits try h s = true /\
     reserve_for_child try s h = Some (<[s := charge sc]> h, (zero_stat, None))) \/
  (admits try h s = false /\ exists st e, reserve_for_child try s h = Some (h, (st, Some e))).
Proof.
  intros Hs HP. unfold reserve_for_child, load, store, mbind, scopeM_bind, mret, scopeM_ret.
  rewrite Hs. destruct (attempt_cases h s sc Hs HP) as [(-> & -> & -> & _)|(-> & [->|(-> & e & ->)])].
  - by left.
  - right. split; [done|]. by eauto.
  - right. split; [done|]. rewrite set_rc_id, insert_id by done. eauto.
Qed.

Lemma reserve_loop_spec es n h :
  NoDup es -> (forall e, e ∈ es -> exists sc, h !! e = Some sc /\ P (rc sc)) ->
  (forallb (admits try h) es = true /\
     reserve_loop try es n h = Some (apply_on charge es h, ((n + length es)%nat, None))) \/
  (forallb (admits try h) es = false /\ exists k e,
     forallb (admits try h) (take k es) = true /\
     reserve_loop try es n h = Some (apply_on charge (take k es) h, ((n + k)%nat, Some e))).
Proof.
  revert n h. induction es as [|e es IH]; intros n h Hnd Hd; cbn [reserve_loop forallb length].
  { left. split; [done|]. by rewrite apply_on_nil, Nat.add_0_r. }
  apply NoDup_cons in Hnd as [He Hnd]. destruct (Hd e) as (sc & Hsc & HP); [set_solver|].
  unfold mbind, scopeM_bind.
  destruct (reserve_for_child_spec h e sc Hsc HP) as [(Ha & ->)|(Ha & st & err & ->)]; rewrite Ha; cbn.
  2:{ right. split; [done|]. exists 0%nat, err. cbn. by rewrite apply_on_nil, Nat.add_0_r. }
  destruct (IH (S n) (<[e := charge sc]> h) Hnd) as [(Hf & ->)|(Hf & k & err & Hk & ->)].
  - intros e' He'. destruct (decide (e' = e)) as [->|]; [done|].
    rewrite lookup_insert_ne by done. apply Hd. set_solver.
  - left. rewrite forallb_admits_insert in Hf by done. split; [done|].
    rewrite (apply_on_cons charge e es h sc) by done. do 3 f_equal. lia.
  - right. rewrite forallb_admits_insert in Hf by done. split; [done|]. exists (S k), err. cbn.
    assert (e ∉ take k es) by (intros Hin; apply He; eapply elem_of_take in Hin as (?&?&?); by eapply list_elem_of_lookup_2).
    rewrite forallb_admits_insert in Hk by done. rewrite Ha, Hk. split; [done|].
    rewrite (apply_on_cons charge e (take k es) h sc) by done. do 3 f_equal. lia.
Qed.
(** Two outcomes, relative to the scopes [ts] that are concerned: all of them are
    charged, or nothing changes and there is an error. *)
Definition all_or_nothing (h : heap L) (ts : list nat) (r : option (heap L * option rerror)) : Prop :=
  (forallb (admits try h) ts = true /\ r = Some (apply_on charge ts h, None)) \/
  (forallb (admits try h) ts = false /\ exists e, r = Some (h, Some e)).

(** What the reservation in the edges has to satisfy, for the edges [pick] selects. *)
Definition edges_spec (for_edges : list nat -> scopeM L (option rerror))
    (pick : list nat -> list nat) : Prop :=
  forall es h, NoDup es -> (forall e, e ∈ es -> exists sc, h !! e = Some sc /\ P (rc sc)) ->
  all_or_nothing h (pick es) (for_edges es h).

Lemma discharge_charge h e sc :
  h !! e = Some sc -> P (rc sc) -> admits try h e = true -> discharge undo (charge sc) = sc.
Proof.
  intros Hsc HP Ha.
  destruct (attempt_cases h e sc Hsc HP) as [(_ & Hd & _ & Hu)|(Hf & _)]; [|congruence].
  unfold discharge. cbn. rewrite Hd. unfold charge in *. cbn in *. rewrite Hu. by destruct sc.
Qed.

Lemma undo_charged h es :
  (forall e, e ∈ es -> exists sc, h !! e = Some sc /\ P (rc sc)) ->
  forallb (admits try h) es = true -> apply_on (discharge undo) es (apply_on charge es h) = h.
Proof.
  intros Hd Ha. apply apply_on_undo. intros i sc Hi Hsc. rewrite forallb_forall in Ha.
  destruct (Hd i Hi) as (sc' & Hsc' & HP). simplify_eq.
  eapply discharge_charge; eauto. by apply Ha, list_elem_of_In.
Qed.

Lemma reserve_edges_ok : edges_spec (reserve_edges try undo) id.
Proof.
  intros es h Hnd Hd. unfold reserve_edges, mbind, scopeM_bind, id.
  destruct (reserve_loop_spec es 0 h Hnd Hd) as [(Ha & ->)|(Ha & k & e & Hk & ->)].
  - by left.
  - right. split; [done|]. exists e. cbn.
    assert (forall x, x ∈ take k es -> x ∈ es) as Hsub.
    { intros x (? & ? & ?)%elem_of_take. by eapply list_elem_of_lookup_2. }
    rewrite release_edges_spec.
    + rewrite undo_charged; [done| |done]. intros; apply Hd; auto.
    + eapply sublist_NoDup; [exact Hnd|apply sublist_take].
    + intros x Hx. rewrite lookup_apply_on. destruct (Hd x) as (? & -> & _); [auto|]. by eexists.
Qed.

Lemma reserve_first_edge_ok : edges_spec (reserve_first_edge try) (take 1).
Proof.
  intros [|e es] h Hnd Hd; unfold all_or_nothing; cbn.
  { left. by rewrite apply_on_nil. }
  destruct (Hd e) as (sc & Hsc & HP); [set_solver|]. unfold mbind, scopeM_bind.
  destruct (reserve_for_child_spec h e sc Hsc HP) as [(Ha & ->)|(Ha & st & err & ->)]; rewrite Ha; cbn.
  - left. split; [done|]. rewrite <-(apply_on_cons _ _ _ _ sc) by (done || set_solver).
    by rewrite apply_on_nil.
  - right. split; [done|]. by eexists.
Qed.

(** The end of [reserve_up] at the scope [s], once the owner or the edges have
    answered: on an error the local reservation is undone. *)
Definition settle (wrap : scope L -> rerror -> rerror) (s : nat) sc
    (r : option (heap L * option rerror)) : option (heap L * option rerror) :=
  match r with
  | Some (h', Some err) =>
    match h' !! s with
    | Some sc' => Some (<[s := set_rc (undo (rc sc')) sc']> h', Some (wrap sc err))
    | None => None
    end
  | Some (h', None) => Some (h', None)
  | None => None
  end.

Lemma settle_spec wrap s sc h ts r :
  h !! s = Some sc -> admits try h s = true -> undo (rc (charge sc)) = rc sc -> s ∉ ts ->
  all_or_nothing (<[s := charge sc]> h) ts r ->
  all_or_nothing h (s :: ts) (settle wrap s sc r).
Proof.
  intros Hsc Ha Hu Hs Hr. unfold all_or_nothing in *. cbn [forallb]. rewrite Ha. cbn.
  destruct Hr as [(Hf & ->)|(Hf & e & ->)]; rewrite forallb_admits_insert in Hf by done.
  - left. split; [done|]. cbn. by rewrite <-(apply_on_cons charge s ts h sc).
  - right. split; [done|]. exists (wrap sc e). cbn. rewrite lookup_insert_eq.
    rewrite Hu, insert_insert_eq. do 2 f_equal. apply insert_id. rewrite Hsc. by destruct sc.
Qed.

(** The whole reservation: granted exactly when every scope it concerns is open
    and has room, and then every one of them is charged once; refused with the
    heap unchanged otherwise.  It never runs out of fuel. *)
Lemma reserve_up_spec for_edges pick wrap fuel s h :
  edges_spec for_edges pick -> (forall es e, e ∈ pick es -> e ∈ es) ->
  wf_heap h -> (s < fuel)%nat -> is_Some (h !! s) -> below P s h ->
  all_or_nothing h (targets pick fuel h s) (reserve_up try undo for_edges wrap fuel s h).
Proof.
  intros Hedges Hpick. revert s h. induction fuel as [|fuel IH]; intros s h Hw Hf [sc Hsc] Hb; [lia|].
  cbn [reserve_up targets]. rewrite Hsc.
  unfold load, store, modify, mbind, scopeM_bind, mret, scopeM_ret. cbn. rewrite Hsc.
  assert (P (rc sc)) as HP by eauto.
  destruct (attempt_cases h s sc Hsc HP) as [(Ha & Hd & Ht & Hu)|(Ha & Hc)].
  2:{ right. cbn. rewrite Ha. split; [done|]. destruct Hc as [->|(-> & e & ->)]; [by eauto|].
      rewrite set_rc_id, insert_id by done. eauto. }
  rewrite Hd, Ht. change (set_rc (rc (charge sc)) sc) with (charge sc).
  set (h1 := <[s := charge sc]> h).
  assert (forall i, shape h1 i = shape h i) as Hshape by (by eapply shape_insert).
  pose proof (wf_heap_shape _ _ Hshape Hw) as Hw1.
  destruct (Hw s sc Hsc) as (Ho & He & Hnd & _).
  assert (forall i, (i < s)%nat -> h1 !! i = h !! i) as Hlow
    by (intros; unfold h1; by rewrite lookup_insert_ne by lia).
  destruct (owner sc) as [o|] eqn:Eo.
  - destruct (Ho o eq_refl) as [Hlt Hin].
    rewrite <-(targets_shape pick _ _ fuel o Hshape).
    eassert (all_or_nothing h _ (settle wrap s sc _)) as Hs; [apply settle_spec; try done;
      [|apply (IH o h1 Hw1)]|]; [|lia|by rewrite Hlow| |].
    + intros Hx. apply (targets_le pick h1 fuel o s Hw1 Hpick) in Hx. lia.
    + intros i sci Hi. rewrite Hlow by lia. apply Hb. lia.
    + unfold settle in Hs. destruct (reserve_up _ _ _ _ _ o h1) as [[h' [err|]]|]; try exact Hs.
      unfold load, store. by destruct (h' !! s).
  - eassert (all_or_nothing h _ (settle wrap s sc _)) as Hs; [apply settle_spec; try done;
      [|apply (Hedges (edges sc) h1 Hnd)]|].
    + intros Hx. destruct (He s (Hpick _ _ Hx)). lia.
    + intros e Hein. destruct (He e Hein) as [? [sce Hsce]]. exists sce.
      rewrite Hlow by lia. split; [done|]. eapply Hb; [|done]. lia.
    + unfold settle in Hs. destruct (for_edges (edges sc) h1) as [[h' [err|]]|]; try exact Hs.
      unfold load, store. by destruct (h' !! s).
Qed.
End atomic.

(** ** Releases *)

(** The scopes a release reaches: the owner chain up to the first closed scope. *)
Fixpoint release_targets {L} (fuel : nat) (h : heap L) (s : nat) : list nat :=
  match fuel with
  | O => []
  | S fuel =>
    match h !! s with
    | None => []
    | Some sc =>
      if done sc then []
      else s :: match owner sc with
                | Some o => release_targets fuel h o
                | None => edges sc
                end
    end
  end.

Section releases.
Context {L : Type} `{Limit L}.
Implicit Types (h : heap L) (sc : scope L) (rel : resources L -> resources L).

(** Only the closed flags and the shape matter. *)
Lemma release_targets_ext h h' fuel s :
  (forall i, shape h' i = shape h i) -> (forall i, done <$> h' !! i = done <$> h !! i) ->
  release_targets fuel h' s = release_targets fuel h s.
Proof.
  intros Hs Hd. revert s. induction fuel as [|fuel IH]; intros s; cbn; [done|].
  specialize (Hs s). specialize (Hd s). unfold shape in Hs.
  destruct (h !! s) as [sc|], (h' !! s) as [sc'|]; try done.
  cbn in Hs, Hd. injection Hs as Ho He. injection Hd as Hd. rewrite Ho, He, Hd.
  destruct (owner sc); by rewrite ?IH.
Qed.

Lemma release_targets_le h fuel s i :
  wf_heap h -> i ∈ release_targets fuel h s -> (i <= s)%nat.
Proof.
  intros Hw. revert s. induction fuel as [|fuel IH]; intros s Hi; cbn in Hi; [set_solver|].
  destruct (h !! s) as [sc|] eqn:E; [|set_solver].
  destruct (Hw s sc E) as (Ho & He & _ & _). destruct (done sc); [set_solver|].
  apply elem_of_cons in Hi as [->|Hi]; [lia|].
  destruct (owner sc) as [o|] eqn:Eo.
  - specialize (IH o Hi). destruct (Ho o eq_refl). lia.
  - destruct (He i Hi). lia.
Qed.

(** When every scope of the chain is open, a release reaches what a reservation
    charges. *)
Lemma release_targets_open try h fuel s :
  forallb (admits try h) (targets id fuel h s) = true ->
  release_targets fuel h s = targets id fuel h s.
Proof.
  revert s. induction fuel as [|fuel IH]; intros s; cbn; [done|].
  destruct (h !! s) as [sc|] eqn:E; cbn; unfold admits at 1; rewrite E; [|done].
  intros Ha. apply andb_prop in Ha as [Hd Ha]. apply andb_prop in Hd as [Hd _].
  destruct (done sc); [done|]. destruct (owner sc); [|done]. by rewrite IH.
Qed.

Lemma release_up_spec rel both fuel s h :
  wf_heap h -> (s < fuel)%nat -> is_Some (h !! s) ->
  release_up rel both fuel s h =
    Some (apply_on (discharge rel) (release_targets fuel h s) h, tt).
Proof.
  revert s h. induction fuel as [|fuel IH]; intros s h Hw Hf [sc Hsc]; [lia|].
  cbn [release_up release_targets]. unfold mbind, scopeM_bind, mret, scopeM_ret, store.
  unfold load at 1. rewrite Hsc. destruct (Hw s sc Hsc) as (Ho & He & Hnd & Hor).
  destruct (done sc) eqn:Hd; [by rewrite apply_on_nil|].
  assert (set_rc (rel (rc sc)) sc = discharge rel sc) as -> by (unfold discharge; by rewrite Hd).
  set (h1 := <[s := discharge rel sc]> h).
  assert (forall i, shape h1 i = shape h i) as Hshape.
  { eapply shape_insert; [done|..]; unfold discharge; by rewrite Hd. }
  assert (forall i, done <$> h1 !! i = done <$> h !! i) as Hdone.
  { intros i. unfold h1. destruct (decide (i = s)) as [->|]; [|by rewrite lookup_insert_ne].
    rewrite lookup_insert_eq, Hsc. unfold discharge. by rewrite Hd. }
  destruct (owner sc) as [o|] eqn:Eo.
  - destruct (Ho o eq_refl) as [Hlt Hin]. rewrite (IH o h1); [|by eapply wf_heap_shape|lia|].
    2:{ unfold h1. by rewrite lookup_insert_ne by lia. }
    rewrite (release_targets_ext h h1) by done.
    assert (s ∉ release_targets fuel h o) by (intros Hx%release_targets_le; [lia|done]).
    unfold h1. rewrite (apply_on_cons (discharge rel) s _ h sc) by done.
    destruct Hor as [?|He']; [done|]. rewrite He'. by destruct both.
  - rewrite (release_edges_spec rel (edges sc) h1); [|done|].
    + unfold h1. rewrite (apply_on_cons (discharge rel) s _ h sc); [done| |done].
      intros Hx. destruct (He s Hx). lia.
    + intros e Hx. destruct (He e Hx) as [? ?]. unfold h1. by rewrite lookup_insert_ne by lia.
Qed.
End releases.
