(* ===== verification/ScopeInv.v ===== *)
(** What the scope operations guarantee together: the limits are never exceeded
    in any reachable heap, a reservation can be given back exactly, and a span
    leaves nothing behind.  Builds on the functional description of the
    operations in Scope.v. *)
From Stdlib Require Import ZArith Lia.
From stdpp Require Import base gmap list strings relations.
From S2P Require Import Prelude Limit Resources Scope.

Local Open Scope Z_scope.

Section inv.
Context {L : Type} `{Limit L}.
Implicit Types (h : heap L) (sc : scope L) (st : ScopeStat).

(** The heap is well formed and every scope respects all its limits. *)
Definition heap_inv h : Prop :=
  wf_heap h /\ forall s sc, h !! s = Some sc -> res_inv (rc sc).

(** Stats that a release may give back. *)
Definition stat_nonneg st : Prop :=
  0 <= Memory st <= MaxInt64 /\ count_ok (NumTasksHigh st) /\ count_ok (NumTasksMedium st) /\
  count_ok (NumTasksLow st) /\ count_ok (NumConnsInbound st) /\
  count_ok (NumConnsOutbound st) /\ count_ok (NumFD st).

Lemma stat_nonneg_of r : res_inv r -> stat_nonneg (stat r).
Proof.
  intros (Hl & ?). unfold limit_bounded in Hl. destruct Hl as (?&?&Hc&?&Ht&?).
  pose proof (Hc DirInbound). pose proof (Hc DirOutbound).
  pose proof (Ht ReserveTaskPriorityHigh). pose proof (Ht ReserveTaskPriorityMedium).
  pose proof (Ht ReserveTaskPriorityLow). unfold stat_nonneg, count_ok. cbn. destruct_and!.
  split_and!; go_lia.
Qed.

Lemma removeTask_inv r num prio : res_inv r -> count_ok num -> res_inv (removeTask r num prio).
Proof. intros. destruct prio; cbn; auto using removeTasks_inv, count_ok_0. Qed.

Lemma removeConn_inv r dir : res_inv r -> res_inv (removeConn r dir).
Proof. intros. destruct dir; cbn; apply removeConns_inv; auto; unfold count_ok; lia. Qed.

Lemma release_stat_inv st r : res_inv r -> stat_nonneg st -> res_inv (release_stat st r).
Proof.
  intros Hi (? & ? & ? & ? & ? & ? & ?). unfold release_stat.
  auto 10 using removeTask_inv, removeConns_inv, releaseMemory_inv.
Qed.

(** Changing scopes without touching their shape keeps the invariant, as long as
    each accounting keeps it. *)
Lemma heap_inv_shape h h' :
  (forall i, shape h' i = shape h i) ->
  (forall s sc, h' !! s = Some sc -> res_inv (rc sc)) -> heap_inv h -> heap_inv h'.
Proof. intros Hs Hr [Hw _]. split; [by eapply wf_heap_shape|done]. Qed.

Lemma heap_inv_insert h s sc sc' :
  heap_inv h -> h !! s = Some sc -> owner sc' = owner sc -> edges sc' = edges sc ->
  res_inv (rc sc') -> heap_inv (<[s := sc']> h).
Proof.
  intros Hi Hs Ho He Hr. eapply heap_inv_shape; [by eapply shape_insert| |done].
  intros i sci. rewrite lookup_insert. case_decide; [by intros [= <-]|]. by apply Hi.
Qed.

Lemma heap_inv_apply_on h (f : scope L -> scope L) es :
  heap_inv h -> (forall sc, owner (f sc) = owner sc /\ edges (f sc) = edges sc) ->
  (forall i sc, i ∈ es -> h !! i = Some sc -> res_inv (rc sc) -> res_inv (rc (f sc))) ->
  heap_inv (apply_on f es h).
Proof.
  intros Hi Hf Hr. eapply heap_inv_shape; [by apply shape_apply_on| |done].
  intros i sc'. rewrite lookup_apply_on. destruct (h !! i) as [sc|] eqn:E; [|done]. cbn.
  intros [= <-]. case_decide; [eapply Hr; eauto|]; by eapply Hi.
Qed.

Lemma attempt_weaken (try : resources L -> resources L * option rerror) undo :
  Attempt res_typed try undo -> Attempt res_inv try undo.
Proof. intros []. split; eauto using res_inv_typed. Qed.

(** An attempt that keeps the invariant of the accounting where it succeeds. *)
Definition keeps_inv (try : resources L -> resources L * option rerror) : Prop :=
  forall r r', res_inv r -> try r = (r', None) -> res_inv r'.

Lemma keeps_memory size prio : is_int64 size -> 0 <= prio <= 255 -> keeps_inv (try_memory size prio).
Proof. intros ? ? r r' Hi E%run_result_none. by eapply reserveMemory_inv in E as (? & _). Qed.
Lemma keeps_task num prio : count_ok num -> keeps_inv (try_task num prio).
Proof. intros ? r r' Hi E%run_result_none. by eapply addTask_inv in E as (? & _). Qed.
Lemma keeps_conn dir : keeps_inv (try_conn dir).
Proof.
  intros r r' Hi E%run_result_none. unfold addConn in E.
  assert (count_ok 0 /\ count_ok 1) as [? ?] by (unfold count_ok; lia).
  destruct dir; by eapply addConns_inv in E as (? & _).
Qed.
Lemma keeps_stat st : stat_ok st -> keeps_inv (try_stat st).
Proof. intros ? r r' Hi E. by eapply try_stat_ok in E as (? & _). Qed.

Lemma all_or_nothing_inv try h ts h' r :
  keeps_inv try -> heap_inv h -> all_or_nothing try h ts (Some (h', r)) -> heap_inv h'.
Proof.
  intros Hk Hi [(Ha & [= -> ->])|(_ & e & [= -> ->])]; [|done].
  apply heap_inv_apply_on; [done|done|]. intros i sc Hin Hsc Hr.
  rewrite forallb_forall in Ha. specialize (Ha i ltac:(by apply list_elem_of_In)).
  unfold admits in Ha. rewrite Hsc in Ha. apply andb_prop in Ha as [_ Ha%bool_decide_eq_true].
  unfold charge. cbn. destruct (try (rc sc)) as [r' o] eqn:E. cbn in *. subst. by eapply Hk.
Qed.

Lemma heap_inv_below h s : heap_inv h -> below res_inv s h.
Proof. intros [_ Hi] i sc _ Hsc. by eapply Hi. Qed.

Lemma elem_of_take1 (es : list nat) e : e ∈ take 1 es -> e ∈ es.
Proof. destruct es; cbn; set_solver. Qed.

(** ** The operations, as total functions on the invariant *)

Lemma reserve_spec P try undo wrap s h :
  Attempt P try undo -> wf_heap h -> is_Some (h !! s) -> below P s h ->
  all_or_nothing try h (targets id (fuel_of s) h s)
    (reserve_up try undo (reserve_edges try undo) wrap (fuel_of s) s h).
Proof.
  intros Ha Hw Hs Hb. apply (reserve_up_spec P try undo); auto.
  apply (reserve_edges_ok P try undo).
Qed.

Lemma ReserveMemory_spec s size prio h :
  wf_heap h -> is_Some (h !! s) -> below res_typed s h ->
  all_or_nothing (try_memory size prio) h (targets id (fuel_of s) h s) (ReserveMemory s size prio h).
Proof. intros. apply (reserve_spec res_typed); [apply _|done..]. Qed.

Lemma AddTask_spec s num prio h :
  prio <> ReserveTaskPriorityUnknown -> wf_heap h -> is_Some (h !! s) -> below res_typed s h ->
  all_or_nothing (try_task num prio) h (targets id (fuel_of s) h s) (AddTask s num prio h).
Proof. intros. apply (reserve_spec res_typed); [by apply attempt_task|done..]. Qed.

Lemma AddConn_spec s dir h :
  wf_heap h -> is_Some (h !! s) -> below res_typed s h ->
  all_or_nothing (try_conn dir) h (targets id (fuel_of s) h s) (AddConn s dir h).
Proof. intros. apply (reserve_spec res_typed); [apply _|done..]. Qed.

Lemma ReserveResources_spec s st h :
  stat_ok st -> wf_heap h -> is_Some (h !! s) -> below res_inv s h ->
  all_or_nothing (try_stat st) h (targets (take 1) (fuel_of s) h s) (ReserveResources s st h).
Proof.
  intros Hst Hw Hs Hb. pose proof (attempt_stat (L:=L) st Hst).
  apply (reserve_up_spec res_inv (try_stat st) (release_stat st)); auto using elem_of_take1.
  by apply (reserve_first_edge_ok res_inv (try_stat st) (release_stat st)).
Qed.

Lemma release_up_inv rel both fuel s h h' u :
  (forall r, res_inv r -> res_inv (rel r)) -> (s < fuel)%nat -> heap_inv h ->
  release_up rel both fuel s h = Some (h', u) -> heap_inv h'.
Proof.
  intros Hr Hf Hi E. assert (is_Some (h !! s)) as Hs.
  { destruct fuel; [lia|]. cbn in E. unfold mbind, scopeM_bind, load in E.
    destruct (h !! s); [by eexists|done]. }
  rewrite release_up_spec in E by (apply Hi || done). injection E as <- _.
  apply heap_inv_apply_on; [done|..].
  - intros sc. unfold discharge. by destruct (done sc).
  - intros i sc _ _ Hri. unfold discharge. destruct (done sc); [done|]. cbn. auto.
Qed.

Lemma modify_inv s g h h' u :
  (forall sc, owner (g sc) = owner sc /\ edges (g sc) = edges sc) ->
  (forall sc, res_inv (rc sc) -> res_inv (rc (g sc))) ->
  heap_inv h -> modify s g h = Some (h', u) -> heap_inv h'.
Proof.
  intros Hs Hr Hi. unfold modify, load, store, mbind, scopeM_bind.
  destruct (h !! s) as [sc|] eqn:E; [|done]. intros [= <- _].
  destruct (Hs sc). eapply heap_inv_insert; eauto. eapply Hr, Hi, E.
Qed.

Lemma release_for_child_inv rel s h h' u :
  (forall r, res_inv r -> res_inv (rel r)) -> heap_inv h ->
  release_for_child rel s h = Some (h', u) -> heap_inv h'.
Proof.
  intros Hr Hi. unfold release_for_child, load, store, mbind, scopeM_bind, mret, scopeM_ret.
  destruct (h !! s) as [sc|] eqn:E; [|done]. destruct (done sc); intros [= <- _]; [done|].
  eapply heap_inv_insert; eauto. eapply Hr, Hi, E.
Qed.

Lemma for_each_inv f es h h' u :
  (forall e h h' u, heap_inv h -> f e h = Some (h', u) -> heap_inv h') ->
  heap_inv h -> for_each f es h = Some (h', u) -> heap_inv h'.
Proof.
  intros Hf. revert h. induction es as [|e es IH]; intros h Hi; cbn.
  { by intros [= <- _]. }
  unfold mbind, scopeM_bind. destruct (f e h) as [[h1 []]|] eqn:E; [|done]. eauto.
Qed.

Lemma IncRef_inv s h h' u : heap_inv h -> IncRef s h = Some (h', u) -> heap_inv h'.
Proof. by apply modify_inv. Qed.
Lemma DecRef_inv s h h' u : heap_inv h -> DecRef s h = Some (h', u) -> heap_inv h'.
Proof. by apply modify_inv. Qed.

Lemma ReleaseResources_inv s st h h' u :
  stat_nonneg st -> heap_inv h -> ReleaseResources s st h = Some (h', u) -> heap_inv h'.
Proof.
  intros Hst Hi. apply release_up_inv; [|unfold fuel_of; lia|done].
  intros. by apply release_stat_inv.
Qed.

Lemma ReleaseForChild_inv s st h h' u :
  stat_nonneg st -> heap_inv h -> ReleaseForChild s st h = Some (h', u) -> heap_inv h'.
Proof. intros. eapply release_for_child_inv; eauto. intros. by apply release_stat_inv. Qed.

Lemma Release_inv s h h' u : heap_inv h -> Release s h = Some (h', u) -> heap_inv h'.
Proof.
  intros Hi. unfold Release, load, store, mbind, scopeM_bind, mret, scopeM_ret.
  destruct (h !! s) as [sc|] eqn:E; [|done]. destruct (done sc); [by intros [= <- _]|].
  pose proof (proj2 Hi s sc E) as Hr. pose proof (stat_nonneg_of _ Hr) as Hst.
  assert (heap_inv (<[s := set_rc (release_stat (stat (rc sc)) (rc sc)) sc]> h)) as Hi1.
  { eapply heap_inv_insert; eauto. by apply release_stat_inv. }
  destruct (owner sc); [by apply ReleaseResources_inv|].
  apply for_each_inv; [|done]. intros. by eapply ReleaseForChild_inv.
Qed.

Lemma closed_inv r : res_inv r -> res_inv (set_memory 0 (set_conns 0 0 0 r)).
Proof.
  unfold res_inv, limit_bounded. cbn. intros ((?&?&Hc&?&Ht&?)&?).
  pose proof (Hc DirInbound). pose proof (Hc DirOutbound). split_and!; auto; lia.
Qed.

Lemma release_parents_inv sc st h h' u :
  stat_nonneg st -> heap_inv h -> release_parents sc st h = Some (h', u) -> heap_inv h'.
Proof.
  intros Hst Hi. unfold release_parents. destruct (owner sc); unfold mbind, scopeM_bind.
  - destruct (ReleaseResources _ _ _) as [[h2 []]|] eqn:E2; [|done].
    apply DecRef_inv. by eapply ReleaseResources_inv.
  - apply for_each_inv; [|exact Hi]. intros e h2 h3 u2 Hi2. cbn.
    destruct (ReleaseForChild _ _ _) as [[h4 []]|] eqn:E4; [|done].
    apply DecRef_inv. by eapply ReleaseForChild_inv.
Qed.

Lemma Done_inv s h h' u : heap_inv h -> Done s h = Some (h', u) -> heap_inv h'.
Proof.
  intros Hi. unfold Done. unfold load at 1, mbind, scopeM_bind, mret, scopeM_ret.
  destruct (h !! s) as [sc|] eqn:E; [|done]. destruct (done sc); [by intros [= <- _]|].
  destruct (release_parents _ _ h) as [[h1 []]|] eqn:E1; [|done].
  apply modify_inv; [done|intros; by apply closed_inv|].
  eapply release_parents_inv; [|exact Hi|exact E1]. apply stat_nonneg_of. by eapply Hi.
Qed.

Lemma NextSpanID_inv s h h' id : heap_inv h -> NextSpanID s h = Some (h', id) -> heap_inv h'.
Proof.
  intros Hi. unfold NextSpanID, load, store, mbind, scopeM_bind, mret, scopeM_ret.
  destruct (h !! s) as [sc|] eqn:E; [|done]. intros [= <- _].
  eapply heap_inv_insert; eauto. exact (proj2 Hi s sc E).
Qed.

(** *** Allocation *)

Lemma next_ptr_spec h i : is_Some (h !! i) -> (i < next_ptr h)%nat.
Proof.
  unfold next_ptr. revert i.
  apply (map_fold_weak_ind (fun m h => forall i, is_Some (h !! i) -> (i < m)%nat)).
  - intros i. rewrite lookup_empty. intros [? ?]. done.
  - intros j x m r Hj IH i Hi. destruct (decide (i = j)) as [->|]; [lia|].
    rewrite lookup_insert_ne in Hi by done. specialize (IH i Hi). lia.
Qed.

Lemma next_ptr_fresh h : h !! next_ptr h = None.
Proof.
  destruct (h !! next_ptr h) eqn:E; [|done].
  pose proof (next_ptr_spec h (next_ptr h) ltac:(by eexists)). lia.
Qed.

Lemma alloc_inv sc h h' s :
  heap_inv h -> res_inv (rc sc) ->
  (forall o, owner sc = Some o -> is_Some (h !! o)) ->
  (forall e, e ∈ edges sc -> is_Some (h !! e)) -> NoDup (edges sc) ->
  (owner sc = None \/ edges sc = []) ->
  alloc sc h = Some (h', s) -> heap_inv h'.
Proof.
  intros [Hw Hi] Hr Ho He Hnd Hor [= <- _].
  assert (forall i, is_Some (h !! i) -> is_Some (<[next_ptr h := sc]> h !! i)) as Hmono.
  { intros i ?. rewrite lookup_insert. by case_decide. }
  split; intros i sci; rewrite lookup_insert; case_decide as Hd.
  - intros [= <-]. subst i. split_and!; try done; intros x Hx; split; eauto using next_ptr_spec.
  - intros E. destruct (Hw i sci E) as (Ho' & He' & ? & ?). split_and!; try done;
      intros x Hx; [destruct (Ho' x Hx)|destruct (He' x Hx)]; eauto.
  - by intros [= <-].
  - by apply Hi.
Qed.

Lemma new_resources_inv (l : L) : limit_bounded l -> res_inv (new_resources l).
Proof.
  intros Hl. unfold res_inv. cbn. split; [done|]. destruct Hl as (?&?&Hc&?&Ht&?).
  pose proof (Hc DirInbound). pose proof (Hc DirOutbound).
  pose proof (Ht ReserveTaskPriorityHigh). pose proof (Ht ReserveTaskPriorityMedium).
  pose proof (Ht ReserveTaskPriorityLow). lia.
Qed.

Lemma for_each_IncRef_dom es h h' u :
  for_each IncRef es h = Some (h', u) -> forall i, is_Some (h' !! i) <-> is_Some (h !! i).
Proof.
  revert h. induction es as [|e es IH]; intros h; cbn; [by intros [= <- _]|].
  unfold mbind, scopeM_bind. destruct (IncRef e h) as [[h1 []]|] eqn:E; [|done].
  intros Hf i. rewrite (IH h1 Hf i). revert E. unfold IncRef, modify, load, store, mbind, scopeM_bind.
  destruct (h !! e) as [sc|] eqn:Ee; [|done]. intros [= <-].
  rewrite lookup_insert. case_decide; [|done]. subst. by rewrite Ee.
Qed.

Lemma newResourceScope_inv l es nm h h' s :
  heap_inv h -> limit_bounded l -> NoDup es -> (forall e, e ∈ es -> is_Some (h !! e)) ->
  newResourceScope l es nm h = Some (h', s) -> heap_inv h'.
Proof.
  intros Hi Hl Hnd He. unfold newResourceScope, mbind, scopeM_bind.
  destruct (for_each IncRef es h) as [[h1 []]|] eqn:E; [|done].
  apply alloc_inv; cbn; auto.
  - eapply for_each_inv; [|exact Hi|exact E]. intros. by eapply IncRef_inv.
  - by apply new_resources_inv.
  - done.
  - intros e Hin. rewrite (for_each_IncRef_dom _ _ _ _ E). auto.
Qed.

Lemma newResourceScopeSpan_inv o id nm h h' s :
  heap_inv h -> newResourceScopeSpan o id nm h = Some (h', s) -> heap_inv h'.
Proof.
  intros Hi. unfold newResourceScopeSpan, load, mbind, scopeM_bind.
  destruct (h !! o) as [sc|] eqn:E; [|done].
  apply alloc_inv; cbn; auto; [|by intros ? [= <-]; eexists|set_solver|constructor].
  apply new_resources_inv, (proj2 Hi o sc E).
Qed.

Lemma BeginSpan_inv s h h' r : heap_inv h -> BeginSpan s h = Some (h', r) -> heap_inv h'.
Proof.
  intros Hi. unfold BeginSpan. unfold load at 1, store at 1, mbind, scopeM_bind, mret, scopeM_ret.
  destruct (h !! s) as [sc|] eqn:E; [|done]. destruct (done sc); [by intros [= <- _]|].
  assert (heap_inv (<[s := set_refCnt (swrap 64 (refCnt sc + 1)) sc]> h)) as Hi1.
  { eapply heap_inv_insert; eauto. exact (proj2 Hi s sc E). }
  destruct (NextSpanID _ _) as [[h1 id]|] eqn:E1; [|done]. apply NextSpanID_inv in E1; [|done].
  destruct (newResourceScopeSpan _ _ _ _) as [[h2 p]|] eqn:E2; [|done].
  intros [= <- _]. by eapply newResourceScopeSpan_inv.
Qed.
End inv.

(** ** Runs *)

Section runs.
Context {L : Type} `{Limit L}.
Implicit Types (h : heap L) (sc : scope L) (st : ScopeStat).

(** The calls the rest of the program can make. *)
Inductive scope_op : Type :=
| OpReserveMemory (s : nat) (size prio : Z)
| OpReleaseMemory (s : nat) (size : Z)
| OpAddTask (s : nat) (num : Z) (prio : ReserveTaskPriority)
| OpRemoveTask (s : nat) (num : Z) (prio : ReserveTaskPriority)
| OpAddConn (s : nat) (dir : Direction)
| OpRemoveConn (s : nat) (dir : Direction)
| OpReserveResources (s : nat) (st : ScopeStat)
| OpRelease (s : nat)
| OpDone (s : nat)
| OpBeginSpan (s : nat)
| OpNewScope (l : L) (es : list nat) (nm : string)
| OpNewSpan (o : nat) (id : Z) (nm : string).

Definition exec (op : scope_op) h : option (heap L) :=
  match op with
  | OpReserveMemory s size prio => fst <$> ReserveMemory s size prio h
  | OpReleaseMemory s size => fst <$> ReleaseMemory s size h
  | OpAddTask s num prio => fst <$> AddTask s num prio h
  | OpRemoveTask s num prio => fst <$> RemoveTask s num prio h
  | OpAddConn s dir => fst <$> AddConn s dir h
  | OpRemoveConn s dir => fst <$> RemoveConn s dir h
  | OpReserveResources s st => fst <$> ReserveResources s st h
  | OpRelease s => fst <$> Release s h
  | OpDone s => fst <$> Done s h
  | OpBeginSpan s => fst <$> BeginSpan s h
  | OpNewScope l es nm => fst <$> newResourceScope l es nm h
  | OpNewSpan o id nm => fst <$> newResourceScopeSpan o id nm h
  end.

(** Arguments of the right type and sign; pointers to live scopes. *)
Definition op_ok h (op : scope_op) : Prop :=
  match op with
  | OpReserveMemory s size prio => is_Some (h !! s) /\ is_int64 size /\ 0 <= prio <= 255
  | OpReleaseMemory s size => is_Some (h !! s) /\ 0 <= size <= MaxInt64
  | OpAddTask s num prio => is_Some (h !! s) /\ count_ok num /\ prio <> ReserveTaskPriorityUnknown
  | OpRemoveTask s num _ => is_Some (h !! s) /\ count_ok num
  | OpAddConn s _ | OpRemoveConn s _ | OpRelease s | OpDone s | OpBeginSpan s
  | OpNewSpan s _ _ => is_Some (h !! s)
  | OpReserveResources s st => is_Some (h !! s) /\ stat_ok st
  | OpNewScope l es nm => limit_bounded l /\ NoDup es /\ forall e, e ∈ es -> is_Some (h !! e)
  end.

Lemma fst_fmap_some {A B} (x : option (A * B)) a : fst <$> x = Some a -> exists b, x = Some (a, b).
Proof. destruct x as [[a' b]|]; [|done]. intros [= <-]. by eexists. Qed.

Lemma below_typed h s : heap_inv h -> below res_typed s h.
Proof. intros Hi i sc Hle Hsc. by eapply res_inv_typed, Hi. Qed.

Lemma exec_inv op h h' : heap_inv h -> op_ok h op -> exec op h = Some h' -> heap_inv h'.
Proof.
  intros Hi Hok. pose proof Hi as [Hw _].
  destruct op; cbn [op_ok exec] in Hok |- *; intros [b E]%fst_fmap_some.
  - destruct Hok as (? & ? & ?). eapply all_or_nothing_inv; [by apply keeps_memory|done|].
    rewrite <-E. by apply ReserveMemory_spec, below_typed.
  - destruct Hok. eapply release_up_inv; [| |exact Hi|exact E]; [|unfold fuel_of; lia].
    intros. by apply releaseMemory_inv.
  - destruct Hok as (? & ? & ?). eapply all_or_nothing_inv; [by apply keeps_task|done|].
    rewrite <-E. by apply AddTask_spec, below_typed.
  - destruct Hok. eapply release_up_inv; [| |exact Hi|exact E]; [|unfold fuel_of; lia].
    intros. by apply removeTask_inv.
  - eapply all_or_nothing_inv; [by apply keeps_conn|done|].
    rewrite <-E. by apply AddConn_spec, below_typed.
  - eapply release_up_inv; [| |exact Hi|exact E]; [|unfold fuel_of; lia].
    intros. by apply removeConn_inv.
  - destruct Hok. eapply all_or_nothing_inv; [by apply keeps_stat|done|].
    rewrite <-E. by apply ReserveResources_spec, heap_inv_below.
  - by eapply Release_inv.
  - by eapply Done_inv.
  - by eapply BeginSpan_inv.
  - destruct Hok as (? & ? & ?). by eapply newResourceScope_inv.
  - by eapply newResourceScopeSpan_inv.
Qed.

(** The heaps reached from the empty one by any sequence of calls. *)
Inductive reachable : heap L -> Prop :=
| reach_init : reachable ∅
| reach_step h op h' : reachable h -> op_ok h op -> exec op h = Some h' -> reachable h'.

Lemma reachable_inv h : reachable h -> heap_inv h.
Proof.
  induction 1 as [|h op h' _ IH Hok E]; [|by eapply exec_inv].
  split; [|done]. intros s sc. by rewrite lookup_empty.
Qed.

(** *** Giving a reservation back *)

Lemma release_undoes (P : resources L -> Prop) try undo both s h h' :
  Attempt P try undo -> wf_heap h -> is_Some (h !! s) -> below P s h ->
  all_or_nothing try h (targets id (fuel_of s) h s) (Some (h', None)) ->
  release_up undo both (fuel_of s) s h' = Some (h, tt).
Proof.
  intros Hat Hw Hs Hb [(Ha & [= ->])|(_ & ? & [=])].
  set (ts := targets id (fuel_of s) h s) in *.
  assert (forall i, shape (apply_on (charge try) ts h) i = shape h i) as Hsh by (by apply shape_apply_on).
  rewrite release_up_spec; [|by eapply wf_heap_shape|unfold fuel_of; lia|].
  2:{ rewrite lookup_apply_on. destruct Hs as [? ->]. by eexists. }
  rewrite (release_targets_ext h), (release_targets_open try); [|done|done|].
  2:{ intros i. rewrite lookup_apply_on. destruct (h !! i); cbn; [|done]. by case_decide. }
  fold ts. rewrite (undo_charged P); try done. intros e He.
  assert (e <= s)%nat by (by apply (targets_le id h (fuel_of s))).
  rewrite forallb_forall in Ha. specialize (Ha e ltac:(by apply list_elem_of_In)).
  unfold admits in Ha. destruct (h !! e) as [sce|] eqn:E; [|done]. exists sce. split; [done|]. by eapply Hb.
Qed.

(** A scope created by this program has at most one edge. *)
Definition single_edges h : Prop := forall s sc, h !! s = Some sc -> (length (edges sc) <= 1)%nat.

Lemma targets_single h fuel s : single_edges h -> targets (take 1) fuel h s = targets id fuel h s.
Proof.
  intros H1. revert s. induction fuel as [|fuel IH]; intros s; cbn; [done|].
  destruct (h !! s) as [sc|] eqn:E; [|done]. destruct (owner sc); [by rewrite IH|].
  unfold id. by rewrite take_ge by (by eapply H1).
Qed.

Lemma ReserveResources_undo s st h h' :
  stat_ok st -> heap_inv h -> single_edges h -> is_Some (h !! s) ->
  ReserveResources s st h = Some (h', None) -> ReleaseResources s st h' = Some (h, tt).
Proof.
  intros Hst Hi H1 Hs E. eapply (release_undoes res_inv); [by apply attempt_stat|apply Hi|done| |].
  - by apply heap_inv_below.
  - rewrite <-E, <-(targets_single h _ s H1).
    apply ReserveResources_spec; auto; [apply Hi|by apply heap_inv_below].
Qed.
End runs.
