(* ===== verification/RcMgr.v ===== *)
(** The resource manager, base/gfsprcmgr/rcmgr.go, and the way a module uses its
    service scope (modular/uploader/uploader.go; the other modules have the same
    two functions).  The manager's state is its record plus the heap of scopes of
    Scope.v.  [limit_string] is the generated [String] of the limit message. *)
From Stdlib Require Import ZArith Lia.
From stdpp Require Import base gmap list strings pretty.
From S2P Require Import Prelude Limit Resources Scope ScopeInv.

Local Open Scope Z_scope.
Local Open Scope go_scope.

Record resourceManager := mkManager {
  limits : GfSpLimiter;
  system : nat;
  transient : nat;
  svc : gmap string nat
}.

Abbreviation rcM := (scopeM GfSpLimit.t).

Definition NewResourceManager (lims : GfSpLimiter) : rcM resourceManager :=
  sys ← newResourceScope (GetSystemLimits lims) [] "system";
  mret (mkManager lims sys sys ∅).

(** Without a limit of its own a service is a span of the system scope, else a
    DAG scope below it. *)
Definition OpenService (r : resourceManager) (nm : string) : rcM (resourceManager * nat) :=
  sc ← match GetServiceLimits (limits r) nm with
       | None => id ← NextSpanID (system r); newResourceScopeSpan (system r) id nm
       | Some limit => newResourceScope limit [system r] nm
       end;
  mret (mkManager (limits r) (system r) (transient r) (<[nm := sc]> (svc r)), sc).

Section views.
Context {E : Type} (f : nat -> rcM (option E)).

Definition ViewSystem (r : resourceManager) : rcM (option E) := f (system r).
Definition ViewTransient (r : resourceManager) : rcM (option E) := f (system r).
Definition ViewService (r : resourceManager) (nm : string) : rcM (option E) :=
  match svc r !! nm with
  | None => mret None
  | Some scop => f scop
  end.
End views.

(** [ScopeStat.String] of core/rcmgr/rcmgr.go. *)
Definition ScopeStat_String (s : ScopeStat) : string :=
  "memory reserved [" +:+ pretty (Memory s) +:+ "], task reserved[h: " +:+
  pretty (NumTasksHigh s) +:+ ", m: " +:+ pretty (NumTasksMedium s) +:+ ", l: " +:+
  pretty (NumTasksLow s) +:+ "]".

Section states.
Context (limit_string : GfSpLimit.t -> string).

Definition SystemState (r : resourceManager) : rcM string :=
  st ← Stat (system r);
  mret ("use: " +:+ ScopeStat_String st +:+ "limit: " +:+ limit_string (GetSystemLimits (limits r))).

Definition TransientState (r : resourceManager) : rcM string :=
  st ← Stat (transient r);
  mret ("use: " +:+ ScopeStat_String st +:+ "limit: " +:+ limit_string (GetTransientLimits (limits r))).

(** The limit is looked up under the state string, not under the service name. *)
Definition ServiceState (r : resourceManager) (nm : string) : rcM string :=
  match svc r !! nm with
  | None => mret ""
  | Some scop =>
    st ← Stat scop;
    let state := ScopeStat_String st in
    let limitState := match GetServiceLimits (limits r) state with
                      | None => limit_string (GetSystemLimits (limits r))
                      | Some limit => limit_string limit
                      end in
    mret ("use: " +:+ state +:+ "limit: " +:+ limitState)
  end.
End states.

(** *** modular/uploader/uploader.go *)

Definition ReserveResource {L} `{Limit L} (scope : nat) (state : ScopeStat) :
    scopeM L (result rerror nat) :=
  span ← BeginSpan scope;
  match span with
  | Err err => mret (Err err)
  | Ok span =>
    err ← ReserveResources span state;
    match err with
    | Some err => mret (Err err)
    | None => mret (Ok span)
    end
  end.

Definition ReleaseResource {L} `{Limit L} (span : nat) : scopeM L unit := Done span.

(** ** Proofs *)

Section span.
Context {L : Type} `{Limit L}.
Implicit Types (h : heap L) (sc : scope L).

(** The span that [BeginSpan] allocates below [s]. *)
Definition span_of (s : nat) sc : scope L :=
  mkScope false 0 0 (new_resources (limit (rc sc))) (Some s) []
    (name sc +:+ ".span-" +:+ "temp" +:+ "-" +:+ pretty (spanID sc +' 1)).

Definition bumped sc : scope L := set_spanID (spanID sc +' 1) (set_refCnt (refCnt sc +' 1) sc).

Lemma BeginSpan_eq s sc h :
  h !! s = Some sc -> done sc = false ->
  BeginSpan s h =
    Some (<[next_ptr (<[s := bumped sc]> h) := span_of s sc]> (<[s := bumped sc]> h),
          Ok (next_ptr (<[s := bumped sc]> h))).
Proof.
  intros Hs Hd. unfold BeginSpan, NextSpanID, newResourceScopeSpan, load, store, alloc,
    mbind, scopeM_bind, mret, scopeM_ret.
  rewrite Hs, Hd, !lookup_insert_eq, insert_insert_eq. done.
Qed.

Lemma stat_plus_new st (l : L) : stat (plus_stat st (new_resources l)) = st.
Proof. by destruct st. Qed.

(** Charging a fresh span with [st] and its owner chain, then closing the span,
    undoes the charge in the whole chain. *)
Lemma Done_fresh_span h s sc p sp st h2 :
  heap_inv h -> single_edges h -> stat_ok st ->
  h !! s = Some sc -> h !! p = Some sp -> owner sp = Some s -> done sp = false ->
  rc sp = new_resources (limit (rc sp)) ->
  ReserveResources p st h = Some (h2, None) ->
  exists sp', done sp' = true /\
    Done p h2 = Some (<[p := sp']> (<[s := set_refCnt (refCnt sc -' 1) sc]> h), tt).
Proof.
  intros Hi H1 Hst Hs Hp Ho Hd Hnew E. pose proof Hi as [Hw Hr].
  assert (s < p)%nat as Hlt by (destruct (Hw p sp Hp) as (Ho' & _); by destruct (Ho' s Ho)).
  pose proof (ReserveResources_spec p st h Hst Hw ltac:(by eexists) (heap_inv_below h p Hi)) as Hspec.
  rewrite E in Hspec. destruct Hspec as [(Ha & [= ->])|(_ & ? & [=])].
  cbn [targets fuel_of] in Ha |- *. rewrite Hp, Ho in Ha |- *. cbn in Ha. apply andb_prop in Ha as [Hap Ha].
  set (ts := targets (take 1) p h s) in *. set (ch := charge (try_stat st)).
  assert (p ∉ ts) as Hnin.
  { intros Hx. apply (targets_le (take 1)) in Hx; [lia|done|apply elem_of_take1]. }
  unfold admits in Hap. rewrite Hp in Hap. apply andb_prop in Hap as [_ Hap%bool_decide_eq_true].
  destruct (try_stat st (rc sp)) as [r' o] eqn:Et. cbn in Hap. subst o.
  pose proof Et as Et'. apply try_stat_ok in Et' as (Hr' & Hmem & Hr'eq); [|by eapply Hr|done].
  assert (ch sp = set_rc r' sp) as Hch by (unfold ch, charge; by rewrite Et).
  rewrite <-(apply_on_cons ch p ts h sp) by done. rewrite Hch.
  set (h1 := <[p := set_rc r' sp]> h).
  assert (heap_inv h1) as Hi1 by (by eapply heap_inv_insert).
  assert (forall i, shape h1 i = shape h i) as Hsh by (by eapply shape_insert).
  assert (single_edges h1) as H11.
  { intros i sci Hsci. specialize (Hsh i). unfold shape in Hsh. rewrite Hsci in Hsh.
    destruct (h !! i) eqn:Ei; [|done]. cbn in Hsh. injection Hsh as _ ->. by eapply H1. }
  assert (ReserveResources s st h1 = Some (apply_on ch ts h1, None)) as Eup.
  { assert (targets (take 1) (fuel_of s) h1 s = ts) as Hts.
    { rewrite (targets_shape _ h h1) by done. apply targets_fuel; [done|unfold fuel_of; lia|done]. }
    pose proof (ReserveResources_spec s st h1 Hst ltac:(apply Hi1)
      ltac:(unfold h1; rewrite lookup_insert_ne by lia; by eexists) (heap_inv_below h1 s Hi1)) as [(_ & ->)|(Hf & _)];
      rewrite Hts in *; [done|].
    unfold h1 in Hf. rewrite forallb_admits_insert in Hf by done. congruence. }
  apply ReserveResources_undo in Eup; [|done|done|done|unfold h1; rewrite lookup_insert_ne by lia; by eexists].
  unfold Done. unfold load at 1, mbind at 1 2, scopeM_bind at 1 2.
  rewrite lookup_apply_on. unfold h1 at 1. rewrite lookup_insert_eq. cbn [fmap option_fmap option_map].
  rewrite decide_False by done. cbn [done set_rc]. rewrite Hd.
  unfold release_parents. cbn [owner set_rc rc]. rewrite Ho, Hr'eq, Hnew, stat_plus_new.
  unfold mbind, scopeM_bind. rewrite Eup. unfold DecRef, modify, load, store, mbind, scopeM_bind.
  unfold h1 at 1. rewrite lookup_insert_ne by lia. rewrite Hs. rewrite lookup_insert_ne by lia.
  unfold h1 at 1. rewrite lookup_insert_eq. eexists (set_done true _).
  split; [|unfold h1; rewrite (insert_insert_ne _ s p) by lia; rewrite insert_insert_eq; reflexivity].
  done.
Qed.
End span.
