(* ===== verification/RcProps.v ===== *)
(** Properties of the resource manager (Limit.v, Resources.v, Scope.v, RcMgr.v). *)
From Stdlib Require Import ZArith Lia.
From stdpp Require Import base gmap list strings pretty.
From S2P Require Import Prelude Limit Resources Scope ScopeInv RcMgr.

Local Open Scope Z_scope.

(** ** A concrete configuration for the witnesses: a system scope, one service. *)

Definition lim_sys : GfSpLimit.t := GfSpLimit.mk 1000 10 5 5 5 10 10 5 5.
Definition lim_svc : GfSpLimit.t := GfSpLimit.mk 500 8 4 4 4 10 10 5 5.

Lemma bounded_of_limit (l : GfSpLimit.t) :
  GfSpLimit.typed l -> nonneg_limit l -> GfSpLimit.Memory l < MaxInt64 -> limit_bounded l.
Proof.
  unfold GfSpLimit.typed, nonneg_limit, limit_bounded. cbn. intros. destruct_and!.
  unfold is_int32 in *. split_and!; try lia; intros []; cbn; lia.
Qed.

Lemma lim_sys_bounded : limit_bounded lim_sys.
Proof. apply bounded_of_limit; vm_compute; intuition congruence. Qed.
Lemma lim_svc_bounded : limit_bounded lim_svc.
Proof. apply bounded_of_limit; vm_compute; intuition congruence. Qed.

Definition heap_sys : heap GfSpLimit.t :=
  {[ 0%nat := mkScope false 0 0 (new_resources lim_sys) None [] "system" ]}.
Definition heap_svc : heap GfSpLimit.t :=
  {[ 0%nat := mkScope false 1 0 (new_resources lim_sys) None [] "system";
     1%nat := mkScope false 0 0 (new_resources lim_svc) None [0%nat] "svc" ]}.

Lemma reachable_svc : reachable heap_svc.
Proof.
  assert (reachable heap_sys) as Hs.
  { eapply (reach_step ∅ (OpNewScope lim_sys [] "system")); [constructor| |by vm_compute].
    split; [apply lim_sys_bounded|]. split; [constructor|]. intros e He. by apply not_elem_of_nil in He. }
  eapply (reach_step heap_sys (OpNewScope lim_svc [0%nat] "svc")); [done| |by vm_compute].
  split; [apply lim_svc_bounded|]. split; [apply NoDup_singleton|].
  intros e ->%list_elem_of_singleton. by eexists.
Qed.

Lemma heap_svc_inv : heap_inv heap_svc.
Proof. apply reachable_inv, reachable_svc. Qed.

(** ** The remaining resources *)

Lemma swrap32_le x : 0 <= x -> swrap 32 x <= x.
Proof.
  intros. unfold swrap. change (2 ^ (32 - 1)) with (2 ^ 31).
  pose proof (Z.mod_le (x + 2 ^ 31) (2 ^ 32) ltac:(lia) ltac:(lia)). lia.
Qed.

(** A counter and a request below what is left of its limit stay within the limit. *)
Lemma left_covers lim used x :
  0 <= used <= lim -> lim <= MaxInt64 -> 0 <= x ->
  x <= (if lim >? used then swrap 32 (swrap 64 (lim - used)) else 0) -> used + x <= lim.
Proof.
  intros. rewrite int64_wrap_id in * by go_lia.
  destruct (lim >? used) eqn:E; zbool; [|lia].
  pose proof (swrap32_le (lim - used)). lia.
Qed.

(** What [remaining] covers fits next to what is already used. *)
Lemma remaining_covers {L} `{Limit L} (r : resources L) (l : GfSpLimit.t) :
  res_inv r -> nonneg_limit l -> limit_le l (remaining r) ->
  GfSpLimit.TasksHighPriority l + GfSpLimit.TasksMediumPriority l + GfSpLimit.TasksLowPriority l
    <= GfSpLimit.Tasks l ->
  res_inv (plus_stat (GfSpLimit.ScopeStat l) r).
Proof.
  intros Hi Hn (Hm & Hf & Htt & Hc & _ & Ht) Hsum.
  pose proof (Hc DirInbound ltac:(done)). pose proof (Hc DirOutbound ltac:(done)).
  pose proof (Ht ReserveTaskPriorityHigh ltac:(done)).
  pose proof (Ht ReserveTaskPriorityMedium ltac:(done)).
  pose proof (Ht ReserveTaskPriorityLow ltac:(done)). clear Hc Ht.
  unfold res_inv in *. destruct Hi as (Hl & ?). pose proof Hl as (?&?&Hlc&?&Hlt&?).
  pose proof (Hlt ReserveTaskPriorityHigh). pose proof (Hlt ReserveTaskPriorityMedium).
  pose proof (Hlt ReserveTaskPriorityLow). clear Hlc Hlt.
  unfold nonneg_limit in Hn. cbn in *. destruct_and!.
  rewrite (int64_wrap_id (ntasksHigh r + _)) in Htt by go_lia.
  rewrite (int64_wrap_id (ntasksHigh r + _ + _)) in Htt by go_lia.
  apply left_covers in Htt; [|lia|go_lia|done].
  repeat match goal with X : _ <= (if _ then swrap 32 _ else _) |- _ =>
    apply left_covers in X; [|lia|go_lia|done] end.
  rewrite int64_wrap_id in Hm by go_lia.
  destruct (_ >? memory r) eqn:E; zbool; split_and!; auto; lia.
Qed.

(** ** The properties *)

(** C1: no scope ever exceeds any of its limits.  In every heap that the calls of
    scope.go can reach, whatever their order and whether they succeed or fail, each
    scope's memory, connections, file descriptors and tasks are non-negative and at
    most the configured limit, the connection and task totals included. *)
Theorem limits_never_exceeded {L} `{Limit L} (h : heap L) s sc :
  reachable h -> h !! s = Some sc -> res_inv (rc sc).
Proof. intros Hr Hs. exact (proj2 (reachable_inv h Hr) s sc Hs). Qed.

Lemma limits_never_exceeded_witness :
  exists h : heap GfSpLimit.t, exec (OpReserveMemory 1 400 255) heap_svc = Some h /\
    forall sc, h !! 1%nat = Some sc -> res_inv (rc sc) /\ memory (rc sc) = 400.
Proof.
  eexists. split; [by vm_compute|]. intros sc Hsc. split.
  - eapply limits_never_exceeded; [|exact Hsc].
    eapply (reach_step heap_svc (OpReserveMemory 1 400 255)); [apply reachable_svc| |by vm_compute].
    split; [by eexists|]. vm_compute. intuition congruence.
  - vm_compute in Hsc. by injection Hsc as <-.
Defined.

(** C27: a memory, task or connection reservation is all or nothing.  It is granted
    exactly when the scope, every owner above it and every edge at the end of the
    chain is open and has room, and then each of them is charged once; otherwise an
    error is returned and the whole heap is as before, the partial reservations
    undone.  It always returns. *)
Theorem reservations_all_or_nothing {L} `{Limit L} (h : heap L) s :
  wf_heap h -> is_Some (h !! s) -> below res_typed s h ->
  (forall size prio,
     all_or_nothing (try_memory size prio) h (targets id (fuel_of s) h s) (ReserveMemory s size prio h)) /\
  (forall num prio, prio <> ReserveTaskPriorityUnknown ->
     all_or_nothing (try_task num prio) h (targets id (fuel_of s) h s) (AddTask s num prio h)) /\
  (forall dir,
     all_or_nothing (try_conn dir) h (targets id (fuel_of s) h s) (AddConn s dir h)).
Proof.
  intros Hw Hs Hb. split_and!; intros;
    [by apply ReserveMemory_spec|by apply AddTask_spec|by apply AddConn_spec].
Qed.

Lemma reservations_all_or_nothing_witness :
  targets id (fuel_of 1) heap_svc 1 = [1%nat; 0%nat] /\
  all_or_nothing (try_memory 400 255) heap_svc (targets id (fuel_of 1) heap_svc 1)
    (ReserveMemory 1 400 255 heap_svc).
Proof.
  split; [by vm_compute|].
  refine (proj1 (reservations_all_or_nothing heap_svc 1 (proj1 heap_svc_inv) _ _) 400 255).
  - by eexists.
  - apply below_typed, heap_svc_inv.
Defined.

(** Reserving a whole stat (memory, connections, descriptors and tasks) is all or
    nothing along the owner chain and the first edge; each of the five partial
    failures in a scope is rolled back exactly. *)
Theorem reserve_resources_all_or_nothing {L} `{Limit L} (h : heap L) s st :
  heap_inv h -> is_Some (h !! s) -> stat_ok st ->
  all_or_nothing (try_stat st) h (targets (take 1) (fuel_of s) h s) (ReserveResources s st h) /\
  (forall r r', res_inv r -> try_stat st r = (r', None) -> r' = plus_stat st r).
Proof.
  intros Hi Hs Hst. split.
  - apply ReserveResources_spec; auto; [apply Hi|by apply heap_inv_below].
  - intros r r' Hr E. by apply try_stat_ok in E as (_ & _ & ->).
Qed.

Lemma reserve_resources_all_or_nothing_witness :
  all_or_nothing (try_stat (mkStat 100 1 0 0 1 0 1)) heap_svc
    (targets (take 1) (fuel_of 1) heap_svc 1)
    (ReserveResources 1 (mkStat 100 1 0 0 1 0 1) heap_svc).
Proof.
  refine (proj1 (reserve_resources_all_or_nothing heap_svc 1 _ heap_svc_inv _ _)).
  - by eexists.
  - vm_compute. intuition congruence.
Defined.

(** Giving a granted reservation back restores the exact state of every scope,
    also where a counter overflowed in between. *)
Theorem reserve_release_roundtrip {L} `{Limit L} (h h' : heap L) s :
  wf_heap h -> is_Some (h !! s) -> below res_typed s h ->
  (forall size prio, ReserveMemory s size prio h = Some (h', None) -> ReleaseMemory s size h' = Some (h, tt)) /\
  (forall num prio, prio <> ReserveTaskPriorityUnknown ->
     AddTask s num prio h = Some (h', None) -> RemoveTask s num prio h' = Some (h, tt)) /\
  (forall dir, AddConn s dir h = Some (h', None) -> RemoveConn s dir h' = Some (h, tt)).
Proof.
  intros Hw Hs Hb. split_and!.
  - intros size prio E. eapply (release_undoes res_typed); eauto; [apply _|].
    rewrite <-E. by apply ReserveMemory_spec.
  - intros num prio Hp E. eapply (release_undoes res_typed); eauto; [by apply attempt_task|].
    rewrite <-E. by apply AddTask_spec.
  - intros dir E. eapply (release_undoes res_typed); eauto; [apply _|].
    rewrite <-E. by apply AddConn_spec.
Qed.

Lemma reserve_release_roundtrip_witness :
  exists h', ReserveMemory 1 400 255 heap_svc = Some (h', None) /\
    ReleaseMemory 1 400 h' = Some (heap_svc, tt).
Proof.
  eexists. split; [by vm_compute|].
  refine (proj1 (reserve_release_roundtrip heap_svc _ 1 (proj1 heap_svc_inv) _ _) 400 255 _).
  - by eexists.
  - apply below_typed, heap_svc_inv.
  - by vm_compute.
Defined.

(** A module's resource span leaves nothing behind.  When [ReserveResource] grants
    a span and the module later calls [ReleaseResource] on it, every scope of the
    program is exactly as before (reference counts included), except for the span
    counter of the service scope and the closed span itself. *)
Theorem span_lifecycle {L} `{Limit L} (h h1 : heap L) s sc p st :
  heap_inv h -> single_edges h -> h !! s = Some sc -> is_int64 (refCnt sc) -> stat_ok st ->
  ReserveResource s st h = Some (h1, Ok p) ->
  exists sp, done sp = true /\ h !! p = None /\
    ReleaseResource p h1 = Some (<[p := sp]> (<[s := set_spanID (swrap 64 (spanID sc + 1)) sc]> h), tt).
Proof.
  intros Hi H1 Hs Hrc Hst E. unfold ReserveResource in E. unfold mbind at 1, scopeM_bind at 1 in E.
  destruct (BeginSpan s h) as [[hb [sp|]]|] eqn:Eb; [|done|done].
  pose proof (BeginSpan_inv s h _ _ Hi Eb) as Hib.
  destruct (done sc) eqn:Hd.
  { unfold BeginSpan, load, mbind, scopeM_bind in Eb. rewrite Hs, Hd in Eb. done. }
  rewrite (BeginSpan_eq s sc h Hs Hd) in Eb. injection Eb as <- <-.
  set (h' := <[s := bumped sc]> h) in *.
  assert (h' !! next_ptr h' = None) as Hfresh by apply next_ptr_fresh.
  assert (s <> next_ptr h') as Hne.
  { intros Heq. rewrite <-Heq in Hfresh. unfold h' in Hfresh. by rewrite lookup_insert_eq in Hfresh. }
  unfold mbind, scopeM_bind in E.
  destruct (ReserveResources _ _ _) as [[h2 [err|]]|] eqn:E2; [done| |done]. injection E as <- <-.
  eapply (Done_fresh_span _ s (bumped sc) _ (span_of s sc)) in E2 as (sp' & Hsp' & E3); try done.
  - exists sp'. split; [done|]. split.
    { unfold h' in Hfresh. by rewrite lookup_insert_ne in Hfresh by done. }
    unfold ReleaseResource. rewrite E3. do 2 f_equal.
    rewrite (insert_insert_ne _ s) by done. rewrite insert_insert_eq. unfold h'.
    rewrite insert_insert_eq. do 2 f_equal. unfold bumped, set_refCnt, set_spanID. cbn.
    by rewrite int64_add_sub.
  - intros i sci. rewrite lookup_insert. case_decide; [intros [= <-]; cbn; lia|]. unfold h'.
    rewrite lookup_insert. case_decide; [intros [= <-]; exact (H1 _ _ Hs)|by apply H1].
  - rewrite lookup_insert_ne by done. unfold h'. by rewrite lookup_insert_eq.
  - apply lookup_insert_eq.
Qed.

Lemma heap_svc_single : single_edges heap_svc.
Proof.
  intros s sc Hs. unfold heap_svc in Hs. apply lookup_insert_Some in Hs as [[<- <-]|[_ Hs]]; [cbn; lia|].
  apply lookup_singleton_Some in Hs as [<- <-]. cbn. lia.
Qed.

Definition heap_span : heap GfSpLimit.t :=
  match ReserveResource 1 (mkStat 100 1 0 0 1 0 1) heap_svc with
  | Some (h, _) => h
  | None => ∅
  end.

Lemma span_lifecycle_witness :
  exists sp, ReserveResource 1 (mkStat 100 1 0 0 1 0 1) heap_svc = Some (heap_span, Ok 2%nat) /\
    done sp = true /\
    ReleaseResource 2 heap_span = Some (<[2%nat := sp]> (<[1%nat :=
      set_spanID (swrap 64 (0 + 1)) (mkScope false 0 0 (new_resources lim_svc) None [0%nat] "svc")]> heap_svc), tt).
Proof.
  destruct (span_lifecycle heap_svc heap_span 1
    (mkScope false 0 0 (new_resources lim_svc) None [0%nat] "svc")
    2 (mkStat 100 1 0 0 1 0 1)) as (sp & Hsp & _ & E).
  - apply heap_svc_inv.
  - apply heap_svc_single.
  - reflexivity.
  - vm_compute. intuition congruence.
  - vm_compute. intuition congruence.
  - vm_compute. reflexivity.
  - exists sp. split; [vm_compute; reflexivity|]. split; [done|]. exact E.
Defined.

(** The memory test is exact.  A reservation of [rsvp] bytes at priority [prio]
    passes exactly when [rsvp] is not negative and the used memory plus [rsvp] is at
    most the fraction (1+prio)/256 of the limit, computed without overflow (the
    multiplication test, the big-integer path and the addition test together); the
    largest limit means no limit. *)
Theorem memory_admission_exact {L} `{Limit L} (r : resources L) rsvp prio :
  0 <= memory r <= MaxInt64 -> 0 <= GetMemoryLimit (limit r) <= MaxInt64 ->
  is_int64 rsvp -> 0 <= prio <= 255 ->
  checkMemory r rsvp prio = None <->
  0 <= rsvp /\ (GetMemoryLimit (limit r) = MaxInt64 \/
    memory r + rsvp <= (1 + prio) * GetMemoryLimit (limit r) / 256).
Proof. apply checkMemory_iff. Qed.

Lemma memory_admission_exact_witness :
  let r := mkResources (GfSpLimit.mk (2 ^ 62) 0 0 0 0 0 0 0 0) 0 0 0 0 0 0 (2 ^ 61) in
  snd (mulInt64WithOverflow 256 (2 ^ 62)) = false /\
  checkMemory r (2 ^ 61) ReservationPriorityAlways = None.
Proof.
  intros r. split; [by vm_compute|].
  refine (proj2 (memory_admission_exact r (2 ^ 61) ReservationPriorityAlways _ _ _ _) _);
    vm_compute; intuition congruence.
Defined.

(** The overflow tests of resource.go.  The addition test is exact; a product
    that the multiplication test accepts is the exact product unless the operands
    are (MinInt64, -1); and every product that fits is accepted unless an operand is
    one of the two values it rejects outright. *)
Theorem overflow_tests_exact a b :
  is_int64 a -> is_int64 b ->
  (snd (addInt64WithOverflow a b) = true <-> is_int64 (a + b)) /\
  (~ (a = MinInt64 /\ b = -1) -> snd (mulInt64WithOverflow a b) = true ->
     fst (mulInt64WithOverflow a b) = a * b) /\
  (is_int64 (a * b) -> a <> MaxInt64 -> b <> MinInt64 -> snd (mulInt64WithOverflow a b) = true).
Proof.
  intros Ha Hb. split_and!.
  - by apply add_overflow_exact.
  - intros. by apply mul_overflow_exact.
  - intros. by apply mul_overflow_complete.
Qed.

Lemma overflow_tests_exact_witness :
  snd (addInt64WithOverflow MaxInt64 1) = false /\ ~ is_int64 (MaxInt64 + 1) /\
  fst (mulInt64WithOverflow 256 (2 ^ 40)) = 256 * 2 ^ 40.
Proof.
  assert (is_int64 256 /\ is_int64 (2 ^ 40) /\ is_int64 MaxInt64 /\ is_int64 1) as (?&?&?&?)
    by (vm_compute; intuition congruence).
  split; [by vm_compute|]. split.
  - rewrite <-(proj1 (overflow_tests_exact MaxInt64 1 ltac:(done) ltac:(done))). by vm_compute.
  - apply (overflow_tests_exact 256 (2 ^ 40)); [done|done|vm_compute; intuition congruence|by vm_compute].
Defined.

(** The multiplication test accepts MinInt64 * -1 with the wrapped product: the
    test for the most negative left operand names the most positive value. *)
Theorem mul_overflow_missed :
  mulInt64WithOverflow MinInt64 (-1) = (MinInt64, true) /\ MinInt64 * -1 <> MinInt64.
Proof. split; by vm_compute. Qed.

(** What [RemainingResource] reports can be reserved.  A request that the
    remaining resources of a scope cover, and whose total counts its priorities, is
    admitted by that scope; and a request is admitted exactly when the accounting
    with it still respects every limit. *)
Theorem remaining_is_reservable {L} `{Limit L} (r : resources L) (l : GfSpLimit.t) :
  res_inv r -> GfSpLimit.typed l -> nonneg_limit l ->
  GfSpLimit.TasksHighPriority l + GfSpLimit.TasksMediumPriority l + GfSpLimit.TasksLowPriority l
    <= GfSpLimit.Tasks l ->
  GfSpLimit.not_less (remaining r) l = true ->
  snd (try_stat (GfSpLimit.ScopeStat l) r) = None.
Proof.
  intros Hi Ht Hn Hsum Hle%not_less_iff.
  pose proof (remaining_covers r l Hi Hn Hle Hsum) as Hp.
  apply try_stat_iff; [done| |split; [apply Hn|done]].
  unfold GfSpLimit.typed, nonneg_limit, stat_ok, count_ok in *. cbn. destruct_and!. go_unfold. lia.
Qed.

Lemma remaining_is_reservable_witness :
  let r := mkResources lim_svc 0 0 0 2 0 1 400 in
  remaining r = GfSpLimit.mk 100 5 2 4 3 0 0 0 0 /\
  snd (try_stat (GfSpLimit.ScopeStat (GfSpLimit.mk 100 5 2 2 1 0 0 0 0)) r) = None.
Proof.
  intros r. split; [by vm_compute|]. apply remaining_is_reservable.
  - split; [apply lim_svc_bounded|]. vm_compute. intuition congruence.
  - vm_compute. intuition congruence.
  - vm_compute. intuition congruence.
  - by vm_compute.
  - by vm_compute.
Defined.

(** A closed scope is inert.  Once a scope is closed every reservation on it,
    and every span, is refused with [ErrResourceScopeClosed] under the scope's name;
    every release, and closing it again, does nothing; the heap never changes. *)
Theorem closed_scope_inert {L} `{Limit L} (h : heap L) s sc :
  h !! s = Some sc -> done sc = true ->
  let closed := ErrWrapped (name sc) ErrResourceScopeClosed in
  (forall size prio, ReserveMemory s size prio h = Some (h, Some closed)) /\
  (forall num prio, AddTask s num prio h = Some (h, Some closed)) /\
  (forall dir, AddConn s dir h = Some (h, Some closed)) /\
  (forall st, ReserveResources s st h = Some (h, Some closed)) /\
  BeginSpan s h = Some (h, Err closed) /\
  (forall size, ReleaseMemory s size h = Some (h, tt)) /\
  (forall num prio, RemoveTask s num prio h = Some (h, tt)) /\
  (forall dir, RemoveConn s dir h = Some (h, tt)) /\
  (forall st, ReleaseResources s st h = Some (h, tt)) /\
  Release s h = Some (h, tt) /\ Done s h = Some (h, tt).
Proof.
  intros Hs Hd. cbn zeta.
  unfold ReserveMemory, AddTask, AddConn, ReserveResources, BeginSpan, ReleaseMemory, RemoveTask,
    RemoveConn, ReleaseResources, Release, Done, fuel_of.
  cbn [reserve_up release_up]. unfold load, mbind, scopeM_bind. rewrite Hs, Hd. by split_and!.
Qed.

Lemma closed_scope_inert_witness :
  match Done 1 heap_svc with
  | Some (h, _) => ReserveMemory 1 1 255 h = Some (h, Some (ErrWrapped "svc" ErrResourceScopeClosed))
  | None => False
  end.
Proof.
  refine (proj1 (closed_scope_inert _ 1
    (set_done true (mkScope false 0 0 (new_resources lim_svc) None [0%nat] "svc")) _ _) 1 255);
    vm_compute; reflexivity.
Defined.

(** The shown limit of a service is not the service's.  [ServiceState] looks the
    limit up under the usage string, so with a configuration of the usual service
    names it always reports the system limit, whatever the service's own limit. *)
Theorem service_state_shows_system_limit limit_string (r : resourceManager) nm scop (h : heap GfSpLimit.t) sc :
  svc r !! nm = Some scop -> h !! scop = Some sc ->
  ServiceLimit (limits r) !! ScopeStat_String (stat (rc sc)) = None ->
  ServiceState limit_string r nm h =
    Some (h, "use: " +:+ ScopeStat_String (stat (rc sc)) +:+ "limit: " +:+
             limit_string (System (limits r)))%string.
Proof.
  intros Hr Hs Hl. unfold ServiceState, Stat, load, mbind, scopeM_bind, mret, scopeM_ret.
  rewrite Hr, Hs. unfold GetServiceLimits. by rewrite Hl.
Qed.

Definition shown_memory (l : GfSpLimit.t) : string := pretty (GfSpLimit.Memory l).

Lemma service_state_shows_system_limit_witness :
  let r := mkManager (mkLimiter lim_sys lim_sys {["svc"%string := lim_svc]}) 0 0 {["svc"%string := 1%nat]} in
  GetServiceLimits (limits r) "svc" = Some lim_svc /\
  ServiceState shown_memory r "svc" heap_svc =
    Some (heap_svc, "use: memory reserved [0], task reserved[h: 0, m: 0, l: 0]limit: 1000")%string.
Proof.
  intros r. split; [by vm_compute|].
  apply (service_state_shows_system_limit shown_memory r "svc" 1 heap_svc
    (mkScope false 0 0 (new_resources lim_svc) None [0%nat] "svc")); vm_compute; reflexivity.
Defined.

(** A task of unknown priority that an owner or edge refuses stays counted as a low
    priority task: [addTask] counts it, the undo [removeTask] does not. *)
Example unknown_priority_leaks :
  exists h e, AddTask 1 11 ReserveTaskPriorityUnknown
      (<[1%nat := mkScope false 0 0 (new_resources (GfSpLimit.mk 500 20 20 20 20 0 0 0 0)) None [0%nat] "svc"]> heap_svc)
      = Some (h, Some e) /\
    option_map (fun sc => ntasksLow (rc sc)) (h !! 1%nat) = Some 11.
Proof. eexists _, _. split; [vm_compute; reflexivity|]. vm_compute. reflexivity. Qed.
