(* ===== verification/Strconv.v ===== *)
(** The parts of Go's strings and strconv packages that the sources use, with
    their facts: [strings.Split] on a one-character separator, [strconv.ParseUint]
    and [strconv.ParseInt] in base 10, and the decimal printing of integers
    ([fmt.Sprint], [%d]), which is stdpp's [pretty]. *)
From Stdlib Require Import ZArith Lia Ascii.
From stdpp Require Import base list strings pretty.
From S2P Require Import Prelude.

Local Open Scope Z_scope.

(** [strings.Split(s, sep)] for a separator of one character. *)
Fixpoint Split (s : string) (sep : ascii) : list string :=
  match s with
  | EmptyString => [""%string]
  | String c s =>
    if bool_decide (c = sep) then ""%string :: Split s sep
    else match Split s sep with
         | [] => [String c ""]
         | p :: ps => String c p :: ps
         end
  end.

(** [strings.Contains] *)
Fixpoint Contains (s sub : string) : bool :=
  String.prefix sub s || match s with String _ s => Contains s sub | EmptyString => false end.

Inductive num_error := ErrSyntax | ErrRange.

(** The value of a decimal digit. *)
Definition digit_val (c : ascii) : option Z :=
  let n := Z.of_N (N_of_ascii c) in
  if (48 <=? n) && (n <=? 57) then Some (n - 48) else None.

(** The loop of [ParseUint] for base 10: stops at the first character that is not
    a digit and at the first value above [maxVal]. *)
Fixpoint parse_uint_loop (s : string) (n maxVal : Z) : result num_error Z :=
  match s with
  | EmptyString => Ok n
  | String c s =>
    match digit_val c with
    | None => Err ErrSyntax
    | Some d => if n * 10 + d >? maxVal then Err ErrRange else parse_uint_loop s (n * 10 + d) maxVal
    end
  end.

Definition ParseUint (s : string) (bitSize : Z) : result num_error Z :=
  match s with
  | EmptyString => Err ErrSyntax
  | _ => parse_uint_loop s 0 (2 ^ bitSize - 1)
  end.

Definition ParseInt (s : string) (bitSize : Z) : result num_error Z :=
  match s with
  | EmptyString => Err ErrSyntax
  | String c r =>
    let '(neg, s) :=
      if bool_decide (c = "+"%char) then (false, r)
      else if bool_decide (c = "-"%char) then (true, r) else (false, s) in
    let cutoff := 2 ^ (bitSize - 1) in
    match ParseUint s bitSize with
    | Err e => Err e
    | Ok un =>
      if negb neg && (un >=? cutoff) then Err ErrRange
      else if neg && (un >? cutoff) then Err ErrRange
      else Ok (if neg then - un else un)
    end
  end.

(** ** Facts *)

Lemma Split_no_sep s sep : no_char sep s -> Split s sep = [s].
Proof.
  induction s as [|c s IH]; cbn; [done|]. intros [Hc Hs]%andb_True.
  rewrite IH by done. by destruct (bool_decide (c = sep)).
Qed.

Lemma Split_app a b sep : no_char sep a -> Split (a +:+ String sep b) sep = a :: Split b sep.
Proof.
  induction a as [|c a IH]; rewrite ?string_app_nil, ?string_app_cons; cbn; intros Ha.
  - by rewrite bool_decide_true.
  - apply andb_True in Ha as [Hc Ha]. rewrite IH by done.
    by destruct (bool_decide (c = sep)).
Qed.

(** Decimal digits. *)
Lemma digit_val_char x : (x < 10)%N -> digit_val (pretty_N_char x) = Some (Z.of_N x).
Proof.
  intros. assert (x = 0 \/ x = 1 \/ x = 2 \/ x = 3 \/ x = 4 \/ x = 5 \/ x = 6 \/ x = 7 \/ x = 8 \/ x = 9)%N
    as Hx by lia. destruct_or! Hx; subst; by vm_compute.
Qed.

Lemma parse_uint_go x s maxVal :
  Z.of_N x <= maxVal -> parse_uint_loop (pretty_N_go x s) 0 maxVal = parse_uint_loop s (Z.of_N x) maxVal.
Proof.
  revert s. induction (N.lt_wf_0 x) as [x _ IH]; intros s Hx.
  assert (x = 0 \/ 0 < x)%N as [->|?] by lia; [done|].
  rewrite pretty_N_go_step by done.
  pose proof (N.mod_lt x 10 ltac:(done)).
  assert (x `div` 10 <= x)%N by (apply N.Div0.div_le_upper_bound; lia).
  rewrite IH; [|by apply N.div_lt|lia]. cbn [parse_uint_loop].
  rewrite digit_val_char by done.
  replace (Z.of_N (x `div` 10) * 10 + Z.of_N (x `mod` 10)) with (Z.of_N x).
  2:{ rewrite N2Z.inj_div, N2Z.inj_mod. pose proof (Z.div_mod (Z.of_N x) 10). lia. }
  by destruct (Z.gtb_spec (Z.of_N x) maxVal); [lia|].
Qed.

Lemma pretty_N_go_nonempty y s : s <> ""%string -> pretty_N_go y s <> ""%string.
Proof.
  revert s. induction (N.lt_wf_0 y) as [y _ IH]; intros s Hs.
  assert (y = 0 \/ 0 < y)%N as [->|?] by lia; [done|].
  rewrite pretty_N_go_step by done. apply IH; [by apply N.div_lt|done].
Qed.

Lemma pretty_pos_nonempty p : pretty_N_go (Npos p) ""%string <> ""%string.
Proof. rewrite pretty_N_go_step by done. by apply pretty_N_go_nonempty. Qed.

(** Printing and parsing unsigned numbers. *)
Lemma ParseUint_pretty (z : Z) w : 0 <= z <= 2 ^ w - 1 -> ParseUint (pretty z) w = Ok z.
Proof.
  intros Hz. destruct z as [|p|p]; [|..|lia].
  - change (parse_uint_loop "0" 0 (2 ^ w - 1) = Ok 0). cbn [parse_uint_loop].
    change (digit_val "0") with (Some 0). cbv match.
    by destruct (Z.gtb_spec (0 * 10 + 0) (2 ^ w - 1)); [lia|].
  - change (pretty (Z.pos p)) with (pretty_N_go (Npos p) ""). unfold ParseUint.
    destruct (pretty_N_go (Npos p) "") eqn:E.
    { by apply pretty_pos_nonempty in E. }
    rewrite <-E, parse_uint_go by lia. done.
Qed.

(** A printed integer contains no other character than digits and a minus sign. *)
Lemma pretty_N_go_no_char c y s :
  digit_val c = None -> no_char c s -> no_char c (pretty_N_go y s).
Proof.
  intros Hc. revert s. induction (N.lt_wf_0 y) as [y _ IH]; intros s Hs.
  assert (y = 0 \/ 0 < y)%N as [->|?] by lia; [done|].
  rewrite pretty_N_go_step by done. apply IH; [by apply N.div_lt|]. cbn.
  apply andb_True. split; [|done]. rewrite bool_decide_false; [done|]. intros <-.
  rewrite digit_val_char in Hc; [done|]. by apply N.mod_lt.
Qed.

Lemma pretty_no_char c (z : Z) : digit_val c = None -> c <> "-"%char -> no_char c (pretty z).
Proof.
  intros Hc Hm. destruct z as [|p|p]; unfold pretty, pretty_Z.
  - cbn. rewrite andb_true_r. rewrite bool_decide_false; [done|]. by intros <-.
  - by apply pretty_N_go_no_char.
  - rewrite no_char_app. apply andb_True. split; [|by apply pretty_N_go_no_char].
    cbn. by rewrite bool_decide_false.
Qed.

(** The first character of a printed non-negative number is a digit. *)
Lemma pretty_N_go_head y s :
  y <> 0%N -> exists c r d, pretty_N_go y s = String c r /\ digit_val c = Some d.
Proof.
  revert s. induction (N.lt_wf_0 y) as [y _ IH]; intros s Hy.
  rewrite pretty_N_go_step by lia. destruct (decide (y `div` 10 = 0)%N) as [->|Hd].
  - rewrite pretty_N_go_0. eexists _, _, _. split; [done|]. apply digit_val_char. by apply N.mod_lt.
  - apply IH; [apply N.div_lt; lia|done].
Qed.

(** Printing and parsing signed numbers. *)
Lemma ParseInt_pretty (z : Z) w : 0 < w -> - 2 ^ (w - 1) <= z < 2 ^ (w - 1) -> ParseInt (pretty z) w = Ok z.
Proof.
  intros Hw Hz. pose proof (pow2_half w Hw). destruct (Z.ltb_spec z 0).
  - destruct z as [|p|p]; [lia|lia|]. unfold ParseInt.
    change (pretty (Z.neg p)) with (String "-" (pretty (Z.pos p))). cbn [bool_decide].
    rewrite bool_decide_false, bool_decide_true by done.
    rewrite ParseUint_pretty by lia. cbn.
    destruct (Z.gtb_spec (Z.pos p) (2 ^ (w - 1))); [lia|done].
  - unfold ParseInt. rewrite <-(ParseUint_pretty z w) by lia.
    destruct (pretty z) as [|c r] eqn:E.
    { destruct z as [|p|p]; [done|by apply pretty_pos_nonempty in E|lia]. }
    assert (exists d, digit_val c = Some d) as [d Hd].
    { destruct z as [|p|p]; [injection E as <- <-; by eexists| |lia].
      destruct (pretty_N_go_head (Npos p) "" ltac:(done)) as (c' & r' & d & E' & Hd).
      change (pretty_N_go (Npos p) "" = String c r) in E. rewrite E' in E. injection E as -> ->. by exists d. }
    rewrite !bool_decide_false by (intros ->; done). rewrite <-E, ParseUint_pretty by lia. cbn.
    destruct (Z.geb_spec z (2 ^ (w - 1))); [lia|done].
Qed.
