(* ===== verification/Checksum.v ===== *)
(** store/piecestore/storage/checksum.go: the CRC-32C of a stored object, kept as a
    decimal string in the metadata of the object, and the readers that verify it.  The
    parts of hash/crc32 and io that the code uses come first. *)
From Stdlib Require Import ZArith Lia.
From stdpp Require Import base list strings pretty.
From S2P Require Import Prelude Strconv.

Local Open Scope Z_scope.

(** ** Bytes *)

Notation bytes := (list Byte.byte).

Definition byte_val (b : Byte.byte) : Z := Z.of_N (Byte.to_N b).

#[export] Instance byte_eq_dec : EqDecision Byte.byte.
Proof. intros a b. destruct (Byte.byte_eq_dec a b); [by left|by right]. Defined.

(** [len(data)] of a slice, an int. *)
Definition len (data : bytes) : Z := Z.of_nat (length data).

(** [data[lo:hi]]; a slice out of range panics. *)
Definition slice (data : bytes) (lo hi : Z) : option bytes :=
  if (0 <=? lo) && (lo <=? hi) && (hi <=? len data)
  then Some (take (Z.to_nat (hi - lo)) (drop (Z.to_nat lo) data)) else None.

(** The range of an object a ranged read asks for: [limit] bytes from [offset] on, all
    of them when [limit] is not positive. *)
Definition range_of (data : bytes) (offset limit : Z) : bytes :=
  let rest := drop (Z.to_nat offset) data in
  if limit >? 0 then take (Z.to_nat limit) rest else rest.

(** ** hash/crc32 *)

Definition Castagnoli : Z := 0x82f63b78.

Fixpoint crc_bits (n : nat) (crc : Z) : Z :=
  match n with
  | O => crc
  | S n =>
    crc_bits n (if Z.land crc 1 =? 1 then Z.lxor (Z.shiftr crc 1) Castagnoli else Z.shiftr crc 1)
  end.

(** [crc32.MakeTable(crc32.Castagnoli)]. *)
Definition crc32c : list Z := Eval vm_compute in map (crc_bits 8) (seqZ 0 256).

Definition crc_step (crc : Z) (v : Byte.byte) : Z :=
  Z.lxor (nth (Z.to_nat (Z.lxor (Z.land crc 255) (byte_val v))) crc32c 0) (Z.shiftr crc 8).

(** [^crc] on uint32. *)
Definition not32 (crc : Z) : Z := Z.lxor crc MaxUint32.

(** [crc32.Update(crc, crc32c, p)]. *)
Definition crc_update (crc : Z) (p : bytes) : Z := not32 (foldl crc_step (not32 crc) p).

(** ** io

    A reader is what its successive calls of Read answer: chunks without an error,
    then a last chunk with the error that ends it. *)

Inductive read_error :=
| EOF
| ReadFailed (cause : string)
| ChecksumMismatch (checksum expected : Z).

#[export] Instance read_error_eq_dec : EqDecision read_error.
Proof. solve_decision. Defined.

Record reader := Reader {
  chunks : list bytes;
  final : bytes;
  ending : read_error;
}.

(** [bytes.NewReader(data)]. *)
Definition NewReader (data : bytes) : reader := Reader [data] [] EOF.

(** The bytes a reader delivers before it ends. *)
Definition delivered (r : reader) : bytes := concat (chunks r) ++ final r.

(** [io.ReadAll], and [io.Copy] into a buffer. *)
Definition ReadAll (r : reader) : result read_error bytes :=
  match ending r with EOF => Ok (delivered r) | e => Err e end.

(** ** checksum.go *)

(** [generateChecksum] tells a *bytes.Reader, whose buffer it takes whole, from the
    other seekable readers. *)
Inductive read_seeker :=
| BytesReader (data : bytes)
| OtherSeeker (r : reader).

Definition generateChecksum (rs : read_seeker) : string :=
  match rs with
  | BytesReader data => pretty (crc_update 0 data)
  | OtherSeeker r =>
    let hash := crc_update (foldl crc_update 0 (chunks r)) (final r) in
    match ending r with EOF => pretty hash | _ => ""%string end
  end.

(** [checksumReader.Read]: the new running checksum, and what the call answers. *)
Definition checksumReader_Read (expected checksum : Z) (buf : bytes) (err : option read_error)
  : Z * (bytes * option read_error) :=
  let checksum := crc_update checksum buf in
  match err with
  | Some EOF =>
    if negb (checksum =? expected) then (checksum, ([], Some (ChecksumMismatch checksum expected)))
    else (checksum, (buf, Some EOF))
  | _ => (checksum, (buf, err))
  end.

(** The successive answers of the wrapped reader. *)
Fixpoint checksum_reads (expected checksum : Z) (l : list bytes) : Z * list bytes :=
  match l with
  | [] => (checksum, [])
  | c :: l =>
    let '(checksum, (buf, _)) := checksumReader_Read expected checksum c None in
    let '(checksum, rest) := checksum_reads expected checksum l in
    (checksum, buf :: rest)
  end.

Definition checksumReader (rc : reader) (expected : Z) : reader :=
  let '(checksum, cs) := checksum_reads expected 0 (chunks rc) in
  let '(_, (buf, err)) := checksumReader_Read expected checksum (final rc) (Some (ending rc)) in
  Reader cs buf (default EOF err).

Inductive checksum_error :=
| ErrInvalidChecksum (checksum : string)
| ErrInvalidRange (offset size : Z)
| ErrRead (e : read_error).

#[export] Instance checksum_error_eq_dec : EqDecision checksum_error.
Proof. solve_decision. Defined.

Definition verifyChecksum (rc : reader) (checksum : string) : result checksum_error reader :=
  if bool_decide (checksum = ""%string) then Ok rc
  else
    match ParseUint checksum 32 with
    | Ok expected => Ok (checksumReader rc expected)
    | Err _ =>
      match ParseInt checksum 32 with
      | Err _ => Err (ErrInvalidChecksum checksum)
      | Ok signedExpected => Ok (checksumReader rc (uwrap 32 signedExpected))
      end
    end.

(** [None] is a panic of the final slice. *)
Definition verifiedRange (rc : reader) (checksum : string) (offset limit : Z)
  : option (result checksum_error reader) :=
  match verifyChecksum rc checksum with
  | Err e => Some (Err e)
  | Ok vr =>
    match ReadAll vr with
    | Err e => Some (Err (ErrRead e))
    | Ok data =>
      if (offset <? 0) || (offset >=? len data) then Some (Err (ErrInvalidRange offset (len data)))
      else
        let end_ := len data in
        let end_ := if (limit >? 0) && (limit <? (end_ -' offset)%go)
                    then (offset +' limit)%go else end_ in
        match slice data offset end_ with
        | Some d => Some (Ok (NewReader d))
        | None => None
        end
    end
  end.

(** ** Facts *)

Section crc.
Implicit Types (data a b : bytes).

Lemma not32_involutive x : not32 (not32 x) = x.
Proof. unfold not32. by rewrite Z.lxor_assoc, Z.lxor_nilpotent, Z.lxor_0_r. Qed.

Lemma crc_update_app crc a b : crc_update crc (a ++ b) = crc_update (crc_update crc a) b.
Proof. unfold crc_update. by rewrite not32_involutive, foldl_app. Qed.

Lemma crc_update_nil crc : crc_update crc [] = crc.
Proof. apply not32_involutive. Qed.

Lemma crc_update_concat crc l : foldl crc_update crc l = crc_update crc (concat l).
Proof.
  revert crc. induction l as [|a l IH]; intros crc; cbn; [by rewrite crc_update_nil|].
  by rewrite IH, crc_update_app.
Qed.

Lemma lxor_pow2 (n a b : Z) : 0 <= n -> 0 <= a < 2 ^ n -> 0 <= b < 2 ^ n -> 0 <= Z.lxor a b < 2 ^ n.
Proof.
  intros Hn Ha Hb. assert (Z.lxor a b = Z.lxor a b mod 2 ^ n) as ->; [|apply Z.mod_pos_bound; lia].
  apply Z.bits_inj'. intros i Hi. destruct (Z.ltb_spec i n).
  - by rewrite Z.mod_pow2_bits_low.
  - rewrite Z.mod_pow2_bits_high, Z.lxor_spec by lia.
    rewrite <-(Z.mod_small a (2 ^ n)), <-(Z.mod_small b (2 ^ n)) by done.
    by rewrite !Z.mod_pow2_bits_high by lia.
Qed.

Lemma byte_val_range (b : Byte.byte) : 0 <= byte_val b < 2 ^ 8.
Proof. unfold byte_val. pose proof (Byte.to_N_bounded b). lia. Qed.

Lemma crc32c_range i : 0 <= nth i crc32c 0 < 2 ^ 32.
Proof.
  assert (Forall (fun x => 0 <= x < 2 ^ 32) crc32c) as H.
  { apply Forall_forall. intros x Hx%list_elem_of_In.
    assert (forallb (fun x => (0 <=? x) && (x <? 2 ^ 32)) crc32c = true) as Hb by by vm_compute.
    apply forallb_forall with (x := x) in Hb; [|done]. lia. }
  destruct (nth_in_or_default i crc32c 0) as [Hin| ->]; [|lia].
  rewrite Forall_forall in H. by apply H, list_elem_of_In.
Qed.

Lemma crc_step_range crc v : 0 <= crc < 2 ^ 32 -> 0 <= crc_step crc v < 2 ^ 32.
Proof.
  intros Hc. apply lxor_pow2; [lia|apply crc32c_range|].
  rewrite Z.shiftr_div_pow2 by lia. split; [apply Z.div_pos; lia|].
  apply Z.div_lt_upper_bound; lia.
Qed.

Lemma not32_range crc : 0 <= crc < 2 ^ 32 -> 0 <= not32 crc < 2 ^ 32.
Proof. intros. apply lxor_pow2; [lia|done|go_lia]. Qed.

Lemma crc_update_range crc data : 0 <= crc < 2 ^ 32 -> 0 <= crc_update crc data < 2 ^ 32.
Proof.
  intros Hc. apply not32_range. apply not32_range in Hc. revert Hc. generalize (not32 crc).
  induction data as [|v data IH]; cbn [foldl]; [done|]. intros c Hc. by apply IH, crc_step_range.
Qed.

(** Reading in pieces sums as the whole does, for the seekers as for the buffers. *)
Lemma generateChecksum_other r :
  ending r = EOF -> generateChecksum (OtherSeeker r) = generateChecksum (BytesReader (delivered r)).
Proof. intros He. cbn. by rewrite He, crc_update_concat, <-crc_update_app. Qed.
End crc.

Section readers.
Implicit Types (data : bytes) (rc : reader) (e : Z).

Lemma checksum_reads_eq e c l : checksum_reads e c l = (crc_update c (concat l), l).
Proof.
  revert c. induction l as [|a l IH]; intros c; cbn; [by rewrite crc_update_nil|].
  by rewrite IH, crc_update_app.
Qed.

(** Reading a verified reader to its end. *)
Lemma ReadAll_checksumReader rc e :
  ReadAll (checksumReader rc e) =
    match ending rc with
    | EOF => if crc_update 0 (delivered rc) =? e then Ok (delivered rc)
             else Err (ChecksumMismatch (crc_update 0 (delivered rc)) e)
    | err => Err err
    end.
Proof.
  unfold checksumReader. rewrite checksum_reads_eq. unfold checksumReader_Read, ReadAll, delivered.
  rewrite <-crc_update_app. destruct (ending rc); [|done..].
  by destruct (_ =? e) eqn:?.
Qed.

(** The checksum of [data] verifies, whatever the chunks [data] is read in. *)
Lemma verify_generated rc data :
  ending rc = EOF -> delivered rc = data ->
  exists vr, verifyChecksum rc (generateChecksum (BytesReader data)) = Ok vr /\ ReadAll vr = Ok data.
Proof.
  intros He <-. set (data := delivered rc). pose proof (crc_update_range 0 data ltac:(lia)) as Hr.
  cbn [generateChecksum]. unfold verifyChecksum. pose proof (ParseUint_pretty (crc_update 0 data) 32 ltac:(lia)) as Hp.
  rewrite bool_decide_false by (intros E; by rewrite E in Hp).
  rewrite Hp. eexists. split; [done|].
  rewrite ReadAll_checksumReader, He. fold data. by rewrite Z.eqb_refl.
Qed.

Lemma slice_range data offset limit :
  is_int64 (len data) -> 0 <= offset < len data -> is_int64 limit ->
  slice data offset
    (if (limit >? 0) && (limit <? (len data -' offset)%go) then (offset +' limit)%go else len data)
  = Some (range_of data offset limit).
Proof.
  intros Hlen Hoff Hlim. rewrite (int64_wrap_id (len data - offset)) by (go_unfold; lia).
  unfold slice, range_of. destruct (Z.gtb_spec limit 0); cbn [andb].
  - destruct (Z.ltb_spec limit (len data - offset)).
    + rewrite int64_wrap_id by (go_unfold; lia).
      replace ((0 <=? offset) && (offset <=? offset + limit) && (offset + limit <=? len data)) with true
        by (symmetry; rewrite !andb_true_iff; lia).
      do 2 f_equal. lia.
    + replace ((0 <=? offset) && (offset <=? len data) && (len data <=? len data)) with true
        by (symmetry; rewrite !andb_true_iff; lia).
      f_equal. rewrite !take_ge; [done|..]; rewrite length_drop; unfold len in *; lia.
  - replace ((0 <=? offset) && (offset <=? len data) && (len data <=? len data)) with true
      by (symmetry; rewrite !andb_true_iff; lia).
    f_equal. rewrite take_ge; [done|]. rewrite length_drop. unfold len in *; lia.
Qed.

(** A ranged read of [data] under its own checksum. *)
Lemma verifiedRange_ok rc data offset limit :
  ending rc = EOF -> delivered rc = data ->
  is_int64 (len data) -> is_int64 limit -> 0 <= offset < len data ->
  verifiedRange rc (generateChecksum (BytesReader data)) offset limit
  = Some (Ok (NewReader (range_of data offset limit))).
Proof.
  intros He Hd Hl Hlim Hoff. unfold verifiedRange.
  destruct (verify_generated rc data He Hd) as (vr & -> & ->).
  destruct (Z.ltb_spec offset 0); [lia|]. destruct (Z.geb_spec offset (len data)); [lia|]. cbn [orb].
  by rewrite slice_range.
Qed.

Lemma ReadAll_NewReader data : ReadAll (NewReader data) = Ok data.
Proof. unfold ReadAll, delivered, NewReader. cbn. by rewrite !app_nil_r. Qed.

Lemma range_all data limit : limit <= 0 -> range_of data 0 limit = data.
Proof. intros. unfold range_of. cbn. by destruct (Z.gtb_spec limit 0); [lia|]. Qed.
End readers.
