(* ===== verification/Hex.v ===== *)
(** Bytes as text: encoding/hex, and the helpers of util/string.go by which lists of
    checksums are kept in one column. *)
From Stdlib Require Import ZArith Lia String Ascii.
From stdpp Require Import base list strings.
From S2P Require Import Prelude Strconv Checksum.

Local Open Scope Z_scope.

(** ** encoding/hex *)

Definition hex_digit (d : Z) : ascii := ascii_of_N (Z.to_N (if d <? 10 then 48 + d else 87 + d)).

Fixpoint EncodeToString (b : bytes) : string :=
  match b with
  | [] => ""
  | v :: b => String (hex_digit (byte_val v / 16)) (String (hex_digit (byte_val v mod 16)) (EncodeToString b))
  end.

Inductive hex_error := ErrInvalidByte (c : ascii) | ErrLength.

#[export] Instance hex_error_eq_dec : EqDecision hex_error.
Proof. solve_decision. Defined.

(** The value of a hexadecimal digit, in either case. *)
Definition from_hex (c : ascii) : option Z :=
  let n := Z.of_N (N_of_ascii c) in
  if (48 <=? n) && (n <=? 57) then Some (n - 48)
  else if (97 <=? n) && (n <=? 102) then Some (n - 87)
  else if (65 <=? n) && (n <=? 70) then Some (n - 55)
  else None.

Definition byte_of (n : Z) : Byte.byte := default Byte.x00 (Byte.of_N (Z.to_N (n mod 256))).

Fixpoint DecodeString (s : string) : result hex_error bytes :=
  match s with
  | EmptyString => Ok []
  | String p EmptyString =>
    match from_hex p with None => Err (ErrInvalidByte p) | Some _ => Err ErrLength end
  | String p (String q s) =>
    match from_hex p, from_hex q with
    | None, _ => Err (ErrInvalidByte p)
    | _, None => Err (ErrInvalidByte q)
    | Some a, Some b =>
      match DecodeString s with
      | Err e => Err e
      | Ok l => Ok (byte_of (16 * a + b) :: l)
      end
    end
  end.

(** ** util/string.go *)

(** [strings.TrimSpace] on text without non-ASCII white space. *)
Definition is_space (c : ascii) : bool :=
  let n := N_of_ascii c in bool_decide (n = 32)%N || ((9 <=? n)%N && (n <=? 13)%N).

Fixpoint trim_left (l : list ascii) : list ascii :=
  match l with
  | [] => []
  | c :: l => if is_space c then trim_left l else c :: l
  end.

Definition TrimSpace (s : string) : string :=
  string_of_list_ascii (rev (trim_left (rev (trim_left (list_ascii_of_string s))))).

Fixpoint JoinWithComma (l : list string) : string :=
  match l with
  | [] => ""
  | [p] => p
  | p :: l => (p +:+ String "," (JoinWithComma l))%string
  end.

Definition SplitByComma (str : string) : list string :=
  let strArr := Split (TrimSpace str) ","%char in
  foldl (fun trimStr item =>
    if (0 <? String.length (TrimSpace item))%nat then trimStr ++ [TrimSpace item] else trimStr) [] strArr.

Definition BytesSliceToString (l : list bytes) : string := JoinWithComma (EncodeToString <$> l).

Fixpoint decode_all (l : list string) : result hex_error (list bytes) :=
  match l with
  | [] => Ok []
  | s :: l =>
    match DecodeString s with
    | Err e => Err e
    | Ok b => match decode_all l with Err e => Err e | Ok bs => Ok (b :: bs) end
    end
  end.

Definition StringToBytesSlice (str : string) : result hex_error (list bytes) := decode_all (SplitByComma str).

(** ** Facts *)

Lemma from_hex_digit (d : Z) : 0 <= d < 16 -> from_hex (hex_digit d) = Some d.
Proof.
  intros Hd. unfold from_hex, hex_digit. assert (Z.to_N ((if d <? 10 then 48 + d else 87 + d)%Z) < 256)%N.
  { destruct (Z.ltb_spec d 10); lia. }
  rewrite N_ascii_embedding by done. destruct (Z.ltb_spec d 10).
  - rewrite Z2N.id by lia. replace ((48 <=? 48 + d) && (48 + d <=? 57)) with true; [f_equal; lia|].
    symmetry. rewrite andb_true_iff. lia.
  - rewrite Z2N.id by lia. replace ((48 <=? 87 + d) && (87 + d <=? 57)) with false
      by (symmetry; rewrite andb_false_iff; lia).
    replace ((97 <=? 87 + d) && (87 + d <=? 102)) with true; [f_equal; lia|].
    symmetry. rewrite andb_true_iff. lia.
Qed.

Lemma hex_digit_inj a b : 0 <= a < 16 -> 0 <= b < 16 -> hex_digit a = hex_digit b -> a = b.
Proof. intros Ha Hb E. apply (f_equal from_hex) in E. rewrite !from_hex_digit in E by done. congruence. Qed.

(** A hexadecimal digit is neither a comma nor white space. *)
Lemma hex_digit_plain d : 0 <= d < 16 -> hex_digit d <> ","%char /\ is_space (hex_digit d) = false.
Proof.
  intros Hd. assert (d ∈ seqZ 0 16) as Hin by (apply elem_of_seqZ; lia).
  assert (forallb (fun d => negb (bool_decide (hex_digit d = ","%char)) && negb (is_space (hex_digit d))) (seqZ 0 16)
    = true) as H by by vm_compute.
  apply forallb_forall with (x := d) in H; [|by apply list_elem_of_In].
  apply andb_prop in H as [H1 H2]. split; [|by destruct (is_space _)].
  intros E. by rewrite bool_decide_true in H1.
Qed.

Lemma byte_of_val b : byte_of (byte_val b) = b.
Proof.
  unfold byte_of. pose proof (byte_val_range b). rewrite Z.mod_small by lia. unfold byte_val.
  by rewrite N2Z.id, Byte.of_to_N.
Qed.

Lemma byte_digits (v : Byte.byte) : 0 <= byte_val v / 16 < 16 /\ 0 <= byte_val v mod 16 < 16.
Proof.
  pose proof (byte_val_range v). split.
  - split; [apply Z.div_pos; lia|apply Z.div_lt_upper_bound; lia].
  - apply Z.mod_pos_bound. lia.
Qed.

Lemma DecodeString_EncodeToString b : DecodeString (EncodeToString b) = Ok b.
Proof.
  induction b as [|v b IH]; [done|]. cbn. pose proof (byte_digits v) as [H1 H2].
  rewrite !from_hex_digit, IH by done.
  replace (16 * (byte_val v / 16) + byte_val v mod 16) with (byte_val v) by (pose proof (Z.div_mod (byte_val v) 16); lia).
  by rewrite byte_of_val.
Qed.

(** Text without commas and white space. *)
Definition plain (s : string) : Prop :=
  Forall (fun c => c <> ","%char /\ is_space c = false) (list_ascii_of_string s).

Lemma encode_plain b : plain (EncodeToString b).
Proof.
  induction b as [|v b IH]; [constructor|]. pose proof (byte_digits v) as [H1 H2].
  by repeat constructor; try (by apply hex_digit_plain).
Qed.

Lemma trim_left_id l : Forall (fun c => is_space c = false) (take 1 l) -> trim_left l = l.
Proof. destruct l as [|c l]; [done|]. cbn. by intros [-> _]%Forall_cons. Qed.

(** Text that neither begins nor ends with white space. *)
Lemma TrimSpace_id s :
  Forall (fun c => is_space c = false) (list_ascii_of_string s) \/
  (Forall (fun c => is_space c = false) (take 1 (list_ascii_of_string s)) /\
   Forall (fun c => is_space c = false) (take 1 (rev (list_ascii_of_string s)))) -> TrimSpace s = s.
Proof.
  intros H. unfold TrimSpace. assert
    (Forall (fun c => is_space c = false) (take 1 (list_ascii_of_string s)) /\
     Forall (fun c => is_space c = false) (take 1 (rev (list_ascii_of_string s)))) as [H1 H2].
  { destruct H as [H|H]; [|done]. split; apply Forall_take; [done|by apply List.Forall_rev]. }
  rewrite (trim_left_id (list_ascii_of_string s)) by done. rewrite trim_left_id by done.
  by rewrite rev_involutive, string_of_list_ascii_of_string.
Qed.

Lemma plain_trim s : plain s -> TrimSpace s = s.
Proof. intros H. apply TrimSpace_id. left. eapply Forall_impl; [exact H|]. by intros ? []. Qed.

Lemma plain_no_comma s : plain s -> no_char "," s.
Proof.
  unfold plain. induction s as [|c s IH]; [done|]. cbn. intros [ [Hc _] Hs]%Forall_cons.
  apply andb_True. split; [|by apply IH]. by rewrite bool_decide_false.
Qed.

Lemma list_ascii_app (a b : string) :
  list_ascii_of_string (a +:+ b) = list_ascii_of_string a ++ list_ascii_of_string b.
Proof. induction a as [|c a IH]; [done|]. rewrite string_app_cons. cbn. by rewrite IH. Qed.

(** No white space in joined plain text. *)
Lemma join_no_space (l : list string) :
  Forall plain l -> Forall (fun c => is_space c = false) (list_ascii_of_string (JoinWithComma l)).
Proof.
  induction l as [|p l IH]; intros Hl; [constructor|]. apply Forall_cons in Hl as [Hp Hl].
  assert (Forall (fun c => is_space c = false) (list_ascii_of_string p)) as Hp'.
  { eapply Forall_impl; [exact Hp|]. by intros ? []. }
  destruct l as [|q l]; [done|]. change (JoinWithComma (p :: q :: l)) with (p +:+ String "," (JoinWithComma (q :: l)))%string.
  rewrite list_ascii_app. apply Forall_app. split; [done|]. cbn [list_ascii_of_string]. constructor; [done|by apply IH].
Qed.

Lemma split_join (l : list string) :
  Forall plain l -> Split (JoinWithComma l) "," = match l with [] => [""%string] | _ => l end.
Proof.
  induction l as [|p l IH]; intros Hl; [done|]. apply Forall_cons in Hl as [Hp Hl].
  destruct l as [|q l].
  - cbn [JoinWithComma]. by apply Split_no_sep, plain_no_comma.
  - change (JoinWithComma (p :: q :: l)) with (p +:+ String "," (JoinWithComma (q :: l)))%string.
    rewrite Split_app by by apply plain_no_comma. by rewrite IH.
Qed.

Lemma collect_items (acc l : list string) :
  Forall plain l ->
  foldl (fun trimStr item =>
    if (0 <? String.length (TrimSpace item))%nat then trimStr ++ [TrimSpace item] else trimStr) acc l
  = acc ++ filter (fun s => s <> ""%string) l.
Proof.
  revert acc. induction l as [|p l IH]; intros acc Hl; cbn [foldl]; [by rewrite app_nil_r|].
  apply Forall_cons in Hl as [Hp Hl]. rewrite plain_trim by done. rewrite IH by done.
  rewrite filter_cons. destruct p as [|c p]; [by rewrite decide_False by naive_solver|].
  rewrite decide_True by done. cbn. by rewrite <-app_assoc.
Qed.

Lemma SplitByComma_Join (l : list string) :
  Forall plain l -> SplitByComma (JoinWithComma l) = filter (fun s => s <> ""%string) l.
Proof.
  intros Hl. unfold SplitByComma. rewrite TrimSpace_id by by left; apply join_no_space.
  rewrite split_join by done. destruct l as [|p l]; [done|]. by rewrite collect_items.
Qed.

(** Checksum lists survive their column, but for empty checksums, which are dropped. *)
Lemma checksum_list_text (l : list bytes) :
  StringToBytesSlice (BytesSliceToString l) = Ok (filter (fun b => b <> []) l).
Proof.
  unfold StringToBytesSlice, BytesSliceToString. rewrite SplitByComma_Join.
  2:{ apply Forall_fmap, Forall_true. intros b. apply encode_plain. }
  induction l as [|b l IH]; [done|]. cbn [fmap list_fmap]. rewrite !filter_cons.
  destruct b as [|v b].
  - rewrite decide_False by naive_solver. rewrite decide_False by naive_solver. done.
  - rewrite decide_True by done. rewrite decide_True by done. cbn [decode_all].
    rewrite DecodeString_EncodeToString. fold (list_fmap bytes string EncodeToString l) in IH.
    change (list_fmap _ _ EncodeToString l) with (EncodeToString <$> l). by rewrite IH.
Qed.

Lemma EncodeToString_nonempty b : b <> [] -> EncodeToString b <> ""%string.
Proof. by destruct b. Qed.

Lemma BytesSliceToString_nonempty l b : b ∈ l -> b <> [] -> BytesSliceToString l <> ""%string.
Proof.
  intros Hin Hb E. pose proof (checksum_list_text l) as H. rewrite E in H. cbn in H. injection H as H.
  assert (b ∈ filter (fun b => b <> []) l) as HH by by apply list_elem_of_filter.
  rewrite <-H in HH. by apply not_elem_of_nil in HH.
Qed.

Lemma checksum_list_roundtrip (l : list bytes) :
  Forall (fun b => b <> []) l -> StringToBytesSlice (BytesSliceToString l) = Ok l.
Proof.
  intros Hl. rewrite checksum_list_text. f_equal.
  induction Hl as [|b l Hb _ IH]; [done|]. by rewrite filter_cons, decide_True, IH.
Qed.
