(* ===== verification/UploadDb.v ===== *)
(** The tables of store/sqldb that the upload path keeps: integrity metadata
    (object_integrity.go, object_integrity_schema.go), its shadow for objects under update
    (shadow_object_integrity.go), the checksums of replicated pieces and the upload
    progress (upload_object.go).  Integrity metadata is split over 64 tables by object id.

    A call is one statement on a connection whose fate is given by the number of the call
    ([fates]); a call that only reads fails unless its fate is [Committed]. *)
From Stdlib Require Import ZArith Lia String.
From stdpp Require Import base gmap list strings pretty fin_maps.
From S2P Require Import Prelude Strconv Sql Checksum Hex.

Local Open Scope Z_scope.

(** ** Schemas *)

Record IntegrityMetaTable := mkIntegrityRow {
  i_ObjectID : Z;
  i_RedundancyIndex : Z;
  i_IntegrityChecksum : string;
  i_PieceChecksumList : string;
  i_ObjectSize : Z;
}.

Record ShadowIntegrityMetaTable := mkShadowRow {
  s_ObjectID : Z;
  s_RedundancyIndex : Z;
  s_IntegrityChecksum : string;
  s_PieceChecksumList : string;
  s_Version : Z;
  s_ObjectSize : Z;
}.

Record PieceHashTable := mkPieceRow {
  p_ObjectID : Z;
  p_SegmentIndex : Z;
  p_RedundancyIndex : Z;
  p_PieceChecksum : string;
  p_Version : Z;
}.

Record UploadObjectProgressTable := mkUploadRow {
  u_ObjectID : Z;
  u_TaskState : Z;
  u_GlobalVirtualGroupID : Z;
  u_TaskStateDescription : string;
  u_ErrorDescription : string;
  u_SecondaryEndpoints : string;
  u_SecondarySignatures : string;
  u_CreateTimestampSecond : Z;
  u_UpdateTimestampSecond : Z;
  u_IsAgentUpload : bool;
}.

#[export] Instance upload_row_eq_dec : EqDecision UploadObjectProgressTable.
Proof. solve_decision. Defined.

(** core/spdb: the values passed in and out. *)
Record IntegrityMeta := mkIntegrityMeta {
  ObjectID : Z;
  RedundancyIndex : Z;
  IntegrityChecksum : bytes;
  PieceChecksumList : list bytes;
  ObjectSize : Z;
}.

Record ShadowIntegrityMeta := mkShadowMeta {
  sm_ObjectID : Z;
  sm_RedundancyIndex : Z;
  sm_IntegrityChecksum : bytes;
  sm_PieceChecksumList : list bytes;
  sm_Version : Z;
  sm_ObjectSize : Z;
}.

Record UploadObjectMeta := mkUploadMeta {
  um_ObjectID : Z;
  um_TaskState : Z;
  um_GlobalVirtualGroupID : Z;
  um_SecondaryEndpoints : list string;
  um_SecondarySignatures : list bytes;
  um_ErrorDescription : string;
  um_CreateTimeStampSecond : Z;
  um_IsAgentUpload : bool;
}.

Definition IntegrityMetasNumberOfShards : Z := 64.
Definition ReasonableTableSize : Z := 5000000.

Definition GetIntegrityMetasShardNumberByBucketName (objectID : Z) : Z :=
  objectID / ReasonableTableSize mod IntegrityMetasNumberOfShards.

(** store/types: the task states and their printed names. *)
Definition TaskState_INIT_UNSPECIFIED : Z := 0.
Definition TaskState_UPLOAD_OBJECT_DOING : Z := 1.
Definition TaskState_UPLOAD_OBJECT_DONE : Z := 2.
Definition TaskState_UPLOAD_OBJECT_ERROR : Z := 3.
Definition TaskState_REPLICATE_OBJECT_DOING : Z := 7.
Definition TaskState_REPLICATE_OBJECT_DONE : Z := 8.
Definition TaskState_REPLICATE_OBJECT_ERROR : Z := 9.
Definition TaskState_SEAL_OBJECT_DOING : Z := 13.
Definition TaskState_SEAL_OBJECT_DONE : Z := 14.
Definition TaskState_SEAL_OBJECT_ERROR : Z := 15.

Definition task_state_names : list string :=
  ["TASK_STATE_INIT_UNSPECIFIED"; "TASK_STATE_UPLOAD_OBJECT_DOING"; "TASK_STATE_UPLOAD_OBJECT_DONE";
   "TASK_STATE_UPLOAD_OBJECT_ERROR"; "TASK_STATE_ALLOC_SECONDARY_DOING"; "TASK_STATE_ALLOC_SECONDARY_DONE";
   "TASK_STATE_ALLOC_SECONDARY_ERROR"; "TASK_STATE_REPLICATE_OBJECT_DOING"; "TASK_STATE_REPLICATE_OBJECT_DONE";
   "TASK_STATE_REPLICATE_OBJECT_ERROR"; "TASK_STATE_SIGN_OBJECT_DOING"; "TASK_STATE_SIGN_OBJECT_DONE";
   "TASK_STATE_SIGN_OBJECT_ERROR"; "TASK_STATE_SEAL_OBJECT_DOING"; "TASK_STATE_SEAL_OBJECT_DONE";
   "TASK_STATE_SEAL_OBJECT_ERROR"; "TASK_STATE_OBJECT_DISCONTINUED"]%string.

(** [TaskState.String()]: an unknown value prints as its number. *)
Definition TaskState_String (s : Z) : string :=
  if s <? 0 then pretty s else default (pretty s) (task_state_names !! Z.to_nat s).

Definition CheckAllowUploadStatus (state : Z) : bool :=
  negb ((state =? TaskState_UPLOAD_OBJECT_DONE) || (state =? TaskState_REPLICATE_OBJECT_DOING)).

(** ** The database *)

Record tables := mkTables {
  integrity : gmap Z (gmap (Z * Z) IntegrityMetaTable);
  shadows : gmap (Z * Z) ShadowIntegrityMetaTable;
  piece_hashes : gmap (Z * Z * Z) PieceHashTable;
  uploads : gmap Z UploadObjectProgressTable;
}.

Record spdb := mkSpdb { tabs : tables; fates : nat -> fate; calls : nat }.

Inductive db_error :=
| DbErr (e : sql_error)
| DbWrapped (what : string) (e : sql_error)
| DbRowsAffected
| DbHex (e : hex_error).

#[export] Instance db_error_eq_dec : EqDecision db_error.
Proof. solve_decision. Defined.

Definition exec (stmt : tables -> result sql_error (tables * Z)) (db : spdb) : spdb * result sql_error Z :=
  let '(t, r) := transaction ErrConnection (fates db (calls db)) stmt (tabs db) in
  (mkSpdb t (fates db) (S (calls db)), r).

Definition query {A} (q : tables -> A) (db : spdb) : spdb * result sql_error A :=
  (mkSpdb (tabs db) (fates db) (S (calls db)),
   match fates db (calls db) with Committed => Ok (q (tabs db)) | _ => Err ErrConnection end).

Definition set_integrity (m : gmap Z (gmap (Z * Z) IntegrityMetaTable)) (t : tables) : tables :=
  mkTables m (shadows t) (piece_hashes t) (uploads t).
Definition set_shadows (m : gmap (Z * Z) ShadowIntegrityMetaTable) (t : tables) : tables :=
  mkTables (integrity t) m (piece_hashes t) (uploads t).
Definition set_piece_hashes (m : gmap (Z * Z * Z) PieceHashTable) (t : tables) : tables :=
  mkTables (integrity t) (shadows t) m (uploads t).
Definition set_uploads (m : gmap Z UploadObjectProgressTable) (t : tables) : tables :=
  mkTables (integrity t) (shadows t) (piece_hashes t) m.

(** The table [GetIntegrityMetasTableName(objectID)]. *)
Definition integrity_table (objectID : Z) (t : tables) : gmap (Z * Z) IntegrityMetaTable :=
  default ∅ (integrity t !! GetIntegrityMetasShardNumberByBucketName objectID).

Definition set_integrity_table (objectID : Z) (m : gmap (Z * Z) IntegrityMetaTable) (t : tables) : tables :=
  set_integrity (<[GetIntegrityMetasShardNumberByBucketName objectID := m]> (integrity t)) t.

(** [Create] of a row under its primary key. *)
Definition create_row {K V} `{Countable K} (k : K) (v : V) (m : gmap K V) : result sql_error (gmap K V * Z) :=
  match m !! k with Some _ => Err ErrDuplicateEntry | None => Ok (<[k := v]> m, 1) end.

(** [Delete] of a struct whose primary key is ([a], [b]): gorm takes both columns unless
    both are zero, when it refuses the statement. *)
Definition delete_row {V} (a b : Z) (m : gmap (Z * Z) V) : result sql_error (gmap (Z * Z) V) :=
  if (a =? 0) && (b =? 0) then Err ErrMissingWhereClause else Ok (delete (a, b) m).

(** ** object_integrity.go *)

Definition GetObjectIntegrity (objectID redundancyIndex : Z) (db : spdb)
  : spdb * result db_error IntegrityMeta :=
  let '(db, r) := query (fun t => integrity_table objectID t !! (objectID, redundancyIndex)) db in
  (db,
   match r with
   | Err e => Err (DbWrapped "failed to query integrity meta record" e)
   | Ok None => Err (DbErr ErrRecordNotFound)
   | Ok (Some row) =>
     match DecodeString (i_IntegrityChecksum row) with
     | Err e => Err (DbHex e)
     | Ok integrityChecksum =>
       match StringToBytesSlice (i_PieceChecksumList row) with
       | Err e => Err (DbHex e)
       | Ok l => Ok (mkIntegrityMeta (i_ObjectID row) (i_RedundancyIndex row) integrityChecksum l (i_ObjectSize row))
       end
     end
   end).

Definition integrity_row (meta : IntegrityMeta) : IntegrityMetaTable :=
  mkIntegrityRow (ObjectID meta) (RedundancyIndex meta) (EncodeToString (IntegrityChecksum meta))
    (BytesSliceToString (PieceChecksumList meta)) (ObjectSize meta).

Definition SetObjectIntegrity (meta : IntegrityMeta) (db : spdb) : spdb * option db_error :=
  let '(db, r) := exec (fun t =>
    match create_row (ObjectID meta, RedundancyIndex meta) (integrity_row meta)
            (integrity_table (ObjectID meta) t) with
    | Err e => Err e
    | Ok (m, n) => Ok (set_integrity_table (ObjectID meta) m t, n)
    end) db in
  (db,
   match r with
   | Err e => if bool_decide (e = ErrDuplicateEntry) then None
              else Some (DbWrapped "failed to insert integrity meta record" e)
   | Ok n => if n =? 1 then None else Some DbRowsAffected
   end).

(** [Where("object_id = ? and redundancy_index = ?").Updates(&row)]: zero fields of [u]
    are skipped. *)
Definition update_integrity (objectID redundancyIndex : Z) (u : IntegrityMetaTable) (t : tables)
  : result sql_error (tables * Z) :=
  let f r := mkIntegrityRow (nz (i_ObjectID r) (i_ObjectID u)) (nz (i_RedundancyIndex r) (i_RedundancyIndex u))
    (nz_str (i_IntegrityChecksum r) (i_IntegrityChecksum u))
    (nz_str (i_PieceChecksumList r) (i_PieceChecksumList u)) (nz (i_ObjectSize r) (i_ObjectSize u)) in
  let m := integrity_table objectID t in
  match m !! (objectID, redundancyIndex) with
  | None => Ok (t, 0)
  | Some r => Ok (set_integrity_table objectID (<[(objectID, redundancyIndex) := f r]> m) t, 1)
  end.

Definition UpdateIntegrityChecksum (meta : IntegrityMeta) (db : spdb) : spdb * option db_error :=
  let '(db, r) := exec (update_integrity (ObjectID meta) (RedundancyIndex meta)
    (mkIntegrityRow 0 0 (EncodeToString (IntegrityChecksum meta)) "" 0)) db in
  (db, match r with
       | Err e => Some (DbWrapped "failed to update integrity checksum for integrity meta table" e)
       | Ok _ => None
       end).

Definition UpdateIntegrityMeta (meta : IntegrityMeta) (db : spdb) : spdb * option db_error :=
  let '(db, r) := exec (update_integrity (ObjectID meta) (RedundancyIndex meta)
    (mkIntegrityRow 0 0 (EncodeToString (IntegrityChecksum meta)) (BytesSliceToString (PieceChecksumList meta)) 0)) db in
  (db, match r with
       | Err e => Some (DbWrapped "failed to update integrity checksum and piece checksums for integrity meta table" e)
       | Ok _ => None
       end).

Definition DeleteObjectIntegrity (objectID redundancyIndex : Z) (db : spdb) : spdb * option db_error :=
  let r_index := if redundancyIndex =? MaxInt32 then 0 else redundancyIndex in
  let '(db, r) := exec (fun t =>
    match delete_row objectID r_index (integrity_table objectID t) with
    | Err e => Err e
    | Ok m => Ok (set_integrity_table objectID m t, 1)
    end) db in
  (db, match r with Err e => Some (DbErr e) | Ok _ => None end).

Definition UpdatePieceChecksum (objectID redundancyIndex : Z) (checksum : bytes) (dataLength : Z) (db : spdb)
  : spdb * option db_error :=
  let '(db, r) := GetObjectIntegrity objectID redundancyIndex db in
  match r with
  | Err e =>
    if bool_decide (e = DbErr ErrRecordNotFound)
    then SetObjectIntegrity (mkIntegrityMeta objectID redundancyIndex [] [checksum] dataLength) db
    else (db, Some e)
  | Ok integrityMeta =>
    let newChecksums := PieceChecksumList integrityMeta ++ [checksum] in
    let '(db, r) := exec (update_integrity objectID redundancyIndex
      (mkIntegrityRow 0 0 "" (BytesSliceToString newChecksums)
         (uwrap 64 (ObjectSize integrityMeta + dataLength)))) db in
    (db, match r with Err e => Some (DbWrapped "failed to update integrity meta table" e) | Ok _ => None end)
  end.

(** *** Checksums of replicated pieces *)

Definition GetReplicatePieceChecksum (objectID segmentIdx redundancyIdx : Z) (db : spdb)
  : spdb * result db_error bytes :=
  let '(db, r) := query (fun t => piece_hashes t !! (objectID, segmentIdx, redundancyIdx)) db in
  (db,
   match r with
   | Err e => Err (DbErr e)
   | Ok None => Err (DbErr ErrRecordNotFound)
   | Ok (Some row) => match DecodeString (p_PieceChecksum row) with Err e => Err (DbHex e) | Ok b => Ok b end
   end).

(** An insertion that updates every column on a conflict of the key. *)
Definition SetReplicatePieceChecksum (objectID segmentIdx redundancyIdx : Z) (checksum : bytes) (version : Z)
  (db : spdb) : spdb * option db_error :=
  let row := mkPieceRow objectID segmentIdx redundancyIdx (EncodeToString checksum) version in
  let '(db, r) := exec (fun t =>
    Ok (set_piece_hashes (<[(objectID, segmentIdx, redundancyIdx) := row]> (piece_hashes t)) t, 1)) db in
  (db, match r with Err e => Some (DbWrapped "failed to insert piece hash record" e) | Ok _ => None end).

(** [Where(...).Delete(PieceHashTable{})]. *)
Definition delete_pieces (P : Z * Z * Z -> bool) (db : spdb) : spdb * option db_error :=
  let '(db, r) := exec (fun t =>
    Ok (set_piece_hashes (filter (fun kv => P kv.1 = false) (piece_hashes t)) t, 1)) db in
  (db, match r with Err e => Some (DbErr e) | Ok _ => None end).

Definition DeleteReplicatePieceChecksum (objectID segmentIdx redundancyIdx : Z) (db : spdb)
  : spdb * option db_error :=
  delete_pieces (fun '(o, s, r) => (o =? objectID) && (s =? segmentIdx) && (r =? redundancyIdx)) db.

Definition DeleteAllReplicatePieceChecksumOptimized (objectID redundancyIdx : Z) (db : spdb)
  : spdb * option db_error :=
  delete_pieces (fun '(o, s, r) => (o =? objectID) && (r =? redundancyIdx)) db.

Definition DeleteReplicatePieceChecksumsByObjectID (objectID : Z) (db : spdb) : spdb * option db_error :=
  delete_pieces (fun '(o, s, r) => (o =? objectID)) db.

(** The loops over the segments [segmentIdx], ..., of which [n] are left. *)
Fixpoint get_pieces (n : nat) (objectID redundancyIdx segmentIdx : Z) (acc : list bytes) (db : spdb)
  : spdb * result db_error (list bytes) :=
  match n with
  | O => (db, Ok acc)
  | S n =>
    let '(db, r) := GetReplicatePieceChecksum objectID segmentIdx redundancyIdx db in
    match r with
    | Err e => (db, Err e)
    | Ok b => get_pieces n objectID redundancyIdx (uwrap 32 (segmentIdx + 1)) (acc ++ [b]) db
    end
  end.

Definition GetAllReplicatePieceChecksum (objectID redundancyIdx pieceCount : Z) (db : spdb)
  : spdb * result db_error (list bytes) :=
  get_pieces (Z.to_nat pieceCount) objectID redundancyIdx 0 [] db.

Fixpoint delete_all_pieces (n : nat) (objectID redundancyIdx segmentIdx : Z) (db : spdb)
  : spdb * option db_error :=
  match n with
  | O => (db, None)
  | S n =>
    let '(db, e) := DeleteReplicatePieceChecksum objectID segmentIdx redundancyIdx db in
    match e with
    | Some e => (db, Some e)
    | None => delete_all_pieces n objectID redundancyIdx (uwrap 32 (segmentIdx + 1)) db
    end
  end.

Definition DeleteAllReplicatePieceChecksum (objectID redundancyIdx pieceCount : Z) (db : spdb)
  : spdb * option db_error :=
  delete_all_pieces (Z.to_nat pieceCount) objectID redundancyIdx 0 db.

(** The statement has no ORDER BY: [scan] is the order in which the server finds the rows. *)
Definition GetAllReplicatePieceChecksumOptimized (scan : list PieceHashTable) (objectID redundancyIdx pieceCount : Z)
  (db : spdb) : spdb * result db_error (list bytes) :=
  let '(db, r) := query (fun _ =>
    limit pieceCount (filter (fun row => p_ObjectID row = objectID /\ p_RedundancyIndex row = redundancyIdx) scan)) db in
  (db,
   match r with
   | Err e => Err (DbErr e)
   | Ok rows => match decode_all (p_PieceChecksum <$> rows) with Err e => Err (DbHex e) | Ok l => Ok l end
   end).

(** ** shadow_object_integrity.go *)

Definition GetShadowObjectIntegrity (objectID redundancyIndex : Z) (db : spdb)
  : spdb * result db_error ShadowIntegrityMeta :=
  let '(db, r) := query (fun t => shadows t !! (objectID, redundancyIndex)) db in
  (db,
   match r with
   | Err e => Err (DbWrapped "failed to query integrity meta record" e)
   | Ok None => Err (DbErr ErrRecordNotFound)
   | Ok (Some row) =>
     match DecodeString (s_IntegrityChecksum row) with
     | Err e => Err (DbHex e)
     | Ok integrityChecksum =>
       match StringToBytesSlice (s_PieceChecksumList row) with
       | Err e => Err (DbHex e)
       | Ok l => Ok (mkShadowMeta (s_ObjectID row) (s_RedundancyIndex row) integrityChecksum l
                       (s_Version row) (s_ObjectSize row))
       end
     end
   end).

Definition shadow_row (meta : ShadowIntegrityMeta) : ShadowIntegrityMetaTable :=
  mkShadowRow (sm_ObjectID meta) (sm_RedundancyIndex meta) (EncodeToString (sm_IntegrityChecksum meta))
    (BytesSliceToString (sm_PieceChecksumList meta)) (sm_Version meta) (sm_ObjectSize meta).

Definition SetShadowObjectIntegrity (meta : ShadowIntegrityMeta) (db : spdb) : spdb * option db_error :=
  let '(db, r) := exec (fun t =>
    match create_row (sm_ObjectID meta, sm_RedundancyIndex meta) (shadow_row meta) (shadows t) with
    | Err e => Err e
    | Ok (m, n) => Ok (set_shadows m t, n)
    end) db in
  (db,
   match r with
   | Err e => if bool_decide (e = ErrDuplicateEntry) then None
              else Some (DbWrapped "failed to insert integrity meta record" e)
   | Ok n => if n =? 1 then None else Some DbRowsAffected
   end).

Definition update_shadow (objectID redundancyIndex : Z) (u : ShadowIntegrityMetaTable) (t : tables)
  : result sql_error (tables * Z) :=
  let f r := mkShadowRow (nz (s_ObjectID r) (s_ObjectID u)) (nz (s_RedundancyIndex r) (s_RedundancyIndex u))
    (nz_str (s_IntegrityChecksum r) (s_IntegrityChecksum u))
    (nz_str (s_PieceChecksumList r) (s_PieceChecksumList u))
    (nz (s_Version r) (s_Version u)) (nz (s_ObjectSize r) (s_ObjectSize u)) in
  match shadows t !! (objectID, redundancyIndex) with
  | None => Ok (t, 0)
  | Some r => Ok (set_shadows (<[(objectID, redundancyIndex) := f r]> (shadows t)) t, 1)
  end.

Definition UpdateShadowIntegrityChecksum (meta : ShadowIntegrityMeta) (db : spdb) : spdb * option db_error :=
  let '(db, r) := exec (update_shadow (sm_ObjectID meta) (sm_RedundancyIndex meta)
    (mkShadowRow 0 0 (EncodeToString (sm_IntegrityChecksum meta)) "" 0 0)) db in
  (db, match r with
       | Err e => Some (DbWrapped "failed to update integrity checksum for integrity meta table" e)
       | Ok _ => None
       end).

Definition DeleteShadowObjectIntegrity (objectID redundancyIndex : Z) (db : spdb) : spdb * option db_error :=
  let '(db, r) := exec (fun t =>
    match delete_row objectID redundancyIndex (shadows t) with
    | Err e => Err e
    | Ok m => Ok (set_shadows m t, 1)
    end) db in
  (db, match r with Err e => Some (DbErr e) | Ok _ => None end).

Definition UpdateShadowPieceChecksum (objectID redundancyIndex : Z) (checksum : bytes) (version dataLength : Z)
  (db : spdb) : spdb * option db_error :=
  let '(db, r) := GetShadowObjectIntegrity objectID redundancyIndex db in
  match r with
  | Err e =>
    if bool_decide (e = DbErr ErrRecordNotFound)
    then SetShadowObjectIntegrity (mkShadowMeta objectID redundancyIndex [] [checksum] version dataLength) db
    else (db, Some e)
  | Ok integrityMeta =>
    let newChecksums := sm_PieceChecksumList integrityMeta ++ [checksum] in
    let '(db, r) := exec (update_shadow objectID redundancyIndex
      (mkShadowRow 0 0 "" (BytesSliceToString newChecksums) 0
         (uwrap 64 (sm_ObjectSize integrityMeta + dataLength)))) db in
    (db, match r with Err e => Some (DbWrapped "failed to update integrity meta table" e) | Ok _ => None end)
  end.

(** ** upload_object.go *)

Definition InsertUploadProgress (now objectID : Z) (isAgentUpload : bool) (db : spdb) : spdb * option db_error :=
  let row := mkUploadRow objectID TaskState_INIT_UNSPECIFIED 0 (TaskState_String TaskState_INIT_UNSPECIFIED)
    "" "" "" now now isAgentUpload in
  let '(db, r) := exec (fun t =>
    match create_row objectID row (uploads t) with
    | Err e => Err e
    | Ok (m, n) => Ok (set_uploads m t, n)
    end) db in
  (db, match r with
       | Err e => Some (DbWrapped "failed to insert upload record" e)
       | Ok n => if n =? 1 then None else Some DbRowsAffected
       end).

Definition DeleteUploadProgress (objectID : Z) (db : spdb) : spdb * option db_error :=
  let '(db, r) := exec (fun t =>
    if objectID =? 0 then Err ErrMissingWhereClause
    else Ok (set_uploads (delete objectID (uploads t)) t, 1)) db in
  (db, match r with Err e => Some (DbErr e) | Ok _ => None end).

(** [Updates(&row)] under [object_id = ?]; a row that keeps its values is not affected. *)
Definition update_upload (objectID : Z) (u : UploadObjectProgressTable) (t : tables) : result sql_error (tables * Z) :=
  let f r := mkUploadRow (nz (u_ObjectID r) (u_ObjectID u)) (nz (u_TaskState r) (u_TaskState u))
    (nz (u_GlobalVirtualGroupID r) (u_GlobalVirtualGroupID u))
    (nz_str (u_TaskStateDescription r) (u_TaskStateDescription u))
    (nz_str (u_ErrorDescription r) (u_ErrorDescription u))
    (nz_str (u_SecondaryEndpoints r) (u_SecondaryEndpoints u))
    (nz_str (u_SecondarySignatures r) (u_SecondarySignatures u))
    (nz (u_CreateTimestampSecond r) (u_CreateTimestampSecond u))
    (nz (u_UpdateTimestampSecond r) (u_UpdateTimestampSecond u))
    (u_IsAgentUpload r || u_IsAgentUpload u) in
  match uploads t !! objectID with
  | None => Ok (t, 0)
  | Some r => Ok (set_uploads (<[objectID := f r]> (uploads t)) t, if bool_decide (f r = r) then 0 else 1)
  end.

Definition UpdateUploadProgress (now : Z) (uploadMeta : UploadObjectMeta) (db : spdb) : spdb * option db_error :=
  let u :=
    if negb (bool_decide (um_SecondaryEndpoints uploadMeta = [])) then
      mkUploadRow 0 (um_TaskState uploadMeta) (um_GlobalVirtualGroupID uploadMeta)
        (TaskState_String (um_TaskState uploadMeta)) (um_ErrorDescription uploadMeta)
        (JoinWithComma (um_SecondaryEndpoints uploadMeta))
        (BytesSliceToString (um_SecondarySignatures uploadMeta)) 0 now false
    else
      mkUploadRow 0 (um_TaskState uploadMeta) 0 (TaskState_String (um_TaskState uploadMeta))
        (um_ErrorDescription uploadMeta) "" "" 0 now false in
  let '(db, r) := exec (update_upload (um_ObjectID uploadMeta) u) db in
  (db, match r with
       | Err e => Some (DbWrapped "failed to update upload task record" e)
       | Ok n => if n =? 1 then None else Some DbRowsAffected
       end).

Definition GetUploadState (objectID : Z) (db : spdb) : spdb * result db_error (Z * string) :=
  let '(db, r) := query (fun t => uploads t !! objectID) db in
  (db, match r with
       | Err e => Err (DbWrapped "failed to query upload table" e)
       | Ok None => Err (DbWrapped "failed to query upload table" ErrRecordNotFound)
       | Ok (Some row) => Ok (u_TaskState row, u_ErrorDescription row)
       end).
