(* ===== verification/ManagerDb.v ===== *)
(** The database calls of the manager: the queries of upload_object.go that find the
    uploads to resume, the progress of garbage collection (gc_object.go) and the failed
    recoveries (exit_recover.go), all of store/sqldb.

    [scan] is the order in which the database finds the rows of a table; ORDER BY sorts
    them stably, so every order of rows with equal keys is obtained for some [scan]. *)
From Stdlib Require Import ZArith Lia String.
From stdpp Require Import base gmap list strings sorting.
From S2P Require Import Prelude Sql Checksum Hex UploadDb.

Local Open Scope Z_scope.

(** ** upload_object.go *)

Section metas.
Context (scan : list UploadObjectProgressTable -> list UploadObjectProgressTable).

Definition by_update_desc (r r' : UploadObjectProgressTable) : Prop :=
  u_UpdateTimestampSecond r' <= u_UpdateTimestampSecond r.
#[export] Instance by_update_desc_dec : RelDecision by_update_desc.
Proof. intros r r'. unfold by_update_desc. apply _. Defined.

Definition by_create_asc (r r' : UploadObjectProgressTable) : Prop :=
  u_CreateTimestampSecond r <= u_CreateTimestampSecond r'.
#[export] Instance by_create_asc_dec : RelDecision by_create_asc.
Proof. intros r r'. unfold by_create_asc. apply _. Defined.

(** The rows of the table that satisfy [P]. *)
Definition upload_rows (P : UploadObjectProgressTable -> bool) (t : tables) : list UploadObjectProgressTable :=
  scan (filter (fun r => P r) (map_to_list (uploads t)).*2).

Definition in_states (states : list Z) (r : UploadObjectProgressTable) : bool :=
  bool_decide (u_TaskState r ∈ states).

(** The rows until the first one that is older than the timeout. *)
Fixpoint until_expired (expired : Z) (l : list UploadObjectProgressTable) : list UploadObjectProgressTable :=
  match l with
  | [] => []
  | u :: l => if expired >? u_UpdateTimestampSecond u then [] else u :: until_expired expired l
  end.

Definition replicate_meta (u : UploadObjectProgressTable) : UploadObjectMeta :=
  mkUploadMeta (u_ObjectID u) 0 0 [] [] "" 0 false.

Definition GetUploadMetasToReplicate (now lim timeoutSecond : Z) (db : spdb) : spdb * result db_error (list UploadObjectMeta) :=
  let '(db, r) := query (fun t => limit lim (merge_sort by_update_desc
    (upload_rows (in_states [TaskState_UPLOAD_OBJECT_DONE; TaskState_REPLICATE_OBJECT_DOING]) t))) db in
  (db, match r with
       | Err e => Err (DbWrapped "failed to query upload table" e)
       | Ok rows => Ok (replicate_meta <$> until_expired (swrap 64 (now - timeoutSecond)) rows)
       end).

(** The metas of rows, with what [f] keeps of a row and its signatures; the first one whose
    signatures do not decode is an error. *)
Fixpoint metas_of (f : UploadObjectProgressTable -> list bytes -> UploadObjectMeta)
  (l : list UploadObjectProgressTable) : result db_error (list UploadObjectMeta) :=
  match l with
  | [] => Ok []
  | u :: l =>
    match StringToBytesSlice (u_SecondarySignatures u) with
    | Err e => Err (DbHex e)
    | Ok signatures =>
      match metas_of f l with Err e => Err e | Ok ms => Ok (f u signatures :: ms) end
    end
  end.

Definition seal_meta (u : UploadObjectProgressTable) (signatures : list bytes) : UploadObjectMeta :=
  mkUploadMeta (u_ObjectID u) 0 (u_GlobalVirtualGroupID u) (SplitByComma (u_SecondaryEndpoints u)) signatures
    "" 0 (u_IsAgentUpload u).

Definition GetUploadMetasToSeal (now lim timeoutSecond : Z) (db : spdb) : spdb * result db_error (list UploadObjectMeta) :=
  let '(db, r) := query (fun t => limit lim (merge_sort by_update_desc
    (upload_rows (in_states [TaskState_REPLICATE_OBJECT_DONE; TaskState_SEAL_OBJECT_DOING]) t))) db in
  (db, match r with
       | Err e => Err (DbWrapped "failed to query upload table" e)
       | Ok rows => metas_of seal_meta (until_expired (swrap 64 (now - timeoutSecond)) rows)
       end).

Definition replicate_ts_meta (u : UploadObjectProgressTable) (signatures : list bytes) : UploadObjectMeta :=
  mkUploadMeta (u_ObjectID u) 0 (u_GlobalVirtualGroupID u) (SplitByComma (u_SecondaryEndpoints u)) signatures
    "" (u_CreateTimestampSecond u) (u_IsAgentUpload u).

Definition GetUploadMetasToReplicateByStartTS (lim startTS : Z) (db : spdb) : spdb * result db_error (list UploadObjectMeta) :=
  let '(db, r) := query (fun t => limit lim (merge_sort by_create_asc
    (upload_rows (fun r => in_states [TaskState_UPLOAD_OBJECT_DONE; TaskState_REPLICATE_OBJECT_DOING;
       TaskState_REPLICATE_OBJECT_ERROR] r && (u_CreateTimestampSecond r >? startTS)) t))) db in
  (db, match r with
       | Err e => Err (DbWrapped "failed to query upload table" e)
       | Ok rows => metas_of replicate_ts_meta rows
       end).

Definition seal_ts_meta (u : UploadObjectProgressTable) (signatures : list bytes) : UploadObjectMeta :=
  mkUploadMeta (u_ObjectID u) 0 (u_GlobalVirtualGroupID u) (SplitByComma (u_SecondaryEndpoints u)) signatures
    "" (u_CreateTimestampSecond u) false.

Definition GetUploadMetasToSealByStartTS (lim startTS : Z) (db : spdb) : spdb * result db_error (list UploadObjectMeta) :=
  let '(db, r) := query (fun t => limit lim (merge_sort by_create_asc
    (upload_rows (fun r => in_states [TaskState_REPLICATE_OBJECT_DONE; TaskState_SEAL_OBJECT_DOING;
       TaskState_SEAL_OBJECT_ERROR] r && (u_CreateTimestampSecond r >? startTS)) t))) db in
  (db, match r with
       | Err e => Err (DbWrapped "failed to query upload table" e)
       | Ok rows => metas_of seal_ts_meta rows
       end).

Definition GetUploadMetasToRejectUnsealByRangeTS (lim startTS endTS : Z) (db : spdb)
  : spdb * result db_error (list UploadObjectMeta) :=
  let '(db, r) := query (fun t => limit lim (merge_sort by_create_asc
    (upload_rows (fun r => (u_CreateTimestampSecond r >? startTS) && (u_CreateTimestampSecond r <=? endTS)) t))) db in
  (db, match r with
       | Err e => Err (DbWrapped "failed to query upload table" e)
       | Ok rows => Ok ((fun u => mkUploadMeta (u_ObjectID u) 0 0 [] [] "" (u_CreateTimestampSecond u) false) <$> rows)
       end).
End metas.

(** ** shadow_object_integrity.go *)

Definition ListShadowIntegrityMetaDefaultSize : Z := 5.

Definition by_object_desc (r r' : ShadowIntegrityMetaTable) : Prop := s_ObjectID r' <= s_ObjectID r.
#[export] Instance by_object_desc_dec : RelDecision by_object_desc.
Proof. intros r r'. unfold by_object_desc. apply _. Defined.

Fixpoint shadow_metas (rows : list ShadowIntegrityMetaTable) : result db_error (list ShadowIntegrityMeta) :=
  match rows with
  | [] => Ok []
  | row :: rows =>
    match DecodeString (s_IntegrityChecksum row) with
    | Err e => Err (DbHex e)
    | Ok integrityChecksum =>
      match StringToBytesSlice (s_PieceChecksumList row) with
      | Err e => Err (DbHex e)
      | Ok l =>
        match shadow_metas rows with
        | Err e => Err e
        | Ok metas => Ok (mkShadowMeta (s_ObjectID row) (s_RedundancyIndex row) integrityChecksum l
                            (s_Version row) (s_ObjectSize row) :: metas)
        end
      end
    end
  end.

(** [scan] is the order in which the database finds the rows of one object. *)
Definition ListShadowIntegrityMeta (scan : list ShadowIntegrityMetaTable -> list ShadowIntegrityMetaTable) (db : spdb)
  : spdb * result db_error (list ShadowIntegrityMeta) :=
  let '(db, r) := query (fun t =>
    limit ListShadowIntegrityMetaDefaultSize (merge_sort by_object_desc (scan (map_to_list (shadows t)).*2))) db in
  (db, match r with Err e => Err (DbErr e) | Ok rows => shadow_metas rows end).

(** ** gc_object.go *)

Record GCObjectProgressTable := mkGCRow {
  g_TaskKey : string;
  g_StartGCBlockID : Z;
  g_EndGCBlockID : Z;
  g_CurrentGCBlockID : Z;
  g_LastDeletedObjectID : Z;
  g_CreateTimestampSecond : Z;
  g_UpdateTimestampSecond : Z;
}.

Record GCObjectMeta := mkGCMeta {
  gm_TaskKey : string;
  gm_StartBlockHeight : Z;
  gm_EndBlockHeight : Z;
  gm_CurrentBlockHeight : Z;
  gm_LastDeletedObjectID : Z;
}.

Record RecoverFailedObjectTable := mkRecoverFailedRow {
  f_ObjectID : Z;
  f_VirtualGroupID : Z;
  f_RedundancyIndex : Z;
  f_Retry : Z;
}.

(** The two tables and the fates of the connection they are reached by. *)
Record gc_tables := mkGCTables {
  gc_progress : gmap string GCObjectProgressTable;
  recover_failed : gmap Z RecoverFailedObjectTable;
}.

Record gcdb := mkGCDb { gc_tabs : gc_tables; gc_fates : nat -> fate; gc_calls : nat }.

Definition gc_exec (stmt : gc_tables -> result sql_error (gc_tables * Z)) (db : gcdb) : gcdb * result sql_error Z :=
  let '(t, r) := transaction ErrConnection (gc_fates db (gc_calls db)) stmt (gc_tabs db) in
  (mkGCDb t (gc_fates db) (S (gc_calls db)), r).

Definition gc_query {A} (q : gc_tables -> A) (db : gcdb) : gcdb * result sql_error A :=
  (mkGCDb (gc_tabs db) (gc_fates db) (S (gc_calls db)),
   match gc_fates db (gc_calls db) with Committed => Ok (q (gc_tabs db)) | _ => Err ErrConnection end).

Definition InsertGCObjectProgress (now : Z) (gcMeta : GCObjectMeta) (db : gcdb) : gcdb * option db_error :=
  let row := mkGCRow (gm_TaskKey gcMeta) (gm_StartBlockHeight gcMeta) (gm_EndBlockHeight gcMeta) 0 0 now now in
  let '(db, r) := gc_exec (fun t =>
    match create_row (gm_TaskKey gcMeta) row (gc_progress t) with
    | Err e => Err e
    | Ok (m, n) => Ok (mkGCTables m (recover_failed t), n)
    end) db in
  (db, match r with
       | Err e => Some (DbWrapped "failed to insert gc record" e)
       | Ok n => if n =? 1 then None else Some DbRowsAffected
       end).

Definition DeleteGCObjectProgress (taskKey : string) (db : gcdb) : gcdb * option db_error :=
  let '(db, r) := gc_exec (fun t =>
    if bool_decide (taskKey = ""%string) then Err ErrMissingWhereClause
    else Ok (mkGCTables (delete taskKey (gc_progress t)) (recover_failed t), 1)) db in
  (db, match r with Err e => Some (DbErr e) | Ok _ => None end).

(** [Updates(&row)]: zero fields are skipped, and an update of no row is no error. *)
Definition UpdateGCObjectProgress (now : Z) (gcMeta : GCObjectMeta) (db : gcdb) : gcdb * option db_error :=
  let f g := mkGCRow (g_TaskKey g) (g_StartGCBlockID g) (g_EndGCBlockID g)
    (nz (g_CurrentGCBlockID g) (gm_CurrentBlockHeight gcMeta))
    (nz (g_LastDeletedObjectID g) (gm_LastDeletedObjectID gcMeta))
    (g_CreateTimestampSecond g) (nz (g_UpdateTimestampSecond g) now) in
  let '(db, r) := gc_exec (fun t =>
    Ok (mkGCTables (alter f (gm_TaskKey gcMeta) (gc_progress t)) (recover_failed t),
        if bool_decide (is_Some (gc_progress t !! gm_TaskKey gcMeta)) then 1 else 0)) db in
  (db, match r with Err e => Some (DbWrapped "failed to update gc task record" e) | Ok _ => None end).

Definition by_gc_update_desc (r r' : GCObjectProgressTable) : Prop :=
  g_UpdateTimestampSecond r' <= g_UpdateTimestampSecond r.
#[export] Instance by_gc_update_desc_dec : RelDecision by_gc_update_desc.
Proof. intros r r'. unfold by_gc_update_desc. apply _. Defined.

Definition gc_meta (g : GCObjectProgressTable) : GCObjectMeta :=
  mkGCMeta (g_TaskKey g) (g_StartGCBlockID g) (g_EndGCBlockID g) (g_CurrentGCBlockID g) (g_LastDeletedObjectID g).

Definition GetGCMetasToGC (scan : list GCObjectProgressTable -> list GCObjectProgressTable) (lim : Z) (db : gcdb)
  : gcdb * result db_error (list GCObjectMeta) :=
  let '(db, r) := gc_query (fun t =>
    limit lim (merge_sort by_gc_update_desc (scan (map_to_list (gc_progress t)).*2))) db in
  (db, match r with
       | Err e => Err (DbWrapped "failed to query gc table" e)
       | Ok rows => Ok (gc_meta <$> rows)
       end).

(** ** exit_recover.go *)

(** A row that is there already is no error. *)
Definition InsertRecoverFailedObject (objectID virtualGroupID redundancyIndex : Z) (db : gcdb)
  : gcdb * option db_error :=
  let '(db, r) := gc_exec (fun t =>
    match create_row objectID (mkRecoverFailedRow objectID virtualGroupID redundancyIndex 0) (recover_failed t) with
    | Err e => Err e
    | Ok (m, n) => Ok (mkGCTables (gc_progress t) m, n)
    end) db in
  (db, match r with
       | Err ErrDuplicateEntry => None
       | Err e => Some (DbWrapped "failed to set recover object record" e)
       | Ok n => if n =? 1 then None else Some DbRowsAffected
       end).
