(* ===== verification/Storage.v ===== *)
(** store/piecestore/storage: the interface of object storages (interface.go,
    object_storage.go, errors.go) as the class [ObjectStorage], and its implementations
    in memory (memory.go) and sharded over several storages (sharding.go).  The classes
    [StorageLaws] and [ListLaws] state what a storage promises to its clients: the
    memory storage has both, and sharding keeps the first. *)
From Stdlib Require Import ZArith Lia String Ascii.
From stdpp Require Import base gmap list strings sorting fin_maps.
From S2P Require Import Prelude Checksum.

Local Open Scope Z_scope.

(** ** errors.go *)

Inductive storage_error :=
| ErrNoSuchObject
| ErrNoSuchBucket
| ErrUnsupportedDelimiter
| ErrInvalidObjectKey
| ErrUnsupportedMethod
| ErrNoPermissionAccessBucket
| ErrChecksum (e : checksum_error)
| ErrNotExist
| ErrReader (e : read_error)
| ErrInvalidListKey (key : string)
| ErrBackend (code : string).

#[export] Instance storage_error_eq_dec : EqDecision storage_error.
Proof. solve_decision. Defined.

(** ** interface.go

    A method that changes the storage returns its new state.  [None] is a panic, or the
    end of the fuel of a loop.  The methods for which [DefaultObjectStorage] answers
    have its answers as defaults. *)

Record object := Object { okey : string; osize : Z; omodTime : Z; oisDir : bool }.

Class ObjectStorage (St : Type) := {
  CreateBucket : St -> option (St * option storage_error);
  GetObject : St -> string -> Z -> Z -> option (result storage_error reader);
  PutObject : Z -> St -> string -> reader -> option (St * option storage_error);
  DeleteObject : St -> string -> option (St * option storage_error);
  DeleteObjectsByPrefix : St -> string -> option (St * (Z * option storage_error));
  HeadBucket : St -> option (option storage_error);
  HeadObject : St -> string -> option (result storage_error object);
  ListObjects : St -> string -> string -> string -> Z -> option (result storage_error (list object));
}.

Definition default_CreateBucket {St} (s : St) : option (St * option storage_error) := Some (s, None).

Definition default_ListObjects {St} (s : St) (prefix marker delimiter : string) (limit : Z)
  : option (result storage_error (list object)) := Some (Err ErrUnsupportedMethod).

(** ** Deleting by prefix

    The loop of [DeleteObjectsByPrefix] in memory.go and sharding.go: list a page, delete
    its objects, count the bytes of those deleted without an error, and go on while the
    page was full. *)

Definition batchSize : Z := 1000.

Section delete_loop.
Context {St : Type} (list_page : St -> option (result storage_error (list object)))
  (delete_one : St -> string -> option (St * option storage_error)).

Fixpoint delete_page (objs : list object) (s : St) (size : Z) : option (St * Z) :=
  match objs with
  | [] => Some (s, size)
  | obj :: objs =>
    match delete_one s (okey obj) with
    | None => None
    | Some (s, Some _) => delete_page objs s size
    | Some (s, None) => delete_page objs s (uwrap 64 (size + uwrap 64 (osize obj)))
    end
  end.

Fixpoint delete_loop (fuel : nat) (s : St) (size : Z) : option (St * (Z * option storage_error)) :=
  match fuel with
  | O => None
  | S fuel =>
    match list_page s with
    | None => None
    | Some (Err e) => Some (s, (size, Some e))
    | Some (Ok objs) =>
      let continueDeleteObject := negb (Z.of_nat (length objs) <? batchSize) in
      match delete_page objs s size with
      | None => None
      | Some (s, size) =>
        if continueDeleteObject then delete_loop fuel s size else Some (s, (size, None))
      end
    end
  end.
End delete_loop.

(** ** memory.go *)

Record memoryObject := MemoryObject { mdata : bytes; mmodTime : Z }.
Record memoryStore := MemoryStore { mname : string; mobjects : gmap string memoryObject }.

Definition newMemoryStore (bucketURL : string) : memoryStore := MemoryStore bucketURL ∅.

Module Memory.

Definition GetObject (m : memoryStore) (key : string) (offset limit : Z)
  : option (result storage_error reader) :=
  if bool_decide (key = ""%string) then Some (Err ErrInvalidObjectKey)
  else
    match mobjects m !! key with
    | None => Some (Err ErrNoSuchObject)
    | Some d =>
      let offset := if offset >? len (mdata d) then len (mdata d) else offset in
      match slice (mdata d) offset (len (mdata d)) with
      | None => None
      | Some data =>
        if (limit >? 0) && (limit <? len data) then
          match slice data 0 limit with
          | None => None
          | Some data => Some (Ok (NewReader data))
          end
        else Some (Ok (NewReader data))
      end
    end.

Definition PutObject (now : Z) (m : memoryStore) (key : string) (r : reader)
  : option (memoryStore * option storage_error) :=
  if bool_decide (key = ""%string) then Some (m, Some ErrInvalidObjectKey)
  else
    match ReadAll r with
    | Err e => Some (m, Some (ErrReader e))
    | Ok data => Some (MemoryStore (mname m) (<[key := MemoryObject data now]> (mobjects m)), None)
    end.

Definition DeleteObject (m : memoryStore) (key : string) : option (memoryStore * option storage_error) :=
  Some (MemoryStore (mname m) (delete key (mobjects m)), None).

Definition HeadObject (m : memoryStore) (key : string) : option (result storage_error object) :=
  if bool_decide (key = ""%string) then Some (Err ErrInvalidObjectKey)
  else
    match mobjects m !! key with
    | None => Some (Err ErrNotExist)
    | Some o => Some (Ok (Object key (len (mdata o)) (mmodTime o) false))
    end.

Definition key_le (a b : object) : Prop := String.leb (okey a) (okey b) = true.
#[global] Instance key_le_dec a b : Decision (key_le a b).
Proof. unfold key_le. apply _. Defined.

(** The objects that the loop over the map collects, before they are sorted. *)
Definition matching (m : memoryStore) (prefix marker : string) : list object :=
  (fun '(k, o) => Object k (len (mdata o)) (mmodTime o) false) <$>
  filter (fun '(k, _) => (String.prefix prefix k && String.ltb marker k)%bool = true)
    (map_to_list (mobjects m)).

Definition ListObjects (m : memoryStore) (prefix marker delimiter : string) (limit : Z)
  : option (result storage_error (list object)) :=
  if negb (bool_decide (delimiter = ""%string)) then Some (Err ErrUnsupportedDelimiter)
  else
    let objs := merge_sort key_le (matching m prefix marker) in
    if Z.of_nat (length objs) >? limit
    then if limit <? 0 then None else Some (Ok (take (Z.to_nat limit) objs))
    else Some (Ok objs).

Definition DeleteObjectsByPrefix (m : memoryStore) (key : string)
  : option (memoryStore * (Z * option storage_error)) :=
  delete_loop (fun m => ListObjects m key ""%string ""%string batchSize) DeleteObject
    (S (size (mobjects m))) m 0.

End Memory.

#[export] Instance memory_storage : ObjectStorage memoryStore := {|
  CreateBucket := default_CreateBucket;
  GetObject := Memory.GetObject;
  PutObject := Memory.PutObject;
  DeleteObject := Memory.DeleteObject;
  DeleteObjectsByPrefix := Memory.DeleteObjectsByPrefix;
  HeadBucket := fun _ => Some None;
  HeadObject := Memory.HeadObject;
  ListObjects := Memory.ListObjects;
|}.

(** ** sharding.go *)

(** [fnv.New32a] over the bytes of the key. *)
Definition fnv_offset : Z := 2166136261.
Definition fnv_prime : Z := 16777619.

Fixpoint fnv32a (h : Z) (s : string) : Z :=
  match s with
  | EmptyString => h
  | String c s => fnv32a (uwrap 32 (Z.lxor h (Z.of_N (N_of_ascii c)) * fnv_prime)) s
  end.

Record sharded (St : Type) := Sharded { stores : list St }.
Arguments Sharded {St} stores.
Arguments stores {St} s.

Module Shards.
Section shards.
Context {St : Type} `{!ObjectStorage St}.
Implicit Types (s : sharded St) (key : string).

(** The index [pick] computes; no store at all divides by zero. *)
Definition pick_index s key : option nat :=
  if Z.of_nat (length (stores s)) =? 0 then None
  else Some (Z.to_nat (fnv32a fnv_offset key mod uwrap 32 (Z.of_nat (length (stores s))))).

Definition pick s key : option St :=
  match pick_index s key with Some i => stores s !! i | None => None end.

(** Running a method of the picked store, which changes that store only. *)
Definition on_picked {A} s key (f : St -> option (St * A)) : option (sharded St * A) :=
  match pick_index s key, pick s key with
  | Some i, Some o =>
    match f o with Some (o, a) => Some (Sharded (<[i := o]> (stores s)), a) | None => None end
  | _, _ => None
  end.

Definition GetObject s key (off limit : Z) : option (result storage_error reader) :=
  match pick s key with Some o => Storage.GetObject o key off limit | None => None end.

Definition PutObject (now : Z) s key (body : reader) : option (sharded St * option storage_error) :=
  on_picked s key (fun o => Storage.PutObject now o key body).

Definition DeleteObject s key : option (sharded St * option storage_error) :=
  on_picked s key (fun o => Storage.DeleteObject o key).

Definition HeadObject s key : option (result storage_error object) :=
  match pick s key with Some o => Storage.HeadObject o key | None => None end.

(** [fuel] bounds the pages. *)
Definition delete_by_prefix (fuel : nat) s key : option (sharded St * (Z * option storage_error)) :=
  delete_loop
    (fun s => match pick s key with
              | Some o => ListObjects o key ""%string ""%string batchSize
              | None => None
              end)
    DeleteObject fuel s 0.

Fixpoint create_buckets (done todo : list St) : option (sharded St * option storage_error) :=
  match todo with
  | [] => Some (Sharded done, None)
  | o :: todo =>
    match Storage.CreateBucket o with
    | None => None
    | Some (o, Some e) => Some (Sharded (done ++ o :: todo), Some e)
    | Some (o, None) => create_buckets (done ++ [o]) todo
    end
  end.

Definition CreateBucket s : option (sharded St * option storage_error) := create_buckets [] (stores s).

Fixpoint head_buckets (l : list St) : option (option storage_error) :=
  match l with
  | [] => Some None
  | o :: l =>
    match Storage.HeadBucket o with
    | None => None
    | Some (Some e) => Some (Some e)
    | Some None => head_buckets l
    end
  end.

Definition HeadBucket s : option (option storage_error) := head_buckets (stores s).
End shards.
End Shards.

(** The pages of one call are at most those of the objects in all the stores: [bound]
    is any number above it. *)
Definition sharded_storage {St} `{!ObjectStorage St} (bound : nat) : ObjectStorage (sharded St) := {|
  CreateBucket := Shards.CreateBucket;
  GetObject := Shards.GetObject;
  PutObject := Shards.PutObject;
  DeleteObject := Shards.DeleteObject;
  DeleteObjectsByPrefix := Shards.delete_by_prefix bound;
  HeadBucket := Shards.HeadBucket;
  HeadObject := Shards.HeadObject;
  ListObjects := default_ListObjects;
|}.

(** ** What a storage promises *)

Class StorageLaws (St : Type) `{!ObjectStorage St} := {
  store_ok : St -> Prop;
  stored : St -> string -> option bytes;
  put_law now s key r data :
    store_ok s -> key <> ""%string -> ReadAll r = Ok data ->
    exists s', PutObject now s key r = Some (s', None) /\ store_ok s' /\
      forall k, stored s' k = if decide (k = key) then Some data else stored s k;
  get_law s key data offset limit :
    store_ok s -> key <> ""%string -> stored s key = Some data ->
    is_int64 (len data) -> is_int64 limit ->
    0 <= offset < len data \/ (offset = 0 /\ limit <= 0) ->
    exists rd, GetObject s key offset limit = Some (Ok rd) /\
      ReadAll rd = Ok (range_of data offset limit);
  get_missing_law s key offset limit :
    store_ok s -> stored s key = None -> exists e, GetObject s key offset limit = Some (Err e);
  delete_law s key :
    store_ok s ->
    exists s', DeleteObject s key = Some (s', None) /\ store_ok s' /\
      forall k, stored s' k = if decide (k = key) then None else stored s k;
}.

(** A storage that lists: a page holds the objects under the prefix, without repeats, and
    all of them when there are fewer than the limit. *)
Class ListLaws (St : Type) `{SL : StorageLaws St} := {
  contents : St -> gmap string bytes;
  contents_stored s k : store_ok s -> contents s !! k = stored s k;
  list_law s prefix limit :
    store_ok s -> 0 <= limit -> prefix <> ""%string ->
    exists objs, ListObjects s prefix ""%string ""%string limit = Some (Ok objs) /\
      NoDup (okey <$> objs) /\
      (forall o, o ∈ objs -> String.prefix prefix (okey o) = true /\
         exists data, contents s !! okey o = Some data /\ osize o = len data) /\
      Z.of_nat (length objs)
        = Z.min limit (Z.of_nat (size (filter (fun kv => String.prefix prefix kv.1 = true) (contents s))));
}.
