(* ===== verification/StorageLaws.v ===== *)
(** The laws of the storages: the memory storage has both classes of laws, a sharded
    storage the first one; and the loop that deletes by prefix ends, having deleted what
    its pages list. *)
From Stdlib Require Import ZArith Lia String Ascii.
From stdpp Require Import base gmap list strings sorting fin_maps.
From S2P Require Import Prelude Checksum Storage.

Local Open Scope Z_scope.

(** ** The loop that deletes by prefix *)

(** The bytes of a map of sizes. *)
Definition total (v : gmap string Z) : Z := map_fold (fun _ n acc => n + acc) 0 v.

Lemma total_delete v k n : v !! k = Some n -> total v = n + total (delete k v).
Proof.
  intros Hk. unfold total. rewrite <-(insert_delete_id v k n) at 1 by done.
  rewrite map_fold_insert_L; [done|intros; lia|by rewrite lookup_delete_eq].
Qed.

Lemma uwrap_add_l w x y : uwrap w (uwrap w x + y) = uwrap w (x + y).
Proof. unfold uwrap. by rewrite Zplus_mod_idemp_l. Qed.

Lemma uwrap_add_r w x y : uwrap w (x + uwrap w y) = uwrap w (x + y).
Proof. unfold uwrap. by rewrite Zplus_mod_idemp_r. Qed.

(** [v] is a view of the objects a page lists; [I] an invariant of the state. *)
Section delete_loop.
Context {St : Type} (list_page : St -> option (result storage_error (list object)))
  (delete_one : St -> string -> option (St * option storage_error))
  (I : St -> Prop) (view : St -> gmap string Z).

Hypothesis page_spec : forall s, I s -> exists objs,
  list_page s = Some (Ok objs) /\ NoDup (okey <$> objs) /\
  (forall o, o ∈ objs -> view s !! okey o = Some (osize o)) /\
  Z.of_nat (length objs) = Z.min batchSize (Z.of_nat (size (view s))).

Hypothesis delete_spec : forall s k, I s -> is_Some (view s !! k) -> exists s',
  delete_one s k = Some (s', None) /\ I s' /\ view s' = delete k (view s).

(** [Q] holds at the end when every deletion of a viewed object keeps it. *)
Definition kept (Q : St -> Prop) : Prop :=
  forall s k s' e, I s -> is_Some (view s !! k) -> delete_one s k = Some (s', e) -> Q s -> Q s'.

Lemma delete_page_spec objs s sz (Q : St -> Prop) :
  I s -> Q s -> kept Q -> NoDup (okey <$> objs) ->
  (forall o, o ∈ objs -> view s !! okey o = Some (osize o)) ->
  exists s', delete_page delete_one objs s sz =
      Some (s', if bool_decide (objs = []) then sz else uwrap 64 (sz + total (view s) - total (view s'))) /\
    I s' /\ Q s' /\ (size (view s') + length objs = size (view s))%nat.
Proof.
  intros HI HQ Hk. revert s sz HI HQ. induction objs as [|o objs IH]; intros s sz HI HQ Hnd Hin.
  { exists s. repeat split; auto with lia. }
  cbn [fmap list_fmap] in Hnd. apply NoDup_cons in Hnd as [Hno Hnd].
  pose proof (Hin o ltac:(left)) as Ho.
  destruct (delete_spec s (okey o) HI ltac:(eauto)) as (s1 & Hd & HI1 & Hv).
  assert (size (view s) = S (size (view s1))) as Hsz.
  { rewrite Hv, <-(insert_delete_id (view s) (okey o) (osize o)) at 1 by done.
    rewrite map_size_insert_None; [done|]. by rewrite lookup_delete_eq. }
  destruct (IH s1 (uwrap 64 (sz + uwrap 64 (osize o))) HI1) as (s' & Hp & HI' & HQ' & Hlen); [eauto|done|..].
  { intros o' Ho'. rewrite Hv, lookup_delete_ne; [apply Hin; by right|].
    intros E. apply Hno. rewrite E. apply list_elem_of_fmap_2. done. }
  exists s'. repeat split; [|done..|cbn [length]; lia].
  cbn [delete_page]. rewrite Hd, Hp. rewrite (bool_decide_false (o :: objs = [])) by done.
  do 2 f_equal. rewrite uwrap_add_r.
  pose proof (total_delete _ _ _ Ho) as Ht. rewrite <-Hv in Ht. rewrite Ht.
  case_bool_decide as Hnil.
  - subst objs. cbn in Hp. injection Hp as <-. f_equal. lia.
  - replace (uwrap 64 (sz + osize o) + total (view s1) - total (view s'))
      with (uwrap 64 (sz + osize o) + (total (view s1) - total (view s'))) by lia.
    rewrite uwrap_add_l. f_equal. lia.
Qed.

(** With more fuel than pages the loop returns; nothing it views is left. *)
Lemma delete_loop_spec fuel s sz (Q : St -> Prop) :
  (size (view s) < fuel)%nat -> 0 <= sz < 2 ^ 64 -> I s -> Q s -> kept Q ->
  exists s', delete_loop list_page delete_one fuel s sz
      = Some (s', (uwrap 64 (sz + total (view s)), None)) /\
    I s' /\ Q s' /\ view s' = ∅.
Proof.
  revert s sz. induction fuel as [|fuel IH]; intros s sz Hf Hsz HI HQ Hk; [lia|].
  destruct (page_spec s HI) as (objs & Hl & Hnd & Hin & Hlen).
  destruct (delete_page_spec objs s sz Q HI HQ Hk Hnd Hin) as (s1 & Hp & HI1 & HQ1 & Hs1).
  cbn [delete_loop]. rewrite Hl, Hp. unfold batchSize in *.
  destruct (Z.ltb_spec (Z.of_nat (length objs)) 1000) as [Hlt|Hge]; cbn [negb].
  - assert (view s1 = ∅) as He. { apply map_size_empty_inv. lia. }
    exists s1. split; [|done]. do 3 f_equal. case_bool_decide as Hnil.
    + subst objs. cbn in Hlen. assert (view s = ∅) as ->. { apply map_size_empty_inv. lia. }
      unfold total. rewrite map_fold_empty. unfold uwrap. rewrite Z.mod_small; lia.
    + rewrite He. unfold total at 2. rewrite map_fold_empty. f_equal. lia.
  - destruct objs as [|o objs]; [cbn in Hge; lia|]. rewrite bool_decide_false by done.
    destruct (IH s1 (uwrap 64 (sz + total (view s) - total (view s1)))) as (s' & Hd & HI' & HQ' & Hv);
      [cbn in Hs1; lia|apply Z.mod_pos_bound; lia|done..|].
    exists s'. split; [|done]. rewrite Hd. do 3 f_equal. rewrite uwrap_add_l. f_equal. lia.
Qed.
End delete_loop.

(** ** The memory storage *)

Section memory.
Implicit Types (m : memoryStore) (k key prefix : string).

Lemma memory_get m key offset limit :
  key <> ""%string ->
  Memory.GetObject m key offset limit =
    match mobjects m !! key with
    | None => Some (Err ErrNoSuchObject)
    | Some d =>
      if offset <? 0 then None
      else Some (Ok (NewReader (range_of (mdata d) offset limit)))
    end.
Proof.
  intros Hk. unfold Memory.GetObject. rewrite bool_decide_false by done.
  destruct (mobjects m !! key) as [d|]; [|done]. set (n := len (mdata d)).
  assert (0 <= n) by (unfold n, len; lia).
  set (o := if offset >? n then n else offset).
  assert (drop (Z.to_nat o) (mdata d) = drop (Z.to_nat offset) (mdata d)) as Hdrop.
  { unfold o. destruct (Z.gtb_spec offset n); [|done].
    rewrite !drop_ge; [done|..]; unfold n, len in *; lia. }
  destruct (Z.ltb_spec offset 0).
  { unfold slice. replace o with offset by (unfold o; destruct (Z.gtb_spec offset n); lia).
    by destruct (Z.leb_spec 0 offset); [lia|]. }
  assert (0 <= o <= n) by (unfold o; destruct (Z.gtb_spec offset n); lia).
  unfold slice at 1. fold n.
  replace ((0 <=? o) && (o <=? n) && (n <=? n)) with true by (symmetry; rewrite !andb_true_iff; lia).
  rewrite take_ge by (rewrite length_drop; unfold n, len; lia). rewrite Hdrop. unfold range_of.
  set (rest := drop (Z.to_nat offset) (mdata d)). assert (0 <= len rest) by (unfold len; lia).
  destruct (Z.gtb_spec limit 0); cbn [andb]; [|done].
  destruct (Z.ltb_spec limit (len rest)).
  - unfold slice. replace ((0 <=? 0) && (0 <=? limit) && (limit <=? len rest)) with true
      by (symmetry; rewrite !andb_true_iff; lia). by rewrite Z.sub_0_r.
  - rewrite take_ge; [done|]. unfold len in *. lia.
Qed.

#[export] Program Instance memory_laws : StorageLaws memoryStore := {|
  store_ok m := True;
  stored m k := if decide (k = ""%string) then None else mdata <$> mobjects m !! k;
|}.
Next Obligation.
  intros now m key r data _ Hk Hr. eexists. cbn. unfold Memory.PutObject.
  rewrite bool_decide_false, Hr by done. split; [done|split; [done|]]. intros k. cbn.
  destruct (decide (k = key)) as [->|Hne].
  - by rewrite decide_False, lookup_insert_eq.
  - by rewrite lookup_insert_ne.
Qed.
Next Obligation.
  intros m key data offset limit _ Hk Hs Hl Hlim Ho. cbn. rewrite memory_get by done.
  cbv beta in Hs. rewrite decide_False in Hs by done. destruct (mobjects m !! key) as [d|]; [|done]. injection Hs as <-.
  destruct (Z.ltb_spec offset 0); [lia|]. eexists. split; [done|]. apply ReadAll_NewReader.
Qed.
Next Obligation.
  intros m key offset limit _ Hs. cbn. unfold Memory.GetObject. case_bool_decide; [by eauto|]. cbv beta in Hs.
  rewrite decide_False in Hs by done. destruct (mobjects m !! key); [done|by eauto].
Qed.
Next Obligation.
  intros m key _. eexists. cbn. split; [done|split; [done|]]. intros k. cbn.
  destruct (decide (k = key)) as [->|Hne].
  - rewrite lookup_delete_eq. by destruct (decide _).
  - by rewrite lookup_delete_ne.
Qed.

Lemma ltb_empty k : k <> ""%string -> String.ltb "" k = true.
Proof. by destruct k. Qed.

Lemma prefix_nonempty prefix k : prefix <> ""%string -> String.prefix prefix k = true -> k <> ""%string.
Proof. intros Hp H ->. by destruct prefix. Qed.

(** The objects of a page come from the map, one for each key under the prefix. *)
Lemma matching_spec m prefix :
  prefix <> ""%string ->
  let objs := Memory.matching m prefix ""%string in
  NoDup (okey <$> objs) /\
  (forall o, o ∈ objs <-> exists d, mobjects m !! okey o = Some d /\ String.prefix prefix (okey o) = true /\
     o = Object (okey o) (len (mdata d)) (mmodTime d) false) /\
  length objs = size (filter (fun kv => String.prefix prefix kv.1 = true) (mobjects m)).
Proof.
  intros Hp objs. subst objs. unfold Memory.matching.
  set (P := fun '(k, _) => (String.prefix prefix k && String.ltb "" k)%bool = true).
  assert (forall k (o : memoryObject), P (k, o) <-> String.prefix prefix k = true) as HP.
  { intros k o. unfold P. split; [by intros [? _]%andb_prop|]. intros H.
    rewrite H. cbn [andb]. apply ltb_empty. by eapply prefix_nonempty. }
  repeat split.
  - rewrite <-list_fmap_compose.
    assert (okey ∘ (fun '(k, o) => Object k (len (mdata o)) (mmodTime o) false) <$>
        filter P (map_to_list (mobjects m)) = (filter P (map_to_list (mobjects m))).*1) as ->.
    { apply list_fmap_ext. by intros ? [k o] _. }
    apply NoDup_fmap_fst; [|apply NoDup_filter, NoDup_map_to_list].
    intros k x y [_ Hx]%list_elem_of_filter [_ Hy]%list_elem_of_filter.
    apply elem_of_map_to_list in Hx, Hy. congruence.
  - intros ([k d] & -> & [HPk Hin]%list_elem_of_filter)%list_elem_of_fmap. apply elem_of_map_to_list in Hin.
    exists d. cbn. split; [done|]. split; [by apply (HP k d)|done].
  - intros (d & Hd & Hpre & ->). cbn in *. apply list_elem_of_fmap. exists (okey o, d). split; [done|].
    apply list_elem_of_filter. split; [by apply HP|]. by apply elem_of_map_to_list.
  - rewrite length_fmap, <-(length_map_to_list (filter _ _)). apply Permutation_length, NoDup_Permutation.
    + apply NoDup_filter, NoDup_map_to_list.
    + apply NoDup_map_to_list.
    + intros [k d]. rewrite list_elem_of_filter, !elem_of_map_to_list, map_lookup_filter_Some, HP. cbn. naive_solver.
Qed.

#[export] Program Instance memory_list_laws : ListLaws memoryStore := {|
  contents m := mdata <$> filter (fun kv => kv.1 <> ""%string) (mobjects m);
|}.
Next Obligation.
  intros m k _. cbn. rewrite lookup_fmap. destruct (decide (k = ""%string)) as [->|Hk].
  - rewrite map_lookup_filter_None_2; [done|]. right. intros x _ H. by apply H.
  - f_equal. destruct (mobjects m !! k) as [d|] eqn:E.
    + by apply map_lookup_filter_Some_2.
    + apply map_lookup_filter_None_2. by left.
Qed.
Next Obligation.
  intros m prefix limit _ Hl Hp. destruct (matching_spec m prefix Hp) as (Hnd & Hin & Hlen).
  set (objs := merge_sort Memory.key_le (Memory.matching m prefix "")).
  assert (objs ≡ₚ Memory.matching m prefix "") as Hperm by apply merge_sort_Permutation.
  exists (take (Z.to_nat limit) objs).
  assert (Memory.ListObjects m prefix "" "" limit = Some (Ok (take (Z.to_nat limit) objs))) as HL.
  { unfold Memory.ListObjects. cbn [bool_decide]. rewrite bool_decide_true by done. cbn [negb]. fold objs.
    destruct (Z.gtb_spec (Z.of_nat (length objs)) limit).
    - by destruct (Z.ltb_spec limit 0); [lia|].
    - rewrite take_ge by lia. done. }
  split; [exact HL|]. split; [|split].
  - rewrite fmap_take. eapply (NoDup_app _ (drop (Z.to_nat limit) (okey <$> objs))).
    rewrite take_drop. by rewrite Hperm.
  - intros o Ho. assert (o ∈ Memory.matching m prefix "") as Ho'.
    { rewrite <-Hperm. rewrite <-(take_drop (Z.to_nat limit) objs). apply elem_of_app. by left. }
    apply Hin in Ho' as (d & Hd & Hpre & Ho'). split; [done|]. exists (mdata d).
    split; [|by rewrite Ho']. rewrite lookup_fmap.
    rewrite (map_lookup_filter_Some_2 _ _ _ d); [done|done|]. cbn. by eapply prefix_nonempty.
  - rewrite length_take, Hperm, Hlen, map_filter_fmap, map_size_fmap, map_filter_filter.
    match goal with |- _ = _ `min` Z.of_nat (size ?f) =>
      assert (f = filter (fun kv => String.prefix prefix kv.1 = true) (mobjects m)) as ->; [|lia] end.
    apply map_filter_ext. intros k d _. cbn. split; [by intros [? _]|]. intros H. split; [done|].
    by eapply prefix_nonempty.
Qed.
End memory.

(** ** The sharded storage *)

Section sharded.
Context {St : Type} `{SL : StorageLaws St}.
Implicit Types (s : sharded St) (k key : string).

Definition shards_ok s : Prop :=
  (0 < length (stores s))%nat /\ Z.of_nat (length (stores s)) < 2 ^ 32 /\ Forall store_ok (stores s).

Lemma pick_ok s key :
  shards_ok s -> exists i o, Shards.pick_index s key = Some i /\ stores s !! i = Some o /\ store_ok o /\
    Shards.pick s key = Some o.
Proof.
  intros (Hn & Hm & Hf). unfold Shards.pick, Shards.pick_index.
  destruct (Z.eqb_spec (Z.of_nat (length (stores s))) 0); [lia|].
  set (i := Z.to_nat _). assert (i < length (stores s))%nat as Hi.
  { unfold i, uwrap. rewrite (Z.mod_small (Z.of_nat _)) by lia.
    pose proof (Z.mod_pos_bound (fnv32a fnv_offset key) (Z.of_nat (length (stores s))) ltac:(lia)). lia. }
  apply lookup_lt_is_Some_2 in Hi as [o Ho]. exists i, o. repeat split; auto.
  by eapply Forall_lookup_1.
Qed.

(** Replacing a store leaves every key where it is. *)
Lemma pick_insert s i o key :
  Shards.pick_index (Sharded (<[i := o]> (stores s))) key = Shards.pick_index s key.
Proof. unfold Shards.pick_index. cbn. by rewrite length_insert. Qed.

Lemma shards_ok_insert s i o : shards_ok s -> store_ok o -> shards_ok (Sharded (<[i := o]> (stores s))).
Proof.
  intros (Hn & Hm & Hf) Ho. unfold shards_ok. cbn. rewrite length_insert. repeat split; [done..|].
  by apply Forall_insert.
Qed.

Definition sharded_stored s key : option bytes :=
  match Shards.pick s key with Some o => stored o key | None => None end.

(** A change of the picked store at [key] is a change of the whole at [key]. *)
Lemma sharded_stored_insert s i o o' key (v : option bytes) k :
  Shards.pick_index s key = Some i -> stores s !! i = Some o ->
  (forall k, stored o' k = if decide (k = key) then v else stored o k) ->
  sharded_stored (Sharded (<[i := o']> (stores s))) k = if decide (k = key) then v else sharded_stored s k.
Proof.
  intros Hi Ho Hs. unfold sharded_stored, Shards.pick. rewrite pick_insert. cbn.
  assert (i < length (stores s))%nat as Hlt by by eapply lookup_lt_Some.
  destruct (Shards.pick_index s k) as [j|] eqn:Hj.
  - destruct (decide (j = i)) as [->|Hne].
    + rewrite list_lookup_insert_eq by done. by rewrite Hs, Ho.
    + rewrite list_lookup_insert_ne by done. destruct (decide (k = key)) as [->|]; [congruence|done].
  - destruct (decide (k = key)) as [->|]; [congruence|done].
Qed.

Lemma on_picked_spec {A} s key (f : St -> option (St * A)) a (v : option bytes) :
  shards_ok s ->
  (forall o, store_ok o -> exists o', f o = Some (o', a) /\ store_ok o' /\
     forall k, stored o' k = if decide (k = key) then v else stored o k) ->
  exists s', Shards.on_picked s key f = Some (s', a) /\ shards_ok s' /\
    forall k, sharded_stored s' k = if decide (k = key) then v else sharded_stored s k.
Proof.
  intros Hok Hf. destruct (pick_ok s key Hok) as (i & o & Hi & Ho & Hoo & Hp).
  destruct (Hf o Hoo) as (o' & Hfo & Ho' & Hst). unfold Shards.on_picked. rewrite Hi, Hp, Hfo.
  eexists. split; [done|]. split; [by apply shards_ok_insert|].
  intros k. by eapply sharded_stored_insert.
Qed.

#[export] Program Instance sharded_laws bound : @StorageLaws (sharded St) (sharded_storage bound) := {|
  store_ok := shards_ok;
  stored := sharded_stored;
|}.
Next Obligation.
  intros bound now s key r data Hok Hk Hr. cbn. apply on_picked_spec; [done|]. intros o Ho. by apply put_law.
Qed.
Next Obligation.
  intros bound s key data offset limit Hok Hk Hs Hl Hlim Ho. cbn. unfold Shards.GetObject, sharded_stored in *.
  destruct (pick_ok s key Hok) as (i & o & _ & _ & Hoo & Hp). rewrite Hp in *. by apply get_law.
Qed.
Next Obligation.
  intros bound s key offset limit Hok Hs. cbn. unfold Shards.GetObject, sharded_stored in *.
  destruct (pick_ok s key Hok) as (i & o & _ & _ & Hoo & Hp). rewrite Hp in *. by apply get_missing_law.
Qed.
Next Obligation.
  intros bound s key Hok. cbn. apply on_picked_spec; [done|]. intros o Ho. by apply delete_law.
Qed.
End sharded.

(** Deleting by prefix on a sharded storage of storages that list. *)
Section sharded_prefix.
Context {St : Type} `{LL : ListLaws St}.
Implicit Types (s : sharded St) (k key : string).

(** Every object is in the store its key picks. *)
Definition placed s : Prop :=
  forall j o k, stores s !! j = Some o -> is_Some (contents o !! k) -> Shards.pick_index s k = Some j.

(** The objects under [key] in the store that [key] itself picks. *)
Definition prefix_view key s : gmap string Z :=
  match Shards.pick s key with
  | Some o => len <$> filter (fun kv => String.prefix key kv.1 = true) (contents o)
  | None => ∅
  end.

Lemma contents_delete o o' k :
  store_ok o -> store_ok o' ->
  (forall k', stored o' k' = if decide (k' = k) then None else stored o k') -> contents o' = delete k (contents o).
Proof.
  intros Ho Ho' Hs. apply map_eq. intros k'. rewrite contents_stored, Hs by done.
  destruct (decide (k' = k)) as [->|]; [by rewrite lookup_delete_eq|].
  by rewrite lookup_delete_ne, contents_stored.
Qed.

Lemma shard_page_spec key s :
  key <> ""%string -> shards_ok s -> placed s -> exists objs,
  match Shards.pick s key with
  | Some o => ListObjects o key ""%string ""%string batchSize
  | None => None
  end = Some (Ok objs) /\ NoDup (okey <$> objs) /\
  (forall o, o ∈ objs -> prefix_view key s !! okey o = Some (osize o)) /\
  Z.of_nat (length objs) = Z.min batchSize (Z.of_nat (size (prefix_view key s))).
Proof.
  intros Hk Hok Hpl. destruct (pick_ok s key Hok) as (i & o & Hi & Ho & Hoo & Hp).
  destruct (list_law o key batchSize Hoo ltac:(done) Hk) as (objs & Hl & Hnd & Hin & Hlen).
  exists objs. unfold prefix_view. rewrite Hp, map_size_fmap. repeat split; [done..| |done].
  intros ob Hob. destruct (Hin ob Hob) as (Hpre & data & Hc & Hsz).
  rewrite lookup_fmap, (map_lookup_filter_Some_2 _ _ _ data) by done. cbn. by rewrite Hsz.
Qed.

Lemma prefix_view_lookup key s k :
  shards_ok s -> placed s -> is_Some (prefix_view key s !! k) ->
  String.prefix key k = true /\ Shards.pick_index s k = Shards.pick_index s key.
Proof.
  intros Hok Hpl. destruct (pick_ok s key Hok) as (i & o & Hi & Ho & Hoo & Hp).
  unfold prefix_view. rewrite Hp, lookup_fmap, fmap_is_Some. intros [d Hd].
  apply map_lookup_filter_Some in Hd as [Hc Hpre]. split; [done|]. rewrite Hi. eapply Hpl; eauto.
Qed.

Lemma shard_delete_spec key s k :
  shards_ok s -> placed s -> is_Some (prefix_view key s !! k) -> exists s',
  Shards.DeleteObject s k = Some (s', None) /\ (shards_ok s' /\ placed s') /\
  prefix_view key s' = delete k (prefix_view key s).
Proof.
  intros Hok Hpl Hv. pose proof (prefix_view_lookup key s k Hok Hpl Hv) as [_ Hik].
  destruct (pick_ok s key Hok) as (i & o & Hi & Ho & Hoo & Hp).
  assert (i < length (stores s))%nat as Hlt by by eapply lookup_lt_Some.
  destruct (delete_law o k Hoo) as (o' & Hd & Ho' & Hst).
  assert (contents o' = delete k (contents o)) as Hc by by apply contents_delete.
  exists (Sharded (<[i := o']> (stores s))). split; [|split; [split|]].
  - unfold Shards.DeleteObject, Shards.on_picked, Shards.pick. by rewrite Hik, Hi, Ho, Hd.
  - by apply shards_ok_insert.
  - intros j oj k' Hj Hk'. rewrite pick_insert. cbn in Hj. destruct (decide (j = i)) as [->|Hne].
    + rewrite list_lookup_insert_eq in Hj by done. injection Hj as <-. eapply Hpl; [done|].
      rewrite Hc in Hk'. destruct Hk' as [d [_ Hd']%lookup_delete_Some]. by eexists.
    + rewrite list_lookup_insert_ne in Hj by done. by eapply Hpl.
  - unfold prefix_view. rewrite Hp. unfold Shards.pick. rewrite pick_insert, Hi. cbn.
    rewrite list_lookup_insert_eq by done. by rewrite Hc, map_filter_delete, fmap_delete.
Qed.

(** What a deletion by prefix does to a sharded storage, and that it returns. *)
Lemma shard_delete_by_prefix bound s key :
  key <> ""%string -> shards_ok s -> placed s -> (size (prefix_view key s) < bound)%nat ->
  exists s', Shards.delete_by_prefix bound s key
      = Some (s', (uwrap 64 (total (prefix_view key s)), None)) /\
    (shards_ok s' /\ placed s') /\
    forall k, sharded_stored s' k =
      if decide (String.prefix key k = true /\ Shards.pick_index s k = Shards.pick_index s key)
      then None else sharded_stored s k.
Proof.
  intros Hk Hok Hpl Hb. unfold Shards.delete_by_prefix.
  destruct (delete_loop_spec _ Shards.DeleteObject (fun s => shards_ok s /\ placed s) (prefix_view key)
    ltac:(intros ? []; by apply shard_page_spec) ltac:(intros ? ? []; by apply shard_delete_spec)
    bound s 0
    (fun s' => (forall k, Shards.pick_index s' k = Shards.pick_index s k) /\
       forall k, ~ (String.prefix key k = true /\ Shards.pick_index s k = Shards.pick_index s key) ->
         sharded_stored s' k = sharded_stored s k)) as (s' & Hl & [Hok' Hpl'] & [Hpi Hsame] & Hempty);
    [done|lia|done|done| |].
  - intros s1 k s2 e [Hok1 Hpl1] Hv Hd [Hpi Hsame].
    pose proof (prefix_view_lookup key s1 k Hok1 Hpl1 Hv) as [Hpre Hik]. rewrite !Hpi in Hik.
    destruct (pick_ok s1 k Hok1) as (i & o & Hi & Ho & Hoo & Hp).
    destruct (delete_law o k Hoo) as (o' & Hdo & Ho' & Hst).
    unfold Shards.DeleteObject, Shards.on_picked in Hd. rewrite Hi, Hp, Hdo in Hd. injection Hd as <- <-.
    split; [intros k'; by rewrite pick_insert|]. intros k' Hk'.
    rewrite (sharded_stored_insert s1 i o o' k None) by done.
    rewrite decide_False by (intros ->; by apply Hk'). by apply Hsame.
  - exists s'. rewrite Hl. split; [done|]. split; [done|]. intros k.
    destruct (decide _) as [[Hpre Hik]|Hno]; [|by apply Hsame].
    destruct (pick_ok s' k Hok') as (i & o & Hi & Ho & Hoo & Hp).
    assert (prefix_view key s' !! k = None) as Hv by by rewrite Hempty.
    unfold sharded_stored. rewrite Hp. unfold prefix_view, Shards.pick in Hv.
    rewrite Hpi, <-Hik, <-Hpi, Hi, Ho, lookup_fmap in Hv. apply fmap_None in Hv.
    rewrite <-contents_stored by done. destruct (contents o !! k) as [d|] eqn:E; [|done].
    by rewrite (map_lookup_filter_Some_2 _ _ _ d) in Hv.
Qed.
End sharded_prefix.

(** ** Deleting by prefix in memory *)

Lemma memory_delete_by_prefix m key :
  key <> ""%string ->
  exists m', Memory.DeleteObjectsByPrefix m key
      = Some (m', (uwrap 64 (total ((fun o => len (mdata o)) <$>
                filter (fun kv => String.prefix key kv.1 = true) (mobjects m))), None)) /\
    m' = MemoryStore (mname m) (filter (fun kv => String.prefix key kv.1 <> true) (mobjects m)).
Proof.
  intros Hk. unfold Memory.DeleteObjectsByPrefix.
  set (view := fun m => (fun o => len (mdata o)) <$> filter (fun kv : string * memoryObject => String.prefix key kv.1 = true) (mobjects m)).
  destruct (delete_loop_spec (fun m => Memory.ListObjects m key "" "" batchSize) Memory.DeleteObject
    (fun _ => True) view) with (fuel := S (size (mobjects m))) (s := m) (sz := 0)
    (Q := fun m' => mname m' = mname m /\
       filter (fun kv : string * memoryObject => String.prefix key kv.1 <> true) (mobjects m')
       = filter (fun kv : string * memoryObject => String.prefix key kv.1 <> true) (mobjects m))
    as (m' & Hl & _ & [Hn Hf] & Hv); [| | |lia|done|done| |].
  - intros m1 _. destruct (list_law (ListLaws := memory_list_laws) m1 key batchSize I ltac:(done) Hk)
      as (objs & HL & Hnd & Hin & Hlen). exists objs. split; [exact HL|]. split; [done|]. split.
    + intros o Ho. destruct (Hin o Ho) as (Hpre & d & Hc & Hsz). unfold view.
      cbn in Hc. rewrite lookup_fmap in Hc. apply fmap_Some in Hc as (d' & Hd & ->).
      apply map_lookup_filter_Some in Hd as [Hd _]. rewrite lookup_fmap.
      rewrite (map_lookup_filter_Some_2 _ _ _ d') by done. cbn. by rewrite Hsz.
    + rewrite Hlen. f_equal. f_equal. unfold view. cbn [contents memory_list_laws].
      rewrite map_filter_fmap, !map_size_fmap, map_filter_filter. f_equal. apply map_filter_ext.
      intros k d _. cbn. split; [by intros [? _]|]. intros H. split; [done|]. by eapply prefix_nonempty.
  - intros m1 k _ _. eexists. split; [done|]. split; [done|]. unfold view. cbn.
    by rewrite map_filter_delete, fmap_delete.
  - unfold view. rewrite map_size_fmap. pose proof (map_size_filter (fun kv : string * memoryObject => String.prefix key kv.1 = true) (mobjects m)). lia.
  - intros m1 k m2 e _ Hv1 [= <- _] [Hn Hf]. cbn. split; [done|]. rewrite <-Hf.
    unfold view in Hv1. rewrite lookup_fmap, fmap_is_Some in Hv1.
    destruct Hv1 as [d [_ Hpre]%map_lookup_filter_Some].
    rewrite map_filter_delete. apply delete_id, map_lookup_filter_None_2. right. intros ? _ H. by apply H.
  - rewrite Hl. fold (view m). eexists. split; [done|]. destruct m' as [n ob]. cbn in *. subst n. f_equal.
    rewrite <-Hf. symmetry. apply map_filter_id. intros k d Hkd Hpre.
    assert (view (MemoryStore (mname m) ob) !! k = Some (len (mdata d))) as HH; [|by rewrite Hv in HH].
    unfold view. cbn. rewrite lookup_fmap, (map_lookup_filter_Some_2 _ _ _ d) by done. done.
Qed.
