(* ===== verification/PieceStore.v ===== *)
(** The piece store: piece/api.go and client/piece_store_client.go of store/piecestore
    over any object storage, its construction (piece/piece_store.go), and the interface
    core/piecestore as a class with the laws its clients rely on. *)
From Stdlib Require Import ZArith Lia String.
From stdpp Require Import base gmap list strings.
From S2P Require Import Prelude Checksum Storage.

Local Open Scope Z_scope.

(** ** core/piecestore/piecestore.go: the interface

    [None] is a panic (or the end of the fuel) of the storage below. *)

Class PieceStore (PS : Type) := {
  GetPiece : PS -> string -> Z -> Z -> option (result storage_error bytes);
  PutPiece : Z -> PS -> string -> bytes -> option (PS * option storage_error);
  DeletePiece : PS -> string -> option (PS * option storage_error);
  DeletePiecesByPrefix : PS -> string -> option (PS * (Z * option storage_error));
}.

Class PieceStoreLaws (PS : Type) `{!PieceStore PS} := {
  ps_ok : PS -> Prop;
  piece_at : PS -> string -> option bytes;
  put_piece_law now s key data :
    ps_ok s -> key <> ""%string ->
    exists s', PutPiece now s key data = Some (s', None) /\ ps_ok s' /\
      forall k, piece_at s' k = if decide (k = key) then Some data else piece_at s k;
  get_piece_law s key data offset limit :
    ps_ok s -> key <> ""%string -> piece_at s key = Some data ->
    is_int64 (len data) -> is_int64 limit ->
    0 <= offset < len data \/ (offset = 0 /\ limit <= 0) ->
    GetPiece s key offset limit = Some (Ok (range_of data offset limit));
  get_missing_piece_law s key offset limit :
    ps_ok s -> piece_at s key = None -> exists e, GetPiece s key offset limit = Some (Err e);
  delete_piece_law s key data :
    ps_ok s -> key <> ""%string -> piece_at s key = Some data -> is_int64 (len data) ->
    exists s', DeletePiece s key = Some (s', None) /\ ps_ok s' /\
      forall k, piece_at s' k = if decide (k = key) then None else piece_at s k;
  delete_missing_piece_law s key :
    ps_ok s -> piece_at s key = None -> exists e, DeletePiece s key = Some (s, Some e);
}.

(** A piece store whose calls may fail: a put that reports no error has stored the piece,
    and no put changes another piece. *)
Class PieceStoreSound (PS : Type) `{!PieceStore PS} := {
  pss_ok : PS -> Prop;
  pss_at : PS -> string -> option bytes;
  put_sound now s key data s' e :
    pss_ok s -> key <> ""%string -> PutPiece now s key data = Some (s', e) ->
    pss_ok s' /\ (forall k, k <> key -> pss_at s' k = pss_at s k) /\ (e = None -> pss_at s' key = Some data);
}.

#[export] Program Instance laws_sound {PS} `{PL : PieceStoreLaws PS} : PieceStoreSound PS := {|
  pss_ok := ps_ok;
  pss_at := piece_at;
|}.
Next Obligation.
  intros PS P PL now s key data s' e Hok Hk Hp.
  destruct (put_piece_law now s key data Hok Hk) as (s1 & H1 & Hok1 & Hs). rewrite H1 in Hp. injection Hp as <- <-.
  split; [done|]. split.
  - intros k Hne. by rewrite Hs, decide_False.
  - intros _. by rewrite Hs, decide_True.
Qed.

(** ** piece/api.go and client/piece_store_client.go *)

Record StoreClient (St : Type) := NewStoreClient { client_name : string; client_ps : St }.
Arguments NewStoreClient {St} client_name client_ps.
Arguments client_name {St}.
Arguments client_ps {St}.

Module Client.
Section client.
Context {St : Type} `{!ObjectStorage St}.
Implicit Types (client : StoreClient St) (key : string).

(** The methods of piece.PieceStore pass on to the storage. *)
Definition Get (p : St) key (offset limit : Z) := GetObject p key offset limit.
Definition Put (now : Z) (p : St) key (r : reader) := PutObject now p key r.
Definition Delete (p : St) key := DeleteObject p key.
Definition DeleteByPrefix (p : St) key := DeleteObjectsByPrefix p key.
Definition Head (p : St) key := HeadObject p key.

Definition with_ps {A} client (r : option (St * A)) : option (StoreClient St * A) :=
  match r with Some (ps, a) => Some (NewStoreClient (client_name client) ps, a) | None => None end.

Definition GetPiece client key (offset limit : Z) : option (result storage_error bytes) :=
  match Get (client_ps client) key offset limit with
  | None => None
  | Some (Err e) => Some (Err e)
  | Some (Ok rc) =>
    match ReadAll rc with
    | Err e => Some (Err (ErrReader e))
    | Ok data => Some (Ok data)
    end
  end.

Definition PutPiece (now : Z) client key (value : bytes) : option (StoreClient St * option storage_error) :=
  with_ps client (Put now (client_ps client) key (NewReader value)).

(** The piece is read first, for its size; an error of the read is returned. *)
Definition DeletePiece client key : option (StoreClient St * option storage_error) :=
  match GetPiece client key 0 (-1) with
  | None => None
  | Some (Err e) => Some (client, Some e)
  | Some (Ok val) => with_ps client (Delete (client_ps client) key)
  end.

Definition DeletePiecesByPrefix client key : option (StoreClient St * (Z * option storage_error)) :=
  with_ps client (DeleteByPrefix (client_ps client) key).
End client.
End Client.

#[export] Instance client_piece_store {St} `{!ObjectStorage St} : PieceStore (StoreClient St) := {|
  GetPiece := Client.GetPiece;
  PutPiece := Client.PutPiece;
  DeletePiece := Client.DeletePiece;
  DeletePiecesByPrefix := Client.DeletePiecesByPrefix;
|}.

(** The client of a storage that keeps the storage laws is a piece store. *)
#[export] Program Instance client_laws {St} `{SL : StorageLaws St} : PieceStoreLaws (StoreClient St) := {|
  ps_ok c := store_ok (client_ps c);
  piece_at c k := stored (client_ps c) k;
|}.
Next Obligation.
  intros St OS SL now c key data Hok Hk. cbn. unfold Client.PutPiece, Client.Put.
  destruct (put_law now (client_ps c) key (NewReader data) data Hok Hk (ReadAll_NewReader data))
    as (s' & -> & Hok' & Hs). eexists. by repeat split.
Qed.
Next Obligation.
  intros St OS SL c key data offset limit Hok Hk Hs Hl Hlim Ho. cbn. unfold Client.GetPiece, Client.Get.
  destruct (get_law (client_ps c) key data offset limit Hok Hk Hs Hl Hlim Ho) as (rd & -> & ->). done.
Qed.
Next Obligation.
  intros St OS SL c key offset limit Hok Hs. cbn. unfold Client.GetPiece, Client.Get.
  destruct (get_missing_law (client_ps c) key offset limit Hok Hs) as [e ->]. eauto.
Qed.
Next Obligation.
  intros St OS SL c key data Hok Hk Hs Hl. cbn. unfold Client.DeletePiece, Client.GetPiece, Client.Get.
  destruct (get_law (client_ps c) key data 0 (-1) Hok Hk Hs Hl ltac:(done) ltac:(lia)) as (rd & -> & ->).
  unfold Client.Delete. destruct (delete_law (client_ps c) key Hok) as (s' & -> & Hok' & Hst).
  eexists. by repeat split.
Qed.
Next Obligation.
  intros St OS SL c key Hok Hs. cbn. unfold Client.DeletePiece, Client.GetPiece, Client.Get.
  destruct (get_missing_law (client_ps c) key 0 (-1) Hok Hs) as [e ->]. eauto.
Qed.

(** ** piece/piece_store.go: configuration *)

Record ObjectStorageConfig := {
  cfg_Storage : string;
  cfg_BucketURL : string;
  cfg_MaxRetries : Z;
  cfg_MinRetryDelay : Z;
  cfg_TLSInsecureSkipVerify : bool;
  cfg_IAMType : string;
}.

Record PieceStoreConfig := { cfg_Shards : Z; cfg_Store : ObjectStorageConfig }.

Inductive config_error :=
| ErrEnvEmpty
| ErrEnvConflict
| ErrTooManyShards (shards : Z)
| ErrInvalidIAMType (t : string)
| ErrMaxRetries
| ErrMinRetryDelay
| ErrAbsPath (cause : string)
| ErrCreateBucket (e previous : storage_error)
| ErrBucket (e : storage_error).

Definition set_BucketURL (cfg : PieceStoreConfig) (url : string) : PieceStoreConfig :=
  let s := cfg_Store cfg in
  {| cfg_Shards := cfg_Shards cfg;
     cfg_Store := {| cfg_Storage := cfg_Storage s; cfg_BucketURL := url;
                     cfg_MaxRetries := cfg_MaxRetries s; cfg_MinRetryDelay := cfg_MinRetryDelay s;
                     cfg_TLSInsecureSkipVerify := cfg_TLSInsecureSkipVerify s;
                     cfg_IAMType := cfg_IAMType s |} |}.

(** [env] is the value of BUCKET_URL, if it is set. *)
Definition overrideConfigFromEnv (env : option string) (cfg : PieceStoreConfig)
  : result config_error PieceStoreConfig :=
  match env with
  | None => Ok cfg
  | Some val =>
    if bool_decide (val = ""%string) then Err ErrEnvEmpty
    else if bool_decide (cfg_BucketURL (cfg_Store cfg) = ""%string) then Ok (set_BucketURL cfg val)
    else if negb (bool_decide (cfg_BucketURL (cfg_Store cfg) = val)) then Err ErrEnvConflict
    else Ok cfg
  end.

(** [abs] is filepath.Abs, [default_path] what setDefaultFileStorePath returns. *)
Definition checkConfig (env : option string) (abs : string -> result string string) (default_path : string)
  (cfg : PieceStoreConfig) : result config_error PieceStoreConfig :=
  match overrideConfigFromEnv env cfg with
  | Err e => Err e
  | Ok cfg =>
    let s := cfg_Store cfg in
    if cfg_Shards cfg >? 256 then Err (ErrTooManyShards (cfg_Shards cfg))
    else if negb (bool_decide (cfg_IAMType s = "AKSK"%string)) &&
            negb (bool_decide (cfg_IAMType s = "SA"%string))
    then Err (ErrInvalidIAMType (cfg_IAMType s))
    else if cfg_MaxRetries s <? 0 then Err ErrMaxRetries
    else if cfg_MinRetryDelay s <? 0 then Err ErrMinRetryDelay
    else if bool_decide (cfg_Storage s = "file"%string) then
      let url := if bool_decide (cfg_BucketURL s = ""%string) then default_path else cfg_BucketURL s in
      match abs url with
      | Err e => Err (ErrAbsPath e)
      | Ok p => Ok (set_BucketURL cfg (p ++ "/")%string)
      end
    else Ok cfg
  end.

Section check_bucket.
Context {St : Type} `{!ObjectStorage St}.

Definition checkBucket (store : St) : option (St * option config_error) :=
  match HeadBucket store with
  | None => None
  | Some None => Some (store, None)
  | Some (Some err) =>
    if bool_decide (err = ErrNoSuchBucket) then
      match CreateBucket store with
      | None => None
      | Some (store, Some err2) => Some (store, Some (ErrCreateBucket err2 err))
      | Some (store, None) => Some (store, None)
      end
    else Some (store, Some (ErrBucket ErrNoPermissionAccessBucket))
  end.
End check_bucket.
