(* ===== verification/S3Store.v ===== *)
(** store/piecestore/storage/s3.go: the storage in an S3 bucket, against the class
    [S3API] of the calls it makes (the AWS SDK is not part of the repository); the class
    [S3Laws] states the documented behaviour of the service. *)
From Stdlib Require Import ZArith Lia String Ascii.
From stdpp Require Import base gmap list strings sorting fin_maps.
From S2P Require Import Prelude Strconv Checksum Storage.

Local Open Scope Z_scope.

(** An error of the SDK: its text and, for a failed request, the HTTP status. *)
Record aws_error := AwsError { aws_msg : string; aws_status : Z }.

Record s3_content := S3Content { s3_key : string; s3_size : Z; s3_modified : Z }.

(** The calls on one bucket.  [s3_GetObject] answers the body and the value of the
    metadata field Crc32c, if the object has it; [s3_DeleteObjects] the keys it deleted,
    if it answers at all, and an error. *)
Class S3API (S : Type) := {
  s3_CreateBucket : S -> S * option aws_error;
  s3_GetObject : S -> string -> result aws_error (reader * option string);
  s3_PutObject : S -> string -> bytes -> string -> S * option aws_error;
  s3_DeleteObject : S -> string -> S * option aws_error;
  s3_DeleteObjects : S -> list string -> S * (option (list string) * option aws_error);
  s3_HeadBucket : S -> option aws_error;
  s3_HeadObject : S -> string -> result aws_error (Z * Z);
  s3_ListObjects : S -> string -> string -> string -> Z ->
                   result aws_error (list s3_content * list string);
}.

Definition HasSuffix_slash (key : string) : bool :=
  match last (String.list_ascii_of_string key) with
  | Some c => bool_decide (c = "/"%char)
  | None => false
  end.

Definition backend (e : aws_error) : storage_error := ErrBackend (aws_msg e).

Module S3.
Section s3.
Context {S : Type} `{!S3API S}.
Implicit Types (s : S) (key : string).

Definition isErrExists (err : aws_error) : bool :=
  Contains (aws_msg err) "BucketAlreadyExists" || Contains (aws_msg err) "BucketAlreadyOwnedByYou".

Definition CreateBucket s : option (S * option storage_error) :=
  match s3_CreateBucket s with
  | (s, Some err) => Some (s, if isErrExists err then None else Some (backend err))
  | (s, None) => Some (s, None)
  end.

Definition GetObject s key (offset limit : Z) : option (result storage_error reader) :=
  match s3_GetObject s key with
  | Err e => Some (Err (backend e))
  | Ok (body, metadata) =>
    let cs := default ""%string metadata in
    if (offset >? 0) || (limit >? 0) then
      match verifiedRange body cs offset limit with
      | None => None
      | Some (Err e) => Some (Err (ErrChecksum e))
      | Some (Ok r) => Some (Ok r)
      end
    else
      match verifyChecksum body cs with
      | Err e => Some (Err (ErrChecksum e))
      | Ok body => Some (Ok body)
      end
  end.

(** The reader is a *bytes.Reader, or one that cannot seek and is read into one. *)
Definition PutObject (now : Z) s key (r : reader) : option (S * option storage_error) :=
  match ReadAll r with
  | Err e => Some (s, Some (ErrReader e))
  | Ok data =>
    let checksum := generateChecksum (BytesReader data) in
    let '(s, err) := s3_PutObject s key data checksum in
    Some (s, backend <$> err)
  end.

Definition DeleteObject s key : option (S * option storage_error) :=
  match s3_DeleteObject s key with
  | (s, Some err) => Some (s, if Contains (aws_msg err) "NoSuchKey" then None else Some (backend err))
  | (s, None) => Some (s, None)
  end.

Definition HeadBucket s : option (option storage_error) :=
  match s3_HeadBucket s with
  | Some err => Some (Some (if aws_status err =? 404 then ErrNoSuchBucket else backend err))
  | None => Some None
  end.

Definition HeadObject s key : option (result storage_error object) :=
  match s3_HeadObject s key with
  | Err err => Some (Err (if aws_status err =? 404 then ErrNotExist else backend err))
  | Ok (size, modTime) => Some (Ok (Object key size modTime (HasSuffix_slash key)))
  end.

(** The loop over [resp.Contents], with its check of every key. *)
Fixpoint list_contents (prefix marker : string) (l : list s3_content) : result storage_error (list object) :=
  match l with
  | [] => Ok []
  | o :: l =>
    if negb (String.prefix prefix (s3_key o)) || String.ltb (s3_key o) marker
    then Err (ErrInvalidListKey (s3_key o))
    else
      match list_contents prefix marker l with
      | Err e => Err e
      | Ok objs => Ok (Object (s3_key o) (s3_size o) (s3_modified o) (HasSuffix_slash (s3_key o)) :: objs)
      end
  end.

Definition ListObjects s (prefix marker delimiter : string) (limit : Z)
  : option (result storage_error (list object)) :=
  match s3_ListObjects s prefix marker delimiter limit with
  | Err e => Some (Err (backend e))
  | Ok (cs, commonPrefixes) =>
    match list_contents prefix marker cs with
    | Err e => Some (Err e)
    | Ok objs =>
      if negb (bool_decide (delimiter = ""%string))
      then Some (Ok (merge_sort Memory.key_le
             (objs ++ ((fun p => Object p 0 0 true) <$> commonPrefixes))))
      else Some (Ok objs)
    end
  end.

(** [size += objectKeySizeMap[deleted]] over the deleted keys. *)
Definition add_sizes (sizes : gmap string Z) (deleted : list string) (size : Z) : Z :=
  foldl (fun size k => uwrap 64 (size + default 0 (sizes !! k))) size deleted.

(** The loop of [DeleteObjectsByPrefix]: [ids] and [sizes] are not reset between pages. *)
Fixpoint delete_pages (fuel : nat) s key (ids : list string) (sizes : gmap string Z) (size : Z)
  : option (S * (Z * option storage_error)) :=
  match fuel with
  | O => None
  | Datatypes.S fuel =>
    match ListObjects s key ""%string ""%string batchSize with
    | None => None
    | Some (Err e) => Some (s, (size, Some e))
    | Some (Ok objs) =>
      if bool_decide (length objs = 0%nat) then Some (s, (0, None))
      else
        let continueDeleteObject := negb (Z.of_nat (length objs) <? batchSize) in
        let ids := ids ++ (okey <$> objs) in
        let sizes := foldl (fun m o => <[okey o := uwrap 64 (osize o)]> m) sizes objs in
        let '(s, (output, err)) := s3_DeleteObjects s ids in
        let size := match output with
                    | Some deleted => add_sizes sizes deleted size
                    | None => size
                    end in
        if continueDeleteObject then delete_pages fuel s key ids sizes size
        else Some (s, (size, None))
    end
  end.

Definition DeleteObjectsByPrefix (fuel : nat) s key : option (S * (Z * option storage_error)) :=
  delete_pages fuel s key [] ∅ 0.
End s3.
End S3.

Definition s3_storage {S} `{!S3API S} (fuel : nat) : ObjectStorage S := {|
  CreateBucket := S3.CreateBucket;
  GetObject := S3.GetObject;
  PutObject := S3.PutObject;
  DeleteObject := S3.DeleteObject;
  DeleteObjectsByPrefix := S3.DeleteObjectsByPrefix fuel;
  HeadBucket := S3.HeadBucket;
  HeadObject := S3.HeadObject;
  ListObjects := S3.ListObjects;
|}.

(** ** The service

    A bucket maps keys to an object and its metadata field.  A page lists the objects
    under a prefix, at most as many as asked for; a multi-object deletion takes at most
    1000 keys and answers the keys asked for, those without an object too. *)
Class S3Laws (S : Type) `{!S3API S} := {
  bucket : S -> gmap string (bytes * string);
  s3_get_law s key data cs : bucket s !! key = Some (data, cs) ->
    exists rd, s3_GetObject s key = Ok (rd, Some cs) /\ ending rd = EOF /\ delivered rd = data;
  s3_get_missing s key : bucket s !! key = None -> exists e, s3_GetObject s key = Err e;
  s3_put_law s key data cs : exists s', s3_PutObject s key data cs = (s', None) /\
    bucket s' = <[key := (data, cs)]> (bucket s);
  s3_delete_law s key : exists s', s3_DeleteObject s key = (s', None) /\
    bucket s' = delete key (bucket s);
  s3_delete_many s keys : (length keys <= 1000)%nat -> exists s',
    s3_DeleteObjects s keys = (s', (Some keys, None)) /\
    bucket s' = filter (fun kv => kv.1 ∉ keys) (bucket s);
  s3_delete_too_many s keys : (1000 < length keys)%nat -> exists out e s',
    s3_DeleteObjects s keys = (s', (out, Some e)) /\ default [] out = [] /\ bucket s' = bucket s;
  s3_list_law s prefix limit : 0 <= limit -> exists l,
    s3_ListObjects s prefix ""%string ""%string limit = Ok (l, []) /\
    NoDup (s3_key <$> l) /\
    (forall o, o ∈ l -> String.prefix prefix (s3_key o) = true /\
       exists v, bucket s !! s3_key o = Some v /\ s3_size o = len v.1) /\
    Z.of_nat (length l) = Z.min limit
      (Z.of_nat (size (filter (fun kv => String.prefix prefix kv.1 = true) (bucket s))));
}.
