(* ===== verification/S3Laws.v ===== *)
(** What the S3 storage does over a service with the documented behaviour: it is a
    storage in the sense of [StorageLaws], and what its deletion by prefix does for
    fewer and for more objects than a page holds. *)
From Stdlib Require Import ZArith Lia String Ascii.
From stdpp Require Import base gmap list strings sorting fin_maps.
From S2P Require Import Prelude Strconv Checksum Storage StorageLaws S3Store.

Local Open Scope Z_scope.

Section s3_laws.
Context {S : Type} `{SL : S3Laws S}.
Implicit Types (s : S) (key k : string).

(** Every object carries its own checksum: this storage wrote it. *)
Definition s3_written s : Prop :=
  forall k data cs, bucket s !! k = Some (data, cs) -> cs = generateChecksum (BytesReader data).

Lemma s3_get s key data offset limit :
  s3_written s -> fst <$> bucket s !! key = Some data ->
  is_int64 (len data) -> is_int64 limit ->
  0 <= offset < len data \/ (offset = 0 /\ limit <= 0) ->
  exists rd, S3.GetObject s key offset limit = Some (Ok rd) /\ ReadAll rd = Ok (range_of data offset limit).
Proof.
  intros Hw Hb Hl Hlim Ho. destruct (bucket s !! key) as [[d cs]|] eqn:E; [|done]. injection Hb as ->.
  pose proof (Hw _ _ _ E) as ->. destruct (s3_get_law s key _ _ E) as (rd & Hg & He & Hd).
  unfold S3.GetObject. rewrite Hg. cbn [default from_option id].
  destruct ((offset >? 0) || (limit >? 0)) eqn:Hr.
  - rewrite (verifiedRange_ok rd data) by (done || lia). eexists. split; [done|]. apply ReadAll_NewReader.
  - apply orb_false_iff in Hr as [Hr1 Hr2]. zbool. assert (offset = 0) as -> by lia.
    destruct (verify_generated rd data He Hd) as (vr & -> & Hvr). exists vr. split; [done|].
    by rewrite range_all.
Qed.

#[export] Program Instance s3_storage_laws fuel : @StorageLaws S (s3_storage fuel) := {|
  store_ok := s3_written;
  stored s k := fst <$> bucket s !! k;
|}.
Next Obligation.
  intros fuel now s key r data Hw Hk Hr. cbn. unfold S3.PutObject. rewrite Hr.
  destruct (s3_put_law s key data (generateChecksum (BytesReader data))) as (s' & -> & Hb).
  exists s'. split; [done|]. split.
  - intros k d cs. rewrite Hb. intros [[<- [= <- <-]]|[_ H]]%lookup_insert_Some; [done|by eapply Hw].
  - intros k. rewrite Hb. destruct (decide (k = key)) as [->|].
    + by rewrite lookup_insert_eq.
    + by rewrite lookup_insert_ne.
Qed.
Next Obligation.
  intros fuel s key data offset limit Hw _ Hs Hl Hlim Ho. cbn. by apply s3_get.
Qed.
Next Obligation.
  intros fuel s key offset limit Hw Hs. cbn. unfold S3.GetObject.
  destruct (s3_get_missing s key) as [e ->]; [|by eauto]. cbv beta in Hs. by apply fmap_None in Hs.
Qed.
Next Obligation.
  intros fuel s key Hw. cbn. unfold S3.DeleteObject. destruct (s3_delete_law s key) as (s' & -> & Hb).
  exists s'. split; [done|]. split.
  - intros k d cs. rewrite Hb. intros [_ H]%lookup_delete_Some. by eapply Hw.
  - intros k. rewrite Hb. destruct (decide (k = key)) as [->|].
    + by rewrite lookup_delete_eq.
    + by rewrite lookup_delete_ne.
Qed.

(** ** Deletion by prefix *)

Definition under key s : gmap string (bytes * string) :=
  filter (fun kv => String.prefix key kv.1 = true) (bucket s).

Lemma list_contents_ok prefix (l : list s3_content) :
  (forall o, o ∈ l -> String.prefix prefix (s3_key o) = true) ->
  S3.list_contents prefix ""%string l
  = Ok ((fun o => Object (s3_key o) (s3_size o) (s3_modified o) (HasSuffix_slash (s3_key o))) <$> l).
Proof.
  induction l as [|o l IH]; intros H; [done|]. cbn. rewrite (H o) by left.
  replace (String.ltb (s3_key o) "") with false by (by destruct (s3_key o)). cbn.
  rewrite IH; [done|]. intros o' Ho'. apply H. by right.
Qed.

(** A page of the storage. *)
Lemma s3_page s key :
  exists objs, S3.ListObjects s key ""%string ""%string batchSize = Some (Ok objs) /\
    NoDup (okey <$> objs) /\
    (forall o, o ∈ objs -> exists v, under key s !! okey o = Some v /\ osize o = len v.1) /\
    Z.of_nat (length objs) = Z.min batchSize (Z.of_nat (size (under key s))).
Proof.
  destruct (s3_list_law s key batchSize ltac:(done)) as (l & Hl & Hnd & Hin & Hlen).
  unfold S3.ListObjects. rewrite Hl, list_contents_ok by (intros; by apply Hin).
  rewrite bool_decide_true by done. cbn [negb]. eexists. split; [done|].
  rewrite <-list_fmap_compose, length_fmap. repeat split; [done| |done].
  intros ? (o & -> & Ho)%list_elem_of_fmap. destruct (Hin o Ho) as (Hp & v & Hb & Hs). exists v. cbn.
  split; [|done]. by apply map_lookup_filter_Some_2.
Qed.

(** Removing listed keys from a map. *)
Lemma size_without {V} (m : gmap string V) (ks : list string) :
  NoDup ks -> (forall k, k ∈ ks -> is_Some (m !! k)) ->
  (size (filter (fun kv => kv.1 ∉ ks) m) + length ks = size m)%nat.
Proof.
  revert m. induction ks as [|k ks IH]; intros m Hnd Hin.
  - rewrite map_filter_id; [cbn; lia|]. intros ? ? _. apply not_elem_of_nil.
  - apply NoDup_cons in Hnd as [Hk Hnd]. destruct (Hin k ltac:(left)) as [v Hv].
    assert (filter (fun kv : string * V => kv.1 ∉ k :: ks) m = filter (fun kv => kv.1 ∉ ks) (delete k m)) as ->.
    { apply map_eq. intros i. apply option_eq. intros x.
      rewrite !map_lookup_filter_Some, lookup_delete_Some, not_elem_of_cons. cbn. naive_solver. }
    specialize (IH (delete k m) Hnd). rewrite <-(insert_delete_id m k v) at 2 by done.
    rewrite map_size_insert_None by by rewrite lookup_delete_eq. rewrite <-IH; [cbn; lia|].
    intros k' Hk'. rewrite lookup_delete_ne; [apply Hin; by right|]. by intros ->.
Qed.

Lemma under_without s s' key (ks : list string) :
  bucket s' = filter (fun kv => kv.1 ∉ ks) (bucket s) ->
  under key s' = filter (fun kv => kv.1 ∉ ks) (under key s).
Proof.
  intros Hb. unfold under. rewrite Hb. apply map_eq. intros i. apply option_eq. intros x.
  rewrite !map_lookup_filter_Some. cbn. naive_solver.
Qed.

(** A first page: it is deleted as a whole. *)
Lemma s3_first_page s key objs :
  S3.ListObjects s key ""%string ""%string batchSize = Some (Ok objs) ->
  NoDup (okey <$> objs) -> (forall o, o ∈ objs -> is_Some (under key s !! okey o)) ->
  (length objs <= 1000)%nat ->
  exists s', s3_DeleteObjects s (okey <$> objs) = (s', (Some (okey <$> objs), None)) /\
    bucket s' = filter (fun kv => kv.1 ∉ okey <$> objs) (bucket s) /\
    (size (under key s') + length objs = size (under key s))%nat.
Proof.
  intros Hl Hnd Hin Hlen. destruct (s3_delete_many s (okey <$> objs)) as (s' & Hd & Hb); [by rewrite length_fmap|].
  exists s'. repeat split; [done..|]. rewrite (under_without s s' key _ Hb).
  rewrite <-(size_without (under key s) (okey <$> objs)); [by rewrite length_fmap|done|].
  intros k (o & -> & Ho)%list_elem_of_fmap. by apply Hin.
Qed.

(** Once more keys are collected than a deletion takes, nothing is deleted any more:
    with a full page left the loop never ends. *)
Lemma delete_pages_stuck fuel s key ids sizes sz :
  (1 <= length ids)%nat -> (1000 <= size (under key s))%nat ->
  S3.delete_pages fuel s key ids sizes sz = None.
Proof.
  revert s ids sizes sz. induction fuel as [|fuel IH]; intros s ids sizes sz Hi Hs; [done|].
  cbn [S3.delete_pages]. destruct (s3_page s key) as (objs & -> & _ & _ & Hlen). unfold batchSize in *.
  rewrite bool_decide_false by lia.
  destruct (s3_delete_too_many s (ids ++ (okey <$> objs))) as (out & e & s' & -> & _ & Hb).
  { rewrite length_app, length_fmap. lia. }
  destruct (Z.ltb_spec (Z.of_nat (length objs)) 1000); [lia|]. cbn [negb].
  apply IH; [rewrite length_app; lia|]. unfold under. by rewrite Hb.
Qed.

Lemma s3_stuck fuel s key :
  (2000 <= size (under key s))%nat -> S3.DeleteObjectsByPrefix fuel s key = None.
Proof.
  intros Hs. destruct fuel as [|fuel]; [done|]. unfold S3.DeleteObjectsByPrefix. cbn [S3.delete_pages].
  destruct (s3_page s key) as (objs & Hl & Hnd & Hin & Hlen). rewrite Hl. unfold batchSize in *.
  rewrite bool_decide_false by lia. cbn [app].
  destruct (s3_first_page s key objs) as (s' & Hd & Hb & Hsz); [done..| |lia|].
  { intros o Ho. destruct (Hin o Ho) as (v & -> & _). eauto. }
  rewrite Hd. destruct (Z.ltb_spec (Z.of_nat (length objs)) 1000); [lia|]. cbn [negb].
  apply delete_pages_stuck; [rewrite length_fmap|]; lia.
Qed.

(** The sizes of the deleted objects add up to those of the map. *)
Lemma add_sizes_total (v sizes : gmap string Z) (ks : list string) sz :
  NoDup ks -> (forall k, k ∈ ks <-> is_Some (v !! k)) ->
  (forall k n, v !! k = Some n -> sizes !! k = Some (uwrap 64 n)) -> 0 <= sz < 2 ^ 64 ->
  S3.add_sizes sizes ks sz = uwrap 64 (sz + total v).
Proof.
  unfold S3.add_sizes. revert v sz. induction ks as [|k ks IH]; intros v sz Hnd Hin Hs Hz; cbn [foldl].
  - assert (v = ∅) as ->.
    { apply map_eq. intros k. rewrite lookup_empty. apply eq_None_not_Some. rewrite <-Hin. apply not_elem_of_nil. }
    unfold total. rewrite map_fold_empty. unfold uwrap. rewrite Z.mod_small; lia.
  - apply NoDup_cons in Hnd as [Hk Hnd]. destruct (proj1 (Hin k) ltac:(left)) as [n Hn].
    rewrite (Hs _ _ Hn). cbn [default from_option id]. rewrite (total_delete _ _ _ Hn), uwrap_add_r.
    rewrite (IH (delete k v)); [|done| |..].
    + rewrite uwrap_add_l. f_equal. lia.
    + intros k'. destruct (decide (k' = k)) as [->|].
      * rewrite lookup_delete_eq. split; [done|by intros [? ?]].
      * rewrite lookup_delete_ne, <-Hin, elem_of_cons by done. naive_solver.
    + intros k' n' [_ H]%lookup_delete_Some. by apply Hs.
    + apply Z.mod_pos_bound. lia.
Qed.

Lemma sizes_of_page (objs : list object) (m : gmap string Z) k :
  NoDup (okey <$> objs) ->
  foldl (fun m o => <[okey o := uwrap 64 (osize o)]> m) m objs !! k =
    match list_find (fun o => okey o = k) objs with
    | Some (_, o) => Some (uwrap 64 (osize o))
    | None => m !! k
    end.
Proof.
  revert m. induction objs as [|o objs IH]; intros m; cbn [foldl list_find fmap list_fmap]; [done|].
  intros [Hno Hnd]%NoDup_cons. rewrite IH by done. destruct (decide (okey o = k)) as [<-|Hne].
  - destruct (list_find _ objs) as [ [i o']|] eqn:E; [|by rewrite lookup_insert_eq].
    apply list_find_Some in E as (E & Ek & _). exfalso. apply Hno. rewrite <-Ek.
    apply list_elem_of_fmap_2. by eapply list_elem_of_lookup_2.
  - rewrite lookup_insert_ne by done. by destruct (list_find _ objs) as [ [i o']|].
Qed.

(** Fewer objects than a page holds: all of them are deleted, and their size returned. *)
Lemma s3_one_page fuel s key :
  (size (under key s) < 1000)%nat -> (0 < fuel)%nat ->
  exists s', S3.DeleteObjectsByPrefix fuel s key
      = Some (s', (uwrap 64 (total ((fun v => len v.1) <$> under key s)), None)) /\
    bucket s' = filter (fun kv => String.prefix key kv.1 <> true) (bucket s).
Proof.
  intros Hs Hf. destruct fuel as [|fuel]; [lia|]. unfold S3.DeleteObjectsByPrefix. cbn [S3.delete_pages].
  destruct (s3_page s key) as (objs & Hl & Hnd & Hin & Hlen). rewrite Hl. unfold batchSize in *.
  case_bool_decide as Hnil.
  { assert (under key s = ∅) as He by (apply map_size_empty_inv; lia). exists s. rewrite He, fmap_empty.
    split; [done|]. symmetry. apply map_filter_id. intros k v Hk Hp.
    assert (under key s !! k = Some v) as HH by by apply map_lookup_filter_Some_2. by rewrite He in HH. }
  cbn [app]. destruct (s3_first_page s key objs) as (s' & Hd & Hb & Hsz); [done..| |lia|].
  { intros o Ho. destruct (Hin o Ho) as (v & -> & _). eauto. }
  assert (forall k, k ∈ okey <$> objs <-> is_Some (under key s !! k)) as Hall.
  { intros k. split.
    - intros (o & -> & Ho)%list_elem_of_fmap. destruct (Hin o Ho) as (v & -> & _). eauto.
    - intros [v Hv]. destruct (decide (k ∈ okey <$> objs)) as [|Hno]; [done|exfalso].
      assert (size (under key s') = 0)%nat as H0 by lia. apply map_size_empty_inv in H0.
      rewrite (under_without s s' key _ Hb) in H0.
      assert (filter (fun kv => kv.1 ∉ okey <$> objs) (under key s) !! k = Some v) as HH
        by by apply map_lookup_filter_Some_2. by rewrite H0 in HH. }
  rewrite Hd. destruct (Z.ltb_spec (Z.of_nat (length objs)) 1000); [|lia]. cbn [negb]. exists s'. split.
  - do 3 f_equal. rewrite (add_sizes_total ((fun v => len v.1) <$> under key s)); [done|done| |..|lia].
    + intros k. by rewrite Hall, lookup_fmap, fmap_is_Some.
    + intros k n. rewrite lookup_fmap. intros (v & Hv & ->)%fmap_Some. rewrite sizes_of_page by done.
      assert (k ∈ okey <$> objs) as (o & -> & Ho)%list_elem_of_fmap by (rewrite Hall; eauto).
      destruct (list_find _ objs) as [ [i o']|] eqn:E.
      * apply list_find_Some in E as (E & Ek & _). apply list_elem_of_lookup_2 in E.
        destruct (Hin o' E) as (v' & Hv' & ->). rewrite Ek, Hv in Hv'. by injection Hv' as ->.
      * apply list_find_None in E. rewrite Forall_forall in E. by destruct (E o Ho).
  - rewrite Hb. apply map_filter_ext. intros k v Hk. cbn. rewrite Hall. unfold under. split.
    + intros Hno Hp. apply Hno. exists v. by apply map_lookup_filter_Some_2.
    + intros Hp [v' [_ Hp']%map_lookup_filter_Some]. done.
Qed.
End s3_laws.

(** ** An S3 service in memory: the laws of the service can hold. *)

Module LocalS3.
Notation t := (gmap string (bytes * string)).

Definition page (s : t) (prefix marker : string) (limit : Z) : list s3_content :=
  take (Z.to_nat limit)
    ((fun '(k, v) => S3Content k (len v.1) 0) <$>
     filter (fun '(k, _) => String.prefix prefix k = true) (map_to_list s)).

#[global] Instance api : S3API t := {|
  s3_CreateBucket s := (s, None);
  s3_GetObject s k := match s !! k with
                      | Some (d, cs) => Ok (NewReader d, Some cs)
                      | None => Err (AwsError "NoSuchKey" 404)
                      end;
  s3_PutObject s k d cs := (<[k := (d, cs)]> s, None);
  s3_DeleteObject s k := (delete k s, None);
  s3_DeleteObjects s ks := if (length ks <=? 1000)%nat
                           then (filter (fun kv => kv.1 ∉ ks) s, (Some ks, None))
                           else (s, (Some [], Some (AwsError "MalformedXML" 400)));
  s3_HeadBucket s := None;
  s3_HeadObject s k := match s !! k with
                       | Some (d, _) => Ok (len d, 0)
                       | None => Err (AwsError "NotFound" 404)
                       end;
  s3_ListObjects s prefix marker _ limit := Ok (page s prefix marker limit, []);
|}.

#[global] Program Instance laws : S3Laws t := {| bucket s := s |}.
Next Obligation.
  intros s key data cs H. unfold s3_GetObject, api. cbv beta in H. rewrite H.
  eexists. repeat split. unfold delivered. cbn. by rewrite !app_nil_r.
Qed.
Next Obligation. intros s key H. unfold s3_GetObject, api. cbv beta in H. rewrite H. eauto. Qed.
Next Obligation. intros. cbn. eauto. Qed.
Next Obligation. intros. cbn. eauto. Qed.
Next Obligation.
  intros s keys Hl. cbn. destruct (Nat.leb_spec (length keys) 1000); [|lia]. eauto.
Qed.
Next Obligation.
  intros s keys Hl. cbn. destruct (Nat.leb_spec (length keys) 1000); [lia|].
  eexists _, _, _. by repeat split.
Qed.
Next Obligation.
  intros s prefix limit Hlim. cbn. eexists. split; [done|]. unfold page.
  set (P := fun '(k, _) => String.prefix prefix k = true).
  set (l := filter P (map_to_list s)).
  set (g := fun '(k, v) => S3Content k (len v.1) 0).
  assert (s3_key <$> (g <$> l) = l.*1) as Hk.
  { rewrite <-list_fmap_compose. apply list_fmap_ext. by intros ? [k v] _. }
  split; [|split].
  - rewrite fmap_take, Hk. eapply (NoDup_app _ (drop (Z.to_nat limit) l.*1)). rewrite take_drop.
    apply NoDup_fmap_fst; [|apply NoDup_filter, NoDup_map_to_list].
    intros k x y [_ Hx]%list_elem_of_filter [_ Hy]%list_elem_of_filter.
    apply elem_of_map_to_list in Hx, Hy. congruence.
  - intros o Ho. assert (o ∈ g <$> l) as ([k v] & -> & [HP Hin]%list_elem_of_filter)%list_elem_of_fmap.
    { rewrite <-(take_drop (Z.to_nat limit) (g <$> l)). apply elem_of_app. by left. }
    apply elem_of_map_to_list in Hin. cbn. eauto.
  - rewrite length_take, length_fmap.
    assert (length l = size (filter (fun kv : string * (bytes * string) => String.prefix prefix kv.1 = true) s)) as ->;
      [|lia].
    rewrite <-(length_map_to_list (filter _ _)). apply Permutation_length, NoDup_Permutation.
    + apply NoDup_filter, NoDup_map_to_list.
    + apply NoDup_map_to_list.
    + intros [k d]. unfold l. rewrite list_elem_of_filter, !elem_of_map_to_list, map_lookup_filter_Some. cbn. naive_solver.
Qed.
End LocalS3.
