(* ===== verification/StorageProps.v ===== *)
(** Properties of the piece store: what is put is read back, what S3 returns is verified,
    and what a deletion by prefix deletes. *)
From Stdlib Require Import ZArith Lia String Ascii.
From stdpp Require Import base gmap list strings pretty fin_maps.
From S2P Require Import Prelude Strconv Checksum Storage StorageLaws PieceStore S3Store S3Laws.

Local Open Scope Z_scope.

(** The deployed stack: the client over a sharded storage of S3 buckets. *)
Section s3_stack.
Context {S : Type} `{SL : S3Laws S} (fuel bound : nat).
Local Instance shard_storage : ObjectStorage S := s3_storage fuel.
Local Instance stack_storage : ObjectStorage (sharded S) := sharded_storage bound.

Local Instance stack_laws : PieceStoreLaws (StoreClient (sharded S)) :=
  client_laws (SL := sharded_laws (SL := s3_storage_laws fuel) bound).

(** The client's buckets are ours, and there are between one and 2^32 of them. *)
Definition s3_stack_ok (c : StoreClient (sharded S)) : Prop :=
  (0 < length (stores (client_ps c)))%nat /\ Z.of_nat (length (stores (client_ps c))) < 2 ^ 32 /\
  Forall s3_written (stores (client_ps c)).

(** The piece under a key: in the bucket its hash picks. *)
Definition s3_piece (c : StoreClient (sharded S)) (key : string) : option bytes :=
  match Shards.pick (client_ps c) key with Some b => fst <$> bucket b !! key | None => None end.

(** The piece client over sharded S3 buckets is a map: [PutPiece] succeeds, every
    ranged [GetPiece] of that key then returns exactly that range of the bytes put (its
    checksum verified on the way), [DeletePiece] removes it, and no other piece changes. *)
Theorem sharded_s3_put_get c now key data :
  s3_stack_ok c -> key <> ""%string -> is_int64 (len data) ->
  exists c', Client.PutPiece now c key data = Some (c', None) /\ s3_stack_ok c' /\
    (forall offset limit, is_int64 limit -> 0 <= offset < len data \/ (offset = 0 /\ limit <= 0) ->
       Client.GetPiece c' key offset limit = Some (Ok (range_of data offset limit))) /\
    (forall k, k <> key -> s3_piece c' k = s3_piece c k) /\
    exists c'', Client.DeletePiece c' key = Some (c'', None) /\ s3_stack_ok c'' /\
      s3_piece c'' key = None /\ forall k, k <> key -> s3_piece c'' k = s3_piece c k.
Proof.
  intros Hok Hk Hlen.
  destruct (put_piece_law (PieceStoreLaws := stack_laws) now c key data Hok Hk) as (c' & Hp & Hok' & Hs).
  exists c'. split; [exact Hp|]. split; [done|].
  assert (piece_at c' key = Some data) as Hdata by (rewrite Hs; by rewrite decide_True).
  split; [|split].
  - intros offset limit Hlim Ho. by apply (get_piece_law (PieceStoreLaws := stack_laws) c' key data).
  - intros k Hne. pose proof (Hs k) as H. by rewrite decide_False in H.
  - destruct (delete_piece_law (PieceStoreLaws := stack_laws) c' key data Hok' Hk Hdata Hlen)
      as (c'' & Hd & Hok'' & Hs'). exists c''. split; [exact Hd|]. split; [done|]. split.
    + pose proof (Hs' key) as H. by rewrite decide_True in H.
    + intros k Hne. pose proof (Hs' k) as H. rewrite decide_False in H by done.
      pose proof (Hs k) as H1. rewrite decide_False in H1 by done. exact (eq_trans H H1).
Qed.
End s3_stack.

Lemma sharded_s3_put_get_witness :
  exists c' : StoreClient (sharded (gmap string (bytes * string))),
    Client.PutPiece (ObjectStorage0 := sharded_storage (ObjectStorage0 := s3_storage 1) 1) 7
      (NewStoreClient "s3" (Sharded [∅; ∅])) "s1_s0" [Byte.x61; Byte.x62; Byte.x63] = Some (c', None) /\
    Client.GetPiece (ObjectStorage0 := sharded_storage (ObjectStorage0 := s3_storage 1) 1) c' "s1_s0" 1 1 = Some (Ok [Byte.x62]).
Proof.
  destruct (sharded_s3_put_get (S := gmap string (bytes * string)) 1 1
    (NewStoreClient "s3" (Sharded [∅; ∅])) 7 "s1_s0" [Byte.x61; Byte.x62; Byte.x63])
    as (c' & Hp & _ & Hg & _).
  - split; [cbn; lia|]. split; [done|]. repeat constructor; by intros ? ? ?.
  - done.
  - vm_compute. split; discriminate.
  - exists c'. split; [exact Hp|]. apply (Hg 1 1); [vm_compute; split; discriminate|left; vm_compute; split; congruence].
Defined.

(** Whatever the S3 service answers, bytes that [GetObject] delivers for an object with
    a checksum are the requested range of a body whose CRC-32C is that checksum: a body
    with another checksum is an error, for ranged and for whole reads. *)
Theorem s3_reads_verified {S} `{!S3API S} s key offset limit body sum r data :
  s3_GetObject s key = Ok (body, Some (pretty sum)) -> is_uint32 sum ->
  is_int64 (len (delivered body)) -> is_int64 limit ->
  0 <= offset -> S3.GetObject s key offset limit = Some (Ok r) -> ReadAll r = Ok data ->
  ending body = EOF /\ crc_update 0 (delivered body) = sum /\ data = range_of (delivered body) offset limit.
Proof.
  intros Hg Hsum Hl Hlim Hoff Hget Hr. unfold S3.GetObject in Hget. rewrite Hg in Hget.
  cbn [default from_option id] in Hget.
  assert (verifyChecksum body (pretty sum) = Ok (checksumReader body sum)) as Hv.
  { pose proof (ParseUint_pretty sum 32 ltac:(go_lia)) as Hp. unfold verifyChecksum.
    rewrite bool_decide_false by (intros E; by rewrite E in Hp). by rewrite Hp. }
  destruct ((offset >? 0) || (limit >? 0)) eqn:Hrange.
  - unfold verifiedRange in Hget. rewrite Hv, ReadAll_checksumReader in Hget.
    destruct (ending body); [|done..]. destruct (Z.eqb_spec (crc_update 0 (delivered body)) sum); [|done].
    destruct ((offset <? 0) || (offset >=? len (delivered body))) eqn:Ho; [done|].
    apply orb_false_iff in Ho as [_ Ho]. rewrite Z.geb_leb in Ho. zbool.
    rewrite slice_range in Hget by (done || lia). injection Hget as <-.
    rewrite ReadAll_NewReader in Hr. by injection Hr as <-.
  - rewrite Hv in Hget. injection Hget as <-. rewrite ReadAll_checksumReader in Hr.
    destruct (ending body); [|done..]. destruct (Z.eqb_spec (crc_update 0 (delivered body)) sum); [|done].
    injection Hr as <-. apply orb_false_iff in Hrange as [H1 H2]. zbool.
    assert (offset = 0) as -> by lia. by rewrite range_all.
Qed.

Lemma s3_reads_verified_witness :
  let s := {[ "s1_s0" := ([Byte.x31; Byte.x32; Byte.x33; Byte.x34; Byte.x35; Byte.x36; Byte.x37; Byte.x38; Byte.x39],
                            pretty 0xe3069283) ]} : gmap string (bytes * string) in
  crc_update 0 [Byte.x31; Byte.x32; Byte.x33; Byte.x34; Byte.x35; Byte.x36; Byte.x37; Byte.x38; Byte.x39]
    = 0xe3069283 /\
  S3.GetObject s "s1_s0" 2 3 = Some (Ok (NewReader [Byte.x33; Byte.x34; Byte.x35])).
Proof.
  intros s.
  pose (data := [Byte.x31; Byte.x32; Byte.x33; Byte.x34; Byte.x35; Byte.x36; Byte.x37; Byte.x38; Byte.x39]).
  assert (S3.GetObject s "s1_s0" 2 3 = Some (Ok (NewReader [Byte.x33; Byte.x34; Byte.x35]))) as Hget by reflexivity.
  destruct (s3_reads_verified s "s1_s0" 2 3 (NewReader data) 0xe3069283 (NewReader [Byte.x33; Byte.x34; Byte.x35]) [Byte.x33; Byte.x34; Byte.x35]) as (_ & H & _);
    [reflexivity|vm_compute; split; discriminate|vm_compute; split; discriminate|vm_compute; split; discriminate
    |lia|exact Hget|reflexivity|].
  split; [|exact Hget]. exact H.
Defined.

(** [DeleteObjectsByPrefix] of the memory storage always returns: its pages end.  It
    has then deleted exactly the objects under the prefix, and returns their bytes (modulo
    2^64) without an error. *)
Theorem memory_prefix_deletion m key :
  key <> ""%string ->
  exists sizes, Memory.DeleteObjectsByPrefix m key
    = Some (MemoryStore (mname m) (filter (fun kv => String.prefix key kv.1 <> true) (mobjects m)),
            (uwrap 64 (total sizes), None)) /\
    sizes = (fun o => len (mdata o)) <$> filter (fun kv => String.prefix key kv.1 = true) (mobjects m).
Proof. intros Hk. destruct (memory_delete_by_prefix m key Hk) as (m' & -> & ->). eauto. Qed.

Lemma memory_prefix_deletion_witness :
  exists m : memoryStore, size (mobjects m) = 1003%nat /\
    exists sizes, Memory.DeleteObjectsByPrefix m "s1_"
      = Some (MemoryStore (mname m) (filter (fun kv => String.prefix "s1_" kv.1 <> true) (mobjects m)),
              (uwrap 64 (total sizes), None)) /\ total sizes = 1001.
Proof.
  exists (MemoryStore "m" (list_to_map
    ((fun i : nat => ("s1_s" ++ pretty i, MemoryObject [Byte.x00] 0)%string) <$> seq 0 1001) ∪
    {[ "s2_s0" := MemoryObject [] 0; "s11_s0" := MemoryObject [] 0 ]})).
  split; [vm_compute; reflexivity|].
  destruct (memory_prefix_deletion (MemoryStore "m" (list_to_map
    ((fun i : nat => ("s1_s" ++ pretty i, MemoryObject [Byte.x00] 0)%string) <$> seq 0 1001) ∪
    {[ "s2_s0" := MemoryObject [] 0; "s11_s0" := MemoryObject [] 0 ]})) "s1_" ltac:(done)) as (sizes & Hd & ->).
  eexists. split; [exact Hd|]. vm_compute. reflexivity.
Defined.

(** A deletion by prefix on a sharded storage returns, and deletes exactly the objects
    under the prefix that lie in the one shard the prefix itself hashes to: the pages are
    listed from that shard only, so the other pieces of an object stay. *)
Theorem sharded_prefix_deletion {St} `{LL : ListLaws St} bound (s : sharded St) key :
  key <> ""%string -> shards_ok s -> placed s -> (size (prefix_view key s) < bound)%nat ->
  exists s', Shards.delete_by_prefix bound s key
      = Some (s', (uwrap 64 (total (prefix_view key s)), None)) /\
    forall k, sharded_stored s' k =
      if decide (String.prefix key k = true /\ Shards.pick_index s k = Shards.pick_index s key)
      then None else sharded_stored s k.
Proof.
  intros Hk Hok Hpl Hb. destruct (shard_delete_by_prefix bound s key Hk Hok Hpl Hb) as (s' & Hd & _ & Hs). eauto.
Qed.

(** Of the three segments of object 1 over two shards, two stay. *)
Lemma sharded_prefix_deletion_witness :
  exists s' : sharded memoryStore,
    Shards.delete_by_prefix 5
      (Sharded [MemoryStore "0" {[ "s1_s1" := MemoryObject [Byte.x02] 0 ]};
                MemoryStore "1" {[ "s1_s0" := MemoryObject [Byte.x01] 0; "s1_s2" := MemoryObject [Byte.x03] 0 ]} ])
      "s1_" = Some (s', (1, None)) /\
    sharded_stored s' "s1_s1" = None /\ sharded_stored s' "s1_s0" = Some [Byte.x01].
Proof.
  pose (s := Sharded [MemoryStore "0" {[ "s1_s1" := MemoryObject [Byte.x02] 0 ]};
                MemoryStore "1" {[ "s1_s0" := MemoryObject [Byte.x01] 0; "s1_s2" := MemoryObject [Byte.x03] 0 ]} ]).
  destruct (sharded_prefix_deletion 5 s "s1_") as (s' & Hd & Hs).
  - done.
  - split; [cbn; lia|]. split; [done|]. repeat constructor.
  - intros j o k Hj Hk. destruct j as [|[|j] ]; [| |by destruct j]; injection Hj as <-; destruct Hk as [d Hd];
      cbn in Hd; rewrite lookup_fmap in Hd; apply fmap_Some in Hd as (? & [Hd _]%map_lookup_filter_Some & _).
    + apply lookup_singleton_Some in Hd as [<- _]. reflexivity.
    + apply lookup_insert_Some in Hd as [ [<- _]|[_ Hd] ]; [reflexivity|].
      apply lookup_singleton_Some in Hd as [<- _]. reflexivity.
  - vm_compute. lia.
  - exists s'. split; [exact Hd|]. rewrite !Hs. split; reflexivity.
Defined.

(** C32: Over an S3 service that takes at most 1000 keys in one deletion, a deletion by
    prefix deletes everything under the prefix when that is less than a page, and never
    returns when it is two pages or more: the collected keys are not reset between pages,
    so from the second page on every deletion is refused. *)
Theorem s3_prefix_deletion {S} `{SL : S3Laws S} (s : S) key :
  ((size (under key s) < 1000)%nat ->
   exists s', S3.DeleteObjectsByPrefix 1 s key
      = Some (s', (uwrap 64 (total ((fun v => len v.1) <$> under key s)), None)) /\
     bucket s' = filter (fun kv => String.prefix key kv.1 <> true) (bucket s)) /\
  ((2000 <= size (under key s))%nat -> forall fuel, S3.DeleteObjectsByPrefix fuel s key = None).
Proof. split; [intros; apply s3_one_page; lia|intros; by apply s3_stuck]. Qed.

Lemma s3_prefix_deletion_witness :
  S3.DeleteObjectsByPrefix 1000
    (list_to_map ((fun i : nat => ("s1_s" ++ pretty i, ([Byte.x00], "0"))%string) <$> seq 0 2000)
      : gmap string (bytes * string)) "s1_" = None.
Proof.
  apply (s3_prefix_deletion (SL := LocalS3.laws)
    (list_to_map ((fun i : nat => ("s1_s" ++ pretty i, ([Byte.x00], "0"))%string) <$> seq 0 2000)
      : gmap string (bytes * string)) "s1_").
  apply Nat.leb_le. vm_compute. reflexivity.
Defined.
