(* ===== verification/Traffic.v ===== *)
(** Read quota and traffic accounting: store/sqldb/traffic.go and traffic_schema.go, with
    the month keys of store/sqldb/util.go.

    The traffic table has one row per bucket and month: what is left of the bucket's
    one-time free quota and of this month's free quota, and what was consumed of them
    and of the charged quota.  Sizes are uint64 and wrap where the code adds.  An
    UPDATE counts the rows it finds; queries without an ORDER BY get the order of the
    rows as the argument [scan]. *)
From Stdlib Require Import ZArith Lia Ascii.
From stdpp Require Import base gmap list strings sorting pretty.
From S2P Require Import Prelude Sql Strconv.

Local Open Scope Z_scope.

(** ** store/sqldb/util.go: the month keys, with the parts of Go's time package they use

    An instant is its number of nanoseconds since 1970; the local time zone is the
    argument [zone], the offset in seconds at a Unix time. *)

Definition digit_char (d : Z) : ascii := ascii_of_N (Z.to_N (48 + d)).

(** The last [w] decimal digits of [n], with leading zeros. *)
Fixpoint digits (w : nat) (n : Z) : string :=
  match w with
  | O => ""
  | S w => String (digit_char (n / 10 ^ Z.of_nat w mod 10)) (digits w n)
  end.

(** [appendInt] of the time package: at least [w] digits. *)
Definition appendInt (x : Z) (w : nat) : string :=
  (if x <? 0 then "-" else "") +:+
  (if Z.abs x <? 10 ^ Z.of_nat w then digits w (Z.abs x) else pretty (Z.abs x)).

(** The proleptic Gregorian date of a day number since 1970-01-01. *)
Definition civil (days : Z) : Z * Z * Z :=
  let z := days + 719468 in
  let era := z / 146097 in
  let doe := z mod 146097 in
  let yoe := (doe - doe / 1460 + doe / 36524 - doe / 146096) / 365 in
  let doy := doe - (365 * yoe + yoe / 4 - yoe / 100) in
  let mp := (5 * doy + 2) / 153 in
  let m := if mp <? 10 then mp + 3 else mp - 9 in
  (yoe + era * 400 + (if m <=? 2 then 1 else 0), m, doy - (153 * mp + 2) / 5 + 1).

Section zone.
Context (zone : Z -> Z).

Definition Unix (sec nsec : Z) : Z := sec * 1000000000 + nsec.

Definition TimestampUsToTime (ts : Z) : Z := Unix (Z.quot ts 1000000) (Z.rem ts 1000000 * 1000).

Definition date (t : Z) : Z * Z * Z :=
  let sec := t / 1000000000 in civil ((sec + zone sec) / 86400).

(** [t.Format("2006-01-02 15:04:05")[0:7]]; the time of day lies beyond the slice. *)
Definition TimeToYearMonth (t : Z) : string :=
  let '(y, m, d) := date t in
  String.substring 0 7 (appendInt y 4 +:+ "-" +:+ appendInt m 2 +:+ "-" +:+ appendInt d 2)%string.

Definition TimestampYearMonth (ts : Z) : string := TimeToYearMonth (TimestampUsToTime ts).
End zone.

(** [n] decimal digits at the front of a string, and the rest. *)
Fixpoint take_digits (n : nat) (s : string) (v : Z) : option (Z * string) :=
  match n, s with
  | O, _ => Some (v, s)
  | S n, String c s => match digit_val c with Some d => take_digits n s (v * 10 + d) | None => None end
  | S _, EmptyString => None
  end.

(** [time.Parse("2006-01", s)], which on an error returns the zero time, January of
    year 1.  The result is a year and a month. *)
Definition parse_year_month (s : string) : Z * Z :=
  match take_digits 4 s 0 with
  | Some (y, String c rest) =>
    match take_digits 2 rest 0 with
    | Some (m, EmptyString) => if bool_decide (c = "-"%char) && (1 <=? m) && (m <=? 12) then (y, m) else (1, 1)
    | _ => (1, 1)
    end
  | _ => (1, 1)
  end.

(** [AddDate(0, 1, 0)] on the first day of a month. *)
Definition add_month (ym : Z * Z) : Z * Z :=
  let '(y, m) := ym in if m =? 12 then (y + 1, 1) else (y, m + 1).

Definition IsNextMonth (firstYearMonth secondYearMonth : string) : bool :=
  bool_decide (parse_year_month firstYearMonth = add_month (parse_year_month secondYearMonth)).

(** ** Facts *)

(** The key of a month, as [TimeToYearMonth] writes it for the years 0 to 9999. *)
Definition month_key (ym : Z * Z) : string := (digits 4 ym.1 +:+ String "-" (digits 2 ym.2))%string.

Definition is_month (ym : Z * Z) : Prop := 0 <= ym.1 <= 9999 /\ 1 <= ym.2 <= 12.

Lemma civil_month days : 1 <= (civil days).1.2 <= 12.
Proof.
  unfold civil. cbv zeta. cbn [fst snd].
  pose proof (Z.mod_pos_bound (days + 719468) 146097 ltac:(lia)) as Hd.
  set (doe := (days + 719468) mod 146097) in *. clearbody doe.
  set (yoe := (doe - doe / 1460 + doe / 36524 - doe / 146096) / 365).
  assert (0 <= doe - (365 * yoe + yoe / 4 - yoe / 100) <= 366) as Hy.
  { unfold yoe. pose proof (Z.div_mod doe 1460). pose proof (Z.div_mod doe 36524). Z.to_euclidean_division_equations. lia. }
  set (doy := doe - (365 * yoe + yoe / 4 - yoe / 100)) in *. clearbody doy.
  destruct (_ <? 10) eqn:E; zbool; Z.to_euclidean_division_equations; lia.
Qed.

Lemma digit_val_digit_char d : 0 <= d < 10 -> digit_val (digit_char d) = Some d.
Proof. intros. assert (d = 0 \/ d = 1 \/ d = 2 \/ d = 3 \/ d = 4 \/ d = 5 \/ d = 6 \/ d = 7 \/ d = 8 \/ d = 9) as Hd by lia.
  destruct_or! Hd; subst; by vm_compute. Qed.

Lemma take_digits_digits w n v s :
  0 <= n -> take_digits w (digits w n +:+ s) v = Some (v * 10 ^ Z.of_nat w + n mod 10 ^ Z.of_nat w, s).
Proof.
  intros Hn. revert v. induction w as [|w IH]; intros v.
  { cbn. rewrite Z.mod_1_r. do 2 f_equal. lia. }
  cbn [digits]. rewrite string_app_cons. cbn [take_digits].
  rewrite digit_val_digit_char by (apply Z.mod_pos_bound; lia). rewrite IH. do 2 f_equal.
  rewrite Nat2Z.inj_succ, Z.pow_succ_r by lia.
  rewrite (Z.mul_comm 10 (10 ^ _)), Z.rem_mul_r by lia. lia.
Qed.

Lemma string_app_nil_r s : (s +:+ "")%string = s.
Proof. induction s as [|c s IH]; [done|]. by rewrite string_app_cons, IH. Qed.

Lemma take_digits_exact w n v : 0 <= n < 10 ^ Z.of_nat w -> take_digits w (digits w n) v = Some (v * 10 ^ Z.of_nat w + n, ""%string).
Proof.
  intros Hn. rewrite <-(string_app_nil_r (digits w n)), take_digits_digits, Z.mod_small by lia. done.
Qed.

Lemma parse_month_key ym : is_month ym -> parse_year_month (month_key ym) = ym.
Proof.
  destruct ym as [y m]. intros [Hy Hm]. unfold parse_year_month, month_key. cbn [fst snd] in *.
  rewrite take_digits_digits by lia. rewrite take_digits_exact by (cbn; lia).
  rewrite Z.mod_small by (cbn; lia). rewrite bool_decide_true by done. cbn [andb].
  rewrite !(proj2 (Z.leb_le _ _)) by lia. done.
Qed.

(** [IsNextMonth] decides, on the keys, that one month follows the other. *)
Lemma IsNextMonth_key ym ym' :
  is_month ym -> is_month ym' -> IsNextMonth (month_key ym) (month_key ym') = true <-> ym = add_month ym'.
Proof. intros. unfold IsNextMonth. rewrite !parse_month_key by done. by rewrite bool_decide_eq_true. Qed.

Lemma month_key_inj ym ym' : is_month ym -> is_month ym' -> month_key ym = month_key ym' -> ym = ym'.
Proof. intros H H' E. by rewrite <-(parse_month_key ym), E, parse_month_key. Qed.

(** The key that is written is the key of the date, for a four-digit year. *)
Lemma TimeToYearMonth_key zone t :
  0 <= (date zone t).1.1 <= 9999 -> TimeToYearMonth zone t = month_key ((date zone t).1.1, (date zone t).1.2).
Proof.
  unfold TimeToYearMonth. pose proof (civil_month ((t / 1000000000 + zone (t / 1000000000)) / 86400)) as Hm.
  fold (date zone t) in Hm. destruct (date zone t) as [[y m] d]. cbn [fst snd] in *. intros Hy.
  unfold appendInt at 1 2. rewrite !(proj2 (Z.ltb_ge _ 0)), !(proj2 (Z.ltb_lt _ _)), !Z.abs_eq by (cbn; lia).
  unfold month_key. cbn [fst snd]. by cbn.
Qed.

(** Keys are ordered as their months are: [ORDER BY month DESC] finds the newest. *)
Lemma digits_mod w n : digits w (n mod 10 ^ Z.of_nat w) = digits w n.
Proof.
  assert (forall k, (w <= k)%nat -> digits w (n mod 10 ^ Z.of_nat k) = digits w n) as H; [|by apply H].
  induction w as [|w IH]; intros k Hk; [done|]. cbn [digits]. rewrite IH by lia. f_equal. f_equal.
  replace (Z.of_nat k) with (Z.of_nat w + Z.of_nat (k - w)) by lia.
  rewrite Z.pow_add_r, Z.rem_mul_r by lia.
  rewrite Z.add_comm, Z.mul_comm, Z.div_add_l by lia.
  rewrite (Z.div_small (n mod _)) by (apply Z.mod_pos_bound; lia). rewrite Z.add_0_r.
  replace (Z.of_nat (k - w)) with (1 + Z.of_nat (k - w - 1)) by lia.
  rewrite Z.pow_add_r, Z.rem_mul_r by lia. change (10 ^ 1) with 10.
  rewrite Z.mul_comm, Z_mod_plus_full, Z.mod_mod by lia. done.
Qed.

Lemma digit_char_compare a b :
  0 <= a < 10 -> 0 <= b < 10 -> Ascii.compare (digit_char a) (digit_char b) = Z.compare a b.
Proof.
  intros. unfold Ascii.compare, digit_char. rewrite !N_ascii_embedding by lia.
  rewrite <-N2Z.inj_compare, !Z2N.id by lia. apply Z.add_compare_mono_l.
Qed.

Lemma digits_compare w a b s s' :
  0 <= a < 10 ^ Z.of_nat w -> 0 <= b < 10 ^ Z.of_nat w ->
  String.compare (digits w a +:+ s) (digits w b +:+ s') = match Z.compare a b with Eq => String.compare s s' | c => c end.
Proof.
  revert a b. induction w as [|w IH]; intros a b Ha Hb.
  { assert (a = 0) as -> by (cbn in *; lia). assert (b = 0) as -> by (cbn in *; lia). done. }
  rewrite Nat2Z.inj_succ, Z.pow_succ_r in Ha, Hb by lia. cbn [digits]. rewrite !string_app_cons. cbn [String.compare].
  set (p := 10 ^ Z.of_nat w) in *. assert (0 < p) by (unfold p; lia).
  rewrite !(Z.mod_small (_ / p)) by (split; [apply Z.div_pos; lia|apply Z.div_lt_upper_bound; lia]).
  rewrite digit_char_compare by (split; [apply Z.div_pos; lia|apply Z.div_lt_upper_bound; lia]).
  rewrite <-(digits_mod w a), <-(digits_mod w b), IH by (apply Z.mod_pos_bound; lia).
  fold p. pose proof (Z.div_mod a p). pose proof (Z.div_mod b p).
  pose proof (Z.mod_pos_bound a p). pose proof (Z.mod_pos_bound b p).
  destruct (Z.compare_spec (a / p) (b / p)) as [E|E|E].
  - destruct (Z.compare_spec a b), (Z.compare_spec (a mod p) (b mod p)); try done; exfalso; nia.
  - by rewrite (proj2 (Z.compare_lt_iff a b)) by nia.
  - by rewrite (proj2 (Z.compare_gt_iff a b)) by nia.
Qed.

Definition month_before (ym ym' : Z * Z) : Prop := ym.1 < ym'.1 \/ ym.1 = ym'.1 /\ ym.2 < ym'.2.

Lemma month_key_ltb ym ym' :
  is_month ym -> is_month ym' -> String.ltb (month_key ym) (month_key ym') = true <-> month_before ym ym'.
Proof.
  destruct ym as [y m], ym' as [y' m']. intros [Hy Hm] [Hy' Hm']. unfold month_key, month_before. cbn [fst snd] in *.
  unfold String.ltb. rewrite digits_compare by (cbn; lia). cbn [String.compare].
  change (Ascii.compare "-" "-") with Eq. cbn iota.
  rewrite <-(string_app_nil_r (digits 2 m)), <-(string_app_nil_r (digits 2 m')), digits_compare by (cbn; lia).
  destruct (Z.compare_spec y y') as [->| |], (Z.compare_spec m m') as [->| |]; cbn; split; try done; lia.
Qed.

(** ** The tables *)

Record BucketTrafficTable := mkTraffic {
  BucketID : Z;
  Month : string;
  BucketName : string;
  ReadConsumedSize : Z;
  FreeQuotaConsumedSize : Z;
  MonthlyFreeQuotaConsumedSize : Z;
  FreeQuotaSize : Z;
  ChargedQuotaSize : Z;
  MonthlyQuotaSize : Z;
  ModifiedTime : Z
}.

#[export] Instance BucketTrafficTable_eq_dec : EqDecision BucketTrafficTable.
Proof. solve_decision. Defined.

(** [corespdb.ReadRecord]; the table adds the auto-increment key. *)
Record ReadRecord := mkRead {
  rr_BucketID : Z;
  rr_ObjectID : Z;
  rr_UserAddress : string;
  rr_BucketName : string;
  rr_ObjectName : string;
  ReadSize : Z;
  ReadTimestampUs : Z
}.

Record ReadRecordTable := mkReadRow {
  ReadRecordID : Z;
  read_row : ReadRecord
}.

Record BucketQuota := mkQuota {
  q_ChargedQuotaSize : Z;
  q_FreeQuotaSize : Z;
  q_MonthlyFreeQuotaSize : Z
}.

(** [corespdb.BucketTraffic]. *)
Record BucketTraffic := mkBucketTraffic {
  bt_BucketID : Z;
  bt_YearMonth : string;
  bt_BucketName : string;
  bt_ReadConsumedSize : Z;
  bt_FreeQuotaSize : Z;
  bt_FreeQuotaConsumedSize : Z;
  bt_ChargedQuotaSize : Z;
  bt_MonthlyFreeQuotaSize : Z;
  bt_MonthlyFreeQuotaConsumedSize : Z;
  bt_ModifyTime : Z
}.

Record TrafficTimeRange := mkRange {
  StartTimestampUs : Z;
  EndTimestampUs : Z;
  LimitNum : Z
}.

(** The key is (bucket_id, month). *)
Record traffic_db := mkTrafficDB {
  traffics : gmap (Z * string) BucketTrafficTable;
  reads : list ReadRecordTable;
  next_read : Z
}.

Inductive traffic_error :=
| ErrCheckQuotaEnough
| ErrQueryTraffic (e : sql_error)
| ErrUpdateTraffic (e : sql_error)
| ErrRowsAffected
| ErrInvalidMonth
| ErrInsertRead
| ErrTrafficConn.

Definition set_traffics (m : gmap (Z * string) BucketTrafficTable) (db : traffic_db) : traffic_db :=
  mkTrafficDB m (reads db) (next_read db).

Definition txResult : Type := result traffic_error (traffic_db * unit).

(** [tx.Model(&row)]: the WHERE clause has the primary key columns of [row] that are
    not zero; with none of them the statement is refused. *)
Definition model_matches (id : Z) (month : string) (k : Z * string) : bool :=
  ((id =? 0) || (k.1 =? id)) && (bool_decide (month = ""%string) || bool_decide (k.2 = month)).

Definition model_update (row : BucketTrafficTable) (f : BucketTrafficTable -> BucketTrafficTable)
    (m : gmap (Z * string) BucketTrafficTable) : result sql_error (gmap (Z * string) BucketTrafficTable * Z) :=
  if (BucketID row =? 0) && bool_decide (Month row = ""%string) then Err ErrMissingWhereClause
  else Ok (map_imap (fun k r => Some (if model_matches (BucketID row) (Month row) k then f r else r)) m,
           Z.of_nat (size (filter (fun kr => model_matches (BucketID row) (Month row) kr.1) m))).

(** ** Consuming *)

(** Returns the consumed free, charged and monthly quota, the remaining free and monthly quota. *)
Definition getUpdatedConsumedQuotaV2 (recordQuotaCost freeQuotaRemain consumeFreeQuota consumeChargedQuota
    chargedQuota monthlyFreeQuotaRemain consumeMonthlyFreeQuota : Z) : result traffic_error (Z * Z * Z * Z * Z) :=
  let chargedQuotaRemain :=
    if chargedQuota >? consumeChargedQuota then uwrap 64 (chargedQuota - consumeChargedQuota) else 0 in
  if chargedQuotaRemain >=? recordQuotaCost then
    Ok (consumeFreeQuota, uwrap 64 (consumeChargedQuota + recordQuotaCost), consumeMonthlyFreeQuota,
        freeQuotaRemain, monthlyFreeQuotaRemain)
  else
    let '(consumeChargedQuota, recordQuotaCost) :=
      if chargedQuotaRemain >? 0 then
        (uwrap 64 (consumeChargedQuota + chargedQuotaRemain), uwrap 64 (recordQuotaCost - chargedQuotaRemain))
      else (consumeChargedQuota, recordQuotaCost) in
    if monthlyFreeQuotaRemain >=? recordQuotaCost then
      Ok (consumeFreeQuota, consumeChargedQuota, uwrap 64 (consumeMonthlyFreeQuota + recordQuotaCost),
          freeQuotaRemain, uwrap 64 (monthlyFreeQuotaRemain - recordQuotaCost))
    else
      let '(consumeMonthlyFreeQuota, recordQuotaCost, monthlyFreeQuotaRemain) :=
        if monthlyFreeQuotaRemain >? 0 then
          (uwrap 64 (consumeMonthlyFreeQuota + monthlyFreeQuotaRemain),
           uwrap 64 (recordQuotaCost - monthlyFreeQuotaRemain), 0)
        else (consumeMonthlyFreeQuota, recordQuotaCost, monthlyFreeQuotaRemain) in
      if freeQuotaRemain >=? recordQuotaCost then
        Ok (uwrap 64 (consumeFreeQuota + recordQuotaCost), consumeChargedQuota, consumeMonthlyFreeQuota,
            uwrap 64 (freeQuotaRemain - recordQuotaCost), monthlyFreeQuotaRemain)
      else Err ErrCheckQuotaEnough.

(** The struct update of the charged quota: a quota of zero is not written. *)
Definition set_charged (charged now : Z) (r : BucketTrafficTable) : BucketTrafficTable :=
  mkTraffic (BucketID r) (Month r) (BucketName r) (ReadConsumedSize r) (FreeQuotaConsumedSize r)
    (MonthlyFreeQuotaConsumedSize r) (FreeQuotaSize r) (nz (ChargedQuotaSize r) charged) (MonthlyQuotaSize r)
    (nz (ModifiedTime r) now).

(** The update with [Select]: all the listed columns are written. *)
Definition set_consumed (charged free monthly freeRemain monthlyRemain now : Z) (r : BucketTrafficTable) : BucketTrafficTable :=
  mkTraffic (BucketID r) (Month r) (BucketName r) charged free monthly freeRemain (ChargedQuotaSize r) monthlyRemain now.

Section zone.
Context (zone : Z -> Z).

Definition update_consumed_body (record : ReadRecord) (quota : BucketQuota) (now : Z) (db : traffic_db) : txResult :=
  let yearMonth := TimeToYearMonth zone (TimestampUsToTime (ReadTimestampUs record)) in
  match traffics db !! (rr_BucketID record, yearMonth) with
  | None => Err (ErrQueryTraffic ErrRecordNotFound)
  | Some bucketTraffic =>
    let charged :=
      if ChargedQuotaSize bucketTraffic =? q_ChargedQuotaSize quota then Ok (traffics db)
      else match model_update bucketTraffic (set_charged (q_ChargedQuotaSize quota) now) (traffics db) with
           | Err e => Err (ErrUpdateTraffic e)
           | Ok (m, affected) => if affected =? 1 then Ok m else Err ErrRowsAffected
           end in
    rbind charged (fun m =>
    rbind (getUpdatedConsumedQuotaV2 (ReadSize record) (FreeQuotaSize bucketTraffic) (FreeQuotaConsumedSize bucketTraffic)
             (ReadConsumedSize bucketTraffic) (q_ChargedQuotaSize quota) (MonthlyQuotaSize bucketTraffic)
             (MonthlyFreeQuotaConsumedSize bucketTraffic))
      (fun '(consumedFree, consumedCharged, consumedMonthly, remainedFree, remainedMonthly) =>
         match model_update bucketTraffic
                 (set_consumed consumedCharged consumedFree consumedMonthly remainedFree remainedMonthly now) m with
         | Err e => Err (ErrUpdateTraffic e)
         | Ok (m, _) => Ok (set_traffics m db, tt)
         end))
  end.

Definition updateConsumedQuota (f : fate) (record : ReadRecord) (quota : BucketQuota) (now : Z) :
    traffic_db -> traffic_db * result traffic_error unit :=
  transaction ErrTrafficConn f (update_consumed_body record quota now).

Definition add_read (record : ReadRecord) (db : traffic_db) : traffic_db :=
  mkTrafficDB (traffics db) (reads db ++ [mkReadRow (next_read db) record]) (next_read db + 1).

(** [f'] is the fate of the INSERT, which runs after the transaction. *)
Definition CheckQuotaAndAddReadRecord (f f' : fate) (record : ReadRecord) (quota : BucketQuota) (now : Z)
    (db : traffic_db) : traffic_db * result traffic_error unit :=
  match updateConsumedQuota f record quota now db with
  | (db, Err e) => (db, Err e)
  | (db, Ok _) => transaction ErrInsertRead f' (fun db => Ok (add_read record db, tt)) db
  end.

(** ** A new month *)

Definition rows_of (bucketID : Z) (m : gmap (Z * string) BucketTrafficTable) : list BucketTrafficTable :=
  snd <$> filter (fun kr => kr.1.1 = bucketID) (map_to_list m).

(** [Order("month DESC").Limit(1)]. *)
Definition newer (r r' : BucketTrafficTable) : BucketTrafficTable :=
  if String.ltb (Month r) (Month r') then r' else r.

Definition newest (l : list BucketTrafficTable) : option BucketTrafficTable :=
  match l with
  | [] => None
  | r :: l => Some (foldl newer r l)
  end.

Definition new_month (bucketID : Z) (yearMonth bucketName : string) (free : Z) (quota : BucketQuota) (now : Z) : BucketTrafficTable :=
  mkTraffic bucketID yearMonth bucketName 0 0 0 free (q_ChargedQuotaSize quota) (q_MonthlyFreeQuotaSize quota) now.

(** A duplicate key leaves the row that is there. *)
Definition init_body (record : ReadRecord) (quota : BucketQuota) (now : Z) (db : traffic_db) : txResult :=
  let bucketID := rr_BucketID record in
  let yearMonth := TimestampYearMonth zone (ReadTimestampUs record) in
  let free := match newest (rows_of bucketID (traffics db)) with
              | None => q_FreeQuotaSize quota
              | Some newestTraffic => FreeQuotaSize newestTraffic
              end in
  let row := new_month bucketID yearMonth (rr_BucketName record) free quota now in
  match traffics db !! (bucketID, yearMonth) with
  | Some _ => Ok (db, tt)
  | None => Ok (set_traffics (<[(bucketID, yearMonth) := row]> (traffics db)) db, tt)
  end.

Definition InitBucketTraffic (f : fate) (record : ReadRecord) (quota : BucketQuota) (now : Z) :
    traffic_db -> traffic_db * result traffic_error unit :=
  transaction ErrTrafficConn f (init_body record quota now).

(** ** Giving back *)

Definition zero_traffic : BucketTrafficTable := mkTraffic 0 "" "" 0 0 0 0 0 0 0.

(** The waterfall of [UpdateExtraQuota]: consumed charged, monthly and free quota,
    remaining monthly and free quota after [extra] is given back. *)
Definition refund (extra : Z) (r : BucketTrafficTable) : Z * Z * Z * Z * Z :=
  let '(charge, extra) :=
    if ReadConsumedSize r >=? extra then (uwrap 64 (ReadConsumedSize r - extra), 0)
    else if ReadConsumedSize r >? 0 then (0, uwrap 64 (extra - ReadConsumedSize r))
    else (ReadConsumedSize r, extra) in
  let '(monthly, monthlyRemain, extra) :=
    if (extra >? 0) && (MonthlyFreeQuotaConsumedSize r >=? extra) then
      (uwrap 64 (MonthlyFreeQuotaConsumedSize r - extra), uwrap 64 (MonthlyQuotaSize r + extra), 0)
    else if (extra >? 0) && (MonthlyFreeQuotaConsumedSize r >? 0) then
      (0, uwrap 64 (MonthlyQuotaSize r + MonthlyFreeQuotaConsumedSize r),
       uwrap 64 (extra - MonthlyFreeQuotaConsumedSize r))
    else (MonthlyFreeQuotaConsumedSize r, MonthlyQuotaSize r, extra) in
  let '(free, freeRemain) :=
    if (extra >? 0) && (FreeQuotaConsumedSize r >=? extra) then
      (uwrap 64 (FreeQuotaConsumedSize r - extra), uwrap 64 (FreeQuotaSize r + extra))
    else if (extra >? 0) && (FreeQuotaConsumedSize r >? 0) then
      (0, uwrap 64 (FreeQuotaSize r + FreeQuotaConsumedSize r))
    else (FreeQuotaConsumedSize r, FreeQuotaSize r) in
  (charge, monthly, free, monthlyRemain, freeRemain).

(** [Updates] without [Select]: a free quota of zero is not written. *)
Definition set_free (free now : Z) (r : BucketTrafficTable) : BucketTrafficTable :=
  mkTraffic (BucketID r) (Month r) (BucketName r) (ReadConsumedSize r) (FreeQuotaConsumedSize r)
    (MonthlyFreeQuotaConsumedSize r) (nz (FreeQuotaSize r) free) (ChargedQuotaSize r) (MonthlyQuotaSize r)
    (nz (ModifiedTime r) now).

(** [nowUs] is the clock in microseconds.  The row variable keeps its zero value when
    the new month has no row yet. *)
Definition extra_body (bucketID extraQuota : Z) (yearMonth : string) (nowUs : Z) (db : traffic_db) : txResult :=
  let yearMonthOfNow := TimestampYearMonth zone nowUs in
  let found :=
    if IsNextMonth yearMonthOfNow yearMonth then
      match traffics db !! (bucketID, yearMonthOfNow) with
      | None => Ok (zero_traffic, false)
      | Some r => Ok (r, true)
      end
    else if negb (bool_decide (yearMonthOfNow = yearMonth)) then Err ErrInvalidMonth
    else match traffics db !! (bucketID, yearMonth) with
         | None => Err (ErrQueryTraffic ErrRecordNotFound)
         | Some r => Ok (r, false)
         end in
  rbind found (fun '(bucketTraffic, extraUpdateOnNextMonth) =>
    let f :=
      if extraUpdateOnNextMonth : bool then set_free (uwrap 64 (FreeQuotaSize bucketTraffic + extraQuota)) nowUs
      else let '(charge, monthly, free, monthlyRemain, freeRemain) := refund extraQuota bucketTraffic in
           set_consumed charge free monthly freeRemain monthlyRemain nowUs in
    match model_update bucketTraffic f (traffics db) with
    | Err e => Err (ErrUpdateTraffic e)
    | Ok (m, _) => Ok (set_traffics m db, tt)
    end).

Definition UpdateExtraQuota (f : fate) (bucketID extraQuota : Z) (yearMonth : string) (nowUs : Z) :
    traffic_db -> traffic_db * result traffic_error unit :=
  transaction ErrTrafficConn f (extra_body bucketID extraQuota yearMonth nowUs).
End zone.

(** ** Migration, queries and garbage collection *)

(** The row of a migrated bucket: an existing row keeps the columns whose new value is zero. *)
Definition migrated_row (update : BucketTraffic) (now : Z) (old : option BucketTrafficTable) : BucketTrafficTable :=
  match old with
  | None => mkTraffic (bt_BucketID update) (bt_YearMonth update) (bt_BucketName update) (bt_ReadConsumedSize update)
              (bt_FreeQuotaConsumedSize update) 0 (bt_FreeQuotaSize update) (bt_ChargedQuotaSize update) 0 now
  | Some r => mkTraffic (nz (BucketID r) (bt_BucketID update)) (nz_str (Month r) (bt_YearMonth update))
                (nz_str (BucketName r) (bt_BucketName update)) (nz (ReadConsumedSize r) (bt_ReadConsumedSize update))
                (nz (FreeQuotaConsumedSize r) (bt_FreeQuotaConsumedSize update)) (MonthlyFreeQuotaConsumedSize r)
                (nz (FreeQuotaSize r) (bt_FreeQuotaSize update)) (nz (ChargedQuotaSize r) (bt_ChargedQuotaSize update))
                (MonthlyQuotaSize r) (nz (ModifiedTime r) now)
  end.

(** An UPDATE or INSERT that would meet another row with its key fails. *)
Definition migrate_body (bucketID : Z) (update : BucketTraffic) (now : Z) (db : traffic_db) : txResult :=
  let old := traffics db !! (bucketID, bt_YearMonth update) in
  let row := migrated_row update now old in
  let rest := delete (bucketID, bt_YearMonth update) (traffics db) in
  match rest !! (BucketID row, Month row) with
  | Some _ => Err (ErrUpdateTraffic ErrDuplicateEntry)
  | None => Ok (set_traffics (<[(BucketID row, Month row) := row]> rest) db, tt)
  end.

Definition UpdateBucketTraffic (f : fate) (bucketID : Z) (update : BucketTraffic) (now : Z) :
    traffic_db -> traffic_db * result traffic_error unit :=
  transaction ErrTrafficConn f (migrate_body bucketID update now).

Definition to_traffic (r : BucketTrafficTable) : BucketTraffic :=
  mkBucketTraffic (BucketID r) (Month r) (BucketName r) (ReadConsumedSize r) (FreeQuotaSize r)
    (FreeQuotaConsumedSize r) (ChargedQuotaSize r) (MonthlyQuotaSize r) (MonthlyFreeQuotaConsumedSize r)
    (ModifiedTime r / 1000000).

Definition GetBucketTraffic (bucketID : Z) (yearMonth : string) (db : traffic_db) : result sql_error BucketTraffic :=
  match traffics db !! (bucketID, yearMonth) with
  | None => Err ErrRecordNotFound
  | Some r => Ok (to_traffic r)
  end.

(** The latest traffic is returned without the monthly quota. *)
Definition GetLatestBucketTraffic (bucketID : Z) (db : traffic_db) : result sql_error BucketTraffic :=
  match newest (rows_of bucketID (traffics db)) with
  | None => Err ErrRecordNotFound
  | Some r => Ok (mkBucketTraffic (BucketID r) (Month r) (BucketName r) (ReadConsumedSize r) (FreeQuotaSize r)
                    (FreeQuotaConsumedSize r) (ChargedQuotaSize r) 0 0 (ModifiedTime r / 1000000))
  end.

Section scan.
Context (scan : forall A : Type, list A -> list A).

Definition month_rows (yearMonth : string) (db : traffic_db) : list BucketTrafficTable :=
  filter (fun r => Month r = yearMonth) (snd <$> map_to_list (traffics db)).

Definition ListBucketTraffic (yearMonth : string) (offset lim : Z) (db : traffic_db) : list BucketTraffic :=
  to_traffic <$> limit lim (drop (Z.to_nat offset) (scan _ (month_rows yearMonth db))).

Definition GetBucketTrafficCount (yearMonth : string) (db : traffic_db) : Z :=
  Z.of_nat (length (month_rows yearMonth db)).

Definition metaDeleteLimit : Z := 100.

Definition DeleteExpiredBucketTraffic (yearMonth : string) (db : traffic_db) : traffic_db :=
  let expired := filter (fun kr => String.ltb (Month kr.2) yearMonth) (map_to_list (traffics db)) in
  set_traffics (foldr (fun kr m => delete kr.1 m) (traffics db) (limit metaDeleteLimit (scan _ expired))) db.

Definition in_range (t : TrafficTimeRange) (r : ReadRecordTable) : bool :=
  (StartTimestampUs t <=? ReadTimestampUs (read_row r)) && (ReadTimestampUs (read_row r) <? EndTimestampUs t).

Definition GetReadRecord (t : TrafficTimeRange) (db : traffic_db) : list ReadRecord :=
  let l := scan _ (filter (fun r => in_range t r) (reads db)) in
  read_row <$> (if LimitNum t <=? 0 then l else limit (LimitNum t) l).

(** [Order("read_timestamp_us ASC")]; equal timestamps come in the order of [scan]. *)
Definition by_time (r r' : ReadRecordTable) : Prop := ReadTimestampUs (read_row r) <= ReadTimestampUs (read_row r').

#[local] Instance by_time_dec : RelDecision by_time.
Proof. intros r r'. unfold by_time. apply _. Defined.

Definition read_records (P : ReadRecord -> bool) (t : TrafficTimeRange) (db : traffic_db) : list ReadRecord :=
  let l := merge_sort by_time (scan _ (filter (fun r => in_range t r && P (read_row r)) (reads db))) in
  read_row <$> limit (if LimitNum t <=? 0 then 100 else LimitNum t) l.

Definition GetBucketReadRecord (bucketID : Z) : TrafficTimeRange -> traffic_db -> list ReadRecord :=
  read_records (fun r => rr_BucketID r =? bucketID).

Definition GetObjectReadRecord (objectID : Z) : TrafficTimeRange -> traffic_db -> list ReadRecord :=
  read_records (fun r => rr_ObjectID r =? objectID).

Definition GetUserReadRecord (userAddress : string) (t : TrafficTimeRange) (db : traffic_db) : list ReadRecord :=
  let l := scan _ (filter (fun r => in_range t r && bool_decide (rr_UserAddress (read_row r) = userAddress)) (reads db)) in
  read_row <$> (if LimitNum t <=? 0 then l else limit (LimitNum t) l).

(** The rows that are found are deleted by their ids. *)
Definition DeleteExpiredReadRecord (ts lim : Z) (db : traffic_db) : traffic_db :=
  let found := limit (swrap 64 lim) (scan _ (filter (fun r => ReadTimestampUs (read_row r) < ts) (reads db))) in
  let ids := ReadRecordID <$> found in
  mkTrafficDB (traffics db) (filter (fun r => ReadRecordID r ∉ ids) (reads db)) (next_read db).
End scan.
