(* ===== verification/TrafficProps.v ===== *)
(** Properties of the quota accounting: a read is charged exactly once, tier by tier
    and never beyond what is available; the one-time free quota is spent once over all
    months; a refund gives back what was consumed; the refund that the turn of a month
    loses. *)
From Stdlib Require Import ZArith Lia Ascii.
From stdpp Require Import base gmap list strings sorting.
From S2P Require Import Prelude Sql Strconv Traffic.

Local Open Scope Z_scope.

(** ** Rows and tables *)

(** The columns are uint64, and a tier never had more than the width of its columns. *)
Record row_ok (r : BucketTrafficTable) : Prop := {
  ok_charged : is_uint64 (ReadConsumedSize r);
  ok_monthly : 0 <= MonthlyQuotaSize r /\ 0 <= MonthlyFreeQuotaConsumedSize r /\
    MonthlyQuotaSize r + MonthlyFreeQuotaConsumedSize r <= MaxUint64;
  ok_free : 0 <= FreeQuotaSize r /\ 0 <= FreeQuotaConsumedSize r /\
    FreeQuotaSize r + FreeQuotaConsumedSize r <= MaxUint64
}.

(** Keys are the key columns of their rows, and no key column has its zero value. *)
Definition table_ok (m : gmap (Z * string) BucketTrafficTable) : Prop :=
  forall k r, m !! k = Some r -> k = (BucketID r, Month r) /\ BucketID r <> 0 /\ Month r <> ""%string /\ row_ok r.

(** What a read of this month can still be charged to, and the charge of [c]: charged
    quota first, then monthly, then free quota. *)
Definition charged_left (q : Z) (r : BucketTrafficTable) : Z := Z.max 0 (q - ReadConsumedSize r).
Definition available (q : Z) (r : BucketTrafficTable) : Z := charged_left q r + MonthlyQuotaSize r + FreeQuotaSize r.
Definition consumed (r : BucketTrafficTable) : Z :=
  ReadConsumedSize r + MonthlyFreeQuotaConsumedSize r + FreeQuotaConsumedSize r.

Definition from_charged (c q : Z) (r : BucketTrafficTable) : Z := Z.min c (charged_left q r).
Definition from_monthly (c q : Z) (r : BucketTrafficTable) : Z := Z.min (c - from_charged c q r) (MonthlyQuotaSize r).
Definition from_free (c q : Z) (r : BucketTrafficTable) : Z := c - from_charged c q r - from_monthly c q r.

Definition spend (c q now : Z) (r : BucketTrafficTable) : BucketTrafficTable :=
  mkTraffic (BucketID r) (Month r) (BucketName r)
    (ReadConsumedSize r + from_charged c q r) (FreeQuotaConsumedSize r + from_free c q r)
    (MonthlyFreeQuotaConsumedSize r + from_monthly c q r) (FreeQuotaSize r - from_free c q r)
    (nz (ChargedQuotaSize r) q) (MonthlyQuotaSize r - from_monthly c q r) now.

(** Splits on the comparisons of the code; the leaves are linear. *)
Ltac no_if a b := lazymatch constr:((a, b)) with context [if _ then _ else _] => fail | _ => idtac end.
Ltac quota_cases :=
  repeat match goal with
  | |- context [?a >=? ?b] => no_if a b; rewrite (Z.geb_leb a b)
  | |- context [?a >? ?b] => no_if a b; rewrite (Z.gtb_ltb a b)
  | |- context [?a <=? ?b] => no_if a b; destruct (Z.leb_spec a b); try (exfalso; go_lia)
  | |- context [?a <? ?b] => no_if a b; destruct (Z.ltb_spec a b); try (exfalso; go_lia)
  | _ => progress cbn [andb]
  end.
Ltac quota_leaf :=
  go_wrap; repeat match goal with |- Ok _ = Ok _ => f_equal | |- (_, _) = (_, _) => f_equal end; try done; go_lia.

Lemma quota_exact c q r :
  row_ok r -> is_uint64 c -> is_uint64 q ->
  getUpdatedConsumedQuotaV2 c (FreeQuotaSize r) (FreeQuotaConsumedSize r) (ReadConsumedSize r) q
    (MonthlyQuotaSize r) (MonthlyFreeQuotaConsumedSize r) =
  if c <=? available q r then
    Ok (FreeQuotaConsumedSize r + from_free c q r, ReadConsumedSize r + from_charged c q r,
        MonthlyFreeQuotaConsumedSize r + from_monthly c q r, FreeQuotaSize r - from_free c q r,
        MonthlyQuotaSize r - from_monthly c q r)
  else Err ErrCheckQuotaEnough.
Proof.
  intros [Hc Hm Hf] Hc' Hq.
  unfold getUpdatedConsumedQuotaV2, available, from_free, from_monthly, from_charged, charged_left.
  quota_cases; quota_leaf.
Qed.

Lemma refund_exact extra r :
  row_ok r -> is_uint64 extra ->
  let a := Z.min extra (ReadConsumedSize r) in
  let b := Z.min (extra - a) (MonthlyFreeQuotaConsumedSize r) in
  let d := Z.min (extra - a - b) (FreeQuotaConsumedSize r) in
  refund extra r = (ReadConsumedSize r - a, MonthlyFreeQuotaConsumedSize r - b, FreeQuotaConsumedSize r - d,
                    MonthlyQuotaSize r + b, FreeQuotaSize r + d).
Proof.
  intros [Hc Hm Hf] He. cbv zeta. unfold refund. quota_cases; quota_leaf.
Qed.

(** ** Updating the one row *)

Lemma TimeToYearMonth_nonempty zone t : TimeToYearMonth zone t <> ""%string.
Proof.
  unfold TimeToYearMonth. destruct (date zone t) as [[y m] d].
  destruct (appendInt y 4) as [|c s] eqn:E; [|done]. unfold appendInt in E.
  destruct (y <? 0); [done|]. rewrite string_app_nil in E.
  by destruct (Z.abs y <? _); [|destruct (Z.abs y)].
Qed.

Lemma model_update_row (m : gmap (Z * string) BucketTrafficTable) k r f :
  table_ok m -> m !! k = Some r -> model_update r f m = Ok (<[k := f r]> m, 1).
Proof.
  intros Hm Hk. destruct (Hm _ _ Hk) as (-> & Hid & Hmo & _). unfold model_update.
  rewrite (proj2 (Z.eqb_neq _ _)) by done. cbn [andb].
  assert (forall j, model_matches (BucketID r) (Month r) j = bool_decide (j = (BucketID r, Month r))) as Hj.
  { intros [i mo]. unfold model_matches. cbn [fst snd]. rewrite (proj2 (Z.eqb_neq _ _)) by done.
    rewrite (bool_decide_false (Month r = _)) by done. cbn [orb].
    destruct (Z.eqb_spec i (BucketID r)); repeat case_bool_decide; naive_solver. }
  do 2 f_equal.
  - apply map_eq. intros j. rewrite map_lookup_imap, Hj.
    destruct (decide (j = (BucketID r, Month r))) as [->|Hne].
    + by rewrite lookup_insert_eq, Hk, bool_decide_true by done.
    + rewrite lookup_insert_ne by done. rewrite bool_decide_false by done. by destruct (m !! j).
  - assert (filter (fun kr => model_matches (BucketID r) (Month r) kr.1) m = {[ (BucketID r, Month r) := r ]}) as ->;
      [|by rewrite map_size_singleton].
    apply map_eq. intros j. apply option_eq. intros r'. rewrite map_lookup_filter_Some, lookup_singleton_Some.
    cbn [fst]. rewrite Hj, bool_decide_spec. naive_solver.
Qed.

Lemma table_ok_insert m k r r' :
  table_ok m -> m !! k = Some r -> BucketID r' = BucketID r -> Month r' = Month r -> row_ok r' -> table_ok (<[k := r']> m).
Proof.
  intros Hm Hk Hi Hmo Hr j x. destruct (Hm _ _ Hk) as (-> & Hid & Hne & _).
  destruct (decide (j = (BucketID r, Month r))) as [->|Hj].
  - rewrite lookup_insert_eq. intros [= <-]. rewrite Hi, Hmo. naive_solver.
  - rewrite lookup_insert_ne by done. apply Hm.
Qed.

Lemma row_ok_set_charged q now r : row_ok r -> row_ok (set_charged q now r).
Proof. by intros [? ? ?]. Qed.

Lemma row_ok_spend c q now r : row_ok r -> 0 <= c <= available q r -> is_uint64 q -> row_ok (spend c q now r).
Proof.
  intros [Hc Hm Hf] Ha Hq. unfold available, spend, from_free, from_monthly, from_charged, charged_left in *.
  split; cbn; unfold charged_left, from_free, from_monthly, from_charged, charged_left in *; go_lia.
Qed.

(** The row after [extra] is given back. *)
Definition refunded (extra now : Z) (r : BucketTrafficTable) : BucketTrafficTable :=
  let '(charge, monthly, free, monthlyRemain, freeRemain) := refund extra r in
  set_consumed charge free monthly freeRemain monthlyRemain now r.

Lemma row_ok_refunded extra now r :
  row_ok r -> is_uint64 extra ->
  row_ok (refunded extra now r) /\ BucketID (refunded extra now r) = BucketID r /\ Month (refunded extra now r) = Month r /\
  FreeQuotaConsumedSize (refunded extra now r) + FreeQuotaSize (refunded extra now r) = FreeQuotaConsumedSize r + FreeQuotaSize r.
Proof.
  intros Hok He. unfold refunded. rewrite (refund_exact extra r Hok He). cbn. destruct Hok as [Hc Hm Hf].
  split_and!; [|done|done|lia]. split; cbn; go_lia.
Qed.

#[local] Opaque civil.

Lemma IsNextMonth_irrefl s : IsNextMonth s s = false.
Proof.
  unfold IsNextMonth. apply bool_decide_eq_false. destruct (parse_year_month s) as [y m]. cbn.
  destruct (Z.eqb_spec m 12); intros H; injection H; lia.
Qed.

Section zone.
Context (zone : Z -> Z).

Definition read_key (record : ReadRecord) : Z * string := (rr_BucketID record, TimestampYearMonth zone (ReadTimestampUs record)).

Lemma update_consumed_exact record quota now db r :
  table_ok (traffics db) -> traffics db !! read_key record = Some r ->
  is_uint64 (ReadSize record) -> is_uint64 (q_ChargedQuotaSize quota) ->
  update_consumed_body zone record quota now db =
  if ReadSize record <=? available (q_ChargedQuotaSize quota) r then
    Ok (set_traffics (<[read_key record := spend (ReadSize record) (q_ChargedQuotaSize quota) now r]> (traffics db)) db, tt)
  else Err ErrCheckQuotaEnough.
Proof.
  intros Ht Hr Hc Hq. destruct (Ht _ _ Hr) as (Hk & _ & _ & Hok). unfold update_consumed_body. cbv zeta.
  change (rr_BucketID record, TimeToYearMonth zone (TimestampUsToTime (ReadTimestampUs record))) with (read_key record).
  rewrite Hr, quota_exact by done.
  set (c := ReadSize record) in *. set (q := q_ChargedQuotaSize quota) in *.
  assert (exists m r1, (if ChargedQuotaSize r =? q then Ok (traffics db)
     else match model_update r (set_charged q now) (traffics db) with
          | Err e => Err (ErrUpdateTraffic e)
          | Ok (m, affected) => if affected =? 1 then Ok m else Err ErrRowsAffected end) = Ok m /\
     m = <[read_key record := r1]> (traffics db) /\ (r1 = r \/ r1 = set_charged q now r) /\
     ChargedQuotaSize r1 = nz (ChargedQuotaSize r) q) as (m & r1 & -> & -> & Hr1 & Hq1).
  { destruct (Z.eqb_spec (ChargedQuotaSize r) q) as [<-|].
    - exists (traffics db), r. rewrite insert_id by done. unfold nz. destruct (_ =? 0); auto.
    - rewrite (model_update_row _ _ _ _ Ht Hr). eexists _, _. cbn. eauto. }
  cbn [rbind]. destruct (c <=? available q r); [|done]. cbn [rbind].
  assert (BucketID r1 = BucketID r /\ Month r1 = Month r /\ BucketName r1 = BucketName r /\ row_ok r1) as (E1 & E2 & E3 & E4).
  { destruct Hr1 as [->| ->]; eauto using row_ok_set_charged. }
  assert (table_ok (<[read_key record := r1]> (traffics db))) as Ht1 by eauto using table_ok_insert.
  assert (forall f, model_update r f (<[read_key record := r1]> (traffics db)) = model_update r1 f (<[read_key record := r1]> (traffics db))) as ->.
  { intros f. unfold model_update. by rewrite E1, E2. }
  rewrite (model_update_row _ (read_key record) r1) by (done || apply lookup_insert_eq).
  rewrite insert_insert_eq. unfold set_consumed, spend. by rewrite E1, E2, E3, Hq1.
Qed.

(** ** What an operation does to the table *)

(** The table after a call on the row [k]: unchanged, charged, given back, or with the first
    row of a month, which takes over what the newest row has left of the free quota. *)
Inductive row_change (m : gmap (Z * string) BucketTrafficTable) (k : Z * string) (free : Z) :
    gmap (Z * string) BucketTrafficTable -> Prop :=
| change_none : row_change m k free m
| change_spend r c q now :
    m !! k = Some r -> is_uint64 c -> is_uint64 q -> c <= available q r -> row_change m k free (<[k := spend c q now r]> m)
| change_refund r extra now : m !! k = Some r -> is_uint64 extra -> row_change m k free (<[k := refunded extra now r]> m)
| change_init name quota now :
    m !! k = None -> is_uint64 (q_MonthlyFreeQuotaSize quota) ->
    row_change m k free (<[k := new_month k.1 k.2 name
      (match newest (rows_of k.1 m) with None => free | Some r => FreeQuotaSize r end) quota now]> m).

(** The first read of a month, a read, the deduction for a bucket migration, and a refund of
    the size of the record to its month. *)
Inductive quota_op :=
| OpInit (f : fate) (record : ReadRecord) (quota : BucketQuota) (now : Z)
| OpRead (f f' : fate) (record : ReadRecord) (quota : BucketQuota) (now : Z)
| OpDeduct (f : fate) (record : ReadRecord) (quota : BucketQuota) (now : Z)
| OpRecoup (f : fate) (record : ReadRecord) (nowUs : Z).

Definition op_record (op : quota_op) : ReadRecord :=
  match op with OpInit _ record _ _ | OpRead _ _ record _ _ | OpDeduct _ record _ _ | OpRecoup _ record _ => record end.
Definition op_quota (op : quota_op) : BucketQuota :=
  match op with OpInit _ _ quota _ | OpRead _ _ _ quota _ | OpDeduct _ _ quota _ => quota | OpRecoup _ _ _ => mkQuota 0 0 0 end.

Definition run_op (op : quota_op) (db : traffic_db) : traffic_db :=
  match op with
  | OpInit f record quota now => (InitBucketTraffic zone f record quota now db).1
  | OpRead f f' record quota now => (CheckQuotaAndAddReadRecord zone f f' record quota now db).1
  | OpDeduct f record quota now => (updateConsumedQuota zone f record quota now db).1
  | OpRecoup f record nowUs => (UpdateExtraQuota zone f (rr_BucketID record) (ReadSize record) (read_key record).2 nowUs db).1
  end.

(** The free quota that an operation may give to a bucket without rows. *)
Definition given_free (F : Z) (op : quota_op) : Z := match op with OpInit _ _ quota _ => q_FreeQuotaSize quota | _ => F end.

(** Numbers are uint64, and a refund does not come in the month after that of the read. *)
Record op_ok (op : quota_op) : Prop := {
  op_bucket : rr_BucketID (op_record op) <> 0;
  op_size : is_uint64 (ReadSize (op_record op));
  op_charged : is_uint64 (q_ChargedQuotaSize (op_quota op));
  op_monthly : is_uint64 (q_MonthlyFreeQuotaSize (op_quota op));
  op_free : is_uint64 (q_FreeQuotaSize (op_quota op));
  op_in_time : match op with
               | OpRecoup _ record nowUs => IsNextMonth (TimestampYearMonth zone nowUs) (read_key record).2 = false
               | _ => True
               end
}.

Lemma init_change record quota now db db' u :
  is_uint64 (q_MonthlyFreeQuotaSize quota) ->
  init_body zone record quota now db = Ok (db', u) ->
  row_change (traffics db) (read_key record) (q_FreeQuotaSize quota) (traffics db').
Proof.
  intros Hq. unfold init_body. cbv zeta. fold (read_key record).
  destruct (traffics db !! read_key record) eqn:E; intros [= <- _]; [constructor|]. by apply change_init.
Qed.

Lemma consumed_change record quota now db db' u free :
  table_ok (traffics db) -> is_uint64 (ReadSize record) -> is_uint64 (q_ChargedQuotaSize quota) ->
  update_consumed_body zone record quota now db = Ok (db', u) ->
  row_change (traffics db) (read_key record) free (traffics db').
Proof.
  intros Ht Hc Hq. destruct (traffics db !! read_key record) as [r|] eqn:E.
  - rewrite (update_consumed_exact _ _ _ _ r) by done. destruct (Z.leb_spec (ReadSize record) (available (q_ChargedQuotaSize quota) r)); [|done].
    intros [= <- _]. by apply change_spend.
  - unfold update_consumed_body. cbv zeta.
    change (rr_BucketID record, TimeToYearMonth zone (TimestampUsToTime (ReadTimestampUs record))) with (read_key record).
    by rewrite E.
Qed.

Lemma recoup_change record nowUs db db' u free :
  table_ok (traffics db) -> is_uint64 (ReadSize record) -> IsNextMonth (TimestampYearMonth zone nowUs) (read_key record).2 = false ->
  extra_body zone (rr_BucketID record) (ReadSize record) (read_key record).2 nowUs db = Ok (db', u) ->
  row_change (traffics db) (read_key record) free (traffics db').
Proof.
  intros Ht He Hn. unfold extra_body. cbv zeta. rewrite Hn. case_bool_decide; [|done]. cbn [negb].
  change (rr_BucketID record, (read_key record).2) with (read_key record).
  destruct (traffics db !! read_key record) as [r|] eqn:Hr; [|done]. cbn [rbind].
  rewrite (surjective_pairing (refund _ _)). destruct (refund (ReadSize record) r) as [ [ [ [a b] c] d] e] eqn:Hf.
  cbn [fst snd]. rewrite (model_update_row _ _ r) by done. intros [= <- _].
  cbn [traffics set_traffics].
  assert (set_consumed a c b e d nowUs r = refunded (ReadSize record) nowUs r) as -> by (unfold refunded; by rewrite Hf). by constructor.
Qed.

Lemma run_op_change F op db :
  table_ok (traffics db) -> op_ok op ->
  row_change (traffics db) (read_key (op_record op)) (given_free F op) (traffics (run_op op db)).
Proof.
  intros Ht [? ? ? ? ? Hin]. destruct op as [f record quota now|f f' record quota now|f record quota now|f record nowUs]; cbn in *.
  - unfold InitBucketTraffic. destruct (transaction_all_or_nothing ErrTrafficConn f (init_body zone record quota now) db)
      as [->|(db' & u & E & ->)]; [constructor|]. eauto using init_change.
  - unfold CheckQuotaAndAddReadRecord, updateConsumedQuota.
    pose proof (transaction_all_or_nothing ErrTrafficConn f (update_consumed_body zone record quota now) db) as Ht'.
    destruct (transaction _ f _ db) as [db1 [u|e]]; cbn in *.
    + assert (traffics (transaction ErrInsertRead f' (fun db2 => Ok (add_read record db2, tt)) db1).1 = traffics db1) as ->.
      { by destruct f'. }
      destruct Ht' as [->|(db' & u' & E & ->)]; [constructor|]. eauto using consumed_change.
    + destruct Ht' as [->|(db' & u' & E & ->)]; [constructor|]. eauto using consumed_change.
  - unfold updateConsumedQuota. destruct (transaction_all_or_nothing ErrTrafficConn f (update_consumed_body zone record quota now) db)
      as [->|(db' & u & E & ->)]; [constructor|]. eauto using consumed_change.
  - unfold UpdateExtraQuota. match goal with |- context [transaction ErrTrafficConn f ?body db] =>
      destruct (transaction_all_or_nothing ErrTrafficConn f body db) as [->|(db' & u & E & ->)]; [constructor|] end. by eapply recoup_change.
Qed.
End zone.

(** ** The newest row *)

Lemma ltb_false_le s t : String.ltb s t = false -> String.le t s.
Proof. unfold String.ltb, String.le, String.leb. rewrite (String.compare_antisym t s). by destruct (s ?= t)%string. Qed.

Lemma ltb_true_le s t : String.ltb s t = true -> String.le s t.
Proof. unfold String.ltb, String.le, String.leb. by destruct (s ?= t)%string. Qed.

Lemma newest_from l r : let x := foldl newer r l in (x = r \/ x ∈ l) /\ String.le (Month r) (Month x) /\ forall y, y ∈ l -> String.le (Month y) (Month x).
Proof.
  revert r. induction l as [|y l IH]; intros r; cbn.
  { split; [by left|]. split; [reflexivity|]. intros y Hy. by apply not_elem_of_nil in Hy. }
  destruct (IH (newer r y)) as (Hx & Hr & Hl).
  assert (String.le (Month r) (Month (newer r y)) /\ String.le (Month y) (Month (newer r y))) as [H1 H2].
  { unfold newer. destruct (String.ltb _ _) eqn:E; split; try reflexivity; auto using ltb_false_le, ltb_true_le. }
  split; [|split].
  - destruct Hx as [->|Hx]; [|right; by right]. unfold newer. destruct (String.ltb _ _); [right; left|by left].
  - by etrans.
  - intros z [->|Hz]%elem_of_cons; [by etrans|auto].
Qed.

Lemma elem_of_rows_of b m r : r ∈ rows_of b m <-> exists k, m !! k = Some r /\ k.1 = b.
Proof.
  unfold rows_of. rewrite list_elem_of_fmap. split.
  - intros ([k r'] & -> & [Hk Hin]%list_elem_of_filter). apply elem_of_map_to_list in Hin. eauto.
  - intros (k & Hk & <-). exists (k, r). split; [done|]. apply list_elem_of_filter. by rewrite elem_of_map_to_list.
Qed.

Lemma newest_none b m : newest (rows_of b m) = None -> forall k r, m !! k = Some r -> k.1 <> b.
Proof.
  intros E k r Hk Hb. destruct (rows_of b m) eqn:El; [|done].
  assert (r ∈ rows_of b m) as Hin by (apply elem_of_rows_of; eauto). rewrite El in Hin. by apply not_elem_of_nil in Hin.
Qed.

Lemma newest_some b m r :
  newest (rows_of b m) = Some r ->
  (exists k, m !! k = Some r /\ k.1 = b) /\ forall k r', m !! k = Some r' -> k.1 = b -> String.le (Month r') (Month r).
Proof.
  intros E. assert (r ∈ rows_of b m /\ forall r', r' ∈ rows_of b m -> String.le (Month r') (Month r)) as [Hin Hl].
  { destruct (rows_of b m) as [|y l]; [done|]. injection E as <-. destruct (newest_from l y) as (Hx & Hr & Hl). split.
    - destruct Hx as [->|?]; [left|by right].
    - intros z [->|Hz]%elem_of_cons; auto. }
  split; [by apply elem_of_rows_of|]. intros k r' Hk Hb. apply Hl, elem_of_rows_of. eauto.
Qed.

Lemma newest_is b m r :
  table_ok m -> m !! (b, Month r) = Some r -> (forall k r', m !! k = Some r' -> k.1 = b -> String.le (Month r') (Month r)) ->
  newest (rows_of b m) = Some r.
Proof.
  intros Ht Hr Hl. destruct (newest (rows_of b m)) as [x|] eqn:E.
  - apply newest_some in E as [(k & Hk & Hb) Hx]. destruct (Ht _ _ Hk) as (-> & _). cbn in Hb.
    assert (Month x = Month r) as Em. { apply (anti_symm String.le); eauto. }
    rewrite Em, Hb, Hr in Hk. naive_solver.
  - by destruct (newest_none _ _ E _ _ Hr).
Qed.

(** ** The free quota over the months *)

Definition free_consumed (b : Z) (m : gmap (Z * string) BucketTrafficTable) : Z :=
  map_fold (fun k r acc => (if k.1 =? b then FreeQuotaConsumedSize r else 0) + acc) 0 m.

Lemma free_consumed_fresh b m k r :
  m !! k = None -> free_consumed b (<[k := r]> m) = (if k.1 =? b then FreeQuotaConsumedSize r else 0) + free_consumed b m.
Proof. intros Hk. unfold free_consumed. rewrite map_fold_insert_L by (done || intros; lia). done. Qed.

Lemma free_consumed_update b m k r r' :
  m !! k = Some r ->
  free_consumed b (<[k := r']> m) =
  free_consumed b m + (if k.1 =? b then FreeQuotaConsumedSize r' - FreeQuotaConsumedSize r else 0).
Proof.
  intros Hk. rewrite <-(insert_delete_id m k r Hk) at 2. rewrite <-insert_delete_eq.
  rewrite !free_consumed_fresh by apply lookup_delete_eq. destruct (_ =? _); lia.
Qed.

(** What the newest row has left of the free quota [F]. *)
Definition free_left (b F : Z) (m : gmap (Z * string) BucketTrafficTable) : Z :=
  match newest (rows_of b m) with None => F | Some r => FreeQuotaSize r end.

Lemma newest_insert b m k r :
  table_ok (<[k := r]> m) -> k = (b, Month r) -> (forall k' r', m !! k' = Some r' -> k'.1 = b -> String.le (Month r') (Month r)) ->
  newest (rows_of b (<[k := r]> m)) = Some r.
Proof.
  intros Ht -> Hl. apply newest_is; [done|by rewrite lookup_insert_eq|].
  intros k' r'. destruct (decide (k' = (b, Month r))) as [->|Hne].
  - rewrite lookup_insert_eq. by intros [= <-].
  - rewrite lookup_insert_ne by done. apply Hl.
Qed.

Lemma newest_other b m k r :
  table_ok (<[k := r]> m) -> k.1 <> b -> newest (rows_of b (<[k := r]> m)) = newest (rows_of b m).
Proof.
  intros Ht Hk. destruct (newest (rows_of b m)) as [x|] eqn:E.
  - apply newest_some in E as [(j & Hj & Hb) Hl].
    assert (<[k := r]> m !! j = Some x) as Hj' by (rewrite lookup_insert_ne by congruence; done).
    destruct (Ht _ _ Hj') as (-> & _). cbn in Hb. apply newest_is; [done|by rewrite <-Hb|].
    intros j' x'. destruct (decide (j' = k)) as [->|]; [by intros _ ?|]. rewrite lookup_insert_ne by done. apply Hl.
  - destruct (newest (rows_of b (<[k := r]> m))) as [y|] eqn:E'; [|done].
    apply newest_some in E' as [(j & Hj & Hb) _]. rewrite lookup_insert_ne in Hj by congruence.
    by destruct (newest_none _ _ E _ _ Hj).
Qed.

Lemma table_ok_change m k free m' :
  row_change m k free m' -> table_ok m -> k.1 <> 0 -> k.2 <> ""%string -> is_uint64 free -> table_ok m'.
Proof.
  intros [|r c q now Hr Hc Hq Ha|r extra now Hr He|name quota now Hk Hq] Ht H1 H2 Hf; [done| | |].
  - eapply table_ok_insert; eauto. apply row_ok_spend; [|go_lia|done]. by destruct (Ht _ _ Hr) as (_ & _ & _ & ?).
  - destruct (Ht _ _ Hr) as (_ & _ & _ & Hok). destruct (row_ok_refunded extra now r Hok He) as (? & ? & ? & _). eapply table_ok_insert; eauto.
  - intros j x. destruct (decide (j = k)) as [->|].
    + rewrite lookup_insert_eq. intros [= <-]. destruct k as [b mo]. cbn in *. split; [done|]. do 2 (split; [done|]).
      assert (is_uint64 (match newest (rows_of b m) with None => free | Some r => FreeQuotaSize r end)).
      { destruct (newest (rows_of b m)) as [r|] eqn:E; [|done]. apply newest_some in E as [(j & Hj & _) _].
        destruct (Ht _ _ Hj) as (_ & _ & _ & [_ _ ?]). go_lia. }
      split; cbn; go_lia.
    + rewrite lookup_insert_ne by done. apply Ht.
Qed.

(** One operation keeps what is consumed and what is left of the free quota at [F]. *)
Lemma free_quota_change b F m k free m' :
  row_change m k free m' -> table_ok m -> k.1 <> 0 -> k.2 <> ""%string -> is_uint64 free ->
  (k.1 = b -> free = F) -> (forall j r, m !! j = Some r -> j.1 = b -> k.1 = b -> String.le (Month r) k.2) ->
  free_consumed b m + free_left b F m = F -> free_consumed b m' + free_left b F m' = F.
Proof.
  intros Hch Ht H1 H2 Hf HF Hl Hsum. pose proof (table_ok_change _ _ _ _ Hch Ht H1 H2 Hf) as Ht'.
  assert (forall r r', m !! k = Some r -> BucketID r' = BucketID r -> Month r' = Month r -> table_ok (<[k := r']> m) ->
    FreeQuotaConsumedSize r' + FreeQuotaSize r' = FreeQuotaConsumedSize r + FreeQuotaSize r ->
    free_consumed b (<[k := r']> m) + free_left b F (<[k := r']> m) = F) as Hupdate.
  { clear Hch Ht'. intros r r' Hr Hid Hmo Ht' Heq. unfold free_left in *. rewrite (free_consumed_update _ _ _ r) by done.
    destruct (Z.eqb_spec k.1 b) as [Hb|Hb]; [|rewrite newest_other by done; lia].
    destruct (Ht _ _ Hr) as (Hkr & _). assert (k = (b, Month r)) as -> by (rewrite Hkr in Hb; cbn in Hb; congruence).
    assert (forall j x, m !! j = Some x -> j.1 = b -> String.le (Month x) (Month r)) as Hlr by eauto.
    rewrite (newest_is b m r) in Hsum by done. rewrite (newest_insert b _ _ r') by (done || by rewrite Hmo). lia. }
  destruct Hch as [|r c q now Hr Hc Hq Ha|r extra now Hr He|name quota now Hk Hq]; [done|..].
  - apply (Hupdate r); try done. cbn. lia.
  - destruct (Ht _ _ Hr) as (_ & _ & _ & Hok). destruct (row_ok_refunded extra now r Hok He) as (_ & ? & ? & ?). by apply (Hupdate r).
  - unfold free_left in *. rewrite free_consumed_fresh by done. destruct (Z.eqb_spec k.1 b) as [Hb|Hb].
    + rewrite (newest_insert b) by (done || destruct k; cbn in *; subst; eauto).
      cbn [new_month FreeQuotaSize FreeQuotaConsumedSize]. rewrite Hb. destruct (newest (rows_of b m)); [lia|]. rewrite HF by done. lia.
    + rewrite newest_other by done. lia.
Qed.

Section runs.
Context (zone : Z -> Z).

Definition op_month (op : quota_op) : string := (read_key zone (op_record op)).2.
Definition on_bucket (b : Z) (op : quota_op) : Prop := rr_BucketID (op_record op) = b.

#[local] Instance on_bucket_dec b op : Decision (on_bucket b op).
Proof. unfold on_bucket. apply _. Defined.

Definition months_of (b : Z) (ops : list quota_op) : list string := op_month <$> filter (on_bucket b) ops.

Lemma month_change m k free m' b mo :
  row_change m k free m' -> table_ok m' ->
  (forall j r, m !! j = Some r -> j.1 = b -> String.le (Month r) mo) -> (k.1 = b -> String.le k.2 mo) ->
  forall j r, m' !! j = Some r -> j.1 = b -> String.le (Month r) mo.
Proof.
  intros Hch Ht Hm Hk j x Hj Hb. destruct (decide (j = k)) as [->|Hne].
  - destruct (Ht _ _ Hj) as (E & _). rewrite E in Hk, Hb. auto.
  - destruct Hch; [eauto|..]; rewrite lookup_insert_ne in Hj by done; eauto.
Qed.

(** C30: Over all months together a bucket never reads more for free than the free quota [F] it
    was given once: whatever calls and connections fail, what its rows have consumed of it
    and what the newest row has left of it add up to [F].  The runs are of first reads of a
    month, reads, deductions for migrations and refunds, on any buckets; the chain gives the
    bucket the same quota at every first read, the months of its operations do not go back,
    and a refund does not come in the month after that of the read (it then becomes free
    quota of the new month).  Rows are neither deleted nor copied from another provider. *)
Theorem free_quota_spent_once b F ops db :
  table_ok (traffics db) -> (forall k r, traffics db !! k = Some r -> k.1 <> b) -> is_uint64 F ->
  Forall (op_ok zone) ops -> Forall (fun op => on_bucket b op -> given_free F op = F) ops ->
  StronglySorted String.le (months_of b ops) ->
  let m := traffics (foldl (fun db op => run_op zone op db) db ops) in
  free_consumed b m + free_left b F m = F.
Proof.
  intros Ht Hnone HF64 Hok HF Hs. cbn zeta.
  assert (free_consumed b (traffics db) + free_left b F (traffics db) = F) as Hsum.
  { unfold free_left. destruct (newest (rows_of b (traffics db))) as [r|] eqn:E.
    { apply newest_some in E as [(k & Hk & Hb) _]. by destruct (Hnone _ _ Hk). }
    clear -Hnone. induction (traffics db) as [|k r m Hk IH] using map_ind; [done|].
    rewrite free_consumed_fresh by done. rewrite (proj2 (Z.eqb_neq _ _)) by (eapply Hnone, lookup_insert_eq).
    apply IH. intros j x Hj. apply (Hnone j x). by rewrite lookup_insert_ne by congruence. }
  assert (forall mo, mo ∈ months_of b ops -> forall j r, traffics db !! j = Some r -> j.1 = b -> String.le (Month r) mo) as Hmo by naive_solver.
  clear Hnone. revert db Ht Hsum Hmo. induction ops as [|op ops IH]; intros db Ht Hsum Hmo; [done|]. cbn [foldl].
  apply Forall_cons in Hok as [Hop Hok]. apply Forall_cons in HF as [HFop HF].
  pose proof (run_op_change zone F op db Ht Hop) as Hch.
  assert (is_uint64 (given_free F op)) as Hg by (destruct Hop, op; done).
  assert (table_ok (traffics (run_op zone op db))) as Ht'.
  { eapply table_ok_change; eauto; [by destruct Hop|apply TimeToYearMonth_nonempty]. }
  assert (on_bucket b op -> op_month op ∈ months_of b (op :: ops) /\ StronglySorted String.le (months_of b ops) /\
    forall mo, mo ∈ months_of b ops -> String.le (op_month op) mo) as Hhead.
  { intros Hb. revert Hs. unfold months_of. rewrite filter_cons_True by done. cbn. intros [? Hfa]%StronglySorted_inv.
    split; [left|]. split; [done|]. by apply Forall_forall. }
  apply IH; [done|done| |done| |].
  - destruct (decide (on_bucket b op)); [by apply Hhead|]. revert Hs. unfold months_of. by rewrite filter_cons_False by done.
  - eapply free_quota_change; eauto; [by destruct Hop|apply TimeToYearMonth_nonempty|].
    intros j r Hj Hb Hb'. apply (Hmo (op_month op)) with (j := j); [by apply Hhead|done|done].
  - intros mo Hin. eapply month_change; eauto.
    + apply Hmo. unfold months_of. rewrite filter_cons. destruct (decide _); [by right|done].
    + intros Hb. by apply Hhead.
Qed.

(** A read is served exactly when the quota that is left covers it; then it is
    charged in full, to the charged, the monthly and the free quota in this order, its
    record is added and no other row changes; when it is refused nothing changes. *)
Theorem read_charged_exactly record quota now db r :
  table_ok (traffics db) -> traffics db !! read_key zone record = Some r ->
  is_uint64 (ReadSize record) -> is_uint64 (q_ChargedQuotaSize quota) ->
  CheckQuotaAndAddReadRecord zone Committed Committed record quota now db =
  if ReadSize record <=? available (q_ChargedQuotaSize quota) r then
    (mkTrafficDB (<[read_key zone record := spend (ReadSize record) (q_ChargedQuotaSize quota) now r]> (traffics db))
       (reads db ++ [mkReadRow (next_read db) record]) (next_read db + 1), Ok tt)
  else (db, Err ErrCheckQuotaEnough).
Proof.
  intros Ht Hr Hc Hq. unfold CheckQuotaAndAddReadRecord, updateConsumedQuota, transaction at 1.
  rewrite (update_consumed_exact zone _ _ _ _ r) by done. by destruct (_ <=? _).
Qed.

(** [UpdateExtraQuota] within the month. *)
Lemma recoup_same_month b extra ym nowUs db r :
  table_ok (traffics db) -> traffics db !! (b, ym) = Some r -> TimestampYearMonth zone nowUs = ym -> is_uint64 extra ->
  exists r', UpdateExtraQuota zone Committed b extra ym nowUs db = (set_traffics (<[(b, ym) := r']> (traffics db)) db, Ok tt) /\
    consumed r' = consumed r - Z.min extra (consumed r) /\
    forall q, ReadConsumedSize r <= q -> available q r' = available q r + Z.min extra (consumed r).
Proof.
  intros Ht Hr Hm He. destruct (Ht _ _ Hr) as (_ & _ & _ & Hok).
  unfold UpdateExtraQuota, transaction, extra_body. cbv zeta. rewrite Hm, IsNextMonth_irrefl, bool_decide_true by done.
  cbn [negb]. rewrite Hr. cbn [rbind]. rewrite (refund_exact extra r Hok He). rewrite (model_update_row _ _ r) by done.
  eexists. split; [reflexivity|]. destruct Hok as [? ? ?]. unfold available, charged_left, consumed. cbn. split; [go_lia|]. intros q Hq. go_lia.
Qed.

(** What a bucket migration deducts and then gives back within the month leaves the
    bucket as much consumed and as much available as before, in one row. *)
Theorem deduct_recoup_roundtrip record quota now nowUs db r :
  table_ok (traffics db) -> traffics db !! read_key zone record = Some r ->
  is_uint64 (ReadSize record) -> is_uint64 (q_ChargedQuotaSize quota) ->
  ReadConsumedSize r <= q_ChargedQuotaSize quota -> ReadSize record <= available (q_ChargedQuotaSize quota) r ->
  TimestampYearMonth zone nowUs = (read_key zone record).2 ->
  let '(db1, res1) := updateConsumedQuota zone Committed record quota now db in
  let '(db2, res2) := UpdateExtraQuota zone Committed (rr_BucketID record) (ReadSize record) (read_key zone record).2 nowUs db1 in
  res1 = Ok tt /\ res2 = Ok tt /\
  exists r', db2 = set_traffics (<[read_key zone record := r']> (traffics db)) db /\
    consumed r' = consumed r /\ available (q_ChargedQuotaSize quota) r' = available (q_ChargedQuotaSize quota) r.
Proof.
  intros Ht Hr Hc Hq Hcq Ha Hm. destruct (Ht _ _ Hr) as (_ & _ & _ & Hok).
  unfold updateConsumedQuota, transaction. rewrite (update_consumed_exact zone _ _ _ _ r) by done.
  rewrite (proj2 (Z.leb_le _ _)) by done.
  set (r1 := spend (ReadSize record) (q_ChargedQuotaSize quota) now r).
  set (db1 := set_traffics (<[read_key zone record := r1]> (traffics db)) db).
  assert (row_ok r1) as Hok1 by (apply row_ok_spend; [done|go_lia|done]).
  destruct (recoup_same_month (rr_BucketID record) (ReadSize record) (read_key zone record).2 nowUs db1 r1) as (r' & -> & H1 & H2); try done.
  - eapply table_ok_insert; eauto.
  - unfold db1. cbn [traffics set_traffics]. apply lookup_insert_eq.
  - split; [done|]. split; [done|]. exists r'. split; [|split].
    + unfold db1, set_traffics. cbn [traffics reads next_read]. f_equal. apply (insert_insert_eq (traffics db) (read_key zone record)).
    + rewrite H1. destruct Hok. unfold r1, consumed, spend, from_free. cbn. unfold from_monthly, from_charged, charged_left in *. go_lia.
    + rewrite H2.
      * destruct Hok. unfold r1, available, consumed, spend, from_free in *. unfold charged_left at 1. cbn.
        unfold from_monthly, from_charged, charged_left in *. go_lia.
      * unfold r1, spend, from_charged, charged_left. cbn. go_lia.
Qed.

(** The turn of a month loses a refund: when the new month has no row yet, the call
    fails and the old row keeps what is to be given back. *)
Theorem recoup_lost_at_month_start b extra ym nowUs db :
  IsNextMonth (TimestampYearMonth zone nowUs) ym = true -> traffics db !! (b, TimestampYearMonth zone nowUs) = None ->
  UpdateExtraQuota zone Committed b extra ym nowUs db = (db, Err (ErrUpdateTraffic ErrMissingWhereClause)).
Proof.
  intros Hn Hk. unfold UpdateExtraQuota, transaction, extra_body. cbv zeta. rewrite Hn, Hk. cbn [rbind].
  by destruct (refund extra zero_traffic) as [[[[? ?] ?] ?] ?].
Qed.
End runs.

(** ** Concrete runs: bucket 7 reads on 2023-09-01 and 2023-10-01, UTC. *)

Definition utc (_ : Z) : Z := 0.
Definition toy_read (size ts : Z) : ReadRecord := mkRead 7 1 "0xu" "bkt" "obj" size ts.
Definition toy_quota : BucketQuota := mkQuota 50 100 30.
Definition sep : Z := 1693526400000000.
Definition oct : Z := 1696118400000000.
Definition no_rows : traffic_db := mkTrafficDB ∅ [] 1.
Definition toy_row : BucketTrafficTable := mkTraffic 7 "2023-09" "bkt" 10 5 3 95 50 27 1.
Definition one_row : traffic_db := mkTrafficDB {[ (7, "2023-09"%string) := toy_row ]} [] 1.

Lemma toy_table_ok : table_ok (traffics one_row).
Proof. intros k r. cbn [one_row traffics]. intros [<- <-]%lookup_singleton_Some. split; [done|]. split; [done|]. split; [done|]. split; cbn; go_lia. Qed.

Lemma free_quota_spent_once_witness :
  let ops := [OpInit Committed (toy_read 70 sep) toy_quota 1; OpRead Committed Committed (toy_read 110 sep) toy_quota 2;
              OpInit UnknownLost (toy_read 60 oct) toy_quota 3; OpInit Committed (toy_read 60 oct) toy_quota 3;
              OpRead Committed FailedBefore (toy_read 90 oct) toy_quota 4; OpRecoup Committed (toy_read 85 oct) (oct + 5)] in
  let m := traffics (foldl (fun db op => run_op utc op db) no_rows ops) in
  free_consumed 7 m + free_left 7 100 m = 100 /\ free_consumed 7 m = 35.
Proof.
  cbv zeta. split; [|vm_compute; reflexivity].
  apply (free_quota_spent_once utc 7 100).
  - intros k r Hk. cbn in Hk. by rewrite lookup_empty in Hk.
  - intros k r Hk. cbn in Hk. by rewrite lookup_empty in Hk.
  - go_lia.
  - repeat (apply Forall_cons_2; [split; first [exact I|vm_compute; reflexivity|cbn; go_lia]|]). apply Forall_nil_2.
  - repeat (apply Forall_cons_2; [intros _; reflexivity|]). apply Forall_nil_2.
  - change (months_of utc 7 _) with ["2023-09"; "2023-09"; "2023-10"; "2023-10"; "2023-10"; "2023-10"]%string.
    repeat constructor.
Defined.

Lemma read_charged_exactly_witness :
  (CheckQuotaAndAddReadRecord utc Committed Committed (toy_read 80 sep) toy_quota 9 one_row).2 = Ok tt /\
  (CheckQuotaAndAddReadRecord utc Committed Committed (toy_read 163 sep) toy_quota 9 one_row) = (one_row, Err ErrCheckQuotaEnough).
Proof.
  split.
  - rewrite (read_charged_exactly utc _ _ _ _ toy_row); [vm_compute; reflexivity|exact toy_table_ok|vm_compute; reflexivity|cbn; go_lia|cbn; go_lia].
  - rewrite (read_charged_exactly utc _ _ _ _ toy_row); [vm_compute; reflexivity|exact toy_table_ok|vm_compute; reflexivity|cbn; go_lia|cbn; go_lia].
Defined.

Lemma deduct_recoup_roundtrip_witness :
  let '(db1, _) := updateConsumedQuota utc Committed (toy_read 80 sep) toy_quota 9 one_row in
  let '(db2, _) := UpdateExtraQuota utc Committed 7 80 "2023-09" (sep + 5) db1 in
  exists r, traffics db2 !! (7, "2023-09"%string) = Some r /\ consumed r = 18 /\ available 50 r = 162.
Proof.
  pose proof (deduct_recoup_roundtrip utc (toy_read 80 sep) toy_quota 9 (sep + 5) one_row toy_row toy_table_ok
    ltac:(vm_compute; reflexivity) ltac:(cbn; go_lia) ltac:(cbn; go_lia) ltac:(cbn; lia) ltac:(vm_compute; discriminate)
    ltac:(vm_compute; reflexivity)) as H.
  destruct (updateConsumedQuota utc Committed (toy_read 80 sep) toy_quota 9 one_row) as [db1 res1].
  change (read_key utc (toy_read 80 sep)).2 with "2023-09"%string in H.
  change (rr_BucketID (toy_read 80 sep)) with 7 in H. change (ReadSize (toy_read 80 sep)) with 80 in H.
  destruct (UpdateExtraQuota utc Committed 7 80 "2023-09" (sep + 5) db1) as [db2 res2].
  destruct H as (_ & _ & r & -> & Hc & Ha). exists r. split; [apply lookup_insert_eq|]. split; [exact Hc|exact Ha].
Defined.

(** 18 consumed units of September cannot be given back on the first of October. *)
Example recoup_lost_example :
  UpdateExtraQuota utc Committed 7 18 "2023-09" oct one_row = (one_row, Err (ErrUpdateTraffic ErrMissingWhereClause)).
Proof. apply recoup_lost_at_month_start; vm_compute; reflexivity. Qed.
