(* ===== verification/PieceOp.v ===== *)
(** Piece keys and piece sizes: base/gfsppieceop/piece_op.go.  An object's payload
    is cut into segments; each segment is stored whole by the primary SP and, under
    erasure coding, as pieces by the secondary SPs.  The keys name the pieces in the
    piece store.  [None] is a panic (an index or slice out of range). *)
From Stdlib Require Import ZArith Lia Ascii.
From stdpp Require Import base list strings pretty.
From S2P Require Import Prelude Strconv.

Local Open Scope Z_scope.
Local Open Scope go_scope.

Definition SegmentPieceKey (objectID segmentIdx version : Z) : string :=
  if version =? 0 then "s" +:+ pretty objectID +:+ "_s" +:+ pretty segmentIdx
  else "s" +:+ pretty objectID +:+ "_s" +:+ pretty segmentIdx +:+ "_v" +:+ pretty version.

Definition ECPieceKey (objectID segmentIdx redundancyIdx version : Z) : string :=
  if version =? 0 then
    "e" +:+ pretty objectID +:+ "_s" +:+ pretty segmentIdx +:+ "_p" +:+ pretty redundancyIdx
  else
    "e" +:+ pretty objectID +:+ "_s" +:+ pretty segmentIdx +:+ "_p" +:+ pretty redundancyIdx +:+
    "_v" +:+ pretty version.

Definition ChallengePieceKey (objectID segmentIdx redundancyIdx version : Z) : string :=
  if redundancyIdx <? 0 then SegmentPieceKey objectID segmentIdx version
  else ECPieceKey objectID segmentIdx (uwrap 32 redundancyIdx) version.

Definition MaxSegmentPieceSize (payloadSize maxSegmentSize : Z) : Z :=
  if payloadSize >? maxSegmentSize then swrap 64 maxSegmentSize else swrap 64 payloadSize.

Definition SegmentPieceCount (payloadSize maxSegmentSize : Z) : Z :=
  if maxSegmentSize =? 0 then 1
  else
    let count := payloadSize / maxSegmentSize in
    let count := if payloadSize mod maxSegmentSize >? 0 then uwrap 64 (count + 1) else count in
    uwrap 32 count.

Definition SegmentPieceSize (payloadSize segmentIdx maxSegmentSize : Z) : Z :=
  let segmentCount := SegmentPieceCount payloadSize maxSegmentSize in
  if segmentCount =? 1 then swrap 64 payloadSize
  else if segmentIdx =? uwrap 32 (segmentCount - 1) then
    swrap 64 payloadSize -' (segmentCount -' 1) *' swrap 64 maxSegmentSize
  else swrap 64 maxSegmentSize.

(** Panics when [dataChunkNum] is zero. *)
Definition ECPieceSize (payloadSize segmentIdx maxSegmentSize dataChunkNum : Z) : option Z :=
  let segmentSize := SegmentPieceSize payloadSize segmentIdx maxSegmentSize in
  if dataChunkNum =? 0 then None
  else
    let size := segmentSize /' dataChunkNum in
    Some (if (segmentSize >? 0) && negb (Z.rem segmentSize dataChunkNum =? 0) then size +' 1 else size).

Inductive piece_error := ErrInvalidKey | ErrParse (e : num_error).

(** [s[n:]]; panics past the end. *)
Definition slice_from (s : string) (n : nat) : option string :=
  if bool_decide (n <= String.length s)%nat then Some (String.substring n (String.length s - n) s) else None.

(** [strconv.ParseUint(part[1:], 10, 32)] and [strconv.ParseInt(part[1:], 10, 32)]. *)
Definition parse_idx (parse : string -> Z -> result num_error Z) (part : string) :
    option (result piece_error Z) :=
  r ← slice_from part 1;
  Some (match parse r 32 with Ok n => Ok n | Err e => Err (ErrParse e) end).

Definition ParseSegmentIdx (segmentKey : string) : option (result piece_error Z) :=
  let keyParts := Split segmentKey "_" in
  if negb (bool_decide (length keyParts = 2%nat)) && negb (bool_decide (length keyParts = 3%nat))
  then Some (Err ErrInvalidKey)
  else part ← keyParts !! 1%nat; parse_idx ParseUint part.

Definition ParseECPieceKeyIdx (ecPieceKey : string) : option (result piece_error (Z * Z)) :=
  let keyParts := Split ecPieceKey "_" in
  if negb (bool_decide (length keyParts = 3%nat)) && negb (bool_decide (length keyParts = 4%nat))
  then Some (Err ErrInvalidKey)
  else
    part ← keyParts !! 1%nat;
    segmentIdx ← parse_idx ParseUint part;
    match segmentIdx with
    | Err e => Some (Err e)
    | Ok segmentIdx =>
      part ← keyParts !! 2%nat;
      redundancyIndex ← parse_idx ParseInt part;
      match redundancyIndex with
      | Err e => Some (Err e)
      | Ok redundancyIndex => Some (Ok (segmentIdx, redundancyIndex))
      end
    end.

Definition ParseChallengeIdx (challengeKey : string) : option (result piece_error (Z * Z)) :=
  part ← Split challengeKey "_" !! 0%nat;
  match part with
  | EmptyString => None
  | String c _ =>
    if bool_decide (c = "e"%char) then ParseECPieceKeyIdx challengeKey
    else if bool_decide (c = "s"%char) then
      segmentIdx ← ParseSegmentIdx challengeKey;
      match segmentIdx with
      | Err e => Some (Err e)
      | Ok segmentIdx => Some (Ok (segmentIdx, -1))
      end
    else Some (Err ErrInvalidKey)
  end.

(** ** Proofs *)

(** The parts of a key, and the numbers in them. *)
Lemma part_no_sep c (n : Z) : c <> "_"%char -> no_char "_" (String c (pretty n)).
Proof.
  intros Hc. cbn. apply andb_True. split; [by rewrite bool_decide_false|]. by apply pretty_no_char.
Qed.

Lemma slice_from_1 c r : slice_from (String c r) 1 = Some r.
Proof.
  unfold slice_from. rewrite bool_decide_true by (cbn; lia). f_equal. cbn. rewrite Nat.sub_0_r.
  induction r as [|x r IH]; cbn; [done|]. by rewrite IH.
Qed.

Lemma parse_idx_uint c n : 0 <= n <= MaxUint32 -> parse_idx ParseUint (String c (pretty n)) = Some (Ok n).
Proof.
  intros. unfold parse_idx. rewrite slice_from_1. cbn [mbind option_bind].
  rewrite ParseUint_pretty by go_lia. done.
Qed.

Lemma parse_idx_int c n : is_int32 n -> parse_idx ParseInt (String c (pretty n)) = Some (Ok n).
Proof.
  intros. unfold parse_idx. rewrite slice_from_1. cbn [mbind option_bind].
  rewrite ParseInt_pretty by go_lia. done.
Qed.

(** One step of [Split] on a part "c<n>" followed by a separator. *)
Lemma Split_part c (n : Z) r :
  c <> "_"%char -> Split (String c "" +:+ pretty n +:+ String "_" r) "_" = String c (pretty n) :: Split r "_".
Proof. intros Hc. apply (Split_app (String c (pretty n)) r). by apply part_no_sep. Qed.

Lemma Split_last_part c (n : Z) :
  c <> "_"%char -> Split (String c "" +:+ pretty n) "_" = [String c (pretty n)].
Proof. intros Hc. apply (Split_no_sep (String c (pretty n))). by apply part_no_sep. Qed.

Ltac split_part c n r :=
  refine (eq_trans (Split_part c n r ltac:(done)) _); f_equal.

Lemma Split_SegmentPieceKey o s v :
  Split (SegmentPieceKey o s v) "_" =
    String "s" (pretty o) :: String "s" (pretty s) ::
    (if v =? 0 then [] else [String "v" (pretty v)]).
Proof.
  unfold SegmentPieceKey. destruct (v =? 0).
  - split_part "s"%char o ("s" +:+ pretty s). by apply (Split_last_part "s").
  - split_part "s"%char o ("s" +:+ pretty s +:+ "_v" +:+ pretty v).
    split_part "s"%char s ("v" +:+ pretty v). by apply (Split_last_part "v").
Qed.

Lemma Split_ECPieceKey o s r v :
  Split (ECPieceKey o s r v) "_" =
    String "e" (pretty o) :: String "s" (pretty s) :: String "p" (pretty r) ::
    (if v =? 0 then [] else [String "v" (pretty v)]).
Proof.
  unfold ECPieceKey. destruct (v =? 0).
  - split_part "e"%char o ("s" +:+ pretty s +:+ "_p" +:+ pretty r).
    split_part "s"%char s ("p" +:+ pretty r). by apply (Split_last_part "p").
  - split_part "e"%char o ("s" +:+ pretty s +:+ "_p" +:+ pretty r +:+ "_v" +:+ pretty v).
    split_part "s"%char s ("p" +:+ pretty r +:+ "_v" +:+ pretty v).
    split_part "p"%char r ("v" +:+ pretty v). by apply (Split_last_part "v").
Qed.

Lemma SegmentPieceKey_inj o s v o' s' v' :
  SegmentPieceKey o s v = SegmentPieceKey o' s' v' -> o = o' /\ s = s' /\ v = v'.
Proof.
  intros E%(f_equal (fun k => Split k "_")). rewrite !Split_SegmentPieceKey in E.
  injection E as Eo%(inj pretty) Es%(inj pretty) Ev. split_and!; [done..|].
  destruct (v =? 0) eqn:E1, (v' =? 0) eqn:E2; zbool; [lia|done|done|].
  injection Ev as Ev%(inj pretty). done.
Qed.

Lemma ECPieceKey_inj o s r v o' s' r' v' :
  ECPieceKey o s r v = ECPieceKey o' s' r' v' -> o = o' /\ s = s' /\ r = r' /\ v = v'.
Proof.
  intros E%(f_equal (fun k => Split k "_")). rewrite !Split_ECPieceKey in E.
  injection E as Eo%(inj pretty) Es%(inj pretty) Er%(inj pretty) Ev. split_and!; [done..|].
  destruct (v =? 0) eqn:E1, (v' =? 0) eqn:E2; zbool; [lia|done|done|].
  injection Ev as Ev%(inj pretty). done.
Qed.

Lemma SegmentPieceKey_not_EC o s v o' s' r' v' : SegmentPieceKey o s v <> ECPieceKey o' s' r' v'.
Proof.
  intros E%(f_equal (fun k => Split k "_")). by rewrite Split_SegmentPieceKey, Split_ECPieceKey in E.
Qed.

Lemma ParseSegmentIdx_key o s v :
  0 <= s <= MaxUint32 -> ParseSegmentIdx (SegmentPieceKey o s v) = Some (Ok s).
Proof.
  intros Hs. unfold ParseSegmentIdx. rewrite Split_SegmentPieceKey.
  destruct (v =? 0); cbn -[parse_idx pretty]; by apply parse_idx_uint.
Qed.

Lemma ParseECPieceKeyIdx_key o s r v :
  0 <= s <= MaxUint32 -> is_int32 r -> ParseECPieceKeyIdx (ECPieceKey o s r v) = Some (Ok (s, r)).
Proof.
  intros Hs Hr. unfold ParseECPieceKeyIdx. rewrite Split_ECPieceKey.
  destruct (v =? 0); cbn -[parse_idx pretty];
    rewrite parse_idx_uint by done; cbn -[parse_idx pretty]; by rewrite parse_idx_int.
Qed.

(** ** Sizes *)

Section sizes.
Context (payload maxSeg : Z).
Hypothesis (Hmax : 0 < maxSeg <= MaxInt64) (Hpay : 0 < payload <= MaxInt64).
(** The number of segments fits its type. *)
Hypothesis Hcount : payload <= MaxUint32 * maxSeg.

(** The number of segments, as a mathematical quantity. *)
Definition seg_count : Z := (payload + maxSeg - 1) / maxSeg.

Lemma seg_count_bounds :
  1 <= seg_count <= MaxUint32 /\ (seg_count - 1) * maxSeg < payload <= seg_count * maxSeg.
Proof using Hmax Hpay Hcount.
  unfold seg_count. pose proof (Z.div_mod (payload + maxSeg - 1) maxSeg ltac:(lia)).
  pose proof (Z.mod_pos_bound (payload + maxSeg - 1) maxSeg ltac:(lia)).
  set (c := (payload + maxSeg - 1) / maxSeg) in *. clearbody c. go_unfold.
  assert (payload <= c * maxSeg) by lia. assert ((c - 1) * maxSeg < payload) by lia.
  split; [|done]. nia.
Qed.

Lemma SegmentPieceCount_exact : SegmentPieceCount payload maxSeg = seg_count.
Proof using Hmax Hpay Hcount.
  pose proof seg_count_bounds as (? & ? & ?). unfold SegmentPieceCount.
  destruct (Z.eqb_spec maxSeg 0); [lia|].
  pose proof (Z.div_mod payload maxSeg ltac:(lia)). pose proof (Z.mod_pos_bound payload maxSeg ltac:(lia)).
  assert (0 <= payload / maxSeg <= payload).
  { split; [apply Z.div_pos; lia|apply Z.div_le_upper_bound; nia]. }
  destruct (payload mod maxSeg >? 0) eqn:E; zbool.
  - assert (payload / maxSeg + 1 = seg_count) as -> by nia.
    unfold uwrap. rewrite (Z.mod_small seg_count (2 ^ 64)), Z.mod_small; go_lia.
  - assert (payload / maxSeg = seg_count) as -> by nia. unfold uwrap. rewrite Z.mod_small; go_lia.
Qed.

(** The size of a segment is what the payload leaves for it. *)
Lemma SegmentPieceSize_exact i :
  0 <= i < seg_count -> SegmentPieceSize payload i maxSeg = Z.min maxSeg (payload - i * maxSeg).
Proof using Hmax Hpay Hcount.
  intros Hi. pose proof seg_count_bounds as (? & ? & ?).
  unfold SegmentPieceSize. rewrite SegmentPieceCount_exact.
  destruct (Z.eqb_spec seg_count 1) as [E|E].
  { rewrite int64_wrap_id by go_lia. assert (i = 0) as -> by lia. nia. }
  unfold uwrap. rewrite Z.mod_small by go_lia.
  destruct (Z.eqb_spec i (seg_count - 1)) as [->|].
  - assert (0 <= (seg_count - 1) * maxSeg <= MaxInt64) by nia.
    rewrite !(int64_wrap_id maxSeg), (int64_wrap_id payload), (int64_wrap_id (seg_count - 1)) by go_lia.
    rewrite (int64_wrap_id ((seg_count - 1) * maxSeg)), int64_wrap_id by go_lia. nia.
  - rewrite int64_wrap_id by go_lia. nia.
Qed.
End sizes.

Fixpoint sum_sizes (payload maxSeg : Z) (n : nat) : Z :=
  match n with
  | O => 0
  | S n => sum_sizes payload maxSeg n + SegmentPieceSize payload (Z.of_nat n) maxSeg
  end.

Section partition.
Context (payload maxSeg : Z).
Hypothesis (Hmax : 0 < maxSeg <= MaxInt64) (Hpay : 0 < payload <= MaxInt64).
Hypothesis Hcount : payload <= MaxUint32 * maxSeg.

Lemma sum_sizes_prefix n :
  Z.of_nat n <= seg_count payload maxSeg ->
  sum_sizes payload maxSeg n = Z.min payload (Z.of_nat n * maxSeg).
Proof using Hmax Hpay Hcount.
  pose proof (seg_count_bounds payload maxSeg Hmax Hpay Hcount) as (? & ? & ?).
  induction n as [|n IH]; intros Hn; [cbn; lia|].
  cbn [sum_sizes]. rewrite IH, SegmentPieceSize_exact by (done || lia). nia.
Qed.
End partition.

(** The segments partition the object.  For an object whose segment count fits
    its type, every segment below the count has a positive size of at most the
    maximum, and the sizes add up to the payload. *)
Theorem segments_partition_payload payload maxSeg :
  0 < maxSeg <= MaxInt64 -> 0 < payload <= MaxInt64 -> payload <= MaxUint32 * maxSeg ->
  let count := SegmentPieceCount payload maxSeg in
  sum_sizes payload maxSeg (Z.to_nat count) = payload /\
  forall i, 0 <= i < count -> 0 < SegmentPieceSize payload i maxSeg <= MaxSegmentPieceSize payload maxSeg.
Proof.
  intros Hmax Hpay Hcount. cbn zeta. rewrite SegmentPieceCount_exact by done.
  pose proof (seg_count_bounds payload maxSeg Hmax Hpay Hcount) as (? & ? & ?). split.
  - rewrite sum_sizes_prefix by (done || lia). nia.
  - intros i Hi. rewrite SegmentPieceSize_exact by done. unfold MaxSegmentPieceSize.
    destruct (payload >? maxSeg) eqn:E; zbool; rewrite int64_wrap_id by go_lia; nia.
Qed.

Lemma segments_partition_payload_witness :
  SegmentPieceCount 40 16 = 3 /\ SegmentPieceSize 40 2 16 = 8 /\ sum_sizes 40 16 3 = 40.
Proof.
  split; [by vm_compute|]. split; [by vm_compute|].
  refine (proj1 (segments_partition_payload 40 16 _ _ _)); go_lia.
Defined.

(** An erasure-coded piece is the segment divided among the data chunks, rounded
    up: the data pieces hold the whole segment and pad it by less than one byte per
    chunk. *)
Theorem ec_pieces_cover_segment payload maxSeg i chunks :
  0 < maxSeg <= MaxInt64 -> 0 < payload <= MaxInt64 -> payload <= MaxUint32 * maxSeg ->
  0 <= i < SegmentPieceCount payload maxSeg -> 0 < chunks <= MaxUint32 ->
  exists size, ECPieceSize payload i maxSeg chunks = Some size /\
    let seg := SegmentPieceSize payload i maxSeg in
    seg <= size * chunks < seg + chunks /\ 0 < size.
Proof.
  intros Hmax Hpay Hcount Hi Hc. rewrite SegmentPieceCount_exact in Hi by done.
  pose proof (SegmentPieceSize_exact payload maxSeg Hmax Hpay Hcount i Hi) as Hs.
  pose proof (seg_count_bounds payload maxSeg Hmax Hpay Hcount) as (? & ? & ?).
  set (seg := SegmentPieceSize payload i maxSeg) in *.
  assert (0 < seg <= MaxInt64) by (go_unfold; nia). clear Hs.
  unfold ECPieceSize. fold seg. clearbody seg. destruct (Z.eqb_spec chunks 0); [lia|].
  rewrite Z.quot_div_nonneg, Z.rem_mod_nonneg by lia.
  pose proof (Z.div_mod seg chunks ltac:(lia)). pose proof (Z.mod_pos_bound seg chunks ltac:(lia)).
  assert (0 <= seg / chunks <= seg).
  { split; [apply Z.div_pos; lia|apply Z.div_le_upper_bound; nia]. }
  rewrite (int64_wrap_id (seg / chunks)) by go_lia.
  destruct (Z.gtb_spec seg 0); [|lia]. cbn [andb].
  destruct (Z.eqb_spec (seg mod chunks) 0); cbn [negb]; eexists; (split; [done|]); cbn zeta.
  - split; nia.
  - assert (seg / chunks < seg \/ chunks = 1) as [Hlt| ->] by nia; [|rewrite Z.mod_1_r in *; lia].
    rewrite int64_wrap_id by go_lia. split; nia.
Qed.

Lemma ec_pieces_cover_segment_witness :
  exists size, ECPieceSize 47 2 16 4 = Some size /\ 15 <= size * 4 < 15 + 4 /\ 0 < size.
Proof. apply (ec_pieces_cover_segment 47 16 2 4); try go_lia. vm_compute. split; congruence. Defined.

(** A piece key determines the piece.  Keys of segment pieces and of
    erasure-coded pieces never coincide, and equal keys name the same object,
    segment, redundancy index and version. *)
Theorem piece_keys_unique o s r v o' s' r' v' :
  is_int32 r -> is_int32 r' ->
  ChallengePieceKey o s r v = ChallengePieceKey o' s' r' v' ->
  o = o' /\ s = s' /\ v = v' /\ Z.max (-1) r = Z.max (-1) r'.
Proof.
  intros Hr Hr'. unfold ChallengePieceKey.
  assert (forall x, is_int32 x -> 0 <= x -> uwrap 32 x = x) as Hu.
  { intros x Hx Hp. unfold uwrap. rewrite Z.mod_small; go_lia. }
  destruct (Z.ltb_spec r 0), (Z.ltb_spec r' 0).
  - intros (-> & -> & ->)%SegmentPieceKey_inj. split_and!; lia || done.
  - intros E. by apply SegmentPieceKey_not_EC in E.
  - intros E. symmetry in E. by apply SegmentPieceKey_not_EC in E.
  - intros (-> & -> & E & ->)%ECPieceKey_inj. rewrite !Hu in E by done. subst. by split_and!.
Qed.

Lemma piece_keys_unique_witness :
  ChallengePieceKey 7 1 (-1) 2 = "s7_s1_v2"%string /\
  (ChallengePieceKey 7 1 (-1) 2 = ChallengePieceKey 7 1 (-5) 2 -> Z.max (-1) (-1) = Z.max (-1) (-5)).
Proof. split; [by vm_compute|]. intros E. apply piece_keys_unique in E as (_ & _ & _ & E); [done|go_lia|go_lia]. Defined.

(** Parsing a challenge key gives its indices back (a negative redundancy index
    stands for the segment itself and is read as -1), for every object and version. *)
Theorem challenge_key_roundtrip o s r v :
  0 <= s <= MaxUint32 -> is_int32 r ->
  ParseChallengeIdx (ChallengePieceKey o s r v) = Some (Ok (s, Z.max (-1) r)).
Proof.
  intros Hs Hr. unfold ParseChallengeIdx, ChallengePieceKey. destruct (Z.ltb_spec r 0).
  - rewrite Split_SegmentPieceKey. cbn [lookup list_lookup mbind option_bind].
    rewrite bool_decide_false, bool_decide_true by done. rewrite ParseSegmentIdx_key by done.
    cbn. do 3 f_equal. lia.
  - unfold uwrap. rewrite Z.mod_small by go_lia.
    rewrite Split_ECPieceKey. cbn [lookup list_lookup mbind option_bind].
    rewrite bool_decide_true by done. rewrite ParseECPieceKeyIdx_key by done. do 3 f_equal. lia.
Qed.

Lemma challenge_key_roundtrip_witness :
  ChallengePieceKey 7 1 3 0 = "e7_s1_p3"%string /\
  ParseChallengeIdx (ChallengePieceKey 7 1 3 0) = Some (Ok (1, 3)).
Proof. split; [by vm_compute|]. apply challenge_key_roundtrip; go_lia. Defined.
