(* ===== verification/PrefixTree.v ===== *)
(** The slash prefix tree of the block syncer: modular/blocksyncer/modules/prefixtree
    (prefix_tree.go, module.go), the statements of modular/blocksyncer/database/prefixtree.go
    and the block loop of blocksyncer_indexer.go that runs them.

    While a block is processed the handlers read the tables as the last block left them
    and only collect statements, which one transaction executes at the end of the block;
    a module context carries what earlier events of the block did.  A context value is an
    [interface{}]: the model keeps its dynamic type, on which the handlers' type
    assertions depend.  [shard] is the table number of a bucket (a murmur3 hash), [down]
    tells which database queries fail. *)
From Stdlib Require Import ZArith Lia Ascii.
From stdpp Require Import base gmap list strings pretty.
From S2P Require Import Prelude Strconv Hex.

Local Open Scope Z_scope.

(** ** Strings *)

(** [strings.Join(parts, "/")]. *)
Fixpoint Join (parts : list string) : string :=
  match parts with
  | [] => ""
  | [p] => p
  | p :: parts => (p +:+ String "/" (Join parts))%string
  end.

Fixpoint hex_digits (w : nat) (n : Z) : string :=
  match w with
  | O => ""
  | S w => String (hex_digit (n / 16 ^ Z.of_nat w mod 16)) (hex_digits w n)
  end.

(** [common.BigToHash(id).String()]. *)
Definition hash_string (id : Z) : string := ("0x" +:+ hex_digits 64 id)%string.

Definition GenerateFolderExistKey (folder : string) : string := ("slash_prefix_tree:folder:exist:" +:+ folder)%string.
Definition GenerateObjectExistKey (object : string) : string := ("slash_prefix_tree:object:exist:" +:+ object)%string.
Definition GenerateFolderCountKey (folder : string) : string := ("slash_prefix_tree:folder:count:" +:+ folder)%string.

(** ** Tables and statements *)

Record SlashPrefixTreeNode := mkNode {
  PathName : string;
  FullName : string;
  Name : string;
  IsObject : bool;
  IsFolder : bool;
  n_BucketName : string;
  ObjectID : Z;
  n_ObjectName : string
}.

#[export] Instance SlashPrefixTreeNode_eq_dec : EqDecision SlashPrefixTreeNode.
Proof. solve_decision. Defined.

(** What [DeletePrefixTree] matches a row by. *)
Definition node_key (n : SlashPrefixTreeNode) : string * string * bool := (n_BucketName n, FullName n, IsObject n).

Inductive statement :=
| CreatePrefixTree (nodes : list SlashPrefixTreeNode)
| DeletePrefixTree (keys : list (string * string * bool)).

Definition exec (s : statement) (rows : list SlashPrefixTreeNode) : list SlashPrefixTreeNode :=
  match s with
  | CreatePrefixTree nodes => rows ++ nodes
  | DeletePrefixTree keys => filter (fun n => node_key n ∉ keys) rows
  end.

(** ** The module context *)

Inductive ctx_value :=
| CInt (v : Z)
| CInt64 (v : Z).

Abbreviation context := (gmap string ctx_value).

(** The context and the number of queries made so far; [None] is an error. *)
Definition ptM (A : Type) : Type := context * nat -> (context * nat) * option A.

#[export] Instance ptM_ret : MRet ptM := fun A a s => (s, Some a).
#[export] Instance ptM_bind : MBind ptM := fun A B f m s =>
  match m s with
  | (s, Some a) => f a s
  | (s, None) => (s, None)
  end.

Definition SetCtx (key : string) (v : ctx_value) : ptM unit := fun '(c, t) => ((<[key := v]> c, t), Some tt).
Definition GetCtx (key : string) : ptM (option ctx_value) := fun '(c, t) => ((c, t), Some (c !! key)).

Inductive pt_event :=
| EventCreateObject (bucket object : string) (id : Z)
| EventCopyObject (dst_bucket dst_object : string) (dst_id : Z)
| EventDeleteObject (bucket object : string) (id : Z)
| EventCancelCreateObject (bucket object : string) (id : Z)
| EventRejectSealObject (bucket object : string) (id : Z).

Section handlers.
Context (shard : string -> Z) (down : nat -> bool) (rows : list SlashPrefixTreeNode).

Definition query {A} (f : list SlashPrefixTreeNode -> A) : ptM A :=
  fun '(c, t) => ((c, S t), if down t then None else Some (f rows)).

Definition table (bucketName : string) (l : list SlashPrefixTreeNode) : list SlashPrefixTreeNode :=
  filter (fun n => shard (n_BucketName n) = shard bucketName) l.

Definition GetPrefixTree (fullName bucketName : string) : ptM (option SlashPrefixTreeNode) :=
  query (fun l => head (filter (fun n => FullName n = fullName /\ n_BucketName n = bucketName /\ IsObject n = false) (table bucketName l))).

Definition GetPrefixTreeObject (objectID : Z) (bucketName : string) : ptM (option SlashPrefixTreeNode) :=
  query (fun l => head (filter (fun n => ObjectID n = objectID) (table bucketName l))).

Definition GetPrefixTreeCount (pathName bucketName : string) : ptM Z :=
  query (fun l => Z.of_nat (length (filter (fun n => n_BucketName n = bucketName /\ PathName n = pathName) (table bucketName l)))).

(** [strings.Join(pathParts[:i], "/") + "/"]. *)
Definition dir_path (pathParts : list string) (i : nat) : string := (Join (take i pathParts) +:+ "/")%string.

Definition folder_node (bucketName : string) (pathParts : list string) (i : nat) : SlashPrefixTreeNode :=
  mkNode (dir_path pathParts (i - 1)) (dir_path pathParts i) (default ""%string (pathParts !! (i - 1)%nat) +:+ "/")
    false true bucketName 0 "".

Definition object_node (bucketName objectPath : string) (objectID : Z) : SlashPrefixTreeNode :=
  let pathParts := Split objectPath "/" in
  mkNode (dir_path pathParts (length pathParts - 1)) objectPath (default ""%string (last pathParts))
    true false bucketName objectID objectPath.

(** The count of a folder in the context, one more than before. *)
Definition count_up (path bucketName : string) : ptM unit :=
  v ← GetCtx (GenerateFolderCountKey path);
  match v with
  | None => count ← GetPrefixTreeCount path bucketName; SetCtx (GenerateFolderCountKey path) (CInt64 (swrap 64 (count + 1)))
  | Some (CInt64 v) => SetCtx (GenerateFolderCountKey path) (CInt64 (swrap 64 (v + 1)))
  | Some (CInt _) => mret tt
  end.

(** The loop over the directories from the deepest, [i] down to 1; the results of its
    branches are a node to add and whether to go on. *)
Fixpoint create_dirs (bucketName : string) (pathParts : list string) (i : nat)
    (nodes : list SlashPrefixTreeNode) : ptM (list SlashPrefixTreeNode) :=
  match i with
  | O => mret nodes
  | S i' =>
    let path := dir_path pathParts i in
    let continue nodes := _ ← count_up path bucketName; create_dirs bucketName pathParts i' nodes in
    let create := _ ← SetCtx (GenerateFolderExistKey path) (CInt 1); continue (nodes ++ [folder_node bucketName pathParts i]) in
    v ← GetCtx (GenerateFolderExistKey path);
    match v with
    | None =>
      tree ← GetPrefixTree path bucketName;
      match tree with
      | None => create
      | Some _ => mret nodes
      end
    | Some (CInt64 v) => if v =? 0 then create else continue nodes
    | Some (CInt _) => mret nodes
    end
  end.

Definition create_object (bucketName objectPath : string) (objectID : Z)
    (nodes : list SlashPrefixTreeNode) : ptM (list SlashPrefixTreeNode) :=
  let key := GenerateObjectExistKey (hash_string objectID) in
  let create := _ ← SetCtx key (CInt 1); mret (nodes ++ [object_node bucketName objectPath objectID]) in
  v ← GetCtx key;
  match v with
  | None => object ← GetPrefixTreeObject objectID bucketName; match object with None => create | Some _ => mret nodes end
  | Some (CInt v) => if v =? 0 then create else mret nodes
  | Some (CInt64 _) => mret nodes
  end.

Definition handleCreateObject (bucketName objectPath : string) (objectID : Z) : ptM (option statement) :=
  let pathParts := Split objectPath "/" in
  nodes ← create_dirs bucketName pathParts (length pathParts - 1) [];
  nodes ← create_object bucketName objectPath objectID nodes;
  mret (if bool_decide (nodes = []) then None else Some (CreatePrefixTree nodes)).

(** The count of a folder before the deletion of one child; the context gets one less. *)
Definition count_down (path bucketName : string) : ptM Z :=
  v ← GetCtx (GenerateFolderCountKey path);
  match v with
  | None =>
    count ← GetPrefixTreeCount path bucketName;
    _ ← SetCtx (GenerateFolderCountKey path) (CInt64 (swrap 64 (count - 1)));
    mret count
  | Some (CInt64 v) => _ ← SetCtx (GenerateFolderCountKey path) (CInt64 (swrap 64 (v - 1))); mret v
  | Some (CInt _) => mret 0
  end.

Fixpoint delete_dirs (bucketName : string) (pathParts : list string) (i : nat)
    (nodes : list (string * string * bool)) : ptM (list (string * string * bool)) :=
  match i with
  | O => mret nodes
  | S i' =>
    let path := dir_path pathParts i in
    count ← count_down path bucketName;
    if count <=? 1 then
      _ ← SetCtx (GenerateFolderExistKey path) (CInt 0);
      delete_dirs bucketName pathParts i' (nodes ++ [(bucketName, path, false)])
    else mret nodes
  end.

Definition deleteObject (objectPath bucketName : string) (objectID : Z) : ptM (option statement) :=
  let pathParts := Split objectPath "/" in
  nodes ← delete_dirs bucketName pathParts (length pathParts - 1) [(bucketName, objectPath, true)];
  _ ← SetCtx (GenerateObjectExistKey (hash_string objectID)) (CInt 0);
  mret (Some (DeletePrefixTree nodes)).

Definition ExtractEventStatements (e : pt_event) : ptM (option statement) :=
  match e with
  | EventCreateObject b o id | EventCopyObject b o id => handleCreateObject b o id
  | EventDeleteObject b o id | EventCancelCreateObject b o id | EventRejectSealObject b o id => deleteObject o b id
  end.

Fixpoint extract_all (es : list pt_event) : ptM (list statement) :=
  match es with
  | [] => mret []
  | e :: es => s ← ExtractEventStatements e; ss ← extract_all es; mret (match s with Some s => s :: ss | None => ss end)
  end.
End handlers.

(** [Process] for this module: an error returns before the statements run and before
    [ClearCtx]; [committed] tells whether the transaction commits. *)
Definition Process (shard : string -> Z) (down : nat -> bool) (committed : bool) (es : list pt_event)
    (ctx : context) (rows : list SlashPrefixTreeNode) : context * list SlashPrefixTreeNode * bool :=
  match extract_all shard down rows es (ctx, O) with
  | ((ctx, _), None) => (ctx, rows, false)
  | ((ctx, _), Some ss) => if committed then (∅, foldl (fun l s => exec s l) rows ss, true) else (ctx, rows, false)
  end.
