(* ===== verification/PrefixTreeProps.v ===== *)
(** Properties of the slash prefix tree: blocks that only create or only delete objects
    keep the tables exactly the tree of the objects; the mixed blocks, shared folder
    names and failed blocks that break it. *)
From Stdlib Require Import ZArith Lia Ascii.
From stdpp Require Import base gmap list strings pretty.
From S2P Require Import Prelude Strconv Hex PrefixTree.

Local Open Scope Z_scope.

(** ** Paths *)

Abbreviation parts o := (Split o "/"%char).
Definition no_slash (ps : list string) : Prop := Forall (fun p => no_char "/" p) ps.

Lemma Split_nonempty s : parts s <> [].
Proof. destruct s as [|c s]; cbn; [done|]. case_bool_decide; [done|]. by destruct (Split s "/"). Qed.

Lemma parts_len s : (0 < length (parts s))%nat.
Proof. pose proof (Split_nonempty s). destruct (parts s); cbn; [done|lia]. Qed.

Lemma parts_no_slash s : no_slash (parts s).
Proof.
  unfold no_slash. induction s as [|c s IH]; cbn; [by repeat constructor|]. case_bool_decide.
  - by constructor.
  - destruct (Split s "/") as [|p ps] eqn:E; [by destruct (Split_nonempty s)|].
    inversion_clear IH. constructor; [|done]. cbn. by rewrite bool_decide_false by done.
Qed.

Lemma Join_cons p ps : ps <> [] -> Join (p :: ps) = (p +:+ String "/" (Join ps))%string.
Proof. by destruct ps. Qed.

Lemma Split_Join ps : ps <> [] -> no_slash ps -> parts (Join ps) = ps.
Proof.
  intros Hne Hs. induction ps as [|p ps IH]; [done|]. apply Forall_cons in Hs as [Hp Hs].
  destruct ps as [|q ps]; [by apply Split_no_sep|].
  rewrite Join_cons, Split_app, IH by done. done.
Qed.

Lemma Join_inj ps qs : ps <> [] -> qs <> [] -> no_slash ps -> no_slash qs -> Join ps = Join qs -> ps = qs.
Proof. intros Hp Hq Hps Hqs E. by rewrite <-(Split_Join ps), E, Split_Join. Qed.

(** The directory of a list of parts; the root, which has none, is "/". *)
Definition dir (ps : list string) : string := (Join ps +:+ "/")%string.
Definition headed (ps : list string) : Prop := head ps <> Some ""%string.

Lemma dir_Join ps : ps <> [] -> dir ps = Join (ps ++ [""%string]).
Proof.
  unfold dir. intros Hne. induction ps as [|p ps IH]; [done|]. destruct ps as [|q ps]; [reflexivity|].
  cbn [app]. rewrite (Join_cons p (q :: ps)), (Join_cons p (q :: ps ++ _)) by done.
  rewrite string_app_assoc, string_app_cons, IH by done. done.
Qed.

Lemma dir_inj ps qs : no_slash ps -> no_slash qs -> headed ps -> headed qs -> dir ps = dir qs -> ps = qs.
Proof.
  assert (forall ps, ps <> [] -> no_slash ps -> headed ps -> dir [] <> dir ps) as Hroot.
  { intros rs Hne Hs Hh E. rewrite (dir_Join rs) in E by done.
    change (dir []) with (Join [""; ""]%string) in E. apply Join_inj in E; [|done|by destruct rs|by repeat constructor|].
    2:{ apply Forall_app. split; [done|by repeat constructor]. }
    destruct rs as [|r [|? [|]]]; try done. injection E as <-. by apply Hh. }
  intros Hp Hq Hhp Hhq E. destruct (decide (ps = [])) as [->|], (decide (qs = [])) as [->|]; [done| | |].
  - by destruct (Hroot qs).
  - by destruct (Hroot ps).
  - rewrite !dir_Join in E by done. apply Join_inj in E; [by apply app_inv_tail in E|by destruct ps|by destruct qs|..];
      apply Forall_app; (split; [done|by repeat constructor]).
Qed.

Lemma no_slash_take k ps : no_slash ps -> no_slash (take k ps).
Proof. apply Forall_take. Qed.

Lemma headed_take k ps : headed ps -> headed (take k ps).
Proof. by destruct ps, k. Qed.

Lemma take_inj {A} (l : list A) j k : (j <= length l)%nat -> (k <= length l)%nat -> take j l = take k l -> j = k.
Proof. intros ? ? E%(f_equal length). rewrite !length_take in E. lia. Qed.

(** ** Keys of the context *)

Lemma exist_key_inj p q : GenerateFolderExistKey p = GenerateFolderExistKey q -> p = q.
Proof. apply string_app_inv_l. Qed.
Lemma count_key_inj p q : GenerateFolderCountKey p = GenerateFolderCountKey q -> p = q.
Proof. apply string_app_inv_l. Qed.
Lemma exist_count p q : GenerateFolderExistKey p <> GenerateFolderCountKey q.
Proof. done. Qed.
Lemma exist_object p q : GenerateFolderExistKey p <> GenerateObjectExistKey q.
Proof. done. Qed.
Lemma count_object p q : GenerateFolderCountKey p <> GenerateObjectExistKey q.
Proof. done. Qed.

Lemma hex_digits_inj w a b : 0 <= a < 16 ^ Z.of_nat w -> 0 <= b < 16 ^ Z.of_nat w -> hex_digits w a = hex_digits w b -> a = b.
Proof.
  assert (forall w a b, hex_digits w a = hex_digits w b -> a mod 16 ^ Z.of_nat w = b mod 16 ^ Z.of_nat w) as H.
  { clear. induction w as [|w IH]; intros a b E; [by rewrite !Z.mod_1_r|].
    cbn [hex_digits] in E. injection E as Hd E. apply IH in E.
    apply hex_digit_inj in Hd; [|apply Z.mod_pos_bound; lia|apply Z.mod_pos_bound; lia].
    rewrite Nat2Z.inj_succ, Z.pow_succ_r, (Z.mul_comm 16), !Z.rem_mul_r by lia. lia. }
  intros Ha Hb E%H. by rewrite !Z.mod_small in E by lia.
Qed.

Lemma hash_string_inj a b : 0 <= a < 2 ^ 256 -> 0 <= b < 2 ^ 256 -> hash_string a = hash_string b -> a = b.
Proof. intros ? ? E%string_app_inv_l. apply (hex_digits_inj 64); [| |done]; cbn; lia. Qed.

(** ** The tree of a set of objects *)

Record obj := mkObj {
  ob_bucket : string;
  ob_name : string;
  ob_id : Z
}.

#[export] Instance obj_eq_dec : EqDecision obj.
Proof. solve_decision. Defined.

Definition onode (o : obj) : SlashPrefixTreeNode := object_node (ob_bucket o) (ob_name o) (ob_id o).

Definition fnode (b : string) (ps : list string) : SlashPrefixTreeNode :=
  mkNode (dir (removelast ps)) (dir ps) (default ""%string (last ps) +:+ "/") false true b 0 "".

(** [ps] is a directory on the way to the object. *)
Definition above (ps : list string) (o : obj) : Prop :=
  exists k, (1 <= k < length (parts (ob_name o)))%nat /\ ps = take k (parts (ob_name o)).

Definition folder_of (objs : list obj) (b : string) (ps : list string) : Prop :=
  exists o, o ∈ objs /\ ob_bucket o = b /\ above ps o.

(** The rows are the objects and the directories on the way to them, each once. *)
Definition tree_of (objs : list obj) (rows : list SlashPrefixTreeNode) : Prop :=
  NoDup rows /\
  forall n, n ∈ rows <-> (exists o, o ∈ objs /\ n = onode o) \/ (exists b ps, folder_of objs b ps /\ n = fnode b ps).

(** Names do not start with a slash; a name is used once in its bucket, an id once. *)
Record objs_ok (objs : list obj) : Prop := {
  ok_head : forall o, o ∈ objs -> headed (parts (ob_name o));
  ok_id : forall o, o ∈ objs -> 0 < ob_id o < 2 ^ 256;
  ok_names : forall o o', o ∈ objs -> o' ∈ objs -> ob_bucket o = ob_bucket o' -> ob_name o = ob_name o' -> o = o';
  ok_ids : forall o o', o ∈ objs -> o' ∈ objs -> ob_id o = ob_id o' -> o = o'
}.

Lemma objs_ok_sub l l' : l ⊆ l' -> objs_ok l' -> objs_ok l.
Proof. intros Hs [? ? ? ?]. split; eauto. Qed.

Lemma tree_of_ext l l' rows : (forall o, o ∈ l <-> o ∈ l') -> tree_of l rows -> tree_of l' rows.
Proof.
  intros He [Hd Ht]. split; [done|]. intros n. rewrite Ht. unfold folder_of.
  split; (intros [(o & Ho & ->)|(b & ps & (o & Ho & Hb & Ha) & ->)]; [left|right]); eauto 10;
    eexists; naive_solver.
Qed.

Lemma folder_node_take b ps k : (1 <= k <= length ps)%nat -> folder_node b ps k = fnode b (take k ps).
Proof.
  intros Hk. unfold folder_node, fnode, dir_path, dir.
  replace (removelast (take k ps)) with (take (k - 1) ps).
  2:{ destruct k as [|k]; [lia|]. rewrite removelast_firstn by lia. f_equal. lia. }
  f_equal. f_equal. f_equal. rewrite last_lookup, length_take, Nat.min_l by lia. rewrite lookup_take_lt by lia. f_equal. lia.
Qed.

Lemma above_props ps o : above ps o -> ps <> [] /\ no_slash ps /\ (headed (parts (ob_name o)) -> headed ps).
Proof.
  intros (k & Hk & ->). split; [|split].
  - intros E%(f_equal length). rewrite length_take in E. cbn in E. lia.
  - apply no_slash_take, parts_no_slash.
  - apply headed_take.
Qed.

Lemma above_take ps o k : above ps o -> (1 <= k <= length ps)%nat -> above (take k ps) o.
Proof. intros (j & Hj & ->) Hk. rewrite length_take in Hk. exists k. rewrite take_take. split; [lia|]. f_equal. lia. Qed.

Lemma fnode_inj b ps b' ps' :
  no_slash ps -> no_slash ps' -> headed ps -> headed ps' -> fnode b ps = fnode b' ps' -> b = b' /\ ps = ps'.
Proof. intros ? ? ? ? E. injection E as _ E _ E'. split; [done|]. by apply dir_inj. Qed.

Lemma fnode_onode b ps o : fnode b ps <> onode o.
Proof. done. Qed.

Lemma onode_inj o o' : onode o = onode o' -> o = o'.
Proof. destruct o, o'. unfold onode, object_node. cbn. by intros [= _ _ _ -> -> ->]. Qed.

Section tree.
Context (objs : list obj) (rows : list SlashPrefixTreeNode).
Hypothesis Hok : objs_ok objs.
Hypothesis Ht : tree_of objs rows.

Lemma folder_props b ps : folder_of objs b ps -> ps <> [] /\ no_slash ps /\ headed ps.
Proof. intros (o & Ho & _ & Ha). destruct (above_props _ _ Ha) as (? & ? & Hh). destruct Hok. eauto. Qed.

Lemma folder_in b ps : no_slash ps -> headed ps -> fnode b ps ∈ rows <-> folder_of objs b ps.
Proof.
  intros Hs Hh. destruct Ht as [_ Hm]. rewrite Hm. split.
  - intros [(o & _ & E)|(b' & ps' & Hf & E)]; [by destruct (fnode_onode _ _ _ E)|].
    destruct (folder_props _ _ Hf) as (_ & ? & ?). apply fnode_inj in E as [-> ->]; auto.
  - intros Hf. right. eauto.
Qed.

Lemma object_in o : onode o ∈ rows <-> o ∈ objs.
Proof.
  destruct Ht as [_ Hm]. rewrite Hm. split; [|by eauto].
  intros [(o' & Ho & ->%onode_inj)|(b & ps & _ & E)]; [done|]. by destruct (fnode_onode _ _ _ (eq_sym E)).
Qed.

(** What the queries find. *)
Lemma find_folder (shard : string -> Z) b ps :
  no_slash ps -> headed ps ->
  match head (filter (fun n => FullName n = dir ps /\ n_BucketName n = b /\ IsObject n = false) (table shard b rows)) with
  | None => ~ folder_of objs b ps
  | Some _ => folder_of objs b ps
  end.
Proof.
  intros Hs Hh. destruct (filter _ (table shard b rows)) as [|n l] eqn:E; cbn [head].
  - intros Hf. assert (fnode b ps ∈ filter (fun n => FullName n = dir ps /\ n_BucketName n = b /\ IsObject n = false) (table shard b rows)) as Hin.
    { apply list_elem_of_filter. split; [done|]. apply list_elem_of_filter. split; [done|]. by apply folder_in. }
    rewrite E in Hin. by apply not_elem_of_nil in Hin.
  - assert (n ∈ n :: l) as Hin by left. rewrite <-E in Hin.
    apply list_elem_of_filter in Hin as [(Hd & Hb & Ho) [_ Hin]%list_elem_of_filter]. destruct Ht as [_ Hm].
    apply Hm in Hin as [(o & _ & ->)|(b' & ps' & Hf & ->)]; [done|]. cbn in *. subst b'.
    destruct (folder_props _ _ Hf) as (_ & ? & ?). apply dir_inj in Hd as ->; auto.
Qed.

Lemma find_object (shard : string -> Z) id b :
  0 < id -> (forall o, o ∈ objs -> ob_id o <> id) ->
  head (filter (fun n => ObjectID n = id) (table shard b rows)) = None.
Proof.
  intros Hid Hn. rewrite head_None. destruct (filter _ (table shard b rows)) as [|n l] eqn:E; [done|]. exfalso.
  assert (n ∈ n :: l) as Hin by left. rewrite <-E in Hin.
  apply list_elem_of_filter in Hin as [Hi [_ Hin]%list_elem_of_filter]. destruct Ht as [_ Hm].
  apply Hm in Hin as [(o & Ho & ->)|(b' & ps' & Hf & ->)]; cbn in Hi; [by eapply Hn|lia].
Qed.
End tree.

(** ** Creating *)

(** The levels [i], ..., [j + 1]. *)
Fixpoint levels (j i : nat) : list nat :=
  match i with
  | O => []
  | S i' => if decide (j < i)%nat then i :: levels j i' else []
  end.

Lemma elem_of_levels j i k : k ∈ levels j i <-> (j < k <= i)%nat.
Proof.
  induction i as [|i IH]; cbn [levels]; [rewrite elem_of_nil; lia|].
  destruct (decide (j < S i)%nat); [rewrite elem_of_cons, IH|rewrite elem_of_nil]; lia.
Qed.

Lemma levels_nodup j i : NoDup (levels j i).
Proof.
  induction i as [|i IH]; cbn [levels]; [constructor|]. destruct (decide (j < S i)%nat); [|constructor].
  constructor; [|done]. rewrite elem_of_levels. lia.
Qed.

Lemma levels_self i : levels i i = [].
Proof. destruct i; cbn; [done|]. by rewrite decide_False by lia. Qed.

Lemma levels_S j i : (j <= i)%nat -> levels j (S i) = S i :: levels j i.
Proof. intros. cbn [levels]. by rewrite decide_True by lia. Qed.

(** Keys other than those of folder counts are as before. *)
Definition same_marks (c c' : context) : Prop :=
  (forall p, c' !! GenerateFolderExistKey p = c !! GenerateFolderExistKey p) /\
  (forall s, c' !! GenerateObjectExistKey s = c !! GenerateObjectExistKey s).

Lemma ptM_bind_eq {A B} (m : ptM A) (f : A -> ptM B) s :
  (m ≫= f) s = match m s with (s, Some a) => f a s | (s, None) => (s, None) end.
Proof. done. Qed.

Lemma same_marks_count c p v : same_marks c (<[GenerateFolderCountKey p := v]> c).
Proof. split; intros; by rewrite lookup_insert_ne. Qed.

Lemma count_up_spec shard rows path b c t :
  exists c' t', count_up shard (fun _ => false) rows path b (c, t) = ((c', t'), Some tt) /\ same_marks c c'.
Proof.
  unfold count_up. rewrite ptM_bind_eq. cbn [GetCtx]. destruct (c !! GenerateFolderCountKey path) as [[v|v]|].
  - eexists _, _. split; [reflexivity|]. by split.
  - eexists _, _. split; [reflexivity|]. apply same_marks_count.
  - rewrite ptM_bind_eq. unfold GetPrefixTreeCount, query. eexists _, _. split; [reflexivity|]. apply same_marks_count.
Qed.

Section create.
Context (shard : string -> Z) (objs : list obj) (rows : list SlashPrefixTreeNode) (b : string) (ps : list string).
Hypothesis Hok : objs_ok objs.
Hypothesis Ht : tree_of objs rows.
Hypothesis Hs : no_slash ps.
Hypothesis Hh : headed ps.

Definition exist_key (k : nat) : string := GenerateFolderExistKey (dir (take k ps)).
Definition present (c : context) (k : nat) : Prop := is_Some (c !! exist_key k) \/ folder_of objs b (take k ps).

(** In a block that only creates, a folder key has the int 1. *)
Definition only_created (c : context) : Prop := forall p v, c !! GenerateFolderExistKey p = Some v -> v = CInt 1.

Record marked (c : context) (j i : nat) (c' : context) : Prop := {
  mk_new : forall k, (j < k <= i)%nat -> c' !! exist_key k = Some (CInt 1);
  mk_only : forall p v, c' !! GenerateFolderExistKey p = Some v ->
    c !! GenerateFolderExistKey p = Some v \/ v = CInt 1 /\ exists k, (j < k <= i)%nat /\ p = dir (take k ps);
  mk_keep : forall p v, c !! GenerateFolderExistKey p = Some v -> c' !! GenerateFolderExistKey p = Some v;
  mk_obj : forall s, c' !! GenerateObjectExistKey s = c !! GenerateObjectExistKey s
}.

Lemma marked_refl c i : marked c i i c.
Proof. split; try done; [intros; lia|auto]. Qed.

Lemma create_dirs_spec i nodes c t :
  (i < length ps)%nat -> only_created c ->
  exists j c' t',
    create_dirs shard (fun _ => false) rows b ps i nodes (c, t) = ((c', t'), Some (nodes ++ ((fun k => fnode b (take k ps)) <$> levels j i))) /\
    (j <= i)%nat /\ (j = O \/ present c j) /\ (forall k, (j < k <= i)%nat -> ~ present c k) /\ marked c j i c'.
Proof.
  revert nodes c t. induction i as [|i IH]; intros nodes c t Hi Hc.
  { exists O, c, t. cbn. rewrite app_nil_r. split; [done|]. split; [done|]. split; [by left|]. split; [lia|apply marked_refl]. }
  assert (forall t1 : nat, present c (S i) -> exists j c' t',
    ((c, t1), Some nodes) = ((c', t') : context * nat, Some (nodes ++ ((fun k => fnode b (take k ps)) <$> levels j (S i)))) /\
    (j <= S i)%nat /\ (j = O \/ present c j) /\ (forall k, (j < k <= S i)%nat -> ~ present c k) /\ marked c j (S i) c') as Hstop.
  { intros t1 Hp. exists (S i), c, t1. rewrite levels_self. cbn [fmap list_fmap]. rewrite app_nil_r.
    split; [done|]. split; [done|]. split; [by right|]. split; [lia|apply marked_refl]. }
  cbn [create_dirs]. cbv zeta. rewrite ptM_bind_eq. cbn [GetCtx]. change (dir_path ps (S i)) with (dir (take (S i) ps)).
  destruct (c !! GenerateFolderExistKey (dir (take (S i) ps))) as [v|] eqn:Ev.
  { pose proof (Hc _ _ Ev) as ->. apply Hstop. left. unfold exist_key. by rewrite Ev. }
  rewrite ptM_bind_eq. unfold GetPrefixTree at 1, query at 1. cbn iota beta.
  pose proof (find_folder objs rows Hok Ht shard b (take (S i) ps) (no_slash_take _ _ Hs) (headed_take _ _ Hh)) as Hfind.
  destruct (head _) as [n|] eqn:Ehead.
  { apply Hstop. by right. }
  assert (~ present c (S i)) as Hnp.
  { intros [[v Hv]|Hf]; [unfold exist_key in Hv; congruence|]. by apply Hfind in Hf. }
  rewrite ptM_bind_eq. cbn [SetCtx]. set (c1 := <[_ := CInt 1]> c). rewrite ptM_bind_eq.
  destruct (count_up_spec shard rows (dir (take (S i) ps)) b c1 (S t)) as (c2 & t2 & -> & Hsm1 & Hsm2).
  assert (forall k, (k <= i)%nat -> c2 !! exist_key k = c !! exist_key k) as Hlow.
  { intros k Hk. unfold exist_key. rewrite Hsm1. unfold c1. apply lookup_insert_ne. intros E%exist_key_inj.
    apply dir_inj in E; auto using no_slash_take, headed_take. apply take_inj in E; lia. }
  assert (forall p v, c2 !! GenerateFolderExistKey p = Some v -> c !! GenerateFolderExistKey p = Some v \/ v = CInt 1 /\ p = dir (take (S i) ps)) as Honly.
  { intros p v. rewrite Hsm1. unfold c1. destruct (decide (p = dir (take (S i) ps))) as [->|Hne].
    - rewrite lookup_insert_eq. intros [= <-]. auto.
    - rewrite lookup_insert_ne by (by intros E%exist_key_inj). auto. }
  destruct (IH (nodes ++ [folder_node b ps (S i)]) c2 t2) as (j & c' & t' & -> & Hj & Hjp & Hjn & [Hm1 Hm2 Hm3 Hm4]); [lia| |].
  { intros p v Hv. destruct (Honly _ _ Hv) as [H|[? _]]; [by eapply Hc|done]. }
  assert (forall k, (k <= i)%nat -> present c2 k <-> present c k) as Hpres.
  { intros k Hk. unfold present. by rewrite Hlow. }
  exists j, c', t'. split; [|split; [lia|split; [|split]]].
  - rewrite levels_S by lia. cbn [fmap list_fmap]. rewrite <-app_assoc. rewrite folder_node_take by lia. done.
  - destruct Hjp as [->|Hjp]; [by left|right]. by apply Hpres.
  - intros k Hk. destruct (decide (k = S i)) as [->|]; [done|]. rewrite <-Hpres by lia. apply Hjn. lia.
  - split.
    + intros k Hk. destruct (decide (k = S i)) as [->|]; [|apply Hm1; lia].
      apply Hm3. rewrite Hsm1. unfold c1. apply lookup_insert_eq.
    + intros p v Hv. destruct (Hm2 _ _ Hv) as [H|(-> & k & Hk & ->)]; [|right; split; [done|]; exists k; split; [lia|done]].
      destruct (Honly _ _ H) as [?|[-> ->]]; [by left|right]. split; [done|]. exists (S i). split; [lia|done].
    + intros p v Hv. apply Hm3. rewrite Hsm1. unfold c1. rewrite lookup_insert_ne; [done|]. intros E. rewrite <-E in Hv. congruence.
    + intros s. rewrite Hm4, Hsm2. unfold c1. by rewrite lookup_insert_ne.
Qed.
End create.

Lemma folder_of_sub l l' b ps : l ⊆ l' -> folder_of l b ps -> folder_of l' b ps.
Proof. intros Hl (o & Ho & Hb & Ha). exists o. auto. Qed.

Lemma folder_of_take l b ps k : folder_of l b ps -> (1 <= k <= length ps)%nat -> folder_of l b (take k ps).
Proof. intros (o & Ho & Hb & Ha) Hk. exists o. eauto using above_take. Qed.

Lemma folder_of_cons e l b ps : folder_of (e :: l) b ps <-> (ob_bucket e = b /\ above ps e) \/ folder_of l b ps.
Proof. unfold folder_of. setoid_rewrite elem_of_cons. naive_solver. Qed.

Section creates.
Context (shard : string -> Z) (objs : list obj) (rows : list SlashPrefixTreeNode).
Hypothesis Hok : objs_ok objs.
Hypothesis Ht : tree_of objs rows.

(** After the objects [d] were created in this block: [c] is the context and [W] the
    rows that the statements so far will leave. *)
Record created_so_far (d : list obj) (c : context) (W : list SlashPrefixTreeNode) : Prop := {
  ci_tree : tree_of (d ++ objs) W;
  ci_only : only_created c;
  ci_mark : forall p v, c !! GenerateFolderExistKey p = Some v -> exists e ps, e ∈ d /\ above ps e /\ p = dir ps;
  ci_new : forall b ps, folder_of (d ++ objs) b ps -> folder_of objs b ps \/ is_Some (c !! GenerateFolderExistKey (dir ps));
  ci_obj : forall id, 0 <= id < 2 ^ 256 -> (forall e, e ∈ d -> ob_id e <> id) -> c !! GenerateObjectExistKey (hash_string id) = None
}.

(** Objects of different buckets of the block have no directory name in common. *)
Definition apart (l : list obj) : Prop :=
  forall e e' ps, e ∈ l -> e' ∈ l -> above ps e -> above ps e' -> ob_bucket e = ob_bucket e'.

Lemma tree_of_create d W e j :
  objs_ok (e :: d ++ objs) -> e ∉ d ++ objs -> tree_of (d ++ objs) W ->
  let ps := parts (ob_name e) in
  (j < length ps)%nat -> (j = O \/ folder_of (d ++ objs) (ob_bucket e) (take j ps)) ->
  (forall k, (j < k <= length ps - 1)%nat -> ~ folder_of (d ++ objs) (ob_bucket e) (take k ps)) ->
  tree_of (e :: d ++ objs) (W ++ ((fun k => fnode (ob_bucket e) (take k ps)) <$> levels j (length ps - 1)) ++ [onode e]).
Proof.
  intros Hoke Hne HW ps Hj Hjp Hjn. pose proof (objs_ok_sub (d ++ objs) (e :: d ++ objs) ltac:(by intros ? ?; right) Hoke) as Hokd.
  assert (no_slash ps) as Hs by apply parts_no_slash. assert (headed ps) as Hh by (apply Hoke; left).
  assert (forall n, n ∈ (fun k => fnode (ob_bucket e) (take k ps)) <$> levels j (length ps - 1) <->
    exists k, (j < k <= length ps - 1)%nat /\ n = fnode (ob_bucket e) (take k ps)) as Hnew.
  { intros n. rewrite list_elem_of_fmap. setoid_rewrite elem_of_levels. naive_solver. }
  split.
  - apply NoDup_app. split; [apply HW|]. split.
    + intros n Hn [(k & Hk & ->)%Hnew|Hn'%list_elem_of_singleton]%elem_of_app.
      * apply (folder_in _ _ Hokd HW) in Hn; auto using no_slash_take, headed_take. by eapply Hjn.
      * subst n. by apply (object_in _ _ HW) in Hn.
    + apply NoDup_app. split; [|split; [|apply NoDup_singleton]].
      * apply NoDup_fmap_2_strong; [|apply levels_nodup]. intros k k' Hk%elem_of_levels Hk'%elem_of_levels E.
        apply fnode_inj in E as [_ E]; auto using no_slash_take, headed_take. apply take_inj in E; lia.
      * intros n (k & _ & ->)%Hnew E%list_elem_of_singleton. by apply fnode_onode in E.
  - intros n. rewrite !elem_of_app, Hnew, list_elem_of_singleton. destruct HW as [HWd HWm]. setoid_rewrite folder_of_cons.
    setoid_rewrite elem_of_cons. split.
    + intros [Hn|[(k & Hk & ->)| ->] ].
      * apply HWm in Hn as [(o & Ho & ->)|(b & qs & Hf & ->)]; [left|right]; eauto 10.
      * right. exists (ob_bucket e), (take k ps). split; [|done]. left. split; [done|]. exists k. split; [|done].
        fold ps. lia.
      * left. eauto.
    + intros [(o & [->|Ho] & ->)|(b & qs & [[<- (k & Hk & ->)]|Hf] & ->)]; [auto|left; apply HWm; eauto| |left; apply HWm; eauto].
      fold ps in Hk |- *. destruct (decide (j < k)%nat).
      * right. left. exists k. split; [lia|done].
      * left. apply HWm. right. eexists _, _. split; [|done]. destruct Hjp as [->|Hf]; [lia|].
        replace (take k ps) with (take k (take j ps)) by (rewrite take_take; f_equal; lia).
        apply folder_of_take; [done|]. rewrite length_take. lia.
Qed.

Lemma create_object_spec e nodes c t :
  0 < ob_id e -> (forall o, o ∈ objs -> ob_id o <> ob_id e) -> c !! GenerateObjectExistKey (hash_string (ob_id e)) = None ->
  exists t', create_object shard (fun _ => false) rows (ob_bucket e) (ob_name e) (ob_id e) nodes (c, t) =
    ((<[GenerateObjectExistKey (hash_string (ob_id e)) := CInt 1]> c, t'), Some (nodes ++ [onode e])).
Proof.
  intros Hid Hfresh Hc. unfold create_object. cbv zeta. rewrite ptM_bind_eq. cbn [GetCtx]. rewrite Hc, ptM_bind_eq.
  unfold GetPrefixTreeObject, query. rewrite (find_object objs rows Ht) by done. eexists. reflexivity.
Qed.

Lemma create_step d c W e t :
  created_so_far d c W -> objs_ok (e :: d ++ objs) -> e ∉ d ++ objs -> apart (e :: d) ->
  exists c' t' nodes,
    handleCreateObject shard (fun _ => false) rows (ob_bucket e) (ob_name e) (ob_id e) (c, t) = ((c', t'), Some (Some (CreatePrefixTree nodes))) /\
    created_so_far (e :: d) c' (W ++ nodes).
Proof.
  intros [HW Honly Hmark Hnew Hobj] Hoke Hne Hap. set (ps := parts (ob_name e)).
  assert (no_slash ps) as Hs by apply parts_no_slash. assert (headed ps) as Hh by (apply Hoke; left).
  pose proof (parts_len (ob_name e)) as Hlen. fold ps in Hlen.
  destruct (create_dirs_spec shard objs rows (ob_bucket e) ps Hok Ht Hs Hh (length ps - 1) [] c t)
    as (j & c1 & t1 & E1 & Hj & Hjp & Hjn & [Hm1 Hm2 Hm3 Hm4]); [lia|done|].
  assert (forall o, o ∈ d ++ objs -> ob_id o <> ob_id e) as Hfresh.
  { intros o Ho E. apply Hne. rewrite <-(ok_ids _ Hoke o e); [done|by right|by left|done]. }
  destruct (create_object_spec e ((fun k => fnode (ob_bucket e) (take k ps)) <$> levels j (length ps - 1)) c1 t1) as (t2 & E2).
  { apply Hoke. left. } { intros o Ho. apply Hfresh, elem_of_app. by right. }
  { rewrite Hm4. apply Hobj; [pose proof (ok_id _ Hoke e ltac:(left)); lia|]. intros e' He'. apply Hfresh, elem_of_app. by left. }
  eexists _, t2, _. split.
  { unfold handleCreateObject. cbv zeta. rewrite ptM_bind_eq. fold ps. rewrite E1. cbn [app]. rewrite ptM_bind_eq, E2.
    unfold mret, ptM_ret. rewrite bool_decide_false; [reflexivity|]. by destruct (_ <$> _). }
  assert (forall k, present objs (ob_bucket e) ps c k -> (1 <= k < length ps)%nat -> folder_of (d ++ objs) (ob_bucket e) (take k ps)) as Hpres.
  { intros k [[v Hv]|Hf] Hk; [|eapply folder_of_sub; [|done]; set_solver].
    destruct (Hmark _ _ Hv) as (e' & qs & He' & Ha & Ed). destruct (above_props _ _ Ha) as (_ & Hqs & Hqh).
    assert (headed qs) as Hqh' by (apply Hqh, Hoke; right; apply elem_of_app; by left).
    apply dir_inj in Ed; auto using no_slash_take, headed_take. subst qs.
    exists e'. split; [apply elem_of_app; by left|]. split; [|done].
    apply (Hap e' e (take k ps)); [by right|by left|done|]. exists k. done. }
  split.
  - apply tree_of_create; try done; fold ps; [lia| |].
    + destruct Hjp as [->|Hjp]; [by left|]. destruct j; [by left|right]. apply Hpres; [done|lia].
    + intros k Hk Hf. apply (Hjn k Hk). apply Hnew in Hf as [Hf|Hf]; [by right|by left].
  - intros p v. rewrite lookup_insert_ne by done. intros Hv. destruct (Hm2 _ _ Hv) as [Hc|[-> _]]; [by eapply Honly|done].
  - intros p v. rewrite lookup_insert_ne by done. intros Hv. destruct (Hm2 _ _ Hv) as [Hc|(_ & k & Hk & ->)].
    + destruct (Hmark _ _ Hc) as (e' & qs & He' & Ha & ->). exists e', qs. split; [by right|done].
    + exists e, (take k ps). split; [left|]. split; [|done]. exists k. fold ps. split; [lia|done].
  - intros b qs [[<- (k & Hk & ->)]|Hf]%folder_of_cons.
    + fold ps in Hk |- *. rewrite lookup_insert_ne by done. destruct (decide (j < k)%nat).
      * right. unfold exist_key in Hm1. rewrite Hm1 by lia. done.
      * destruct Hjp as [->|Hjp]; [lia|]. assert (folder_of (d ++ objs) (ob_bucket e) (take k ps)) as Hf.
        { replace (take k ps) with (take k (take j ps)) by (rewrite take_take; f_equal; lia).
          apply folder_of_take; [apply Hpres; [done|lia]|]. rewrite length_take. lia. }
        apply Hnew in Hf as [Hf|[v Hv] ]; [by left|right]. by rewrite (Hm3 _ _ Hv).
    + apply Hnew in Hf as [Hf|[v Hv] ]; [by left|right]. rewrite lookup_insert_ne by done. by rewrite (Hm3 _ _ Hv).
  - intros id Hid Hids. rewrite lookup_insert_ne.
    + rewrite Hm4. apply Hobj; [done|]. intros e' He'. apply Hids. by right.
    + intros E%string_app_inv_l%hash_string_inj; [|pose proof (ok_id _ Hoke e ltac:(left)); lia|done].
      by apply (Hids e ltac:(left)).
Qed.

Definition creates (e : obj) (ev : pt_event) : Prop :=
  ev = EventCreateObject (ob_bucket e) (ob_name e) (ob_id e) \/ ev = EventCopyObject (ob_bucket e) (ob_name e) (ob_id e).

Lemma creates_all l es d c W t :
  Forall2 creates l es -> created_so_far d c W -> objs_ok (l ++ d ++ objs) -> NoDup (l ++ d ++ objs) -> apart (l ++ d) ->
  exists c' t' ss, extract_all shard (fun _ => false) rows es (c, t) = ((c', t'), Some ss) /\
    created_so_far (rev l ++ d) c' (foldl (fun W s => exec s W) W ss).
Proof.
  intros Hes. revert d c W t. induction Hes as [|e ev l es He Hes IH]; intros d c W t Hd Hoke Hnd Hap.
  { eexists _, _, []. split; [reflexivity|done]. }
  assert (forall x, x ∈ e :: d ++ objs -> x ∈ (e :: l) ++ d ++ objs) as Hsub by set_solver.
  apply NoDup_cons in Hnd as [Hne Hnd]. rewrite elem_of_app in Hne.
  destruct (create_step d c W e t) as (c1 & t1 & nodes & E1 & Hd1); [done|by eapply objs_ok_sub|tauto| |].
  { intros x y ps Hx Hy. apply Hap; set_solver. }
  assert (ExtractEventStatements shard (fun _ => false) rows ev (c, t) = ((c1, t1), Some (Some (CreatePrefixTree nodes)))) as E1'
    by (destruct He as [->| ->]; exact E1).
  destruct (IH (e :: d) c1 (W ++ nodes) t1) as (c2 & t2 & ss & E2 & Hd2); [done| | | |].
  - eapply objs_ok_sub; [|done]. set_solver.
  - eapply NoDup_Permutation_proper; [|apply NoDup_cons; split; [rewrite elem_of_app; exact Hne|exact Hnd] ].
    cbn [app]. rewrite (Permutation_middle l (d ++ objs) e). done.
  - intros x y ps Hx Hy. apply Hap; set_solver.
  - exists c2, t2, (CreatePrefixTree nodes :: ss). split.
    + cbn [extract_all]. rewrite ptM_bind_eq, E1', ptM_bind_eq, E2. done.
    + cbn [rev foldl exec]. rewrite <-app_assoc. done.
Qed.

(** C31: A block that only creates (or copies) objects leaves exactly the tree of the old
    and new objects, each directory once, whatever directories they share within a bucket,
    as long as objects of different buckets in the block share no directory name
    (mixed_blocks_break_tree has an example where they do). *)
Theorem creating_block_exact l es :
  Forall2 creates l es -> objs_ok (l ++ objs) -> NoDup (l ++ objs) -> apart l ->
  exists rows', Process shard (fun _ => false) true es ∅ rows = (∅, rows', true) /\ tree_of (l ++ objs) rows'.
Proof.
  intros Hes Hokl Hnd Hap. destruct (creates_all l es [] ∅ rows 0%nat) as (c & t & ss & E & [HW _ _ _ _]); try done.
  - split; try done; [intros b ps Hf; by left].
  - intros x y ps. rewrite !app_nil_r. apply Hap.
  - unfold Process. rewrite E. eexists. split; [reflexivity|]. eapply tree_of_ext; [|done].
    intros o. rewrite !elem_of_app, list_elem_of_In, <-in_rev, <-list_elem_of_In, elem_of_nil. tauto.
Qed.
End creates.

(** ** Deleting *)

(** The children of a directory, as the count query finds them. *)
Definition kids (b p : string) (W : list SlashPrefixTreeNode) : list SlashPrefixTreeNode :=
  filter (fun n => n_BucketName n = b /\ PathName n = p) W.
Definition kid_count (b p : string) (W : list SlashPrefixTreeNode) : nat := length (kids b p W).

Lemma elem_of_kids b p W n : n ∈ kids b p W <-> n_BucketName n = b /\ PathName n = p /\ n ∈ W.
Proof. unfold kids. rewrite list_elem_of_filter. tauto. Qed.

Lemma count_table shard b p W :
  length (filter (fun n => n_BucketName n = b /\ PathName n = p) (table shard b W)) = kid_count b p W.
Proof.
  unfold kid_count, kids, table. rewrite list_filter_filter. f_equal. apply list_filter_iff. intros n. split; [tauto|].
  intros [-> ?]. done.
Qed.

Lemma kid_count_two b p W n n' : n <> n' -> n ∈ kids b p W -> n' ∈ kids b p W -> (2 <= kid_count b p W)%nat.
Proof.
  unfold kid_count. destruct (kids b p W) as [|x [|y l]]; cbn; [set_solver| |lia].
  intros Hne ->%list_elem_of_singleton ->%list_elem_of_singleton. done.
Qed.

Lemma kid_count_other b p W n :
  NoDup W -> (2 <= kid_count b p W)%nat -> exists n', n' <> n /\ n' ∈ kids b p W.
Proof.
  unfold kid_count. intros Hd. assert (NoDup (kids b p W)) as Hk by by apply NoDup_filter.
  destruct (kids b p W) as [|x [|y l]]; cbn; [lia|lia|]. intros _.
  apply NoDup_cons in Hk as [Hx _]. destruct (decide (x = n)) as [->|Hne].
  - exists y. split; [intros ->; set_solver|set_solver].
  - exists x. split; [done|set_solver].
Qed.

Section delete_tree.
Context (cur : list obj) (e : obj) (W : list SlashPrefixTreeNode) (j : nat).
Hypothesis Hok : objs_ok (e :: cur).
Hypothesis Hne : e ∉ cur.
Hypothesis HW : tree_of (e :: cur) W.

Abbreviation ps := (parts (ob_name e)).
Abbreviation b := (ob_bucket e).
Abbreviation deepest := (length ps - 1)%nat.

Hypothesis Hj : (j <= deepest)%nat.
Hypothesis Hdel : forall k, (j < k <= deepest)%nat -> (kid_count b (dir (take k ps)) W <= 1)%nat.
Hypothesis Hstop : j = O \/ (2 <= kid_count b (dir (take j ps)) W)%nat.

(** The row through which the directory of level [k] leads to the object. *)
Definition chain (k : nat) : SlashPrefixTreeNode :=
  if decide (k = deepest) then onode e else fnode b (take (S k) ps).

Lemma ps_ok : no_slash ps /\ headed ps /\ (0 < length ps)%nat.
Proof.
  split; [apply parts_no_slash|]. split; [apply Hok; left|apply parts_len].
Qed.

Lemma removelast_take {A} (l : list A) k : (k < length l)%nat -> removelast (take (S k) l) = take k l.
Proof. intros. by rewrite removelast_firstn by lia. Qed.

Lemma removelast_parts {A} (l : list A) : removelast l = take (length l - 1) l.
Proof. destruct (decide (length l = O)) as [?%length_zero_iff_nil|]; [by subst|]. rewrite <-(firstn_all l) at 1. destruct (length l) as [|k] eqn:E; [lia|]. rewrite removelast_firstn by lia. f_equal. lia. Qed.

Lemma onode_path o : PathName (onode o) = dir (take (length (parts (ob_name o)) - 1) (parts (ob_name o))).
Proof. done. Qed.

Lemma fnode_path b' qs : PathName (fnode b' qs) = dir (take (length qs - 1) qs).
Proof. cbn. by rewrite removelast_parts. Qed.

Lemma above_e k : (1 <= k <= deepest)%nat -> above (take k ps) e.
Proof. intros Hk. exists k. split; [lia|done]. Qed.

Lemma chain_kid k : (k <= deepest)%nat -> chain k ∈ kids b (dir (take k ps)) W.
Proof.
  intros Hk. unfold chain. destruct ps_ok as (Hs & Hh & Hl). destruct (decide (k = deepest)) as [->|].
  - apply elem_of_kids. split; [done|]. split; [by rewrite onode_path|]. apply (object_in _ _ HW). left.
  - apply elem_of_kids. split; [done|]. split.
    + rewrite fnode_path, length_take, take_take. do 2 f_equal. lia.
    + apply (folder_in _ _ Hok HW); auto using no_slash_take, headed_take. exists e. split; [left|]. split; [done|]. apply above_e. lia.
Qed.

(** No other object lies under a directory that is removed. *)
Lemma removed_empty k : (j < k <= deepest)%nat -> ~ folder_of cur b (take k ps).
Proof.
  destruct ps_ok as (Hs & Hh & Hl). remember (deepest - k)%nat as m eqn:Em. revert k Em.
  induction (lt_wf m) as [m _ IH]. intros k -> Hk (o & Ho & Hb & k' & Hk' & Et).
  assert (k = k') as <- by (apply (f_equal length) in Et; rewrite !length_take in Et; lia).
  pose proof (chain_kid k ltac:(lia)) as Hchain.
  assert (forall n, n ∈ kids b (dir (take k ps)) W -> n = chain k) as Honly.
  { intros n Hn. apply dec_stable. intros Hn'. pose proof (kid_count_two _ _ _ _ _ Hn' Hn Hchain). specialize (Hdel k Hk). lia. }
  assert (length (parts (ob_name o)) - 1 = k \/ S k < length (parts (ob_name o)))%nat as [Hd|Hd] by lia.
  - assert (onode o = chain k) as E.
    { apply Honly, elem_of_kids. split; [done|]. split; [rewrite onode_path, Hd, <-Et; done|]. apply (object_in _ _ HW). by right. }
    unfold chain in E. destruct (decide (k = deepest)); [apply onode_inj in E; by subst|by apply eq_sym, fnode_onode in E].
  - assert (fnode b (take (S k) (parts (ob_name o))) = chain k) as E.
    { apply Honly, elem_of_kids. split; [done|].
      split; [rewrite fnode_path, length_take, take_take, Et; do 2 f_equal; lia|].
      apply (folder_in _ _ Hok HW); [apply no_slash_take, parts_no_slash|apply headed_take, Hok; by right|].
      exists o. split; [by right|]. split; [done|]. exists (S k). split; [lia|done]. }
    unfold chain in E. destruct (decide (k = deepest)); [by apply fnode_onode in E|].
    apply fnode_inj in E as [_ E]; auto using no_slash_take, headed_take, parts_no_slash.
    2:{ apply headed_take, Hok. by right. }
    apply (IH (deepest - S k)%nat ltac:(lia) (S k)); [done|lia|].
    exists o. split; [done|]. split; [done|]. exists (S k). split; [lia|done].
Qed.

(** Where the loop stops another object keeps the directory. *)
Lemma kept_folder k : (1 <= k <= j)%nat -> folder_of cur b (take k ps).
Proof.
  destruct ps_ok as (Hs & Hh & Hl). intros Hk. destruct Hstop as [->|Hcnt]; [lia|].
  replace (take k ps) with (take k (take j ps)) by (rewrite take_take; f_equal; lia).
  apply folder_of_take; [|rewrite length_take; lia].
  destruct HW as [HWd HWm]. destruct (kid_count_other _ _ _ (chain j) HWd Hcnt) as (n & Hn & (Hb & Hp & Hin)%elem_of_kids).
  pose proof Hin as Hin'. apply HWm in Hin as [(o & Ho & ->)|(b' & qs & Hf & ->)].
  - rewrite onode_path in Hp. apply dir_inj in Hp; auto using no_slash_take, headed_take, parts_no_slash.
    2:{ apply headed_take. by apply Hok. }
    assert (length (parts (ob_name o)) - 1 = j)%nat as Hlo.
    { apply (f_equal length) in Hp. rewrite !length_take in Hp. lia. }
    apply elem_of_cons in Ho as [->|Ho].
    + exfalso. apply Hn. unfold chain. by rewrite decide_True by done.
    + exists o. split; [done|]. split; [done|]. exists j. rewrite <-Hp, Hlo. split; [lia|done].
  - cbn in Hb. subst b'. destruct (folder_props _ Hok _ _ Hf) as (Hq & Hqs & Hqh).
    rewrite fnode_path in Hp. apply dir_inj in Hp; auto using no_slash_take, headed_take.
    assert (length qs = S j) as Hlq.
    { apply (f_equal length) in Hp. rewrite !length_take in Hp. destruct qs; [done|]. cbn in *. lia. }
    rewrite Hlq in Hp. replace (S j - 1)%nat with j in Hp by lia. rewrite <-Hp.
    apply folder_of_cons in Hf as [[_ (m & Hm & ->)]|Hf].
    + exfalso. rewrite length_take in Hlq. apply Hn. unfold chain. rewrite decide_False by lia. do 2 f_equal. lia.
    + apply folder_of_take; [done|lia].
Qed.

Definition removed : list SlashPrefixTreeNode := onode e :: ((fun k => fnode b (take k ps)) <$> levels j deepest).
Definition removed_keys : list (string * string * bool) :=
  (b, ob_name e, true) :: ((fun k => (b, dir (take k ps), false)) <$> levels j deepest).

Lemma elem_of_removed n : n ∈ removed <-> n = onode e \/ exists k, (j < k <= deepest)%nat /\ n = fnode b (take k ps).
Proof. unfold removed. rewrite elem_of_cons, list_elem_of_fmap. setoid_rewrite elem_of_levels. naive_solver. Qed.

Lemma removed_in n : n ∈ removed -> n ∈ W.
Proof.
  destruct ps_ok as (Hs & Hh & Hl). rewrite elem_of_removed. intros [->|(k & Hk & ->)].
  - apply (object_in _ _ HW). left.
  - apply (folder_in _ _ Hok HW); auto using no_slash_take, headed_take. exists e. split; [left|]. split; [done|]. apply above_e. lia.
Qed.

Lemma removed_by_key n : n ∈ W -> node_key n ∈ removed_keys <-> n ∈ removed.
Proof.
  destruct ps_ok as (Hs & Hh & Hl). intros Hn. rewrite elem_of_removed. unfold removed_keys.
  rewrite elem_of_cons, list_elem_of_fmap. setoid_rewrite elem_of_levels. split.
  - destruct HW as [_ HWm]. apply HWm in Hn as [(o & Ho & ->)|(b' & qs & Hf & ->)].
    + intros [[= Hb Hname]|(k & [=] & _)]. left. f_equal. eapply (ok_names _ Hok); [done|left|done|done].
    + intros [[=]|(k & [= Hb Hd] & Hk)]. destruct (folder_props _ Hok _ _ Hf) as (_ & ? & ?).
      apply dir_inj in Hd as ->; auto using no_slash_take, headed_take. subst b'. right. eauto.
  - intros [->|(k & Hk & ->)]; [by left|right]. by exists k.
Qed.

Lemma removed_nodup : NoDup removed.
Proof.
  destruct ps_ok as (Hs & Hh & Hl). apply NoDup_cons. split.
  - intros (k & E & _)%list_elem_of_fmap. by apply eq_sym, fnode_onode in E.
  - apply NoDup_fmap_2_strong; [|apply levels_nodup]. intros k k' Hk%elem_of_levels Hk'%elem_of_levels E.
    apply fnode_inj in E as [_ E]; auto using no_slash_take, headed_take. apply take_inj in E; lia.
Qed.

Definition remaining : list SlashPrefixTreeNode := filter (fun n => node_key n ∉ removed_keys) W.

Lemma elem_of_remaining n : n ∈ remaining <-> n ∈ W /\ n ∉ removed.
Proof.
  unfold remaining. rewrite list_elem_of_filter. split.
  - intros [Hn HW']. split; [done|]. by rewrite <-removed_by_key.
  - intros [HW' Hn]. split; [|done]. by rewrite removed_by_key.
Qed.

Lemma remaining_perm : W ≡ₚ removed ++ remaining.
Proof.
  apply NoDup_Permutation; [apply HW| |].
  - apply NoDup_app. split; [apply removed_nodup|]. split; [|apply NoDup_filter, HW]. intros n Hn [_ Hn']%elem_of_remaining. done.
  - intros n. rewrite elem_of_app, elem_of_remaining. split.
    + intros Hn. destruct (decide (n ∈ removed)); auto.
    + intros [Hn|[Hn _] ]; [by apply removed_in|done].
Qed.

Lemma tree_of_delete : tree_of cur remaining.
Proof.
  destruct ps_ok as (Hs & Hh & Hl). split; [apply NoDup_filter, HW|]. intros n. rewrite elem_of_remaining, elem_of_removed.
  pose proof HW as [_ HWm]. rewrite HWm. split.
  - intros [[(o & Ho & ->)|(b' & qs & Hf & ->)] Hn].
    + left. apply elem_of_cons in Ho as [->|Ho]; [tauto|eauto].
    + right. exists b', qs. split; [|done]. apply folder_of_cons in Hf as [[<- (k & Hk & ->)]|Hf]; [|done].
      apply kept_folder. destruct (decide (j < k)%nat); [|lia]. destruct Hn. right. exists k. split; [lia|done].
  - intros [(o & Ho & ->)|(b' & qs & Hf & ->)].
    + split; [left; exists o; split; [by right|done]|]. intros [E%onode_inj|(k & _ & E)]; [by subst|by apply eq_sym, fnode_onode in E].
    + split; [right; exists b', qs; split; [|done]; apply folder_of_cons; by right|].
      intros [E|(k & Hk & E)]; [by apply fnode_onode in E|].
      destruct (folder_props _ (objs_ok_sub cur (e :: cur) ltac:(by intros ? ?; right) Hok) _ _ Hf) as (_ & ? & ?).
      apply fnode_inj in E as [-> ->]; auto using no_slash_take, headed_take. by eapply removed_empty.
Qed.

Lemma removed_kids m : (j <= m <= deepest)%nat -> kid_count b (dir (take m ps)) removed = 1%nat.
Proof.
  destruct ps_ok as (Hs & Hh & Hl). intros Hm.
  assert (forall n, n ∈ kids b (dir (take m ps)) removed <-> n = chain m) as Hkids.
  { intros n. rewrite elem_of_kids, elem_of_removed. unfold chain. split.
    - intros (_ & Hp & [->|(k & Hk & ->)]); revert Hp.
      + rewrite onode_path. intros E%dir_inj; auto using no_slash_take, headed_take. apply take_inj in E; [|lia|lia]. by rewrite decide_True by lia.
      + rewrite fnode_path, length_take, take_take. intros E%dir_inj; auto using no_slash_take, headed_take.
        apply take_inj in E; [|lia|lia]. rewrite decide_False by lia. do 2 f_equal. lia.
    - intros ->. pose proof (chain_kid m ltac:(lia)) as (Hb & Hp & _)%elem_of_kids. unfold chain in Hb, Hp. split; [done|]. split; [done|].
      destruct (decide (m = deepest)); [by left|right]. exists (S m). split; [lia|done]. }
  unfold kid_count. assert (NoDup (kids b (dir (take m ps)) removed)) as Hd by apply NoDup_filter, removed_nodup.
  destruct (kids b (dir (take m ps)) removed) as [|x [|y l]]; [|done|].
  - pose proof (proj2 (Hkids (chain m)) eq_refl) as H. by apply not_elem_of_nil in H.
  - exfalso. apply NoDup_cons in Hd as [Hx _]. apply Hx.
    rewrite (proj1 (Hkids x)), <-(proj1 (Hkids y)); [left|right; left|left].
Qed.

Lemma removed_no_kids b' p :
  (b' <> b \/ forall m, (j <= m <= deepest)%nat -> p <> dir (take m ps)) -> kid_count b' p removed = O.
Proof.
  intros Hno. unfold kid_count. destruct (kids b' p removed) as [|x l] eqn:E; [done|]. exfalso.
  assert (x ∈ kids b' p removed) as Hx by (rewrite E; left).
  apply elem_of_kids in Hx as (Hb & Hp & [->|(k & Hk & ->)]%elem_of_removed).
  - destruct Hno as [Hno|Hno]; [by apply Hno|]. apply (Hno deepest ltac:(lia)). by rewrite <-Hp, onode_path.
  - destruct Hno as [Hno|Hno]; [by apply Hno|]. apply (Hno (k - 1)%nat ltac:(lia)).
    rewrite <-Hp, fnode_path, length_take, take_take. do 2 f_equal. lia.
Qed.

Lemma kid_count_remaining b' p : kid_count b' p W = (kid_count b' p removed + kid_count b' p remaining)%nat.
Proof. unfold kid_count, kids. by rewrite remaining_perm, filter_app, length_app at 1. Qed.
End delete_tree.

Lemma kid_count_le b p W : (kid_count b p W <= length W)%nat.
Proof. apply length_filter. Qed.

(** What the context or, without an entry, the table says of a count. *)
Definition counted (c : context) (rows : list SlashPrefixTreeNode) (b p : string) (n : nat) : Prop :=
  match c !! GenerateFolderCountKey p with
  | None => kid_count b p rows = n
  | Some v => v = CInt64 (Z.of_nat n)
  end.

Lemma count_down_spec shard rows b p c t n :
  counted c rows b p n -> Z.of_nat n <= MaxInt64 ->
  exists t', count_down shard (fun _ => false) rows p b (c, t) =
    ((<[GenerateFolderCountKey p := CInt64 (Z.of_nat n - 1)]> c, t'), Some (Z.of_nat n)).
Proof.
  intros Hc Hn. unfold count_down. rewrite ptM_bind_eq. cbn [GetCtx]. unfold counted in Hc.
  destruct (c !! GenerateFolderCountKey p) as [v|].
  - subst v. rewrite ptM_bind_eq. cbn [SetCtx]. go_wrap. by eexists.
  - rewrite ptM_bind_eq. unfold GetPrefixTreeCount, query. rewrite count_table, Hc, ptM_bind_eq. cbn [SetCtx]. go_wrap. by eexists.
Qed.

Section delete_loop.
Context (shard : string -> Z) (rows : list SlashPrefixTreeNode) (b : string) (ps : list string) (cnt : nat -> nat).
Hypothesis Hs : no_slash ps.
Hypothesis Hh : headed ps.
Hypothesis Hcnt : forall k, Z.of_nat (cnt k) <= MaxInt64.

Abbreviation count_key k := (GenerateFolderCountKey (dir (take k ps))).

Lemma count_key_ne k k' : (k <= length ps)%nat -> (k' <= length ps)%nat -> k <> k' -> count_key k <> count_key k'.
Proof.
  intros ? ? Hne E%count_key_inj. apply dir_inj in E; auto using no_slash_take, headed_take. by apply take_inj in E.
Qed.

(** The context after the loop counted the levels from [i] down to [j]. *)
Record discounted (c : context) (j i : nat) (c' : context) : Prop := {
  dc_seen : forall k, (1 <= k)%nat -> (j <= k <= i)%nat -> c' !! count_key k = Some (CInt64 (Z.of_nat (cnt k) - 1));
  dc_rest : forall p, (forall k, (1 <= k)%nat -> (j <= k <= i)%nat -> p <> dir (take k ps)) ->
    c' !! GenerateFolderCountKey p = c !! GenerateFolderCountKey p
}.

Lemma delete_dirs_spec i nodes c t :
  (i < length ps)%nat -> (forall k, (1 <= k <= i)%nat -> counted c rows b (dir (take k ps)) (cnt k)) ->
  exists j c' t',
    delete_dirs shard (fun _ => false) rows b ps i nodes (c, t) =
      ((c', t'), Some (nodes ++ ((fun k => (b, dir (take k ps), false)) <$> levels j i))) /\
    (j <= i)%nat /\ (j = O \/ (2 <= cnt j)%nat) /\ (forall k, (j < k <= i)%nat -> (cnt k <= 1)%nat) /\ discounted c j i c'.
Proof.
  revert nodes c t. induction i as [|i IH]; intros nodes c t Hi Hc.
  { exists O, c, t. cbn. rewrite app_nil_r. split; [done|]. split; [done|]. split; [by left|]. split; [lia|]. split; [lia|done]. }
  cbn [delete_dirs]. cbv zeta. rewrite ptM_bind_eq. change (dir_path ps (S i)) with (dir (take (S i) ps)).
  destruct (count_down_spec shard rows b (dir (take (S i) ps)) c t (cnt (S i))) as (t1 & ->); [apply Hc; lia|done|].
  set (c1 := <[_ := _]> c). assert (c1 !! count_key (S i) = Some (CInt64 (Z.of_nat (cnt (S i)) - 1))) as Hc1 by apply lookup_insert_eq.
  assert (forall p, p <> dir (take (S i) ps) -> c1 !! GenerateFolderCountKey p = c !! GenerateFolderCountKey p) as Hc1'.
  { intros p Hp. apply lookup_insert_ne. by intros E%count_key_inj. }
  destruct (Z.leb_spec (Z.of_nat (cnt (S i))) 1).
  - rewrite ptM_bind_eq. cbn [SetCtx]. set (c2 := <[_ := CInt 0]> c1).
    assert (forall p, c2 !! GenerateFolderCountKey p = c1 !! GenerateFolderCountKey p) as Hc2 by (intros p; by apply lookup_insert_ne).
    assert (forall k, (k <= i)%nat -> dir (take k ps) <> dir (take (S i) ps)) as Hlow.
    { intros k Hk E. apply dir_inj in E; auto using no_slash_take, headed_take. apply take_inj in E; lia. }
    destruct (IH (nodes ++ [(b, dir (take (S i) ps), false)]) c2 t1) as (j & c' & t' & -> & Hj & Hstop & Hdel & [Hd1 Hd2]); [lia| |].
    { intros k Hk. unfold counted. rewrite Hc2, Hc1' by (apply Hlow; lia). apply Hc. lia. }
    exists j, c', t'. split; [|split; [lia|split; [done|split]]].
    + rewrite levels_S by lia. cbn [fmap list_fmap]. by rewrite <-app_assoc.
    + intros k Hk. destruct (decide (k = S i)) as [->|]; [lia|]. apply Hdel. lia.
    + split.
      * intros k Hk1 Hk. destruct (decide (k = S i)) as [->|]; [|apply Hd1; lia].
        rewrite Hd2, Hc2; [done|]. intros k Hk1' Hk' E. by eapply (Hlow k); [lia|].
      * intros p Hp. rewrite Hd2, Hc2, Hc1'; [done|apply Hp; lia|]. intros k Hk1 Hk. apply Hp; lia.
  - exists (S i), c1, t1. rewrite levels_self. cbn [fmap list_fmap]. rewrite app_nil_r. split; [done|]. split; [done|].
    split; [right; lia|]. split; [lia|]. split.
    + intros k Hk1 Hk. replace k with (S i) by lia. done.
    + intros p Hp. apply Hc1'. apply Hp; lia.
Qed.
End delete_loop.

Section deletes.
Context (shard : string -> Z) (rows : list SlashPrefixTreeNode) (all : list obj).
Hypothesis Hbound : Z.of_nat (length rows) <= MaxInt64.
Hypothesis Hall : apart all.
Hypothesis Hheads : forall e, e ∈ all -> headed (parts (ob_name e)).

(** After some of the objects [all] were deleted in this block and [cur] are left. *)
Record deleted_so_far (cur : list obj) (c : context) (W : list SlashPrefixTreeNode) : Prop := {
  di_tree : tree_of cur W;
  di_len : (length W <= length rows)%nat;
  di_count : forall e k, e ∈ all -> (1 <= k < length (parts (ob_name e)))%nat ->
    let p := dir (take k (parts (ob_name e))) in counted c rows (ob_bucket e) p (kid_count (ob_bucket e) p W)
}.

Lemma counted_other c c' b p n : c' !! GenerateFolderCountKey p = c !! GenerateFolderCountKey p -> counted c rows b p n -> counted c' rows b p n.
Proof. unfold counted. by intros ->. Qed.

Lemma delete_step cur c W e t :
  e ∈ all -> e ∉ cur -> objs_ok (e :: cur) -> deleted_so_far (e :: cur) c W ->
  exists c' t' keys,
    deleteObject shard (fun _ => false) rows (ob_name e) (ob_bucket e) (ob_id e) (c, t) = ((c', t'), Some (Some (DeletePrefixTree keys))) /\
    deleted_so_far cur c' (exec (DeletePrefixTree keys) W).
Proof.
  intros Hin Hne Hok [HW Hlen Hcount]. set (ps := parts (ob_name e)). set (b := ob_bucket e).
  pose proof (parts_no_slash (ob_name e)) as Hs. pose proof (Hheads e Hin) as Hh. pose proof (parts_len (ob_name e)) as Hl.
  fold ps in Hs, Hh, Hl.
  destruct (delete_dirs_spec shard rows b ps (fun k => kid_count b (dir (take k ps)) W) Hs Hh) with
    (i := (length ps - 1)%nat) (nodes := [(b, ob_name e, true)]) (c := c) (t := t) as (j & c1 & t1 & E & Hj & Hstop & Hdel & [Hd1 Hd2]).
  { intros k. pose proof (kid_count_le b (dir (take k ps)) W). lia. } { lia. } { intros k Hk. apply Hcount; [done|]. fold ps. lia. }
  exists (<[GenerateObjectExistKey (hash_string (ob_id e)) := CInt 0]> c1), t1, (removed_keys e j). split.
  { unfold deleteObject. cbv zeta. rewrite ptM_bind_eq. fold ps. rewrite E. done. }
  change (exec (DeletePrefixTree (removed_keys e j)) W) with (remaining e W j).
  assert (forall b' p, kid_count b' p W = (kid_count b' p (removed e j) + kid_count b' p (remaining e W j))%nat) as Hrem
    by (intros; by apply (kid_count_remaining cur)).
  split.
  - by apply tree_of_delete.
  - etrans; [apply length_filter|done].
  - intros e' k He' Hk. cbv zeta. set (p := dir (take k (parts (ob_name e')))).
    assert (GenerateFolderCountKey p <> GenerateObjectExistKey (hash_string (ob_id e))) as Hobj by done.
    assert (p ∈ (fun m => dir (take m ps)) <$> levels (Nat.max 1 j - 1) (length ps - 1) <->
      exists m, (1 <= m)%nat /\ (j <= m <= length ps - 1)%nat /\ p = dir (take m ps)) as Hiff.
    { rewrite list_elem_of_fmap. setoid_rewrite elem_of_levels. split; intros (m & Hm); exists m; intuition lia. }
    destruct (decide (p ∈ (fun m => dir (take m ps)) <$> levels (Nat.max 1 j - 1) (length ps - 1))) as [(m & Hm1 & Hm & Hp)%Hiff|Hno].
    + assert (ob_bucket e' = b) as Hb.
      { assert (take k (parts (ob_name e')) = take m ps) as Et.
        { apply dir_inj in Hp; auto using no_slash_take, headed_take, parts_no_slash. }
        apply (Hall e' e (take m ps)); [done|done| |].
        - rewrite <-Et. by exists k.
        - exists m. fold ps. split; [lia|done]. }
      unfold counted. rewrite lookup_insert_ne by done. rewrite Hp, (Hd1 m) by lia. rewrite Hb, Hrem.
      unfold b at 1. rewrite (removed_kids cur e W j) by done. f_equal. lia.
    + eapply counted_other with (c := c).
      { rewrite lookup_insert_ne by done. apply Hd2. intros m Hm1 Hm Hp. apply Hno, Hiff. eauto. }
      assert (kid_count (ob_bucket e') p (removed e j) = O) as H0.
      { apply (removed_no_kids e W j); [done..|]. right. intros m Hm Hp. destruct m as [|m]; [|apply Hno, Hiff; exists (S m); split; [lia|done]].
        apply dir_inj in Hp; auto using no_slash_take, headed_take, parts_no_slash.
        apply (f_equal length) in Hp. rewrite !length_take in Hp. cbn in Hp. lia. }
      specialize (Hcount e' k He' Hk). cbv zeta in Hcount. fold p in Hcount. by rewrite Hrem, H0 in Hcount.
Qed.

Definition deletes (e : obj) (ev : pt_event) : Prop :=
  ev = EventDeleteObject (ob_bucket e) (ob_name e) (ob_id e) \/ ev = EventCancelCreateObject (ob_bucket e) (ob_name e) (ob_id e) \/
  ev = EventRejectSealObject (ob_bucket e) (ob_name e) (ob_id e).

Lemma deletes_all l es cur c W t :
  Forall2 deletes l es -> l ⊆ all -> NoDup (l ++ cur) -> objs_ok (l ++ cur) -> deleted_so_far (l ++ cur) c W ->
  exists c' t' ss, extract_all shard (fun _ => false) rows es (c, t) = ((c', t'), Some ss) /\
    deleted_so_far cur c' (foldl (fun W s => exec s W) W ss).
Proof.
  intros Hes. revert c W t. induction Hes as [|e ev l es He Hes IH]; intros c W t Hsub Hnd Hok Hd.
  { eexists _, _, []. split; [reflexivity|done]. }
  apply NoDup_cons in Hnd as [Hne Hnd].
  destruct (delete_step (l ++ cur) c W e t) as (c1 & t1 & keys & E1 & Hd1); [apply Hsub; left|done|done|done|].
  assert (ExtractEventStatements shard (fun _ => false) rows ev (c, t) = ((c1, t1), Some (Some (DeletePrefixTree keys)))) as E1'
    by (destruct He as [->|[->| ->] ]; exact E1).
  destruct (IH c1 (exec (DeletePrefixTree keys) W) t1) as (c2 & t2 & ss & E2 & Hd2);
    [intros x Hx; apply Hsub; by right|done|eapply objs_ok_sub; [|done]; by intros ? ?; right|done|].
  exists c2, t2, (DeletePrefixTree keys :: ss). split; [|done].
  cbn [extract_all]. rewrite ptM_bind_eq, E1', ptM_bind_eq, E2. done.
Qed.
End deletes.

(** A block that only deletes objects (or cancels or rejects their creation) leaves
    exactly the tree of the objects that remain: a directory goes exactly when its last
    object goes, however many of its objects the block deletes. *)
Theorem deleting_block_exact shard rows objs l es :
  tree_of (l ++ objs) rows -> Z.of_nat (length rows) <= MaxInt64 ->
  Forall2 deletes l es -> objs_ok (l ++ objs) -> NoDup (l ++ objs) -> apart l ->
  exists rows', Process shard (fun _ => false) true es ∅ rows = (∅, rows', true) /\ tree_of objs rows'.
Proof.
  intros Ht Hb Hes Hok Hnd Hap.
  assert (forall e, e ∈ l -> headed (parts (ob_name e))) as Hheads by (intros e He; apply Hok, elem_of_app; by left).
  destruct (deletes_all shard rows l Hb Hap Hheads l es objs ∅ rows 0%nat) as (c & t & ss & E & [HW _ _]); try done.
  unfold Process. rewrite E. by eexists.
Qed.

(** ** Where the tree breaks *)

Definition one_shard (_ : string) : Z := 0.
Definition up (_ : nat) : bool := false.
Definition ob_x : obj := mkObj "bkt" "a/x" 1.
Definition ob_y : obj := mkObj "bkt" "a/y" 2.
Definition ob_z : obj := mkObj "bkt2" "a/z" 3.
Definition create_ev (o : obj) : pt_event := EventCreateObject (ob_bucket o) (ob_name o) (ob_id o).
Definition delete_ev (o : obj) : pt_event := EventDeleteObject (ob_bucket o) (ob_name o) (ob_id o).
Definition rows_x : list SlashPrefixTreeNode := [fnode "bkt" ["a"%string]; onode ob_x].

Lemma folder_missing objs rows o ps :
  o ∈ objs -> above ps o -> fnode (ob_bucket o) ps ∉ rows -> ~ tree_of objs rows.
Proof. intros Ho Ha Hn [_ Hm]. apply Hn, Hm. right. exists (ob_bucket o), ps. split; [|done]. by exists o. Qed.

Lemma above_a o rest : parts (ob_name o) = "a"%string :: rest -> rest <> [] -> above ["a"%string] o.
Proof. intros E Hr. exists 1%nat. rewrite E. split; [|done]. destruct rest; [done|]. cbn. lia. Qed.

(** The directory of a new object is lost when the same block deletes the object that
    was alone in it, in either order; and when two buckets create the same directory
    name in one block the second one is not created. *)
Theorem mixed_blocks_break_tree :
  let run es rows := (Process one_shard up true es ∅ rows).1.2 in
  ~ tree_of [ob_y] (run [create_ev ob_y; delete_ev ob_x] rows_x) /\
  ~ tree_of [ob_y] (run [delete_ev ob_x; create_ev ob_y] rows_x) /\
  ~ tree_of [ob_x; ob_z] (run [create_ev ob_x; create_ev ob_z] []).
Proof.
  cbv zeta. split; [|split].
  - apply (folder_missing _ _ ob_y ["a"%string]); [left|by eapply above_a|].
    apply (bool_decide_eq_false_1 _). vm_compute. reflexivity.
  - apply (folder_missing _ _ ob_y ["a"%string]); [left|by eapply above_a|].
    apply (bool_decide_eq_false_1 _). vm_compute. reflexivity.
  - apply (folder_missing _ _ ob_z ["a"%string]); [right; left|by eapply above_a|].
    apply (bool_decide_eq_false_1 _). vm_compute. reflexivity.
Qed.

(** A block whose transaction failed leaves its marks in the context: when it is
    processed again the object and its directory are not created. *)
Theorem retried_block_loses_object :
  let '(ctx, rows, _) := Process one_shard up false [create_ev ob_x] ∅ [] in
  Process one_shard up true [create_ev ob_x] ctx rows = (∅, [], true).
Proof. vm_compute. reflexivity. Qed.

(** ** Concrete blocks *)

Definition ob_w : obj := mkObj "bkt" "a/b/w" 4.

Lemma toy_objs_ok : objs_ok [ob_y; ob_w; ob_x].
Proof.
  split.
  - intros o. rewrite !elem_of_cons, elem_of_nil. by intros [->|[->|[->|[]]]].
  - intros o. rewrite !elem_of_cons, elem_of_nil. intros [->|[->|[->|[]]]]; cbn; lia.
  - intros o o'. rewrite !elem_of_cons, !elem_of_nil. by intros [->|[->|[->|[]]]] [->|[->|[->|[]]]].
  - intros o o'. rewrite !elem_of_cons, !elem_of_nil. by intros [->|[->|[->|[]]]] [->|[->|[->|[]]]].
Qed.

Lemma tree_of_nil : tree_of [] [].
Proof.
  split; [constructor|]. intros n. rewrite elem_of_nil. split; [done|].
  intros [(o & Ho & _)|(b & ps & (o & Ho & _) & _)]; by apply not_elem_of_nil in Ho.
Qed.

Lemma apart_bucket b l : Forall (fun e => ob_bucket e = b) l -> apart l.
Proof. intros Hb e e' ps He He' _ _. rewrite Forall_forall in Hb. by rewrite (Hb e He), (Hb e' He'). Qed.

Lemma toy_nodup : NoDup [ob_y; ob_w; ob_x].
Proof. apply (bool_decide_eq_true_1 _). vm_compute. reflexivity. Qed.

Definition toy_tree : list SlashPrefixTreeNode :=
  [fnode "bkt" ["a"%string]; onode ob_y; fnode "bkt" ["a"; "b"]%string; onode ob_w; onode ob_x].

Lemma toy_tree_ok : tree_of [ob_y; ob_w; ob_x] toy_tree.
Proof.
  destruct (creates_all one_shard [] [] (objs_ok_sub [] _ (list_subseteq_nil _) toy_objs_ok) tree_of_nil [ob_y; ob_w; ob_x]
    (create_ev <$> [ob_y; ob_w; ob_x]) [] ∅ [] 0%nat) as (c & t & ss & E & [HW _ _ _ _]).
  - repeat constructor; by left.
  - split; try done; [exact tree_of_nil|intros b ps (o & Ho & _); by apply not_elem_of_nil in Ho].
  - exact toy_objs_ok.
  - exact toy_nodup.
  - by apply (apart_bucket "bkt"); repeat constructor.
  - apply (f_equal snd) in E. vm_compute in E. injection E as <-. eapply tree_of_ext; [|exact HW]. intros o. set_solver.
Qed.

(** Two objects of one new directory in one block, one of them deeper. *)
Lemma creating_block_exact_witness :
  exists rows', Process one_shard up true (create_ev <$> [ob_y; ob_w; ob_x]) ∅ [] = (∅, rows', true) /\
    tree_of [ob_y; ob_w; ob_x] rows'.
Proof.
  apply (creating_block_exact one_shard [] [] (objs_ok_sub [] _ (list_subseteq_nil _) toy_objs_ok) tree_of_nil [ob_y; ob_w; ob_x]).
  - repeat constructor; by left.
  - exact toy_objs_ok.
  - exact toy_nodup.
  - by apply (apart_bucket "bkt"); repeat constructor.
Defined.

(** Both directories go with their last objects. *)
Lemma deleting_block_exact_witness :
  exists rows', Process one_shard up true (delete_ev <$> [ob_y; ob_w; ob_x]) ∅ toy_tree = (∅, rows', true) /\ tree_of [] rows'.
Proof.
  apply (deleting_block_exact one_shard toy_tree [] [ob_y; ob_w; ob_x]).
  - exact toy_tree_ok.
  - cbn. go_lia.
  - repeat constructor; by left.
  - exact toy_objs_ok.
  - exact toy_nodup.
  - by apply (apart_bucket "bkt"); repeat constructor.
Defined.
