(* ===== verification/TaskKey.v ===== *)
(** Task keys and task kinds: base/types/gfsptask/task_key.go and
    core/task/const.go.  A key is the name under which a queue holds a task and
    under which the modules report it, so what matters is which tasks share one. *)
From Stdlib Require Import ZArith Lia Ascii.
From stdpp Require Import base gmap list strings pretty.
From S2P Require Import Prelude.

Local Open Scope Z_scope.
Local Open Scope string_scope.

(** ** core/task/const.go *)

Abbreviation TKey := string.

Inductive TType :=
| TypeTaskUnknown
| TypeTaskCreateBucketApproval
| TypeTaskMigrateBucketApproval
| TypeTaskCreateObjectApproval
| TypeTaskReplicatePieceApproval
| TypeTaskUpload
| TypeTaskReplicatePiece
| TypeTaskSealObject
| TypeTaskReceivePiece
| TypeTaskDownloadObject
| TypeTaskDownloadPiece
| TypeTaskChallengePiece
| TypeTaskGCObject
| TypeTaskGCZombiePiece
| TypeTaskGCMeta
| TypeTaskGCBucketMigration
| TypeTaskRecoverPiece
| TypeTaskMigrateGVG
| TypeTaskGCStaleVersionObject.

#[export] Instance TType_eq_dec : EqDecision TType.
Proof. solve_decision. Defined.

(** The map has no entry for [TypeTaskDownloadPiece] and
    [TypeTaskGCStaleVersionObject]. *)
Definition TypeTaskMap (t : TType) : option string :=
  match t with
  | TypeTaskUnknown => Some "UnknownTask"
  | TypeTaskCreateBucketApproval => Some "CreateBucketApprovalTask"
  | TypeTaskMigrateBucketApproval => Some "MigrateBucketApprovalTask"
  | TypeTaskCreateObjectApproval => Some "CreateObjectApprovalTask"
  | TypeTaskReplicatePieceApproval => Some "ReplicatePieceApprovalTask"
  | TypeTaskUpload => Some "UploadObjectTask"
  | TypeTaskReplicatePiece => Some "ReplicatePieceTask"
  | TypeTaskSealObject => Some "SealObjectTask"
  | TypeTaskReceivePiece => Some "ReceivePieceTask"
  | TypeTaskDownloadObject => Some "DownloadObjectTask"
  | TypeTaskDownloadPiece => None
  | TypeTaskChallengePiece => Some "ChallengePieceTask"
  | TypeTaskGCObject => Some "GCObjectTask"
  | TypeTaskGCZombiePiece => Some "GCZombiePieceTask"
  | TypeTaskGCMeta => Some "GCMetaTask"
  | TypeTaskGCBucketMigration => Some "GCBucketMigrationTask"
  | TypeTaskRecoverPiece => Some "RecoverPieceTask"
  | TypeTaskMigrateGVG => Some "MigrateGVGTask"
  | TypeTaskGCStaleVersionObject => None
  end.

Definition TaskTypeName (taskType : TType) : string :=
  match TypeTaskMap taskType with
  | None => default "" (TypeTaskMap TypeTaskUnknown)
  | Some nm => nm
  end.

Definition UnKnownTaskPriority : Z := 0.
Definition UnSchedulingPriority : Z := 0.
Definition MaxTaskPriority : Z := 255.
Definition DefaultLargerTaskPriority : Z := 170.
Definition DefaultSmallerPriority : Z := 85.

(** ** base/types/gfsptask/task_key.go *)

Definition Delimiter : string := "-".

Definition CombineKey (field : list string) : string :=
  foldl (fun key f => key +:+ Delimiter +:+ f) "" field.

(** [hex.EncodeToString] on bytes (integers below 256). *)
Definition hex_digit (d : Z) : ascii :=
  ascii_of_N (Z.to_N (if d <? 10 then 48 + d else 87 + d)%Z).

Fixpoint EncodeToString (bs : list Z) : string :=
  match bs with
  | [] => ""
  | b :: bs => String (hex_digit (Z.shiftr b 4)) (String (hex_digit (Z.land b 15)) (EncodeToString bs))
  end.

Definition GfSpCreateBucketApprovalTaskKey (bucket account : string) (fingerprint : list Z) : TKey :=
  "CreateBucketApproval" +:+ CombineKey ["bucket:" +:+ bucket; "account:" +:+ account;
    "fingerprint:" +:+ EncodeToString fingerprint].

Definition GfSpCreateObjectApprovalTaskKey (bucket object account : string) (fingerprint : list Z) : TKey :=
  "CreateObjectApproval" +:+ CombineKey ["bucket:" +:+ bucket; "object:" +:+ object;
    "account:" +:+ account; "fingerprint:" +:+ EncodeToString fingerprint].

Definition GfSpMigrateBucketApprovalTaskKey (bucket migrateBucketHash : string) : TKey :=
  "MigrateBucketApproval" +:+ CombineKey ["bucket:" +:+ bucket; "hash:" +:+ migrateBucketHash].

Definition GfSpReplicatePieceApprovalTaskKey (bucket object id : string) : TKey :=
  "ReplicatePieceApproval" +:+ CombineKey ["bucket:" +:+ bucket; "object:" +:+ object; "id:" +:+ id].

Definition GfSpDownloadObjectTaskKey (bucket object id : string) (low high : Z) : TKey :=
  "DownloadObject" +:+ CombineKey ["bucket:" +:+ bucket; "object:" +:+ object; "id:" +:+ id;
    "low:" +:+ pretty low; "high:" +:+ pretty high].

Definition GfSpDownloadPieceTaskKey (bucket object pieceKey : string) (pieceOffset pieceLength : Z) : TKey :=
  "DownloadPiece" +:+ CombineKey ["bucket:" +:+ bucket; "object:" +:+ object; "piece:" +:+ pieceKey;
    "offset:" +:+ pretty pieceOffset; "length:" +:+ pretty pieceLength].

Definition GfSpChallengePieceTaskKey (bucket object id : string) (sIdx rIdx : Z) (user : string) : TKey :=
  "ChallengePiece" +:+ CombineKey ["bucket:" +:+ bucket; "object:" +:+ object; "id:" +:+ id;
    "sIdx:" +:+ pretty sIdx; "rIdx:" +:+ pretty rIdx; user].

Definition GfSpUploadObjectTaskKey (bucket object id : string) : TKey :=
  "Uploading" +:+ CombineKey ["bucket:" +:+ bucket; "object:" +:+ object; "id:" +:+ id].

Definition GfSpResumableUploadObjectTaskKey (bucket object id : string) (offset : Z) : TKey :=
  "ResumableUploading" +:+ CombineKey [bucket; object; id; pretty offset].

Definition GfSpReplicatePieceTaskKey (bucket object id : string) : TKey :=
  "Uploading" +:+ CombineKey ["bucket:" +:+ bucket; "object:" +:+ object; "id:" +:+ id].

Definition GfSpRecoverPieceTaskKey (bucket object id : string) (pIdx replicateIdx : Z) : TKey :=
  if (replicateIdx >=? 0)%Z then
    "Recovering" +:+ CombineKey ["bucket:" +:+ bucket; "object:" +:+ object; "id:" +:+ id;
      "segIdx:" +:+ pretty pIdx; "ecIdx:" +:+ pretty replicateIdx]
  else
    "Recovering" +:+ CombineKey ["bucket:" +:+ bucket; "object:" +:+ object; "id:" +:+ id;
      "segIdx:" +:+ pretty pIdx].

Definition GfSpSealObjectTaskKey (bucket object id : string) : TKey :=
  "Uploading" +:+ CombineKey ["bucket:" +:+ bucket; "object:" +:+ object; "id:" +:+ id].

Definition GfSpReceivePieceTaskKey (bucket object id : string) (rIdx pIdx : Z) : TKey :=
  "ReceivePiece" +:+ CombineKey ["bucket:" +:+ bucket; "object:" +:+ object; "id:" +:+ id;
    "segmentIdx:" +:+ pretty rIdx; "redundancyIdx:" +:+ pretty pIdx].

Definition GfSpGCObjectTaskKey (start end_ time : Z) : TKey :=
  "GCObject" +:+ CombineKey ["start" +:+ pretty start; "end" +:+ pretty end_; "time" +:+ pretty time].

Definition GfSpGCZombiePieceTaskKey (start end_ time : Z) : TKey :=
  "GCZombiePiece" +:+ CombineKey ["start" +:+ pretty start; "end" +:+ pretty end_; "time" +:+ pretty time].

Definition GfSpGCStaleVersionObjectTaskKey (objectID redundancyIndex version time : Z) : TKey :=
  "GCStaleVersionObject" +:+ CombineKey ["object_id" +:+ pretty objectID; "version" +:+ pretty version;
    "redundancy_index" +:+ pretty redundancyIndex; "time" +:+ pretty time].

Definition GfSpGfSpGCMetaTaskKey (time : Z) : TKey := "GCMeta" +:+ CombineKey ["time" +:+ pretty time].

Definition GfSpGCBucketMigrationTaskKey (bucketID : Z) : TKey :=
  "GCBucketMigration" +:+ CombineKey ["bucketID" +:+ pretty bucketID].

Definition GfSpMigrateGVGTaskKey (oldGvgID bucketID redundancyIndex : Z) : TKey :=
  "MigrateGVG" +:+ CombineKey ["oldGvgID" +:+ pretty oldGvgID; "bucketID" +:+ pretty bucketID;
    "redundancyIndex" +:+ pretty redundancyIndex].

Definition GfSpMigrateBucketTaskKey (bucketID : Z) : TKey :=
  "MigrateBucket" +:+ CombineKey ["bucketID" +:+ pretty bucketID].

Definition GfSpMigratePieceTaskKey (object id : string) (redundancyIdx ecIdx : Z) : TKey :=
  "MigratePiece" +:+ CombineKey ["object:" +:+ object; "id:"; id; "segIdx:"; pretty redundancyIdx;
    "redundancyIndex:"; pretty ecIdx].

(** ** Proofs *)

(** A field "label:value" whose value has no colon, at the end of a key; and one
    at the front. *)
Lemma field_last o o' lbl i i' :
  no_char ":" i -> no_char ":" i' ->
  o +:+ lbl +:+ ":" +:+ i = o' +:+ lbl +:+ ":" +:+ i' -> o = o' /\ i = i'.
Proof.
  intros Hi Hi' E. rewrite <-!string_app_assoc, !(string_app_assoc (_ +:+ _) ":") in E.
  apply split_last in E as [E ->]; [|done|done]. by apply string_app_inv_r in E as ->.
Qed.

Lemma field_first v v' lbl r r' :
  no_char ":" v -> no_char ":" v' -> no_char ":" lbl ->
  v +:+ lbl +:+ ":" +:+ r = v' +:+ lbl +:+ ":" +:+ r' -> v = v' /\ r = r'.
Proof.
  intros Hv Hv' Hl E. rewrite <-!string_app_assoc, !(string_app_assoc (_ +:+ _) ":") in E.
  apply split_first in E as [E ->]; [|rewrite no_char_app; by apply andb_True..].
  by apply string_app_inv_r in E as ->.
Qed.

(** The shape "prefix-bucket:B-object:O...": the bucket of a key is determined. *)
Lemma object_fields pre bucket bucket' object object' id id' :
  no_char ":" bucket -> no_char ":" bucket' -> no_char ":" id -> no_char ":" id' ->
  pre +:+ CombineKey ["bucket:" +:+ bucket; "object:" +:+ object; "id:" +:+ id] =
  pre +:+ CombineKey ["bucket:" +:+ bucket'; "object:" +:+ object'; "id:" +:+ id'] ->
  bucket = bucket' /\ object = object' /\ id = id'.
Proof.
  intros Hb Hb' Hi Hi' E. apply string_app_inv_l in E. unfold CombineKey, Delimiter in E.
  cbn [foldl] in E. rewrite !string_app_assoc in E.
  apply (string_app_inv_l "-bucket:") in E.
  apply (field_first _ _ "-object") in E as [-> E]; [|done..].
  apply (field_last _ _ "-id") in E as [-> ->]; done.
Qed.

Local Close Scope string_scope.

(** ** base/gfspapp/task_options.go

    The timeout, the number of retries and the priority of a task by its type, and
    Uint64ToInt64 of util/string.go.  A division by zero is a panic ([None]). *)

(** The options of GfSpBaseApp (app.go), all int64. *)
Record app_options := mkAppOptions {
  uploadSpeed : Z;
  downloadSpeed : Z;
  replicateSpeed : Z;
  sealObjectTimeout : Z;
  gcObjectTimeout : Z;
  gcZombieTimeout : Z;
  gcMetaTimeout : Z;
  gcBucketMigrationTimeout : Z;
  gcStaleVersionObjectTimeout : Z;
  migrateGVGTimeout : Z;
  sealObjectRetry : Z;
  replicateRetry : Z;
  receiveConfirmRetry : Z;
  gcObjectRetry : Z;
  gcZombieRetry : Z;
  gcMetaRetry : Z;
  gcBucketMigrationRetry : Z;
  recoveryRetry : Z;
  migrateGVGRetry : Z;
}.

Definition MinSpeed : Z := 10 * 1024 * 1024.
Definition NotUseTimeout : Z := 0.
Definition NotUseRetry : Z := 0.

(** A number that does not fit is an error of ParseInt, for which the result is 0. *)
Definition Uint64ToInt64 (n : Z) : Z := if n <=? MaxInt64 then n else 0.

(** [x / y] on uint64. *)
Definition udiv (x y : Z) : option Z := if y =? 0 then None else Some (x / y).

(** The timeout of a transfer of [size] bytes, between [min] and [max] seconds. *)
Definition transfer_timeout (size speed1 extra min max : Z) : option Z :=
  quotient ← udiv size speed1;
  let timeout := uwrap 64 (quotient / MinSpeed + extra) in
  Some (if timeout <? min then min else if timeout >? max then max else Uint64ToInt64 timeout).

(** A configured value, between [min] and [max]. *)
Definition clamp (v min max : Z) : Z := if v <? min then min else if v >? max then max else v.

Section options.
Context (g : app_options).

Definition TaskTimeout (ty : TType) (size : Z) : option Z :=
  match ty with
  | TypeTaskUpload => transfer_timeout size (uwrap 64 (swrap 64 (uploadSpeed g + 1))) 0 2 300
  | TypeTaskReplicatePiece => transfer_timeout size (uwrap 64 (replicateSpeed g + 1)) 0 90 500
  | TypeTaskReceivePiece => transfer_timeout size (uwrap 64 (replicateSpeed g + 1)) 0 90 300
  | TypeTaskSealObject => Some (clamp (sealObjectTimeout g) 90 300)
  | TypeTaskDownloadObject | TypeTaskChallengePiece =>
    transfer_timeout size (uwrap 64 (downloadSpeed g + 1)) 0 2 300
  | TypeTaskGCObject => Some (clamp (gcObjectTimeout g) 300 600)
  | TypeTaskGCZombiePiece => Some (clamp (gcZombieTimeout g) 300 600)
  | TypeTaskGCMeta => Some (clamp (gcMetaTimeout g) 300 600)
  | TypeTaskRecoverPiece => transfer_timeout size (uwrap 64 (replicateSpeed g + 1)) 1 10 50
  | TypeTaskMigrateGVG => Some (clamp (migrateGVGTimeout g) 1800 3600)
  | TypeTaskGCBucketMigration => Some (clamp (gcBucketMigrationTimeout g) 1800 3600)
  | TypeTaskGCStaleVersionObject => Some (clamp (gcStaleVersionObjectTimeout g) 300 600)
  | _ => Some NotUseTimeout
  end.

Definition TaskMaxRetry (ty : TType) : Z :=
  match ty with
  | TypeTaskReplicatePiece => clamp (replicateRetry g) 3 6
  | TypeTaskReceivePiece => clamp (receiveConfirmRetry g) 1 3
  | TypeTaskSealObject => clamp (sealObjectRetry g) 3 10
  | TypeTaskGCObject => clamp (gcObjectRetry g) 3 5
  | TypeTaskGCZombiePiece => clamp (gcZombieRetry g) 3 5
  | TypeTaskGCMeta => clamp (gcMetaRetry g) 3 5
  | TypeTaskRecoverPiece => clamp (recoveryRetry g) 2 3
  | TypeTaskMigrateGVG => clamp (migrateGVGRetry g) 2 3
  | TypeTaskGCBucketMigration => clamp (gcBucketMigrationRetry g) 3 5
  | _ => NotUseRetry
  end.
End options.

(** The priorities are constants of uint8. *)
Definition TaskPriority (ty : TType) : Z :=
  match ty with
  | TypeTaskReplicatePiece => MaxTaskPriority
  | TypeTaskSealObject | TypeTaskMigrateGVG => DefaultSmallerPriority
  | TypeTaskReceivePiece | TypeTaskGCObject | TypeTaskGCZombiePiece | TypeTaskGCMeta
  | TypeTaskGCBucketMigration | TypeTaskGCStaleVersionObject | TypeTaskRecoverPiece =>
    DefaultSmallerPriority / 4
  | _ => UnSchedulingPriority
  end.

Inductive TPriorityLevel := TLowPriorityLevel | TMediumPriorityLevel | THighPriorityLevel.

Definition TaskPriorityLevel (priority : Z) : TPriorityLevel :=
  if priority <=? DefaultSmallerPriority then TLowPriorityLevel
  else if priority >? DefaultLargerTaskPriority then THighPriorityLevel
  else TMediumPriorityLevel.

(** ** Facts *)

Lemma clamp_range v min max : min <= max -> min <= clamp v min max <= max.
Proof. intros H. unfold clamp. rewrite Z.gtb_ltb. destruct (Z.ltb_spec v min), (Z.ltb_spec max v); lia. Qed.

Lemma transfer_timeout_range size speed1 extra min max t :
  0 <= min <= max -> max <= MaxInt64 -> transfer_timeout size speed1 extra min max = Some t -> min <= t <= max.
Proof.
  intros Hm Hmax. unfold transfer_timeout, udiv, Uint64ToInt64. case_match; cbn; [done|intros [= <-]].
  rewrite Z.gtb_ltb. set (x := uwrap 64 _).
  destruct (Z.ltb_spec x min), (Z.ltb_spec max x); [lia..|]. destruct (Z.leb_spec x MaxInt64); lia.
Qed.
