(* ===== verification/Task.v ===== *)
(** Tasks: the common part of every task (base/types/gfsptask/task.go), the error
    value it carries (base/types/gfsperrors/error.go) and the [Task] interface
    (core/task/task.go) as the class [CoreTask].  A concrete task type embeds a
    [GfSpTask] and forwards most methods to it; those are defined here once, over
    the class.  The clock is an argument. *)
From Stdlib Require Import ZArith Lia Ascii.
From stdpp Require Import base list strings pretty.
From S2P Require Import Prelude Limit TaskKey.

Local Open Scope Z_scope.
Local Open Scope go_scope.

(** ** base/types/gfsperrors/error.go *)

Record GfSpError := mkGfSpError {
  CodeSpace : string;
  HttpStatusCode : Z;
  InnerCode : Z;
  Description : string
}.

#[export] Instance GfSpError_eq_dec : EqDecision GfSpError.
Proof. solve_decision. Defined.

(** A Go error value: a [*GfSpError] or any other error, with its message. *)
Inductive goerror :=
| GfSpErr (e : GfSpError)
| OtherErr (msg : string).

Definition DefaultCodeSpace : string := "GfSp".
Definition DefaultInnerCode : Z := 999999.
Definition StatusInternalServerError : Z := 500.

(** [unmarshal] is [json.Unmarshal] into a [GfSpError]. *)
Definition MakeGfSpError (unmarshal : string -> option GfSpError) (err : option goerror) :
    option GfSpError :=
  match err with
  | None => None
  | Some (GfSpErr gfspErr) => if InnerCode gfspErr =? 0 then None else Some gfspErr
  | Some (OtherErr errInfo) =>
    let undefined := mkGfSpError DefaultCodeSpace StatusInternalServerError DefaultInnerCode errInfo in
    match String.index 0 "desc = " errInfo with
    | None => Some undefined
    | Some i =>
      if bool_decide (i + 6 <= String.length errInfo - 1)%nat then
        match unmarshal (String.substring (i + 6) (String.length errInfo - (i + 6)) errInfo) with
        | Some gfspErr => if HttpStatusCode gfspErr =? 0 then Some undefined else Some gfspErr
        | None => Some undefined
        end
      else Some undefined
    end
  end.

(** ** base/types/gfsptask/task.go *)

Module GfSpTask.
Record t := mk {
  Address : string;
  CreateTime : Z;
  UpdateTime : Z;
  Timeout : Z;
  TaskPriority : Z;
  Retry : Z;
  MaxRetry : Z;
  UserAddress : string;
  Logs : string;
  Err : option GfSpError
}.

(** [&GfSpTask{}] *)
Definition zero : t := mk "" 0 0 0 0 0 0 "" "" None.

#[export] Instance t_eq_dec : EqDecision t.
Proof. solve_decision. Defined.

Definition Key (m : t) : TKey := "".
Definition Type_ (m : t) : TType := TypeTaskUnknown.

Definition SetAddress (address : string) (m : t) : t :=
  mk address (CreateTime m) (UpdateTime m) (Timeout m) (TaskPriority m) (Retry m) (MaxRetry m)
    (UserAddress m) (Logs m) (Err m).
Definition SetCreateTime (time : Z) (m : t) : t :=
  mk (Address m) time (UpdateTime m) (Timeout m) (TaskPriority m) (Retry m) (MaxRetry m)
    (UserAddress m) (Logs m) (Err m).
Definition SetUpdateTime (time : Z) (m : t) : t :=
  mk (Address m) (CreateTime m) time (Timeout m) (TaskPriority m) (Retry m) (MaxRetry m)
    (UserAddress m) (Logs m) (Err m).
Definition SetTimeout (timeout : Z) (m : t) : t :=
  mk (Address m) (CreateTime m) (UpdateTime m) timeout (TaskPriority m) (Retry m) (MaxRetry m)
    (UserAddress m) (Logs m) (Err m).

Definition ExceedTimeout (now : Z) (m : t) : bool := UpdateTime m +' Timeout m <? now.

Definition SetRetry (retry : Z) (m : t) : t :=
  mk (Address m) (CreateTime m) (UpdateTime m) (Timeout m) (TaskPriority m) retry (MaxRetry m)
    (UserAddress m) (Logs m) (Err m).
Definition IncRetry (m : t) : t := SetRetry (Retry m +' 1) m.

Definition ExceedRetry (m : t) : bool := Retry m >=? MaxRetry m.
Definition Expired (now : Z) (m : t) : bool := ExceedRetry m && ExceedTimeout now m.

(** [TPriority] is a [uint8], the field an [int32]. *)
Definition GetPriority (m : t) : Z := uwrap 8 (TaskPriority m).
Definition SetPriority (priority : Z) (m : t) : t :=
  mk (Address m) (CreateTime m) (UpdateTime m) (Timeout m) priority (Retry m) (MaxRetry m)
    (UserAddress m) (Logs m) (Err m).

Definition SetMaxRetry (limit : Z) (m : t) : t :=
  mk (Address m) (CreateTime m) (UpdateTime m) (Timeout m) (TaskPriority m) (Retry m) limit
    (UserAddress m) (Logs m) (Err m).
Definition SetUserAddress (address : string) (m : t) : t :=
  mk (Address m) (CreateTime m) (UpdateTime m) (Timeout m) (TaskPriority m) (Retry m) (MaxRetry m)
    address (Logs m) (Err m).
Definition SetLogs (logs : string) (m : t) : t :=
  mk (Address m) (CreateTime m) (UpdateTime m) (Timeout m) (TaskPriority m) (Retry m) (MaxRetry m)
    (UserAddress m) logs (Err m).

Definition nl : string := String (ascii_of_nat 10) "".

(** [now_string] is [time.Now().String()]. *)
Definition AppendLog (now_string log : string) (m : t) : t :=
  SetLogs (Logs m +:+ (now_string +:+ "-" +:+ log +:+ nl)) m.

Definition Error (m : t) : option GfSpError :=
  match Err m with
  | None => None
  | Some e => if InnerCode e =? 0 then None else Some e
  end.

Definition SetError (unmarshal : string -> option GfSpError) (err : option goerror) (m : t) : t :=
  mk (Address m) (CreateTime m) (UpdateTime m) (Timeout m) (TaskPriority m) (Retry m) (MaxRetry m)
    (UserAddress m) (Logs m) (MakeGfSpError unmarshal err).
End GfSpTask.
Export (hints) GfSpTask.

Definition LimitEstimateByPriority (priority : Z) : GfSpLimit.t :=
  if priority <? DefaultSmallerPriority then GfSpLimit.mk 0 1 0 0 1 0 0 0 0
  else if priority >? DefaultLargerTaskPriority then GfSpLimit.mk 0 1 1 0 0 0 0 0 0
  else GfSpLimit.mk 0 1 0 1 0 0 0 0 0.

(** ** The [Task] interface

    What a task type defines itself; [EstimateLimit] is [None] where it panics. *)
Class CoreTask (T : Type) := {
  GetTask : T -> GfSpTask.t;
  set_task : GfSpTask.t -> T -> T;
  Key : T -> TKey;
  Type_ : T -> TType;
  EstimateLimit : T -> option GfSpLimit.t
}.

(** The embedded task is a field. *)
Class CoreTaskOk (T : Type) `{CoreTask T} : Prop := {
  get_set_task b m : GetTask (set_task b m) = b;
  set_get_task m : set_task (GetTask m) m = m;
  set_set_task a b m : set_task a (set_task b m) = set_task a m;
  type_set_task b m : Type_ (set_task b m) = Type_ m
}.

(** *** The forwarded methods *)
Section forward.
Context {T : Type} `{CoreTask T}.
Implicit Types m : T.

Definition on_task (f : GfSpTask.t -> GfSpTask.t) m : T := set_task (f (GetTask m)) m.

Definition GetAddress m : string := GfSpTask.Address (GetTask m).
Definition SetAddress (address : string) : T -> T := on_task (GfSpTask.SetAddress address).
Definition GetCreateTime m : Z := GfSpTask.CreateTime (GetTask m).
Definition SetCreateTime (time : Z) : T -> T := on_task (GfSpTask.SetCreateTime time).
Definition GetUpdateTime m : Z := GfSpTask.UpdateTime (GetTask m).
Definition SetUpdateTime (time : Z) : T -> T := on_task (GfSpTask.SetUpdateTime time).
Definition GetTimeout m : Z := GfSpTask.Timeout (GetTask m).
Definition SetTimeout (time : Z) : T -> T := on_task (GfSpTask.SetTimeout time).
Definition ExceedTimeout (now : Z) m : bool := GfSpTask.ExceedTimeout now (GetTask m).
Definition GetRetry m : Z := GfSpTask.Retry (GetTask m).
Definition IncRetry : T -> T := on_task GfSpTask.IncRetry.
Definition SetRetry (retry : Z) : T -> T := on_task (GfSpTask.SetRetry retry).
Definition GetMaxRetry m : Z := GfSpTask.MaxRetry (GetTask m).
Definition SetMaxRetry (limit : Z) : T -> T := on_task (GfSpTask.SetMaxRetry limit).
Definition ExceedRetry m : bool := GfSpTask.ExceedRetry (GetTask m).
Definition Expired (now : Z) m : bool := GfSpTask.Expired now (GetTask m).
Definition GetPriority m : Z := GfSpTask.GetPriority (GetTask m).
Definition SetPriority (priority : Z) : T -> T := on_task (GfSpTask.SetPriority priority).
Definition GetUserAddress m : string := GfSpTask.UserAddress (GetTask m).
Definition SetUserAddress (address : string) : T -> T := on_task (GfSpTask.SetUserAddress address).
Definition GetLogs m : string := GfSpTask.Logs (GetTask m).
Definition SetLogs (logs : string) : T -> T := on_task (GfSpTask.SetLogs logs).
Definition AppendLog (now_string log : string) : T -> T := on_task (GfSpTask.AppendLog now_string log).
Definition Error m : option GfSpError := GfSpTask.Error (GetTask m).
Definition SetError unmarshal (err : option goerror) : T -> T := on_task (GfSpTask.SetError unmarshal err).
End forward.

(** A limit of [memory] bytes plus the task slot of a priority: the pattern
    [l := &GfSpLimit{Memory: memory}; l.Add(LimitEstimateByPriority(prio))]. *)
Definition memory_limit (memory prio : Z) : GfSpLimit.t :=
  GfSpLimit.Add (GfSpLimit.mk memory 0 0 0 0 0 0 0 0) (LimitEstimateByPriority prio).

(** ** Proofs *)

(** The estimate asks for the memory and exactly one task slot, that of the
    priority's level. *)
Lemma memory_limit_exact memory prio :
  is_int64 memory ->
  memory_limit memory prio =
    GfSpLimit.mk memory 1
      (if DefaultLargerTaskPriority <? prio then 1 else 0)
      (if (DefaultSmallerPriority <=? prio) && (prio <=? DefaultLargerTaskPriority) then 1 else 0)
      (if prio <? DefaultSmallerPriority then 1 else 0) 0 0 0 0.
Proof.
  intros Hm. unfold memory_limit, LimitEstimateByPriority, GfSpLimit.Add.
  unfold DefaultSmallerPriority, DefaultLargerTaskPriority in *.
  rewrite Z.gtb_ltb.
  destruct (Z.ltb_spec prio 85), (Z.ltb_spec 170 prio), (Z.leb_spec 85 prio), (Z.leb_spec prio 170);
    try lia; cbn -[swrap]; rewrite Z.add_0_r, int64_wrap_id by done; reflexivity.
Qed.
