(* ===== verification/TaskTypes.v ===== *)
(** The concrete task types of base/types/gfsptask (upload.go, download.go,
    approval.go, gc.go, recovery.go, migrate_gvg.go), one Module each: the message,
    its Init function (with the clock readings [now], [now2] as arguments), its key,
    kind and resource estimate, its own setters, and the [CoreTask] instance.

    The chain's message types are not part of this repository; a task reads only the
    fields listed below, and the pointers it holds are not nil where it follows them. *)
From Stdlib Require Import ZArith Lia SpecFloat.
From stdpp Require Import base list strings pretty.
From S2P Require Import Prelude Limit TaskKey Task.

Local Open Scope Z_scope.
Local Open Scope go_scope.

(** ** The fields of the chain's messages *)

Inductive RedundancyType := REDUNDANCY_EC_TYPE | REDUNDANCY_REPLICA_TYPE.

(** The fields of the chain's object info that the tasks and the manager read. *)
Record ObjectInfo := mkObjectInfo {
  BucketName : string;
  ObjectName : string;
  ObjId : Z;
  PayloadSize : Z;
  RedundancyType_ : RedundancyType;
  ObjVersion : Z;
  ObjIsUpdating : bool
}.

(** [Id.String()], the decimal object id. *)
Definition IdString (o : ObjectInfo) : string := pretty (ObjId o).

Record Params := mkParams {
  MaxSegmentSize : Z;
  RedundantDataChunkNum : Z;
  RedundantParityChunkNum : Z;
  MaxPayloadSize : Z
}.

#[export] Instance RedundancyType_eq_dec : EqDecision RedundancyType.
Proof. solve_decision. Defined.
#[export] Instance ObjectInfo_eq_dec : EqDecision ObjectInfo.
Proof. solve_decision. Defined.
#[export] Instance Params_eq_dec : EqDecision Params.
Proof. solve_decision. Defined.

Record BucketInfo := mkBucketInfo { bucket_name : string }.

(** The approval in a message: the height it expires at, the family picked for the bucket,
    and the signature of the storage provider. *)
Record SpApproval := mkSpApproval { ap_ExpiredHeight : Z; ap_FamilyId : Z; ap_Sig : list Z }.
Record MsgCreateBucket := mkMsgCreateBucket { cb_BucketName : string; cb_Creator : string; cb_Approval : SpApproval }.
Record MsgMigrateBucket := mkMsgMigrateBucket { mb_BucketName : string; mb_DstPrimarySpId : Z; mb_Approval : SpApproval }.
Record MsgCreateObject := mkMsgCreateObject { co_BucketName : string; co_ObjectName : string; co_Approval : SpApproval }.
Record MsgDelegateCreateObject := mkMsgDelegate { dg_BucketName : string; dg_ObjectName : string }.

(** The bytes of a migration message, which include its approval. *)
Class SignBytes := GetSignBytes : MsgMigrateBucket -> list Z.

Definition ap_with_height (height : Z) (a : SpApproval) : SpApproval := mkSpApproval height (ap_FamilyId a) (ap_Sig a).
Definition ap_with_family (family : Z) (a : SpApproval) : SpApproval := mkSpApproval (ap_ExpiredHeight a) family (ap_Sig a).
Definition ap_with_sig (sig : list Z) (a : SpApproval) : SpApproval := mkSpApproval (ap_ExpiredHeight a) (ap_FamilyId a) sig.

Definition cb_with (f : SpApproval -> SpApproval) (m : MsgCreateBucket) : MsgCreateBucket :=
  mkMsgCreateBucket (cb_BucketName m) (cb_Creator m) (f (cb_Approval m)).
Definition mb_with (f : SpApproval -> SpApproval) (m : MsgMigrateBucket) : MsgMigrateBucket :=
  mkMsgMigrateBucket (mb_BucketName m) (mb_DstPrimarySpId m) (f (mb_Approval m)).
Definition co_with (f : SpApproval -> SpApproval) (m : MsgCreateObject) : MsgCreateObject :=
  mkMsgCreateObject (co_BucketName m) (co_ObjectName m) (f (co_Approval m)).

Record GlobalVirtualGroup := mkGVG { gvg_id : Z }.
Record StorageProvider := mkStorageProvider { sp_id : Z }.

(** ** float64

    IEEE 754 double precision, round to nearest even, from the Standard Library's
    executable specification. *)

Definition f64 (n : Z) : spec_float := binary_normalize 53 1024 n 0 false.
Definition f64_mul : spec_float -> spec_float -> spec_float := SFmul 53 1024.
Definition f64_add : spec_float -> spec_float -> spec_float := SFadd 53 1024.
Definition f64_div : spec_float -> spec_float -> spec_float := SFdiv 53 1024.

(** [math.Ceil] of a finite number, as an integer; infinities and NaN have none. *)
Definition f64_ceil (x : spec_float) : option Z :=
  match x with
  | S754_zero _ => Some 0
  | S754_finite s m e =>
    let v := if s then Z.neg m else Z.pos m in
    Some (if 0 <=? e then v * 2 ^ e else - (- v / 2 ^ (- e)))
  | _ => None
  end.

(** [int64(f)]: the conversion of a value out of range is left to the
    implementation by the language. *)
Definition int64_of_f64 (x : option Z) : option Z :=
  n ← x; if (MinInt64 <=? n) && (n <=? MaxInt64) then Some n else None.


(** ** [GfSpUploadObjectTask] *)

Module GfSpUploadObjectTask.
Record t := mk {
  Task : GfSpTask.t;
  VirtualGroupFamilyId : Z;
  ObjectInfo_ : ObjectInfo;
  StorageParams : Params;
  IsAgentUpload : bool
}.

Definition InitUploadObjectTask (vgfID : Z) (object : ObjectInfo) (params : Params) (timeout : Z) (isAgentUpload : bool) (now now2 : Z) : t :=
  mk (GfSpTask.SetTimeout timeout (GfSpTask.SetUpdateTime now2 (GfSpTask.SetCreateTime now GfSpTask.zero)))
    vgfID object params isAgentUpload.

Definition set_task (b : GfSpTask.t) (m : t) : t :=
  mk b (VirtualGroupFamilyId m) (ObjectInfo_ m) (StorageParams m) (IsAgentUpload m).

Definition SetObjectInfo (v : ObjectInfo) (m : t) : t :=
  mk (Task m) (VirtualGroupFamilyId m) v (StorageParams m) (IsAgentUpload m).
Definition SetStorageParams (v : Params) (m : t) : t :=
  mk (Task m) (VirtualGroupFamilyId m) (ObjectInfo_ m) v (IsAgentUpload m).

Definition Key (m : t) : TKey :=
  GfSpUploadObjectTaskKey (BucketName (ObjectInfo_ m)) (ObjectName (ObjectInfo_ m)) (IdString (ObjectInfo_ m)).

Definition EstimateLimit (m : t) : option GfSpLimit.t :=
  let l := if PayloadSize (ObjectInfo_ m) >=? MaxSegmentSize (StorageParams m)
           then swrap 64 (MaxSegmentSize (StorageParams m)) *' 2
           else swrap 64 (PayloadSize (ObjectInfo_ m)) *' 2 in
  Some (memory_limit l (GfSpTask.GetPriority (Task m))).

#[export] Instance task : CoreTask t := {
  Task.GetTask := Task;
  Task.set_task := set_task;
  Task.Key := Key;
  Task.Type_ _ := TypeTaskUpload;
  Task.EstimateLimit := EstimateLimit
}.

#[export] Instance task_ok : CoreTaskOk t.
Proof. split; intros; by destruct m. Qed.
End GfSpUploadObjectTask.
Export (hints) GfSpUploadObjectTask.


(** ** [GfSpResumableUploadObjectTask] *)

Module GfSpResumableUploadObjectTask.
Record t := mk {
  Task : GfSpTask.t;
  ObjectInfo_ : ObjectInfo;
  StorageParams : Params;
  Offset : Z;
  Length : Z;
  Completed : bool;
  VirtualGroupFamilyId : Z;
  IsAgentUpload : bool
}.

Definition InitResumableUploadObjectTask (vgfID : Z) (object : ObjectInfo) (params : Params) (timeout : Z) (complete : bool) (offset : Z) (isAgentUpload : bool) (now now2 : Z) : t :=
  mk (GfSpTask.SetTimeout timeout (GfSpTask.SetUpdateTime now2 (GfSpTask.SetCreateTime now GfSpTask.zero)))
    object params offset 0 complete vgfID isAgentUpload.

Definition set_task (b : GfSpTask.t) (m : t) : t :=
  mk b (ObjectInfo_ m) (StorageParams m) (Offset m) (Length m) (Completed m) (VirtualGroupFamilyId m) (IsAgentUpload m).

Definition SetObjectInfo (v : ObjectInfo) (m : t) : t :=
  mk (Task m) v (StorageParams m) (Offset m) (Length m) (Completed m) (VirtualGroupFamilyId m) (IsAgentUpload m).
Definition SetStorageParams (v : Params) (m : t) : t :=
  mk (Task m) (ObjectInfo_ m) v (Offset m) (Length m) (Completed m) (VirtualGroupFamilyId m) (IsAgentUpload m).
Definition SetOffset (v : Z) (m : t) : t :=
  mk (Task m) (ObjectInfo_ m) (StorageParams m) v (Length m) (Completed m) (VirtualGroupFamilyId m) (IsAgentUpload m).
Definition SetCompleted (v : bool) (m : t) : t :=
  mk (Task m) (ObjectInfo_ m) (StorageParams m) (Offset m) (Length m) v (VirtualGroupFamilyId m) (IsAgentUpload m).

Definition Key (m : t) : TKey :=
  GfSpResumableUploadObjectTaskKey (BucketName (ObjectInfo_ m)) (ObjectName (ObjectInfo_ m)) (IdString (ObjectInfo_ m)) (Offset m).

Definition EstimateLimit (m : t) : option GfSpLimit.t :=
  let l := if PayloadSize (ObjectInfo_ m) >=? MaxSegmentSize (StorageParams m)
           then swrap 64 (MaxSegmentSize (StorageParams m)) *' 2
           else swrap 64 (PayloadSize (ObjectInfo_ m)) *' 2 in
  Some (memory_limit l (GfSpTask.GetPriority (Task m))).

#[export] Instance task : CoreTask t := {
  Task.GetTask := Task;
  Task.set_task := set_task;
  Task.Key := Key;
  Task.Type_ _ := TypeTaskUpload;
  Task.EstimateLimit := EstimateLimit
}.

#[export] Instance task_ok : CoreTaskOk t.
Proof. split; intros; by destruct m. Qed.
End GfSpResumableUploadObjectTask.
Export (hints) GfSpResumableUploadObjectTask.


(** ** [GfSpReplicatePieceTask] *)

Module GfSpReplicatePieceTask.
Record t := mk {
  Task : GfSpTask.t;
  ObjectInfo_ : ObjectInfo;
  StorageParams : Params;
  SecondaryAddresses : list string;
  SecondarySignatures : list (list Z);
  Sealed : bool;
  GlobalVirtualGroupId : Z;
  SecondaryEndpoints : list string;
  NotAvailableSpIdx : Z;
  IsAgentUploadTask : bool
}.

Definition InitReplicatePieceTask (object : ObjectInfo) (params : Params) (priority timeout retry : Z) (isAgentUploadTask : bool) (now now2 : Z) : t :=
  mk (GfSpTask.SetMaxRetry retry (GfSpTask.SetTimeout timeout (GfSpTask.SetPriority priority (GfSpTask.SetUpdateTime now2 (GfSpTask.SetCreateTime now GfSpTask.zero)))))
    object params [] [] false 0 [] (-1) isAgentUploadTask.

Definition set_task (b : GfSpTask.t) (m : t) : t :=
  mk b (ObjectInfo_ m) (StorageParams m) (SecondaryAddresses m) (SecondarySignatures m) (Sealed m) (GlobalVirtualGroupId m) (SecondaryEndpoints m) (NotAvailableSpIdx m) (IsAgentUploadTask m).

Definition SetSealed (v : bool) (m : t) : t :=
  mk (Task m) (ObjectInfo_ m) (StorageParams m) (SecondaryAddresses m) (SecondarySignatures m) v (GlobalVirtualGroupId m) (SecondaryEndpoints m) (NotAvailableSpIdx m) (IsAgentUploadTask m).
Definition SetSecondarySignatures (v : list (list Z)) (m : t) : t :=
  mk (Task m) (ObjectInfo_ m) (StorageParams m) (SecondaryAddresses m) v (Sealed m) (GlobalVirtualGroupId m) (SecondaryEndpoints m) (NotAvailableSpIdx m) (IsAgentUploadTask m).
Definition SetSecondaryAddresses (v : list string) (m : t) : t :=
  mk (Task m) (ObjectInfo_ m) (StorageParams m) v (SecondarySignatures m) (Sealed m) (GlobalVirtualGroupId m) (SecondaryEndpoints m) (NotAvailableSpIdx m) (IsAgentUploadTask m).
Definition SetObjectInfo (v : ObjectInfo) (m : t) : t :=
  mk (Task m) v (StorageParams m) (SecondaryAddresses m) (SecondarySignatures m) (Sealed m) (GlobalVirtualGroupId m) (SecondaryEndpoints m) (NotAvailableSpIdx m) (IsAgentUploadTask m).
Definition SetStorageParams (v : Params) (m : t) : t :=
  mk (Task m) (ObjectInfo_ m) v (SecondaryAddresses m) (SecondarySignatures m) (Sealed m) (GlobalVirtualGroupId m) (SecondaryEndpoints m) (NotAvailableSpIdx m) (IsAgentUploadTask m).

(** [atomic.CompareAndSwapInt32(&m.NotAvailableSpIdx, -1, idx)]: only the first
    report is kept. *)
Definition SetNotAvailableSpIdx (idx : Z) (m : t) : t :=
  if NotAvailableSpIdx m =? -1 then
    mk (Task m) (ObjectInfo_ m) (StorageParams m) (SecondaryAddresses m) (SecondarySignatures m)
      (Sealed m) (GlobalVirtualGroupId m) (SecondaryEndpoints m) idx (IsAgentUploadTask m)
  else m.

Definition Key (m : t) : TKey :=
  GfSpReplicatePieceTaskKey (BucketName (ObjectInfo_ m)) (ObjectName (ObjectInfo_ m)) (IdString (ObjectInfo_ m)).

(** The two branches of the erasure-coded case compute the same value. *)
Definition EstimateLimit (m : t) : option GfSpLimit.t :=
  let sp := StorageParams m in
  memory ← match RedundancyType_ (ObjectInfo_ m) with
           | REDUNDANCY_REPLICA_TYPE =>
             if PayloadSize (ObjectInfo_ m) <? MaxPayloadSize sp
             then Some (swrap 64 (PayloadSize (ObjectInfo_ m)))
             else Some (swrap 64 (MaxSegmentSize sp))
           | _ => int64_of_f64 (f64_ceil (f64_div
                    (f64_mul (f64 (MaxSegmentSize sp))
                       (f64_add (f64 (RedundantDataChunkNum sp)) (f64 (RedundantParityChunkNum sp))))
                    (f64 (RedundantDataChunkNum sp))))
           end;
  Some (memory_limit memory (GfSpTask.GetPriority (Task m))).

#[export] Instance task : CoreTask t := {
  Task.GetTask := Task;
  Task.set_task := set_task;
  Task.Key := Key;
  Task.Type_ _ := TypeTaskReplicatePiece;
  Task.EstimateLimit := EstimateLimit
}.

#[export] Instance task_ok : CoreTaskOk t.
Proof. split; intros; by destruct m. Qed.
End GfSpReplicatePieceTask.
Export (hints) GfSpReplicatePieceTask.


(** ** [GfSpSealObjectTask] *)

Module GfSpSealObjectTask.
Record t := mk {
  Task : GfSpTask.t;
  ObjectInfo_ : ObjectInfo;
  StorageParams : Params;
  SecondaryAddresses : list string;
  SecondarySignatures : list (list Z);
  GlobalVirtualGroupId : Z;
  SecondaryEndpoints : list string;
  IsAgentUploadTask : bool
}.

Definition InitSealObjectTask (vgfID : Z) (object : ObjectInfo) (params : Params) (priority : Z) (endpoints : list string) (signatures : list (list Z)) (timeout retry : Z) (isAgentUpload : bool) (now now2 : Z) : t :=
  mk (GfSpTask.SetMaxRetry retry (GfSpTask.SetTimeout timeout (GfSpTask.SetPriority priority (GfSpTask.SetUpdateTime now2 (GfSpTask.SetCreateTime now GfSpTask.zero)))))
    object params [] signatures vgfID endpoints isAgentUpload.

Definition set_task (b : GfSpTask.t) (m : t) : t :=
  mk b (ObjectInfo_ m) (StorageParams m) (SecondaryAddresses m) (SecondarySignatures m) (GlobalVirtualGroupId m) (SecondaryEndpoints m) (IsAgentUploadTask m).

Definition SetSecondaryAddresses (v : list string) (m : t) : t :=
  mk (Task m) (ObjectInfo_ m) (StorageParams m) v (SecondarySignatures m) (GlobalVirtualGroupId m) (SecondaryEndpoints m) (IsAgentUploadTask m).
Definition SetSecondarySignatures (v : list (list Z)) (m : t) : t :=
  mk (Task m) (ObjectInfo_ m) (StorageParams m) (SecondaryAddresses m) v (GlobalVirtualGroupId m) (SecondaryEndpoints m) (IsAgentUploadTask m).
Definition SetObjectInfo (v : ObjectInfo) (m : t) : t :=
  mk (Task m) v (StorageParams m) (SecondaryAddresses m) (SecondarySignatures m) (GlobalVirtualGroupId m) (SecondaryEndpoints m) (IsAgentUploadTask m).
Definition SetStorageParams (v : Params) (m : t) : t :=
  mk (Task m) (ObjectInfo_ m) v (SecondaryAddresses m) (SecondarySignatures m) (GlobalVirtualGroupId m) (SecondaryEndpoints m) (IsAgentUploadTask m).

Definition Key (m : t) : TKey :=
  GfSpSealObjectTaskKey (BucketName (ObjectInfo_ m)) (ObjectName (ObjectInfo_ m)) (IdString (ObjectInfo_ m)).

Definition EstimateLimit (m : t) : option GfSpLimit.t :=
  Some (memory_limit 0 (GfSpTask.GetPriority (Task m))).

#[export] Instance task : CoreTask t := {
  Task.GetTask := Task;
  Task.set_task := set_task;
  Task.Key := Key;
  Task.Type_ _ := TypeTaskSealObject;
  Task.EstimateLimit := EstimateLimit
}.

#[export] Instance task_ok : CoreTaskOk t.
Proof. split; intros; by destruct m. Qed.
End GfSpSealObjectTask.
Export (hints) GfSpSealObjectTask.


(** ** [GfSpReceivePieceTask] *)

Module GfSpReceivePieceTask.
Record t := mk {
  Task : GfSpTask.t;
  ObjectInfo_ : ObjectInfo;
  StorageParams : Params;
  SegmentIdx : Z;
  RedundancyIdx : Z;
  PieceSize : Z;
  PieceChecksum : list Z;
  Signature : list Z;
  Sealed : bool;
  Finished : bool;
  GlobalVirtualGroupId : Z;
  BucketMigration : bool;
  IsAgentUploadTask : bool
}.

Definition InitReceivePieceTask (gvgID : Z) (object : ObjectInfo) (params : Params) (priority segmentIdx redundancyIdx pieceSize : Z) (isAgentUpload : bool) (now now2 : Z) : t :=
  mk (GfSpTask.SetPriority priority (GfSpTask.SetUpdateTime now2 (GfSpTask.SetCreateTime now GfSpTask.zero)))
    object params segmentIdx redundancyIdx pieceSize [] [] false false gvgID false isAgentUpload.

Definition set_task (b : GfSpTask.t) (m : t) : t :=
  mk b (ObjectInfo_ m) (StorageParams m) (SegmentIdx m) (RedundancyIdx m) (PieceSize m) (PieceChecksum m) (Signature m) (Sealed m) (Finished m) (GlobalVirtualGroupId m) (BucketMigration m) (IsAgentUploadTask m).

Definition SetObjectInfo (v : ObjectInfo) (m : t) : t :=
  mk (Task m) v (StorageParams m) (SegmentIdx m) (RedundancyIdx m) (PieceSize m) (PieceChecksum m) (Signature m) (Sealed m) (Finished m) (GlobalVirtualGroupId m) (BucketMigration m) (IsAgentUploadTask m).
Definition SetStorageParams (v : Params) (m : t) : t :=
  mk (Task m) (ObjectInfo_ m) v (SegmentIdx m) (RedundancyIdx m) (PieceSize m) (PieceChecksum m) (Signature m) (Sealed m) (Finished m) (GlobalVirtualGroupId m) (BucketMigration m) (IsAgentUploadTask m).
Definition SetSegmentIdx (v : Z) (m : t) : t :=
  mk (Task m) (ObjectInfo_ m) (StorageParams m) v (RedundancyIdx m) (PieceSize m) (PieceChecksum m) (Signature m) (Sealed m) (Finished m) (GlobalVirtualGroupId m) (BucketMigration m) (IsAgentUploadTask m).
Definition SetRedundancyIdx (v : Z) (m : t) : t :=
  mk (Task m) (ObjectInfo_ m) (StorageParams m) (SegmentIdx m) v (PieceSize m) (PieceChecksum m) (Signature m) (Sealed m) (Finished m) (GlobalVirtualGroupId m) (BucketMigration m) (IsAgentUploadTask m).
Definition SetPieceSize (v : Z) (m : t) : t :=
  mk (Task m) (ObjectInfo_ m) (StorageParams m) (SegmentIdx m) (RedundancyIdx m) v (PieceChecksum m) (Signature m) (Sealed m) (Finished m) (GlobalVirtualGroupId m) (BucketMigration m) (IsAgentUploadTask m).
Definition SetPieceChecksum (v : list Z) (m : t) : t :=
  mk (Task m) (ObjectInfo_ m) (StorageParams m) (SegmentIdx m) (RedundancyIdx m) (PieceSize m) v (Signature m) (Sealed m) (Finished m) (GlobalVirtualGroupId m) (BucketMigration m) (IsAgentUploadTask m).
Definition SetSealed (v : bool) (m : t) : t :=
  mk (Task m) (ObjectInfo_ m) (StorageParams m) (SegmentIdx m) (RedundancyIdx m) (PieceSize m) (PieceChecksum m) (Signature m) v (Finished m) (GlobalVirtualGroupId m) (BucketMigration m) (IsAgentUploadTask m).
Definition SetFinished (v : bool) (m : t) : t :=
  mk (Task m) (ObjectInfo_ m) (StorageParams m) (SegmentIdx m) (RedundancyIdx m) (PieceSize m) (PieceChecksum m) (Signature m) (Sealed m) v (GlobalVirtualGroupId m) (BucketMigration m) (IsAgentUploadTask m).
Definition SetSignature (v : list Z) (m : t) : t :=
  mk (Task m) (ObjectInfo_ m) (StorageParams m) (SegmentIdx m) (RedundancyIdx m) (PieceSize m) (PieceChecksum m) v (Sealed m) (Finished m) (GlobalVirtualGroupId m) (BucketMigration m) (IsAgentUploadTask m).
Definition SetGlobalVirtualGroupId (v : Z) (m : t) : t :=
  mk (Task m) (ObjectInfo_ m) (StorageParams m) (SegmentIdx m) (RedundancyIdx m) (PieceSize m) (PieceChecksum m) (Signature m) (Sealed m) (Finished m) v (BucketMigration m) (IsAgentUploadTask m).
Definition SetBucketMigration (v : bool) (m : t) : t :=
  mk (Task m) (ObjectInfo_ m) (StorageParams m) (SegmentIdx m) (RedundancyIdx m) (PieceSize m) (PieceChecksum m) (Signature m) (Sealed m) (Finished m) (GlobalVirtualGroupId m) v (IsAgentUploadTask m).

Definition Key (m : t) : TKey :=
  GfSpReceivePieceTaskKey (BucketName (ObjectInfo_ m)) (ObjectName (ObjectInfo_ m)) (IdString (ObjectInfo_ m)) (SegmentIdx m) (RedundancyIdx m).

Definition EstimateLimit (m : t) : option GfSpLimit.t :=
  Some (memory_limit (PieceSize m) (GfSpTask.GetPriority (Task m))).

#[export] Instance task : CoreTask t := {
  Task.GetTask := Task;
  Task.set_task := set_task;
  Task.Key := Key;
  Task.Type_ _ := TypeTaskReceivePiece;
  Task.EstimateLimit := EstimateLimit
}.

#[export] Instance task_ok : CoreTaskOk t.
Proof. split; intros; by destruct m. Qed.
End GfSpReceivePieceTask.
Export (hints) GfSpReceivePieceTask.


(** ** [GfSpDownloadObjectTask] *)

Module GfSpDownloadObjectTask.
Record t := mk {
  Task : GfSpTask.t;
  ObjectInfo_ : ObjectInfo;
  BucketInfo_ : BucketInfo;
  StorageParams : Params;
  Low : Z;
  High : Z
}.

Definition InitDownloadObjectTask (object : ObjectInfo) (bucket : BucketInfo) (params : Params) (priority : Z) (userAddress : string) (low high timeout maxRetry : Z) (now now2 : Z) : t :=
  mk (GfSpTask.SetMaxRetry maxRetry (GfSpTask.SetTimeout timeout (GfSpTask.SetPriority priority (GfSpTask.SetUserAddress userAddress (GfSpTask.SetUpdateTime now2 (GfSpTask.SetCreateTime now GfSpTask.zero))))))
    object bucket params low high.

Definition set_task (b : GfSpTask.t) (m : t) : t :=
  mk b (ObjectInfo_ m) (BucketInfo_ m) (StorageParams m) (Low m) (High m).

Definition SetObjectInfo (v : ObjectInfo) (m : t) : t :=
  mk (Task m) v (BucketInfo_ m) (StorageParams m) (Low m) (High m).
Definition SetStorageParams (v : Params) (m : t) : t :=
  mk (Task m) (ObjectInfo_ m) (BucketInfo_ m) v (Low m) (High m).
Definition SetBucketInfo (v : BucketInfo) (m : t) : t :=
  mk (Task m) (ObjectInfo_ m) v (StorageParams m) (Low m) (High m).

Definition GetSize (m : t) : Z :=
  if High m <? Low m then 0 else High m -' Low m +' 1.

Definition Key (m : t) : TKey :=
  GfSpDownloadObjectTaskKey (BucketName (ObjectInfo_ m)) (ObjectName (ObjectInfo_ m)) (IdString (ObjectInfo_ m)) (Low m) (High m).

Definition EstimateLimit (m : t) : option GfSpLimit.t :=
  Some (memory_limit (GetSize m) (GfSpTask.GetPriority (Task m))).

#[export] Instance task : CoreTask t := {
  Task.GetTask := Task;
  Task.set_task := set_task;
  Task.Key := Key;
  Task.Type_ _ := TypeTaskDownloadObject;
  Task.EstimateLimit := EstimateLimit
}.

#[export] Instance task_ok : CoreTaskOk t.
Proof. split; intros; by destruct m. Qed.
End GfSpDownloadObjectTask.
Export (hints) GfSpDownloadObjectTask.


(** ** [GfSpDownloadPieceTask] *)

Module GfSpDownloadPieceTask.
Record t := mk {
  Task : GfSpTask.t;
  ObjectInfo_ : ObjectInfo;
  BucketInfo_ : BucketInfo;
  StorageParams : Params;
  EnableCheck : bool;
  TotalSize : Z;
  PieceKey : string;
  PieceOffset : Z;
  PieceLength : Z
}.

Definition InitDownloadPieceTask (object : ObjectInfo) (bucket : BucketInfo) (params : Params) (priority : Z) (enableCheck : bool) (userAddress : string) (totalSize : Z) (pieceKey : string) (pieceOffset pieceLength timeout maxRetry : Z) (now now2 : Z) : t :=
  mk (GfSpTask.SetMaxRetry maxRetry (GfSpTask.SetTimeout timeout (GfSpTask.SetPriority priority (GfSpTask.SetUserAddress userAddress (GfSpTask.SetUpdateTime now2 (GfSpTask.SetCreateTime now GfSpTask.zero))))))
    object bucket params enableCheck totalSize pieceKey pieceOffset pieceLength.

Definition set_task (b : GfSpTask.t) (m : t) : t :=
  mk b (ObjectInfo_ m) (BucketInfo_ m) (StorageParams m) (EnableCheck m) (TotalSize m) (PieceKey m) (PieceOffset m) (PieceLength m).

Definition SetObjectInfo (v : ObjectInfo) (m : t) : t :=
  mk (Task m) v (BucketInfo_ m) (StorageParams m) (EnableCheck m) (TotalSize m) (PieceKey m) (PieceOffset m) (PieceLength m).
Definition SetStorageParams (v : Params) (m : t) : t :=
  mk (Task m) (ObjectInfo_ m) (BucketInfo_ m) v (EnableCheck m) (TotalSize m) (PieceKey m) (PieceOffset m) (PieceLength m).
Definition SetBucketInfo (v : BucketInfo) (m : t) : t :=
  mk (Task m) (ObjectInfo_ m) v (StorageParams m) (EnableCheck m) (TotalSize m) (PieceKey m) (PieceOffset m) (PieceLength m).

Definition GetSize (m : t) : Z := swrap 64 (PieceLength m).

Definition Key (m : t) : TKey :=
  GfSpDownloadPieceTaskKey (BucketName (ObjectInfo_ m)) (ObjectName (ObjectInfo_ m)) (PieceKey m) (PieceOffset m) (PieceLength m).

Definition EstimateLimit (m : t) : option GfSpLimit.t :=
  Some (memory_limit (GetSize m) (GfSpTask.GetPriority (Task m))).

#[export] Instance task : CoreTask t := {
  Task.GetTask := Task;
  Task.set_task := set_task;
  Task.Key := Key;
  Task.Type_ _ := TypeTaskDownloadPiece;
  Task.EstimateLimit := EstimateLimit
}.

#[export] Instance task_ok : CoreTaskOk t.
Proof. split; intros; by destruct m. Qed.
End GfSpDownloadPieceTask.
Export (hints) GfSpDownloadPieceTask.


(** ** [GfSpChallengePieceTask] *)

Module GfSpChallengePieceTask.
Record t := mk {
  Task : GfSpTask.t;
  ObjectInfo_ : ObjectInfo;
  BucketInfo_ : BucketInfo;
  StorageParams : Params;
  SegmentIdx : Z;
  RedundancyIdx : Z;
  IntegrityHash : list Z;
  PieceHash : list (list Z);
  PieceDataSize : Z
}.

Definition InitChallengePieceTask (object : ObjectInfo) (bucket : BucketInfo) (params : Params) (priority : Z) (userAddress : string) (replicateIdx segmentIdx timeout retry : Z) (now now2 : Z) : t :=
  mk (GfSpTask.SetMaxRetry retry (GfSpTask.SetTimeout timeout (GfSpTask.SetPriority priority (GfSpTask.SetUserAddress userAddress (GfSpTask.SetUpdateTime now2 (GfSpTask.SetCreateTime now GfSpTask.zero))))))
    object bucket params segmentIdx replicateIdx [] [] 0.

Definition set_task (b : GfSpTask.t) (m : t) : t :=
  mk b (ObjectInfo_ m) (BucketInfo_ m) (StorageParams m) (SegmentIdx m) (RedundancyIdx m) (IntegrityHash m) (PieceHash m) (PieceDataSize m).

Definition SetObjectInfo (v : ObjectInfo) (m : t) : t :=
  mk (Task m) v (BucketInfo_ m) (StorageParams m) (SegmentIdx m) (RedundancyIdx m) (IntegrityHash m) (PieceHash m) (PieceDataSize m).
Definition SetStorageParams (v : Params) (m : t) : t :=
  mk (Task m) (ObjectInfo_ m) (BucketInfo_ m) v (SegmentIdx m) (RedundancyIdx m) (IntegrityHash m) (PieceHash m) (PieceDataSize m).
Definition SetBucketInfo (v : BucketInfo) (m : t) : t :=
  mk (Task m) (ObjectInfo_ m) v (StorageParams m) (SegmentIdx m) (RedundancyIdx m) (IntegrityHash m) (PieceHash m) (PieceDataSize m).
Definition SetSegmentIdx (v : Z) (m : t) : t :=
  mk (Task m) (ObjectInfo_ m) (BucketInfo_ m) (StorageParams m) v (RedundancyIdx m) (IntegrityHash m) (PieceHash m) (PieceDataSize m).
Definition SetRedundancyIdx (v : Z) (m : t) : t :=
  mk (Task m) (ObjectInfo_ m) (BucketInfo_ m) (StorageParams m) (SegmentIdx m) v (IntegrityHash m) (PieceHash m) (PieceDataSize m).
Definition SetIntegrityHash (v : list Z) (m : t) : t :=
  mk (Task m) (ObjectInfo_ m) (BucketInfo_ m) (StorageParams m) (SegmentIdx m) (RedundancyIdx m) v (PieceHash m) (PieceDataSize m).
Definition SetPieceHash (v : list (list Z)) (m : t) : t :=
  mk (Task m) (ObjectInfo_ m) (BucketInfo_ m) (StorageParams m) (SegmentIdx m) (RedundancyIdx m) (IntegrityHash m) v (PieceDataSize m).
Definition SetPieceDataSize (v : Z) (m : t) : t :=
  mk (Task m) (ObjectInfo_ m) (BucketInfo_ m) (StorageParams m) (SegmentIdx m) (RedundancyIdx m) (IntegrityHash m) (PieceHash m) v.

Definition Key (m : t) : TKey :=
  GfSpChallengePieceTaskKey (BucketName (ObjectInfo_ m)) (ObjectName (ObjectInfo_ m)) (IdString (ObjectInfo_ m)) (SegmentIdx m) (RedundancyIdx m) (GfSpTask.UserAddress (Task m)).

(** Integer division by zero panics.  In the erasure-coded case of the last segment
    only the subtrahend is divided, as the source writes it. *)
Definition EstimateLimit (m : t) : option GfSpLimit.t :=
  let payloadSize := PayloadSize (ObjectInfo_ m) in
  let maxSegmentSize := MaxSegmentSize (StorageParams m) in
  let dataChunkNum := RedundantDataChunkNum (StorageParams m) in
  if maxSegmentSize =? 0 then None
  else
    let segmentCount := payloadSize / maxSegmentSize in
    let segmentCount :=
      if negb (payloadSize mod maxSegmentSize =? 0) then uwrap 64 (segmentCount + 1) else segmentCount in
    memSize ←
      if RedundancyIdx m <? 0 then
        if segmentCount =? 1 then Some (swrap 64 payloadSize)
        else if SegmentIdx m =? uwrap 32 (uwrap 64 (segmentCount - 1)) then
          Some (swrap 64 payloadSize -' (swrap 64 segmentCount -' 1) *' swrap 64 maxSegmentSize)
        else Some (swrap 64 maxSegmentSize)
      else if dataChunkNum =? 0 then None
      else if segmentCount =? 1 then Some (swrap 64 payloadSize /' dataChunkNum)
      else if SegmentIdx m =? uwrap 32 (uwrap 64 (segmentCount - 1)) then
        Some (swrap 64 payloadSize -'
          ((swrap 64 segmentCount -' 1) *' swrap 64 maxSegmentSize) /' dataChunkNum)
      else Some (swrap 64 maxSegmentSize /' dataChunkNum);
    Some (memory_limit memSize (GfSpTask.GetPriority (Task m))).

#[export] Instance task : CoreTask t := {
  Task.GetTask := Task;
  Task.set_task := set_task;
  Task.Key := Key;
  Task.Type_ _ := TypeTaskChallengePiece;
  Task.EstimateLimit := EstimateLimit
}.

#[export] Instance task_ok : CoreTaskOk t.
Proof. split; intros; by destruct m. Qed.
End GfSpChallengePieceTask.
Export (hints) GfSpChallengePieceTask.


(** ** [GfSpCreateBucketApprovalTask] *)

Module GfSpCreateBucketApprovalTask.
Record t := mk {
  Task : GfSpTask.t;
  CreateBucketInfo : MsgCreateBucket;
  Fingerprint : list Z
}.

Definition InitApprovalCreateBucketTask (account : string) (bucket : MsgCreateBucket) (fingerprint : list Z) (priority : Z) (now now2 : Z) : t :=
  mk (GfSpTask.SetPriority priority (GfSpTask.SetUserAddress account (GfSpTask.SetUpdateTime now2 (GfSpTask.SetCreateTime now GfSpTask.zero))))
    bucket fingerprint.

Definition set_task (b : GfSpTask.t) (m : t) : t :=
  mk b (CreateBucketInfo m) (Fingerprint m).

Definition SetCreateBucketInfo (v : MsgCreateBucket) (m : t) : t :=
  mk (Task m) v (Fingerprint m).

Definition GetExpiredHeight (m : t) : Z := ap_ExpiredHeight (cb_Approval (CreateBucketInfo m)).
Definition SetExpiredHeight (height : Z) (m : t) : t :=
  mk (Task m) (cb_with (ap_with_height height) (CreateBucketInfo m)) (Fingerprint m).

Definition Key (m : t) : TKey :=
  GfSpCreateBucketApprovalTaskKey (cb_BucketName (CreateBucketInfo m)) (GfSpTask.UserAddress (Task m)) (Fingerprint m).

Definition EstimateLimit (m : t) : option GfSpLimit.t :=
  Some (memory_limit 0 (GfSpTask.GetPriority (Task m))).

#[export] Instance task : CoreTask t := {
  Task.GetTask := Task;
  Task.set_task := set_task;
  Task.Key := Key;
  Task.Type_ _ := TypeTaskCreateBucketApproval;
  Task.EstimateLimit := EstimateLimit
}.

#[export] Instance task_ok : CoreTaskOk t.
Proof. split; intros; by destruct m. Qed.
End GfSpCreateBucketApprovalTask.
Export (hints) GfSpCreateBucketApprovalTask.


(** ** [GfSpMigrateBucketApprovalTask] *)

Module GfSpMigrateBucketApprovalTask.
Record t := mk {
  Task : GfSpTask.t;
  MigrateBucketInfo : MsgMigrateBucket
}.

Definition InitApprovalMigrateBucketTask (bucket : MsgMigrateBucket) (priority : Z) (now now2 : Z) : t :=
  mk (GfSpTask.SetPriority priority (GfSpTask.SetUpdateTime now2 (GfSpTask.SetCreateTime now GfSpTask.zero)))
    bucket.

Definition set_task (b : GfSpTask.t) (m : t) : t :=
  mk b (MigrateBucketInfo m).

Definition SetMigrateBucketInfo (v : MsgMigrateBucket) (m : t) : t :=
  mk (Task m) v.

Definition GetExpiredHeight (m : t) : Z := ap_ExpiredHeight (mb_Approval (MigrateBucketInfo m)).
Definition SetExpiredHeight (height : Z) (m : t) : t :=
  mk (Task m) (mb_with (ap_with_height height) (MigrateBucketInfo m)).

Definition Key `{SignBytes} (m : t) : TKey :=
  GfSpMigrateBucketApprovalTaskKey (mb_BucketName (MigrateBucketInfo m)) (EncodeToString (GetSignBytes (MigrateBucketInfo m))).

Definition EstimateLimit (m : t) : option GfSpLimit.t :=
  Some (memory_limit 0 (GfSpTask.GetPriority (Task m))).

#[export] Instance task `{SignBytes} : CoreTask t := {
  Task.GetTask := Task;
  Task.set_task := set_task;
  Task.Key := Key;
  Task.Type_ _ := TypeTaskMigrateBucketApproval;
  Task.EstimateLimit := EstimateLimit
}.

#[export] Instance task_ok `{SignBytes} : CoreTaskOk t.
Proof. split; intros; by destruct m. Qed.
End GfSpMigrateBucketApprovalTask.
Export (hints) GfSpMigrateBucketApprovalTask.


(** ** [GfSpCreateObjectApprovalTask] *)

Module GfSpCreateObjectApprovalTask.
Record t := mk {
  Task : GfSpTask.t;
  CreateObjectInfo : MsgCreateObject;
  Fingerprint : list Z
}.

Definition InitApprovalCreateObjectTask (account : string) (object : MsgCreateObject) (fingerprint : list Z) (priority : Z) (now now2 : Z) : t :=
  mk (GfSpTask.SetPriority priority (GfSpTask.SetUserAddress account (GfSpTask.SetUpdateTime now2 (GfSpTask.SetCreateTime now GfSpTask.zero))))
    object fingerprint.

Definition set_task (b : GfSpTask.t) (m : t) : t :=
  mk b (CreateObjectInfo m) (Fingerprint m).

Definition SetCreateObjectInfo (v : MsgCreateObject) (m : t) : t :=
  mk (Task m) v (Fingerprint m).

Definition GetExpiredHeight (m : t) : Z := ap_ExpiredHeight (co_Approval (CreateObjectInfo m)).
Definition SetExpiredHeight (height : Z) (m : t) : t :=
  mk (Task m) (co_with (ap_with_height height) (CreateObjectInfo m)) (Fingerprint m).

Definition Key (m : t) : TKey :=
  GfSpCreateObjectApprovalTaskKey (co_BucketName (CreateObjectInfo m)) (co_ObjectName (CreateObjectInfo m)) (GfSpTask.UserAddress (Task m)) (Fingerprint m).

Definition EstimateLimit (m : t) : option GfSpLimit.t :=
  Some (memory_limit 0 (GfSpTask.GetPriority (Task m))).

#[export] Instance task : CoreTask t := {
  Task.GetTask := Task;
  Task.set_task := set_task;
  Task.Key := Key;
  Task.Type_ _ := TypeTaskCreateObjectApproval;
  Task.EstimateLimit := EstimateLimit
}.

#[export] Instance task_ok : CoreTaskOk t.
Proof. split; intros; by destruct m. Qed.
End GfSpCreateObjectApprovalTask.
Export (hints) GfSpCreateObjectApprovalTask.


(** ** [GfSpDelegateCreateObjectApprovalTask] *)

Module GfSpDelegateCreateObjectApprovalTask.
Record t := mk {
  Task : GfSpTask.t;
  DelegateCreateObject : MsgDelegateCreateObject;
  Fingerprint : list Z
}.

Definition InitApprovalDelegateCreateObjectTask (account : string) (object : MsgDelegateCreateObject) (fingerprint : list Z) (priority : Z) (now now2 : Z) : t :=
  mk (GfSpTask.SetPriority priority (GfSpTask.SetUserAddress account (GfSpTask.SetUpdateTime now2 (GfSpTask.SetCreateTime now GfSpTask.zero))))
    object fingerprint.

Definition set_task (b : GfSpTask.t) (m : t) : t :=
  mk b (DelegateCreateObject m) (Fingerprint m).

Definition SetDelegateCreateObject (v : MsgDelegateCreateObject) (m : t) : t :=
  mk (Task m) v (Fingerprint m).

Definition GetExpiredHeight (m : t) : Z := 0.
Definition SetExpiredHeight (height : Z) (m : t) : t := m.

Definition Key (m : t) : TKey :=
  GfSpCreateObjectApprovalTaskKey (dg_BucketName (DelegateCreateObject m)) (dg_ObjectName (DelegateCreateObject m)) (GfSpTask.UserAddress (Task m)) (Fingerprint m).

Definition EstimateLimit (m : t) : option GfSpLimit.t :=
  Some (memory_limit 0 (GfSpTask.GetPriority (Task m))).

#[export] Instance task : CoreTask t := {
  Task.GetTask := Task;
  Task.set_task := set_task;
  Task.Key := Key;
  Task.Type_ _ := TypeTaskCreateObjectApproval;
  Task.EstimateLimit := EstimateLimit
}.

#[export] Instance task_ok : CoreTaskOk t.
Proof. split; intros; by destruct m. Qed.
End GfSpDelegateCreateObjectApprovalTask.
Export (hints) GfSpDelegateCreateObjectApprovalTask.


(** ** [GfSpReplicatePieceApprovalTask] *)

Module GfSpReplicatePieceApprovalTask.
Record t := mk {
  Task : GfSpTask.t;
  ObjectInfo_ : ObjectInfo;
  StorageParams : Params;
  AskSpOperatorAddress : string;
  AskSignature : list Z;
  ApprovedSpEndpoint : string;
  ApprovedSpOperatorAddress : string;
  ApprovedSignature : list Z;
  ApprovedSpApprovalAddress : string;
  ExpiredHeight : Z
}.

Definition InitApprovalReplicatePieceTask (object : ObjectInfo) (params : Params) (priority : Z) (askOpAddress : string) (now now2 : Z) : t :=
  mk (GfSpTask.SetPriority priority (GfSpTask.SetUpdateTime now2 (GfSpTask.SetCreateTime now GfSpTask.zero)))
    object params askOpAddress [] "" "" [] "" 0.

Definition set_task (b : GfSpTask.t) (m : t) : t :=
  mk b (ObjectInfo_ m) (StorageParams m) (AskSpOperatorAddress m) (AskSignature m) (ApprovedSpEndpoint m) (ApprovedSpOperatorAddress m) (ApprovedSignature m) (ApprovedSpApprovalAddress m) (ExpiredHeight m).

Definition SetExpiredHeight (v : Z) (m : t) : t :=
  mk (Task m) (ObjectInfo_ m) (StorageParams m) (AskSpOperatorAddress m) (AskSignature m) (ApprovedSpEndpoint m) (ApprovedSpOperatorAddress m) (ApprovedSignature m) (ApprovedSpApprovalAddress m) v.
Definition SetObjectInfo (v : ObjectInfo) (m : t) : t :=
  mk (Task m) v (StorageParams m) (AskSpOperatorAddress m) (AskSignature m) (ApprovedSpEndpoint m) (ApprovedSpOperatorAddress m) (ApprovedSignature m) (ApprovedSpApprovalAddress m) (ExpiredHeight m).
Definition SetStorageParams (v : Params) (m : t) : t :=
  mk (Task m) (ObjectInfo_ m) v (AskSpOperatorAddress m) (AskSignature m) (ApprovedSpEndpoint m) (ApprovedSpOperatorAddress m) (ApprovedSignature m) (ApprovedSpApprovalAddress m) (ExpiredHeight m).
Definition SetAskSpOperatorAddress (v : string) (m : t) : t :=
  mk (Task m) (ObjectInfo_ m) (StorageParams m) v (AskSignature m) (ApprovedSpEndpoint m) (ApprovedSpOperatorAddress m) (ApprovedSignature m) (ApprovedSpApprovalAddress m) (ExpiredHeight m).
Definition SetAskSignature (v : list Z) (m : t) : t :=
  mk (Task m) (ObjectInfo_ m) (StorageParams m) (AskSpOperatorAddress m) v (ApprovedSpEndpoint m) (ApprovedSpOperatorAddress m) (ApprovedSignature m) (ApprovedSpApprovalAddress m) (ExpiredHeight m).
Definition SetApprovedSpOperatorAddress (v : string) (m : t) : t :=
  mk (Task m) (ObjectInfo_ m) (StorageParams m) (AskSpOperatorAddress m) (AskSignature m) (ApprovedSpEndpoint m) v (ApprovedSignature m) (ApprovedSpApprovalAddress m) (ExpiredHeight m).
Definition SetApprovedSignature (v : list Z) (m : t) : t :=
  mk (Task m) (ObjectInfo_ m) (StorageParams m) (AskSpOperatorAddress m) (AskSignature m) (ApprovedSpEndpoint m) (ApprovedSpOperatorAddress m) v (ApprovedSpApprovalAddress m) (ExpiredHeight m).
Definition SetApprovedSpEndpoint (v : string) (m : t) : t :=
  mk (Task m) (ObjectInfo_ m) (StorageParams m) (AskSpOperatorAddress m) (AskSignature m) v (ApprovedSpOperatorAddress m) (ApprovedSignature m) (ApprovedSpApprovalAddress m) (ExpiredHeight m).
Definition SetApprovedSpApprovalAddress (v : string) (m : t) : t :=
  mk (Task m) (ObjectInfo_ m) (StorageParams m) (AskSpOperatorAddress m) (AskSignature m) (ApprovedSpEndpoint m) (ApprovedSpOperatorAddress m) (ApprovedSignature m) v (ExpiredHeight m).

Definition Key (m : t) : TKey :=
  GfSpReplicatePieceApprovalTaskKey (BucketName (ObjectInfo_ m)) (ObjectName (ObjectInfo_ m)) (IdString (ObjectInfo_ m)).

Definition EstimateLimit (m : t) : option GfSpLimit.t :=
  Some (memory_limit 0 (GfSpTask.GetPriority (Task m))).

#[export] Instance task : CoreTask t := {
  Task.GetTask := Task;
  Task.set_task := set_task;
  Task.Key := Key;
  Task.Type_ _ := TypeTaskReplicatePieceApproval;
  Task.EstimateLimit := EstimateLimit
}.

#[export] Instance task_ok : CoreTaskOk t.
Proof. split; intros; by destruct m. Qed.
End GfSpReplicatePieceApprovalTask.
Export (hints) GfSpReplicatePieceApprovalTask.


(** ** [GfSpGCObjectTask] *)

Module GfSpGCObjectTask.
Record t := mk {
  Task : GfSpTask.t;
  StartBlockNumber : Z;
  EndBlockNumber : Z;
  CurrentBlockNumber : Z;
  LastDeletedObjectId : Z;
  Running : bool
}.

Definition InitGCObjectTask (priority start end_ timeout : Z) (now now2 : Z) : t :=
  mk (GfSpTask.SetTimeout timeout (GfSpTask.SetUpdateTime now2 (GfSpTask.SetCreateTime now (GfSpTask.SetPriority priority GfSpTask.zero))))
    start end_ 0 0 false.

Definition set_task (b : GfSpTask.t) (m : t) : t :=
  mk b (StartBlockNumber m) (EndBlockNumber m) (CurrentBlockNumber m) (LastDeletedObjectId m) (Running m).

Definition SetStartBlockNumber (v : Z) (m : t) : t :=
  mk (Task m) v (EndBlockNumber m) (CurrentBlockNumber m) (LastDeletedObjectId m) (Running m).
Definition SetEndBlockNumber (v : Z) (m : t) : t :=
  mk (Task m) (StartBlockNumber m) v (CurrentBlockNumber m) (LastDeletedObjectId m) (Running m).
Definition SetCurrentBlockNumber (v : Z) (m : t) : t :=
  mk (Task m) (StartBlockNumber m) (EndBlockNumber m) v (LastDeletedObjectId m) (Running m).
Definition SetLastDeletedObjectId (v : Z) (m : t) : t :=
  mk (Task m) (StartBlockNumber m) (EndBlockNumber m) (CurrentBlockNumber m) v (Running m).

Definition GetGCObjectProgress (m : t) : Z * Z := (CurrentBlockNumber m, LastDeletedObjectId m).
Definition SetGCObjectProgress (block object : Z) (m : t) : t :=
  mk (Task m) (StartBlockNumber m) (EndBlockNumber m) block object (Running m).

Definition Key (m : t) : TKey :=
  GfSpGCObjectTaskKey (StartBlockNumber m) (EndBlockNumber m) (GfSpTask.CreateTime (Task m)).

Definition EstimateLimit (m : t) : option GfSpLimit.t :=
  Some (LimitEstimateByPriority (GfSpTask.GetPriority (Task m))).

#[export] Instance task : CoreTask t := {
  Task.GetTask := Task;
  Task.set_task := set_task;
  Task.Key := Key;
  Task.Type_ _ := TypeTaskGCObject;
  Task.EstimateLimit := EstimateLimit
}.

#[export] Instance task_ok : CoreTaskOk t.
Proof. split; intros; by destruct m. Qed.
End GfSpGCObjectTask.
Export (hints) GfSpGCObjectTask.


(** ** [GfSpGCZombiePieceTask] *)

Module GfSpGCZombiePieceTask.
Record t := mk {
  Task : GfSpTask.t;
  Running : bool;
  StartObjectId : Z;
  EndObjectId : Z;
  Finished : bool
}.

Definition InitGCZombiePieceTask (priority start end_ timeout : Z) (now now2 : Z) : t :=
  mk (GfSpTask.SetTimeout timeout (GfSpTask.SetUpdateTime now2 (GfSpTask.SetCreateTime now (GfSpTask.SetPriority priority GfSpTask.zero))))
    false start end_ false.

Definition set_task (b : GfSpTask.t) (m : t) : t :=
  mk b (Running m) (StartObjectId m) (EndObjectId m) (Finished m).

Definition SetStartObjectId (v : Z) (m : t) : t :=
  mk (Task m) (Running m) v (EndObjectId m) (Finished m).
Definition SetEndObjectId (v : Z) (m : t) : t :=
  mk (Task m) (Running m) (StartObjectId m) v (Finished m).

Definition Key (m : t) : TKey :=
  GfSpGCZombiePieceTaskKey (StartObjectId m) (EndObjectId m) (GfSpTask.CreateTime (Task m)).

Definition EstimateLimit (m : t) : option GfSpLimit.t :=
  Some (LimitEstimateByPriority (GfSpTask.GetPriority (Task m))).

#[export] Instance task : CoreTask t := {
  Task.GetTask := Task;
  Task.set_task := set_task;
  Task.Key := Key;
  Task.Type_ _ := TypeTaskGCZombiePiece;
  Task.EstimateLimit := EstimateLimit
}.

#[export] Instance task_ok : CoreTaskOk t.
Proof. split; intros; by destruct m. Qed.
End GfSpGCZombiePieceTask.
Export (hints) GfSpGCZombiePieceTask.


(** ** [GfSpGCStaleVersionObjectTask] *)

Module GfSpGCStaleVersionObjectTask.
Record t := mk {
  Task : GfSpTask.t;
  ObjectId : Z;
  RedundancyIndex : Z;
  Version : Z;
  IntegrityChecksum : list Z;
  PieceChecksumList : list (list Z);
  ObjectSize : Z
}.

Definition InitGCStaleVersionObjectTask (priority objectID redundancyIndex : Z) (integrityChecksum : list Z) (pieceChecksumList : list (list Z)) (version objectSize timeout : Z) (now now2 : Z) : t :=
  mk (GfSpTask.SetTimeout timeout (GfSpTask.SetUpdateTime now2 (GfSpTask.SetCreateTime now (GfSpTask.SetPriority priority GfSpTask.zero))))
    objectID redundancyIndex version integrityChecksum pieceChecksumList objectSize.

Definition set_task (b : GfSpTask.t) (m : t) : t :=
  mk b (ObjectId m) (RedundancyIndex m) (Version m) (IntegrityChecksum m) (PieceChecksumList m) (ObjectSize m).

Definition SetObjectId (v : Z) (m : t) : t :=
  mk (Task m) v (RedundancyIndex m) (Version m) (IntegrityChecksum m) (PieceChecksumList m) (ObjectSize m).
Definition SetVersion (v : Z) (m : t) : t :=
  mk (Task m) (ObjectId m) (RedundancyIndex m) v (IntegrityChecksum m) (PieceChecksumList m) (ObjectSize m).
Definition SetObjectSize (v : Z) (m : t) : t :=
  mk (Task m) (ObjectId m) (RedundancyIndex m) (Version m) (IntegrityChecksum m) (PieceChecksumList m) v.
Definition SetRedundancyIndex (v : Z) (m : t) : t :=
  mk (Task m) (ObjectId m) v (Version m) (IntegrityChecksum m) (PieceChecksumList m) (ObjectSize m).
Definition SetIntegrityChecksum (v : list Z) (m : t) : t :=
  mk (Task m) (ObjectId m) (RedundancyIndex m) (Version m) v (PieceChecksumList m) (ObjectSize m).
Definition SetPieceChecksumList (v : list (list Z)) (m : t) : t :=
  mk (Task m) (ObjectId m) (RedundancyIndex m) (Version m) (IntegrityChecksum m) v (ObjectSize m).

Definition Key (m : t) : TKey :=
  GfSpGCStaleVersionObjectTaskKey (ObjectId m) (RedundancyIndex m) (Version m) (GfSpTask.CreateTime (Task m)).

Definition EstimateLimit (m : t) : option GfSpLimit.t :=
  Some (LimitEstimateByPriority (GfSpTask.GetPriority (Task m))).

#[export] Instance task : CoreTask t := {
  Task.GetTask := Task;
  Task.set_task := set_task;
  Task.Key := Key;
  Task.Type_ _ := TypeTaskGCStaleVersionObject;
  Task.EstimateLimit := EstimateLimit
}.

#[export] Instance task_ok : CoreTaskOk t.
Proof. split; intros; by destruct m. Qed.
End GfSpGCStaleVersionObjectTask.
Export (hints) GfSpGCStaleVersionObjectTask.


(** ** [GfSpGCMetaTask] *)

Module GfSpGCMetaTask.
Record t := mk {
  Task : GfSpTask.t;
  CurrentIdx : Z;
  DeleteCount : Z
}.

Definition InitGCMetaTask (priority timeout : Z) (now now2 : Z) : t :=
  mk (GfSpTask.SetTimeout timeout (GfSpTask.SetUpdateTime now2 (GfSpTask.SetCreateTime now (GfSpTask.SetPriority priority GfSpTask.zero))))
    0 0.

Definition set_task (b : GfSpTask.t) (m : t) : t :=
  mk b (CurrentIdx m) (DeleteCount m).

Definition GetGCMetaStatus (m : t) : Z * Z := (CurrentIdx m, DeleteCount m).
Definition SetGCMetaStatus (current delete : Z) (m : t) : t := mk (Task m) current delete.

Definition Key (m : t) : TKey :=
  GfSpGfSpGCMetaTaskKey (GfSpTask.CreateTime (Task m)).

Definition EstimateLimit (m : t) : option GfSpLimit.t :=
  Some (LimitEstimateByPriority (GfSpTask.GetPriority (Task m))).

#[export] Instance task : CoreTask t := {
  Task.GetTask := Task;
  Task.set_task := set_task;
  Task.Key := Key;
  Task.Type_ _ := TypeTaskGCMeta;
  Task.EstimateLimit := EstimateLimit
}.

#[export] Instance task_ok : CoreTaskOk t.
Proof. split; intros; by destruct m. Qed.
End GfSpGCMetaTask.
Export (hints) GfSpGCMetaTask.


(** ** [GfSpRecoverPieceTask] *)

Module GfSpRecoverPieceTask.
Record t := mk {
  Task : GfSpTask.t;
  ObjectInfo_ : ObjectInfo;
  StorageParams : Params;
  SegmentIdx : Z;
  EcIdx : Z;
  PieceSize : Z;
  Signature : list Z;
  Recovered : bool;
  BySuccessorSp : bool;
  GvgId : Z
}.

Definition InitRecoverPieceTask (object : ObjectInfo) (params : Params) (priority segmentIdx ecIdx pieceSize timeout retry : Z) (now now2 : Z) : t :=
  mk (GfSpTask.SetMaxRetry retry (GfSpTask.SetTimeout timeout (GfSpTask.SetPriority priority (GfSpTask.SetUpdateTime now2 (GfSpTask.SetCreateTime now GfSpTask.zero)))))
    object params segmentIdx ecIdx pieceSize [] false false 0.

Definition set_task (b : GfSpTask.t) (m : t) : t :=
  mk b (ObjectInfo_ m) (StorageParams m) (SegmentIdx m) (EcIdx m) (PieceSize m) (Signature m) (Recovered m) (BySuccessorSp m) (GvgId m).

Definition SetSegmentIdx (v : Z) (m : t) : t :=
  mk (Task m) (ObjectInfo_ m) (StorageParams m) v (EcIdx m) (PieceSize m) (Signature m) (Recovered m) (BySuccessorSp m) (GvgId m).
Definition SetEcIdx (v : Z) (m : t) : t :=
  mk (Task m) (ObjectInfo_ m) (StorageParams m) (SegmentIdx m) v (PieceSize m) (Signature m) (Recovered m) (BySuccessorSp m) (GvgId m).
Definition SetObjectInfo (v : ObjectInfo) (m : t) : t :=
  mk (Task m) v (StorageParams m) (SegmentIdx m) (EcIdx m) (PieceSize m) (Signature m) (Recovered m) (BySuccessorSp m) (GvgId m).
Definition SetStorageParams (v : Params) (m : t) : t :=
  mk (Task m) (ObjectInfo_ m) v (SegmentIdx m) (EcIdx m) (PieceSize m) (Signature m) (Recovered m) (BySuccessorSp m) (GvgId m).
Definition SetSignature (v : list Z) (m : t) : t :=
  mk (Task m) (ObjectInfo_ m) (StorageParams m) (SegmentIdx m) (EcIdx m) (PieceSize m) v (Recovered m) (BySuccessorSp m) (GvgId m).
Definition SetPieceSize (v : Z) (m : t) : t :=
  mk (Task m) (ObjectInfo_ m) (StorageParams m) (SegmentIdx m) (EcIdx m) v (Signature m) (Recovered m) (BySuccessorSp m) (GvgId m).
Definition SetBySuccessorSp (v : bool) (m : t) : t :=
  mk (Task m) (ObjectInfo_ m) (StorageParams m) (SegmentIdx m) (EcIdx m) (PieceSize m) (Signature m) (Recovered m) v (GvgId m).
Definition SetGvgId (v : Z) (m : t) : t :=
  mk (Task m) (ObjectInfo_ m) (StorageParams m) (SegmentIdx m) (EcIdx m) (PieceSize m) (Signature m) (Recovered m) (BySuccessorSp m) v.

Definition Key (m : t) : TKey :=
  GfSpRecoverPieceTaskKey (BucketName (ObjectInfo_ m)) (ObjectName (ObjectInfo_ m)) (IdString (ObjectInfo_ m)) (SegmentIdx m) (EcIdx m).

Definition EstimateLimit (m : t) : option GfSpLimit.t :=
  Some (memory_limit (2 *' swrap 64 (PayloadSize (ObjectInfo_ m))) (GfSpTask.GetPriority (Task m))).

#[export] Instance task : CoreTask t := {
  Task.GetTask := Task;
  Task.set_task := set_task;
  Task.Key := Key;
  Task.Type_ _ := TypeTaskRecoverPiece;
  Task.EstimateLimit := EstimateLimit
}.

#[export] Instance task_ok : CoreTaskOk t.
Proof. split; intros; by destruct m. Qed.
End GfSpRecoverPieceTask.
Export (hints) GfSpRecoverPieceTask.


(** ** [GfSpMigrateGVGTask] *)

Module GfSpMigrateGVGTask.
Record t := mk {
  Task : GfSpTask.t;
  BucketId : Z;
  SrcGvg : GlobalVirtualGroup;
  DestGvg : option GlobalVirtualGroup;
  RedundancyIdx : Z;
  SrcSp : StorageProvider;
  LastMigratedObjectId : Z;
  Finished : bool;
  ExpireTime : Z;
  Signature : list Z;
  MigratedBytesSize : Z
}.

Definition InitMigrateGVGTask (priority bucketID : Z) (srcGvg : GlobalVirtualGroup) (redundancyIndex : Z) (srcSP : StorageProvider) (timeout retry : Z) : t :=
  mk (GfSpTask.SetRetry 0 (GfSpTask.SetMaxRetry retry (GfSpTask.SetTimeout timeout (GfSpTask.SetPriority priority GfSpTask.zero))))
    bucketID srcGvg None redundancyIndex srcSP 0 false 0 [] 0.

Definition set_task (b : GfSpTask.t) (m : t) : t :=
  mk b (BucketId m) (SrcGvg m) (DestGvg m) (RedundancyIdx m) (SrcSp m) (LastMigratedObjectId m) (Finished m) (ExpireTime m) (Signature m) (MigratedBytesSize m).

Definition SetSrcGvg (v : GlobalVirtualGroup) (m : t) : t :=
  mk (Task m) (BucketId m) v (DestGvg m) (RedundancyIdx m) (SrcSp m) (LastMigratedObjectId m) (Finished m) (ExpireTime m) (Signature m) (MigratedBytesSize m).
Definition SetDestGvg (v : option GlobalVirtualGroup) (m : t) : t :=
  mk (Task m) (BucketId m) (SrcGvg m) v (RedundancyIdx m) (SrcSp m) (LastMigratedObjectId m) (Finished m) (ExpireTime m) (Signature m) (MigratedBytesSize m).
Definition SetSrcSp (v : StorageProvider) (m : t) : t :=
  mk (Task m) (BucketId m) (SrcGvg m) (DestGvg m) (RedundancyIdx m) v (LastMigratedObjectId m) (Finished m) (ExpireTime m) (Signature m) (MigratedBytesSize m).
Definition SetBucketId (v : Z) (m : t) : t :=
  mk (Task m) v (SrcGvg m) (DestGvg m) (RedundancyIdx m) (SrcSp m) (LastMigratedObjectId m) (Finished m) (ExpireTime m) (Signature m) (MigratedBytesSize m).
Definition SetRedundancyIdx (v : Z) (m : t) : t :=
  mk (Task m) (BucketId m) (SrcGvg m) (DestGvg m) v (SrcSp m) (LastMigratedObjectId m) (Finished m) (ExpireTime m) (Signature m) (MigratedBytesSize m).
Definition SetLastMigratedObjectId (v : Z) (m : t) : t :=
  mk (Task m) (BucketId m) (SrcGvg m) (DestGvg m) (RedundancyIdx m) (SrcSp m) v (Finished m) (ExpireTime m) (Signature m) (MigratedBytesSize m).
Definition SetMigratedBytesSize (v : Z) (m : t) : t :=
  mk (Task m) (BucketId m) (SrcGvg m) (DestGvg m) (RedundancyIdx m) (SrcSp m) (LastMigratedObjectId m) (Finished m) (ExpireTime m) (Signature m) v.
Definition SetFinished (v : bool) (m : t) : t :=
  mk (Task m) (BucketId m) (SrcGvg m) (DestGvg m) (RedundancyIdx m) (SrcSp m) (LastMigratedObjectId m) v (ExpireTime m) (Signature m) (MigratedBytesSize m).
Definition SetSignature (v : list Z) (m : t) : t :=
  mk (Task m) (BucketId m) (SrcGvg m) (DestGvg m) (RedundancyIdx m) (SrcSp m) (LastMigratedObjectId m) (Finished m) (ExpireTime m) v (MigratedBytesSize m).

Definition Key (m : t) : TKey :=
  GfSpMigrateGVGTaskKey (gvg_id (SrcGvg m)) (BucketId m) (RedundancyIdx m).

Definition EstimateLimit (m : t) : option GfSpLimit.t :=
  Some (LimitEstimateByPriority (GfSpTask.GetPriority (Task m))).

#[export] Instance task : CoreTask t := {
  Task.GetTask := Task;
  Task.set_task := set_task;
  Task.Key := Key;
  Task.Type_ _ := TypeTaskMigrateGVG;
  Task.EstimateLimit := EstimateLimit
}.

#[export] Instance task_ok : CoreTaskOk t.
Proof. split; intros; by destruct m. Qed.
End GfSpMigrateGVGTask.
Export (hints) GfSpMigrateGVGTask.


(** ** [GfSpGCBucketMigrationTask] *)

Module GfSpGCBucketMigrationTask.
Record t := mk {
  Task : GfSpTask.t;
  BucketId : Z;
  LastGcObjectId : Z;
  LastGcGvgId : Z;
  Finished : bool;
  TotalGvgNum : Z;
  GcFinishedGvgNum : Z
}.

Definition InitGCBucketMigrationTask (priority bucketID timeout retry : Z) (now : Z) : t :=
  mk (GfSpTask.SetUpdateTime now (GfSpTask.SetRetry 0 (GfSpTask.SetMaxRetry retry (GfSpTask.SetTimeout timeout (GfSpTask.SetPriority priority GfSpTask.zero)))))
    bucketID 0 0 false 0 0.

Definition set_task (b : GfSpTask.t) (m : t) : t :=
  mk b (BucketId m) (LastGcObjectId m) (LastGcGvgId m) (Finished m) (TotalGvgNum m) (GcFinishedGvgNum m).

Definition SetBucketId (v : Z) (m : t) : t :=
  mk (Task m) v (LastGcObjectId m) (LastGcGvgId m) (Finished m) (TotalGvgNum m) (GcFinishedGvgNum m).
Definition SetLastGcObjectId (v : Z) (m : t) : t :=
  mk (Task m) (BucketId m) v (LastGcGvgId m) (Finished m) (TotalGvgNum m) (GcFinishedGvgNum m).
Definition SetLastGcGvgId (v : Z) (m : t) : t :=
  mk (Task m) (BucketId m) (LastGcObjectId m) v (Finished m) (TotalGvgNum m) (GcFinishedGvgNum m).
Definition SetFinished (v : bool) (m : t) : t :=
  mk (Task m) (BucketId m) (LastGcObjectId m) (LastGcGvgId m) v (TotalGvgNum m) (GcFinishedGvgNum m).
Definition SetTotalGvgNum (v : Z) (m : t) : t :=
  mk (Task m) (BucketId m) (LastGcObjectId m) (LastGcGvgId m) (Finished m) v (GcFinishedGvgNum m).
Definition SetGcFinishedGvgNum (v : Z) (m : t) : t :=
  mk (Task m) (BucketId m) (LastGcObjectId m) (LastGcGvgId m) (Finished m) (TotalGvgNum m) v.

Definition Key (m : t) : TKey :=
  GfSpGCBucketMigrationTaskKey (BucketId m).

Definition EstimateLimit (m : t) : option GfSpLimit.t :=
  Some (LimitEstimateByPriority (GfSpTask.GetPriority (Task m))).

#[export] Instance task : CoreTask t := {
  Task.GetTask := Task;
  Task.set_task := set_task;
  Task.Key := Key;
  Task.Type_ _ := TypeTaskGCBucketMigration;
  Task.EstimateLimit := EstimateLimit
}.

#[export] Instance task_ok : CoreTaskOk t.
Proof. split; intros; by destruct m. Qed.
End GfSpGCBucketMigrationTask.
Export (hints) GfSpGCBucketMigrationTask.
