(* ===== verification/TaskProps.v ===== *)
(** Properties of tasks: which tasks share a key, and what they ask the resource
    manager for (TaskKey.v, Task.v, TaskTypes.v, PieceOp.v). *)
From Stdlib Require Import ZArith Lia Ascii.
From stdpp Require Import base list strings pretty.
From S2P Require Import Prelude Strconv Limit PieceOp TaskKey Task TaskTypes.

Local Open Scope Z_scope.
Local Open Scope go_scope.

(** ** Keys *)

(** A chain object: bucket names and decimal object ids contain no colon. *)
Definition object_ok (o : ObjectInfo) : Prop := no_char ":"%char (BucketName o) /\ no_char ":"%char (IdString o).

Definition same_object (o o' : ObjectInfo) : Prop :=
  BucketName o = BucketName o' /\ ObjectName o = ObjectName o' /\ IdString o = IdString o'.

Lemma hex_no_char c bs :
  (forall d, 0 <= d < 16 -> hex_digit d <> c) -> Forall is_uint8 bs -> no_char c (EncodeToString bs).
Proof.
  intros Hc. induction 1 as [|b bs Hb _ IH]; [done|]. cbn.
  assert (0 <= Z.shiftr b 4 < 16).
  { rewrite Z.shiftr_div_pow2 by lia. unfold is_uint8 in Hb. change (2 ^ 4) with 16.
    split; [apply Z.div_pos; lia|apply Z.div_lt_upper_bound; lia]. }
  assert (0 <= Z.land b 15 < 16).
  { change 15 with (Z.ones 4). rewrite Z.land_ones by lia. apply Z.mod_pos_bound. done. }
  rewrite !bool_decide_false by auto. done.
Qed.

Lemma hex_digit_colon d : 0 <= d < 16 -> hex_digit d <> ":"%char.
Proof.
  intros. assert (d = 0 \/ d = 1 \/ d = 2 \/ d = 3 \/ d = 4 \/ d = 5 \/ d = 6 \/ d = 7 \/ d = 8 \/ d = 9 \/
    d = 10 \/ d = 11 \/ d = 12 \/ d = 13 \/ d = 14 \/ d = 15) as Hd by lia. destruct_or! Hd; by subst.
Qed.

(** The three tasks that take an object from upload to seal share one key, and
    tasks of different objects never do.  The queues of these stages are searched by
    that key, so at most one of them is queued per object in each queue. *)
Theorem object_stage_keys (u : GfSpUploadObjectTask.t) (r : GfSpReplicatePieceTask.t)
    (s : GfSpSealObjectTask.t) :
  let ou := GfSpUploadObjectTask.ObjectInfo_ u in
  let or_ := GfSpReplicatePieceTask.ObjectInfo_ r in
  let os := GfSpSealObjectTask.ObjectInfo_ s in
  object_ok ou -> object_ok or_ -> object_ok os ->
  (Key u = Key r <-> same_object ou or_) /\ (Key r = Key s <-> same_object or_ os) /\
  (Key u = Key s <-> same_object ou os).
Proof.
  cbn zeta. intros [] [] []. unfold same_object. split_and!.
  all: split; [by apply object_fields|intros (E1 & E2 & E3)];
    cbn; unfold GfSpUploadObjectTask.Key, GfSpReplicatePieceTask.Key, GfSpSealObjectTask.Key;
    by rewrite E1, E2, E3.
Qed.

Definition obj1 : ObjectInfo := mkObjectInfo "bucket-a" "dir/x:y" 17 40 REDUNDANCY_EC_TYPE 0 false.
Definition params1 : Params := mkParams 16 4 2 1000.
Definition upload1 : GfSpUploadObjectTask.t :=
  GfSpUploadObjectTask.InitUploadObjectTask 3 obj1 params1 60 false 1000 1000.
Definition replicate1 : GfSpReplicatePieceTask.t :=
  GfSpReplicatePieceTask.InitReplicatePieceTask obj1 params1 200 60 3 false 1001 1001.
Definition seal1 : GfSpSealObjectTask.t :=
  GfSpSealObjectTask.InitSealObjectTask 3 obj1 params1 200 [] [] 60 3 false 1002 1002.

Lemma object_stage_keys_witness :
  Key upload1 = "Uploading-bucket:bucket-a-object:dir/x:y-id:17"%string /\
  Key upload1 = Key replicate1 /\ Key replicate1 = Key seal1.
Proof.
  destruct (object_stage_keys upload1 replicate1 seal1) as (H1 & H2 & _); [by vm_compute..|].
  split; [by vm_compute|]. split; [by apply H1|by apply H2].
Defined.

(** The key of a create-object approval determines the request: bucket, object,
    account and fingerprint.  The object name is arbitrary; bucket names and account
    addresses contain no colon. *)
Theorem approval_key_unique b o a f b' o' a' f' :
  no_char ":"%char b -> no_char ":"%char b' -> no_char ":"%char a -> no_char ":"%char a' ->
  Forall is_uint8 f -> Forall is_uint8 f' ->
  GfSpCreateObjectApprovalTaskKey b o a f = GfSpCreateObjectApprovalTaskKey b' o' a' f' ->
  b = b' /\ o = o' /\ a = a' /\ EncodeToString f = EncodeToString f'.
Proof.
  intros Hb Hb' Ha Ha' Hf Hf' E. pose proof (hex_no_char ":"%char f hex_digit_colon Hf).
  pose proof (hex_no_char ":"%char f' hex_digit_colon Hf').
  unfold GfSpCreateObjectApprovalTaskKey, CombineKey, Delimiter in E. cbn [foldl] in E.
  rewrite !string_app_assoc in E. apply (string_app_inv_l "CreateObjectApproval-bucket:") in E.
  apply (field_first _ _ "-object") in E as [-> E]; [|done..].
  assert ((o +:+ "-account:" +:+ a) +:+ "-fingerprint" +:+ ":" +:+ EncodeToString f =
    (o' +:+ "-account:" +:+ a') +:+ "-fingerprint" +:+ ":" +:+ EncodeToString f')%string as E'
    by (rewrite !string_app_assoc; exact E).
  apply field_last in E' as [E' ->]; [|done..].
  apply (field_last _ _ "-account") in E' as [-> ->]; done.
Qed.

Lemma approval_key_unique_witness :
  GfSpCreateObjectApprovalTaskKey "b" "o:-account:" "0xA" [171] =
    "CreateObjectApproval-bucket:b-object:o:-account:-account:0xA-fingerprint:ab"%string /\
  (forall o', GfSpCreateObjectApprovalTaskKey "b" "o:-account:" "0xA" [171] =
     GfSpCreateObjectApprovalTaskKey "b" o' "0xA" [171] -> "o:-account:"%string = o').
Proof.
  split; [by vm_compute|]. intros o' E.
  apply approval_key_unique in E as (_ & E & _); [done|done|done|done|done|..];
    repeat constructor; vm_compute; congruence.
Defined.

(** ** Resource estimates *)

(** The object fits the chain's limits: sizes are far below 2^62. *)
Definition sizes_ok (o : ObjectInfo) (p : Params) : Prop :=
  0 <= PayloadSize o < 2 ^ 62 /\ 0 < MaxSegmentSize p < 2 ^ 62 /\
  PayloadSize o <= MaxUint32 * MaxSegmentSize p.

(** An upload asks for two segments' worth of memory, or twice the payload when
    that is smaller, and for exactly one task slot, that of its priority level. *)
Theorem upload_estimate_exact (m : GfSpUploadObjectTask.t) :
  let o := GfSpUploadObjectTask.ObjectInfo_ m in
  let p := GfSpUploadObjectTask.StorageParams m in
  sizes_ok o p ->
  exists l, EstimateLimit m = Some l /\
    GfSpLimit.Memory l = 2 * Z.min (PayloadSize o) (MaxSegmentSize p) /\
    GfSpLimit.Tasks l = 1 /\
    GfSpLimit.TasksHighPriority l + GfSpLimit.TasksMediumPriority l + GfSpLimit.TasksLowPriority l = 1 /\
    (GfSpLimit.TasksHighPriority l = 1 <-> DefaultLargerTaskPriority < GetPriority m) /\
    (GfSpLimit.TasksLowPriority l = 1 <-> GetPriority m < DefaultSmallerPriority).
Proof.
  cbn zeta. intros (Hp & Hs & _). eexists. split; [reflexivity|].
  set (o := GfSpUploadObjectTask.ObjectInfo_ m) in *. set (p := GfSpUploadObjectTask.StorageParams m) in *.
  assert ((if PayloadSize o >=? MaxSegmentSize p then swrap 64 (MaxSegmentSize p) *' 2
           else swrap 64 (PayloadSize o) *' 2) = 2 * Z.min (PayloadSize o) (MaxSegmentSize p)) as ->.
  { destruct (Z.geb_spec (PayloadSize o) (MaxSegmentSize p)); go_wrap; lia. }
  change (GetPriority m) with (GfSpTask.GetPriority (GfSpUploadObjectTask.Task m)).
  generalize (GfSpTask.GetPriority (GfSpUploadObjectTask.Task m)). intros prio.
  rewrite memory_limit_exact by go_lia. cbn.
  unfold DefaultLargerTaskPriority, DefaultSmallerPriority.
  destruct (Z.ltb_spec prio 85), (Z.ltb_spec 170 prio), (Z.leb_spec 85 prio), (Z.leb_spec prio 170);
    try lia; cbn; split_and!; lia.
Qed.

Lemma upload_estimate_exact_witness :
  EstimateLimit upload1 = Some (GfSpLimit.mk 32 1 0 0 1 0 0 0 0) /\
  exists l, EstimateLimit upload1 = Some l /\ GfSpLimit.Memory l = 2 * Z.min 40 16.
Proof.
  split; [by vm_compute|].
  destruct (upload_estimate_exact upload1) as (l & E & Hm & _); [vm_compute; intuition congruence|].
  by exists l.
Defined.

(** The two ways of counting segments agree. *)
Lemma challenge_count payload maxSeg :
  0 < payload < 2 ^ 62 -> 0 < maxSeg < 2 ^ 62 -> payload <= MaxUint32 * maxSeg ->
  (if negb (payload mod maxSeg =? 0) then uwrap 64 (payload / maxSeg + 1) else payload / maxSeg) =
  seg_count payload maxSeg.
Proof.
  intros Hp Hs Hc. rewrite <-SegmentPieceCount_exact by go_lia. unfold SegmentPieceCount.
  pose proof (seg_count_bounds payload maxSeg ltac:(go_lia) ltac:(go_lia) ltac:(lia)) as (? & _).
  pose proof (SegmentPieceCount_exact payload maxSeg ltac:(go_lia) ltac:(go_lia) ltac:(lia)) as Hsc.
  unfold SegmentPieceCount in Hsc. destruct (Z.eqb_spec maxSeg 0); [lia|].
  pose proof (Z.mod_pos_bound payload maxSeg ltac:(lia)).
  assert (0 <= payload / maxSeg <= payload).
  { split; [apply Z.div_pos; lia|apply Z.div_le_upper_bound; nia]. }
  assert (payload / maxSeg <= MaxUint32) by (apply Z.div_le_upper_bound; lia).
  destruct (Z.eqb_spec (payload mod maxSeg) 0) as [E|E], (Z.gtb_spec (payload mod maxSeg) 0);
    try lia; cbn [negb] in *.
  - unfold uwrap. rewrite Z.mod_small; go_lia.
  - rewrite uint64_wrap_id in * by go_lia.
    pose proof (Z.div_mod payload maxSeg ltac:(lia)).
    unfold uwrap. rewrite Z.mod_small; [done|]. go_unfold. nia.
Qed.

(** The memory of a segment challenge, as [EstimateLimit] computes it. *)
Lemma challenge_memory payload maxSeg i :
  0 < payload < 2 ^ 62 -> 0 < maxSeg < 2 ^ 62 -> payload <= MaxUint32 * maxSeg ->
  let n := seg_count payload maxSeg in
  (if n =? 1 then Some (swrap 64 payload)
   else if i =? uwrap 32 (uwrap 64 (n - 1)) then
     Some (swrap 64 payload -' (swrap 64 n -' 1) *' swrap 64 maxSeg)
   else Some (swrap 64 maxSeg)) = Some (SegmentPieceSize payload i maxSeg).
Proof.
  intros Hp Hs Hc. cbn zeta. unfold SegmentPieceSize. rewrite SegmentPieceCount_exact by go_lia.
  pose proof (seg_count_bounds payload maxSeg ltac:(go_lia) ltac:(go_lia) ltac:(lia)) as (? & _).
  set (n := seg_count payload maxSeg) in *. clearbody n.
  rewrite (uint64_wrap_id (n - 1)), (int64_wrap_id n) by go_lia.
  destruct (n =? 1); [done|]. by destruct (i =? uwrap 32 (n - 1)).
Qed.

(** The challenge of a segment piece reserves exactly the size of the piece: the
    estimate agrees with [SegmentPieceSize] of the piece store for every segment. *)
Theorem challenge_segment_estimate (m : GfSpChallengePieceTask.t) :
  let o := GfSpChallengePieceTask.ObjectInfo_ m in
  let p := GfSpChallengePieceTask.StorageParams m in
  let i := GfSpChallengePieceTask.SegmentIdx m in
  sizes_ok o p -> 0 < PayloadSize o -> GfSpChallengePieceTask.RedundancyIdx m < 0 ->
  0 <= i < SegmentPieceCount (PayloadSize o) (MaxSegmentSize p) ->
  exists l, EstimateLimit m = Some l /\
    GfSpLimit.Memory l = SegmentPieceSize (PayloadSize o) i (MaxSegmentSize p) /\
    GfSpLimit.Tasks l = 1.
Proof.
  cbn zeta. intros (Hp & Hs & Hc) H0 Hr Hi.
  change (EstimateLimit m) with (GfSpChallengePieceTask.EstimateLimit m).
  unfold GfSpChallengePieceTask.EstimateLimit.
  set (o := GfSpChallengePieceTask.ObjectInfo_ m) in *.
  set (p := GfSpChallengePieceTask.StorageParams m) in *.
  destruct (Z.eqb_spec (MaxSegmentSize p) 0); [lia|]. rewrite challenge_count by lia.
  destruct (Z.ltb_spec (GfSpChallengePieceTask.RedundancyIdx m) 0); [|lia].
  rewrite challenge_memory by lia. cbn [mbind option_bind]. eexists. split; [reflexivity|].
  rewrite memory_limit_exact; [done|].
  rewrite SegmentPieceCount_exact in Hi by go_lia. rewrite SegmentPieceSize_exact by go_lia.
  pose proof (seg_count_bounds (PayloadSize o) (MaxSegmentSize p) ltac:(go_lia) ltac:(go_lia) ltac:(lia)).
  go_unfold. nia.
Qed.

Definition challenge1 (seg red : Z) : GfSpChallengePieceTask.t :=
  GfSpChallengePieceTask.InitChallengePieceTask obj1 (mkBucketInfo "bucket-a") params1 200 "0xA" red seg 60 3 1000 1000.

Lemma challenge_segment_estimate_witness :
  exists l, EstimateLimit (challenge1 2 (-1)) = Some l /\ GfSpLimit.Memory l = 8.
Proof.
  destruct (challenge_segment_estimate (challenge1 2 (-1))) as (l & E & Hm & _);
    [vm_compute; intuition congruence|by vm_compute|by vm_compute|vm_compute; intuition congruence|].
  exists l. split; [done|]. rewrite Hm. by vm_compute.
Defined.

(** The challenge of an erasure-coded piece of the last segment reserves far more
    than the piece: only the subtrahend is divided by the number of data chunks.  On
    40 bytes in segments of 16 with 4 data chunks the last piece has 2 bytes, the
    estimate is 32; and on a single segment the division drops the padding byte. *)
Theorem challenge_ec_estimate_off :
  option_map GfSpLimit.Memory (EstimateLimit (challenge1 2 1)) = Some 32 /\
  ECPieceSize 40 2 16 4 = Some 2 /\
  option_map GfSpLimit.Memory (EstimateLimit (challenge1 1 1)) = ECPieceSize 40 1 16 4.
Proof. split_and!; by vm_compute. Qed.

(** Only the first report of an unavailable secondary SP is kept: once an index is
    recorded in a replicate task, later reports change nothing. *)
Theorem first_unavailable_sp_kept (m : GfSpReplicatePieceTask.t) i js :
  GfSpReplicatePieceTask.NotAvailableSpIdx m = -1 -> i <> -1 ->
  GfSpReplicatePieceTask.NotAvailableSpIdx
    (foldl (fun m j => GfSpReplicatePieceTask.SetNotAvailableSpIdx j m) m (i :: js)) = i.
Proof.
  intros Hm Hi. cbn [foldl].
  assert (GfSpReplicatePieceTask.NotAvailableSpIdx (GfSpReplicatePieceTask.SetNotAvailableSpIdx i m) = i) as Hi'.
  { unfold GfSpReplicatePieceTask.SetNotAvailableSpIdx. by rewrite Hm. }
  revert Hi'. generalize (GfSpReplicatePieceTask.SetNotAvailableSpIdx i m). clear Hm m.
  induction js as [|j js IH]; intros m Hm; [done|]. cbn [foldl]. apply IH.
  unfold GfSpReplicatePieceTask.SetNotAvailableSpIdx.
  destruct (Z.eqb_spec (GfSpReplicatePieceTask.NotAvailableSpIdx m) (-1)); [lia|done].
Qed.

Lemma first_unavailable_sp_kept_witness :
  GfSpReplicatePieceTask.NotAvailableSpIdx
    (foldl (fun m j => GfSpReplicatePieceTask.SetNotAvailableSpIdx j m) replicate1 [2; 5; 0]) = 2.
Proof. apply (first_unavailable_sp_kept replicate1 2 [5; 0]); [by vm_compute|lia]. Defined.

(** The float64 estimate of a replication with the usual parameters is exact. *)
Example replicate_estimate_16MiB :
  option_map GfSpLimit.Memory (EstimateLimit (GfSpReplicatePieceTask.InitReplicatePieceTask
    obj1 (mkParams 16777216 4 2 1000) 200 60 3 false 0 0)) = Some 25165824.
Proof. by vm_compute. Qed.
