(* ===== verification/TQueue.v ===== *)
(** Task queues: base/gfsptqueue/queue.go and queue_limit.go, with [SortKeys] of
    util/maps/maps.go.

    A queue holds task references under their keys.  [T] is the type of references
    (equality is pointer identity); the class [QueueTask] is what a queue asks of a
    task.  Each public operation holds the queue's mutex, so it is a function on the
    queue's state; the strategies are predicates that may consult the clock, whose
    reading [now] is an argument; the iteration order of the Go map is an argument
    [ord] of the operations that range over it, and [sort.Slice] sorts that list
    stably, so every order [sort.Slice] may produce is obtained for some [ord]. *)
From Stdlib Require Import ZArith Lia.
From stdpp Require Import base gmap list strings sorting.
From S2P Require Import Prelude Limit TaskKey Task TaskTypes.

Local Open Scope Z_scope.

Class QueueTask (T : Type) := {
  qkey : T -> TKey;
  qcreate : T -> Z;
  qestimate : T -> GfSpLimit.t
}.

Inductive queue_error := ErrTaskRepeated | ErrTaskQueueExceed.

#[export] Instance queue_error_eq_dec : EqDecision queue_error.
Proof. solve_decision. Defined.

Record GfSpTQueue (T : Type) := mkQueue {
  qname : string;
  current : Z;
  tasks : gmap TKey T;
  cap : Z;
  gcFunc : option (Z -> T -> bool);
  filterFunc : option (Z -> T -> bool)
}.
Arguments mkQueue {T}.
Arguments qname {T}.
Arguments current {T}.
Arguments tasks {T}.
Arguments cap {T}.
Arguments gcFunc {T}.
Arguments filterFunc {T}.

Definition set_tasks {T} (ts : gmap TKey T) (q : GfSpTQueue T) : GfSpTQueue T :=
  mkQueue (qname q) (current q) ts (cap q) (gcFunc q) (filterFunc q).
Definition set_current {T} (c : Z) (q : GfSpTQueue T) : GfSpTQueue T :=
  mkQueue (qname q) c (tasks q) (cap q) (gcFunc q) (filterFunc q).

(** ** util/maps *)

Definition string_le (a b : string) : Prop := String.leb a b = true.
#[export] Instance string_le_dec a b : Decision (string_le a b) := decide (String.leb a b = true).

(** Map keys are distinct, so the order in which the map is ranged over does not
    show in the sorted result. *)
Definition SortKeys {T} (m : gmap TKey T) : list TKey := merge_sort string_le (map_to_list m).*1.

(** ** sort.Search

    The smallest index in [0, n) at which [f] is true, for an [f] that is false
    up to some index and true from there on; [n] if there is none. *)
Fixpoint search_loop (fuel : nat) (f : nat -> bool) (i j : nat) : nat :=
  match fuel with
  | O => i
  | S fuel =>
    if decide (i < j)%nat then
      let h := Nat.div2 (i + j) in
      if negb (f h) then search_loop fuel f (h + 1) j else search_loop fuel f i h
    else i
  end.

(** The interval shrinks in every round, so [n] rounds are enough. *)
Definition Search (n : nat) (f : nat -> bool) : nat := search_loop n f 0 n.

Section queue.
Context {T : Type} `{EqDecision T, QueueTask T}.
Implicit Types (q : GfSpTQueue T) (task : T) (now : Z).

Definition create_le (a b : T) : Prop := qcreate a <= qcreate b.
#[export] Instance create_le_dec a b : Decision (create_le a b) := decide (qcreate a <= qcreate b).

(** ** queue.go *)

Definition NewGfSpTQueue (nm : string) (cp : Z) : GfSpTQueue T := mkQueue nm 0 ∅ cp None None.

Definition Len q : Z := Z.of_nat (size (tasks q)).
Definition Cap q : Z := cap q.

(** The retire strategy on a task; without a strategy nothing is retired. *)
Definition retired now q task : bool :=
  match gcFunc q with Some gc => gc now task | None => false end.
Definition filtered now q task : bool :=
  match filterFunc q with Some f => f now task | None => true end.

Definition has now (key : TKey) q : GfSpTQueue T * bool :=
  match tasks q !! key with
  | Some task =>
    if retired now q task then (set_tasks (delete (qkey task) (tasks q)) q, false) else (q, true)
  | None => (q, false)
  end.

Definition add now task q : GfSpTQueue T :=
  let '(q, h) := has now (qkey task) q in
  if h then q else set_tasks (<[qkey task := task]> (tasks q)) q.

Definition delete_ now task q : GfSpTQueue T :=
  let '(q, h) := has now (qkey task) q in
  if negb h then q else set_tasks (delete (qkey task) (tasks q)) q.

Definition exceed q : bool := Len q >=? cap q.

(** The collection loop, the choice and the deferred deletions of [top] and
    [topByLimit]; [pass] is the test a task has to pass. *)
Definition pick (pass : T -> bool) now (ord : list T) q : GfSpTQueue T * option T :=
  if bool_decide (size (tasks q) = 0%nat) then (q, None)
  else
    let gcTasks := filter (fun t => retired now q t) ord in
    let backupTasks := filter (fun t => negb (retired now q t) && pass t) ord in
    let q' := set_tasks (foldl (fun m t => delete (qkey t) m) (tasks q) gcTasks) q in
    let backupTasks := merge_sort create_le backupTasks in
    match backupTasks with
    | [] => (q', None)
    | first :: _ =>
      let n := length backupTasks in
      let index := Search n (fun i =>
        match backupTasks !! i with Some t => qcreate t >? current q | None => false end) in
      let index := if decide (index = n) then 0%nat else index in
      match backupTasks !! index with
      | Some t => (set_current (qcreate t) q', Some t)
      | None => (q', None)
      end
    end.

Definition top now ord q : GfSpTQueue T * option T := pick (filtered now q) now ord q.

Definition Has now (key : TKey) q : GfSpTQueue T * bool := has now key q.
Definition Top now ord q : GfSpTQueue T * option T := top now ord q.

Definition Pop now ord q : GfSpTQueue T * option T :=
  let '(q, t) := top now ord q in
  match t with
  | Some task => (delete_ now task q, Some task)
  | None => (q, None)
  end.

Definition PopByKey now (key : TKey) q : GfSpTQueue T * option T :=
  let '(q, h) := has now key q in
  if negb h then (q, None)
  else match tasks q !! key with
       | None => (q, None)
       | Some task => (delete_ now task q, Some task)
       end.

(** A nil task is [None]. *)
Definition PopTask now (task : option T) q : GfSpTQueue T * bool :=
  match task with
  | None => (q, false)
  | Some task =>
    if bool_decide (tasks q !! qkey task = Some task) then (delete_ now task q, true) else (q, false)
  end.

(** The first key, in order, whose task is to be retired. *)
Definition first_retired now (keys : list TKey) q : option T :=
  list_find (fun k => is_true (match tasks q !! k with Some t => retired now q t | None => false end)) keys
    ≫= fun '(_, k) => tasks q !! k.

Definition Push now task q : GfSpTQueue T * option queue_error :=
  let '(q, h) := has now (qkey task) q in
  if h then (q, Some ErrTaskRepeated)
  else if exceed q then
    match gcFunc q with
    | None => (q, Some ErrTaskQueueExceed)
    | Some _ =>
      match first_retired now (SortKeys (tasks q)) q with
      | Some old => (add now task (delete_ now old q), None)
      | None => (q, Some ErrTaskQueueExceed)
      end
    end
  else (add now task q, None).

Definition SetFilterTaskStrategy (filter : option (Z -> T -> bool)) q : GfSpTQueue T :=
  mkQueue (qname q) (current q) (tasks q) (cap q) (gcFunc q) filter.
Definition SetRetireTaskStrategy (retire : option (Z -> T -> bool)) q : GfSpTQueue T :=
  mkQueue (qname q) (current q) (tasks q) (cap q) retire (filterFunc q).

(** The tasks in the order [scan] is called on them. *)
Definition ScanTask (ord : list T) {A} (scan : A -> T -> A) (a : A) : A := foldl scan a ord.

(** ** queue_limit.go: the same queue, whose top also has to fit a limit *)

Section limit.
Context {L : Type} `{LimitCompare L}.

Definition topByLimit (limit : L) now ord q : GfSpTQueue T * option T :=
  pick (fun t => NotLess limit (qestimate t) && filtered now q t) now ord q.

Definition TopByLimit (limit : L) now ord q : GfSpTQueue T * option T :=
  topByLimit limit now ord q.

Definition PopByLimit (limit : L) now ord q : GfSpTQueue T * option T :=
  let '(q, t) := topByLimit limit now ord q in
  match t with
  | Some task => (delete_ now task q, Some task)
  | None => (q, None)
  end.
End limit.
End queue.

(** A task of package gfsptask behind a pointer [fst]; the upload tasks' estimate
    never panics. *)
#[export] Instance upload_queue_task : QueueTask (nat * GfSpUploadObjectTask.t) := {
  qkey p := Key p.2;
  qcreate p := GetCreateTime p.2;
  qestimate p := default GfSpLimit.zero (EstimateLimit p.2)
}.

(** ** Proofs *)

(** *** sort.Search *)

Lemma search_loop_spec n f fuel i j :
  (forall a b, a <= b -> b < n -> f a = true -> f b = true)%nat ->
  (i <= j <= n)%nat -> (j - i <= fuel)%nat ->
  (forall k, k < i -> f k = false)%nat -> (forall k, j <= k < n -> f k = true)%nat ->
  let r := search_loop fuel f i j in
  (i <= r <= j)%nat /\ (forall k, k < r -> f k = false)%nat /\ (forall k, r <= k < n -> f k = true)%nat.
Proof.
  intros Hm. revert i j. induction fuel as [|fuel IH]; intros i j Hij Hf Hlo Hhi; cbn.
  { assert (i = j) as -> by lia. split_and!; auto; lia. }
  destruct (decide (i < j)%nat); [|assert (i = j) as -> by lia; split_and!; auto; lia].
  pose proof (Nat.div2_odd (i + j)) as Hd.
  assert (i <= Nat.div2 (i + j) < j)%nat by (destruct (Nat.odd (i + j)); cbn in Hd; lia).
  set (h := Nat.div2 (i + j)) in *. destruct (f h) eqn:Eh; cbn.
  - destruct (IH i h ltac:(lia) ltac:(lia)) as (? & ? & ?); auto.
    { intros k Hk. apply (Hm h k); [lia|lia|done]. }
    split_and!; auto; lia.
  - destruct (IH (h + 1)%nat j ltac:(lia) ltac:(lia)) as (? & ? & ?); auto.
    { intros k Hk. destruct (f k) eqn:Ek; [|done]. exfalso.
      assert (f h = true); [|congruence]. apply (Hm k h); [lia|lia|done]. }
    split_and!; auto; lia.
Qed.

Lemma Search_spec n f :
  (forall a b, a <= b -> b < n -> f a = true -> f b = true)%nat ->
  (Search n f <= n)%nat /\ (forall k, k < Search n f -> f k = false)%nat /\
  (forall k, Search n f <= k < n -> f k = true)%nat.
Proof.
  intros Hm. destruct (search_loop_spec n f n 0 n Hm) as (? & ? & ?); [lia..|].
  split_and!; auto. unfold Search. lia.
Qed.

Section proofs.
Context {T : Type} `{EqDecision T, QueueTask T}.
Implicit Types (q : GfSpTQueue T) (task : T) (now : Z).

Definition values q : list T := (map_to_list (tasks q)).*2.

(** Every task is stored under its own key. *)
Definition keys_ok q : Prop := forall k t, tasks q !! k = Some t -> qkey t = k.

(** The queue without the tasks to be retired. *)
Definition live now q : gmap TKey T := filter (fun kt => retired now q kt.2 = false) (tasks q).

Lemma live_lookup now q k t :
  live now q !! k = Some t <-> tasks q !! k = Some t /\ retired now q t = false.
Proof. unfold live. rewrite map_lookup_filter_Some. done. Qed.

Lemma elem_of_values q t : t ∈ values q <-> exists k, tasks q !! k = Some t.
Proof.
  unfold values. rewrite list_elem_of_fmap. split.
  - intros ([k x] & -> & Hx%elem_of_map_to_list). by exists k.
  - intros [k Hk]. exists (k, t). split; [done|]. by apply elem_of_map_to_list.
Qed.

Lemma values_nodup q : keys_ok q -> NoDup (qkey <$> values q).
Proof.
  intros Hk. unfold values. rewrite <-list_fmap_compose.
  rewrite (list_fmap_ext _ fst); [apply NoDup_fst_map_to_list|].
  intros i [k t] Hi%list_elem_of_lookup_2%elem_of_map_to_list. cbn. by apply Hk.
Qed.

Lemma foldl_delete_lookup (m : gmap TKey T) l k :
  foldl (fun m t => delete (qkey t) m) m l !! k = if decide (k ∈ qkey <$> l) then None else m !! k.
Proof.
  revert m. induction l as [|t l IH]; intros m; cbn [foldl fmap list_fmap].
  - rewrite decide_False by apply not_elem_of_nil. done.
  - rewrite IH. destruct (decide (k ∈ qkey <$> l)) as [Hin|Hin].
    + rewrite decide_True; [done|]. by right.
    + rewrite lookup_delete. destruct (decide (qkey t = k)) as [->|].
      * rewrite decide_True; [done|left].
      * rewrite decide_False; [done|]. by rewrite not_elem_of_cons.
Qed.

(** The deferred deletions leave the live tasks. *)
Lemma pick_tasks now ord q :
  keys_ok q -> ord ≡ₚ values q ->
  foldl (fun m t => delete (qkey t) m) (tasks q) (filter (fun t => retired now q t) ord) = live now q.
Proof.
  intros Hk Hord. apply map_eq. intros k. rewrite foldl_delete_lookup.
  destruct (decide _) as [Hin|Hin].
  - symmetry. apply eq_None_not_Some. intros [t [Ht Hr]%live_lookup].
    apply list_elem_of_fmap in Hin as (t' & -> & [Hr' Ht']%list_elem_of_filter).
    rewrite Hord in Ht'. apply elem_of_values in Ht' as [k' Hk'].
    pose proof (Hk _ _ Hk'). subst. rewrite Hk' in Ht. injection Ht as ->. by rewrite Hr in Hr'.
  - destruct (tasks q !! k) as [t|] eqn:E.
    + symmetry. apply live_lookup. split; [done|]. destruct (retired now q t) eqn:Er; [|done].
      destruct Hin. rewrite <-(Hk _ _ E). apply list_elem_of_fmap. exists t. split; [done|].
      apply list_elem_of_filter. rewrite Er. split; [done|]. rewrite Hord. apply elem_of_values. by exists k.
    + symmetry. apply eq_None_not_Some. intros [t [Ht _]%live_lookup]. congruence.
Qed.

(** *** The choice of the top task *)

(** [t] is the task after the time [cur] in the cyclic order of creation times. *)
Definition next_of (cur : Z) (l : list T) (t : T) : Prop :=
  t ∈ l /\
  ((exists y, y ∈ l /\ cur < qcreate y) ->
     cur < qcreate t /\ forall y, y ∈ l -> cur < qcreate y -> qcreate t <= qcreate y) /\
  ((forall y, y ∈ l -> qcreate y <= cur) -> forall y, y ∈ l -> qcreate t <= qcreate y).

Lemma next_of_perm cur l l' t : l ≡ₚ l' -> next_of cur l t -> next_of cur l' t.
Proof. intros Hp. unfold next_of. setoid_rewrite Hp. done. Qed.

#[local] Instance create_le_trans : Transitive create_le.
Proof. intros a b c. unfold create_le. lia. Qed.
#[local] Instance create_le_total : Total create_le.
Proof. intros a b. unfold create_le. lia. Qed.

Lemma sorted_lookup (l : list T) i j a b :
  StronglySorted create_le l -> (i <= j)%nat -> l !! i = Some a -> l !! j = Some b -> qcreate a <= qcreate b.
Proof.
  intros Hs. revert i j. induction Hs as [|x l Hs IH Hx]; intros [|i] [|j] Hij Ha Hb; cbn in *;
    try done; try lia; simplify_eq; [lia| |].
  - rewrite Forall_forall in Hx. apply Hx. by apply list_elem_of_lookup_2 in Hb.
  - eapply (IH i j); eauto. lia.
Qed.

(** The search of [top] on a sorted list. *)
Definition after (cur : Z) (l : list T) (i : nat) : bool :=
  match l !! i with Some t => qcreate t >? cur | None => false end.

Lemma search_next cur (l : list T) :
  StronglySorted create_le l -> l <> [] ->
  let index := Search (length l) (after cur l) in
  exists t, l !! (if decide (index = length l) then 0%nat else index) = Some t /\ next_of cur l t.
Proof.
  intros Hs Hne index.
  destruct (Search_spec (length l) (after cur l)) as (Hn & Hlo & Hhi).
  { intros a b Hab Hb. unfold after. destruct (l !! a) as [x|] eqn:Ex; [|done].
    destruct (lookup_lt_is_Some_2 l b Hb) as [y Hy]. rewrite Hy.
    pose proof (sorted_lookup l a b x y Hs Hab Ex Hy). rewrite !Z.gtb_ltb, !Z.ltb_lt. lia. }
  fold index in Hn, Hlo, Hhi. unfold after in Hlo, Hhi. destruct (decide (index = length l)) as [E|E].
  - destruct l as [|x l]; [done|]. exists x. split; [done|]. split; [left|].
    assert (forall y, y ∈ x :: l -> qcreate y <= cur) as Hall.
    { intros y [i Hi]%list_elem_of_lookup_1. pose proof (lookup_lt_Some _ _ _ Hi).
      specialize (Hlo i ltac:(lia)). rewrite Hi in Hlo. zbool. lia. }
    split; [intros (y & Hy & ?); specialize (Hall y Hy); lia|].
    intros _ y [i Hi]%list_elem_of_lookup_1. by eapply (sorted_lookup _ 0 i); [|lia| |].
  - destruct (lookup_lt_is_Some_2 l index ltac:(lia)) as [t Ht]. exists t. split; [done|].
    assert (cur < qcreate t) as Hgt.
    { specialize (Hhi index ltac:(lia)). rewrite Ht in Hhi. by zbool. }
    split; [by apply list_elem_of_lookup_2 in Ht|]. split.
    + intros _. split; [done|]. intros y [i Hi]%list_elem_of_lookup_1 Hy.
      destruct (decide (i < index)%nat); [|by eapply (sorted_lookup _ index i); [|lia| |]].
      specialize (Hlo i ltac:(lia)). rewrite Hi in Hlo. zbool. lia.
    + intros Hall. specialize (Hall t ltac:(by apply list_elem_of_lookup_2 in Ht)). lia.
Qed.

(** The tasks that may be handed out. *)
Definition eligible (pass : T -> bool) now q : list T :=
  filter (fun t => negb (retired now q t) && pass t) (values q).

Lemma elem_of_eligible pass now q t :
  t ∈ eligible pass now q <-> (exists k, live now q !! k = Some t) /\ pass t = true.
Proof.
  unfold eligible. rewrite list_elem_of_filter, elem_of_values.
  setoid_rewrite live_lookup. rewrite andb_True, negb_True. split.
  - intros ([Hr Hp] & k & Hk). split; [|by destruct (pass t)]. exists k. split; [done|].
    by destruct (retired now q t).
  - intros ((k & Hk & Hr) & Hp). rewrite Hr, Hp. split_and!; [by intros []|done|by exists k].
Qed.

Record same_settings (q q' : GfSpTQueue T) : Prop := {
  same_cap : cap q' = cap q;
  same_gc : gcFunc q' = gcFunc q;
  same_filter : filterFunc q' = filterFunc q
}.

Lemma pick_spec pass now ord q q' r :
  keys_ok q -> ord ≡ₚ values q -> pick pass now ord q = (q', r) ->
  tasks q' = live now q /\ same_settings q q' /\
  match r with
  | None => eligible pass now q = [] /\ current q' = current q
  | Some t => next_of (current q) (eligible pass now q) t /\ current q' = qcreate t
  end.
Proof.
  intros Hk Hord. unfold pick. case_bool_decide as Hz.
  { intros [= <- <-]. apply map_size_empty_iff in Hz. split_and!; [|done|..].
    - unfold live. rewrite Hz. by rewrite map_filter_empty.
    - unfold eligible, values. by rewrite Hz, map_to_list_empty.
    - done. }
  assert (forall P : T -> Prop, forall (HP : forall x, Decision (P x)), merge_sort create_le (filter P ord) ≡ₚ filter P (values q)) as Hperm.
  { intros P HP. rewrite merge_sort_Permutation. by rewrite Hord. }
  specialize (Hperm (fun t => negb (retired now q t) && pass t) _). cbv zeta.
  set (l := merge_sort create_le _) in *.
  assert (StronglySorted create_le l) as Hs by (apply StronglySorted_merge_sort; apply _).
  rewrite (pick_tasks now ord q Hk Hord). destruct l as [|x l'] eqn:El.
  { intros [= <- <-]. split_and!; [done|done| |done]. symmetry in Hperm.
    by apply Permutation_nil_r in Hperm. }
  rewrite <-El in *. destruct (search_next (current q) l Hs ltac:(by rewrite El)) as (t & Ht & Hn).
  fold (after (current q) l). unfold after in Ht at 1. unfold after at 1. rewrite Ht. intros [= <- <-].
  split_and!; [done|done| |done]. eapply next_of_perm; [|done]. done.
Qed.

(** *** The map operations *)

Lemma same_settings_refl q : same_settings q q.
Proof. done. Qed.

Lemma same_settings_trans q1 q2 q3 : same_settings q1 q2 -> same_settings q2 q3 -> same_settings q1 q3.
Proof. intros [] []. split; congruence. Qed.

Lemma retired_settings now q q' t : same_settings q q' -> retired now q' t = retired now q t.
Proof. intros []. unfold retired. by rewrite same_gc0. Qed.

Lemma retired_set_tasks now q ts t : retired now (set_tasks ts q) t = retired now q t.
Proof. done. Qed.

(** [has] answers for the live tasks, and drops the queried task if it is retired. *)
Lemma has_spec now k q q' h :
  keys_ok q -> has now k q = (q', h) ->
  same_settings q q' /\ current q' = current q /\
  match live now q !! k with
  | Some _ => h = true /\ q' = q
  | None => h = false /\ tasks q' = delete k (tasks q)
  end.
Proof.
  intros Hk. unfold has. destruct (tasks q !! k) as [t|] eqn:Et.
  - destruct (retired now q t) eqn:Er; intros [= <- <-].
    + assert (live now q !! k = None) as ->.
      { apply eq_None_not_Some. intros [x [Hx Hr]%live_lookup]. simplify_eq. congruence. }
      split_and!; try done. cbn. by rewrite (Hk _ _ Et).
    + assert (live now q !! k = Some t) as -> by (by apply live_lookup). done.
  - intros [= <- <-]. assert (live now q !! k = None) as ->.
    { apply eq_None_not_Some. intros [x [Hx _]%live_lookup]. congruence. }
    split_and!; try done. by rewrite delete_id.
Qed.

Lemma delete_spec now t q :
  keys_ok q ->
  tasks (delete_ now t q) = delete (qkey t) (tasks q) /\ same_settings q (delete_ now t q) /\
  current (delete_ now t q) = current q.
Proof.
  intros Hk. unfold delete_. destruct (has now (qkey t) q) as [q1 h] eqn:E.
  apply has_spec in E as (Hs & Hc & E); [|done]. destruct (live now q !! qkey t).
  - by destruct E as [-> ->].
  - destruct E as [-> E]. cbn. by rewrite E.
Qed.

Lemma add_spec now t q :
  keys_ok q -> live now q !! qkey t = None ->
  tasks (add now t q) = <[qkey t := t]> (tasks q) /\ same_settings q (add now t q) /\
  current (add now t q) = current q.
Proof.
  intros Hk Hl. unfold add. destruct (has now (qkey t) q) as [q1 h] eqn:E.
  apply has_spec in E as ([] & Hc & E); [|done]. rewrite Hl in E. destruct E as [-> E]. cbn.
  split_and!; [|by split|done]. by rewrite E, insert_delete_eq.
Qed.

(** *** Retiring one task *)

Lemma elem_of_SortKeys q k : k ∈ SortKeys (tasks q) <-> is_Some (tasks q !! k).
Proof.
  unfold SortKeys. rewrite merge_sort_Permutation, list_elem_of_fmap. split.
  - intros ([k' t] & -> & Ht%elem_of_map_to_list). by exists t.
  - intros [t Ht]. exists (k, t). split; [done|]. by apply elem_of_map_to_list.
Qed.

#[local] Instance string_le_total : Total string_le.
Proof. intros a b. unfold string_le. destruct (String.leb_total a b); auto. Qed.

#[local] Instance string_le_trans : Transitive string_le.
Proof.
  intros a b c. unfold string_le, String.leb. revert b c.
  induction a as [|x a IH]; intros [|y b] [|z c]; cbn; try done.
  destruct (Ascii.compare x y) eqn:E1, (Ascii.compare y z) eqn:E2; try done;
    unfold Ascii.compare in *; rewrite ?N.compare_eq_iff, ?N.compare_lt_iff in *; intros H1 H2.
  - rewrite E1, E2, N.compare_refl. by apply (IH b c).
  - assert ((_ ?= _)%N = Lt) as -> by (apply N.compare_lt_iff; rewrite E1; done). done.
  - assert ((_ ?= _)%N = Lt) as -> by (apply N.compare_lt_iff; rewrite <-E2; done). done.
  - assert ((_ ?= _)%N = Lt) as -> by (apply N.compare_lt_iff; by etrans). done.
Qed.

(** The retired task is the one with the least key, and one is found if there is one. *)
Lemma first_retired_spec now q :
  keys_ok q ->
  match first_retired now (SortKeys (tasks q)) q with
  | Some old => tasks q !! qkey old = Some old /\ retired now q old = true /\
      forall k t, tasks q !! k = Some t -> retired now q t = true -> string_le (qkey old) k
  | None => forall k t, tasks q !! k = Some t -> retired now q t = false
  end.
Proof.
  intros Hk. unfold first_retired. set (P := fun k => is_true _).
  assert (StronglySorted string_le (SortKeys (tasks q))) as Hs by (apply StronglySorted_merge_sort; apply _).
  destruct (list_find P (SortKeys (tasks q))) as [[i k]|] eqn:E; cbn.
  - apply list_find_Some in E as (Hi & HP & Hlt). unfold P in HP.
    destruct (tasks q !! k) as [old|] eqn:Eo; [|done]. pose proof (Hk _ _ Eo) as Hko. rewrite Hko.
    split; [done|]. split; [by destruct (retired now q old)|].
    intros k' t Ht Hr. assert (k' ∈ SortKeys (tasks q)) as [j Hj]%list_elem_of_lookup_1.
    { apply elem_of_SortKeys. by exists t. }
    destruct (decide (j < i)%nat) as [Hji|].
    + exfalso. apply (Hlt j k' Hj Hji). unfold P. cbv beta. by rewrite Ht, Hr.
    + clear -Hs Hi Hj n. revert i j Hi Hj n. induction Hs as [|x l Hs IH Hx]; intros [|i] [|j] Hi Hj Hn; cbn in *;
        try done; try lia; simplify_eq.
      * unfold string_le. by destruct (String.leb_total k k).
      * rewrite Forall_forall in Hx. apply Hx. by apply list_elem_of_lookup_2 in Hj.
      * eapply IH; eauto. lia.
  - apply list_find_None in E. rewrite Forall_forall in E. intros k t Ht.
    specialize (E k ltac:(apply elem_of_SortKeys; by exists t)). unfold P in E. cbv beta in E. rewrite Ht in E.
    by destruct (retired now q t).
Qed.
End proofs.
