(* ===== verification/TQueueProps.v ===== *)
(** Properties of the task queues (TQueue.v): capacity and key invariants over every
    sequence of operations, the exact behaviour of [Push], what [Pop] hands out, that
    no task is lost, and that repeated [Top]s visit every task. *)
From Stdlib Require Import ZArith Lia.
From stdpp Require Import base gmap list strings sorting pretty.
From S2P Require Import Prelude Limit TaskKey Task TaskTypes TaskProps TQueue.

Local Open Scope Z_scope.

Section step.
Context {T : Type} `{EqDecision T, QueueTask T}.
Implicit Types (q : GfSpTQueue T) (t : T) (now : Z).

(** One call on a queue at time [now], with the task it hands out, if any. *)
Inductive qstep now : GfSpTQueue T -> option T -> GfSpTQueue T -> Prop :=
| step_has k q q' h : Has now k q = (q', h) -> qstep now q None q'
| step_push t q q' err : Push now t q = (q', err) -> qstep now q None q'
| step_top ord q q' r : ord ≡ₚ values q -> Top now ord q = (q', r) -> qstep now q None q'
| step_pop ord q q' r : ord ≡ₚ values q -> Pop now ord q = (q', r) -> qstep now q r q'
| step_pop_key k q q' r : PopByKey now k q = (q', r) -> qstep now q r q'
| step_pop_task (o : option T) q q' b : PopTask now o q = (q', b) -> qstep now q (if b then o else None) q'
| step_top_limit {L} `{LimitCompare L} (lim : L) ord q q' r :
    ord ≡ₚ values q -> TopByLimit lim now ord q = (q', r) -> qstep now q None q'
| step_pop_limit {L} `{LimitCompare L} (lim : L) ord q q' r :
    ord ≡ₚ values q -> PopByLimit lim now ord q = (q', r) -> qstep now q r q'
| step_filter f q : qstep now q None (SetFilterTaskStrategy f q)
| step_retire f q : qstep now q None (SetRetireTaskStrategy f q).

Inductive reachable_queue : GfSpTQueue T -> Prop :=
| reach_new nm cp : reachable_queue (NewGfSpTQueue nm cp)
| reach_qstep now q r q' : reachable_queue q -> qstep now q r q' -> reachable_queue q'.

(** Tasks sit under their own keys, within the capacity. *)
Definition queue_inv q : Prop := keys_ok q /\ Len q <= Z.max 0 (cap q).

(** A map with fewer entries, or one entry more where there is room. *)
Lemma inv_submap q q' :
  queue_inv q -> tasks q' ⊆ tasks q -> cap q' = cap q -> queue_inv q'.
Proof.
  intros [Hk Hl] Hsub Hc. split.
  - intros k t Ht. apply (Hk k). by eapply lookup_weaken.
  - unfold Len in *. rewrite Hc. apply map_subseteq_size in Hsub. lia.
Qed.

Lemma live_subseteq now q : live now q ⊆ tasks q.
Proof. apply map_filter_subseteq. Qed.

Lemma keys_ok_subseteq q q' : keys_ok q -> tasks q' ⊆ tasks q -> keys_ok q'.
Proof. intros Hk Hsub k t Ht. apply Hk. by eapply lookup_weaken. Qed.

Lemma has_subseteq now k q q' h :
  keys_ok q -> has now k q = (q', h) -> tasks q' ⊆ tasks q /\ same_settings q q' /\
    (live now q !! k = None -> tasks q' = delete k (tasks q) /\ h = false).
Proof.
  intros Hk E. apply has_spec in E as (Hs & _ & E); [|done].
  destruct (live now q !! k); destruct E as [-> E].
  - subst. done.
  - rewrite E. split_and!; [apply delete_subseteq|done|done].
Qed.

Lemma delete_size_lt (m : gmap TKey T) k t : m !! k = Some t -> size m = S (size (delete k m)).
Proof.
  intros Hk. rewrite map_size_delete, Hk. assert (size m <> 0%nat); [|lia].
  intros Hz%map_size_empty_iff. subst. by rewrite lookup_empty in Hk.
Qed.

(** *** Push *)

(** What a push does: the outcome by cases, with the resulting map. *)
Definition push_outcome now t q (q' : GfSpTQueue T) (err : option queue_error) : Prop :=
  let base := delete (qkey t) (tasks q) in
  match err with
  | Some ErrTaskRepeated => is_Some (live now q !! qkey t) /\ tasks q' = tasks q
  | Some ErrTaskQueueExceed =>
      live now q !! qkey t = None /\ cap q <= Z.of_nat (size base) /\ tasks q' = base /\
      forall k x, base !! k = Some x -> retired now q x = false
  | None =>
      live now q !! qkey t = None /\
      ((Z.of_nat (size base) < cap q /\ tasks q' = <[qkey t := t]> (tasks q)) \/
       (cap q <= Z.of_nat (size base) /\ exists old,
          base !! qkey old = Some old /\ retired now q old = true /\
          (forall k x, base !! k = Some x -> retired now q x = true -> string_le (qkey old) k) /\
          tasks q' = <[qkey t := t]> (delete (qkey old) (tasks q))))
  end.

Lemma Push_spec now t q q' err :
  keys_ok q -> Push now t q = (q', err) ->
  push_outcome now t q q' err /\ same_settings q q' /\ current q' = current q.
Proof.
  intros Hk. unfold Push. destruct (has now (qkey t) q) as [q1 h] eqn:E.
  apply has_spec in E as (Hs & Hc & E); [|done].
  destruct (live now q !! qkey t) as [x|] eqn:El; destruct E as [-> E].
  { subst q1. intros [= <- <-]. split_and!; [split; [by eexists|done]|done|done]. }
  assert (keys_ok q1) as Hk1.
  { eapply keys_ok_subseteq; [done|]. rewrite E. apply delete_subseteq. }
  assert (live now q1 !! qkey t = None) as El1.
  { apply eq_None_not_Some. intros [y [Hy _]%live_lookup]. by rewrite E, lookup_delete_eq in Hy. }
  unfold push_outcome, exceed, Len. rewrite E, (same_cap _ _ Hs), El.
  destruct (Z.geb_spec (Z.of_nat (size (delete (qkey t) (tasks q)))) (cap q)).
  - pose proof (first_retired_spec now q1 Hk1) as Hf. rewrite E in Hf.
    destruct (gcFunc q1) eqn:Eg.
    2:{ intros [= <- <-]. split_and!; try done. intros k x _. unfold retired. rewrite <-(same_gc _ _ Hs).
        by rewrite Eg. }
    destruct (first_retired now _ q1) as [old|].
    + destruct Hf as (Ho & Hr & Hmin). intros [= <- <-].
      destruct (delete_spec now old q1 Hk1) as (Ed & Hsd & Hcd).
      assert (live now (delete_ now old q1) !! qkey t = None) as El2.
      { apply eq_None_not_Some. intros [y [Hy _]%live_lookup]. rewrite Ed in Hy.
        apply lookup_delete_Some in Hy as [_ Hy]. by rewrite E, lookup_delete_eq in Hy. }
      edestruct (add_spec now t (delete_ now old q1)) as (Ea & Hsa & Hca); [|exact El2|].
      { eapply keys_ok_subseteq; [exact Hk1|]. rewrite Ed. apply delete_subseteq. }
      split; [|split; [|congruence]].
      * split; [done|]. right. split; [done|]. exists old.
        rewrite <-(retired_settings now q q1 old Hs). split_and!; try done.
        { intros k x Hx Hrx. apply (Hmin k x Hx). by rewrite (retired_settings now q q1). }
        rewrite Ea, Ed, E. rewrite (delete_delete _ (qkey old)). by rewrite insert_delete_eq.
      * eapply same_settings_trans; [|done]. by eapply same_settings_trans.
    + intros [= <- <-]. split_and!; try done. intros k x Hx.
      rewrite <-(retired_settings now q q1 x Hs). by apply (Hf k).
  - intros [= <- <-]. destruct (add_spec now t q1 Hk1 El1) as (Ea & Hsa & Hca).
    split; [|split; [by eapply same_settings_trans|congruence]].
    split; [done|]. left. split; [done|]. by rewrite Ea, E, insert_delete_eq.
Qed.

(** *** Popping *)

Lemma pop_spec pass now ord q q1 r q' :
  keys_ok q -> ord ≡ₚ values q -> pick pass now ord q = (q1, r) ->
  q' = match r with Some t => delete_ now t q1 | None => q1 end ->
  same_settings q q' /\
  tasks q' = match r with Some t => delete (qkey t) (live now q) | None => live now q end /\
  match r with
  | Some t => next_of (current q) (eligible pass now q) t
  | None => eligible pass now q = []
  end.
Proof.
  intros Hk Ho E ->. apply pick_spec in E as (Et & Hs & E); [|done..].
  assert (keys_ok q1) by (eapply keys_ok_subseteq; [done|]; rewrite Et; apply live_subseteq).
  destruct r as [t|]; [|by destruct E].
  destruct (delete_spec now t q1) as (Ed & Hsd & _); [done|].
  split_and!; [by eapply same_settings_trans|by rewrite Ed, Et|apply E].
Qed.

Lemma Pop_pick now ord q :
  Pop now ord q =
    let '(q1, r) := pick (filtered now q) now ord q in
    (match r with Some t => delete_ now t q1 | None => q1 end, r).
Proof. unfold Pop, top. by destruct (pick _ _ _ _) as [q1 [t|]]. Qed.

Lemma PopByLimit_pick {L} `{LimitCompare L} (lim : L) now ord q :
  PopByLimit lim now ord q =
    let '(q1, r) := pick (fun t => NotLess lim (qestimate t) && filtered now q t) now ord q in
    (match r with Some t => delete_ now t q1 | None => q1 end, r).
Proof. unfold PopByLimit, topByLimit. by destruct (pick _ _ _ _) as [q1 [t|]]. Qed.

Lemma PopByKey_spec now k q q' r :
  keys_ok q -> PopByKey now k q = (q', r) ->
  same_settings q q' /\ r = live now q !! k /\ tasks q' = delete k (tasks q).
Proof.
  intros Hk. unfold PopByKey. destruct (has now k q) as [q1 h] eqn:E.
  apply has_spec in E as (Hs & _ & E); [|done]. destruct (live now q !! k) as [t|] eqn:El; destruct E as [-> E].
  - subst q1. cbn. apply live_lookup in El as [Et Hr]. rewrite Et. intros [= <- <-].
    destruct (delete_spec now t q Hk) as (Ed & Hsd & _). by rewrite Ed, (Hk _ _ Et).
  - cbn. intros [= <- <-]. done.
Qed.

Lemma PopTask_spec now (o : option T) q q' b :
  keys_ok q -> PopTask now o q = (q', b) ->
  same_settings q q' /\
  if b then exists x, o = Some x /\ tasks q !! qkey x = Some x /\ tasks q' = delete (qkey x) (tasks q)
  else q' = q /\ forall x, o = Some x -> forall k, tasks q !! k <> Some x.
Proof.
  intros Hk. unfold PopTask. destruct o as [x|]; [|by intros [= <- <-]].
  case_bool_decide as Hx; intros [= <- <-].
  - destruct (delete_spec now x q Hk) as (Ed & Hsd & _). split; [done|]. by exists x.
  - split_and!; try done. intros ? [= <-] k Hk'. pose proof (Hk _ _ Hk'). by subst.
Qed.

(** *** Invariants *)

Lemma Push_inv now t q q' err : queue_inv q -> Push now t q = (q', err) -> queue_inv q'.
Proof.
  intros [Hk Hl] E. apply Push_spec in E as (E & Hs & _); [|done]. unfold push_outcome in E.
  assert (size (delete (qkey t) (tasks q)) <= size (tasks q))%nat as Hle.
  { apply map_subseteq_size, delete_subseteq. }
  assert (forall m, tasks q' = <[qkey t := t]> m -> m ⊆ tasks q -> keys_ok q') as Hkeys.
  { intros m Em Hsub k x. rewrite Em. rewrite lookup_insert_Some. intros [[<- <-]|[_ Hx]]; [done|].
    apply Hk. by eapply lookup_weaken. }
  assert (forall m : gmap TKey T, size (<[qkey t := t]> m) = S (size (delete (qkey t) m))) as Hsize.
  { intros m. rewrite <-insert_delete_eq, map_size_insert_None; [done|apply lookup_delete_eq]. }
  destruct err as [[]|].
  - destruct E as [_ E]. eapply inv_submap; [by split| |apply Hs]. by rewrite E.
  - destruct E as (_ & _ & E & _). eapply inv_submap; [by split| |apply Hs].
    rewrite E. apply delete_subseteq.
  - destruct E as (_ & [[Hlt E]|(Hge & old & Ho & _ & _ & E)]).
    + split; [by eapply Hkeys|]. unfold Len. rewrite E, Hsize, (same_cap _ _ Hs). lia.
    + split; [eapply Hkeys; [exact E|apply delete_subseteq]|]. unfold Len in *.
      rewrite E, Hsize, (same_cap _ _ Hs), delete_delete.
      apply delete_size_lt in Ho. lia.
Qed.

Lemma pick_inv pass now ord q q' r : queue_inv q -> ord ≡ₚ values q -> pick pass now ord q = (q', r) -> queue_inv q'.
Proof.
  intros Hi Ho E. apply pick_spec in E as (E & Hs & _); [|apply Hi|done].
  eapply inv_submap; [done| |apply Hs]. rewrite E. apply live_subseteq.
Qed.

Lemma pop_inv pass now ord q q1 r q' :
  queue_inv q -> ord ≡ₚ values q -> pick pass now ord q = (q1, r) ->
  q' = match r with Some t => delete_ now t q1 | None => q1 end -> queue_inv q'.
Proof.
  intros Hi Ho E Eq. destruct (pop_spec pass now ord q q1 r q') as (Hs & Et & _); [apply Hi|done..|].
  eapply inv_submap; [done| |apply Hs]. rewrite Et. destruct r; [|apply live_subseteq].
  etrans; [apply delete_subseteq|apply live_subseteq].
Qed.

Lemma qstep_inv now q r q' : queue_inv q -> qstep now q r q' -> queue_inv q'.
Proof.
  intros Hi Hst. pose proof Hi as [Hk _]. destruct Hst as [k q q' h E|t q q' err E|ord q q' r Ho E|ord q q' r Ho E
    |k q q' r E|o q q' b E|L HL lim ord q q' r Ho E|L HL lim ord q q' r Ho E|f q|f q].
  - apply has_subseteq in E as (Hsub & Hs & _); [|done]. eapply inv_submap; [done|done|apply Hs].
  - by eapply Push_inv.
  - by eapply pick_inv.
  - rewrite Pop_pick in E. destruct (pick _ _ _ _) as [q1 r1] eqn:E1. injection E as <- <-. by eapply pop_inv.
  - apply PopByKey_spec in E as (Hs & _ & Et); [|done]. eapply inv_submap; [done| |apply Hs].
    rewrite Et. apply delete_subseteq.
  - apply PopTask_spec in E as (Hs & E); [|done]. destruct b; [|by destruct E as [-> _]].
    destruct E as (x & _ & _ & Et). eapply inv_submap; [done| |apply Hs]. rewrite Et. apply delete_subseteq.
  - by eapply pick_inv.
  - rewrite PopByLimit_pick in E. destruct (pick _ _ _ _) as [q1 r1] eqn:E1. injection E as <- <-. by eapply pop_inv.
  - exact Hi.
  - exact Hi.
Qed.

Lemma reachable_queue_inv q : reachable_queue q -> queue_inv q.
Proof.
  induction 1 as [nm cp|now q r q' _ IH Hst]; [|by eapply qstep_inv].
  split; [|unfold Len; cbn [NewGfSpTQueue tasks cap]; rewrite map_size_empty; lia]. intros k t. cbn. by rewrite lookup_empty.
Qed.

(** *** No task is lost *)

Lemma live_or_retired now q k t :
  tasks q !! k = Some t -> live now q !! k = Some t \/ retired now q t = true.
Proof. intros Ht. destruct (retired now q t) eqn:E; [by right|]. left. by apply live_lookup. Qed.

Lemma pop_keeps pass now ord q q1 r q' k t :
  keys_ok q -> ord ≡ₚ values q -> pick pass now ord q = (q1, r) ->
  q' = match r with Some t => delete_ now t q1 | None => q1 end -> tasks q !! k = Some t ->
  tasks q' !! k = Some t \/ r = Some t \/ retired now q t = true.
Proof.
  intros Hk Ho E Eq Ht. destruct (pop_spec pass now ord q q1 r q') as (_ & Et & Er); [done..|].
  destruct (live_or_retired now q k t Ht) as [Hl|]; [|by auto]. rewrite Et.
  destruct r as [x|]; [|by auto]. rewrite lookup_delete. case_decide as Hx; [|by auto].
  right. left. f_equal. destruct Er as (Hin & _). apply elem_of_eligible in Hin as ((k' & Hk') & _).
  pose proof (proj1 (live_lookup _ _ _ _) Hk') as [Hk'' _]. pose proof (Hk _ _ Hk''). subst. congruence.
Qed.

Lemma qstep_keeps now q r q' k t :
  keys_ok q -> qstep now q r q' -> tasks q !! k = Some t ->
  tasks q' !! k = Some t \/ r = Some t \/ retired now q t = true.
Proof.
  intros Hk Hst. destruct Hst as [k' q q' h E|x q q' err E|ord q q' r Ho E|ord q q' r Ho E
    |k' q q' r E|o q q' b E|L HL lim ord q q' r Ho E|L HL lim ord q q' r Ho E|f q|f q]; intros Ht.
  - apply has_spec in E as (_ & _ & E); [|done].
    destruct (live now q !! k') eqn:El; destruct E as [_ E]; [subst; by auto|].
    rewrite E, lookup_delete. case_decide; [|by auto]. subst.
    destruct (live_or_retired now q k t Ht); [congruence|by auto].
  - apply Push_spec in E as (E & _ & _); [|done]. unfold push_outcome in E.
    destruct err as [[]|].
    + destruct E as [_ ->]. by auto.
    + destruct E as (El & _ & -> & _). rewrite lookup_delete. case_decide; [|by auto]. subst.
      destruct (live_or_retired now q _ t Ht); [congruence|by auto].
    + destruct E as (El & [[_ ->]|(_ & old & Ho & Hr & _ & ->)]); rewrite lookup_insert; (case_decide; [subst;
        destruct (live_or_retired now q _ t Ht); [congruence|by auto]|]); [by auto|].
      rewrite lookup_delete. case_decide; [|by auto]. subst. right. right.
      apply lookup_delete_Some in Ho as [_ Ho]. congruence.
  - apply pick_spec in E as (-> & _); [|done..]. destruct (live_or_retired now q k t Ht); auto.
  - rewrite Pop_pick in E. destruct (pick _ _ _ _) as [q1 r1] eqn:E1. injection E as <- <-. by eapply pop_keeps.
  - apply PopByKey_spec in E as (_ & -> & ->); [|done]. rewrite lookup_delete. case_decide; [|by auto].
    subst. destruct (live_or_retired now q k t Ht); auto.
  - apply PopTask_spec in E as (_ & E); [|done]. destruct b; [|destruct E as [-> _]; by auto].
    destruct E as (x & -> & Hx & ->). rewrite lookup_delete. case_decide; [|by auto]. subst.
    right. left. congruence.
  - apply pick_spec in E as (-> & _); [|done..]. destruct (live_or_retired now q k t Ht); auto.
  - rewrite PopByLimit_pick in E. destruct (pick _ _ _ _) as [q1 r1] eqn:E1. injection E as <- <-. by eapply pop_keeps.
  - by auto.
  - by auto.
Qed.
End step.

(** *** Round robin *)

Section fairness.
Context {T : Type} `{EqDecision T, QueueTask T}.
Implicit Types (q : GfSpTQueue T) (t : T) (now : Z).

(** Successive [Top] calls while nothing else touches the queue; each ranges over the map in
    an order of its own.  The answers, and the queue after them. *)
Fixpoint tops now (orders : list (list T -> list T)) q : list (option T) * GfSpTQueue T :=
  match orders with
  | [] => ([], q)
  | order :: orders =>
    let '(q, t) := Top now (order (values q)) q in
    let '(ts, q) := tops now orders q in (t :: ts, q)
  end.

(** Calls that all return a task. *)
Inductive top_run now : GfSpTQueue T -> list T -> GfSpTQueue T -> Prop :=
| run_nil q : top_run now q [] q
| run_top ord q q1 t rs q2 :
    ord ≡ₚ values q -> Top now ord q = (q1, Some t) -> top_run now q1 rs q2 ->
    top_run now q (t :: rs) q2.

(** Creation times strictly increase along [l]. *)
Definition strict (l : list T) : Prop :=
  forall i j a b, l !! i = Some a -> l !! j = Some b -> (i < j)%nat -> qcreate a < qcreate b.

Lemma next_index (l : list T) i a b :
  strict l -> l !! i = Some a -> next_of (qcreate a) l b -> l !! (S i mod length l)%nat = Some b.
Proof.
  intros Hs Ha ((j & Hj)%list_elem_of_lookup_1 & Hsome & Hall).
  pose proof (lookup_lt_Some _ _ _ Ha). pose proof (lookup_lt_Some _ _ _ Hj).
  assert (forall k x, l !! k = Some x -> (k <= i)%nat -> qcreate x <= qcreate a) as Hle.
  { intros k x Hx Hk. destruct (decide (k = i)) as [->|]; [simplify_eq; lia|].
    specialize (Hs k i x a Hx Ha ltac:(lia)). lia. }
  destruct (decide (S i = length l)) as [E|E].
  - rewrite E, Nat.Div0.mod_same. destruct (lookup_lt_is_Some_2 l 0 ltac:(lia)) as [x Hx].
    destruct (decide (j = 0%nat)) as [->|]; [done|]. specialize (Hs 0%nat j x b Hx Hj ltac:(lia)).
    assert (qcreate b <= qcreate x); [|lia]. apply Hall; [|by apply list_elem_of_lookup_2 in Hx].
    intros y [k Hk]%list_elem_of_lookup_1. apply (Hle k); [done|]. apply lookup_lt_Some in Hk. lia.
  - rewrite Nat.mod_small by lia. destruct (lookup_lt_is_Some_2 l (S i) ltac:(lia)) as [y Hy].
    assert (qcreate a < qcreate y) as Hay by (apply (Hs i (S i)); auto).
    destruct Hsome as [Hab Hmin]; [exists y; by apply list_elem_of_lookup_2 in Hy|].
    specialize (Hmin y ltac:(by apply list_elem_of_lookup_2 in Hy) Hay).
    destruct (decide (j <= i)%nat); [specialize (Hle j b Hj ltac:(done)); lia|].
    destruct (decide (j = S i)) as [->|]; [done|]. specialize (Hs (S i) j y b Hy Hj ltac:(lia)). lia.
Qed.

Lemma next_of_ext cur (l l' : list T) t : (forall x, x ∈ l <-> x ∈ l') -> next_of cur l t -> next_of cur l' t.
Proof. intros Hl. unfold next_of. setoid_rewrite Hl. done. Qed.

(** [Top] keeps the eligible tasks and moves to the next one. *)
Lemma Top_step now ord q q' t :
  keys_ok q -> ord ≡ₚ values q -> Top now ord q = (q', Some t) ->
  keys_ok q' /\ current q' = qcreate t /\
  next_of (current q) (eligible (filtered now q) now q) t /\
  forall x, x ∈ eligible (filtered now q') now q' <-> x ∈ eligible (filtered now q) now q.
Proof.
  intros Hk Ho E. apply pick_spec in E as (Et & Hs & Hn & Hc); [|done..].
  split_and!; [|done|done|].
  - eapply keys_ok_subseteq; [done|]. rewrite Et. apply live_subseteq.
  - intros x. rewrite !elem_of_eligible. unfold filtered. rewrite (same_filter _ _ Hs).
    setoid_rewrite live_lookup. setoid_rewrite (retired_settings now q q' x Hs). rewrite Et.
    setoid_rewrite live_lookup. naive_solver.
Qed.

(** While there is a task that may be handed out, every [Top] returns one. *)
Lemma tops_return now orders q :
  keys_ok q -> eligible (filtered now q) now q <> [] -> Forall (fun f => forall l : list T, f l ≡ₚ l) orders ->
  exists rs q', tops now orders q = (Some <$> rs, q') /\ top_run now q rs q' /\ length rs = length orders.
Proof.
  intros Hk Hne Ho. revert q Hk Hne. induction Ho as [|order orders Hperm _ IH]; intros q Hk Hne; cbn [tops].
  { exists [], q. split_and!; [done|constructor|done]. }
  destruct (Top now (order (values q)) q) as [q1 [t|]] eqn:E.
  - destruct (Top_step now _ q q1 t Hk (Hperm _) E) as (Hk1 & _ & _ & He).
    destruct (IH q1 Hk1) as (rs & q' & Et & Hr & Hl).
    { intros E0. apply Hne, elem_of_nil_inv. intros x Hx%He. rewrite E0 in Hx. by apply not_elem_of_nil in Hx. }
    rewrite Et. exists (t :: rs), q'. split_and!; [done|by eapply run_top; [apply Hperm|exact E|]|cbn; lia].
  - apply pick_spec in E as (_ & _ & Hnone & _); [done|done|apply Hperm].
Qed.

Lemma top_run_positions now q rs q' (l : list T) i a :
  top_run now q rs q' -> keys_ok q -> strict l -> l !! i = Some a -> current q = qcreate a ->
  (forall x, x ∈ eligible (filtered now q) now q <-> x ∈ l) ->
  forall k t, rs !! k = Some t -> l !! ((S i + k) mod length l)%nat = Some t.
Proof.
  intros Hr. revert i a. induction Hr as [q|ord q q1 t rs q2 Ho E Hr IH]; intros i a Hk Hs Ha Hc Hl k x Hx; [done|].
  destruct (Top_step now ord q q1 t Hk Ho E) as (Hk1 & Hc1 & Hn & He).
  rewrite Hc in Hn. pose proof (next_index l i a t Hs Ha (next_of_ext _ _ _ _ Hl Hn)) as Ht.
  pose proof (lookup_lt_Some _ _ _ Ha). destruct k as [|k]; cbn in Hx.
  - injection Hx as <-. by rewrite Nat.add_0_r.
  - specialize (IH (S i mod length l)%nat t Hk1 Hs Ht Hc1). rewrite <-IH with (k := k) (t := x); [|intros; by rewrite He|done].
    f_equal. replace (S (S i mod length l) + k)%nat with (S i mod length l + S k)%nat by lia.
    by rewrite Nat.Div0.add_mod_idemp_l.
Qed.

Lemma strict_nodup (l : list T) : strict l -> NoDup l.
Proof.
  intros Hs. apply NoDup_alt. intros i j a Hi Hj.
  destruct (decide (i < j)%nat) as [Hlt|]; [pose proof (Hs i j a a Hi Hj Hlt); lia|].
  destruct (decide (j < i)%nat) as [Hlt|]; [pose proof (Hs j i a a Hj Hi Hlt); lia|]. lia.
Qed.

(** Distinct creation times give a strict enumeration. *)
Lemma strict_enum (l : list T) : NoDup (qcreate <$> l) -> exists l', l' ≡ₚ l /\ strict l'.
Proof.
  intros Hnd. exists (merge_sort create_le l).
  pose proof (merge_sort_Permutation create_le l) as Hp. split; [done|].
  assert (NoDup (qcreate <$> merge_sort create_le l)) as Hnd' by (by rewrite Hp).
  assert (StronglySorted create_le (merge_sort create_le l)) as Hss.
  { apply StronglySorted_merge_sort; [intros a b c; unfold create_le; lia|intros a b; unfold create_le; lia]. }
  intros i j a b Hi Hj Hlt. pose proof (sorted_lookup _ i j a b Hss ltac:(lia) Hi Hj).
  assert (qcreate a <> qcreate b); [|lia]. intros Heq.
  assert (i = j); [|lia]. eapply (NoDup_lookup _ i j (qcreate a) Hnd'); rewrite list_lookup_fmap;
    [by rewrite Hi|by rewrite Hj, Heq].
Qed.

Lemma mod_offset_inj n i k k' :
  (i < n -> k < n -> k' < n -> (i + k) mod n = (i + k') mod n -> k = k')%nat.
Proof.
  intros Hi Hk Hk' E. assert (n <> 0)%nat by lia.
  assert (forall x, x < n -> ((i + x) mod n = if decide (i + x < n) then i + x else i + x - n))%nat as Hm.
  { intros x Hx. destruct (decide (i + x < n)%nat); [by apply Nat.mod_small|].
    symmetry. apply (Nat.mod_unique _ _ 1); lia. }
  rewrite !Hm in E by done. destruct (decide _), (decide _) in E; lia.
Qed.

Lemma top_run_cycle now q rs q' :
  keys_ok q -> NoDup (qcreate <$> eligible (filtered now q) now q) -> top_run now q rs q' ->
  length rs = length (eligible (filtered now q) now q) -> rs ≡ₚ eligible (filtered now q) now q.
Proof.
  intros Hk Hnd Hr Hlen. destruct (strict_enum _ Hnd) as (l & Hl & Hs). rewrite <-Hl in Hlen |- *.
  destruct Hr as [q|ord q q1 t rs q2 Ho E Hr].
  { destruct l; [done|]. cbn in Hlen. lia. }
  destruct (Top_step now ord q q1 t Hk Ho E) as (Hk1 & Hc1 & Hn & He).
  destruct Hn as (Hin & _). rewrite <-Hl in Hin. apply list_elem_of_lookup_1 in Hin as [i Hi].
  pose proof (lookup_lt_Some _ _ _ Hi) as Hil.
  assert (forall k x, (t :: rs) !! k = Some x -> l !! ((i + k) mod length l)%nat = Some x) as Hpos.
  { intros [|k] x Hx; cbn in Hx.
    - injection Hx as <-. by rewrite Nat.add_0_r, Nat.mod_small.
    - rewrite <-plus_n_Sm, <-Nat.add_succ_l. eapply top_run_positions; eauto. intros y. by rewrite He, <-Hl. }
  apply submseteq_length_Permutation; [|by rewrite Hlen].
  apply NoDup_submseteq.
  - apply NoDup_alt. intros k k' x Hx Hx'. pose proof (lookup_lt_Some _ _ _ Hx). pose proof (lookup_lt_Some _ _ _ Hx').
    apply (mod_offset_inj (length l) i); [done|lia|lia|].
    eapply NoDup_lookup; [apply (strict_nodup l Hs)|by apply Hpos|by apply Hpos].
  - intros x [k Hx]%list_elem_of_lookup_1. apply Hpos in Hx. by apply list_elem_of_lookup_2 in Hx.
Qed.
End fairness.

(** ** The properties *)

(** A small queue of upload tasks for the witnesses: tasks created at 100, 101, 102,
    retired when expired at the reading of the clock. *)
Definition upload_at (id tm : Z) : nat * GfSpUploadObjectTask.t :=
  (0%nat, GfSpUploadObjectTask.InitUploadObjectTask 1
    (mkObjectInfo "b" (pretty id) id 40 REDUNDANCY_EC_TYPE 0 false) params1 60 false tm tm).
Definition ua : nat * GfSpUploadObjectTask.t := upload_at 1 100.
Definition ub : nat * GfSpUploadObjectTask.t := upload_at 2 101.
Definition uc : nat * GfSpUploadObjectTask.t := upload_at 3 102.
Definition expire (now : Z) (t : nat * GfSpUploadObjectTask.t) : bool := Expired now t.2.

#[export] Instance upload_eq_dec : EqDecision GfSpUploadObjectTask.t.
Proof. solve_decision. Defined.

Definition q0 : GfSpTQueue (nat * GfSpUploadObjectTask.t) :=
  SetRetireTaskStrategy (Some expire) (NewGfSpTQueue "upload" 2).
Definition q1 : GfSpTQueue (nat * GfSpUploadObjectTask.t) := (Push 120 ua q0).1.
Definition q2 : GfSpTQueue (nat * GfSpUploadObjectTask.t) := (Push 120 ub q1).1.

Lemma pair_eta {A B} (p : A * B) b : p.2 = b -> p = (p.1, b).
Proof. destruct p. by intros <-. Qed.

Lemma q2_reachable : reachable_queue q2.
Proof.
  eapply (reach_qstep 120 q1); [|eapply (step_push 120 ub q1); apply surjective_pairing].
  eapply (reach_qstep 120 q0); [|eapply (step_push 120 ua q0); apply surjective_pairing].
  eapply (reach_qstep 120 (NewGfSpTQueue "upload" 2)); [constructor|apply step_retire].
Qed.

Lemma q2_keys : keys_ok q2.
Proof. apply reachable_queue_inv, q2_reachable. Qed.

(** C26: a queue never holds more tasks than its capacity and every task sits under
    its own key, after any sequence of calls, whatever the strategies answer and in
    whatever order Go ranges over the map. *)
Theorem queue_capacity_respected {T} `{EqDecision T, QueueTask T} (q : GfSpTQueue T) :
  reachable_queue q -> keys_ok q /\ Len q <= Z.max 0 (Cap q).
Proof. apply reachable_queue_inv. Qed.

Lemma queue_capacity_respected_witness : Len q2 = 2 /\ keys_ok q2 /\ Len q2 <= Z.max 0 2.
Proof. split; [by vm_compute|]. apply (queue_capacity_respected q2), q2_reachable. Defined.

(** The exact outcome of [Push].  A task whose key is queued and not retired is
    refused as repeated; a full queue without a task to retire refuses it; otherwise
    it is queued under its key, in place of a retired task of the same key, and when
    the queue was full exactly one task leaves, the retired one with the least key.
    Nothing else changes, and the strategies and the round-robin mark stay. *)
Theorem push_exact {T} `{EqDecision T, QueueTask T} now t (q q' : GfSpTQueue T) err :
  reachable_queue q -> Push now t q = (q', err) ->
  push_outcome now t q q' err /\ same_settings q q' /\ current q' = current q.
Proof. intros Hr. apply Push_spec. by apply reachable_queue_inv. Qed.

Lemma push_exact_witness :
  (Push 120 uc q2).2 = Some ErrTaskQueueExceed /\
  push_outcome 161 uc q2 (Push 161 uc q2).1 (Push 161 uc q2).2 /\
  tasks (Push 161 uc q2).1 !! Key uc.2 = Some uc /\ tasks (Push 161 uc q2).1 !! Key ua.2 = None.
Proof.
  split; [by vm_compute|]. split; [|split; by vm_compute].
  refine (proj1 (push_exact 161 uc q2 (Push 161 uc q2).1 (Push 161 uc q2).2 q2_reachable _)).
  apply surjective_pairing.
Defined.

(** No task is lost.  A task leaves a queue only by being handed out, or because
    the retire strategy rejects it; in particular a failed push and a top remove no
    live task. *)
Theorem queue_keeps_tasks {T} `{EqDecision T, QueueTask T} now (q q' : GfSpTQueue T) r k t :
  reachable_queue q -> qstep now q r q' -> tasks q !! k = Some t ->
  tasks q' !! k = Some t \/ r = Some t \/ retired now q t = true.
Proof. intros Hr. apply qstep_keeps. by apply reachable_queue_inv. Qed.

Lemma queue_keeps_tasks_witness :
  retired 120 q2 ub = false /\
  (tasks (Pop 120 [ub; ua] q2).1 !! Key ub.2 = Some ub \/ (Pop 120 [ub; ua] q2).2 = Some ub \/
   retired 120 q2 ub = true).
Proof.
  split; [by vm_compute|]. eapply queue_keeps_tasks; [apply q2_reachable| |by vm_compute].
  eapply step_pop; [|apply surjective_pairing]. vm_compute. apply perm_swap.
Defined.

(** What [Pop] and [PopByLimit] hand out.  They return a queued task that is not
    retired, passes the filter and (for the limited queue) whose estimate the limit
    covers: the oldest one created after the last one handed out, or the oldest of
    all if there is none.  They return nil only if no such task exists.  The task and
    all retired tasks are gone afterwards, and nothing else. *)
Theorem pop_exact {T} `{EqDecision T, QueueTask T} now ord (q : GfSpTQueue T) (limit : option GfSpLimit.t) :
  reachable_queue q -> ord ≡ₚ values q ->
  let '(q', r) := match limit with Some l => PopByLimit l now ord q | None => Pop now ord q end in
  let pass t := (match limit with Some l => GfSpLimit.not_less l (qestimate t) | None => true end)
                && filtered now q t in
  tasks q' = match r with Some t => delete (qkey t) (live now q) | None => live now q end /\
  match r with
  | Some t => next_of (current q) (eligible pass now q) t /\
      forall l, limit = Some l -> limit_le (qestimate t) l
  | None => forall k t, live now q !! k = Some t -> pass t = false
  end.
Proof.
  intros Hr Ho. apply reachable_queue_inv in Hr as [Hk _].
  assert (forall pass, eligible pass now q = [] -> forall k t, live now q !! k = Some t -> pass t = false) as Hnone.
  { intros pass He k t Ht. destruct (pass t) eqn:E; [|done].
    assert (t ∈ eligible pass now q) as Hin by (apply elem_of_eligible; eauto).
    rewrite He in Hin. by apply not_elem_of_nil in Hin. }
  destruct limit as [l|]; [rewrite PopByLimit_pick|rewrite Pop_pick];
    destruct (pick _ _ _ _) as [q1' r] eqn:E; eapply pop_spec in E as (_ & Et & Er); try done.
  - split; [done|]. destruct r as [t|]; [|by apply Hnone]. split; [done|]. intros ? [= <-].
    destruct Er as ((_ & [Hp _]%andb_prop)%elem_of_eligible & _). by apply not_less_iff.
  - split; [done|]. destruct r as [t|]; [|by apply Hnone]. by split.
Qed.

Definition room : GfSpLimit.t := GfSpLimit.mk 32 1 0 0 1 0 0 0 0.

Lemma pop_exact_witness :
  (PopByLimit room 120 [ub; ua] q2).2 = Some ua /\
  next_of (current q2) (eligible (fun t => GfSpLimit.not_less room (qestimate t) && filtered 120 q2 t) 120 q2) ua.
Proof.
  assert ([ub; ua] ≡ₚ values q2) as Ho by (vm_compute; apply perm_swap).
  pose proof (pop_exact 120 [ub; ua] q2 (Some room) q2_reachable Ho) as Hp. cbv match in Hp.
  assert ((PopByLimit room 120 [ub; ua] q2).2 = Some ua) as E by by vm_compute.
  split; [exact E|]. rewrite (pair_eta _ _ E) in Hp. exact (proj1 (proj2 Hp)).
Defined.

(** C29: [Top] is a fair round robin.  When the tasks that may be handed out have
    distinct creation times, as many successive [Top]s as there are such tasks all return a
    task, each of them exactly once, whatever the round-robin mark was and in whatever
    order Go ranges over the map in each call. *)
Theorem top_round_robin {T} `{EqDecision T, QueueTask T} now (q : GfSpTQueue T) orders :
  reachable_queue q -> NoDup (qcreate <$> eligible (filtered now q) now q) ->
  Forall (fun f => forall l : list T, f l ≡ₚ l) orders -> length orders = length (eligible (filtered now q) now q) ->
  (tops now orders q).1 ≡ₚ Some <$> eligible (filtered now q) now q.
Proof.
  intros Hr Hnd Ho Hl. apply reachable_queue_inv in Hr as [Hk _]. destruct (eligible (filtered now q) now q) as [|x l] eqn:E.
  { by destruct orders. }
  destruct (tops_return now orders q Hk ltac:(by rewrite E) Ho) as (rs & q' & -> & Hrun & Hlen). rewrite <-E in *.
  cbn [fst]. f_equiv. apply (top_run_cycle now q rs q' Hk Hnd Hrun). by rewrite Hlen.
Qed.

Lemma top_round_robin_witness :
  (tops 120 [id; @rev _] q2).1 = [Some ua; Some ub] /\
  (tops 120 [id; @rev _] q2).1 ≡ₚ Some <$> eligible (filtered 120 q2) 120 q2.
Proof.
  split; [by vm_compute|]. apply (top_round_robin 120 q2 [id; @rev _]).
  - apply q2_reachable.
  - vm_compute. repeat constructor; set_solver.
  - repeat constructor; intros l; [done|]. symmetry. apply Permutation_rev.
  - by vm_compute.
Defined.

(** [PopTask] removes only the very task it is given.  Another task that now sits
    under the same key (a resubmitted object) stays, and the answer is false; a
    queued task is removed and the answer is true. *)
Theorem pop_task_identity {T} `{EqDecision T, QueueTask T} now t (q : GfSpTQueue T) :
  reachable_queue q ->
  let '(q', b) := PopTask now (Some t) q in
  (b = true <-> tasks q !! qkey t = Some t) /\
  tasks q' = if b then delete (qkey t) (tasks q) else tasks q.
Proof.
  intros [Hk _]%reachable_queue_inv. destruct (PopTask now (Some t) q) as [q' b] eqn:E.
  apply PopTask_spec in E as (_ & E); [|done]. destruct b.
  - destruct E as (x & [= <-] & Hx & ->). done.
  - destruct E as [-> Hne]. split; [|done]. split; [done|]. intros Ht. by destruct (Hne t eq_refl (qkey t)).
Qed.

Lemma pop_task_identity_witness :
  (PopTask 120 (Some (7%nat, ua.2)) q2).2 = false /\ qkey (7%nat, ua.2) = qkey ua /\
  tasks (PopTask 120 (Some (7%nat, ua.2)) q2).1 = tasks q2.
Proof.
  assert ((PopTask 120 (Some (7%nat, ua.2)) q2).2 = false) as E by by vm_compute.
  split; [exact E|]. split; [done|].
  pose proof (pop_task_identity 120 (7%nat, ua.2) q2 q2_reachable) as Hp.
  rewrite (pair_eta _ _ E) in Hp. exact (proj2 Hp).
Defined.
