(* ===== verification/Approver.v ===== *)
(** modular/approver: approvals of new buckets, new objects and bucket migrations
    (approve_task.go, approver.go), asked through base/gfspapp/approval_server.go and
    signed by modular/signer/signer.go.

    Requests run concurrently; each call of a queue is atomic, so a handler is a program of
    such calls ([Proc]).  The retire strategy of the queues reads the current height, so it
    is set anew at each call.  A goroutine that pushes a task is pending until it runs.  A
    type assertion on a task of another type, or on none, is a panic.

    A task carries its message, so the checks for nil messages are left out.  What a request
    finds outside, the clock, the chain and the other modules, are its
    [answers]; the chain's bytes of a message and the key that signs approvals are the class
    [ApprovalKey]. *)
From Stdlib Require Import ZArith Lia.
From stdpp Require Import base gmap list strings option.
From S2P Require Import Prelude Proc Sql Limit TaskKey Task TaskTypes TQueue.

Local Open Scope Z_scope.
Local Open Scope go_scope.
Local Open Scope prog_scope.

Definition approval_err (status code : Z) (text : string) : goerror := GfSpErr (mkGfSpError "approver" status code text).
Definition ErrExceedBucketNumber : goerror := approval_err 406 10002 "account buckets exceed the limit".
Definition ErrExceedApprovalLimit : goerror :=
  approval_err 406 10003 "SP is too busy to approve the request, please come back later".
Definition ErrBucketMigrationStatus : goerror :=
  approval_err 406 10004 "the bucket is migrating or gc, try it after gc done".
Definition ErrSignerWithDetail (detail : string) : goerror := approval_err 500 11001 detail.

Definition ErrApprovalTaskDangling : goerror := GfSpErr (mkGfSpError "base" 400 990101 "OoooH... request lost").
Definition ErrApprovalExhaustResource : goerror :=
  GfSpErr (mkGfSpError "base" 400 990102 "server overload, try again later").

(** err.Error(); [json] is the text of a GfSpError. *)
Definition error_text (json : GfSpError -> string) (e : goerror) : string :=
  match e with GfSpErr e => json e | OtherErr s => s end.

(** ** Tasks *)

Inductive approval_task :=
| BucketTask (t : GfSpCreateBucketApprovalTask.t)
| MigrateTask (t : GfSpMigrateBucketApprovalTask.t)
| ObjectTask (t : GfSpCreateObjectApprovalTask.t)
| DelegateTask (t : GfSpDelegateCreateObjectApprovalTask.t).

#[export] Instance SpApproval_eq_dec : EqDecision SpApproval.
Proof. solve_decision. Defined.
#[export] Instance MsgCreateBucket_eq_dec : EqDecision MsgCreateBucket.
Proof. solve_decision. Defined.
#[export] Instance MsgMigrateBucket_eq_dec : EqDecision MsgMigrateBucket.
Proof. solve_decision. Defined.
#[export] Instance MsgCreateObject_eq_dec : EqDecision MsgCreateObject.
Proof. solve_decision. Defined.
#[export] Instance MsgDelegate_eq_dec : EqDecision MsgDelegateCreateObject.
Proof. solve_decision. Defined.
#[export] Instance bucket_approval_eq_dec : EqDecision GfSpCreateBucketApprovalTask.t.
Proof. solve_decision. Defined.
#[export] Instance migrate_approval_eq_dec : EqDecision GfSpMigrateBucketApprovalTask.t.
Proof. solve_decision. Defined.
#[export] Instance object_approval_eq_dec : EqDecision GfSpCreateObjectApprovalTask.t.
Proof. solve_decision. Defined.
#[export] Instance delegate_approval_eq_dec : EqDecision GfSpDelegateCreateObjectApprovalTask.t.
Proof. solve_decision. Defined.
#[export] Instance approval_task_eq_dec : EqDecision approval_task.
Proof. solve_decision. Defined.

Definition base_task (x : approval_task) : GfSpTask.t :=
  match x with
  | BucketTask t => GfSpCreateBucketApprovalTask.Task t
  | MigrateTask t => GfSpMigrateBucketApprovalTask.Task t
  | ObjectTask t => GfSpCreateObjectApprovalTask.Task t
  | DelegateTask t => GfSpDelegateCreateObjectApprovalTask.Task t
  end.

Definition expired_height (x : approval_task) : Z :=
  match x with
  | BucketTask t => GfSpCreateBucketApprovalTask.GetExpiredHeight t
  | MigrateTask t => GfSpMigrateBucketApprovalTask.GetExpiredHeight t
  | ObjectTask t => GfSpCreateObjectApprovalTask.GetExpiredHeight t
  | DelegateTask t => GfSpDelegateCreateObjectApprovalTask.GetExpiredHeight t
  end.

Section key.
Context `{SignBytes}.
Definition key_of (x : approval_task) : TKey :=
  match x with
  | BucketTask t => GfSpCreateBucketApprovalTask.Key t
  | MigrateTask t => GfSpMigrateBucketApprovalTask.Key t
  | ObjectTask t => GfSpCreateObjectApprovalTask.Key t
  | DelegateTask t => GfSpDelegateCreateObjectApprovalTask.Key t
  end.
Definition estimate_of (x : approval_task) : option GfSpLimit.t :=
  match x with
  | BucketTask t => EstimateLimit t
  | MigrateTask t => EstimateLimit t
  | ObjectTask t => EstimateLimit t
  | DelegateTask t => EstimateLimit t
  end.
#[export] Instance approval_queue_task : QueueTask approval_task := {
  qkey := key_of;
  qcreate x := GfSpTask.CreateTime (base_task x);
  qestimate x := default GfSpLimit.zero (estimate_of x)
}.
End key.

(** ** The state *)

Record managerTasksStats := mkTasksStats {
  uploadTaskCount : Z; replicateTaskCount : Z; sealTaskCount : Z; resumableUploadTaskCount : Z;
  maxUploadingCount : Z; migrateGVGCount : Z; recoveryProcessCount : Z; recoveryFailedList : list string;
}.

(** The counts are uint32. *)
Definition totalUploadTasks (s : managerTasksStats) : Z :=
  uwrap 32 (uwrap 32 (uwrap 32 (uploadTaskCount s + replicateTaskCount s) + sealTaskCount s) + resumableUploadTaskCount s).

Record config := mkConfig {
  accountBucketNumber : Z;
  bucketApprovalTimeoutHeight : Z;
  objectApprovalTimeoutHeight : Z;
  migrateGVGLimit : Z;
}.

Inductive queue_id := BucketQueue | ObjectQueue.

Record world := mkWorld {
  bucketQueue : GfSpTQueue approval_task;
  objectQueue : GfSpTQueue approval_task;
  currentBlockHeight : Z;
  tasksStats : managerTasksStats;
  spID : Z;
  migrate_table : gmap Z Z;
  pending : list (queue_id * approval_task);
}.

Definition set_queue (q : queue_id) (Q : GfSpTQueue approval_task) (w : world) : world :=
  match q with
  | BucketQueue => mkWorld Q (objectQueue w) (currentBlockHeight w) (tasksStats w) (spID w) (migrate_table w) (pending w)
  | ObjectQueue => mkWorld (bucketQueue w) Q (currentBlockHeight w) (tasksStats w) (spID w) (migrate_table w) (pending w)
  end.
Definition queue (q : queue_id) (w : world) : GfSpTQueue approval_task :=
  match q with BucketQueue => bucketQueue w | ObjectQueue => objectQueue w end.
Definition SetCurrentBlockHeight (height : Z) (w : world) : world :=
  mkWorld (bucketQueue w) (objectQueue w) height (tasksStats w) (spID w) (migrate_table w) (pending w).
Definition set_tasksStats (s : managerTasksStats) (w : world) : world :=
  mkWorld (bucketQueue w) (objectQueue w) (currentBlockHeight w) s (spID w) (migrate_table w) (pending w).
Definition set_spID (id : Z) (w : world) : world :=
  mkWorld (bucketQueue w) (objectQueue w) (currentBlockHeight w) (tasksStats w) id (migrate_table w) (pending w).
Definition set_migrate_table (t : gmap Z Z) (w : world) : world :=
  mkWorld (bucketQueue w) (objectQueue w) (currentBlockHeight w) (tasksStats w) (spID w) t (pending w).
Definition set_pending (l : list (queue_id * approval_task)) (w : world) : world :=
  mkWorld (bucketQueue w) (objectQueue w) (currentBlockHeight w) (tasksStats w) (spID w) (migrate_table w) l.

(** ** What a request finds outside *)

Class ApprovalKey := {
  create_bucket_bytes : MsgCreateBucket -> list Z;
  migrate_bucket_bytes : MsgMigrateBucket -> list Z;
  create_object_bytes : MsgCreateObject -> list Z;
  Sign : list Z -> list Z
}.

Record answers := mkAnswers {
  clock : nat -> Z;
  reserve : bool;
  user_buckets : result goerror Z;
  picked_family : result goerror Z;
  sign_error : option goerror;
  own_sp : result goerror Z;
  bucket_meta : nat -> result goerror (Z * Z);
  fates : nat -> fate;
  db_error : goerror;
  source_sp : result goerror string;
  migration_sign_error : option goerror;
  source_quota : option goerror;
  unmarshal : string -> option GfSpError;
  json : GfSpError -> string;
}.

(** ** The queues *)

Definition DefaultApprovalExpiredTimeout : Z := 60.

Definition GCApprovalQueue (height now : Z) (x : approval_task) : bool :=
  ((expired_height x >? 0) && (expired_height x <=? height)) ||
  ((expired_height x =? 0) && (GfSpTask.CreateTime (base_task x) <? swrap 64 (now - DefaultApprovalExpiredTimeout))).

(** The queue as a call finds it at the height. *)
Definition queue_now (q : queue_id) (w : world) : GfSpTQueue approval_task :=
  SetRetireTaskStrategy (Some (GCApprovalQueue (currentBlockHeight w))) (queue q w).

Section approver.
Context `{SignBytes, ApprovalKey} (c : config).
Implicit Types (e : answers) (w : world).

Definition call (q : queue_id) {B} (op : GfSpTQueue approval_task -> GfSpTQueue approval_task * B) : prog world B :=
  act (fun w => let '(Q, b) := op (queue_now q w) in (set_queue q Q w, b)).

Definition qhas (now : Z) (q : queue_id) (key : TKey) : prog world bool := call q (Has now key).
Definition qpop_key (now : Z) (q : queue_id) (key : TKey) : prog world (option approval_task) := call q (PopByKey now key).
Definition qpush (now : Z) (q : queue_id) (x : approval_task) : prog world (option queue_error) := call q (Push now x).
(** [go queue.Push(task)] *)
Definition go_push (q : queue_id) (x : approval_task) : prog world unit :=
  modify (fun w => set_pending (pending w ++ [(q, x)]) w).

(** A request that is found in the queue: the task is taken out, asserted to be of the type
    that [info] reads, and put back. *)
Definition repeated e {M} (q : queue_id) (key : TKey) (info : approval_task -> option M) : prog world (option M) :=
  has <-- qhas (clock e 0) q key ;;
  if has : bool then
    shadowTask <-- qpop_key (clock e 1) q key ;;
    match shadowTask with
    | None => Panic
    | Some x =>
      match info x with
      | None => Panic
      | Some m => qpush (clock e 2) q x ;;; Ret (Some m)
      end
    end
  else Ret None.

(** A handler leaves the task, whether the approval is given, and an error. *)
Definition answer (T : Type) : Type := T * (bool * option goerror).

(** Return an error that the deferred function sets in the task, or one that it does not see. *)
Definition fail {T} `{CoreTask T} e (t : T) (seen returned : goerror) : prog world (answer T) :=
  Ret (SetError (unmarshal e) (Some seen) t, (false, Some returned)).
Definition refuse {T} (t : T) (returned : goerror) : prog world (answer T) := Ret (t, (false, Some returned)).

(** ** modular/signer/signer.go *)

Definition signed_with e (bs : list Z) : result goerror (list Z) :=
  match sign_error e with Some err => Err err | None => Ok (Sign bs) end.
Definition SignCreateBucketApproval e (m : MsgCreateBucket) : result goerror (list Z) := signed_with e (create_bucket_bytes m).
Definition SignMigrateBucketApproval e (m : MsgMigrateBucket) : result goerror (list Z) := signed_with e (migrate_bucket_bytes m).
Definition SignCreateObjectApproval e (m : MsgCreateObject) : result goerror (list Z) := signed_with e (create_object_bytes m).

(** ** approver.go *)

Definition GetCurrentBlockHeight : prog world Z := asks currentBlockHeight.

Definition getSPID e : prog world (result goerror Z) :=
  id <-- asks spID ;;
  if negb (id =? 0) then Ret (Ok id) else
  match own_sp e with
  | Err err => Ret (Err err)
  | Ok id => modify (set_spID id) ;;; Ret (Ok id)
  end.

Definition exceedCreateObjectLimit : prog world bool :=
  asks (fun w => totalUploadTasks (tasksStats w) >=? maxUploadingCount (tasksStats w)).
Definition exceedMigrateGVGLimit : prog world bool :=
  asks (fun w => migrateGVGCount (tasksStats w) >=? uwrap 32 (migrateGVGLimit c)).

(** ** store/sqldb/migrate.go: the progress of bucket migrations.  A statement may fail. *)

Definition statement {A} e (n : nat) (f : gmap Z Z -> result goerror (gmap Z Z * A)) : prog world (result goerror A) :=
  act (fun w => let '(t, r) := transaction (db_error e) (fates e n) f (migrate_table w) in (set_migrate_table t w, r)).

Definition MIGRATION_INIT_UNSPECIFIED : Z := 0.
Definition MIGRATION_FINISHED : Z := 31.

(** A bucket that has no row gets one. *)
Definition QueryMigrateBucketState e (bucketID : Z) : prog world (result goerror Z) :=
  r <-- statement e 0 (fun t => Ok (t, t !! bucketID)) ;;
  match r with
  | Err err => Ret (Err err)
  | Ok (Some state) => Ret (Ok state)
  | Ok None =>
    r <-- statement e 1 (fun t => match t !! bucketID with
                                   | Some _ => Err (db_error e)
                                   | None => Ok (<[bucketID := MIGRATION_INIT_UNSPECIFIED]> t, tt)
                                   end) ;;
    Ret (match r with
         | Err err => Err (OtherErr ("failed to insert record in migrate bucket table: " +:+ error_text (json e) err))
         | Ok _ => Ok MIGRATION_INIT_UNSPECIFIED
         end)
  end.

Definition DeleteMigrateBucket e (bucketID : Z) : prog world (option goerror) :=
  r <-- statement e 2 (fun t => Ok (delete bucketID t, tt)) ;;
  Ret (match r with
       | Err err => Some (OtherErr ("failed to delete migrate bucket table: " +:+ error_text (json e) err))
       | Ok _ => None
       end).

(** ** approve_task.go: new buckets *)

Definition bucket_info (x : approval_task) : option MsgCreateBucket :=
  match x with BucketTask t => Some (GfSpCreateBucketApprovalTask.CreateBucketInfo t) | _ => None end.

Definition HandleCreateBucketApprovalTask e (task : GfSpCreateBucketApprovalTask.t)
  : prog world (answer GfSpCreateBucketApprovalTask.t) :=
  shadow <-- repeated e BucketQueue (Key task) bucket_info ;;
  match shadow with
  | Some m => Ret (GfSpCreateBucketApprovalTask.SetCreateBucketInfo m task, (true, None))
  | None =>
    match user_buckets e with
    | Err err => fail e task err err
    | Ok buckets =>
      if buckets >=? accountBucketNumber c then fail e task ErrExceedBucketNumber ErrExceedBucketNumber else
      match picked_family e with
      | Err err => fail e task err err
      | Ok vgfID =>
        let with_ f t := GfSpCreateBucketApprovalTask.SetCreateBucketInfo
                           (cb_with f (GfSpCreateBucketApprovalTask.CreateBucketInfo t)) t in
        let task := with_ (ap_with_family vgfID) task in
        currentHeight <-- GetCurrentBlockHeight ;;
        let task := GfSpCreateBucketApprovalTask.SetExpiredHeight (uwrap 64 (currentHeight + bucketApprovalTimeoutHeight c)) task in
        match SignCreateBucketApproval e (GfSpCreateBucketApprovalTask.CreateBucketInfo task) with
        | Err err =>
          fail e task err (ErrSignerWithDetail ("failed to sign the create bucket approval, error: " +:+ error_text (json e) err))
        | Ok signature =>
          let task := with_ (ap_with_sig signature) task in
          go_push BucketQueue (BucketTask task) ;;;
          Ret (task, (true, None))
        end
      end
    end
  end.

(** ** Bucket migrations *)

Definition PreMigrateBucketApproval e (task : GfSpMigrateBucketApprovalTask.t)
  : prog world (GfSpMigrateBucketApprovalTask.t * option goerror) :=
  selfSPID <-- getSPID e ;;
  match selfSPID with
  | Err err => Ret (SetError (unmarshal e) (Some err) task, Some err)
  | Ok selfSPID =>
    if negb (selfSPID =? mb_DstPrimarySpId (GfSpMigrateBucketApprovalTask.MigrateBucketInfo task))
    then Ret (task, Some (OtherErr "current SP is not the correct one to ask for approval"))
    else
      exceed <-- exceedMigrateGVGLimit ;;
      Ret (task, if exceed : bool then Some ErrExceedApprovalLimit else None)
  end.

(** Whether the bucket's present provider has the quota to serve the migration. *)
Definition migrateBucketQuotaCheck e : bool * option goerror :=
  match bucket_meta e 1 with
  | Err err => (false, Some err)
  | Ok _ =>
    match source_sp e with
    | Err err => (false, Some (ErrSignerWithDetail ("failed to query sp info, error: " +:+ error_text (json e) err)))
    | Ok _ =>
      match migration_sign_error e with
      | Some err => (false, Some err)
      | None =>
        match source_quota e with
        | Some err =>
          (false, Some (ErrSignerWithDetail ("failed to check src SP migrate bucket quota, error: " +:+ error_text (json e) err)))
        | None => (true, None)
        end
      end
    end
  end.

Definition migrate_info (x : approval_task) : option MsgMigrateBucket :=
  match x with MigrateTask t => Some (GfSpMigrateBucketApprovalTask.MigrateBucketInfo t) | _ => None end.

(** The last part: the quota of the source, the signature. *)
Definition sign_migration e (task : GfSpMigrateBucketApprovalTask.t) : prog world (answer GfSpMigrateBucketApprovalTask.t) :=
  match migrateBucketQuotaCheck e with
  | (_, Some err) => fail e task err err
  | (false, None) => Ret (task, (false, None))
  | (true, None) =>
    currentHeight <-- GetCurrentBlockHeight ;;
    let task := GfSpMigrateBucketApprovalTask.SetExpiredHeight (uwrap 64 (currentHeight + bucketApprovalTimeoutHeight c)) task in
    match SignMigrateBucketApproval e (GfSpMigrateBucketApprovalTask.MigrateBucketInfo task) with
    | Err err =>
      fail e task err (ErrSignerWithDetail ("failed to sign migrate bucket approval, error: " +:+ error_text (json e) err))
    | Ok signature =>
      let task := GfSpMigrateBucketApprovalTask.SetMigrateBucketInfo
                    (mb_with (ap_with_sig signature) (GfSpMigrateBucketApprovalTask.MigrateBucketInfo task)) task in
      qpush (clock e 3) BucketQueue (MigrateTask task) ;;;
      Ret (task, (true, None))
    end
  end.

Definition HandleMigrateBucketApprovalTask e (task : GfSpMigrateBucketApprovalTask.t)
  : prog world (answer GfSpMigrateBucketApprovalTask.t) :=
  shadow <-- repeated e BucketQueue (Key task) migrate_info ;;
  match shadow with
  | Some m => Ret (GfSpMigrateBucketApprovalTask.SetMigrateBucketInfo m task, (true, None))
  | None =>
    match bucket_meta e 0 with
    | Err err => fail e task err err
    | Ok (bucketID, _) =>
      state <-- QueryMigrateBucketState e bucketID ;;
      match state with
      | Err err => fail e task err err
      | Ok state =>
        if state =? MIGRATION_FINISHED then
          err <-- DeleteMigrateBucket e bucketID ;;
          match err with Some err => fail e task err err | None => sign_migration e task end
        else if negb (state =? MIGRATION_INIT_UNSPECIFIED) then refuse task ErrBucketMigrationStatus
        else sign_migration e task
      end
    end
  end.

(** ** New objects *)

Definition PreCreateObjectApproval : prog world (option goerror) :=
  exceed <-- exceedCreateObjectLimit ;;
  Ret (if exceed : bool then Some ErrExceedApprovalLimit else None).

Definition object_info (x : approval_task) : option MsgCreateObject :=
  match x with ObjectTask t => Some (GfSpCreateObjectApprovalTask.CreateObjectInfo t) | _ => None end.

Definition HandleCreateObjectApprovalTask e (task : GfSpCreateObjectApprovalTask.t)
  : prog world (answer GfSpCreateObjectApprovalTask.t) :=
  shadow <-- repeated e ObjectQueue (Key task) object_info ;;
  match shadow with
  | Some m => Ret (GfSpCreateObjectApprovalTask.SetCreateObjectInfo m task, (true, None))
  | None =>
    currentHeight <-- GetCurrentBlockHeight ;;
    let task := GfSpCreateObjectApprovalTask.SetExpiredHeight (uwrap 64 (currentHeight + objectApprovalTimeoutHeight c)) task in
    match SignCreateObjectApproval e (GfSpCreateObjectApprovalTask.CreateObjectInfo task) with
    | Err err => fail e task err err
    | Ok signature =>
      let task := GfSpCreateObjectApprovalTask.SetCreateObjectInfo
                    (co_with (ap_with_sig signature) (GfSpCreateObjectApprovalTask.CreateObjectInfo task)) task in
      go_push ObjectQueue (ObjectTask task) ;;;
      Ret (task, (true, None))
    end
  end.

Definition delegate_info (x : approval_task) : option MsgDelegateCreateObject :=
  match x with DelegateTask t => Some (GfSpDelegateCreateObjectApprovalTask.DelegateCreateObject t) | _ => None end.

(** An agent's object: nothing is signed. *)
Definition HandleDelegateCreateObjectApprovalTask e (task : GfSpDelegateCreateObjectApprovalTask.t)
  : prog world (answer GfSpDelegateCreateObjectApprovalTask.t) :=
  shadow <-- repeated e ObjectQueue (Key task) delegate_info ;;
  match shadow with
  | Some m => Ret (GfSpDelegateCreateObjectApprovalTask.SetDelegateCreateObject m task, (true, None))
  | None => go_push ObjectQueue (DelegateTask task) ;;; Ret (task, (true, None))
  end.

(** ** base/gfspapp/approval_server.go *)

Definition OnAskCreateBucketApproval e (task : GfSpCreateBucketApprovalTask.t) : prog world (answer GfSpCreateBucketApprovalTask.t) :=
  r <-- HandleCreateBucketApprovalTask e task ;;
  match r with
  | (task, (_, Some err)) => Ret (task, (false, Some err))
  | (task, (allow, None)) => Ret (task, (allow, None))
  end.

Definition OnAskMigrateBucketApproval e (task : GfSpMigrateBucketApprovalTask.t) : prog world (answer GfSpMigrateBucketApprovalTask.t) :=
  r <-- PreMigrateBucketApproval e task ;;
  match r with
  | (task, Some err) => Ret (task, (false, Some err))
  | (task, None) =>
    r <-- HandleMigrateBucketApprovalTask e task ;;
    match r with
    | (task, (_, Some err)) => Ret (task, (false, Some err))
    | (task, (allow, None)) => Ret (task, (allow, None))
    end
  end.

Definition OnAskCreateObjectApproval e (task : GfSpCreateObjectApprovalTask.t) : prog world (answer GfSpCreateObjectApprovalTask.t) :=
  err <-- PreCreateObjectApproval ;;
  match err with
  | Some err => Ret (task, (false, Some err))
  | None =>
    r <-- HandleCreateObjectApprovalTask e task ;;
    match r with
    | (task, (_, Some err)) => Ret (task, (false, Some err))
    | (task, (allow, None)) => Ret (task, (allow, None))
    end
  end.

Definition OnAskDelegateCreateObjectApproval e (task : GfSpDelegateCreateObjectApprovalTask.t)
  : prog world (answer GfSpDelegateCreateObjectApprovalTask.t) :=
  err <-- PreCreateObjectApproval ;;
  match err with
  | Some err => Ret (task, (false, Some err))
  | None =>
    r <-- HandleDelegateCreateObjectApprovalTask e task ;;
    match r with
    | (task, (_, Some err)) => Ret (task, (false, Some err))
    | (task, (allow, None)) => Ret (task, (allow, None))
    end
  end.

(** GfSpAskApprovalResponse *)
Record response := mkResponse {
  resp_Err : option GfSpError;
  resp_Allowed : bool;
  resp_Response : option approval_task;
}.

Definition respond {T} e (wrap : T -> approval_task) (r : answer T) : response :=
  mkResponse (MakeGfSpError (unmarshal e) r.2.2) r.2.1 (Some (wrap r.1)).
Definition respond_error e (err : goerror) : response := mkResponse (MakeGfSpError (unmarshal e) (Some err)) false None.

(** [None] is a request without a task. *)
Definition GfSpAskApproval e (request : option approval_task) : prog world response :=
  match request with
  | None => Ret (respond_error e ErrApprovalTaskDangling)
  | Some request =>
    if negb (reserve e) then Ret (respond_error e ErrApprovalExhaustResource) else
    match request with
    | BucketTask t => r <-- OnAskCreateBucketApproval e t ;; Ret (respond e BucketTask r)
    | MigrateTask t => r <-- OnAskMigrateBucketApproval e t ;; Ret (respond e MigrateTask r)
    | ObjectTask t => r <-- OnAskCreateObjectApproval e t ;; Ret (respond e ObjectTask r)
    | DelegateTask t => r <-- OnAskDelegateCreateObjectApproval e t ;; Ret (respond e DelegateTask r)
    end
  end.

(** ** The event loop, and what runs *)

(** A tick of the height: without an answer the height is assumed to have grown by one. *)
Definition tick_height (current : result goerror Z) (w : world) : world :=
  SetCurrentBlockHeight (match current with Ok h => h | Err _ => uwrap 64 (currentBlockHeight w + 1) end) w.
Definition tick_stats (stats : result goerror managerTasksStats) (w : world) : world :=
  match stats with Ok s => set_tasksStats s w | Err _ => w end.

(** What runs: requests, the pushes that are pending, and the ticks.  [asked] says which
    requests arrive. *)
Inductive start (asked : approval_task -> Prop) : world -> world -> prog world (option response) -> Prop :=
| start_request w e x : asked x -> start asked w w (r <-- GfSpAskApproval e (Some x) ;; Ret (Some r))
| start_push w e q x l1 l2 :
    pending w = l1 ++ (q, x) :: l2 ->
    start asked w (set_pending (l1 ++ l2) w) (qpush (clock e 0) q x ;;; Ret None)
| start_height w current : start asked w (tick_height current w) (Ret None)
| start_stats w stats : start asked w (tick_stats stats w) (Ret None).

(** approver_options.go and Start: empty queues of the configured capacities. *)
Definition initial (bucketCap objectCap : Z) (table : gmap Z Z) : world :=
  mkWorld (NewGfSpTQueue "approver-create-bucket-approval" bucketCap)
    (NewGfSpTQueue "approver-create-object-approval" objectCap) 0 (mkTasksStats 0 0 0 0 0 0 0 []) 0 table [].
End approver.
