(* ===== verification/ApproverProps.v ===== *)
(** Properties of the approver: in every interleaving an approval that is given is signed,
    over the message the request's fingerprint stands for; when a bucket or an object is
    approved, and what is approved; what a repeated request gets; and the requests that
    make the approver panic. *)
From Stdlib Require Import ZArith Lia.
From stdpp Require Import base gmap list strings option.
From S2P Require Import Prelude Proc Sql Limit TaskKey Task TaskTypes TaskProps TQueue TQueueProps Approver.

Local Open Scope Z_scope.
Local Open Scope go_scope.
Local Open Scope prog_scope.

(** ** Keys *)

Lemma key_digit_inj d d' : 0 <= d < 16 -> 0 <= d' < 16 -> hex_digit d = hex_digit d' -> d = d'.
Proof.
  intros Hd Hd' E. apply (f_equal Ascii.N_of_ascii) in E. revert E. unfold hex_digit.
  destruct (Z.ltb_spec d 10), (Z.ltb_spec d' 10); rewrite !Ascii.N_ascii_embedding by lia; lia.
Qed.

Lemma byte_nibbles b : is_uint8 b -> 0 <= Z.shiftr b 4 < 16 /\ 0 <= Z.land b 15 < 16 /\ b = 16 * Z.shiftr b 4 + Z.land b 15.
Proof.
  unfold is_uint8. intros Hb. change 15 with (Z.ones 4). rewrite Z.land_ones, Z.shiftr_div_pow2 by lia.
  change (2 ^ 4) with 16. pose proof (Z.div_mod b 16 ltac:(lia)). pose proof (Z.mod_pos_bound b 16 ltac:(lia)).
  split_and!; lia.
Qed.

Lemma hex_inj f f' : Forall is_uint8 f -> Forall is_uint8 f' -> EncodeToString f = EncodeToString f' -> f = f'.
Proof.
  intros Hf. revert f'. induction Hf as [|b f Hb _ IH]; intros f' Hf'; destruct Hf' as [|b' f' Hb' Hf']; [done..|].
  intros E. injection E as E1 E2 E3.
  destruct (byte_nibbles b Hb) as (? & ? & Eb), (byte_nibbles b' Hb') as (? & ? & Eb').
  apply key_digit_inj in E1; [|done..]. apply key_digit_inj in E2; [|done..]. f_equal; [lia|by apply IH].
Qed.

(** A key ends in the fingerprint. *)
Lemma key_fingerprint pre pre' f f' :
  Forall is_uint8 f -> Forall is_uint8 f' ->
  pre +:+ "-" +:+ "fingerprint:" +:+ EncodeToString f = pre' +:+ "-" +:+ "fingerprint:" +:+ EncodeToString f' -> f = f'.
Proof.
  intros Hf Hf' E. apply hex_inj; [done..|].
  assert (pre +:+ "-fingerprint" +:+ ":" +:+ EncodeToString f = pre' +:+ "-fingerprint" +:+ ":" +:+ EncodeToString f')%string as E'
    by exact E.
  by apply field_last in E' as [_ ->]; [|apply hex_no_char; [apply hex_digit_colon|]..].
Qed.

Lemma bucket_key_fingerprint b a f b' a' f' :
  Forall is_uint8 f -> Forall is_uint8 f' ->
  GfSpCreateBucketApprovalTaskKey b a f = GfSpCreateBucketApprovalTaskKey b' a' f' -> f = f'.
Proof.
  intros Hf Hf'. unfold GfSpCreateBucketApprovalTaskKey, CombineKey, Delimiter. cbn [foldl].
  rewrite <-!string_app_assoc. rewrite !(string_app_assoc _ "fingerprint:"), !(string_app_assoc _ "-" ("fingerprint:" +:+ _)).
  by apply key_fingerprint.
Qed.

Lemma object_key_fingerprint b o a f b' o' a' f' :
  Forall is_uint8 f -> Forall is_uint8 f' ->
  GfSpCreateObjectApprovalTaskKey b o a f = GfSpCreateObjectApprovalTaskKey b' o' a' f' -> f = f'.
Proof.
  intros Hf Hf'. unfold GfSpCreateObjectApprovalTaskKey, CombineKey, Delimiter. cbn [foldl].
  rewrite <-!string_app_assoc. rewrite !(string_app_assoc _ "fingerprint:"), !(string_app_assoc _ "-" ("fingerprint:" +:+ _)).
  by apply key_fingerprint.
Qed.

(** ** Every interleaving *)

#[local] Instance queue_id_eq_dec : EqDecision queue_id.
Proof. solve_decision. Defined.

Lemma Push_entries {T} `{EqDecision T, QueueTask T} now (x : T) q q' err :
  keys_ok q -> Push now x q = (q', err) ->
  keys_ok q' /\ forall k t, tasks q' !! k = Some t -> tasks q !! k = Some t \/ t = x.
Proof.
  intros Hk E. apply Push_spec in E as (E & _ & _); [|done]. unfold push_outcome in E.
  assert (forall k t, tasks q' !! k = Some t -> tasks q !! k = Some t \/ t = x /\ k = qkey x) as Hsub.
  { intros k t Ht. destruct err as [[]|].
    - destruct E as [_ E]. rewrite E in Ht. by left.
    - destruct E as (_ & _ & E & _). rewrite E, lookup_delete_Some in Ht. left. by apply Ht.
    - destruct E as (_ & [[_ E]|(_ & old & _ & _ & _ & E)]); rewrite E, lookup_insert_Some in Ht;
        destruct Ht as [[<- <-]|[_ Ht]]; auto. rewrite lookup_delete_Some in Ht. left. by apply Ht. }
  split.
  - intros k t Ht. by destruct (Hsub _ _ Ht) as [?%Hk|[-> ->]].
  - intros k t Ht. destruct (Hsub _ _ Ht) as [?|[-> _]]; auto.
Qed.

Section interleavings.
Context `{SignBytes, ApprovalKey} (c : config).
(** What a fingerprint stands for: bucket and creator, bucket and object. *)
Context (bucket_of object_of : list Z -> string * string).
Implicit Types (e : answers) (w : world).

Definition bucket_signed (m : MsgCreateBucket) : Prop :=
  exists sig, ap_Sig (cb_Approval m) = Sign (create_bucket_bytes (cb_with (ap_with_sig sig) m)).
Definition migrate_signed (m : MsgMigrateBucket) : Prop :=
  exists sig, ap_Sig (mb_Approval m) = Sign (migrate_bucket_bytes (mb_with (ap_with_sig sig) m)).
Definition object_signed (m : MsgCreateObject) : Prop :=
  exists sig, ap_Sig (co_Approval m) = Sign (create_object_bytes (co_with (ap_with_sig sig) m)).

(** The signature in the message is the approval key's, over the rest of the message.  An
    agent's object is not signed. *)
Definition signed (x : approval_task) : Prop :=
  match x with
  | BucketTask t => bucket_signed (GfSpCreateBucketApprovalTask.CreateBucketInfo t)
  | MigrateTask t => migrate_signed (GfSpMigrateBucketApprovalTask.MigrateBucketInfo t)
  | ObjectTask t => object_signed (GfSpCreateObjectApprovalTask.CreateObjectInfo t)
  | DelegateTask _ => True
  end.

Definition bucket_means (f : list Z) (m : MsgCreateBucket) : Prop :=
  Forall is_uint8 f /\ bucket_of f = (cb_BucketName m, cb_Creator m).
Definition object_means (f : list Z) (m : MsgCreateObject) : Prop :=
  Forall is_uint8 f /\ object_of f = (co_BucketName m, co_ObjectName m).

(** The message is the one that the task's fingerprint stands for. *)
Definition honest (x : approval_task) : Prop :=
  match x with
  | BucketTask t => bucket_means (GfSpCreateBucketApprovalTask.Fingerprint t) (GfSpCreateBucketApprovalTask.CreateBucketInfo t)
  | ObjectTask t => object_means (GfSpCreateObjectApprovalTask.Fingerprint t) (GfSpCreateObjectApprovalTask.CreateObjectInfo t)
  | _ => True
  end.

Definition good (x : approval_task) : Prop := signed x /\ honest x.

Record approver_inv w : Prop := {
  ai_keys : forall q, keys_ok (queue q w);
  ai_good : forall q k x, tasks (queue q w) !! k = Some x -> good x;
  ai_pending : forall q x, (q, x) ∈ pending w -> good x
}.

(** An operation of a queue leaves only good tasks under their keys. *)
Lemma set_queue_inv q Q w :
  approver_inv w -> keys_ok Q -> (forall k x, tasks Q !! k = Some x -> good x) -> approver_inv (set_queue q Q w).
Proof.
  intros [Hk Hg Hp] HQ HG.
  assert (forall q', queue q' (set_queue q Q w) = if decide (q' = q) then Q else queue q' w) as E by (by intros []; destruct q).
  split; [intros q'|intros q' k x|by destruct q]; rewrite E; destruct (decide (q' = q)); eauto.
Qed.

Lemma tasks_now q w : tasks (queue_now q w) = tasks (queue q w).
Proof. done. Qed.

Lemma call_inv {B} q (op : GfSpTQueue approval_task -> GfSpTQueue approval_task * B) (Q : B -> Prop) :
  (forall w Q' b, approver_inv w -> keys_ok (queue_now q w) -> op (queue_now q w) = (Q', b) ->
     keys_ok Q' /\ (forall k x, tasks Q' !! k = Some x -> good x) /\ Q b) ->
  wlp approver_inv (call q op) Q.
Proof.
  intros Hop. apply wp_act. intros w Hw. destruct (op (queue_now q w)) as [Q' b] eqn:E.
  destruct (Hop w Q' b Hw (ai_keys w Hw q) E) as (? & ? & ?). split; [by apply set_queue_inv|done].
Qed.

Lemma qhas_inv now q key : wlp approver_inv (qhas now q key) (fun _ => True).
Proof.
  apply call_inv. intros w Q' b Hw Hk E. unfold Has in E. apply has_subseteq in E as (Hs & _ & _); [|done].
  split_and!; [by eapply keys_ok_subseteq|intros; eapply (ai_good w Hw q); by eapply lookup_weaken|done].
Qed.

Lemma qpop_inv now q key : wlp approver_inv (qpop_key now q key) (fun o => forall x, o = Some x -> good x /\ qkey x = key).
Proof.
  apply call_inv. intros w Q' b Hw Hk E. apply PopByKey_spec in E as (_ & -> & E); [|done].
  assert (tasks Q' ⊆ tasks (queue_now q w)) as Hs by (rewrite E; apply delete_subseteq).
  split_and!; [by eapply keys_ok_subseteq|intros; eapply (ai_good w Hw q); by eapply lookup_weaken|].
  intros x [Hx _]%live_lookup. split; [by eapply (ai_good w Hw q)|by apply Hk].
Qed.

Lemma qpush_inv now q x : good x -> wlp approver_inv (qpush now q x) (fun _ => True).
Proof.
  intros Hx. apply call_inv. intros w Q' b Hw Hk E. apply Push_entries in E as [HQ E]; [|done].
  split_and!; [done|intros k y [Hy| ->]%E; [by eapply (ai_good w Hw q)|done]|done].
Qed.

Lemma go_push_inv q x : good x -> wlp approver_inv (go_push q x) (fun _ => True).
Proof.
  intros Hx. apply wp_modify; [|done]. intros w []. split; [done|done|].
  intros q' y. cbn. rewrite elem_of_app, list_elem_of_singleton. intros [?|[= -> ->]]; eauto.
Qed.

(** What a repeated request finds. *)
Lemma repeated_inv e {M} q key (info : approval_task -> option M) :
  wlp approver_inv (repeated e q key info)
    (fun o => forall m, o = Some m -> exists x, good x /\ qkey x = key /\ info x = Some m).
Proof.
  unfold repeated. eapply wp_use; [apply qhas_inv|]. intros [|] _; [|done].
  eapply wp_use; [apply qpop_inv|]. intros [x|] Hx; [|done]. destruct (Hx x eq_refl) as [Hg Hk].
  destruct (info x) as [m|] eqn:Em; [|done]. eapply wp_use; [by apply qpush_inv|]. intros _ _ m' [= <-]. eauto.
Qed.

(** An approval that a handler gives. *)
Definition gives {T} (wrap : T -> approval_task) (r : answer T) : Prop := r.2.1 = true -> good (wrap r.1).

Lemma asks_any {B} (f : world -> B) : wlp approver_inv (asks f) (fun _ => True).
Proof. by apply wp_asks. Qed.

Lemma bucket_handler_inv e t :
  honest (BucketTask t) -> wlp approver_inv (HandleCreateBucketApprovalTask c e t) (gives BucketTask).
Proof.
  intros Ht. unfold HandleCreateBucketApprovalTask. eapply wp_use; [apply repeated_inv|]. intros [m|] Hm.
  { destruct (Hm m eq_refl) as ([s| | |] & [Hs Hf] & Hk & [= <-]). intros _. cbn in Hk. split; [done|].
    destruct t as [b m f], s as [b' m' f'], Ht as [Hu _], Hf as [Hu' Hf]. cbn in *.
    apply bucket_key_fingerprint in Hk; [|done..]. cbn in Hk. by subst. }
  destruct (user_buckets e); [|done]. case_match; [done|]. destruct (picked_family e) as [vgf|]; [|done].
  cbv zeta. eapply wp_use; [apply asks_any|]. intros h _. unfold SignCreateBucketApproval, signed_with.
  destruct (sign_error e); [done|].
  match goal with |- context [go_push _ ?x] => assert (good x) as Hg end.
  { destruct t as [b [n cr [h0 f0 s0]] f]. split; [by exists s0|done]. }
  eapply wp_use; [by apply go_push_inv|]. intros _ _ _. done.
Qed.

Lemma object_handler_inv e t :
  honest (ObjectTask t) -> wlp approver_inv (HandleCreateObjectApprovalTask c e t) (gives ObjectTask).
Proof.
  intros Ht. unfold HandleCreateObjectApprovalTask. eapply wp_use; [apply repeated_inv|]. intros [m|] Hm.
  { destruct (Hm m eq_refl) as ([ | |s|] & [Hs Hf] & Hk & [= <-]). intros _. cbn in Hk. split; [done|].
    destruct t as [b m f], s as [b' m' f'], Ht as [Hu _], Hf as [Hu' Hf]. cbn in *.
    apply object_key_fingerprint in Hk; [|done..]. cbn in Hk. by subst. }
  eapply wp_use; [apply asks_any|]. intros h _. cbv zeta. unfold SignCreateObjectApproval, signed_with.
  destruct (sign_error e); [done|].
  match goal with |- context [go_push _ ?x] => assert (good x) as Hg end.
  { destruct t as [b [n o [h0 f0 s0]] f]. split; [by exists s0|done]. }
  eapply wp_use; [by apply go_push_inv|]. intros _ _ _. done.
Qed.

Lemma sign_migration_inv e t : wlp approver_inv (sign_migration c e t) (gives MigrateTask).
Proof.
  unfold sign_migration. destruct (migrateBucketQuotaCheck e) as [[|] [|]]; [done| |done|done].
  eapply wp_use; [apply asks_any|]. intros h _. cbv zeta. unfold SignMigrateBucketApproval, signed_with.
  destruct (sign_error e); [done|]. eapply wp_use; [apply qpush_inv|].
  - split; [|done]. destruct t as [b [n d [h0 f0 s0]]]. by exists s0.
  - intros _ _ _. split; [|done]. destruct t as [b [n d [h0 f0 s0]]]. by exists s0.
Qed.

Lemma statement_inv {A} e n (f : gmap Z Z -> result goerror (gmap Z Z * A)) : wlp approver_inv (statement e n f) (fun _ => True).
Proof. apply wp_act. intros w []. by destruct (transaction _ _ _ _). Qed.

Lemma migrate_handler_inv e t : wlp approver_inv (HandleMigrateBucketApprovalTask c e t) (gives MigrateTask).
Proof.
  unfold HandleMigrateBucketApprovalTask. eapply wp_use; [apply repeated_inv|]. intros [m|] Hm.
  { destruct (Hm m eq_refl) as ([ |s| |] & [Hs _] & _ & [= <-]). intros _. by split. }
  destruct (bucket_meta e 0) as [[id sp]|]; [|done]. eapply (wp_use _ _ _ (fun _ => True)).
  { unfold QueryMigrateBucketState. eapply wp_use; [apply statement_inv|]. intros [[st|]|] _; [done| |done].
    eapply wp_use; [apply statement_inv|]. by intros []. }
  intros [st|] _; [|done]. case_match; [|case_match; [done|apply sign_migration_inv]].
  eapply (wp_use _ _ _ (fun _ => True)).
  { unfold DeleteMigrateBucket. eapply wp_use; [apply statement_inv|]. by intros []. }
  intros [|] _; [done|apply sign_migration_inv].
Qed.

Lemma delegate_handler_inv e t : wlp approver_inv (HandleDelegateCreateObjectApprovalTask e t) (gives DelegateTask).
Proof.
  unfold HandleDelegateCreateObjectApprovalTask. eapply wp_use; [apply repeated_inv|]. intros [m|] _; [done|].
  eapply wp_use; [by apply go_push_inv|]. done.
Qed.

(** The approval of a response. *)
Definition response_good (r : option response) : Prop :=
  forall r', r = Some r' -> resp_Allowed r' = true -> exists x, resp_Response r' = Some x /\ good x.

Lemma gives_allow {T} (wrap : T -> approval_task) (p : prog world (answer T)) :
  wlp approver_inv p (gives wrap) ->
  wlp approver_inv (r <-- p ;; match r with
                               | (task, (_, Some err)) => Ret (task, (false, Some err))
                               | (task, (allow, None)) => Ret (task, (allow, None))
                               end) (gives wrap).
Proof. intros Hp. eapply wp_use; [exact Hp|]. by intros [t [a [err|]]] Hg. Qed.

Lemma limit_inv : wlp approver_inv PreCreateObjectApproval (fun _ => True).
Proof. unfold PreCreateObjectApproval. eapply wp_use; [apply asks_any|done]. Qed.

Lemma on_ask_migrate_inv e t : wlp approver_inv (OnAskMigrateBucketApproval c e t) (gives MigrateTask).
Proof.
  unfold OnAskMigrateBucketApproval. eapply (wp_use _ _ _ (fun _ => True)); [|intros [t' [|]] _; [done|apply gives_allow, migrate_handler_inv]].
  unfold PreMigrateBucketApproval. eapply (wp_use _ _ _ (fun _ => True)).
  { unfold getSPID. eapply wp_use; [apply asks_any|]. intros id _. case_match; [done|]. destruct (own_sp e); [|done].
    eapply wp_use; [apply wp_modify with (Q := fun _ => True); [|done]|done]. by intros w []. }
  intros [id|] _; [|done]. case_match; [done|]. eapply wp_use; [apply asks_any|done].
Qed.

Lemma on_ask_object_inv e t : honest (ObjectTask t) -> wlp approver_inv (OnAskCreateObjectApproval c e t) (gives ObjectTask).
Proof.
  intros Ht. eapply wp_use; [apply limit_inv|]. intros [|] _; [done|]. by apply gives_allow, object_handler_inv.
Qed.

Lemma on_ask_delegate_inv e t : wlp approver_inv (OnAskDelegateCreateObjectApproval e t) (gives DelegateTask).
Proof. eapply wp_use; [apply limit_inv|]. intros [|] _; [done|]. by apply gives_allow, delegate_handler_inv. Qed.

Lemma ask_inv e x : honest x -> wlp approver_inv (GfSpAskApproval c e (Some x)) (fun r => response_good (Some r)).
Proof.
  intros Hx. unfold GfSpAskApproval. case_match; [by intros r [= <-]|].
  destruct x as [t|t|t|t]; (eapply wp_use;
    [by eauto using gives_allow, bucket_handler_inv, on_ask_migrate_inv, on_ask_object_inv, on_ask_delegate_inv|]);
    intros r Hr r' [= <-] Ha; eexists; (split; [done|by apply Hr]).
Qed.

Lemma start_inv w w' p :
  approver_inv w -> start c honest w w' p -> approver_inv w' /\ wlp approver_inv p response_good.
Proof.
  intros Hw Hs. destruct Hs as [w e x Hx|w e q x l1 l2 Hp|w h|w stats].
  - split; [done|]. eapply wp_use; [by apply ask_inv|]. done.
  - destruct Hw as [Hk Hg Hpe]. split.
    + split; [done..|]. intros q' y. cbn. rewrite elem_of_app. intros Hy. apply (Hpe q' y). rewrite Hp, elem_of_app, elem_of_cons. tauto.
    + eapply wp_use; [apply qpush_inv, (Hpe q x)|done]. rewrite Hp, elem_of_app, elem_of_cons. auto.
  - split; [by destruct Hw|done].
  - split; [by destruct Hw, stats|done].
Qed.

Lemma initial_inv bucketCap objectCap table : approver_inv (initial bucketCap objectCap table).
Proof. split; [by intros []|by intros []|]. intros q x Hx. by apply not_elem_of_nil in Hx. Qed.
End interleavings.

(** C40: In every interleaving of requests, pushes and ticks, an approval that the approver
    gives carries the signature of the approval key over the rest of its message, and the
    message is the one that the request's fingerprint stands for, also when it was approved
    for an earlier request. *)
Theorem approvals_are_signed `{SignBytes, ApprovalKey} c (bucket_of object_of : list Z -> string * string)
    bucketCap objectCap table w' ps' r :
  psteps (start c (honest bucket_of object_of)) (initial bucketCap objectCap table, []) (w', ps') ->
  Ret (Some r) ∈ ps' -> resp_Allowed r = true ->
  exists x, resp_Response r = Some x /\ signed x /\ honest bucket_of object_of x.
Proof.
  intros Hs Hr Ha.
  destruct (wp_invariant (pn := True) (start c (honest bucket_of object_of)) (approver_inv bucket_of object_of)
    (response_good bucket_of object_of) (initial bucketCap objectCap table) [] w' ps') as [_ Hps]; [|apply initial_inv|done|done|].
  { intros v v' p Hv. by apply start_inv. }
  rewrite Forall_forall in Hps. apply list_elem_of_In in Hr. specialize (Hps _ Hr r eq_refl Ha) as (x & ? & ? & ?). eauto.
Qed.

(** ** One request alone *)

Section alone.
Context `{SignBytes, ApprovalKey} (c : config).
Implicit Types (e : answers) (w : world).

(** A task that is found at each of the request's three calls. *)
Definition stored e q (key : TKey) (x : approval_task) w : Prop :=
  tasks (queue q w) !! key = Some x /\
  forall n, (n < 3)%nat -> GCApprovalQueue (currentBlockHeight w) (clock e n) x = false.

(** No task under the key, or one that is to be retired. *)
Definition absent e q (key : TKey) w : Prop := live (clock e 0) (queue_now q w) !! key = None.

Definition same_but_queue q w w' : Prop :=
  exists Q, w' = set_queue q Q w /\ cap Q = cap (queue q w).

Lemma stored_live e q key x w n : stored e q key x w -> (n < 3)%nat -> live (clock e n) (queue_now q w) !! key = Some x.
Proof. intros [Hx Hr] Hn. apply live_lookup. split; [done|by apply Hr]. Qed.

Lemma queue_now_set q Q w : queue_now q (set_queue q Q w) = SetRetireTaskStrategy (Some (GCApprovalQueue (currentBlockHeight w))) Q.
Proof. by destruct q. Qed.

Lemma set_queue_twice q Q Q' w : set_queue q Q (set_queue q Q' w) = set_queue q Q w.
Proof. by destruct q. Qed.

Lemma run_one_call q {B} (op : GfSpTQueue approval_task -> GfSpTQueue approval_task * B) {C} (k : B -> prog world C) w Q b :
  op (queue_now q w) = (Q, b) -> run (pbind (call q op) k) w = run (k b) (set_queue q Q w).
Proof. intros E. cbn. by rewrite E. Qed.

(** Up to the second call: the stored task is taken out. *)
Lemma repeated_takes e q key {M} (info : approval_task -> option M) x w :
  queue_inv (queue q w) -> stored e q key x w ->
  exists Q, run (repeated e q key info) w =
      run (match info x with Some m => qpush (clock e 2) q x ;;; Ret (Some m) | None => Panic end) (set_queue q Q w) /\
    tasks Q = delete key (tasks (queue q w)) /\ cap Q = cap (queue q w).
Proof.
  intros [Hk Hl] Hx. pose proof (stored_live e q key x w 0 Hx ltac:(lia)) as L0. pose proof (stored_live e q key x w 1 Hx ltac:(lia)) as L1.
  assert (keys_ok (queue_now q w)) as Hk0 by exact Hk.
  unfold repeated, qhas, qpop_key. destruct (has (clock e 0) key (queue_now q w)) as [Q0 h] eqn:E0.
  rewrite (run_one_call q _ _ w Q0 h) by exact E0. apply has_spec in E0 as (_ & _ & E0); [|done].
  rewrite L0 in E0. destruct E0 as [-> ->].
  set (w0 := set_queue q (queue_now q w) w). assert (queue_now q w0 = queue_now q w) as En by (by destruct q).
  destruct (PopByKey (clock e 1) key (queue_now q w)) as [Q1 r] eqn:E1.
  rewrite (run_one_call q _ _ w0 Q1 r) by (by rewrite En). apply PopByKey_spec in E1 as (Hs1 & -> & Et1); [|done]. rewrite L1.
  exists Q1. unfold w0. rewrite set_queue_twice. split; [done|]. split; [by rewrite Et1|by rewrite (same_cap _ _ Hs1); destruct q].
Qed.

Lemma repeated_panics e q key {M} (info : approval_task -> option M) x w :
  queue_inv (queue q w) -> stored e q key x w -> info x = None -> run (repeated e q key info) w = Panicked.
Proof. intros Hq Hx Ei. destruct (repeated_takes e q key info x w Hq Hx) as (Q & -> & _). by rewrite Ei. Qed.

(** The stored task is taken out and put back. *)
Lemma repeated_stored e q key {M} (info : approval_task -> option M) x m w :
  queue_inv (queue q w) -> stored e q key x w -> info x = Some m ->
  exists Q, run (repeated e q key info) w = Done (set_queue q Q w) (Some m) /\ tasks Q = tasks (queue q w) /\ cap Q = cap (queue q w).
Proof.
  intros Hq Hx Em. destruct (repeated_takes e q key info x w Hq Hx) as (Q1 & -> & Et & Ec). rewrite Em.
  destruct Hq as [Hk Hl]. assert (qkey x = key) as Hkey by (apply Hk, Hx).
  set (w1 := set_queue q Q1 w). assert (tasks (queue_now q w1) = delete key (tasks (queue q w))) as Et1 by (by destruct q).
  assert (cap (queue_now q w1) = cap (queue q w)) as Ec1 by (by destruct q).
  assert (keys_ok (queue_now q w1)) as Hk1 by (apply (keys_ok_subseteq (queue q w)); [done|]; rewrite Et1; apply delete_subseteq).
  unfold qpush. destruct (Push (clock e 2) x (queue_now q w1)) as [Q2 err] eqn:E2. rewrite (run_one_call q _ _ w1 Q2 err) by done.
  exists Q2. cbn. unfold w1. rewrite set_queue_twice. split; [done|].
  apply Push_spec in E2 as (E2 & Hs2 & _); [|done]. unfold push_outcome in E2. rewrite Hkey, Et1, delete_delete_eq in E2.
  assert (live (clock e 2) (queue_now q w1) !! key = None) as Hn.
  { apply eq_None_not_Some. intros [y [Hy _]%live_lookup]. by rewrite Et1, lookup_delete_eq in Hy. }
  destruct Hx as [Hx _]. assert (Z.of_nat (size (delete key (tasks (queue q w)))) < cap (queue q w)) as Hroom.
  { unfold Len in Hl. pose proof (delete_size_lt _ _ _ Hx). lia. }
  split; [|by rewrite (same_cap _ _ Hs2)]. rewrite Ec1 in E2. destruct err as [[]|].
  - destruct E2 as [[y Hy] _]. by rewrite Hn in Hy.
  - destruct E2 as (_ & Hge & _). lia.
  - destruct E2 as (_ & [[_ ->]|[Hge _]]); [|lia]. by rewrite insert_delete_eq, insert_id.
Qed.

Lemma repeated_absent e q key {M} (info : approval_task -> option M) w :
  keys_ok (queue q w) -> absent e q key w ->
  exists Q, run (repeated e q key info) w = Done (set_queue q Q w) None /\ tasks Q = delete key (tasks (queue q w)) /\ cap Q = cap (queue q w).
Proof.
  intros Hk Ha. unfold repeated, qhas, qpop_key, qpush. destruct (has (clock e 0) key (queue_now q w)) as [Q0 h] eqn:E0.
  rewrite (run_one_call q _ _ w Q0 h) by exact E0. apply has_spec in E0 as (Hs & _ & E0); [|exact Hk]. unfold absent in Ha. rewrite Ha in E0.
  destruct E0 as [-> E0]. exists Q0. split; [done|]. split; [done|by rewrite (same_cap _ _ Hs); destruct q].
Qed.

(** What a fresh approval of a bucket says. *)
Definition approved_bucket (height vgf : Z) (m : MsgCreateBucket) : MsgCreateBucket :=
  let m := mkMsgCreateBucket (cb_BucketName m) (cb_Creator m) (mkSpApproval (uwrap 64 (height + bucketApprovalTimeoutHeight c)) vgf (ap_Sig (cb_Approval m))) in
  cb_with (ap_with_sig (Sign (create_bucket_bytes m))) m.

(** The account has room for a bucket, a family was picked, and the signer signs. *)
Definition bucket_may e (vgf : Z) : Prop :=
  (exists n, user_buckets e = Ok n /\ n < accountBucketNumber c) /\ picked_family e = Ok vgf /\ sign_error e = None.

Definition fresh_bucket_answer e (t : GfSpCreateBucketApprovalTask.t) w w' (r : answer GfSpCreateBucketApprovalTask.t) : Prop :=
  (exists vgf, bucket_may e vgf /\ r.2 = (true, None) /\
     GfSpCreateBucketApprovalTask.CreateBucketInfo r.1 =
       approved_bucket (currentBlockHeight w) vgf (GfSpCreateBucketApprovalTask.CreateBucketInfo t) /\
     pending w' = pending w ++ [(BucketQueue, BucketTask r.1)]) \/
  ((forall vgf, ~ bucket_may e vgf) /\ r.2.1 = false /\ is_Some r.2.2 /\ pending w' = pending w).

Lemma fresh_bucket e t w :
  keys_ok (queue BucketQueue w) -> absent e BucketQueue (Key t) w ->
  exists w' r, run (HandleCreateBucketApprovalTask c e t) w = Done w' r /\
    tasks (bucketQueue w') = delete (Key t) (tasks (bucketQueue w)) /\ fresh_bucket_answer e t w w' r.
Proof.
  intros Hk Ha. destruct (repeated_absent e BucketQueue (Key t) bucket_info w Hk Ha) as (Q & E & Et & _).
  unfold HandleCreateBucketApprovalTask. rewrite (run_bind_done _ _ _ _ _ E). unfold fresh_bucket_answer, bucket_may.
  destruct (user_buckets e) as [n|err]; [|cbn; do 2 eexists; split; [done|]; split; [done|]; right; naive_solver].
  destruct (Z.geb_spec n (accountBucketNumber c)); [cbn; do 2 eexists; split; [done|]; split; [done|]; right; split_and!; try done; intros ? [(? & [= <-] & ?) _]; lia|].
  destruct (picked_family e) as [vgf|err]; [|cbn; do 2 eexists; split; [done|]; split; [done|]; right; naive_solver].
  cbn. unfold SignCreateBucketApproval, signed_with.
  destruct (sign_error e); [cbn; do 2 eexists; split; [done|]; split; [done|]; right; naive_solver|].
  cbn. do 2 eexists. split; [done|]. split; [done|]. left. exists vgf. split_and!; try done. by exists n.
Qed.
End alone.

(** A request for a bucket that was approved before, and whose approval has not
    expired, is answered with the approval that is stored, without asking anyone; the queue
    stays as it is.  Another one is approved if and only if the account has room for a
    bucket, a family was picked and the signer signs; the approval names the family,
    expires the timeout after the current height, and is signed. *)
Theorem bucket_approval_exact `{SignBytes, ApprovalKey} c e t w :
  queue_inv (bucketQueue w) ->
  (forall s, stored e BucketQueue (Key t) (BucketTask s) w ->
     exists w', run (HandleCreateBucketApprovalTask c e t) w =
         Done w' (GfSpCreateBucketApprovalTask.SetCreateBucketInfo (GfSpCreateBucketApprovalTask.CreateBucketInfo s) t, (true, None)) /\
       tasks (bucketQueue w') = tasks (bucketQueue w) /\ pending w' = pending w) /\
  (absent e BucketQueue (Key t) w ->
     exists w' r, run (HandleCreateBucketApprovalTask c e t) w = Done w' r /\
       tasks (bucketQueue w') = delete (Key t) (tasks (bucketQueue w)) /\ fresh_bucket_answer c e t w w' r).
Proof.
  intros Hq. split; [|intros Ha; apply fresh_bucket; [apply Hq|done]].
  intros s Hs. destruct (repeated_stored e BucketQueue (Key t) bucket_info _ _ w Hq Hs eq_refl) as (Q & E & Et & _).
  unfold HandleCreateBucketApprovalTask. rewrite (run_bind_done _ _ _ _ _ E). cbn. by eexists.
Qed.

(** The approval of an object and of an agent's object have one key.  When the approval
    of one kind is stored, a request of the other kind with the same bucket, object, account
    and fingerprint makes the approver panic. *)
Theorem approval_kinds_share_a_key `{SignBytes, ApprovalKey} c e (t : GfSpCreateObjectApprovalTask.t)
    (d : GfSpDelegateCreateObjectApprovalTask.t) w :
  queue_inv (objectQueue w) ->
  co_BucketName (GfSpCreateObjectApprovalTask.CreateObjectInfo t) = dg_BucketName (GfSpDelegateCreateObjectApprovalTask.DelegateCreateObject d) ->
  co_ObjectName (GfSpCreateObjectApprovalTask.CreateObjectInfo t) = dg_ObjectName (GfSpDelegateCreateObjectApprovalTask.DelegateCreateObject d) ->
  GetUserAddress t = GetUserAddress d ->
  GfSpCreateObjectApprovalTask.Fingerprint t = GfSpDelegateCreateObjectApprovalTask.Fingerprint d ->
  (stored e ObjectQueue (Key t) (ObjectTask t) w -> run (HandleDelegateCreateObjectApprovalTask e d) w = Panicked) /\
  (stored e ObjectQueue (Key d) (DelegateTask d) w -> run (HandleCreateObjectApprovalTask c e t) w = Panicked).
Proof.
  intros Hq Hb Ho Ha Hf.
  assert (Key t = Key d) as Ek.
  { unfold GetUserAddress in Ha. cbn in *. unfold GfSpCreateObjectApprovalTask.Key, GfSpDelegateCreateObjectApprovalTask.Key. by rewrite Hb, Ho, Hf, Ha. }
  split; intros Hs.
  - unfold HandleDelegateCreateObjectApprovalTask. rewrite run_bind, <-Ek. by rewrite (repeated_panics e ObjectQueue _ delegate_info _ w Hq Hs eq_refl).
  - unfold HandleCreateObjectApprovalTask. rewrite run_bind, Ek. by rewrite (repeated_panics e ObjectQueue _ object_info _ w Hq Hs eq_refl).
Qed.

(** ** Two requests at once *)

Section race.
Context `{SignBytes, ApprovalKey} (c : config) (asked : approval_task -> Prop).

Lemma step_call q {B} (op : GfSpTQueue approval_task -> GfSpTQueue approval_task * B) (k : B -> prog world (option response)) ps1 ps2 w Q b :
  op (queue_now q w) = (Q, b) ->
  pstep (start c asked) (w, ps1 ++ pbind (call q op) k :: ps2) (set_queue q Q w, ps1 ++ k b :: ps2).
Proof. intros E. eapply step_act. by rewrite E. Qed.

(** A request for a bucket, up to its second call. *)
Lemma bucket_request_calls e t :
  reserve e = true ->
  exists k1 k2, (r <-- GfSpAskApproval c e (Some (BucketTask t)) ;; Ret (Some r)) = pbind (call BucketQueue (Has (clock e 0) (Key t))) k1 /\
    k1 true = pbind (call BucketQueue (PopByKey (clock e 1) (Key t))) k2 /\ k2 None = Panic.
Proof.
  intros Hr. unfold GfSpAskApproval. rewrite Hr. unfold OnAskCreateBucketApproval, HandleCreateBucketApprovalTask, repeated, qhas, qpop_key.
  cbn. do 2 eexists. split; [reflexivity|]. split; reflexivity.
Qed.
End race.

(** A panic ends the process.  Two requests for a bucket whose approval is stored can
    make the approver panic: both find it, and when the first one has taken it out to put it
    back, the second one takes out nothing. *)
Theorem concurrent_repeats_panic `{SignBytes, ApprovalKey} c (asked : approval_task -> Prop) e t s w :
  asked (BucketTask t) -> reserve e = true -> queue_inv (bucketQueue w) -> stored e BucketQueue (Key t) (BucketTask s) w ->
  exists w' p, psteps (start c asked) (w, []) (w', [Panic; p]).
Proof.
  intros Ht Hr [Hk _] Hs. destruct (bucket_request_calls c e t Hr) as (k1 & k2 & Ep & Ek & Ek2).
  pose proof (stored_live e BucketQueue _ _ w 0 Hs ltac:(lia)) as L0. pose proof (stored_live e BucketQueue _ _ w 1 Hs ltac:(lia)) as L1.
  set (w0 := set_queue BucketQueue (queue_now BucketQueue w) w).
  assert (forall v, v = w \/ v = w0 -> Has (clock e 0) (Key t) (queue_now BucketQueue v) = (queue_now BucketQueue w, true)) as Hhas.
  { intros v Hv. assert (queue_now BucketQueue v = queue_now BucketQueue w) as -> by (by destruct Hv; subst).
    unfold Has. destruct (has _ _ _) as [Q h] eqn:E. apply has_spec in E as (_ & _ & E); [|exact Hk]. rewrite L0 in E. by destruct E as [-> ->]. }
  destruct (PopByKey (clock e 1) (Key t) (queue_now BucketQueue w)) as [Q1 r] eqn:E1.
  pose proof E1 as E1'. apply PopByKey_spec in E1' as (_ & -> & Et1); [|exact Hk]. rewrite L1 in E1.
  set (w1 := set_queue BucketQueue Q1 w0).
  destruct (PopByKey (clock e 1) (Key t) (queue_now BucketQueue w1)) as [Q2 r] eqn:E2.
  assert (r = None) as ->.
  { pose proof E2 as E2'. apply PopByKey_spec in E2' as (_ & -> & _).
    - apply eq_None_not_Some. intros [y [Hy _]%live_lookup]. cbn in Hy. rewrite Et1 in Hy. cbn in Hy. by rewrite lookup_delete_eq in Hy.
    - intros k x. cbn. rewrite Et1. cbn. intros [_ Hx]%lookup_delete_Some. by apply Hk. }
  exists (set_queue BucketQueue Q2 w1), (k2 (Some (BucketTask s))).
  eapply rtc_l; [eapply step_start, start_request; exact Ht|]. rewrite Ep.
  eapply rtc_l; [eapply step_start, start_request; exact Ht|]. rewrite Ep.
  eapply rtc_l; [apply (step_call c asked BucketQueue _ k1 [] [_] w), Hhas; by left|]. fold w0. rewrite Ek.
  eapply rtc_l; [apply (step_call c asked BucketQueue _ k1 [_] [] w0), Hhas; by right|].
  change (set_queue BucketQueue (queue_now BucketQueue w) w0) with w0. rewrite Ek. cbn [app].
  eapply rtc_l; [apply (step_call c asked BucketQueue _ k2 [_] [] w0); exact E1|]. fold w1. cbn [app].
  eapply rtc_l; [apply (step_call c asked BucketQueue _ k2 [] [_] w1); exact E2|]. cbn [app]. rewrite Ek2. apply rtc_refl.
Qed.

(** ** Migrations *)

Section migration.
Context `{SignBytes, ApprovalKey} (c : config).

Lemma run_query e id w : exists T r, run (QueryMigrateBucketState e id) w = Done (set_migrate_table T w) r.
Proof.
  unfold QueryMigrateBucketState, statement. cbn. destruct (transaction _ _ _ _) as [T [[st|]|err]]; cbn; [by do 2 eexists| |by do 2 eexists].
  destruct (transaction _ _ _ _) as [T' [[]|err]]; cbn; by do 2 eexists.
Qed.

Lemma run_delete e id w : exists T r, run (DeleteMigrateBucket e id) w = Done (set_migrate_table T w) r.
Proof. unfold DeleteMigrateBucket, statement. cbn. destruct (transaction _ _ _ _) as [T [[]|err]]; cbn; by do 2 eexists. Qed.

(** At most the signed task is added. *)
Lemma run_sign_migration e t w :
  keys_ok (bucketQueue w) ->
  exists w' r, run (sign_migration c e t) w = Done w' r /\
    mb_BucketName (GfSpMigrateBucketApprovalTask.MigrateBucketInfo r.1) = mb_BucketName (GfSpMigrateBucketApprovalTask.MigrateBucketInfo t) /\
    forall k x, tasks (bucketQueue w') !! k = Some x -> tasks (bucketQueue w) !! k = Some x \/ k = Key r.1.
Proof.
  intros Hk. unfold sign_migration. destruct (migrateBucketQuotaCheck e) as [[|] [|]];
    [cbn; do 2 eexists; split_and!; auto| |cbn; do 2 eexists; split_and!; auto..].
  cbn. unfold SignMigrateBucketApproval, signed_with. destruct (sign_error e); [cbn; do 2 eexists; split_and!; auto|].
  cbn. destruct (Push _ _ _) as [Q err] eqn:E. cbn. do 2 eexists. split; [done|]. split; [done|].
  apply Push_entries in E as [HQ E]; [|exact Hk]. intros k x Hx. destruct (E k x Hx) as [?| ->]; [by left|]. right. cbn in Hx. by rewrite <-(HQ _ _ Hx).
Qed.
End migration.

(** The key of a migration's approval is made of the message with its approval, which
    handling the request changes.  The task is therefore not stored under the key of the
    request, and the same request is not recognised when it is repeated. *)
Theorem repeated_migration_unknown `{SignBytes, ApprovalKey} c e t w w' t' a :
  keys_ok (bucketQueue w) -> absent e BucketQueue (Key t) w ->
  run (HandleMigrateBucketApprovalTask c e t) w = Done w' (t', a) ->
  (forall m, Forall is_uint8 (GetSignBytes m)) ->
  GetSignBytes (GfSpMigrateBucketApprovalTask.MigrateBucketInfo t') <> GetSignBytes (GfSpMigrateBucketApprovalTask.MigrateBucketInfo t) ->
  tasks (bucketQueue w') !! Key t = None.
Proof.
  intros Hk Ha E Hu Hd. destruct (repeated_absent e BucketQueue (Key t) migrate_info w Hk Ha) as (Q & E1 & Et & _).
  unfold HandleMigrateBucketApprovalTask in E. rewrite (run_bind_done _ _ _ _ _ E1) in E.
  assert (keys_ok Q) as HQ by (apply (keys_ok_subseteq (bucketQueue w)); [done|]; rewrite Et; apply delete_subseteq).
  assert (tasks Q !! Key t = None) as Hn by (rewrite Et; apply lookup_delete_eq).
  assert (forall T, run (sign_migration c e t) (set_migrate_table T (set_queue BucketQueue Q w)) = Done w' (t', a) -> tasks (bucketQueue w') !! Key t = None) as Hsign.
  { intros T E2. destruct (run_sign_migration c e t (set_migrate_table T (set_queue BucketQueue Q w)) HQ) as (v & r & E3 & Hb & Hx).
    rewrite E3 in E2. injection E2 as -> ->. cbn in Hb. apply eq_None_not_Some. intros [x [Hy|Hy]%Hx]; [change (tasks Q !! Key t = Some x) in Hy; by rewrite Hn in Hy|].
    cbn in Hy. unfold GfSpMigrateBucketApprovalTask.Key, GfSpMigrateBucketApprovalTaskKey, CombineKey, Delimiter in Hy. rewrite Hb in Hy. cbn [foldl] in Hy.
    do 4 apply string_app_inv_l in Hy; apply hex_inj in Hy; [|done..]. congruence. }
  destruct (bucket_meta e 0) as [[id sp]|]; [|by injection E as <- <- _].
  destruct (run_query e id (set_queue BucketQueue Q w)) as (T & r & E2). rewrite (run_bind_done _ _ _ _ _ E2) in E.
  destruct r as [st|]; [|by injection E as <- <- _]. destruct (st =? MIGRATION_FINISHED).
  - destruct (run_delete e id (set_migrate_table T (set_queue BucketQueue Q w))) as (T' & r & E3). rewrite (run_bind_done _ _ _ _ _ E3) in E.
    destruct r; [by injection E as <- <- _|by eapply Hsign].
  - destruct (negb (st =? MIGRATION_INIT_UNSPECIFIED)); [by injection E as <- <- _|by eapply Hsign].
Qed.

(** ** Concrete requests *)

#[local] Instance ex_sign_bytes : SignBytes := fun m => [uwrap 8 (ap_ExpiredHeight (mb_Approval m))].
#[local] Instance ex_key : ApprovalKey := {
  create_bucket_bytes m := [ap_ExpiredHeight (cb_Approval m); ap_FamilyId (cb_Approval m)];
  migrate_bucket_bytes m := [ap_ExpiredHeight (mb_Approval m)];
  create_object_bytes m := [ap_ExpiredHeight (co_Approval m)];
  Sign bs := 42 :: bs
}.
Local Definition ex_config : config := mkConfig 100 100 100 5.
Local Definition ex_answers : answers :=
  mkAnswers (fun n => 1000 + Z.of_nat n) true (Ok 3) (Ok 7) None (Ok 1) (fun _ => Ok (9, 2)) (fun _ => Committed) (OtherErr "db")
    (Ok "sp"%string) None None (fun _ => None) (fun _ => ""%string).
Local Definition ex_blank : SpApproval := mkSpApproval 0 0 [].
Local Definition ex_bucket : GfSpCreateBucketApprovalTask.t :=
  GfSpCreateBucketApprovalTask.InitApprovalCreateBucketTask "alice" (mkMsgCreateBucket "b" "alice" ex_blank) [1; 2] 85 1000 1000.
Local Definition ex_object : GfSpCreateObjectApprovalTask.t :=
  GfSpCreateObjectApprovalTask.InitApprovalCreateObjectTask "alice" (mkMsgCreateObject "b" "o" ex_blank) [3; 4] 85 1000 1000.
Local Definition ex_delegate : GfSpDelegateCreateObjectApprovalTask.t :=
  GfSpDelegateCreateObjectApprovalTask.InitApprovalDelegateCreateObjectTask "alice" (mkMsgDelegate "b" "o") [3; 4] 85 1000 1000.
Local Definition ex_migrate : GfSpMigrateBucketApprovalTask.t :=
  GfSpMigrateBucketApprovalTask.InitApprovalMigrateBucketTask (mkMsgMigrateBucket "b" 1 ex_blank) 85 1000 1000.

(** The first tick of the height has come. *)
Local Definition ex_world : world := tick_height (Ok 50) (initial 10 10 ∅).
Local Definition after_run {A} (o : outcome world A) (w : world) : world := match o with Done w _ => w | _ => w end.
(** The first pending push runs. *)
Local Definition ex_pushed (w : world) : world :=
  match pending w with
  | [] => w
  | (q, x) :: l => after_run (run (qpush 1000 q x) (set_pending l w)) w
  end.
(** The bucket and the object were approved, and both tasks are in their queues. *)
Local Definition ex_bucket_done : world := ex_pushed (after_run (run (HandleCreateBucketApprovalTask ex_config ex_answers ex_bucket) ex_world) ex_world).
Local Definition ex_object_done : world := ex_pushed (after_run (run (HandleCreateObjectApprovalTask ex_config ex_answers ex_object) ex_world) ex_world).

Local Definition ex_bucket_stored : GfSpCreateBucketApprovalTask.t :=
  GfSpCreateBucketApprovalTask.SetCreateBucketInfo (approved_bucket ex_config 50 7 (GfSpCreateBucketApprovalTask.CreateBucketInfo ex_bucket)) ex_bucket.
Local Definition ex_object_stored : GfSpCreateObjectApprovalTask.t :=
  GfSpCreateObjectApprovalTask.SetCreateObjectInfo (mkMsgCreateObject "b" "o" (mkSpApproval 150 0 [42; 150])) ex_object.

Lemma one_task_inv q k x w : tasks (queue q w) = {[k := x]} -> qkey x = k -> 1 <= cap (queue q w) -> queue_inv (queue q w).
Proof.
  intros E Hk Hc. split; [intros k' y; rewrite E; intros [<- <-]%lookup_singleton_Some; done|].
  unfold Len. rewrite E, map_size_singleton. lia.
Qed.

Lemma ex_bucket_done_tasks : tasks (queue BucketQueue ex_bucket_done) = {[Key ex_bucket := BucketTask ex_bucket_stored]}.
Proof. vm_compute. reflexivity. Qed.
Lemma ex_object_done_tasks : tasks (queue ObjectQueue ex_object_done) = {[Key ex_object := ObjectTask ex_object_stored]}.
Proof. vm_compute. reflexivity. Qed.
Lemma ex_bucket_found : stored ex_answers BucketQueue (Key ex_bucket) (BucketTask ex_bucket_stored) ex_bucket_done.
Proof. split; [by rewrite ex_bucket_done_tasks, lookup_singleton_eq|]. intros [|[|[|n]]] Hn; [by vm_compute..|lia]. Qed.
Lemma ex_object_found : stored ex_answers ObjectQueue (Key ex_object) (ObjectTask ex_object_stored) ex_object_done.
Proof. split; [by rewrite ex_object_done_tasks, lookup_singleton_eq|]. intros [|[|[|n]]] Hn; [by vm_compute..|lia]. Qed.

Lemma bucket_approval_exact_witness :
  (exists w', run (HandleCreateBucketApprovalTask ex_config ex_answers ex_bucket) ex_bucket_done = Done w' (ex_bucket_stored, (true, None))) /\
  exists w' r, run (HandleCreateBucketApprovalTask ex_config ex_answers ex_bucket) ex_world = Done w' r /\
    fresh_bucket_answer ex_config ex_answers ex_bucket ex_world w' r.
Proof.
  split.
  - destruct (bucket_approval_exact ex_config ex_answers ex_bucket ex_bucket_done) as [H _].
    { by apply (one_task_inv BucketQueue _ _ _ ex_bucket_done_tasks). }
    destruct (H _ ex_bucket_found) as (w' & E & _). exists w'. exact E.
  - destruct (bucket_approval_exact ex_config ex_answers ex_bucket ex_world) as [_ H]; [by split|].
    destruct H as (w' & r & E & _ & F); [by vm_compute|]. by exists w', r.
Defined.

Lemma approval_kinds_share_a_key_witness :
  run (HandleDelegateCreateObjectApprovalTask ex_answers ex_delegate) ex_object_done = Panicked.
Proof.
  apply (approval_kinds_share_a_key ex_config ex_answers ex_object_stored ex_delegate ex_object_done); [|done..|exact ex_object_found].
  by apply (one_task_inv ObjectQueue _ _ _ ex_object_done_tasks).
Defined.

Lemma concurrent_repeats_panic_witness :
  exists w' p, psteps (start ex_config (fun _ => True)) (ex_bucket_done, []) (w', [Panic; p]).
Proof.
  apply (concurrent_repeats_panic ex_config (fun _ => True) ex_answers ex_bucket ex_bucket_stored); [done|done| |exact ex_bucket_found].
  by apply (one_task_inv BucketQueue _ _ _ ex_bucket_done_tasks).
Defined.

Lemma repeated_migration_unknown_witness :
  exists w' t', run (HandleMigrateBucketApprovalTask ex_config ex_answers ex_migrate) ex_world = Done w' (t', (true, None)) /\
    tasks (bucketQueue w') !! Key ex_migrate = None /\ size (tasks (bucketQueue w')) = 1%nat.
Proof.
  assert (match run (HandleMigrateBucketApprovalTask ex_config ex_answers ex_migrate) ex_world with
          | Done w' (t', (true, None)) => bool_decide (size (tasks (bucketQueue w')) = 1%nat) &&
              bool_decide (GetSignBytes (GfSpMigrateBucketApprovalTask.MigrateBucketInfo t') = [150])
          | _ => false
          end = true) as Hc by (vm_compute; reflexivity).
  destruct (run _ _) as [w' [t' [[|] [|]]]| |] eqn:E; try discriminate Hc. exists w', t'.
  apply andb_true_iff in Hc as [Hs%bool_decide_eq_true Hb%bool_decide_eq_true]. split; [done|]. split; [|done].
  eapply (repeated_migration_unknown ex_config ex_answers ex_migrate ex_world w' t'); [done|by vm_compute|exact E| |by rewrite Hb].
  intros m. repeat constructor; cbn; unfold uwrap; pose proof (Z.mod_pos_bound (ap_ExpiredHeight (mb_Approval m)) (2 ^ 8)); lia.
Defined.

Lemma approvals_are_signed_witness :
  exists w' ps' r x, psteps (start ex_config (honest (fun _ => ("b", "alice")%string) (fun _ => ("b", "o")%string))) (initial 10 10 ∅, []) (w', ps') /\
    Ret (Some r) ∈ ps' /\ resp_Allowed r = true /\ resp_Response r = Some x /\
    signed x /\ honest (fun _ => ("b", "alice")%string) (fun _ => ("b", "o")%string) x.
Proof.
  set (p := r <-- GfSpAskApproval ex_config ex_answers (Some (BucketTask ex_bucket)) ;; Ret (Some r)).
  assert (match run p (initial 10 10 ∅) with Done _ (Some r) => resp_Allowed r | _ => false end = true) as Ha by (vm_compute; reflexivity).
  destruct (run p (initial 10 10 ∅)) as [w' [r|]| |] eqn:E; try discriminate Ha.
  assert (psteps (start ex_config (honest (fun _ => ("b", "alice")%string) (fun _ => ("b", "o")%string)))
    (initial 10 10 ∅, []) (w', [Ret (Some r)])) as Hs.
  { eapply rtc_l; [eapply step_start, (start_request _ _ _ ex_answers (BucketTask ex_bucket)); split; [repeat constructor; cbn; lia|done]|].
    by apply (run_psteps _ p _ _ _ [] []). }
  destruct (approvals_are_signed ex_config (fun _ => ("b", "alice")%string) (fun _ => ("b", "o")%string) 10 10 ∅ w' [Ret (Some r)] r Hs)
    as (x & ? & ? & ?); [by left|done|]. exists w', [Ret (Some r)], r, x. split_and!; try done. by left.
Defined.
