(* ===== verification/VGroup.v ===== *)
(** core/vgmgr/virtual_group_manager.go: what the storage provider knows of virtual groups,
    the filters, and the interface of the virtual group manager as a class; and the
    candidate policy of modular/manager/manage_task.go.

    A global virtual group (GVG) is a primary provider and its secondaries; a family (VGF)
    is a set of groups with one primary. *)
From Stdlib Require Import ZArith Lia.
From stdpp Require Import base gmap list strings.
From S2P Require Import Prelude TaskTypes.

Local Open Scope Z_scope.

Record GlobalVirtualGroupMeta := mkGVGMeta {
  gm_ID : Z;
  gm_FamilyID : Z;
  gm_PrimarySPID : Z;
  gm_SecondarySPIDs : list Z;
  gm_SecondarySPEndpoints : list string;
  gm_UsedStorageSize : Z;
  gm_StakingStorageSize : Z;
}.

#[export] Instance GVGMeta_eq_dec : EqDecision GlobalVirtualGroupMeta.
Proof. solve_decision. Defined.

Record VirtualGroupFamilyMeta := mkVGFMeta {
  fm_ID : Z;
  fm_PrimarySPID : Z;
  fm_FamilyUsedStorageSize : Z;
  fm_FamilyStakingStorageSize : Z;
  fm_GVGMap : gmap Z GlobalVirtualGroupMeta;
}.

(** The chain's records. *)
Record ChainSP := mkChainSP {
  sp_Id : Z;
  sp_OperatorAddress : string;
  sp_Endpoint : string;
  sp_IsInService : bool;
}.

#[export] Instance ChainSP_eq_dec : EqDecision ChainSP.
Proof. solve_decision. Defined.

Record ChainGVG := mkChainGVG {
  cg_Id : Z;
  cg_FamilyId : Z;
  cg_PrimarySpId : Z;
  cg_SecondarySpIds : list Z;
  cg_StoredSize : Z;
  cg_TotalDeposit : Z;
}.

#[export] Instance ChainGVG_eq_dec : EqDecision ChainGVG.
Proof. solve_decision. Defined.

Record VGParams := mkVGParams { vp_DepositDenom : string; vp_GvgStakingPerBytes : Z }.

(** ** Filters *)

Notation IDSet := (gset Z).

Definition NewIDSetFromList (l : list Z) : IDSet := list_to_set l.

(** PickVGFFilter *)
Definition CheckVGF (availableVgfIDs : list Z) (vgfID : Z) : bool := bool_decide (vgfID ∈ availableVgfIDs).

(** ExcludeIDFilter *)
Definition Apply (excludeIDs : IDSet) (id : Z) : bool := bool_decide (id ∈ excludeIDs).

Definition black_listed (blackListSPs : list Z) (gvg : GlobalVirtualGroupMeta) : bool :=
  existsb (fun sspID => bool_decide (sspID ∈ blackListSPs)) (gm_SecondarySPIDs gvg).

(** PickVGFByGVGFilter: a family has at least one group without a black-listed secondary. *)
Definition CheckByGVG (blackListSPs : list Z) (gvgs : gmap Z GlobalVirtualGroupMeta) : bool :=
  let l := (map_to_list gvgs).*2 in
  let validCount := foldl (fun n gvg => if black_listed blackListSPs gvg then n - 1 else n) (Z.of_nat (length l)) l in
  validCount >? 0.

(** ** Policies *)

(** GenerateGVGSecondarySPsPolicy *)
Class SPsPolicy (P : Type) := {
  AddCandidateSP : Z -> P -> P;
  GenerateGVGSecondarySPs : P -> option (list Z)
}.

(** GenerateGVGSecondarySPsPolicyByPrefer (manage_task.go); [None] is the error "no enough sp". *)
Record ByPrefer := mkByPrefer {
  expectedSecondarySPNumber : Z;
  preferSPIDMap : IDSet;
  preferSPIDList : list Z;
  backupSPIDList : list Z;
}.

(** The two chunk numbers are uint32. *)
Definition NewGenerateGVGSecondarySPsPolicyByPrefer (p : Params) (preferSPIDs : list Z) : ByPrefer :=
  mkByPrefer (uwrap 32 (RedundantDataChunkNum p + RedundantParityChunkNum p)) (list_to_set preferSPIDs) [] [].

#[export] Instance by_prefer_policy : SPsPolicy ByPrefer := {
  AddCandidateSP spID p :=
    if bool_decide (spID ∈ preferSPIDMap p)
    then mkByPrefer (expectedSecondarySPNumber p) (preferSPIDMap p) (preferSPIDList p ++ [spID]) (backupSPIDList p)
    else mkByPrefer (expectedSecondarySPNumber p) (preferSPIDMap p) (preferSPIDList p) (backupSPIDList p ++ [spID]);
  GenerateGVGSecondarySPs p :=
    if expectedSecondarySPNumber p >? Z.of_nat (length (preferSPIDList p)) + Z.of_nat (length (backupSPIDList p))
    then None
    else Some (take (Z.to_nat (expectedSecondarySPNumber p)) (preferSPIDList p ++ backupSPIDList p))
}.

(** ** The interface *)

Inductive vg_error :=
| ErrFailedPickVGF
| ErrFailedPickGVG
| ErrStaledMetadata
| ErrFailedPickDestSP
| ErrNoEnoughSP
| ErrVGChain.

#[export] Instance vg_error_eq_dec : EqDecision vg_error.
Proof. solve_decision. Defined.

(** [V] is the state of the manager, [E] what a call finds outside it: the clock, the
    answers of the chain, random numbers and orders of iteration.  [None] is a panic. *)
Class VirtualGroupManager (V E : Type) := {
  PickVirtualGroupFamily : E -> list Z -> V -> option (result vg_error VirtualGroupFamilyMeta);
  PickGlobalVirtualGroup : E -> Z -> IDSet -> V -> option (result vg_error GlobalVirtualGroupMeta);
  ForceRefreshMeta : E -> V -> option V;
  GenerateGlobalVirtualGroupMeta : forall {P} `{SPsPolicy P}, P -> IDSet -> V -> option (result vg_error GlobalVirtualGroupMeta);
  FreezeSPAndGVGs : Z -> Z -> list ChainGVG -> V -> V;
  ReleaseAllSP : V -> V
}.

(** What the manager's clients rely on, in states that satisfy [vg_ok] and for calls whose
    surroundings satisfy [env_ok]: no call panics, and an excluded group is not picked. *)
Class VirtualGroupLaws (V E : Type) `{VirtualGroupManager V E} (vg_ok : V -> Prop) (env_ok : E -> Prop) := {
  pick_excluded (e : E) vgfID (exclude : IDSet) (v : V) g :
    env_ok e -> vg_ok v -> PickGlobalVirtualGroup e vgfID exclude v = Some (Ok g) -> gm_ID g ∉ exclude;
  pick_total (e : E) vgfID (exclude : IDSet) (v : V) :
    env_ok e -> vg_ok v -> is_Some (PickGlobalVirtualGroup e vgfID exclude v);
  pick_family_total (e : E) blackListSPs (v : V) :
    env_ok e -> vg_ok v -> is_Some (PickVirtualGroupFamily e blackListSPs v);
  generate_total {P} `{SPsPolicy P} (p : P) exclude (v : V) :
    vg_ok v -> is_Some (GenerateGlobalVirtualGroupMeta p exclude v);
  refresh_total (e : E) (v : V) : env_ok e -> vg_ok v -> exists v', ForceRefreshMeta e v = Some v' /\ vg_ok v';
  freeze_ok now spID gvgs v : vg_ok v -> vg_ok (FreezeSPAndGVGs now spID gvgs v);
  release_ok v : vg_ok v -> vg_ok (ReleaseAllSP v)
}.
