(* ===== verification/VirtualGroup.v ===== *)
(** base/gfspvgmgr: the virtual group manager.  It keeps a copy of the providers and of the
    provider's own families and groups, refreshed from the chain, and picks among them at
    random by free storage; providers that failed are frozen for a while.

    Go maps are finite maps; where the code ranges over one, the order is a function of the
    environment.  [None] is a panic: the pointers to the copies are nil until a refresh has
    succeeded.  Weights are IEEE doubles. *)
From Stdlib Require Import ZArith Lia SpecFloat Ascii.
From stdpp Require Import base gmap list strings sorting option.
From S2P Require Import Prelude TaskTypes VGroup.

Local Open Scope Z_scope.

(** ** sp_freeze_pool.go *)

Record SPStats := mkSPStats { JoinedGVGs : list ChainGVG; FreezeUntil : Z }.

Notation FreezeSPPool := (gmap Z SPStats).

Definition DefaultFreezingPeriodForSP : Z := 5 * 60.

Definition Freeze (now spID : Z) (joinedGVGs : list ChainGVG) (s : FreezeSPPool) : FreezeSPPool :=
  <[spID := mkSPStats joinedGVGs (now + DefaultFreezingPeriodForSP)]> s.

Definition GetFreezeSPIDs (s : FreezeSPPool) : IDSet := dom s.

Definition GetFreezeGVGsInFamily (familyID : Z) (s : FreezeSPPool) : IDSet :=
  list_to_set (map_to_list s ≫= fun '(_, stats) =>
    cg_Id <$> filter (fun g => familyID = cg_FamilyId g) (JoinedGVGs stats)).

Definition ReleaseSP (now : Z) (s : FreezeSPPool) : FreezeSPPool :=
  filter (fun kv => ~ now > FreezeUntil kv.2) s.

(** ** The state *)

Record spManager := mkSPManager { selfSP : ChainSP; otherSPs : list ChainSP }.

Record HealthChecker := mkHealth { sps : gmap Z ChainSP; unhealthySPs : gmap Z ChainSP }.

(** What the manager sends to the chain. *)
Inductive vg_tx :=
| TxDeleteGVG (gvgID : Z)
| TxDeposit (gvgID amount : Z).

Record virtualGroupManager := mkVGM {
  selfOperatorAddress : string;
  selfSPID : Z;
  spMgr : option spManager;
  vgParams : option VGParams;
  vgfIDToVgf : option (gmap Z VirtualGroupFamilyMeta);
  freezeSPPool : FreezeSPPool;
  healthChecker : option HealthChecker;
  gvgGCMap : gmap Z Z;
  txs : list vg_tx;
}.

Definition set_pool (p : FreezeSPPool) (m : virtualGroupManager) : virtualGroupManager :=
  mkVGM (selfOperatorAddress m) (selfSPID m) (spMgr m) (vgParams m) (vgfIDToVgf m) p (healthChecker m) (gvgGCMap m) (txs m).
Definition set_health (h : option HealthChecker) (m : virtualGroupManager) : virtualGroupManager :=
  mkVGM (selfOperatorAddress m) (selfSPID m) (spMgr m) (vgParams m) (vgfIDToVgf m) (freezeSPPool m) h (gvgGCMap m) (txs m).
Definition set_gc (g : gmap Z Z) (m : virtualGroupManager) : virtualGroupManager :=
  mkVGM (selfOperatorAddress m) (selfSPID m) (spMgr m) (vgParams m) (vgfIDToVgf m) (freezeSPPool m) (healthChecker m) g (txs m).
Definition send_tx (t : vg_tx) (m : virtualGroupManager) : virtualGroupManager :=
  mkVGM (selfOperatorAddress m) (selfSPID m) (spMgr m) (vgParams m) (vgfIDToVgf m) (freezeSPPool m) (healthChecker m)
    (gvgGCMap m) (txs m ++ [t]).

(** What a call finds outside.  The chain may answer differently each time it is asked:
    the first argument of [QueryGlobalVirtualGroup] tells the calls apart. *)
Inductive query_at := AtList | AtMonitor | AfterDeposit.

Record vg_env := mkVGEnv {
  ve_now : Z;
  ve_ListSPs : option (list ChainSP);
  ve_QueryVirtualGroupParams : option VGParams;
  ve_ListVirtualGroupFamilies : Z -> option (list (Z * list Z));
  ve_QueryGlobalVirtualGroup : query_at -> Z -> option ChainGVG;
  ve_GetGlobalVirtualGroupByGvgID : Z -> option (option ChainGVG);
  ve_AvailableFamilies : list Z -> option (list Z);
  ve_DeleteGVG : Z -> bool;
  ve_Deposit : Z -> bool;
  ve_StorageParams : option Params;
  ve_healthy : ChainSP -> bool;
  ve_rand : spec_float;
  ve_order : forall A : Type, list A -> list A;
  ve_order2 : forall A : Type, list A -> list A;
}.

(** ** Picking by free storage *)

(** The double nearest to 0.95. *)
Definition MaxStorageUsageRatio : spec_float := S754_finite false 8556839292003942 (-53).

Definition f64_leb (x y : spec_float) : bool := SFleb x y.
Definition f64_ltb (x y : spec_float) : bool := SFltb x y.

Definition usage_full (used staking : Z) : bool :=
  f64_leb (f64_mul MaxStorageUsageRatio (f64 staking)) (f64 used).

Definition free_weight (used staking : Z) : spec_float :=
  f64_div (f64 (uwrap 64 (staking - used))) (f64 staking).

Notation weights := (gmap Z spec_float).

Definition addVirtualGroupFamily (vgf : VirtualGroupFamilyMeta) (w : weights) : weights :=
  if usage_full (fm_FamilyUsedStorageSize vgf) (fm_FamilyStakingStorageSize vgf)
     || (fm_FamilyStakingStorageSize vgf =? 0) then w
  else <[fm_ID vgf := free_weight (fm_FamilyUsedStorageSize vgf) (fm_FamilyStakingStorageSize vgf)]> w.

Definition addGlobalVirtualGroup (gvg : GlobalVirtualGroupMeta) (w : weights) : weights :=
  if usage_full (gm_UsedStorageSize gvg) (gm_StakingStorageSize gvg) then w
  else <[gm_ID gvg := free_weight (gm_UsedStorageSize gvg) (gm_StakingStorageSize gvg)]> w.

Fixpoint pick_loop (pickWeight tempSumWeight : spec_float) (l : list (Z * spec_float)) : option Z :=
  match l with
  | [] => None
  | (key, value) :: l =>
    let tempSumWeight := f64_add tempSumWeight value in
    if f64_ltb pickWeight tempSumWeight then Some key else pick_loop pickWeight tempSumWeight l
  end.

(** The map is ranged over twice, in orders of their own. *)
Definition pickIndex (e : vg_env) (w : weights) : option Z :=
  let sumWeight := foldl (fun s kv => f64_add s kv.2) (f64 0) (ve_order e _ (map_to_list w)) in
  pick_loop (f64_mul (ve_rand e) sumWeight) (f64 0) (ve_order2 e _ (map_to_list w)).

(** ** HealthChecker *)

Definition isSPHealthy (spID : Z) (h : HealthChecker) : bool :=
  match sps h !! spID with
  | Some _ => match unhealthySPs h !! spID with Some _ => false | None => true end
  | None => true
  end.

Definition isGVGHealthy (gvg : GlobalVirtualGroupMeta) (h : HealthChecker) : bool :=
  forallb (fun spID => isSPHealthy spID h) (gm_SecondarySPIDs gvg).

Definition isVGFHealthy (vgf : VirtualGroupFamilyMeta) (h : HealthChecker) : bool :=
  let gvgs := (map_to_list (fm_GVGMap vgf)).*2 in
  if bool_decide (gvgs = []) then true
  else
    let healthyCount := foldl (fun n gvg => if negb (isGVGHealthy gvg h) then n - 1 else n) (Z.of_nat (length gvgs)) gvgs in
    healthyCount >? 0.

Definition addAllSP (l : list ChainSP) (h : HealthChecker) : HealthChecker :=
  mkHealth (foldl (fun m sp => <[sp_Id sp := sp]> m) ∅ l) (unhealthySPs h).

(** A provider in service whose endpoint answers is healthy: [ve_healthy] is the outcome of
    the HTTP requests. *)
Definition checkSPHealth (e : vg_env) (sp : ChainSP) : bool := sp_IsInService sp && ve_healthy e sp.

Definition checkAllSPHealth (e : vg_env) (h : HealthChecker) : HealthChecker :=
  let spTemp := map_to_list (sps h) in
  let unhealthyTemp := filter (fun kv => negb (checkSPHealth e kv.2)) spTemp in
  let cured := filter (fun kv => checkSPHealth e kv.2) spTemp in
  let h := mkHealth (sps h) (foldl (fun m kv => delete (sp_Id kv.2) m) (unhealthySPs h) cured) in
  let unhealthyCnt := Z.of_nat (length unhealthyTemp) in
  if unhealthyCnt =? 0 then h
  else match ve_StorageParams e with
       | None => h
       | Some params =>
         if Z.of_nat (length spTemp) - unhealthyCnt
              >=? uwrap 32 (RedundantDataChunkNum params + RedundantParityChunkNum params)
         then mkHealth (sps h) (foldl (fun m kv => <[sp_Id kv.2 := kv.2]> m) ∅ unhealthyTemp)
         else h
       end.

(** A nil health checker finds everything healthy. *)
Definition healthy {A} (check : A -> HealthChecker -> bool) (a : A) (h : option HealthChecker) : bool :=
  match h with None => true | Some h => check a h end.

(** ** virtualGroupFamilyManager *)

Definition pickVirtualGroupFamily (e : vg_env) (filter_ : option (list Z)) (blackListSPs : list Z)
  (h : option HealthChecker) (vgfs : gmap Z VirtualGroupFamilyMeta) : option (result vg_error VirtualGroupFamilyMeta) :=
  let w := foldl (fun w '(id, f) =>
    if match filter_ with Some ids => negb (CheckVGF ids id) | None => false end then w
    else if negb (CheckByGVG blackListSPs (fm_GVGMap f)) then w
    else if negb (healthy isVGFHealthy f h) then w
    else addVirtualGroupFamily f w) ∅ (map_to_list vgfs) in
  match pickIndex e w with
  | None => Some (Err ErrFailedPickVGF)
  | Some familyID => Ok <$> vgfs !! familyID
  end.

Definition group_weights (frozen exclude : IDSet) (h : option HealthChecker)
  (gvgs : gmap Z GlobalVirtualGroupMeta) : weights :=
  foldl (fun w g =>
    if Apply frozen (gm_ID g) then w
    else if Apply exclude (gm_ID g) then w
    else if negb (healthy isGVGHealthy g h) then w
    else addGlobalVirtualGroup g w) ∅ (map_to_list gvgs).*2.

Definition pickGlobalVirtualGroup (e : vg_env) (vgfID : Z) (frozen exclude : IDSet)
  (h : option HealthChecker) (vgfs : gmap Z VirtualGroupFamilyMeta) : option (result vg_error GlobalVirtualGroupMeta) :=
  match vgfs !! vgfID with
  | None => Some (Err ErrStaledMetadata)
  | Some vgf =>
    match pickIndex e (group_weights frozen exclude h (fm_GVGMap vgf)) with
    | None => Some (Err ErrFailedPickGVG)
    | Some gvgID => Ok <$> fm_GVGMap vgf !! gvgID
    end
  end.

(** [checkFamily] and [checkGVG] are the methods of the filter. *)
Fixpoint migrate_loop (e : vg_env) (vgfFilter : option (list Z)) (checkFamily : Z -> bool)
  (checkGVG : GlobalVirtualGroupMeta -> bool) (l : list (Z * VirtualGroupFamilyMeta))
  : option (result vg_error GlobalVirtualGroupMeta) :=
  match l with
  | [] => Some (Err ErrFailedPickGVG)
  | (vgfID, vgf) :: l =>
    if match vgfFilter with Some ids => negb (CheckVGF ids vgfID) | None => false end
    then migrate_loop e vgfFilter checkFamily checkGVG l
    else if negb (checkFamily vgfID) then migrate_loop e vgfFilter checkFamily checkGVG l
    else
      let w := foldl (fun w gvg => if checkGVG gvg then addGlobalVirtualGroup gvg w else w) ∅
                 (map_to_list (fm_GVGMap vgf)).*2 in
      match pickIndex e w with
      | None => migrate_loop e vgfFilter checkFamily checkGVG l
      | Some gvgID => Ok <$> fm_GVGMap vgf !! gvgID
      end
  end.

Definition pickGlobalVirtualGroupForBucketMigrate (e : vg_env) (vgfFilter : option (list Z)) (checkFamily : Z -> bool)
  (checkGVG : GlobalVirtualGroupMeta -> bool) (vgfs : gmap Z VirtualGroupFamilyMeta)
  : option (result vg_error GlobalVirtualGroupMeta) :=
  migrate_loop e vgfFilter checkFamily checkGVG (ve_order e _ (map_to_list vgfs)).

(** ** spManager *)

Definition DefaultInitialGVGStakingStorageSize : Z := 256 * 2 ^ 30.

Definition generateVirtualGroupMeta {P} `{SPsPolicy P} (genPolicy : P) (frozen exclude : IDSet)
  (h : option HealthChecker) (sm : spManager) : result vg_error GlobalVirtualGroupMeta :=
  let genPolicy := foldl (fun p sp =>
    if negb (sp_IsInService sp) then p
    else if Apply frozen (sp_Id sp) then p
    else if Apply exclude (sp_Id sp) then p
    else if negb (healthy isSPHealthy (sp_Id sp) h) then p
    else AddCandidateSP (sp_Id sp) p) genPolicy (otherSPs sm) in
  match GenerateGVGSecondarySPs genPolicy with
  | None => Err ErrNoEnoughSP
  | Some secondarySPIDs =>
    Ok (mkGVGMeta 0 0 (sp_Id (selfSP sm)) secondarySPIDs [] 0 DefaultInitialGVGStakingStorageSize)
  end.

Definition pickSPByFilter (check : Z -> bool) (h : option HealthChecker) (sm : spManager) : result vg_error ChainSP :=
  match list_find (fun sp => sp_IsInService sp && healthy isSPHealthy (sp_Id sp) h && check (sp_Id sp)) (otherSPs sm) with
  | Some (_, sp) => Ok sp
  | None => Err ErrFailedPickDestSP
  end.

Definition querySPByID (spID : Z) (sm : spManager) : result vg_error ChainSP :=
  if sp_Id (selfSP sm) =? spID then Ok (selfSP sm)
  else match list_find (fun sp => sp_Id sp = spID) (otherSPs sm) with
       | Some (_, sp) => Ok sp
       | None => Err ErrFailedPickDestSP
       end.

(** ** monitorGVGUsage *)

(** util/virtual_group.go; a price of zero panics. *)
Definition TotalStakingStoreSizeOfGVG (gvg : ChainGVG) (stakingPerBytes : Z) : option Z :=
  if stakingPerBytes =? 0 then None
  else
    let total := Z.quot (cg_TotalDeposit gvg) stakingPerBytes in
    Some (if (0 <=? total) && (total <=? MaxUint64) then total else MaxUint64).

Definition needDeposit (gvg : ChainGVG) (params : VGParams) : option bool :=
  staking ← TotalStakingStoreSizeOfGVG gvg (vp_GvgStakingPerBytes params);
  Some (usage_full (cg_StoredSize gvg) staking).

Definition isEmpty (gvg : ChainGVG) : bool := cg_StoredSize gvg =? 0.

Definition emptyGVGSafeDeletePeriod : Z := 60 * 60 * 24.
Definition additionalGVGStakingStorageSize : Z := 512 * 2 ^ 30.

(** deposited, deleted and whether an error is returned *)
Record monitored := mkMonitored { m_deposited : bool; m_deleted : bool; m_err : bool }.
Definition nothing : monitored := mkMonitored false false false.
Definition failed : monitored := mkMonitored false false true.

(** Entries whose time to delete has passed by more than a minute are dropped. *)
Definition sweep (curTime : Z) (m : gmap Z Z) : gmap Z Z := filter (fun kv => ~ curTime > kv.2 + 60) m.

Definition monitor_empty (e : vg_env) (gvg : ChainGVG) (m : virtualGroupManager) : virtualGroupManager * monitored :=
  let curTime := ve_now e in
  match gvgGCMap m !! cg_Id gvg with
  | None => (set_gc (<[cg_Id gvg := curTime + emptyGVGSafeDeletePeriod]> (gvgGCMap m)) m, nothing)
  | Some safeDeleteTime =>
    if curTime <? safeDeleteTime then (m, nothing)
    else
      let m := send_tx (TxDeleteGVG (cg_Id gvg)) m in
      if ve_DeleteGVG e (cg_Id gvg)
      then (set_gc (delete (cg_Id gvg) (gvgGCMap m)) m, mkMonitored false true false)
      else (m, failed)
  end.

Definition deposit (e : vg_env) (gvg : ChainGVG) (params : VGParams) (m : virtualGroupManager)
  : virtualGroupManager * monitored :=
  let amount := vp_GvgStakingPerBytes params * additionalGVGStakingStorageSize in
  let m := send_tx (TxDeposit (cg_Id gvg) amount) m in
  if ve_Deposit e (cg_Id gvg) then (m, mkMonitored true false false) else (m, failed).

Definition monitorGVGUsage (e : vg_env) (gvg : ChainGVG) (params : VGParams) (byChain : bool) (m : virtualGroupManager)
  : option (virtualGroupManager * monitored) :=
  if isEmpty gvg then
    let m := set_gc (sweep (ve_now e) (gvgGCMap m)) m in
    if byChain then Some (monitor_empty e gvg m)
    else match ve_QueryGlobalVirtualGroup e AtMonitor (cg_Id gvg) with
         | None => Some (m, failed)
         | Some gvg => if negb (isEmpty gvg) then Some (m, nothing) else Some (monitor_empty e gvg m)
         end
  else
    need ← needDeposit gvg params;
    if negb need then Some (m, nothing)
    else if byChain then Some (deposit e gvg params m)
    else match ve_QueryGlobalVirtualGroup e AtMonitor (cg_Id gvg) with
         | None => Some (m, failed)
         | Some gvg' =>
           need' ← needDeposit gvg' params;
           if negb need' then Some (m, nothing) else Some (deposit e gvg params m)
         end.

(** ** refreshGVGMeta *)

(** strings.EqualFold, on the ASCII letters an address has. *)
Definition fold_char (c : ascii) : ascii :=
  let n := N_of_ascii c in
  if ((65 <=? n) && (n <=? 90))%N then ascii_of_N (n + 32) else c.
Fixpoint fold_string (s : string) : string :=
  match s with EmptyString => EmptyString | String c s => String (fold_char c) (fold_string s) end.
Definition EqualFold (s t : string) : bool := bool_decide (fold_string s = fold_string t).

Definition by_id (a b : ChainSP) : Prop := sp_Id a <= sp_Id b.
#[export] Instance by_id_dec : RelDecision by_id.
Proof. intros a b. unfold by_id. apply _. Defined.

(** The loop that finds the provider itself: [append(spList[:i], spList[i+1:]...)] moves the
    rest of the array down, and the loop goes on reading the same array.  The result is the
    provider and the others. *)
Fixpoint find_self (n i : nat) (self : string) (arr : list ChainSP) (found : option (ChainSP * list ChainSP))
  : option (ChainSP * list ChainSP) :=
  match n with
  | O => found
  | S n =>
    match arr !! i with
    | None => found
    | Some sp =>
      if EqualFold self (sp_OperatorAddress sp) then
        let rest := take i arr ++ drop (S i) arr in
        find_self n (S i) self (rest ++ drop (length arr - 1) arr) (Some (sp, rest))
      else find_self n (S i) self arr found
    end
  end.

(** GetEndpoint of a nil pointer is empty. *)
Definition toSPEndpoints (spMap : gmap Z ChainSP) (spIDs : list Z) : list string :=
  (fun id => match spMap !! id with Some sp => sp_Endpoint sp | None => ""%string end) <$> spIDs.

Definition add_group (gvgMeta : GlobalVirtualGroupMeta) (vgf : VirtualGroupFamilyMeta) : VirtualGroupFamilyMeta :=
  mkVGFMeta (fm_ID vgf) (fm_PrimarySPID vgf)
    (uwrap 64 (fm_FamilyUsedStorageSize vgf + gm_UsedStorageSize gvgMeta))
    (uwrap 64 (fm_FamilyStakingStorageSize vgf + gm_StakingStorageSize gvgMeta))
    (<[gm_ID gvgMeta := gvgMeta]> (fm_GVGMap vgf)).

(** The group of an id, or nil, or a failed query. *)
Definition group_of (e : vg_env) (byChain : bool) (gvgID : Z) : option (option ChainGVG) :=
  if byChain then Some <$> ve_QueryGlobalVirtualGroup e AtList gvgID
  else ve_GetGlobalVirtualGroupByGvgID e gvgID.

(** The groups of a family; the inner [None] is an early return. *)
Fixpoint refresh_groups (e : vg_env) (byChain : bool) (spMap : gmap Z ChainSP) (spID : Z) (params : VGParams)
  (gvgIDs : list Z) (vgf : VirtualGroupFamilyMeta) (m : virtualGroupManager)
  : option (virtualGroupManager * option VirtualGroupFamilyMeta) :=
  match gvgIDs with
  | [] => Some (m, Some vgf)
  | gvgID :: gvgIDs =>
    match group_of e byChain gvgID with
    | None => Some (m, None)
    | Some None => refresh_groups e byChain spMap spID params gvgIDs vgf m
    | Some (Some gvg) =>
      '(m, r) ← monitorGVGUsage e gvg params byChain m;
      if m_err r then Some (m, None)
      else if m_deleted r then refresh_groups e byChain spMap spID params gvgIDs vgf m
      else match (if m_deposited r then ve_QueryGlobalVirtualGroup e AfterDeposit (cg_Id gvg) else Some gvg) with
           | None => Some (m, None)
           | Some gvg =>
             staking ← TotalStakingStoreSizeOfGVG gvg (vp_GvgStakingPerBytes params);
             let gvgMeta := mkGVGMeta (cg_Id gvg) (fm_ID vgf) spID (cg_SecondarySpIds gvg)
               (toSPEndpoints spMap (cg_SecondarySpIds gvg)) (cg_StoredSize gvg) staking in
             refresh_groups e byChain spMap spID params gvgIDs (add_group gvgMeta vgf) m
           end
    end
  end.

Fixpoint refresh_families (e : vg_env) (byChain : bool) (spMap : gmap Z ChainSP) (spID : Z) (params : VGParams)
  (vgfList : list (Z * list Z)) (vgfs : gmap Z VirtualGroupFamilyMeta) (m : virtualGroupManager)
  : option (virtualGroupManager * option (gmap Z VirtualGroupFamilyMeta)) :=
  match vgfList with
  | [] => Some (m, Some vgfs)
  | (vgfID, gvgIDs) :: vgfList =>
    '(m, r) ← refresh_groups e byChain spMap spID params gvgIDs (mkVGFMeta vgfID spID 0 0 ∅) m;
    match r with
    | None => Some (m, None)
    | Some vgf => refresh_families e byChain spMap spID params vgfList (<[vgfID := vgf]> vgfs) m
    end
  end.

Definition refreshGVGMeta (e : vg_env) (byChain : bool) (m : virtualGroupManager) : option virtualGroupManager :=
  match ve_ListSPs e with
  | None => Some m
  | Some spList =>
    let spList := merge_sort by_id (ve_order e _ spList) in
    let spMap : gmap Z ChainSP := foldl (fun mp sp => <[sp_Id sp := sp]> mp) ∅ spList in
    let found := find_self (length spList) 0 (selfOperatorAddress m) spList None in
    let spID := match found with Some (sp, _) => sp_Id sp | None => 0 end in
    let others := match found with Some (_, l) => l | None => [] end in
    let m := set_health (addAllSP others <$> healthChecker m) m in
    match found with
    | None => Some m
    | Some (self, otherSPList) =>
      if spID =? 0 then Some m
      else match ve_QueryVirtualGroupParams e with
      | None => Some m
      | Some params =>
        match ve_ListVirtualGroupFamilies e spID with
        | None => Some m
        | Some vgfList =>
          '(m, r) ← refresh_families e byChain spMap spID params vgfList ∅ m;
          match r with
          | None => Some m
          | Some vgfs =>
            Some (mkVGM (selfOperatorAddress m) spID (Some (mkSPManager self otherSPList)) (Some params) (Some vgfs)
                    (freezeSPPool m) (healthChecker m) (gvgGCMap m) (txs m))
          end
        end
      end
    end
  end.

Definition NewVirtualGroupManager (e : vg_env) (operator : string) (enableHealthyChecker : bool)
  : option virtualGroupManager :=
  refreshGVGMeta e true (mkVGM operator 0 None None None ∅
    (if enableHealthyChecker then Some (mkHealth ∅ ∅) else None) ∅ []).

(** One round of releaseSPAndGVGLoop. *)
Definition release_round (e : vg_env) (m : virtualGroupManager) : virtualGroupManager :=
  match spMgr m with
  | None => m
  | Some sm =>
    let m := set_pool (ReleaseSP (ve_now e) (freezeSPPool m)) m in
    let aliveSP := filter (fun sp => sp_IsInService sp) (otherSPs sm) in
    match ve_StorageParams e with
    | None => m
    | Some params =>
      if Z.of_nat (length aliveSP) - Z.of_nat (size (GetFreezeSPIDs (freezeSPPool m)))
           <? uwrap 32 (RedundantDataChunkNum params + RedundantParityChunkNum params)
      then set_pool ∅ m else m
    end
  end.

(** ** The methods of the interface *)

(** A failed query of the available families means no filter. *)
Definition genVgfFilter (e : vg_env) (vgfs : gmap Z VirtualGroupFamilyMeta) : result vg_error (option (list Z)) :=
  let vgfIDs := ve_order e _ (map_to_list vgfs).*1 in
  if bool_decide (vgfIDs = []) then Err ErrFailedPickVGF else Ok (ve_AvailableFamilies e vgfIDs).

Definition PickMigrate (e : vg_env) (checkFamily : Z -> bool) (checkGVG : GlobalVirtualGroupMeta -> bool)
  (m : virtualGroupManager) : option (result vg_error GlobalVirtualGroupMeta) :=
  vgfs ← vgfIDToVgf m;
  match genVgfFilter e vgfs with
  | Err err => Some (Err err)
  | Ok vgfFilter => pickGlobalVirtualGroupForBucketMigrate e vgfFilter checkFamily checkGVG vgfs
  end.

Definition PickSPByFilter (check : Z -> bool) (m : virtualGroupManager) : option (result vg_error ChainSP) :=
  sm ← spMgr m; Some (pickSPByFilter check (healthChecker m) sm).

(** [chain] is the answer of QuerySPByID of the chain. *)
Definition QuerySPByID (chain : Z -> option ChainSP) (spID : Z) (m : virtualGroupManager) : option (result vg_error ChainSP) :=
  sm ← spMgr m;
  match querySPByID spID sm with
  | Ok sp => Some (Ok sp)
  | Err _ => Some (match chain spID with Some sp => Ok sp | None => Err ErrVGChain end)
  end.

(** The lock is taken again between the filter and the pick, so a refresh may come
    between them: the two copies of the families may differ.  Here they are one. *)
#[export] Instance virtual_groups : VirtualGroupManager virtualGroupManager vg_env := {
  PickVirtualGroupFamily e blackListSPs m :=
    vgfs ← vgfIDToVgf m;
    match genVgfFilter e vgfs with
    | Err err => Some (Err err)
    | Ok filter_ => pickVirtualGroupFamily e filter_ blackListSPs (healthChecker m) vgfs
    end;
  PickGlobalVirtualGroup e vgfID exclude m :=
    vgfs ← vgfIDToVgf m;
    pickGlobalVirtualGroup e vgfID (GetFreezeGVGsInFamily vgfID (freezeSPPool m)) exclude (healthChecker m) vgfs;
  ForceRefreshMeta e m := refreshGVGMeta e true m;
  GenerateGlobalVirtualGroupMeta P _ genPolicy exclude m :=
    sm ← spMgr m;
    Some (generateVirtualGroupMeta genPolicy (GetFreezeSPIDs (freezeSPPool m)) exclude (healthChecker m) sm);
  FreezeSPAndGVGs now spID gvgs m := set_pool (Freeze now spID gvgs (freezeSPPool m)) m;
  ReleaseAllSP m := set_pool ∅ m
}.
