(* ===== verification/VirtualGroupProps.v ===== *)
(** Properties of the virtual group manager: what it picks may be used, a frozen provider
    is left alone, a new group has distinct providers that may serve it, and a group is
    deleted only when it is empty. *)
From Stdlib Require Import ZArith Lia SpecFloat.
From stdpp Require Import base gmap list strings sorting option relations.
From S2P Require Import Prelude TaskTypes VGroup VirtualGroup.

Local Open Scope Z_scope.

(** ** Lemmas *)

Lemma pick_loop_in pw ts l id : pick_loop pw ts l = Some id -> id ∈ l.*1.
Proof.
  revert ts. induction l as [|[k v] l IH]; intros ts; [done|]. cbn.
  destruct (f64_ltb _ _); [intros [= ->]; left|]. intros H%IH. by right.
Qed.

(** The iteration orders are permutations. *)
Definition orders_ok (e : vg_env) : Prop :=
  (forall A (l : list A), ve_order e A l ≡ₚ l) /\ (forall A (l : list A), ve_order2 e A l ≡ₚ l).

Lemma pickIndex_in e w id : orders_ok e -> pickIndex e w = Some id -> is_Some (w !! id).
Proof.
  intros [_ Ho] H%pick_loop_in. rewrite (Ho _ (map_to_list w)) in H.
  apply list_elem_of_fmap in H as ([k v] & -> & Hkv%elem_of_map_to_list). eauto.
Qed.

Definition group_usable (frozen exclude : IDSet) (h : option HealthChecker) (g : GlobalVirtualGroupMeta) : Prop :=
  gm_ID g ∉ frozen /\ gm_ID g ∉ exclude /\ healthy isGVGHealthy g h = true /\
  usage_full (gm_UsedStorageSize g) (gm_StakingStorageSize g) = false.

(** The weights are those of the usable groups. *)
Lemma group_weights_in frozen exclude h gvgs id :
  is_Some (group_weights frozen exclude h gvgs !! id) ->
  exists k g, gvgs !! k = Some g /\ gm_ID g = id /\ group_usable frozen exclude h g.
Proof.
  unfold group_weights. intros H.
  assert (exists g, g ∈ (map_to_list gvgs).*2 /\ gm_ID g = id /\ group_usable frozen exclude h g) as (g & Hg & ? & ?).
  { remember (map_to_list gvgs).*2 as l eqn:El. clear El.
    assert (forall w : weights, is_Some (foldl (fun w g =>
      if Apply frozen (gm_ID g) then w else if Apply exclude (gm_ID g) then w
      else if negb (healthy isGVGHealthy g h) then w else addGlobalVirtualGroup g w) w l !! id) ->
      is_Some (w !! id) \/ exists g, g ∈ l /\ gm_ID g = id /\ group_usable frozen exclude h g) as Hl.
    2: { destruct (Hl ∅ H) as [[? H0]|]; [by rewrite lookup_empty in H0|done]. }
    clear H. induction l as [|g l IH]; intros w Hw; [by left|]. cbn in Hw.
    apply IH in Hw as [Hw|(g' & ? & ? & ?)]; [|right; exists g'; split_and!; [by right|done..]].
    unfold Apply in Hw. case_bool_decide; [by left|]. case_bool_decide; [by left|].
    destruct (healthy isGVGHealthy g h) eqn:Eh; [|by left]. cbn in Hw. unfold addGlobalVirtualGroup in Hw.
    destruct (usage_full _ _) eqn:Eu; [by left|].
    destruct (decide (gm_ID g = id)) as [E|E].
    - right. exists g. split_and!; [by left|done|]. done.
    - rewrite lookup_insert_ne in Hw by done. by left. }
  apply list_elem_of_fmap in Hg as ([k g'] & -> & Hk%elem_of_map_to_list). eauto.
Qed.

(** The copy of the chain is indexed by its own ids, and all of it belongs to this provider. *)
Definition family_ok (spID k : Z) (vgf : VirtualGroupFamilyMeta) : Prop :=
  fm_ID vgf = k /\ fm_PrimarySPID vgf = spID /\
  map_Forall (fun j g => gm_ID g = j /\ gm_FamilyID g = k /\ gm_PrimarySPID g = spID) (fm_GVGMap vgf).

Definition vg_wf (m : virtualGroupManager) : Prop :=
  match vgfIDToVgf m with
  | None => True
  | Some vgfs => map_Forall (family_ok (selfSPID m)) vgfs
  end.

(** Monitoring a group leaves the copies alone. *)
Definition same_copies (m m' : virtualGroupManager) : Prop :=
  selfSPID m' = selfSPID m /\ spMgr m' = spMgr m /\ vgfIDToVgf m' = vgfIDToVgf m /\
  selfOperatorAddress m' = selfOperatorAddress m /\ freezeSPPool m' = freezeSPPool m /\ healthChecker m' = healthChecker m.

#[export] Instance same_copies_preorder : PreOrder same_copies.
Proof.
  split; [done|]. intros a b c (? & ? & ? & ? & ? & ?) (? & ? & ? & ? & ? & ?).
  split_and!; congruence.
Qed.

Lemma monitor_copies e gvg params byChain m m' r :
  monitorGVGUsage e gvg params byChain m = Some (m', r) -> same_copies m m'.
Proof.
  unfold monitorGVGUsage, monitor_empty, deposit. intros H.
  repeat (case_match; simplify_option_eq; try done).
Qed.

Lemma refresh_groups_ok e byChain spMap spID params gvgIDs vgf m m' r :
  refresh_groups e byChain spMap spID params gvgIDs vgf m = Some (m', r) ->
  family_ok spID (fm_ID vgf) vgf ->
  same_copies m m' /\ forall vgf', r = Some vgf' -> family_ok spID (fm_ID vgf) vgf'.
Proof.
  revert vgf m. induction gvgIDs as [|gvgID gvgIDs IH]; intros vgf m; cbn [refresh_groups].
  { intros [= <- <-] Hf. split; [done|]. by intros ? [= <-]. }
  destruct (group_of e byChain gvgID) as [[gvg|]|]; [|by apply IH|by intros [= <- <-]].
  destruct (monitorGVGUsage e gvg params byChain m) as [[m1 r1]|] eqn:Em; [|done]. cbn.
  apply monitor_copies in Em. intros H Hf.
  destruct (m_err r1); [by simplify_eq|]. destruct (m_deleted r1).
  { apply IH in H as [Hm Hr]; [|done]. split; [by etrans|done]. }
  destruct (if m_deposited r1 then _ else _) as [gvg'|]; [|by simplify_eq].
  destruct (TotalStakingStoreSizeOfGVG _ _) as [staking|]; [|done]. cbn in H.
  apply IH in H as [Hm Hr]; [by split; [etrans|]|]. cbn. destruct Hf as (? & ? & Hg).
  split_and!; [done..|]. by apply map_Forall_insert_2.
Qed.

Lemma refresh_families_ok e byChain spMap spID params vgfList vgfs m m' r :
  refresh_families e byChain spMap spID params vgfList vgfs m = Some (m', r) ->
  map_Forall (family_ok spID) vgfs ->
  same_copies m m' /\ forall vgfs', r = Some vgfs' -> map_Forall (family_ok spID) vgfs'.
Proof.
  revert vgfs m. induction vgfList as [|[vgfID gvgIDs] vgfList IH]; intros vgfs m; cbn [refresh_families].
  { intros [= <- <-] Hf. split; [done|]. by intros ? [= <-]. }
  destruct (refresh_groups _ _ _ _ _ _ _ _) as [[m1 r1]|] eqn:Eg; [|done]. cbn. intros H Hf.
  apply refresh_groups_ok in Eg as [Hm Hr]; [|done]. destruct r1 as [vgf|]; [|by simplify_eq].
  apply IH in H as [Hm' Hr']; [by split; [etrans|]|]. apply map_Forall_insert_2; [|done]. by apply Hr.
Qed.

Lemma refresh_wf e byChain m m' : vg_wf m -> refreshGVGMeta e byChain m = Some m' -> vg_wf m'.
Proof.
  intros Hm. unfold refreshGVGMeta. destruct (ve_ListSPs e) as [spList|]; [|by intros [= <-]]. cbv zeta.
  destruct (find_self _ _ _ _ _) as [[self others]|]; [|by intros [= <-]].
  destruct (_ =? 0); [by intros [= <-]|]. destruct (ve_QueryVirtualGroupParams e); [|by intros [= <-]].
  destruct (ve_ListVirtualGroupFamilies e _); [|by intros [= <-]].
  destruct (refresh_families _ _ _ _ _ _ _ _) as [[m1 r]|] eqn:Er; [|done]. cbn.
  apply refresh_families_ok in Er as [(E1 & _ & E3 & _) Hr]; [|done].
  destruct r as [vgfs|]; intros [= <-].
  - unfold vg_wf. cbn. by apply Hr.
  - unfold vg_wf in *. rewrite E3, E1. done.
Qed.

Lemma pick_usable e vgfID exclude m g :
  orders_ok e -> vg_wf m -> PickGlobalVirtualGroup e vgfID exclude m = Some (Ok g) ->
  exists vgfs vgf, vgfIDToVgf m = Some vgfs /\ vgfs !! vgfID = Some vgf /\ fm_GVGMap vgf !! gm_ID g = Some g /\
    gm_FamilyID g = vgfID /\ gm_PrimarySPID g = selfSPID m /\
    group_usable (GetFreezeGVGsInFamily vgfID (freezeSPPool m)) exclude (healthChecker m) g.
Proof.
  intros Ho Hm. unfold vg_wf in Hm. cbn. destruct (vgfIDToVgf m) as [vgfs|]; [|done]. cbn.
  unfold pickGlobalVirtualGroup. destruct (vgfs !! vgfID) as [vgf|] eqn:Ef; [|done].
  destruct (pickIndex _ _) as [id|] eqn:Ep; [|done]. destruct (fm_GVGMap vgf !! id) as [g'|] eqn:Eg; [|done].
  intros [= ->]. apply pickIndex_in in Ep; [|done].
  destruct (Hm _ _ Ef) as (Eid & Esp & Hg). pose proof (Hg _ _ Eg) as (Eg1 & Eg2 & Eg3).
  apply group_weights_in in Ep as (k & g' & Hk & <- & Hu).
  pose proof (Hg _ _ Hk) as (Ek & _). rewrite <-Ek, Eg in Hk. injection Hk as <-.
  exists vgfs, vgf. split_and!; done || congruence.
Qed.

Lemma elem_of_frozen vgfID (pool : FreezeSPPool) spID stats j :
  pool !! spID = Some stats -> j ∈ JoinedGVGs stats -> cg_FamilyId j = vgfID ->
  cg_Id j ∈ GetFreezeGVGsInFamily vgfID pool.
Proof.
  intros Hs Hj Hf. unfold GetFreezeGVGsInFamily. rewrite elem_of_list_to_set, list_elem_of_bind.
  exists (spID, stats). split; [|by apply elem_of_map_to_list]. apply list_elem_of_fmap. exists j. split; [done|].
  by apply list_elem_of_filter.
Qed.

(** ** What is picked *)

(** C11: What [PickGlobalVirtualGroup] returns is a group of the family that was asked for, of
    this provider, that no frozen provider has joined, that is not on the black list of the
    caller, whose secondaries are all healthy, and whose storage is used below the ratio. *)
Theorem picked_group_usable e vgfID exclude m g :
  orders_ok e -> vg_wf m ->
  PickGlobalVirtualGroup e vgfID exclude m = Some (Ok g) ->
  exists vgfs vgf, vgfIDToVgf m = Some vgfs /\ vgfs !! vgfID = Some vgf /\ fm_GVGMap vgf !! gm_ID g = Some g /\
    gm_FamilyID g = vgfID /\ gm_PrimarySPID g = selfSPID m /\
    (forall spID stats j, freezeSPPool m !! spID = Some stats -> j ∈ JoinedGVGs stats ->
       cg_FamilyId j = vgfID -> cg_Id j <> gm_ID g) /\
    gm_ID g ∉ exclude /\ (forall h spID, healthChecker m = Some h -> spID ∈ gm_SecondarySPIDs g -> isSPHealthy spID h = true) /\
    usage_full (gm_UsedStorageSize g) (gm_StakingStorageSize g) = false.
Proof.
  intros Ho Hm Hp. destruct (pick_usable _ _ _ _ _ Ho Hm Hp) as (vgfs & vgf & ? & ? & ? & ? & ? & Hf & ? & Hh & ?).
  exists vgfs, vgf. split_and!; try done.
  - intros spID stats j Hs Hj Hfam E. apply Hf. rewrite <-E. by eapply elem_of_frozen.
  - intros h spID Eh Hin. rewrite Eh in Hh. cbn in Hh. unfold isGVGHealthy in Hh.
    rewrite forallb_forall in Hh. apply Hh. by apply list_elem_of_In.
Qed.

(** ** New groups *)

Lemma elem_of_take_list {A} (x : A) n l : x ∈ take n l -> x ∈ l.
Proof. intros (i & Hi & _)%elem_of_take. by eapply list_elem_of_lookup_2. Qed.

(** A provider that may become a secondary of a new group. *)
Definition candidate (frozen exclude : IDSet) (h : option HealthChecker) (sp : ChainSP) : bool :=
  sp_IsInService sp && negb (Apply frozen (sp_Id sp)) && negb (Apply exclude (sp_Id sp)) && healthy isSPHealthy (sp_Id sp) h.

Lemma candidate_true frozen exclude h sp :
  candidate frozen exclude h sp = true <->
  sp_IsInService sp = true /\ sp_Id sp ∉ frozen /\ sp_Id sp ∉ exclude /\ healthy isSPHealthy (sp_Id sp) h = true.
Proof.
  unfold candidate, Apply. rewrite !andb_true_iff, !negb_true_iff, !bool_decide_eq_false. tauto.
Qed.

Lemma candidates_fold frozen exclude h l n P a b :
  foldl (fun p sp =>
    if negb (sp_IsInService sp) then p
    else if Apply frozen (sp_Id sp) then p
    else if Apply exclude (sp_Id sp) then p
    else if negb (healthy isSPHealthy (sp_Id sp) h) then p
    else AddCandidateSP (sp_Id sp) p) (mkByPrefer n P a b) l =
  let ids := sp_Id <$> filter (fun sp => candidate frozen exclude h sp) l in
  mkByPrefer n P (a ++ filter (fun id => id ∈ P) ids) (b ++ filter (fun id => id ∉ P) ids).
Proof.
  revert a b. induction l as [|sp l IH]; intros a b; cbn [foldl].
  { by rewrite !app_nil_r. }
  assert (candidate frozen exclude h sp = false ->
    filter (fun sp => candidate frozen exclude h sp) (sp :: l) = filter (fun sp => candidate frozen exclude h sp) l) as Hskip.
  { intros E. apply filter_cons_False. rewrite E. by intros []. }
  unfold candidate in Hskip at 1.
  destruct (sp_IsInService sp) eqn:E1; cbn [negb] in *; [|rewrite Hskip by done; apply IH].
  destruct (Apply frozen (sp_Id sp)) eqn:E2; [rewrite Hskip by done; apply IH|].
  destruct (Apply exclude (sp_Id sp)) eqn:E3; [rewrite Hskip by done; apply IH|].
  destruct (healthy isSPHealthy (sp_Id sp) h) eqn:E4; cbn [negb]; [|rewrite Hskip by done; apply IH].
  rewrite filter_cons_True; [|by unfold candidate; rewrite E1, E2, E3, E4]. cbn [fmap list_fmap].
  cbv zeta. rewrite !filter_cons. cbn [AddCandidateSP by_prefer_policy preferSPIDMap].
  case_bool_decide as Hp.
  - rewrite IH. cbv zeta. cbn. rewrite decide_True, decide_False by naive_solver. by rewrite <-app_assoc.
  - rewrite IH. cbv zeta. cbn. rewrite decide_False, decide_True by naive_solver. by rewrite <-app_assoc.
Qed.

(** A new group consists of the number of secondaries the chain asks for: distinct
    providers other than the first one that are in service, not frozen, not black-listed
    and not known to be unhealthy, preferred ones before the others.  There is an error
    exactly if there are fewer such providers. *)
Theorem new_group_members (m : virtualGroupManager) sm p prefer exclude r :
  spMgr m = Some sm -> NoDup (sp_Id <$> otherSPs sm) ->
  GenerateGlobalVirtualGroupMeta (NewGenerateGVGSecondarySPsPolicyByPrefer p prefer) exclude m = Some r ->
  let n := Z.to_nat (uwrap 32 (RedundantDataChunkNum p + RedundantParityChunkNum p)) in
  let usable id := exists sp, sp ∈ otherSPs sm /\ sp_Id sp = id /\
    candidate (GetFreezeSPIDs (freezeSPPool m)) exclude (healthChecker m) sp = true in
  match r with
  | Ok g =>
    gm_PrimarySPID g = sp_Id (selfSP sm) /\ length (gm_SecondarySPIDs g) = n /\ NoDup (gm_SecondarySPIDs g) /\
    (forall id, id ∈ gm_SecondarySPIDs g -> usable id) /\
    (forall id id', usable id -> id ∈ prefer -> id' ∈ gm_SecondarySPIDs g -> id' ∉ prefer -> id ∈ gm_SecondarySPIDs g)
  | Err err => err = ErrNoEnoughSP /\
      (length (filter (fun sp => candidate (GetFreezeSPIDs (freezeSPPool m)) exclude (healthChecker m) sp) (otherSPs sm)) < n)%nat
  end.
Proof.
  intros Esm Hnd. cbn. rewrite Esm. cbn. intros [= <-]. unfold generateVirtualGroupMeta.
  unfold NewGenerateGVGSecondarySPsPolicyByPrefer. rewrite candidates_fold. cbv zeta.
  set (F := GetFreezeSPIDs _). set (h := healthChecker m). rewrite !app_nil_l.
  set (ids := sp_Id <$> filter (fun sp => candidate F exclude h sp) (otherSPs sm)).
  set (P := list_to_set prefer : gset Z). set (w := uwrap 32 _).
  assert (0 <= w) by (apply Z.mod_pos_bound; lia).
  assert (NoDup ids) as Hids.
  { eapply sublist_NoDup; [done|]. apply fmap_sublist, sublist_filter. }
  assert (filter (fun id => id ∈ P) ids ++ filter (fun id => id ∉ P) ids ≡ₚ ids) as Hperm
    by apply filter_app_complement.
  pose proof (Permutation_length Hperm) as Hlen. rewrite length_app in Hlen.
  assert (forall id, id ∈ ids <-> exists sp, sp ∈ otherSPs sm /\ sp_Id sp = id /\ candidate F exclude h sp = true) as Hin.
  { intros id. unfold ids. rewrite list_elem_of_fmap. setoid_rewrite list_elem_of_filter. split.
    - intros (sp & -> & ? & ?). exists sp. split_and!; [done..|]. by apply Is_true_true_1.
    - intros (sp & ? & <- & ?). exists sp. split_and!; [done| |done]. by apply Is_true_true_2. }
  cbn [GenerateGVGSecondarySPs by_prefer_policy expectedSecondarySPNumber preferSPIDList backupSPIDList].
  rewrite Z.gtb_ltb. destruct (Z.ltb_spec (Z.of_nat (length (filter (fun id => id ∈ P) ids)) +
    Z.of_nat (length (filter (fun id => id ∉ P) ids))) w) as [E|E].
  { split; [done|]. rewrite <-(length_fmap sp_Id). fold ids. lia. }
  cbn. set (fs := filter (fun id => id ∈ P) ids) in *. set (bs := filter (fun id => id ∉ P) ids) in *.
  split_and!; [done| | | |].
  - rewrite length_take, length_app. lia.
  - eapply sublist_NoDup; [|apply sublist_take]. by rewrite Hperm.
  - intros id Hid. apply Hin. rewrite <-Hperm. by apply elem_of_take_list in Hid.
  - intros id id' Hu Hp Hid' Hp'. apply Hin in Hu.
    assert (id ∈ fs) as Hfs by (apply list_elem_of_filter; split; [by apply elem_of_list_to_set|done]).
    rewrite take_app in Hid'. apply elem_of_app in Hid' as [Hid'|Hid'].
    { apply elem_of_take_list, list_elem_of_filter in Hid' as [Hid' _]. by apply elem_of_list_to_set in Hid'. }
    rewrite take_app. apply elem_of_app. left. rewrite take_ge; [done|].
    destruct (Z.to_nat w - length fs)%nat eqn:Ez; [by apply not_elem_of_nil in Hid'|lia].
Qed.

(** ** Deleting empty groups *)

Lemma app_one_ne {A} (l : list A) x : l = l ++ [x] -> False.
Proof. intros E. apply (f_equal length) in E. rewrite length_app in E. cbn in E. lia. Qed.

(** The group as [monitorGVGUsage] sees it in the end: off the chain, it asks the chain. *)
Definition seen_group (e : vg_env) (gvg : ChainGVG) (byChain : bool) : option ChainGVG :=
  if byChain then Some gvg else ve_QueryGlobalVirtualGroup e AtMonitor (cg_Id gvg).

(** Runs of the manager from a new one, as far as groups are monitored: when which group
    was seen. *)
Inductive monitored_run : list (Z * ChainGVG) -> virtualGroupManager -> Prop :=
| run_new m : gvgGCMap m = ∅ -> txs m = [] -> monitored_run [] m
| run_monitor h m e gvg params byChain m' r :
    monitored_run h m -> monitorGVGUsage e gvg params byChain m = Some (m', r) ->
    monitored_run (h ++ match seen_group e gvg byChain with Some g => [(ve_now e, g)] | None => [] end) m'
| run_other h m m' : monitored_run h m -> gvgGCMap m' = gvgGCMap m -> txs m' = txs m -> monitored_run h m'.

(** What the map of times to delete means. *)
Definition gc_times (h : list (Z * ChainGVG)) (m : gmap Z Z) : Prop :=
  map_Forall (fun id t => exists g, (t - emptyGVGSafeDeletePeriod, g) ∈ h /\ cg_Id g = id /\ isEmpty g = true) m.

Lemma gc_times_mono h h' m : h ⊆ h' -> gc_times h m -> gc_times h' m.
Proof. intros Hh Hm id t Ht. destruct (Hm id t Ht) as (g & ? & ?). exists g. split; [by apply Hh|done]. Qed.

Lemma gc_times_sub h m m' : m' ⊆ m -> gc_times h m -> gc_times h m'.
Proof. intros Hsub Hm id t Ht. apply Hm. by eapply lookup_weaken. Qed.

Lemma monitor_empty_gc e gvg m m' r h :
  monitor_empty e gvg m = (m', r) -> isEmpty gvg = true -> gc_times h (gvgGCMap m) ->
  gc_times (h ++ [(ve_now e, gvg)]) (gvgGCMap m').
Proof.
  intros H He Hm. apply (gc_times_mono h (h ++ [(ve_now e, gvg)])) in Hm; [|set_solver]. revert H.
  unfold monitor_empty. destruct (gvgGCMap m !! cg_Id gvg) eqn:E.
  - repeat case_match; intros [= <- _]; [done| |done]. eapply gc_times_sub; [apply delete_subseteq|done].
  - intros [= <- _]. cbn. apply map_Forall_insert_2; [|done]. exists gvg. split; [|done].
    replace (_ + _ - _) with (ve_now e) by lia. set_solver.
Qed.

(** Monitoring does nothing but drop times, or handles an empty group, or deposits. *)
Lemma monitor_cases e gvg params byChain m m' r :
  monitorGVGUsage e gvg params byChain m = Some (m', r) ->
  (gvgGCMap m' ⊆ gvgGCMap m /\ (txs m' = txs m \/ exists t, txs m' = txs m ++ [t] /\ forall id, t <> TxDeleteGVG id)) \/
  exists g, seen_group e gvg byChain = Some g /\ isEmpty g = true /\
    monitor_empty e g (set_gc (sweep (ve_now e) (gvgGCMap m)) m) = (m', r).
Proof.
  assert (sweep (ve_now e) (gvgGCMap m) ⊆ gvgGCMap m) as Hsub by apply map_filter_subseteq.
  unfold monitorGVGUsage, seen_group, deposit. destruct (isEmpty gvg) eqn:Ee.
  - destruct byChain; [intros [= E]; right; by exists gvg|].
    destruct (ve_QueryGlobalVirtualGroup _ _ _) as [g|]; [|intros [= <- _]; left; by auto].
    destruct (isEmpty g) eqn:Eg; cbn; [intros [= E]; right; by exists g|intros [= <- _]; left; by auto].
  - intros H. left. repeat (case_match; simplify_option_eq; auto 10).
    all: split; [done|right; eexists; split; [done|]; by intros].
Qed.

Lemma monitored_gc_times h m : monitored_run h m -> gc_times h (gvgGCMap m).
Proof.
  induction 1 as [m E _|h m e gvg params byChain m' r _ IH Hm|h m m' _ IH E _].
  - rewrite E. apply map_Forall_empty.
  - apply monitor_cases in Hm as [[Hsub _]|(g & -> & Hg & Hm)].
    + eapply gc_times_mono; [|by eapply gc_times_sub]. set_solver.
    + eapply monitor_empty_gc; [done|done|]. eapply gc_times_sub; [apply map_filter_subseteq|done].
  - by rewrite E.
Qed.

(** The manager asks the chain to delete a group only if the group is empty, and was seen
    empty at least a day before. *)
Theorem deleted_group_empty h m e gvg params byChain m' r id :
  monitored_run h m -> monitorGVGUsage e gvg params byChain m = Some (m', r) ->
  txs m' = txs m ++ [TxDeleteGVG id] ->
  (exists g, seen_group e gvg byChain = Some g /\ cg_Id g = id /\ isEmpty g = true) /\
  exists t g, (t, g) ∈ h /\ cg_Id g = id /\ isEmpty g = true /\ t + emptyGVGSafeDeletePeriod <= ve_now e.
Proof.
  intros Hrun%monitored_gc_times Hm Ht.
  apply monitor_cases in Hm as [[_ [E|(t & E & Hd)]]|(g & Hg & Hge & Hmon)].
  - rewrite E in Ht. by apply app_one_ne in Ht.
  - rewrite E in Ht. apply app_inj_tail in Ht as [_ ->]. by destruct (Hd id).
  - unfold monitor_empty in Hmon. cbn in Hmon.
    destruct (sweep _ _ !! cg_Id g) as [t|] eqn:Et; [|injection Hmon as <- _; by apply app_one_ne in Ht].
    apply map_lookup_filter_Some in Et as [Et _].
    destruct (Z.ltb_spec (ve_now e) t) as [Hl|Hl]; [injection Hmon as <- _; cbn in Ht; apply (f_equal length) in Ht;
      rewrite length_app in Ht; cbn in Ht; lia|].
    assert (cg_Id g = id) as <-.
    { destruct (ve_DeleteGVG e (cg_Id g)); injection Hmon as <- _; cbn in Ht; apply app_inj_tail in Ht as [_ [= ->]]; done. }
    split; [by exists g|]. destruct (Hrun _ _ Et) as (g' & ? & ? & ?).
    exists (t - emptyGVGSafeDeletePeriod), g'. split_and!; [done..|lia].
Qed.

(** ** Frozen providers *)

(** What may happen while a provider stays frozen: refreshes, health checks, other providers
    that are frozen, and rounds of releases until the time is over that do not run out of
    providers. *)
Inductive calm_step (spID until : Z) : virtualGroupManager -> virtualGroupManager -> Prop :=
| calm_refresh e byChain m m' : refreshGVGMeta e byChain m = Some m' -> calm_step spID until m m'
| calm_health e m : calm_step spID until m (set_health (checkAllSPHealth e <$> healthChecker m) m)
| calm_freeze now sp l m : sp <> spID -> calm_step spID until m (FreezeSPAndGVGs now sp l m)
| calm_release e m : ve_now e <= until -> freezeSPPool (release_round e m) <> ∅ ->
    calm_step spID until m (release_round e m).

Lemma refresh_pool e byChain m m' : refreshGVGMeta e byChain m = Some m' -> freezeSPPool m' = freezeSPPool m.
Proof.
  unfold refreshGVGMeta. destruct (ve_ListSPs e) as [spList|]; [|by intros [= <-]]. cbv zeta.
  destruct (find_self _ _ _ _ _) as [[self others]|]; [|by intros [= <-]].
  destruct (_ =? 0); [by intros [= <-]|]. destruct (ve_QueryVirtualGroupParams e); [|by intros [= <-]].
  destruct (ve_ListVirtualGroupFamilies e _); [|by intros [= <-]].
  destruct (refresh_families _ _ _ _ _ _ _ _) as [[m1 r]|] eqn:Er; [|done]. cbn.
  apply refresh_families_ok in Er as [(_ & _ & _ & _ & E & _) _]; [|done].
  destruct r; intros [= <-]; by rewrite <-?E.
Qed.

Lemma calm_frozen spID until stats m m' :
  until = FreezeUntil stats -> calm_step spID until m m' ->
  freezeSPPool m !! spID = Some stats -> freezeSPPool m' !! spID = Some stats.
Proof.
  intros -> [e b m1 m2 E|e m1|now sp l m1 Hne|e m1 Hnow Hne] Hs.
  - by erewrite refresh_pool.
  - done.
  - cbn. unfold Freeze. by rewrite lookup_insert_ne.
  - revert Hne. unfold release_round. destruct (spMgr m1) as [sm|]; [|done].
    assert (ReleaseSP (ve_now e) (freezeSPPool m1) !! spID = Some stats) as Hr
      by (apply map_lookup_filter_Some; split; [done|cbn; lia]).
    destruct (ve_StorageParams e); [|done]. cbn. destruct (_ <? _); done.
Qed.

(** A provider that failed a replication is frozen for five minutes: as long as its
    release is not due, no group it has joined is picked. *)
Theorem frozen_groups_not_picked now spID gvgs m m' e vgfID exclude g j :
  rtc (calm_step spID (now + DefaultFreezingPeriodForSP)) (FreezeSPAndGVGs now spID gvgs m) m' ->
  orders_ok e -> vg_wf m' -> PickGlobalVirtualGroup e vgfID exclude m' = Some (Ok g) ->
  j ∈ gvgs -> cg_FamilyId j = vgfID -> cg_Id j <> gm_ID g.
Proof.
  intros Hsteps Ho Hwf Hpick Hj Hf.
  assert (freezeSPPool m' !! spID = Some (mkSPStats gvgs (now + DefaultFreezingPeriodForSP))) as Hs.
  { assert (freezeSPPool (FreezeSPAndGVGs now spID gvgs m) !! spID =
      Some (mkSPStats gvgs (now + DefaultFreezingPeriodForSP))) as H0 by (cbn; apply lookup_insert_eq).
    induction Hsteps as [|m1 m2 m3 Hst _ IH]; [done|]. apply IH; [done..|]. by eapply calm_frozen. }
  destruct (pick_usable _ _ _ _ _ Ho Hwf Hpick) as (vgfs & vgf & _ & _ & _ & _ & _ & Hfr & _).
  intros E. apply Hfr. rewrite <-E. by eapply elem_of_frozen.
Qed.

(** ** The laws of the interface *)

(** A manager that has a copy of the chain: its first refresh went through. *)
Definition vg_ready (m : virtualGroupManager) : Prop :=
  vg_wf m /\ is_Some (vgfIDToVgf m) /\ is_Some (spMgr m).

(** The chain asks some stake for a byte. *)
Definition vg_env_ok (e : vg_env) : Prop :=
  orders_ok e /\ forall params, ve_QueryVirtualGroupParams e = Some params -> vp_GvgStakingPerBytes params <> 0.

Lemma family_weights_in (use : Z -> VirtualGroupFamilyMeta -> bool) spID vgfs id :
  map_Forall (family_ok spID) vgfs ->
  is_Some (foldl (fun w kv => if use kv.1 kv.2 then addVirtualGroupFamily kv.2 w else w) ∅ (map_to_list vgfs) !! id) ->
  is_Some (vgfs !! id).
Proof.
  intros Hf H. assert (forall kv, kv ∈ map_to_list vgfs -> fm_ID kv.2 = kv.1 /\ vgfs !! kv.1 = Some kv.2) as Hl.
  { intros [k v] Hkv%elem_of_map_to_list. by destruct (Hf _ _ Hkv) as [? _]. }
  remember (map_to_list vgfs) as l eqn:El. clear El.
  assert (forall w : weights, is_Some (foldl (fun w kv => if use kv.1 kv.2 then addVirtualGroupFamily kv.2 w else w) w l !! id) ->
    is_Some (w !! id) \/ is_Some (vgfs !! id)) as Hw.
  2: { destruct (Hw ∅ H) as [[? H0]|]; [by rewrite lookup_empty in H0|done]. }
  clear H. induction l as [|kv l IH]; intros w H; [by left|]. cbn in H.
  apply IH in H as [H|H]; [|by right|intros; apply Hl; by right].
  destruct (use _ _); [|by left]. unfold addVirtualGroupFamily in H. case_match; [by left|].
  destruct (Hl kv) as [E1 E2]; [by left|].
  destruct (decide (fm_ID kv.2 = id)) as [E|E]; [right; rewrite <-E, E1; eauto|].
  rewrite lookup_insert_ne in H by done. by left.
Qed.

Lemma foldl_ext_eq {A B} (f g : A -> B -> A) a l : (forall a b, f a b = g a b) -> foldl f a l = foldl g a l.
Proof. intros Hfg. revert a. induction l as [|b l IH]; intros a; cbn; [done|]. by rewrite Hfg. Qed.

Lemma staking_total g params : vp_GvgStakingPerBytes params <> 0 -> is_Some (TotalStakingStoreSizeOfGVG g (vp_GvgStakingPerBytes params)).
Proof. intros Hp. unfold TotalStakingStoreSizeOfGVG. rewrite (proj2 (Z.eqb_neq _ _) Hp). eauto. Qed.

Lemma monitor_total e g params byChain m :
  vp_GvgStakingPerBytes params <> 0 -> is_Some (monitorGVGUsage e g params byChain m).
Proof.
  intros Hp. unfold monitorGVGUsage, needDeposit. destruct (isEmpty g); [repeat case_match; eauto|].
  destruct (staking_total g params Hp) as [s ->]. cbn. repeat (case_match; eauto).
  match goal with g : ChainGVG |- _ => destruct (staking_total g params Hp) as [s' ->] end. cbn. case_match; eauto.
Qed.

Lemma refresh_groups_total e byChain spMap spID params gvgIDs vgf m :
  vp_GvgStakingPerBytes params <> 0 -> is_Some (refresh_groups e byChain spMap spID params gvgIDs vgf m).
Proof.
  intros Hp. revert vgf m. induction gvgIDs as [|gvgID gvgIDs IH]; intros vgf m; cbn [refresh_groups]; [eauto|].
  destruct (group_of e byChain gvgID) as [[gvg|]|]; [|by apply IH|by eauto].
  destruct (monitor_total e gvg params byChain m Hp) as [[m1 r1] ->]. cbn.
  destruct (m_err r1); [eauto|]. destruct (m_deleted r1); [apply IH|].
  destruct (if m_deposited r1 then _ else _) as [gvg'|]; [|eauto].
  destruct (staking_total gvg' params Hp) as [s ->]. cbn. apply IH.
Qed.

Lemma refresh_families_total e byChain spMap spID params vgfList vgfs m :
  vp_GvgStakingPerBytes params <> 0 -> is_Some (refresh_families e byChain spMap spID params vgfList vgfs m).
Proof.
  intros Hp. revert vgfs m. induction vgfList as [|[vgfID gvgIDs] vgfList IH]; intros vgfs m; cbn [refresh_families]; [eauto|].
  destruct (refresh_groups_total e byChain spMap spID params gvgIDs (mkVGFMeta vgfID spID 0 0 ∅) m Hp) as [[m1 [vgf|]] ->];
    cbn; [apply IH|eauto].
Qed.

Lemma refresh_ready e m : vg_env_ok e -> vg_ready m -> exists m', refreshGVGMeta e true m = Some m' /\ vg_ready m'.
Proof.
  intros [_ He] (Hwf & Hv & Hs).
  assert (exists m', refreshGVGMeta e true m = Some m' /\ is_Some (vgfIDToVgf m') /\ is_Some (spMgr m')) as (m' & E & ? & ?).
  2: { exists m'. split; [done|]. split; [by eapply refresh_wf|done]. }
  unfold refreshGVGMeta. destruct (ve_ListSPs e) as [spList|]; [|eauto]. cbv zeta.
  destruct (find_self _ _ _ _ _) as [[self others]|]; [|by eexists]. destruct (_ =? 0); [by eexists|].
  destruct (ve_QueryVirtualGroupParams e) as [params|]; [|by eexists]. specialize (He params eq_refl).
  destruct (ve_ListVirtualGroupFamilies e _) as [l|]; [|by eexists].
  match goal with |- context [refresh_families ?a ?b ?c ?d ?f ?g ?h ?i] =>
    destruct (refresh_families_total a b c d f g h i He) as [[m1 r] Er] end.
  rewrite Er. cbn. apply refresh_families_ok in Er as [(_ & E1 & E2 & _) _]; [|apply map_Forall_empty].
  destruct r as [vgfs|]; eexists; (split; [done|]); cbn; [eauto|]. by rewrite E1, E2.
Qed.

Lemma pick_group_total e vgfID frozen exclude h spID vgfs :
  orders_ok e -> map_Forall (family_ok spID) vgfs -> is_Some (pickGlobalVirtualGroup e vgfID frozen exclude h vgfs).
Proof.
  intros Ho Hwf. unfold pickGlobalVirtualGroup. destruct (vgfs !! vgfID) as [vgf|] eqn:Ef; [|eauto].
  destruct (pickIndex _ _) as [id|] eqn:Ep; [|eauto]. apply pickIndex_in in Ep; [|done].
  apply group_weights_in in Ep as (k & g & Hk & <- & _). destruct (Hwf _ _ Ef) as (_ & _ & Hg).
  destruct (Hg _ _ Hk) as [-> _]. rewrite Hk. eauto.
Qed.

Lemma pick_vgf_total e filter_ bl h spID vgfs :
  orders_ok e -> map_Forall (family_ok spID) vgfs -> is_Some (pickVirtualGroupFamily e filter_ bl h vgfs).
Proof.
  intros Ho Hwf. unfold pickVirtualGroupFamily. cbv zeta.
  rewrite (foldl_ext_eq _ (fun w kv => if
    negb (match filter_ with Some ids => negb (CheckVGF ids kv.1) | None => false end)
    && CheckByGVG bl (fm_GVGMap kv.2) && healthy isVGFHealthy kv.2 h then addVirtualGroupFamily kv.2 w else w)).
  2: { intros w [k v]. cbn. destruct filter_ as [ids|]; [destruct (CheckVGF ids k)|]; cbn; [|done|];
       destruct (CheckByGVG bl (fm_GVGMap v)), (healthy isVGFHealthy v h); done. }
  destruct (pickIndex _ _) as [id|] eqn:Ep; [|eauto]. apply pickIndex_in in Ep; [|done].
  apply (family_weights_in (fun k v => negb (match filter_ with Some ids => negb (CheckVGF ids k) | None => false end)
    && CheckByGVG bl (fm_GVGMap v) && healthy isVGFHealthy v h) spID) in Ep as [vgf ->]; [cbn; eauto|done].
Qed.

#[export] Instance virtual_group_laws : VirtualGroupLaws virtualGroupManager vg_env vg_ready vg_env_ok.
Proof.
  split.
  - intros e vgfID exclude m g [Ho _] [Hm _] Hp.
    by destruct (pick_usable _ _ _ _ _ Ho Hm Hp) as (? & ? & _ & _ & _ & _ & _ & _ & ? & _).
  - intros e vgfID exclude m [Ho _] (Hm & [vgfs Ev] & _). unfold vg_wf in Hm. cbn. rewrite Ev in *. cbn.
    by eapply pick_group_total.
  - intros e bl m [Ho _] (Hm & [vgfs Ev] & _). unfold vg_wf in Hm. cbn. rewrite Ev in *. cbn.
    destruct (genVgfFilter e vgfs); [|eauto]. by eapply pick_vgf_total.
  - intros P HP p exclude m (_ & _ & [sm Es]). cbn. rewrite Es. cbn. eauto.
  - intros e m He Hm. by apply refresh_ready.
  - done.
  - done.
Qed.

(** ** Witnesses *)

(** A provider with address "0xA", id 1, and providers 2 to 4; one family 3 with the groups
    5 and 6. *)
Definition ex_sp (id : Z) (a : string) : ChainSP := mkChainSP id a "https://sp" true.
Definition ex_sps : list ChainSP := [ex_sp 4 "0xd"; ex_sp 2 "0xb"; ex_sp 1 "0xa"; ex_sp 3 "0xc"].
Definition ex_group (id stored : Z) : ChainGVG := mkChainGVG id 3 1 [2; 3] stored 1000.
Definition ex_params : Params := mkParams 16 1 1 1000.
Definition ex_env_at (now stored : Z) : vg_env :=
  mkVGEnv now (Some ex_sps) (Some (mkVGParams "amoca" 1)) (fun _ => Some [(3, [5; 6])])
    (fun _ id => Some (ex_group id stored)) (fun id => Some (Some (ex_group id stored))) Some
    (fun _ => true) (fun _ => true) (Some ex_params) (fun _ => true) (S754_zero false) (fun _ l => l) (fun _ l => l).
Definition ex_env : vg_env := ex_env_at 1000 100.
Definition ex_new : virtualGroupManager := mkVGM "0xA" 0 None None None ∅ (Some (mkHealth ∅ ∅)) ∅ [].
Definition ex_vgm : virtualGroupManager := default ex_new (NewVirtualGroupManager ex_env "0xA" true).

Lemma ex_vgm_wf : vg_wf ex_vgm.
Proof.
  assert (refreshGVGMeta ex_env true ex_new = Some ex_vgm) as E by by vm_compute. by apply refresh_wf in E.
Qed.

Lemma ex_orders now stored : orders_ok (ex_env_at now stored).
Proof. done. Qed.

Definition ex_meta (id : Z) : GlobalVirtualGroupMeta := mkGVGMeta id 3 1 [2; 3] ["https://sp"; "https://sp"]%string 100 1000.

Lemma picked_group_usable_witness :
  PickGlobalVirtualGroup ex_env 3 ({[5]} : IDSet) ex_vgm = Some (Ok (ex_meta 6)) /\ (6 : Z) ∉ ({[5]} : IDSet).
Proof.
  assert (PickGlobalVirtualGroup ex_env 3 ({[5]} : IDSet) ex_vgm = Some (Ok (ex_meta 6))) as E by by vm_compute.
  split; [exact E|].
  by destruct (picked_group_usable ex_env 3 {[5]} ex_vgm (ex_meta 6) (ex_orders _ _) ex_vgm_wf E)
    as (? & ? & _ & _ & _ & _ & _ & _ & H & _).
Defined.

Definition ex_new_group : GlobalVirtualGroupMeta := mkGVGMeta 0 0 1 [4; 3] [] 0 DefaultInitialGVGStakingStorageSize.

Lemma new_group_members_witness :
  GenerateGlobalVirtualGroupMeta (NewGenerateGVGSecondarySPsPolicyByPrefer ex_params [4]) ({[2]} : IDSet) ex_vgm
    = Some (Ok ex_new_group) /\ NoDup (gm_SecondarySPIDs ex_new_group).
Proof.
  assert (GenerateGlobalVirtualGroupMeta (NewGenerateGVGSecondarySPsPolicyByPrefer ex_params [4]) ({[2]} : IDSet) ex_vgm
    = Some (Ok ex_new_group)) as E by by vm_compute.
  split; [exact E|].
  assert (spMgr ex_vgm = Some (mkSPManager (ex_sp 1 "0xa") [ex_sp 2 "0xb"; ex_sp 3 "0xc"; ex_sp 4 "0xd"])) as Esm by by vm_compute.
  by destruct (new_group_members ex_vgm _ ex_params [4] {[2]} _ Esm ltac:(by apply (bool_decide_unpack _)) E) as (_ & _ & H & _).
Defined.

(** Group 5 is empty a day later as well. *)
Definition ex_empty0 : vg_env := ex_env_at 0 0.
Definition ex_m1 : virtualGroupManager :=
  (default (ex_new, nothing) (monitorGVGUsage ex_empty0 (ex_group 5 0) (mkVGParams "amoca" 1) true ex_new)).1.
Definition ex_m2 : virtualGroupManager :=
  (default (ex_new, nothing) (monitorGVGUsage (ex_env_at 86405 100) (ex_group 5 100) (mkVGParams "amoca" 1) true ex_m1)).1.
Definition ex_m3 : virtualGroupManager :=
  (default (ex_new, nothing) (monitorGVGUsage (ex_env_at 86410 0) (ex_group 5 0) (mkVGParams "amoca" 1) true ex_m2)).1.

Lemma ex_run2 : monitored_run [(0, ex_group 5 0); (86405, ex_group 5 100)] ex_m2.
Proof.
  apply (run_monitor [(0, ex_group 5 0)] ex_m1 (ex_env_at 86405 100) (ex_group 5 100) (mkVGParams "amoca" 1) true ex_m2 nothing);
    [|by vm_compute].
  apply (run_monitor [] ex_new ex_empty0 (ex_group 5 0) (mkVGParams "amoca" 1) true ex_m1 nothing); [|by vm_compute].
  by apply run_new.
Qed.

(** The group need not have been empty all day: group 5 is empty at first, is seen in use
    five seconds before the end of the day, and is deleted ten seconds later. *)
Theorem used_group_deleted :
  monitored_run [(0, ex_group 5 0); (86405, ex_group 5 100)] ex_m2 /\
  isEmpty (ex_group 5 100) = false /\
  monitorGVGUsage (ex_env_at 86410 0) (ex_group 5 0) (mkVGParams "amoca" 1) true ex_m2
    = Some (ex_m3, mkMonitored false true false) /\
  txs ex_m3 = txs ex_m2 ++ [TxDeleteGVG 5].
Proof. split; [apply ex_run2|]. by vm_compute. Qed.

Lemma deleted_group_empty_witness :
  txs ex_m3 = [TxDeleteGVG 5] /\
  exists t g, (t, g) ∈ [(0, ex_group 5 0); (86405, ex_group 5 100)] /\ cg_Id g = 5 /\ isEmpty g = true /\
    t + emptyGVGSafeDeletePeriod <= 86410.
Proof.
  assert (txs ex_m3 = txs ex_m2 ++ [TxDeleteGVG 5]) as E by by vm_compute.
  split; [by vm_compute|].
  exact (proj2 (deleted_group_empty _ ex_m2 (ex_env_at 86410 0) (ex_group 5 0) (mkVGParams "amoca" 1) true ex_m3
    (mkMonitored false true false) 5 ex_run2 ltac:(by vm_compute) E)).
Defined.

Lemma frozen_groups_not_picked_witness :
  match PickGlobalVirtualGroup ex_env 3 ∅ (FreezeSPAndGVGs 1000 2 [ex_group 5 0] ex_vgm) with
  | Some (Ok g) => gm_ID g <> 5
  | _ => False
  end.
Proof.
  destruct (PickGlobalVirtualGroup _ _ _ _) as [[g|]|] eqn:E; [|by vm_compute in E..].
  intros E'. by apply (frozen_groups_not_picked 1000 2 [ex_group 5 0] ex_vgm _ ex_env 3 ∅ g (ex_group 5 0)
    (rtc_refl _ _) (ex_orders _ _) ex_vgm_wf E ltac:(left) ltac:(done)).
Defined.
