(* ===== verification/ManagerTask.v ===== *)
(** Tasks and queues of the manager: modular/manager/manager.go.  A queue of the manager
    holds values of the interface core/task.Task, so a task is a value of a sum type whose
    constructor is its dynamic type, behind a pointer. *)
From Stdlib Require Import ZArith Lia.
From stdpp Require Import base gmap list strings sorting.
From S2P Require Import Prelude Limit TaskKey Task TaskTypes TQueue.

Local Open Scope Z_scope.

(** ** Tasks of any type *)

Inductive task :=
| TUpload (t : GfSpUploadObjectTask.t)
| TResumable (t : GfSpResumableUploadObjectTask.t)
| TReplicate (t : GfSpReplicatePieceTask.t)
| TSeal (t : GfSpSealObjectTask.t)
| TReceive (t : GfSpReceivePieceTask.t)
| TGCObject (t : GfSpGCObjectTask.t)
| TGCZombie (t : GfSpGCZombiePieceTask.t)
| TGCMeta (t : GfSpGCMetaTask.t)
| TGCBucketMigration (t : GfSpGCBucketMigrationTask.t)
| TGCStaleVersion (t : GfSpGCStaleVersionObjectTask.t)
| TDownload (t : GfSpDownloadObjectTask.t)
| TChallenge (t : GfSpChallengePieceTask.t)
| TRecover (t : GfSpRecoverPieceTask.t)
| TMigrateGVG (t : GfSpMigrateGVGTask.t).

Definition any_task (x : task) : GfSpTask.t :=
  match x with
  | TUpload t => GetTask t
  | TResumable t => GetTask t
  | TReplicate t => GetTask t
  | TSeal t => GetTask t
  | TReceive t => GetTask t
  | TGCObject t => GetTask t
  | TGCZombie t => GetTask t
  | TGCMeta t => GetTask t
  | TGCBucketMigration t => GetTask t
  | TGCStaleVersion t => GetTask t
  | TDownload t => GetTask t
  | TChallenge t => GetTask t
  | TRecover t => GetTask t
  | TMigrateGVG t => GetTask t
  end.

Definition any_key (x : task) : TKey :=
  match x with
  | TUpload t => Key t
  | TResumable t => Key t
  | TReplicate t => Key t
  | TSeal t => Key t
  | TReceive t => Key t
  | TGCObject t => Key t
  | TGCZombie t => Key t
  | TGCMeta t => Key t
  | TGCBucketMigration t => Key t
  | TGCStaleVersion t => Key t
  | TDownload t => Key t
  | TChallenge t => Key t
  | TRecover t => Key t
  | TMigrateGVG t => Key t
  end.

Definition any_type (x : task) : TType :=
  match x with
  | TUpload t => Type_ t
  | TResumable t => Type_ t
  | TReplicate t => Type_ t
  | TSeal t => Type_ t
  | TReceive t => Type_ t
  | TGCObject t => Type_ t
  | TGCZombie t => Type_ t
  | TGCMeta t => Type_ t
  | TGCBucketMigration t => Type_ t
  | TGCStaleVersion t => Type_ t
  | TDownload t => Type_ t
  | TChallenge t => Type_ t
  | TRecover t => Type_ t
  | TMigrateGVG t => Type_ t
  end.

Definition any_estimate (x : task) : option GfSpLimit.t :=
  match x with
  | TUpload t => EstimateLimit t
  | TResumable t => EstimateLimit t
  | TReplicate t => EstimateLimit t
  | TSeal t => EstimateLimit t
  | TReceive t => EstimateLimit t
  | TGCObject t => EstimateLimit t
  | TGCZombie t => EstimateLimit t
  | TGCMeta t => EstimateLimit t
  | TGCBucketMigration t => EstimateLimit t
  | TGCStaleVersion t => EstimateLimit t
  | TDownload t => EstimateLimit t
  | TChallenge t => EstimateLimit t
  | TRecover t => EstimateLimit t
  | TMigrateGVG t => EstimateLimit t
  end.

Definition set_any_task (b : GfSpTask.t) (x : task) : task :=
  match x with
  | TUpload t => TUpload (set_task b t)
  | TResumable t => TResumable (set_task b t)
  | TReplicate t => TReplicate (set_task b t)
  | TSeal t => TSeal (set_task b t)
  | TReceive t => TReceive (set_task b t)
  | TGCObject t => TGCObject (set_task b t)
  | TGCZombie t => TGCZombie (set_task b t)
  | TGCMeta t => TGCMeta (set_task b t)
  | TGCBucketMigration t => TGCBucketMigration (set_task b t)
  | TGCStaleVersion t => TGCStaleVersion (set_task b t)
  | TDownload t => TDownload (set_task b t)
  | TChallenge t => TChallenge (set_task b t)
  | TRecover t => TRecover (set_task b t)
  | TMigrateGVG t => TMigrateGVG (set_task b t)
  end.

#[export] Instance any_core_task : CoreTask task := {
  GetTask := any_task;
  set_task := set_any_task;
  Key := any_key;
  Type_ := any_type;
  EstimateLimit := any_estimate
}.

#[export] Instance any_core_task_ok : CoreTaskOk task.
Proof.
  split; [intros b [t|t|t|t|t|t|t|t|t|t|t|t|t|t]|intros [t|t|t|t|t|t|t|t|t|t|t|t|t|t]
    |intros a b [t|t|t|t|t|t|t|t|t|t|t|t|t|t]|intros b [t|t|t|t|t|t|t|t|t|t|t|t|t|t]];
    by destruct t.
Qed.

(** ** Pointers to tasks

    Two references are the same pointer if their numbers agree.  An estimate that
    Go leaves unspecified (a division by zero data chunks) counts as zero. *)
Definition ref : Type := nat * task.

#[export] Instance ref_queue_task : QueueTask ref := {
  qkey r := Key r.2;
  qcreate r := GetCreateTime r.2;
  qestimate r := default GfSpLimit.zero (EstimateLimit r.2)
}.

(** The same pointer after a method of the task was called on it. *)
Definition upd (f : task -> task) (r : ref) : ref := (r.1, f r.2).

(** ** The queues *)

Inductive qid :=
| uploadQueue
| resumableUploadQueue
| replicateQueue
| sealQueue
| receiveQueue
| gcObjectQueue
| gcZombieQueue
| gcMetaQueue
| gcBucketMigrationQueue
| gcStaleVersionObjectQueue
| downloadQueue
| challengeQueue
| recoveryQueue
| migrateGVGQueue.

#[export] Instance qid_eq_dec : EqDecision qid.
Proof. solve_decision. Defined.

(** The dynamic type of the tasks of each queue. *)
Definition in_queue (q : qid) (x : task) : bool :=
  match q, x with
  | uploadQueue, TUpload _
  | resumableUploadQueue, TResumable _
  | replicateQueue, TReplicate _
  | sealQueue, TSeal _
  | receiveQueue, TReceive _
  | gcObjectQueue, TGCObject _
  | gcZombieQueue, TGCZombie _
  | gcMetaQueue, TGCMeta _
  | gcBucketMigrationQueue, TGCBucketMigration _
  | gcStaleVersionObjectQueue, TGCStaleVersion _
  | downloadQueue, TDownload _
  | challengeQueue, TChallenge _
  | recoveryQueue, TRecover _
  | migrateGVGQueue, TMigrateGVG _ => true
  | _, _ => false
  end.
