(* ===== verification/Manager.v ===== *)
(** modular/manager: the life cycle of the tasks (manage_task.go and the queues, strategies
    and dispatching of manager.go).

    The handlers run concurrently, and each call of a queue, of the database or of the
    channel is atomic by itself: a handler is a program of such actions ([Proc]).  What a
    handler spawns is a job, which begins some time later.  The fields of ManageModular are
    the record [world]; its queues are a function of their names.

    The strategies and handlers assert the dynamic types of the tasks they find in a queue;
    ManagerProps shows that a queue holds no other type.  The events that are inserted for
    tracing, metrics and logs are dropped; the logs a task carries are kept. *)
From Stdlib Require Import ZArith Lia.
From stdpp Require Import base gmap list strings sorting pretty option.
From S2P Require Import Prelude Proc Sql Checksum Hex UploadDb ManagerDb Limit TaskKey Task TaskTypes.
From S2P Require Import TQueue VGroup ManagerTask.

Local Open Scope Z_scope.
Local Open Scope prog_scope.

(** ** Errors and configuration *)

Inductive error :=
| ErrDanglingTask
| ErrRepeatedTask
| ErrExceedTask
| ErrCanceledTask
| ErrQueue (e : queue_error)
| ErrGfSpDB (e : db_error)
| ErrVirtualGroup (e : vg_error)
| ErrAnswer (msg : string)
| ErrContext (msg : string).

#[export] Instance error_eq_dec : EqDecision error.
Proof. solve_decision. Defined.

Record config := mkConfig {
  options : app_options;
  maxUploadObjectNumber : Z;
  taskChCap : nat;
  queueCap : qid -> Z;
  gcObjectBlockInterval : Z;
  gcSafeBlockDistance : Z;
  gcZombiePieceEnabled : bool;
  gcZombiePieceObjectIDInterval : Z;
  gcZombiePieceSafeObjectIDDistance : Z;
  gcMetaEnabled : bool;
  enableLoadTask : bool;
  loadTaskLimitToReplicate : Z;
  loadTaskLimitToSeal : Z;
  loadTaskLimitToGC : Z;
  loadReplicateTimeout : Z;
  loadSealTimeout : Z;
  gvgPreferSPList : list Z;
  spBlackList : list Z;
  gvgBlackList : IDSet;
}.

(** ** Jobs *)

(** The bodies of the goroutines that handlers spawn. *)
Inductive job :=
| JBackUpTask
| JProgress (meta : UploadObjectMeta)
| JSealed (t : GfSpReplicatePieceTask.t)
| JSealDone (t : GfSpSealObjectTask.t)
| JResend (r : ref)
| JReceive (t : GfSpReceivePieceTask.t)
| JPopReceive (key : TKey).

(** ** ObjectsSegmentsStats (recover_scheduler.go) *)

Record ObjectSegmentsStats := mkStats {
  SegmentCount : Z;
  FailedSegments : gset Z;
  SucceedSegments : gset Z;
}.

(** By object id and version. *)
Notation ObjectsSegmentsStats := (gmap (Z * Z) ObjectSegmentsStats).

Definition stats_put (objectID version segmentCount : Z) (s : ObjectsSegmentsStats) : ObjectsSegmentsStats :=
  <[(objectID, version) := mkStats segmentCount ∅ ∅]> s.

Definition stats_has (objectID version : Z) (s : ObjectsSegmentsStats) : bool :=
  bool_decide (is_Some (s !! (objectID, version))).

Definition stats_remove (objectID version : Z) (s : ObjectsSegmentsStats) : ObjectsSegmentsStats :=
  delete (objectID, version) s.

Definition addSegmentRecord (objectID version : Z) (success : bool) (segmentIdx : Z) (s : ObjectsSegmentsStats)
  : ObjectsSegmentsStats :=
  match s !! (objectID, version) with
  | None => s
  | Some stats =>
    <[(objectID, version) :=
        if success then mkStats (SegmentCount stats) (FailedSegments stats) ({[segmentIdx]} ∪ SucceedSegments stats)
        else mkStats (SegmentCount stats) ({[segmentIdx]} ∪ FailedSegments stats) (SucceedSegments stats)]> s
  end.

Definition processed (stats : ObjectSegmentsStats) : Z := Z.of_nat (size (SucceedSegments stats ∪ FailedSegments stats)).

Definition isObjectProcessed (objectID version : Z) (s : ObjectsSegmentsStats) : bool :=
  match s !! (objectID, version) with None => false | Some stats => processed stats =? SegmentCount stats end.

Definition isRecoverFailed (objectID version : Z) (s : ObjectsSegmentsStats) : bool :=
  match s !! (objectID, version) with
  | None => true
  | Some stats =>
    if Z.of_nat (size (SucceedSegments stats)) =? SegmentCount stats then false
    else (processed stats =? SegmentCount stats) && (Z.of_nat (size (FailedSegments stats)) >? 0)
  end.

(** ** The state *)

(** A MsgCreateGlobalVirtualGroup that was sent: family, secondaries, deposit. *)
Record create_gvg := mkCreateGVG { cr_family : Z; cr_secondaries : list Z; cr_denom : string; cr_amount : Z }.

Record world (V : Type) := mkWorld {
  queues : qid -> GfSpTQueue ref;
  taskCh : list ref;
  backupTaskNum : Z;
  backupTaskMux : bool;
  recoveryFailedList : list string;
  recoveryTaskMap : gset string;
  recoverObjectStats : ObjectsSegmentsStats;
  gcBlockHeight : Z;
  gcZombiePieceObjectID : Z;
  virtualGroups : V;
  created_gvgs : list create_gvg;
  db : spdb;
  gdb : gcdb;
  jobs : list job;
  next_ref : nat;
}.
#[global] Arguments mkWorld {V}.
#[global] Arguments queues {V}.
#[global] Arguments taskCh {V}.
#[global] Arguments backupTaskNum {V}.
#[global] Arguments backupTaskMux {V}.
#[global] Arguments recoveryFailedList {V}.
#[global] Arguments recoveryTaskMap {V}.
#[global] Arguments recoverObjectStats {V}.
#[global] Arguments gcBlockHeight {V}.
#[global] Arguments gcZombiePieceObjectID {V}.
#[global] Arguments virtualGroups {V}.
#[global] Arguments created_gvgs {V}.
#[global] Arguments db {V}.
#[global] Arguments gdb {V}.
#[global] Arguments jobs {V}.
#[global] Arguments next_ref {V}.

Section setters.
Context {V : Type}.
Definition set_queues (x : qid -> GfSpTQueue ref) (w : world V) : world V :=
    mkWorld x (taskCh w) (backupTaskNum w) (backupTaskMux w) (recoveryFailedList w) (recoveryTaskMap w)
    (recoverObjectStats w) (gcBlockHeight w) (gcZombiePieceObjectID w) (virtualGroups w) (created_gvgs w) (db w) (gdb
    w) (jobs w) (next_ref w).
Definition set_taskCh (x : list ref) (w : world V) : world V :=
    mkWorld (queues w) x (backupTaskNum w) (backupTaskMux w) (recoveryFailedList w) (recoveryTaskMap w)
    (recoverObjectStats w) (gcBlockHeight w) (gcZombiePieceObjectID w) (virtualGroups w) (created_gvgs w) (db w) (gdb
    w) (jobs w) (next_ref w).
Definition set_backupTaskNum (x : Z) (w : world V) : world V :=
    mkWorld (queues w) (taskCh w) x (backupTaskMux w) (recoveryFailedList w) (recoveryTaskMap w) (recoverObjectStats
    w) (gcBlockHeight w) (gcZombiePieceObjectID w) (virtualGroups w) (created_gvgs w) (db w) (gdb w) (jobs w)
    (next_ref w).
Definition set_backupTaskMux (x : bool) (w : world V) : world V :=
    mkWorld (queues w) (taskCh w) (backupTaskNum w) x (recoveryFailedList w) (recoveryTaskMap w) (recoverObjectStats
    w) (gcBlockHeight w) (gcZombiePieceObjectID w) (virtualGroups w) (created_gvgs w) (db w) (gdb w) (jobs w)
    (next_ref w).
Definition set_recoveryFailedList (x : list string) (w : world V) : world V :=
    mkWorld (queues w) (taskCh w) (backupTaskNum w) (backupTaskMux w) x (recoveryTaskMap w) (recoverObjectStats w)
    (gcBlockHeight w) (gcZombiePieceObjectID w) (virtualGroups w) (created_gvgs w) (db w) (gdb w) (jobs w) (next_ref
    w).
Definition set_recoveryTaskMap (x : gset string) (w : world V) : world V :=
    mkWorld (queues w) (taskCh w) (backupTaskNum w) (backupTaskMux w) (recoveryFailedList w) x (recoverObjectStats w)
    (gcBlockHeight w) (gcZombiePieceObjectID w) (virtualGroups w) (created_gvgs w) (db w) (gdb w) (jobs w) (next_ref
    w).
Definition set_recoverObjectStats (x : ObjectsSegmentsStats) (w : world V) : world V :=
    mkWorld (queues w) (taskCh w) (backupTaskNum w) (backupTaskMux w) (recoveryFailedList w) (recoveryTaskMap w) x
    (gcBlockHeight w) (gcZombiePieceObjectID w) (virtualGroups w) (created_gvgs w) (db w) (gdb w) (jobs w) (next_ref
    w).
Definition set_gcBlockHeight (x : Z) (w : world V) : world V :=
    mkWorld (queues w) (taskCh w) (backupTaskNum w) (backupTaskMux w) (recoveryFailedList w) (recoveryTaskMap w)
    (recoverObjectStats w) x (gcZombiePieceObjectID w) (virtualGroups w) (created_gvgs w) (db w) (gdb w) (jobs w)
    (next_ref w).
Definition set_gcZombiePieceObjectID (x : Z) (w : world V) : world V :=
    mkWorld (queues w) (taskCh w) (backupTaskNum w) (backupTaskMux w) (recoveryFailedList w) (recoveryTaskMap w)
    (recoverObjectStats w) (gcBlockHeight w) x (virtualGroups w) (created_gvgs w) (db w) (gdb w) (jobs w) (next_ref
    w).
Definition set_virtualGroups (x : V) (w : world V) : world V :=
    mkWorld (queues w) (taskCh w) (backupTaskNum w) (backupTaskMux w) (recoveryFailedList w) (recoveryTaskMap w)
    (recoverObjectStats w) (gcBlockHeight w) (gcZombiePieceObjectID w) x (created_gvgs w) (db w) (gdb w) (jobs w)
    (next_ref w).
Definition set_created_gvgs (x : list create_gvg) (w : world V) : world V :=
    mkWorld (queues w) (taskCh w) (backupTaskNum w) (backupTaskMux w) (recoveryFailedList w) (recoveryTaskMap w)
    (recoverObjectStats w) (gcBlockHeight w) (gcZombiePieceObjectID w) (virtualGroups w) x (db w) (gdb w) (jobs w)
    (next_ref w).
Definition set_db (x : spdb) (w : world V) : world V :=
    mkWorld (queues w) (taskCh w) (backupTaskNum w) (backupTaskMux w) (recoveryFailedList w) (recoveryTaskMap w)
    (recoverObjectStats w) (gcBlockHeight w) (gcZombiePieceObjectID w) (virtualGroups w) (created_gvgs w) x (gdb w)
    (jobs w) (next_ref w).
Definition set_gdb (x : gcdb) (w : world V) : world V :=
    mkWorld (queues w) (taskCh w) (backupTaskNum w) (backupTaskMux w) (recoveryFailedList w) (recoveryTaskMap w)
    (recoverObjectStats w) (gcBlockHeight w) (gcZombiePieceObjectID w) (virtualGroups w) (created_gvgs w) (db w) x
    (jobs w) (next_ref w).
Definition set_jobs (x : list job) (w : world V) : world V :=
    mkWorld (queues w) (taskCh w) (backupTaskNum w) (backupTaskMux w) (recoveryFailedList w) (recoveryTaskMap w)
    (recoverObjectStats w) (gcBlockHeight w) (gcZombiePieceObjectID w) (virtualGroups w) (created_gvgs w) (db w) (gdb
    w) x (next_ref w).
Definition set_next_ref (x : nat) (w : world V) : world V :=
    mkWorld (queues w) (taskCh w) (backupTaskNum w) (backupTaskMux w) (recoveryFailedList w) (recoveryTaskMap w)
    (recoverObjectStats w) (gcBlockHeight w) (gcZombiePieceObjectID w) (virtualGroups w) (created_gvgs w) (db w) (gdb
    w) (jobs w) x.
End setters.

(** ** What a handler finds outside

    The clock, the orders of iteration, random numbers, JSON (the text of an error), and the answers of the chain, the
    metadata service, the migration schedulers and the virtual groups. *)
Record env (E : Type) := mkEnv {
  now : Z;
  now_string : string;
  remote_address : string;
  context_err : option string;
  order : list ref -> list ref;
  ties : list ref -> list ref;
  draw : Z;
  unmarshal : string -> option GfSpError;
  marshal : GfSpError -> string;
  vg_call : nat -> E;
  query_object_info : Z -> result string (bool * bool);
  query_gvg : Z -> result string ChainGVG;
  list_gvgs_by_secondary : Z -> result string (list ChainGVG);
  own_sp_id : result string Z;
  query_storage_params : result string Params;
  query_vg_params : result string VGParams;
  send_create_gvg : create_gvg -> option string;
  has_execute_plan : Z -> bool;
  update_gc_progress : option string;
  post_migrate_bucket : option string;
  update_migrate_progress : option string;
}.
#[global] Arguments mkEnv {E}.
#[global] Arguments now {E}.
#[global] Arguments now_string {E}.
#[global] Arguments remote_address {E}.
#[global] Arguments context_err {E}.
#[global] Arguments order {E}.
#[global] Arguments ties {E}.
#[global] Arguments draw {E}.
#[global] Arguments unmarshal {E}.
#[global] Arguments marshal {E}.
#[global] Arguments vg_call {E}.
#[global] Arguments query_object_info {E}.
#[global] Arguments query_gvg {E}.
#[global] Arguments list_gvgs_by_secondary {E}.
#[global] Arguments own_sp_id {E}.
#[global] Arguments query_storage_params {E}.
#[global] Arguments query_vg_params {E}.
#[global] Arguments send_create_gvg {E}.
#[global] Arguments has_execute_plan {E}.
#[global] Arguments update_gc_progress {E}.
#[global] Arguments post_migrate_bucket {E}.
#[global] Arguments update_migrate_progress {E}.

(** ** Strategies *)

Definition FilterGCTask (x : task) : bool := GetRetry x =? 0.

Definition FilterUploadingTask (tm : Z) (x : task) : bool :=
  if ExceedRetry x then false else if ExceedTimeout tm x then true else GetRetry x =? 0.

Definition FilterGVGTask (tm : Z) (x : task) : bool :=
  if GetRetry x =? 0 then true else ExceedTimeout tm x.

Definition FilterReceiveTask (tm : Z) (x : task) : bool :=
  if ExceedRetry x then false else ExceedTimeout tm x.

Definition is_finished (x : task) : bool :=
  match x with TMigrateGVG t => GfSpMigrateGVGTask.Finished t | _ => false end.

(** GCUploadObjectQueue and the like: whether a task is to be retired; the Reset strategies
    retire nothing. *)
Definition retire_strategy (q : qid) (tm : Z) (r : ref) : bool :=
  match q with
  | uploadQueue | resumableUploadQueue | replicateQueue | sealQueue => Expired tm r.2
  | receiveQueue | recoveryQueue => ExceedRetry r.2
  | migrateGVGQueue => is_finished r.2
  | downloadQueue | challengeQueue => true
  | gcObjectQueue | gcZombieQueue | gcMetaQueue | gcBucketMigrationQueue | gcStaleVersionObjectQueue => false
  end.

Definition filter_strategy (q : qid) : option (Z -> ref -> bool) :=
  match q with
  | replicateQueue | sealQueue | recoveryQueue => Some (fun tm r => FilterUploadingTask tm r.2)
  | receiveQueue => Some (fun tm r => FilterReceiveTask tm r.2)
  | gcObjectQueue | gcZombieQueue | gcMetaQueue | gcBucketMigrationQueue | gcStaleVersionObjectQueue =>
    Some (fun _ r => FilterGCTask r.2)
  | migrateGVGQueue => Some (fun tm r => FilterGVGTask tm r.2)
  | uploadQueue | resumableUploadQueue | downloadQueue | challengeQueue => None
  end.

(** The Reset strategies: an expired task starts again. *)
Definition resets (q : qid) : bool :=
  match q with
  | gcObjectQueue | gcZombieQueue | gcMetaQueue | gcBucketMigrationQueue | gcStaleVersionObjectQueue => true
  | _ => false
  end.

Definition reset (tm : Z) (x : task) : task := if Expired tm x then SetRetry 0 x else x.

Definition queue_name (q : qid) : string :=
  match q with
  | uploadQueue => "upload-object" | resumableUploadQueue => "resumable-upload-object"
  | replicateQueue => "replicate-piece" | sealQueue => "seal-object" | receiveQueue => "confirm-receive-piece"
  | gcObjectQueue => "gc-object" | gcZombieQueue => "gc-zombie" | gcMetaQueue => "gc-meta"
  | gcBucketMigrationQueue => "gc-bucket-migration" | gcStaleVersionObjectQueue => "gc-stale-version-object"
  | downloadQueue => "cache-download-object" | challengeQueue => "cache-challenge-piece"
  | recoveryQueue => "recovery-piece" | migrateGVGQueue => "migrate-gvg"
  end.

(** DefaultManagerOptions makes the queues, Start sets their strategies. *)
Definition new_queue (c : config) (q : qid) : GfSpTQueue ref :=
  SetFilterTaskStrategy (filter_strategy q)
    (SetRetireTaskStrategy (Some (retire_strategy q)) (NewGfSpTQueue ("manager-" +:+ queue_name q) (queueCap c q))).

(** ** Queue actions *)

Definition object_of (x : task) : option ObjectInfo :=
  match x with
  | TUpload t => Some (GfSpUploadObjectTask.ObjectInfo_ t)
  | TResumable t => Some (GfSpResumableUploadObjectTask.ObjectInfo_ t)
  | TReplicate t => Some (GfSpReplicatePieceTask.ObjectInfo_ t)
  | TSeal t => Some (GfSpSealObjectTask.ObjectInfo_ t)
  | TReceive t => Some (GfSpReceivePieceTask.ObjectInfo_ t)
  | TRecover t => Some (GfSpRecoverPieceTask.ObjectInfo_ t)
  | _ => None
  end.

(** A new state of the upload, with a description of the error. *)
Definition progress (objectID state : Z) (description : string) : UploadObjectMeta :=
  mkUploadMeta objectID state 0 [] [] description 0 false.

Section manager.
Context {V E : Type} `{VirtualGroupManager V E}.
Implicit Types (w : world V) (e : env E).

Definition add_job (j : job) w : world V := set_jobs (jobs w ++ [j]) w.
Definition set_queue (q : qid) (Q : GfSpTQueue ref) w : world V :=
  set_queues (fun q' => if decide (q' = q) then Q else queues w q') w.

(** A recovery that is given up. *)
Definition recovery_failed (name : string) (key : TKey) w : world V :=
  set_recoveryTaskMap (recoveryTaskMap w ∖ {[key]})
    (if bool_decide (name ∈ recoveryFailedList w) then w
     else set_recoveryFailedList (recoveryFailedList w ++ [name]) w).

(** What a strategy does when it retires a task: the state of the upload is updated by a
    goroutine, a recovery is recorded as failed. *)
Definition on_retire (q : qid) w (r : ref) : world V :=
  match object_of r.2 with
  | None => w
  | Some o =>
    match q with
    | uploadQueue | resumableUploadQueue =>
      add_job (JProgress (progress (ObjId o) TaskState_UPLOAD_OBJECT_ERROR "expired")) w
    | replicateQueue => add_job (JProgress (progress (ObjId o) TaskState_REPLICATE_OBJECT_ERROR "expired")) w
    | sealQueue => add_job (JProgress (progress (ObjId o) TaskState_SEAL_OBJECT_ERROR "expired")) w
    | recoveryQueue => recovery_failed (ObjectName o) (Key r.2) w
    | _ => w
    end
  end.

(** The tasks on which a strategy is called and says true.  (A deletion that follows asks
    the strategy again, whose second update is the same as the first.) *)
Definition fired_key (tm : Z) (key : TKey) (Q : GfSpTQueue ref) : list ref :=
  match tasks Q !! key with Some r => if retired tm Q r then [r] else [] | None => [] end.
Definition fired_all (tm : Z) (ord : list ref -> list ref) (Q : GfSpTQueue ref) : list ref :=
  filter (fun r => retired tm Q r) (ord (values Q)).
Definition fired_push (tm : Z) (r : ref) (Q : GfSpTQueue ref) : list ref :=
  fired_key tm (qkey r) Q ++
  let '(Q, h) := has tm (qkey r) Q in
  if h then [] else if exceed Q then option_list (first_retired tm (SortKeys (tasks Q)) Q) else [].

(** The Reset strategies change the tasks they are called on. *)
Definition touch_key (q : qid) (tm : Z) (key : TKey) (Q : GfSpTQueue ref) : GfSpTQueue ref :=
  if resets q then set_tasks (alter (upd (reset tm)) key (tasks Q)) Q else Q.
Definition touch_all (q : qid) (tm : Z) (Q : GfSpTQueue ref) : GfSpTQueue ref :=
  if resets q then set_tasks (upd (reset tm) <$> tasks Q) Q else Q.
Definition touch_push (q : qid) (tm : Z) (r : ref) (Q : GfSpTQueue ref) : GfSpTQueue ref :=
  let Q := touch_key q tm (qkey r) Q in
  let '(Q', h) := has tm (qkey r) Q in
  if negb h && exceed Q' then touch_all q tm Q else Q.

(** One call of a queue: the strategy's changes, the operation, the strategy's effects. *)
Definition call (q : qid) {B} (touch : GfSpTQueue ref -> GfSpTQueue ref) (fired : GfSpTQueue ref -> list ref)
  (op : GfSpTQueue ref -> GfSpTQueue ref * B) : prog (world V) B :=
  act (fun w =>
    let Q := touch (queues w q) in
    let '(Q', b) := op Q in
    (foldl (on_retire q) (set_queue q Q' w) (fired Q), b)).

Definition qlen (q : qid) : prog (world V) Z := asks (fun w => Len (queues w q)).
Definition qhas e (q : qid) (key : TKey) : prog (world V) bool :=
  call q (touch_key q (now e) key) (fired_key (now e) key) (Has (now e) key).
Definition qpush e (q : qid) (r : ref) : prog (world V) (option queue_error) :=
  call q (touch_push q (now e) r) (fired_push (now e) r) (Push (now e) r).
Definition qpop_key e (q : qid) (key : TKey) : prog (world V) (option ref) :=
  call q (touch_key q (now e) key) (fired_key (now e) key) (PopByKey (now e) key).
(** [PopTask] deletes through [has], which asks the strategy when the pointer is found. *)
Definition qpop_task e (q : qid) (r : ref) : prog (world V) bool :=
  call q (touch_key q (now e) (qkey r))
    (fun Q => match tasks Q !! qkey r with
              | Some r' => if decide (r'.1 = r.1) then fired_key (now e) (qkey r) Q else []
              | None => []
              end)
    (fun Q => match tasks Q !! qkey r with
              | Some r' => if decide (r'.1 = r.1) then (delete_ (now e) r' Q, true) else (Q, false)
              | None => (Q, false)
              end).
Definition qpop_unlimited e (q : qid) : prog (world V) (option ref) :=
  call q (touch_all q (now e)) (fired_all (now e) (order e))
    (fun Q => PopByLimit Unlimited.mk (now e) (order e (values Q)) Q).

(** A new pointer. *)
Definition new_task (x : task) : prog (world V) ref :=
  act (fun w => (set_next_ref (S (next_ref w)) w, (next_ref w, x))).

Definition spawn (j : job) : prog (world V) unit := modify (add_job j).

(** ** The database *)

Definition with_db {A} (f : spdb -> spdb * A) : prog (world V) A :=
  act (fun w => let '(d, a) := f (db w) in (set_db d w, a)).
Definition with_gdb {A} (f : gcdb -> gcdb * A) : prog (world V) A :=
  act (fun w => let '(d, a) := f (gdb w) in (set_gdb d w, a)).

(** The message of a duplicate key contains "Duplicate entry". *)
Definition is_duplicate (err : db_error) : bool :=
  match err with DbWrapped _ ErrDuplicateEntry => true | DbErr ErrDuplicateEntry => true | _ => false end.

(** ** Queries on the queues *)

Definition TaskUploading e (key : TKey) : prog (world V) bool :=
  b <-- qhas e uploadQueue key ;;
  if b then Ret true else
  b <-- qhas e replicateQueue key ;;
  if b then Ret true else
  b <-- qhas e sealQueue key ;;
  if b then Ret true else qhas e resumableUploadQueue key.

Definition TaskRecovering e (key : TKey) : prog (world V) bool := qhas e recoveryQueue key.

Definition UploadingObjectNumber : prog (world V) Z :=
  a <-- qlen uploadQueue ;;
  b <-- qlen replicateQueue ;;
  c <-- qlen sealQueue ;;
  d <-- qlen resumableUploadQueue ;;
  Ret (a + b + c + d).

(** ** Virtual groups *)

Section config.
Context (c : config).

(** A call of the virtual group manager that may panic. *)
Definition with_groups {A} (f : V -> option A) : prog (world V) A :=
  r <-- asks (fun w => f (virtualGroups w)) ;;
  match r with Some a => Ret a | None => Panic end.

Definition createGlobalVirtualGroup e (vgfID : Z) (params : option Params) : prog (world V) (option error) :=
  match match params with Some p => Ok p | None => query_storage_params e end with
  | Err msg => Ret (Some (ErrAnswer msg))
  | Ok params =>
    r <-- with_groups (GenerateGlobalVirtualGroupMeta
            (NewGenerateGVGSecondarySPsPolicyByPrefer params (gvgPreferSPList c)) (NewIDSetFromList (spBlackList c))) ;;
    match r with
    | Err err => Ret (Some (ErrVirtualGroup err))
    | Ok gvgMeta =>
      match query_vg_params e with
      | Err msg => Ret (Some (ErrAnswer msg))
      | Ok virtualGroupParams =>
        let msg := mkCreateGVG vgfID (gm_SecondarySPIDs gvgMeta) (vp_DepositDenom virtualGroupParams)
          (vp_GvgStakingPerBytes virtualGroupParams * gm_StakingStorageSize gvgMeta) in
        modify (fun w => set_created_gvgs (created_gvgs w ++ [msg]) w) ;;;
        Ret (ErrAnswer <$> send_create_gvg e msg)
      end
    end
  end.

Definition force_refresh e : prog (world V) unit :=
  r <-- act (fun w => match ForceRefreshMeta (vg_call e 1) (virtualGroups w) with
                      | Some v => (set_virtualGroups v w, true)
                      | None => (w, false)
                      end) ;;
  if r then Ret tt else Panic.

Definition pickGlobalVirtualGroup e (vgfID : Z) (params : Params) : prog (world V) (result error GlobalVirtualGroupMeta) :=
  r <-- with_groups (PickGlobalVirtualGroup (vg_call e 0) vgfID (gvgBlackList c)) ;;
  match r with
  | Ok gvg => Ret (Ok gvg)
  | Err _ =>
    err <-- createGlobalVirtualGroup e vgfID (Some params) ;;
    match err with
    | Some err => Ret (Err err)
    | None =>
      force_refresh e ;;;
      r <-- with_groups (PickGlobalVirtualGroup (vg_call e 2) vgfID (gvgBlackList c)) ;;
      Ret (match r with Ok gvg => Ok gvg | Err err => Err (ErrVirtualGroup err) end)
    end
  end.

(** PickVirtualGroupFamily of the manager. *)
Definition PickFamily e : prog (world V) (result error Z) :=
  r <-- with_groups (PickVirtualGroupFamily (vg_call e 0) (spBlackList c)) ;;
  match r with
  | Ok vgf => Ret (Ok (fm_ID vgf))
  | Err _ =>
    err <-- createGlobalVirtualGroup e 0 None ;;
    match err with
    | Some err => Ret (Err err)
    | None =>
      force_refresh e ;;;
      r <-- with_groups (PickVirtualGroupFamily (vg_call e 2) (spBlackList c)) ;;
      Ret (match r with Ok vgf => Ok (fm_ID vgf) | Err err => Err (ErrVirtualGroup err) end)
    end
  end.

(** ** Uploading *)

Definition insert_progress e (o : ObjectInfo) (isAgentUpload : bool) : prog (world V) (option error) :=
  r <-- with_db (InsertUploadProgress (now e) (ObjId o) isAgentUpload) ;;
  match r with
  | None => Ret None
  | Some err => Ret (if is_duplicate err then None else Some (ErrGfSpDB err))
  end.

(** [valid] says that no pointer of the task is nil. *)
Definition HandleCreateUploadObjectTask e (valid : bool) (t : GfSpUploadObjectTask.t) : prog (world V) (option error) :=
  if negb valid then Ret (Some ErrDanglingTask) else
  n <-- UploadingObjectNumber ;;
  if n >=? maxUploadObjectNumber c then Ret (Some ErrExceedTask) else
  uploading <-- TaskUploading e (Key t) ;;
  if uploading then Ret (Some ErrRepeatedTask) else
  r <-- new_task (TUpload t) ;;
  err <-- qpush e uploadQueue r ;;
  match err with
  | Some err => Ret (Some (ErrQueue err))
  | None => insert_progress e (GfSpUploadObjectTask.ObjectInfo_ t) (GfSpUploadObjectTask.IsAgentUpload t)
  end.

Definition set_group (gvgMeta : GlobalVirtualGroupMeta) (t : GfSpReplicatePieceTask.t) : GfSpReplicatePieceTask.t :=
  GfSpReplicatePieceTask.mk (GfSpReplicatePieceTask.Task t) (GfSpReplicatePieceTask.ObjectInfo_ t)
    (GfSpReplicatePieceTask.StorageParams t) (GfSpReplicatePieceTask.SecondaryAddresses t)
    (GfSpReplicatePieceTask.SecondarySignatures t) (GfSpReplicatePieceTask.Sealed t) (gm_ID gvgMeta)
    (gm_SecondarySPEndpoints gvgMeta) (GfSpReplicatePieceTask.NotAvailableSpIdx t) (GfSpReplicatePieceTask.IsAgentUploadTask t).

(** The replicate task of an object in a group; a timeout that panics has no task. *)
Definition replicate_task e (o : ObjectInfo) (params : Params) (isAgentUpload : bool) (gvgMeta : GlobalVirtualGroupMeta)
  : option GfSpReplicatePieceTask.t :=
  timeout ← TaskTimeout (options c) TypeTaskReplicatePiece (PayloadSize o);
  Some (set_group gvgMeta (GfSpReplicatePieceTask.InitReplicatePieceTask o params (TaskPriority TypeTaskReplicatePiece)
    timeout (TaskMaxRetry (options c) TypeTaskReplicatePiece) isAgentUpload (now e) (now e))).

Definition replicating (objectID : Z) (gvgMeta : GlobalVirtualGroupMeta) : UploadObjectMeta :=
  mkUploadMeta objectID TaskState_REPLICATE_OBJECT_DOING (gm_ID gvgMeta) (gm_SecondarySPEndpoints gvgMeta) [] "" 0 false.

(** [x] is the task whose object is to be replicated. *)
Definition pickGVGAndReplicate e (vgfID : Z) (x : task) (o : ObjectInfo) (params : Params) (isAgentUpload : bool)
  : prog (world V) (option error) :=
  r <-- pickGlobalVirtualGroup e vgfID params ;;
  match r with
  | Err err => modify (fun w => set_virtualGroups (ReleaseAllSP (virtualGroups w)) w) ;;; Ret (Some err)
  | Ok gvgMeta =>
    match replicate_task e o params isAgentUpload gvgMeta with
    | None => Panic
    | Some t =>
      let t := AppendLog (now_string e) "manager-create-replicate-task"
        (SetRetry (GetRetry x) (SetLogs (GetLogs x) (SetCreateTime (GetCreateTime x) t))) in
      r <-- new_task (TReplicate t) ;;
      err <-- qpush e replicateQueue r ;;
      match err with
      | Some err => Ret (Some (ErrQueue err))
      | None => spawn JBackUpTask ;;; spawn (JProgress (replicating (ObjId o) gvgMeta)) ;;; Ret None
      end
    end
  end.

Definition HandleDoneUploadObjectTask e (valid : bool) (t : GfSpUploadObjectTask.t) : prog (world V) (option error) :=
  if negb valid then Ret (Some ErrDanglingTask) else
  let o := GfSpUploadObjectTask.ObjectInfo_ t in
  qpop_key e uploadQueue (Key t) ;;;
  uploading <-- TaskUploading e (Key t) ;;
  if uploading then Ret (Some ErrRepeatedTask) else
  match Error t with
  | Some err =>
    spawn (JProgress (progress (ObjId o) TaskState_UPLOAD_OBJECT_ERROR (marshal e err))) ;;; Ret None
  | None =>
    pickGVGAndReplicate e (GfSpUploadObjectTask.VirtualGroupFamilyId t) (TUpload t) o
      (GfSpUploadObjectTask.StorageParams t) (GfSpUploadObjectTask.IsAgentUpload t)
  end.

(** ** Resumable uploads *)

Definition HandleCreateResumableUploadObjectTask e (valid : bool) (t : GfSpResumableUploadObjectTask.t)
  : prog (world V) (option error) :=
  if negb valid then Ret (Some ErrDanglingTask) else
  n <-- UploadingObjectNumber ;;
  if n >=? maxUploadObjectNumber c then Ret (Some ErrExceedTask) else
  uploading <-- TaskUploading e (Key t) ;;
  if uploading then Ret (Some ErrRepeatedTask) else
  r <-- new_task (TResumable t) ;;
  err <-- qpush e resumableUploadQueue r ;;
  match err with
  | Some err => Ret (Some (ErrQueue err))
  | None =>
    match context_err e with
    | Some err => qpop_task e resumableUploadQueue r ;;; Ret (Some (ErrContext err))
    | None => insert_progress e (GfSpResumableUploadObjectTask.ObjectInfo_ t) (GfSpResumableUploadObjectTask.IsAgentUpload t)
    end
  end.

Definition HandleDoneResumableUploadObjectTask e (valid : bool) (t : GfSpResumableUploadObjectTask.t)
  : prog (world V) (option error) :=
  if negb valid then Ret (Some ErrDanglingTask) else
  let o := GfSpResumableUploadObjectTask.ObjectInfo_ t in
  qpop_key e resumableUploadQueue (Key t) ;;;
  uploading <-- TaskUploading e (Key t) ;;
  if uploading then Ret (Some ErrRepeatedTask) else
  match Error t with
  | Some err =>
    spawn (JProgress (progress (ObjId o) TaskState_UPLOAD_OBJECT_ERROR (marshal e err))) ;;; Ret None
  | None =>
    if negb (GfSpResumableUploadObjectTask.Completed t) then Ret None else
    r <-- pickGlobalVirtualGroup e (GfSpResumableUploadObjectTask.VirtualGroupFamilyId t)
            (GfSpResumableUploadObjectTask.StorageParams t) ;;
    match r with
    | Err err => Ret (Some err)
    | Ok gvgMeta =>
      match replicate_task e o (GfSpResumableUploadObjectTask.StorageParams t)
              (GfSpResumableUploadObjectTask.IsAgentUpload t) gvgMeta with
      | None => Panic
      | Some rt =>
        r <-- new_task (TReplicate rt) ;;
        err <-- qpush e replicateQueue r ;;
        match err with
        | Some err => Ret (Some (ErrQueue err))
        | None => spawn JBackUpTask ;;; spawn (JProgress (replicating (ObjId o) gvgMeta)) ;;; Ret None
        end
      end
    end
  end.

(** ** Replicating *)

(** The retry after a secondary provider was not available: it is frozen with its groups of
    this provider, and another group is picked.  [ptr] and [t] are the queued task, [idx] the
    index of the provider. *)
Definition repick e (ptr : nat) (t : GfSpReplicatePieceTask.t) (idx : Z) : prog (world V) (option error) :=
  let o := GfSpReplicatePieceTask.ObjectInfo_ t in
  match query_object_info e (ObjId o) with
  | Err msg => Ret (Some (ErrAnswer msg))
  | Ok (sealed, updating) =>
    if sealed && negb updating then qpop_key e replicateQueue (Key t) ;;; Ret None else
    match query_gvg e (GfSpReplicatePieceTask.GlobalVirtualGroupId t) with
    | Err msg => Ret (Some (ErrAnswer msg))
    | Ok gvg =>
      if idx >=? Z.of_nat (length (cg_SecondarySpIds gvg)) then
        err <-- qpush e replicateQueue (ptr, TReplicate t) ;;
        Ret (ErrQueue <$> err)
      else
        match (if idx <? 0 then None else cg_SecondarySpIds gvg !! Z.to_nat idx) with
        | None => Panic
        | Some sspID =>
          match list_gvgs_by_secondary e sspID with
          | Err msg => Ret (Some (ErrAnswer msg))
          | Ok sspJoinGVGs =>
            match own_sp_id e with
            | Err msg => Ret (Some (ErrAnswer msg))
            | Ok selfSPID =>
              let shouldFreezeGVGs := filter (fun g => cg_PrimarySpId g = selfSPID) sspJoinGVGs in
              modify (fun w => set_virtualGroups (FreezeSPAndGVGs (now e) sspID shouldFreezeGVGs (virtualGroups w)) w) ;;;
              pickGVGAndReplicate e (cg_FamilyId gvg) (TReplicate t) o (GfSpReplicatePieceTask.StorageParams t)
                (GfSpReplicatePieceTask.IsAgentUploadTask t)
            end
          end
        end
    end
  end.

(** [t] is the report of the executor. *)
Definition handleFailedReplicatePieceTask e (t : GfSpReplicatePieceTask.t) : prog (world V) (option error) :=
  old <-- qpop_key e replicateQueue (Key t) ;;
  uploading <-- TaskUploading e (Key t) ;;
  if uploading then Ret (Some ErrRepeatedTask) else
  match old with
  | None => Ret (Some ErrCanceledTask)
  | Some (ptr, TReplicate queued) =>
    if negb (ExceedRetry queued) then
      let queued := SetUpdateTime (now e) (AppendLog (now_string e) (GetLogs t)
        (AppendLog (now_string e) ("manager-handle-failed-replicate-task-repush:" +:+ pretty (GetRetry t)) queued)) in
      if negb (GfSpReplicatePieceTask.NotAvailableSpIdx t =? -1)
      then repick e ptr queued (GfSpReplicatePieceTask.NotAvailableSpIdx t)
      else
        err <-- qpush e replicateQueue (ptr, TReplicate queued) ;;
        Ret (ErrQueue <$> err)
    else
      spawn (JProgress (progress (ObjId (GfSpReplicatePieceTask.ObjectInfo_ queued)) TaskState_REPLICATE_OBJECT_ERROR
        "exceed_replicate_retry")) ;;;
      Ret None
  | Some _ => Panic
  end.

Definition seal_task e (t : GfSpReplicatePieceTask.t) : option GfSpSealObjectTask.t :=
  timeout ← TaskTimeout (options c) TypeTaskSealObject 0;
  Some (AppendLog (now_string e) "manager-create-seal-task" (SetLogs (GetLogs t) (SetCreateTime (GetCreateTime t)
    (GfSpSealObjectTask.InitSealObjectTask (GfSpReplicatePieceTask.GlobalVirtualGroupId t)
      (GfSpReplicatePieceTask.ObjectInfo_ t) (GfSpReplicatePieceTask.StorageParams t) (TaskPriority TypeTaskSealObject)
      (GfSpReplicatePieceTask.SecondaryEndpoints t) (GfSpReplicatePieceTask.SecondarySignatures t) timeout
      (TaskMaxRetry (options c) TypeTaskSealObject) (GfSpReplicatePieceTask.IsAgentUploadTask t) (now e) (now e))))).

Definition bytes_of (l : list Z) : bytes := byte_of <$> l.

Definition sealing (t : GfSpReplicatePieceTask.t) : UploadObjectMeta :=
  mkUploadMeta (ObjId (GfSpReplicatePieceTask.ObjectInfo_ t)) TaskState_SEAL_OBJECT_DOING
    (GfSpReplicatePieceTask.GlobalVirtualGroupId t) (GfSpReplicatePieceTask.SecondaryEndpoints t)
    (bytes_of <$> GfSpReplicatePieceTask.SecondarySignatures t) "" 0 false.

Definition HandleReplicatePieceTask e (valid : bool) (t : GfSpReplicatePieceTask.t) : prog (world V) (option error) :=
  if negb valid then Ret (Some ErrDanglingTask) else
  match Error t with
  | Some _ => handleFailedReplicatePieceTask e t ;;; Ret None
  | None =>
    qpop_key e replicateQueue (Key t) ;;;
    uploading <-- TaskUploading e (Key t) ;;
    if uploading then Ret (Some ErrRepeatedTask) else
    if GfSpReplicatePieceTask.Sealed t then
      spawn (JSealed (AppendLog (now_string e)
        ("manager-handle-succeed-replicate-task-retry:" +:+ pretty (GetRetry t)) t)) ;;; Ret None
    else
      let t := AppendLog (now_string e) "manager-handle-succeed-replicate-failed-seal" t in
      match seal_task e t with
      | None => Panic
      | Some st =>
        r <-- new_task (TSeal st) ;;
        err <-- qpush e sealQueue r ;;
        match err with
        | Some err => Ret (Some (ErrQueue err))
        | None => spawn JBackUpTask ;;; spawn (JProgress (sealing t)) ;;; Ret None
        end
      end
  end.

(** ** Sealing *)

Definition handleFailedSealObjectTask e (t : GfSpSealObjectTask.t) : prog (world V) (option error) :=
  old <-- qpop_key e sealQueue (Key t) ;;
  uploading <-- TaskUploading e (Key t) ;;
  if uploading then Ret (Some ErrRepeatedTask) else
  match old with
  | None => Ret (Some ErrCanceledTask)
  | Some (ptr, TSeal queued) =>
    if negb (ExceedRetry queued) then
      let text := match Error t with Some err => marshal e err | None => ""%string end in
      let queued := SetUpdateTime (now e) (AppendLog (now_string e) (GetLogs t)
        (AppendLog (now_string e) ("manager-handle-failed-seal-task-error:" +:+ text +:+ "-repush:" +:+ pretty (GetRetry t))
          queued)) in
      qpush e sealQueue (ptr, TSeal queued) ;;; Ret None
    else
      spawn (JProgress (progress (ObjId (GfSpSealObjectTask.ObjectInfo_ queued)) TaskState_SEAL_OBJECT_ERROR
        "exceed_seal_retry")) ;;;
      Ret None
  | Some _ => Panic
  end.

Definition HandleSealObjectTask e (valid : bool) (t : GfSpSealObjectTask.t) : prog (world V) (option error) :=
  if negb valid then Ret (Some ErrDanglingTask) else
  match Error t with
  | Some _ => handleFailedSealObjectTask e t ;;; Ret None
  | None => spawn (JSealDone t) ;;; Ret None
  end.

(** ** Confirming received pieces *)

Definition handleFailedReceivePieceTask e (t : GfSpReceivePieceTask.t) : prog (world V) (option error) :=
  old <-- qpop_key e receiveQueue (Key t) ;;
  match old with
  | None => Ret (Some ErrCanceledTask)
  | Some (ptr, TReceive queued) =>
    if negb (ExceedRetry queued)
    then qpush e receiveQueue (ptr, TReceive (SetUpdateTime (now e) queued)) ;;; Ret None
    else Ret None
  | Some _ => Panic
  end.

Definition HandleReceivePieceTask e (t : GfSpReceivePieceTask.t) : prog (world V) (option error) :=
  if GfSpReceivePieceTask.Sealed t then spawn (JPopReceive (Key t)) ;;; Ret None
  else match Error t with
       | Some _ => handleFailedReceivePieceTask e t ;;; Ret None
       | None => spawn (JReceive t) ;;; Ret None
       end.

(** ** Garbage collection *)

Definition HandleGCObjectTask e (t : GfSpGCObjectTask.t) : prog (world V) (option error) :=
  present <-- qhas e gcObjectQueue (Key t) ;;
  if negb present then Ret (Some ErrCanceledTask) else
  if GfSpGCObjectTask.CurrentBlockNumber t >? GfSpGCObjectTask.EndBlockNumber t then
    qpop_key e gcObjectQueue (Key t) ;;;
    with_gdb (DeleteGCObjectProgress (Key t)) ;;;
    Ret None
  else
    let t := SetUpdateTime (now e) t in
    old <-- qpop_key e gcObjectQueue (Key t) ;;
    match old with
    | None => Ret (Some ErrCanceledTask)
    | Some (_, TGCObject oldTask) =>
      if (GfSpGCObjectTask.CurrentBlockNumber oldTask >? GfSpGCObjectTask.CurrentBlockNumber t)
         || ((GfSpGCObjectTask.CurrentBlockNumber oldTask =? GfSpGCObjectTask.CurrentBlockNumber t)
             && (GfSpGCObjectTask.LastDeletedObjectId oldTask >? GfSpGCObjectTask.LastDeletedObjectId t))
      then Ret (Some ErrCanceledTask)
      else
        r <-- new_task (TGCObject t) ;;
        qpush e gcObjectQueue r ;;;
        with_gdb (UpdateGCObjectProgress (now e)
          (mkGCMeta (Key t) 0 0 (GfSpGCObjectTask.GetGCObjectProgress t).1 (GfSpGCObjectTask.GetGCObjectProgress t).2)) ;;;
        Ret None
    | Some _ => Panic
    end.

(** The last part of the other reports: a task that failed is queued again, in place of the
    one that was dispatched. *)
Definition retry_report e (q : qid) (x : task) : prog (world V) (result error (option queue_error)) :=
  old <-- qpop_key e q (Key x) ;;
  match old with
  | None => Ret (Err ErrCanceledTask)
  | Some old =>
    if ExceedRetry old.2 then Ret (Err ErrCanceledTask) else
    r <-- new_task x ;;
    err <-- qpush e q r ;;
    Ret (Ok err)
  end.

Definition handle_gc_report e (q : qid) (clear : bool) (x : task) : prog (world V) (option error) :=
  present <-- qhas e q (Key x) ;;
  if negb present then Ret (Some ErrCanceledTask) else
  match Error x with
  | None => qpop_key e q (Key x) ;;; Ret None
  | Some _ =>
    let x := SetUpdateTime (now e) x in
    r <-- retry_report e q (if clear then SetError (unmarshal e) None x else x) ;;
    Ret (match r with Err err => Some err | Ok _ => None end)
  end.

Definition HandleGCZombiePieceTask e (t : GfSpGCZombiePieceTask.t) : prog (world V) (option error) :=
  handle_gc_report e gcZombieQueue false (TGCZombie t).
Definition HandleGCStaleVersionObjectTask e (t : GfSpGCStaleVersionObjectTask.t) : prog (world V) (option error) :=
  handle_gc_report e gcStaleVersionObjectQueue false (TGCStaleVersion t).
Definition HandleGCMetaTask e (t : GfSpGCMetaTask.t) : prog (world V) (option error) :=
  handle_gc_report e gcMetaQueue true (TGCMeta t).

Definition HandleCreateGCBucketMigrationTask e (t : GfSpGCBucketMigrationTask.t) : prog (world V) (option error) :=
  present <-- qhas e gcBucketMigrationQueue (Key t) ;;
  if present then Ret (Some ErrRepeatedTask) else
  r <-- new_task (TGCBucketMigration t) ;;
  err <-- qpush e gcBucketMigrationQueue r ;;
  Ret (ErrQueue <$> err).

(** [bucketSize] is the answer of getBucketTotalSize; an error ends it. *)
Definition GenerateGCBucketMigrationTask e (bucketID : Z) (bucketSize : option Z) : prog (world V) unit :=
  match bucketSize with
  | None => Ret tt
  | Some size =>
    match TaskTimeout (options c) TypeTaskGCBucketMigration size with
    | None => Panic
    | Some timeout =>
      HandleCreateGCBucketMigrationTask e
        (GfSpGCBucketMigrationTask.InitGCBucketMigrationTask (TaskPriority TypeTaskGCBucketMigration) bucketID timeout
          (TaskMaxRetry (options c) TypeTaskGCBucketMigration) (now e)) ;;;
      Ret tt
    end
  end.

Definition HandleGCBucketMigrationTask e (t : GfSpGCBucketMigrationTask.t) : prog (world V) (option error) :=
  present <-- qhas e gcBucketMigrationQueue (Key t) ;;
  if negb present then Ret (Some ErrCanceledTask) else
  match update_gc_progress e with
  | Some err => Ret (Some (ErrAnswer err))
  | None =>
    match Error t with
    | None =>
      if GfSpGCBucketMigrationTask.Finished t then qpop_key e gcBucketMigrationQueue (Key t) ;;; Ret None else Ret None
    | Some _ =>
      r <-- retry_report e gcBucketMigrationQueue
              (TGCBucketMigration (SetError (unmarshal e) None (SetUpdateTime (now e) t))) ;;
      Ret (match r with Err err => Some err | Ok err => ErrQueue <$> err end)
    end
  end.

(** ** Caches *)

Definition HandleDownloadObjectTask e (t : GfSpDownloadObjectTask.t) : prog (world V) (option error) :=
  r <-- new_task (TDownload t) ;;
  err <-- qpush e downloadQueue r ;;
  Ret (ErrQueue <$> err).

Definition HandleChallengePieceTask e (t : GfSpChallengePieceTask.t) : prog (world V) (option error) :=
  r <-- new_task (TChallenge t) ;;
  err <-- qpush e challengeQueue r ;;
  Ret (ErrQueue <$> err).

(** ** Recovery *)

Definition add_segment_record (t : GfSpRecoverPieceTask.t) (success : bool) w : world V :=
  let o := GfSpRecoverPieceTask.ObjectInfo_ t in
  set_recoverObjectStats
    (addSegmentRecord (ObjId o) (ObjVersion o) success (GfSpRecoverPieceTask.SegmentIdx t) (recoverObjectStats w)) w.

Definition handleFailedRecoverPieceTask e (t : GfSpRecoverPieceTask.t) : prog (world V) (option error) :=
  old <-- qpop_key e recoveryQueue (Key t) ;;
  match old with
  | None => Ret (Some ErrCanceledTask)
  | Some (ptr, TRecover t) =>
    let o := GfSpRecoverPieceTask.ObjectInfo_ t in
    if negb (ExceedRetry t) then
      qpush e recoveryQueue (ptr, TRecover (SetUpdateTime (now e) t)) ;;; Ret None
    else
      modify (recovery_failed (ObjectName o) (Key t)) ;;;
      if GfSpRecoverPieceTask.BySuccessorSp t then
        modify (add_segment_record t false) ;;;
        failed <-- asks (fun w => isRecoverFailed (ObjId o) (ObjVersion o) (recoverObjectStats w)) ;;
        if failed then
          err <-- with_gdb (InsertRecoverFailedObject (ObjId o) (GfSpRecoverPieceTask.GvgId t) (GfSpRecoverPieceTask.EcIdx t)) ;;
          Ret (ErrGfSpDB <$> err)
        else Ret None
      else Ret None
  | Some _ => Panic
  end.

Definition HandleRecoverPieceTask e (valid : bool) (t : GfSpRecoverPieceTask.t) : prog (world V) (option error) :=
  if negb valid then Ret (Some ErrDanglingTask) else
  let rest : prog (world V) (option error) :=
    match Error t with
    | Some _ => handleFailedRecoverPieceTask e t
    | None =>
      recovering <-- TaskRecovering e (Key t) ;;
      if recovering then Ret (Some ErrRepeatedTask) else
      r <-- new_task (TRecover (SetUpdateTime (now e) t)) ;;
      err <-- qpush e recoveryQueue r ;;
      match err with
      | Some err => Ret (Some (ErrQueue err))
      | None => modify (fun w => set_recoveryTaskMap ({[Key t]} ∪ recoveryTaskMap w) w) ;;; Ret None
      end
    end in
  if GfSpRecoverPieceTask.Recovered t then
    qpop_key e recoveryQueue (Key t) ;;;
    modify (fun w => set_recoveryTaskMap (recoveryTaskMap w ∖ {[Key t]}) w) ;;;
    if GfSpRecoverPieceTask.BySuccessorSp t then modify (add_segment_record t true) ;;; Ret None else rest
  else rest.

(** ** Migration of virtual groups *)

(** migrateGVGQueueMux makes a pop and a push one action. *)
Definition migrateGVGQueuePush e (r : ref) : prog (world V) (option queue_error) := atomic (qpush e migrateGVGQueue r).
Definition migrateGVGQueuePopByLimit e : prog (world V) (option ref) := atomic (qpop_unlimited e migrateGVGQueue).
Definition migrateGVGQueuePopByKey e (key : TKey) : prog (world V) unit :=
  atomic (qpop_key e migrateGVGQueue key ;;; Ret tt).

Definition migrateGVGQueuePopByLimitAndPushAgain e (t : GfSpMigrateGVGTask.t) (push : bool)
  : prog (world V) (option queue_error) :=
  r <-- new_task (TMigrateGVG (SetUpdateTime (now e) t)) ;;
  atomic (
    qpop_key e migrateGVGQueue (Key t) ;;;
    if negb (GfSpMigrateGVGTask.Finished t) && push then qpush e migrateGVGQueue r else Ret None).

Definition HandleMigrateGVGTask e (t : GfSpMigrateGVGTask.t) : prog (world V) (option error) :=
  let bucketID := GfSpMigrateGVGTask.BucketId t in
  let cancelTask := negb (bucketID =? 0) && negb (has_execute_plan e bucketID) in
  pushErr <-- migrateGVGQueuePopByLimitAndPushAgain e t (negb cancelTask) ;;
  match pushErr with
  | Some err => Ret (Some (ErrQueue err))
  | None => Ret (ErrAnswer <$> (if cancelTask then post_migrate_bucket e else update_migrate_progress e))
  end.

End config.
End manager.
