(* ===== verification/ManagerRun.v ===== *)
(** modular/manager: dispatching, the jobs that handlers spawn, and the requests.

    A round of backUpTask takes at most one task out of each of ten queues, draws one of them
    by priority for the channel that DispatchTask reads, and puts the others back.  The
    server of base/gfspapp/manage_server.go calls the handlers by the type of the task. *)
From Stdlib Require Import ZArith Lia.
From stdpp Require Import base gmap list strings sorting pretty option.
From S2P Require Import Prelude Proc Sql Checksum Hex UploadDb ManagerDb Limit TaskKey Task TaskTypes.
From S2P Require Import TQueue VGroup ManagerTask Manager.

Local Open Scope Z_scope.
Local Open Scope go_scope.
Local Open Scope prog_scope.

(** ** PickUpTask *)

Definition priority_le (a b : ref) : Prop := GetPriority a.2 <= GetPriority b.2.
#[export] Instance priority_le_dec : RelDecision priority_le.
Proof. intros a b. unfold priority_le. apply _. Defined.

Definition total_priority (l : list ref) : Z := foldr (fun r n => GetPriority r.2 + n) 0 l.

(** The first task at which the sum of the priorities reaches the draw, and the others. *)
Fixpoint reach (randPriority sum : Z) (l : list ref) : option (ref * list ref) :=
  match l with
  | [] => None
  | t :: l =>
    let sum := sum + GetPriority t.2 in
    if sum >=? randPriority then Some (t, l)
    else match reach randPriority sum l with
         | Some (p, rest) => Some (p, t :: rest)
         | None => None
         end
  end.

(** sort.Slice is not stable: [ties] is the order it finds equal priorities in.  [draw] is a
    random number, of which [Intn] takes the remainder. *)
Definition PickUpTask (ties : list ref -> list ref) (draw : Z) (now_string : string) (tasks : list ref)
  : option ref * list ref :=
  match tasks with
  | [] => (None, [])
  | [t] => (Some t, [])
  | _ =>
    let tasks := merge_sort priority_le (ties tasks) in
    let totalPriority := total_priority tasks in
    if totalPriority <=? 0 then (None, [])
    else match reach (draw mod totalPriority) 0 tasks with
         | Some (t, rest) => (Some (upd (AppendLog now_string "pickup-to-backup-task-pool") t), rest)
         | None => (None, tasks)
         end
  end.

Section manager.
Context {V E : Type} `{VirtualGroupManager V E}.
Implicit Types (w : world V) (e : env E).

(** ** Moving tasks between queues and the channel *)

(** The type switch; other types are ignored. *)
Definition queue_of (x : task) : option qid :=
  match x with
  | TReplicate _ => Some replicateQueue
  | TSeal _ => Some sealQueue
  | TReceive _ => Some receiveQueue
  | TGCObject _ => Some gcObjectQueue
  | TGCZombie _ => Some gcZombieQueue
  | TGCMeta _ => Some gcMetaQueue
  | TRecover _ => Some recoveryQueue
  | TMigrateGVG _ => Some migrateGVGQueue
  | TGCBucketMigration _ => Some gcBucketMigrationQueue
  | TGCStaleVersion _ => Some gcStaleVersionObjectQueue
  | TUpload _ | TResumable _ | TDownload _ | TChallenge _ => None
  end.

Definition repushTask e (r : ref) : prog (world V) unit :=
  match queue_of r.2 with
  | Some migrateGVGQueue => migrateGVGQueuePush e r ;;; Ret tt
  | Some q => qpush e q r ;;; Ret tt
  | None => Ret tt
  end.

Definition lock : prog (world V) unit :=
  Act (fun w => if backupTaskMux w then None else Some (set_backupTaskMux true w, tt)) Ret.
Definition unlock : prog (world V) unit := modify (set_backupTaskMux false).

Definition add_backupTaskNum (n : Z) : prog (world V) unit :=
  modify (fun w => set_backupTaskNum (backupTaskNum w +' n) w).

(** The queues in the order backUpTask asks them. *)
Definition backup_queues : list qid :=
  [replicateQueue; sealQueue; gcObjectQueue; gcZombieQueue; gcMetaQueue; receiveQueue; recoveryQueue; migrateGVGQueue;
   gcBucketMigrationQueue; gcStaleVersionObjectQueue].

Fixpoint pop_all e (qs : list qid) : prog (world V) (list ref) :=
  match qs with
  | [] => Ret []
  | q :: qs =>
    r <-- (if decide (q = migrateGVGQueue) then migrateGVGQueuePopByLimit e else qpop_unlimited e q) ;;
    rest <-- pop_all e qs ;;
    Ret (option_list r ++ rest)
  end.

Section config.
Context (c : config).

(** The channel is buffered: a send waits while it is full, a receive while it is empty. *)
Definition send (r : ref) : prog (world V) unit :=
  Act (fun w => if decide (length (taskCh w) < taskChCap c)%nat then Some (set_taskCh (taskCh w ++ [r]) w, tt) else None) Ret.
Definition receive : prog (world V) ref :=
  Act (fun w => match taskCh w with r :: ch => Some (set_taskCh ch w, r) | [] => None end) Ret.

Definition picked_logs (s : string) (x : task) : task :=
  AppendLog s "end-pickup-task-to-dispatch" (AppendLog s ("start-pickup-task-to-dispatch:" +:+ s)
    (AppendLog s ("end-pop-task-from-queue:" +:+ s) (AppendLog s ("start-pop-task-from-queue:" +:+ s) x))).

Definition backUpTask e : prog (world V) unit :=
  lock ;;;
  backupTasks <-- pop_all e backup_queues ;;
  (let '(targetTask, reservedTasks) := PickUpTask (ties e) (draw e) (now_string e) backupTasks in
   match targetTask with
   | Some t => add_backupTaskNum 1 ;;; send (upd (picked_logs (now_string e)) t)
   | None => Ret tt
   end ;;;
   for_each (repushTask e) reservedTasks) ;;;
  unlock.

(** What the executor is sent: the task as it goes back to its queue. *)
Definition dispatched e (x : task) : task :=
  SetAddress (remote_address e) (SetUpdateTime (now e) (SetError (unmarshal e) None (IncRetry x))).

(** [patience] is the number of tasks it receives before its context is done. *)
Fixpoint DispatchTask e (patience : nat) (limit : GfSpLimit.t) : prog (world V) (option ref) :=
  match patience with
  | O => Ret None
  | S patience =>
    r <-- receive ;;
    add_backupTaskNum (-1) ;;;
    if negb (NotLess limit (qestimate r)) then
      spawn (JResend r) ;;; DispatchTask e patience limit
    else
      let r := upd (dispatched e) r in
      repushTask e r ;;; Ret (Some r)
  end.

(** ** The jobs *)

Definition stale_task e (timeout : Z) (meta : ShadowIntegrityMeta) : GfSpGCStaleVersionObjectTask.t :=
  GfSpGCStaleVersionObjectTask.InitGCStaleVersionObjectTask (TaskPriority TypeTaskGCStaleVersionObject) (sm_ObjectID meta)
    (sm_RedundancyIndex meta) (byte_val <$> sm_IntegrityChecksum meta)
    ((fun l : bytes => byte_val <$> l) <$> sm_PieceChecksumList meta) (sm_Version meta) (sm_ObjectSize meta) timeout (now e) (now e).

Definition push_stale e (meta : ShadowIntegrityMeta) : prog (world V) unit :=
  match TaskTimeout (options c) TypeTaskGCStaleVersionObject 0 with
  | None => Panic
  | Some timeout =>
    r <-- new_task (TGCStaleVersion (stale_task e timeout meta)) ;;
    qpush e gcStaleVersionObjectQueue r ;;; Ret tt
  end.

Definition PrimarySPRedundancyIndex : Z := -1.

(** After a replication that also sealed the object. *)
Definition sealed_job e (t : GfSpReplicatePieceTask.t) : prog (world V) unit :=
  let o := GfSpReplicatePieceTask.ObjectInfo_ t in
  with_db (UpdateUploadProgress (now e) (progress (ObjId o) TaskState_SEAL_OBJECT_DONE "")) ;;;
  with_db (DeleteUploadProgress (ObjId o)) ;;;
  (if GfSpReplicatePieceTask.IsAgentUploadTask t
   then with_db (DeleteReplicatePieceChecksumsByObjectID (ObjId o)) ;;; Ret tt else Ret tt) ;;;
  if ObjIsUpdating o then
    r <-- with_db (GetShadowObjectIntegrity (ObjId o) PrimarySPRedundancyIndex) ;;
    match r with
    | Err _ => Ret tt
    | Ok meta => push_stale e meta
    end
  else Ret tt.

Definition seal_done_job e (t : GfSpSealObjectTask.t) : prog (world V) unit :=
  let o := GfSpSealObjectTask.ObjectInfo_ t in
  qpop_key e sealQueue (Key t) ;;;
  err <-- with_db (UpdateUploadProgress (now e) (progress (ObjId o) TaskState_SEAL_OBJECT_DONE "")) ;;
  match err with
  | Some _ => Ret tt
  | None => with_db (DeleteUploadProgress (ObjId o)) ;;; Ret tt
  end.

Definition receive_job e (t : GfSpReceivePieceTask.t) : prog (world V) unit :=
  match TaskTimeout (options c) TypeTaskReceivePiece 0 with
  | None => Panic
  | Some timeout =>
    r <-- new_task (TReceive (SetUpdateTime (now e) (SetPriority (TaskPriority TypeTaskReceivePiece)
            (SetTimeout timeout (SetMaxRetry (TaskMaxRetry (options c) TypeTaskReceivePiece) (SetRetry 0 t)))))) ;;
    err <-- qpush e receiveQueue r ;;
    match err with
    | Some _ => Ret tt
    | None => spawn JBackUpTask
    end
  end.

Definition job_prog e (j : job) : prog (world V) unit :=
  match j with
  | JBackUpTask => backUpTask e
  | JProgress meta => with_db (UpdateUploadProgress (now e) meta) ;;; Ret tt
  | JSealed t => sealed_job e t
  | JSealDone t => seal_done_job e t
  | JResend r => send r ;;; add_backupTaskNum 1
  | JReceive t => receive_job e t
  | JPopReceive key => qpop_key e receiveQueue key ;;; Ret tt
  end.

(** ** The ticks of eventLoop *)

(** [height] is the answer of CurrentHeight.  The two positions are read and written by this
    loop only. *)
Definition gc_object_tick e (height : option Z) : prog (world V) unit :=
  start <-- asks gcBlockHeight ;;
  let end_ := uwrap 64 (start + gcObjectBlockInterval c) in
  match height with
  | None => Ret tt
  | Some currentBlockHeight =>
    if uwrap 64 (end_ + gcSafeBlockDistance c) >? currentBlockHeight then Ret tt else
    match TaskTimeout (options c) TypeTaskGCObject 0 with
    | None => Panic
    | Some timeout =>
      let t := GfSpGCObjectTask.InitGCObjectTask (TaskPriority TypeTaskGCObject) start end_ timeout (now e) (now e) in
      r <-- new_task (TGCObject t) ;;
      err <-- qpush e gcObjectQueue r ;;
      match err with
      | Some _ => Ret tt
      | None =>
        modify (set_gcBlockHeight (uwrap 64 (end_ + 1))) ;;;
        with_gdb (InsertGCObjectProgress (now e) (mkGCMeta (Key t) start end_ 0 0)) ;;;
        Ret tt
      end
    end
  end.

(** [max_id] is the answer of GetLatestObjectID. *)
Definition gc_zombie_tick e (max_id : option Z) : prog (world V) unit :=
  if negb (gcZombiePieceEnabled c) then Ret tt else
  start <-- asks gcZombiePieceObjectID ;;
  let end_ := uwrap 64 (start + gcZombiePieceObjectIDInterval c) in
  match max_id with
  | None => Ret tt
  | Some currentMaxObjectID =>
    if uwrap 64 (end_ + gcZombiePieceSafeObjectIDDistance c) >? currentMaxObjectID
    then modify (set_gcZombiePieceObjectID 0)
    else
      match TaskTimeout (options c) TypeTaskGCZombiePiece 0 with
      | None => Panic
      | Some timeout =>
        r <-- new_task (TGCZombie (GfSpGCZombiePieceTask.InitGCZombiePieceTask (TaskPriority TypeTaskGCZombiePiece)
                start end_ timeout (now e) (now e))) ;;
        err <-- qpush e gcZombieQueue r ;;
        match err with
        | Some _ => Ret tt
        | None => modify (set_gcZombiePieceObjectID (uwrap 64 (end_ + 1)))
        end
      end
  end.

Definition gc_meta_tick e : prog (world V) unit :=
  if negb (gcMetaEnabled c) then Ret tt else
  match TaskTimeout (options c) TypeTaskGCMeta 0 with
  | None => Panic
  | Some timeout =>
    r <-- new_task (TGCMeta (GfSpGCMetaTask.InitGCMetaTask (TaskPriority TypeTaskGCMeta) timeout (now e) (now e))) ;;
    qpush e gcMetaQueue r ;;; Ret tt
  end.

(** [scan] is the order the database returns the rows of an object in. *)
Definition gcObjectStaleVersionPiece e (scan : list ShadowIntegrityMetaTable -> list ShadowIntegrityMetaTable)
  : prog (world V) unit :=
  r <-- with_db (ListShadowIntegrityMeta scan) ;;
  match r with
  | Err _ => Ret tt
  | Ok metas => for_each (push_stale e) metas
  end.

(** ** manage_server.go *)

Inductive server_error :=
| ErrUnsupportedTaskType
| ErrNoTaskMatchLimit
| ErrManager (err : error).

(** A request holds a task whose object and parameters are there. *)
Definition GfSpBeginTask e (x : task) : prog (world V) (option server_error) :=
  match x with
  | TUpload t => err <-- HandleCreateUploadObjectTask c e true t ;; Ret (ErrManager <$> err)
  | TResumable t => err <-- HandleCreateResumableUploadObjectTask c e true t ;; Ret (ErrManager <$> err)
  | _ => Ret (Some ErrUnsupportedTaskType)
  end.

Definition GfSpReportTask e (x : task) : prog (world V) (option server_error) :=
  let at_peer {T} `{CoreTask T} (t : T) : T := SetAddress (remote_address e) t in
  let log {T} `{CoreTask T} (s : string) (t : T) : T := AppendLog (now_string e) (s +:+ pretty (GetRetry t)) t in
  err <-- match x with
          | TUpload t => HandleDoneUploadObjectTask c e true (at_peer (log "manager-receive-upload-task-retry:" t))
          | TResumable t => HandleDoneResumableUploadObjectTask c e true (at_peer t)
          | TReplicate t => HandleReplicatePieceTask c e true (at_peer (log "manager-receive-replicate-task-retry:" t))
          | TSeal t => HandleSealObjectTask e true (at_peer (log "manager-receive-seal-task-retry:" t))
          | TReceive t => HandleReceivePieceTask e (at_peer t)
          | TGCObject t => HandleGCObjectTask e (at_peer t)
          | TGCZombie t => HandleGCZombiePieceTask e (at_peer t)
          | TGCStaleVersion t => HandleGCStaleVersionObjectTask e (at_peer t)
          | TGCMeta t => HandleGCMetaTask e (at_peer t)
          | TDownload t => HandleDownloadObjectTask e (at_peer t)
          | TChallenge t => HandleChallengePieceTask e (at_peer t)
          | TRecover t => HandleRecoverPieceTask e true (at_peer t)
          | TMigrateGVG t => HandleMigrateGVGTask e (at_peer t)
          | TGCBucketMigration t => HandleGCBucketMigrationTask e (at_peer t)
          end ;;
  Ret (ErrManager <$> err).

(** The task is the one that is back in its queue: what is logged for the executor is logged
    there too, unless the task has left the queue and the channel since. *)
Definition upd_ptr (ptr : nat) (f : task -> task) (r : ref) : ref := if decide (r.1 = ptr) then upd f r else r.
Definition log_shared (ptr : nat) (s log : string) w : world V :=
  let f := upd_ptr ptr (AppendLog s log) in
  set_taskCh (f <$> taskCh w) (set_queues (fun q => set_tasks (f <$> tasks (queues w q)) (queues w q)) w).

Definition ask_log (x : task) : option string :=
  match x with
  | TReplicate t => Some ("manager-dispatch-replicate-task-retry:" +:+ pretty (GetRetry t))
  | TSeal t => Some ("manager-dispatch-seal-task-retry:" +:+ pretty (GetRetry t))
  | _ => None
  end.

Definition GfSpAskTask e (patience : nat) (limit : GfSpLimit.t) : prog (world V) (result server_error task) :=
  r <-- DispatchTask e patience limit ;;
  match r with
  | None => Ret (Err ErrNoTaskMatchLimit)
  | Some r =>
    match queue_of r.2 with
    | None => Ret (Err ErrUnsupportedTaskType)
    | Some _ =>
      match ask_log r.2 with
      | Some log => modify (log_shared r.1 (now_string e) log) ;;; Ret (Ok (AppendLog (now_string e) log r.2))
      | None => Ret (Ok r.2)
      end
    end
  end.

(** ** Statistics *)

Definition QueryTasksStats : prog (world V) (Z * Z * Z * Z * Z * Z * Z * list string) :=
  uploadTasks <-- qlen uploadQueue ;;
  replicateCount <-- qlen replicateQueue ;;
  sealCount <-- qlen sealQueue ;;
  resumableUploadCount <-- qlen resumableUploadQueue ;;
  migrateGVGCount <-- qlen migrateGVGQueue ;;
  recovery <-- asks (fun w => (Z.of_nat (size (recoveryTaskMap w)), recoveryFailedList w)) ;;
  Ret (uploadTasks, replicateCount, sealCount, resumableUploadCount, maxUploadObjectNumber c, migrateGVGCount,
       recovery.1, recovery.2).

Definition ResetRecoveryFailedList : prog (world V) (list string) :=
  modify (set_recoveryFailedList []) ;;; Ret [].

(** ** LoadTaskFromDB *)

(** The answers for the objects whose uploads were not finished: the object and whether its
    status is CREATED, the shadow of an object that is being updated (payload size and version),
    the parameters, the family of the bucket (the bucket may be missing without an error). *)
Record load_env := mkLoadEnv {
  env_of : Z -> env E;
  load_object : Z -> option (ObjectInfo * bool);
  load_shadow : ObjectInfo -> result string (Z * Z);
  load_params : ObjectInfo -> option Params;
  load_family : string -> result string (option Z);
  load_now : Z;
  load_rows : list UploadObjectProgressTable -> list UploadObjectProgressTable;
  load_scan : list GCObjectProgressTable -> list GCObjectProgressTable;
}.

Definition assignShadowObjectInfo (shadow : Z * Z) (o : ObjectInfo) : ObjectInfo :=
  mkObjectInfo (BucketName o) (ObjectName o) (ObjId o) shadow.1 (RedundancyType_ o) shadow.2 (ObjIsUpdating o).

(** What both loops do first: [Ok None] skips the object, an error ends the loading. *)
Definition loaded (l : load_env) (meta : UploadObjectMeta) : result error (option (ObjectInfo * Params)) :=
  match load_object l (um_ObjectID meta) with
  | None => Ok None
  | Some (o, created) =>
    match (if ObjIsUpdating o
           then match load_shadow l o with
                | Err msg => Err (ErrAnswer msg)
                | Ok shadow => Ok (Some (assignShadowObjectInfo shadow o))
                end
           else Ok (if created then Some o else None)) with
    | Err err => Err err
    | Ok None => Ok None
    | Ok (Some o) => Ok (match load_params l o with Some params => Some (o, params) | None => None end)
    end
  end.

(** Start loads the tasks before it fills the black list of groups. *)
Definition loading : config :=
  mkConfig (options c) (maxUploadObjectNumber c) (taskChCap c) (queueCap c) (gcObjectBlockInterval c)
    (gcSafeBlockDistance c) (gcZombiePieceEnabled c) (gcZombiePieceObjectIDInterval c)
    (gcZombiePieceSafeObjectIDDistance c) (gcMetaEnabled c) (enableLoadTask c) (loadTaskLimitToReplicate c)
    (loadTaskLimitToSeal c) (loadTaskLimitToGC c) (loadReplicateTimeout c) (loadSealTimeout c) (gvgPreferSPList c)
    (spBlackList c) ∅.

(** [Err r]: the function returns [r]. *)
Fixpoint load_replicate (l : load_env) (metas : list UploadObjectMeta) : prog (world V) (result (option error) unit) :=
  match metas with
  | [] => Ret (Ok tt)
  | meta :: metas =>
    match loaded l meta with
    | Err err => Ret (Err (Some err))
    | Ok None => load_replicate l metas
    | Ok (Some (o, params)) =>
      let e := env_of l (um_ObjectID meta) in
      match TaskTimeout (options c) TypeTaskReplicatePiece (PayloadSize o) with
      | None => Panic
      | Some _ =>
        match load_family l (BucketName o) with
        | Err msg => Ret (Err (Some (ErrAnswer msg)))
        | Ok None => Ret (Err None)
        | Ok (Some vgfID) =>
          r <-- pickGlobalVirtualGroup loading e vgfID params ;;
          match r with
          | Err err => Ret (Err (Some err))
          | Ok gvgMeta =>
            match replicate_task c e o params (um_IsAgentUpload meta) gvgMeta with
            | None => Panic
            | Some t =>
              with_db (UpdateUploadProgress (now e)
                (mkUploadMeta (um_ObjectID meta) (um_TaskState meta) (gm_ID gvgMeta) (gm_SecondarySPEndpoints gvgMeta)
                  (um_SecondarySignatures meta) (um_ErrorDescription meta) (um_CreateTimeStampSecond meta)
                  (um_IsAgentUpload meta))) ;;;
              r <-- new_task (TReplicate t) ;;
              qpush e replicateQueue r ;;;
              load_replicate l metas
            end
          end
        end
      end
    end
  end.

Fixpoint load_seal (l : load_env) (metas : list UploadObjectMeta) : prog (world V) (result (option error) unit) :=
  match metas with
  | [] => Ret (Ok tt)
  | meta :: metas =>
    match loaded l meta with
    | Err err => Ret (Err (Some err))
    | Ok None => load_seal l metas
    | Ok (Some (o, params)) =>
      let e := env_of l (um_ObjectID meta) in
      match TaskTimeout (options c) TypeTaskSealObject 0 with
      | None => Panic
      | Some timeout =>
        r <-- new_task (TSeal (GfSpSealObjectTask.InitSealObjectTask (um_GlobalVirtualGroupID meta) o params
                (TaskPriority TypeTaskSealObject) (um_SecondaryEndpoints meta)
                ((fun s : bytes => byte_val <$> s) <$> um_SecondarySignatures meta) timeout
                (TaskMaxRetry (options c) TypeTaskSealObject) (um_IsAgentUpload meta) (now e) (now e))) ;;
        qpush e sealQueue r ;;;
        load_seal l metas
      end
    end
  end.

Fixpoint load_gc (l : load_env) (metas : list GCObjectMeta) : prog (world V) unit :=
  match metas with
  | [] => Ret tt
  | meta :: metas =>
    let e := env_of l 0 in
    match TaskTimeout (options c) TypeTaskGCObject 0 with
    | None => Panic
    | Some timeout =>
      r <-- new_task (TGCObject (GfSpGCObjectTask.SetGCObjectProgress (gm_CurrentBlockHeight meta) (gm_LastDeletedObjectID meta)
              (GfSpGCObjectTask.InitGCObjectTask (TaskPriority TypeTaskGCObject) (gm_StartBlockHeight meta)
                (gm_EndBlockHeight meta) timeout (now e) (now e)))) ;;
      err <-- qpush e gcObjectQueue r ;;
      match err with
      | Some _ => load_gc l metas
      | None =>
        modify (fun w => if gm_EndBlockHeight meta >=? gcBlockHeight w
                         then set_gcBlockHeight (uwrap 64 (gm_EndBlockHeight meta + 1)) w else w) ;;;
        load_gc l metas
      end
    end
  end.

Definition LoadTaskFromDB (l : load_env) : prog (world V) (option error) :=
  if negb (enableLoadTask c) then Ret None else
  r <-- with_db (GetUploadMetasToReplicate (load_rows l) (load_now l) (loadTaskLimitToReplicate c) (loadReplicateTimeout c)) ;;
  match r with
  | Err err => Ret (Some (ErrGfSpDB err))
  | Ok replicateMetas =>
    r <-- load_replicate l replicateMetas ;;
    match r with
    | Err r => Ret r
    | Ok _ =>
      r <-- with_db (GetUploadMetasToSeal (load_rows l) (load_now l) (loadTaskLimitToSeal c) (loadSealTimeout c)) ;;
      match r with
      | Err err => Ret (Some (ErrGfSpDB err))
      | Ok sealMetas =>
        r <-- load_seal l sealMetas ;;
        match r with
        | Err r => Ret r
        | Ok _ =>
          r <-- with_gdb (GetGCMetasToGC (load_scan l) (loadTaskLimitToGC c)) ;;
          match r with
          | Err err => Ret (Some (ErrGfSpDB err))
          | Ok gcObjectMetas => load_gc l gcObjectMetas ;;; Ret None
          end
        end
      end
    end
  end.

(** ** Everything the manager is asked to do *)

(** The requests of the server, the ticks of the loop, and the tasks that the schedulers of
    migration, recovery and retries push. *)
Inductive request :=
| RBegin (x : task)
| RReport (x : task)
| RAsk (patience : nat) (limit : GfSpLimit.t)
| RPickFamily
| RBackUp
| RGCObject (height : option Z)
| RGCZombie (max_id : option Z)
| RGCMeta
| RStale (scan : list ShadowIntegrityMetaTable -> list ShadowIntegrityMetaTable)
| RGCBucketMigration (bucketID : Z) (size : option Z)
| RPush (x : task)
| RStats
| RResetFailed
| RLoad (l : load_env).

(** The result is the task an executor is handed, if any. *)
Definition serve e (rq : request) : prog (world V) (option task) :=
  match rq with
  | RBegin x => GfSpBeginTask e x ;;; Ret None
  | RReport x => GfSpReportTask e x ;;; Ret None
  | RAsk patience limit =>
    r <-- GfSpAskTask e patience limit ;;
    Ret (match r with Ok x => Some x | Err _ => None end)
  | RPickFamily => PickFamily c e ;;; Ret None
  | RBackUp => backUpTask e ;;; Ret None
  | RGCObject height => gc_object_tick e height ;;; Ret None
  | RGCZombie max_id => gc_zombie_tick e max_id ;;; Ret None
  | RGCMeta => gc_meta_tick e ;;; Ret None
  | RStale scan => gcObjectStaleVersionPiece e scan ;;; Ret None
  | RGCBucketMigration bucketID size => GenerateGCBucketMigrationTask c e bucketID size ;;; Ret None
  | RPush x => r <-- new_task x ;; repushTask e r ;;; Ret None
  | RStats => QueryTasksStats ;;; Ret None
  | RResetFailed => ResetRecoveryFailedList ;;; Ret None
  | RLoad l => LoadTaskFromDB l ;;; Ret None
  end.

End config.
End manager.
