(* ===== verification/ManagerFacts.v ===== *)
(** Facts on the manager: what every action keeps, by component of the state, and from it
    the invariant of every handler.

    The invariant: each queue keeps its strategies, its capacity and its keys, and holds only
    tasks of its dynamic type; what waits for an executor may be put back into a queue, and
    was below its number of retries when it was taken out. *)
From Stdlib Require Import ZArith Lia.
From stdpp Require Import base gmap list strings sorting pretty option.
From S2P Require Import Prelude Proc Sql Checksum Hex UploadDb ManagerDb Limit TaskKey Task TaskTypes.
From S2P Require Import TQueue TQueueProps VGroup ManagerTask Manager ManagerRun.

Local Open Scope Z_scope.
Local Open Scope go_scope.
Local Open Scope prog_scope.

Create HintDb manager.

(** ** Tasks *)

Lemma in_queue_set q b x : in_queue q (set_task b x) = in_queue q x.
Proof. by destruct q, x. Qed.

Lemma queue_of_set b x : queue_of (set_task b x) = queue_of x.
Proof. by destruct x. Qed.

Lemma queue_of_in x q : queue_of x = Some q -> in_queue q x = true.
Proof. destruct x; by intros [= <-]. Qed.

(** The tasks whose number of dispatches is limited. *)
Definition limited (x : task) : bool :=
  match x with TReplicate _ | TSeal _ | TReceive _ | TRecover _ => true | _ => false end.

Section tasks.
Context (c : config).

(** The limit that the manager itself has set. *)
Definition max_of (x : task) : option Z :=
  match x with
  | TReplicate _ => Some (TaskMaxRetry (options c) TypeTaskReplicatePiece)
  | TSeal _ => Some (TaskMaxRetry (options c) TypeTaskSealObject)
  | TReceive _ => Some (TaskMaxRetry (options c) TypeTaskReceivePiece)
  | _ => None
  end.

Record task_ok (x : task) : Prop := {
  retry_int64 : is_int64 (GetRetry x);
  max_int64 : is_int64 (GetMaxRetry x);
  max_set n : max_of x = Some n -> GetMaxRetry x = n
}.

(** A method that changes the base of a task but neither its limit nor, up to the width, the
    number of its retries. *)
Lemma task_ok_on f x :
  task_ok x -> (forall b, GfSpTask.MaxRetry (f b) = GfSpTask.MaxRetry b) ->
  (is_int64 (GetRetry x) -> is_int64 (GfSpTask.Retry (f (GetTask x)))) -> task_ok (on_task f x).
Proof.
  intros [Hr Hm Hs] Hf Hf'. split; unfold GetRetry, GetMaxRetry, on_task; rewrite ?get_set_task, ?Hf; auto.
  intros n. assert (max_of (set_task (f (GetTask x)) x) = max_of x) as -> by (by destruct x). apply Hs.
Qed.

Lemma task_ok_address a x : task_ok x -> task_ok (SetAddress a x).
Proof. intros H. by apply task_ok_on. Qed.
Lemma task_ok_update n x : task_ok x -> task_ok (SetUpdateTime n x).
Proof. intros H. by apply task_ok_on. Qed.
Lemma task_ok_log s l x : task_ok x -> task_ok (AppendLog s l x).
Proof. intros H. by apply task_ok_on. Qed.
Lemma task_ok_error u err x : task_ok x -> task_ok (SetError u err x).
Proof. intros H. by apply task_ok_on. Qed.
Lemma task_ok_retry n x : is_int64 n -> task_ok x -> task_ok (SetRetry n x).
Proof. intros Hn H. by apply task_ok_on. Qed.
Lemma task_ok_inc x : task_ok x -> task_ok (IncRetry x).
Proof. intros H. apply task_ok_on; [done..|]. intros _. apply swrap64_is_int64. Qed.
Lemma task_ok_reset tm x : task_ok x -> task_ok (reset tm x).
Proof. intros H. unfold reset. destruct (Expired tm x); [|done]. apply task_ok_retry; [done|]. done. Qed.
End tasks.

#[export] Hint Resolve task_ok_address task_ok_update task_ok_log task_ok_error task_ok_inc : manager.

Lemma in_queue_on q f x : in_queue q (on_task f x) = in_queue q x.
Proof. apply in_queue_set. Qed.
Lemma queue_of_on f x : queue_of (on_task f x) = queue_of x.
Proof. apply queue_of_set. Qed.

(** No method but SetCreateTime and SetUserAddress changes a key. *)
Lemma key_on f x :
  (forall b, GfSpTask.CreateTime (f b) = GfSpTask.CreateTime b) ->
  (forall b, GfSpTask.UserAddress (f b) = GfSpTask.UserAddress b) -> Key (on_task f x) = Key x.
Proof.
  intros Hf Hf'. destruct x as [t|t|t|t|t|t|t|t|t|t|t|t|t|t]; destruct t; cbn; try done;
    unfold GfSpGCObjectTask.Key, GfSpGCZombiePieceTask.Key, GfSpGCMetaTask.Key, GfSpGCStaleVersionObjectTask.Key,
      GfSpDownloadObjectTask.Key, GfSpChallengePieceTask.Key; cbn; by rewrite ?Hf, ?Hf'.
Qed.

Lemma key_reset tm x : Key (reset tm x) = Key x.
Proof. unfold reset. destruct (Expired tm x); [|done]. by apply key_on. Qed.

Lemma in_queue_reset q tm x : in_queue q (reset tm x) = in_queue q x.
Proof. unfold reset. destruct (Expired tm x); [apply in_queue_on|done]. Qed.

(** ** Queues *)

Section queues.
Context (c : config).

(** A task that may be in a queue. *)
Definition held (q : qid) (r : ref) : Prop := in_queue q r.2 = true /\ task_ok c r.2.

Record queue_ok (q : qid) (Q : GfSpTQueue ref) : Prop := {
  qo_inv : queue_inv Q;
  qo_settings : same_settings (new_queue c q) Q;
  qo_tasks : map_Forall (fun _ => held q) (tasks Q)
}.

Lemma queue_ok_sub q Q Q' : tasks Q' ⊆ tasks Q -> same_settings Q Q' -> queue_ok q Q -> queue_ok q Q'.
Proof.
  intros Hsub Hs [Hi Hn Ht]. split.
  - eapply inv_submap; [done|done|apply Hs].
  - by eapply same_settings_trans.
  - intros k r Hr. apply (Ht k). by eapply lookup_weaken.
Qed.

(** The tasks are changed in place. *)
Lemma queue_ok_fmap q Q f :
  (forall r, held q r -> held q (f r) /\ qkey (f r) = qkey r) ->
  queue_ok q Q -> queue_ok q (set_tasks (f <$> tasks Q) Q).
Proof.
  intros Hf [[Hk Hl] Hn Ht]. split; [split|destruct Hn; by split|].
  - intros k r. cbn [tasks set_tasks]. rewrite lookup_fmap_Some. intros (r' & <- & Hr').
    rewrite (proj2 (Hf r' (Ht _ _ Hr'))). by apply Hk.
  - unfold Len in *. cbn [tasks cap set_tasks]. by rewrite map_size_fmap.
  - intros k r. cbn. rewrite lookup_fmap_Some. intros (r' & <- & Hr'). apply Hf, (Ht _ _ Hr').
Qed.

Lemma held_upd q g r : (forall x, in_queue q (g x) = in_queue q x) -> (forall x, task_ok c x -> task_ok c (g x)) ->
  held q r -> held q (upd g r).
Proof. intros H1 H2 [? ?]. split; cbn; [by rewrite H1|auto]. Qed.

Lemma touch_all_ok q tm Q : queue_ok q Q -> queue_ok q (touch_all q tm Q).
Proof.
  unfold touch_all. destruct (resets q); [|done]. apply queue_ok_fmap. intros r Hr. split.
  - apply held_upd; [apply in_queue_reset|apply task_ok_reset|done].
  - cbn. apply key_reset.
Qed.

Lemma alter_fmap_if (f : ref -> ref) k (m : gmap TKey ref) :
  keys_ok (mkQueue "" 0 m 0 None None) ->
  alter f k m = (fun r => if decide (qkey r = k) then f r else r) <$> m.
Proof.
  intros Hk. apply map_eq. intros k'. rewrite lookup_fmap. destruct (decide (k = k')) as [<-|Hne].
  - rewrite lookup_alter_eq. destruct (m !! k) as [r|] eqn:E; [|done]. cbn. by rewrite decide_True by (by apply (Hk k r E)).
  - rewrite lookup_alter_ne by done. destruct (m !! k') as [r|] eqn:E; [|done]. cbn.
    rewrite decide_False; [done|]. intros E'. apply Hne. etrans; [symmetry; exact E'|exact (Hk k' r E)].
Qed.

Lemma touch_key_ok q tm key Q : queue_ok q Q -> queue_ok q (touch_key q tm key Q).
Proof.
  unfold touch_key. destruct (resets q); [|done]. intros HQ. rewrite alter_fmap_if by apply HQ.
  apply queue_ok_fmap; [|done]. intros r Hr. case_decide; [|done]. split.
  - apply held_upd; [apply in_queue_reset|apply task_ok_reset|done].
  - cbn. apply key_reset.
Qed.

Lemma touch_push_ok q tm r Q : queue_ok q Q -> queue_ok q (touch_push q tm r Q).
Proof.
  intros HQ. unfold touch_push. destruct (has _ _ _) as [Q' h]. destruct (_ && _); [apply touch_all_ok|]; by apply touch_key_ok.
Qed.

(** What the operations keep and answer. *)
Lemma Has_ok q tm key Q Q' h : queue_ok q Q -> Has tm key Q = (Q', h) -> queue_ok q Q'.
Proof.
  intros HQ E. apply has_subseteq in E as (Hsub & Hs & _); [|apply HQ]. by eapply queue_ok_sub.
Qed.

Lemma PopByKey_ok q tm key Q Q' r :
  queue_ok q Q -> PopByKey tm key Q = (Q', r) -> queue_ok q Q' /\ forall x, r = Some x -> held q x /\ qkey x = key.
Proof.
  intros HQ E. apply PopByKey_spec in E as (Hs & -> & Et); [|apply HQ]. split.
  - eapply queue_ok_sub; [|done|done]. rewrite Et. apply delete_subseteq.
  - intros x [Hx _]%live_lookup. split; [by apply (qo_tasks _ _ HQ key)|]. by apply (qo_inv _ _ HQ).
Qed.

Lemma Push_ok q tm r Q Q' err : held q r -> queue_ok q Q -> Push tm r Q = (Q', err) -> queue_ok q Q'.
Proof.
  intros Hr HQ E. pose proof (Push_inv _ _ _ _ _ (qo_inv _ _ HQ) E) as Hi.
  apply Push_spec in E as (E & Hs & _); [|apply HQ]. split; [done|by eapply same_settings_trans; [apply HQ|]|].
  assert (forall m, m ⊆ tasks Q -> map_Forall (fun _ => held q) m) as Hsub.
  { intros m Hm k x Hx. apply (qo_tasks _ _ HQ k). by eapply lookup_weaken. }
  unfold push_outcome in E. destruct err as [[]|].
  - destruct E as [_ ->]. apply HQ.
  - destruct E as (_ & _ & E & _). apply Hsub. rewrite E. apply delete_subseteq.
  - destruct E as (_ & [[_ E]|(_ & old & _ & _ & _ & E)]); rewrite E; apply map_Forall_insert_2; try done; apply Hsub; [done|apply delete_subseteq].
Qed.

(** A task that is taken out to be dispatched has passed the filter. *)
Definition below (x : task) : Prop := limited x = true -> GetRetry x < GetMaxRetry x.

Lemma filter_below q tm x f :
  filter_strategy q = Some f -> in_queue q x = true -> f tm (0%nat, x) = true -> below x.
Proof.
  intros Ef Hq Hf Hl. destruct q, x; try done; injection Ef as <-; cbn in Hf;
    unfold FilterUploadingTask, FilterReceiveTask in Hf;
    destruct (ExceedRetry _) eqn:Ee; try done;
    unfold ExceedRetry, GfSpTask.ExceedRetry in Ee; rewrite Z.geb_leb in Ee; apply Z.leb_gt in Ee; done.
Qed.

Lemma PopByLimit_ok q tm ord Q Q' r :
  queue_ok q Q -> (forall l, ord l ≡ₚ l) -> is_Some (filter_strategy q) ->
  PopByLimit Unlimited.mk tm (ord (values Q)) Q = (Q', r) ->
  queue_ok q Q' /\ forall x, r = Some x -> held q x /\ below x.2.
Proof.
  intros HQ Ho [f Ef] E. rewrite PopByLimit_pick in E. destruct (pick _ _ _ _) as [Q1 r1] eqn:E1. injection E as <- <-.
  pose proof (pop_spec _ _ _ _ _ _ _ (proj1 (qo_inv _ _ HQ)) (Ho _) E1 eq_refl) as (Hs & Et & Hr). split.
  - eapply queue_ok_sub; [|done|done]. rewrite Et. destruct r1; [|apply live_subseteq].
    etrans; [apply delete_subseteq|apply live_subseteq].
  - intros x ->. destruct Hr as [Hin _]. apply elem_of_eligible in Hin as [(k & [Hk _]%live_lookup) Hp].
    pose proof (qo_tasks _ _ HQ _ _ Hk) as Hx. split; [done|].
    apply andb_true_iff in Hp as [_ Hp]. unfold filtered in Hp. rewrite (same_filter _ _ (qo_settings _ _ HQ)) in Hp. cbn in Hp.
    rewrite Ef in Hp. eapply filter_below; [done|apply Hx|]. destruct q; try discriminate; injection Ef as <-; exact Hp.
Qed.
End queues.

(** ** The state *)

Section invariant.
Context {V E : Type} `{VirtualGroupManager V E} {vg_ok : V -> Prop} {vg_env_ok : E -> Prop}
  `{!VirtualGroupLaws V E vg_ok vg_env_ok} (c : config).
Implicit Types (w : world V) (e : env E).

(** A task on its way to an executor. *)
Definition waiting (r : ref) : Prop := is_Some (queue_of r.2) /\ task_ok c r.2 /\ below r.2.

Definition job_ok (j : job) : Prop := match j with JResend r => waiting r | _ => True end.

Record manager_ok w : Prop := {
  mo_queues q : queue_ok c q (queues w q);
  mo_channel : Forall waiting (taskCh w);
  mo_channel_cap : (length (taskCh w) <= taskChCap c)%nat;
  mo_jobs : Forall job_ok (jobs w);
  mo_groups : vg_ok (virtualGroups w)
}.

(** The orders in which maps are found are orders, and the virtual groups work. *)
Record env_fine e : Prop := {
  ef_order l : order e l ≡ₚ l;
  ef_ties l : ties e l ≡ₚ l;
  ef_groups n : vg_env_ok (vg_call e n)
}.

Context (Htimeout : forall ty size, is_Some (TaskTimeout (options c) ty size)).

Notation fine p Q := (wp manager_ok p Q).
Notation safe p := (wp manager_ok p (fun _ => True)).

(** *** Actions *)

Lemma add_job_ok j w : job_ok j -> manager_ok w -> manager_ok (add_job j w).
Proof. intros Hj []. split; try done. cbn. apply Forall_app. by split; [|constructor]. Qed.

Lemma recovery_failed_ok name key w : manager_ok w -> manager_ok (recovery_failed name key w).
Proof. intros []. unfold recovery_failed. by case_bool_decide. Qed.

Lemma on_retire_ok q w r : manager_ok w -> manager_ok (on_retire q w r).
Proof.
  intros Hw. unfold on_retire. destruct (object_of r.2); [|done].
  destruct q; try done; first [by apply add_job_ok|by apply recovery_failed_ok].
Qed.

Lemma fold_retire_ok q l w : manager_ok w -> manager_ok (foldl (on_retire q) w l).
Proof. revert w. induction l as [|r l IH]; intros w Hw; [done|]. apply IH. by apply on_retire_ok. Qed.

Lemma set_queue_ok q Q w : queue_ok c q Q -> manager_ok w -> manager_ok (set_queue q Q w).
Proof. intros HQ []. split; try done. intros q'. cbn. by case_decide; [subst|]. Qed.

Lemma wp_call q {B} touch fired (op : GfSpTQueue ref -> GfSpTQueue ref * B) (P : B -> Prop) :
  (forall Q, queue_ok c q Q -> queue_ok c q (touch Q)) ->
  (forall Q Q' b, queue_ok c q Q -> op Q = (Q', b) -> queue_ok c q Q' /\ P b) ->
  fine (call q touch fired op) P.
Proof.
  intros Ht Ho. apply wp_act. intros w Hw. cbv beta zeta. destruct (op (touch (queues w q))) as [Q' b] eqn:Eop.
  destruct (Ho _ _ _ (Ht _ (mo_queues _ Hw q)) Eop) as [HQ' HP]. split; [|done].
  apply fold_retire_ok. by apply set_queue_ok.
Qed.

Lemma wp_qlen q : safe (qlen q).
Proof. by apply wp_asks. Qed.

Lemma wp_qhas e q key : safe (qhas e q key).
Proof.
  apply wp_call; [intros; by apply touch_key_ok|]. intros Q Q' h HQ Ep. split; [by eapply Has_ok|done].
Qed.

Lemma wp_qpush e q r : held c q r -> safe (qpush e q r).
Proof.
  intros Hr. apply wp_call; [intros; by apply touch_push_ok|]. intros Q Q' err HQ Ep. split; [|done].
  exact (Push_ok c q _ _ _ _ _ Hr HQ Ep).
Qed.

Definition popped q (r : option ref) : Prop := forall x, r = Some x -> held c q x.

Lemma popped_some q p x : popped q (Some (p, x)) -> in_queue q x = true /\ task_ok c x.
Proof. intros Hp. exact (Hp _ eq_refl). Qed.

Lemma wp_qpop_key e q key : fine (qpop_key e q key) (popped q).
Proof.
  apply wp_call; [intros; by apply touch_key_ok|]. intros Q Q' r HQ Ep.
  destruct (PopByKey_ok _ _ _ _ _ _ _ HQ Ep) as [? Hr]. split; [done|]. intros x Ex. by apply Hr.
Qed.

Lemma wp_qpop_task e q r : safe (qpop_task e q r).
Proof.
  apply wp_call; [intros; by apply touch_key_ok|]. intros Q Q' b HQ Ep. split; [|done].
  destruct (tasks Q !! qkey r) as [r'|]; [|by injection Ep as <- _]. case_decide; [|by injection Ep as <- _].
  injection Ep as <- _. destruct (delete_spec (now e) r' Q) as (Ed & Hs & _); [apply HQ|].
  refine (queue_ok_sub c q Q _ _ Hs HQ). etrans; [apply reflexive_eq, Ed|apply delete_subseteq].
Qed.

Lemma wp_qpop_unlimited e q : env_fine e -> is_Some (filter_strategy q) ->
  fine (qpop_unlimited e q) (fun r => forall x, r = Some x -> held c q x /\ below x.2).
Proof.
  intros He Hf. apply wp_call; [intros; by apply touch_all_ok|]. intros Q Q' r HQ Ep.
  eapply (PopByLimit_ok c q _ (order e)); [done|apply He|done|done].
Qed.

Lemma wp_new_task x : fine (new_task x) (fun r => r.2 = x).
Proof. apply wp_act. intros w []. by split. Qed.

Lemma wp_spawn j : job_ok j -> safe (spawn j).
Proof. intros Hj. apply wp_modify; [|done]. intros w. by apply add_job_ok. Qed.

Lemma wp_with_db {A} (f : spdb -> spdb * A) : safe (with_db f).
Proof. apply wp_act. intros w []. by destruct (f (db w)). Qed.

Lemma wp_with_gdb {A} (f : gcdb -> gcdb * A) : safe (with_gdb f).
Proof. apply wp_act. intros w []. by destruct (f (gdb w)). Qed.

Lemma wp_with_groups {A} (f : V -> option A) : (forall v, vg_ok v -> is_Some (f v)) -> safe (with_groups f).
Proof.
  intros Hf. eapply wp_use; [apply (wp_asks _ _ is_Some)|].
  - intros w Hw. by apply Hf, Hw.
  - intros r [a ->]. done.
Qed.

Lemma set_groups_ok v w : vg_ok v -> manager_ok w -> manager_ok (set_virtualGroups v w).
Proof. intros Hv []. by split. Qed.

Lemma wp_force_refresh e : env_fine e -> safe (force_refresh e).
Proof.
  intros He. eapply wp_use; [apply (wp_act _ _ (fun b => b = true))|by intros ? ->]. intros w Hw.
  destruct (refresh_total (vg_call e 1) (virtualGroups w)) as (v' & Ev & Hv); [apply He|apply Hw|].
  rewrite Ev. split; [|done]. by apply set_groups_ok.
Qed.

Hint Resolve wp_qlen wp_qhas wp_qpush wp_qpop_key wp_qpop_task wp_qpop_unlimited wp_new_task wp_spawn wp_with_db
  wp_with_gdb wp_force_refresh : manager.
Hint Extern 1 (wp _ (modify _) _) => (apply (wp_modify _ _ (fun _ => True)); [intros ? []; by split|done]) : manager.
Hint Extern 1 (wp _ (asks _) _) => (apply (wp_asks _ _ (fun _ => True)); done) : manager.
Hint Extern 1 (job_ok _) => exact I : manager.
Hint Extern 1 (held _ _ _) =>
  (match goal with
   | Ha : ?a.2 = _ |- held _ _ ?a => unfold held; rewrite Ha; split; [reflexivity|]
   | |- held _ _ (_, ?x) => split; [reflexivity|change (task_ok c x)]
   end) : manager.

(** Step through a program by what is known of its parts. *)
Ltac wp_intro := let a := fresh "a" in let Ha := fresh "Ha" in intros a Ha; cbv beta in Ha.
Ltac wp_bind_step := first [eapply wp_use; [solve [eauto 8 with manager]|]; wp_intro|apply wp_bind].
Ltac wp_go_with tac :=
  repeat (cbv beta zeta; match goal with
  | |- wp _ (pbind _ _) _ => wp_bind_step
  | |- wp _ (Ret ?a) ?Q => first [exact I|change (Q a)]
  | Ha : popped _ (Some (_, ?f ?t)) |- _ =>
    let Hq := fresh "Hq" in let Hok := fresh "Hok" in apply popped_some in Ha as [Hq Hok]; try discriminate Hq
  | |- _ => tac
  | |- wp _ (match ?x with _ => _ end) _ => destruct x eqn:?
  end); eauto 4 with manager.
Ltac wp_go := wp_go_with fail.

Definition typed (x : task) : Prop := is_int64 (GetRetry x) /\ is_int64 (GetMaxRetry x).

Lemma task_ok_free x : max_of c x = None -> typed x -> task_ok c x.
Proof. intros Hn []. split; [done..|]. intros n. by rewrite Hn. Qed.

Lemma max_retry_int64 ty : is_int64 (TaskMaxRetry (options c) ty).
Proof.
  destruct ty; try done; cbn;
    match goal with |- is_int64 (clamp ?v ?a ?b) => pose proof (clamp_range v a b ltac:(lia)); unfold is_int64, MinInt64, MaxInt64; lia end.
Qed.

(** A new task that the manager has given its limit. *)
Lemma task_ok_new x n : GetRetry x = 0 -> GetMaxRetry x = n -> is_int64 n -> (forall m, max_of c x = Some m -> m = n) -> task_ok c x.
Proof.
  intros Hr Hm Hn Hs. split; rewrite ?Hr, ?Hm; [done..|]. intros m Em. symmetry. auto.
Qed.

Lemma replicate_task_ok e o params agent g t : replicate_task c e o params agent g = Some t -> task_ok c (TReplicate t).
Proof.
  unfold replicate_task. destruct (TaskTimeout _ _ _); [|done]. intros [= <-].
  apply (task_ok_new _ (TaskMaxRetry (options c) TypeTaskReplicatePiece)); [done|reflexivity|apply max_retry_int64|]. by intros m [= <-].
Qed.

Lemma seal_task_ok e t st : seal_task c e t = Some st -> task_ok c (TSeal st).
Proof.
  unfold seal_task. destruct (TaskTimeout _ _ _); [|done]. intros [= <-].
  apply (task_ok_new _ (TaskMaxRetry (options c) TypeTaskSealObject)); [done|reflexivity|apply max_retry_int64|]. by intros m [= <-].
Qed.

Lemma wp_TaskUploading e key : safe (TaskUploading e key).
Proof. unfold TaskUploading. wp_go. Qed.

Lemma wp_TaskRecovering e key : safe (TaskRecovering e key).
Proof. apply wp_qhas. Qed.

Lemma wp_UploadingObjectNumber : safe UploadingObjectNumber.
Proof. unfold UploadingObjectNumber. wp_go. Qed.

Hint Resolve wp_TaskUploading wp_TaskRecovering wp_UploadingObjectNumber : manager.

(** *** Virtual groups *)

Lemma wp_createGlobalVirtualGroup c' e vgfID params : safe (createGlobalVirtualGroup c' e vgfID params).
Proof.
  unfold createGlobalVirtualGroup. destruct (match params with Some p => Ok p | None => query_storage_params e end); [|done].
  eapply wp_use; [apply wp_with_groups; intros v; by apply generate_total|]. intros r _. wp_go.
Qed.

Lemma wp_pick e n vgfID exclude : env_fine e -> safe (with_groups (PickGlobalVirtualGroup (vg_call e n) vgfID exclude)).
Proof. intros He. apply wp_with_groups. intros v Hv. apply pick_total; [apply He|done]. Qed.

Lemma wp_pick_family e n : env_fine e -> safe (with_groups (PickVirtualGroupFamily (vg_call e n) (spBlackList c))).
Proof. intros He. apply wp_with_groups. intros v Hv. apply pick_family_total; [apply He|done]. Qed.

Hint Resolve wp_createGlobalVirtualGroup wp_pick wp_pick_family : manager.

Lemma wp_pickGlobalVirtualGroup c' e vgfID params : env_fine e -> safe (pickGlobalVirtualGroup c' e vgfID params).
Proof. intros He. unfold pickGlobalVirtualGroup. wp_go. Qed.

Lemma wp_PickFamily e : env_fine e -> safe (PickFamily c e).
Proof. intros He. unfold PickFamily. wp_go. Qed.

Lemma wp_insert_progress e o agent : safe (insert_progress e o agent).
Proof. unfold insert_progress. wp_go. Qed.

Hint Resolve wp_pickGlobalVirtualGroup wp_PickFamily wp_insert_progress : manager.

(** *** Handlers *)

Lemma replicate_task_total e o params agent g : exists t, replicate_task c e o params agent g = Some t.
Proof.
  unfold replicate_task. destruct (Htimeout TypeTaskReplicatePiece (PayloadSize o)) as [n ->]. by eexists.
Qed.

Lemma seal_task_total e t : exists st, seal_task c e t = Some st.
Proof. unfold seal_task. destruct (Htimeout TypeTaskSealObject 0) as [n ->]. by eexists. Qed.

Ltac new_task_step :=
  idtac; match goal with
  | |- wp _ (match replicate_task _ ?e ?o ?p ?b ?g with _ => _ end) _ =>
    let t := fresh "t" in let Et := fresh "Et" in
    destruct (replicate_task_total e o p b g) as [t Et]; rewrite Et; apply replicate_task_ok in Et
  | |- wp _ (match seal_task _ ?e ?t with _ => _ end) _ =>
    let st := fresh "st" in let Et := fresh "Et" in
    destruct (seal_task_total e t) as [st Et]; rewrite Et; apply seal_task_ok in Et
  | |- wp _ (match TaskTimeout _ ?ty ?n with _ => _ end) _ =>
    let d := fresh "timeout" in let Ed := fresh "Ed" in destruct (Htimeout ty n) as [d Ed]; rewrite Ed
  end.
Ltac wp_run := wp_go_with new_task_step.

Lemma wp_HandleCreateUploadObjectTask e valid t :
  typed (TUpload t) -> safe (HandleCreateUploadObjectTask c e valid t).
Proof.
  intros Ht. assert (task_ok c (TUpload t)) by (by apply task_ok_free). unfold HandleCreateUploadObjectTask. wp_go.
Qed.

Lemma wp_HandleCreateResumableUploadObjectTask e valid t :
  typed (TResumable t) -> safe (HandleCreateResumableUploadObjectTask c e valid t).
Proof.
  intros Ht. assert (task_ok c (TResumable t)) by (by apply task_ok_free).
  unfold HandleCreateResumableUploadObjectTask. wp_go.
Qed.

Lemma wp_release_all : safe (modify (fun w => set_virtualGroups (ReleaseAllSP (virtualGroups w)) w)).
Proof. apply wp_modify; [|done]. intros w Hw. apply set_groups_ok; [by apply release_ok, Hw|done]. Qed.

Lemma wp_pickGVGAndReplicate e vgfID x o params agent :
  env_fine e -> typed x -> safe (pickGVGAndReplicate c e vgfID x o params agent).
Proof.
  intros He [Hx _]. unfold pickGVGAndReplicate.
  eapply wp_use; [by apply wp_pickGlobalVirtualGroup|]. intros [g|err] _.
  2: { eapply wp_use; [apply wp_release_all|]. done. }
  destruct (replicate_task_total e o params agent g) as [t Et]. rewrite Et. apply replicate_task_ok in Et.
  set (t' := AppendLog _ _ _). assert (task_ok c (TReplicate t')).
  { apply (task_ok_on c (fun b => GfSpTask.AppendLog _ _ (GfSpTask.SetRetry (GetRetry x) (GfSpTask.SetLogs (GetLogs x)
      (GfSpTask.SetCreateTime (GetCreateTime x) b)))) (TReplicate t)); done. }
  clearbody t'. wp_go.
Qed.

Hint Resolve wp_pickGVGAndReplicate : manager.

Lemma wp_HandleDoneUploadObjectTask e valid t :
  env_fine e -> typed (TUpload t) -> safe (HandleDoneUploadObjectTask c e valid t).
Proof. intros He Ht. unfold HandleDoneUploadObjectTask. wp_go. Qed.

Lemma wp_HandleDoneResumableUploadObjectTask e valid t :
  env_fine e -> safe (HandleDoneResumableUploadObjectTask c e valid t).
Proof.
  intros He. unfold HandleDoneResumableUploadObjectTask. wp_run.
Qed.

Lemma task_ok_typed x : task_ok c x -> typed x.
Proof. by intros []. Qed.
Hint Resolve task_ok_typed : manager.

Lemma wp_freeze n spID gvgs : safe (modify (fun w => set_virtualGroups (FreezeSPAndGVGs n spID gvgs (virtualGroups w)) w)).
Proof. apply wp_modify; [|done]. intros w Hw. apply set_groups_ok; [by apply freeze_ok, Hw|done]. Qed.
Hint Resolve wp_freeze : manager.

Lemma wp_repick e ptr t idx :
  env_fine e -> task_ok c (TReplicate t) -> 0 <= idx -> safe (repick c e ptr t idx).
Proof.
  intros He Ht Hi. unfold repick. wp_run.
  destruct (Z.ltb_spec idx 0); [lia|]. zbool.
  match goal with E : _ !! _ = None |- _ => apply lookup_ge_None in E end. lia.
Qed.

Hint Extern 1 (task_ok _ (TReplicate ?t)) =>
  (match t with
   | AppendLog ?s ?l ?t => change (task_ok c (AppendLog s l (TReplicate t))); apply task_ok_log
   | SetUpdateTime ?n ?t => change (task_ok c (SetUpdateTime n (TReplicate t))); apply task_ok_update
   end) : manager.
Hint Extern 1 (task_ok _ (TSeal ?t)) =>
  (match t with
   | AppendLog ?s ?l ?t => change (task_ok c (AppendLog s l (TSeal t))); apply task_ok_log
   | SetUpdateTime ?n ?t => change (task_ok c (SetUpdateTime n (TSeal t))); apply task_ok_update
   end) : manager.
Hint Extern 1 (task_ok _ (TReceive (SetUpdateTime ?n ?t))) =>
  (change (task_ok c (SetUpdateTime n (TReceive t))); apply task_ok_update) : manager.
Hint Extern 1 (task_ok _ (TRecover (SetUpdateTime ?n ?t))) =>
  (change (task_ok c (SetUpdateTime n (TRecover t))); apply task_ok_update) : manager.
Hint Extern 1 (task_ok _ (TGCObject (SetUpdateTime ?n ?t))) =>
  (change (task_ok c (SetUpdateTime n (TGCObject t))); apply task_ok_update) : manager.
Hint Extern 1 (task_ok _ (TMigrateGVG (SetUpdateTime ?n ?t))) =>
  (change (task_ok c (SetUpdateTime n (TMigrateGVG t))); apply task_ok_update) : manager.

Lemma wp_handleFailedReplicatePieceTask e t :
  env_fine e -> -1 <= GfSpReplicatePieceTask.NotAvailableSpIdx t -> safe (handleFailedReplicatePieceTask c e t).
Proof.
  intros He Hi. unfold handleFailedReplicatePieceTask. wp_run.
  apply wp_repick; [done|eauto 6 with manager|]. zbool. lia.
Qed.
Hint Resolve wp_handleFailedReplicatePieceTask : manager.

Lemma wp_HandleReplicatePieceTask e valid t :
  env_fine e -> -1 <= GfSpReplicatePieceTask.NotAvailableSpIdx t -> safe (HandleReplicatePieceTask c e valid t).
Proof. intros He Hi. unfold HandleReplicatePieceTask. wp_run. Qed.

Lemma wp_handleFailedSealObjectTask e t : safe (handleFailedSealObjectTask e t).
Proof. unfold handleFailedSealObjectTask. wp_run. Qed.
Hint Resolve wp_handleFailedSealObjectTask : manager.

Lemma wp_HandleSealObjectTask e valid t : safe (HandleSealObjectTask e valid t).
Proof. unfold HandleSealObjectTask. wp_run. Qed.

Lemma wp_handleFailedReceivePieceTask e t : safe (handleFailedReceivePieceTask e t).
Proof. unfold handleFailedReceivePieceTask. wp_run. Qed.
Hint Resolve wp_handleFailedReceivePieceTask : manager.

Lemma wp_HandleReceivePieceTask e t : safe (HandleReceivePieceTask e t).
Proof. unfold HandleReceivePieceTask. wp_run. Qed.

Lemma wp_HandleGCObjectTask e t : typed (TGCObject t) -> safe (HandleGCObjectTask e t).
Proof.
  intros Ht. assert (task_ok c (TGCObject t)) by (by apply task_ok_free). unfold HandleGCObjectTask. wp_run.
Qed.

Lemma wp_retry_report e q x : in_queue q x = true -> task_ok c x -> safe (retry_report e q x).
Proof.
  intros Hq Hx. unfold retry_report. eapply wp_use; [apply wp_qpop_key|]. intros old _. destruct old; [|done].
  destruct (ExceedRetry _); [done|]. eapply wp_use; [apply wp_new_task|]. intros r' Hr.
  eapply wp_use; [apply wp_qpush; unfold held; by rewrite Hr|]. done.
Qed.

Lemma wp_handle_gc_report e q clear x : in_queue q x = true -> task_ok c x -> safe (handle_gc_report e q clear x).
Proof.
  intros Hq Hx. unfold handle_gc_report. set (y := if clear then _ else _).
  assert (in_queue q y = true) by (destruct clear; unfold y, SetError, SetUpdateTime; by rewrite !in_queue_on).
  assert (task_ok c y) by (destruct clear; unfold y; auto with manager). clearbody y.
  pose proof (wp_retry_report e q y). wp_run.
Qed.

Lemma wp_HandleCreateGCBucketMigrationTask e t :
  typed (TGCBucketMigration t) -> safe (HandleCreateGCBucketMigrationTask e t).
Proof.
  intros Ht. assert (task_ok c (TGCBucketMigration t)) by (by apply task_ok_free).
  unfold HandleCreateGCBucketMigrationTask. wp_run.
Qed.

Lemma wp_GenerateGCBucketMigrationTask e id size : safe (GenerateGCBucketMigrationTask c e id size).
Proof.
  unfold GenerateGCBucketMigrationTask. wp_run.
  eapply wp_mono; [|apply wp_HandleCreateGCBucketMigrationTask]; [done|]. split; [done|]. apply max_retry_int64.
Qed.

Lemma wp_HandleGCBucketMigrationTask e t : typed (TGCBucketMigration t) -> safe (HandleGCBucketMigrationTask e t).
Proof.
  intros Ht. assert (task_ok c (TGCBucketMigration t)) as Hok by (by apply task_ok_free).
  unfold HandleGCBucketMigrationTask. wp_run.
  eapply wp_mono; [|apply wp_retry_report]; [done|done|].
  exact (task_ok_error c (unmarshal e) None _ (task_ok_update c (now e) _ Hok)).
Qed.

Lemma wp_HandleDownloadObjectTask e t : typed (TDownload t) -> safe (HandleDownloadObjectTask e t).
Proof.
  intros Ht. assert (task_ok c (TDownload t)) by (by apply task_ok_free). unfold HandleDownloadObjectTask. wp_run.
Qed.

Lemma wp_HandleChallengePieceTask e t : typed (TChallenge t) -> safe (HandleChallengePieceTask e t).
Proof.
  intros Ht. assert (task_ok c (TChallenge t)) by (by apply task_ok_free). unfold HandleChallengePieceTask. wp_run.
Qed.

Lemma wp_recovery_failed name key : safe (modify (recovery_failed name key)).
Proof. apply wp_modify; [|done]. intros w. by apply recovery_failed_ok. Qed.
Lemma wp_segment_record t success : safe (modify (add_segment_record t success)).
Proof. apply wp_modify; [|done]. intros w []. by split. Qed.
Hint Resolve wp_recovery_failed wp_segment_record : manager.

Lemma wp_handleFailedRecoverPieceTask e t : safe (handleFailedRecoverPieceTask e t).
Proof. unfold handleFailedRecoverPieceTask. wp_run. Qed.
Hint Resolve wp_handleFailedRecoverPieceTask : manager.

Lemma wp_HandleRecoverPieceTask e valid t : typed (TRecover t) -> safe (HandleRecoverPieceTask e valid t).
Proof.
  intros Ht. assert (task_ok c (TRecover t)) by (by apply task_ok_free). unfold HandleRecoverPieceTask. wp_run.
Qed.

Lemma wp_migrateGVGQueuePush e r : held c migrateGVGQueue r -> safe (migrateGVGQueuePush e r).
Proof. intros Hr. by apply wp_atomic, wp_qpush. Qed.

Lemma wp_migrateGVGQueuePopByLimit e : env_fine e ->
  fine (migrateGVGQueuePopByLimit e) (fun r => forall x, r = Some x -> held c migrateGVGQueue x /\ below x.2).
Proof. intros He. by apply wp_atomic, wp_qpop_unlimited. Qed.

Lemma wp_migrate_again e t push : typed (TMigrateGVG t) -> safe (migrateGVGQueuePopByLimitAndPushAgain e t push).
Proof.
  intros Ht. assert (task_ok c (TMigrateGVG t)) by (by apply task_ok_free).
  unfold migrateGVGQueuePopByLimitAndPushAgain. wp_run. apply wp_atomic. wp_run.
Qed.

Lemma wp_HandleMigrateGVGTask e t : typed (TMigrateGVG t) -> safe (HandleMigrateGVGTask e t).
Proof.
  intros Ht. unfold HandleMigrateGVGTask. cbv zeta. eapply wp_use; [by apply wp_migrate_again|]. intros r _. wp_run.
Qed.

(** *** Dispatching *)

Lemma waiting_held q r : queue_of r.2 = Some q -> waiting r -> held c q r.
Proof. intros Hq (_ & Hok & _). split; [by apply queue_of_in|done]. Qed.

Lemma wp_repushTask e r : (is_Some (queue_of r.2) -> task_ok c r.2) -> safe (repushTask e r).
Proof.
  intros Hr. unfold repushTask. destruct (queue_of r.2) as [q|] eqn:Eq; [|done].
  assert (held c q r) by (split; [by apply queue_of_in|by apply Hr]).
  destruct q; wp_run; apply wp_migrateGVGQueuePush; done.
Qed.

Lemma wp_lock : safe lock.
Proof. intros w w' b Hw Hl. destruct (backupTaskMux w); [done|]. injection Hl as <- <-. destruct Hw. by split. Qed.

Lemma wp_unlock : safe unlock.
Proof. apply wp_modify; [|done]. intros w []. by split. Qed.

Lemma wp_add_backupTaskNum n : safe (add_backupTaskNum n).
Proof. apply wp_modify; [|done]. intros w []. by split. Qed.

Lemma wp_send r : waiting r -> safe (send c r).
Proof.
  intros Hr w w' b Hw Hs. case_decide; [|done]. injection Hs as <- <-. destruct Hw. split; [|done]. split; try done; cbn.
  - apply Forall_app. by split; [|constructor].
  - rewrite length_app. cbn. lia.
Qed.

Lemma wp_receive : fine receive waiting.
Proof.
  intros w w' b Hw Hs. destruct (taskCh w) as [|r ch] eqn:Ec; [done|]. injection Hs as <- <-. destruct Hw as [? Hch Hl].
  rewrite Ec in Hch, Hl. apply Forall_cons_1 in Hch as [? ?]. split; [|done]. split; try done. cbn in *. lia.
Qed.

Hint Resolve wp_lock wp_unlock wp_add_backupTaskNum wp_send wp_receive : manager.

Lemma held_waiting q r : In q backup_queues -> held c q r -> below r.2 -> waiting r.
Proof.
  intros Hq [Hi Hok] Hb. split_and!; [|done..]. revert Hi.
  repeat (destruct Hq as [<-|Hq]; [by destruct r.2; eauto|]). done.
Qed.

Lemma wp_pop_all e qs : env_fine e -> (forall q, In q qs -> In q backup_queues) -> fine (pop_all e qs) (Forall waiting).
Proof.
  intros He. induction qs as [|q qs IH]; intros Hqs; [by constructor|]. cbn [pop_all].
  assert (In q backup_queues) as Hq by (apply Hqs; by left).
  assert (is_Some (filter_strategy q)) as Hf by (repeat (destruct Hq as [<-|Hq]; [by eexists|]); done).
  eapply (wp_use _ _ _ (fun r => forall x, r = Some x -> held c q x /\ below x.2)).
  { case_decide; [subst; by apply wp_migrateGVGQueuePopByLimit|by apply wp_qpop_unlimited]. }
  intros r Hr. eapply wp_use; [apply IH; intros; apply Hqs; by right|]. intros rest Hrest. cbn [wp].
  apply Forall_app. split; [|done]. destruct r as [x|]; [|constructor]. constructor; [|constructor].
  destruct (Hr x eq_refl). by eapply held_waiting.
Qed.

Lemma limited_set b x : limited (set_task b x) = limited x.
Proof. by destruct x. Qed.

Lemma waiting_log s l r : waiting r -> waiting (upd (AppendLog s l) r).
Proof.
  intros (Hq & Hok & Hb). split_and!; unfold upd; cbn [fst snd].
  - unfold AppendLog. by rewrite queue_of_on.
  - by apply task_ok_log.
  - unfold below, AppendLog, on_task, GetRetry, GetMaxRetry. rewrite limited_set, get_set_task. exact Hb.
Qed.

Lemma reach_waiting n m l t rest : reach n m l = Some (t, rest) -> Forall waiting l -> waiting t /\ Forall waiting rest.
Proof.
  revert m t rest. induction l as [|x l IH]; intros m t rest; [done|]. cbn.
  destruct (_ >=? _); [by intros [= <- <-] [? ?]%Forall_cons_1|].
  destruct (reach n _ l) as [[p rest']|] eqn:Er; [|done]. intros [= <- <-] [? ?]%Forall_cons_1.
  destruct (IH _ _ _ Er) as [? ?]; [done|]. split; [done|by constructor].
Qed.

Lemma PickUpTask_waiting e l t rest :
  env_fine e -> Forall waiting l -> PickUpTask (ties e) (draw e) (now_string e) l = (t, rest) ->
  (forall r, t = Some r -> waiting r) /\ Forall waiting rest.
Proof.
  intros He Hl. unfold PickUpTask. destruct l as [|x [|y l]].
  - intros [= <- <-]. split; [done|constructor].
  - intros [= <- <-]. apply Forall_cons_1 in Hl as [? _]. split; [by intros r [= <-]|constructor].
  - set (L := x :: y :: l) in *. assert (Forall waiting (merge_sort priority_le (ties e L))) as HL.
    { rewrite merge_sort_Permutation. by rewrite (ef_ties _ He). }
    destruct (_ <=? 0); [intros [= <- <-]; split; [done|constructor]|].
    destruct (reach _ _ _) as [[p rest']|] eqn:Er; [|by intros [= <- <-]].
    apply reach_waiting in Er as [? ?]; [|done]. intros [= <- <-]. split; [|done]. intros r [= <-]. by apply waiting_log.
Qed.

Lemma waiting_picked_logs s r : waiting r -> waiting (upd (picked_logs s) r).
Proof.
  intros Hr. exact (waiting_log s _ _ (waiting_log s _ _ (waiting_log s _ _ (waiting_log s _ _ Hr)))).
Qed.

Lemma wp_repush_all e l : Forall waiting l -> safe (for_each (repushTask e) l).
Proof.
  intros Hl. apply wp_for_each. intros r Hr. rewrite Forall_forall in Hl. apply list_elem_of_In in Hr.
  apply wp_repushTask. intros _. apply (Hl r Hr).
Qed.

Lemma wp_backUpTask e : env_fine e -> safe (backUpTask c e).
Proof.
  intros He. unfold backUpTask. eapply wp_use; [apply wp_lock|]. intros _ _.
  eapply wp_use; [by apply wp_pop_all|]. intros l Hl.
  destruct (PickUpTask _ _ _ _) as [t rest] eqn:Ep. apply PickUpTask_waiting in Ep as [Ht Hrest]; [|done..].
  eapply (wp_use _ _ _ (fun _ => True)); [|intros _ _; apply wp_unlock].
  eapply (wp_use _ _ _ (fun _ => True)); [|intros _ _; by apply wp_repush_all].
  destruct t as [r|]; [|done]. eapply wp_use; [apply wp_add_backupTaskNum|]. intros _ _.
  apply wp_send, waiting_picked_logs. by apply Ht.
Qed.

(** What an executor is handed. *)
Definition handed (x : task) : Prop :=
  is_Some (queue_of x) /\ task_ok c x /\ (limited x = true -> GetRetry x <= GetMaxRetry x).

Lemma handed_dispatched e r : waiting r -> handed (dispatched e r.2).
Proof.
  intros (Hq & Hok & Hb). unfold dispatched. split_and!.
  - unfold SetAddress, SetUpdateTime, SetError, IncRetry. by rewrite !queue_of_on.
  - auto with manager.
  - unfold SetAddress, SetUpdateTime, SetError, IncRetry, on_task. rewrite !limited_set. intros Hl. specialize (Hb Hl).
    destruct Hok as [Hr Hm _]. unfold GetRetry, GetMaxRetry in *. rewrite !get_set_task. cbn in *.
    unfold is_int64 in *. rewrite int64_wrap_id; [|unfold is_int64]; lia.
Qed.

Lemma wp_DispatchTask e patience limit :
  fine (DispatchTask e patience limit) (fun r => forall x, r = Some x -> handed x.2).
Proof.
  induction patience as [|patience IH]; [done|]. cbn [DispatchTask].
  eapply wp_use; [apply wp_receive|]. intros r Hr. eapply wp_use; [apply wp_add_backupTaskNum|]. intros _ _.
  destruct (negb _).
  - eapply wp_use; [by apply wp_spawn|]. intros _ _. exact IH.
  - pose proof (handed_dispatched e r Hr) as Hd. eapply wp_use; [apply wp_repushTask|].
    + intros _. apply Hd.
    + intros _ _. cbn [wp]. by intros x [= <-].
Qed.

(** *** Jobs and ticks *)

Lemma wp_push_stale e meta : safe (push_stale c e meta).
Proof.
  unfold push_stale. destruct (Htimeout TypeTaskGCStaleVersionObject 0) as [n ->].
  assert (task_ok c (TGCStaleVersion (stale_task e n meta))) by (by apply task_ok_free). wp_run.
Qed.
Hint Resolve wp_push_stale : manager.

Lemma wp_sealed_job e t : safe (sealed_job c e t).
Proof. unfold sealed_job. wp_run. Qed.

Lemma wp_seal_done_job e t : safe (seal_done_job e t).
Proof. unfold seal_done_job. wp_run. Qed.

Lemma wp_receive_job e t : safe (receive_job c e t).
Proof.
  unfold receive_job. destruct (Htimeout TypeTaskReceivePiece 0) as [n ->]. set (t' := SetUpdateTime _ _).
  assert (task_ok c (TReceive t')).
  { apply (task_ok_new _ (TaskMaxRetry (options c) TypeTaskReceivePiece)); [done|done|apply max_retry_int64|].
    by intros m [= <-]. }
  clearbody t'. wp_run.
Qed.
Hint Resolve wp_sealed_job wp_seal_done_job wp_receive_job wp_backUpTask : manager.

Lemma wp_job e j : env_fine e -> job_ok j -> safe (job_prog c e j).
Proof. intros He Hj. destruct j; cbn [job_prog]; wp_run. Qed.

Lemma wp_gc_object_tick e height : safe (gc_object_tick c e height).
Proof.
  unfold gc_object_tick. eapply wp_use; [by apply (wp_asks _ _ (fun _ => True))|]. intros start _.
  cbv zeta. destruct height as [h|]; [|done]. destruct (_ >? _); [done|]. new_task_step.
  match goal with |- context [new_task (TGCObject ?t)] => assert (task_ok c (TGCObject t)) by (by apply task_ok_free) end.
  wp_run.
Qed.

Lemma wp_gc_zombie_tick e max_id : safe (gc_zombie_tick c e max_id).
Proof.
  unfold gc_zombie_tick. destruct (negb _); [done|]. eapply wp_use; [by apply (wp_asks _ _ (fun _ => True))|]. intros start _.
  cbv zeta. destruct max_id as [m|]; [|done]. destruct (_ >? _); [auto with manager|]. new_task_step.
  match goal with |- context [new_task (TGCZombie ?t)] => assert (task_ok c (TGCZombie t)) by (by apply task_ok_free) end.
  wp_run.
Qed.

Lemma wp_gc_meta_tick e : safe (gc_meta_tick c e).
Proof.
  unfold gc_meta_tick. destruct (negb _); [done|]. new_task_step.
  match goal with |- context [new_task (TGCMeta ?t)] => assert (task_ok c (TGCMeta t)) by (by apply task_ok_free) end.
  wp_run.
Qed.

Lemma wp_gcObjectStaleVersionPiece e scan : safe (gcObjectStaleVersionPiece c e scan).
Proof. unfold gcObjectStaleVersionPiece. wp_run. apply wp_for_each. intros meta _. apply wp_push_stale. Qed.

(** *** The server *)

(** Reports come from executors: the numbers have their width, and the index of the provider
    that was not available is an index or -1. *)
Definition report_ok (x : task) : Prop :=
  typed x /\ match x with TReplicate t => -1 <= GfSpReplicatePieceTask.NotAvailableSpIdx t | _ => True end.

Lemma wp_GfSpBeginTask e x : typed x -> safe (GfSpBeginTask c e x).
Proof.
  intros Hx. unfold GfSpBeginTask. destruct x; try done.
  - eapply wp_use; [by apply wp_HandleCreateUploadObjectTask|done].
  - eapply wp_use; [by apply wp_HandleCreateResumableUploadObjectTask|done].
Qed.

Lemma wp_GfSpReportTask e x : env_fine e -> report_ok x -> safe (GfSpReportTask c e x).
Proof.
  intros He [Hx Hi]. unfold GfSpReportTask. cbv zeta. eapply (wp_use _ _ _ (fun _ => True)); [|done].
  destruct x as [t|t|t|t|t|t|t|t|t|t|t|t|t|t].
  - by apply wp_HandleDoneUploadObjectTask.
  - by apply wp_HandleDoneResumableUploadObjectTask.
  - by apply wp_HandleReplicatePieceTask.
  - apply wp_HandleSealObjectTask.
  - apply wp_HandleReceivePieceTask.
  - by apply wp_HandleGCObjectTask.
  - apply wp_handle_gc_report; [done|by apply task_ok_free].
  - apply wp_handle_gc_report; [done|by apply task_ok_free].
  - by apply wp_HandleGCBucketMigrationTask.
  - apply wp_handle_gc_report; [done|by apply task_ok_free].
  - by apply wp_HandleDownloadObjectTask.
  - by apply wp_HandleChallengePieceTask.
  - by apply wp_HandleRecoverPieceTask.
  - by apply wp_HandleMigrateGVGTask.
Qed.

Lemma log_shared_ok ptr s log w : manager_ok w -> manager_ok (log_shared ptr s log w).
Proof.
  intros [Hq Hc Hcap Hj Hg]. unfold log_shared. split; try done.
  - intros q. cbn [queues set_taskCh set_queues]. apply queue_ok_fmap; [|done]. intros r Hr. unfold upd_ptr. case_decide; [|done].
    split; [|by apply key_on]. apply held_upd; [intros; by apply in_queue_on|intros; by apply task_ok_log|done].
  - cbn [taskCh set_taskCh]. apply Forall_fmap. revert Hc. apply Forall_impl. intros r Hr. unfold compose, upd_ptr.
    case_decide; [by apply waiting_log|done].
  - cbn [taskCh set_taskCh]. by rewrite length_fmap.
Qed.

Lemma handed_log s l x : handed x -> handed (AppendLog s l x).
Proof.
  intros (Hq & Hok & Hb). split_and!; [unfold AppendLog; by rewrite queue_of_on|by apply task_ok_log|].
  unfold AppendLog, on_task, GetRetry, GetMaxRetry. rewrite limited_set, get_set_task. exact Hb.
Qed.

Lemma wp_GfSpAskTask e patience limit :
  fine (GfSpAskTask e patience limit) (fun r => forall x, r = Ok x -> handed x).
Proof.
  unfold GfSpAskTask. eapply wp_use; [apply wp_DispatchTask|]. intros [r|] Hr; [|done]. specialize (Hr r eq_refl).
  destruct (queue_of r.2) as [q|] eqn:Eq; [|done]. destruct (ask_log r.2) as [log|].
  - apply wp_bind, wp_modify; [intros w; apply log_shared_ok|]. cbn [wp]. intros x [= <-]. by apply handed_log.
  - cbn [wp]. by intros x [= <-].
Qed.

(** *** Loading *)

Lemma wp_load_replicate l metas : (forall id, env_fine (env_of l id)) -> safe (load_replicate c l metas).
Proof.
  intros He. induction metas as [|meta metas IH]; [done|]. cbn [load_replicate].
  destruct (loaded l meta) as [[[o params]|]|]; [|done|done]. cbv zeta. new_task_step.
  destruct (load_family l (BucketName o)) as [[vgfID|]|]; [|done|done]. specialize (He (um_ObjectID meta)). wp_run.
Qed.

Lemma wp_load_seal (l : load_env (E := E)) metas : safe (load_seal c l metas).
Proof.
  induction metas as [|meta metas IH]; [done|]. cbn [load_seal].
  destruct (loaded l meta) as [[[o params]|]|]; [|done|done]. cbv zeta. new_task_step.
  match goal with |- context [new_task (TSeal ?t)] => assert (task_ok c (TSeal t)) end.
  { apply (task_ok_new _ (TaskMaxRetry (options c) TypeTaskSealObject)); [done|done|apply max_retry_int64|].
    by intros m [= <-]. }
  wp_run.
Qed.

Lemma wp_load_gc (l : load_env (E := E)) metas : safe (load_gc c l metas).
Proof.
  induction metas as [|meta metas IH]; [done|]. cbn [load_gc]. cbv zeta. new_task_step.
  match goal with |- context [new_task (TGCObject ?t)] => assert (task_ok c (TGCObject t)) by (by apply task_ok_free) end.
  eapply wp_use; [apply wp_new_task|]. intros r Hr. eapply wp_use; [apply wp_qpush; by unfold held; rewrite Hr|].
  intros [err|] _; [done|]. eapply wp_use; [|intros _ _; exact IH]. apply (wp_modify _ _ (fun _ => True)); [|done].
  intros w Hw. destruct (_ >=? _); [|done]. destruct Hw. by split.
Qed.
Hint Resolve wp_load_replicate wp_load_seal wp_load_gc : manager.

Lemma wp_LoadTaskFromDB l : (forall id, env_fine (env_of l id)) -> safe (LoadTaskFromDB c l).
Proof. intros He. unfold LoadTaskFromDB. wp_run. Qed.

(** *** Every interleaving *)

Definition request_ok (rq : request (E := E)) : Prop :=
  match rq with
  | RBegin x => typed x
  | RReport x => report_ok x
  | RPush x => task_ok c x
  | RLoad l => forall id, env_fine (env_of l id)
  | _ => True
  end.

(** A request may come at any time, and a job begin once it is spawned. *)
Inductive manager_start : world V -> world V -> prog (world V) (option task) -> Prop :=
| start_request w e rq : env_fine e -> request_ok rq -> manager_start w w (serve c e rq)
| start_job w e j js1 js2 : env_fine e -> jobs w = js1 ++ j :: js2 ->
    manager_start w (set_jobs (js1 ++ js2) w) (job_prog c e j ;;; Ret None).

Definition result_ok (r : option task) : Prop := forall x, r = Some x -> handed x.

Lemma wp_then_none {A} (p : prog (world V) A) : safe p -> fine (p ;;; Ret None) result_ok.
Proof. intros Hp. eapply wp_use; [exact Hp|]. by intros a _. Qed.

Lemma wp_serve e rq : env_fine e -> request_ok rq -> fine (serve c e rq) result_ok.
Proof.
  intros He Hr. destruct rq; cbn [serve]; try apply wp_then_none.
  - by apply wp_GfSpBeginTask.
  - by apply wp_GfSpReportTask.
  - eapply wp_use; [apply wp_GfSpAskTask|]. intros [x|err] Hx; cbn [wp]; [|done]. intros y [= <-]. by apply Hx.
  - by apply wp_PickFamily.
  - by apply wp_backUpTask.
  - apply wp_gc_object_tick.
  - apply wp_gc_zombie_tick.
  - apply wp_gc_meta_tick.
  - apply wp_gcObjectStaleVersionPiece.
  - apply wp_GenerateGCBucketMigrationTask.
  - eapply wp_use; [apply wp_new_task|]. intros r Er. apply wp_then_none, wp_repushTask. intros _. rewrite Er. exact Hr.
  - unfold QueryTasksStats. wp_run.
  - unfold ResetRecoveryFailedList. wp_run.
  - by apply wp_LoadTaskFromDB.
Qed.

Lemma start_ok w w' p : manager_ok w -> manager_start w w' p -> manager_ok w' /\ fine p result_ok.
Proof.
  intros Hw Hs. inversion Hs as [w1 e rq He Hr|w1 e j js1 js2 He Ej]; subst.
  - split; [done|by apply wp_serve].
  - destruct Hw as [? ? ? Hj ?]. rewrite Ej in Hj. apply Forall_app in Hj as [H1 [H2 H3]%Forall_cons_1]. split.
    + split; try done. cbn. by apply Forall_app.
    + by apply wp_then_none, wp_job.
Qed.

(** A manager as DefaultManagerOptions makes it. *)
Definition new_world (v : V) (d : spdb) (g : gcdb) : world V :=
  mkWorld (new_queue c) [] 0 false [] ∅ ∅ 0 0 v [] d g [] 0.

Lemma new_world_ok v d g : vg_ok v -> manager_ok (new_world v d g).
Proof.
  intros Hv. split; [|constructor|cbn; lia|constructor|done]. intros q. split.
  - split; [intros k r Hk; change ((∅ : gmap TKey ref) !! k = Some r) in Hk; by rewrite lookup_empty in Hk|].
    change (Z.of_nat (size (∅ : gmap TKey ref)) <= Z.max 0 (queueCap c q)).
    rewrite map_size_empty. lia.
  - done.
  - apply map_Forall_empty.
Qed.

(** A state that some interleaving of requests and jobs leads to, and what is running. *)
Definition reached (w : world V) (ps : list (prog (world V) (option task))) : Prop :=
  exists v d g, vg_ok v /\ psteps manager_start (new_world v d g, []) (w, ps).

Lemma reached_ok w ps : reached w ps -> manager_ok w /\ Forall (fun p => fine p result_ok) ps.
Proof.
  intros (v & d & g & Hv & Hs). eapply wp_invariant; [exact start_ok|by apply new_world_ok|constructor|exact Hs].
Qed.
End invariant.

(** ** Runs of the actions *)

Section runs.
Context {V E : Type} `{VirtualGroupManager V E}.
Implicit Types (w : world V) (e : env E).

(** What a call of one queue leaves alone. *)
Record rest_same (q : qid) w w' : Prop := {
  rs_queues q' : q' <> q -> queues w' q' = queues w q';
  rs_channel : taskCh w' = taskCh w;
  rs_db : db w' = db w;
  rs_gdb : gdb w' = gdb w;
  rs_height : gcBlockHeight w' = gcBlockHeight w
}.

Lemma on_retire_same q w r : rest_same q w (on_retire q w r) /\ queues (on_retire q w r) = queues w.
Proof.
  unfold on_retire. destruct (object_of r.2) as [o|]; [|done].
  destruct q; try done; unfold recovery_failed; by case_bool_decide.
Qed.

Lemma fold_retire_same q l w : rest_same q w (foldl (on_retire q) w l) /\ queues (foldl (on_retire q) w l) = queues w.
Proof.
  revert w. induction l as [|r l IH]; intros w; [done|]. cbn [foldl].
  destruct (IH (on_retire q w r)) as [[] ->], (on_retire_same q w r) as [[] ->].
  split; [|done]. split; try congruence. intros q' Hq'. rewrite rs_queues0 by done. auto.
Qed.

(** One call: its operation on the queue, the answer, and the rest. *)
Lemma run_call q {B} touch fired (op : GfSpTQueue ref -> GfSpTQueue ref * B) w :
  exists w', run (call q touch fired op) w = Done w' (op (touch (queues w q))).2 /\
    queues w' q = (op (touch (queues w q))).1 /\ rest_same q w w' /\
    (fired (touch (queues w q)) = [] -> jobs w' = jobs w).
Proof.
  unfold call, act. cbn [run]. destruct (op (touch (queues w q))) as [Q b] eqn:Eo. cbn.
  eexists. split; [done|].
  destruct (fold_retire_same q (fired (touch (queues w q))) (set_queue q Q w)) as [[H1 H2 H3 H4 H5] Hq].
  rewrite Hq. split_and!; [cbn; by rewrite decide_True| |].
  - split; [|done..]. intros q' Hq'. rewrite H1 by done. cbn. by rewrite decide_False.
  - by intros ->.
Qed.

Lemma rest_same_trans q w w1 w2 : rest_same q w w1 -> rest_same q w1 w2 -> rest_same q w w2.
Proof. intros [] []. split; try congruence. intros q' Hq. by rewrite rs_queues1, rs_queues0. Qed.

(** A push where there is room and no task under the key. *)
Lemma run_qpush_room e q r w :
  keys_ok (queues w q) -> resets q = false -> tasks (queues w q) !! qkey r = None -> Len (queues w q) < cap (queues w q) ->
  exists w', run (qpush e q r) w = Done w' None /\ tasks (queues w' q) = <[qkey r := r]> (tasks (queues w q)) /\ rest_same q w w'.
Proof.
  intros Hk Hres Hn Hl. destruct (run_call q (touch_push q (now e) r) (fired_push (now e) r) (Push (now e) r) w) as (w' & Hr & Hq & Hs & _).
  assert (touch_push q (now e) r (queues w q) = queues w q) as Et.
  { unfold touch_push, touch_all, touch_key. rewrite Hres. destruct (has _ _ _) as [Q h]. by destruct (_ && _). }
  rewrite Et in *. exists w'. destruct (Push (now e) r (queues w q)) as [Q err] eqn:Ep. cbn in Hr, Hq. subst Q.
  apply Push_spec in Ep as (Ep & _ & _); [|done]. unfold push_outcome in Ep.
  assert (delete (qkey r) (tasks (queues w q)) = tasks (queues w q)) as Ed by (by apply delete_id). rewrite Ed in Ep. unfold Len in Hl.
  destruct err as [[]|].
  - destruct Ep as [[x [Hx _]%live_lookup] _]. by rewrite Hn in Hx.
  - destruct Ep as (_ & Hge & _). lia.
  - destruct Ep as (_ & [[_ Ep]|[Hge _]]); [|lia]. by split_and!.
Qed.
End runs.
