(* ===== verification/ManagerProps.v ===== *)
(** Properties of the manager, in every interleaving of requests and jobs and on single
    handlers, with the virtual groups of base/gfspvgmgr. *)
From Stdlib Require Import ZArith Lia.
From stdpp Require Import base gmap list strings sorting pretty option relations.
From S2P Require Import Prelude Proc Sql Checksum Hex UploadDb ManagerDb Limit TaskKey Task TaskTypes.
From S2P Require Import TQueue TQueueProps VGroup VirtualGroup VirtualGroupProps ManagerTask Manager ManagerRun.
From S2P Require Import ManagerFacts.

Local Open Scope Z_scope.
Local Open Scope prog_scope.

Notation mworld := (world virtualGroupManager).

(** States of the manager, and the programs that run on it. *)
Notation mreached := (reached (V := virtualGroupManager) (E := vg_env) (vg_ok := vg_ready) (vg_env_ok := vg_env_ok)).

(** Speeds are int64, and a speed of -1 would divide by zero. *)
Definition speeds_ok (g : app_options) : Prop :=
  (is_int64 (uploadSpeed g) /\ uploadSpeed g <> -1) /\ (is_int64 (downloadSpeed g) /\ downloadSpeed g <> -1) /\
  (is_int64 (replicateSpeed g) /\ replicateSpeed g <> -1).

Lemma speed_nonzero s : is_int64 s -> s <> -1 -> uwrap 64 (s + 1) <> 0.
Proof.
  unfold is_int64, MinInt64, MaxInt64, uwrap. intros [? ?] Hs Hz.
  apply Z.mod_divide in Hz as [k Hk]; [|lia]. destruct (Z.eq_dec k 0); nia.
Qed.

Lemma transfer_total size s extra min max : s <> 0 -> is_Some (transfer_timeout size s extra min max).
Proof. intros Hs. unfold transfer_timeout, udiv. rewrite (proj2 (Z.eqb_neq _ _) Hs). cbn. eauto. Qed.

Lemma timeouts_total g ty size : speeds_ok g -> is_Some (TaskTimeout g ty size).
Proof.
  intros ([Hu Hu1] & [Hd Hd1] & [Hr Hr1]). destruct ty; cbn; try by eexists.
  all: apply transfer_total; try by apply speed_nonzero.
  unfold uwrap. rewrite swrap_mod by lia. by apply speed_nonzero.
Qed.

Lemma reached_inv c w ps : speeds_ok (options c) -> mreached c w ps ->
  manager_ok (vg_ok := vg_ready) c w /\ Forall (fun p => wp (manager_ok (vg_ok := vg_ready) c) p (result_ok c)) ps.
Proof. intros Hs Hr. eapply reached_ok; [|exact Hr]. intros ty size. by apply timeouts_total. Qed.

(** ** In every interleaving *)

(** C5: Whatever requests, reports and jobs run, in whatever interleaving: each queue holds only
    tasks of its dynamic type, and the channel only tasks of the ten types that are put back.
    So no type assertion fails, and nothing panics: no index out of range, no division by
    zero, no nil pointer. *)
Theorem queues_typed c w ps :
  speeds_ok (options c) -> mreached c w ps ->
  (forall q k r, tasks (queues w q) !! k = Some r -> in_queue q r.2 = true) /\
  (forall r, r ∈ taskCh w -> is_Some (queue_of r.2)) /\
  Panic ∉ ps.
Proof.
  intros Hs Hr. destruct (reached_inv c w ps Hs Hr) as [Hw Hps]. rewrite Forall_forall in Hps. split_and!.
  - intros q k r Hk. by apply (qo_tasks _ _ _ (mo_queues _ _ Hw q) k r).
  - intros r Hin. pose proof (mo_channel _ _ Hw) as Hc. rewrite Forall_forall in Hc.
    apply (Hc r Hin).
  - intros Hin. by apply Hps in Hin.
Qed.

(** A hand-out counts: the executor receives the task with one more retry, and this is also
    what is put back into the queue, if there is room. *)
Lemma dispatch_counts c (w : mworld) (e : env vg_env) n limit r l q :
  manager_ok (vg_ok := vg_ready) c w -> taskCh w = r :: l -> queue_of r.2 = Some q -> limited r.2 = true ->
  NotLess limit (qestimate r) = true ->
  tasks (queues w q) !! Key (dispatched e r.2) = None -> Len (queues w q) < cap (queues w q) ->
  exists w', run (DispatchTask e (S n) limit) w = Done w' (Some (r.1, dispatched e r.2)) /\
    GetRetry (dispatched e r.2) = GetRetry r.2 + 1 /\ GetMaxRetry (dispatched e r.2) = GetMaxRetry r.2 /\
    taskCh w' = l /\ tasks (queues w' q) !! Key (dispatched e r.2) = Some (r.1, dispatched e r.2).
Proof.
  intros Hw Hch Hq Hl Hlim Hn Hroom. cbn [DispatchTask]. unfold receive, add_backupTaskNum. cbn [pbind run]. rewrite Hch. cbn [pbind run modify act].
  rewrite Hlim. cbn [negb]. set (w1 := set_backupTaskNum _ _).
  assert (queue_of (upd (dispatched e) r).2 = Some q) as Hq'.
  { change (queue_of (dispatched e r.2) = Some q). unfold dispatched, SetAddress, SetUpdateTime, SetError, IncRetry. by rewrite !queue_of_on. }
  destruct (run_qpush_room e q (upd (dispatched e) r) w1) as (w' & Hr & Ht & Hs); [apply (mo_queues _ _ Hw q)|by destruct r.2; try done; injection Hq as <-|exact Hn|exact Hroom|].
  exists w'. split; [|split_and!].
  - rewrite run_bind. unfold repushTask. rewrite Hq'. assert (q <> migrateGVGQueue) as Hm by (intros ->; by destruct r.2).
    destruct q; try done; by rewrite run_bind, Hr.
  - pose proof (mo_channel _ _ Hw) as Hc. rewrite Hch in Hc. apply Forall_cons in Hc as [(_ & [Hri Hmi _] & Hb) _]. specialize (Hb Hl).
    unfold dispatched, SetAddress, SetUpdateTime, SetError, IncRetry, on_task, GetRetry, GetMaxRetry in *. rewrite !get_set_task. cbn in *.
    unfold is_int64 in *. rewrite int64_wrap_id; [done|]. unfold is_int64. lia.
  - unfold dispatched, SetAddress, SetUpdateTime, SetError, IncRetry, on_task, GetMaxRetry. by rewrite !get_set_task.
  - by rewrite (rs_channel _ _ _ Hs).
  - rewrite Ht. by rewrite lookup_insert_eq.
Qed.

(** C10: In every interleaving, the counter of retries of a task that an executor is handed is at
    most 6 for replications, 10 for seals, 3 for confirmations, and the limit of the task
    for recoveries.  A hand-out of such a task counts: the executor receives it with one
    more retry than it had in the channel, and so it is put back into its queue, if there is
    room for it and no other task under its key.  The queues and the channel keep to their
    capacities. *)
Theorem dispatch_bounded c w ps :
  speeds_ok (options c) -> mreached c w ps ->
  (forall x, Ret (Some x) ∈ ps ->
     match x with
     | TReplicate t => GetRetry t <= 6
     | TSeal t => GetRetry t <= 10
     | TReceive t => GetRetry t <= 3
     | TRecover t => GetRetry t <= GetMaxRetry t
     | _ => True
     end) /\
  (forall (e : env vg_env) n limit r l q, taskCh w = r :: l -> queue_of r.2 = Some q -> limited r.2 = true -> NotLess limit (qestimate r) = true ->
     let x := dispatched e r.2 in
     tasks (queues w q) !! Key x = None -> Len (queues w q) < cap (queues w q) ->
     exists w', run (DispatchTask e (S n) limit) w = Done w' (Some (r.1, x)) /\
       GetRetry x = GetRetry r.2 + 1 /\ GetMaxRetry x = GetMaxRetry r.2 /\
       taskCh w' = l /\ tasks (queues w' q) !! Key x = Some (r.1, x)) /\
  (forall q, Len (queues w q) <= Z.max 0 (queueCap c q)) /\
  (length (taskCh w) <= taskChCap c)%nat.
Proof.
  intros Hs Hr. destruct (reached_inv c w ps Hs Hr) as [Hw Hps]. rewrite Forall_forall in Hps. split_and!.
  - intros x Hin. destruct (Hps _ Hin x eq_refl) as (_ & [_ _ Hm] & Hl).
    pose proof (clamp_range (replicateRetry (options c)) 3 6 ltac:(lia)).
    pose proof (clamp_range (sealObjectRetry (options c)) 3 10 ltac:(lia)).
    pose proof (clamp_range (receiveConfirmRetry (options c)) 1 3 ltac:(lia)).
    destruct x; try done; specialize (Hl eq_refl); try exact Hl.
    all: rewrite (Hm _ eq_refl) in Hl; etrans; [exact Hl|cbn; lia].
  - intros e n limit r l q. by apply (dispatch_counts c).
  - intros q. pose proof (mo_queues _ _ Hw q) as Hq. etrans; [apply (qo_inv _ _ _ Hq)|].
    by rewrite (same_cap _ _ (qo_settings _ _ _ Hq)).
  - apply (mo_channel_cap _ _ Hw).
Qed.

(** ** Witnesses *)

Definition ex_options : app_options := mkAppOptions 100 100 100 90 300 300 300 1800 300 1800 3 3 1 3 3 3 3 2 2.
Definition ex_config : config :=
  mkConfig ex_options 10 4 (fun _ => 4) 1000 1000 true 100 1000 true true 10 10 10 60 180 [] [] ∅.
Definition ex_menv : env vg_env :=
  mkEnv 1000 "t" "sp:80" None (fun l => l) (fun l => l) 5 (fun _ => None) (fun _ => ""%string) (fun _ => ex_env)
    (fun _ => Ok (false, false)) (fun id => Ok (ex_group id 100)) (fun _ => Ok []) (Ok 1) (Ok ex_params)
    (Ok (mkVGParams "amoca" 1)) (fun _ => None) (fun _ => true) None None None.
Definition ex_obj : ObjectInfo := mkObjectInfo "bucket" "object" 7 100 REDUNDANCY_EC_TYPE 0 false.
Definition ex_uploaded : GfSpUploadObjectTask.t :=
  GfSpUploadObjectTask.InitUploadObjectTask 3 ex_obj ex_params 10 false 900 900.
Definition ex_db : spdb := mkSpdb (mkTables ∅ ∅ ∅ ∅) (fun _ => Committed) 0.
Definition ex_gdb : gcdb := mkGCDb (mkGCTables ∅ ∅) (fun _ => Committed) 0.
Definition ex_w0 : mworld := new_world ex_config ex_vgm ex_db ex_gdb.

Definition after {A} (p : prog mworld A) (w : mworld) : mworld := match run p w with Done w' _ => w' | _ => w end.
(** The upload is reported, a round takes its replication, an executor asks for it. *)
Definition ex_w1 : mworld := after (serve ex_config ex_menv (RReport (TUpload ex_uploaded))) ex_w0.
Definition ex_w2 : mworld := after (serve ex_config ex_menv RBackUp) ex_w1.
Definition ex_limit : GfSpLimit.t := GfSpLimit.mk 1000000 10 10 10 10 10 10 10 10.
Definition ex_w3 : mworld := after (serve ex_config ex_menv (RAsk 3 ex_limit)) ex_w2.

Definition result_of {A} (p : prog mworld A) (w : mworld) : option A :=
  match run p w with Done _ a => Some a | _ => None end.

Lemma run_after {A} (p : prog mworld A) w a : result_of p w = Some a -> run p w = Done (after p w) a.
Proof. unfold result_of, after. destruct (run p w); by intros [= ->]. Qed.

(** A request that runs alone. *)
Lemma reached_request c w ps e rq r :
  mreached c w ps -> env_fine (vg_env_ok := vg_env_ok) e -> request_ok (vg_env_ok := vg_env_ok) c rq ->
  result_of (serve c e rq) w = Some r -> mreached c (after (serve c e rq) w) (Ret r :: ps).
Proof.
  intros (v & d & g & Hv & Hs) He Hr Hrun. exists v, d, g. split; [done|]. etrans; [exact Hs|].
  eapply rtc_l; [by apply step_start, (start_request (vg_env_ok := vg_env_ok) c _ e rq)|].
  by apply (run_psteps _ _ _ _ _ []), run_after.
Qed.

Lemma ex_vgm_ready : vg_ready ex_vgm.
Proof. split; [apply ex_vgm_wf|]. split; by eexists. Qed.

Lemma ex_menv_fine : env_fine (vg_env_ok := vg_env_ok) ex_menv.
Proof. split; [done|done|]. intros n. split; [done|]. by intros params [= <-]. Qed.

Lemma ex_speeds : speeds_ok (options ex_config).
Proof. repeat split; done. Qed.

Definition ex_asked : option task := default None (result_of (serve ex_config ex_menv (RAsk 3 ex_limit)) ex_w2).

Lemma ex_asked_eq : result_of (serve ex_config ex_menv (RAsk 3 ex_limit)) ex_w2 = Some ex_asked.
Proof.
  unfold ex_asked. assert (is_Some (result_of (serve ex_config ex_menv (RAsk 3 ex_limit)) ex_w2)) as [r ->]; [|done].
  assert (bool_decide (is_Some (result_of (serve ex_config ex_menv (RAsk 3 ex_limit)) ex_w2)) = true) as Hb
    by by vm_compute. by apply bool_decide_eq_true in Hb.
Qed.

Lemma ex_reached2 : mreached ex_config ex_w2 [Ret None; Ret None].
Proof.
  assert (mreached ex_config ex_w0 []) as H0.
  { exists ex_vgm, ex_db, ex_gdb. split; [apply ex_vgm_ready|apply rtc_refl]. }
  assert (mreached ex_config ex_w1 [Ret None]) as H1.
  { apply reached_request; [exact H0|apply ex_menv_fine|done|by vm_compute]. }
  apply reached_request; [exact H1|apply ex_menv_fine|done|by vm_compute].
Qed.

Lemma ex_reached : mreached ex_config ex_w3 [Ret ex_asked; Ret None; Ret None].
Proof. apply reached_request; [exact ex_reached2|apply ex_menv_fine|done|apply ex_asked_eq]. Qed.

Lemma queues_typed_witness :
  (exists k r, tasks (queues ex_w3 replicateQueue) !! k = Some r /\ in_queue replicateQueue r.2 = true) /\
  (Panic : prog mworld (option task)) ∉ [Ret ex_asked; Ret None; Ret None].
Proof.
  destruct (queues_typed ex_config ex_w3 _ ex_speeds ex_reached) as (Hq & _ & Hp). split; [|exact Hp].
  assert (bool_decide (is_Some (tasks (queues ex_w3 replicateQueue) !! Key (TUpload ex_uploaded))) = true) as Hb
    by by vm_compute.
  apply bool_decide_eq_true in Hb as [r Hr]. exists (Key (TUpload ex_uploaded)), r. split; [exact Hr|]. by eapply Hq.
Defined.

Lemma dispatch_bounded_witness :
  (exists t, ex_asked = Some (TReplicate t) /\ GetRetry t <= 6) /\ Len (queues ex_w3 replicateQueue) <= 4.
Proof.
  destruct (dispatch_bounded ex_config ex_w3 _ ex_speeds ex_reached) as (Hx & _ & Hl & _). split; [|apply (Hl replicateQueue)].
  destruct ex_asked as [[t|t|t|t|t|t|t|t|t|t|t|t|t|t]|] eqn:E; try (vm_compute in E; discriminate E).
  exists t. split; [done|]. apply (Hx (TReplicate t)). by left.
Defined.
