(* ===== verification/ManagerCases.v ===== *)
(** Properties of single handlers of the manager: which task a round picks, which blocks are
    collected, what is refused, and which failures lose a task. *)
From Stdlib Require Import ZArith Lia.
From stdpp Require Import base gmap list strings sorting pretty option relations.
From S2P Require Import Prelude Proc Sql Checksum Hex UploadDb ManagerDb Limit TaskKey Task TaskTypes.
From S2P Require Import TQueue TQueueProps VGroup VirtualGroup VirtualGroupProps ManagerTask Manager ManagerRun.
From S2P Require Import ManagerFacts ManagerProps.

Local Open Scope Z_scope.
Local Open Scope prog_scope.

(** ** PickUpTask *)

Lemma priority_nonneg (x : task) : 0 <= GetPriority x.
Proof. apply Z.mod_pos_bound. lia. Qed.

Lemma total_app l l' : total_priority (l ++ l') = total_priority l + total_priority l'.
Proof. induction l as [|r l IH]; cbn; [done|]. unfold total_priority in *. cbn. lia. Qed.

Lemma total_nonneg l : 0 <= total_priority l.
Proof. induction l as [|r l IH]; [done|]. pose proof (priority_nonneg r.2). cbn. unfold total_priority in IH. lia. Qed.

Lemma total_perm l l' : l ≡ₚ l' -> total_priority l = total_priority l'.
Proof. induction 1; cbn; unfold total_priority in *; cbn; lia. Qed.

Lemma reach_spec d m l :
  l <> [] -> d <= m + total_priority l ->
  exists l1 t l2, l = l1 ++ t :: l2 /\ reach d m l = Some (t, l1 ++ l2) /\
    d <= m + total_priority l1 + GetPriority t.2 /\ (l1 <> [] -> m + total_priority l1 < d).
Proof.
  revert m. induction l as [|r l IH]; intros m Hne Hd; [done|]. cbn. cbn in Hd.
  rewrite Z.geb_leb. destruct (Z.leb_spec d (m + GetPriority r.2)) as [Hle|Hgt].
  { exists [], r, l. split_and!; [done..| |done]. cbn. lia. }
  destruct l as [|r' l]; [cbn in Hd; lia|].
  destruct (IH (m + GetPriority r.2)) as (l1 & t & l2 & -> & -> & Hle & Hlt); [done|unfold total_priority in *; cbn in *; lia|].
  exists (r :: l1), t, l2. split_and!; [done..| |].
  - unfold total_priority in *. cbn in *. lia.
  - intros _. unfold total_priority in *. cbn in *. destruct l1 as [|r1 l1]; [cbn; lia|]. specialize (Hlt ltac:(done)). lia.
Qed.

(** Of two or more tasks a round picks one and puts the others back.  The tasks are in the
    order of their priorities; the one that is picked is the one in whose share of the sum
    the draw falls.  The first one also has the draw 0, so its share is larger by one, and
    that of the last one smaller.  If all priorities are zero, nothing is picked and nothing
    is put back. *)
Theorem pick_up_exact ties draw s tasks :
  (forall l, ties l ≡ₚ l) -> (2 <= length tasks)%nat ->
  let total := total_priority tasks in
  let d := draw mod total in
  (total = 0 /\ PickUpTask ties draw s tasks = (None, [])) \/
  (0 < total /\ exists l1 t l2,
     l1 ++ t :: l2 ≡ₚ tasks /\ Sorted priority_le (l1 ++ t :: l2) /\
     PickUpTask ties draw s tasks = (Some (upd (AppendLog s "pickup-to-backup-task-pool") t), l1 ++ l2) /\
     d <= total_priority l1 + GetPriority t.2 /\ (l1 <> [] -> total_priority l1 < d)).
Proof.
  intros Hties Hlen. cbv zeta. destruct tasks as [|a [|b rest]] eqn:El; [cbn in Hlen; lia..|]. rewrite <-El.
  assert (PickUpTask ties draw s tasks =
    let l := merge_sort priority_le (ties tasks) in
    if total_priority l <=? 0 then (None, [])
    else match reach (draw mod total_priority l) 0 l with
         | Some (t, rest) => (Some (upd (AppendLog s "pickup-to-backup-task-pool") t), rest)
         | None => (None, l)
         end) as E by by rewrite El.
  cbv zeta in E. set (l := merge_sort priority_le (ties tasks)) in *.
  assert (l ≡ₚ tasks) as Hp by (unfold l; rewrite merge_sort_Permutation; apply Hties).
  rewrite (total_perm _ _ Hp) in E. pose proof (total_nonneg tasks). destruct (Z.leb_spec (total_priority tasks) 0).
  { left. split; [lia|done]. }
  right. split; [done|]. destruct (reach_spec (draw mod total_priority tasks) 0 l) as (l1 & t & l2 & El1 & Er & Hle & Hlt).
  - intros ->. apply Permutation_nil_l in Hp. by rewrite <-Hp in El.
  - rewrite (total_perm _ _ Hp). pose proof (Z.mod_pos_bound draw (total_priority tasks)). lia.
  - exists l1, t, l2. rewrite Er in E. split_and!; [by rewrite <-El1|rewrite <-El1; apply Sorted_merge_sort; intros x y;
      unfold priority_le; lia|done|lia|]. intros Hne. specialize (Hlt Hne). lia.
Qed.

Definition ex_replicate : GfSpReplicatePieceTask.t :=
  GfSpReplicatePieceTask.InitReplicatePieceTask ex_obj ex_params 255 90 3 false 900 900.
Definition ex_zombie : GfSpGCZombiePieceTask.t := GfSpGCZombiePieceTask.InitGCZombiePieceTask 16 0 100 300 900 900.

Lemma pick_up_exact_witness :
  exists t l, PickUpTask (fun l => l) 5 "t" [(0%nat, TReplicate ex_replicate); (1%nat, TGCZombie ex_zombie)] =
    (Some t, l) /\ length l = 1%nat.
Proof.
  destruct (pick_up_exact (fun l => l) 5 "t" [(0%nat, TReplicate ex_replicate); (1%nat, TGCZombie ex_zombie)])
    as [[E _]|(_ & l1 & t & l2 & Hp & _ & -> & _)]; [done|done|vm_compute in E; discriminate E|].
  eexists _, _. split; [reflexivity|]. apply Permutation_length in Hp. rewrite length_app in *. cbn in Hp. lia.
Defined.

(** ** Runs of the actions *)

Section runs.
Context {V E : Type} `{VirtualGroupManager V E}.
Implicit Types (w : world V) (e : env E).

(** [Has] answers whether the task is there and not to be retired. *)
Lemma run_qhas e q key w : keys_ok (queues w q) -> resets q = false ->
  exists w', run (qhas e q key) w = Done w' (bool_decide (is_Some (live (now e) (queues w q) !! key))) /\
    rest_same q w w' /\ (tasks (queues w q) !! key = None -> queues w' q = queues w q /\ jobs w' = jobs w).
Proof.
  intros Hk Hres. destruct (run_call q (touch_key q (now e) key) (fired_key (now e) key) (Has (now e) key) w)
    as (w' & Hr & Hq & Hs & Hj).
  assert (touch_key q (now e) key (queues w q) = queues w q) as Et by (unfold touch_key; by rewrite Hres).
  rewrite Et in *. exists w'. split.
  - unfold qhas. rewrite Hr. f_equal. unfold Has. destruct (has (now e) key (queues w q)) as [Q h] eqn:Eh.
    apply has_spec in Eh as (_ & _ & Eh); [|done]. cbn. destruct (live _ _ !! key) as [x|]; destruct Eh as [-> _].
    + symmetry. apply bool_decide_eq_true. eauto.
    + symmetry. apply bool_decide_eq_false. by intros [].
  - split; [done|]. intros Hn. split.
    + rewrite Hq. unfold Has, has. by rewrite Hn.
    + apply Hj. unfold fired_key. by rewrite Hn.
Qed.

(** The queues of uploads, in the order they are asked. *)
Definition upload_queues : list qid := [uploadQueue; replicateQueue; sealQueue; resumableUploadQueue].

Definition seen e (key : TKey) w (q : qid) : bool := bool_decide (is_Some (live (now e) (queues w q) !! key)).

Lemma seen_same e key q w w' q' : rest_same q w w' -> q' <> q -> seen e key w' q' = seen e key w q'.
Proof. intros Hs Hq. unfold seen. by rewrite (rs_queues _ _ _ Hs). Qed.

Fixpoint ask_queues e (key : TKey) (qs : list qid) : prog (world V) bool :=
  match qs with
  | [] => Ret false
  | q :: qs => b <-- qhas e q key ;; if b then Ret true else ask_queues e key qs
  end.

Lemma run_ask_queues e key qs w :
  NoDup qs -> Forall (fun q => resets q = false /\ keys_ok (queues w q)) qs ->
  exists w', run (ask_queues e key qs) w = Done w' (existsb (seen e key w) qs) /\
    (forall q, q ∉ qs -> queues w' q = queues w q) /\ taskCh w' = taskCh w /\ db w' = db w /\
    (Forall (fun q => tasks (queues w q) !! key = None) qs -> (forall q, queues w' q = queues w q) /\ jobs w' = jobs w).
Proof.
  revert w. induction qs as [|q qs IH]; intros w Hnd Hok; [by exists w; split_and!; auto|].
  apply NoDup_cons in Hnd as [Hq Hnd]. apply Forall_cons_1 in Hok as [[Hres Hk] Hok].
  destruct (run_qhas e q key w Hk Hres) as (w1 & Hr & Hs & Hn). cbn [ask_queues].
  rewrite (run_bind_done _ _ _ _ _ Hr). fold (seen e key w q). cbn [existsb].
  assert (forall q', q' ∈ qs -> q' <> q) as Hne by (intros q' ? ->; done).
  destruct (seen e key w q) eqn:Es.
  { exists w1. split_and!; [done| |apply Hs|apply Hs|].
    - intros q' Hq'. apply (rs_queues _ _ _ Hs). intros ->. apply Hq'. by left.
    - intros [H1 _]%Forall_cons_1. destruct (Hn H1) as [Hn1 Hn2]. split; [|done]. intros q'.
      destruct (decide (q' = q)) as [->|]; [done|]. by apply (rs_queues _ _ _ Hs). }
  destruct (IH w1 Hnd) as (w2 & Hr2 & Hq2 & Hc2 & Hd2 & Hj2).
  { rewrite Forall_forall in Hok |- *. intros q' Hq'. rewrite (rs_queues _ _ _ Hs); auto. }
  exists w2. split_and!.
  - rewrite Hr2. f_equal. cbn. clear -Hs Hne. induction qs as [|q' qs IH]; [done|]. cbn.
    rewrite (seen_same _ _ q w w1 q'), IH; [done| |done|apply Hne; by left]. intros q'' Hin. apply Hne. by right.
  - intros q' Hq'. rewrite Hq2; [|intros ?; apply Hq'; by right]. apply (rs_queues _ _ _ Hs). intros ->. apply Hq'. by left.
  - rewrite Hc2. apply Hs.
  - rewrite Hd2. apply Hs.
  - intros [H1 H2]%Forall_cons_1. destruct (Hn H1) as [Hn1 Hn2]. destruct Hj2 as [Hj2 Hj3].
    { rewrite Forall_forall in H2 |- *. intros q' Hq'. rewrite (rs_queues _ _ _ Hs); auto. }
    split; [|congruence]. intros q'. rewrite Hj2. destruct (decide (q' = q)) as [->|]; [done|].
    by apply (rs_queues _ _ _ Hs).
Qed.

Lemma run_uploading e key w : run (TaskUploading e key) w = run (ask_queues e key upload_queues) w.
Proof.
  unfold TaskUploading. cbn [ask_queues upload_queues]. rewrite !run_bind.
  destruct (run (qhas e uploadQueue key) w) as [w1 [|]| |]; [done| |done..]. rewrite !run_bind.
  destruct (run (qhas e replicateQueue key) w1) as [w2 [|]| |]; [done| |done..]. rewrite !run_bind.
  destruct (run (qhas e sealQueue key) w2) as [w3 [|]| |]; [done| |done..]. rewrite !run_bind.
  by destruct (run (qhas e resumableUploadQueue key) w3) as [w4 [|]| |].
Qed.
End runs.

(** ** Repeated uploads *)

(** A task of this object that is in one of the queues of uploads, and is not to be retired,
    keeps a second upload out: it is refused, and the database is not touched. *)
Theorem begin_refused c (w : mworld) ps (e : env vg_env) t q r :
  speeds_ok (options c) -> mreached c w ps ->
  q ∈ upload_queues -> tasks (queues w q) !! Key t = Some r -> retire_strategy q (now e) r = false ->
  exists w' err, run (GfSpBeginTask c e (TUpload t)) w = Done w' (Some (ErrManager err)) /\
    (err = ErrRepeatedTask \/ err = ErrExceedTask) /\ db w' = db w.
Proof.
  intros Hs Hre Hq Hr Hret. destruct (reached_inv c w ps Hs Hre) as [Hw _].
  assert (forall q', keys_ok (queues w q')) as Hk by (intros q'; apply (qo_inv _ _ _ (mo_queues _ _ Hw q'))).
  unfold GfSpBeginTask, HandleCreateUploadObjectTask. cbn [negb]. rewrite run_bind, run_bind.
  unfold UploadingObjectNumber at 1, qlen, asks, act. cbn [pbind run].
  destruct (_ >=? _); [cbn; by eexists _, _; split_and!; [|right|]|].
  rewrite run_bind, run_uploading. destruct (run_ask_queues e (Key t) upload_queues w) as (w' & -> & _ & _ & Hd & _).
  - apply (bool_decide_unpack (NoDup upload_queues)). by vm_compute.
  - repeat constructor; apply Hk.
  - assert (existsb (seen e (Key t) w) upload_queues = true) as ->.
    { apply existsb_exists. exists q. split; [by apply list_elem_of_In|]. apply bool_decide_eq_true. exists r.
      apply live_lookup. split; [done|]. unfold retired. by rewrite (same_gc _ _ (qo_settings _ _ _ (mo_queues _ _ Hw q))). }
    cbn. eexists _, _. split_and!; [done|by left|done].
Qed.

Lemma begin_refused_witness :
  exists w' err, run (GfSpBeginTask ex_config ex_menv (TUpload ex_uploaded)) ex_w3 = Done w' (Some (ErrManager err)) /\
    (err = ErrRepeatedTask \/ err = ErrExceedTask) /\ db w' = db ex_w3.
Proof.
  assert (exists r, tasks (queues ex_w3 replicateQueue) !! Key ex_uploaded = Some r /\
    retire_strategy replicateQueue (now ex_menv) r = false) as (r & Hr & Hret).
  { assert (match tasks (queues ex_w3 replicateQueue) !! Key ex_uploaded with
            | Some r => negb (retire_strategy replicateQueue (now ex_menv) r) | None => false end = true) as Hb by by vm_compute.
    destruct (tasks _ !! _) as [r|]; [|done]. exists r. split; [done|]. by destruct (retire_strategy _ _ _). }
  apply (begin_refused ex_config ex_w3 _ ex_menv ex_uploaded replicateQueue r ex_speeds ex_reached); [|exact Hr|exact Hret].
  right. left.
Defined.

Lemma key_in (l : list ref) k : existsb (fun r => bool_decide (Key r.2 = k)) l = true -> exists r, r ∈ l /\ Key r.2 = k.
Proof.
  intros (r & Hr & Hk)%existsb_exists. exists r. split; [by apply list_elem_of_In|]. by apply bool_decide_eq_true in Hk.
Qed.

(** A task that waits in the channel is in none of the queues: while the replication of an
    object waits for an executor, a second upload of the object is accepted. *)
Theorem waiting_not_seen :
  exists w ps r t, mreached ex_config w ps /\ r ∈ taskCh w /\ Key r.2 = Key t /\
    result_of (GfSpBeginTask ex_config ex_menv (TUpload t)) w = Some None.
Proof.
  destruct (key_in (taskCh ex_w2) (Key ex_uploaded)) as (r & Hr & Ek); [by vm_compute|].
  exists ex_w2, [Ret None; Ret None], r, ex_uploaded. split_and!; [exact ex_reached2|exact Hr|exact Ek|by vm_compute].
Qed.

(** ** Failures that lose a task *)

(** The queues of garbage collection retire nothing. *)
Lemma live_unretired c q (Q : GfSpTQueue ref) tm key :
  queue_ok c q Q -> resets q = true -> live tm Q !! key = tasks Q !! key.
Proof.
  intros HQ Hres. apply option_eq. intros r. rewrite live_lookup. split; [by intros []|]. intros Hr. split; [done|].
  unfold retired. rewrite (same_gc _ _ (qo_settings _ _ _ HQ)). by destruct q.
Qed.

Lemma touched_lookup q tm key (Q : GfSpTQueue ref) r :
  resets q = true -> tasks Q !! key = Some r -> tasks (touch_key q tm key Q) !! key = Some (upd (reset tm) r).
Proof. intros Hres Hr. unfold touch_key. rewrite Hres. cbn. by rewrite lookup_alter_eq, Hr. Qed.

Lemma run_gc_has c (w : mworld) (e : env vg_env) q key r :
  queue_ok c q (queues w q) -> resets q = true -> tasks (queues w q) !! key = Some r ->
  exists w', run (qhas e q key) w = Done w' true /\ queue_ok c q (queues w' q) /\
    tasks (queues w' q) !! key = Some (upd (reset (now e)) r).
Proof.
  intros HQ Hres Hr. destruct (run_call q (touch_key q (now e) key) (fired_key (now e) key) (Has (now e) key) w)
    as (w' & Hrun & Hq & _). pose proof (touch_key_ok c q (now e) key _ HQ) as HQ1.
  pose proof (touched_lookup q (now e) key _ r Hres Hr) as Hr1.
  set (Q1 := touch_key q (now e) key (queues w q)) in *. clearbody Q1.
  destruct (Has (now e) key Q1) as [Q2 h] eqn:Eh. unfold Has in Eh.
  pose proof Eh as Eh'. apply has_spec in Eh as (_ & _ & Eh); [|apply HQ1].
  rewrite (live_unretired c q) in Eh by done. rewrite Hr1 in Eh. destruct Eh as [-> ->]. cbn in Hrun, Hq.
  exists w'. rewrite Hq. done.
Qed.

Lemma run_gc_pop c (w : mworld) (e : env vg_env) q key r :
  queue_ok c q (queues w q) -> resets q = true -> tasks (queues w q) !! key = Some r ->
  exists w', run (qpop_key e q key) w = Done w' (Some (upd (reset (now e)) r)) /\ tasks (queues w' q) !! key = None.
Proof.
  intros HQ Hres Hr. destruct (run_call q (touch_key q (now e) key) (fired_key (now e) key) (PopByKey (now e) key) w)
    as (w' & Hrun & Hq & _). pose proof (touch_key_ok c q (now e) key _ HQ) as HQ1.
  pose proof (touched_lookup q (now e) key _ r Hres Hr) as Hr1.
  set (Q1 := touch_key q (now e) key (queues w q)) in *. clearbody Q1.
  destruct (PopByKey (now e) key Q1) as [Q2 o] eqn:Eh. apply PopByKey_spec in Eh as (_ & -> & Et); [|apply HQ1].
  rewrite (live_unretired c q), Hr1 in Hrun by done. cbn in Hrun, Hq.
  exists w'. split; [exact Hrun|]. by rewrite Hq, Et, lookup_delete_eq.
Qed.

(** The tasks of garbage collection that the manager makes, after some dispatches. *)
Inductive gc_made : qid -> task -> Prop :=
| made_zombie p a b d n n' k : 0 <= k ->
    gc_made gcZombieQueue (SetRetry k (TGCZombie (GfSpGCZombiePieceTask.InitGCZombiePieceTask p a b d n n')))
| made_meta p d n n' k : 0 <= k -> gc_made gcMetaQueue (SetRetry k (TGCMeta (GfSpGCMetaTask.InitGCMetaTask p d n n')))
| made_stale p i j c cs v s d n n' k : 0 <= k ->
    gc_made gcStaleVersionObjectQueue
      (SetRetry k (TGCStaleVersion (GfSpGCStaleVersionObjectTask.InitGCStaleVersionObjectTask p i j c cs v s d n n'))).

Lemma made_exceeds q x tm : gc_made q x -> ExceedRetry (reset tm x) = true.
Proof.
  intros Hm. unfold reset. destruct (Expired tm x); destruct Hm; unfold ExceedRetry, GfSpTask.ExceedRetry; cbn;
    first [done|rewrite Z.geb_leb; by apply Z.leb_le].
Qed.

(** A zombie, metadata or stale version collection that fails is not tried again: its
    initialisation sets no limit of retries, so the limit is always exceeded, and the report
    of the failure takes the task out of the queue. *)
Theorem gc_failure_not_retried c (w : mworld) ps (e : env vg_env) q x r err :
  speeds_ok (options c) -> mreached c w ps ->
  tasks (queues w q) !! Key x = Some r -> gc_made q r.2 -> in_queue q x = true -> Error x = Some err ->
  exists w', run (GfSpReportTask c e x) w = Done w' (Some (ErrManager ErrCanceledTask)) /\
    tasks (queues w' q) !! Key x = None.
Proof.
  intros Hs Hre Hr Hmade Hq Herr. destruct (reached_inv c w ps Hs Hre) as [Hw _]. pose proof (mo_queues _ _ Hw q) as HQ.
  assert (resets q = true) as Hres by by destruct Hmade.
  assert (forall clear y, Key y = Key x -> Error y = Some err ->
    exists w', run (handle_gc_report e q clear y) w = Done w' (Some ErrCanceledTask) /\ tasks (queues w' q) !! Key x = None) as Hrep.
  { intros clear y Ey Eerr. unfold handle_gc_report. rewrite Ey.
    destruct (run_gc_has c w e q (Key x) r HQ Hres Hr) as (w1 & H1 & HQ1 & Hr1). rewrite (run_bind_done _ _ _ _ _ H1).
    cbn [negb]. rewrite Eerr. cbv zeta. rewrite run_bind. set (z := if clear then _ else _).
    assert (Key z = Key x) as Ez by (unfold z; destruct clear; unfold SetError, SetUpdateTime; rewrite !key_on; done).
    unfold retry_report. rewrite Ez.
    destruct (run_gc_pop c w1 e q (Key x) _ HQ1 Hres Hr1) as (w2 & H2 & Hn). rewrite (run_bind_done _ _ _ _ _ H2).
    assert (ExceedRetry (upd (reset (now e)) (upd (reset (now e)) r)).2 = true) as ->.
    { cbn. unfold reset at 1. destruct (Expired (now e) (reset (now e) r.2)) eqn:Ex; [|by eapply made_exceeds].
      clear -Hmade. unfold reset. destruct (Expired (now e) r.2); destruct Hmade; done. }
    by exists w2. }
  unfold GfSpReportTask. cbv zeta. rewrite run_bind.
  destruct Hmade; destruct x; try done.
  - destruct (Hrep false (SetAddress (remote_address e) (TGCZombie t))) as (w' & Hrun & ?); [by apply key_on|done|].
    exists w'. change (run (HandleGCZombiePieceTask e (SetAddress (remote_address e) t)) w = Done w' (Some ErrCanceledTask)) in Hrun. by rewrite Hrun.
  - destruct (Hrep true (SetAddress (remote_address e) (TGCMeta t))) as (w' & Hrun & ?); [by apply key_on|done|].
    exists w'. change (run (HandleGCMetaTask e (SetAddress (remote_address e) t)) w = Done w' (Some ErrCanceledTask)) in Hrun. by rewrite Hrun.
  - destruct (Hrep false (SetAddress (remote_address e) (TGCStaleVersion t))) as (w' & Hrun & ?); [by apply key_on|done|].
    exists w'. change (run (HandleGCStaleVersionObjectTask e (SetAddress (remote_address e) t)) w = Done w' (Some ErrCanceledTask)) in Hrun. by rewrite Hrun.
Qed.

(** A zombie collection is made, handed out, and fails. *)
Definition ex_z1 : mworld := after (serve ex_config ex_menv (RGCZombie (Some 100000))) ex_w0.
Definition ex_made_zombie : GfSpGCZombiePieceTask.t :=
  GfSpGCZombiePieceTask.InitGCZombiePieceTask (TaskPriority TypeTaskGCZombiePiece) 0 100 300 1000 1000.
Definition ex_failed_zombie : GfSpGCZombiePieceTask.t := SetError (fun _ => None) (Some (OtherErr "disk")) ex_made_zombie.

Lemma ex_z1_reached : mreached ex_config ex_z1 [Ret None].
Proof.
  apply reached_request; [|apply ex_menv_fine|done|by vm_compute].
  exists ex_vgm, ex_db, ex_gdb. split; [apply ex_vgm_ready|apply rtc_refl].
Qed.

Lemma gc_failure_not_retried_witness :
  exists w', run (GfSpReportTask ex_config ex_menv (TGCZombie ex_failed_zombie)) ex_z1 =
      Done w' (Some (ErrManager ErrCanceledTask)) /\
    tasks (queues w' gcZombieQueue) !! Key (TGCZombie ex_failed_zombie) = None.
Proof.
  assert (tasks (queues ex_z1 gcZombieQueue) !! Key (TGCZombie ex_failed_zombie) = Some (0%nat, TGCZombie ex_made_zombie)) as Hr
    by by vm_compute.
  assert (exists err, Error (TGCZombie ex_failed_zombie) = Some err) as [err He] by by eexists.
  apply (gc_failure_not_retried ex_config ex_z1 _ ex_menv gcZombieQueue (TGCZombie ex_failed_zombie) _ err
    ex_speeds ex_z1_reached Hr); [|reflexivity|exact He]. by apply (made_zombie _ 0 100 300 1000 1000 0).
Defined.

(** *** A replication whose provider failed *)

Lemma fired_none tm key (Q : GfSpTQueue ref) r : tasks Q !! key = Some r -> retired tm Q r = false -> fired_key tm key Q = [].
Proof. intros Hr Hl. unfold fired_key. by rewrite Hr, Hl. Qed.

Lemma run_absent (w : mworld) (e : env vg_env) key qs :
  (forall q, keys_ok (queues w q)) -> NoDup qs -> Forall (fun q => resets q = false) qs ->
  Forall (fun q => tasks (queues w q) !! key = None) qs ->
  exists w', run (ask_queues e key qs) w = Done w' false /\ (forall q, queues w' q = queues w q) /\
    taskCh w' = taskCh w /\ db w' = db w /\ jobs w' = jobs w.
Proof.
  intros Hw Hnd Hres Hn. destruct (run_ask_queues e key qs w Hnd) as (w' & Hr & Hq & Hc & Hd & Hj).
  - rewrite Forall_forall in Hres |- *. intros q Hq. split; auto.
  - destruct (Hj Hn). exists w'. split_and!; auto. rewrite Hr. f_equal. apply not_true_is_false. intros (q & Hin & Hs)%existsb_exists.
    apply bool_decide_eq_true in Hs as [r [Hr' _]%live_lookup]. rewrite Forall_forall in Hn.
    apply list_elem_of_In in Hin. by rewrite (Hn q Hin) in Hr'.
Qed.

(** A replication that failed because of one provider is taken out of the queue before the
    chain is asked about the object.  If the chain does not answer, the task is lost: it is
    in no queue, nothing is spawned, the state of the upload stays REPLICATE_OBJECT_DOING,
    and the executor is told that all is well. *)
Theorem failed_report_loses_task c (w : mworld) ps (e : env vg_env) t ptr queued err msg :
  speeds_ok (options c) -> mreached c w ps ->
  tasks (queues w replicateQueue) !! Key t = Some (ptr, TReplicate queued) ->
  Expired (now e) queued = false -> ExceedRetry queued = false ->
  Forall (fun q => tasks (queues w q) !! Key t = None) [uploadQueue; sealQueue; resumableUploadQueue] ->
  Error t = Some err -> GfSpReplicatePieceTask.NotAvailableSpIdx t <> -1 ->
  query_object_info e (ObjId (GfSpReplicatePieceTask.ObjectInfo_ queued)) = Err msg ->
  exists w', run (HandleReplicatePieceTask c e true t) w = Done w' None /\
    (forall q, q ∈ upload_queues -> tasks (queues w' q) !! Key t = None) /\
    taskCh w' = taskCh w /\ jobs w' = jobs w /\ db w' = db w.
Proof.
  intros Hs Hre Hr Hexp Hexc Habs Herr Hidx Hquery. destruct (reached_inv c w ps Hs Hre) as [Hw _].
  pose proof (mo_queues _ _ Hw replicateQueue) as HQ.
  assert (retired (now e) (queues w replicateQueue) (ptr, TReplicate queued) = false) as Hlive
    by (unfold retired; by rewrite (same_gc _ _ (qo_settings _ _ _ HQ))).
  assert (live (now e) (queues w replicateQueue) !! Key t = Some (ptr, TReplicate queued)) as El by by apply live_lookup.
  unfold HandleReplicatePieceTask. cbn [negb]. rewrite Herr, run_bind. unfold handleFailedReplicatePieceTask.
  destruct (run_call replicateQueue (touch_key replicateQueue (now e) (Key t)) (fired_key (now e) (Key t))
    (PopByKey (now e) (Key t)) w) as (w1 & Hrun & Hq & Hsame & Hjobs). cbn [touch_key resets] in *.
  destruct (PopByKey (now e) (Key t) (queues w replicateQueue)) as [Q1 o] eqn:Ep.
  apply PopByKey_spec in Ep as (_ & Eo & Et); [|apply HQ]. cbn [fst snd] in Hrun, Hq.
  assert (o = Some (ptr, TReplicate queued)) as Ho by (rewrite Eo; exact El). clear Eo. subst o.
  rewrite (run_bind_done (qpop_key e replicateQueue (Key t)) _ _ _ _ Hrun), run_bind, run_uploading.
  assert (forall q, q ∈ upload_queues -> tasks (queues w1 q) !! Key t = None) as Habs1.
  { intros q Hin. destruct (decide (q = replicateQueue)) as [->|Hne]; [by rewrite Hq, Et, lookup_delete_eq|].
    rewrite (rs_queues _ _ _ Hsame) by done. rewrite Forall_forall in Habs. apply Habs. set_solver. }
  destruct (run_absent w1 e (Key t) upload_queues) as (w2 & -> & Hq2 & Hc2 & Hd2 & Hj2).
  - intros q. destruct (decide (q = replicateQueue)) as [->|Hne].
    + rewrite Hq. eapply keys_ok_subseteq; [apply HQ|]. rewrite Et. apply delete_subseteq.
    + rewrite (rs_queues _ _ _ Hsame) by done. apply (qo_inv _ _ _ (mo_queues _ _ Hw q)).
  - apply (bool_decide_unpack (NoDup upload_queues)). by vm_compute.
  - by repeat constructor.
  - apply Forall_forall. exact Habs1.
  - cbv beta iota zeta. rewrite Hexc. cbn [negb]. rewrite (proj2 (Z.eqb_neq _ _) Hidx). cbn [negb]. unfold repick.
    cbv zeta. match goal with |- context [query_object_info e ?i] =>
      change i with (ObjId (GfSpReplicatePieceTask.ObjectInfo_ queued)) end. rewrite Hquery. exists w2. split_and!; [done| | | |].
    + intros q Hin. rewrite Hq2. by apply Habs1.
    + rewrite Hc2. apply Hsame.
    + rewrite Hj2. apply Hjobs. exact (fired_none _ _ _ _ Hr Hlive).
    + rewrite Hd2. apply Hsame.
Qed.

(** The executor reports that the provider 0 of the replication was not available, and the
    chain does not answer. *)
Definition ex_report : GfSpReplicatePieceTask.t :=
  match ex_asked with
  | Some (TReplicate t) =>
    SetError (fun _ => None) (Some (OtherErr "provider")) (GfSpReplicatePieceTask.SetNotAvailableSpIdx 0 t)
  | _ => ex_replicate
  end.
Definition ex_silent : env vg_env :=
  mkEnv 1000 "t" "sp:80" None (fun l => l) (fun l => l) 5 (fun _ => None) (fun _ => ""%string) (fun _ => ex_env)
    (fun _ => Err "timeout"%string) (fun id => Ok (ex_group id 100)) (fun _ => Ok []) (Ok 1) (Ok ex_params)
    (Ok (mkVGParams "amoca" 1)) (fun _ => None) (fun _ => true) None None None.

Lemma failed_report_loses_task_witness :
  exists w', run (HandleReplicatePieceTask ex_config ex_silent true ex_report) ex_w3 = Done w' None /\
    (forall q, q ∈ upload_queues -> tasks (queues w' q) !! Key ex_report = None) /\
    taskCh w' = taskCh ex_w3 /\ jobs w' = jobs ex_w3 /\ db w' = db ex_w3.
Proof.
  assert (exists ptr queued, tasks (queues ex_w3 replicateQueue) !! Key ex_report = Some (ptr, TReplicate queued) /\
    Expired (now ex_silent) queued = false /\ ExceedRetry queued = false) as (ptr & queued & H1 & H2 & H3).
  { assert (match tasks (queues ex_w3 replicateQueue) !! Key ex_report with
            | Some (_, TReplicate q) => negb (Expired (now ex_silent) q) && negb (ExceedRetry q)
            | _ => false end = true) as Hb by by vm_compute.
    destruct (tasks _ !! _) as [[ptr [t|t|t|t|t|t|t|t|t|t|t|t|t|t]]|]; try discriminate Hb.
    apply andb_true_iff in Hb as [? ?]. exists ptr, t. split_and!; [done|by apply negb_true_iff..]. }
  assert (exists err, Error ex_report = Some err) as [err He].
  { assert (bool_decide (is_Some (Error ex_report)) = true) as Hb by by vm_compute. by apply bool_decide_eq_true in Hb. }
  apply (failed_report_loses_task ex_config ex_w3 _ ex_silent ex_report ptr queued err "timeout" ex_speeds ex_reached H1 H2 H3);
    [|exact He|by vm_compute|reflexivity].
  repeat constructor; by vm_compute.
Defined.

(** ** The blocks that are collected *)

Lemma run_push c (w : mworld) (e : env vg_env) q r :
  queue_ok c q (queues w q) ->
  exists w' err, run (qpush e q r) w = Done w' err /\ rest_same q w w' /\
    (err = None -> tasks (queues w' q) !! qkey r = Some r).
Proof.
  intros HQ. destruct (run_call q (touch_push q (now e) r) (fired_push (now e) r) (Push (now e) r) w)
    as (w' & Hrun & Hq & Hs & _). pose proof (touch_push_ok c q (now e) r _ HQ) as HQ1.
  set (Q1 := touch_push q (now e) r (queues w q)) in *. clearbody Q1.
  destruct (Push (now e) r Q1) as [Q2 err] eqn:Ep. cbn [fst snd] in *. exists w', err. split_and!; [exact Hrun|done|].
  intros ->. apply Push_spec in Ep as (Ep & _ & _); [|apply HQ1]. rewrite Hq. unfold push_outcome in Ep.
  destruct Ep as (_ & [[_ E]|(_ & old & _ & _ & _ & E)]); rewrite E; apply lookup_insert_eq.
Qed.

(** Each tick hands out the next range of blocks or nothing: a task is queued for the
    blocks that follow those of the last task, it ends at the safe distance from the head
    of the chain, and the position moves behind it only then.  So no block is collected by
    two tasks, and none is left out. *)
Theorem gc_ranges_consecutive c (w : mworld) ps (e : env vg_env) height :
  speeds_ok (options c) -> mreached c w ps ->
  0 <= gcBlockHeight w -> 0 <= gcObjectBlockInterval c -> 0 <= gcSafeBlockDistance c ->
  gcBlockHeight w + gcObjectBlockInterval c + gcSafeBlockDistance c < MaxUint64 ->
  exists w', run (gc_object_tick c e (Some height)) w = Done w' tt /\
    ((gcBlockHeight w' = gcBlockHeight w /\ gdb w' = gdb w) \/
     exists t ptr, tasks (queues w' gcObjectQueue) !! Key t = Some (ptr, TGCObject t) /\
       GfSpGCObjectTask.StartBlockNumber t = gcBlockHeight w /\
       GfSpGCObjectTask.EndBlockNumber t = gcBlockHeight w + gcObjectBlockInterval c /\
       GfSpGCObjectTask.EndBlockNumber t + gcSafeBlockDistance c <= height /\
       gcBlockHeight w' = GfSpGCObjectTask.EndBlockNumber t + 1).
Proof.
  intros Hs Hre H1 H2 H3 H4. destruct (reached_inv c w ps Hs Hre) as [Hw _]. unfold gc_object_tick.
  unfold asks, act. cbn [pbind run]. unfold MaxUint64 in H4.
  rewrite (uint64_wrap_id (gcBlockHeight w + gcObjectBlockInterval c)) by (unfold is_uint64, MaxUint64 in *; lia).
  rewrite (uint64_wrap_id (gcBlockHeight w + gcObjectBlockInterval c + gcSafeBlockDistance c))
    by (unfold is_uint64, MaxUint64 in *; lia).
  rewrite (uint64_wrap_id (gcBlockHeight w + gcObjectBlockInterval c + 1)) by (unfold is_uint64, MaxUint64 in *; lia).
  rewrite Z.gtb_ltb. destruct (Z.ltb_spec height (gcBlockHeight w + gcObjectBlockInterval c + gcSafeBlockDistance c)) as [|Hsafe].
  { exists w. split; [done|by left]. }
  destruct (timeouts_total (options c) TypeTaskGCObject 0 Hs) as [n ->]. unfold new_task, act. cbn [pbind run].
  set (t := GfSpGCObjectTask.InitGCObjectTask _ _ _ _ _ _). rewrite run_bind.
  set (w1 := set_next_ref _ w). set (r := (next_ref w, TGCObject t)).
  destruct (run_push c w1 e gcObjectQueue r (mo_queues _ _ Hw gcObjectQueue)) as (w2 & err & -> & Hsame & Hpush).
  destruct err as [err|].
  { exists w2. split; [done|]. left. split; apply Hsame. }
  specialize (Hpush eq_refl). cbv beta iota. unfold modify, with_gdb, act. cbn [pbind run].
  destruct (InsertGCObjectProgress _ _ _) as [d o]. eexists. split; [reflexivity|]. right. exists t, (next_ref w).
  split_and!; [exact Hpush|done|done|done|reflexivity].
Qed.

Lemma gc_ranges_consecutive_witness :
  exists w', run (gc_object_tick ex_config ex_menv (Some 5000)) ex_w3 = Done w' tt /\ gcBlockHeight w' = 1001.
Proof.
  destruct (gc_ranges_consecutive ex_config ex_w3 _ ex_menv 5000 ex_speeds ex_reached) as (w' & Hr & Hc);
    [by vm_compute..|]. exists w'. split; [exact Hr|].
  assert (result_of (gc_object_tick ex_config ex_menv (Some 5000) ;;; asks gcBlockHeight) ex_w3 = Some 1001) as Hres
    by by vm_compute.
  unfold result_of in Hres. rewrite run_bind, Hr in Hres. by injection Hres as <-.
Defined.

(** ** Restarting *)

Definition ex_row_key : string := GfSpGCObjectTaskKey 0 1000 900.
Definition ex_gdb1 : gcdb :=
  mkGCDb (mkGCTables {[ ex_row_key := mkGCRow ex_row_key 0 1000 500 7 900 950 ]} ∅) (fun _ => Committed) 0.
Definition ex_load : load_env (E := vg_env) :=
  mkLoadEnv (fun _ => ex_menv) (fun _ => None) (fun _ => Err ""%string) (fun _ => None) (fun _ => Ok None) 1000
    (fun l => l) (fun l => l).
Definition ex_restarted : mworld :=
  after (serve ex_config ex_menv (RLoad ex_load)) (new_world ex_config ex_vgm ex_db ex_gdb1).
(** The report of the reloaded task when it is finished. *)
Definition ex_finished : GfSpGCObjectTask.t :=
  GfSpGCObjectTask.SetGCObjectProgress 1001 9
    (GfSpGCObjectTask.InitGCObjectTask (TaskPriority TypeTaskGCObject) 0 1000 300 1000 1000).

(** A collection of deleted objects that is reloaded after a restart is made with a new time
    of creation, and so with a new key.  When it is finished, the row of the new key is
    deleted, which there is none of: the row it was loaded from stays, and the collection
    is done again after the next restart. *)
Theorem reloaded_gc_row_stays :
  tasks (queues ex_restarted gcObjectQueue) !! Key ex_finished <> None /\
  result_of (GfSpReportTask ex_config ex_menv (TGCObject ex_finished)) ex_restarted = Some None /\
  let w := after (GfSpReportTask ex_config ex_menv (TGCObject ex_finished)) ex_restarted in
  tasks (queues w gcObjectQueue) !! Key ex_finished = None /\
  gc_progress (gc_tabs (gdb w)) !! ex_row_key = Some (mkGCRow ex_row_key 0 1000 500 7 900 950).
Proof.
  split_and!; [|by vm_compute..].
  assert (bool_decide (tasks (queues ex_restarted gcObjectQueue) !! Key ex_finished = None) = false) as Hb by by vm_compute.
  by apply bool_decide_eq_false in Hb.
Qed.
