(* ===== verification/Policy.v ===== *)
(** Permissions: modular/metadata/metadata_permission_service.go and what it reads of the
    block syncer database (store/bsdb: permission.go, statement.go, group.go, bucket.go,
    object.go, event_migration_bucket.go).

    A query finds the tables as they are when it runs, or fails: a call takes [db], the
    answer of the database to its n-th query.  The clock is in nanoseconds.  Regular
    expressions, the numbers and addresses of the chain's SDK and its table of public
    actions are arguments. *)
From Stdlib Require Import ZArith Lia.
From stdpp Require Import base list strings option sorting.
From S2P Require Import Prelude.

Local Open Scope Z_scope.

(** ** Types of the chain *)

Inductive Effect := EFFECT_UNSPECIFIED | EFFECT_ALLOW | EFFECT_DENY.
#[export] Instance Effect_eq_dec : EqDecision Effect.
Proof. solve_decision. Defined.

(** [ACTION_UNSPECIFIED] is every action that has no bit. *)
Inductive ActionType :=
| ACTION_UNSPECIFIED
| ACTION_TYPE_ALL
| ACTION_UPDATE_BUCKET_INFO
| ACTION_DELETE_BUCKET
| ACTION_CREATE_OBJECT
| ACTION_DELETE_OBJECT
| ACTION_COPY_OBJECT
| ACTION_GET_OBJECT
| ACTION_EXECUTE_OBJECT
| ACTION_LIST_OBJECT
| ACTION_UPDATE_GROUP_MEMBER
| ACTION_DELETE_GROUP
| ACTION_UPDATE_OBJECT_INFO
| ACTION_UPDATE_GROUP_EXTRA
| ACTION_UPDATE_GROUP_INFO
| ACTION_UPDATE_OBJECT_CONTENT.
#[export] Instance ActionType_eq_dec : EqDecision ActionType.
Proof. solve_decision. Defined.

Inductive ResourceType := RESOURCE_TYPE_UNSPECIFIED | RESOURCE_TYPE_BUCKET | RESOURCE_TYPE_OBJECT | RESOURCE_TYPE_GROUP.
#[export] Instance ResourceType_eq_dec : EqDecision ResourceType.
Proof. solve_decision. Defined.

Inductive PrincipalType := PRINCIPAL_TYPE_UNSPECIFIED | PRINCIPAL_TYPE_GNFD_ACCOUNT | PRINCIPAL_TYPE_GNFD_GROUP.
#[export] Instance PrincipalType_eq_dec : EqDecision PrincipalType.
Proof. solve_decision. Defined.

(** Effect_value: an unknown name is unspecified. *)
Definition effect_of (s : string) : Effect :=
  if decide (s = "EFFECT_ALLOW"%string) then EFFECT_ALLOW
  else if decide (s = "EFFECT_DENY"%string) then EFFECT_DENY
  else EFFECT_UNSPECIFIED.

(** db action value is a bitmap. *)
Definition ActionTypeMap : list (ActionType * Z) :=
  [(ACTION_TYPE_ALL, 0); (ACTION_UPDATE_BUCKET_INFO, 1); (ACTION_DELETE_BUCKET, 2); (ACTION_CREATE_OBJECT, 3);
   (ACTION_DELETE_OBJECT, 4); (ACTION_COPY_OBJECT, 5); (ACTION_GET_OBJECT, 6); (ACTION_EXECUTE_OBJECT, 7);
   (ACTION_LIST_OBJECT, 8); (ACTION_UPDATE_GROUP_MEMBER, 9); (ACTION_DELETE_GROUP, 10); (ACTION_UPDATE_OBJECT_INFO, 11);
   (ACTION_UPDATE_GROUP_EXTRA, 12); (ACTION_UPDATE_GROUP_INFO, 13); (ACTION_UPDATE_OBJECT_CONTENT, 14)].

(** ** Tables *)

Record Permission := mkPermission {
  p_PrincipalType : PrincipalType;
  p_PrincipalValue : string;
  p_ResourceType : ResourceType;
  p_ResourceID : Z;
  p_PolicyID : Z;
  p_ExpirationTime : Z;
  p_Removed : bool;
}.

(** [None]: the column is NULL. *)
Record Statement := mkStatement {
  st_PolicyID : Z;
  st_Effect : string;
  st_ActionValue : Z;
  st_Resources : option (list string);
  st_ExpirationTime : Z;
  st_Removed : bool;
}.

Record Group := mkGroup {
  gr_Owner : string;
  gr_GroupID : Z;
  gr_AccountID : string;
  gr_ExpirationTime : Z;
  gr_Removed : bool;
}.

Record Bucket := mkBucket {
  b_Owner : string;
  b_BucketName : string;
  b_Visibility : string;
  b_BucketID : Z;
  b_Removed : bool;
}.

Record Object := mkObject {
  o_Owner : string;
  o_BucketName : string;
  o_ObjectName : string;
  o_BucketID : Z;
  o_ObjectID : Z;
  o_Visibility : string;
  o_Removed : bool;
}.

Record EventMigrationBucket := mkEventMigration { em_BucketID : Z; em_DstPrimarySpId : Z; em_CreateAt : Z; em_CreateTime : Z }.
Record EventCancelMigrationBucket := mkEventCancel { ec_BucketID : Z; ec_CreateAt : Z; ec_CreateTime : Z }.

(** EventSwapOut and EventCancelSwapOut. *)
Record EventSwapOut := mkSwapOut { sw_FamilyId : Z; sw_GroupIds : list Z; sw_SuccessorSpId : Z; sw_CreateAt : Z }.

Record GlobalVirtualGroup := mkGVG { v_GroupId : Z; v_FamilyId : Z; v_Removed : bool }.

(** The rows in the order in which the database finds them.  The objects are sharded by the
    name of the bucket. *)
Record tables := mkTables {
  permissions : list Permission;
  statements : list Statement;
  groups : list Group;
  buckets : list Bucket;
  objects : string -> list Object;
  object_id_map : list (Z * string);
  migrations : list EventMigrationBucket;
  cancelled_migrations : list EventCancelMigrationBucket;
  swap_outs : list EventSwapOut;
  cancelled_swap_outs : list EventSwapOut;
  virtual_groups : list GlobalVirtualGroup;
}.

Inductive meta_error :=
| ErrInvalidParams
| ErrInvalidBucketName
| ErrNoSuchBucket
| ErrNoSuchObject
| ErrNoSuchGroup
| ErrAddress (msg : string)
| ErrRecordNotFound
| ErrQuery
| ErrNotMigrating
| ErrNotSwapOut.

(** Take: the first row, or an error. *)
Definition Take {A} (l : list A) : result meta_error A := match l with x :: _ => Ok x | [] => Err ErrRecordNotFound end.

(** A query of [f]. *)
Definition ask {A} (t : option tables) (f : tables -> A) : result meta_error A :=
  match t with Some t => Ok (f t) | None => Err ErrQuery end.

(** ** store/bsdb *)

Definition unixToInternal : Z := 62135596800.

(** time.Unix(t, 0) in nanoseconds since 1970; the sum of seconds wraps. *)
Definition unix_time (t : Z) : Z := (swrap 64 (t + unixToInternal) - unixToInternal) * 10 ^ 9.

Definition has_expired (now t : Z) : bool := negb (t =? 0) && (unix_time t <? now).

Definition GetPermissionByResourceAndPrincipal (resourceType : ResourceType) (principalType : PrincipalType)
  (principalValue : string) (resourceID : Z) (t : tables) : option Permission :=
  head (filter (fun p => p_ResourceType p = resourceType /\ p_ResourceID p = resourceID /\ p_PrincipalType p = principalType
                         /\ p_PrincipalValue p = principalValue /\ p_Removed p = false) (permissions t)).

Definition GetStatementsByPolicyID (policyIDList : list Z) (includeRemoved : bool) (t : tables) : list Statement :=
  filter (fun s => st_PolicyID s ∈ policyIDList /\ (includeRemoved = true \/ st_Removed s = false)) (statements t).

Definition GetPermissionsByResourceAndPrincipleType (resourceType : ResourceType) (principalType : PrincipalType)
  (resourceID : Z) (includeRemoved : bool) (t : tables) : list Permission :=
  filter (fun p => p_ResourceType p = resourceType /\ p_ResourceID p = resourceID /\ p_PrincipalType p = principalType
                   /\ (includeRemoved = true \/ p_Removed p = false)) (permissions t).

(** The account of the row that stands for the group itself. *)
Definition zero_address : string := "0x0000000000000000000000000000000000000000".

(** common.HexToAddress, of an address or of the empty string. *)
Definition HexToAddress (s : string) : string := if decide (s = ""%string) then zero_address else s.

(** Two queries: the groups of the list that are not deleted, and the account's rows of them. *)
Definition GetGroupsByGroupIDAndAccount (groupIDList : list Z) (account : string) (t1 t2 : option tables)
  : result meta_error (list Group) :=
  if decide (account = zero_address) then Ok [] else
  match ask t1 (fun t => gr_GroupID <$> filter (fun g => gr_GroupID g ∈ groupIDList /\ gr_AccountID g = zero_address
                                                         /\ gr_Removed g = false) (groups t)) with
  | Err e => Err e
  | Ok groupIDs =>
    ask t2 (fun t => filter (fun g => gr_GroupID g ∈ groupIDs /\ gr_AccountID g = account /\ gr_Removed g = false) (groups t))
  end.

(** gorm allocates the row that Find returns, so a missing group is the zero group. *)
Definition GetGroupByID (groupID : Z) (t : tables) : Group :=
  default (mkGroup zero_address 0 zero_address 0 false)
    (head (filter (fun g => gr_GroupID g = groupID /\ gr_Removed g = false) (groups t))).

Definition GetBucketByName (bucketName : string) (t : tables) : option Bucket :=
  head (filter (fun b => b_BucketName b = bucketName /\ b_Removed b = false) (buckets t)).

Definition GetBucketByID (bucketID : Z) (t : tables) : option Bucket :=
  head (filter (fun b => b_BucketID b = bucketID /\ b_Removed b = false) (buckets t)).

Definition GetObjectByName (objectName bucketName : string) (t : tables) : result meta_error Object :=
  Take (filter (fun o => o_ObjectName o = objectName /\ o_BucketName o = bucketName /\ o_Removed o = false)
    (objects t bucketName)).

Definition GetBucketNameByObjectID (objectID : Z) (t : tables) : result meta_error string :=
  Take (filter (fun r => r.1 = objectID) (object_id_map t)).*2.

Definition GetObjectByID (objectID : Z) (t1 t2 : option tables) : result meta_error Object :=
  match ask t1 (GetBucketNameByObjectID objectID) with
  | Err e => Err e
  | Ok (Err e) => Err e
  | Ok (Ok bucketName) =>
    match ask t2 (fun t => Take (filter (fun o => o_ObjectID o = objectID /\ o_Removed o = false) (objects t bucketName))) with
    | Err e => Err e
    | Ok r => r
    end
  end.

(** ORDER BY a column DESC. *)
Definition desc {A} (f : A -> Z) (x y : A) : Prop := f y <= f x.
#[export] Instance desc_dec {A} (f : A -> Z) : RelDecision (desc f).
Proof. intros x y. unfold desc. apply _. Defined.

Definition latest {A} (f : A -> Z) (l : list A) : result meta_error A := Take (merge_sort (desc f) l).

(** The two reads of an event and of its cancellation: [at_] is the height of a row. *)
Definition not_cancelled {A B} (e : meta_error) (at1 : A -> Z) (at2 : B -> Z) (event : result meta_error (result meta_error A))
  (cancel : result meta_error (result meta_error B)) : result meta_error A :=
  match event with
  | Err err => Err err
  | Ok (Err err) => Err err
  | Ok (Ok event) =>
    match cancel with
    | Err err => Err err
    | Ok (Err _) => Ok event
    | Ok (Ok cancel) => if at2 cancel >? at1 event then Err e else Ok event
    end
  end.

Definition GetEventMigrationBucketByBucketID (bucketID : Z) (t1 t2 : option tables) : result meta_error EventMigrationBucket :=
  not_cancelled ErrNotMigrating em_CreateAt ec_CreateAt
    (ask t1 (fun t => latest em_CreateTime (filter (fun e => em_BucketID e = bucketID) (migrations t))))
    (ask t2 (fun t => latest ec_CreateTime (filter (fun e => ec_BucketID e = bucketID) (cancelled_migrations t)))).

Definition GetGlobalVirtualGroupByGvgID (gvgID : Z) (t : tables) : option GlobalVirtualGroup :=
  head (filter (fun g => v_GroupId g = gvgID /\ v_Removed g = false) (virtual_groups t)).

(** An event of the group or of its family. *)
Definition swaps (gvgID familyID : Z) (e : EventSwapOut) : bool :=
  bool_decide (gvgID ∈ sw_GroupIds e) || (sw_FamilyId e =? familyID).

Definition GetEventSwapOutByGvgID (gvgID : Z) (t0 t1 t2 : option tables) : result meta_error (option EventSwapOut) :=
  match ask t0 (GetGlobalVirtualGroupByGvgID gvgID) with
  | Err err => Err err
  | Ok None => Ok None
  | Ok (Some gvg) =>
    match not_cancelled ErrNotSwapOut sw_CreateAt sw_CreateAt
            (ask t1 (fun t => latest sw_CreateAt (filter (fun e => swaps gvgID (v_FamilyId gvg) e) (swap_outs t))))
            (ask t2 (fun t => latest sw_CreateAt (filter (fun e => swaps gvgID (v_FamilyId gvg) e) (cancelled_swap_outs t)))) with
    | Err err => Err err
    | Ok e => Ok (Some e)
    end
  end.

Section regexp.
(** regexp.Compile, and MatchString of what it returns. *)
Context (regexp : string -> option (string -> bool)).

(** The resource that is accessed; the empty string is no resource. *)
Definition wants (opts : option string) : option string :=
  match opts with Some r => if decide (r = ""%string) then None else Some r | None => None end.

Definition matches (r res : string) : bool := match regexp res with Some m => m r | None => false end.

(** Statement.Eval *)
Definition statement_eval (action : ActionType) (opts : option string) (s : Statement) : Effect :=
  let applies := match wants opts with
                 | None => true
                 | Some r => match st_Resources s with
                             | None => false
                             | Some l => existsb (matches r) l
                             end
                 end in
  if negb applies then EFFECT_UNSPECIFIED else
  let actions := (filter (fun a => Z.land (st_ActionValue s) (Z.shiftl 1 a.2) = Z.shiftl 1 a.2) ActionTypeMap).*1 in
  if existsb (fun act => bool_decide (act = action \/ act = ACTION_TYPE_ALL)) actions then effect_of (st_Effect s)
  else EFFECT_UNSPECIFIED.

(** The loop of Permission.Eval. *)
Fixpoint eval_statements (action : ActionType) (now : Z) (opts : option string) (allowed : bool) (l : list Statement) : Effect :=
  match l with
  | [] => if allowed then EFFECT_ALLOW else EFFECT_UNSPECIFIED
  | s :: l =>
    if has_expired now (st_ExpirationTime s) then eval_statements action now opts allowed l else
    match statement_eval action opts s with
    | EFFECT_DENY => EFFECT_DENY
    | EFFECT_ALLOW => eval_statements action now opts true l
    | EFFECT_UNSPECIFIED => eval_statements action now opts allowed l
    end
  end.

(** Permission.Eval *)
Definition permission_eval (action : ActionType) (now : Z) (opts : option string) (l : list Statement) (p : Permission) : Effect :=
  if has_expired now (p_ExpirationTime p) then EFFECT_UNSPECIFIED else eval_statements action now opts false l.

(** ** VerifyPolicy *)

(** The decimal number of a group; other strings panic. *)
Context (uint_of : string -> option Z).

Fixpoint eval_permissions (action : ActionType) (now : Z) (opts : option string) (l : list Statement) (allowed : bool)
  (ps : list Permission) : Effect :=
  match ps with
  | [] => if allowed then EFFECT_ALLOW else EFFECT_UNSPECIFIED
  | p :: ps =>
    match permission_eval action now opts l p with
    | EFFECT_ALLOW => eval_permissions action now opts l true ps
    | EFFECT_DENY => EFFECT_DENY
    | EFFECT_UNSPECIFIED => eval_permissions action now opts l allowed ps
    end
  end.

(** The permissions of the groups in which the account is a member now. *)
Definition membership_live (now : Z) (g : Group) : bool := (gr_ExpirationTime g =? 0) || (now <? unix_time (gr_ExpirationTime g)).

Definition member_permissions (now : Z) (gs : list Group) (ps : list (Permission * Z)) : list Permission :=
  let ids := gr_GroupID <$> filter (fun g => membership_live now g) gs in
  (filter (fun p => p.2 ∈ ids) ps).*1.

(** The groups that permissions are granted to; a value that is no number panics. *)
Definition principals (ps : list Permission) : option (list (Permission * Z)) :=
  mapM (fun p => n ← uint_of (p_PrincipalValue p); Some (p, n)) ps.

(** [None]: a panic.  The operator is its String(), empty for nobody. *)
Definition VerifyPolicy (db : nat -> option tables) (now : Z) (resourceID : Z) (resourceType : ResourceType)
  (operator : string) (action : ActionType) (opts : option string) : option (result meta_error Effect) :=
  match ask (db 0%nat) (GetPermissionByResourceAndPrincipal resourceType PRINCIPAL_TYPE_GNFD_ACCOUNT operator resourceID) with
  | Err e => Some (Err e)
  | Ok permission =>
    match (match permission with
           | None => Ok EFFECT_UNSPECIFIED
           | Some p =>
             match ask (db 1%nat) (GetStatementsByPolicyID [p_PolicyID p] false) with
             | Err e => Err e
             | Ok l => Ok (permission_eval action now opts l p)
             end
           end) with
    | Err e => Some (Err e)
    | Ok effect =>
      if negb (bool_decide (effect = EFFECT_UNSPECIFIED)) then Some (Ok effect) else
      match ask (db 2%nat) (GetPermissionsByResourceAndPrincipleType resourceType PRINCIPAL_TYPE_GNFD_GROUP resourceID false) with
      | Err e => Some (Err e)
      | Ok ps =>
        ps ← principals ps;
        match GetGroupsByGroupIDAndAccount ps.*2 (HexToAddress operator) (db 3%nat) (db 4%nat) with
        | Err e => Some (Err e)
        | Ok gs =>
          let filtered := member_permissions now gs ps in
          match ask (db 5%nat) (GetStatementsByPolicyID (p_PolicyID <$> filtered) false) with
          | Err e => Some (Err e)
          | Ok l => Some (Ok (eval_permissions action now opts l false filtered))
          end
        end
      end
    end
  end.

(** ** The resources *)

(** AccAddressFromHexUnsafe of an address that is not empty: its canonical form. *)
Context (acc_address : string -> option string).
(** chaintypes.NewObjectGRN, the chain's tables of public actions, CheckValidBucketName. *)
Context (object_grn : string -> string -> string) (public_bucket_action public_object_action : ActionType -> bool)
  (valid_bucket_name : string -> bool).

Definition PUBLIC_READ : string := "VISIBILITY_TYPE_PUBLIC_READ".
Definition INHERIT : string := "VISIBILITY_TYPE_INHERIT".

(** The queries from the n-th on. *)
Definition from (n : nat) (db : nat -> option tables) : nat -> option tables := fun i => db (n + i)%nat.

(** What is not allowed is denied. *)
Definition allowed_or_deny (e : Effect) : Effect := if decide (e = EFFECT_ALLOW) then EFFECT_ALLOW else EFFECT_DENY.

Definition VerifyBucketPermission (db : nat -> option tables) (now : Z) (bucketInfo : Bucket) (operator : string)
  (action : ActionType) (options : option string) : option (result meta_error Effect) :=
  if bool_decide (b_Visibility bucketInfo = PUBLIC_READ) && public_bucket_action action then Some (Ok EFFECT_ALLOW) else
  match acc_address (b_Owner bucketInfo) with
  | None => Some (Err ErrInvalidParams)
  | Some owner =>
    if decide (operator = owner) then Some (Ok EFFECT_ALLOW) else
    r ← VerifyPolicy db now (b_BucketID bucketInfo) RESOURCE_TYPE_BUCKET operator action options;
    Some (match r with Err e => Err e | Ok effect => Ok (allowed_or_deny effect) end)
  end.

Definition is_public (bucketInfo : Bucket) (objectInfo : Object) : bool :=
  bool_decide (o_Visibility objectInfo = PUBLIC_READ)
  || (bool_decide (o_Visibility objectInfo = INHERIT) && bool_decide (b_Visibility bucketInfo = PUBLIC_READ)).

Definition VerifyObjectPermission (db : nat -> option tables) (now : Z) (bucketInfo : Bucket) (objectInfo : Object)
  (operator : string) (action : ActionType) : option (result meta_error Effect) :=
  if is_public bucketInfo objectInfo && public_object_action action then Some (Ok EFFECT_ALLOW) else
  match acc_address (o_Owner objectInfo) with
  | None => Some (Err (ErrAddress (o_Owner objectInfo)))
  | Some owner =>
    if decide (owner = operator) then Some (Ok EFFECT_ALLOW) else
    r ← VerifyPolicy db now (b_BucketID bucketInfo) RESOURCE_TYPE_BUCKET operator action
          (Some (object_grn (o_BucketName objectInfo) (o_ObjectName objectInfo)));
    match r with
    | Err e => Some (Err e)
    | Ok EFFECT_DENY => Some (Ok EFFECT_DENY)
    | Ok bucketEffect =>
      r ← VerifyPolicy (from 6 db) now (o_ObjectID objectInfo) RESOURCE_TYPE_OBJECT operator action None;
      Some (match r with
            | Err e => Err e
            | Ok EFFECT_DENY => Ok EFFECT_DENY
            | Ok objectEffect =>
              Ok (if decide (bucketEffect = EFFECT_ALLOW \/ objectEffect = EFFECT_ALLOW) then EFFECT_ALLOW else EFFECT_DENY)
            end)
    end
  end.

(** EqualFold compares the hexadecimal digits without their case, [fold]. *)
Definition VerifyGroupPermission (fold : string -> string) (db : nat -> option tables) (now : Z) (groupInfo : Group)
  (operator : string) (action : ActionType) : option (result meta_error Effect) :=
  if decide (fold (gr_Owner groupInfo) = fold operator) then Some (Ok EFFECT_ALLOW) else
  r ← VerifyPolicy db now (gr_GroupID groupInfo) RESOURCE_TYPE_GROUP operator action None;
  Some (match r with Err e => Err e | Ok effect => Ok (allowed_or_deny effect) end).

(** ** The requests *)

(** GfSpVerifyPermission: an empty operator is nobody. *)
Definition GfSpVerifyPermission (db : nat -> option tables) (now : Z) (reqOperator bucketName objectName : string)
  (action : ActionType) : option (result meta_error Effect) :=
  match (if decide (reqOperator = ""%string) then Some ""%string else acc_address reqOperator) with
  | None => Some (Err ErrInvalidParams)
  | Some operator =>
    if negb (valid_bucket_name bucketName) then Some (Err ErrInvalidBucketName) else
    match ask (db 0%nat) (GetBucketByName bucketName) with
    | Err e => Some (Err e)
    | Ok None => Some (Err ErrNoSuchBucket)
    | Ok (Some bucketInfo) =>
      if decide (objectName = ""%string)
      then VerifyBucketPermission (from 1 db) now bucketInfo operator action None
      else
        match ask (db 1%nat) (GetObjectByName objectName bucketName) with
        | Err e => Some (Err e)
        | Ok (Err _) => Some (Err ErrNoSuchObject)
        | Ok (Ok objectInfo) => VerifyObjectPermission (from 2 db) now bucketInfo objectInfo operator action
        end
    end
  end.

(** BigToHash of NewInt takes the absolute value. *)
Definition int64_hash (n : Z) : Z := Z.abs (swrap 64 n).

Definition by_id_operator (reqOperator : string) : result meta_error string :=
  match (if decide (reqOperator = ""%string) then None else acc_address reqOperator) with
  | None => Err (ErrAddress reqOperator)
  | Some operator => Ok operator
  end.

Definition verifyObject (db : nat -> option tables) (now : Z) (reqOperator : string) (resourceId : Z) (action : ActionType)
  : option (result meta_error Effect) :=
  match by_id_operator reqOperator with
  | Err e => Some (Err e)
  | Ok operator =>
    match GetObjectByID (int64_hash resourceId) (db 0%nat) (db 1%nat) with
    | Err ErrRecordNotFound => Some (Err ErrNoSuchObject)
    | Err e => Some (Err e)
    | Ok objectInfo =>
      match ask (db 2%nat) (GetBucketByID (int64_hash (o_BucketID objectInfo))) with
      | Err e => Some (Err e)
      | Ok None => Some (Err ErrNoSuchBucket)
      | Ok (Some bucketInfo) => VerifyObjectPermission (from 3 db) now bucketInfo objectInfo operator action
      end
    end
  end.

Definition verifyBucket (db : nat -> option tables) (now : Z) (reqOperator : string) (resourceId : Z) (action : ActionType)
  : option (result meta_error Effect) :=
  match by_id_operator reqOperator with
  | Err e => Some (Err e)
  | Ok operator =>
    match ask (db 0%nat) (GetBucketByID (int64_hash resourceId)) with
    | Err e => Some (Err e)
    | Ok None => Some (Err ErrNoSuchBucket)
    | Ok (Some bucketInfo) => VerifyBucketPermission (from 1 db) now bucketInfo operator action None
    end
  end.

Definition verifyGroup (fold : string -> string) (db : nat -> option tables) (now : Z) (reqOperator : string) (resourceId : Z)
  (action : ActionType) : option (result meta_error Effect) :=
  match by_id_operator reqOperator with
  | Err e => Some (Err e)
  | Ok operator =>
    match ask (db 0%nat) (GetGroupByID (int64_hash resourceId)) with
    | Err e => Some (Err e)
    | Ok groupInfo => VerifyGroupPermission fold (from 1 db) now groupInfo operator action
    end
  end.

Definition GfSpVerifyPermissionByID (fold : string -> string) (db : nat -> option tables) (now : Z) (reqOperator : string)
  (resourceType : ResourceType) (resourceId : Z) (action : ActionType) : option (result meta_error Effect) :=
  match resourceType with
  | RESOURCE_TYPE_OBJECT => verifyObject db now reqOperator resourceId action
  | RESOURCE_TYPE_BUCKET => verifyBucket db now reqOperator resourceId action
  | RESOURCE_TYPE_GROUP => verifyGroup fold db now reqOperator resourceId action
  | RESOURCE_TYPE_UNSPECIFIED => Some (Ok EFFECT_DENY)
  end.
End regexp.

(** ** Migrations *)

Definition verifyBucketMigration (db : nat -> option tables) (bucketID dstSpID : Z) : result meta_error Effect :=
  match GetEventMigrationBucketByBucketID bucketID (db 0%nat) (db 1%nat) with
  | Err e => Err e
  | Ok event => Ok (if em_DstPrimarySpId event =? dstSpID then EFFECT_ALLOW else EFFECT_DENY)
  end.

Definition verifySwapOut (db : nat -> option tables) (gvgID dstSpID : Z) : result meta_error Effect :=
  match GetEventSwapOutByGvgID gvgID (db 0%nat) (db 1%nat) (db 2%nat) with
  | Err e => Err e
  | Ok None => Ok EFFECT_DENY
  | Ok (Some event) => Ok (if sw_SuccessorSpId event =? dstSpID then EFFECT_ALLOW else EFFECT_DENY)
  end.

(** A bucket migrates to the destination, or a provider exits and another takes its place. *)
Definition GfSpVerifyMigrateGVGPermission (db : nat -> option tables) (bucketID gvgID dstSpID : Z) : result meta_error Effect :=
  if negb (bucketID =? 0) then verifyBucketMigration db bucketID dstSpID else verifySwapOut db gvgID dstSpID.
