(* ===== verification/PolicyProps.v ===== *)
(** Properties of permissions: a policy decides by its own statements, and a denial overrides
    every grant; where the code differs from that, and the resources built on it. *)
From Stdlib Require Import ZArith Lia.
From stdpp Require Import base sets list strings option sorting.
From S2P Require Import Prelude Policy.

Local Open Scope Z_scope.

(** ** Denials override *)

Definition deny_overrides (l : list Effect) : Effect :=
  if decide (EFFECT_DENY ∈ l) then EFFECT_DENY else if decide (EFFECT_ALLOW ∈ l) then EFFECT_ALLOW else EFFECT_UNSPECIFIED.

(** What a loop with the flag [allowed] returns. *)
Definition with_flag (allowed : bool) (l : list Effect) : Effect := deny_overrides (if allowed then EFFECT_ALLOW :: l else l).

Lemma deny_overrides_ext l l' : (forall e, e <> EFFECT_UNSPECIFIED -> e ∈ l <-> e ∈ l') -> deny_overrides l = deny_overrides l'.
Proof.
  intros H. pose proof (H EFFECT_DENY ltac:(done)). pose proof (H EFFECT_ALLOW ltac:(done)).
  unfold deny_overrides. repeat case_decide; tauto.
Qed.

Lemma deny_overrides_deny l : deny_overrides l = EFFECT_DENY <-> EFFECT_DENY ∈ l.
Proof. unfold deny_overrides. repeat case_decide; done. Qed.
Lemma deny_overrides_allow l : deny_overrides l = EFFECT_ALLOW <-> EFFECT_DENY ∉ l /\ EFFECT_ALLOW ∈ l.
Proof. unfold deny_overrides. repeat case_decide; split; try done; by intros []. Qed.

(** A denial anywhere, or a grant: effects of effects. *)
Lemma deny_overrides_join {A} (f : A -> list Effect) (ps : list A) :
  deny_overrides ((fun p => deny_overrides (f p)) <$> ps) = deny_overrides (ps ≫= f).
Proof.
  assert (forall ps, EFFECT_DENY ∈ ((fun p => deny_overrides (f p)) <$> ps) <-> EFFECT_DENY ∈ ps ≫= f) as Hd.
  { intros l. rewrite list_elem_of_fmap, list_elem_of_bind. split; intros (p & H1 & H2).
    - exists p. split; [by apply deny_overrides_deny|done].
    - exists p. split; [symmetry; by apply deny_overrides_deny|done]. }
  destruct (decide (EFFECT_DENY ∈ ps ≫= f)) as [Hin|Hin].
  { transitivity EFFECT_DENY; [by apply deny_overrides_deny, Hd|symmetry; by apply deny_overrides_deny]. }
  apply deny_overrides_ext. intros e He. destruct e; [done| |apply Hd].
  rewrite list_elem_of_fmap, list_elem_of_bind. split; intros (p & H1 & H2).
  - exists p. symmetry in H1. apply deny_overrides_allow in H1 as [_ ?]. done.
  - exists p. split; [|done]. symmetry. apply deny_overrides_allow. split; [|done].
    intros Hdeny. apply Hin, list_elem_of_bind. by exists p.
Qed.

Lemma deny_overrides_repeat n e : deny_overrides (replicate n e) = if decide (n = 0%nat) then EFFECT_UNSPECIFIED else e.
Proof.
  case_decide as Hn; [by subst|]. destruct n as [|n]; [done|].
  destruct e; [|apply deny_overrides_allow|apply deny_overrides_deny]; rewrite ?elem_of_replicate; [|set_solver|set_solver].
  unfold deny_overrides. case_decide as Hin; [by apply elem_of_replicate in Hin as []|].
  case_decide as Hin'; [by apply elem_of_replicate in Hin' as []|done].
Qed.

Section policy.
Context (regexp : string -> option (string -> bool)) (uint_of : string -> option Z).
Implicit Types (t : tables) (l : list Statement) (p : Permission).

(** The effects of the statements that have not expired. *)
Definition effects (action : ActionType) (now : Z) (opts : option string) (l : list Statement) : list Effect :=
  statement_eval regexp action opts <$> filter (fun s => has_expired now (st_ExpirationTime s) = false) l.

Lemma eval_statements_spec action now opts allowed l :
  eval_statements regexp action now opts allowed l = with_flag allowed (effects action now opts l).
Proof.
  revert allowed. induction l as [|s l IH]; intros allowed; cbn [eval_statements]; unfold effects.
  - cbn. unfold with_flag. by destruct allowed.
  - rewrite filter_cons. destruct (has_expired now _) eqn:E; [rewrite decide_False by done; apply IH|].
    rewrite decide_True by done. cbn. unfold effects in IH. destruct (statement_eval _ _ _ s).
    + rewrite IH. unfold with_flag. destruct allowed; apply deny_overrides_ext; intros e He; set_solver.
    + rewrite IH. unfold with_flag. destruct allowed; apply deny_overrides_ext; intros e He; set_solver.
    + symmetry. unfold with_flag. apply deny_overrides_deny. destruct allowed; set_solver.
Qed.

Lemma eval_permissions_spec action now opts l allowed ps :
  eval_permissions regexp action now opts l allowed ps
  = with_flag allowed (permission_eval regexp action now opts l <$> ps).
Proof.
  revert allowed. induction ps as [|p ps IH]; intros allowed; cbn [eval_permissions fmap list_fmap].
  - unfold with_flag. by destruct allowed.
  - destruct (permission_eval _ _ _ _ _ p).
    + rewrite IH. unfold with_flag. destruct allowed; apply deny_overrides_ext; intros e He; set_solver.
    + rewrite IH. unfold with_flag. destruct allowed; apply deny_overrides_ext; intros e He; set_solver.
    + symmetry. unfold with_flag. apply deny_overrides_deny. destruct allowed; set_solver.
Qed.

(** ** What a policy says *)

(** A policy decides by its own statements. *)
Definition policy_says t (action : ActionType) (now : Z) (opts : option string) p : Effect :=
  if has_expired now (p_ExpirationTime p) then EFFECT_UNSPECIFIED
  else deny_overrides (effects action now opts (filter (fun s => st_PolicyID s = p_PolicyID p /\ st_Removed s = false) (statements t))).

(** A membership without an expiry lasts, one with an expiry until then. *)
Definition lasts (now : Z) (g : Group) : Prop := gr_ExpirationTime g = 0 \/ now < unix_time (gr_ExpirationTime g).

#[export] Instance lasts_dec now g : Decision (lasts now g).
Proof. unfold lasts. apply _. Defined.

(** The account is a member of the group now; nobody is not. *)
Definition is_member t (now : Z) (account : string) (group : Z) : Prop :=
  account <> zero_address /\
  (exists g, g ∈ groups t /\ gr_GroupID g = group /\ gr_AccountID g = zero_address /\ gr_Removed g = false) /\
  (exists g, g ∈ groups t /\ gr_GroupID g = group /\ gr_AccountID g = account /\ gr_Removed g = false /\ lasts now g).

#[export] Instance is_member_dec t now account group : Decision (is_member t now account group).
Proof.
  refine (cast_if (decide (account <> zero_address /\
    Exists (fun g => gr_GroupID g = group /\ gr_AccountID g = zero_address /\ gr_Removed g = false) (groups t) /\
    Exists (fun g => gr_GroupID g = group /\ gr_AccountID g = account /\ gr_Removed g = false /\ lasts now g)
      (groups t)))); unfold is_member; rewrite !Exists_exists in *; done.
Defined.

(** The policies that grant to a group the account is in. *)
Definition group_policies t (now : Z) (resourceID : Z) (resourceType : ResourceType) (operator : string) : list Permission :=
  filter (fun p => p_ResourceType p = resourceType /\ p_ResourceID p = resourceID /\ p_PrincipalType p = PRINCIPAL_TYPE_GNFD_GROUP
    /\ p_Removed p = false /\ is_member t now (HexToAddress operator) (default 0 (uint_of (p_PrincipalValue p)))) (permissions t).

(** The policy of the account decides; if it does not, the policies of its groups do. *)
Definition policy_spec t (now : Z) (resourceID : Z) (resourceType : ResourceType) (operator : string) (action : ActionType)
  (opts : option string) : Effect :=
  let account := match GetPermissionByResourceAndPrincipal resourceType PRINCIPAL_TYPE_GNFD_ACCOUNT operator resourceID t with
                 | Some p => policy_says t action now opts p
                 | None => EFFECT_UNSPECIFIED
                 end in
  if decide (account = EFFECT_UNSPECIFIED)
  then deny_overrides (policy_says t action now opts <$> group_policies t now resourceID resourceType operator)
  else account.

(** ** Lemmas *)

Lemma own_statements p t :
  GetStatementsByPolicyID [p_PolicyID p] false t = filter (fun s => st_PolicyID s = p_PolicyID p /\ st_Removed s = false) (statements t).
Proof.
  unfold GetStatementsByPolicyID. apply list_filter_iff. intros s. rewrite list_elem_of_singleton. naive_solver.
Qed.

Lemma policy_says_own t action now opts p :
  permission_eval regexp action now opts (GetStatementsByPolicyID [p_PolicyID p] false t) p = policy_says t action now opts p.
Proof. unfold permission_eval, policy_says. case_match; [done|]. by rewrite eval_statements_spec, own_statements. Qed.

(** The effects of the statements of several policies. *)
Lemma union_effects t action now opts ps :
  deny_overrides (effects action now opts (GetStatementsByPolicyID (p_PolicyID <$> ps) false t))
  = deny_overrides (ps ≫= fun p => effects action now opts (filter (fun s => st_PolicyID s = p_PolicyID p /\ st_Removed s = false) (statements t))).
Proof.
  apply deny_overrides_ext. intros e _. unfold effects. rewrite list_elem_of_bind, list_elem_of_fmap. split.
  - intros (s & -> & [Hx [[Hid Hr] Hs]%list_elem_of_filter]%list_elem_of_filter).
    apply list_elem_of_fmap in Hid as (p & Ep & Hp). exists p. split; [|done]. apply list_elem_of_fmap. exists s. split; [done|].
    apply list_elem_of_filter. split; [done|]. apply list_elem_of_filter. naive_solver.
  - intros (p & Hin & Hp). apply list_elem_of_fmap in Hin as (s & -> & [Hx [[Hid Hr] Hs]%list_elem_of_filter]%list_elem_of_filter).
    exists s. split; [done|]. apply list_elem_of_filter. split; [done|]. apply list_elem_of_filter. split; [|done]. split; [|by right].
    rewrite Hid. by apply list_elem_of_fmap_2.
Qed.

(** If no policy has expired, evaluating all of them on all statements is as good as
    evaluating each on its own. *)
Lemma unexpired_permissions t action now opts ps :
  Forall (fun p => has_expired now (p_ExpirationTime p) = false) ps ->
  eval_permissions regexp action now opts (GetStatementsByPolicyID (p_PolicyID <$> ps) false t) false ps
  = deny_overrides (policy_says t action now opts <$> ps).
Proof.
  intros Hx. rewrite eval_permissions_spec. unfold with_flag.
  set (l := GetStatementsByPolicyID _ _ _).
  assert (permission_eval regexp action now opts l <$> ps = replicate (length ps) (deny_overrides (effects action now opts l))) as ->.
  { symmetry. apply replicate_as_Forall. split; [by rewrite length_fmap|]. apply Forall_fmap. eapply Forall_impl; [exact Hx|].
    intros p Hp. unfold compose, permission_eval. rewrite Hp. symmetry. apply eval_statements_spec. }
  assert (policy_says t action now opts <$> ps = (fun p => deny_overrides (effects action now opts
    (filter (fun s => st_PolicyID s = p_PolicyID p /\ st_Removed s = false) (statements t)))) <$> ps) as ->.
  { apply list_fmap_ext. intros i p Hp. unfold policy_says. by rewrite (Forall_lookup_1 _ _ _ _ Hx Hp). }
  rewrite deny_overrides_repeat, deny_overrides_join. subst l. case_decide as Hn.
  - by apply nil_length_inv in Hn as ->.
  - apply union_effects.
Qed.

(** *** Members *)

Lemma principals_spec ps : Forall (fun p => is_Some (uint_of (p_PrincipalValue p))) ps ->
  principals uint_of ps = Some ((fun p => (p, default 0 (uint_of (p_PrincipalValue p)))) <$> ps).
Proof.
  intros H. unfold principals. apply mapM_Some_2. induction H as [|p ps [n Hn] H IH]; constructor; [|done]. by rewrite Hn.
Qed.

Lemma filter_pairs {A} (f : A -> Z) (P : Z -> Prop) `{!forall n, Decision (P n)} (ps : list A) :
  (filter (fun q : A * Z => P q.2) ((fun a => (a, f a)) <$> ps)).*1 = filter (fun a => P (f a)) ps.
Proof.
  induction ps as [|a ps IH]; [done|]. cbn [fmap list_fmap]. rewrite !filter_cons. cbn [snd]. case_decide; [|done]. cbn. by rewrite <-IH.
Qed.

Lemma filter_ext_in {A} (P Q : A -> Prop) `{!forall x, Decision (P x), !forall x, Decision (Q x)} (l : list A) :
  (forall x, x ∈ l -> P x <-> Q x) -> filter P l = filter Q l.
Proof.
  induction l as [|x l IH]; intros Hpq; [done|]. rewrite !filter_cons, IH by (intros; apply Hpq; by right).
  destruct (decide (P x)) as [Hp|Hp].
  - by rewrite decide_True by (apply Hpq; [by left|done]).
  - by rewrite decide_False by (rewrite <-Hpq; [done|by left]).
Qed.

Lemma membership_live_spec now g : membership_live now g <-> lasts now g.
Proof. unfold membership_live, lasts. rewrite orb_True, !Is_true_true, Z.eqb_eq, Z.ltb_lt. done. Qed.

(** The groups that the two queries find, and that are live, are those of the account. *)
Lemma member_ids t now ids account gs :
  GetGroupsByGroupIDAndAccount ids account (Some t) (Some t) = Ok gs ->
  forall n, n ∈ ids -> n ∈ gr_GroupID <$> filter (fun g => membership_live now g) gs <-> is_member t now account n.
Proof.
  unfold GetGroupsByGroupIDAndAccount, is_member. case_decide as Hz.
  { intros [= <-] n _. split; [|by intros []]. intros Hn. by apply elem_of_nil in Hn. }
  cbn. intros [= <-] n Hn. rewrite list_elem_of_fmap. split.
  - intros (g & -> & [Hl [(Hin & Ha & Hr) Hg]%list_elem_of_filter]%list_elem_of_filter).
    apply list_elem_of_fmap in Hin as (g' & Eg & [(_ & Ha' & Hr') Hg']%list_elem_of_filter).
    split; [done|]. split; [by exists g'|]. exists g. split_and!; try done. by apply membership_live_spec.
  - intros (_ & (g' & Hg' & Eg' & Ha' & Hr') & (g & Hg & Eg & Ha & Hr & Hl)). exists g. split; [done|].
    apply list_elem_of_filter. split; [by apply membership_live_spec|]. apply list_elem_of_filter. split; [|done]. split; [|done].
    rewrite Eg, <-Eg'. apply list_elem_of_fmap_2, list_elem_of_filter. by rewrite Eg'.
Qed.

Lemma groups_answer ids account t : exists gs, GetGroupsByGroupIDAndAccount ids account (Some t) (Some t) = Ok gs.
Proof. unfold GetGroupsByGroupIDAndAccount. case_decide; cbn; eauto. Qed.

(** The permissions that are evaluated are those of the account's groups. *)
Lemma member_permissions_spec t now resourceID resourceType operator gs :
  let ps := GetPermissionsByResourceAndPrincipleType resourceType PRINCIPAL_TYPE_GNFD_GROUP resourceID false t in
  let qs := (fun p => (p, default 0 (uint_of (p_PrincipalValue p)))) <$> ps in
  GetGroupsByGroupIDAndAccount qs.*2 (HexToAddress operator) (Some t) (Some t) = Ok gs ->
  member_permissions now gs qs = group_policies t now resourceID resourceType operator.
Proof.
  cbv zeta. intros Hg. unfold member_permissions, group_policies. cbv zeta.
  etrans; [exact (filter_pairs (fun p => default 0 (uint_of (p_PrincipalValue p)))
    (fun n => n ∈ gr_GroupID <$> filter (fun g => membership_live now g) gs) _)|].
  unfold GetPermissionsByResourceAndPrincipleType at 1. rewrite list_filter_filter. apply filter_ext_in.
  intros p Hp. split.
  - intros (Hin & H1 & H2 & H3 & [?|H4]); [done|]. split_and!; try done. apply (member_ids _ _ _ _ _ Hg); [|done].
    apply list_elem_of_fmap. exists (p, default 0 (uint_of (p_PrincipalValue p))). split; [done|].
    apply list_elem_of_fmap. exists p. split; [done|]. apply list_elem_of_filter. split; [|done]. split_and!; try done. by right.
  - intros (H1 & H2 & H3 & H4 & Hm). split; [|split_and!; try done; by right]. apply (member_ids _ _ _ _ _ Hg); [|done].
    apply list_elem_of_fmap. exists (p, default 0 (uint_of (p_PrincipalValue p))). split; [done|].
    apply list_elem_of_fmap. exists p. split; [done|]. apply list_elem_of_filter. split; [|done]. split_and!; try done. by right.
Qed.

(** *** VerifyPolicy on tables that do not change *)

(** The principals of group permissions are numbers. *)
Definition principals_ok t : Prop :=
  Forall (fun p => p_PrincipalType p = PRINCIPAL_TYPE_GNFD_GROUP -> is_Some (uint_of (p_PrincipalValue p))) (permissions t).

Lemma account_effect t now action opts (permission : option Permission) :
  match permission with
  | None => Ok EFFECT_UNSPECIFIED
  | Some p => Ok (permission_eval regexp action now opts (GetStatementsByPolicyID [p_PolicyID p] false t) p)
  end = Ok (E := meta_error) (match permission with Some p => policy_says t action now opts p | None => EFFECT_UNSPECIFIED end).
Proof. destruct permission as [p|]; [|done]. by rewrite policy_says_own. Qed.

(** The policies of groups are evaluated one by one, but on the statements of all of them. *)
Lemma verify_policy_run t now resourceID resourceType operator action opts :
  principals_ok t ->
  let account := match GetPermissionByResourceAndPrincipal resourceType PRINCIPAL_TYPE_GNFD_ACCOUNT operator resourceID t with
                 | Some p => policy_says t action now opts p
                 | None => EFFECT_UNSPECIFIED
                 end in
  let ps := group_policies t now resourceID resourceType operator in
  VerifyPolicy regexp uint_of (fun _ => Some t) now resourceID resourceType operator action opts
  = Some (Ok (if decide (account = EFFECT_UNSPECIFIED)
              then eval_permissions regexp action now opts (GetStatementsByPolicyID (p_PolicyID <$> ps) false t) false ps
              else account)).
Proof.
  intros Hp. cbv zeta. unfold VerifyPolicy. cbn [ask]. rewrite account_effect.
  set (account := match GetPermissionByResourceAndPrincipal _ _ _ _ _ with Some p => _ | None => _ end).
  case_decide as Ha.
  - rewrite bool_decide_true by done. cbn [negb].
    set (l := GetPermissionsByResourceAndPrincipleType _ _ _ _ _).
    rewrite principals_spec; cycle 1.
    { apply Forall_forall. intros p [(_ & _ & Ht & _) Hin]%list_elem_of_filter. unfold principals_ok in Hp. rewrite Forall_forall in Hp. auto. }
    cbn [mbind option_bind].
    match goal with |- context [GetGroupsByGroupIDAndAccount ?ids ?a _ _] => destruct (groups_answer ids a t) as [gs Hg] end.
    rewrite Hg. cbv zeta. by rewrite (member_permissions_spec _ _ _ _ _ _ Hg).
  - by rewrite bool_decide_false by done.
Qed.

Lemma verify_policy_spec t now resourceID resourceType operator action opts :
  principals_ok t ->
  Forall (fun p => has_expired now (p_ExpirationTime p) = false) (group_policies t now resourceID resourceType operator) ->
  VerifyPolicy regexp uint_of (fun _ => Some t) now resourceID resourceType operator action opts
  = Some (Ok (policy_spec t now resourceID resourceType operator action opts)).
Proof.
  intros Hp Hx. rewrite verify_policy_run by done. unfold policy_spec. cbv zeta. case_decide; [|done].
  by rewrite unexpired_permissions.
Qed.
End policy.

(** ** The properties *)

(** C34: On tables that do not change during the call, VerifyPolicy computes the reference
    semantics: the policy of the account decides by its own statements, a denial overriding
    every grant; if it says nothing, the policies of the groups of which the account is a
    member decide, again each by its own statements and a denial overriding.  This needs
    that none of these group policies has expired. *)
Theorem verify_policy_reference regexp uint_of t now resourceID resourceType operator action opts :
  principals_ok uint_of t ->
  Forall (fun p => has_expired now (p_ExpirationTime p) = false) (group_policies uint_of t now resourceID resourceType operator) ->
  VerifyPolicy regexp uint_of (fun _ => Some t) now resourceID resourceType operator action opts
  = Some (Ok (policy_spec regexp uint_of t now resourceID resourceType operator action opts)).
Proof. apply verify_policy_spec. Qed.

(** C35: A policy that has expired still grants: if the account is a member of another group
    with a policy on the resource that has not expired, the statements of the expired policy
    are evaluated with it. *)
Theorem expired_policy_still_grants regexp uint_of t now resourceID resourceType operator action opts p q s :
  principals_ok uint_of t ->
  GetPermissionByResourceAndPrincipal resourceType PRINCIPAL_TYPE_GNFD_ACCOUNT operator resourceID t = None ->
  p ∈ group_policies uint_of t now resourceID resourceType operator ->
  q ∈ group_policies uint_of t now resourceID resourceType operator -> has_expired now (p_ExpirationTime q) = false ->
  s ∈ statements t -> st_PolicyID s = p_PolicyID p -> st_Removed s = false -> has_expired now (st_ExpirationTime s) = false ->
  statement_eval regexp action opts s = EFFECT_ALLOW ->
  Forall (fun s => statement_eval regexp action opts s <> EFFECT_DENY) (statements t) ->
  VerifyPolicy regexp uint_of (fun _ => Some t) now resourceID resourceType operator action opts = Some (Ok EFFECT_ALLOW).
Proof.
  intros Hok Hacc Hp Hq Hqx Hs Hid Hrem Hsx Hallow Hnone. rewrite verify_policy_run by done. cbv zeta. rewrite Hacc, decide_True by done.
  rewrite eval_permissions_spec. do 2 f_equal. unfold with_flag.
  set (l := GetStatementsByPolicyID _ _ _). rewrite Forall_forall in Hnone.
  assert (EFFECT_DENY ∉ effects regexp action now opts l) as Hnd.
  { unfold effects. rewrite list_elem_of_fmap. intros (s' & E & [_ [_ Hin]%list_elem_of_filter]%list_elem_of_filter). by apply (Hnone s'). }
  assert (EFFECT_ALLOW ∈ effects regexp action now opts l) as Ha.
  { unfold effects. apply list_elem_of_fmap. exists s. split; [done|]. apply list_elem_of_filter. split; [done|].
    apply list_elem_of_filter. split; [|done]. split; [|by right]. rewrite Hid. by apply list_elem_of_fmap_2. }
  assert (forall r, has_expired now (p_ExpirationTime r) = false -> permission_eval regexp action now opts l r = EFFECT_ALLOW) as Hr.
  { intros r Hr. unfold permission_eval. rewrite Hr, eval_statements_spec. by apply deny_overrides_allow. }
  apply deny_overrides_allow. split.
  - rewrite list_elem_of_fmap. intros (r & E & _). destruct (has_expired now (p_ExpirationTime r)) eqn:Er.
    + unfold permission_eval in E. by rewrite Er in E.
    + by rewrite (Hr r Er) in E.
  - apply list_elem_of_fmap. exists q. by rewrite (Hr q Hqx).
Qed.

(** ** A table with two groups *)

Definition ex_uint (s : string) : option Z := if decide (s = "10"%string) then Some 10 else if decide (s = "11"%string) then Some 11 else None.
Definition ex_regexp (s : string) : option (string -> bool) := Some (fun r => bool_decide (r = s)).
Definition ex_alice : string := "0xA11CE00000000000000000000000000000000001".
Definition ex_bob : string := "0xB0B0000000000000000000000000000000000002".
Definition ex_now : Z := 100 * 10 ^ 9.

(** The policy 100 of group 10 expires at [e]; it allows to get the object 5.  The policy 101
    of group 11 says nothing of it. *)
Definition ex_tables (e : Z) : tables :=
  mkTables
    [mkPermission PRINCIPAL_TYPE_GNFD_GROUP "10" RESOURCE_TYPE_OBJECT 5 100 e false;
     mkPermission PRINCIPAL_TYPE_GNFD_GROUP "11" RESOURCE_TYPE_OBJECT 5 101 0 false]
    [mkStatement 100 "EFFECT_ALLOW" 64 None 0 false]
    [mkGroup ex_bob 10 zero_address 0 false; mkGroup ex_bob 10 ex_alice 0 false;
     mkGroup ex_bob 11 zero_address 0 false; mkGroup ex_bob 11 ex_alice 200 false]
    [mkBucket ex_bob "bucket" "VISIBILITY_TYPE_PRIVATE" 1 false]
    (fun _ => [mkObject ex_bob "bucket" "object" 1 5 "VISIBILITY_TYPE_INHERIT" false])
    [(5, "bucket"%string)] [] [] [] [] [].

Lemma verify_policy_reference_witness :
  VerifyPolicy ex_regexp ex_uint (fun _ => Some (ex_tables 150)) ex_now 5 RESOURCE_TYPE_OBJECT ex_alice ACTION_GET_OBJECT None
  = Some (Ok (policy_spec ex_regexp ex_uint (ex_tables 150) ex_now 5 RESOURCE_TYPE_OBJECT ex_alice ACTION_GET_OBJECT None)) /\
  policy_spec ex_regexp ex_uint (ex_tables 150) ex_now 5 RESOURCE_TYPE_OBJECT ex_alice ACTION_GET_OBJECT None = EFFECT_ALLOW.
Proof.
  split; [|by vm_compute]. apply verify_policy_reference.
  - repeat constructor; by eexists.
  - apply (bool_decide_unpack _). by vm_compute.
Defined.

Lemma expired_policy_still_grants_witness :
  VerifyPolicy ex_regexp ex_uint (fun _ => Some (ex_tables 50)) ex_now 5 RESOURCE_TYPE_OBJECT ex_alice ACTION_GET_OBJECT None
  = Some (Ok EFFECT_ALLOW) /\
  policy_spec ex_regexp ex_uint (ex_tables 50) ex_now 5 RESOURCE_TYPE_OBJECT ex_alice ACTION_GET_OBJECT None = EFFECT_UNSPECIFIED.
Proof.
  split; [|by vm_compute].
  apply (expired_policy_still_grants ex_regexp ex_uint (ex_tables 50) ex_now 5 RESOURCE_TYPE_OBJECT ex_alice ACTION_GET_OBJECT None
    (mkPermission PRINCIPAL_TYPE_GNFD_GROUP "10" RESOURCE_TYPE_OBJECT 5 100 50 false)
    (mkPermission PRINCIPAL_TYPE_GNFD_GROUP "11" RESOURCE_TYPE_OBJECT 5 101 0 false)
    (mkStatement 100 "EFFECT_ALLOW" 64 None 0 false)); try done.
  - repeat constructor; by eexists.
  - change (group_policies _ _ _ _ _ _) with (permissions (ex_tables 50)). by left.
  - change (group_policies _ _ _ _ _ _) with (permissions (ex_tables 50)). by right; left.
  - by left.
  - by repeat constructor.
Defined.

(** ** Objects *)

Section object.
Context (regexp : string -> option (string -> bool)) (uint_of : string -> option Z) (acc_address : string -> option string)
  (object_grn : string -> string -> string) (public_object_action : ActionType -> bool).

(** What the policies on the bucket say of the object, and those on the object. *)
Definition bucket_says (t : tables) (now : Z) (b : Bucket) (o : Object) (operator : string) (action : ActionType) : Effect :=
  policy_spec regexp uint_of t now (b_BucketID b) RESOURCE_TYPE_BUCKET operator action
    (Some (object_grn (o_BucketName o) (o_ObjectName o))).
Definition object_says (t : tables) (now : Z) (o : Object) (operator : string) (action : ActionType) : Effect :=
  policy_spec regexp uint_of t now (o_ObjectID o) RESOURCE_TYPE_OBJECT operator action None.

(** Who may act on an object: everybody if it is public and the action one of the public
    ones, its owner, and whom a policy allows and none denies. *)
Definition may_act (t : tables) (now : Z) (b : Bucket) (o : Object) (operator : string) (action : ActionType) : Prop :=
  (is_public b o = true /\ public_object_action action = true) \/
  acc_address (o_Owner o) = Some operator \/
  (bucket_says t now b o operator action <> EFFECT_DENY /\ object_says t now o operator action <> EFFECT_DENY /\
   (bucket_says t now b o operator action = EFFECT_ALLOW \/ object_says t now o operator action = EFFECT_ALLOW)).

(** No policy of the account's groups on the bucket or the object has expired. *)
Definition policies_live (t : tables) (now : Z) (b : Bucket) (o : Object) (operator : string) : Prop :=
  principals_ok uint_of t /\
  Forall (fun p => has_expired now (p_ExpirationTime p) = false)
    (group_policies uint_of t now (b_BucketID b) RESOURCE_TYPE_BUCKET operator) /\
  Forall (fun p => has_expired now (p_ExpirationTime p) = false)
    (group_policies uint_of t now (o_ObjectID o) RESOURCE_TYPE_OBJECT operator).

Lemma verify_object_spec t now b o operator action owner :
  policies_live t now b o operator -> acc_address (o_Owner o) = Some owner ->
  exists e, VerifyObjectPermission regexp uint_of acc_address object_grn public_object_action (fun _ => Some t) now b o operator action
            = Some (Ok e) /\ (e = EFFECT_ALLOW <-> may_act t now b o operator action) /\ e <> EFFECT_UNSPECIFIED.
Proof.
  intros (Hok & Hb & Ho) Hown. unfold VerifyObjectPermission, may_act.
  destruct (is_public b o && public_object_action action) eqn:Epub.
  { apply andb_true_iff in Epub as []. exists EFFECT_ALLOW. split_and!; [done| |done]. split; [by left|done]. }
  rewrite Hown. case_decide as Eown.
  { exists EFFECT_ALLOW. subst. split_and!; [done| |done]. split; [by right; left|done]. }
  assert (~ (is_public b o = true /\ public_object_action action = true)) by (intros [E1 E2]; by rewrite E1, E2 in Epub).
  unfold from, bucket_says, object_says. rewrite !verify_policy_spec by done. cbn [mbind option_bind].
  set (eb := policy_spec _ _ _ _ _ RESOURCE_TYPE_BUCKET _ _ _).
  set (eo := policy_spec _ _ _ _ _ RESOURCE_TYPE_OBJECT _ _ _).
  clearbody eb eo. destruct eb, eo; cbn; eexists; (split_and!; [reflexivity|split|]); try discriminate; intuition congruence.
Qed.
End object.

(** C22: A request about an object that is there is answered ALLOW exactly if the account
    may act on it, and DENY otherwise, provided the policies of groups name groups, and none
    that the groups of the account have on the object or its bucket has expired. The account
    may act if the object and the action are public, if it owns the object, or if a policy
    on the object or on its bucket allows the action and none denies it. A statement of a
    bucket's policy covers an object only if one of its sub-resources matches it: one
    without sub-resources covers no object, although the comment on the column says that it
    covers all. *)
Theorem verify_permission_exact regexp uint_of acc_address object_grn public_bucket_action public_object_action valid_bucket_name
  t now account operator bucketName objectName action b o owner :
  account <> ""%string -> acc_address account = Some operator -> valid_bucket_name bucketName = true -> objectName <> ""%string ->
  GetBucketByName bucketName t = Some b -> GetObjectByName objectName bucketName t = Ok o ->
  acc_address (o_Owner o) = Some owner -> policies_live uint_of t now b o operator ->
  exists e,
    GfSpVerifyPermission regexp uint_of acc_address object_grn public_bucket_action public_object_action valid_bucket_name
      (fun _ => Some t) now account bucketName objectName action = Some (Ok e) /\
    (e = EFFECT_ALLOW <-> may_act regexp uint_of acc_address object_grn public_object_action t now b o operator action) /\
    (e = EFFECT_ALLOW \/ e = EFFECT_DENY).
Proof.
  intros Hacc Eop Hv Hobj Eb Eo Eown Hlive.
  destruct (verify_object_spec regexp uint_of acc_address object_grn public_object_action t now b o operator action owner Hlive Eown)
    as (e & He & Hiff & Hne).
  exists e. split_and!; [|done|by destruct e; auto]. unfold GfSpVerifyPermission.
  rewrite decide_False by done. rewrite Eop, Hv. cbn [negb ask]. rewrite Eb, decide_False, Eo by done. exact He.
Qed.

Definition ex_acc (s : string) : option string := if bool_decide (String.length s = 42%nat) then Some s else None.
Definition ex_grn (b o : string) : string := "grn:o::" +:+ b +:+ "/" +:+ o.
Definition ex_public (a : ActionType) : bool := bool_decide (a = ACTION_GET_OBJECT).

Lemma verify_permission_exact_witness :
  exists e,
    GfSpVerifyPermission ex_regexp ex_uint ex_acc ex_grn (fun _ => false) ex_public (fun _ => true)
      (fun _ => Some (ex_tables 150)) ex_now ex_alice "bucket" "object" ACTION_GET_OBJECT = Some (Ok e) /\ e = EFFECT_ALLOW.
Proof.
  destruct (verify_permission_exact ex_regexp ex_uint ex_acc ex_grn (fun _ => false) ex_public (fun _ => true) (ex_tables 150) ex_now
    ex_alice ex_alice "bucket" "object" ACTION_GET_OBJECT (mkBucket ex_bob "bucket" "VISIBILITY_TYPE_PRIVATE" 1 false)
    (mkObject ex_bob "bucket" "object" 1 5 "VISIBILITY_TYPE_INHERIT" false) ex_bob) as (e & He & Hiff & _); try done.
  - split_and!; [repeat constructor; by eexists|apply (bool_decide_unpack _); by vm_compute..].
  - exists e. split; [exact He|]. apply Hiff. right. right. split_and!; [by vm_compute..|right; by vm_compute].
Defined.
