(* ===== verification/AuthDb.v ===== *)
(** The tables of authentication: store/sqldb/auth_nonce.go, off_chain_auth_key.go and
    off_chain_auth_key_v2.go, and the world in which the gateways and the authenticator
    use them.

    Each operation is a program (Proc): the clock is read in one step and each statement is
    executed in another, so that those of other requests come between.  Strings that the
    collation [coll] of the database does not tell apart are one key. *)
From Stdlib Require Import ZArith Lia String Ascii.
From stdpp Require Import base gmap list strings sorting.
From S2P Require Import Prelude Proc Sql Hex.

Local Open Scope Z_scope.
Local Open Scope prog_scope.

(** ** Time

    A time is the number of nanoseconds since 1970. *)

Definition Second : Z := 10 ^ 9.
Definition Millisecond : Z := 10 ^ 6.

Definition Unix (t : Z) : Z := t / Second.
Definition UnixMilli (t : Z) : Z := t / Millisecond.
Definition of_UnixMilli (m : Z) : Z := m * Millisecond.

(** A column of type datetime(3) rounds to milliseconds. *)
Definition datetime (t : Z) : Z := (t + Millisecond / 2) / Millisecond * Millisecond.

(** The zero value of time.Time, the year 1. *)
Definition zero_time : Z := - 62135596800 * Second.

(** ** Tables *)

Record OffChainAuthKeyTable := mkAuthKey {
  k_UserAddress : string;
  k_Domain : string;
  k_CurrentNonce : Z;
  k_CurrentPublicKey : string;
  k_NextNonce : Z;
  k_ExpiryDate : Z;
  k_CreatedTime : Z;
  k_ModifiedTime : Z;
}.
#[export] Instance OffChainAuthKeyTable_eq_dec : EqDecision OffChainAuthKeyTable.
Proof. solve_decision. Defined.

(** core/spdb has a type of the same fields. *)
Abbreviation OffChainAuthKey := OffChainAuthKeyTable.

Record OffChainAuthKeyV2Table := mkAuthKeyV2 {
  k2_UserAddress : string;
  k2_Domain : string;
  k2_PublicKey : string;
  k2_ExpiryDate : Z;
  k2_CreatedTime : Z;
  k2_ModifiedTime : Z;
}.

Abbreviation OffChainAuthKeyV2 := OffChainAuthKeyV2Table.

(** The rows under their primary keys; a claimed nonce has its expiry in seconds. *)
Record tables := mkTables {
  auth_keys : gmap (string * string) OffChainAuthKeyTable;
  auth_keys_v2 : gmap (string * string * string) OffChainAuthKeyV2Table;
  auth_nonces : gmap string Z;
}.

Definition set_auth_keys (m : gmap (string * string) OffChainAuthKeyTable) (t : tables) : tables :=
  mkTables m (auth_keys_v2 t) (auth_nonces t).
Definition set_auth_keys_v2 (m : gmap (string * string * string) OffChainAuthKeyV2Table) (t : tables) : tables :=
  mkTables (auth_keys t) m (auth_nonces t).
Definition set_auth_nonces (m : gmap string Z) (t : tables) : tables :=
  mkTables (auth_keys t) (auth_keys_v2 t) m.

(** A claim that was accepted: the key, its expiry and the time. *)
Record claim := mkClaim { c_key : string; c_expiresAt : Z; c_at : Z }.

(** The clock, the tables, what happens to the n-th call over a connection, and the claims
    that were accepted so far, the last one first, which are kept for the theorems only. *)
Record world := mkWorld {
  clock : Z;
  tabs : tables;
  fates : nat -> fate;
  calls : nat;
  claims : list claim;
}.

Definition time_Now : prog world Z := asks clock.

Definition set_tabs (t : tables) (w : world) : world := mkWorld (clock w) t (fates w) (S (calls w)) (claims w).

(** A statement, and the rows that it affects. *)
Definition exec_stmt {A} (stmt : tables -> result sql_error (tables * A)) (w : world) : world * result sql_error A :=
  let '(t, r) := transaction ErrConnection (fates w (calls w)) stmt (tabs w) in (set_tabs t w, r).

Definition exec {A} (stmt : tables -> result sql_error (tables * A)) : prog world (result sql_error A) := act (exec_stmt stmt).

Definition query {A} (q : tables -> A) : prog world (result sql_error A) :=
  act (fun w => (set_tabs (tabs w) w, match fates w (calls w) with Committed => Ok (q (tabs w)) | _ => Err ErrConnection end)).

(** strings.ToLower of ASCII text. *)
Definition lower_char (c : ascii) : ascii :=
  let n := N_of_ascii c in if ((65 <=? n)%N && (n <=? 90)%N)%bool then ascii_of_N (n + 32) else c.
Definition ToLower (s : string) : string := string_of_list_ascii (lower_char <$> list_ascii_of_string s).

Inductive auth_db_error :=
| ADbErr (e : sql_error)
| ADbWrapped (what : string) (e : sql_error)
| ADbRowsAffected (what : string)
| ADbNull.

Section db.
Context (coll : string -> string).

(** ** auth_nonce.go *)

Definition nonce_key (account nonce : string) : string :=
  (ToLower (TrimSpace account) +:+ "|" +:+ ToLower (TrimSpace nonce))%string.

(** INSERT ... ON DUPLICATE KEY UPDATE expires_at = IF(expires_at < now, VALUES(expires_at),
    expires_at): one row is affected if it is inserted, two if it changes, none otherwise. *)
Definition upsert_nonce (key : string) (expiresAt now : Z) (t : tables) : result sql_error (tables * Z) :=
  match auth_nonces t !! coll key with
  | None => Ok (set_auth_nonces (<[coll key := expiresAt]> (auth_nonces t)) t, 1)
  | Some old =>
    let new := if old <? now then expiresAt else old in
    Ok (set_auth_nonces (<[coll key := new]> (auth_nonces t)) t, if new =? old then 0 else 2)
  end.

(** The statement, with the claim noted if it is accepted. *)
Definition claim_stmt (key : string) (expiresAt now : Z) (w : world) : world * result sql_error Z :=
  let '(w', r) := exec_stmt (upsert_nonce key expiresAt now) w in
  match r with
  | Ok n => if 0 <? n
            then (mkWorld (clock w') (tabs w') (fates w') (calls w') (mkClaim (coll key) expiresAt (Unix (clock w)) :: claims w'), r)
            else (w', r)
  | Err _ => (w', r)
  end.

Definition ClaimAuthNonce (account nonce : string) (expiresAt : Z) : prog world (result sql_error bool) :=
  now <-- time_Now ;;
  r <-- act (claim_stmt (nonce_key account nonce) (Unix expiresAt) (Unix now)) ;;
  Ret (match r with Err e => Err e | Ok n => Ok (0 <? n) end).

Definition DeleteExpiredAuthNonces (expiredBefore : Z) : prog world (option sql_error) :=
  r <-- exec (fun t => Ok (set_auth_nonces (filter (fun kv => negb (kv.2 <? Unix expiredBefore)) (auth_nonces t)) t, tt)) ;;
  Ret (match r with Err e => Some e | Ok _ => None end).

(** ** off_chain_auth_key.go *)

Definition auth_key_id (userAddress domain : string) : string * string := (coll userAddress, coll domain).

Definition stored_key (r : OffChainAuthKeyTable) : OffChainAuthKeyTable :=
  mkAuthKey (k_UserAddress r) (k_Domain r) (k_CurrentNonce r) (k_CurrentPublicKey r) (k_NextNonce r)
    (datetime (k_ExpiryDate r)) (datetime (k_CreatedTime r)) (datetime (k_ModifiedTime r)).

(** Create of a row under its primary key. *)
Definition create_key (r : OffChainAuthKeyTable) (t : tables) : result sql_error (tables * Z) :=
  let id := auth_key_id (k_UserAddress r) (k_Domain r) in
  match auth_keys t !! id with
  | Some _ => Err ErrDuplicateEntry
  | None => Ok (set_auth_keys (<[id := stored_key r]> (auth_keys t)) t, 1)
  end.

Definition InsertAuthKey (newRecord : OffChainAuthKey) : prog world (option auth_db_error) :=
  r <-- exec (create_key newRecord) ;;
  Ret (match r with
       | Err e => Some (ADbWrapped "failed to insert record in service config table" e)
       | Ok n => if n =? 1 then None else Some (ADbRowsAffected "failed to insert record in service config table")
       end).

Definition nz_time (old new : Z) : Z := if new =? zero_time then old else datetime new.

(** Updates from a struct: a zero field is skipped. *)
Definition updated_key (newNonce : Z) (newPublicKey : string) (newExpiryDate now : Z) (r : OffChainAuthKeyTable)
  : OffChainAuthKeyTable :=
  mkAuthKey (k_UserAddress r) (k_Domain r) (nz (k_CurrentNonce r) newNonce) (nz_str (k_CurrentPublicKey r) newPublicKey)
    (nz (k_NextNonce r) (swrap 32 (newNonce + 1))) (nz_time (k_ExpiryDate r) newExpiryDate) (k_CreatedTime r)
    (nz_time (k_ModifiedTime r) now).

(** Model(queryCondition): the primary keys that are not empty are the WHERE clause; the
    nonce is no primary key. *)
Definition in_model (userAddress domain : string) (id : string * string) : Prop :=
  (userAddress = ""%string \/ id.1 = coll userAddress) /\ (domain = ""%string \/ id.2 = coll domain).
#[export] Instance in_model_dec userAddress domain id : Decision (in_model userAddress domain id).
Proof. unfold in_model. apply _. Defined.

(** A row that gets the values it has is not affected. *)
Definition update_key (userAddress domain : string) (f : OffChainAuthKeyTable -> OffChainAuthKeyTable) (t : tables)
  : result sql_error (tables * Z) :=
  if decide (userAddress = ""%string /\ domain = ""%string) then Err ErrMissingWhereClause else
  let rows := filter (fun kv => in_model userAddress domain kv.1) (auth_keys t) in
  let changed := filter (fun kv => f kv.2 <> kv.2) rows in
  Ok (set_auth_keys ((f <$> rows) ∪ auth_keys t) t, Z.of_nat (size changed)).

(** What the transaction writes, after it has read whether there is a row with the old
    nonce: rows are read as they were then, and written as they are now. *)
Definition write_key (found : bool) (userAddress domain : string) (newNonce : Z) (newPublicKey : string)
  (newExpiryDate now : Z) (t : tables) : result auth_db_error (tables * unit) :=
  let created := if found then Ok (t, 1)
                 else create_key (mkAuthKey userAddress domain 0 "" 1 now now now) t in
  match created with
  | Err e => Err (ADbWrapped "failed to InsertAuthKey: failed to insert record in service config table" e)
  | Ok (t, n) =>
    if negb (n =? 1) then Err (ADbRowsAffected "failed to InsertAuthKey: failed to insert record in service config table") else
    match update_key userAddress domain (updated_key newNonce newPublicKey newExpiryDate now) t with
    | Err e => Err (ADbWrapped "failed to update OffChainAuthKeyTable record's state" e)
    | Ok (t, n) =>
      if n =? 1 then Ok (t, tt) else Err (ADbRowsAffected "failed to update OffChainAuthKeyTable record's state")
    end
  end.

Definition has_nonce (userAddress domain : string) (nonce : Z) (t : tables) : bool :=
  match auth_keys t !! auth_key_id userAddress domain with
  | Some r => k_CurrentNonce r =? nonce
  | None => false
  end.

Definition UpdateAuthKey (userAddress domain : string) (oldNonce newNonce : Z) (newPublicKey : string) (newExpiryDate : Z)
  : prog world (option auth_db_error) :=
  found <-- query (has_nonce userAddress domain oldNonce) ;;
  match found with
  | Err e => Ret (Some (ADbWrapped "failed to query OffChainAuthKey table" e))
  | Ok found =>
    now <-- time_Now ;;
    r <-- act (fun w =>
      let '(t, r) := transaction (ADbErr ErrConnection) (fates w (calls w))
        (write_key found userAddress domain newNonce newPublicKey newExpiryDate now) (tabs w) in
      (set_tabs t w, r)) ;;
    Ret (match r with Err e => Some e | Ok _ => None end)
  end.

Definition GetAuthKey (userAddress domain : string) : prog world (result auth_db_error OffChainAuthKey) :=
  if decide (userAddress = ""%string \/ domain = ""%string) then Ret (Err ADbNull) else
  r <-- query (fun t => auth_keys t !! auth_key_id userAddress domain) ;;
  match r with
  | Err e => Ret (Err (ADbWrapped "failed to query OffChainAuthKey table" e))
  | Ok None =>
    expiry <-- time_Now ;;
    created <-- time_Now ;;
    modified <-- time_Now ;;
    Ret (Ok (mkAuthKey userAddress domain 0 "" 1 expiry created modified))
  | Ok (Some r) => Ret (Ok r)
  end.

(** ** off_chain_auth_key_v2.go *)

Definition auth_key_v2_id (userAddress domain publicKey : string) : string * string * string :=
  (coll userAddress, coll domain, coll publicKey).

(** ON DUPLICATE KEY UPDATE of the expiry and of the time of modification. *)
Definition upsert_key_v2 (r : OffChainAuthKeyV2Table) (t : tables) : result sql_error (tables * unit) :=
  let id := auth_key_v2_id (k2_UserAddress r) (k2_Domain r) (k2_PublicKey r) in
  let new := match auth_keys_v2 t !! id with
             | None => mkAuthKeyV2 (k2_UserAddress r) (k2_Domain r) (k2_PublicKey r) (datetime (k2_ExpiryDate r))
                         (datetime (k2_CreatedTime r)) (datetime (k2_ModifiedTime r))
             | Some o => mkAuthKeyV2 (k2_UserAddress o) (k2_Domain o) (k2_PublicKey o) (datetime (k2_ExpiryDate r))
                           (k2_CreatedTime o) (datetime (k2_ModifiedTime r))
             end in
  Ok (set_auth_keys_v2 (<[id := new]> (auth_keys_v2 t)) t, tt).

Definition InsertAuthKeyV2 (newRecord : OffChainAuthKeyV2) : prog world (option auth_db_error) :=
  r <-- exec (upsert_key_v2 newRecord) ;;
  Ret (match r with Err e => Some (ADbWrapped "failed to insert record in OffChainAuthKeyV2Table" e) | Ok _ => None end).

Definition GetAuthKeyV2 (userAddress domain publicKey : string) : prog world (result auth_db_error (option OffChainAuthKeyV2)) :=
  r <-- query (fun t => auth_keys_v2 t !! auth_key_v2_id userAddress domain publicKey) ;;
  Ret (match r with Err e => Err (ADbWrapped "failed to query OffChainAuthKey table" e) | Ok r => Ok r end).

Definition ClearExpiredOffChainAuthKeys : prog world (option sql_error) :=
  now <-- time_Now ;;
  r <-- exec (fun t => Ok (set_auth_keys_v2 (filter (fun kv => negb (k2_ExpiryDate kv.2 <? now)) (auth_keys_v2 t)) t, tt)) ;;
  Ret (match r with Err e => Some e | Ok _ => None end).

Definition keys_of (userAddress domain : string) (id : string * string * string) : Prop :=
  id.1 = (coll userAddress, coll domain).
#[export] Instance keys_of_dec userAddress domain id : Decision (keys_of userAddress domain id).
Proof. unfold keys_of. apply _. Defined.

(** In the order in which the database finds the rows. *)
Definition ListAuthKeysV2 (scan : list OffChainAuthKeyV2Table -> list OffChainAuthKeyV2Table) (userAddress domain : string)
  : prog world (result auth_db_error (list string)) :=
  r <-- query (fun t => scan (map_to_list (filter (fun kv => keys_of userAddress domain kv.1) (auth_keys_v2 t))).*2) ;;
  Ret (match r with
       | Err e => Err (ADbWrapped "failed to query ListAuthKeysV2 table" e)
       | Ok rows => Ok (k2_PublicKey <$> rows)
       end).

Definition DeleteAuthKeysV2 (userAddress domain : string) (publicKeys : list string) : prog world (result sql_error bool) :=
  r <-- exec (fun t => Ok (set_auth_keys_v2
    (filter (fun kv => ~ (keys_of userAddress domain kv.1 /\ kv.1.2 ∈ coll <$> publicKeys)) (auth_keys_v2 t)) t, tt)) ;;
  Ret (match r with Err e => Err e | Ok _ => Ok true end).
End db.
