(* ===== verification/Authenticator.v ===== *)
(** The authenticator: modular/authenticator/authenticator.go and off_chain_signer.go, with
    the helpers of util/virtual_group.go that it calls.

    The operations on keys are programs on the tables of AuthDb.  VerifyAuthentication is a
    function of what the chain and the metadata service answer; [None] is a panic.  The
    curves, addresses and the answers are arguments. *)
From Stdlib Require Import ZArith Lia String Ascii.
From stdpp Require Import base gmap list strings option.
From S2P Require Import Prelude Proc Sql Strconv Checksum Hex AuthDb Policy.

Local Open Scope Z_scope.
Local Open Scope prog_scope.

Inductive ObjectStatus := OBJECT_STATUS_CREATED | OBJECT_STATUS_SEALED | OBJECT_STATUS_DISCONTINUED | OBJECT_STATUS_OTHER.
#[export] Instance ObjectStatus_eq_dec : EqDecision ObjectStatus.
Proof. solve_decision. Defined.

Inductive auth_error :=
| ErrUnsupportedAuthType
| ErrMismatchSp
| ErrUnexpectedObjectStatus (objectName : string) (expected actual : ObjectStatus)
| ErrNotSealedState
| ErrPaymentState
| ErrInvalidAddress
| ErrNoSuchBucket
| ErrNoSuchObject
| ErrRepeatedBucket
| ErrRepeatedObject
| ErrNoPermission
| ErrBadSignature
| ErrPublicKeyExpired
| ErrInvalidAddressOrDomain
| ErrInvalidAddressOrDomainOrPublicKey
| ErrInvalidPublicKeyLength
| ErrPublicKeyNotExist
| ErrBucketIsRateLimited
| ErrConsensusWithDetail (detail : string)
| ErrDb (e : auth_db_error)
| ErrKey (what : string)
| ErrAnswer (e : string).

(** ** off_chain_signer.go *)

Section eddsa.
(** pk.SetBytes, the size of what it reads; pk.Verify with the MiMC hash; ed25519.Verify. *)
Context (set_bytes : bytes -> option Z) (mimc_verify : bytes -> bytes -> bytes -> option bool)
  (ed25519_verify : bytes -> bytes -> bytes -> bool).

Definition PublicKeySize : nat := 32.

(** A key is its bytes. *)
Definition ParsePk (pkStr : string) : result string bytes :=
  match DecodeString pkStr with
  | Err _ => Err "invalid public key"%string
  | Ok pkBytes =>
    match set_bytes pkBytes with
    | None => Err "invalid public key"%string
    | Some size => if size =? 32 then Ok pkBytes else Err "invalid public key"%string
    end
  end.

Definition VerifyEddsaSignature (pubKey : string) (sig message : bytes) : option auth_error :=
  match ParsePk pubKey with
  | Err e => Some (ErrKey e)
  | Ok pk =>
    match mimc_verify pk sig message with
    | None => Some ErrBadSignature
    | Some valid => if valid then None else Some ErrBadSignature
    end
  end.

Definition VerifyEddsaSignatureV2 (pubKey : string) (sig message : bytes) : option auth_error :=
  match DecodeString pubKey with
  | Err _ => Some (ErrKey "invalid hex")
  | Ok pubKeyBytes =>
    if negb (bool_decide (length pubKeyBytes = PublicKeySize)) then Some (ErrKey "invalid public key length")
    else if negb (ed25519_verify pubKeyBytes message sig) then Some ErrBadSignature else None
  end.

(** ** Keys *)

Context (coll : string -> string).

Definition GetAuthNonce (account domain : string) : prog world (result auth_error OffChainAuthKey) :=
  if decide (account = ""%string \/ domain = ""%string) then Ret (Err ErrInvalidAddressOrDomain) else
  r <-- GetAuthKey coll account domain ;;
  Ret (match r with Err e => Err (ErrDb e) | Ok authKey => Ok authKey end).

Definition UpdateUserPublicKey (account domain : string) (currentNonce nonce : Z) (userPublicKey : string) (expiryDate : Z)
  : prog world (result auth_error bool) :=
  r <-- UpdateAuthKey coll account domain currentNonce nonce userPublicKey (of_UnixMilli expiryDate) ;;
  Ret (match r with Some e => Err (ErrDb e) | None => Ok true end).

(** time.Until(t).Seconds() < 0, read off the clock. *)
Definition has_passed (t : Z) : prog world bool :=
  now <-- time_Now ;;
  Ret (t - now <? 0).

Definition VerifyGNFD1EddsaSignature (account domain offChainSig : string) (realMsgToSign : bytes)
  : prog world (result auth_error bool) :=
  match DecodeString offChainSig with
  | Err _ => Ret (Err ErrBadSignature)
  | Ok signature =>
    r <-- GetAuthNonce account domain ;;
    match r with
    | Err e => Ret (Err e)
    | Ok key =>
      passed <-- has_passed (k_ExpiryDate key) ;;
      Ret (if passed : bool then Err ErrPublicKeyExpired
           else match VerifyEddsaSignature (k_CurrentPublicKey key) signature realMsgToSign with
                | Some e => Err e
                | None => Ok true
                end)
    end
  end.

Definition GetAuthKeyV2 (account domain publicKey : string) : prog world (result auth_error (option OffChainAuthKeyV2)) :=
  if decide (account = ""%string \/ domain = ""%string \/ publicKey = ""%string)
  then Ret (Err ErrInvalidAddressOrDomainOrPublicKey) else
  r <-- AuthDb.GetAuthKeyV2 coll account domain publicKey ;;
  Ret (match r with Err e => Err (ErrDb e) | Ok authKey => Ok authKey end).

Definition ListAuthKeysV2 (scan : list OffChainAuthKeyV2Table -> list OffChainAuthKeyV2Table) (account domain : string)
  : prog world (result auth_error (list string)) :=
  if decide (account = ""%string \/ domain = ""%string) then Ret (Err ErrInvalidAddressOrDomain) else
  r <-- AuthDb.ListAuthKeysV2 coll scan account domain ;;
  Ret (match r with Err e => Err (ErrDb e) | Ok authKeys => Ok authKeys end).

Definition DeleteAuthKeysV2 (account domain : string) (publicKeys : list string) : prog world (result auth_error bool) :=
  if decide (account = ""%string \/ domain = ""%string) then Ret (Err ErrInvalidAddressOrDomain) else
  if decide (length publicKeys = 0%nat) then Ret (Ok true) else
  if decide (100 < length publicKeys)%nat then Ret (Err ErrInvalidPublicKeyLength) else
  r <-- AuthDb.DeleteAuthKeysV2 coll account domain publicKeys ;;
  Ret (match r with Err e => Err (ErrDb (ADbErr e)) | Ok result => Ok result end).

Definition UpdateUserPublicKeyV2 (account domain publicKey : string) (expiryDate : Z) : prog world (result auth_error bool) :=
  created <-- time_Now ;;
  modified <-- time_Now ;;
  r <-- InsertAuthKeyV2 coll (mkAuthKeyV2 account domain publicKey (of_UnixMilli expiryDate) created modified) ;;
  Ret (match r with Some e => Err (ErrDb e) | None => Ok true end).

Definition VerifyGNFD2EddsaSignature (account domain publicKey offChainSig : string) (realMsgToSign : bytes)
  : prog world (result auth_error bool) :=
  match DecodeString offChainSig with
  | Err _ => Ret (Err ErrBadSignature)
  | Ok signature =>
    r <-- GetAuthKeyV2 account domain publicKey ;;
    match r with
    | Err e => Ret (Err e)
    | Ok None => Ret (Err ErrPublicKeyNotExist)
    | Ok (Some key) =>
      passed <-- has_passed (k2_ExpiryDate key) ;;
      Ret (if passed : bool then Err ErrPublicKeyExpired
           else match VerifyEddsaSignatureV2 (k2_PublicKey key) signature realMsgToSign with
                | Some e => Err e
                | None => Ok true
                end)
    end
  end.
End eddsa.

(** ** VerifyAuthentication *)

Inductive AuthOpType :=
| AuthOpTypeUnKnown
| AuthOpAskCreateBucketApproval
| AuthOpAskMigrateBucketApproval
| AuthOpAskCreateObjectApproval
| AuthOpTypeGetChallengePieceInfo
| AuthOpTypePutObject
| AuthOpTypeGetObject
| AuthOpTypeGetUploadingState
| AuthOpTypeGetBucketQuota
| AuthOpTypeListBucketReadRecord
| AuthOpTypeGetRecoveryPiece
| AuthOpTypeQueryBucketMigrationProgress
| AuthOpTypeAgentPutObject
| AuthOpTypeAgentUpdateObject.

(** What is read of the chain's types. *)
Record BucketInfo := mkBucketInfo { bi_Id : Z; bi_GlobalVirtualGroupFamilyId : Z; bi_PaymentAddress : string }.
Record ObjectInfo := mkObjectInfo {
  oi_ObjectName : string;
  oi_ObjectStatus : ObjectStatus;
  oi_IsUpdating : bool;
  oi_LocalVirtualGroupId : Z;
}.

(** The answers of the chain (core/consensus) and of the metadata service during a call;
    an error is its text.  QueryBucketInfoAndObjectInfo returns what it has found also with an
    error; a message without a value is [None]. *)
Record consensus := mkConsensus {
  QueryBucketInfo : string -> result string (option BucketInfo);
  QueryBucketInfoAndObjectInfo : string -> string -> option BucketInfo * option ObjectInfo * option string;
  (** IsRateLimited *)
  QueryBucketExtraInfo : string -> result string (option bool);
  (** the id of the provider of the operator address *)
  QuerySP : result string Z;
  (** the primary provider of a family *)
  QueryVirtualGroupFamily : Z -> result string Z;
  (** whether the status is STREAM_ACCOUNT_STATUS_ACTIVE *)
  QueryPaymentStreamRecord : string -> result string (option bool);
  VerifyPutObjectPermission : string -> string -> string -> result string bool;
  VerifyUpdateObjectPermission : string -> string -> string -> result string bool;
  (** the challenger addresses *)
  ListBondedValidators : result string (list string);
  (** the secondary providers of the group of a bucket's local group *)
  GetGlobalVirtualGroup : Z -> Z -> result string (list Z);
  VerifyPermission : string -> string -> string -> ActionType -> result string Effect;
}.

(** util.ValidateAndGetSPIndexWithinGVGSecondarySPs: the index, and whether there is one. *)
Fixpoint index_of (selfSpID : Z) (i : Z) (l : list Z) : Z * bool :=
  match l with
  | [] => (-1, false)
  | sspID :: l => if selfSpID =? sspID then (i, true) else index_of selfSpID (i + 1) l
  end.

Definition ValidateAndGetSPIndexWithinGVGSecondarySPs (c : consensus) (selfSpID bucketID lvgID : Z) : result string (Z * bool) :=
  match GetGlobalVirtualGroup c bucketID lvgID with
  | Err e => Err e
  | Ok ids => Ok (index_of selfSpID 0 ids)
  end.

(** util.ValidateSecondarySPs, util.ValidatePrimarySP, util.GetSecondarySPIndexFromGVG. *)
Definition ValidateSecondarySPs (selfSpID : Z) (secondarySpIDs : list Z) : Z * bool := index_of selfSpID 0 secondarySpIDs.
Definition ValidatePrimarySP (selfSpID primarySpID : Z) : bool := selfSpID =? primarySpID.
Definition GetSecondarySPIndexFromGVG (secondarySpIDs : list Z) (spID : Z) : result string Z :=
  match index_of spID 0 secondarySpIDs with
  | (index, true) => Ok (swrap 32 index)
  | (_, false) => Err "target sp is not in the gvg secondary sp list"%string
  end.

(** util.GetBucketPrimarySPID: the family of no bucket is 0. *)
Definition GetBucketPrimarySPID (c : consensus) (bucketInfo : option BucketInfo) : result string Z :=
  QueryVirtualGroupFamily c (match bucketInfo with Some b => bi_GlobalVirtualGroupFamilyId b | None => 0 end).

Section auth.
(** AccAddressFromHexUnsafe; strings.EqualFold compares [fold]ed text. *)
Context (acc_address : string -> option string) (fold : string -> string).
Implicit Types (c : consensus).

(** A call returns the cached id of this provider and an answer. *)
Definition reply := option (Z * result auth_error bool).

(** The id is asked for once; an id of 0 is asked for again. *)
Definition getSPID c (spID : Z) : Z * result string Z :=
  if negb (spID =? 0) then (spID, Ok spID)
  else match QuerySP c with Err e => (spID, Err e) | Ok id => (id, Ok id) end.

(** The error of a query for a bucket and an object. *)
Definition query_error (what e : string) : auth_error :=
  if Contains e "No such bucket" then ErrNoSuchBucket
  else if Contains e "No such object" then ErrNoSuchObject
  else ErrConsensusWithDetail (what +:+ e).

Definition bucket_and_object_failed : string := "failed to get bucket and object info from consensus, error: ".

(** The bucket and the object, or the error. *)
Definition with_objects c (bucket object what : string) (spID : Z)
  (k : option BucketInfo -> option ObjectInfo -> reply) : reply :=
  match QueryBucketInfoAndObjectInfo c bucket object with
  | (_, _, Some e) => Some (spID, Err (query_error what e))
  | (bucketInfo, objectInfo, None) => k bucketInfo objectInfo
  end.

Definition with_spid c (spID : Z) (k : Z -> reply) : reply :=
  match getSPID c spID with
  | (spID, Err e) => Some (spID, Err (ErrConsensusWithDetail ("getSPID error: " +:+ e)))
  | (_, Ok spID) => k spID
  end.

Definition with_primary c (bucketInfo : option BucketInfo) (spID : Z) (k : Z -> reply) : reply :=
  match GetBucketPrimarySPID c bucketInfo with
  | Err e => Some (spID, Err (ErrConsensusWithDetail ("GetBucketPrimarySPID error: " +:+ e)))
  | Ok bucketSPID => k bucketSPID
  end.

Definition answered (spID : Z) (r : result string bool) : reply :=
  Some (spID, match r with Err e => Err (ErrAnswer e) | Ok allow => Ok allow end).

(** Only ALLOW is a permission. *)
Definition permitted (spID : Z) (r : result string Effect) : reply :=
  Some (spID, match r with Err e => Err (ErrAnswer e) | Ok e => Ok (bool_decide (e = EFFECT_ALLOW)) end).

(** The status of no object is its zero value. *)
Definition object_status (o : option ObjectInfo) : ObjectStatus :=
  match o with Some o => oi_ObjectStatus o | None => OBJECT_STATUS_CREATED end.
Definition object_name (o : option ObjectInfo) : string := match o with Some o => oi_ObjectName o | None => "" end.

Definition is_secondary c (bucketInfo : option BucketInfo) (objectInfo : option ObjectInfo) (spID : Z) (k : reply) : reply :=
  match bucketInfo, objectInfo with
  | Some b, Some o =>
    if MaxUint64 <? bi_Id b then None else
    match ValidateAndGetSPIndexWithinGVGSecondarySPs c spID (bi_Id b) (oi_LocalVirtualGroupId o) with
    | Err e => Some (spID, Err (ErrConsensusWithDetail ("failed to global virtual group info from metaData, error: " +:+ e)))
    | Ok (_, isSecondarySp) => if negb isSecondarySp then Some (spID, Err ErrMismatchSp) else k
    end
  | _, _ => None
  end.

Definition verify_put_object c (account bucket object : string) (spID : Z) : reply :=
  with_objects c bucket object bucket_and_object_failed spID (fun bucketInfo objectInfo =>
  with_spid c spID (fun spID =>
  with_primary c bucketInfo spID (fun bucketSPID =>
    if negb (bucketSPID =? spID) then Some (spID, Err ErrMismatchSp) else
    match object_status objectInfo with
    | OBJECT_STATUS_CREATED => answered spID (VerifyPutObjectPermission c account bucket object)
    | OBJECT_STATUS_SEALED =>
      match objectInfo with
      | None => None
      | Some o =>
        if negb (oi_IsUpdating o)
        then Some (spID, Err (ErrUnexpectedObjectStatus (oi_ObjectName o) OBJECT_STATUS_CREATED (oi_ObjectStatus o)))
        else answered spID (VerifyUpdateObjectPermission c account bucket object)
      end
    | status => Some (spID, Err (ErrUnexpectedObjectStatus (object_name objectInfo) OBJECT_STATUS_CREATED status))
    end))).

Definition verify_uploading_state c (bucket object : string) (spID : Z) : reply :=
  with_objects c bucket object bucket_and_object_failed spID (fun bucketInfo _ =>
  with_spid c spID (fun spID =>
  with_primary c bucketInfo spID (fun bucketSPID =>
    if negb (bucketSPID =? spID) then Some (spID, Err ErrMismatchSp) else Some (spID, Ok true)))).

Definition verify_get_object c (account bucket object : string) (spID : Z) : reply :=
  with_objects c bucket object bucket_and_object_failed spID (fun bucketInfo objectInfo =>
  match QueryBucketExtraInfo c bucket with
  | Err e =>
    Some (spID, Err (if Contains e "No such bucket" then ErrNoSuchBucket
                     else ErrConsensusWithDetail ("failed to get bucket extra info from consensus, error: " +:+ e)))
  | Ok (Some true) => Some (spID, Err ErrBucketIsRateLimited)
  | Ok _ =>
    with_spid c spID (fun spID =>
    with_primary c bucketInfo spID (fun bucketSPID =>
      if negb (bucketSPID =? spID) then Some (spID, Err ErrMismatchSp) else
      if decide (object_status objectInfo <> OBJECT_STATUS_SEALED /\ object_status objectInfo <> OBJECT_STATUS_CREATED)
      then Some (spID, Err ErrNoPermission) else
      match QueryPaymentStreamRecord c (match bucketInfo with Some b => bi_PaymentAddress b | None => "" end) with
      | Err e => Some (spID, Err (ErrAnswer e))
      | Ok None => None
      | Ok (Some active) =>
        if negb active then Some (spID, Err ErrPaymentState)
        else permitted spID (VerifyPermission c account bucket object ACTION_GET_OBJECT)
      end))
  end).

Definition verify_recovery_piece c (account bucket object : string) (spID : Z) : reply :=
  with_objects c bucket object bucket_and_object_failed spID (fun bucketInfo objectInfo =>
  with_spid c spID (fun spID =>
  is_secondary c bucketInfo objectInfo spID
    (if decide (object_status objectInfo <> OBJECT_STATUS_SEALED) then Some (spID, Err ErrNotSealedState)
     else permitted spID (VerifyPermission c account bucket object ACTION_GET_OBJECT)))).

Definition verify_challenge c (account bucket object : string) (spID : Z) : reply :=
  match ListBondedValidators c with
  | Err e => Some (spID, Err (ErrConsensusWithDetail ("failed to list validator from consensus, error: " +:+ e)))
  | Ok validators =>
    if negb (existsb (fun v => bool_decide (fold v = fold account)) validators) then Some (spID, Err ErrNoPermission) else
    with_objects c bucket object "failed to get object info from consensus, error: " spID (fun bucketInfo objectInfo =>
    with_spid c spID (fun spID =>
    with_primary c bucketInfo spID (fun bucketSPID =>
      if bucketSPID =? spID then Some (spID, Ok true)
      else is_secondary c bucketInfo objectInfo spID (Some (spID, Ok true)))))
  end.

Definition bucket_exists c (bucket : string) : bool :=
  match QueryBucketInfo c bucket with Ok (Some _) => true | _ => false end.

Definition VerifyAuthentication c (authType : AuthOpType) (account bucket object : string) (spID : Z) : reply :=
  match acc_address account with
  | None => Some (spID, Err ErrInvalidAddress)
  | Some _ =>
    match authType with
    | AuthOpAskCreateBucketApproval =>
      Some (spID, if bucket_exists c bucket then Err ErrRepeatedBucket else Ok true)
    | AuthOpAskMigrateBucketApproval | AuthOpTypeQueryBucketMigrationProgress =>
      Some (spID, if bucket_exists c bucket then Ok true else Err ErrNoSuchBucket)
    | AuthOpAskCreateObjectApproval =>
      Some (spID, match QueryBucketInfoAndObjectInfo c bucket object with
                  | (None, _, _) => Err ErrNoSuchBucket
                  | (Some _, Some _, _) => Err ErrRepeatedObject
                  | (Some _, None, _) => Ok true
                  end)
    | AuthOpTypeAgentPutObject => answered spID (VerifyPutObjectPermission c account bucket object)
    | AuthOpTypeAgentUpdateObject => answered spID (VerifyUpdateObjectPermission c account bucket object)
    | AuthOpTypePutObject => verify_put_object c account bucket object spID
    | AuthOpTypeGetUploadingState => verify_uploading_state c bucket object spID
    | AuthOpTypeGetObject => verify_get_object c account bucket object spID
    | AuthOpTypeGetRecoveryPiece => verify_recovery_piece c account bucket object spID
    | AuthOpTypeGetChallengePieceInfo => verify_challenge c account bucket object spID
    | _ => Some (spID, Err ErrUnsupportedAuthType)
    end
  end.
End auth.
