(* ===== verification/RequestAuth.v ===== *)
(** The authentication of requests by the gateway: modular/gater/request_context.go, the
    handlers of keys in auth_handler.go, the authorisation of getObjectHandler in
    object_handler.go, and the clean-up of nonces in gater.go.

    A request is a program on the world of AuthDb; a call to the authenticator may be lost
    before or after it takes effect.  The signatures, the messages that are signed, dates,
    regular expressions and the names and limits of moca-common are arguments. *)
From Stdlib Require Import ZArith Lia String Ascii.
From stdpp Require Import base gmap list strings option.
From S2P Require Import Prelude Proc Sql Strconv Checksum Hex AuthDb Policy Authenticator.

Local Open Scope Z_scope.
Local Open Scope prog_scope.

(** ** Text *)

Fixpoint strip_prefix (p s : string) : option string :=
  match p, s with
  | EmptyString, _ => Some s
  | String c p, String d s => if decide (c = d) then strip_prefix p s else None
  | _, EmptyString => None
  end.

Definition HasPrefix (s p : string) : bool := bool_decide (is_Some (strip_prefix p s)).
Definition TrimPrefix (s p : string) : string := default s (strip_prefix p s).

(** s[n:] *)
Fixpoint str_drop (n : nat) (s : string) : string :=
  match n, s with
  | O, _ => s
  | S n, String _ s => str_drop n s
  | S _, EmptyString => EmptyString
  end.

(** Remove a character everywhere. *)
Fixpoint remove_char (c : ascii) (s : string) : string :=
  match s with
  | EmptyString => EmptyString
  | String d s => if decide (d = c) then remove_char c s else String d (remove_char c s)
  end.

Definition newline : ascii := ascii_of_N 10.

(** strings.ReplaceAll of a backslash and an n by a line feed. *)
Fixpoint unescape (s : string) : string :=
  match s with
  | String "\" (String "n" s) => String newline (unescape s)
  | String c s => String c (unescape s)
  | EmptyString => EmptyString
  end.

(** What comes before and after the first occurrence of [sep]. *)
Fixpoint cut (sep s : string) : option (string * string) :=
  match strip_prefix sep s with
  | Some rest => Some (""%string, rest)
  | None => match s with
            | EmptyString => None
            | String c s => '(a, b) ← cut sep s; Some (String c a, b)
            end
  end.

(** ... and the last one. *)
Fixpoint cut_last (sep s : string) : option (string * string) :=
  match s with
  | EmptyString => if decide (sep = ""%string) then Some (""%string, ""%string) else None
  | String c s' =>
    match cut_last sep s' with
    | Some (a, b) => Some (String c a, b)
    | None => rest ← strip_prefix sep s; Some (""%string, rest)
    end
  end.

(** ** Requests *)

(** Header.Get, URL.Query().Get and mux.Vars are empty for what is missing; the body is read
    up to a limit, or its stream breaks. *)
Record request := mkRequest {
  header : string -> string;
  url_query : string -> string;
  vars : string -> string;
  routerName : string;
  body : option string;
}.

(** moca-common/go/http *)
Record commonhttp := mkCommonHttp {
  HTTPHeaderExpiryTimestamp : string;
  HTTPHeaderNonce : string;
  Gnfd1Ecdsa : string;
  Gnfd1Eddsa : string;
  Gnfd2Eddsa : string;
  Gnfd1EthPersonalSign : string;
  MaxExpiryAgeInSec : Z;
}.

Definition Signature : string := "Signature".
Definition SignedMsg : string := "SignedMsg".
Definition GnfdAuthorizationHeader : string := "Authorization".
Definition GnfdUserAddressHeader : string := "X-Gnfd-User-Address".
Definition GnfdOffChainAuthAppDomainHeader : string := "X-Gnfd-App-Domain".
Definition GnfdOffChainAuthAppRegNonceHeader : string := "X-Gnfd-App-Reg-Nonce".
Definition GnfdOffChainAuthAppRegPublicKeyHeader : string := "X-Gnfd-App-Reg-Public-Key".
Definition ExpectedEddsaPubKeyLength : nat := 64.
Definition MaxAuthKeyListBodySize : nat := 8 * 1024.

Definition skipAuthRouterNames : list string :=
  ["RequestNonce"; "UpdateUserPublicKey"; "HealthCheck"; "DownloadObjectByUniversalEndpoint"; "ViewObjectByUniversalEndpoint";
   "GetObjectMeta"; "GetBucketMeta"; "ListBucketsByIDs"; "ListObjectsByIDs"; "GetBsDBDataInfo"]%string.

Inductive gate_error :=
| ErrUnsupportedSignType
| ErrAuthorizationHeaderFormat
| ErrRequestConsistent
| ErrNoPermission
| ErrInvalidHeader
| ErrInvalidQuery
| ErrExceptionStream
| ErrSignature
| ErrInvalidDomainHeader
| ErrInvalidPublicKeyHeader
| ErrInvalidRegNonceHeader
| ErrSignedMsgNotMatchTemplate
| ErrSignedMsgNotMatchSPNonce
| ErrSignedMsgNotMatchSPAddr
| ErrSignedMsgNotMatchDomain
| ErrSignedMsgNotMatchPubKey
| ErrSignedMsgNotMatchExpiry
| ErrInvalidExpiryDateHeader
| ErrRequestBodyTooLarge
| ErrReusedAuthRequest
| ErrMissingAuthNonce
| ErrInvalidAuthNonce
| ErrAuthNonceStore
| GateHex
| GateAuth (e : auth_error)
| GateRpc
| GateAnswer (e : string).

(** A call to the authenticator over its connection. *)
Definition connection : prog world fate := act (fun w => (set_tabs (tabs w) w, fates w (calls w))).

Definition rpc {A} (p : prog world (result auth_error A)) : prog world (result gate_error A) :=
  f <-- connection ;;
  match f with
  | Committed => r <-- p ;; Ret (match r with Err e => Err (GateAuth e) | Ok a => Ok a end)
  | UnknownApplied => p ;;; Ret (Err GateRpc)
  | _ => Ret (Err GateRpc)
  end.

Section gateway.
Context (names : commonhttp) (time_Parse : string -> option Z)
  (GetMsgToSignInGNFD1Auth GetMsgToSignInGNFD1AuthForPreSignedURL : request -> bytes)
  (RecoverAddr : bytes -> bytes -> option (string * bytes)) (acc_address : string -> option string)
  (set_bytes : bytes -> option Z) (mimc_verify : bytes -> bytes -> bytes -> option bool)
  (ed25519_verify : bytes -> bytes -> bytes -> bool) (coll : string -> string).
(** The conversion of a float64 that int32 cannot hold depends on the implementation. *)
Context (int32_overflow : Z -> Z).
(** The gateway requires nonces; it has a database. *)
Context (requireAuthNonce has_db : bool).
Implicit Types (r : request).

(** int32(d.Seconds()).  The float may be rounded up just below 2^31 seconds; below 2^23
    seconds it is exact to the nanosecond, and what lies between is compared with smaller
    numbers only. *)
Definition int32_seconds (d : Z) : Z :=
  if Z.abs d <? (2 ^ 31 - 1) * Second then Z.quot d Second else int32_overflow d.

(** The age of a date is accepted between now and the limit. *)
Definition age_ok (date now : Z) : bool :=
  let expiryAge := int32_seconds (date - now) in
  negb ((MaxExpiryAgeInSec names <? expiryAge) || (expiryAge <? 0)).

Definition header_or_query r (name : string) : string :=
  if decide (header r name = ""%string) then url_query r name else header r name.

Definition CheckIfSigExpiry r : prog world (option gate_error) :=
  match time_Parse (header_or_query r (HTTPHeaderExpiryTimestamp names)) with
  | None => Ret (Some ErrInvalidExpiryDateHeader)
  | Some expiryDate =>
    now <-- time_Now ;;
    Ret (if age_ok expiryDate now then None else Some ErrInvalidExpiryDateHeader)
  end.

Definition parseSignatureFromRequest (requestSignature : string) : result gate_error string :=
  match Split (remove_char " " requestSignature) "="%char with
  | [name; signature] => if decide (name = Signature) then Ok signature else Err ErrAuthorizationHeaderFormat
  | _ => Err ErrAuthorizationHeaderFormat
  end.

(** An address that does not parse is no address, which prints as the empty string. *)
Definition parseAccAddressFromHexUnsafe (address : string) : option string :=
  acc_address (TrimPrefix (TrimPrefix address "0x") "0X").

Definition verifySignatureForGNFD1Ecdsa r (requestSignature : string) : result gate_error string :=
  match parseSignatureFromRequest requestSignature with
  | Err e => Err e
  | Ok sigStr =>
    match DecodeString sigStr with
    | Err _ => Err GateHex
    | Ok signature =>
      match RecoverAddr (GetMsgToSignInGNFD1Auth r) signature with
      | None => Err ErrRequestConsistent
      | Some (addr, _) => Ok addr
      end
    end
  end.

(** verifySignatureForGNFD1Eddsa and verifyGNFD1EddsaSignatureFromPreSignedURL; [None] is a
    nil address. *)
Definition verify_gnfd1 (msg : bytes) (requestSignature account domain : string) : prog world (result gate_error (option string)) :=
  match parseSignatureFromRequest requestSignature with
  | Err e => Ret (Err e)
  | Ok offChainSig =>
    v <-- rpc (VerifyGNFD1EddsaSignature set_bytes mimc_verify coll account domain offChainSig msg) ;;
    Ret (match v with Err e => Err e | Ok _ => Ok (parseAccAddressFromHexUnsafe account) end)
  end.

(** ... and those of the second version. *)
Definition verify_gnfd2 (msg : bytes) (requestSignature account domain publicKey : string)
  : prog world (result gate_error (option string)) :=
  match parseSignatureFromRequest requestSignature with
  | Err e => Ret (Err e)
  | Ok offChainSig =>
    v <-- rpc (VerifyGNFD2EddsaSignature ed25519_verify coll account domain publicKey offChainSig msg) ;;
    Ret (match v with Err e => Err e | Ok _ => Ok (parseAccAddressFromHexUnsafe account) end)
  end.

Definition verifySignatureForGNFD1Eddsa r (requestSignature : string) : prog world (result gate_error (option string)) :=
  verify_gnfd1 (GetMsgToSignInGNFD1Auth r) requestSignature (header r GnfdUserAddressHeader)
    (header r GnfdOffChainAuthAppDomainHeader).
Definition verifySignatureForGNFD2Eddsa r (requestSignature : string) : prog world (result gate_error (option string)) :=
  verify_gnfd2 (GetMsgToSignInGNFD1Auth r) requestSignature (header r GnfdUserAddressHeader)
    (header r GnfdOffChainAuthAppDomainHeader) (header r GnfdOffChainAuthAppRegPublicKeyHeader).
Definition verifyGNFD1EddsaSignatureFromPreSignedURL r (authenticationStr account domain : string) :=
  verify_gnfd1 (GetMsgToSignInGNFD1AuthForPreSignedURL r) authenticationStr account domain.
Definition verifyGNFD2EddsaSignatureFromPreSignedURL r (authenticationStr account domain userPublicKey : string) :=
  verify_gnfd2 (GetMsgToSignInGNFD1AuthForPreSignedURL r) authenticationStr account domain userPublicKey.

Definition gnfd1EcdsaSignaturePrefix : string := Gnfd1Ecdsa names +:+ ",".
Definition gnfd1EddsaSignaturePrefix : string := Gnfd1Eddsa names +:+ ",".
Definition gnfd2EddsaSignaturePrefix : string := Gnfd2Eddsa names +:+ ",".
Definition personalSignSignaturePrefix : string := Gnfd1EthPersonalSign names +:+ ",".

(** A nil address prints as the empty string. *)
Definition printed (v : result gate_error (option string)) : result gate_error string :=
  match v with Err e => Err e | Ok a => Ok (default ""%string a) end.

(** The prefix of the second version is cut off by the length of the first one's, which is
    the same. *)
Definition VerifySignature r : prog world (result gate_error string) :=
  let requestSignature := header r GnfdAuthorizationHeader in
  if HasPrefix requestSignature gnfd1EcdsaSignaturePrefix
  then Ret (verifySignatureForGNFD1Ecdsa r (str_drop (String.length gnfd1EcdsaSignaturePrefix) requestSignature))
  else if HasPrefix requestSignature gnfd1EddsaSignaturePrefix
  then v <-- verifySignatureForGNFD1Eddsa r (str_drop (String.length gnfd1EddsaSignaturePrefix) requestSignature) ;; Ret (printed v)
  else if HasPrefix requestSignature gnfd2EddsaSignaturePrefix
  then v <-- verifySignatureForGNFD2Eddsa r (str_drop (String.length gnfd1EddsaSignaturePrefix) requestSignature) ;; Ret (printed v)
  else Ret (Err ErrUnsupportedSignType).

Definition claimAuthNonce (account nonce expiryStr : string) : prog world (option gate_error) :=
  if decide (nonce = ""%string) then Ret (if requireAuthNonce then Some ErrMissingAuthNonce else None) else
  if decide (String.length nonce <> 32%nat) then Ret (Some ErrInvalidAuthNonce) else
  match DecodeString nonce with
  | Err _ => Ret (Some ErrInvalidAuthNonce)
  | Ok decoded =>
    if decide (length decoded <> 16%nat) then Ret (Some ErrInvalidAuthNonce) else
    match time_Parse expiryStr with
    | None => Ret (Some ErrInvalidExpiryDateHeader)
    | Some expiry =>
      now <-- time_Now ;;
      if (expiry - now <=? 0) || (MaxExpiryAgeInSec names * Second <? expiry - now) then Ret (Some ErrInvalidExpiryDateHeader) else
      if negb has_db then Ret (Some ErrAuthNonceStore) else
      claimed <-- ClaimAuthNonce coll account nonce expiry ;;
      Ret (match claimed with
           | Err _ => Some ErrAuthNonceStore
           | Ok false => Some ErrReusedAuthRequest
           | Ok true => None
           end)
    end
  end.

Definition enforceSingleUse r (account : string) : prog world (option gate_error) :=
  claimAuthNonce account (header_or_query r (HTTPHeaderNonce names)) (header_or_query r (HTTPHeaderExpiryTimestamp names)).

Definition isAuthNonceRefusal (e : gate_error) : bool :=
  match e with ErrReusedAuthRequest | ErrMissingAuthNonce | ErrInvalidAuthNonce | ErrAuthNonceStore => true | _ => false end.

(** The account of the context, and the error of the authentication. *)
Definition NewRequestContext r : prog world (string * option gate_error) :=
  let account_id := vars r "account_id" in
  if decide (routerName r ∈ skipAuthRouterNames) then Ret (account_id, None) else
  e <-- CheckIfSigExpiry r ;;
  match e with
  | Some e => Ret (account_id, Some e)
  | None =>
    a <-- VerifySignature r ;;
    match a with
    | Err e => Ret (account_id, Some e)
    | Ok account =>
      e <-- enforceSingleUse r account ;;
      Ret (match e with Some e => (""%string, Some e) | None => (account, None) end)
    end
  end.

(** The account of a pre-signed URL, or an error. *)
Definition verifyPreSignedURL r (headerErr : gate_error) : prog world (result gate_error string) :=
  let user := url_query r GnfdUserAddressHeader in
  let domain := url_query r GnfdOffChainAuthAppDomainHeader in
  let expiry := url_query r (HTTPHeaderExpiryTimestamp names) in
  let publicKey := url_query r GnfdOffChainAuthAppRegPublicKeyHeader in
  let authorization := url_query r GnfdAuthorizationHeader in
  let first := HasPrefix authorization gnfd1EddsaSignaturePrefix in
  if negb first && negb (HasPrefix authorization gnfd2EddsaSignaturePrefix) then Ret (Err ErrUnsupportedSignType) else
  if decide (user = ""%string \/ domain = ""%string \/ expiry = ""%string) then Ret (Err headerErr) else
  if negb first && bool_decide (publicKey = ""%string) then Ret (Err headerErr) else
  v <-- (if first
         then verifyGNFD1EddsaSignatureFromPreSignedURL r (str_drop (String.length gnfd1EddsaSignaturePrefix) authorization) user domain
         else verifyGNFD2EddsaSignatureFromPreSignedURL r (str_drop (String.length gnfd2EddsaSignaturePrefix) authorization) user
                domain publicKey) ;;
  Ret (match v with Err e => Err e | Ok None => Err headerErr | Ok (Some account) => Ok account end).

(** verifyTaskSignature: [None] is a panic, an empty address nil. *)
Definition verifyTaskSignature (Keccak256 : bytes -> bytes) (secp256k1_VerifySignature : bytes -> bytes -> bytes -> bool)
  (taskMsgBytes taskSignature : bytes) : option (result gate_error (option string)) :=
  let msg := if decide (length taskMsgBytes <> 32%nat) then Keccak256 taskMsgBytes else taskMsgBytes in
  match RecoverAddr msg taskSignature with
  | None => Some (Err ErrSignature)
  | Some (addr, pk) =>
    if decide (taskSignature = []) then None else
    if negb (secp256k1_VerifySignature pk msg (take (length taskSignature - 1) taskSignature)) then Some (Ok None)
    else Some (Ok (Some addr))
  end.

(** ** The clean-up of nonces: a tick carries its time. *)

Definition cleanup_tick (expiredBefore : Z) : prog world unit := DeleteExpiredAuthNonces expiredBefore ;;; Ret tt.

(** ** Keys: auth_handler.go *)

Definition parseSignedMsgAndSigFromRequest (requestSignature : string) : result gate_error (string * string) :=
  let s := unescape requestSignature in
  let parts :=
    match strip_prefix (Signature +:+ "=") s with
    | Some rest =>
      match cut ("," +:+ SignedMsg +:+ "=") rest with
      | Some (signature, signedMsg) => if Contains signature "," then None else Some (signedMsg, signature)
      | None => None
      end
    | None =>
      match strip_prefix (SignedMsg +:+ "=") s with
      | Some value =>
        match cut_last ("," +:+ Signature +:+ "=") value with
        | Some (signedMsg, signature) => if Contains signature "," then None else Some (signedMsg, signature)
        | None => None
        end
      | None => None
      end
    end in
  match parts with
  | None => Err ErrAuthorizationHeaderFormat
  | Some (signedMsg, signature) =>
    if bool_decide (signedMsg = ""%string) || bool_decide (signature = ""%string)
       || Contains signedMsg ("," +:+ SignedMsg +:+ "=") || Contains signedMsg ("," +:+ Signature +:+ "=")
    then Err ErrAuthorizationHeaderFormat else Ok (signedMsg, signature)
  end.

(** hexutil.Decode and accounts.TextHash. *)
Context (hexutil_Decode : string -> option bytes) (TextHash : string -> bytes).

Definition SignatureLength : nat := 65.
Definition RecoveryIDOffset : nat := 64.

(** The recovery id may have 27 added. *)
Definition recovery_id (b : Byte.byte) : Byte.byte :=
  if (byte_val b =? 27) || (byte_val b =? 28) then byte_of (byte_val b - 27) else b.

Definition VerifyPersonalSignature (signedMsg sigString : string) : result gate_error string :=
  match hexutil_Decode sigString with
  | None => Err GateHex
  | Some signature =>
    if decide (length signature <> SignatureLength) then Err ErrSignature else
    match RecoverAddr (TextHash signedMsg) (alter recovery_id RecoveryIDOffset signature) with
    | None => Err ErrSignature
    | Some (addr, _) => Ok addr
    end
  end.

(** FindStringSubmatch of the templates, FindAllStringSubmatch of the providers in the first
    one, and the address of this provider. *)
Context (template template_v2 : string -> list string) (sps_of : string -> list (list string)) (OperatorAddress : string).

(** The loop over the providers: whether this one was found, or an error. *)
Fixpoint check_sps (expectedNonce : string) (found : bool) (l : list (list string)) : result gate_error bool :=
  match l with
  | [] => Ok found
  | m :: l =>
    match m with
    | _ :: spAddress :: _ :: spNonce :: _ =>
      if decide (spAddress = OperatorAddress)
      then if decide (expectedNonce <> spNonce) then Err ErrSignedMsgNotMatchSPNonce else check_sps expectedNonce true l
      else check_sps expectedNonce found l
    | _ => Err ErrSignedMsgNotMatchTemplate
    end
  end.

(** The comparison of the fields of the message with the headers. *)
Definition check_fields (m : list string) (domain publicKey expiryDate : string) : option gate_error :=
  if decide (default "" (m !! 1%nat) <> domain) then Some ErrSignedMsgNotMatchDomain
  else if decide (default "" (m !! 3%nat) <> publicKey) then Some ErrSignedMsgNotMatchPubKey
  else if decide (default "" (m !! 8%nat) <> expiryDate) then Some ErrSignedMsgNotMatchExpiry else None.

Definition verifySignedContent (signedContent domain nonce publicKey expiryDate : string) : option gate_error :=
  let m := template signedContent in
  if decide (length m < 10)%nat then Some ErrSignedMsgNotMatchTemplate else
  match check_sps nonce false (sps_of (default "" (m !! 9%nat))) with
  | Err e => Some e
  | Ok false => Some ErrSignedMsgNotMatchSPAddr
  | Ok true => check_fields m domain publicKey expiryDate
  end.

Definition verifySignedContentV2 (signedContent domain publicKey expiryDate : string) : option gate_error :=
  let m := template_v2 signedContent in
  if decide (length m < 9)%nat then Some ErrSignedMsgNotMatchTemplate else check_fields m domain publicKey expiryDate.

(** util.StringToInt32 *)
Definition StringToInt32 (s : string) : option Z :=
  match ParseInt s 64 with
  | Err _ => None
  | Ok i64 => if MaxInt32 <? i64 then None else Some (swrap 32 i64)
  end.

(** The signer of the message of a registration. *)
Definition personal_signer r : result gate_error (string * string) :=
  match strip_prefix personalSignSignaturePrefix (header r GnfdAuthorizationHeader) with
  | None => Err ErrUnsupportedSignType
  | Some rest =>
    match parseSignedMsgAndSigFromRequest rest with
    | Err e => Err e
    | Ok (signedMsg, sigString) =>
      match VerifyPersonalSignature signedMsg sigString with Err e => Err e | Ok account => Ok (signedMsg, account) end
    end
  end.

Definition updateUserPublicKeyHandler r : prog world (result gate_error bool) :=
  NewRequestContext r ;;;
  match personal_signer r with
  | Err e => Ret (Err e)
  | Ok (signedMsg, account) =>
    let domain := header r GnfdOffChainAuthAppDomainHeader in
    let nonce := header r GnfdOffChainAuthAppRegNonceHeader in
    let userPublicKey := header r GnfdOffChainAuthAppRegPublicKeyHeader in
    let expiryDateStr := header r (HTTPHeaderExpiryTimestamp names) in
    if decide (domain = ""%string \/ domain <> header r "Origin") then Ret (Err ErrInvalidDomainHeader) else
    if decide (userPublicKey = ""%string \/ String.length userPublicKey <> ExpectedEddsaPubKeyLength)
    then Ret (Err ErrInvalidPublicKeyHeader) else
    k <-- rpc (GetAuthNonce coll account domain) ;;
    match k with
    | Err e => Ret (Err e)
    | Ok key =>
      match StringToInt32 nonce with
      | None => Ret (Err ErrInvalidRegNonceHeader)
      | Some nonceInt =>
        if negb (k_NextNonce key =? nonceInt) then Ret (Err ErrInvalidRegNonceHeader) else
        match time_Parse expiryDateStr with
        | None => Ret (Err ErrInvalidExpiryDateHeader)
        | Some expiryDate =>
          now <-- time_Now ;;
          if negb (age_ok expiryDate now) then Ret (Err ErrInvalidExpiryDateHeader) else
          match verifySignedContent signedMsg domain nonce userPublicKey expiryDateStr with
          | Some e => Ret (Err e)
          | None => rpc (UpdateUserPublicKey coll account domain (k_CurrentNonce key) nonceInt userPublicKey (UnixMilli expiryDate))
          end
        end
      end
    end
  end.

Definition updateUserPublicKeyV2Handler r : prog world (result gate_error bool) :=
  NewRequestContext r ;;;
  match personal_signer r with
  | Err e => Ret (Err e)
  | Ok (signedMsg, account) =>
    let domain := header r GnfdOffChainAuthAppDomainHeader in
    let userPublicKey := header r GnfdOffChainAuthAppRegPublicKeyHeader in
    let expiryDateStr := header r (HTTPHeaderExpiryTimestamp names) in
    if decide (domain = ""%string \/ domain <> header r "Origin") then Ret (Err ErrInvalidDomainHeader) else
    if decide (userPublicKey = ""%string \/ String.length userPublicKey <> ExpectedEddsaPubKeyLength)
    then Ret (Err ErrInvalidPublicKeyHeader) else
    match time_Parse expiryDateStr with
    | None => Ret (Err ErrInvalidExpiryDateHeader)
    | Some expiryDate =>
      now <-- time_Now ;;
      if negb (age_ok expiryDate now) then Ret (Err ErrInvalidExpiryDateHeader) else
      match verifySignedContentV2 signedMsg domain userPublicKey expiryDateStr with
      | Some e => Ret (Err e)
      | None => rpc (UpdateUserPublicKeyV2 coll account domain userPublicKey (UnixMilli expiryDate))
      end
    end
  end.

(** common.IsHexAddress, common.HexToAddress. *)
Context (IsHexAddress : string -> bool) (HexToAddress : string -> bytes).

(** The nonces, the key and its expiry. *)
Definition requestNonceHandler r : prog world (result gate_error (Z * Z * string * Z)) :=
  NewRequestContext r ;;;
  let account := header r GnfdUserAddressHeader in
  let domain := header r GnfdOffChainAuthAppDomainHeader in
  if negb (IsHexAddress account) then Ret (Err ErrInvalidHeader) else
  if decide (domain = ""%string) then Ret (Err ErrInvalidDomainHeader) else
  k <-- rpc (GetAuthNonce coll account domain) ;;
  Ret (match k with
       | Err e => Err e
       | Ok key => Ok (k_CurrentNonce key, k_NextNonce key, k_CurrentPublicKey key, UnixMilli (k_ExpiryDate key))
       end).

(** The account of the header, which must be the one that signed. *)
Definition own_account r (k : string -> prog world (result gate_error (list string + bool)))
  : prog world (result gate_error (list string + bool)) :=
  c <-- NewRequestContext r ;;
  match c with
  | (_, Some e) => Ret (Err e)
  | (signer, None) =>
    let account := header r GnfdUserAddressHeader in
    if negb (IsHexAddress account) then Ret (Err ErrInvalidHeader) else
    if decide (HexToAddress account <> HexToAddress signer) then Ret (Err ErrNoPermission) else k account
  end.

Definition listUserPublicKeyV2Handler (scan : list OffChainAuthKeyV2Table -> list OffChainAuthKeyV2Table) r
  : prog world (result gate_error (list string + bool)) :=
  own_account r (fun account =>
    let domain := header r GnfdOffChainAuthAppDomainHeader in
    if decide (domain = ""%string) then Ret (Err ErrInvalidDomainHeader) else
    v <-- rpc (ListAuthKeysV2 coll scan account domain) ;;
    Ret (match v with Err e => Err e | Ok l => Ok (inl l) end)).

Definition deleteUserPublicKeyV2Handler r : prog world (result gate_error (list string + bool)) :=
  own_account r (fun account =>
    match body r with
    | None => Ret (Err ErrExceptionStream)
    | Some data =>
      if decide (MaxAuthKeyListBodySize < String.length data)%nat then Ret (Err ErrRequestBodyTooLarge) else
      let domain := header r GnfdOffChainAuthAppDomainHeader in
      if decide (domain = ""%string) then Ret (Err ErrInvalidDomainHeader) else
      v <-- rpc (DeleteAuthKeysV2 coll account domain (Split data ","%char)) ;;
      Ret (match v with Err e => Err e | Ok b => Ok (inr b) end)
    end).

(** ** The authorisation of getObjectHandler *)

(** CheckValidBucketName, CheckValidObjectName, EqualFold; the answers of the chain and of the
    metadata service during the request, and the id that the authenticator has cached. *)
Context (valid_bucket valid_object : string -> bool) (fold : string -> string) (c : consensus) (spID : Z).

(** An answer over a connection. *)
Definition over_connection {A} (a : result gate_error A) : prog world (result gate_error A) :=
  f <-- connection ;;
  Ret (match f with Committed => a | _ => Err GateRpc end).

Definition verify_authentication (authType : AuthOpType) (account bucket object : string) : result gate_error bool :=
  match VerifyAuthentication acc_address fold c authType account bucket object spID with
  | None => Err GateRpc
  | Some (_, Err e) => Err (GateAuth e)
  | Some (_, Ok b) => Ok b
  end.

(** The account and the pre-signed URL's verdict: the header's error is replaced. *)
Definition url_account r (ctx : string * option gate_error) : prog world (result gate_error (string * option gate_error)) :=
  match ctx with
  | (account, None) => Ret (Ok (account, None))
  | (account, Some headerErr) =>
    u <-- verifyPreSignedURL r headerErr ;;
    match u with
    | Err e => Ret (Ok (account, Some e))
    | Ok account =>
      let nonce := url_query r (HTTPHeaderNonce names) in
      if decide (nonce = ""%string) then Ret (Ok (account, None)) else
      e <-- claimAuthNonce account nonce (url_query r (HTTPHeaderExpiryTimestamp names)) ;;
      Ret (match e with Some e => Err e | None => Ok (account, None) end)
    end
  end.

(** Whether the download may begin: the account in whose name, [None] for everybody. *)
Definition getObject_authorise r : prog world (result gate_error (option string)) :=
  ctx <-- NewRequestContext r ;;
  match (match ctx.2 with Some e => if isAuthNonceRefusal e then Some e else None | None => None end) with
  | Some e => Ret (Err e)
  | None =>
  let bucket := vars r "bucket" in
  let object := vars r "object" in
  if negb (valid_bucket bucket) || negb (valid_object object) then Ret (Err ErrInvalidQuery) else
  u <-- url_account r ctx ;;
  match u with
  | Err e => Ret (Err e)
  | Ok (account, err) =>
    p <-- over_connection (match VerifyPermission c "" bucket object ACTION_GET_OBJECT with
                           | Err e => Err (GateAnswer e) | Ok e => Ok e end) ;;
    match p with
    | Err e => Ret (Err e)
    | Ok EFFECT_ALLOW => Ret (Ok None)
    | Ok _ =>
      match err with
      | Some e => Ret (Err e)
      | None =>
        b <-- over_connection (verify_authentication AuthOpTypeGetObject account bucket object) ;;
        Ret (match b with
             | Err e => Err e
             | Ok false => Err ErrNoPermission
             | Ok true => Ok (Some account)
             end)
      end
    end
  end
  end.
End gateway.
