(* ===== verification/AuthProps.v ===== *)
(** Properties of the authentication of requests: a signed request with a nonce is used once,
    whoever else is served at the same time; and what it takes to download an object, from
    the headers of the request down to the policies. *)
From Stdlib Require Import ZArith Lia String Ascii.
From stdpp Require Import base gmap list strings option relations.
From S2P Require Import Prelude Proc Sql Strconv Checksum Hex Policy PolicyProps AuthDb Authenticator RequestAuth.

Local Open Scope Z_scope.
Local Open Scope prog_scope.

(** ** Nonces are used once *)

(** The clock does not go back. *)
Definition later (w w' : world) : Prop := clock w <= clock w'.
#[export] Instance later_preorder : PreOrder later.
Proof. split; unfold later; [intros w|intros w1 w2 w3]; lia. Qed.

(** Of two claims of a key that were accepted, the first had expired when the second was. *)
Definition claims_apart (l : list claim) : Prop :=
  forall l1 x l2 y l3, l = l1 ++ x :: l2 ++ y :: l3 -> c_key x = c_key y -> c_expiresAt y < c_at x.

(** A claim holds its key until it expires. *)
Definition claim_held (w : world) (x : claim) : Prop :=
  (exists v, auth_nonces (tabs w) !! c_key x = Some v /\ c_expiresAt x <= v) \/ c_expiresAt x < Unix (clock w).

Definition nonces_ok (w : world) : Prop := claims_apart (claims w) /\ Forall (claim_held w) (claims w).

(** A step that does not touch the nonces. *)
Definition quiet (w w' : world) : Prop :=
  clock w <= clock w' /\ auth_nonces (tabs w') = auth_nonces (tabs w) /\ claims w' = claims w.

Lemma Unix_mono a b : a <= b -> Unix a <= Unix b.
Proof. intros H. unfold Unix, Second. apply Z.div_le_mono; lia. Qed.

Lemma claim_held_later w w' x : clock w <= clock w' -> auth_nonces (tabs w') = auth_nonces (tabs w) -> claim_held w x -> claim_held w' x.
Proof. intros Hc%Unix_mono Hn [H|H]; [left; by rewrite Hn|right; lia]. Qed.

Lemma quiet_ok w w' : quiet w w' -> nonces_ok w -> nonces_ok w'.
Proof.
  intros (Hc & Hn & Hl) [Ha Hh]. unfold nonces_ok. rewrite Hl. split; [done|].
  eapply Forall_impl; [exact Hh|]. intros x. by apply claim_held_later.
Qed.

(** [p] keeps the invariant whatever it has seen. *)
Definition safe {A} (p : prog world A) : Prop := forall w0, wps later nonces_ok p w0 (fun _ _ => True).

Lemma safe_ret {A} (a : A) : safe (Ret a).
Proof. by intros w0. Qed.
Lemma safe_bind {A B} (p : prog world A) (f : A -> prog world B) : safe p -> (forall a, safe (f a)) -> safe (pbind p f).
Proof. intros Hp Hf w0. eapply wps_use; [apply _|apply Hp|]. intros a w _ _. apply Hf. Qed.
Lemma safe_act {B} (f : world -> world * B) : (forall w, quiet w (f w).1) -> safe (act f).
Proof.
  intros Hf w0. apply wps_act. intros w _ HI. specialize (Hf w). split_and!; [by eapply quiet_ok|apply Hf|done].
Qed.

Lemma safe_now : safe time_Now.
Proof. apply safe_act. intros w. split; cbn; [lia|done]. Qed.
Lemma safe_query {A} (q : tables -> A) : safe (query q).
Proof. apply safe_act. intros w. split; cbn; [lia|done]. Qed.
Lemma safe_connection : safe connection.
Proof. apply safe_act. intros w. split; cbn; [lia|done]. Qed.

(** A transaction on the keys. *)
Lemma transaction_quiet {E A} (lost : E) f (stmt : tables -> result E (tables * A)) t :
  (forall t t' a, stmt t = Ok (t', a) -> auth_nonces t' = auth_nonces t) ->
  auth_nonces (transaction lost f stmt t).1 = auth_nonces t.
Proof. intros H. destruct (transaction_all_or_nothing lost f stmt t) as [->|(t' & a & Es & ->)]; [done|by eapply H]. Qed.

Lemma safe_stmt {E A} (lost : E) (stmt : tables -> result E (tables * A)) :
  (forall t t' a, stmt t = Ok (t', a) -> auth_nonces t' = auth_nonces t) ->
  safe (act (fun w => let '(t, r) := transaction lost (fates w (calls w)) stmt (tabs w) in (set_tabs t w, r))).
Proof.
  intros H. apply safe_act. intros w. pose proof (transaction_quiet lost (fates w (calls w)) stmt (tabs w) H) as Hq.
  destruct (transaction _ _ _ _) as [t r]. split; cbn; [lia|done].
Qed.

Lemma safe_exec {A} (stmt : tables -> result sql_error (tables * A)) :
  (forall t t' a, stmt t = Ok (t', a) -> auth_nonces t' = auth_nonces t) -> safe (exec stmt).
Proof. apply safe_stmt. Qed.

Create HintDb auth_safe.
#[export] Hint Resolve safe_ret safe_now safe_query safe_connection : auth_safe.

(** Walk through a program. *)
Ltac safe_steps :=
  repeat match goal with
  | |- safe (pbind _ _) => apply safe_bind; [|intros ?]
  | |- safe (match ?x with _ => _ end) => destruct x
  | |- safe (if ?b then _ else _) => destruct b
  | |- safe (let _ := _ in _) => cbv zeta
  end; try by auto with auth_safe.

Section claims.
Context (coll : string -> string).

(** The statement of a claim, whose clock was read before. *)
Lemma claim_stmt_ok key expiresAt now w :
  nonces_ok w -> now <= clock w ->
  nonces_ok (claim_stmt coll key expiresAt (Unix now) w).1 /\ later w (claim_stmt coll key expiresAt (Unix now) w).1.
Proof.
  intros [Ha Hh] Hnow%Unix_mono. unfold claim_stmt, exec_stmt. set (stmt := upsert_nonce _ _ _ _).
  assert (forall t' n, stmt (tabs w) = Ok (t', n) -> (0 <? n) = false -> auth_nonces t' = auth_nonces (tabs w)) as Hsame.
  { intros t' n. unfold stmt, upsert_nonce. destruct (auth_nonces (tabs w) !! coll key) as [old|] eqn:E; intros [= <- <-]; [|done].
    destruct (Z.eqb_spec (if old <? Unix now then expiresAt else old) old) as [Eo|]; [|done]. intros _. cbn.
    rewrite Eo. by apply insert_id. }
  assert (forall t' n x, stmt (tabs w) = Ok (t', n) -> claim_held w x ->
    (exists v, auth_nonces t' !! c_key x = Some v /\ c_expiresAt x <= v) \/ c_expiresAt x < Unix (clock w)) as Hheld.
  { intros t' n x Es [(v & Hv & Hx)|]; [|by right]. revert Es. unfold stmt, upsert_nonce.
    destruct (decide (c_key x = coll key)) as [Ek|Ek].
    - rewrite <-Ek, Hv. destruct (Z.ltb_spec v (Unix now)); intros [= <- _]; cbn; [right; lia|].
      left. exists v. by rewrite lookup_insert_eq.
    - destruct (auth_nonces (tabs w) !! coll key); intros [= <- _]; cbn; left; exists v; by rewrite lookup_insert_ne. }
  destruct (transaction ErrConnection (fates w (calls w)) stmt (tabs w)) as [t r] eqn:Et.
  assert (t = tabs w \/ exists n, stmt (tabs w) = Ok (t, n)) as Ht.
  { pose proof (transaction_all_or_nothing ErrConnection (fates w (calls w)) stmt (tabs w)) as H. rewrite Et in H.
    destruct H as [?|(t' & n & ? & E)]; [by left|]. right. exists n. cbn in E. by subst. }
  assert (Forall (fun x => (exists v, auth_nonces t !! c_key x = Some v /\ c_expiresAt x <= v) \/ c_expiresAt x < Unix (clock w)) (claims w))
    as Hall. { eapply Forall_impl; [exact Hh|]. intros x Hx. destruct Ht as [->|[n Hn]]; [done|by eapply Hheld]. }
  destruct r as [n|e]; [|split; [by split|by unfold later]].
  destruct (0 <? n) eqn:En; [|split; [by split|by unfold later]]. cbn. split; [|by unfold later].
  apply transaction_ok in Et as [_ Es]. split; cbn [claims tabs clock].
  - intros l1 x l2 y l3 El Ek. destruct l1 as [|z l1]; injection El as <- El; [|by eapply Ha].
    assert (claim_held w y) as Hy. { eapply Forall_forall; [exact Hh|]. rewrite El. apply elem_of_app. right. by left. }
    cbn in Ek |- *. destruct Hy as [(v & Hv & Hx)|]; [|done]. revert Es. unfold stmt, upsert_nonce. rewrite Ek, Hv.
    destruct (Z.ltb_spec v (Unix now)); [intros _; lia|]. rewrite Z.eqb_refl. by intros [= _ <-].
  - constructor; [|exact Hall]. left. exists expiresAt. split; [|done]. cbn [c_key c_expiresAt tabs]. revert Es. unfold stmt, upsert_nonce.
    destruct (auth_nonces (tabs w) !! coll key) as [old|]; intros [= <- <-]; cbn; [|by rewrite lookup_insert_eq].
    destruct (old <? Unix now); [by rewrite lookup_insert_eq|]. by rewrite Z.eqb_refl in En.
Qed.

Lemma safe_ClaimAuthNonce account nonce expiresAt : safe (ClaimAuthNonce coll account nonce expiresAt).
Proof.
  intros w0. unfold ClaimAuthNonce. eapply (wps_use later nonces_ok _ _ _ (fun now w => now <= clock w)).
  { apply wps_act. intros w _ HI. split_and!; [done|by unfold later|by cbn]. }
  intros now w1 _ Hnow. eapply (wps_use later nonces_ok _ _ _ (fun _ _ => True)); [|done].
  apply wps_act. intros w Hw HI. destruct (claim_stmt_ok (nonce_key account nonce) (Unix expiresAt) now w HI) as [H1 H2].
  { unfold later in Hw. lia. }
  done.
Qed.
End claims.

(** *** Everything that is served *)

Section serving.
Context (names : commonhttp) (time_Parse : string -> option Z)
  (GetMsg GetMsgURL : request -> bytes)
  (RecoverAddr : bytes -> bytes -> option (string * bytes)) (acc_address : string -> option string)
  (set_bytes : bytes -> option Z) (mimc_verify : bytes -> bytes -> bytes -> option bool)
  (ed25519_verify : bytes -> bytes -> bytes -> bool) (coll : string -> string) (int32_overflow : Z -> Z)
  (hexutil_Decode : string -> option bytes) (TextHash : string -> bytes) (template template_v2 : string -> list string)
  (sps_of : string -> list (list string)) (OperatorAddress : string) (IsHexAddress : string -> bool) (HexToAddress : string -> bytes)
  (valid_bucket valid_object : string -> bool) (fold : string -> string).

Local Abbreviation new_context := (NewRequestContext names time_Parse GetMsg RecoverAddr acc_address set_bytes mimc_verify ed25519_verify coll
  int32_overflow).

(** The requests that authenticate in one way or the other, and the clean-ups; each gateway
    has its own configuration, each request its own answers of the chain. *)
Inductive served (w : world) : prog world unit -> Prop :=
| serve_request require has_db r : served w (new_context require has_db r ;;; Ret tt)
| serve_get_object require has_db c spID r :
    served w (getObject_authorise names time_Parse GetMsg GetMsgURL RecoverAddr acc_address set_bytes mimc_verify ed25519_verify coll
      int32_overflow require has_db valid_bucket valid_object fold c spID r ;;; Ret tt)
| serve_nonce require has_db r :
    served w (requestNonceHandler names time_Parse GetMsg RecoverAddr acc_address set_bytes mimc_verify ed25519_verify coll
      int32_overflow require has_db IsHexAddress r ;;; Ret tt)
| serve_update require has_db r :
    served w (updateUserPublicKeyHandler names time_Parse GetMsg RecoverAddr acc_address set_bytes mimc_verify ed25519_verify coll
      int32_overflow require has_db hexutil_Decode TextHash template sps_of OperatorAddress r ;;; Ret tt)
| serve_update_v2 require has_db r :
    served w (updateUserPublicKeyV2Handler names time_Parse GetMsg RecoverAddr acc_address set_bytes mimc_verify ed25519_verify coll
      int32_overflow require has_db hexutil_Decode TextHash template_v2 r ;;; Ret tt)
| serve_list require has_db scan r :
    served w (listUserPublicKeyV2Handler names time_Parse GetMsg RecoverAddr acc_address set_bytes mimc_verify ed25519_verify coll
      int32_overflow require has_db IsHexAddress HexToAddress scan r ;;; Ret tt)
| serve_delete require has_db r :
    served w (deleteUserPublicKeyV2Handler names time_Parse GetMsg RecoverAddr acc_address set_bytes mimc_verify ed25519_verify coll
      int32_overflow require has_db IsHexAddress HexToAddress r ;;; Ret tt)
| serve_clear : served w (ClearExpiredOffChainAuthKeys ;;; Ret tt)
| serve_tick expiredBefore : expiredBefore <= clock w -> served w (cleanup_tick expiredBefore).

(** Time passes, and something begins. *)
Definition begins (w w' : world) (p : prog world unit) : Prop :=
  clock w <= clock w' /\ tabs w' = tabs w /\ claims w' = claims w /\ served w' p.

Lemma safe_rpc {A} (p : prog world (result auth_error A)) : safe p -> safe (rpc p).
Proof. intros Hp. unfold rpc. safe_steps. Qed.

Lemma safe_GetAuthNonce account domain : safe (GetAuthNonce coll account domain).
Proof. unfold GetAuthNonce, GetAuthKey. safe_steps. Qed.

Lemma safe_has_passed t : safe (has_passed t).
Proof. unfold has_passed. safe_steps. Qed.

Hint Resolve safe_GetAuthNonce safe_has_passed safe_rpc : auth_safe.

Lemma safe_verify1 account domain sig msg : safe (VerifyGNFD1EddsaSignature set_bytes mimc_verify coll account domain sig msg).
Proof. unfold VerifyGNFD1EddsaSignature. safe_steps. Qed.

Lemma safe_verify2 account domain key sig msg : safe (VerifyGNFD2EddsaSignature ed25519_verify coll account domain key sig msg).
Proof. unfold VerifyGNFD2EddsaSignature, GetAuthKeyV2, AuthDb.GetAuthKeyV2. safe_steps. Qed.

Lemma safe_gnfd1 msg s account domain : safe (verify_gnfd1 acc_address set_bytes mimc_verify coll msg s account domain).
Proof. unfold verify_gnfd1. safe_steps. apply safe_rpc, safe_verify1. Qed.
Lemma safe_gnfd2 msg s account domain key : safe (verify_gnfd2 acc_address ed25519_verify coll msg s account domain key).
Proof. unfold verify_gnfd2. safe_steps. apply safe_rpc, safe_verify2. Qed.

Lemma safe_claimAuthNonce require has_db account nonce expiry :
  safe (claimAuthNonce names time_Parse coll require has_db account nonce expiry).
Proof. unfold claimAuthNonce. safe_steps. apply safe_ClaimAuthNonce. Qed.

Hint Resolve safe_gnfd1 safe_gnfd2 safe_claimAuthNonce : auth_safe.

Lemma safe_VerifySignature r :
  safe (VerifySignature names GetMsg RecoverAddr acc_address set_bytes mimc_verify ed25519_verify coll r).
Proof. unfold VerifySignature, verifySignatureForGNFD1Eddsa, verifySignatureForGNFD2Eddsa. safe_steps. Qed.

Lemma safe_new_context require has_db r : safe (new_context require has_db r).
Proof.
  unfold NewRequestContext, CheckIfSigExpiry, enforceSingleUse. pose proof (safe_VerifySignature r). safe_steps.
Qed.

Hint Resolve safe_new_context : auth_safe.

Lemma safe_presigned r e :
  safe (verifyPreSignedURL names GetMsgURL acc_address set_bytes mimc_verify ed25519_verify coll r e).
Proof.
  unfold verifyPreSignedURL, verifyGNFD1EddsaSignatureFromPreSignedURL, verifyGNFD2EddsaSignatureFromPreSignedURL. safe_steps.
Qed.

Lemma safe_update_key account domain n n' key expiry : safe (UpdateUserPublicKey coll account domain n n' key expiry).
Proof.
  unfold UpdateUserPublicKey, UpdateAuthKey. safe_steps. apply safe_stmt. intros t t' [] Hw. revert Hw.
  unfold write_key, create_key, update_key. repeat (case_match; simplify_eq/=; try done); by intros [= <-].
Qed.

Lemma safe_update_key_v2 account domain key expiry : safe (UpdateUserPublicKeyV2 coll account domain key expiry).
Proof. unfold UpdateUserPublicKeyV2, InsertAuthKeyV2. safe_steps. apply safe_exec. by intros ? ? ? [= <- _]. Qed.

Lemma safe_delete_keys account domain keys : safe (Authenticator.DeleteAuthKeysV2 coll account domain keys).
Proof. unfold Authenticator.DeleteAuthKeysV2, AuthDb.DeleteAuthKeysV2. safe_steps. apply safe_exec. by intros ? ? ? [= <- _]. Qed.

Lemma safe_list_keys scan account domain : safe (Authenticator.ListAuthKeysV2 coll scan account domain).
Proof. unfold Authenticator.ListAuthKeysV2, AuthDb.ListAuthKeysV2. safe_steps. Qed.

Hint Resolve safe_presigned safe_update_key safe_update_key_v2 safe_delete_keys safe_list_keys : auth_safe.

(** What a clean-up deletes has expired. *)
Lemma tick_safe w before : before <= clock w -> wps later nonces_ok (cleanup_tick before) w (fun _ _ => True).
Proof.
  intros Hb. unfold cleanup_tick, DeleteExpiredAuthNonces, exec. apply wps_bind, wps_bind, wps_act. intros w1 Hw [Ha Hh].
  unfold exec_stmt. destruct (transaction _ _ _ _) as [t rr] eqn:Et. split_and!; [|by unfold later|done]. split; [done|].
  eapply Forall_impl; [exact Hh|]. intros x [(v & Hv & Hx)|]; [|by right].
  match type of Et with transaction ?l ?f ?s ?t0 = _ => pose proof (transaction_all_or_nothing l f s t0) as H end.
  rewrite Et in H. cbn in H. destruct H as [->|(t' & a & [= <- <-] & ->)]; [left; by exists v|].
  destruct (Z.ltb_spec v (Unix before)) as [Hlt|Hge].
  - right. cbn. unfold later in Hw. pose proof (Unix_mono before (clock w1)). lia.
  - left. exists v. split; [|done]. apply map_lookup_filter_Some. split; [done|]. cbn.
    destruct (Z.ltb_spec v (Unix before)); [lia|done].
Qed.

Lemma served_safe w p : served w p -> wps later nonces_ok p w (fun _ _ => True).
Proof.
  intros Hs. destruct Hs as [| | | | | | | |before Hb]; [..|by apply tick_safe]; revert w;
    unfold getObject_authorise, url_account, over_connection, requestNonceHandler, updateUserPublicKeyHandler,
      updateUserPublicKeyV2Handler, listUserPublicKeyV2Handler, deleteUserPublicKeyV2Handler, own_account, ClearExpiredOffChainAuthKeys;
    match goal with |- forall w, wps _ _ ?p w _ => change (safe p) end; safe_steps.
  apply safe_exec. by intros ? ? ? [= <- _].
Qed.

(** C3: However requests, registrations of keys and clean-ups interleave, and whatever fails
    on the way, a nonce that was accepted for an account is accepted again only after it has
    expired. *)
Theorem nonce_used_once w0 w ps :
  claims w0 = [] -> psteps begins (w0, []) (w, ps) -> claims_apart (claims w).
Proof.
  intros H0 Hs. assert (nonces_ok w) as [? _]; [|done].
  eapply (wps_invariant later nonces_ok begins w0 [] w ps); [|split; rewrite H0; [|done]|done|done].
  - intros v v' p HI (Hc & Ht & Hl & Hp). split_and!; [|done|by apply served_safe].
    eapply quiet_ok; [|done]. split_and!; [done|by rewrite Ht|done].
  - intros l1 x l2 y l3 E. by destruct l1.
Qed.
End serving.

(** ** Who may download *)

(** The answers of the chain and of the metadata service that let [account] get an object:
    all queries are answered, the bucket is not rate limited, this provider is its primary
    one, the object is created or sealed, the payment account is active, and the permission
    is ALLOW. *)
Definition get_object_allowed (c : consensus) (account bucket object : string) (spID : Z) : Prop :=
  exists bucketInfo objectInfo,
    QueryBucketInfoAndObjectInfo c bucket object = (bucketInfo, objectInfo, None) /\
    (exists limited, QueryBucketExtraInfo c bucket = Ok limited /\ limited <> Some true) /\
    (exists id, (getSPID c spID).2 = Ok id /\ GetBucketPrimarySPID c bucketInfo = Ok id) /\
    (object_status objectInfo = OBJECT_STATUS_SEALED \/ object_status objectInfo = OBJECT_STATUS_CREATED) /\
    QueryPaymentStreamRecord c (match bucketInfo with Some b => bi_PaymentAddress b | None => "" end) = Ok (Some true) /\
    VerifyPermission c account bucket object ACTION_GET_OBJECT = Ok EFFECT_ALLOW.

Lemma verify_get_object_exact c account bucket object spID :
  (exists id, verify_get_object c account bucket object spID = Some (id, Ok true)) <->
  get_object_allowed c account bucket object spID.
Proof.
  unfold verify_get_object, get_object_allowed, with_objects, with_spid, with_primary, permitted. split.
  - intros [id H]. destruct (QueryBucketInfoAndObjectInfo c bucket object) as [[b o] [?|]]; [done|].
    destruct (QueryBucketExtraInfo c bucket) as [limited|?] eqn:El; [|done].
    destruct (getSPID c spID) as [id0 [id1|?]] eqn:Eid; [|by destruct limited as [[]|]].
    destruct (GetBucketPrimarySPID c b) as [id2|?] eqn:Ep; [|by destruct limited as [[]|]].
    assert (limited <> Some true) as Hl by (intros ->; done).
    assert (id2 = id1 /\ ~ (object_status o <> OBJECT_STATUS_SEALED /\ object_status o <> OBJECT_STATUS_CREATED) /\
      QueryPaymentStreamRecord c (match b with Some b => bi_PaymentAddress b | None => "" end) = Ok (Some true) /\
      VerifyPermission c account bucket object ACTION_GET_OBJECT = Ok EFFECT_ALLOW) as (-> & Ho & Hp & Hv).
    { destruct limited as [[]|]; [done|..]; destruct (Z.eqb_spec id2 id1); cbn in H; [|done|..|done]; case_decide; try done;
        destruct (QueryPaymentStreamRecord c _) as [[[]|]|]; cbn in H; try done;
        destruct (VerifyPermission _ _ _ _ _) as [?|?]; try done; case_bool_decide; try done; subst; done. }
    exists b, o. split_and!; [done|by exists limited|by exists id1| |done|done].
    destruct (decide (object_status o = OBJECT_STATUS_SEALED)); [by left|].
    destruct (decide (object_status o = OBJECT_STATUS_CREATED)); [by right|]. tauto.
  - intros (b & o & -> & (limited & -> & Hl) & (id & Eid & Ep) & Ho & Hp & Hv).
    destruct (getSPID c spID) as [id0 r] eqn:Eg. cbn in Eid. subst r. rewrite Ep, Z.eqb_refl, Hp, Hv. cbn.
    rewrite decide_False by (destruct Ho as [->| ->]; tauto). exists id. destruct limited as [[]|]; [done|..]; by rewrite bool_decide_true.
Qed.

Theorem get_object_exact acc_address fold c account bucket object spID :
  (exists id, VerifyAuthentication acc_address fold c AuthOpTypeGetObject account bucket object spID = Some (id, Ok true)) <->
  is_Some (acc_address account) /\ get_object_allowed c account bucket object spID.
Proof.
  rewrite <-verify_get_object_exact. unfold VerifyAuthentication. destruct (acc_address account).
  - split; [by intros; split|by intros []].
  - split; [by intros [id H]|by intros [[? [=]] _]].
Qed.

(** *** The account of a request *)

Section download.
Context (names : commonhttp) (time_Parse : string -> option Z)
  (GetMsg GetMsgURL : request -> bytes)
  (RecoverAddr : bytes -> bytes -> option (string * bytes)) (acc_address : string -> option string)
  (set_bytes : bytes -> option Z) (mimc_verify : bytes -> bytes -> bytes -> option bool)
  (ed25519_verify : bytes -> bytes -> bytes -> bool) (coll : string -> string) (int32_overflow : Z -> Z) (require has_db : bool)
  (valid_bucket valid_object : string -> bool) (fold : string -> string) (c : consensus) (spID : Z).
(** An empty key does not parse. *)
Context (Hempty : set_bytes [] <> Some 32).

Local Abbreviation new_context := (NewRequestContext names time_Parse GetMsg RecoverAddr acc_address set_bytes mimc_verify ed25519_verify coll
  int32_overflow require has_db).
Local Abbreviation authorise := (getObject_authorise names time_Parse GetMsg GetMsgURL RecoverAddr acc_address set_bytes mimc_verify
  ed25519_verify coll int32_overflow require has_db valid_bucket valid_object fold c spID).

(** A key of the first version that is registered for the user and the domain in the world
    [w], that has not expired, and that verifies [sig]. *)
Definition key_verifies (w : world) (user domain : string) (sig msg : bytes) : Prop :=
  exists row, auth_keys (tabs w) !! auth_key_id coll user domain = Some row /\ clock w <= k_ExpiryDate row /\
    VerifyEddsaSignature set_bytes mimc_verify (k_CurrentPublicKey row) sig msg = None.
Definition key_v2_verifies (w : world) (user domain publicKey : string) (sig msg : bytes) : Prop :=
  exists row, auth_keys_v2 (tabs w) !! auth_key_v2_id coll user domain publicKey = Some row /\ clock w <= k2_ExpiryDate row /\
    VerifyEddsaSignatureV2 ed25519_verify (k2_PublicKey row) sig msg = None.

(** The account has signed the message: it is recovered from the signature, or the key of a
    user with this address verifies it. *)
Inductive signed_by (w : world) (msg : bytes) (account : string) : Prop :=
| signed_ecdsa sig pk : RecoverAddr msg sig = Some (account, pk) -> signed_by w msg account
| signed_eddsa user domain sig :
    key_verifies w user domain sig msg -> account = default ""%string (parseAccAddressFromHexUnsafe acc_address user) -> signed_by w msg account
| signed_eddsa_v2 user domain publicKey sig :
    key_v2_verifies w user domain publicKey sig msg ->
    account = default ""%string (parseAccAddressFromHexUnsafe acc_address user) -> signed_by w msg account.

(** What a request sees when it runs alone: the clock and the keys do not change. *)
Definition still (w0 w : world) : Prop :=
  clock w = clock w0 /\ auth_keys (tabs w) = auth_keys (tabs w0) /\ auth_keys_v2 (tabs w) = auth_keys_v2 (tabs w0).

Lemma wp_now w0 Q : Q (clock w0) -> wp (still w0) time_Now Q.
Proof. intros H. apply wp_asks. by intros w [-> _]. Qed.
Lemma wp_query w0 {A} (q : tables -> A) Q :
  (forall w, still w0 w -> Q (Ok (q (tabs w)))) -> Q (Err ErrConnection) -> wp (still w0) (query q) Q.
Proof. intros H1 H2. apply wp_act. intros w HI. split; [done|]. cbn. destruct (fates w (calls w)); auto. Qed.
Lemma wp_connection w0 Q : (forall f, Q f) -> wp (still w0) connection Q.
Proof. intros H. apply wp_act. intros w HI. by split. Qed.

(** A call that is answered was executed. *)
Lemma wp_rpc w0 {A} (p : prog world (result auth_error A)) (P : A -> Prop) :
  wp (still w0) p (fun r => forall a, r = Ok a -> P a) -> wp (still w0) (rpc p) (fun r => forall a, r = Ok a -> P a).
Proof.
  intros Hp. unfold rpc. apply wp_bind, wp_connection. intros []; try done; (eapply wp_use; [exact Hp|]); intros [] Hr; cbn; try done.
  intros ? [= <-]. by apply Hr.
Qed.

Lemma verify1_evidence w0 account domain s msg :
  wp (still w0) (VerifyGNFD1EddsaSignature set_bytes mimc_verify coll account domain s msg)
    (fun r => forall a, r = Ok a -> exists sig, key_verifies w0 account domain sig msg).
Proof.
  unfold VerifyGNFD1EddsaSignature. destruct (DecodeString s) as [sig|]; [|done].
  unfold GetAuthNonce, GetAuthKey. case_decide as E; [done|].
  apply wp_bind, wp_bind, wp_bind, wp_query; [|done]. intros w (Hc & Hk & _). rewrite Hk.
  destruct (auth_keys (tabs w0) !! auth_key_id coll account domain) as [row|] eqn:Er.
  - apply wp_bind, wp_bind, wp_now. cbn. destruct (Z.ltb_spec (k_ExpiryDate row - clock w0) 0); [done|].
    destruct (VerifyEddsaSignature _ _ _ _ _) eqn:Ev; [done|]. intros a _. exists sig, row. split_and!; [done|lia|done].
  - do 3 apply wp_bind, wp_now. cbn [wp]. apply wp_bind, wp_bind, wp_now. cbn. destruct (_ <? 0); [done|].
    unfold VerifyEddsaSignature, ParsePk. cbn. destruct (set_bytes []) as [size|]; [|done].
    destruct (Z.eqb_spec size 32); [by subst|done].
Qed.

Lemma verify2_evidence w0 account domain publicKey s msg :
  wp (still w0) (VerifyGNFD2EddsaSignature ed25519_verify coll account domain publicKey s msg)
    (fun r => forall a, r = Ok a -> exists sig, key_v2_verifies w0 account domain publicKey sig msg).
Proof.
  unfold VerifyGNFD2EddsaSignature. destruct (DecodeString s) as [sig|]; [|done].
  unfold GetAuthKeyV2, AuthDb.GetAuthKeyV2. case_decide as E; [done|].
  apply wp_bind, wp_bind, wp_bind, wp_query; [|done]. intros w (Hc & _ & Hk). rewrite Hk. cbn [wp].
  destruct (auth_keys_v2 (tabs w0) !! auth_key_v2_id coll account domain publicKey) as [row|] eqn:Er; [|done].
  apply wp_bind, wp_bind, wp_now. cbn. destruct (Z.ltb_spec (k2_ExpiryDate row - clock w0) 0); [done|].
  destruct (VerifyEddsaSignatureV2 _ _ _ _) eqn:Ev; [done|]. intros a _. exists sig, row. split_and!; [done|lia|done].
Qed.

Lemma gnfd1_evidence w0 msg s account domain :
  wp (still w0) (verify_gnfd1 acc_address set_bytes mimc_verify coll msg s account domain)
    (fun v => forall a, v = Ok a -> signed_by w0 msg (default ""%string a)).
Proof.
  unfold verify_gnfd1. destruct (parseSignatureFromRequest s); [|done].
  eapply wp_use; [apply wp_rpc, verify1_evidence|]. intros [b|] H; [|done]. intros ? [= <-].
  destruct (H b eq_refl) as [sig Hs]. by eapply signed_eddsa.
Qed.

Lemma gnfd2_evidence w0 msg s account domain key :
  wp (still w0) (verify_gnfd2 acc_address ed25519_verify coll msg s account domain key)
    (fun v => forall a, v = Ok a -> signed_by w0 msg (default ""%string a)).
Proof.
  unfold verify_gnfd2. destruct (parseSignatureFromRequest s); [|done].
  eapply wp_use; [apply wp_rpc, verify2_evidence|]. intros [b|] H; [|done]. intros ? [= <-].
  destruct (H b eq_refl) as [sig Hs]. by eapply signed_eddsa_v2.
Qed.

Lemma signature_evidence w0 r :
  wp (still w0) (VerifySignature names GetMsg RecoverAddr acc_address set_bytes mimc_verify ed25519_verify coll r)
    (fun v => forall a, v = Ok a -> signed_by w0 (GetMsg r) a).
Proof.
  unfold VerifySignature. destruct (HasPrefix _ _).
  { cbn. unfold verifySignatureForGNFD1Ecdsa. repeat case_match; try done. intros ? [= <-]. by eapply signed_ecdsa. }
  destruct (HasPrefix _ _); [|destruct (HasPrefix _ _); [|done]].
  - eapply wp_use; [apply gnfd1_evidence|]. intros [a|] H; [|done]. intros ? [= <-]. by apply H.
  - eapply wp_use; [apply gnfd2_evidence|]. intros [a|] H; [|done]. intros ? [= <-]. by apply H.
Qed.

Lemma wp_claim w0 account nonce expiry :
  wp (still w0) (claimAuthNonce names time_Parse coll require has_db account nonce expiry) (fun _ => True).
Proof.
  unfold claimAuthNonce. repeat (case_decide || case_match; try done); apply wp_bind, wp_now; case_match; try done.
  unfold ClaimAuthNonce. apply wp_bind, wp_bind, wp_now, wp_bind, wp_act. intros w (Hc & Hk & Hk2). split; [|done].
  unfold claim_stmt, exec_stmt. destruct (transaction _ _ _ _) as [t rr] eqn:Et.
  match type of Et with transaction ?l ?f ?s ?t0 = _ => pose proof (transaction_all_or_nothing l f s t0) as H' end.
  rewrite Et in H'. assert (auth_keys t = auth_keys (tabs w) /\ auth_keys_v2 t = auth_keys_v2 (tabs w)) as [E1 E2].
  { destruct H' as [E|(t' & n & Es & E)]; cbn in E; subst t; [done|]. revert Es. unfold upsert_nonce. by case_match; intros [= <- _]. }
  repeat case_match; (split_and!; cbn; congruence).
Qed.

Lemma context_evidence w0 r : routerName r ∉ skipAuthRouterNames ->
  wp (still w0) (new_context r) (fun res => forall a, res = (a, None) -> signed_by w0 (GetMsg r) a).
Proof.
  intros Hr. unfold NewRequestContext. rewrite decide_False by done. unfold CheckIfSigExpiry. destruct (time_Parse _); [|done].
  apply wp_bind, wp_bind, wp_now. cbn. destruct (age_ok _ _ _ _); [|done].
  eapply wp_use; [apply signature_evidence|]. intros [a|] Ha; [|done]. unfold enforceSingleUse.
  eapply wp_use; [apply wp_claim|]. intros [e|] _; [done|]. intros ? [= <-]. by apply Ha.
Qed.

Lemma url_evidence w0 r ctx :
  (forall a, ctx = (a, None) -> signed_by w0 (GetMsg r) a) ->
  wp (still w0) (url_account names time_Parse GetMsgURL acc_address set_bytes mimc_verify ed25519_verify coll require has_db r ctx)
    (fun res => forall a, res = Ok (a, None) -> signed_by w0 (GetMsg r) a \/ signed_by w0 (GetMsgURL r) a).
Proof.
  intros Hctx. unfold url_account. destruct ctx as [a0 [e|]]; [|intros a [= <-]; left; by apply Hctx].
  eapply (wp_use _ _ _ (fun v => forall a, v = Ok a -> signed_by w0 (GetMsgURL r) a)).
  - unfold verifyPreSignedURL. repeat (case_match; try done).
    all: eapply wp_use; [first [apply gnfd1_evidence|apply gnfd2_evidence]|]; intros [[a|]|] H'; try done; intros ? [= <-]; exact (H' (Some a) eq_refl).
  - intros [a|] Ha; [|done]. case_decide; [intros ? [= <-]; right; by apply Ha|].
    eapply wp_use; [apply wp_claim|]. intros [] _; [done|]. intros ? [= <-]. right. by apply Ha.
Qed.

(** What is known of who may begin to download. *)
Definition download_granted (w : world) (r : request) (who : option string) : Prop :=
  match who with
  | None => VerifyPermission c "" (vars r "bucket") (vars r "object") ACTION_GET_OBJECT = Ok EFFECT_ALLOW
  | Some account =>
    (signed_by w (GetMsg r) account \/ signed_by w (GetMsgURL r) account) /\ is_Some (acc_address account) /\
    get_object_allowed c account (vars r "bucket") (vars r "object") spID
  end.

Lemma authorise_evidence w0 r : routerName r ∉ skipAuthRouterNames ->
  wp (still w0) (authorise r) (fun res => forall who, res = Ok who -> download_granted w0 r who).
Proof.
  intros Hr. unfold getObject_authorise. eapply wp_use; [by apply context_evidence|]. intros ctx Hctx.
  destruct (match ctx.2 with Some e => if isAuthNonceRefusal e then Some e else None | None => None end); [done|].
  cbv zeta. destruct (negb _ || negb _); [done|]. eapply wp_use; [by apply url_evidence|].
  intros [[account err]|] Hu; [|done]. unfold over_connection. apply wp_bind, wp_bind, wp_connection. intros f.
  destruct f; try done. destruct (VerifyPermission c "" _ _ _) as [e|] eqn:Ep; [|done].
  destruct (decide (e = EFFECT_ALLOW)) as [->|Hne]; [by intros ? [= <-]|].
  assert (wp (still w0) (match err with Some e => Ret (Err e) | None => pbind (over_connection
    (verify_authentication acc_address fold c spID AuthOpTypeGetObject account (vars r "bucket") (vars r "object")))
    (fun b => Ret (match b with Err e => Err e | Ok false => Err RequestAuth.ErrNoPermission | Ok true => Ok (Some account) end)) end)
    (fun res => forall who, res = Ok who -> download_granted w0 r who)) as Hauth; [|by destruct e].
  destruct err; [done|]. unfold over_connection. apply wp_bind, wp_bind, wp_connection. intros []; try done.
  unfold verify_authentication. destruct (VerifyAuthentication _ _ _ _ _ _ _ _) as [[id [b|]]|] eqn:Ev; try done.
  destruct b; [|done]. intros who [= <-].
  split; [by apply Hu|]. unfold VerifyAuthentication in Ev. destruct (acc_address account); [|done]. split; [done|].
  apply verify_get_object_exact. by exists id.
Qed.
End download.
