(* ===== verification/AuthCases.v ===== *)
(** Cases of authentication: a download from the request down to the policies, pre-signed URLs
    that have expired, the registration of keys, the parsing of signed messages; and concrete
    requests. *)
From Stdlib Require Import ZArith Lia String Ascii.
From stdpp Require Import base gmap list strings option relations.
From S2P Require Import Prelude Proc Sql Strconv Checksum Hex Policy PolicyProps AuthDb Authenticator RequestAuth AuthProps.

Local Open Scope Z_scope.
Local Open Scope prog_scope.

Section cases.
Context (names : commonhttp) (time_Parse : string -> option Z)
  (GetMsg GetMsgURL : request -> bytes)
  (RecoverAddr : bytes -> bytes -> option (string * bytes)) (acc_address : string -> option string)
  (set_bytes : bytes -> option Z) (mimc_verify : bytes -> bytes -> bytes -> option bool)
  (ed25519_verify : bytes -> bytes -> bytes -> bool) (coll : string -> string) (int32_overflow : Z -> Z) (require has_db : bool)
  (valid_bucket valid_object : string -> bool) (fold : string -> string) (c : consensus) (spID : Z).

Local Abbreviation authorise := (getObject_authorise names time_Parse GetMsg GetMsgURL RecoverAddr acc_address set_bytes mimc_verify
  ed25519_verify coll int32_overflow require has_db valid_bucket valid_object fold c spID).
Local Abbreviation signed := (signed_by RecoverAddr acc_address set_bytes mimc_verify ed25519_verify coll).

(** ** From the request down to the policies *)

Section policies.
Context (regexp : string -> option (string -> bool)) (uint_of : string -> option Z) (object_grn : string -> string -> string)
  (public_bucket_action public_object_action : ActionType -> bool) (valid_bucket_name : string -> bool).

(** What the metadata service answers about permissions from its tables. *)
Definition policy_answer (t : Policy.tables) (now : Z) (account bucket object : string) (action : ActionType) : result string Effect :=
  match GfSpVerifyPermission regexp uint_of acc_address object_grn public_bucket_action public_object_action valid_bucket_name
          (fun _ => Some t) now account bucket object action with
  | Some (Ok e) => Ok e
  | _ => Err "failed to send verify permission rpc"%string
  end.

(** ALLOW is for those who may act on the object. *)
Lemma allowed_may_act t now account bucket object b o owner operator :
  (if decide (account = ""%string) then Some ""%string else acc_address account) = Some operator ->
  GetBucketByName bucket t = Some b -> GetObjectByName object bucket t = Ok o -> object <> ""%string ->
  acc_address (o_Owner o) = Some owner -> policies_live uint_of t now b o operator ->
  policy_answer t now account bucket object ACTION_GET_OBJECT = Ok EFFECT_ALLOW ->
  may_act regexp uint_of acc_address object_grn public_object_action t now b o operator ACTION_GET_OBJECT.
Proof.
  intros Eop Eb Eo Hobj Eown Hlive. unfold policy_answer, GfSpVerifyPermission. rewrite Eop.
  destruct (valid_bucket_name bucket); [|done]. cbn [negb ask]. rewrite Eb, decide_False, Eo by done.
  destruct (verify_object_spec regexp uint_of acc_address object_grn public_object_action t now b o operator ACTION_GET_OBJECT owner Hlive Eown)
    as (e & He & Hiff & _). unfold from at 1. cbn. rewrite He. intros [= ->]. by apply Hiff.
Qed.

(** C4: A download that the gateway lets begin is one that the policies allow, provided the
    bucket and the object exist, the policies of groups name groups, and no policy that the
    account's groups have on them has expired (expired_policy_still_grants shows what
    happens with one that has): if it begins in nobody's name, everybody may get the object;
    otherwise the request or its URL is signed by the account in whose name it begins, or by
    a key that is registered for it and has not expired, and this account may get the
    object. *)
Theorem download_needs_permission t now b o owner r w w' who :
  set_bytes [] <> Some 32 -> acc_address "" = None -> routerName r = "GetObject"%string ->
  VerifyPermission c = policy_answer t now ->
  GetBucketByName (vars r "bucket") t = Some b -> GetObjectByName (vars r "object") (vars r "bucket") t = Ok o ->
  vars r "object" <> ""%string -> acc_address (o_Owner o) = Some owner ->
  (forall operator, policies_live uint_of t now b o operator) ->
  run (authorise r) w = Done w' (Ok who) ->
  match who with
  | None => may_act regexp uint_of acc_address object_grn public_object_action t now b o "" ACTION_GET_OBJECT
  | Some account =>
    (signed w (GetMsg r) account \/ signed w (GetMsgURL r) account) /\
    exists operator, acc_address account = Some operator /\
      may_act regexp uint_of acc_address object_grn public_object_action t now b o operator ACTION_GET_OBJECT
  end.
Proof.
  intros Hempty Hacc Hr Hc Eb Eo Hobj Eown Hlive Hrun.
  assert (routerName r ∉ skipAuthRouterNames) as Hskip by (rewrite Hr; by apply (bool_decide_unpack _)).
  pose proof (wp_run _ _ _ w (authorise_evidence names time_Parse GetMsg GetMsgURL RecoverAddr acc_address set_bytes mimc_verify
    ed25519_verify coll int32_overflow require has_db valid_bucket valid_object fold c spID Hempty w r Hskip)) as H.
  rewrite Hrun in H. destruct H as [_ H]; [done|]. specialize (H who eq_refl). destruct who as [account|]; cbn in H.
  - destruct H as (Hsigned & [operator Hop] & (bi & oi & _ & _ & _ & _ & _ & Hv)). split; [done|]. exists operator. split; [done|].
    rewrite Hc in Hv. eapply allowed_may_act; [|done..]. rewrite decide_False; [done|]. intros ->. by rewrite Hacc in Hop.
  - rewrite Hc in H. eapply allowed_may_act; [|done..]. by rewrite decide_True.
Qed.
End policies.

(** ** Pre-signed URLs *)

(** A pre-signed URL without a nonce is honoured after it has expired: the check of the
    expiry fails, and what is verified instead does not look at it. *)
Theorem expired_url_honoured r w user domain s sig account date :
  (forall n, fates w n = Committed) -> routerName r = "GetObject"%string ->
  header r (HTTPHeaderExpiryTimestamp names) = ""%string ->
  time_Parse (url_query r (HTTPHeaderExpiryTimestamp names)) = Some date ->
  Second <= clock w - date < (2 ^ 31 - 1) * Second ->
  url_query r (HTTPHeaderExpiryTimestamp names) <> ""%string -> url_query r (HTTPHeaderNonce names) = ""%string ->
  url_query r GnfdUserAddressHeader = user -> user <> ""%string ->
  url_query r GnfdOffChainAuthAppDomainHeader = domain -> domain <> ""%string ->
  HasPrefix (url_query r GnfdAuthorizationHeader) (gnfd1EddsaSignaturePrefix names) = true ->
  parseSignatureFromRequest (str_drop (String.length (gnfd1EddsaSignaturePrefix names)) (url_query r GnfdAuthorizationHeader)) = Ok s ->
  DecodeString s = Ok sig -> key_verifies set_bytes mimc_verify coll w user domain sig (GetMsgURL r) ->
  parseAccAddressFromHexUnsafe acc_address user = Some account -> is_Some (acc_address account) ->
  valid_bucket (vars r "bucket") = true -> valid_object (vars r "object") = true ->
  VerifyPermission c "" (vars r "bucket") (vars r "object") ACTION_GET_OBJECT = Ok EFFECT_DENY ->
  get_object_allowed c account (vars r "bucket") (vars r "object") spID ->
  exists w', run (authorise r) w = Done w' (Ok (Some account)).
Proof.
  intros Hf Hr Hh Hp Hexp Hne Hn Eu Hu Ed Hd Hpre Hs Hsig (row & Hrow & Hlive & Hver) Hacc [op Hop] Hvb Hvo Hdeny Hallow.
  apply verify_get_object_exact in Hallow as [id Hallow].
  unfold getObject_authorise, NewRequestContext. rewrite decide_False by (rewrite Hr; by apply (bool_decide_unpack _)).
  unfold CheckIfSigExpiry, header_or_query. rewrite decide_True, Hp by done. cbn.
  assert (age_ok names int32_overflow date (clock w) = false) as ->.
  { unfold age_ok, int32_seconds, Second in *. cbv zeta. destruct (Z.ltb_spec (Z.abs (date - clock w)) ((2 ^ 31 - 1) * 10 ^ 9)); [|lia].
    pose proof (Z.quot_le_mono (date - clock w) (- 10 ^ 9) (10 ^ 9) ltac:(lia) ltac:(lia)) as Hq.
    change (- 10 ^ 9 ÷ 10 ^ 9) with (-1) in Hq. rewrite (proj2 (Z.ltb_lt _ 0)) by lia. by rewrite orb_true_r. }
  cbn. rewrite Hvb, Hvo. cbn. unfold verifyPreSignedURL. rewrite Hpre. cbn. rewrite Eu, Ed.
  rewrite decide_False by tauto. unfold verifyGNFD1EddsaSignatureFromPreSignedURL, verify_gnfd1. rewrite Hs. cbn. rewrite Hf.
  unfold VerifyGNFD1EddsaSignature. rewrite Hsig. unfold GetAuthNonce, GetAuthKey. rewrite !decide_False by tauto. cbn. rewrite Hf.
  cbn. rewrite Hrow. cbn. rewrite (proj2 (Z.ltb_ge _ 0)) by lia. rewrite Hver. cbn. rewrite Hacc. cbn. rewrite Hn, decide_True by done.
  cbn. rewrite Hf, Hdeny. cbn. rewrite Hf. unfold verify_authentication, VerifyAuthentication. rewrite Hop, Hallow. by eexists.
Qed.
End cases.

(** ** Signed messages *)

Lemma strip_prefix_app p s : strip_prefix p (p +:+ s) = Some s.
Proof. induction p as [|c p IH]; [done|]. rewrite string_app_cons. cbn. by rewrite decide_True. Qed.

Lemma strip_prefix_Some p s t : strip_prefix p s = Some t -> s = p +:+ t.
Proof.
  revert s. induction p as [|c p IH]; intros [|d s]; cbn; try done; try by intros [= <-].
  destruct (decide (c = d)) as [->|]; [|done]. intros ->%IH. by rewrite string_app_cons.
Qed.

Lemma cut_Some sep s a b : cut sep s = Some (a, b) -> s = a +:+ sep +:+ b.
Proof.
  revert a b. induction s as [|c s IH]; intros a b; cbn.
  - destruct (strip_prefix sep "") eqn:E; [|done]. intros [= <- <-]. rewrite string_app_nil. by apply strip_prefix_Some.
  - destruct (strip_prefix sep (String c s)) eqn:E.
    + intros [= <- <-]. rewrite string_app_nil. by apply strip_prefix_Some.
    + destruct (cut sep s) as [[a' b']|]; cbn; [|done]. intros [= <- <-]. rewrite string_app_cons. f_equal. by apply IH.
Qed.

Lemma cut_last_Some sep s a b : cut_last sep s = Some (a, b) -> s = a +:+ sep +:+ b.
Proof.
  revert a b. induction s as [|c s IH]; intros a b; cbn [cut_last].
  - case_decide; [|done]. by intros [= <- <-]; subst.
  - destruct (cut_last sep s) as [[a' b']|].
    + intros [= <- <-]. rewrite string_app_cons. f_equal. by apply IH.
    + destruct (strip_prefix sep (String c s)) eqn:E; cbn; [|done]. intros [= <- <-]. rewrite string_app_nil. by apply strip_prefix_Some.
Qed.

(** A separator that begins with a comma, after text without one. *)
Lemma cut_first sep a b : no_char "," a -> cut (String "," sep) (a +:+ String "," sep +:+ b) = Some (a, b).
Proof.
  induction a as [|c a IH]; intros Ha.
  - rewrite string_app_nil. pose proof (strip_prefix_app (String "," sep) b) as H. rewrite string_app_cons in *. cbn [cut]. by rewrite H.
  - cbn in Ha. apply andb_True in Ha as [Hc Ha]. rewrite string_app_cons. cbn [cut strip_prefix].
    rewrite decide_False by (intros <-; by rewrite bool_decide_true in Hc). by rewrite IH.
Qed.

Lemma cut_last_none sep s : no_char "," s -> cut_last (String "," sep) s = None.
Proof.
  induction s as [|c s IH]; intros Hs; [done|]. cbn in Hs. apply andb_True in Hs as [Hc Hs]. cbn [cut_last strip_prefix].
  rewrite IH by done. rewrite decide_False; [done|]. intros <-. by rewrite bool_decide_true in Hc.
Qed.

(** ... and text without a comma after the last one. *)
Lemma cut_last_found sep a b : no_char "," sep -> no_char "," b ->
  cut_last (String "," sep) (a +:+ String "," sep +:+ b) = Some (a, b).
Proof.
  intros Hs Hb. induction a as [|c a IH].
  - rewrite string_app_nil. pose proof (strip_prefix_app (String "," sep) b) as H. rewrite string_app_cons in *. cbn [cut_last].
    rewrite cut_last_none by (rewrite no_char_app; by apply andb_True). by rewrite H.
  - rewrite string_app_cons. cbn [cut_last]. by rewrite IH.
Qed.

Lemma Contains_comma s : Contains s "," = negb (no_char "," s).
Proof.
  induction s as [|c s IH]; [done|]. cbn [no_char Contains]. rewrite IH, negb_andb, negb_involutive. f_equal. cbn [String.prefix].
  destruct (ascii_dec "," c) as [<-|Hc].
  - destruct s; by rewrite bool_decide_true.
  - by rewrite bool_decide_false by congruence.
Qed.

(** A signature without commas and a message without the separators. *)
Definition message_ok (signedMsg signature : string) : Prop :=
  signedMsg <> ""%string /\ signature <> ""%string /\ no_char "," signature /\
  Contains signedMsg ",SignedMsg=" = false /\ Contains signedMsg ",Signature=" = false.

(** A signed message and its signature are read from a header exactly if the header is one
    of their two renderings, with line feeds written out or escaped: what is read determines
    what was signed. *)
Theorem signed_message_roundtrip s signedMsg signature :
  parseSignedMsgAndSigFromRequest s = Ok (signedMsg, signature) <->
  message_ok signedMsg signature /\
  (unescape s = "Signature=" +:+ signature +:+ ",SignedMsg=" +:+ signedMsg \/
   unescape s = "SignedMsg=" +:+ signedMsg +:+ ",Signature=" +:+ signature).
Proof.
  unfold parseSignedMsgAndSigFromRequest, message_ok. cbv zeta. generalize (unescape s). clear s. intros s.
  change ("," +:+ SignedMsg +:+ "=") with ",SignedMsg=". change ("," +:+ Signature +:+ "=") with ",Signature=".
  change (Signature +:+ "=") with "Signature=". change (SignedMsg +:+ "=") with "SignedMsg=". split.
  - destruct (strip_prefix "Signature=" s) as [rest|] eqn:E1.
    + apply strip_prefix_Some in E1. destruct (cut _ _) as [[g m]|] eqn:E2; [|done]. apply cut_Some in E2.
      rewrite Contains_comma. destruct (no_char "," g) eqn:Eg; [|done]. cbn [negb].
      destruct (_ || _ || _ || _) eqn:E; [done|]. intros [= <- <-]. rewrite !orb_false_iff, !bool_decide_eq_false in E.
      destruct E as [[[? ?] ?] ?]. split; [by rewrite Eg|left; by subst].
    + destruct (strip_prefix "SignedMsg=" s) as [value|] eqn:E2; [|done]. apply strip_prefix_Some in E2.
      destruct (cut_last _ _) as [[m g]|] eqn:E3; [|done]. apply cut_last_Some in E3.
      rewrite Contains_comma. destruct (no_char "," g) eqn:Eg; [|done]. cbn [negb].
      destruct (_ || _ || _ || _) eqn:E; [done|]. intros [= <- <-]. rewrite !orb_false_iff, !bool_decide_eq_false in E.
      destruct E as [[[? ?] ?] ?]. split; [by rewrite Eg|right; by subst].
  - intros [(Hm & Hg & Hc & H1 & H2) [->| ->]].
    + rewrite strip_prefix_app. rewrite (cut_first "SignedMsg=" signature signedMsg) by done.
      rewrite Contains_comma, (Is_true_true_1 _ Hc). cbn [negb]. by rewrite H1, H2, !bool_decide_false.
    + replace (strip_prefix "Signature=" _) with (@None string) by done. rewrite strip_prefix_app.
      rewrite (cut_last_found "Signature=" signedMsg signature) by done.
      rewrite Contains_comma, (Is_true_true_1 _ Hc). cbn [negb]. by rewrite H1, H2, !bool_decide_false.
Qed.

(** ** Registered keys *)

Lemma run_bind_inv {W A B} (p : prog W A) (f : A -> prog W B) w w' b :
  run (pbind p f) w = Done w' b -> exists w1 a, run p w = Done w1 a /\ run (f a) w1 = Done w' b.
Proof. rewrite run_bind. destruct (run p w) as [w1 a| |]; [|done..]. by exists w1, a. Qed.

Lemma datetime_milli m : datetime (of_UnixMilli m) = of_UnixMilli m.
Proof.
  unfold datetime, of_UnixMilli, Millisecond. rewrite Z.add_comm, Z.div_add by lia.
  change (10 ^ 6 / 2 / 10 ^ 6) with 0. lia.
Qed.

Section registration.
Context (names : commonhttp) (time_Parse : string -> option Z)
  (GetMsg : request -> bytes)
  (RecoverAddr : bytes -> bytes -> option (string * bytes)) (acc_address : string -> option string)
  (set_bytes : bytes -> option Z) (mimc_verify : bytes -> bytes -> bytes -> option bool)
  (ed25519_verify : bytes -> bytes -> bytes -> bool) (coll : string -> string) (int32_overflow : Z -> Z) (require has_db : bool)
  (hexutil_Decode : string -> option bytes) (TextHash : string -> bytes) (template_v2 : string -> list string).

Local Abbreviation register := (updateUserPublicKeyV2Handler names time_Parse GetMsg RecoverAddr acc_address set_bytes mimc_verify
  ed25519_verify coll int32_overflow require has_db hexutil_Decode TextHash template_v2).

(** A row that was stored is read back. *)
Lemma stored_key_read account domain key s sig msg row w :
  auth_keys_v2 (tabs w) !! auth_key_v2_id coll account domain key = Some row -> fates w (calls w) = Committed ->
  account <> ""%string -> domain <> ""%string -> key <> ""%string -> DecodeString s = Ok sig ->
  exists w', run (VerifyGNFD2EddsaSignature ed25519_verify coll account domain key s msg) w
    = Done w' (if k2_ExpiryDate row <? clock w then Err ErrPublicKeyExpired
               else match VerifyEddsaSignatureV2 ed25519_verify (k2_PublicKey row) sig msg with Some e => Err e | None => Ok true end).
Proof.
  intros Hrow Hf Ha Hd Hk Hs. unfold VerifyGNFD2EddsaSignature. rewrite Hs. unfold GetAuthKeyV2, AuthDb.GetAuthKeyV2.
  rewrite decide_False by tauto. cbn. rewrite Hf. cbn. unfold auth_key_v2_id in Hrow |- *. rewrite Hrow. cbn. eexists. f_equal.
  destruct (Z.ltb_spec (k2_ExpiryDate row - clock w) 0), (Z.ltb_spec (k2_ExpiryDate row) (clock w)); try done; lia.
Qed.

(** Registering stores the key with its expiry. *)
Lemma register_stores account domain key expiry w w' :
  run (rpc (UpdateUserPublicKeyV2 coll account domain key expiry)) w = Done w' (Ok true) ->
  exists row, auth_keys_v2 (tabs w') !! auth_key_v2_id coll account domain key = Some row /\
    k2_ExpiryDate row = of_UnixMilli expiry /\
    (forall o, auth_keys_v2 (tabs w) !! auth_key_v2_id coll account domain key = Some o -> k2_PublicKey row = k2_PublicKey o) /\
    (auth_keys_v2 (tabs w) !! auth_key_v2_id coll account domain key = None -> k2_PublicKey row = key).
Proof.
  unfold rpc, UpdateUserPublicKeyV2, InsertAuthKeyV2, exec, exec_stmt. cbn. destruct (fates w (calls w)); cbn; try done; [|by destruct (transaction _ _ _ _)].
  destruct (transaction _ _ _ _) as [t rr] eqn:Et. cbn. destruct rr as [a|]; [|done]. intros [= <-]. cbn.
  apply transaction_ok in Et as [_ [= <- _]]. cbn. eexists. rewrite lookup_insert_eq. split; [done|].
  destruct (auth_keys_v2 (tabs w) !! _) as [o|]; cbn; rewrite datetime_milli; (split; [done|]); naive_solver.
Qed.

(** C36: A key that a registration has stored was named, with its domain and expiry, in a message
    that the account has signed; from then on it verifies the account's signatures until it
    expires and no longer, as long as its row stays. *)
Theorem registered_key_verifies r w w1 :
  set_bytes [] <> Some 32 -> routerName r ∉ skipAuthRouterNames -> run (register r) w = Done w1 (Ok true) ->
  let domain := header r GnfdOffChainAuthAppDomainHeader in
  let key := header r GnfdOffChainAuthAppRegPublicKeyHeader in
  exists signedMsg account date,
    personal_signer names RecoverAddr hexutil_Decode TextHash r = Ok (signedMsg, account) /\
    (template_v2 signedMsg !! 1%nat, template_v2 signedMsg !! 3%nat, template_v2 signedMsg !! 8%nat)
    = (Some domain, Some key, Some (header r (HTTPHeaderExpiryTimestamp names))) /\
    time_Parse (header r (HTTPHeaderExpiryTimestamp names)) = Some date /\
    age_ok names int32_overflow date (clock w) = true /\
    forall w2 s sig msg,
      account <> ""%string ->
      (forall o, auth_keys_v2 (tabs w) !! auth_key_v2_id coll account domain key = Some o -> k2_PublicKey o = key) ->
      auth_keys_v2 (tabs w2) = auth_keys_v2 (tabs w1) -> fates w2 (calls w2) = Committed -> DecodeString s = Ok sig ->
      exists w3, run (VerifyGNFD2EddsaSignature ed25519_verify coll account domain key s msg) w2
        = Done w3 (if of_UnixMilli (UnixMilli date) <? clock w2 then Err ErrPublicKeyExpired
                   else match VerifyEddsaSignatureV2 ed25519_verify key sig msg with Some e => Err e | None => Ok true end).
Proof.
  intros Hempty Hskip Hrun. cbv zeta. unfold updateUserPublicKeyV2Handler in Hrun. apply run_bind_inv in Hrun as (w0 & ctx & H0 & Hrun).
  assert (still w w0) as (Hc & _ & Hk).
  { pose proof (wp_run _ _ _ w (context_evidence names time_Parse GetMsg RecoverAddr acc_address set_bytes mimc_verify
      ed25519_verify coll int32_overflow require has_db Hempty w r Hskip)) as H. rewrite H0 in H. by apply H. }
  destruct (personal_signer _ _ _ _ r) as [[signedMsg account]|]; [|done].
  case_decide as Hd; [done|]. case_decide as Hkey; [done|]. destruct (time_Parse _) as [date|] eqn:Ep; [|done].
  cbn in Hrun. destruct (age_ok names int32_overflow date (clock w0)) eqn:Eage; [|done]. cbn in Hrun.
  destruct (verifySignedContentV2 _ _ _ _ _) eqn:Ev; [done|].
  apply register_stores in Hrun as (row & Hrow & Hexp & Hold & Hnew). rewrite Hk in Hold, Hnew. rewrite Hc in Eage.
  exists signedMsg, account, date. split_and!; [done| |done|done|].
  - revert Ev. unfold verifySignedContentV2, check_fields. cbv zeta. case_decide as Hl; [done|].
    repeat (case_decide; [done|]). intros _.
    repeat match goal with H : ~ (default ?d ?x <> _) |- _ => apply dec_stable in H end.
    destruct (lookup_lt_is_Some_2 (template_v2 signedMsg) 1) as [a Ha]; [lia|].
    destruct (lookup_lt_is_Some_2 (template_v2 signedMsg) 3) as [b Hb]; [lia|].
    destruct (lookup_lt_is_Some_2 (template_v2 signedMsg) 8) as [e He]; [lia|].
    rewrite Ha, Hb, He in *. cbn in *. congruence.
  - intros w2 s sig msg Hacc Hsame E2 Hf Hs.
    destruct (stored_key_read account _ _ s sig msg row w2 ltac:(by rewrite E2) Hf Hacc ltac:(tauto) ltac:(tauto) Hs) as [w3 H3].
    exists w3. rewrite H3, Hexp. do 2 f_equal.
    destruct (auth_keys_v2 (tabs w) !! _) as [o|] eqn:Eo; [rewrite (Hold o), (Hsame o)|rewrite Hnew]; done.
Qed.
End registration.

(** ** Concrete requests *)

Definition ex_names : commonhttp :=
  mkCommonHttp "X-Gnfd-Expiry-Timestamp" "X-Gnfd-Nonce" "GNFD1-ECDSA" "GNFD1-EDDSA" "GNFD2-EDDSA" "GNFD1-ETH-PERSONAL_SIGN" 604800.
Definition ex_parse (s : string) : option Z :=
  if decide (s = "T50"%string) then Some (50 * Second) else if decide (s = "T200"%string) then Some (200 * Second) else None.
Definition ex_msg (r : request) : bytes := [].
Definition ex_recover (msg sig : bytes) : option (string * bytes) := Some (ex_alice, []).
Definition ex_address (s : string) : option string :=
  if decide (String.length s = 42%nat) then Some s else if decide (String.length s = 40%nat) then Some ("0x" +:+ s)%string else None.
Definition ex_size (b : bytes) : option Z := Some (Z.of_nat (length b)).
Definition ex_mimc (pk sig msg : bytes) : option bool := Some true.
Definition ex_ed25519 (pk msg sig : bytes) : bool := true.
Definition ex_pubkey : string := "0000000000000000000000000000000000000000000000000000000000000000".
Definition ex_nonce : string := "0123456789abcdef0123456789abcdef".
Definition all_ok : nat -> fate := fun _ => Committed.

(** Alice has a key for the domain "app" until second 300; it is second 100. *)
Definition ex_world : world :=
  mkWorld ex_now (mkTables {[ (ex_alice, "app"%string) := mkAuthKey ex_alice "app" 1 ex_pubkey 2 (300 * Second) 0 0 ]} ∅ ∅) all_ok 0 [].

Definition ex_fields (l : list (string * string)) (name : string) : string :=
  match list_find (fun p => p.1 = name) l with Some (_, (_, v)) => v | None => "" end.
Definition ex_vars : string -> string := ex_fields [("bucket", "bucket"); ("object", "object")]%string.

(** A request that Alice has signed, and a pre-signed URL of hers that expires at second 50. *)
Definition ex_request : request :=
  mkRequest (ex_fields [("Authorization", "GNFD1-ECDSA,Signature=00"); ("X-Gnfd-Expiry-Timestamp", "T200"); ("X-Gnfd-Nonce", ex_nonce)])%string
    (fun _ => ""%string) ex_vars "GetObject" None.
Definition ex_url : request :=
  mkRequest (fun _ => ""%string)
    (ex_fields [("Authorization", "GNFD1-EDDSA,Signature=00"); ("X-Gnfd-Expiry-Timestamp", "T50"); ("X-Gnfd-User-Address", ex_alice);
                ("X-Gnfd-App-Domain", "app")])%string
    ex_vars "GetObject" None.

(** The chain and the metadata service, which knows the tables [t]. *)
Definition ex_consensus (t : Policy.tables) : consensus :=
  mkConsensus (fun _ => Ok (Some (mkBucketInfo 1 1 "pay")))
    (fun _ _ => (Some (mkBucketInfo 1 1 "pay"), Some (mkObjectInfo "object" OBJECT_STATUS_SEALED false 1), None))
    (fun _ => Ok (Some false)) (Ok 7) (fun _ => Ok 7) (fun _ => Ok (Some true)) (fun _ _ _ => Ok true) (fun _ _ _ => Ok true) (Ok [])
    (fun _ _ => Ok []) (policy_answer ex_address ex_regexp ex_uint ex_grn (fun _ => false) (fun _ => false) (fun _ => true) t ex_now).

Definition ex_context : request -> prog world (string * option gate_error) :=
  NewRequestContext ex_names ex_parse ex_msg ex_recover ex_address ex_size ex_mimc ex_ed25519 id (fun _ => 0) false true.
Definition ex_authorise (t : Policy.tables) : request -> prog world (result gate_error (option string)) :=
  getObject_authorise ex_names ex_parse ex_msg ex_msg ex_recover ex_address ex_size ex_mimc ex_ed25519 id (fun _ => 0) false true
    (fun _ => true) (fun _ => true) id (ex_consensus t) 7.

(** What is left of a run of programs one after the other, if all of them return. *)
Definition after {A} (p : prog world A) (w : world) (ok : world -> A -> bool) : bool :=
  match run p w with Done w' a => ok w' a | _ => false end.

Lemma after_run {A} (p : prog world A) w ok : after p w ok = true -> exists w' a, run p w = Done w' a /\ ok w' a = true.
Proof. unfold after. destruct (run p w) as [w' a| |]; [|done..]. by exists w', a. Qed.

Definition ex_begins : world -> world -> prog world unit -> Prop :=
  begins ex_names ex_parse ex_msg ex_msg ex_recover ex_address ex_size ex_mimc ex_ed25519 id (fun _ => 0)
    (fun _ => None) (fun _ => []) (fun _ => []) (fun _ => []) (fun _ => []) "" (fun _ => true) (fun _ => []) (fun _ => true) (fun _ => true) id.

Lemma ex_served w w' : run (ex_context ex_request ;;; Ret tt) w = Done w' tt ->
  forall ps, psteps ex_begins (w, ps) (w', Ret tt :: ps).
Proof.
  intros E ps. eapply rtc_l; [apply (step_start _ _ w (ex_context ex_request ;;; Ret tt)); split_and!; [done..|constructor]|].
  apply (run_psteps _ _ _ w' tt [] ps). exact E.
Qed.

(** The request is accepted once, and refused the second time. *)
Lemma nonce_used_once_witness :
  exists w, psteps ex_begins (ex_world, []) (w, [Ret tt; Ret tt]) /\ claims_apart (claims w) /\ length (claims w) = 1%nat.
Proof.
  destruct (after_run (ex_context ex_request ;;; (ex_context ex_request ;;; Ret tt)) ex_world
    (fun w _ => bool_decide (length (claims w) = 1%nat))) as (w2 & [] & E2 & H2); [by vm_compute|].
  apply bool_decide_eq_true in H2. apply run_bind_inv in E2 as (w1 & a & E1 & E2).
  assert (psteps ex_begins (ex_world, []) (w2, [Ret tt; Ret tt])) as Hs.
  { etransitivity; [apply (ex_served _ w1)|by apply ex_served]. by rewrite (run_bind_done _ _ _ _ _ E1). }
  exists w2. split; [exact Hs|]. split; [|exact H2]. exact (nonce_used_once _ _ _ _ _ _ _ _ _ _ _ _ _ _ _ _ _ _ _ _ _ _ ex_world w2 _ eq_refl Hs).
Defined.

Lemma ex_policies_live operator :
  policies_live ex_uint (ex_tables 150) ex_now (mkBucket ex_bob "bucket" "VISIBILITY_TYPE_PRIVATE" 1 false)
    (mkObject ex_bob "bucket" "object" 1 5 "VISIBILITY_TYPE_INHERIT" false) operator.
Proof.
  assert (Forall (fun p => has_expired ex_now (p_ExpirationTime p) = false) (permissions (ex_tables 150))) as H by by repeat constructor.
  split; [|split].
  - unfold principals_ok. repeat constructor; by eexists.
  - unfold group_policies. apply Forall_forall. intros p [_ Hp]%list_elem_of_filter. by eapply Forall_forall in H.
  - unfold group_policies. apply Forall_forall. intros p [_ Hp]%list_elem_of_filter. by eapply Forall_forall in H.
Defined.

Definition granted_to (account : string) (w : world) (r : result gate_error (option string)) : bool :=
  match r with Ok (Some a) => bool_decide (a = account) | _ => false end.

Lemma granted_to_Ok account w r : granted_to account w r = true -> r = Ok (Some account).
Proof. destruct r as [[a|]|]; [|done..]. cbn. by intros ->%bool_decide_eq_true. Qed.

Lemma download_needs_permission_witness :
  exists w', run (ex_authorise (ex_tables 150) ex_request) ex_world = Done w' (Ok (Some ex_alice)) /\
  exists operator, ex_address ex_alice = Some operator /\
    may_act ex_regexp ex_uint ex_address ex_grn (fun _ => false) (ex_tables 150) ex_now
      (mkBucket ex_bob "bucket" "VISIBILITY_TYPE_PRIVATE" 1 false)
      (mkObject ex_bob "bucket" "object" 1 5 "VISIBILITY_TYPE_INHERIT" false) operator ACTION_GET_OBJECT.
Proof.
  destruct (after_run (ex_authorise (ex_tables 150) ex_request) ex_world (granted_to ex_alice)) as (w' & a & E & Ha); [by vm_compute|].
  apply granted_to_Ok in Ha as ->. exists w'. split; [exact E|].
  refine (proj2 (download_needs_permission ex_names ex_parse ex_msg ex_msg ex_recover ex_address ex_size ex_mimc ex_ed25519 id (fun _ => 0) false true
    (fun _ => true) (fun _ => true) id (ex_consensus (ex_tables 150)) 7 ex_regexp ex_uint ex_grn (fun _ => false) (fun _ => false) (fun _ => true)
    (ex_tables 150) ex_now (mkBucket ex_bob "bucket" "VISIBILITY_TYPE_PRIVATE" 1 false)
    (mkObject ex_bob "bucket" "object" 1 5 "VISIBILITY_TYPE_INHERIT" false) ex_bob ex_request ex_world w' (Some ex_alice)
    _ eq_refl eq_refl eq_refl eq_refl eq_refl _ eq_refl ex_policies_live E)); done.
Defined.

Lemma expired_url_honoured_witness :
  exists w', run (ex_authorise (ex_tables 150) ex_url) ex_world = Done w' (Ok (Some ex_alice)).
Proof.
  refine (expired_url_honoured ex_names ex_parse ex_msg ex_msg ex_recover ex_address ex_size ex_mimc ex_ed25519 id (fun _ => 0) false true
    (fun _ => true) (fun _ => true) id (ex_consensus (ex_tables 150)) 7 ex_url ex_world ex_alice "app" "00" [Byte.x00] ex_alice (50 * Second)
    (fun n => eq_refl) eq_refl eq_refl eq_refl _ _ eq_refl eq_refl _ eq_refl _ eq_refl eq_refl eq_refl _ eq_refl _ eq_refl eq_refl _ _); try (by vm_compute).
  - eexists. split_and!; [reflexivity|by vm_compute..].
  - by eexists.
  - exists (Some (mkBucketInfo 1 1 "pay")), (Some (mkObjectInfo "object" OBJECT_STATUS_SEALED false 1)).
    split_and!; [done|by exists (Some false)|by exists 7|by left|done|by vm_compute].
Defined.

Definition ex_registration : request :=
  mkRequest (ex_fields [("Authorization", "GNFD1-ETH-PERSONAL_SIGN,Signature=00,SignedMsg=hello"); ("X-Gnfd-Expiry-Timestamp", "T200");
                        ("X-Gnfd-App-Domain", "app"); ("Origin", "app"); ("X-Gnfd-App-Reg-Public-Key", ex_pubkey)])%string
    (fun _ => ""%string) (fun _ => ""%string) "UpdateUserPublicKeyV2" None.
Definition ex_template (s : string) : list string := ["hello"; "app"; ""; ex_pubkey; ""; ""; ""; ""; "T200"]%string.
Definition ex_register : request -> prog world (result gate_error bool) :=
  updateUserPublicKeyV2Handler ex_names ex_parse ex_msg ex_recover ex_address ex_size ex_mimc ex_ed25519 id (fun _ => 0) false true
    (fun _ => Some (replicate 65 Byte.x00)) (fun _ => []) ex_template.

(** The key is registered, and verifies a signature afterwards. *)
Lemma registered_key_verifies_witness :
  exists w1 w3, run (ex_register ex_registration) ex_world = Done w1 (Ok true) /\
    run (VerifyGNFD2EddsaSignature ex_ed25519 id ex_alice "app" ex_pubkey "00" []) (mkWorld ex_now (tabs w1) all_ok 0 []) = Done w3 (Ok true).
Proof.
  destruct (after_run (ex_register ex_registration) ex_world (fun _ r => match r with Ok b => b | _ => false end)) as (w1 & [[]|] & E & Ha);
    [by vm_compute|..|done|done].
  destruct (registered_key_verifies ex_names ex_parse ex_msg ex_recover ex_address ex_size ex_mimc ex_ed25519 id (fun _ => 0) false true
    (fun _ => Some (replicate 65 Byte.x00)) (fun _ => []) ex_template ex_registration ex_world w1) as (msg & account & date & Hs & _ & Hd & _ & H);
    [done|by apply (bool_decide_unpack _)|exact E|].
  assert (account = ex_alice) as -> by (vm_compute in Hs; by injection Hs as _ <-).
  assert (date = 200 * Second) as -> by (vm_compute in Hd; by injection Hd as <-).
  destruct (H (mkWorld ex_now (tabs w1) all_ok 0 []) "00"%string [Byte.x00] []) as [w3 H3]; [done..|].
  exists w1, w3. split; [exact E|]. etransitivity; [exact H3|]. f_equal.
Defined.
