(* ===== verification/Uploader.v ===== *)
(** modular/uploader/upload_task.go: uploading an object in one request.  The payload
    stream is read segment by segment; every segment is put in the piece store under its
    key, the integrity hash of the checksums is compared with the one on the chain, and
    the integrity metadata and the progress of the object are written.

    The two hash functions are those of moca-common, the piece store is any
    [PieceStore].  [None] is a panic. *)
From Stdlib Require Import ZArith Lia String.
From stdpp Require Import base gmap list strings.
From S2P Require Import Prelude Sql Checksum Storage PieceStore PieceOp Hex UploadDb TaskKey Task TaskTypes TQueue.

Local Open Scope Z_scope.

(** ** Reading the stream *)

(** One [Read] into a buffer of [k] bytes: what it answers, and the rest of the stream. *)
Definition Read (k : nat) (r : reader) : bytes * option read_error * reader :=
  match chunks r with
  | c :: cs =>
    if (length c <=? k)%nat then (c, None, Reader cs (final r) (ending r))
    else (take k c, None, Reader (drop k c :: cs) (final r) (ending r))
  | [] =>
    if (length (final r) <=? k)%nat then (final r, Some (ending r), Reader [] [] (ending r))
    else (take k (final r), None, Reader [] (drop k (final r)) (ending r))
  end.

Inductive stream_error := StreamInvalidArgs | StreamRead (e : read_error).

#[export] Instance stream_error_eq_dec : EqDecision stream_error.
Proof. solve_decision. Defined.

(** The loop of [StreamReadAt]; a round that does not end it uses up a chunk. *)
Fixpoint read_at_loop (fuel : nat) (r : reader) (size : nat) (acc : bytes)
  : option (bytes * option stream_error * reader) :=
  match fuel with
  | O => None
  | S fuel =>
    let '(b, err, r) := Read (size - length acc) r in
    let acc := acc ++ b in
    match err with
    | Some e => Some (acc, Some (StreamRead e), r)
    | None => if (length acc =? size)%nat then Some (acc, None, r) else read_at_loop fuel r size acc
    end
  end.

(** [size] is the length of the buffer [b]. *)
Definition StreamReadAt (r : reader) (size : nat) : option (bytes * option stream_error * reader) :=
  if (size =? 0)%nat then Some ([], Some StreamInvalidArgs, r)
  else read_at_loop (length (chunks r) + 2) r size [].

(** ** Errors

    The errors of the module, and the errors of its calls where the code keeps them. *)

Inductive upload_error :=
| ErrDanglingUploadTask
| ErrNotCreatedState
| ErrRepeatedTask
| ErrInvalidIntegrity
| ErrClosedStream
| ErrInvalidUploadRequest
| ErrGetObjectUploadState
| ErrPayloadSize
| ErrInvalidResumeOffset
| ErrResumableInFlight
| ErrPieceStoreWithDetail (e : storage_error)
| ErrGfSpDBWithDetail (what : string) (e : db_error)
| ErrUploadQueue (e : queue_error)
| ErrClient (e : string)
| RawStore (e : storage_error)
| RawDb (e : db_error)
| RawStream (e : stream_error).

#[export] Instance upload_error_eq_dec : EqDecision upload_error.
Proof. solve_decision. Defined.

(** ** State *)

(** The fields of the chain's ObjectInfo that the uploader reads besides those of
    [TaskTypes.ObjectInfo]. *)
Record UploadInfo := mkUploadInfo {
  Id : Z;
  Version : Z;
  Checksums : list bytes;
  IsUpdating : bool;
  StatusCreated : bool;
}.

(** What the handlers write: the piece store, the database, and the objects for which the
    rejection of the sealing was started. *)
Record world (PS : Type) := mkWorld { store : PS; db : spdb; rejected : list Z }.
Arguments mkWorld {PS}.
Arguments store {PS}.
Arguments db {PS}.
Arguments rejected {PS}.

Definition PrimarySPRedundancyIndex : Z := -1.

Definition upload_task : Type := nat * GfSpUploadObjectTask.t.

(** A report to the manager that was started: the task's key and the error set on it. *)
Record report := mkReport { rep_key : TKey; rep_error : option upload_error }.

Record uploader (PS : Type) := mkUploader {
  uploadQueue : GfSpTQueue upload_task;
  uworld : world PS;
  reports : list report;
}.
Arguments mkUploader {PS}.
Arguments uploadQueue {PS}.
Arguments uworld {PS}.
Arguments reports {PS}.

Section uploader.
Context {PS : Type} `{!PieceStore PS}.
(** [hash.GenerateChecksum] and [hash.GenerateIntegrityHash]. *)
Context (GenerateChecksum : bytes -> bytes) (GenerateIntegrityHash : list bytes -> bytes).

(** ** PreUploadObject

    [begin] and [state] are the answers of the manager to CreateUploadObject and
    GetUploadObjectState; [valid] says that no pointer of the task is nil. *)
Definition PreUploadObject (now : Z) (valid : bool) (info : UploadInfo) (task : upload_task)
  (begin_ : option string) (state : option Z) (u : uploader PS) : uploader PS * option upload_error :=
  if negb valid then (u, Some ErrDanglingUploadTask)
  else if negb (StatusCreated info) && negb (IsUpdating info) then (u, Some ErrNotCreatedState)
  else
    let '(q, has) := Has now (qkey task) (uploadQueue u) in
    let u := mkUploader q (uworld u) (reports u) in
    if has then (u, Some ErrRepeatedTask)
    else
      match begin_ with
      | Some err => (u, Some (ErrClient err))
      | None =>
        match state with
        | None => (u, Some ErrGetObjectUploadState)
        | Some taskState =>
          if negb (CheckAllowUploadStatus taskState) then (u, Some ErrInvalidUploadRequest) else (u, None)
        end
      end.

(** ** HandleUploadObjectTask

    The result has the returned error and the value of the local variable [err], which
    the deferred function sets on the task before it is reported. *)
Definition outcome : Type := option (world PS * option upload_error * option upload_error).

Definition put_piece (now : Z) (key : string) (data : bytes) (w : world PS)
  : option (world PS * option storage_error) :=
  match PutPiece now (store w) key data with
  | None => None
  | Some (s, e) => Some (mkWorld s (db w) (rejected w), e)
  end.

(** After the integrity check: the size, then the database. *)
Definition record_upload (now : Z) (info : UploadInfo) (payloadSize : Z) (checksums : list bytes)
  (integrity : bytes) (readSize : Z) (w : world PS) : outcome :=
  if negb (uwrap 64 readSize =? payloadSize) then
    Some (mkWorld (store w) (db w) (rejected w ++ [Id info]), Some ErrPayloadSize, None)
  else
    let '(d, err) :=
      if IsUpdating info then
        SetShadowObjectIntegrity
          (mkShadowMeta (Id info) PrimarySPRedundancyIndex integrity checksums (Version info) (uwrap 64 readSize)) (db w)
      else
        SetObjectIntegrity
          (mkIntegrityMeta (Id info) PrimarySPRedundancyIndex integrity checksums (uwrap 64 readSize)) (db w) in
    let w := mkWorld (store w) d (rejected w) in
    match err with
    | Some e => Some (w, Some (ErrGfSpDBWithDetail "failed to write integrity hash to db" e), Some (RawDb e))
    | None =>
      let '(d, err) := UpdateUploadProgress now
        (mkUploadMeta (Id info) TaskState_UPLOAD_OBJECT_DONE 0 [] [] "" 0 false) (db w) in
      let w := mkWorld (store w) d (rejected w) in
      match err with
      | Some e => Some (w, Some (ErrGfSpDBWithDetail "failed to update upload progress" e), Some (RawDb e))
      | None => Some (w, None, None)
      end
    end.

(** After the last segment: the integrity hash against the one on the chain. *)
Definition finish_upload (now : Z) (info : UploadInfo) (payloadSize : Z) (agent : bool)
  (checksums : list bytes) (readSize : Z) (w : world PS) : outcome :=
  let integrity := GenerateIntegrityHash checksums in
  if negb agent then
    match Checksums info with
    | [] => None
    | expectedChecksum :: _ =>
      if negb (bool_decide (integrity = expectedChecksum)) then
        Some (w, Some ErrInvalidIntegrity, Some ErrInvalidIntegrity)
      else record_upload now info payloadSize checksums integrity readSize w
    end
  else record_upload now info payloadSize checksums integrity readSize w.

Fixpoint upload_loop (fuel : nat) (now : Z) (info : UploadInfo) (payloadSize : Z) (agent : bool)
  (segmentSize : nat) (stream : reader) (segIdx : Z) (checksums : list bytes) (readSize : Z)
  (w : world PS) : outcome :=
  match fuel with
  | O => None
  | S fuel =>
    match StreamReadAt stream segmentSize with
    | None => None
    | Some (data, err, stream) =>
      let readN := len data in
      let readSize := (readSize +' readN)%go in
      let pieceKey := SegmentPieceKey (Id info) segIdx (Version info) in
      match err with
      | Some (StreamRead EOF) =>
        if negb (readN =? 0) then
          let checksums := checksums ++ [GenerateChecksum data] in
          match put_piece now pieceKey data w with
          | None => None
          | Some (w, Some e) => Some (w, Some (ErrPieceStoreWithDetail e), Some (RawStore e))
          | Some (w, None) => finish_upload now info payloadSize agent checksums readSize w
          end
        else finish_upload now info payloadSize agent checksums readSize w
      | Some e => Some (w, Some ErrClosedStream, Some (RawStream e))
      | None =>
        let checksums := checksums ++ [GenerateChecksum data] in
        match put_piece now pieceKey data w with
        | None => None
        | Some (w, Some e) => Some (w, Some (ErrPieceStoreWithDetail e), Some (RawStore e))
        | Some (w, None) =>
          upload_loop fuel now info payloadSize agent segmentSize stream (uwrap 32 (segIdx + 1)) checksums readSize w
        end
      end
    end
  end.

(** A round that does not end the loop takes a whole segment from the stream. *)
Definition upload_fuel (stream : reader) : nat := length (delivered stream) + 1.

Definition HandleUploadObjectTask (now : Z) (info : UploadInfo) (task : upload_task) (stream : reader)
  (u : uploader PS) : option (uploader PS * option upload_error) :=
  let '(q, pushed) := Push now task (uploadQueue u) in
  match pushed with
  | Some e => Some (mkUploader q (uworld u) (reports u), Some (ErrUploadQueue e))
  | None =>
    let obj := GfSpUploadObjectTask.ObjectInfo_ task.2 in
    let segmentSize := MaxSegmentPieceSize (PayloadSize obj)
      (MaxSegmentSize (GfSpUploadObjectTask.StorageParams task.2)) in
    if segmentSize <? 0 then None
    else
      match upload_loop (upload_fuel stream) now info (PayloadSize obj) (GfSpUploadObjectTask.IsAgentUpload task.2)
              (Z.to_nat segmentSize) stream 0 [] 0 (uworld u) with
      | None => None
      | Some (w, ret, err) =>
        let '(q, _) := PopByKey now (qkey task) q in
        Some (mkUploader q w (reports u ++ [mkReport (qkey task) err]), ret)
      end
  end.
End uploader.
