(* ===== verification/UploadFacts.v ===== *)
(** Facts about uploading: what the stream reader returns, the segments of a payload, and
    what a run of the upload loop has done when it ends. *)
From Stdlib Require Import ZArith Lia String.
From stdpp Require Import base gmap list strings pretty.
From S2P Require Import Prelude Sql Checksum Storage PieceStore PieceOp Hex UploadDb TaskKey Task TaskTypes TQueue Uploader.

Local Open Scope Z_scope.

(** ** The stream reader *)

Lemma read_at_loop_spec fuel r size acc :
  (length acc < size)%nat -> (length (chunks r) < fuel)%nat ->
  exists data err r', read_at_loop fuel r size acc = Some (acc ++ data, err, r') /\
    data = take (size - length acc) (delivered r) /\ delivered r' = drop (size - length acc) (delivered r) /\
    ending r' = ending r /\
    match err with
    | None => (length acc + length data)%nat = size
    | Some e => e = StreamRead (ending r) /\ (length acc + length (delivered r) <= size)%nat
    end.
Proof.
  revert r acc. induction fuel as [|fuel IH]; intros r acc Hacc Hf; [lia|]. cbn [read_at_loop].
  destruct r as [ [|c cs] fin e]; unfold Read; cbn [chunks final ending] in *.
  - unfold delivered. cbn [chunks final concat app]. destruct (Nat.leb_spec (length fin) (size - length acc)).
    + exists fin, (Some (StreamRead e)), (Reader [] [] e). split; [done|]. cbn.
      rewrite take_ge, drop_ge by lia. repeat split; lia.
    + rewrite length_app, length_take. replace (length acc + _)%nat with size by lia. rewrite Nat.eqb_refl.
      eexists _, None, _. split; [done|]. cbn. repeat split. rewrite length_take. lia.
  - unfold delivered. cbn [chunks final concat]. destruct (Nat.leb_spec (length c) (size - length acc)) as [Hle|Hgt].
    + rewrite length_app. destruct (Nat.eqb_spec (length acc + length c) size) as [Heq|Hne].
      * eexists _, None, _. split; [done|]. cbn. rewrite <-app_assoc.
        rewrite take_app_le by lia. rewrite take_ge by lia. rewrite drop_app_ge by lia.
        replace (size - length acc - length c)%nat with 0%nat by lia. done.
      * destruct (IH (Reader cs fin e) (acc ++ c)) as (data & err & r' & -> & Hd & Hr' & He & Herr);
          [rewrite length_app; lia|cbn in *; lia|].
        exists (c ++ data), err, r'. split; [by rewrite app_assoc|].
        rewrite length_app in *. rewrite <-app_assoc. unfold delivered in *. cbn in *.
        rewrite take_app_ge, drop_app_ge by lia.
        replace (size - length acc - length c)%nat with (size - (length acc + length c))%nat by lia.
        rewrite <-Hd, <-Hr'. repeat split; [done|]. destruct err as [e'|]; rewrite !length_app in *; [|lia].
        destruct Herr as [-> ?]. split; [done|lia].
    + rewrite length_app, length_take. replace (length acc + _)%nat with size by lia. rewrite Nat.eqb_refl.
      eexists _, None, _. split; [done|]. cbn. rewrite <-!app_assoc.
      rewrite take_app_le, drop_app_le by lia. repeat split. rewrite length_take. lia.
Qed.

(** A full read, or the end of the stream. *)
Lemma StreamReadAt_spec r size :
  (0 < size)%nat ->
  exists err r', StreamReadAt r size = Some (take size (delivered r), err, r') /\
    delivered r' = drop size (delivered r) /\ ending r' = ending r /\
    match err with
    | None => (size <= length (delivered r))%nat
    | Some e => e = StreamRead (ending r) /\ (length (delivered r) <= size)%nat
    end.
Proof.
  intros Hs. unfold StreamReadAt. destruct (Nat.eqb_spec size 0); [lia|].
  destruct (read_at_loop_spec (length (chunks r) + 2) r size []) as (data & err & r' & -> & Hd & Hr & He & Herr);
    [cbn; lia|lia|]. cbn in *. rewrite Nat.sub_0_r in *. exists err, r'. subst data. repeat split; [done..|].
  destruct err; [done|]. rewrite length_take in Herr. lia.
Qed.

(** ** Segments *)

Definition segment (n : nat) (P : bytes) (i : nat) : bytes := take n (drop (i * n) P).

(** The number of segments of a payload. *)
Definition segments_count (n : nat) (P : bytes) : nat := (length P + n - 1) / n.

Section segments.
Context (n : nat) (Hn : (0 < n)%nat).
Implicit Types (P : bytes) (i : nat).

Lemma count_spec P i : (i < segments_count n P)%nat <-> (i * n < length P)%nat.
Proof using Hn.
  unfold segments_count. split; intros H.
  - assert (i + 1 <= (length P + n - 1) / n)%nat as H' by lia.
    pose proof (Nat.Div0.mul_div_le (length P + n - 1) n). nia.
  - assert ((i + 1) <= (length P + n - 1) / n)%nat; [|lia]. apply Nat.div_le_lower_bound; lia.
Qed.

Lemma segment_last P i : (length P <= (i + 1) * n)%nat -> segment n P i = drop (i * n) P.
Proof. intros. unfold segment. apply take_ge. rewrite length_drop. lia. Qed.

(** The segments make up the payload. *)
Lemma concat_segments P k :
  concat (segment n P <$> seq 0 k) = take (k * n) P.
Proof using Hn.
  induction k as [|k IH]; [done|]. rewrite seq_S, fmap_app, concat_app, IH. cbn.
  rewrite app_nil_r. unfold segment.
  replace (n + k * n)%nat with (k * n + n)%nat by lia.
  rewrite <-(take_drop (k * n) P) at 3. rewrite take_app.
  rewrite take_take, length_take. destruct (decide (k * n <= length P)%nat).
  - replace (Nat.min (k * n) (length P)) with (k * n)%nat by lia.
    replace (Nat.min (k * n + n) (k * n)) with (k * n)%nat by lia.
    replace (k * n + n - k * n)%nat with n by lia. done.
  - rewrite (drop_ge P) by lia. rewrite !take_nil, !app_nil_r. rewrite !take_ge by lia. done.
Qed.
End segments.

(** ** The upload loop *)

Definition seg_key (info : UploadInfo) (i : nat) : string := SegmentPieceKey (Id info) (Z.of_nat i) (Version info).

Lemma seg_key_nonempty info i : seg_key info i <> ""%string.
Proof. unfold seg_key, SegmentPieceKey. by destruct (Version info =? 0). Qed.

Lemma seg_key_inj info i j : seg_key info i = seg_key info j -> i = j.
Proof. intros (_ & H & _)%SegmentPieceKey_inj. lia. Qed.

Section run.
Context {PS : Type} `{!PieceStore PS}.
Context (GenerateChecksum : bytes -> bytes) (GenerateIntegrityHash : list bytes -> bytes).
Implicit Types (w : world PS) (info : UploadInfo) (P : bytes).

Definition checksums_of (n : nat) P (k : nat) : list bytes := (fun i => GenerateChecksum (segment n P i)) <$> seq 0 k.

Lemma checksums_of_S n P k : checksums_of n P k ++ [GenerateChecksum (segment n P k)] = checksums_of n P (S k).
Proof. unfold checksums_of. by rewrite seq_S, fmap_app. Qed.

Section sound.
Context `{!PieceStoreSound PS}.

(** The first [k] segments of the payload are in the store. *)
Definition stored_upto info (n : nat) P (k : nat) w : Prop :=
  forall i, (i < k)%nat -> pss_at (store w) (seg_key info i) = Some (segment n P i).

(** Only the segments' keys may have changed. *)
Definition others_kept info (k : nat) w w' : Prop :=
  forall key, (forall i, (i < k)%nat -> key <> seg_key info i) -> pss_at (store w') key = pss_at (store w) key.

Lemma put_segment now info n P i w w' e :
  pss_ok (store w) -> stored_upto info n P i w ->
  put_piece now (seg_key info i) (segment n P i) w = Some (w', e) ->
  pss_ok (store w') /\ db w' = db w /\ rejected w' = rejected w /\ others_kept info (S i) w w' /\
  (e = None -> stored_upto info n P (S i) w').
Proof.
  intros Hok Hst. unfold put_piece. destruct (PutPiece _ _ _ _) as [ [s' e']|] eqn:Hp; [|done]. intros [= <- <-].
  destruct (put_sound now (store w) _ _ s' e' Hok (seg_key_nonempty info i) Hp) as (Hok' & Hoth & Hnew).
  repeat split; [done| |].
  - intros key Hk. cbn. apply Hoth. apply Hk. lia.
  - intros He j Hj. cbn. destruct (decide (j = i)) as [->|Hne]; [by apply Hnew|].
    rewrite Hoth by (by intros E%seg_key_inj). apply Hst. lia.
Qed.

Definition run_spec now info payloadSize agent (n : nat) P (e0 : read_error) w w' (ret err : option upload_error) : Prop :=
  (exists w1, e0 = EOF /\ pss_ok (store w1) /\ stored_upto info n P (segments_count n P) w1 /\
     others_kept info (segments_count n P) w w1 /\ db w1 = db w /\ rejected w1 = rejected w /\
     finish_upload GenerateIntegrityHash now info payloadSize agent
       (checksums_of n P (segments_count n P)) (len P) w1 = Some (w', ret, err)) \/
  (exists e err', ret = Some e /\ err = Some err' /\ db w' = db w /\ rejected w' = rejected w /\
     others_kept info (segments_count n P) w w').

Lemma others_trans info j k w w1 w2 :
  (j <= k)%nat -> others_kept info j w w1 -> others_kept info k w1 w2 -> others_kept info k w w2.
Proof. intros Hjk H1 H2 key Hk. rewrite H2 by done. apply H1. intros i Hi. apply Hk. lia. Qed.

Lemma upload_loop_spec now info payloadSize agent n P e0 fuel w ws i stream w' ret err :
  (0 < n)%nat -> is_int64 (len P) -> Z.of_nat (segments_count n P) <= MaxUint32 ->
  (i * n <= length P)%nat -> delivered stream = drop (i * n) P -> ending stream = e0 ->
  pss_ok (store w) -> stored_upto info n P i w -> others_kept info (segments_count n P) ws w ->
  db w = db ws -> rejected w = rejected ws ->
  upload_loop GenerateChecksum GenerateIntegrityHash fuel now info payloadSize agent n stream (Z.of_nat i)
    (checksums_of n P i) (Z.of_nat (i * n)) w = Some (w', ret, err) ->
  run_spec now info payloadSize agent n P e0 ws w' ret err.
Proof.
  intros Hn Hlen Hcount. revert w i stream. induction fuel as [|fuel IH]; intros w i stream Hi Hd He Hok Hst Hoth Hdb Hrej; [done|].
  cbn [upload_loop]. destruct (StreamReadAt_spec stream n Hn) as (er & stream' & -> & Hd' & He' & Her).
  rewrite Hd in *. fold (segment n P i). rewrite length_drop in Her.
  fold (seg_key info i).
  assert (Hfull : (i * n < length P)%nat -> (i < segments_count n P)%nat) by by rewrite count_spec.
  assert (Hread : Z.of_nat (i * n) + len (segment n P i) = Z.min (Z.of_nat ((i + 1) * n)) (len P)).
  { unfold len, segment. rewrite length_take, length_drop. lia. }
  assert (Hlast : er <> None -> (length P <= (i + 1) * n)%nat).
  { intros Hne. destruct er as [e|]; [|done]. destruct Her. lia. }
  assert (Hmin : er <> None -> (Z.of_nat (i * n) +' len (segment n P i))%go = len P).
  { intros Hne. rewrite Hread. specialize (Hlast Hne). rewrite int64_wrap_id; unfold len in *; [lia|].
    replace (Z.of_nat ((i + 1) * n) `min` Z.of_nat (length P)) with (Z.of_nat (length P)) by lia. done. }
  destruct er as [e|].
  - destruct Her as [-> _]. rewrite Hmin, He by done. destruct e0.
    + destruct (Z.eqb_spec (len (segment n P i)) 0) as [Hz|Hz]; cbn [negb].
      * intros Hfin. left. exists w. assert (segments_count n P = i) as Hc.
        { unfold len in Hz, Hread. assert (~ (i < segments_count n P)%nat) by (rewrite count_spec by done; lia).
          destruct i; [lia|]. assert (i < segments_count n P)%nat by (apply count_spec; lia). lia. }
        rewrite Hc in *. split_and!; done.
      * destruct (put_piece _ _ _ _) as [ [w1 e1]|] eqn:Hp; [|done].
        destruct (put_segment _ _ _ _ _ _ _ _ Hok Hst Hp) as (Hok1 & Hdb1 & Hrej1 & Hoth1 & Hst1).
        assert (segments_count n P = S i) as Hc.
        { assert (i < segments_count n P)%nat by (apply Hfull; unfold len in *; lia).
          assert (~ (S i < segments_count n P)%nat) by (rewrite count_spec by done; specialize (Hlast ltac:(done)); lia). lia. }
        destruct e1 as [e1|]; [intros [= <- <- <-]; right; eexists _, _|].
        { rewrite Hdb1, Hrej1. repeat split; [done..|]. rewrite Hc in *. by eapply others_trans. }
        rewrite checksums_of_S. intros Hfin. left. exists w1. rewrite Hc in *. rewrite Hdb1, Hrej1.
        repeat split; [done|by apply Hst1| |done..]. by eapply others_trans.
    + intros [= <- <- <-]. right. eexists _, _. by repeat split.
    + intros [= <- <- <-]. right. eexists _, _. by repeat split.
  - assert (i < segments_count n P)%nat as Hic by (apply Hfull; lia).
    destruct (put_piece _ _ _ _) as [ [w1 e1]|] eqn:Hp; [|done].
    destruct (put_segment _ _ _ _ _ _ _ _ Hok Hst Hp) as (Hok1 & Hdb1 & Hrej1 & Hoth1 & Hst1).
    assert (others_kept info (segments_count n P) ws w1) as Hoth'.
    { intros key Hk. rewrite Hoth1; [by apply Hoth|]. intros j Hj. apply Hk. lia. }
    destruct e1 as [e1|]; [intros [= <- <- <-]; right; eexists _, _|].
    { rewrite Hdb1, Hrej1. by repeat split. }
    rewrite checksums_of_S, Hread. replace (uwrap 32 (Z.of_nat i + 1)) with (Z.of_nat (S i)).
    2:{ unfold uwrap. rewrite Z.mod_small; go_unfold; lia. }
    replace (swrap 64 (Z.min (Z.of_nat ((i + 1) * n)) (len P))) with (Z.of_nat (S i * n)).
    2:{ rewrite int64_wrap_id; unfold len in *; go_unfold; lia. }
    apply IH; [lia| |by rewrite He'|done|by apply Hst1|done|congruence|congruence].
    rewrite Hd', drop_drop. f_equal. lia.
Qed.
End sound.

(** With a store that does not fail, a stream that ends gets to the finish. *)
Lemma upload_loop_returns `{PL : PieceStoreLaws PS} now info payloadSize agent n P fuel w i stream :
  (0 < n)%nat -> is_int64 (len P) -> Z.of_nat (segments_count n P) <= MaxUint32 ->
  (i * n <= length P)%nat -> delivered stream = drop (i * n) P -> ending stream = EOF ->
  ps_ok (store w) -> (length P - i * n < fuel)%nat ->
  exists w1, ps_ok (store w1) /\ db w1 = db w /\ rejected w1 = rejected w /\
    upload_loop GenerateChecksum GenerateIntegrityHash fuel now info payloadSize agent n stream (Z.of_nat i)
      (checksums_of n P i) (Z.of_nat (i * n)) w =
    finish_upload GenerateIntegrityHash now info payloadSize agent
      (checksums_of n P (segments_count n P)) (len P) w1.
Proof.
  intros Hn Hlen Hcount. revert w i stream. induction fuel as [|fuel IH]; intros w i stream Hi Hd He Hok Hf; [lia|].
  cbn [upload_loop]. destruct (StreamReadAt_spec stream n Hn) as (er & stream' & -> & Hd' & He' & Her).
  rewrite Hd in *. fold (segment n P i). rewrite length_drop in Her. fold (seg_key info i).
  assert (Hread : Z.of_nat (i * n) + len (segment n P i) = Z.min (Z.of_nat ((i + 1) * n)) (len P)).
  { unfold len, segment. rewrite length_take, length_drop. lia. }
  destruct (put_piece_law now (store w) (seg_key info i) (segment n P i) Hok (seg_key_nonempty info i)) as (s1 & Hp & Hok1 & _).
  unfold put_piece. rewrite Hp. destruct er as [e|].
  - destruct Her as [-> Hle]. rewrite He.
    assert ((Z.of_nat (i * n) +' len (segment n P i))%go = len P) as ->.
    { rewrite Hread, int64_wrap_id; unfold len in *; [lia|].
      replace (Z.of_nat ((i + 1) * n) `min` Z.of_nat (length P)) with (Z.of_nat (length P)) by lia. done. }
    destruct (Z.eqb_spec (len (segment n P i)) 0) as [Hz|Hz]; cbn [negb].
    + exists w. repeat split; [done|]. assert (segments_count n P = i) as ->; [|done].
      unfold len in Hz, Hread. assert (~ (i < segments_count n P)%nat) by (rewrite count_spec by done; lia).
      destruct i; [lia|]. assert (i < segments_count n P)%nat by (apply count_spec; lia). lia.
    + eexists (mkWorld s1 (db w) (rejected w)). repeat split; [done|]. rewrite checksums_of_S.
      assert (segments_count n P = S i) as ->; [|done].
      assert (i < segments_count n P)%nat by (apply count_spec; unfold len in *; lia).
      assert (~ (S i < segments_count n P)%nat) by (rewrite count_spec by done; lia). lia.
  - assert (i < segments_count n P)%nat as Hic by (apply count_spec; lia).
    rewrite checksums_of_S, Hread. replace (uwrap 32 (Z.of_nat i + 1)) with (Z.of_nat (S i)).
    2:{ unfold uwrap. rewrite Z.mod_small; go_unfold; lia. }
    replace (swrap 64 (Z.min (Z.of_nat ((i + 1) * n)) (len P))) with (Z.of_nat (S i * n)).
    2:{ rewrite int64_wrap_id; unfold len in *; go_unfold; lia. }
    destruct (IH (mkWorld s1 (db w) (rejected w)) (S i) stream') as (w1 & Hok' & Hdb & Hrej & Hl); [lia| |by rewrite He'|done|lia|].
    { rewrite Hd', drop_drop. f_equal. lia. }
    exists w1. by rewrite Hl.
Qed.
End run.
