(* ===== verification/UploadProps.v ===== *)
(** Properties of uploading in one request: a success means that the object is in the
    store, and a good stream succeeds. *)
From Stdlib Require Import ZArith Lia String.
From stdpp Require Import base gmap list strings pretty.
From S2P Require Import Prelude Sql Checksum Storage StorageLaws PieceStore PieceOp Hex UploadDb TaskKey Task TaskTypes TQueue Uploader UploadFacts.

Local Open Scope Z_scope.

(** ** Database calls *)

Lemma exec_spec stmt d d' r :
  exec stmt d = (d', r) ->
  fates d' = fates d /\ calls d' = S (calls d) /\
  (forall n, r = Ok n -> exists t, stmt (tabs d) = Ok (t, n) /\ tabs d' = t) /\
  (forall e, r = Err e -> e <> ErrConnection -> stmt (tabs d) = Err e /\ tabs d' = tabs d).
Proof.
  unfold exec, transaction. destruct (fates d (calls d)), (stmt (tabs d)) as [ [t n]|e]; intros [= <- <-]; cbn;
    naive_solver.
Qed.

Lemma exec_committed stmt d :
  fates d (calls d) = Committed ->
  exec stmt d = match stmt (tabs d) with
                | Ok (t, n) => (mkSpdb t (fates d) (S (calls d)), Ok n)
                | Err e => (mkSpdb (tabs d) (fates d) (S (calls d)), Err e)
                end.
Proof. intros Hf. unfold exec, transaction. rewrite Hf. by destruct (stmt (tabs d)) as [ [t n]|]. Qed.

Lemma integrity_table_set id m t : integrity_table id (set_integrity_table id m t) = m.
Proof. unfold integrity_table, set_integrity_table. cbn. by rewrite lookup_insert_eq. Qed.

(** A successful SetObjectIntegrity: the row that was there, or the new one. *)
Lemma SetObjectIntegrity_ok meta d d' :
  SetObjectIntegrity meta d = (d', None) ->
  let k := (ObjectID meta, RedundancyIndex meta) in
  integrity_table (ObjectID meta) (tabs d') !! k
    = Some (default (integrity_row meta) (integrity_table (ObjectID meta) (tabs d) !! k)) /\
  uploads (tabs d') = uploads (tabs d) /\ shadows (tabs d') = shadows (tabs d) /\ fates d' = fates d /\ calls d' = S (calls d).
Proof.
  intros H k. unfold SetObjectIntegrity in H. destruct (exec _ d) as [d1 r] eqn:He. injection H as -> Hr.
  apply exec_spec in He as (Hf & Hc & Hok & Herr). fold k in Hok, Herr. unfold create_row in *.
  destruct (integrity_table (ObjectID meta) (tabs d) !! k) as [row|] eqn:Hk.
  - destruct r as [n|e]; [destruct (Hok n eq_refl) as (? & ? & _); done|]. case_bool_decide as Hd; [|done]. subst e.
    destruct (Herr _ eq_refl ltac:(done)) as [_ ->]. cbn. by rewrite Hk.
  - destruct r as [n|e].
    + destruct (Hok n eq_refl) as (t & [= <- <-] & ->). rewrite integrity_table_set, lookup_insert_eq. done.
    + case_bool_decide as Hd; [|done]. subst e. destruct (Herr _ eq_refl ltac:(done)) as [H _]. done.
Qed.

Lemma SetShadowObjectIntegrity_ok meta d d' :
  SetShadowObjectIntegrity meta d = (d', None) ->
  let k := (sm_ObjectID meta, sm_RedundancyIndex meta) in
  shadows (tabs d') !! k = Some (default (shadow_row meta) (shadows (tabs d) !! k)) /\
  uploads (tabs d') = uploads (tabs d) /\ integrity (tabs d') = integrity (tabs d) /\ fates d' = fates d /\ calls d' = S (calls d).
Proof.
  intros H k. unfold SetShadowObjectIntegrity in H. destruct (exec _ d) as [d1 r] eqn:He. injection H as -> Hr.
  apply exec_spec in He as (Hf & Hc & Hok & Herr). fold k in Hok, Herr. unfold create_row in *.
  destruct (shadows (tabs d) !! k) as [row|] eqn:Hk.
  - destruct r as [n|e]; [destruct (Hok n eq_refl) as (? & ? & _); done|]. case_bool_decide as Hd; [|done]. subst e.
    destruct (Herr _ eq_refl ltac:(done)) as [_ ->]. cbn. by rewrite Hk.
  - destruct r as [n|e].
    + destruct (Hok n eq_refl) as (t & [= <- <-] & ->). cbn. by rewrite lookup_insert_eq.
    + case_bool_decide as Hd; [|done]. subst e. destruct (Herr _ eq_refl ltac:(done)) as [H _]. done.
Qed.

Definition upload_done_meta (id : Z) : UploadObjectMeta :=
  mkUploadMeta id TaskState_UPLOAD_OBJECT_DONE 0 [] [] "" 0 false.

Lemma UpdateUploadProgress_done now id d d' :
  UpdateUploadProgress now (upload_done_meta id) d = (d', None) ->
  u_TaskState <$> uploads (tabs d') !! id = Some TaskState_UPLOAD_OBJECT_DONE /\
  integrity (tabs d') = integrity (tabs d) /\ shadows (tabs d') = shadows (tabs d).
Proof.
  unfold UpdateUploadProgress. cbn [um_SecondaryEndpoints upload_done_meta um_ObjectID].
  destruct (exec _ d) as [d1 r] eqn:He. intros [= -> Hr]. apply exec_spec in He as (_ & _ & Hok & _).
  destruct r as [n|]; [|done]. destruct (n =? 1) eqn:Hn; [|done]. zbool. subst n.
  destruct (Hok 1 eq_refl) as (t & Ht & ->). unfold update_upload in Ht.
  destruct (uploads (tabs d) !! id) as [row|]; [|done]. injection Ht as <- _. cbn. by rewrite lookup_insert_eq.
Qed.

Section props.
Context {PS : Type} `{!PieceStore PS}.
Context (GenerateChecksum : bytes -> bytes) (GenerateIntegrityHash : list bytes -> bytes).

(** What a success leaves in the database for an object with the checksums [cs]. *)
Definition upload_recorded (info : UploadInfo) (cs : list bytes) (size : Z) (t t' : tables) : Prop :=
  let k := (Id info, PrimarySPRedundancyIndex) in
  (if IsUpdating info then
     integrity t' = integrity t /\
     shadows t' !! k = Some (default
       (shadow_row (mkShadowMeta (Id info) PrimarySPRedundancyIndex (GenerateIntegrityHash cs) cs (Version info) size))
       (shadows t !! k))
   else
     shadows t' = shadows t /\
     integrity_table (Id info) t' !! k = Some (default
       (integrity_row (mkIntegrityMeta (Id info) PrimarySPRedundancyIndex (GenerateIntegrityHash cs) cs size))
       (integrity_table (Id info) t !! k))) /\
  u_TaskState <$> uploads t' !! Id info = Some TaskState_UPLOAD_OBJECT_DONE.

Lemma finish_upload_ok now info payloadSize agent cs size (w w' : world PS) err :
  finish_upload GenerateIntegrityHash now info payloadSize agent cs size w = Some (w', None, err) ->
  err = None /\ (agent = false -> head (Checksums info) = Some (GenerateIntegrityHash cs)) /\
  uwrap 64 size = payloadSize /\ store w' = store w /\ rejected w' = rejected w /\
  upload_recorded info cs (uwrap 64 size) (tabs (db w)) (tabs (db w')).
Proof.
  unfold finish_upload. intros H.
  assert (record_upload now info payloadSize cs (GenerateIntegrityHash cs) size w = Some (w', None, err) /\
    (agent = false -> head (Checksums info) = Some (GenerateIntegrityHash cs))) as [Hr Hag].
  { destruct agent; cbn [negb] in H; [done|]. destruct (Checksums info) as [|c ?]; [done|].
    case_bool_decide as Hc; [|done]. cbn [negb] in H. by subst c. }
  clear H. unfold record_upload in Hr. destruct (Z.eqb_spec (uwrap 64 size) payloadSize) as [Hsz|]; [|done].
  cbn [negb] in Hr. unfold upload_recorded. destruct (IsUpdating info).
  - destruct (SetShadowObjectIntegrity _ (db w)) as [d1 [e|] ] eqn:Hs; [done|]. cbn [db] in Hr.
    destruct (UpdateUploadProgress _ _ d1) as [d2 [e|] ] eqn:Hu; [done|]. injection Hr as <- <-. cbn [db store rejected].
    apply SetShadowObjectIntegrity_ok in Hs as (Hrow & _ & Hint & _). apply UpdateUploadProgress_done in Hu as (Hup & Hint' & Hsh').
    rewrite Hsh', Hint'. done.
  - destruct (SetObjectIntegrity _ (db w)) as [d1 [e|] ] eqn:Hs; [done|]. cbn [db] in Hr.
    destruct (UpdateUploadProgress _ _ d1) as [d2 [e|] ] eqn:Hu; [done|]. injection Hr as <- <-. cbn [db store rejected].
    apply SetObjectIntegrity_ok in Hs as (Hrow & _ & Hsh & _). apply UpdateUploadProgress_done in Hu as (Hup & Hint' & Hsh').
    unfold integrity_table at 1. rewrite Hint', Hsh'. done.
Qed.

(** With a working database the records are written. *)
Lemma record_upload_returns now info payloadSize cs integ size (w : world PS) row :
  uwrap 64 size = payloadSize -> (forall k, fates (db w) k = Committed) ->
  uploads (tabs (db w)) !! Id info = Some row -> u_TaskState row <> TaskState_UPLOAD_OBJECT_DONE ->
  exists w', record_upload now info payloadSize cs integ size w = Some (w', None, None).
Proof.
  intros Hsz Hf Hrow Hstate. unfold record_upload. rewrite Hsz, Z.eqb_refl. cbn [negb].
  assert (forall d1, uploads (tabs d1) = uploads (tabs (db w)) -> fates d1 = fates (db w) ->
    exists d2, UpdateUploadProgress now (upload_done_meta (Id info)) d1 = (d2, None)) as Hupd.
  { intros d1 Hu1 Hf1. unfold UpdateUploadProgress. cbn [um_SecondaryEndpoints upload_done_meta um_ObjectID].
    rewrite (bool_decide_true ([] = [])) by done. cbn [negb].
    rewrite exec_committed by (by rewrite Hf1). unfold update_upload. rewrite Hu1, Hrow.
    rewrite bool_decide_false; [eauto|]. intros Heq. apply Hstate. rewrite <-Heq. done. }
  destruct (IsUpdating info).
  - destruct (SetShadowObjectIntegrity _ (db w)) as [d1 e] eqn:Hs. assert (e = None) as ->.
    { unfold SetShadowObjectIntegrity in Hs. rewrite exec_committed in Hs by done. unfold create_row in Hs.
      by destruct (shadows _ !! _); injection Hs as _ <-. }
    apply SetShadowObjectIntegrity_ok in Hs as (_ & Hu & _ & Hf' & _).
    destruct (Hupd d1 Hu Hf') as [d2 H2]. cbn [db]. unfold upload_done_meta in H2. rewrite H2. eauto.
  - destruct (SetObjectIntegrity _ (db w)) as [d1 e] eqn:Hs. assert (e = None) as ->.
    { unfold SetObjectIntegrity in Hs. rewrite exec_committed in Hs by done. unfold create_row in Hs.
      by destruct (integrity_table _ _ !! _); injection Hs as _ <-. }
    apply SetObjectIntegrity_ok in Hs as (Hu0 & Hu & _ & Hf' & _).
    destruct (Hupd d1 Hu Hf') as [d2 H2]. cbn [db]. unfold upload_done_meta in H2. rewrite H2. eauto.
Qed.

(** The size of a segment of the task's object. *)
Definition task_segment_size (task : upload_task) : nat :=
  Z.to_nat (MaxSegmentPieceSize (PayloadSize (GfSpUploadObjectTask.ObjectInfo_ task.2))
              (MaxSegmentSize (GfSpUploadObjectTask.StorageParams task.2))).
End props.

(** A stream that ends gets the handler to the finish, when the store works. *)
Lemma handle_to_finish {PS} `{PL : PieceStoreLaws PS} GenerateChecksum GenerateIntegrityHash
  now info task stream (u : uploader PS) q :
  let n := task_segment_size task in
  let P := delivered stream in
  let obj := GfSpUploadObjectTask.ObjectInfo_ task.2 in
  0 < PayloadSize obj -> is_int64 (PayloadSize obj) ->
  0 < MaxSegmentSize (GfSpUploadObjectTask.StorageParams task.2) <= MaxInt64 ->
  Z.of_nat (segments_count n P) <= MaxUint32 -> is_int64 (len P) -> ending stream = EOF ->
  Push now task (uploadQueue u) = (q, None) -> ps_ok (store (uworld u)) ->
  exists w1 q', db w1 = db (uworld u) /\ rejected w1 = rejected (uworld u) /\
    HandleUploadObjectTask GenerateChecksum GenerateIntegrityHash now info task stream u =
    match finish_upload GenerateIntegrityHash now info (PayloadSize obj) (GfSpUploadObjectTask.IsAgentUpload task.2)
            (checksums_of GenerateChecksum n P (segments_count n P)) (len P) w1 with
    | Some (w', ret, err) => Some (mkUploader q' w' (reports u ++ [mkReport (qkey task) err]), ret)
    | None => None
    end.
Proof.
  intros n P obj Hpos Hint Hmax Hcount Hlen He Hq Hok. unfold HandleUploadObjectTask.
  rewrite Hq. fold (task_segment_size task). fold n. fold obj.
  assert (0 < MaxSegmentPieceSize (PayloadSize obj) (MaxSegmentSize (GfSpUploadObjectTask.StorageParams task.2))) as Hseg.
  { unfold MaxSegmentPieceSize. destruct (_ >? _); rewrite int64_wrap_id by go_lia; lia. }
  destruct (Z.ltb_spec (MaxSegmentPieceSize (PayloadSize obj) (MaxSegmentSize (GfSpUploadObjectTask.StorageParams task.2))) 0); [lia|].
  assert (0 < n)%nat as Hn by (unfold n, task_segment_size; fold obj; lia).
  destruct (upload_loop_returns GenerateChecksum GenerateIntegrityHash now info (PayloadSize obj)
    (GfSpUploadObjectTask.IsAgentUpload task.2) n P (upload_fuel stream) (uworld u) 0%nat stream)
    as (w1 & _ & Hdb & Hrej & Hl); [done..|lia|done|done|done|unfold upload_fuel; fold P; lia|].
  change (Z.of_nat (0 * n)) with 0 in Hl. change (Z.of_nat 0) with 0 in Hl.
  change (checksums_of GenerateChecksum n P 0) with (@nil bytes) in Hl. rewrite Hl.
  exists w1, (PopByKey now (qkey task) q).1. split; [done|]. split; [done|].
  destruct (finish_upload _ _ _ _ _ _ _ _) as [ [ [w' ret] err]|]; [|done]. by destruct (PopByKey now (qkey task) q).
Qed.

(** What an upload that returns no error has done. *)
Lemma upload_success {PS} `{!PieceStore PS} `{!PieceStoreSound PS} GenerateChecksum GenerateIntegrityHash
  now info task stream (u u' : uploader PS) :
  let n := task_segment_size task in
  let P := delivered stream in
  let count := segments_count n P in
  is_int64 (len P) -> Z.of_nat count <= MaxUint32 -> pss_ok (store (uworld u)) ->
  HandleUploadObjectTask GenerateChecksum GenerateIntegrityHash now info task stream u = Some (u', None) ->
  pss_ok (store (uworld u')) /\ (0 < n)%nat /\ ending stream = EOF /\ len P = PayloadSize (GfSpUploadObjectTask.ObjectInfo_ task.2) /\
  (forall i, (i < count)%nat -> pss_at (store (uworld u')) (seg_key info i) = Some (segment n P i)) /\
  (forall key, (forall i, (i < count)%nat -> key <> seg_key info i) ->
     pss_at (store (uworld u')) key = pss_at (store (uworld u)) key) /\
  (GfSpUploadObjectTask.IsAgentUpload task.2 = false ->
     head (Checksums info) = Some (GenerateIntegrityHash (checksums_of GenerateChecksum n P count))) /\
  upload_recorded GenerateIntegrityHash info (checksums_of GenerateChecksum n P count) (len P)
    (tabs (db (uworld u))) (tabs (db (uworld u'))) /\
  rejected (uworld u') = rejected (uworld u) /\
  reports u' = reports u ++ [mkReport (qkey task) None].
Proof.
  intros n P count Hlen Hcount Hok H. unfold HandleUploadObjectTask in H.
  destruct (Push now task (uploadQueue u)) as [q [e|] ]; [done|]. fold (task_segment_size task) in H. fold n in H.
  destruct (_ <? 0) eqn:Hneg; [done|]. destruct (upload_loop _ _ _ _ _ _ _ _ _ _ _ _ _) as [ [ [w' ret] err]|] eqn:Hl; [|done].
  destruct (PopByKey now (qkey task) q) as [q' o]. injection H as <- ->. cbn [uworld reports].
  destruct (Nat.eq_dec n 0%nat) as [Hz|Hnz].
  { unfold upload_fuel in Hl. rewrite Hz in Hl. rewrite Nat.add_comm in Hl. cbn in Hl. done. }
  apply (upload_loop_spec _ _ now info _ _ n P (ending stream) _ (uworld u) (uworld u) 0%nat stream) in Hl;
    [|lia|done|done|lia|by rewrite drop_0|done|done|intros ? ?; lia|done|done|done].
  destruct Hl as [(w1 & He & Hok1 & Hst & Hoth & Hdb & Hrej & Hfin)|(e & ? & ? & _)]; [|done].
  apply finish_upload_ok in Hfin as (-> & Hag & Hsz & Hs & Hr & Hrec).
  assert (uwrap 64 (len P) = len P) as Hw by (apply uint64_wrap_id; unfold len in *; go_unfold; lia).
  rewrite Hw in *. rewrite Hdb in Hrec. rewrite Hs, Hr. split_and!; done || lia.
Qed.

(** C2: an upload that returns no error has uploaded the object, whatever the database did
    and whichever puts failed before: the stream ended with EOF after exactly the payload
    size, every segment of it is in the piece store under its key and no other piece
    changed, the integrity hash of the segments' checksums is the one on the chain (but for
    agent uploads), the integrity metadata has a row, the progress is UPLOAD_OBJECT_DONE,
    and the task was reported without an error. *)
Theorem upload_sound {PS} `{!PieceStore PS} `{!PieceStoreSound PS} GenerateChecksum GenerateIntegrityHash
  now info task stream (u u' : uploader PS) :
  let n := task_segment_size task in
  let P := delivered stream in
  let count := segments_count n P in
  is_int64 (len P) -> Z.of_nat count <= MaxUint32 -> pss_ok (store (uworld u)) ->
  HandleUploadObjectTask GenerateChecksum GenerateIntegrityHash now info task stream u = Some (u', None) ->
  ending stream = EOF /\ len P = PayloadSize (GfSpUploadObjectTask.ObjectInfo_ task.2) /\
  (forall i, (i < count)%nat -> pss_at (store (uworld u')) (seg_key info i) = Some (segment n P i)) /\
  (forall key, (forall i, (i < count)%nat -> key <> seg_key info i) ->
     pss_at (store (uworld u')) key = pss_at (store (uworld u)) key) /\
  (GfSpUploadObjectTask.IsAgentUpload task.2 = false ->
     head (Checksums info) = Some (GenerateIntegrityHash (checksums_of GenerateChecksum n P count))) /\
  upload_recorded GenerateIntegrityHash info (checksums_of GenerateChecksum n P count) (len P)
    (tabs (db (uworld u))) (tabs (db (uworld u'))) /\
  rejected (uworld u') = rejected (uworld u) /\
  reports u' = reports u ++ [mkReport (qkey task) None].
Proof.
  intros n P count Hlen Hcount Hok H. by apply upload_success in H as (_ & _ & ?).
Qed.

(** C33: a stream that ends with EOF after the payload size, whose integrity hash is the one
    on the chain, is uploaded without an error when the piece store and the database work,
    the queue takes the task and the object's progress is not UPLOAD_OBJECT_DONE yet. *)
Theorem upload_complete {PS} `{PL : PieceStoreLaws PS} GenerateChecksum GenerateIntegrityHash
  now info task stream (u : uploader PS) q row :
  let n := task_segment_size task in
  let P := delivered stream in
  let obj := GfSpUploadObjectTask.ObjectInfo_ task.2 in
  0 < PayloadSize obj -> is_int64 (PayloadSize obj) ->
  0 < MaxSegmentSize (GfSpUploadObjectTask.StorageParams task.2) <= MaxInt64 ->
  Z.of_nat (segments_count n P) <= MaxUint32 ->
  ending stream = EOF -> len P = PayloadSize obj ->
  (GfSpUploadObjectTask.IsAgentUpload task.2 = false ->
     head (Checksums info) = Some (GenerateIntegrityHash (checksums_of GenerateChecksum n P (segments_count n P)))) ->
  Push now task (uploadQueue u) = (q, None) -> ps_ok (store (uworld u)) ->
  (forall k, fates (db (uworld u)) k = Committed) ->
  uploads (tabs (db (uworld u))) !! Id info = Some row -> u_TaskState row <> TaskState_UPLOAD_OBJECT_DONE ->
  exists u', HandleUploadObjectTask GenerateChecksum GenerateIntegrityHash now info task stream u = Some (u', None).
Proof.
  intros n P obj Hpos Hint Hmax Hcount He Hlen Hag Hq Hok Hf Hrow Hstate.
  destruct (handle_to_finish GenerateChecksum GenerateIntegrityHash now info task stream u q)
    as (w1 & q' & Hdb & _ & ->); [done..|fold P; by rewrite Hlen|done|done|done|]. fold n P obj.
  set (cs := checksums_of GenerateChecksum n P (segments_count n P)) in *.
  destruct (record_upload_returns now info (PayloadSize obj) cs (GenerateIntegrityHash cs) (len P) w1 row)
    as [w2 Hr]; [rewrite Hlen; apply uint64_wrap_id; go_lia|by rewrite Hdb..|done|].
  unfold finish_upload. rewrite Hr. destruct (GfSpUploadObjectTask.IsAgentUpload task.2); cbn [negb]; [eauto|].
  specialize (Hag eq_refl). destruct (Checksums info) as [|c ?]; [done|]. injection Hag as ->.
  rewrite bool_decide_true by done. cbn [negb]. eauto.
Qed.

(** A payload of the wrong size is refused with ErrPayloadSize and the object's sealing is
    rejected, but nothing sets that error on the task: it is reported to the manager as if
    the upload had succeeded.  The database is not written. *)
Theorem wrong_size_reported_without_error {PS} `{PL : PieceStoreLaws PS} GenerateChecksum GenerateIntegrityHash
  now info task stream (u : uploader PS) q :
  let n := task_segment_size task in
  let P := delivered stream in
  let obj := GfSpUploadObjectTask.ObjectInfo_ task.2 in
  0 < PayloadSize obj -> is_int64 (PayloadSize obj) ->
  0 < MaxSegmentSize (GfSpUploadObjectTask.StorageParams task.2) <= MaxInt64 ->
  Z.of_nat (segments_count n P) <= MaxUint32 -> is_int64 (len P) ->
  ending stream = EOF -> len P <> PayloadSize obj ->
  (GfSpUploadObjectTask.IsAgentUpload task.2 = false ->
     head (Checksums info) = Some (GenerateIntegrityHash (checksums_of GenerateChecksum n P (segments_count n P)))) ->
  Push now task (uploadQueue u) = (q, None) -> ps_ok (store (uworld u)) ->
  exists u', HandleUploadObjectTask GenerateChecksum GenerateIntegrityHash now info task stream u
      = Some (u', Some ErrPayloadSize) /\
    reports u' = reports u ++ [mkReport (qkey task) None] /\
    rejected (uworld u') = rejected (uworld u) ++ [Id info] /\ db (uworld u') = db (uworld u).
Proof.
  intros n P obj Hpos Hint Hmax Hcount Hplen He Hlen Hag Hq Hok.
  destruct (handle_to_finish GenerateChecksum GenerateIntegrityHash now info task stream u q)
    as (w1 & q' & Hdb & Hrej & ->); [done..|]. fold n P obj.
  set (cs := checksums_of GenerateChecksum n P (segments_count n P)) in *.
  assert (record_upload now info (PayloadSize obj) cs (GenerateIntegrityHash cs) (len P) w1
    = Some (mkWorld (store w1) (db w1) (rejected w1 ++ [Id info]), Some ErrPayloadSize, None)) as Hr.
  { unfold record_upload. rewrite uint64_wrap_id by (unfold len in *; go_unfold; lia).
    by rewrite (proj2 (Z.eqb_neq (len P) (PayloadSize obj)) Hlen). }
  unfold finish_upload. rewrite Hr, Hdb, Hrej. destruct (GfSpUploadObjectTask.IsAgentUpload task.2); cbn [negb]; [by eexists|].
  specialize (Hag eq_refl). destruct (Checksums info) as [|c ?]; [done|]. injection Hag as ->.
  rewrite bool_decide_true by done. cbn [negb]. by eexists.
Qed.

(** ** Witnesses: five bytes in segments of two *)

Local Definition ex_obj : ObjectInfo := mkObjectInfo "b" "o" 7 5 REDUNDANCY_EC_TYPE 0 false.
Local Definition ex_task : upload_task :=
  (0%nat, GfSpUploadObjectTask.InitUploadObjectTask 1 ex_obj (mkParams 2 4 2 100) 60 false 100 100).
Local Definition ex_info (checksum : bytes) : UploadInfo := mkUploadInfo 7 0 [checksum] false true.
Local Definition ex_stream : reader :=
  Reader [ [Byte.x61]; [Byte.x62; Byte.x63; Byte.x64] ] [Byte.x65] EOF.
Local Definition ex_u : uploader (StoreClient memoryStore) :=
  mkUploader (NewGfSpTQueue "upload" 10)
    (mkWorld (NewStoreClient "memory" (newMemoryStore "m"))
       (mkSpdb (mkTables ∅ ∅ ∅ {[ 7 := mkUploadRow 7 1 0 "" "" "" "" 1 1 false ]}) (fun _ => Committed) 0) []) [].

Lemma upload_sound_witness :
  exists u', HandleUploadObjectTask id (@concat Byte.byte) 200 (ex_info (delivered ex_stream)) ex_task ex_stream ex_u = Some (u', None) /\
    pss_at (store (uworld u')) "s7_s2" = Some [Byte.x65].
Proof.
  assert (exists u', HandleUploadObjectTask id (@concat Byte.byte) 200 (ex_info (delivered ex_stream)) ex_task ex_stream ex_u
    = Some (u', None)) as [u' Hu] by (eexists; vm_compute; reflexivity).
  exists u'. split; [exact Hu|].
  pose proof (upload_sound id (@concat Byte.byte) 200 (ex_info (delivered ex_stream)) ex_task ex_stream ex_u u'
    ltac:(vm_compute; split; discriminate) ltac:(vm_compute; discriminate) I Hu) as (_ & _ & H & _).
  exact (H 2%nat ltac:(vm_compute; lia)).
Defined.

Lemma upload_complete_witness :
  exists u', HandleUploadObjectTask id (@concat Byte.byte) 200 (ex_info (delivered ex_stream)) ex_task ex_stream ex_u = Some (u', None).
Proof.
  apply (upload_complete id (@concat Byte.byte) 200 (ex_info (delivered ex_stream)) ex_task ex_stream ex_u
    (Push 200 ex_task (uploadQueue ex_u)).1 (mkUploadRow 7 1 0 "" "" "" "" 1 1 false)); cbn;
    try done; try go_lia; vm_compute; try split; discriminate.
Defined.

Lemma wrong_size_reported_without_error_witness :
  exists u', HandleUploadObjectTask id (@concat Byte.byte) 200 (ex_info [Byte.x61]) ex_task (NewReader [Byte.x61]) ex_u
      = Some (u', Some ErrPayloadSize) /\
    reports u' = [mkReport (qkey ex_task) None] /\ rejected (uworld u') = [7] /\ db (uworld u') = db (uworld ex_u).
Proof.
  apply (wrong_size_reported_without_error id (@concat Byte.byte) 200 (ex_info [Byte.x61]) ex_task (NewReader [Byte.x61]) ex_u
    (Push 200 ex_task (uploadQueue ex_u)).1); cbn; try done; try go_lia; vm_compute; try split; discriminate.
Defined.
