(* ===== verification/Resumable.v ===== *)
(** modular/uploader/upload_task.go: uploading an object in several requests.  Each request
    reserves the object, so that one request at a time appends to it, and resumes at a
    segment boundary; the integrity metadata in the database is the progress, and what was
    uploaded before is verified and skipped when it is sent again.

    The accesses to [resumableInflight] (a sync.Map) are atomic; [reserveResumableObject]
    repeats its two accesses until nothing came between them, so it is one step here. *)
From Stdlib Require Import ZArith Lia String.
From stdpp Require Import base gmap list strings.
From S2P Require Import Prelude Sql Checksum Storage PieceStore PieceOp Hex UploadDb Limit TaskKey Task TaskTypes TQueue Uploader.

Local Open Scope Z_scope.

(** ** Reservations *)

Inductive resumableState := resumableRegistering | resumablePending | resumableAdopted.

#[export] Instance resumableState_eq_dec : EqDecision resumableState.
Proof. solve_decision. Defined.

(** A task is compared by its pointer. *)
Record resumableReservation := mkReservation { r_task : nat; r_state : resumableState; r_at : Z }.

#[export] Instance reservation_eq_dec : EqDecision resumableReservation.
Proof. solve_decision. Defined.

(** Nanoseconds. *)
Definition resumableReserveTTL : Z := 30 * 10 ^ 9.

Notation inflight_map := (gmap Z resumableReservation).

Definition stale (now : Z) (r : resumableReservation) : bool :=
  bool_decide (r_state r = resumablePending) && (now - r_at r >? resumableReserveTTL).

(** [mine] and the abandoned task, unless the object is taken. *)
Definition reserveResumableObject (now objectID : Z) (task : nat) (state : resumableState) (m : inflight_map)
  : inflight_map * option (resumableReservation * option nat) :=
  let mine := mkReservation task state now in
  match m !! objectID with
  | None => (<[objectID := mine]> m, Some (mine, None))
  | Some cur =>
    if bool_decide (state = resumableAdopted) && bool_decide (r_task cur = task) &&
       bool_decide (r_state cur = resumablePending)
    then (<[objectID := mine]> m, Some (mine, None))
    else if stale now cur then (<[objectID := mine]> m, Some (mine, Some (r_task cur)))
    else (m, None)
  end.

Definition CompareAndSwap (objectID : Z) (old new : resumableReservation) (m : inflight_map) : inflight_map :=
  if bool_decide (m !! objectID = Some old) then <[objectID := new]> m else m.

Definition CompareAndDelete (objectID : Z) (old : resumableReservation) (m : inflight_map) : inflight_map :=
  if bool_decide (m !! objectID = Some old) then delete objectID m else m.

(** The stale reservation has no time ([at] is zero). *)
Definition keepForRetire (objectID : Z) (held : resumableReservation) (task : nat) (m : inflight_map) : inflight_map :=
  CompareAndSwap objectID held (mkReservation task resumablePending 0) m.

(** ** The protocol of a request

    The reservation accesses of PreResumableUploadObject and
    HandleResumableUploadObjectTask, with the outcomes of the calls in between. *)

(** How the calls to the manager and the queue in the handler turn out. *)
Inductive pre_outcome :=
| DropAbandonedFails (abandoned : nat)
| RegisterFails
| RegisterCutShortDropFails
| Registered (now : Z).

Inductive handle_outcome :=
| HandleDropAbandonedFails (abandoned : nat)
| PushFailsDropFails
| HandleReturns.

(** The access after the calls of PreResumableUploadObject. *)
Definition pre_end (objectID : Z) (task : nat) (mine : resumableReservation) (o : pre_outcome) (m : inflight_map)
  : inflight_map :=
  match o with
  | DropAbandonedFails abandoned => keepForRetire objectID mine abandoned m
  | RegisterFails => CompareAndDelete objectID mine m
  | RegisterCutShortDropFails => keepForRetire objectID mine task m
  | Registered now => <[objectID := mkReservation task resumablePending now]> m
  end.

(** The access before the deferred one of HandleResumableUploadObjectTask. *)
Definition handle_end (objectID : Z) (task : nat) (mine : resumableReservation) (o : handle_outcome) (m : inflight_map)
  : inflight_map :=
  match o with
  | HandleDropAbandonedFails abandoned => keepForRetire objectID mine abandoned m
  | PushFailsDropFails => keepForRetire objectID mine task m
  | HandleReturns => m
  end.

(** What a request is doing. *)
Inductive phase :=
| Idle
| Registering (mine : resumableReservation)
| Waiting
| Handling (mine : resumableReservation)
| Returning (mine : resumableReservation)
| Done.

Record protocol := mkProtocol { inflight : inflight_map; phases : gmap nat phase }.

Definition phase_of (s : protocol) (task : nat) : phase := default Idle (phases s !! task).

Definition set_phase (task : nat) (p : phase) (m : inflight_map) (s : protocol) : protocol :=
  mkProtocol m (<[task := p]> (phases s)).

Section protocol.
(** The object of every request. *)
Context (object_of : nat -> Z).

Inductive pstep (s : protocol) : protocol -> Prop :=
| pre_taken now task m :
    phase_of s task = Idle ->
    reserveResumableObject now (object_of task) task resumableRegistering (inflight s) = (m, None) ->
    pstep s (set_phase task Done m s)
| pre_reserves now task m mine abandoned :
    phase_of s task = Idle ->
    reserveResumableObject now (object_of task) task resumableRegistering (inflight s) = (m, Some (mine, abandoned)) ->
    pstep s (set_phase task (Registering mine) m s)
| pre_returns task mine o :
    phase_of s task = Registering mine ->
    pstep s (set_phase task (match o with Registered _ => Waiting | _ => Done end)
               (pre_end (object_of task) task mine o (inflight s)) s)
| handle_taken now task m :
    phase_of s task = Idle \/ phase_of s task = Waiting ->
    reserveResumableObject now (object_of task) task resumableAdopted (inflight s) = (m, None) ->
    pstep s (set_phase task Done m s)
| handle_adopts now task m mine abandoned :
    phase_of s task = Idle \/ phase_of s task = Waiting ->
    reserveResumableObject now (object_of task) task resumableAdopted (inflight s) = (m, Some (mine, abandoned)) ->
    pstep s (set_phase task (Handling mine) m s)
| handle_leaves task mine o :
    phase_of s task = Handling mine ->
    pstep s (set_phase task (Returning mine) (handle_end (object_of task) task mine o (inflight s)) s)
| handle_deletes task mine :
    phase_of s task = Returning mine ->
    pstep s (set_phase task Done (CompareAndDelete (object_of task) mine (inflight s)) s).

Inductive reachable : protocol -> Prop :=
| reach_start : reachable (mkProtocol ∅ ∅)
| reach_step s s' : reachable s -> pstep s s' -> reachable s'.
End protocol.

(** ** The handler *)

Definition resumable_task : Type := nat * GfSpResumableUploadObjectTask.t.

#[export] Instance resumable_queue_task : QueueTask resumable_task := {
  qkey p := Key p.2;
  qcreate p := GetCreateTime p.2;
  qestimate p := default GfSpLimit.zero (EstimateLimit p.2)
}.

Section handler.
Context {PS : Type} `{!PieceStore PS}.
Context (GenerateChecksum : bytes -> bytes) (GenerateIntegrityHash : list bytes -> bytes).

Definition updatePieceCheckSum (info : UploadInfo) (data : bytes) (dataLength : Z) (d : spdb) : spdb * option db_error :=
  if IsUpdating info then
    UpdateShadowPieceChecksum (Id info) PrimarySPRedundancyIndex (GenerateChecksum data) (Version info) dataLength d
  else UpdatePieceChecksum (Id info) PrimarySPRedundancyIndex (GenerateChecksum data) dataLength d.

Definition getPieceCheckSumListAndPieceSize (info : UploadInfo) (d : spdb) : spdb * result db_error (list bytes * Z) :=
  if IsUpdating info then
    let '(d, r) := GetShadowObjectIntegrity (Id info) PrimarySPRedundancyIndex d in
    (d, match r with Err e => Err e | Ok m => Ok (sm_PieceChecksumList m, sm_ObjectSize m) end)
  else
    let '(d, r) := GetObjectIntegrity (Id info) PrimarySPRedundancyIndex d in
    (d, match r with Err e => Err e | Ok m => Ok (PieceChecksumList m, ObjectSize m) end).

Definition updateIntegrityChecksum (info : UploadInfo) (integrityHash : bytes) (d : spdb) : spdb * option db_error :=
  if IsUpdating info then
    UpdateShadowIntegrityChecksum (mkShadowMeta (Id info) PrimarySPRedundancyIndex integrityHash [] 0 0) d
  else UpdateIntegrityChecksum (mkIntegrityMeta (Id info) PrimarySPRedundancyIndex integrityHash [] 0) d.

Definition with_db (d : spdb) (w : world PS) : world PS := mkWorld (store w) d (rejected w).

(** Put a piece and append its checksum; the error returned and the one kept. *)
Definition append_piece (now : Z) (info : UploadInfo) (key : string) (data : bytes) (w : world PS) : outcome :=
  match put_piece now key data w with
  | None => None
  | Some (w, Some e) => Some (w, Some (ErrPieceStoreWithDetail e), Some (RawStore e))
  | Some (w, None) =>
    let '(d, err) := updatePieceCheckSum info data (len data) (db w) in
    let w := with_db d w in
    match err with
    | Some e => Some (w, Some (ErrGfSpDBWithDetail "failed to append integrity checksum to db" e), Some (RawDb e))
    | None => Some (w, None, None)
    end
  end.

(** The final request: what the database has against the chain. *)
Definition complete_upload (now : Z) (info : UploadInfo) (payloadSize : Z) (agent : bool) (w : world PS) : outcome :=
  let '(d, r) := getPieceCheckSumListAndPieceSize info (db w) in
  let w := with_db d w in
  match r with
  | Err e => Some (w, Some (RawDb e), Some (RawDb e))
  | Ok (pieceChecksumList, pieceSize) =>
    if (payloadSize >? 0) && negb (pieceSize =? payloadSize) then
      Some (mkWorld (store w) (db w) (rejected w ++ [Id info]), Some ErrPayloadSize, Some ErrPayloadSize)
    else
      let integrityHash := GenerateIntegrityHash pieceChecksumList in
      let rest (w : world PS) : outcome :=
        let '(d, err) := updateIntegrityChecksum info integrityHash (db w) in
        let w := with_db d w in
        match err with
        | Some e => Some (w, Some (ErrGfSpDBWithDetail "failed to write integrity hash to db" e), Some (RawDb e))
        | None =>
          let '(d, err) := UpdateUploadProgress now
            (mkUploadMeta (Id info) TaskState_UPLOAD_OBJECT_DONE 0 [] [] "" 0 false) (db w) in
          let w := with_db d w in
          match err with
          | Some e => Some (w, Some (ErrGfSpDBWithDetail "failed to update upload progress" e), Some (RawDb e))
          | None => Some (w, None, None)
          end
        end in
      if negb agent then
        match Checksums info with
        | [] => None
        | c :: _ => if negb (bool_decide (integrityHash = c))
                    then Some (w, Some ErrInvalidIntegrity, Some ErrInvalidIntegrity) else rest w
        end
      else rest w
  end.

(** What the loop does with a segment that it read: nothing more than to verify it when the
    database has it already. *)
Inductive replay := Refused (e : upload_error) | Replayed | Fresh.

Definition check_replay (payloadSize offset segmentSize readSize segIdx persistedSize : Z) (persisted : list bytes)
  (data : bytes) (err : option stream_error) : replay :=
  if (payloadSize >? 0) && bool_decide (err = None \/ err = Some (StreamRead EOF)) && (len data >? 0) then
    if uwrap 64 readSize >? uwrap 64 (payloadSize - offset) then Refused ErrPayloadSize
    else if uwrap 64 (segIdx * uwrap 64 segmentSize) <? persistedSize then
      if (Z.of_nat (length persisted) <=? segIdx) ||
         negb (bool_decide (persisted !! Z.to_nat segIdx = Some (GenerateChecksum data)))
      then Refused ErrInvalidIntegrity
      else Replayed
    else Fresh
  else Fresh.

Fixpoint resumable_loop (fuel : nat) (now : Z) (info : UploadInfo) (payloadSize offset : Z) (completed agent : bool)
  (segmentSize : nat) (persisted : list bytes) (persistedSize : Z) (stream : reader) (segIdx readSize : Z)
  (w : world PS) : outcome :=
  match fuel with
  | O => None
  | S fuel =>
    match StreamReadAt stream segmentSize with
    | None => None
    | Some (data, err, stream) =>
      let readSize := (readSize +' len data)%go in
      let key := SegmentPieceKey (Id info) segIdx (Version info) in
      let next := resumable_loop fuel now info payloadSize offset completed agent segmentSize persisted persistedSize
                    stream (uwrap 32 (segIdx + 1)) readSize in
      let finish (w : world PS) : outcome :=
        if completed then complete_upload now info payloadSize agent w else Some (w, None, None) in
      match check_replay payloadSize offset (Z.of_nat segmentSize) readSize segIdx persistedSize persisted data err with
      | Refused e => Some (w, Some e, Some e)
      | Replayed =>
        match err with
        | None => next w
        | Some _ => finish w
        end
      | Fresh =>
        match err with
        | Some (StreamRead EOF) =>
          if (len data >? 0) && (len data <? Z.of_nat segmentSize) && negb completed then
            Some (w, Some ErrClosedStream, Some ErrClosedStream)
          else if negb (len data =? 0) then
            match append_piece now info key data w with
            | Some (w, None, _) => finish w
            | r => r
            end
          else finish w
        | Some e => Some (w, Some ErrClosedStream, Some (RawStream e))
        | None =>
          match append_piece now info key data w with
          | Some (w, None, _) => next w
          | r => r
          end
        end
      end
    end
  end.

(** The body of the handler, from the division of the offset on; [None] is a panic: the
    segment size is zero when the payload size is. *)
Definition resumable_body (now : Z) (info : UploadInfo) (task : GfSpResumableUploadObjectTask.t) (stream : reader)
  (w : world PS) : outcome :=
  let obj := GfSpResumableUploadObjectTask.ObjectInfo_ task in
  let segmentSize := MaxSegmentPieceSize (PayloadSize obj) (MaxSegmentSize (GfSpResumableUploadObjectTask.StorageParams task)) in
  let offset := GfSpResumableUploadObjectTask.Offset task in
  if segmentSize <=? 0 then None
  else
    let segIdx := uwrap 32 (swrap 64 offset /' segmentSize)%go in
    let run persisted persistedSize w :=
      resumable_loop (upload_fuel stream) now info (PayloadSize obj) offset
        (GfSpResumableUploadObjectTask.Completed task) (GfSpResumableUploadObjectTask.IsAgentUpload task)
        (Z.to_nat segmentSize) persisted persistedSize stream segIdx 0 w in
    if PayloadSize obj >? 0 then
      let '(d, r) := getPieceCheckSumListAndPieceSize info (db w) in
      let w := with_db d w in
      match r with
      | Ok (persisted, size) => run persisted size w
      | Err e => if bool_decide (e = DbErr ErrRecordNotFound) then run [] 0 w
                 else Some (w, Some (RawDb e), Some (RawDb e))
      end
    else run [] 0 w.

(** ** validateResumableUploadOffset *)

Definition validateResumableUploadOffset (info : UploadInfo) (task : GfSpResumableUploadObjectTask.t) (d : spdb)
  : spdb * option upload_error :=
  let payloadSize := PayloadSize (GfSpResumableUploadObjectTask.ObjectInfo_ task) in
  let offset := GfSpResumableUploadObjectTask.Offset task in
  let maxSegmentSize := MaxSegmentSize (GfSpResumableUploadObjectTask.StorageParams task) in
  if maxSegmentSize =? 0 then (d, Some ErrInvalidResumeOffset)
  else
    let segmentSize := if payloadSize >? maxSegmentSize then maxSegmentSize else payloadSize in
    if (offset >? payloadSize) ||
       ((offset =? payloadSize) && negb (GfSpResumableUploadObjectTask.Completed task)) ||
       ((offset <? payloadSize) && negb (offset mod segmentSize =? 0))
    then (d, Some ErrInvalidResumeOffset)
    else
      let '(d, r) :=
        if IsUpdating info then
          let '(d, r) := GetShadowObjectIntegrity (Id info) PrimarySPRedundancyIndex d in
          (d, match r with Err e => Err e | Ok m => Ok (sm_ObjectSize m) end)
        else
          let '(d, r) := GetObjectIntegrity (Id info) PrimarySPRedundancyIndex d in
          (d, match r with Err e => Err e | Ok m => Ok (ObjectSize m) end) in
      match r with
      | Err e =>
        if bool_decide (e = DbErr ErrRecordNotFound)
        then (d, if negb (offset =? 0) then Some ErrInvalidResumeOffset else None)
        else (d, Some (ErrGfSpDBWithDetail "failed to get resumable upload progress" e))
      | Ok persistedSize => (d, if offset >? persistedSize then Some ErrInvalidResumeOffset else None)
      end.
(** ** The module's state and its two entry points

    [drop] tells, for every task, whether the manager takes the report by which
    [dropResumableTask] has it dropped. *)

Record ruploader := mkRUploader {
  resumeableUploadQueue : GfSpTQueue resumable_task;
  resumableInflight : inflight_map;
  rworld : world PS;
  rreports : list report;
}.

Definition set_inflight (m : inflight_map) (u : ruploader) : ruploader :=
  mkRUploader (resumeableUploadQueue u) m (rworld u) (rreports u).

Inductive register_answer :=
| RegisterOk
| RegisterError (e : string) (cutShort : bool).

(** [valid] says that no pointer of the task is nil, [state] is the manager's answer to
    GetUploadObjectState, [later] the clock when the registration has returned. *)
Definition PreResumableUploadObject (now later : Z) (valid : bool) (info : UploadInfo) (task : resumable_task)
  (state : option Z) (drop : nat -> option string) (answer : register_answer) (u : ruploader)
  : ruploader * option upload_error :=
  if negb valid then (u, Some ErrDanglingUploadTask)
  else if negb (StatusCreated info) && negb (IsUpdating info) then (u, Some ErrNotCreatedState)
  else
    let '(q, has) := Has now (qkey task) (resumeableUploadQueue u) in
    let u := mkRUploader q (resumableInflight u) (rworld u) (rreports u) in
    if has then (u, Some ErrRepeatedTask)
    else
      match state with
      | None => (u, Some ErrGetObjectUploadState)
      | Some taskState =>
        if negb (CheckAllowUploadStatus taskState) then (u, Some ErrInvalidUploadRequest)
        else
          let '(u, invalid) :=
            if PayloadSize (GfSpResumableUploadObjectTask.ObjectInfo_ task.2) >? 0 then
              let '(d, e) := validateResumableUploadOffset info task.2 (db (rworld u)) in
              (mkRUploader (resumeableUploadQueue u) (resumableInflight u) (with_db d (rworld u)) (rreports u), e)
            else (u, None) in
          match invalid with
          | Some e => (u, Some e)
          | None =>
            let '(m, r) := reserveResumableObject now (Id info) task.1 resumableRegistering (resumableInflight u) in
            match r with
            | None => (u, Some ErrResumableInFlight)
            | Some (mine, abandoned) =>
              match match abandoned with Some a => (fun e => (a, e)) <$> drop a | None => None end with
              | Some (a, e) =>
                (set_inflight (pre_end (Id info) task.1 mine (DropAbandonedFails a) m) u, Some (ErrClient e))
              | None =>
                match answer with
                | RegisterOk => (set_inflight (pre_end (Id info) task.1 mine (Registered later) m) u, None)
                | RegisterError e cutShort =>
                  let o := if cutShort && bool_decide (is_Some (drop task.1)) then RegisterCutShortDropFails
                           else RegisterFails in
                  (set_inflight (pre_end (Id info) task.1 mine o m) u, Some (ErrClient e))
                end
              end
            end
          end
      end.

Definition HandleResumableUploadObjectTask (now : Z) (info : UploadInfo) (task : resumable_task) (stream : reader)
  (drop : nat -> option string) (u : ruploader) : option (ruploader * option upload_error) :=
  let '(m, r) := reserveResumableObject now (Id info) task.1 resumableAdopted (resumableInflight u) in
  match r with
  | None => Some (u, Some ErrResumableInFlight)
  | Some (mine, abandoned) =>
    let return_ (o : handle_outcome) (u : ruploader) : ruploader :=
      set_inflight (CompareAndDelete (Id info) mine (handle_end (Id info) task.1 mine o (resumableInflight u))) u in
    let u := set_inflight m u in
    match match abandoned with Some a => (fun e => (a, e)) <$> drop a | None => None end with
    | Some (a, e) => Some (return_ (HandleDropAbandonedFails a) u, Some (ErrClient e))
    | None =>
      let '(q, pushed) := Push now task (resumeableUploadQueue u) in
      let u := mkRUploader q (resumableInflight u) (rworld u) (rreports u) in
      match pushed with
      | Some e =>
        let o := if bool_decide (is_Some (drop task.1)) then PushFailsDropFails else HandleReturns in
        Some (return_ o u, Some (ErrUploadQueue e))
      | None =>
        match resumable_body now info task.2 stream (rworld u) with
        | None => None
        | Some (w, ret, err) =>
          let '(q, _) := PopByKey now (qkey task) (resumeableUploadQueue u) in
          Some (return_ HandleReturns (mkRUploader q (resumableInflight u) w (rreports u ++ [mkReport (qkey task) err])), ret)
        end
      end
    end
  end.
End handler.
Arguments mkRUploader {PS}.
Arguments resumeableUploadQueue {PS}.
Arguments resumableInflight {PS}.
Arguments rworld {PS}.
Arguments rreports {PS}.
