(* ===== verification/ResumableProgress.v ===== *)
(** The progress of a resumable upload: the integrity metadata lists the checksums of a
    prefix of the segments, all of which are stored, and a request only makes it longer. *)
From Stdlib Require Import ZArith Lia String.
From stdpp Require Import base gmap list strings pretty.
From S2P Require Import Prelude Sql Checksum Storage StorageLaws PieceStore PieceOp Hex UploadDb Limit TaskKey Task TaskTypes TQueue Uploader UploadFacts UploadProps Resumable.

Local Open Scope Z_scope.

Section progress.
Context (GenerateChecksum : bytes -> bytes) (GenerateIntegrityHash : list bytes -> bytes).
(** A hash value is not empty. *)
Hypothesis checksum_nonempty : forall b, GenerateChecksum b <> [].
Context (info : UploadInfo) (n : nat) (P : bytes).
Hypothesis (Hn : (0 < n)%nat) (HP : is_int64 (len P)).

Local Notation cs := (checksums_of GenerateChecksum n P).
Local Notation count := (segments_count n P).

(** The bytes in the first [k] segments. *)
Definition size_upto (k : nat) : Z := Z.min (Z.of_nat (k * n)) (len P).

(** The columns of the row that resumable uploads keep: integrity hash, checksums, size. *)
Definition row_of (t : tables) : option (string * string * Z) :=
  if IsUpdating info then
    (fun r => (s_IntegrityChecksum r, s_PieceChecksumList r, s_ObjectSize r)) <$>
      shadows t !! (Id info, PrimarySPRedundancyIndex)
  else
    (fun r => (i_IntegrityChecksum r, i_PieceChecksumList r, i_ObjectSize r)) <$>
      integrity_table (Id info) t !! (Id info, PrimarySPRedundancyIndex).

(** The first [k] segments are recorded. *)
Definition progress (k : nat) (t : tables) : Prop :=
  (k <= count)%nat /\
  match k with
  | O => row_of t = None
  | S _ => exists h, row_of t = Some (Hex.EncodeToString h, BytesSliceToString (cs k), size_upto k)
  end.

Lemma cs_nonempty k : filter (fun b => b <> []) (cs k) = cs k.
Proof.
  unfold checksums_of. induction (seq 0 k) as [|i l IH]; [done|]. cbn [fmap list_fmap].
  rewrite filter_cons, decide_True by done. by rewrite IH.
Qed.

Lemma size_upto_step k : (k < count)%nat -> size_upto k + len (segment n P k) = size_upto (S k) /\ 0 < len (segment n P k).
Proof.
  intros Hk%count_spec; [|done]. unfold size_upto, len, segment. rewrite length_take, length_drop. lia.
Qed.

Lemma size_upto_range k : 0 <= size_upto k <= len P.
Proof. unfold size_upto, len. lia. Qed.

(** Reading the progress. *)
Lemma get_progress k d :
  progress k (tabs d) ->
  exists d' r, getPieceCheckSumListAndPieceSize info d = (d', r) /\ tabs d' = tabs d /\ fates d' = fates d /\
    (fates d (calls d) = Committed ->
       r = match k with O => Err (DbErr ErrRecordNotFound) | S _ => Ok (cs k, size_upto k) end) /\
    (fates d (calls d) <> Committed -> exists e, r = Err e /\ e <> DbErr ErrRecordNotFound).
Proof.
  intros [Hk Hp]. unfold getPieceCheckSumListAndPieceSize, row_of in *.
  assert (Hneq : forall f : fate, f <> Committed -> forall A (a : A),
    match f with Committed => Ok a | _ => Err ErrConnection end = Err ErrConnection) by by intros [].
  destruct (IsUpdating info).
  - unfold GetShadowObjectIntegrity, query. eexists _, _. split; [done|]. cbn. split; [done|]. split; [done|]. split.
    + intros ->. destruct k as [|k]; [by destruct (shadows _ !! _)|]. destruct Hp as [h Hrow].
      destruct (shadows (tabs d) !! _) as [row|]; [|done]. injection Hrow as -> -> ->.
      by rewrite DecodeString_EncodeToString, checksum_list_text, cs_nonempty.
    + intros Hf. rewrite Hneq by done. by eexists.
  - unfold GetObjectIntegrity, query. eexists _, _. split; [done|]. cbn. split; [done|]. split; [done|]. split.
    + intros ->. destruct k as [|k]; [by destruct (integrity_table _ _ !! _)|]. destruct Hp as [h Hrow].
      destruct (integrity_table _ (tabs d) !! _) as [row|]; [|done]. injection Hrow as -> -> ->.
      by rewrite DecodeString_EncodeToString, checksum_list_text, cs_nonempty.
    + intros Hf. rewrite Hneq by done. by eexists.
Qed.
(** A statement that the tables allow: done, or a broken connection and maybe done. *)
Lemma exec_allowed stmt d d' r t k :
  stmt (tabs d) = Ok (t, k) -> exec stmt d = (d', r) ->
  fates d' = fates d /\
  ((tabs d' = t /\ r = Ok k) \/ ((tabs d' = t \/ tabs d' = tabs d) /\ r = Err ErrConnection)).
Proof.
  intros Hs. unfold exec, transaction. rewrite Hs. destruct (fates d (calls d)); intros [= <- <-]; cbn; auto.
Qed.

(** Recording the first segment. *)
Lemma record_first d :
  row_of (tabs d) = None ->
  forall d' e,
    (if IsUpdating info
     then SetShadowObjectIntegrity (mkShadowMeta (Id info) PrimarySPRedundancyIndex [] (cs 1) (Version info) (size_upto 1)) d
     else SetObjectIntegrity (mkIntegrityMeta (Id info) PrimarySPRedundancyIndex [] (cs 1) (size_upto 1)) d) = (d', e) ->
  let new := Some (Hex.EncodeToString [], BytesSliceToString (cs 1), size_upto 1) in
  fates d' = fates d /\ (row_of (tabs d') = new \/ row_of (tabs d') = None) /\ (e = None -> row_of (tabs d') = new).
Proof.
  unfold row_of. intros Hrow d' e. destruct (IsUpdating info).
  - unfold SetShadowObjectIntegrity. destruct (exec _ d) as [d1 r] eqn:He. intros [= <- <-].
    destruct (shadows (tabs d) !! _) eqn:Hk; [done|].
    eapply exec_allowed in He as (Hf & [(Ht & ->)|([Ht|Ht] & ->)]);
      [| | |cbn [sm_ObjectID sm_RedundancyIndex]; unfold create_row; by rewrite Hk].
    + rewrite Ht. cbn. rewrite lookup_insert_eq. auto.
    + rewrite Ht. cbn. rewrite lookup_insert_eq. auto.
    + rewrite Ht, Hk. rewrite bool_decide_false by done. naive_solver.
  - unfold SetObjectIntegrity. destruct (exec _ d) as [d1 r] eqn:He. intros [= <- <-].
    destruct (integrity_table (Id info) (tabs d) !! _) eqn:Hk; [done|].
    eapply exec_allowed in He as (Hf & [(Ht & ->)|([Ht|Ht] & ->)]);
      [| | |cbn [ObjectID RedundancyIndex]; unfold create_row; by rewrite Hk].
    + rewrite Ht. rewrite integrity_table_set, lookup_insert_eq. auto.
    + rewrite Ht. rewrite integrity_table_set, lookup_insert_eq. auto.
    + rewrite Ht, Hk. rewrite bool_decide_false by done. naive_solver.
Qed.

(** An update of the row. *)
Lemma update_row d h l z h' l' z' :
  row_of (tabs d) = Some (h, l, z) ->
  forall d' r,
    exec (if IsUpdating info then update_shadow (Id info) PrimarySPRedundancyIndex (mkShadowRow 0 0 h' l' 0 z')
          else update_integrity (Id info) PrimarySPRedundancyIndex (mkIntegrityRow 0 0 h' l' z')) d = (d', r) ->
  let new := Some (nz_str h h', nz_str l l', nz z z') in
  fates d' = fates d /\ (row_of (tabs d') = new \/ tabs d' = tabs d) /\ (forall k, r = Ok k -> row_of (tabs d') = new) /\
  uploads (tabs d') = uploads (tabs d).
Proof.
  unfold row_of. intros Hrow d' r. destruct (IsUpdating info); intros He.
  - destruct (shadows (tabs d) !! _) as [row|] eqn:Hk; [|done]. injection Hrow as <- <- <-.
    eapply exec_allowed in He as (Hf & [(Ht & ->)|([Ht|Ht] & ->)]); [| | |unfold update_shadow; by rewrite Hk];
      rewrite Ht; cbn; rewrite ?lookup_insert_eq; split_and!; auto; done.
  - destruct (integrity_table (Id info) (tabs d) !! _) as [row|] eqn:Hk; [|done]. injection Hrow as <- <- <-.
    eapply exec_allowed in He as (Hf & [(Ht & ->)|([Ht|Ht] & ->)]); [| | |unfold update_integrity; by rewrite Hk];
      rewrite Ht; rewrite ?integrity_table_set, ?lookup_insert_eq; cbn; split_and!; auto; done.
Qed.

(** Appending the checksum of the next segment. *)
Lemma append_progress k d d' e :
  progress k (tabs d) -> (k < count)%nat ->
  updatePieceCheckSum GenerateChecksum info (segment n P k) (len (segment n P k)) d = (d', e) ->
  fates d' = fates d /\ (progress k (tabs d') \/ progress (S k) (tabs d')) /\ (e = None -> progress (S k) (tabs d')).
Proof.
  intros Hp Hk H. pose proof (size_upto_step k Hk) as [Hsz Hpos]. pose proof (size_upto_range (S k)) as Hr.
  pose proof Hp as [_ Hrow].
  destruct (get_progress k d Hp) as (d1 & r & Hg & Ht1 & Hf1 & Hok & Herr). rewrite <-Hf1, <-Ht1 in *.
  assert (Hnew : BytesSliceToString (cs (S k)) <> ""%string).
  { apply (BytesSliceToString_nonempty _ (GenerateChecksum (segment n P k))); [|done].
    rewrite <-checksums_of_S. apply elem_of_app. right. by left. }
  assert (H' : match r with
    | Err e1 => if bool_decide (e1 = DbErr ErrRecordNotFound) then
        (if IsUpdating info
         then SetShadowObjectIntegrity (mkShadowMeta (Id info) PrimarySPRedundancyIndex [] [GenerateChecksum (segment n P k)] (Version info) (len (segment n P k))) d1
         else SetObjectIntegrity (mkIntegrityMeta (Id info) PrimarySPRedundancyIndex [] [GenerateChecksum (segment n P k)] (len (segment n P k))) d1)
        else (d1, Some e1)
    | Ok (l, z) =>
      let '(d2, r2) := exec
        (let l' := BytesSliceToString (l ++ [GenerateChecksum (segment n P k)]) in
         let z' := uwrap 64 (z + len (segment n P k)) in
         if IsUpdating info then update_shadow (Id info) PrimarySPRedundancyIndex (mkShadowRow 0 0 "" l' 0 z')
         else update_integrity (Id info) PrimarySPRedundancyIndex (mkIntegrityRow 0 0 "" l' z')) d1 in
      (d2, match r2 with Err e => Some (DbWrapped "failed to update integrity meta table" e) | Ok _ => None end)
    end = (d', e)).
  { revert H Hg. unfold updatePieceCheckSum, UpdateShadowPieceChecksum, UpdatePieceChecksum, getPieceCheckSumListAndPieceSize.
    destruct (IsUpdating info).
    - destruct (GetShadowObjectIntegrity _ _ d) as [d2 [m|e2] ]; intros H [= <- <-]; exact H.
    - destruct (GetObjectIntegrity _ _ d) as [d2 [m|e2] ]; intros H [= <- <-]; exact H. }
  clear H Hg. destruct (decide (fates d1 (calls d) = Committed)) as [Hc|Hc].
  - specialize (Hok Hc). subst r. destruct k as [|k].
    + rewrite bool_decide_true in H' by done. change [GenerateChecksum (segment n P 0)] with (cs 1) in H'.
      assert (len (segment n P 0) = size_upto 1) as Hone by (rewrite <-Hsz; unfold size_upto, len; lia).
      rewrite Hone in H'. apply record_first in H' as (Hf & [Hnw|Hnone] & He); [..|done].
      * split; [done|]. assert (progress 1 (tabs d')) by (split; [lia|eauto]). auto.
      * split; [done|]. split; [left; split; [lia|done]|]. intros Hz. split; [lia|]. rewrite (He Hz). eauto.
    + destruct Hrow as [h Hrow]. rewrite checksums_of_S, Hsz, uint64_wrap_id in H' by (go_unfold; lia).
      destruct (exec _ d1) as [d2 r2] eqn:He. injection H' as <- <-.
      destruct (update_row d1 _ _ _ _ _ _ Hrow d2 r2 He) as (Hf & Hcase & Hres & _).
      assert (nz_str (Hex.EncodeToString h) "" = Hex.EncodeToString h) as Eh by done.
      assert (nz_str (BytesSliceToString (cs (S k))) (BytesSliceToString (cs (S (S k)))) = BytesSliceToString (cs (S (S k)))) as El.
      { unfold nz_str. by rewrite bool_decide_false. }
      assert (nz (size_upto (S k)) (size_upto (S (S k))) = size_upto (S (S k))) as Ez.
      { unfold nz. destruct (Z.eqb_spec (size_upto (S (S k))) 0); [|done]. pose proof (size_upto_range (S k)). lia. }
      rewrite Eh, El, Ez in *. split; [done|]. split.
      * destruct Hcase as [Hnw| ->]; [right; split; [lia|eauto]|by left].
      * intros Hn2. destruct r2 as [m|]; [|done]. split; [lia|]. exists h. by eapply Hres.
  - destruct (Herr Hc) as (e1 & -> & Hne). rewrite bool_decide_false in H' by done. injection H' as <- <-.
    split; [done|]. split; [by left|done].
Qed.

Section run.
Context {PS : Type} `{!PieceStore PS} `{!PieceStoreSound PS}.
Implicit Types (w : world PS).
Hypothesis integrity_nonempty : forall l, GenerateIntegrityHash l <> [].
Hypothesis (Hn64 : Z.of_nat n <= MaxInt64) (HP0 : 0 < len P) (Hcount : Z.of_nat count <= MaxUint32).

(** The first [k] segments are recorded and stored. *)
Definition resumable_ok (k : nat) w : Prop :=
  progress k (tabs (db w)) /\ stored_upto info n P k w /\ pss_ok (store w).

Lemma append_piece_ok now k w w' ret err :
  resumable_ok k w -> (k < count)%nat ->
  append_piece GenerateChecksum now info (seg_key info k) (segment n P k) w = Some (w', ret, err) ->
  (resumable_ok k w' \/ resumable_ok (S k) w') /\ (ret = None -> resumable_ok (S k) w').
Proof.
  intros (Hp & Hst & Hok) Hk. unfold append_piece, put_piece.
  destruct (PutPiece _ _ _ _) as [ [s1 e1]|] eqn:Hput; [|done].
  destruct (put_sound now (store w) _ _ s1 e1 Hok (seg_key_nonempty info k) Hput) as (Hok1 & Hoth & Hnew).
  assert (forall d rj, stored_upto info n P k (mkWorld s1 d rj)) as Hst1.
  { intros d rj i Hi. cbn. rewrite Hoth; [by apply Hst|]. intros E%seg_key_inj. lia. }
  destruct e1 as [e1|].
  - intros [= <- <- <-]. split; [|done]. left. by split_and!.
  - assert (forall d rj, stored_upto info n P (S k) (mkWorld s1 d rj)) as Hst2.
    { intros d rj i Hi. destruct (decide (i = k)) as [->|]; [by apply Hnew|]. apply Hst1. lia. }
    cbn [db rejected]. destruct (updatePieceCheckSum _ _ _ _ _) as [d e] eqn:Hu.
    apply append_progress in Hu as (_ & Hcase & He); [|done|done].
    destruct e as [e|]; intros [= <- <- <-]; unfold resumable_ok, with_db; cbn [db store].
    + split; [|done]. destruct Hcase; [left|right]; by split_and!.
    + specialize (He eq_refl). split; [right|intros _]; by split_and!.
Qed.

(** The final request. *)
Definition completed_ok (agent : bool) w : Prop :=
  resumable_ok count w /\
  row_of (tabs (db w)) = Some (Hex.EncodeToString (GenerateIntegrityHash (cs count)), BytesSliceToString (cs count), len P) /\
  (agent = false -> head (Checksums info) = Some (GenerateIntegrityHash (cs count))) /\
  u_TaskState <$> uploads (tabs (db w)) !! Id info = Some TaskState_UPLOAD_OBJECT_DONE.

Lemma count_full k : (k <= count)%nat -> size_upto k = len P -> k = count.
Proof.
  intros Hk Hs. unfold size_upto in Hs. destruct (decide (k < count)%nat) as [Hlt|]; [|lia].
  apply count_spec in Hlt; [|done]. unfold len in *. lia.
Qed.

Lemma progress_row t t' k : row_of t' = row_of t -> progress k t -> progress k t'.
Proof. unfold progress. by intros ->. Qed.

Lemma finish_records now k w w' ret err :
  resumable_ok k w -> size_upto k = len P -> k <> 0%nat ->
  (let '(d, e) := updateIntegrityChecksum info (GenerateIntegrityHash (cs k)) (db w) in
   let w := with_db d w in
   match e with
   | Some e => Some (w, Some (ErrGfSpDBWithDetail "failed to write integrity hash to db" e), Some (RawDb e))
   | None =>
     let '(d, e) := UpdateUploadProgress now (upload_done_meta (Id info)) (db w) in
     let w := with_db d w in
     match e with
     | Some e => Some (w, Some (ErrGfSpDBWithDetail "failed to update upload progress" e), Some (RawDb e))
     | None => Some (w, None, None)
     end
   end) = Some (w', ret, err) ->
  resumable_ok k w' /\
  (ret = None -> row_of (tabs (db w')) = Some (Hex.EncodeToString (GenerateIntegrityHash (cs k)), BytesSliceToString (cs k), len P) /\
     u_TaskState <$> uploads (tabs (db w')) !! Id info = Some TaskState_UPLOAD_OBJECT_DONE).
Proof.
  intros (Hp & Hst & Hok) Hfull Hk0. pose proof Hp as [Hk Hrow]. destruct k as [|k]; [done|]. destruct Hrow as [h Hrow].
  destruct (updateIntegrityChecksum info _ (db w)) as [d1 e1] eqn:Hu.
  assert (exists r1, exec (if IsUpdating info
      then update_shadow (Id info) PrimarySPRedundancyIndex (mkShadowRow 0 0 (Hex.EncodeToString (GenerateIntegrityHash (cs (S k)))) "" 0 0)
      else update_integrity (Id info) PrimarySPRedundancyIndex (mkIntegrityRow 0 0 (Hex.EncodeToString (GenerateIntegrityHash (cs (S k)))) "" 0)) (db w)
      = (d1, r1) /\ (e1 = None -> exists m, r1 = Ok m)) as (r1 & He & Hr1).
  { revert Hu. unfold updateIntegrityChecksum, UpdateShadowIntegrityChecksum, UpdateIntegrityChecksum.
    destruct (IsUpdating info); cbn [sm_ObjectID sm_RedundancyIndex ObjectID RedundancyIndex sm_IntegrityChecksum IntegrityChecksum];
      destruct (exec _ (db w)) as [d r] eqn:He; intros [= <- <-]; exists r; (split; [done|]); destruct r; eauto; done. }
  destruct (update_row (db w) _ _ _ _ _ _ Hrow d1 r1 He) as (Hf & Hcase & Hres & _).
  assert (nz_str (Hex.EncodeToString h) (Hex.EncodeToString (GenerateIntegrityHash (cs (S k)))) = Hex.EncodeToString (GenerateIntegrityHash (cs (S k)))) as Eh.
  { unfold nz_str. by rewrite bool_decide_false by by apply EncodeToString_nonempty. }
  assert (nz_str (BytesSliceToString (cs (S k))) "" = BytesSliceToString (cs (S k))) as El by done.
  assert (nz (size_upto (S k)) 0 = size_upto (S k)) as Ez by done. rewrite Eh, El, Ez in *.
  assert (progress (S k) (tabs d1)) as Hp1.
  { destruct Hcase as [Hnw| ->]; [split; [done|eauto]|done]. }
  destruct e1 as [e1|]; [intros [= <- <- <-]; split; [by split_and!|done]|].
  destruct (Hr1 eq_refl) as [m1 ->]. specialize (Hres _ eq_refl).
  unfold with_db. cbn [db store rejected].
  destruct (UpdateUploadProgress now _ d1) as [d2 e2] eqn:Hup.
  assert (row_of (tabs d2) = row_of (tabs d1)) as Hsame.
  { unfold UpdateUploadProgress in Hup. destruct (exec _ d1) as [d r] eqn:He2. injection Hup as <- _.
    unfold exec, transaction, update_upload in He2. unfold row_of, integrity_table.
    destruct (fates d1 (calls d1)), (uploads (tabs d1) !! um_ObjectID (upload_done_meta (Id info))); injection He2 as <- _; done. }
  assert (progress (S k) (tabs d2)) as Hp2 by by eapply progress_row.
  destruct e2 as [e2|]; intros [= <- <- <-]; (split; [by split_and!|]); [done|]. intros _. cbn [db].
  split; [rewrite Hsame, Hres; by rewrite Hfull|]. by eapply UpdateUploadProgress_done.
Qed.

Lemma complete_upload_ok now agent k w w' ret err :
  resumable_ok k w ->
  complete_upload GenerateIntegrityHash now info (len P) agent w = Some (w', ret, err) ->
  resumable_ok k w' /\ (ret = None -> completed_ok agent w').
Proof.
  intros Hres. pose proof Hres as (Hp & Hst & Hok). unfold complete_upload.
  destruct (get_progress k (db w) Hp) as (d1 & r & -> & Ht1 & _ & Hcom & Herr).
  assert (resumable_ok k (with_db d1 w)) as Hres1 by (by unfold resumable_ok, with_db; cbn; rewrite Ht1).
  destruct (decide (fates (db w) (calls (db w)) = Committed)) as [Hc|Hc].
  2:{ destruct (Herr Hc) as (e & -> & _). by intros [= <- <- <-]. }
  specialize (Hcom Hc). destruct k as [|k]; subst r; [by intros [= <- <- <-]|].
  destruct (Z.gtb_spec (len P) 0); [|lia]. cbn [andb].
  destruct (Z.eqb_spec (size_upto (S k)) (len P)) as [Hfull|]; cbn [negb]; [|by intros [= <- <- <-]].
  pose proof Hp as [Hk _]. pose proof (count_full _ Hk Hfull) as Hkc.
  pose proof (fun w2 ret2 err2 => finish_records now (S k) (with_db d1 w) w2 ret2 err2 Hres1 Hfull ltac:(done)) as Hfin.
  unfold completed_ok. rewrite <-Hkc. destruct agent; cbn [negb].
  - intros Hx. destruct (Hfin _ _ _ Hx) as [H1 H2]. split; [done|]. intros Hr. destruct (H2 Hr). by split_and!.
  - destruct (Checksums info) as [|c l]; [done|]. case_bool_decide as Hcc; cbn [negb]; [|by intros [= <- <- <-]].
    intros Hx. destruct (Hfin _ _ _ Hx) as [H1 H2]. split; [done|]. intros Hr. destruct (H2 Hr). split_and!; try done.
    intros _. cbn. by subst c.
Qed.
(** ** The loop

    The request sends [Q], the payload up to the byte [m], from a segment boundary on. *)
Section sent.
Context (m : nat) (Hm : (m <= length P)%nat).
Local Notation Q := (take m P).

Lemma segment_sent i : ((i + 1) * n <= m)%nat \/ m = length P -> segment n Q i = segment n P i.
Proof.
  unfold segment. intros [Hi| ->]; [|by rewrite (take_ge P)].
  rewrite skipn_firstn_comm, take_take. f_equal. lia.
Qed.

Lemma length_sent i : length (segment n Q i) = Nat.min n (m - i * n).
Proof. unfold segment. rewrite length_take, length_drop, length_take. lia. Qed.

(** A full segment, or the end of the payload. *)
Lemma whole_segment i :
  (i * n < m)%nat -> length (segment n Q i) = n \/ m = length P -> segment n Q i = segment n P i /\ (i < count)%nat.
Proof.
  intros Hi H. split; [|apply count_spec; lia]. apply segment_sent. rewrite length_sent in H. lia.
Qed.

Lemma cs_lookup k i : (i < k)%nat -> cs k !! i = Some (GenerateChecksum (segment n P i)).
Proof.
  intros Hi. unfold checksums_of. rewrite list_lookup_fmap, lookup_seq_lt by done. done.
Qed.

(** Where the loop is: nothing is left, or [i] segments of the payload have been read. *)
Definition at_segment (offset readSize : Z) (i : nat) : Prop :=
  (m <= i * n)%nat \/ ((i * n <= m)%nat /\ offset + readSize = Z.of_nat (i * n) /\ 0 <= offset /\ 0 <= readSize).

Lemma check_replay_spec offset readSize i k0 err :
  at_segment offset readSize i -> (k0 <= count)%nat ->
  (err = None \/ err = Some (StreamRead EOF)) ->
  let data := segment n Q i in
  check_replay GenerateChecksum (len P) offset (Z.of_nat n) (readSize +' len data)%go (Z.of_nat i) (size_upto k0) (cs k0) data err =
  if decide (m <= i * n)%nat then Fresh
  else if decide (i < k0)%nat then
    if decide (GenerateChecksum (segment n P i) = GenerateChecksum data) then Replayed else Refused ErrInvalidIntegrity
  else Fresh.
Proof.
  intros Hat Hk0 Herr data. unfold check_replay. rewrite bool_decide_true by done.
  destruct (Z.gtb_spec (len P) 0); [|lia]. cbn [andb].
  pose proof (length_sent i) as Hl. fold data in Hl.
  destruct (decide (m <= i * n)%nat) as [Hend|Hmid].
  { destruct (Z.gtb_spec (len data) 0); [unfold len in *; lia|done]. }
  destruct (Z.gtb_spec (len data) 0); [|unfold len in *; lia].
  destruct Hat as [|(Him & Hoff & Ho0 & Hr0)]; [lia|].
  assert (Hend : offset + (readSize + len data) <= len P) by (unfold len in *; lia).
  rewrite (int64_wrap_id (readSize + len data)), !uint64_wrap_id by (unfold len in *; go_unfold; lia).
  destruct (Z.gtb_spec (readSize + len data) (len P - offset)); [lia|].
  rewrite (uint64_wrap_id (Z.of_nat n)) by (go_unfold; lia). rewrite <-Nat2Z.inj_mul.
  rewrite uint64_wrap_id by (unfold len in *; go_unfold; lia).
  assert (i < count)%nat as Hic by (apply count_spec; lia).
  destruct (decide (i < k0)%nat) as [Hlt|Hge].
  - assert (Z.of_nat (i * n) < size_upto k0) as Hs by (unfold size_upto, len in *; nia).
    destruct (Z.ltb_spec (Z.of_nat (i * n)) (size_upto k0)); [|lia].
    assert (length (cs k0) = k0) as Hlc by (unfold checksums_of; by rewrite length_fmap, length_seq).
    destruct (Z.leb_spec (Z.of_nat (length (cs k0))) (Z.of_nat i)); [lia|]. cbn [orb].
    rewrite Nat2Z.id, cs_lookup by done. destruct (decide _) as [->|Hne]; [by rewrite bool_decide_true|].
    rewrite bool_decide_false; [done|congruence].
  - destruct (Z.ltb_spec (Z.of_nat (i * n)) (size_upto k0)); [unfold size_upto in *; nia|done].
Qed.

(** What a run of the handler has done. *)
Definition request_spec (completed agent : bool) (k : nat) w' (ret : option upload_error) : Prop :=
  exists k', (k <= k')%nat /\ resumable_ok k' w' /\
    (ret = None -> (segments_count n Q <= k')%nat /\ (completed = true -> completed_ok agent w')).

Lemma request_weaken completed agent k k' w' ret :
  (k <= k')%nat -> request_spec completed agent k' w' ret -> request_spec completed agent k w' ret.
Proof. intros Hk (k2 & H1 & H2). exists k2. split; [lia|done]. Qed.

(** Nothing more to send. *)
Lemma finish_request now (completed agent : bool) k w w' ret (err : option upload_error) :
  resumable_ok k w -> (segments_count n Q <= k)%nat ->
  (if completed then complete_upload GenerateIntegrityHash now info (len P) agent w else Some (w, None, None)) = Some (w', ret, err) ->
  request_spec completed agent k w' ret.
Proof.
  intros Hok Hk H. exists k. split; [done|]. destruct completed.
  - apply (complete_upload_ok now agent k) in H as [H1 H2]; [|done]. split; [done|]. intros Hr. split; [done|]. intros _. by apply H2.
  - injection H as <- <- <-. by split.
Qed.

Lemma stop_request completed agent k w e : resumable_ok k w -> request_spec completed agent k w (Some e).
Proof. intros Hok. by exists k. Qed.

Lemma resumable_loop_spec now completed agent offset e0 k0 fuel w i readSize stream w' ret err :
  (k0 <= count)%nat -> resumable_ok (Nat.max k0 i) w -> at_segment offset readSize i ->
  (completed = true -> e0 = EOF -> (m <= i * n)%nat \/ m = length P) ->
  delivered stream = drop (i * n) Q -> ending stream = e0 -> (i * n <= length P)%nat ->
  resumable_loop GenerateChecksum GenerateIntegrityHash fuel now info (len P) offset completed agent n
    (cs k0) (size_upto k0) stream (Z.of_nat i) readSize w = Some (w', ret, err) ->
  request_spec completed agent (Nat.max k0 i) w' ret.
Proof.
  intros Hk0. revert w i readSize stream. induction fuel as [|fuel IH]; intros w i readSize stream Hok Hat Hcov Hd He Hi; [done|].
  cbn [resumable_loop]. destruct (StreamReadAt_spec stream n Hn) as (er & stream' & -> & Hd' & He' & Her).
  rewrite Hd in *. fold (segment n Q i). fold (seg_key info i). rewrite length_drop, length_take in Her.
  pose proof (length_sent i) as Hl.
  (* the next round *)
  assert (forall w1, er = None -> resumable_ok (Nat.max k0 (S i)) w1 ->
    resumable_loop GenerateChecksum GenerateIntegrityHash fuel now info (len P) offset completed agent n
      (cs k0) (size_upto k0) stream' (uwrap 32 (Z.of_nat i + 1)) (readSize +' len (segment n Q i))%go w1 = Some (w', ret, err) ->
    request_spec completed agent (Nat.max k0 (S i)) w' ret) as Hnext.
  { intros w1 -> Hok1. assert (i < count)%nat by (apply count_spec; lia).
    replace (uwrap 32 (Z.of_nat i + 1)) with (Z.of_nat (S i)).
    2:{ unfold uwrap. rewrite Z.mod_small; go_unfold; lia. }
    apply IH; [done| | |by rewrite Hd', drop_drop; f_equal; lia|by rewrite He'|lia].
    - destruct Hat as [|(? & ? & ? & ?)]; [left; lia|]. right. rewrite int64_wrap_id by (unfold len in *; go_unfold; lia).
      unfold len in *. lia.
    - intros Hc Hee. destruct (Hcov Hc Hee); [left; lia|by right]. }
  assert (er <> None -> (segments_count n Q <= S i)%nat) as Hlast.
  { intros Hne. destruct er as [e|]; [|done]. destruct Her as [_ Her]. destruct (decide (S i < segments_count n Q)%nat) as [Hlt|]; [|lia].
    apply count_spec in Hlt; [|done]. rewrite length_take in Hlt. lia. }
  assert ((m <= i * n)%nat -> (segments_count n Q <= i)%nat) as Hnone.
  { intros Hle. destruct (decide (i < segments_count n Q)%nat) as [Hlt|]; [|lia].
    apply count_spec in Hlt; [|done]. rewrite length_take in Hlt. lia. }
  destruct (decide (er = None \/ er = Some (StreamRead EOF))) as [Hgood|Hbad].
  2:{ destruct er as [e|]; [|tauto]. destruct Her as [-> _].
      unfold check_replay. rewrite (bool_decide_false (Some _ = None \/ _)) by done. rewrite andb_false_r. cbn [andb].
      destruct (ending stream) eqn:Hend; [tauto|intros [= <- <- <-]; by apply stop_request..]. }
  rewrite (check_replay_spec offset readSize i k0 er Hat Hk0 Hgood).
  destruct (decide (m <= i * n)%nat) as [Hnil|Hsome].
  { assert (len (segment n Q i) = 0) as Hz by (unfold len; lia). rewrite Hz. cbn [Z.gtb Z.compare andb negb Z.eqb].
    destruct er as [e|]; [|lia]. destruct Hgood as [|[= ->] ]; [done|].
    intros Hfin. eapply finish_request; [exact Hok|specialize (Hnone Hnil); lia|exact Hfin]. }
  destruct (decide (i < k0)%nat) as [Hrep|Hnew].
  { replace (Nat.max k0 i) with k0 in * by lia. destruct (decide _) as [_|_]; [|intros [= <- <- <-]; by apply stop_request].
    destruct er as [e|].
    - intros Hfin. eapply finish_request; [exact Hok|specialize (Hlast ltac:(done)); lia|exact Hfin].
    - intros Hx. apply (request_weaken _ _ k0 (Nat.max k0 (S i))); [lia|]. apply (Hnext w); [done| |exact Hx].
      by replace (Nat.max k0 (S i)) with k0 by lia. }
  replace (Nat.max k0 i) with i in * by lia. replace (Nat.max k0 (S i)) with (S i) in Hnext by lia.
  assert (forall w1 ret1 err1, (length (segment n Q i) = n \/ m = length P) ->
    append_piece GenerateChecksum now info (seg_key info i) (segment n Q i) w = Some (w1, ret1, err1) ->
    (exists k1, (i <= k1)%nat /\ resumable_ok k1 w1) /\ (ret1 = None -> resumable_ok (S i) w1)) as Happ.
  { intros w1 ret1 err1 Hwhole Ha. destruct (whole_segment i ltac:(lia) Hwhole) as [Hsame Hic]. rewrite Hsame in Ha.
    destruct (append_piece_ok now i w w1 ret1 err1 Hok Hic Ha) as [ [H1|H1] H2]; (split; [|done]); eauto. }
  destruct er as [e|].
  - destruct Hgood as [|[= ->] ]; [done|]. destruct (Z.gtb_spec (len (segment n Q i)) 0); [|unfold len in *; lia]. cbn [andb].
    destruct ((len (segment n Q i) <? Z.of_nat n) && negb completed) eqn:Hshort; [intros [= <- <- <-]; by apply stop_request|].
    destruct (Z.eqb_spec (len (segment n Q i)) 0); [lia|]. cbn [negb].
    assert (length (segment n Q i) = n \/ m = length P) as Hwhole.
    { destruct completed.
      - destruct Her as [Hee _]. injection Hee as Hee. destruct (Hcov eq_refl ltac:(congruence)); [lia|by right].
      - cbn in Hshort. rewrite andb_true_r in Hshort. zbool. left. unfold len in *. lia. }
    destruct (append_piece _ _ _ _ _ _) as [ [ [w1 [e1|] ] er1]|] eqn:Ha; [| |done].
    + intros [= <- <- <-]. destruct (Happ _ _ _ Hwhole eq_refl) as [(k1 & Hk1 & Hok1) _].
      eapply request_weaken; [exact Hk1|]. by apply stop_request.
    + intros Hfin. destruct (Happ _ _ _ Hwhole eq_refl) as [_ Hok1]. specialize (Hok1 eq_refl).
      apply (request_weaken _ _ i (S i)); [lia|]. eapply finish_request; [exact Hok1|by apply Hlast|exact Hfin].
  - assert (length (segment n Q i) = n \/ m = length P) as Hwhole by (left; lia).
    destruct (append_piece _ _ _ _ _ _) as [ [ [w1 [e1|] ] er1]|] eqn:Ha; [| |done].
    + intros [= <- <- <-]. destruct (Happ _ _ _ Hwhole eq_refl) as [(k1 & Hk1 & Hok1) _].
      eapply request_weaken; [exact Hk1|]. by apply stop_request.
    + intros Hfin. destruct (Happ _ _ _ Hwhole eq_refl) as [_ Hok1]. specialize (Hok1 eq_refl).
      apply (request_weaken _ _ i (S i)); [lia|]. by apply (Hnext w1).
Qed.
End sent.
End run.
End progress.
