(* ===== verification/ResumableProps.v ===== *)
(** Properties of resumable uploads: one handler at a time works on an object, and the
    progress in the database is a prefix of the payload whose segments are stored,
    whatever fails. *)
From Stdlib Require Import ZArith Lia String.
From stdpp Require Import base gmap list strings pretty.
From S2P Require Import Prelude Sql Checksum Storage StorageLaws PieceStore PieceOp Hex UploadDb Limit TaskKey Task TaskTypes TQueue Uploader UploadFacts UploadProps Resumable ResumableProgress.

Local Open Scope Z_scope.

(** ** The reservation protocol *)

Section protocol.
Context (object_of : nat -> Z).
Implicit Types (s : protocol) (task : nat) (mine : resumableReservation).

(** What a request holds while it registers or handles. *)
Definition held s task mine (st : resumableState) : Prop :=
  inflight s !! object_of task = Some mine /\ r_task mine = task /\ r_state mine = st.

Definition protocol_inv s : Prop :=
  forall task mine,
    (phase_of s task = Registering mine -> held s task mine resumableRegistering) /\
    (phase_of s task = Handling mine -> held s task mine resumableAdopted).

(** A step that changes only the entry of [task]'s object keeps the holds of the others,
    when that entry was not theirs. *)
Lemma inv_update s task ph m :
  protocol_inv s ->
  (forall o, o <> object_of task -> m !! o = inflight s !! o) ->
  (forall q mine st, q <> task -> st <> resumablePending -> held s q mine st -> object_of q = object_of task ->
     m !! object_of task = inflight s !! object_of task) ->
  (forall mine, (ph = Registering mine -> m !! object_of task = Some mine /\ r_task mine = task /\ r_state mine = resumableRegistering) /\
     (ph = Handling mine -> m !! object_of task = Some mine /\ r_task mine = task /\ r_state mine = resumableAdopted)) ->
  protocol_inv (set_phase task ph m s).
Proof.
  intros Hinv Hne Hother Hown q mine. unfold set_phase, phase_of, held. cbn [inflight phases].
  destruct (decide (q = task)) as [->|Hq].
  - rewrite lookup_insert_eq. cbn. apply Hown.
  - rewrite lookup_insert_ne by done. fold (phase_of s q).
    destruct (Hinv q mine) as [H1 H2].
    assert (forall st, st <> resumablePending -> held s q mine st -> m !! object_of q = Some mine /\ r_task mine = q /\ r_state mine = st) as Hk.
    { intros st Hst Hh. destruct (decide (object_of q = object_of task)) as [E|E].
      - pose proof Hh as (Hm & ? & ?). rewrite E in *. by rewrite (Hother q mine st Hq Hst Hh).
      - destruct Hh as (Hm & ? & ?). by rewrite Hne. }
    split; intros Hp; apply Hk; auto.
Qed.

(** Reserving never takes an object from a request that registers or handles. *)
Lemma reserve_taking now task st m m' mine abandoned :
  reserveResumableObject now (object_of task) task st m = (m', Some (mine, abandoned)) ->
  m' = <[object_of task := mine]> m /\ r_task mine = task /\ r_state mine = st /\
  forall cur, m !! object_of task = Some cur -> r_state cur = resumablePending.
Proof.
  unfold reserveResumableObject. destruct (m !! object_of task) as [cur|]; [|intros [= <- <- <-]; by repeat split].
  destruct (bool_decide (st = resumableAdopted) && bool_decide (r_task cur = task) && bool_decide (r_state cur = resumablePending)) eqn:E.
  - intros [= <- <- <-]. apply andb_prop in E as [_ E]. apply bool_decide_eq_true in E. repeat split; try done.
    by intros ? [= <-].
  - unfold stale. destruct (bool_decide (r_state cur = resumablePending) && _) eqn:E2; [|done].
    intros [= <- <- <-]. apply andb_prop in E2 as [E2 _]. apply bool_decide_eq_true in E2. repeat split; try done.
    by intros ? [= <-].
Qed.

Lemma reserve_taken now task st m m' :
  reserveResumableObject now (object_of task) task st m = (m', None) -> m' = m.
Proof.
  unfold reserveResumableObject. destruct (m !! object_of task) as [cur|]; [|done].
  destruct (_ && _); [done|]. destruct (stale now cur); [done|]. by intros [= <-].
Qed.

Lemma cas_other o old new m k : k <> o -> CompareAndSwap o old new m !! k = m !! k.
Proof. intros. unfold CompareAndSwap. case_bool_decide; [by rewrite lookup_insert_ne|done]. Qed.

Lemma cad_other o old m k : k <> o -> CompareAndDelete o old m !! k = m !! k.
Proof. intros. unfold CompareAndDelete. case_bool_decide; [by rewrite lookup_delete_ne|done]. Qed.

(** Conditional updates by [mine] do nothing to an entry of another request. *)
Lemma cas_not_mine o (mine cur : resumableReservation) new m :
  m !! o = Some cur -> r_task cur <> r_task mine -> CompareAndSwap o mine new m = m.
Proof. intros H Hne. unfold CompareAndSwap. case_bool_decide; [|done]. congruence. Qed.

Lemma cad_not_mine o (mine cur : resumableReservation) m :
  m !! o = Some cur -> r_task cur <> r_task mine -> CompareAndDelete o mine m = m.
Proof. intros H Hne. unfold CompareAndDelete. case_bool_decide; [|done]. congruence. Qed.

Definition returning_ok s : Prop :=
  forall task mine, phase_of s task = Returning mine -> r_task mine = task.

Lemma pstep_inv s s' : protocol_inv s -> returning_ok s -> pstep object_of s s' -> protocol_inv s' /\ returning_ok s'.
Proof.
  intros Hinv Hret Hstep.
  assert (forall task ph m, (forall mine, ph = Returning mine -> r_task mine = task) -> returning_ok (set_phase task ph m s)) as Hr.
  { intros task ph m Hph q mine. unfold set_phase, phase_of. cbn. destruct (decide (q = task)) as [->|].
    - rewrite lookup_insert_eq. cbn. apply Hph.
    - rewrite lookup_insert_ne by done. apply Hret. }
  assert (forall now task st m mine abandoned ph,
    reserveResumableObject now (object_of task) task st (inflight s) = (m, Some (mine, abandoned)) ->
    (forall mine', ph = Registering mine' -> mine' = mine /\ st = resumableRegistering) ->
    (forall mine', ph = Handling mine' -> mine' = mine /\ st = resumableAdopted) ->
    protocol_inv (set_phase task ph m s)) as Htake.
  { intros now task st m mine abandoned ph (-> & Ht & Hst & Hcur)%reserve_taking H1 H2. apply inv_update; [done| | |].
    - intros o Ho. by rewrite lookup_insert_ne.
    - intros q mq stq Hq Hnp (Hm & _ & Hs) E. rewrite E in Hm. pose proof (Hcur _ Hm). congruence.
    - intros mine'. rewrite lookup_insert_eq. split; intros E.
      + by destruct (H1 _ E) as [-> <-].
      + by destruct (H2 _ E) as [-> <-]. }
  destruct Hstep as [now task m Hp H|now task m mine ab Hp H|task mine o Hp|now task m Hp H|now task m mine ab Hp H|task mine o Hp|task mine Hp].
  - apply reserve_taken in H as ->. split; [|by apply Hr]. by apply inv_update.
  - split; [|by apply Hr]. eapply Htake; [exact H|by intros ? [= ->]|done].
  - destruct (Hinv task mine) as [(Hm & Ht & Hs)%(fun f => f Hp) _]. split; [|apply Hr; by destruct o].
    apply inv_update; [done| | |by destruct o].
    + intros k Hk. destruct o; cbn; [by apply cas_other|by apply cad_other|by apply cas_other|by rewrite lookup_insert_ne].
    + intros q mq st Hq _ (Hmq & Htq & _) E. rewrite E, Hm in Hmq. congruence.
  - apply reserve_taken in H as ->. split; [|by apply Hr]. by apply inv_update.
  - split; [|by apply Hr]. eapply Htake; [exact H|done|by intros ? [= ->]].
  - destruct (Hinv task mine) as [_ (Hm & Ht & Hs)%(fun f => f Hp)]. split; [|apply Hr; by intros ? [= <-]].
    apply inv_update; [done| | |done].
    + intros k Hk. destruct o; cbn; [by apply cas_other|by apply cas_other|done].
    + intros q mq st Hq _ (Hmq & Htq & _) E. rewrite E, Hm in Hmq. congruence.
  - pose proof (Hret _ _ Hp) as Ht. split; [|by apply Hr]. apply inv_update; [done| | |done].
    + intros k Hk. by apply cad_other.
    + intros q mq st Hq _ (Hmq & Htq & _) E. rewrite E in Hmq. rewrite (cad_not_mine _ _ mq); [done|done|congruence].
Qed.

Lemma protocol_reachable s : reachable object_of s -> protocol_inv s /\ returning_ok s.
Proof.
  induction 1 as [|s s' _ [IH1 IH2] Hs]; [|by eapply pstep_inv].
  split; intros task mine; unfold phase_of; cbn; by rewrite ?lookup_empty.
Qed.
End protocol.

(** C9: in every interleaving of requests, at most one request at a time is between taking an
    object and giving it up: no two handlers of one object run, and no request registers
    with the manager while a handler of its object runs.  A registering or running request
    still holds its reservation, so no other request has taken the object as abandoned. *)
Theorem one_resumable_request_per_object object_of s p q :
  reachable object_of s -> object_of p = object_of q ->
  (exists mine, phase_of s p = Handling mine \/ phase_of s p = Registering mine) ->
  (exists mine, phase_of s q = Handling mine \/ phase_of s q = Registering mine) ->
  p = q /\ exists mine, inflight s !! object_of p = Some mine /\ r_task mine = p /\ r_state mine <> resumablePending.
Proof.
  intros [Hinv _]%protocol_reachable E [mp Hp] [mq Hq].
  assert (inflight s !! object_of p = Some mp /\ r_task mp = p /\ r_state mp <> resumablePending) as (H1 & H2 & H3).
  { destruct Hp as [Hp|Hp]; apply (Hinv p mp) in Hp as (? & ? & Hs); rewrite Hs; done. }
  assert (inflight s !! object_of q = Some mq /\ r_task mq = q) as (H4 & H5).
  { destruct Hq as [Hq|Hq]; apply (Hinv q mq) in Hq as (? & ? & Hs); done. }
  rewrite <-E, H1 in H4. injection H4 as <-. split; [congruence|]. eauto.
Qed.

(** Request 2 finds request 1's registration stale, takes the object over and runs; request
    1 comes late and is refused. *)
Lemma one_resumable_request_per_object_witness :
  exists s, reachable (fun _ => 7) s /\ phase_of s 2 = Handling (mkReservation 2 resumableAdopted (10 ^ 11)) /\
    phase_of s 1 = Done /\
    exists mine, inflight s !! 7 = Some mine /\ r_task mine = 2%nat /\ r_state mine <> resumablePending.
Proof.
  pose (s1 := set_phase 1 (Registering (mkReservation 1 resumableRegistering 5))
    (<[7 := mkReservation 1 resumableRegistering 5]> ∅) (mkProtocol ∅ ∅)).
  pose (s2 := set_phase 1 Waiting (pre_end 7 1 (mkReservation 1 resumableRegistering 5) (Registered 6) (inflight s1)) s1).
  pose (s3 := set_phase 2 (Handling (mkReservation 2 resumableAdopted (10 ^ 11)))
    (<[7 := mkReservation 2 resumableAdopted (10 ^ 11)]> (inflight s2)) s2).
  pose (s4 := set_phase 1 Done (inflight s3) s3).
  assert (reachable (fun _ => 7) s4) as Hr.
  { eapply reach_step; [eapply reach_step; [eapply reach_step; [eapply reach_step; [apply reach_start|]|]|]|].
    - exact (pre_reserves (fun _ => 7) (mkProtocol ∅ ∅) 5 1 _ (mkReservation 1 resumableRegistering 5) None eq_refl eq_refl).
    - exact (pre_returns (fun _ => 7) s1 1 (mkReservation 1 resumableRegistering 5) (Registered 6) eq_refl).
    - exact (handle_adopts (fun _ => 7) s2 (10 ^ 11) 2 _ (mkReservation 2 resumableAdopted (10 ^ 11)) (Some 1%nat)
        (or_introl eq_refl) eq_refl).
    - exact (handle_taken (fun _ => 7) s3 (10 ^ 11) 1 _ (or_intror eq_refl) eq_refl). }
  exists s4. split; [exact Hr|]. split; [reflexivity|]. split; [reflexivity|].
  apply (one_resumable_request_per_object (fun _ => 7) s4 2 2 Hr eq_refl); eexists; left; reflexivity.
Defined.

(** ** Requests *)

Definition resumable_segment_size (task : GfSpResumableUploadObjectTask.t) : nat :=
  Z.to_nat (MaxSegmentPieceSize (PayloadSize (GfSpResumableUploadObjectTask.ObjectInfo_ task))
              (MaxSegmentSize (GfSpResumableUploadObjectTask.StorageParams task))).

Section requests.
Context (GenerateChecksum : bytes -> bytes) (GenerateIntegrityHash : list bytes -> bytes).
Hypothesis checksum_nonempty : forall b, GenerateChecksum b <> [].
Hypothesis integrity_nonempty : forall l, GenerateIntegrityHash l <> [].

(** An accepted offset is a segment boundary in the recorded part, or the end of the payload. *)
Lemma accepted_offset info n P k task d d' :
  (0 < n)%nat -> is_int64 (len P) -> 0 < len P ->
  n = resumable_segment_size task -> PayloadSize (GfSpResumableUploadObjectTask.ObjectInfo_ task) = len P ->
  0 <= MaxSegmentSize (GfSpResumableUploadObjectTask.StorageParams task) <= MaxInt64 ->
  0 <= GfSpResumableUploadObjectTask.Offset task ->
  progress GenerateChecksum info n P k (tabs d) ->
  validateResumableUploadOffset info task d = (d', None) ->
  let offset := GfSpResumableUploadObjectTask.Offset task in
  exists i, offset <= len P /\ offset / Z.of_nat n = Z.of_nat i /\ (i <= k)%nat /\
    (offset = Z.of_nat (i * n) \/
     offset = len P /\ GfSpResumableUploadObjectTask.Completed task = true).
Proof.
  intros Hn Hlen Hpos Hseg Hpay Hmax Hoff Hp. set (offset := GfSpResumableUploadObjectTask.Offset task) in *.
  unfold validateResumableUploadOffset. fold offset. rewrite Hpay.
  destruct (Z.eqb_spec (MaxSegmentSize (GfSpResumableUploadObjectTask.StorageParams task)) 0) as [|Hm0]; [done|].
  set (seg := if len P >? _ then _ else _). assert (seg = Z.of_nat n) as Hs.
  { unfold seg. rewrite Hseg. unfold resumable_segment_size, MaxSegmentPieceSize. rewrite Hpay.
    destruct (len P >? _); rewrite int64_wrap_id by go_lia; lia. }
  rewrite Hs. destruct ((offset >? len P) || _ || _) eqn:Hchk; [done|].
  apply orb_false_iff in Hchk as [ [Hc1 Hc2]%orb_false_iff Hc3]. zbool.
  destruct (get_progress GenerateChecksum checksum_nonempty info n P k d Hp)
    as (d1 & r & Hg & _ & _ & Hcom & Herr).
  intros Hv. assert (match r with
    | Err e => bool_decide (e = DbErr ErrRecordNotFound) = true /\ offset = 0
    | Ok (_, z) => offset <= z
    end) as Hr.
  { revert Hg Hv. unfold getPieceCheckSumListAndPieceSize. destruct (IsUpdating info).
    - destruct (GetShadowObjectIntegrity _ _ d) as [d2 [mm|e2] ]; intros [= <- <-].
      + destruct (Z.gtb_spec offset (sm_ObjectSize mm)); [done|]. intros _. lia.
      + case_bool_decide; [|done]. destruct (Z.eqb_spec offset 0); done.
    - destruct (GetObjectIntegrity _ _ d) as [d2 [mm|e2] ]; intros [= <- <-].
      + destruct (Z.gtb_spec offset (ObjectSize mm)); [done|]. intros _. lia.
      + case_bool_decide; [|done]. destruct (Z.eqb_spec offset 0); done. }
  assert (offset <= size_upto n P k) as Hle.
  { destruct (decide (fates d (calls d) = Committed)) as [Hc|Hc].
    - specialize (Hcom Hc). destruct k; subst r; [destruct Hr as [_ ->]; unfold size_upto, len; lia|done].
    - destruct (Herr Hc) as (e & -> & Hne). destruct Hr as [Hr _]. by rewrite bool_decide_false in Hr. }
  exists (Z.to_nat (offset / Z.of_nat n)).
  assert (0 <= offset / Z.of_nat n) by (apply Z.div_pos; lia).
  rewrite Z2Nat.id by done. split; [done|]. split; [done|].
  assert (offset / Z.of_nat n <= Z.of_nat k).
  { apply Z.div_le_upper_bound; [lia|]. unfold size_upto in Hle. lia. }
  split; [lia|]. destruct (Z.eq_dec offset (len P)) as [Heq|Hne].
  - right. split; [done|]. rewrite Heq, Z.eqb_refl in Hc2. by destruct (GfSpResumableUploadObjectTask.Completed task).
  - left. destruct (Z.ltb_spec offset (len P)); [|lia]. cbn [andb] in Hc3. apply negb_false_iff, Z.eqb_eq in Hc3.
    pose proof (Z.div_mod offset (Z.of_nat n)). lia.
Qed.
End requests.

(** C8: a request of a resumable upload, accepted by the offset check and sending the payload
    (or a beginning of its rest) from its offset on, only moves the progress forward,
    whatever the database and the puts do: afterwards the database lists the checksums of
    the first [k'] segments, [k' >= k], and those segments are stored.  If it returns no
    error, everything it sent is among them; if it was also the completing request, all
    segments are, the integrity hash is recorded, the same as on the chain (but for agent
    uploads), and the progress is UPLOAD_OBJECT_DONE. *)
Theorem resumable_request_progress {PS} `{!PieceStore PS} `{!PieceStoreSound PS} GenerateChecksum GenerateIntegrityHash
  (now : Z) info task stream P m k0 k d0 d0' (w w' : world PS) ret err :
  (forall b, GenerateChecksum b <> []) -> (forall l, GenerateIntegrityHash l <> []) ->
  let n := resumable_segment_size task in
  let offset := GfSpResumableUploadObjectTask.Offset task in
  let completed := GfSpResumableUploadObjectTask.Completed task in
  0 < len P <= MaxInt64 -> PayloadSize (GfSpResumableUploadObjectTask.ObjectInfo_ task) = len P ->
  0 <= MaxSegmentSize (GfSpResumableUploadObjectTask.StorageParams task) <= MaxInt64 ->
  Z.of_nat (segments_count n P) <= MaxUint32 -> 0 <= offset ->
  progress GenerateChecksum info n P k0 (tabs d0) -> validateResumableUploadOffset info task d0 = (d0', None) ->
  (k0 <= k)%nat -> resumable_ok GenerateChecksum info n P k w ->
  (m <= length P)%nat -> delivered stream = drop (Z.to_nat offset) (take m P) ->
  (completed = true -> ending stream = EOF -> m = length P) ->
  resumable_body GenerateChecksum GenerateIntegrityHash now info task stream w = Some (w', ret, err) ->
  exists k', (k <= k')%nat /\ resumable_ok GenerateChecksum info n P k' w' /\
    (ret = None -> (segments_count n (take m P) <= k')%nat /\
       (completed = true ->
          completed_ok GenerateChecksum GenerateIntegrityHash info n P (GfSpResumableUploadObjectTask.IsAgentUpload task) w')).
Proof.
  intros Hgc Hgi n offset completed HP Hpay Hmax Hcount Hoff Hp0 Hval Hk0 Hok Hm Hd Hcov Hbody.
  assert (is_int64 (len P)) as Hlen by go_lia.
  unfold resumable_body in Hbody. rewrite Hpay in Hbody. fold offset completed in Hbody.
  destruct (Z.leb_spec (MaxSegmentPieceSize (len P) (MaxSegmentSize (GfSpResumableUploadObjectTask.StorageParams task))) 0) as [|Hseg]; [done|].
  assert (Z.of_nat n = MaxSegmentPieceSize (len P) (MaxSegmentSize (GfSpResumableUploadObjectTask.StorageParams task))) as Hnz.
  { unfold n, resumable_segment_size. rewrite Hpay. lia. }
  assert (0 < n)%nat as Hn by lia.
  assert (Z.of_nat n <= MaxInt64) as Hn64.
  { rewrite Hnz. unfold MaxSegmentPieceSize. destruct (len P >? MaxSegmentSize _); rewrite int64_wrap_id by go_lia; go_lia. }
  destruct (accepted_offset GenerateChecksum Hgc info n P k0 task d0 d0' Hn Hlen ltac:(lia) eq_refl Hpay Hmax Hoff Hp0 Hval)
    as (i & Hole & Hdiv & Hik & Hcase). fold offset in Hole, Hdiv, Hcase.
  assert (uwrap 32 (swrap 64 offset /' MaxSegmentPieceSize (len P) (MaxSegmentSize (GfSpResumableUploadObjectTask.StorageParams task)))%go = Z.of_nat i) as Hsi.
  { rewrite <-Hnz. rewrite (int64_wrap_id offset) by go_lia. rewrite Z.quot_div_nonneg by lia. rewrite Hdiv.
    assert (Z.of_nat i <= Z.of_nat (segments_count n P)) by (destruct Hp0; lia).
    rewrite int64_wrap_id by go_lia. unfold uwrap. apply Z.mod_small. go_lia. }
  rewrite Hsi, <-Hnz, Nat2Z.id in Hbody.
  (* the bytes sent, from a segment boundary *)
  assert (exists m', (m' <= length P)%nat /\ delivered stream = drop (i * n) (take m' P) /\
    (i * n <= length P)%nat /\ at_segment n m' offset 0 i /\
    (completed = true -> ending stream = EOF -> (m' <= i * n)%nat \/ m' = length P) /\
    (m' = m \/ completed = true)) as (m' & Hm' & Hd' & Hil & Hat & Hcov' & Hmm).
  { destruct Hcase as [Ho|[Ho Hc] ].
    - exists m. rewrite Ho, Nat2Z.id in Hd. rewrite Ho in *. split_and!; [done..|unfold len in *; lia| |by right; apply Hcov|by left].
      unfold at_segment. destruct (decide (m <= i * n)%nat); [by left|]. right. lia.
    - assert (i * n <= length P)%nat as Hil.
      { pose proof (Z.mul_div_le offset (Z.of_nat n)). rewrite Hdiv in *. unfold len in *. lia. }
      exists (i * n)%nat. split_and!; [done| |done|left; lia|left; lia|by right].
      rewrite Hd. rewrite !drop_ge; [done|rewrite length_take; lia|rewrite length_take; unfold len in *; lia]. }
  destruct (Z.gtb_spec (len P) 0); [|lia].
  pose proof Hok as (Hprog & Hst & Hpss).
  destruct (get_progress GenerateChecksum Hgc info n P k (db w) Hprog) as (d1 & r & Hg & Ht1 & Hf1 & Hcom & Herr).
  rewrite Hg in Hbody.
  assert (resumable_ok GenerateChecksum info n P k (with_db d1 w)) as Hok1 by (by unfold resumable_ok, with_db; cbn; rewrite Ht1).
  destruct (decide (fates (db w) (calls (db w)) = Committed)) as [Hc|Hc].
  2:{ destruct (Herr Hc) as (e & -> & Hne). rewrite bool_decide_false in Hbody by done. injection Hbody as <- <- <-.
      exists k. by split_and!. }
  specialize (Hcom Hc).
  assert (resumable_loop GenerateChecksum GenerateIntegrityHash (upload_fuel stream) now info (len P) offset completed
    (GfSpResumableUploadObjectTask.IsAgentUpload task) n (checksums_of GenerateChecksum n P k) (size_upto n P k)
    stream (Z.of_nat i) 0 (with_db d1 w) = Some (w', ret, err)) as Hloop.
  { destruct k as [|k1]; subst r; [|exact Hbody]. rewrite bool_decide_true in Hbody by done.
    assert (size_upto n P 0 = 0) as -> by (unfold size_upto, len; lia). exact Hbody. }
  apply (resumable_loop_spec GenerateChecksum GenerateIntegrityHash Hgc info n P Hn Hlen Hgi Hn64 ltac:(lia) Hcount m' Hm')
    with (e0 := ending stream) in Hloop; [|by destruct Hprog|by replace (Nat.max k i) with k by lia|done|done|done|done|done].
  replace (Nat.max k i) with k in Hloop by lia. destruct Hloop as (k' & Hkk & Hok' & Hret).
  destruct Hmm as [-> |Hcomp]; [by exists k'|].
  destruct ret as [e|]; [exists k'; by split_and!|]. destruct (Hret eq_refl) as [_ Hdone]. specialize (Hdone Hcomp).
  exists (segments_count n P). destruct Hok' as ( [Hk'c _] & _). split; [lia|]. split; [by destruct Hdone|].
  intros _. split; [|done]. destruct (decide (segments_count n P < segments_count n (take m P))%nat) as [Hlt|]; [|lia].
  apply count_spec in Hlt; [|done]. rewrite length_take in Hlt.
  assert (segments_count n P < segments_count n P)%nat; [|lia]. apply count_spec; [done|]. lia.
Qed.

(** ** Witness: five bytes in segments of two, the first two segments in a first request *)

Local Definition ex_obj : ObjectInfo := mkObjectInfo "b" "o" 7 5 REDUNDANCY_EC_TYPE 0 false.
Local Definition ex_task : GfSpResumableUploadObjectTask.t :=
  GfSpResumableUploadObjectTask.InitResumableUploadObjectTask 1 ex_obj (mkParams 2 4 2 100) 60 false 0 false 100 100.
Local Definition ex_info : UploadInfo := mkUploadInfo 7 0 [] false true.
Local Definition ex_payload : bytes := [Byte.x61; Byte.x62; Byte.x63; Byte.x64; Byte.x65].
Local Definition ex_stream : reader := Reader [ [Byte.x61]; [Byte.x62; Byte.x63; Byte.x64] ] [] EOF.
Local Definition ex_world : world (StoreClient memoryStore) :=
  mkWorld (NewStoreClient "memory" (newMemoryStore "m"))
    (mkSpdb (mkTables ∅ ∅ ∅ ∅) (fun _ => Committed) 0) [].
Local Definition ex_hash (b : bytes) : bytes := Byte.x00 :: b.
Local Definition ex_integrity (l : list bytes) : bytes := Byte.x00 :: concat l.

Lemma resumable_request_progress_witness :
  exists w' k', resumable_body ex_hash ex_integrity 200 ex_info ex_task ex_stream ex_world = Some (w', None, None) /\
    (2 <= k')%nat /\ resumable_ok ex_hash ex_info 2 ex_payload k' w'.
Proof.
  assert (exists w', resumable_body ex_hash ex_integrity 200 ex_info ex_task ex_stream ex_world = Some (w', None, None))
    as [w' Hw] by (eexists; vm_compute; reflexivity).
  assert (resumable_ok ex_hash ex_info 2 ex_payload 0 ex_world) as Hok
    by (split_and!; [vm_compute; split; [lia|done]|intros ??; lia|done]).
  destruct (resumable_request_progress ex_hash ex_integrity 200 ex_info ex_task ex_stream ex_payload 4 0 0
    (db ex_world) (validateResumableUploadOffset ex_info ex_task (db ex_world)).1 ex_world w' None None)
    as (k' & _ & Hk' & Hret);
    [done|done|vm_compute; split; [reflexivity|discriminate]|reflexivity|vm_compute; split; discriminate
    |vm_compute; discriminate|vm_compute; discriminate|exact (proj1 Hok)|vm_compute; reflexivity|lia|exact Hok
    |vm_compute; lia|vm_compute; reflexivity|discriminate|exact Hw|].
  assert (resumable_segment_size ex_task = 2%nat) as Hn by (vm_compute; reflexivity).
  rewrite Hn in Hk', Hret. exists w', k'. split; [exact Hw|]. split; [|exact Hk'].
  destruct (Hret eq_refl) as [H2 _]. exact H2.
Defined.
