(* ===== verification/Downloader.v ===== *)
(** modular/downloader: reading objects and pieces.  A read is admitted when its quota was
    charged; a range of an object is split over its segments, each read from the piece
    cache or the piece store; a challenge is answered with the piece and its integrity
    metadata.

    The cache is the LRU cache of golang-lru, through a class.  [error_text] is the text of
    a storage error.  [None] is a panic. *)
From Stdlib Require Import ZArith Lia String.
From stdpp Require Import base gmap list strings pretty.
From S2P Require Import Prelude Strconv Sql Checksum Storage PieceStore PieceOp Hex UploadDb Traffic TaskKey Task TaskTypes.

Local Open Scope Z_scope.

(** ** The piece cache *)

(** A lookup may change the order in which entries are evicted. *)
Class PieceCache (C : Type) := {
  cache_Get : string -> C -> C * option bytes;
  cache_Add : string -> bytes -> C -> C;
}.

(** What is found was added before, under its key; entries may disappear at any time. *)
Class PieceCacheLaws (C : Type) `{!PieceCache C} := {
  holds : C -> string -> bytes -> Prop;
  get_holds key c c' v : cache_Get key c = (c', Some v) -> holds c key v;
  get_keeps key c c' o k v : cache_Get key c = (c', o) -> holds c' k v -> holds c k v;
  add_holds key v c k v' : holds (cache_Add key v c) k v' -> (k = key /\ v' = v) \/ holds c k v';
}.

Definition cacheKey (pieceKey : string) (offset length : Z) : string :=
  "piece:" +:+ pieceKey +:+ "-offset:" +:+ pretty offset +:+ "-length:" +:+ pretty length.

(** ** Errors *)

Module Download.
Inductive error :=
| ErrDanglingPointer
| ErrObjectUnsealed
| ErrExceedRequest
| ErrExceedBucketQuota
| ErrInvalidParam
| ErrNoSuchPiece
| ErrKeyFormat
| ErrAccountFrozen
| ErrDownloadStatus
| ErrPaymentStatusUnknown
| ErrPieceStoreWithDetail (e : storage_error)
| ErrPieceStoreNoSuchKeyWithDetail (e : storage_error)
| ErrTrafficWithDetail (what : string) (e : traffic_error)
| ErrGfSpDBWithDetail (what : string) (e : db_error)
| ErrConsensusWithDetail (e : string)
| RawConsensus (e : string)
| RawTraffic (e : sql_error).
End Download.

(** ** What the handlers read of the chain's records *)

Inductive ObjectStatus := OBJECT_STATUS_CREATED | OBJECT_STATUS_SEALED | OBJECT_STATUS_DISCONTINUED.

#[export] Instance ObjectStatus_eq_dec : EqDecision ObjectStatus.
Proof. solve_decision. Defined.

(** The fields of ObjectInfo and BucketInfo besides those of [TaskTypes]. *)
Record ObjectMeta := mkObjectMeta { o_Id : Z; o_Version : Z; o_Status : ObjectStatus }.

Record BucketMeta := mkBucketMeta { b_Id : Z; b_ChargedReadQuota : Z; b_FamilyId : Z }.

(** The answer to GetPaymentByBucketName. *)
Inductive payment_answer := PaymentError | PaymentMissing | PaymentRecord (active : bool).

(** ** Admission *)

(** The fates of the four statements, the clocks of the two that write, and the answer of
    the chain on the free quota. *)
Record quota_calls := mkCalls {
  get_fate : fate;
  free_quota : result string Z;
  init_fate : fate;
  init_now : Z;
  check_fate : fate;
  add_fate : fate;
  check_now : Z;
}.

Section quota.
Context (zone : Z -> Z).

(** CheckQuotaAndAddReadRecord with the errors of the handlers. *)
Definition check_read (c : quota_calls) (record : ReadRecord) (quota : BucketQuota) (db : traffic_db)
  : traffic_db * option Download.error :=
  let '(db, r) := CheckQuotaAndAddReadRecord zone (check_fate c) (add_fate c) record quota (check_now c) db in
  (db, match r with
       | Ok _ => None
       | Err ErrCheckQuotaEnough => Some Download.ErrExceedBucketQuota
       | Err e => Some (Download.ErrTrafficWithDetail "failed to check bucket quota" e)
       end).

(** The first read of a month creates the bucket's row. *)
Definition charge_read (monthlyFreeQuota : Z) (c : quota_calls) (record : ReadRecord) (charged : Z)
  (check_free : Z -> Z) (db : traffic_db) : traffic_db * option Download.error :=
  let yearMonth := TimestampYearMonth zone (ReadTimestampUs record) in
  match get_fate c with
  | Committed =>
    match GetBucketTraffic (rr_BucketID record) yearMonth db with
    | Ok _ => check_read c record (mkQuota charged (check_free 0) 0) db
    | Err ErrRecordNotFound =>
      match free_quota c with
      | Err e => (db, Some (Download.ErrConsensusWithDetail e))
      | Ok freeQuotaSize =>
        let '(db, r) := InitBucketTraffic zone (init_fate c) record
          (mkQuota charged freeQuotaSize monthlyFreeQuota) (init_now c) db in
        match r with
        | Err e => (db, Some (Download.ErrTrafficWithDetail "failed to init bucket traffic" e))
        | Ok _ => check_read c record (mkQuota charged (check_free freeQuotaSize) 0) db
        end
      end
    | Err e => (db, Some (Download.RawTraffic e))
    end
  | _ => (db, Some (Download.RawTraffic ErrConnection))
  end.
End quota.

(** The object must be sealed, or be created with its integrity metadata in the database. *)
Definition readable (object : ObjectMeta) (d : spdb) : spdb * bool :=
  match o_Status object with
  | OBJECT_STATUS_SEALED => (d, true)
  | OBJECT_STATUS_CREATED =>
    let '(d, r) := GetObjectIntegrity (o_Id object) (-1) d in
    (d, match r with Ok _ => true | Err _ => false end)
  | OBJECT_STATUS_DISCONTINUED => (d, false)
  end.

Definition PreDownloadObject (zone : Z -> Z) (monthlyFreeQuota nowUs : Z) (c : quota_calls) (valid : bool)
  (object : ObjectMeta) (bucket : BucketMeta) (task : GfSpDownloadObjectTask.t) (payment : payment_answer)
  (d : spdb) (t : traffic_db) : spdb * traffic_db * option Download.error :=
  if negb valid then (d, t, Some Download.ErrDanglingPointer)
  else
    let '(d, ok) := readable object d in
    if negb ok then (d, t, Some Download.ErrDownloadStatus)
    else
      match payment with
      | PaymentError | PaymentMissing => (d, t, Some Download.ErrPaymentStatusUnknown)
      | PaymentRecord false => (d, t, Some Download.ErrAccountFrozen)
      | PaymentRecord true =>
        let record := mkRead (b_Id bucket) (o_Id object) (GfSpTask.UserAddress (GfSpDownloadObjectTask.Task task))
          (bucket_name (GfSpDownloadObjectTask.BucketInfo_ task))
          (ObjectName (GfSpDownloadObjectTask.ObjectInfo_ task))
          (uwrap 64 (GfSpDownloadObjectTask.GetSize task)) nowUs in
        let '(t, e) := charge_read zone monthlyFreeQuota c record (b_ChargedReadQuota bucket) (fun free => free) t in
        (d, t, e)
      end.

(** util.GetBucketPrimarySPID: [family] is the answer on the bucket's family. *)
Definition GetBucketPrimarySPID (family : Z -> result string Z) (bucket : BucketMeta) : result string Z :=
  family (b_FamilyId bucket).

(** [sp] is the operator address of a storage provider. *)
Definition PreDownloadPiece (zone : Z -> Z) (monthlyFreeQuota nowUs : Z) (c : quota_calls) (valid : bool)
  (object : ObjectMeta) (bucket : BucketMeta) (task : GfSpDownloadPieceTask.t)
  (family : Z -> result string Z) (sp : Z -> result string string)
  (d : spdb) (t : traffic_db) : spdb * traffic_db * option Download.error :=
  if negb valid then (d, t, Some Download.ErrDanglingPointer)
  else
    let '(d, ok) := readable object d in
    if negb ok then (d, t, Some Download.ErrDownloadStatus)
    else
      match GetBucketPrimarySPID family bucket with
      | Err e => (d, t, Some (Download.RawConsensus e))
      | Ok bucketSPID =>
        match sp bucketSPID with
        | Err e => (d, t, Some (Download.RawConsensus e))
        | Ok operator =>
          if bool_decide (GfSpTask.UserAddress (GfSpDownloadPieceTask.Task task) = operator) then (d, t, None)
          else if GfSpDownloadPieceTask.EnableCheck task then
            let record := mkRead (b_Id bucket) (o_Id object)
              (GfSpTask.UserAddress (GfSpDownloadPieceTask.Task task))
              (bucket_name (GfSpDownloadPieceTask.BucketInfo_ task))
              (ObjectName (GfSpDownloadPieceTask.ObjectInfo_ task))
              (GfSpDownloadPieceTask.TotalSize task) nowUs in
            let '(t, e) := charge_read zone monthlyFreeQuota c record (b_ChargedReadQuota bucket) (fun _ => 0) t in
            (d, t, e)
          else (d, t, None)
        end
      end.

(** ** Splitting a range over the segments *)

Record SegmentPieceInfo := mkPieceInfo { SegmentPieceKey_ : string; Offset : Z; Length : Z }.

(** [n] indices are left, from [segmentPieceIndex]. *)
Fixpoint split_loop (n : nat) (objectID version segmentSize low high segmentPieceIndex : Z) : list SegmentPieceInfo :=
  match n with
  | O => []
  | S n =>
    let start := uwrap 64 (segmentPieceIndex * segmentSize) in
    let currentEnd := uwrap 64 (uwrap 64 (uwrap 64 (segmentPieceIndex + 1) * segmentSize) - 1) in
    let next := split_loop n objectID version segmentSize low high (uwrap 64 (segmentPieceIndex + 1)) in
    if low >? currentEnd then next
    else
      let currentStart := if low >? start then low else start in
      let piece currentEnd := mkPieceInfo (SegmentPieceKey objectID (uwrap 32 segmentPieceIndex) version)
        (uwrap 64 (currentStart - start)) (uwrap 64 (uwrap 64 (currentEnd - currentStart) + 1)) in
      if high <=? currentEnd then [piece high] else piece currentEnd :: next
  end.

Definition SplitToSegmentPieceInfos (object : ObjectMeta) (task : GfSpDownloadObjectTask.t)
  : result Download.error (list SegmentPieceInfo) :=
  let payloadSize := PayloadSize (GfSpDownloadObjectTask.ObjectInfo_ task) in
  let segmentSize := MaxSegmentSize (GfSpDownloadObjectTask.StorageParams task) in
  let low := GfSpDownloadObjectTask.Low task in
  let high := GfSpDownloadObjectTask.High task in
  if (payloadSize =? 0) || (low >=? swrap 64 payloadSize) || (high >=? swrap 64 payloadSize) || (high <? low)
  then Err Download.ErrInvalidParam
  else Ok (split_loop (Z.to_nat (SegmentPieceCount payloadSize segmentSize)) (o_Id object) (o_Version object)
             segmentSize (uwrap 64 low) (uwrap 64 high) 0).

(** ** Serving *)

Record downloader (C : Type) := mkDownloader {
  pieceCache : C;
  downloading : Z;
  downloadParallel : Z;
  challenging : Z;
  challengeParallel : Z;
}.
Arguments mkDownloader {C}.
Arguments pieceCache {C}.
Arguments downloading {C}.
Arguments downloadParallel {C}.
Arguments challenging {C}.
Arguments challengeParallel {C}.

Definition set_cache {C} (c : C) (m : downloader C) : downloader C :=
  mkDownloader c (downloading m) (downloadParallel m) (challenging m) (challengeParallel m).

(** [atomic.AddInt64(&n, 1) >= parallel]: the new count, and whether the request is refused. *)
Definition enter (parallel n : Z) : Z * bool :=
  let n := (n +' 1)%go in (n, n >=? parallel).

Definition leave (n : Z) : Z := (n +' -1)%go.

(** Requests that come and go: each counts from its first step to its last, also while it
    is being refused.  Fewer than 2^63 requests run at a time. *)
Record slots := mkSlots { count : Z; serving : gset nat; refusing : gset nat }.

Inductive slot_step (parallel : Z) (s : slots) : slots -> Prop :=
| slot_enter q :
    q ∉ serving s -> q ∉ refusing s -> Z.of_nat (size (serving s) + size (refusing s)) < MaxInt64 ->
    slot_step parallel s
      (let '(n, refused) := enter parallel (count s) in
       if refused : bool then mkSlots n (serving s) ({[q]} ∪ refusing s)
       else mkSlots n ({[q]} ∪ serving s) (refusing s))
| slot_leave q :
    q ∈ serving s -> slot_step parallel s (mkSlots (leave (count s)) (serving s ∖ {[q]}) (refusing s))
| slot_refused q :
    q ∈ refusing s -> slot_step parallel s (mkSlots (leave (count s)) (serving s) (refusing s ∖ {[q]})).

Inductive slots_reachable (parallel : Z) : slots -> Prop :=
| slots_start : slots_reachable parallel (mkSlots 0 ∅ ∅)
| slots_step s s' : slots_reachable parallel s -> slot_step parallel s s' -> slots_reachable parallel s'.

Section serve.
Context {PS C : Type} `{!PieceStore PS} `{!PieceCache C}.
Context (error_text : storage_error -> string).

Definition isErrNoSuchKey (e : storage_error) : bool := Contains (error_text e) "NoSuchKey".

Definition piece_error_of (e : storage_error) : Download.error :=
  if isErrNoSuchKey e then Download.ErrPieceStoreNoSuchKeyWithDetail e else Download.ErrPieceStoreWithDetail e.

(** The loop over the pieces of a range. *)
Fixpoint read_pieces (store : PS) (pieceInfos : list SegmentPieceInfo) (data : bytes) (c : C)
  : option (C * result Download.error bytes) :=
  match pieceInfos with
  | [] => Some (c, Ok data)
  | p :: pieceInfos =>
    let key := cacheKey (SegmentPieceKey_ p) (swrap 64 (Offset p)) (swrap 64 (Length p)) in
    let '(c, has) := cache_Get key c in
    match has with
    | Some pieceData => read_pieces store pieceInfos (data ++ pieceData) c
    | None =>
      match GetPiece store (SegmentPieceKey_ p) (swrap 64 (Offset p)) (swrap 64 (Length p)) with
      | None => None
      | Some (Err e) => Some (c, Err (piece_error_of e))
      | Some (Ok piece) => read_pieces store pieceInfos (data ++ piece) (cache_Add key piece c)
      end
    end
  end.

Definition HandleDownloadObjectTask (object : ObjectMeta) (task : GfSpDownloadObjectTask.t) (store : PS)
  (m : downloader C) : option (downloader C * result Download.error bytes) :=
  let '(_, refused) := enter (downloadParallel m) (downloading m) in
  if refused then Some (m, Err Download.ErrExceedRequest)
  else
    match SplitToSegmentPieceInfos object task with
    | Err e => Some (m, Err e)
    | Ok pieceInfos =>
      match read_pieces store pieceInfos [] (pieceCache m) with
      | None => None
      | Some (c, r) => Some (set_cache c m, r)
      end
    end.

(** A piece is looked up in the cache, never added to it. *)
Definition HandleDownloadPieceTask (task : GfSpDownloadPieceTask.t) (store : PS)
  (m : downloader C) : option (downloader C * result Download.error bytes) :=
  let '(_, refused) := enter (downloadParallel m) (downloading m) in
  if refused then Some (m, Err Download.ErrExceedRequest)
  else
    let offset := swrap 64 (GfSpDownloadPieceTask.PieceOffset task) in
    let length := swrap 64 (GfSpDownloadPieceTask.PieceLength task) in
    let '(c, has) := cache_Get (cacheKey (GfSpDownloadPieceTask.PieceKey task) offset length) (pieceCache m) in
    match has with
    | Some data => Some (set_cache c m, Ok data)
    | None =>
      match GetPiece store (GfSpDownloadPieceTask.PieceKey task) offset length with
      | None => None
      | Some (Err e) => Some (set_cache c m, Err (piece_error_of e))
      | Some (Ok pieceData) => Some (set_cache c m, Ok pieceData)
      end
    end.

(** ** Challenges *)

Definition PreChallengePiece (valid : bool) (object : ObjectMeta) : option Download.error :=
  if negb valid then Some Download.ErrDanglingPointer
  else if negb (bool_decide (o_Status object = OBJECT_STATUS_SEALED)) then Some Download.ErrObjectUnsealed
  else None.

(** The integrity hash, the checksums of the pieces, and the piece. *)
Definition HandleChallengePiece (object : ObjectMeta) (task : GfSpChallengePieceTask.t) (store : PS) (d : spdb)
  (m : downloader C) : option (downloader C * spdb * result Download.error (bytes * list bytes * bytes)) :=
  let '(_, refused) := enter (challengeParallel m) (challenging m) in
  if refused then Some (m, d, Err Download.ErrExceedRequest)
  else
    let segmentIdx := GfSpChallengePieceTask.SegmentIdx task in
    let redundancyIdx := GfSpChallengePieceTask.RedundancyIdx task in
    let pieceKey := ChallengePieceKey (o_Id object) segmentIdx redundancyIdx (o_Version object) in
    let '(d, r) := GetObjectIntegrity (o_Id object) redundancyIdx d in
    match r with
    | Err e => Some (m, d, Err (Download.ErrGfSpDBWithDetail "failed to get integrity hash" e))
    | Ok integrity =>
      if segmentIdx >=? Z.of_nat (length (PieceChecksumList integrity)) then
        Some (m, d, Err Download.ErrNoSuchPiece)
      else
        let '(c, has) := cache_Get (cacheKey pieceKey 0 (-1)) (pieceCache m) in
        let m := set_cache c m in
        match has with
        | Some piece => Some (m, d, Ok (IntegrityChecksum integrity, PieceChecksumList integrity, piece))
        | None =>
          match GetPiece store pieceKey 0 (-1) with
          | None => None
          | Some (Err e) => Some (m, d, Err (piece_error_of e))
          | Some (Ok data) => Some (m, d, Ok (IntegrityChecksum integrity, PieceChecksumList integrity, data))
          end
        end
    end.
End serve.
