(* ===== verification/DownloadFacts.v ===== *)
(** Lemmas on the downloader: a range of the payload is the concatenation of what the
    pieces of [SplitToSegmentPieceInfos] hold, and the piece cache agrees with the store. *)
From Stdlib Require Import ZArith Lia Ascii String.
From stdpp Require Import base gmap list strings pretty.
From S2P Require Import Prelude Strconv Sql Checksum Storage PieceStore PieceOp Hex UploadDb Traffic TaskKey Task TaskTypes Uploader UploadFacts Downloader.

Local Open Scope Z_scope.

(** ** Cache keys *)

Lemma cacheKey_inj k o l k' o' l' : cacheKey k o l = cacheKey k' o' l' -> k = k' /\ o = o' /\ l = l'.
Proof.
  unfold cacheKey. intros H.
  assert (forall a (x y : Z), ("piece:" +:+ a +:+ "-offset:" +:+ pretty x +:+ "-length:" +:+ pretty y
    = (("piece:" +:+ a +:+ "-offset") +:+ String ":"%char (pretty x +:+ "-length")) +:+ String ":"%char (pretty y))%string) as Hs.
  { intros. rewrite !string_app_assoc, !string_app_cons, !string_app_assoc. reflexivity. }
  rewrite !Hs in H. assert (forall z : Z, no_char ":"%char (pretty z)) as Hn by (intros; by apply pretty_no_char).
  apply split_last in H as [H Hl%(inj pretty) ]; [|done..].
  apply split_last in H as [H Ho%string_app_inv_r%(inj pretty) ];
    [|rewrite no_char_app; apply andb_True; by split..].
  apply string_app_inv_l, string_app_inv_r in H. done.
Qed.

(** ** Splitting *)

(** The bytes a piece of a range holds: part of a segment. *)
Definition piece_bytes (id version : Z) (n : nat) (P : bytes) (p : SegmentPieceInfo) (b : bytes) : Prop :=
  exists i, (i < segments_count n P)%nat /\ SegmentPieceKey_ p = SegmentPieceKey id (Z.of_nat i) version /\
    0 <= Offset p < len (segment n P i) /\ 0 < Length p <= len P /\ b = range_of (segment n P i) (Offset p) (Length p).

(** The range read from a segment, between [a] and [b] of the payload. *)
Lemma range_of_segment (n : nat) (P : bytes) (i a b : nat) :
  (i * n <= a)%nat -> (a <= b)%nat -> (b < (i + 1) * n)%nat -> (b < length P)%nat ->
  range_of (segment n P i) (Z.of_nat (a - i * n)) (Z.of_nat (b - a + 1)) = drop a (take (S b) P).
Proof.
  intros. unfold range_of, segment. destruct (Z.gtb_spec (Z.of_nat (b - a + 1)) 0); [|lia].
  rewrite !Nat2Z.id, take_drop_commute, take_take.
  replace (Nat.min (a - i * n + (b - a + 1)) n) with (b + 1 - i * n)%nat by lia.
  rewrite take_drop_commute, drop_drop. f_equal; [lia|]. f_equal. lia.
Qed.

Lemma length_segment (n : nat) (P : bytes) (i : nat) :
  (0 < n)%nat -> (i < segments_count n P)%nat -> len (segment n P i) = Z.min (Z.of_nat n) (len P - Z.of_nat (i * n)).
Proof.
  intros Hn Hi%count_spec; [|done]. unfold len, segment. rewrite length_take, length_drop. lia.
Qed.

Section split.
Context (id version : Z) (n : nat) (P : bytes) (low high : nat).
Hypothesis (Hn : (0 < n)%nat) (Hn64 : Z.of_nat n <= MaxInt64) (HP : len P <= MaxInt64).
Hypothesis (Hcount : Z.of_nat (segments_count n P) <= MaxUint32) (Hhigh : (high < length P)%nat).

Lemma split_loop_spec k i :
  (i + k = segments_count n P)%nat -> (i * n <= high)%nat -> (low <= high)%nat ->
  exists bs, Forall2 (piece_bytes id version n P)
      (split_loop k id version (Z.of_nat n) (Z.of_nat low) (Z.of_nat high) (Z.of_nat i)) bs /\
    concat bs = drop (Nat.max low (i * n)) (take (S high) P).
Proof using All.
  revert i. induction k as [|k IH]; intros i Hk Hi Hlow.
  { assert (i < segments_count n P)%nat by (apply count_spec; lia). lia. }
  assert (i < segments_count n P)%nat as Hc by lia. pose proof (length_segment n P i Hn Hc) as Hls. unfold len in HP, Hls |- *.
  cbn [split_loop]. assert (uwrap 64 (Z.of_nat i * Z.of_nat n) = Z.of_nat (i * n)) as Hstart.
  { rewrite uint64_wrap_id by go_lia. lia. }
  assert (uwrap 64 (Z.of_nat i + 1) = Z.of_nat (i + 1)) as Hnext by (rewrite uint64_wrap_id by go_lia; lia).
  assert (uwrap 64 (uwrap 64 (Z.of_nat (i + 1) * Z.of_nat n) - 1) = Z.of_nat ((i + 1) * n - 1)) as Hend.
  { rewrite (uint64_wrap_id (Z.of_nat (i + 1) * Z.of_nat n)) by go_lia. rewrite uint64_wrap_id by go_lia. lia. }
  assert (uwrap 32 (Z.of_nat i) = Z.of_nat i) as Hidx by (unfold uwrap; rewrite Z.mod_small; go_lia).
  rewrite Hstart, Hnext, Hend, Hidx.
  destruct (Z.gtb_spec (Z.of_nat low) (Z.of_nat ((i + 1) * n - 1))).
  { destruct (IH (i + 1)%nat) as (bs & Hbs & Hcat); [lia..|]. exists bs. split; [done|]. rewrite Hcat. f_equal. lia. }
  set (a := Nat.max low (i * n)).
  assert ((if Z.of_nat low >? Z.of_nat (i * n) then Z.of_nat low else Z.of_nat (i * n)) = Z.of_nat a) as ->.
  { unfold a. destruct (Z.gtb_spec (Z.of_nat low) (Z.of_nat (i * n))); lia. }
  assert (forall b, (a <= b)%nat -> (b < (i + 1) * n)%nat -> (b < length P)%nat ->
    piece_bytes id version n P (mkPieceInfo (SegmentPieceKey id (Z.of_nat i) version)
      (uwrap 64 (Z.of_nat a - Z.of_nat (i * n))) (uwrap 64 (uwrap 64 (Z.of_nat b - Z.of_nat a) + 1)))
      (drop a (take (S b) P))) as Hpiece.
  { intros b Hab Hb HbP. exists i. cbn [SegmentPieceKey_ Offset Length]. unfold len. rewrite Hls.
    rewrite (uint64_wrap_id (Z.of_nat b - Z.of_nat a)) by go_lia. rewrite !uint64_wrap_id by (unfold a; go_lia).
    split_and!; try done; try (unfold a in *; lia).
    rewrite <-(range_of_segment n P i a b) by (unfold a in *; lia). f_equal; unfold a in *; lia. }
  destruct (Z.leb_spec (Z.of_nat high) (Z.of_nat ((i + 1) * n - 1))).
  - exists [drop a (take (S high) P)]. split; [|by rewrite concat_cons, app_nil_r].
    constructor; [|constructor]. apply Hpiece; unfold a; lia.
  - destruct (IH (i + 1)%nat) as (bs & Hbs & Hcat); [lia..|].
    exists (drop a (take (S ((i + 1) * n - 1)) P) :: bs). split.
    + constructor; [|done]. apply Hpiece; unfold a; lia.
    + rewrite concat_cons, Hcat. replace (S ((i + 1) * n - 1)) with ((i + 1) * n)%nat by lia.
      replace (Nat.max low ((i + 1) * n)) with ((i + 1) * n)%nat by lia.
      rewrite <-(drop_take_drop (take (S high) P) a ((i + 1) * n)) by (unfold a; lia).
      rewrite take_take. do 3 f_equal. lia.
Qed.
End split.

(** The number of segments, as the piece operations count them. *)
Lemma seg_count_nat (m : nat) (P : bytes) :
  (0 < m)%nat -> seg_count (len P) (Z.of_nat m) = Z.of_nat (segments_count m P).
Proof.
  intros Hm. unfold seg_count, segments_count, len. rewrite Nat2Z.inj_div. f_equal. lia.
Qed.

Lemma SegmentPieceCount_nat (m : nat) (P : bytes) :
  (0 < m)%nat -> Z.of_nat m <= MaxInt64 -> 0 < len P <= MaxInt64 -> Z.of_nat (segments_count m P) <= MaxUint32 ->
  SegmentPieceCount (len P) (Z.of_nat m) = Z.of_nat (segments_count m P).
Proof.
  intros Hm Hm64 HP Hc. rewrite <-seg_count_nat by done. apply SegmentPieceCount_exact; [lia|done|].
  rewrite <-seg_count_nat in Hc by done. unfold seg_count in Hc.
  pose proof (Z.div_mod (len P + Z.of_nat m - 1) (Z.of_nat m) ltac:(lia)).
  pose proof (Z.mod_pos_bound (len P + Z.of_nat m - 1) (Z.of_nat m) ltac:(lia)). go_unfold. nia.
Qed.

(** The uploader cuts a payload shorter than a segment at its own size, the downloader at
    the size of a segment: the same segments. *)
Lemma segment_sizes_agree (max : Z) (P : bytes) :
  0 < max <= MaxInt64 -> 0 < len P <= MaxInt64 ->
  let n := Z.to_nat (MaxSegmentPieceSize (len P) max) in
  (0 < n)%nat /\ segments_count (Z.to_nat max) P = segments_count n P /\
  forall i, (i < segments_count n P)%nat -> segment (Z.to_nat max) P i = segment n P i.
Proof.
  intros Hmax HP. unfold MaxSegmentPieceSize. destruct (Z.gtb_spec (len P) max); rewrite int64_wrap_id by go_lia.
  { by split; [lia|]. }
  unfold len in *. rewrite Nat2Z.id.
  assert (forall m, (length P <= m)%nat -> segments_count m P = 1%nat) as Hone.
  { intros m Hm. assert (0 < segments_count m P)%nat by (apply count_spec; lia).
    destruct (decide (1 < segments_count m P)%nat) as [Hlt|]; [|lia]. apply count_spec in Hlt; lia. }
  rewrite !Hone by lia. split; [lia|]. split; [done|]. intros i Hi. assert (i = 0)%nat as -> by lia.
  unfold segment. by rewrite !take_ge by (rewrite ?length_drop; lia).
Qed.

(** ** Reading *)

Section read.
Context {PS C : Type} `{PL : PieceStoreLaws PS} `{CL : PieceCacheLaws C}.
Context (error_text : storage_error -> string).
Implicit Types (store : PS) (c : C) (p : SegmentPieceInfo).

(** What the cache holds of a stored piece is what the piece store has. *)
Definition coherent c store : Prop :=
  forall key offset limit v data,
    holds c (cacheKey key offset limit) v -> piece_at store key = Some data -> v = range_of data offset limit.

Lemma coherent_get c store key c' o : coherent c store -> cache_Get key c = (c', o) -> coherent c' store.
Proof. intros Hc Hg ????? Hh. eapply Hc, get_keeps; eauto. Qed.

Lemma coherent_add c store key offset limit data :
  coherent c store -> piece_at store key = Some data ->
  coherent (cache_Add (cacheKey key offset limit) (range_of data offset limit) c) store.
Proof.
  intros Hc Hp k o l v d Hh Hd. apply add_holds in Hh as [ [(-> & -> & ->)%cacheKey_inj ->]|Hh]; [congruence|by eapply Hc].
Qed.

Definition piece_reads store p (b : bytes) : Prop :=
  exists data, piece_at store (SegmentPieceKey_ p) = Some data /\ SegmentPieceKey_ p <> ""%string /\ is_int64 (len data) /\
    is_int64 (Length p) /\ 0 <= Offset p < len data /\ b = range_of data (Offset p) (Length p).

Lemma read_pieces_spec store ps bs data c :
  ps_ok store -> coherent c store -> Forall2 (piece_reads store) ps bs ->
  exists c', read_pieces error_text store ps data c = Some (c', Ok (data ++ concat bs)) /\ coherent c' store.
Proof.
  intros Hok Hc Hf. revert data c Hc. induction Hf as [|p b ps bs (d & Hd & Hk & Hl & Hlen & Hoff & ->) _ IH]; intros data c Hc.
  { exists c. cbn. by rewrite app_nil_r. }
  cbn [read_pieces]. rewrite !int64_wrap_id by go_lia.
  destruct (cache_Get _ c) as [c1 [v|] ] eqn:Hg; pose proof (coherent_get _ _ _ _ _ Hc Hg) as Hc1.
  - assert (v = range_of d (Offset p) (Length p)) as -> by (eapply Hc; [by eapply get_holds|done]).
    rewrite concat_cons, app_assoc. by apply IH.
  - rewrite (get_piece_law store _ d) by (done || lia). rewrite concat_cons, app_assoc. apply IH. by apply coherent_add.
Qed.
End read.

(** ** A cache

    An LRU cache of two entries, the newest first: the laws can hold. *)
Module LRU.
Definition t : Type := list (string * bytes).

Definition Get (key : string) (c : t) : t * option bytes :=
  match filter (fun e => e.1 = key) c with
  | [] => (c, None)
  | (k, v) :: _ => ((k, v) :: filter (fun e => e.1 <> key) c, Some v)
  end.

Definition Add (key : string) (v : bytes) (c : t) : t := take 2 ((key, v) :: filter (fun e => e.1 <> key) c).

#[export] Instance cache : PieceCache t := {| cache_Get := Get; cache_Add := Add |}.

#[export] Program Instance laws : PieceCacheLaws t := {| holds c k v := (k, v) ∈ c |}.
Next Obligation.
  intros key c c' v. cbn. unfold Get. destruct (filter (fun e => e.1 = key) c) as [|[k v'] l] eqn:E; [done|]. intros [= _ ->].
  assert ((k, v) ∈ filter (fun e : string * bytes => e.1 = key) c) as Hin by (rewrite E; by left).
  apply list_elem_of_filter in Hin as [Hk Hin]. cbn in Hk. by subst k.
Qed.
Next Obligation.
  intros key c c' o k v. cbn. unfold Get. destruct (filter (fun e => e.1 = key) c) as [|[k' v'] l] eqn:E; intros [= <- _]; [done|].
  intros [ [= -> ->]|Hin]%elem_of_cons.
  - assert ((k', v') ∈ filter (fun e : string * bytes => e.1 = key) c) as Hin by (rewrite E; by left).
    by apply list_elem_of_filter in Hin as [_ ?].
  - by apply list_elem_of_filter in Hin as [_ ?].
Qed.
Next Obligation.
  intros key v c k v' Hin. cbn in Hin. unfold Add in Hin.
  assert ((k, v') ∈ (key, v) :: filter (fun e : string * bytes => e.1 <> key) c) as Hin'.
  { rewrite <-(take_drop 2). apply elem_of_app. by left. }
  apply elem_of_cons in Hin' as [ [= -> ->]|Hin']; [by left|]. right. by apply list_elem_of_filter in Hin' as [_ ?].
Qed.
End LRU.
Export (hints) LRU.
