(* ===== verification/DownloadProps.v ===== *)
(** Properties of the downloader: a range that is read is that range of the payload, what
    was uploaded is read back and answers challenges, a read that is admitted was charged,
    and the number of requests served at a time is bounded. *)
From Stdlib Require Import ZArith Lia String.
From stdpp Require Import base gmap list strings pretty.
From S2P Require Import Prelude Strconv Sql Checksum Storage StorageLaws PieceStore PieceOp Hex UploadDb Traffic TrafficProps TaskKey Task TaskTypes TQueue Uploader UploadFacts UploadProps Downloader DownloadFacts.

Local Open Scope Z_scope.

Section reads.
Context {PS C : Type} `{PL : PieceStoreLaws PS} `{CL : PieceCacheLaws C}.
Context (error_text : storage_error -> string).
Implicit Types (m : downloader C) (P : bytes).

(** The segments of the payload are in the store. *)
Definition segments_stored (object : ObjectMeta) (n : nat) P (store : PS) : Prop :=
  forall i, (i < segments_count n P)%nat ->
    piece_at store (SegmentPieceKey (o_Id object) (Z.of_nat i) (o_Version object)) = Some (segment n P i).

Definition admits (parallel running : Z) : Prop := MinInt64 <= running /\ running + 1 < parallel <= MaxInt64.

Lemma enter_admitted parallel running : admits parallel running -> enter parallel running = (running + 1, false).
Proof.
  intros [? ?]. unfold enter. rewrite int64_wrap_id by go_lia. f_equal. destruct (Z.geb_spec (running + 1) parallel); [lia|done].
Qed.

Lemma split_infos object task P :
  let max := MaxSegmentSize (GfSpDownloadObjectTask.StorageParams task) in
  let low := GfSpDownloadObjectTask.Low task in
  let high := GfSpDownloadObjectTask.High task in
  0 < max <= MaxInt64 -> 0 < len P <= MaxInt64 -> PayloadSize (GfSpDownloadObjectTask.ObjectInfo_ task) = len P ->
  Z.of_nat (segments_count (Z.to_nat max) P) <= MaxUint32 -> 0 <= low <= high -> high < len P ->
  exists ps bs, SplitToSegmentPieceInfos object task = Ok ps /\
    Forall2 (piece_bytes (o_Id object) (o_Version object) (Z.to_nat max) P) ps bs /\
    concat bs = take (Z.to_nat (high - low + 1)) (drop (Z.to_nat low) P).
Proof.
  intros max low high Hmax HP Hpay Hcount Hlow Hhigh. unfold SplitToSegmentPieceInfos. fold max low high. rewrite Hpay.
  rewrite int64_wrap_id by go_lia.
  replace ((len P =? 0) || (low >=? len P) || (high >=? len P) || (high <? low)) with false
    by (symmetry; rewrite !orb_false_iff; lia).
  rewrite !uint64_wrap_id by go_lia.
  destruct (split_loop_spec (o_Id object) (o_Version object) (Z.to_nat max) P (Z.to_nat low) (Z.to_nat high))
    with (k := segments_count (Z.to_nat max) P) (i := 0%nat) as (bs & Hbs & Hcat); try (unfold len in *; lia).
  rewrite !Z2Nat.id in Hbs by lia. change (Z.of_nat 0) with 0 in Hbs.
  assert (Z.to_nat (SegmentPieceCount (len P) max) = segments_count (Z.to_nat max) P) as ->.
  { pose proof (SegmentPieceCount_nat (Z.to_nat max) P) as Hc. rewrite Z2Nat.id in Hc by lia. rewrite Hc by (done || lia).
    by rewrite Nat2Z.id. }
  eexists _, bs. split; [done|]. split; [exact Hbs|].
  rewrite Hcat, Nat.mul_0_l, Nat.max_0_r, take_drop_commute. do 2 f_equal. lia.
Qed.

(** Reading a range of an object whose segments are stored. *)
Lemma read_range object task (store : PS) m P :
  let max := MaxSegmentSize (GfSpDownloadObjectTask.StorageParams task) in
  let low := GfSpDownloadObjectTask.Low task in
  let high := GfSpDownloadObjectTask.High task in
  let n := Z.to_nat (MaxSegmentPieceSize (len P) max) in
  0 < max <= MaxInt64 -> 0 < len P <= MaxInt64 -> PayloadSize (GfSpDownloadObjectTask.ObjectInfo_ task) = len P ->
  Z.of_nat (segments_count n P) <= MaxUint32 -> 0 <= low <= high -> high < len P ->
  ps_ok store -> coherent (pieceCache m) store -> segments_stored object n P store ->
  admits (downloadParallel m) (downloading m) ->
  exists m', HandleDownloadObjectTask error_text object task store m
      = Some (m', Ok (take (Z.to_nat (high - low + 1)) (drop (Z.to_nat low) P))) /\
    coherent (pieceCache m') store /\ m' = set_cache (pieceCache m') m.
Proof.
  intros max low high n Hmax HP Hpay Hcount Hlow Hhigh Hok Hc Hst Had.
  destruct (segment_sizes_agree max P Hmax HP) as (Hn & Hcn & Hseg). fold n in Hn, Hcn, Hseg.
  unfold HandleDownloadObjectTask. rewrite enter_admitted by done.
  destruct (split_infos object task P) as (ps & bs & -> & Hbs & Hcat); try done; [by fold max; rewrite Hcn|].
  destruct (read_pieces_spec error_text store ps bs [] (pieceCache m) Hok Hc) as (c' & -> & Hc').
  { eapply Forall2_impl; [exact Hbs|]. intros p b (i & Hi & Hk & Ho & Hl & ->). fold max in Hi. rewrite Hcn in Hi.
    fold max in Ho |- *. rewrite Hseg in Ho |- * by done. exists (segment n P i). rewrite Hk.
    assert (len (segment n P i) <= len P) by (unfold len, segment; rewrite length_take, length_drop; lia).
    split; [by apply Hst|]. split; [unfold SegmentPieceKey; by destruct (_ =? 0)|].
    split_and!; done || (unfold len in *; go_lia). }
  rewrite app_nil_l, Hcat. eexists. split; [done|]. by destruct m.
Qed.
End reads.

(** ** What was uploaded *)

(** C17: an object that was uploaded without an error is read back: any range of it that a
    download asks for is that range of the payload that was sent, whatever the cache holds
    from before, as long as the cache agrees with the store. *)
Theorem uploaded_object_downloads {PS C} `{PL : PieceStoreLaws PS} `{CL : PieceCacheLaws C} error_text
  GenerateChecksum GenerateIntegrityHash now info task stream (u u' : uploader PS) object dtask (m : downloader C) :
  let P := delivered stream in
  let max := MaxSegmentSize (GfSpUploadObjectTask.StorageParams task.2) in
  let low := GfSpDownloadObjectTask.Low dtask in
  let high := GfSpDownloadObjectTask.High dtask in
  0 < max <= MaxInt64 -> is_int64 (len P) -> Z.of_nat (segments_count (task_segment_size task) P) <= MaxUint32 ->
  ps_ok (store (uworld u)) ->
  HandleUploadObjectTask GenerateChecksum GenerateIntegrityHash now info task stream u = Some (u', None) ->
  o_Id object = Id info -> o_Version object = Version info ->
  MaxSegmentSize (GfSpDownloadObjectTask.StorageParams dtask) = max ->
  PayloadSize (GfSpDownloadObjectTask.ObjectInfo_ dtask) = PayloadSize (GfSpUploadObjectTask.ObjectInfo_ task.2) ->
  0 <= low <= high -> high < len P ->
  coherent (pieceCache m) (store (uworld u')) -> admits (downloadParallel m) (downloading m) ->
  exists m', HandleDownloadObjectTask error_text object dtask (store (uworld u')) m
      = Some (m', Ok (take (Z.to_nat (high - low + 1)) (drop (Z.to_nat low) P))) /\
    coherent (pieceCache m') (store (uworld u')) /\ m' = set_cache (pieceCache m') m.
Proof.
  intros P max low high Hmax Hlen Hcount Hok Hu Hid Hver Hdmax Hdpay Hlow Hhigh Hc Had.
  apply upload_success in Hu as (Hok' & Hn & _ & Hpay & Hst & _); [|done..]. fold P in Hpay, Hst.
  apply (read_range error_text object dtask (store (uworld u')) m P); try done.
  all: rewrite ?Hdmax, ?Hdpay; fold P; try done; try (fold low high; go_lia).
  all: unfold task_segment_size in *; rewrite <-Hpay in *; fold max in Hcount, Hst; try done.
  intros i Hi. rewrite Hid, Hver. by apply Hst.
Qed.

(** ** Challenges *)

(** The metadata of a row that was written. *)
Lemma GetObjectIntegrity_row meta d :
  Forall (fun b => b <> []) (PieceChecksumList meta) -> fates d (calls d) = Committed ->
  integrity_table (ObjectID meta) (tabs d) !! (ObjectID meta, RedundancyIndex meta) = Some (integrity_row meta) ->
  GetObjectIntegrity (ObjectID meta) (RedundancyIndex meta) d = (mkSpdb (tabs d) (fates d) (S (calls d)), Ok meta).
Proof.
  intros Hne Hf Hrow. unfold GetObjectIntegrity, query. rewrite Hf, Hrow. cbn [integrity_row i_IntegrityChecksum i_PieceChecksumList].
  rewrite DecodeString_EncodeToString, checksum_list_roundtrip by done. by destruct meta.
Qed.

(** C23: A challenge on a segment of a new object (not the update of one) that was uploaded,
    and had no integrity metadata before, is answered, when the database answers and a
    challenge may run, with the segment, the checksums of all segments and their integrity
    hash: the checksum at the segment's index is the segment's, the hash is that of the
    checksums, and, but for uploads of an agent (whose checksum is not compared), it is the
    one on the chain. *)
Theorem challenge_answers_verify {PS C} `{PL : PieceStoreLaws PS} `{CL : PieceCacheLaws C} error_text
  GenerateChecksum GenerateIntegrityHash now info task stream (u u' : uploader PS) object ctask (m : downloader C) i :
  let P := delivered stream in
  let n := task_segment_size task in
  let d := db (uworld u') in
  (forall b, GenerateChecksum b <> []) ->
  is_int64 (len P) -> Z.of_nat (segments_count n P) <= MaxUint32 -> ps_ok (store (uworld u)) ->
  IsUpdating info = false ->
  integrity_table (Id info) (tabs (db (uworld u))) !! (Id info, PrimarySPRedundancyIndex) = None ->
  HandleUploadObjectTask GenerateChecksum GenerateIntegrityHash now info task stream u = Some (u', None) ->
  o_Id object = Id info -> o_Version object = Version info ->
  (i < segments_count n P)%nat -> GfSpChallengePieceTask.SegmentIdx ctask = Z.of_nat i ->
  GfSpChallengePieceTask.RedundancyIdx ctask = PrimarySPRedundancyIndex ->
  fates d (calls d) = Committed ->
  coherent (pieceCache m) (store (uworld u')) -> admits (challengeParallel m) (challenging m) ->
  exists m' d' hash checksums piece,
    HandleChallengePiece error_text object ctask (store (uworld u')) d m = Some (m', d', Ok (hash, checksums, piece)) /\
    piece = segment n P i /\ length checksums = segments_count n P /\
    checksums !! i = Some (GenerateChecksum piece) /\ hash = GenerateIntegrityHash checksums /\
    (GfSpUploadObjectTask.IsAgentUpload task.2 = false -> head (Checksums info) = Some hash) /\
    tabs d' = tabs d.
Proof.
  intros P n d Hgc Hlen Hcount Hok Hup Hfresh Hu Hid Hver Hi Hsi Hri Hf Hc Had.
  apply upload_success in Hu as (Hok' & Hn & _ & _ & Hst & _ & Hag & Hrec & _); [|done..]. fold P n in Hst, Hag, Hrec, Hn.
  destruct Hrec as [Hrec _]. rewrite Hup in Hrec. destruct Hrec as [_ Hrow]. rewrite Hfresh in Hrow. cbn [default] in Hrow.
  set (cs := checksums_of GenerateChecksum n P (segments_count n P)) in *.
  set (meta := mkIntegrityMeta (Id info) PrimarySPRedundancyIndex (GenerateIntegrityHash cs) cs (len P)) in *.
  assert (length cs = segments_count n P) as Hcs by (unfold cs, checksums_of; by rewrite length_fmap, length_seq).
  unfold HandleChallengePiece. rewrite enter_admitted, Hid, Hver, Hsi, Hri by done.
  assert (GetObjectIntegrity (Id info) PrimarySPRedundancyIndex d = (mkSpdb (tabs d) (fates d) (S (calls d)), Ok meta)) as ->.
  { apply (GetObjectIntegrity_row meta d); [apply Forall_fmap, Forall_true; intros; apply Hgc|done|exact Hrow]. }
  cbn [PieceChecksumList IntegrityChecksum meta]. rewrite Hcs. destruct (Z.geb_spec (Z.of_nat i) (Z.of_nat (segments_count n P))); [lia|].
  change (ChallengePieceKey (Id info) (Z.of_nat i) PrimarySPRedundancyIndex (Version info)) with (seg_key info i).
  specialize (Hst i Hi).
  assert (len (segment n P i) <= len P /\ 0 <= len (segment n P i)) by (unfold len, segment; rewrite length_take, length_drop; lia).
  assert (cs !! i = Some (GenerateChecksum (segment n P i))) as Hl.
  { unfold cs, checksums_of. by rewrite list_lookup_fmap, lookup_seq_lt. }
  destruct (cache_Get _ (pieceCache m)) as [c1 [v|] ] eqn:Hg.
  - assert (v = segment n P i) as ->.
    { rewrite <-(range_all (segment n P i) (-1)) by lia. eapply Hc; [by eapply get_holds|exact Hst]. }
    eexists _, _, _, _, _. split; [done|]. by split_and!.
  - rewrite (get_piece_law _ _ (segment n P i)); [|done|apply seg_key_nonempty|exact Hst|go_lia|go_lia|right; lia].
    rewrite range_all by lia. eexists _, _, _, _, _. split; [done|]. by split_and!.
Qed.

(** ** Admission *)

Section admission.
Context (zone : Z -> Z).

(** The row of the month that a read is charged to: the one that is there, or the one
    that the first read of the month creates. *)
Definition row_charged (monthlyFreeQuota : Z) (c : quota_calls) (record : ReadRecord) (charged : Z) (t : traffic_db)
  : option BucketTrafficTable :=
  match traffics t !! read_key zone record with
  | Some r => Some r
  | None =>
    match free_quota c with
    | Err _ => None
    | Ok free =>
      Some (new_month (rr_BucketID record) (read_key zone record).2 (rr_BucketName record)
        (match newest (rows_of (rr_BucketID record) (traffics t)) with None => free | Some r => FreeQuotaSize r end)
        (mkQuota charged free monthlyFreeQuota) (init_now c))
    end
  end.

Definition charged_db (record : ReadRecord) (charged now : Z) (r : BucketTrafficTable) (t : traffic_db) : traffic_db :=
  mkTrafficDB (<[read_key zone record := spend (ReadSize record) charged now r]> (traffics t))
    (reads t ++ [mkReadRow (next_read t) record]) (next_read t + 1).

Lemma check_read_charged c record quota t t' r :
  table_ok (traffics t) -> traffics t !! read_key zone record = Some r ->
  is_uint64 (ReadSize record) -> is_uint64 (q_ChargedQuotaSize quota) ->
  check_read zone c record quota t = (t', None) ->
  ReadSize record <= available (q_ChargedQuotaSize quota) r /\
  t' = charged_db record (q_ChargedQuotaSize quota) (check_now c) r t.
Proof.
  intros Ht Hr Hs Hq. unfold check_read, CheckQuotaAndAddReadRecord, updateConsumedQuota.
  destruct (transaction ErrTrafficConn _ _ t) as [t1 [ []|e] ] eqn:H1.
  2:{ by destruct e. }
  apply transaction_ok in H1 as [_ H1]. rewrite (update_consumed_exact zone record quota _ t r) in H1 by done.
  destruct (Z.leb_spec (ReadSize record) (available (q_ChargedQuotaSize quota) r)); [|done]. injection H1 as <-.
  destruct (transaction ErrInsertRead _ _ _) as [t2 [ []|e] ] eqn:H2; [|by destruct e].
  apply transaction_ok in H2 as [_ [= <-] ]. intros [= <-]. done.
Qed.

Lemma charge_read_charged monthly c record charged cf t t' :
  table_ok (traffics t) -> rr_BucketID record <> 0 -> is_uint64 (ReadSize record) -> is_uint64 charged ->
  is_uint64 monthly -> (forall f, free_quota c = Ok f -> is_uint64 f) ->
  charge_read zone monthly c record charged cf t = (t', None) ->
  exists r, row_charged monthly c record charged t = Some r /\ ReadSize record <= available charged r /\
    t' = charged_db record charged (check_now c) r t.
Proof.
  intros Ht Hb Hs Hq Hm Hfree. unfold charge_read, GetBucketTraffic, row_charged.
  destruct (get_fate c); try done. fold (read_key zone record).
  destruct (traffics t !! read_key zone record) as [r|] eqn:Hr.
  { intros H. exists r. split; [done|]. by apply (check_read_charged c record (mkQuota charged (cf 0) 0) t t' r) in H. }
  destruct (free_quota c) as [free|] eqn:Hf; [|done]. specialize (Hfree free eq_refl).
  unfold InitBucketTraffic. destruct (transaction ErrTrafficConn _ _ t) as [t1 [ []|e] ] eqn:H1; [|done].
  apply transaction_ok in H1 as [_ H1]. pose proof (init_change zone record (mkQuota charged free monthly) _ _ _ _ Hm H1) as Hch.
  unfold init_body in H1. fold (read_key zone record) in H1. rewrite Hr in H1. injection H1 as <-.
  intros H. eexists. split; [done|].
  apply table_ok_change in Hch; [|done|done|apply TimeToYearMonth_nonempty|done].
  eapply check_read_charged in H as [Ha ->]; [|done|by apply lookup_insert_eq|done|done].
  split; [exact Ha|]. unfold charged_db. cbn. by rewrite insert_insert_eq.
Qed.

(** With a database that answers, a read within what is available is admitted. *)
Record quota_works (c : quota_calls) : Prop := {
  qw_get : get_fate c = Committed;
  qw_init : init_fate c = Committed;
  qw_check : check_fate c = Committed;
  qw_add : add_fate c = Committed;
}.

Lemma check_read_admits c record quota t r :
  quota_works c -> table_ok (traffics t) -> traffics t !! read_key zone record = Some r ->
  is_uint64 (ReadSize record) -> is_uint64 (q_ChargedQuotaSize quota) -> ReadSize record <= available (q_ChargedQuotaSize quota) r ->
  (check_read zone c record quota t).2 = None.
Proof.
  intros [_ _ Hc Hadd] Ht Hr Hs Hq Ha. unfold check_read, CheckQuotaAndAddReadRecord, updateConsumedQuota, transaction.
  rewrite Hc, (update_consumed_exact zone record quota _ t r) by done. by rewrite (proj2 (Z.leb_le _ _)), Hadd by done.
Qed.

Lemma charge_read_admits monthly c record charged cf t r :
  quota_works c -> table_ok (traffics t) -> rr_BucketID record <> 0 -> is_uint64 (ReadSize record) -> is_uint64 charged ->
  is_uint64 monthly -> (forall f, free_quota c = Ok f -> is_uint64 f) ->
  row_charged monthly c record charged t = Some r -> ReadSize record <= available charged r ->
  (charge_read zone monthly c record charged cf t).2 = None.
Proof.
  intros Hw Ht Hb Hs Hq Hm Hfree. unfold charge_read, GetBucketTraffic, row_charged. rewrite (qw_get _ Hw). fold (read_key zone record).
  destruct (traffics t !! read_key zone record) as [r0|] eqn:Hr.
  { intros [= ->] Ha. by apply (check_read_admits c record (mkQuota charged (cf 0) 0) t r). }
  destruct (free_quota c) as [free|] eqn:Hf; [|done]. specialize (Hfree free eq_refl). intros [= <-] Ha.
  unfold InitBucketTraffic, transaction. rewrite (qw_init _ Hw).
  destruct (init_body zone record (mkQuota charged free monthly) (init_now c) t) as [ [t1 [] ]|] eqn:H1.
  2:{ unfold init_body in H1. fold (read_key zone record) in H1. by rewrite Hr in H1. }
  pose proof (init_change zone record (mkQuota charged free monthly) _ _ _ _ Hm H1) as Hch.
  unfold init_body in H1. fold (read_key zone record) in H1. rewrite Hr in H1. injection H1 as <-.
  apply table_ok_change in Hch; [|done|done|apply TimeToYearMonth_nonempty|done].
  eapply check_read_admits; [done|done|by apply lookup_insert_eq|done|done|exact Ha].
Qed.
End admission.

(** C24: a download that is admitted is metered, whatever the database does: its stream
    account is active, its object is sealed or created, and the bucket's row of this month
    was charged exactly its size, within what was available, and the read was recorded.
    Nothing else changes, and a failed statement refuses the read. *)
Theorem admitted_download_is_charged zone monthly nowUs c valid object bucket task payment d d' t t' :
  let record := mkRead (b_Id bucket) (o_Id object) (GfSpTask.UserAddress (GfSpDownloadObjectTask.Task task))
    (bucket_name (GfSpDownloadObjectTask.BucketInfo_ task))
    (ObjectName (GfSpDownloadObjectTask.ObjectInfo_ task)) (uwrap 64 (GfSpDownloadObjectTask.GetSize task)) nowUs in
  let charged := b_ChargedReadQuota bucket in
  table_ok (traffics t) -> b_Id bucket <> 0 -> is_uint64 charged -> is_uint64 monthly ->
  (forall f, free_quota c = Ok f -> is_uint64 f) ->
  PreDownloadObject zone monthly nowUs c valid object bucket task payment d t = (d', t', None) ->
  payment = PaymentRecord true /\ o_Status object <> OBJECT_STATUS_DISCONTINUED /\ tabs d' = tabs d /\
  exists r, row_charged zone monthly c record charged t = Some r /\ ReadSize record <= available charged r /\
    t' = charged_db zone record charged (check_now c) r t.
Proof.
  intros record charged Ht Hb Hq Hm Hfree. unfold PreDownloadObject. destruct valid; [|done]. cbn [negb].
  destruct (readable object d) as [d1 ok] eqn:Hr. destruct ok; [|done]. cbn [negb].
  destruct payment as [| |[] ]; try done. fold record charged.
  destruct (charge_read _ _ _ _ _ _ t) as [t1 e] eqn:Hc. intros [= <- <- ->].
  apply charge_read_charged in Hc as (r & Hrow & Ha & ->); [|done|done|cbn; unfold uwrap; pose proof (Z.mod_pos_bound (GfSpDownloadObjectTask.GetSize task) (2 ^ 64)); go_lia|done..].
  assert (o_Status object <> OBJECT_STATUS_DISCONTINUED /\ tabs d1 = tabs d) as [Hs Hd].
  { unfold readable in Hr. destruct (o_Status object); [|injection Hr as <-; done|done].
    unfold GetObjectIntegrity, query in Hr. by injection Hr as <-. }
  split_and!; [done..|]. by exists r.
Qed.

(** ** Slots *)

Definition slots_ok (parallel : Z) (s : slots) : Prop :=
  count s = Z.of_nat (size (serving s) + size (refusing s)) /\ count s <= MaxInt64 /\
  serving s ## refusing s /\ Z.of_nat (size (serving s)) <= Z.max 0 (parallel - 1).

Lemma slots_step_ok parallel s s' : slots_ok parallel s -> slot_step parallel s s' -> slots_ok parallel s'.
Proof.
  intros (Hc & Hm & Hd & Hb) [q Hs Hr Hlt|q Hq|q Hq].
  - unfold enter. rewrite int64_wrap_id by go_lia. destruct (Z.geb_spec (count s + 1) parallel); unfold slots_ok; cbn [count serving refusing];
      rewrite size_union_alt, difference_disjoint_L, size_singleton by set_solver; split_and!; try lia; set_solver.
  - unfold slots_ok, leave. cbn [count serving refusing]. pose proof (size_difference (serving s) {[q]} ltac:(set_solver)) as Hsz.
    rewrite size_singleton in Hsz. assert (size (serving s) <> 0%nat) by (apply size_non_empty_iff; set_solver).
    rewrite int64_wrap_id by go_lia. split_and!; try lia. set_solver.
  - unfold slots_ok, leave. cbn [count serving refusing]. pose proof (size_difference (refusing s) {[q]} ltac:(set_solver)) as Hsz.
    rewrite size_singleton in Hsz. assert (size (refusing s) <> 0%nat) by (apply size_non_empty_iff; set_solver).
    rewrite int64_wrap_id by go_lia. split_and!; try lia. set_solver.
Qed.

Lemma slots_reachable_ok parallel s : slots_reachable parallel s -> slots_ok parallel s.
Proof.
  induction 1 as [|s s' _ IH Hs]; [|by eapply slots_step_ok].
  unfold slots_ok. cbn. rewrite !size_empty. go_unfold. split_and!; [lia|lia|set_solver|lia].
Qed.

(** The first [k] requests all get in. *)
Lemma slots_fill parallel (k : nat) :
  Z.of_nat k < parallel <= MaxInt64 -> slots_reachable parallel (mkSlots (Z.of_nat k) (set_seq 0 k) ∅).
Proof.
  induction k as [|k IH]; intros Hk; [exact (slots_start parallel)|].
  eapply slots_step; [apply IH; lia|].
  pose proof (slot_enter parallel (mkSlots (Z.of_nat k) (set_seq 0 k) ∅) k) as H. cbn [count serving refusing] in H.
  rewrite enter_admitted in H by (unfold admits; go_lia).
  rewrite set_seq_S_end_union_L. replace (Z.of_nat (S k)) with (Z.of_nat k + 1) by lia. apply H; [set_solver by lia|set_solver|].
  rewrite size_set_seq, size_empty. lia.
Qed.

(** The counter of running downloads is the number of requests between their first and
    their last step, and fewer than [parallel] of them are ever served at a time: at most
    [parallel - 1], a bound that is reached, so with a limit of one nothing is served. *)
Theorem served_below_parallel parallel :
  (forall s, slots_reachable parallel s ->
     count s = Z.of_nat (size (serving s) + size (refusing s)) /\
     Z.of_nat (size (serving s)) <= Z.max 0 (parallel - 1)) /\
  (parallel <= MaxInt64 ->
     exists s, slots_reachable parallel s /\ Z.of_nat (size (serving s)) = Z.max 0 (parallel - 1)).
Proof.
  split; [by intros s (Hc & _ & _ & Hb)%slots_reachable_ok|]. intros Hp.
  destruct (Z.leb_spec parallel 0).
  - exists (mkSlots 0 ∅ ∅). split; [constructor|]. cbn. rewrite size_empty. lia.
  - eexists. split; [apply (slots_fill parallel (Z.to_nat (parallel - 1))); lia|]. cbn. rewrite size_set_seq. lia.
Qed.

(** ** Witnesses: the object of [UploadProps], five bytes in segments of two *)

Local Definition ex_hash (b : bytes) : bytes := Byte.x00 :: b.
Local Definition ex_integrity (l : list bytes) : bytes := concat l.
Local Definition ex_payload : bytes := delivered UploadProps.ex_stream.
Local Definition ex_info : UploadInfo :=
  mkUploadInfo 7 0 [ex_integrity (checksums_of ex_hash 2 ex_payload 3)] false true.
Local Definition ex_object : ObjectMeta := mkObjectMeta 7 0 OBJECT_STATUS_SEALED.
Local Definition ex_download : GfSpDownloadObjectTask.t :=
  GfSpDownloadObjectTask.InitDownloadObjectTask UploadProps.ex_obj (mkBucketInfo "b") (mkParams 2 4 2 100) 0 "user" 1 4 60 1 100 100.
Local Definition ex_challenge : GfSpChallengePieceTask.t :=
  GfSpChallengePieceTask.InitChallengePieceTask UploadProps.ex_obj (mkBucketInfo "b") (mkParams 2 4 2 100) 0 "user" (-1) 1 60 1 100 100.
Local Definition ex_text (e : storage_error) : string := "error"%string.
Local Definition ex_m : downloader LRU.t := mkDownloader [] 3 10 0 10.

Lemma ex_upload :
  exists u', HandleUploadObjectTask ex_hash ex_integrity 200 ex_info UploadProps.ex_task UploadProps.ex_stream UploadProps.ex_u
    = Some (u', None).
Proof. eexists. vm_compute. reflexivity. Qed.

Lemma coherent_empty (store : StoreClient memoryStore) : coherent ([] : LRU.t) store.
Proof. intros ????? H. by apply not_elem_of_nil in H. Qed.

Lemma uploaded_object_downloads_witness :
  exists (u' : uploader (StoreClient memoryStore)) m', 
    HandleDownloadObjectTask ex_text ex_object ex_download (store (uworld u')) ex_m
    = Some (m', Ok [Byte.x62; Byte.x63; Byte.x64; Byte.x65]).
Proof.
  destruct ex_upload as [u' Hu]. exists u'.
  destruct (uploaded_object_downloads ex_text ex_hash ex_integrity 200 ex_info UploadProps.ex_task UploadProps.ex_stream
    UploadProps.ex_u u' ex_object ex_download ex_m) as (m' & H & _);
    [vm_compute; split; [reflexivity|discriminate]|vm_compute; split; discriminate|vm_compute; discriminate|exact I|exact Hu
    |reflexivity|reflexivity|reflexivity|reflexivity|cbn; lia|vm_compute; reflexivity|apply coherent_empty
    |unfold admits; cbn; go_lia|].
  exists m'. exact H.
Defined.

Lemma challenge_answers_verify_witness :
  exists (u' : uploader (StoreClient memoryStore)) m' d' hash checksums,
    HandleChallengePiece ex_text ex_object ex_challenge (store (uworld u')) (db (uworld u')) ex_m
    = Some (m', d', Ok (hash, checksums, [Byte.x63; Byte.x64])) /\
    head (Checksums ex_info) = Some hash.
Proof.
  destruct ex_upload as [u' Hu]. exists u'.
  assert (fates (db (uworld u')) (calls (db (uworld u'))) = Committed) as Hf
    by (vm_compute in Hu; injection Hu as <-; reflexivity).
  destruct (challenge_answers_verify ex_text ex_hash ex_integrity 200 ex_info UploadProps.ex_task UploadProps.ex_stream
    UploadProps.ex_u u' ex_object ex_challenge ex_m 1) as (m' & d' & hash & cs & piece & H & Hp & _ & _ & _ & Hh & _);
    [discriminate|vm_compute; split; discriminate|vm_compute; discriminate|exact I|reflexivity|reflexivity|exact Hu
    |reflexivity|reflexivity|vm_compute; lia|reflexivity|reflexivity|exact Hf|apply coherent_empty
    |unfold admits; cbn; go_lia|].
  exists m', d', hash, cs. split; [|exact (Hh eq_refl)].
  rewrite H, Hp. reflexivity.
Defined.

Local Definition ex_calls : quota_calls := mkCalls Committed (Ok 100) Committed 1 Committed Committed 2.

Lemma admitted_download_is_charged_witness :
  exists t', PreDownloadObject (fun _ => 0) 50 1700000000000000 ex_calls true ex_object (mkBucketMeta 7 60 1) ex_download
      (PaymentRecord true) (mkSpdb (mkTables ∅ ∅ ∅ ∅) (fun _ => Committed) 0) (mkTrafficDB ∅ [] 1)
    = (mkSpdb (mkTables ∅ ∅ ∅ ∅) (fun _ => Committed) 0, t', None) /\
    option_map ReadConsumedSize (traffics t' !! (7, "2023-11"%string)) = Some 4.
Proof.
  eexists. split; [vm_compute; reflexivity|].
  destruct (admitted_download_is_charged (fun _ => 0) 50 1700000000000000 ex_calls true ex_object (mkBucketMeta 7 60 1) ex_download
    (PaymentRecord true) (mkSpdb (mkTables ∅ ∅ ∅ ∅) (fun _ => Committed) 0) (mkSpdb (mkTables ∅ ∅ ∅ ∅) (fun _ => Committed) 0)
    (mkTrafficDB ∅ [] 1) _ ltac:(intros k r; cbn; by rewrite lookup_empty) ltac:(done) ltac:(cbn; go_lia) ltac:(go_lia)
    ltac:(intros f [= <-]; go_lia) ltac:(vm_compute; reflexivity)) as (_ & _ & _ & r & Hr & _ & Ht).
  vm_compute in Hr. injection Hr as <-. rewrite Ht. vm_compute. reflexivity.
Defined.
