(* ===== verification/Receiver.v ===== *)
(** modular/receiver/receive_task.go: a secondary provider receives the pieces of an
    object, and when all of them are there verifies their integrity hash against the chain
    and signs it.

    The chain, the signer and the report to the manager are answers given as arguments;
    [scan] is the order in which the database finds the rows of replicated pieces. *)
From Stdlib Require Import ZArith Lia String.
From stdpp Require Import base gmap list strings pretty.
From S2P Require Import Prelude Strconv Sql Checksum Storage PieceStore PieceOp Hex UploadDb Limit TaskKey Task TaskTypes TQueue Uploader.

Local Open Scope Z_scope.

Module Receive.
Inductive error :=
| ErrDanglingTask
| ErrRepeatedTask
| ErrUnfinishedTask
| ErrInvalidDataChecksum
| ErrPieceStoreWithDetail (e : storage_error)
| ErrGfSpDBWithDetail (what : string) (e : db_error)
| ErrQueryWithDetail (what : string) (e : string)
| RawQueue (e : queue_error)
| RawStore (e : storage_error)
| RawDb (e : db_error)
| RawClient (e : string).
End Receive.

Definition receive_task : Type := nat * GfSpReceivePieceTask.t.

#[export] Instance receive_queue_task : QueueTask receive_task := {
  qkey p := Key p.2;
  qcreate p := GetCreateTime p.2;
  qestimate p := default GfSpLimit.zero (EstimateLimit p.2)
}.

(** What the receiver reads of the object on the chain. *)
Record ChainObject := mkChainObject {
  co_Checksums : list bytes;
  co_IsUpdating : bool;
  co_Created : bool;
}.

(** The answers of a call to HandleDoneReceivePieceTask: the object and its shadow ([None]:
    not found), the signature over the checksums, the primary provider of the virtual group
    and the provider's own id. *)
Record done_answers := mkAnswers {
  QueryObjectInfoByID : result string (option ChainObject);
  QueryShadowObjectInfo : result string (option (list bytes));
  SignSecondarySealBls : list bytes -> result string bytes;
  QueryGlobalVirtualGroup : result string Z;
  QuerySP : result string Z;
}.

Record receiver (PS : Type) := mkReceiver {
  receiveQueue : GfSpTQueue receive_task;
  rcv_store : PS;
  rcv_db : spdb;
  spID : Z;
  started_reports : list TKey;
}.
Arguments mkReceiver {PS}.
Arguments receiveQueue {PS}.
Arguments rcv_store {PS}.
Arguments rcv_db {PS}.
Arguments spID {PS}.
Arguments started_reports {PS}.

Section receiver.
Context {PS : Type} `{!PieceStore PS}.
Context (GenerateChecksum : bytes -> bytes) (GenerateIntegrityHash : list bytes -> bytes).
Implicit Types (r : receiver PS) (info : UploadInfo) (task : receive_task).

Definition set_queue (q : GfSpTQueue receive_task) r : receiver PS :=
  mkReceiver q (rcv_store r) (rcv_db r) (spID r) (started_reports r).
Definition set_db (d : spdb) r : receiver PS :=
  mkReceiver (receiveQueue r) (rcv_store r) d (spID r) (started_reports r).

(** The checksum that the primary provider put on the task. *)
Definition piece_checksum task : bytes := byte_of <$> GfSpReceivePieceTask.PieceChecksum task.2.

(** ** HandleReceivePieceTask

    The error returned and the error set on the task. *)

Definition received_key info task : string :=
  let segmentIdx := GfSpReceivePieceTask.SegmentIdx task.2 in
  if bool_decide (RedundancyType_ (GfSpReceivePieceTask.ObjectInfo_ task.2) = REDUNDANCY_EC_TYPE)
  then ECPieceKey (Id info) segmentIdx (uwrap 32 (GfSpReceivePieceTask.RedundancyIdx task.2)) (Version info)
  else SegmentPieceKey (Id info) segmentIdx (Version info).

Definition receive_body (now : Z) info task (data : bytes) r
  : option (receiver PS * option Receive.error * option Receive.error) :=
  if negb (bool_decide (GenerateChecksum data = piece_checksum task)) then
    Some (r, Some Receive.ErrInvalidDataChecksum, Some Receive.ErrInvalidDataChecksum)
  else
    let '(d, err) := SetReplicatePieceChecksum (Id info) (GfSpReceivePieceTask.SegmentIdx task.2)
      (GfSpReceivePieceTask.RedundancyIdx task.2) (piece_checksum task) (Version info) (rcv_db r) in
    let r := set_db d r in
    match err with
    | Some e => Some (r, Some (Receive.ErrGfSpDBWithDetail "failed to set checksum to db" e), Some (Receive.RawDb e))
    | None =>
      match PutPiece now (rcv_store r) (received_key info task) data with
      | None => None
      | Some (s, err) =>
        let r := mkReceiver (receiveQueue r) s (rcv_db r) (spID r) (started_reports r) in
        match err with
        | Some e => Some (r, Some (Receive.ErrPieceStoreWithDetail e), Some (Receive.RawStore e))
        | None => Some (r, None, None)
        end
      end
    end.

Definition HandleReceivePieceTask (now : Z) info task (data : bytes) r
  : option (receiver PS * option Receive.error * option Receive.error) :=
  let '(q, has) := Has now (qkey task) (receiveQueue r) in
  let r := set_queue q r in
  if has : bool then Some (r, Some Receive.ErrRepeatedTask, Some Receive.ErrRepeatedTask)
  else
    let '(q, pushed) := Push now task (receiveQueue r) in
    let r := set_queue q r in
    match pushed with
    | Some e => Some (r, Some (Receive.RawQueue e), Some (Receive.RawQueue e))
    | None =>
      match receive_body now info task data r with
      | None => None
      | Some (r, ret, err) => Some (set_queue (PopByKey now (qkey task) (receiveQueue r)).1 r, ret, err)
      end
    end.

(** ** HandleDoneReceivePieceTask *)

Definition expectedSealChecksums (a : done_answers) (chainObject : ChainObject) info task
  : result Receive.error (list bytes) :=
  rbind (if co_IsUpdating chainObject then
           match QueryShadowObjectInfo a with
           | Err e => Err (Receive.RawClient e)
           | Ok None => Err Receive.ErrInvalidDataChecksum
           | Ok (Some checksums) => Ok checksums
           end
         else Ok (co_Checksums chainObject))
    (fun chainChecksums =>
       if bool_decide (chainChecksums <> []) then Ok chainChecksums
       else
         let unsealed := co_Created chainObject || co_IsUpdating chainObject in
         if negb (GfSpReceivePieceTask.IsAgentUploadTask task.2) || negb unsealed
         then Err Receive.ErrInvalidDataChecksum
         else Ok (Checksums info)).

Definition getSPID (a : done_answers) r : receiver PS * result string Z :=
  if negb (spID r =? 0) then (r, Ok (spID r))
  else match QuerySP a with
       | Err e => (r, Err e)
       | Ok id => (mkReceiver (receiveQueue r) (rcv_store r) (rcv_db r) id (started_reports r), Ok id)
       end.

(** The checksums to verify: those of the received pieces, or those of integrity metadata
    written before; [true] when that is there already. *)
Definition collect_checksums (scan : list PieceHashTable) info task (d : spdb)
  : spdb * result (Receive.error * Receive.error) (list bytes * bool) :=
  let redundancyIdx := GfSpReceivePieceTask.RedundancyIdx task.2 in
  let segmentCount := SegmentPieceCount (PayloadSize (GfSpReceivePieceTask.ObjectInfo_ task.2))
    (MaxSegmentSize (GfSpReceivePieceTask.StorageParams task.2)) in
  let '(d, res) := GetAllReplicatePieceChecksumOptimized scan (Id info) redundancyIdx segmentCount d in
  match res with
  | Err e => (d, Err (Receive.ErrGfSpDBWithDetail "failed to get checksum from db" e, Receive.RawDb e))
  | Ok pieceChecksums =>
    if negb (Z.of_nat (length pieceChecksums) =? segmentCount) then
      let '(d, res) := GetObjectIntegrity (Id info) redundancyIdx d in
      match res with
      | Ok integrityMeta => (d, Ok (PieceChecksumList integrityMeta, true))
      | Err _ => (d, Err (Receive.ErrUnfinishedTask, Receive.ErrUnfinishedTask))
      end
    else (d, Ok (pieceChecksums, false))
  end.

(** Verifying against the chain, and signing: the integrity hash and the signature. *)
Definition verify_and_sign (a : done_answers) info task (pieceChecksums : list bytes)
  : result Receive.error (bytes * bytes) :=
  match QueryObjectInfoByID a with
  | Err e => Err (Receive.RawClient e)
  | Ok None => Err Receive.ErrInvalidDataChecksum
  | Ok (Some chainObject) =>
    rbind (expectedSealChecksums a chainObject info task) (fun expectedChecksums =>
      let checksumIdx := swrap 32 (GfSpReceivePieceTask.RedundancyIdx task.2 + 1) in
      if (checksumIdx <? 0) || (checksumIdx >=? Z.of_nat (length expectedChecksums))
      then Err Receive.ErrInvalidDataChecksum
      else
        let integrityChecksum := GenerateIntegrityHash pieceChecksums in
        if negb (bool_decide (expectedChecksums !! Z.to_nat checksumIdx = Some integrityChecksum))
        then Err Receive.ErrInvalidDataChecksum
        else match SignSecondarySealBls a expectedChecksums with
             | Err e => Err (Receive.RawClient e)
             | Ok signature => Ok (integrityChecksum, signature)
             end)
  end.

Definition write_integrity info task (integrityChecksum : bytes) (pieceChecksums : list bytes) (d : spdb)
  : spdb * option db_error :=
  let redundancyIdx := GfSpReceivePieceTask.RedundancyIdx task.2 in
  let payloadSize := PayloadSize (GfSpReceivePieceTask.ObjectInfo_ task.2) in
  if IsUpdating info then
    SetShadowObjectIntegrity (mkShadowMeta (Id info) redundancyIdx integrityChecksum pieceChecksums (Version info) payloadSize) d
  else
    SetObjectIntegrity (mkIntegrityMeta (Id info) redundancyIdx integrityChecksum pieceChecksums payloadSize) d.

(** The checksums of the pieces stay when the provider is also the primary one of the
    virtual group of a delegated upload.  An error of the deletion is not returned. *)
Definition drop_checksums (a : done_answers) info task r
  : receiver PS * result (Receive.error * option Receive.error) (option Receive.error) :=
  let delete_ r :=
    let '(d, err) := DeleteAllReplicatePieceChecksumOptimized (Id info) (GfSpReceivePieceTask.RedundancyIdx task.2) (rcv_db r) in
    (set_db d r, Ok (Receive.RawDb <$> err)) in
  if GfSpReceivePieceTask.IsAgentUploadTask task.2 then
    match QueryGlobalVirtualGroup a with
    | Err e => (r, Err (Receive.ErrQueryWithDetail "failed to QueryGlobalVirtualGroup" e, None))
    | Ok primary =>
      let '(r, id) := getSPID a r in
      match id with
      | Err e => (r, Err (Receive.ErrQueryWithDetail "failed to getSPID" e, None))
      | Ok id => if id =? primary then (r, Ok None) else delete_ r
      end
    end
  else delete_ r.

(** The signature or the error returned, and the error that the deferred function sets on
    the task in the end. *)
Definition done_body (scan : list PieceHashTable) (a : done_answers) info task r
  : receiver PS * result Receive.error bytes * option Receive.error :=
  let '(d, res) := collect_checksums scan info task (rcv_db r) in
  let r := set_db d r in
  match res with
  | Err (ret, err) => (r, Err ret, Some err)
  | Ok (pieceChecksums, skipInsertIntegrityMeta) =>
    match verify_and_sign a info task pieceChecksums with
    | Err e => (r, Err e, Some e)
    | Ok (integrityChecksum, signature) =>
      let '(d, err) :=
        if skipInsertIntegrityMeta : bool then (rcv_db r, None)
        else write_integrity info task integrityChecksum pieceChecksums (rcv_db r) in
      let r := set_db d r in
      match err with
      | Some e => (r, Err (Receive.ErrGfSpDBWithDetail "failed to write integrity meta to db" e), Some (Receive.RawDb e))
      | None =>
        let '(r, res) := drop_checksums a info task r in
        match res with
        | Err (ret, err) => (r, Err ret, err)
        | Ok err =>
          let reports := if GfSpReceivePieceTask.BucketMigration task.2 then started_reports r
                         else started_reports r ++ [qkey task] in
          (mkReceiver (receiveQueue r) (rcv_store r) (rcv_db r) (spID r) reports, Ok signature, err)
        end
      end
    end
  end.

Definition HandleDoneReceivePieceTask (now : Z) (scan : list PieceHashTable) (a : done_answers) info task r
  : receiver PS * result Receive.error bytes * option Receive.error :=
  let '(q, pushed) := Push now task (receiveQueue r) in
  let r := set_queue q r in
  match pushed with
  | Some e => (r, Err (Receive.RawQueue e), Some (Receive.RawQueue e))
  | None =>
    let '(r, ret, err) := done_body scan a info task r in
    (set_queue (PopByKey now (qkey task) (receiveQueue r)).1 r, ret, err)
  end.
End receiver.
