(* ===== verification/ReceiverProps.v ===== *)
(** Properties of the receiver: pieces that were received are stored and recorded, a
    signature means that their integrity hash is the one on the chain, and the secondary
    provider answers challenges on them; the record of a piece that could not be stored. *)
From Stdlib Require Import ZArith Lia String Sorting.Sorted.
From stdpp Require Import base gmap list strings pretty sorting.
From S2P Require Import Prelude Strconv Sql Checksum Storage StorageLaws PieceStore PieceOp Hex UploadDb Traffic Limit TaskKey Task TaskTypes TQueue Uploader UploadFacts UploadProps Downloader DownloadFacts DownloadProps Receiver.

Local Open Scope Z_scope.

(** ** The table of received pieces *)

(** Rows lie under their key. *)
Definition pieces_ok (t : tables) : Prop :=
  forall k row, piece_hashes t !! k = Some row -> k = (p_ObjectID row, p_SegmentIndex row, p_RedundancyIndex row).

(** The rows of one object and redundancy index are those of the first pieces of a list. *)
Definition piece_row (id rd version : Z) (cs : list bytes) (i : nat) : PieceHashTable :=
  mkPieceRow id (Z.of_nat i) rd (Hex.EncodeToString (nth i cs [])) version.

Definition pieces_recorded (id rd version : Z) (cs : list bytes) (t : tables) : Prop :=
  forall s row, piece_hashes t !! (id, s, rd) = Some row <->
    exists i, (i < length cs)%nat /\ s = Z.of_nat i /\ row = piece_row id rd version cs i.

(** The database returns the rows in the order of the segments, as a scan of the primary
    key does. *)
Definition in_key_order (id rd : Z) (t : tables) (scan : list PieceHashTable) : Prop :=
  Permutation scan (map_to_list (piece_hashes t)).*2 /\
  StronglySorted (fun a b => p_SegmentIndex a <= p_SegmentIndex b)
    (filter (fun row => p_ObjectID row = id /\ p_RedundancyIndex row = rd) scan).

Lemma rows_sorted id rd version cs (i k : nat) :
  StronglySorted (fun a b => p_SegmentIndex a <= p_SegmentIndex b) (piece_row id rd version cs <$> seq i k).
Proof.
  revert i. induction k as [|k IH]; intros i; cbn; constructor; [apply IH|].
  apply Forall_fmap, Forall_forall. intros j [? ?]%elem_of_seq. cbn. lia.
Qed.

Lemma rows_in_order id rd version cs t scan :
  pieces_ok t -> pieces_recorded id rd version cs t -> in_key_order id rd t scan ->
  filter (fun row => p_ObjectID row = id /\ p_RedundancyIndex row = rd) scan
  = piece_row id rd version cs <$> seq 0 (length cs).
Proof.
  intros Hok Hrec [Hperm Hsort].
  assert (forall row, row ∈ filter (fun row => p_ObjectID row = id /\ p_RedundancyIndex row = rd) scan <->
    row ∈ piece_row id rd version cs <$> seq 0 (length cs)) as Hin.
  { intros row. rewrite list_elem_of_filter, list_elem_of_fmap, Hperm, list_elem_of_fmap. split.
    - intros [ [Ho Hr] ( [k x] & -> & Hx%elem_of_map_to_list)]. cbn [snd] in *. pose proof (Hok _ _ Hx) as ->.
      rewrite Ho, Hr in Hx. apply Hrec in Hx as (i & Hi & _ & ->). exists i. split; [done|]. apply elem_of_seq. lia.
    - intros (i & -> & [_ Hi]%elem_of_seq). split; [done|]. exists ((id, Z.of_nat i, rd), piece_row id rd version cs i).
      split; [done|]. apply elem_of_map_to_list, Hrec. exists i. split_and!; [lia|done|done]. }
  apply (StronglySorted_unique_strong (fun a b => p_SegmentIndex a <= p_SegmentIndex b)); [|done|apply rows_sorted|].
  - intros a b (i & -> & _)%Hin%list_elem_of_fmap (j & -> & _)%list_elem_of_fmap. cbn. intros. f_equal. lia.
  - apply NoDup_Permutation; [| |exact Hin].
    + apply NoDup_filter. rewrite Hperm. apply NoDup_fmap_2_strong; [|apply NoDup_map_to_list].
      intros [k x] [k' x'] Hx%elem_of_map_to_list Hx'%elem_of_map_to_list. cbn. intros ->.
      apply Hok in Hx as ->, Hx' as ->. done.
    + apply NoDup_fmap_2_strong; [|apply NoDup_seq]. intros i j _ _ E. injection E. lia.
Qed.

Lemma decode_encoded (l : list bytes) : decode_all (Hex.EncodeToString <$> l) = Ok l.
Proof. induction l as [|b l IH]; [done|]. cbn. by rewrite DecodeString_EncodeToString, IH. Qed.

Lemma row_texts id rd version cs : p_PieceChecksum <$> (piece_row id rd version cs <$> seq 0 (length cs)) = Hex.EncodeToString <$> cs.
Proof.
  apply list_eq. intros i. rewrite !list_lookup_fmap. destruct (cs !! i) as [c|] eqn:Hc.
  - pose proof (lookup_lt_Some _ _ _ Hc). rewrite lookup_seq_lt by done. cbn. by rewrite (nth_lookup_Some _ _ _ _ Hc).
  - pose proof (lookup_ge_None_1 _ _ Hc). rewrite lookup_seq_ge by done. done.
Qed.

(** Reading them all. *)
Lemma get_all_recorded id rd version cs scan d :
  pieces_ok (tabs d) -> pieces_recorded id rd version cs (tabs d) -> in_key_order id rd (tabs d) scan ->
  GetAllReplicatePieceChecksumOptimized scan id rd (Z.of_nat (length cs)) d =
  (mkSpdb (tabs d) (fates d) (S (calls d)),
   match fates d (calls d) with Committed => Ok cs | _ => Err (DbErr ErrConnection) end).
Proof.
  intros Hok Hrec Hord. unfold GetAllReplicatePieceChecksumOptimized, query. f_equal.
  destruct (fates d (calls d)); try done.
  rewrite (rows_in_order _ _ _ _ _ _ Hok Hrec Hord). unfold limit.
  destruct (Z.ltb_spec (Z.of_nat (length cs)) 0); [lia|].
  rewrite Nat2Z.id, take_ge by (rewrite length_fmap, length_seq; lia). by rewrite row_texts, decode_encoded.
Qed.

(** ** Receiving *)

Section receive.
Context {PS : Type} `{!PieceStore PS} `{!PieceStoreSound PS}.
Context (GenerateChecksum : bytes -> bytes) (GenerateIntegrityHash : list bytes -> bytes).
Implicit Types (r : receiver PS) (info : UploadInfo) (task : receive_task).

Lemma received_key_nonempty info task : received_key info task <> ""%string.
Proof. unfold received_key, ECPieceKey, SegmentPieceKey. by destruct (bool_decide _), (Version info =? 0). Qed.

Lemma SetReplicatePieceChecksum_ok o s rd c v d d' :
  SetReplicatePieceChecksum o s rd c v d = (d', None) ->
  tabs d' = set_piece_hashes (<[(o, s, rd) := mkPieceRow o s rd (Hex.EncodeToString c) v]> (piece_hashes (tabs d))) (tabs d) /\
  fates d' = fates d.
Proof.
  unfold SetReplicatePieceChecksum. destruct (exec _ d) as [d1 [n|e] ] eqn:He; [|done]. intros [= <-].
  apply exec_spec in He as (Hf & _ & Hok & _). destruct (Hok n eq_refl) as (t & [= <- _] & ->). done.
Qed.

(** What a piece leaves behind: its record, when the database took it, also when it could
    not be stored. *)
Definition recorded_piece info task (data : bytes) (t t' : tables) : Prop :=
  let s := GfSpReceivePieceTask.SegmentIdx task.2 in
  let rd := GfSpReceivePieceTask.RedundancyIdx task.2 in
  t' = set_piece_hashes (<[(Id info, s, rd) := mkPieceRow (Id info) s rd (Hex.EncodeToString (GenerateChecksum data))
         (Version info)]> (piece_hashes t)) t.

Lemma receive_spec now info task data r r' ret err :
  HandleReceivePieceTask GenerateChecksum now info task data r = Some (r', ret, err) ->
  (ret = None \/ exists e, ret = Some (Receive.ErrPieceStoreWithDetail e)) ->
  GenerateChecksum data = piece_checksum task /\ recorded_piece info task data (tabs (rcv_db r)) (tabs (rcv_db r')) /\
  fates (rcv_db r') = fates (rcv_db r) /\
  exists s e, PutPiece now (rcv_store r) (received_key info task) data = Some (s, e) /\ rcv_store r' = s /\
    ret = Receive.ErrPieceStoreWithDetail <$> e.
Proof.
  unfold HandleReceivePieceTask. intros H Hret. destruct (Has now (qkey task) (receiveQueue r)) as [q has].
  destruct has; [injection H as <- <- <-; destruct Hret as [|[? ?] ]; done|].
  destruct (Push now task (receiveQueue (set_queue q r))) as [q' [e|] ].
  { injection H as <- <- <-. destruct Hret as [|[? ?] ]; done. }
  destruct (receive_body GenerateChecksum now info task data _) as [ [ [r1 ret1] err1]|] eqn:Hb; [|done]. injection H as <- <- <-.
  unfold receive_body in Hb. cbn [set_queue rcv_db rcv_store set_db receiveQueue] in *. case_bool_decide as Hck; cbn [negb] in Hb.
  2:{ injection Hb as <- <- <-. destruct Hret as [|[? ?] ]; done. }
  destruct (SetReplicatePieceChecksum _ _ _ _ _ (rcv_db r)) as [d1 [e|] ] eqn:Hs; cbn [rcv_store rcv_db] in Hb.
  { injection Hb as <- <- <-. destruct Hret as [|[? ?] ]; done. }
  apply SetReplicatePieceChecksum_ok in Hs as [Hs Hf].
  destruct (PutPiece now (rcv_store r) (received_key info task) data) as [ [s [e|] ]|] eqn:Hp; [| |done];
    injection Hb as <- <- <-; cbn; (split; [done|]); (split; [by unfold recorded_piece; rewrite Hck|]); (split; [done|]);
    by eexists _, _.
Qed.

(** A series of calls that all succeed. *)
Fixpoint receive_all (now : Z) info (l : list (receive_task * bytes)) r : option (receiver PS) :=
  match l with
  | [] => Some r
  | (task, data) :: l =>
    match HandleReceivePieceTask GenerateChecksum now info task data r with
    | Some (r, None, _) => receive_all now info l r
    | _ => None
    end
  end.

(** The tasks of the pieces of one redundancy index, in the order of the segments. *)
Definition pieces_of (rd : Z) (l : list (receive_task * bytes)) : Prop :=
  forall i task data, l !! i = Some (task, data) ->
    GfSpReceivePieceTask.SegmentIdx task.2 = Z.of_nat i /\ GfSpReceivePieceTask.RedundancyIdx task.2 = rd /\
    RedundancyType_ (GfSpReceivePieceTask.ObjectInfo_ task.2) = REDUNDANCY_EC_TYPE.

Definition piece_key info (rd : Z) (i : nat) : string := ECPieceKey (Id info) (Z.of_nat i) (uwrap 32 rd) (Version info).

Lemma pieces_recorded_snoc id rd version cs t c :
  pieces_recorded id rd version cs t ->
  pieces_recorded id rd version (cs ++ [c])
    (set_piece_hashes (<[(id, Z.of_nat (length cs), rd) := mkPieceRow id (Z.of_nat (length cs)) rd (Hex.EncodeToString c) version]>
       (piece_hashes t)) t).
Proof.
  intros Hrec s row. cbn [piece_hashes set_piece_hashes]. rewrite length_app. cbn [length].
  assert (forall i, (i < length cs)%nat -> piece_row id rd version (cs ++ [c]) i = piece_row id rd version cs i) as Hrow.
  { intros i Hi. unfold piece_row. by rewrite app_nth1. }
  assert (piece_row id rd version (cs ++ [c]) (length cs) = mkPieceRow id (Z.of_nat (length cs)) rd (Hex.EncodeToString c) version) as Hlast.
  { unfold piece_row. by rewrite nth_middle. }
  destruct (decide (s = Z.of_nat (length cs))) as [->|Hs].
  - rewrite lookup_insert_eq. split.
    + intros [= <-]. exists (length cs). split_and!; [lia|done|done].
    + intros (i & Hi & E & ->). assert (i = length cs) as -> by lia. by rewrite Hlast.
  - rewrite lookup_insert_ne by congruence. rewrite (Hrec s row). split.
    + intros (i & Hi & -> & ->). exists i. split_and!; [lia|done|by rewrite Hrow].
    + intros (i & Hi & -> & ->). exists i. split_and!; [lia|done|]. apply Hrow. lia.
Qed.

Lemma pieces_ok_insert t o s rd text v :
  pieces_ok t -> pieces_ok (set_piece_hashes (<[(o, s, rd) := mkPieceRow o s rd text v]> (piece_hashes t)) t).
Proof.
  intros Hok k row. cbn. destruct (decide (k = (o, s, rd))) as [->|Hk].
  - rewrite lookup_insert_eq. by intros [= <-].
  - rewrite lookup_insert_ne by done. apply Hok.
Qed.

Lemma receive_all_spec now info rd l done r r' :
  pieces_of rd (done ++ l) -> pss_ok (rcv_store r) ->
  pieces_ok (tabs (rcv_db r)) ->
  pieces_recorded (Id info) rd (Version info) (GenerateChecksum <$> done.*2) (tabs (rcv_db r)) ->
  (forall i task data, done !! i = Some (task, data) -> pss_at (rcv_store r) (piece_key info rd i) = Some data) ->
  receive_all now info l r = Some r' ->
  pss_ok (rcv_store r') /\ pieces_ok (tabs (rcv_db r')) /\
  pieces_recorded (Id info) rd (Version info) (GenerateChecksum <$> (done ++ l).*2) (tabs (rcv_db r')) /\
  (forall i task data, (done ++ l) !! i = Some (task, data) -> pss_at (rcv_store r') (piece_key info rd i) = Some data) /\
  integrity (tabs (rcv_db r')) = integrity (tabs (rcv_db r)).
Proof.
  revert done r. induction l as [|[task data] l IH]; intros done r Hl Hok Ht Hrec Hst; cbn [receive_all].
  { intros [= <-]. by rewrite !app_nil_r. }
  destruct (HandleReceivePieceTask _ _ _ _ _ r) as [ [ [r1 [e|] ] err]|] eqn:Hr; [done| |done]. intros Hall.
  apply receive_spec in Hr as (Hck & Hpiece & _ & s & e & Hp & Hs & He); [|by left].
  destruct e as [e|]; [done|].
  destruct (Hl (length done) task data) as (Hseg & Hrd & Hec); [by apply list_lookup_middle|].
  assert (received_key info task = piece_key info rd (length done)) as Hkey.
  { unfold received_key. rewrite Hec, bool_decide_true, Hseg, Hrd by done. done. }
  destruct (put_sound now (rcv_store r) _ data s None Hok (received_key_nonempty info task) Hp) as (Hok1 & Hoth & Hnew).
  rewrite Hkey in *. unfold recorded_piece in Hpiece. rewrite Hseg, Hrd in Hpiece.
  assert (length (GenerateChecksum <$> done.*2) = length done) as Hlen by by rewrite !length_fmap.
  rewrite cons_middle, app_assoc in *. destruct (IH (done ++ [(task, data)]) r1) as (H1 & H2 & H3 & H4 & H5); try done.
  - by rewrite Hs.
  - rewrite Hpiece. by apply pieces_ok_insert.
  - rewrite Hpiece, !fmap_app. cbn. rewrite <-Hlen. by apply pieces_recorded_snoc.
  - intros i task' data' Hi. rewrite Hs. apply lookup_app_Some in Hi as [Hi|[Hge Hi] ].
    + rewrite Hoth; [by eapply Hst|]. intros (_ & E & _)%ECPieceKey_inj.
      apply lookup_lt_Some in Hi. lia.
    + apply list_lookup_singleton_Some in Hi as [Hz [= <- <-] ]. replace i with (length done) by lia. by apply Hnew.
  - split_and!; [done..|]. by rewrite H5, Hpiece.
Qed.
End receive.

(** ** The signature *)

Section signature.
Context {PS : Type} `{!PieceStore PS}.
Context (GenerateChecksum : bytes -> bytes) (GenerateIntegrityHash : list bytes -> bytes).
Implicit Types (r : receiver PS) (info : UploadInfo) (task : receive_task).

Lemma exec_keeps {A} (f : tables -> A) stmt d d' res :
  (forall t n, stmt (tabs d) = Ok (t, n) -> f t = f (tabs d)) -> exec stmt d = (d', res) -> f (tabs d') = f (tabs d).
Proof.
  intros Hst. unfold exec, transaction. destruct (fates d (calls d)), (stmt (tabs d)) as [ [t n]|e] eqn:E; intros [= <- _]; cbn;
    try done; by eapply Hst.
Qed.

Lemma delete_pieces_keeps P d d' e : delete_pieces P d = (d', e) ->
  integrity (tabs d') = integrity (tabs d) /\ shadows (tabs d') = shadows (tabs d).
Proof.
  unfold delete_pieces. destruct (exec _ d) as [d1 res] eqn:He. intros [= <- _].
  split; (eapply exec_keeps; [|exact He]); by intros t n [= <- _].
Qed.

(** What a call that returns a signature has checked and written. *)
Lemma done_spec now scan a info task r r' signature err :
  HandleDoneReceivePieceTask GenerateIntegrityHash now scan a info task r = (r', Ok signature, err) ->
  let rd := GfSpReceivePieceTask.RedundancyIdx task.2 in
  exists d1 checksums written ecs d2,
    collect_checksums scan info task (rcv_db r) = (d1, Ok (checksums, written)) /\
    SignSecondarySealBls a ecs = Ok signature /\ 0 <= swrap 32 (rd + 1) /\
    ecs !! Z.to_nat (swrap 32 (rd + 1)) = Some (GenerateIntegrityHash checksums) /\
    rcv_store r' = rcv_store r /\
    (if written : bool then d2 = d1
     else write_integrity info task (GenerateIntegrityHash checksums) checksums d1 = (d2, None)) /\
    integrity (tabs (rcv_db r')) = integrity (tabs d2) /\ shadows (tabs (rcv_db r')) = shadows (tabs d2).
Proof.
  intros H rd. unfold HandleDoneReceivePieceTask in H. destruct (Push now task (receiveQueue r)) as [q [e|] ]; [done|].
  destruct (done_body _ scan a info task _) as [ [r1 ret] err1] eqn:Hb. injection H as <- -> ->.
  unfold done_body in Hb. cbn [set_queue rcv_db] in Hb.
  destruct (collect_checksums scan info task (rcv_db r)) as [d1 [ [checksums written]|[? ?] ] ]; [|done].
  unfold verify_and_sign in Hb. destruct (QueryObjectInfoByID a) as [ [co|]|]; [|done..].
  destruct (expectedSealChecksums a co info task) as [ecs|] eqn:Hecs; [|done]. cbn [rbind] in Hb. fold rd in Hb.
  destruct ((swrap 32 (rd + 1) <? 0) || _) eqn:Hidx; [done|]. apply orb_false_iff in Hidx as [Hidx _]. zbool.
  case_bool_decide as Hh; cbn [negb] in Hb; [|done]. destruct (SignSecondarySealBls a ecs) as [sig|] eqn:Hsig; [|done].
  destruct (if written then _ else _) as [d2 [e|] ] eqn:Hw; [done|].
  destruct (drop_checksums a info task _) as [r2 [err2|[? ?] ] ] eqn:Hd; [|done]. injection Hb as <- -> <-. cbn [rcv_store rcv_db set_queue].
  assert (rcv_store r2 = rcv_store r /\ integrity (tabs (rcv_db r2)) = integrity (tabs d2) /\
    shadows (tabs (rcv_db r2)) = shadows (tabs d2)) as (H1 & H2 & H3).
  { assert (forall rx, rcv_store rx = rcv_store r -> rcv_db rx = d2 ->
      forall ry res, (let '(d, err) := DeleteAllReplicatePieceChecksumOptimized (Id info) rd (rcv_db rx) in
        (set_db d rx, Ok (Receive.RawDb <$> err) : result (Receive.error * option Receive.error) (option Receive.error))) = (ry, res) ->
      rcv_store ry = rcv_store r /\ integrity (tabs (rcv_db ry)) = integrity (tabs d2) /\ shadows (tabs (rcv_db ry)) = shadows (tabs d2)) as Hdel.
    { intros rx Hs Hdb ry res. rewrite Hdb. unfold DeleteAllReplicatePieceChecksumOptimized.
      destruct (delete_pieces _ d2) as [d3 e3] eqn:Hdp. apply delete_pieces_keeps in Hdp as [? ?]. by intros [= <- _]. }
    unfold drop_checksums in Hd. fold rd in Hd. destruct (GfSpReceivePieceTask.IsAgentUploadTask task.2).
    - destruct (QueryGlobalVirtualGroup a) as [primary|]; [|done]. unfold getSPID in Hd. cbn [spID set_db] in Hd.
      destruct (negb _); [|destruct (QuerySP a)]; try done;
        (destruct (_ =? primary); [injection Hd as <- _; done|by eapply Hdel; [| |exact Hd] ]).
    - by eapply Hdel; [| |exact Hd]. }
  exists d1, checksums, written, ecs, d2. rewrite H1, H2, H3. split_and!; try done.
  destruct written; [by injection Hw as <-|done].
Qed.
End signature.

(** The pieces that are recorded, when they are as many as the object has segments. *)
Lemma collect_recorded scan info task d d1 checksums written cs :
  let rd := GfSpReceivePieceTask.RedundancyIdx task.2 in
  SegmentPieceCount (PayloadSize (GfSpReceivePieceTask.ObjectInfo_ task.2)) (MaxSegmentSize (GfSpReceivePieceTask.StorageParams task.2))
    = Z.of_nat (length cs) ->
  pieces_ok (tabs d) -> pieces_recorded (Id info) rd (Version info) cs (tabs d) -> in_key_order (Id info) rd (tabs d) scan ->
  collect_checksums scan info task d = (d1, Ok (checksums, written)) ->
  checksums = cs /\ written = false /\ tabs d1 = tabs d.
Proof.
  intros rd Hcount Hok Hrec Hord. unfold collect_checksums. rewrite Hcount. fold rd.
  rewrite (get_all_recorded _ _ _ _ _ _ Hok Hrec Hord). destruct (fates d (calls d)); try done.
  rewrite Z.eqb_refl. cbn [negb]. by intros [= <- <- <-].
Qed.

(** C25: A secondary provider that received the pieces of a new erasure-coded object (its
    redundancy index is not negative; the object is not being updated) one by one, and then
    signed for them, has checked their integrity hash against the checksum that the signed
    list has for it, and answers a challenge on any of the pieces with that piece, its
    checksum in the list of checksums, and that hash. Before the first piece the tables hold
    nothing of the object; the checksums are read by a query without an order, which is
    assumed to return them in the order of their keys; and at the challenge the database
    answers and a challenge may run. *)
Theorem secondary_answers_challenge {PS C} `{PL : PieceStoreLaws PS} `{CL : PieceCacheLaws C} error_text
  GenerateChecksum GenerateIntegrityHash now scan a info l rd dtask (r0 r1 r2 : receiver PS) signature err
  object ctask (m : downloader C) i piece :
  let cs := GenerateChecksum <$> l.*2 in
  let d := rcv_db r2 in
  (forall b, GenerateChecksum b <> []) -> 0 <= rd < MaxInt32 -> IsUpdating info = false ->
  ps_ok (rcv_store r0) -> pieces_ok (tabs (rcv_db r0)) ->
  (forall s, piece_hashes (tabs (rcv_db r0)) !! (Id info, s, rd) = None) ->
  integrity_table (Id info) (tabs (rcv_db r0)) !! (Id info, rd) = None ->
  pieces_of rd l -> receive_all GenerateChecksum now info l r0 = Some r1 ->
  GfSpReceivePieceTask.RedundancyIdx dtask.2 = rd ->
  SegmentPieceCount (PayloadSize (GfSpReceivePieceTask.ObjectInfo_ dtask.2)) (MaxSegmentSize (GfSpReceivePieceTask.StorageParams dtask.2))
    = Z.of_nat (length l) ->
  in_key_order (Id info) rd (tabs (rcv_db r1)) scan ->
  HandleDoneReceivePieceTask GenerateIntegrityHash now scan a info dtask r1 = (r2, Ok signature, err) ->
  o_Id object = Id info -> o_Version object = Version info ->
  l.*2 !! i = Some piece -> is_int64 (len piece) -> GfSpChallengePieceTask.SegmentIdx ctask = Z.of_nat i ->
  GfSpChallengePieceTask.RedundancyIdx ctask = rd -> fates d (calls d) = Committed ->
  coherent (pieceCache m) (rcv_store r2) -> admits (challengeParallel m) (challenging m) ->
  exists ecs m' d',
    SignSecondarySealBls a ecs = Ok signature /\ ecs !! Z.to_nat (rd + 1) = Some (GenerateIntegrityHash cs) /\
    HandleChallengePiece error_text object ctask (rcv_store r2) d m
      = Some (m', d', Ok (GenerateIntegrityHash cs, cs, piece)) /\
    cs !! i = Some (GenerateChecksum piece).
Proof.
  intros cs d Hgc Hrd Hup Hok Hpok Hfresh Hnone Hl Hall Hdrd Hcount Hord Hdone Hid Hver Hi Hpl Hsi Hri Hf Hc Had.
  apply (receive_all_spec GenerateChecksum now info rd l []) in Hall as (Hok1 & Hpok1 & Hrec1 & Hst1 & Hint1); [|done|done|done|intros s row; rewrite Hfresh; split; [done|intros (? & ? & _); cbn in *; lia]|done].
  cbn [app] in Hrec1, Hst1. fold cs in Hrec1.
  apply done_spec in Hdone as (d1 & checksums & written & ecs & d2 & Hcol & Hsig & _ & Hecs & Hstore & Hw & Hint & _).
  rewrite Hdrd in Hecs. rewrite int32_wrap_id in Hecs by go_lia.
  assert (length cs = length l) as Hlen by (unfold cs; by rewrite !length_fmap).
  apply (collect_recorded scan info dtask _ d1 checksums written cs) in Hcol as (-> & -> & Ht1); [|by rewrite Hlen|done|by rewrite Hdrd..].
  unfold write_integrity in Hw. rewrite Hup, Hdrd in Hw. apply SetObjectIntegrity_ok in Hw as [Hrow _].
  cbn [ObjectID RedundancyIndex] in Hrow. rewrite Ht1 in Hrow. unfold integrity_table at 2 in Hrow. rewrite Hint1 in Hrow.
  fold (integrity_table (Id info) (tabs (rcv_db r0))) in Hrow. rewrite Hnone in Hrow. cbn [default] in Hrow.
  exists ecs. unfold HandleChallengePiece. rewrite enter_admitted, Hid, Hver, Hsi, Hri by done.
  set (payload := PayloadSize (GfSpReceivePieceTask.ObjectInfo_ dtask.2)) in *.
  set (meta := mkIntegrityMeta (Id info) rd (GenerateIntegrityHash cs) cs payload) in *.
  assert (GetObjectIntegrity (Id info) rd d = (mkSpdb (tabs d) (fates d) (S (calls d)), Ok meta)) as ->.
  { apply (GetObjectIntegrity_row meta d); [apply Forall_fmap, Forall_true; intros; apply Hgc|done|].
    cbn [ObjectID RedundancyIndex meta]. unfold integrity_table, d. rewrite Hint. exact Hrow. }
  cbn [PieceChecksumList IntegrityChecksum meta]. pose proof (lookup_lt_Some _ _ _ Hi) as Hlt. rewrite length_fmap in Hlt.
  destruct (Z.geb_spec (Z.of_nat i) (Z.of_nat (length cs))); [lia|].
  assert (cs !! i = Some (GenerateChecksum piece)) as Hci by (unfold cs; by rewrite list_lookup_fmap, Hi).
  assert (ChallengePieceKey (Id info) (Z.of_nat i) rd (Version info) = piece_key info rd i) as ->.
  { unfold ChallengePieceKey, piece_key. destruct (Z.ltb_spec rd 0); [lia|done]. }
  apply list_lookup_fmap_Some in Hi as ( [task data] & -> & Hi). specialize (Hst1 _ _ _ Hi). rewrite <-Hstore in Hst1.
  cbn [snd] in *. destruct (cache_Get _ (pieceCache m)) as [c1 [v|] ] eqn:Hg.
  - assert (v = data) as ->.
    { rewrite <-(range_all data (-1)) by lia. eapply Hc; [by eapply get_holds|exact Hst1]. }
    eexists _, _. by split_and!.
  - rewrite Hstore in *. rewrite (get_piece_law _ _ data); [|exact Hok1|unfold piece_key, ECPieceKey; by destruct (_ =? 0)|exact Hst1|done|go_lia|right; lia].
    rewrite range_all by lia. eexists _, _. by split_and!.
Qed.

(** A piece of a replicated (not erasure coded) object lies under the segment's key, while
    a challenge on a secondary provider looks under the key of an erasure coded piece. *)
Lemma replica_challenge_misses info task :
  RedundancyType_ (GfSpReceivePieceTask.ObjectInfo_ task.2) = REDUNDANCY_REPLICA_TYPE ->
  0 <= GfSpReceivePieceTask.RedundancyIdx task.2 ->
  received_key info task <> ChallengePieceKey (Id info) (GfSpReceivePieceTask.SegmentIdx task.2)
    (GfSpReceivePieceTask.RedundancyIdx task.2) (Version info).
Proof.
  intros Ht Hr. unfold received_key, ChallengePieceKey. rewrite Ht, bool_decide_false by done.
  destruct (Z.ltb_spec (GfSpReceivePieceTask.RedundancyIdx task.2) 0); [lia|]. apply SegmentPieceKey_not_EC.
Qed.

(** A piece whose put failed, which the receiver reported as an error, still counts: its
    checksum was recorded before the put and stays.  When it is the only piece of the
    object, the provider verifies and signs for the object, and records its integrity, with
    nothing in the piece store. *)
Theorem signed_without_the_piece {PS} `{!PieceStore PS} GenerateChecksum GenerateIntegrityHash
  now a info task data rd (r0 r1 : receiver PS) e err q ecs signature :
  let row := piece_row (Id info) rd (Version info) [GenerateChecksum data] 0 in
  let hash := GenerateIntegrityHash [GenerateChecksum data] in
  IsUpdating info = false -> (forall k, fates (rcv_db r0) k = Committed) -> is_int32 (rd + 1) -> 0 <= rd + 1 ->
  piece_hashes (tabs (rcv_db r0)) = ∅ ->
  integrity_table (Id info) (tabs (rcv_db r0)) !! (Id info, rd) = None ->
  GfSpReceivePieceTask.SegmentIdx task.2 = 0 -> GfSpReceivePieceTask.RedundancyIdx task.2 = rd ->
  GfSpReceivePieceTask.IsAgentUploadTask task.2 = false ->
  SegmentPieceCount (PayloadSize (GfSpReceivePieceTask.ObjectInfo_ task.2)) (MaxSegmentSize (GfSpReceivePieceTask.StorageParams task.2)) = 1 ->
  HandleReceivePieceTask GenerateChecksum now info task data r0 = Some (r1, Some (Receive.ErrPieceStoreWithDetail e), err) ->
  QueryObjectInfoByID a = Ok (Some (mkChainObject ecs false true)) -> ecs !! Z.to_nat (rd + 1) = Some hash ->
  SignSecondarySealBls a ecs = Ok signature -> Push (T := receive_task) now task (receiveQueue r1) = (q, None) ->
  exists r2 s, PutPiece now (rcv_store r0) (received_key info task) data = Some (s, Some e) /\ rcv_store r2 = s /\
    HandleDoneReceivePieceTask GenerateIntegrityHash now [row] a info task r1 = (r2, Ok signature, None) /\
    integrity_table (Id info) (tabs (rcv_db r2)) !! (Id info, rd)
    = Some (integrity_row (mkIntegrityMeta (Id info) rd hash [GenerateChecksum data]
        (PayloadSize (GfSpReceivePieceTask.ObjectInfo_ task.2)))).
Proof.
  intros row hash Hup Hfates Hrd Hrd0 Hempty Hnone Hseg Hrdt Hag Hcount Hrecv Hchain Hecs Hsig Hpush.
  apply receive_spec in Hrecv as (_ & Hpiece & Hf1 & s & e0 & Hput & Hs & Hret); [|right; by eexists].
  destruct e0 as [e0|]; [injection Hret as <-|done].
  unfold recorded_piece in Hpiece. rewrite Hseg, Hrdt, Hempty, insert_empty in Hpiece. set (t1 := tabs (rcv_db r1)) in *.
  assert (piece_hashes t1 = {[(Id info, 0, rd) := row]}) as Hrow by by rewrite Hpiece.
  assert (pieces_ok t1) as Hok by (intros k x; rewrite Hrow; by intros [<- <-]%lookup_singleton_Some).
  assert (pieces_recorded (Id info) rd (Version info) [GenerateChecksum data] t1) as Hrec.
  { intros sg x. rewrite Hrow. rewrite lookup_singleton_Some. split.
    - intros [ [= <-] <-]. by exists 0%nat; cbn; split; [lia|].
    - intros (i & Hi & -> & ->). cbn in Hi. by replace i with 0%nat by lia. }
  assert (in_key_order (Id info) rd t1 [row]) as Hord.
  { split; [by rewrite Hrow, map_to_list_singleton|]. rewrite filter_cons, decide_True by done. rewrite filter_nil.
    repeat constructor. }
  pose proof (get_all_recorded _ _ _ _ _ (rcv_db r1) Hok Hrec Hord) as Hall. rewrite Hf1, Hfates in Hall. cbn [length Z.of_nat] in Hall.
  destruct (HandleDoneReceivePieceTask GenerateIntegrityHash now [row] a info task r1) as [ [r2 ret] err2] eqn:Hd.
  exists r2, s. split; [exact Hput|]. unfold HandleDoneReceivePieceTask in Hd. rewrite Hpush in Hd.
  unfold done_body, collect_checksums in Hd. cbn [set_queue rcv_db] in Hd. rewrite Hcount, Hrdt in Hd.
  change (Z.of_nat 1) with 1 in Hall. rewrite Hall in Hd. change (Z.of_nat (length [GenerateChecksum data]) =? 1) with true in Hd.
  cbn [negb] in Hd. unfold verify_and_sign, expectedSealChecksums in Hd. rewrite Hchain in Hd. cbn [co_IsUpdating co_Checksums rbind] in Hd.
  rewrite bool_decide_true in Hd by (intros ->; by rewrite lookup_nil in Hecs). cbn [rbind] in Hd. rewrite Hrdt, int32_wrap_id in Hd by done.
  pose proof (lookup_lt_Some _ _ _ Hecs) as Hlt. destruct (Z.ltb_spec (rd + 1) 0); [lia|].
  destruct (Z.geb_spec (rd + 1) (Z.of_nat (length ecs))); [lia|]. cbn [orb] in Hd. fold hash in Hd.
  rewrite bool_decide_true in Hd by done. cbn [negb] in Hd. rewrite Hsig in Hd.
  unfold write_integrity, SetObjectIntegrity in Hd. rewrite Hup, Hrdt in Hd. cbn [set_db rcv_db] in Hd.
  rewrite exec_committed in Hd by (cbn; rewrite ?Hf1; apply Hfates). cbn [ObjectID RedundancyIndex tabs] in Hd.
  assert (integrity_table (Id info) t1 !! (Id info, rd) = None) as Hn1 by by rewrite Hpiece.
  fold t1 in Hd. unfold create_row in Hd. rewrite Hn1 in Hd. cbn in Hd. unfold drop_checksums in Hd. rewrite Hag in Hd.
  cbn [set_db rcv_db] in Hd. unfold DeleteAllReplicatePieceChecksumOptimized, delete_pieces in Hd.
  rewrite exec_committed in Hd by (cbn; rewrite ?Hf1; apply Hfates). cbn in Hd. injection Hd as <- <- <-. cbn.
  split; [exact Hs|]. split; [done|]. unfold integrity_table. cbn. by rewrite lookup_insert_eq; cbn; rewrite lookup_insert_eq.
Qed.

(** ** Witnesses: four bytes in segments of two, the pieces of redundancy index 1 *)

Local Definition ex_hash (b : bytes) : bytes := Byte.x00 :: b.
Local Definition ex_integrity (l : list bytes) : bytes := concat l.
Local Definition ex_info : UploadInfo := mkUploadInfo 7 0 [] false true.
Local Definition ex_object (size : Z) : ObjectInfo := mkObjectInfo "b" "o" 7 size REDUNDANCY_EC_TYPE 0 false.
Local Definition ex_piece (size : Z) (i : Z) (data : bytes) : receive_task * bytes :=
  ((Z.to_nat i, GfSpReceivePieceTask.SetPieceChecksum (byte_val <$> ex_hash data)
     (GfSpReceivePieceTask.InitReceivePieceTask 1 (ex_object size) (mkParams 2 2 1 100) 0 i 1 1 false 100 100)), data).
Local Definition ex_l : list (receive_task * bytes) := [ex_piece 4 0 [Byte.x61]; ex_piece 4 1 [Byte.x62] ].
Local Definition ex_sum : bytes := ex_integrity [ex_hash [Byte.x61]; ex_hash [Byte.x62] ].
Local Definition ex_ecs : list bytes := [ []; []; ex_sum].
Local Definition ex_answers (ecs : list bytes) : done_answers :=
  mkAnswers (Ok (Some (mkChainObject ecs false true))) (Ok None) (fun _ => Ok [Byte.x01]) (Ok 5) (Ok 6).
Local Definition ex_r {PS} (ps : PS) : receiver PS :=
  mkReceiver (NewGfSpTQueue "receive" 10) ps (mkSpdb (mkTables ∅ ∅ ∅ ∅) (fun _ => Committed) 0) 0 [].
Local Definition ex_scan : list PieceHashTable :=
  [piece_row 7 1 0 [ex_hash [Byte.x61]; ex_hash [Byte.x62] ] 0; piece_row 7 1 0 [ex_hash [Byte.x61]; ex_hash [Byte.x62] ] 1].
Local Definition ex_challenge : GfSpChallengePieceTask.t :=
  GfSpChallengePieceTask.InitChallengePieceTask (ex_object 4) (mkBucketInfo "b") (mkParams 2 2 1 100) 0 "user" 1 1 60 1 100 100.

Lemma ex_received :
  exists r1 r2, receive_all ex_hash 200 ex_info ex_l (ex_r (NewStoreClient "memory" (newMemoryStore "m"))) = Some r1 /\
    HandleDoneReceivePieceTask ex_integrity 200 ex_scan (ex_answers ex_ecs) ex_info (ex_piece 4 0 []).1 r1 = (r2, Ok [Byte.x01], None) /\
    fates (rcv_db r2) (calls (rcv_db r2)) = Committed /\
    in_key_order 7 1 (tabs (rcv_db r1)) ex_scan.
Proof.
  eexists _, _. split; [vm_compute; reflexivity|]. split; [vm_compute; reflexivity|]. split; [reflexivity|].
  split; [vm_compute; reflexivity|]. vm_compute. repeat constructor; discriminate.
Qed.

Lemma secondary_answers_challenge_witness :
  exists (r2 : receiver (StoreClient memoryStore)) m' d',
    HandleChallengePiece (fun _ => ""%string) (mkObjectMeta 7 0 OBJECT_STATUS_SEALED) ex_challenge (rcv_store r2) (rcv_db r2)
      (mkDownloader ([] : LRU.t) 3 10 0 10)
    = Some (m', d', Ok (ex_sum, [ex_hash [Byte.x61]; ex_hash [Byte.x62] ], [Byte.x62])).
Proof.
  destruct ex_received as (r1 & r2 & H1 & H2 & Hf & Hord). exists r2.
  destruct (secondary_answers_challenge (fun _ => ""%string) ex_hash ex_integrity 200 ex_scan (ex_answers ex_ecs) ex_info ex_l 1
    (ex_piece 4 0 []).1 (ex_r (NewStoreClient "memory" (newMemoryStore "m"))) r1 r2 [Byte.x01] None
    (mkObjectMeta 7 0 OBJECT_STATUS_SEALED) ex_challenge (mkDownloader ([] : LRU.t) 3 10 0 10) 1 [Byte.x62])
    as (ecs & m' & d' & _ & _ & H & _);
    [discriminate|go_lia|reflexivity|exact I|intros k row; cbn; by rewrite lookup_empty|intros s; apply lookup_empty|reflexivity
    | |exact H1|reflexivity|vm_compute; reflexivity|exact Hord|exact H2|reflexivity|reflexivity|reflexivity
    |vm_compute; split; discriminate|reflexivity|reflexivity|exact Hf|apply coherent_empty|unfold admits; cbn; go_lia|].
  { intros [|[|i] ] task data; [intros [= <- <-]; by split_and!..|done]. }
  exists m', d'. exact H.
Defined.

(** A piece store that is down. *)
Local Instance broken_store : PieceStore unit := {|
  GetPiece _ _ _ _ := Some (Err (ErrBackend "down"));
  PutPiece _ s _ _ := Some (s, Some (ErrBackend "down"));
  DeletePiece s _ := Some (s, Some (ErrBackend "down"));
  DeletePiecesByPrefix s _ := Some (s, (0, Some (ErrBackend "down")));
|}.

Lemma signed_without_the_piece_witness :
  exists r1 r2 scan ecs,
    HandleReceivePieceTask ex_hash 200 ex_info (ex_piece 2 0 [Byte.x61]).1 [Byte.x61] (ex_r tt)
      = Some (r1, Some (Receive.ErrPieceStoreWithDetail (ErrBackend "down")), Some (Receive.RawStore (ErrBackend "down"))) /\
    HandleDoneReceivePieceTask ex_integrity 200 scan (ex_answers ecs) ex_info (ex_piece 2 0 [Byte.x61]).1 r1
      = (r2, Ok [Byte.x01], None).
Proof.
  destruct (HandleReceivePieceTask ex_hash 200 ex_info (ex_piece 2 0 [Byte.x61]).1 [Byte.x61] (ex_r tt))
    as [ [ [r1 ret] err]|] eqn:H1; [|vm_compute in H1; discriminate].
  assert (ret = Some (Receive.ErrPieceStoreWithDetail (ErrBackend "down")) /\ err = Some (Receive.RawStore (ErrBackend "down")) /\
    exists q, Push (T := receive_task) 200 (ex_piece 2 0 [Byte.x61]).1 (receiveQueue r1) = (q, None)) as (-> & -> & q & Hq).
  { vm_compute in H1. injection H1 as <- <- <-. split; [reflexivity|]. split; [reflexivity|]. eexists. vm_compute. reflexivity. }
  destruct (signed_without_the_piece ex_hash ex_integrity 200
    (ex_answers [ []; []; ex_hash [Byte.x61] ]) ex_info (ex_piece 2 0 [Byte.x61]).1 [Byte.x61] 1 (ex_r tt) r1
    (ErrBackend "down") (Some (Receive.RawStore (ErrBackend "down"))) q [ []; []; ex_hash [Byte.x61] ] [Byte.x01])
    as (r2 & s & _ & _ & H2 & _);
    [reflexivity|reflexivity|go_lia|lia|reflexivity|reflexivity|reflexivity|reflexivity|reflexivity|vm_compute; reflexivity
    |exact H1|reflexivity|reflexivity|reflexivity|exact Hq|].
  by exists r1, r2, [piece_row 7 1 0 [ex_hash [Byte.x61] ] 0], [ []; []; ex_hash [Byte.x61] ].
Defined.
