(* ===== verification/EvmState.v ===== *)
(** The signer's EVM state records: modular/signer/evm_state.go, and the tables of
    store/sqldb/signer_evm_schema.go with the keys of store/sqldb/signer_evm.go.

    Hashes, addresses and signed transactions come from go-ethereum.  A hash or an
    address is an integer (its zero value is 0); the hexadecimal columns of the
    tables are kept as these values, as [HexToHash (Hex h) = h].  What
    [verifySignedTxEvidence] needs of a decoded transaction is the class [EthTx]. *)
From Stdlib Require Import ZArith Lia.
From stdpp Require Import base gmap list strings.
From S2P Require Import Prelude.

Local Open Scope Z_scope.

Abbreviation Hash := Z.
Abbreviation Address := Z.
Abbreviation SignType := string.
Definition zeroHash : Hash := 0.

Inductive evmOutcomeState := evmOutcomeSucceeded | evmOutcomeExecutedElsewhere | evmOutcomeBlockedUnknown.

#[export] Instance evmOutcomeState_eq_dec : EqDecision evmOutcomeState.
Proof. solve_decision. Defined.

(** The constants of evm_state.go, and the names the disposition commands pass. *)
Inductive evmAuditName :=
| evmAuditRecorded | evmAuditMarkedAmbiguous | evmAuditResolvedSuccess | evmAuditResolvedFailed
| evmAuditNotAdmittedNonceLow | evmAuditNotAdmittedNonceHigh | evmAuditNotAdmittedRejected
| evmAuditOutcomeCreated | evmAuditOutcomeConsumed | evmAuditLoadedOnStart
| evmAuditLeaseAcquired | evmAuditLeaseLost | evmAuditPendingVanished | evmAuditEvidenceInvalid
| evmAuditAutoResolvedFailed | evmAuditAutoBlockedMissing | evmAuditAutoBlockedDropped
| evmAuditAutoBlockedNonceGap | evmAuditAutoOutcomeSucceeded | evmAuditAutoOutcomeFailed
| evmAuditAutoOutcomeSuperseded
| evmAuditOther (name : string).

#[export] Instance evmAuditName_eq_dec : EqDecision evmAuditName.
Proof. solve_decision. Defined.

(** The error values; [ErrDB] is any other database error. *)
Inductive evm_error :=
| errEvmLeaseNotHeld
| errEvmStateConflict
| errEvmRowGone
| errEvmEvidenceInvalid
| evmCommitUnknownError
| ErrDB.

#[export] Instance evm_error_eq_dec : EqDecision evm_error.
Proof. solve_decision. Defined.

Definition isEvmCommitUnknown (e : evm_error) : bool := bool_decide (e = evmCommitUnknownError).

Record evmFence := mkFence {
  f_ChainID : string;
  f_Owner : string;
  f_Epoch : Z
}.

Record signedTxEvidence := mkEvidence {
  e_ID : Z;
  e_ChainID : string;
  e_EvmChainID : Z;
  e_Scope : SignType;
  e_Operation : Hash;
  e_From : Address;
  e_Nonce : Z;
  e_TxHash : Hash;
  e_Raw : list Z;
  e_RecordedBlock : Z;
  e_LeaseEpoch : Z
}.

Record pendingRecord := mkPending {
  p_ID : Z;
  p_ChainID : string;
  p_SignedTxID : Z;
  p_Scope : SignType;
  p_From : Address;
  p_Nonce : Z;
  p_TxHash : Hash;
  p_Operation : Hash;
  p_Ambiguous : bool;
  p_LeaseEpoch : Z
}.

Record outcomeRecord := mkOutcome {
  o_ID : Z;
  o_SignedTxID : Z;
  o_ChainID : string;
  o_Scope : SignType;
  o_Operation : Hash;
  o_From : Address;
  o_Nonce : Z;
  o_TxHash : Hash;
  o_ResultTxHash : Hash;
  o_State : evmOutcomeState;
  o_EvidenceTxHash : string;
  o_EvidenceKind : string;
  o_Reason : string;
  o_ReceiptBlock : Z;
  o_Source : string
}.

Record evmAuditEvent := mkEvent {
  a_Event : evmAuditName;
  a_Scope : SignType;
  a_From : Address;
  a_Nonce : option Z;
  a_TxHash : Hash;
  a_Operation : Hash;
  a_SignedTxID : option Z;
  a_ReceiptStatus : option Z;
  a_ReceiptBlock : option Z;
  a_ChainNonce : option Z;
  a_OutcomeID : option Z;
  a_OutcomeState : option evmOutcomeState;
  a_OutcomeReason : string;
  a_Detail : string;
  a_EvidenceTxHash : string;
  a_EvidenceKind : string;
  a_Actor : string;
  a_Reason : string;
  a_DecisionRef : string;
  a_ChainHeight : option Z
}.

(** An event with only its name and detail. *)
Definition plain_event (ev : evmAuditName) (detail : string) : evmAuditEvent :=
  mkEvent ev "" 0 None zeroHash zeroHash None None None None None None "" detail "" "" "" "" "" None.

Definition pending_audit (p : pendingRecord) (ev : evmAuditName) : evmAuditEvent :=
  mkEvent ev (p_Scope p) (p_From p) (Some (p_Nonce p)) (p_TxHash p) (p_Operation p) (Some (p_SignedTxID p))
    None None None None None "" "" "" "" "" "" "" None.

Definition outcome_audit (o : outcomeRecord) (ev : evmAuditName) : evmAuditEvent :=
  mkEvent ev (o_Scope o) (o_From o) (Some (o_Nonce o)) (o_TxHash o) (o_Operation o) (Some (o_SignedTxID o))
    None None None (Some (o_ID o)) (Some (o_State o)) (o_Reason o) "" (o_EvidenceTxHash o) (o_EvidenceKind o)
    "" "" "" None.

Inductive pendingTerminalKind :=
| terminalSuccessConsume
| terminalSuccessKeep
| terminalFailed
| terminalNotAdmittedNonceLow
| terminalNotAdmittedNonceHigh
| terminalNotAdmittedRejected.

#[export] Instance pendingTerminalKind_eq_dec : EqDecision pendingTerminalKind.
Proof. solve_decision. Defined.

Definition auditEvents (k : pendingTerminalKind) : list evmAuditName :=
  match k with
  | terminalSuccessConsume => [evmAuditResolvedSuccess; evmAuditOutcomeConsumed]
  | terminalSuccessKeep => [evmAuditResolvedSuccess; evmAuditOutcomeCreated]
  | terminalFailed => [evmAuditResolvedFailed]
  | terminalNotAdmittedNonceLow => [evmAuditNotAdmittedNonceLow]
  | terminalNotAdmittedNonceHigh => [evmAuditNotAdmittedNonceHigh]
  | terminalNotAdmittedRejected => [evmAuditNotAdmittedRejected]
  end.

Definition notAdmitted (k : pendingTerminalKind) : bool :=
  bool_decide (k = terminalNotAdmittedNonceLow) || bool_decide (k = terminalNotAdmittedNonceHigh) ||
  bool_decide (k = terminalNotAdmittedRejected).

(** [events[len(events)-1]]; the lists are never empty. *)
Definition doneEvent (k : pendingTerminalKind) : evmAuditName := List.last (auditEvents k) evmAuditRecorded.

Record pendingTerminal := mkTerminal {
  t_Kind : pendingTerminalKind;
  t_ReceiptStatus : option Z;
  t_ReceiptBlock : Z;
  t_Detail : string;
  t_Source : string
}.

Record evidenceRef := mkRef {
  r_SignedTxID : Z;
  r_ChainID : string;
  r_Scope : SignType;
  r_Operation : Hash;
  r_From : Address;
  r_Nonce : Z;
  r_TxHash : Hash
}.

#[export] Instance evidenceRef_eq_dec : EqDecision evidenceRef.
Proof. solve_decision. Defined.

Definition pending_ref (p : pendingRecord) : evidenceRef :=
  mkRef (p_SignedTxID p) (p_ChainID p) (p_Scope p) (p_Operation p) (p_From p) (p_Nonce p) (p_TxHash p).
Definition outcome_ref (o : outcomeRecord) : evidenceRef :=
  mkRef (o_SignedTxID o) (o_ChainID o) (o_Scope o) (o_Operation o) (o_From o) (o_Nonce o) (o_TxHash o).

(** go-ethereum, as far as the evidence check uses it: decoding, the hash of bytes
    and of a transaction, the chain id, the recovered sender, the nonce. *)
Class EthTx := {
  Tx : Type;
  UnmarshalBinary : list Z -> option Tx;
  Keccak256Hash : list Z -> Hash;
  tx_Hash : Tx -> Hash;
  tx_ChainId : Tx -> option Z;
  tx_Sender : Tx -> option Address;
  tx_Nonce : Tx -> Z
}.

Section verify.
Context `{EthTx}.

Definition verifySignedTxEvidence (evidence : option signedTxEvidence) (ref : evidenceRef) :
    result evm_error Tx :=
  match evidence with
  | None => Err errEvmEvidenceInvalid
  | Some ev =>
    match UnmarshalBinary (e_Raw ev) with
    | None => Err errEvmEvidenceInvalid
    | Some tx =>
      if negb (Keccak256Hash (e_Raw ev) =? e_TxHash ev) || negb (tx_Hash tx =? e_TxHash ev)
      then Err errEvmEvidenceInvalid
      else match tx_ChainId tx with
      | None => Err errEvmEvidenceInvalid
      | Some c =>
        if negb ((0 <=? c) && (c <=? MaxUint64)) || negb (c =? e_EvmChainID ev)
        then Err errEvmEvidenceInvalid
        else match tx_Sender tx with
        | None => Err errEvmEvidenceInvalid
        | Some sender =>
          if negb (sender =? e_From ev) then Err errEvmEvidenceInvalid
          else if negb (tx_Nonce tx =? e_Nonce ev) then Err errEvmEvidenceInvalid
          else
            let mismatched :=
              [negb (r_SignedTxID ref =? e_ID ev);
               negb (bool_decide (r_ChainID ref = e_ChainID ev));
               negb (bool_decide (r_Scope ref = e_Scope ev));
               negb (r_Operation ref =? e_Operation ev);
               negb (r_From ref =? e_From ev);
               negb (r_Nonce ref =? e_Nonce ev);
               negb (r_TxHash ref =? e_TxHash ev)] in
            if existsb id mismatched then Err errEvmEvidenceInvalid else Ok tx
        end
      end
    end
  end.
End verify.

Definition sameEvidence (a b : signedTxEvidence) : bool :=
  bool_decide (e_ChainID a = e_ChainID b) && (e_EvmChainID a =? e_EvmChainID b) &&
  bool_decide (e_Scope a = e_Scope b) && (e_Operation a =? e_Operation b) && (e_From a =? e_From b) &&
  (e_Nonce a =? e_Nonce b) && (e_TxHash a =? e_TxHash b) && bool_decide (e_Raw a = e_Raw b).

Definition checkSettleable (current want : outcomeRecord) (from : list evmOutcomeState) : option evm_error :=
  if negb (bool_decide (o_ChainID current = o_ChainID want)) || negb (bool_decide (o_Scope current = o_Scope want)) ||
     negb (o_Operation current =? o_Operation want) || negb (o_SignedTxID current =? o_SignedTxID want) ||
     negb (o_TxHash current =? o_TxHash want) || negb (o_Nonce current =? o_Nonce want) ||
     negb (o_From current =? o_From want)
  then Some errEvmStateConflict
  else if negb (bool_decide (o_State current ∈ from)) then Some errEvmStateConflict
  else None.

(** ** The tables *)

(** The state column: 'pending' or an outcome state. *)
Inductive row_state := RowPending | RowOutcome (s : evmOutcomeState).

#[export] Instance row_state_eq_dec : EqDecision row_state.
Proof. solve_decision. Defined.

Record SignerEvmStateTable := mkRow {
  ID : Z;
  SignedTxID : Z;
  ChainID : string;
  Scope : SignType;
  Operation : Hash;
  FromAddress : Address;
  Nonce : Z;
  TxHash : Hash;
  ResultTxHash : option Hash;
  State : row_state;
  EvidenceTxHash : string;
  EvidenceKind : string;
  Reason : string;
  ReceiptBlock : Z;
  Source : string;
  Ambiguous : bool;
  LeaseEpoch : Z
}.

Record SignerEvmLeaseTable := mkLease {
  l_Owner : string;
  l_Epoch : Z;
  l_ExpiresAt : Z
}.

(** The audit table's row: chain, epoch, the event, with the actor filled in. *)
Record SignerEvmAuditTable := mkAuditRow {
  au_ChainID : string;
  au_LeaseEpoch : Z;
  au_Event : evmAuditEvent
}.

(** The four tables; [next_tx] and [next_state] are the AUTO_INCREMENT counters. *)
Record evm_db := mkDB {
  signed : gmap Z signedTxEvidence;
  next_tx : Z;
  states : gmap Z SignerEvmStateTable;
  next_state : Z;
  leases : gmap string SignerEvmLeaseTable;
  audits : list SignerEvmAuditTable
}.

Definition empty_db : evm_db := mkDB ∅ 1 ∅ 1 ∅ [].

Definition is_pending (r : SignerEvmStateTable) : bool := bool_decide (State r = RowPending).

(** [evidenceFromRow] is the identity here: evidence rows are kept as evidence. *)
Definition pendingFromRow (row : SignerEvmStateTable) : pendingRecord :=
  mkPending (ID row) (ChainID row) (SignedTxID row) (Scope row) (FromAddress row) (Nonce row) (TxHash row)
    (Operation row) (Ambiguous row) (LeaseEpoch row).

(** Used on outcome rows only. *)
Definition outcomeFromRow (row : SignerEvmStateTable) : option outcomeRecord :=
  match State row with
  | RowPending => None
  | RowOutcome s =>
    Some (mkOutcome (ID row) (SignedTxID row) (ChainID row) (Scope row) (Operation row) (FromAddress row)
      (Nonce row) (TxHash row) (default zeroHash (ResultTxHash row)) s (EvidenceTxHash row) (EvidenceKind row)
      (Reason row) (ReceiptBlock row) (Source row))
  end.
