(* ===== verification/EvmStore.v ===== *)
(** The EVM state store on SQL: modular/signer/evm_state_store_sql.go.

    A transaction is a function of the database that returns the new database and a
    value, or an error; [txn] runs it, rolling back on an error, with the fate of the
    connection as an argument: any statement may fail, and a COMMIT whose answer is
    lost may or may not have taken effect.  Row locks serialise the transactions on
    the rows they touch, so transactions are atomic steps.  The database clock
    [NOW(6)] is the argument [now], in microseconds.  The ids that a rolled-back INSERT
    uses up are not modelled (they only leave gaps), nor is an UPDATE that MySQL counts
    as affecting no row because no column changes. *)
From Stdlib Require Import ZArith Lia.
From stdpp Require Import base gmap list strings sorting.
From S2P Require Import Prelude Sql EvmState.

Local Open Scope Z_scope.

(** ** Transactions *)

Definition txM (A : Type) : Type := evm_db -> result evm_error (evm_db * A).

#[export] Instance txM_ret : MRet txM := fun A a db => Ok (db, a).
#[export] Instance txM_bind : MBind txM := fun A B f m db =>
  match m db with
  | Ok (db', a) => f a db'
  | Err e => Err e
  end.

Definition fail {A} (e : evm_error) : txM A := fun _ => Err e.
Definition read {A} (f : evm_db -> A) : txM A := fun db => Ok (db, f db).

Definition txn {A} (f : fate) (fn : txM A) (db : evm_db) : evm_db * result evm_error A :=
  match f with
  | FailedBefore => (db, Err ErrDB)
  | _ =>
    match fn db with
    | Err e => (db, Err e)
    | Ok (db', a) =>
      match f with
      | UnknownApplied => (db', Err evmCommitUnknownError)
      | UnknownLost => (db, Err evmCommitUnknownError)
      | _ => (db', Ok a)
      end
    end
  end.

(** ** Statements *)

Definition set_states (m : gmap Z SignerEvmStateTable) (n : Z) (db : evm_db) : evm_db :=
  mkDB (signed db) (next_tx db) m n (leases db) (audits db).
Definition set_leases (m : gmap string SignerEvmLeaseTable) (db : evm_db) : evm_db :=
  mkDB (signed db) (next_tx db) (states db) (next_state db) m (audits db).

Definition row_le (a b : SignerEvmStateTable) : Prop := ID a <= ID b.
#[export] Instance row_le_dec a b : Decision (row_le a b) := decide (ID a <= ID b).
Definition ev_le (a b : signedTxEvidence) : Prop := e_ID a <= e_ID b.
#[export] Instance ev_le_dec a b : Decision (ev_le a b) := decide (e_ID a <= e_ID b).

(** The rows of a query, in the order of their ids. *)
Definition select_states (P : SignerEvmStateTable -> bool) (db : evm_db) : list SignerEvmStateTable :=
  merge_sort row_le (filter (fun r => P r) (map_to_list (states db)).*2).
Definition select_signed (P : signedTxEvidence -> bool) (db : evm_db) : list signedTxEvidence :=
  merge_sort ev_le (filter (fun r => P r) (map_to_list (signed db)).*2).

(** The unique keys uniq_pending and uniq_outcome. *)
Definition same_key (a b : SignerEvmStateTable) : bool :=
  bool_decide (ChainID a = ChainID b) && bool_decide (Scope a = Scope b) &&
  ((is_pending a && is_pending b) ||
   (negb (is_pending a) && negb (is_pending b) && (Operation a =? Operation b))).
Definition duplicate (db : evm_db) (row : SignerEvmStateTable) : bool :=
  existsb (fun '(i, r) => negb (i =? ID row) && same_key r row) (map_to_list (states db)).

(** INSERT INTO signer_evm_signed_tx; [ErrDB] on the unique key (chain_id, tx_hash)
    is reported by the caller as a conflict. *)
Definition insert_signed (ev : signedTxEvidence) : txM Z := fun db =>
  if existsb (fun '(_, e) => bool_decide (e_ChainID e = e_ChainID ev) && (e_TxHash e =? e_TxHash ev))
       (map_to_list (signed db))
  then Err errEvmStateConflict
  else
    let id := next_tx db in
    Ok (mkDB (<[id := mkEvidence id (e_ChainID ev) (e_EvmChainID ev) (e_Scope ev) (e_Operation ev) (e_From ev)
                        (e_Nonce ev) (e_TxHash ev) (e_Raw ev) (e_RecordedBlock ev) (e_LeaseEpoch ev)]> (signed db))
          (id + 1) (states db) (next_state db) (leases db) (audits db), id).

(** INSERT INTO signer_evm_state: unique keys, then the foreign key. *)
Definition insert_state (mk : Z -> SignerEvmStateTable) : txM Z := fun db =>
  let id := next_state db in
  let row := mk id in
  if duplicate db row then Err errEvmStateConflict
  else match signed db !! SignedTxID row with
       | None => Err ErrDB
       | Some _ => Ok (set_states (<[id := row]> (states db)) (id + 1) db, id)
       end.

(** UPDATE and DELETE of the row [id] where [P] holds; the number of affected rows. *)
Definition update_state (id : Z) (P : SignerEvmStateTable -> bool)
    (upd : SignerEvmStateTable -> SignerEvmStateTable) : txM nat := fun db =>
  match states db !! id with
  | Some row =>
    if P row then
      if duplicate db (upd row) then Err errEvmStateConflict
      else Ok (set_states (<[id := upd row]> (states db)) (next_state db) db, 1%nat)
    else Ok (db, 0%nat)
  | None => Ok (db, 0%nat)
  end.
Definition delete_state (id : Z) (P : SignerEvmStateTable -> bool) : txM nat := fun db =>
  match states db !! id with
  | Some row =>
    if P row then Ok (set_states (delete id (states db)) (next_state db) db, 1%nat) else Ok (db, 0%nat)
  | None => Ok (db, 0%nat)
  end.

(** ** The checks *)

Definition fenceCheck (now : Z) (fence : evmFence) : txM unit :=
  l ← read (fun db => leases db !! f_ChainID fence);
  match l with
  | Some l =>
    if negb (bool_decide (l_Owner l = f_Owner fence)) || negb (l_Epoch l =? f_Epoch fence) ||
       negb (l_ExpiresAt l >? now)
    then fail errEvmLeaseNotHeld else mret tt
  | None => fail errEvmLeaseNotHeld
  end.

Definition fence_opt (now : Z) (fence : option evmFence) : txM Z :=
  match fence with
  | Some fence => fenceCheck now fence;; mret (f_Epoch fence)
  | None => mret 0
  end.

Definition set_actor (actor : string) (e : evmAuditEvent) : evmAuditEvent :=
  mkEvent (a_Event e) (a_Scope e) (a_From e) (a_Nonce e) (a_TxHash e) (a_Operation e) (a_SignedTxID e)
    (a_ReceiptStatus e) (a_ReceiptBlock e) (a_ChainNonce e) (a_OutcomeID e) (a_OutcomeState e)
    (a_OutcomeReason e) (a_Detail e) (a_EvidenceTxHash e) (a_EvidenceKind e) actor (a_Reason e)
    (a_DecisionRef e) (a_ChainHeight e).

(** The process identity [evmAuditActor()] is [actor]. *)
Definition insertAudit (actor : string) (chainID : string) (epoch : Z) (event : evmAuditEvent) : txM unit :=
  fun db =>
  let event := if bool_decide (a_Actor event = ""%string) then set_actor actor event else event in
  Ok (mkDB (signed db) (next_tx db) (states db) (next_state db) (leases db)
        (audits db ++ [mkAuditRow chainID epoch event]), tt).

Definition lockPending (pending : pendingRecord) : txM unit :=
  rows ← read (select_states (fun r => is_pending r && bool_decide (ChainID r = p_ChainID pending) &&
                                       bool_decide (Scope r = p_Scope pending)));
  match rows with
  | [] => fail errEvmRowGone
  | row :: _ =>
    if negb (ID row =? p_ID pending) || negb (TxHash row =? p_TxHash pending)
    then fail errEvmStateConflict else mret tt
  end.

Definition lockEvidence (id : Z) : txM unit :=
  ev ← read (fun db => signed db !! id);
  match ev with Some _ => mret tt | None => fail errEvmStateConflict end.

(** [if res.RowsAffected != 1 { return conflict }] *)
Definition one_row (n : nat) : txM unit :=
  if bool_decide (n = 1%nat) then mret tt else fail errEvmStateConflict.

(** [map[string]interface{}] of [outcomeColumns], applied to a row. *)
Definition outcomeColumns (o : outcomeRecord) (r : SignerEvmStateTable) : SignerEvmStateTable :=
  mkRow (ID r) (SignedTxID r) (ChainID r) (Scope r) (Operation r) (FromAddress r) (Nonce r) (TxHash r)
    (if o_ResultTxHash o =? zeroHash then None else Some (o_ResultTxHash o))
    (RowOutcome (o_State o)) (o_EvidenceTxHash o) (o_EvidenceKind o) (o_Reason o) (o_ReceiptBlock o) (o_Source o)
    (Ambiguous r) (LeaseEpoch r).
Definition set_ambiguous (b : bool) (r : SignerEvmStateTable) : SignerEvmStateTable :=
  mkRow (ID r) (SignedTxID r) (ChainID r) (Scope r) (Operation r) (FromAddress r) (Nonce r) (TxHash r)
    (ResultTxHash r) (State r) (EvidenceTxHash r) (EvidenceKind r) (Reason r) (ReceiptBlock r) (Source r)
    b (LeaseEpoch r).

(** ** The lease *)

(** '1970-01-01 00:00:01' *)
Definition longAgo : Z := 1000000.

Definition AcquireLease (actor : string) (now : Z) (chainID owner : string) (ttl : Z) : txM (Z * bool) :=
  (fun db => Ok (match leases db !! chainID with
                 | Some _ => db
                 | None => set_leases (<[chainID := mkLease "" 0 longAgo]> (leases db)) db
                 end, tt));;
  l ← read (fun db => leases db !! chainID);
  match l with
  | None => fail ErrDB
  | Some l =>
    if negb (l_ExpiresAt l <? now) && negb (bool_decide (l_Owner l = owner)) then mret (0, false)
    else
      let epoch := uwrap 64 (l_Epoch l + 1) in
      (fun db => Ok (set_leases (<[chainID := mkLease owner epoch (now + ttl)]> (leases db)) db, tt));;
      insertAudit actor chainID epoch (plain_event evmAuditLeaseAcquired
        ("owner=" +:+ owner +:+ " previous_owner=" +:+ l_Owner l));;
      mret (epoch, true)
  end.

Definition RenewLease (now : Z) (fence : evmFence) (ttl : Z) : txM bool := fun db =>
  match leases db !! f_ChainID fence with
  | Some l =>
    if bool_decide (l_Owner l = f_Owner fence) && (l_Epoch l =? f_Epoch fence) && (l_ExpiresAt l >? now)
    then Ok (set_leases (<[f_ChainID fence := mkLease (l_Owner l) (l_Epoch l) (now + ttl)]> (leases db)) db, true)
    else Ok (db, false)
  | None => Ok (db, false)
  end.

Definition ReleaseLease (fence : evmFence) : txM unit := fun db =>
  match leases db !! f_ChainID fence with
  | Some l =>
    if bool_decide (l_Owner l = f_Owner fence) && (l_Epoch l =? f_Epoch fence)
    then Ok (set_leases (<[f_ChainID fence := mkLease (l_Owner l) (l_Epoch l) longAgo]> (leases db)) db, tt)
    else Ok (db, tt)
  | None => Ok (db, tt)
  end.

(** ** Queries *)

Definition GetPending (db : evm_db) (chainID : string) (scope : SignType) : option pendingRecord :=
  pendingFromRow <$> head (select_states (fun r => is_pending r && bool_decide (ChainID r = chainID) &&
                                                   bool_decide (Scope r = scope)) db).
Definition ListPending (db : evm_db) (chainID : string) : list pendingRecord :=
  pendingFromRow <$> select_states (fun r => is_pending r && bool_decide (ChainID r = chainID)) db.
Definition GetOutcome (db : evm_db) (chainID : string) (scope : SignType) (operation : Hash) : option outcomeRecord :=
  head (select_states (fun r => negb (is_pending r) && bool_decide (ChainID r = chainID) &&
                                bool_decide (Scope r = scope) && (Operation r =? operation)) db) ≫= outcomeFromRow.
Definition ListOutcomes (db : evm_db) (chainID : string) : list outcomeRecord :=
  omap outcomeFromRow (select_states (fun r => negb (is_pending r) && bool_decide (ChainID r = chainID)) db).
Definition GetSignedTx (db : evm_db) (id : Z) : option signedTxEvidence := signed db !! id.
Definition HasAudit (db : evm_db) (chainID : string) (event : evmAuditName) (txHash : Hash) (outcomeID : Z) : bool :=
  existsb (fun r => bool_decide (au_ChainID r = chainID) && bool_decide (a_Event (au_Event r) = event) &&
                    ((txHash =? zeroHash) || (a_TxHash (au_Event r) =? txHash)) &&
                    ((outcomeID =? 0) || bool_decide (a_OutcomeID (au_Event r) = Some outcomeID))) (audits db).
Definition GetSignedTxByHash (db : evm_db) (chainID : string) (txHash : Hash) : option signedTxEvidence :=
  head (select_signed (fun e => bool_decide (e_ChainID e = chainID) && (e_TxHash e =? txHash)) db).
Definition GetOutcomeByID (db : evm_db) (chainID : string) (id : Z) : option outcomeRecord :=
  row ← states db !! id;
  if negb (is_pending row) && bool_decide (ChainID row = chainID) then outcomeFromRow row else None.
Definition ListSignedTxAtNonce (db : evm_db) (chainID : string) (from : Address) (nonce afterID : Z) (window : nat) :
    list signedTxEvidence :=
  take window (select_signed (fun e => (e_ID e >? afterID) && bool_decide (e_ChainID e = chainID) &&
                                       (e_From e =? from) && (e_Nonce e =? nonce)) db).

(** The other chain ids that occur in any table; a UNION has no order. *)
Definition ForeignChainIDs (db : evm_db) (chainID : string) : gset string :=
  (list_to_set ((ChainID <$> (map_to_list (states db)).*2) ++ (map_to_list (leases db)).*1 ++
                (e_ChainID <$> (map_to_list (signed db)).*2) ++ (au_ChainID <$> audits db)) : gset string) ∖ {[chainID]}.

(** ** Transitions *)

(** The evidence row [Record_] uses: the stored one with the same contents, or a new one. *)
Definition record_evidence (epoch : Z) (evidence : signedTxEvidence) : txM Z :=
  existing ← read (fun db => GetSignedTxByHash db (e_ChainID evidence) (e_TxHash evidence));
  match existing with
  | Some ex => if negb (sameEvidence ex evidence) then fail errEvmStateConflict else mret (e_ID ex)
  | None =>
    insert_signed (mkEvidence 0 (e_ChainID evidence) (e_EvmChainID evidence) (e_Scope evidence)
      (e_Operation evidence) (e_From evidence) (e_Nonce evidence) (e_TxHash evidence) (e_Raw evidence)
      (e_RecordedBlock evidence) epoch)
  end.

Definition Record_ (actor : string) (now : Z) (fence : evmFence) (evidence : signedTxEvidence)
    (pending : pendingRecord) : txM pendingRecord :=
  fenceCheck now fence;;
  active ← read (select_states (fun r => negb (is_pending r) && bool_decide (ChainID r = p_ChainID pending) &&
                                         bool_decide (Scope r = p_Scope pending) &&
                                         (Operation r =? p_Operation pending)));
  if negb (bool_decide (active = [])) then fail errEvmStateConflict
  else
    signedTxID ← record_evidence (f_Epoch fence) evidence;
    id ← insert_state (fun id =>
           mkRow id signedTxID (p_ChainID pending) (p_Scope pending) (p_Operation pending) (p_From pending)
             (p_Nonce pending) (p_TxHash pending) None RowPending "" "" "" 0 "" false (f_Epoch fence));
    let pending := mkPending id (p_ChainID pending) signedTxID (p_Scope pending) (p_From pending) (p_Nonce pending)
                     (p_TxHash pending) (p_Operation pending) (p_Ambiguous pending) (f_Epoch fence) in
    insertAudit actor (p_ChainID pending) (f_Epoch fence) (pending_audit pending evmAuditRecorded);;
    mret pending.

Definition MarkAmbiguous (actor : string) (now : Z) (fence : evmFence) (pending : pendingRecord) : txM unit :=
  fenceCheck now fence;;
  lockPending pending;;
  update_state (p_ID pending) (fun r => TxHash r =? p_TxHash pending) (set_ambiguous true);;
  insertAudit actor (p_ChainID pending) (f_Epoch fence) (pending_audit pending evmAuditMarkedAmbiguous).

(** The audit rows of [ResolvePending]. *)
Definition resolve_event (pending : pendingRecord) (terminal : pendingTerminal) (outcome : option outcomeRecord)
    (nm : evmAuditName) : evmAuditEvent :=
  let e := pending_audit pending nm in
  let created := bool_decide (nm = evmAuditOutcomeCreated) in
  mkEvent (a_Event e) (a_Scope e) (a_From e) (a_Nonce e) (a_TxHash e) (a_Operation e) (a_SignedTxID e)
    (t_ReceiptStatus terminal) (if t_ReceiptBlock terminal =? 0 then None else Some (t_ReceiptBlock terminal)) None
    (match outcome with Some o => if created then Some (o_ID o) else None | None => None end)
    (match outcome with Some o => if created then Some (o_State o) else None | None => None end)
    "" (t_Detail terminal) "" "" "" "" "" None.

Fixpoint insert_audits (actor chainID : string) (epoch : Z) (events : list evmAuditEvent) : txM unit :=
  match events with
  | [] => mret tt
  | e :: events => insertAudit actor chainID epoch e;; insert_audits actor chainID epoch events
  end.

Definition ResolvePending (actor : string) (now : Z) (fence : evmFence) (pending : pendingRecord)
    (terminal : pendingTerminal) : txM (option outcomeRecord) :=
  fenceCheck now fence;;
  lockPending pending;;
  let matches r := TxHash r =? p_TxHash pending in
  let outcome :=
    if bool_decide (t_Kind terminal = terminalSuccessKeep) then
      Some (mkOutcome (p_ID pending) (p_SignedTxID pending) (p_ChainID pending) (p_Scope pending)
        (p_Operation pending) (p_From pending) (p_Nonce pending) (p_TxHash pending) (p_TxHash pending)
        evmOutcomeSucceeded "" "" "" (t_ReceiptBlock terminal) (t_Source terminal))
    else None in
  n ← match outcome with
      | Some o =>
        update_state (p_ID pending) matches (fun r =>
          mkRow (ID r) (SignedTxID r) (ChainID r) (Scope r) (Operation r) (FromAddress r) (Nonce r) (TxHash r)
            (Some (p_TxHash pending)) (RowOutcome evmOutcomeSucceeded) (EvidenceTxHash r) (EvidenceKind r) (Reason r)
            (t_ReceiptBlock terminal) (t_Source terminal) (Ambiguous r) (LeaseEpoch r))
      | None => delete_state (p_ID pending) matches
      end;
  one_row n;;
  insert_audits actor (p_ChainID pending) (f_Epoch fence)
    (resolve_event pending terminal outcome <$> auditEvents (t_Kind terminal));;
  mret outcome.

Definition ConsumeOutcome (actor : string) (now : Z) (fence : evmFence) (outcome : outcomeRecord) : txM unit :=
  fenceCheck now fence;;
  row ← read (fun db => states db !! o_ID outcome);
  match row with
  | None => fail errEvmRowGone
  | Some row =>
    if negb (bool_decide (State row = RowOutcome evmOutcomeSucceeded)) ||
       negb (bool_decide (ChainID row = o_ChainID outcome)) || negb (bool_decide (Scope row = o_Scope outcome)) ||
       negb (Operation row =? o_Operation outcome)
    then fail errEvmStateConflict
    else
      n ← delete_state (o_ID outcome) (fun r => bool_decide (State r = RowOutcome evmOutcomeSucceeded));
      one_row n;;
      insertAudit actor (o_ChainID outcome) (f_Epoch fence) (outcome_audit outcome evmAuditOutcomeConsumed)
  end.

Definition AppendAudit (actor : string) (now : Z) (fence : option evmFence) (chainID : string) (event : evmAuditEvent) :
    txM unit :=
  epoch ← fence_opt now fence; insertAudit actor chainID epoch event.

Definition resolvePendingTo (actor : string) (now : Z) (fence : option evmFence) (pending : pendingRecord)
    (res : option outcomeRecord) (event : evmAuditEvent) : txM unit :=
  epoch ← fence_opt now fence;
  lockPending pending;;
  let matches r := (TxHash r =? p_TxHash pending) && is_pending r in
  n ← match res with
      | Some o =>
        lockEvidence (p_SignedTxID pending);;
        update_state (p_ID pending) matches (fun r => set_ambiguous false (outcomeColumns o r))
      | None => delete_state (p_ID pending) matches
      end;
  one_row n;;
  insertAudit actor (p_ChainID pending) epoch event.

Definition ManualResolvePending (actor : string) (now : Z) (pending : pendingRecord) (res : option outcomeRecord)
    (event : evmAuditEvent) : txM unit := resolvePendingTo actor now None pending res event.
Definition AutoResolvePending (actor : string) (now : Z) (fence : evmFence) (pending : pendingRecord)
    (res : option outcomeRecord) (event : evmAuditEvent) : txM unit :=
  resolvePendingTo actor now (Some fence) pending res event.

Definition settleOutcome (actor : string) (now : Z) (fence : option evmFence) (outcome : outcomeRecord)
    (from : list evmOutcomeState) (to : option outcomeRecord) (event : evmAuditEvent) : txM unit :=
  epoch ← fence_opt now fence;
  row ← read (fun db => states db !! o_ID outcome);
  match row ≫= fun r => if negb (is_pending r) && bool_decide (ChainID r = o_ChainID outcome)
                        then o ← outcomeFromRow r; Some (r, o) else None with
  | None => fail errEvmRowGone
  | Some (r, current) =>
    match checkSettleable current outcome from with
    | Some e => fail e
    | None =>
      let matches x := bool_decide (State x = State r) in
      n ← match to with
          | Some o => lockEvidence (SignedTxID r);; update_state (o_ID outcome) matches (outcomeColumns o)
          | None => delete_state (o_ID outcome) matches
          end;
      one_row n;;
      insertAudit actor (o_ChainID outcome) epoch event
    end
  end.

Definition ManualSettleOutcome (actor : string) (now : Z) (outcome : outcomeRecord) (from : list evmOutcomeState)
    (to : option outcomeRecord) (event : evmAuditEvent) : txM unit :=
  settleOutcome actor now None outcome from to event.
Definition AutoSettleOutcome (actor : string) (now : Z) (fence : evmFence) (outcome : outcomeRecord)
    (from : list evmOutcomeState) (to : option outcomeRecord) (event : evmAuditEvent) : txM unit :=
  settleOutcome actor now (Some fence) outcome from to event.
