(* ===== verification/EvmInv.v ===== *)
(** Invariants of the EVM state store (EvmStore.v), over every sequence of calls,
    failures and lost commit answers included. *)
From Stdlib Require Import ZArith Lia.
From stdpp Require Import base gmap list strings sorting.
From S2P Require Import Prelude Sql EvmState EvmStore.

Local Open Scope Z_scope.

(** ** Running transactions *)

Lemma bind_ok {A B} (m : txM A) (f : A -> txM B) db db'' b :
  (m ≫= f) db = Ok (db'', b) -> exists db' a, m db = Ok (db', a) /\ f a db' = Ok (db'', b).
Proof.
  unfold mbind, txM_bind. destruct (m db) as [[db' a]|e] eqn:E; [|done]. intros H. by exists db', a.
Qed.

Lemma ret_ok {A} (a : A) db db' b : (mret a : txM A) db = Ok (db', b) -> db' = db /\ b = a.
Proof. by intros [= <- <-]. Qed.

Lemma read_ok {A} (f : evm_db -> A) db db' b : read f db = Ok (db', b) -> db' = db /\ b = f db.
Proof. by intros [= <- <-]. Qed.

Lemma bind_Ok {A B} (m : txM A) (f : A -> txM B) db db1 a : m db = Ok (db1, a) -> (m ≫= f) db = f a db1.
Proof. unfold mbind, txM_bind. by intros ->. Qed.

Lemma bind_Err {A B} (m : txM A) (f : A -> txM B) db e : m db = Err e -> (m ≫= f) db = Err e.
Proof. unfold mbind, txM_bind. by intros ->. Qed.

(** Splits a successful transaction into its steps. *)
Ltac tx_step H :=
  match type of H with
  | (_ ≫= _) _ = Ok _ => let H1 := fresh H in
    apply bind_ok in H as (? & ? & H1 & H); tx_step H1; tx_step H
  | mret _ _ = Ok _ => apply ret_ok in H as [-> ->]
  | read _ _ = Ok _ => apply read_ok in H as [-> ->]
  | fail _ _ = Ok _ => discriminate H
  | _ => idtac
  end.

(** ** The lease check *)

Definition held (now : Z) (fence : evmFence) (db : evm_db) : Prop :=
  exists l, leases db !! f_ChainID fence = Some l /\ l_Owner l = f_Owner fence /\
    l_Epoch l = f_Epoch fence /\ now < l_ExpiresAt l.

Lemma fenceCheck_held now fence db :
  fenceCheck now fence db = Ok (db, tt) /\ held now fence db \/
  fenceCheck now fence db = Err errEvmLeaseNotHeld /\ ~ held now fence db.
Proof.
  unfold fenceCheck, read, held, mbind, txM_bind.
  destruct (leases db !! f_ChainID fence) as [l|] eqn:E; [|right; naive_solver].
  destruct (bool_decide_reflect (l_Owner l = f_Owner fence)) as [H1|H1]; cbn;
    [|right; split; [done|]; intros (l' & [= <-] & ? & _); done].
  destruct (Z.eqb_spec (l_Epoch l) (f_Epoch fence)) as [H2|H2]; cbn;
    [|right; split; [done|]; intros (l' & [= <-] & _ & ? & _); done].
  destruct (Z.gtb_spec (l_ExpiresAt l) now) as [H3|H3]; cbn.
  - left. split; [done|]. exists l. split_and!; [done..|lia].
  - right. split; [done|]. intros (l' & [= <-] & _ & _ & ?). lia.
Qed.

Lemma fenceCheck_ok now fence db db' u :
  fenceCheck now fence db = Ok (db', u) -> db' = db /\ held now fence db.
Proof. intros E. destruct (fenceCheck_held now fence db) as [[E' ?]|[E' _]]; [|congruence]. rewrite E' in E. by injection E as <-. Qed.

Lemma fence_opt_ok now fence db db' e :
  fence_opt now fence db = Ok (db', e) ->
  db' = db /\ match fence with Some f => held now f db /\ e = f_Epoch f | None => e = 0 end.
Proof.
  destruct fence as [f|]; cbn.
  - intros E. tx_step E. apply fenceCheck_ok in E0 as [-> ?]. done.
  - intros E. by apply ret_ok in E.
Qed.

(** ** Statements *)

Definition with_audits (l : list SignerEvmAuditTable) (db : evm_db) : evm_db :=
  mkDB (signed db) (next_tx db) (states db) (next_state db) (leases db) (audits db ++ l).

Lemma insertAudit_ok actor chain ep ev db db' u :
  insertAudit actor chain ep ev db = Ok (db', u) ->
  exists e, a_Event e = a_Event ev /\ a_TxHash e = a_TxHash ev /\ a_OutcomeID e = a_OutcomeID ev /\
    db' = with_audits [mkAuditRow chain ep e] db.
Proof. unfold insertAudit. intros [= <- _]. eexists. split_and!; [..|done]; by case_bool_decide. Qed.

Lemma elem_of_select P db r :
  r ∈ select_states P db <-> P r = true /\ exists i, states db !! i = Some r.
Proof.
  unfold select_states. rewrite merge_sort_Permutation, list_elem_of_filter, list_elem_of_fmap.
  rewrite Is_true_true. split; intros [Hp Hx]; (split; [done|]).
  - destruct Hx as ([i r'] & -> & Hi%elem_of_map_to_list). by exists i.
  - destruct Hx as [i Hi]. exists (i, r). split; [done|]. by apply elem_of_map_to_list.
Qed.

Lemma elem_of_select_signed P db e :
  e ∈ select_signed P db <-> P e = true /\ exists i, signed db !! i = Some e.
Proof.
  unfold select_signed. rewrite merge_sort_Permutation, list_elem_of_filter, list_elem_of_fmap.
  rewrite Is_true_true. split; intros [Hp Hx]; (split; [done|]).
  - destruct Hx as ([i r'] & -> & Hi%elem_of_map_to_list). by exists i.
  - destruct Hx as [i Hi]. exists (i, e). split; [done|]. by apply elem_of_map_to_list.
Qed.

Lemma select_nil P db r i : select_states P db = [] -> states db !! i = Some r -> P r = false.
Proof.
  intros E Hi. destruct (P r) eqn:Hp; [|done].
  assert (r ∈ select_states P db) as Hin by (apply elem_of_select; eauto). rewrite E in Hin.
  by apply not_elem_of_nil in Hin.
Qed.

Lemma duplicate_false db row :
  duplicate db row = false <-> forall i r, states db !! i = Some r -> i <> ID row -> same_key r row = false.
Proof.
  unfold duplicate. rewrite <-not_true_iff_false, existsb_exists. split.
  - intros Hn i r Hi Hne. destruct (same_key r row) eqn:E; [|done]. destruct Hn. exists (i, r).
    split; [apply list_elem_of_In, elem_of_map_to_list; done|]. rewrite E, andb_true_r, negb_true_iff. by apply Z.eqb_neq.
  - intros Hall ([i r] & Hin%list_elem_of_In%elem_of_map_to_list & [Hne%negb_true_iff%Z.eqb_neq Hk]%andb_prop).
    specialize (Hall i r Hin Hne). congruence.
Qed.

(** ** The invariant *)

(** Two rows that may not coexist: the same operation, or two pending rows of a scope. *)
Definition clash (a b : SignerEvmStateTable) : Prop :=
  ChainID a = ChainID b /\ Scope a = Scope b /\
  (Operation a = Operation b \/ State a = RowPending /\ State b = RowPending).

Definition backed (e : signedTxEvidence) (r : SignerEvmStateTable) : Prop :=
  e_ChainID e = ChainID r /\ e_Scope e = Scope r /\ e_Operation e = Operation r /\
  e_From e = FromAddress r /\ e_Nonce e = Nonce r /\ e_TxHash e = TxHash r.

Record db_wf (db : evm_db) : Prop := {
  wf_ids : forall i r, states db !! i = Some r -> ID r = i /\ 0 < i < next_state db;
  wf_tx_ids : forall i e, signed db !! i = Some e -> e_ID e = i /\ 0 < i < next_tx db;
  wf_hashes : forall i j e e', signed db !! i = Some e -> signed db !! j = Some e' ->
    e_ChainID e = e_ChainID e' -> e_TxHash e = e_TxHash e' -> i = j;
  wf_active : forall i j r r', states db !! i = Some r -> states db !! j = Some r' -> clash r r' -> i = j;
  wf_backed : forall i r, states db !! i = Some r -> exists e, signed db !! SignedTxID r = Some e /\ backed e r;
  wf_counters : 0 < next_state db /\ 0 < next_tx db
}.

Lemma empty_db_wf : db_wf empty_db.
Proof. split; cbn; intros; simplify_map_eq; lia. Qed.

(** The columns no transition changes. *)
Definition same_tx (a b : SignerEvmStateTable) : Prop :=
  ID a = ID b /\ SignedTxID a = SignedTxID b /\ ChainID a = ChainID b /\ Scope a = Scope b /\
  Operation a = Operation b /\ FromAddress a = FromAddress b /\ Nonce a = Nonce b /\ TxHash a = TxHash b.

(** What one successful call does to the state table: the row it takes and the row it leaves. *)
Inductive rows_change (db db' : evm_db) : option SignerEvmStateTable -> option SignerEvmStateTable -> Prop :=
| rows_same : states db' = states db -> next_state db' = next_state db -> rows_change db db' None None
| rows_insert row e :
    ID row = next_state db -> State row = RowPending -> signed db' !! SignedTxID row = Some e -> backed e row ->
    (forall i r, states db !! i = Some r -> ~ clash r row) ->
    states db' = <[next_state db := row]> (states db) -> next_state db' = next_state db + 1 ->
    rows_change db db' None (Some row)
| rows_update i r r' :
    states db !! i = Some r -> same_tx r' r -> State r' = State r \/ State r' <> RowPending ->
    states db' = <[i := r']> (states db) -> next_state db' = next_state db -> rows_change db db' (Some r) (Some r')
| rows_delete i r :
    states db !! i = Some r -> states db' = delete i (states db) -> next_state db' = next_state db ->
    rows_change db db' (Some r) None.

(** The evidence table grows by at most one row, with a fresh hash. *)
Inductive signed_change (db db' : evm_db) : Prop :=
| signed_same : signed db' = signed db -> next_tx db' = next_tx db -> signed_change db db'
| signed_insert e :
    e_ID e = next_tx db ->
    (forall i e', signed db !! i = Some e' -> ~ (e_ChainID e' = e_ChainID e /\ e_TxHash e' = e_TxHash e)) ->
    signed db' = <[next_tx db := e]> (signed db) -> next_tx db' = next_tx db + 1 -> signed_change db db'.

Lemma signed_change_sub db db' : db_wf db -> signed_change db db' -> signed db ⊆ signed db'.
Proof.
  intros W [-> _|e _ _ -> _]; [done|]. apply insert_subseteq. apply eq_None_not_Some. intros [e' He'].
  destruct (wf_tx_ids _ W _ _ He') as [_ ?]. lia.
Qed.

Lemma clash_sym a b : clash a b -> clash b a.
Proof. unfold clash. naive_solver. Qed.

Lemma clash_same_tx a a' b : same_tx a' a -> State a' = State a \/ State a' <> RowPending -> clash a' b -> clash a b.
Proof. intros (_&_&?&?&?&_) Hs (?&?&[?|[? ?]]); (split_and!; [congruence..|]); [left; congruence|right]. destruct Hs; split; congruence. Qed.

Lemma backed_same_tx e a a' : same_tx a' a -> backed e a -> backed e a'.
Proof. intros (_&_&?&?&?&?&?&?) (?&?&?&?&?&?). split_and!; congruence. Qed.

Section preserve.
Context {db db' : evm_db} {o o' : option SignerEvmStateTable}.
Context (W : db_wf db) (Hs : signed_change db db') (Hr : rows_change db db' o o').

Lemma change_backed i r : states db' !! i = Some r -> exists e, signed db' !! SignedTxID r = Some e /\ backed e r.
Proof.
  pose proof (signed_change_sub _ _ W Hs) as Hsub.
  assert (Hold : forall i r, states db !! i = Some r -> exists e, signed db' !! SignedTxID r = Some e /\ backed e r).
  { intros j s Hj. destruct (wf_backed _ W _ _ Hj) as (e & He & Hb). exists e. split; [|done]. by eapply lookup_weaken. }
  destruct Hr as [Heq _|row e _ _ He Hb _ Heq _|k s s' Hk Hst _ Heq _|k s Hk Heq _]; rewrite Heq; [apply Hold|..].
  - intros [[<- <-]|[_ H]]%lookup_insert_Some; [by exists e|by eapply Hold].
  - intros [[<- <-]|[_ H]]%lookup_insert_Some; [|by eapply Hold].
    destruct (Hold _ _ Hk) as (e & He & Hb). exists e. split; [|by eapply backed_same_tx].
    destruct Hst as (_ & -> & _). done.
  - intros [_ H]%lookup_delete_Some. by eapply Hold.
Qed.

Lemma change_active i j r r' : states db' !! i = Some r -> states db' !! j = Some r' -> clash r r' -> i = j.
Proof.
  destruct Hr as [Heq _|row e _ _ _ _ Hn Heq _|k s s' Hk Hst Hp Heq _|k s Hk Heq _]; rewrite Heq.
  - apply (wf_active _ W).
  - intros [[<- <-]|[Hi H]]%lookup_insert_Some [[<- <-]|[Hj H']]%lookup_insert_Some C; [done|..].
    + apply clash_sym in C. by destruct (Hn _ _ H' C).
    + by destruct (Hn _ _ H C).
    + by eapply (wf_active _ W).
  - intros [[<- <-]|[Hi H]]%lookup_insert_Some [[<- <-]|[Hj H']]%lookup_insert_Some C; [done|..].
    + eapply (wf_active _ W); [exact Hk|exact H'|]. by eapply clash_same_tx.
    + eapply (wf_active _ W); [exact H|exact Hk|]. by eapply clash_sym, clash_same_tx, clash_sym.
    + by eapply (wf_active _ W).
  - intros [_ H]%lookup_delete_Some [_ H']%lookup_delete_Some. by eapply (wf_active _ W).
Qed.

Lemma change_ids i r : states db' !! i = Some r -> ID r = i /\ 0 < i < next_state db'.
Proof.
  destruct (wf_counters _ W) as [Hc _].
  destruct Hr as [Heq Hx|row e Hid _ _ _ _ Heq Hx|k s s' Hk Hst Hp Heq Hx|k s Hk Heq Hx]; rewrite Heq, Hx.
  - apply (wf_ids _ W).
  - intros [[<- <-]|[_ H]]%lookup_insert_Some; [lia|]. destruct (wf_ids _ W _ _ H). lia.
  - intros [[<- <-]|[_ H]]%lookup_insert_Some; [|by apply (wf_ids _ W)].
    destruct (wf_ids _ W _ _ Hk) as [<- ?]. by destruct Hst.
  - intros [_ H]%lookup_delete_Some. by apply (wf_ids _ W).
Qed.

Lemma change_signed :
  (forall i e, signed db' !! i = Some e -> e_ID e = i /\ 0 < i < next_tx db') /\
  (forall i j e e', signed db' !! i = Some e -> signed db' !! j = Some e' ->
     e_ChainID e = e_ChainID e' -> e_TxHash e = e_TxHash e' -> i = j).
Proof.
  destruct (wf_counters _ W) as [_ Hc].
  destruct Hs as [-> ->|e Hid Hf -> ->]; [split; [apply (wf_tx_ids _ W)|apply (wf_hashes _ W)]|split].
  - intros i e'. intros [[<- <-]|[_ H]]%lookup_insert_Some; [lia|]. destruct (wf_tx_ids _ W _ _ H). lia.
  - intros i j e1 e2 [[<- <-]|[Hi H]]%lookup_insert_Some [[<- <-]|[Hj H']]%lookup_insert_Some E1 E2; [done|..].
    + by destruct (Hf _ _ H').
    + by destruct (Hf _ _ H).
    + by eapply (wf_hashes _ W).
Qed.

Lemma change_wf : db_wf db'.
Proof.
  destruct change_signed as [H1 H2]. split; [apply change_ids|done|done|apply change_active|apply change_backed|].
  destruct (wf_counters _ W). split.
  - destruct Hr as [_ ->|row e _ _ _ _ _ _ ->|k s s' _ _ _ _ ->|k s _ _ ->]; lia.
  - destruct Hs as [_ ->|e _ _ _ ->]; lia.
Qed.
End preserve.

(** ** The status of an operation *)

Definition opkey : Type := string * SignType * Hash.
Definition key (r : SignerEvmStateTable) : opkey := (ChainID r, Scope r, Operation r).

(** Pending, an outcome, or (None) free to be signed. *)
Definition status (db : evm_db) (k : opkey) : option row_state :=
  State <$> head (select_states (fun r => bool_decide (key r = k)) db).

Lemma clash_key a b : key a = key b -> clash a b.
Proof. unfold key. intros [= ? ? ?]. split_and!; auto. Qed.

Lemma status_row db i r : db_wf db -> states db !! i = Some r -> status db (key r) = Some (State r).
Proof.
  intros W Hi. unfold status. destruct (select_states _ db) as [|r' l] eqn:E.
  - pose proof (select_nil _ _ _ _ E Hi) as Hn. cbn in Hn. by rewrite bool_decide_eq_false in Hn.
  - assert (r' ∈ select_states (fun s => bool_decide (key s = key r)) db) as Hin by (rewrite E; left).
    apply elem_of_select in Hin as [Hk%bool_decide_eq_true [j Hj]].
    assert (j = i) as -> by (eapply (wf_active _ W); eauto using clash_key). cbn. congruence.
Qed.

Lemma status_none db k : status db k = None <-> forall i r, states db !! i = Some r -> key r <> k.
Proof.
  unfold status. destruct (select_states _ db) as [|r l] eqn:E; cbn; split; try done.
  - intros _ i r Hi Hk. pose proof (select_nil _ _ _ _ E Hi) as Hn. by apply bool_decide_eq_false in Hn.
  - intros Hn. assert (r ∈ select_states (fun s => bool_decide (key s = k)) db) as Hin by (rewrite E; left).
    apply elem_of_select in Hin as [Hk%bool_decide_eq_true [j Hj]]. by destruct (Hn _ _ Hj).
Qed.

Lemma status_some db k s :
  db_wf db -> status db k = Some s <-> exists i r, states db !! i = Some r /\ key r = k /\ State r = s.
Proof.
  intros W. split.
  - unfold status. destruct (select_states _ db) as [|r l] eqn:E; [done|]. cbn. intros [= <-].
    assert (r ∈ select_states (fun s => bool_decide (key s = k)) db) as Hin by (rewrite E; left).
    apply elem_of_select in Hin as [Hk%bool_decide_eq_true [j Hj]]. eauto.
  - intros (i & r & Hi & <- & <-). by eapply status_row.
Qed.

(** The rows under a key determine its status. *)
Lemma status_ext db db' k :
  db_wf db -> db_wf db' ->
  (forall r, key r = k -> (exists i, states db !! i = Some r) <-> (exists i, states db' !! i = Some r)) ->
  status db' k = status db k.
Proof.
  intros W W' Hext. destruct (status db k) as [s|] eqn:E.
  - apply status_some in E as (i & r & Hi & Hk & Hs); [|done]. apply status_some; [done|].
    destruct (Hext r Hk) as [[j Hj] _]; eauto.
  - rewrite status_none in E |- *. intros i r Hi Hk. destruct (Hext r Hk) as [_ [j Hj]]; [eauto|]. by destruct (E _ _ Hj).
Qed.

Definition row_status (o : option SignerEvmStateTable) : option row_state := State <$> o.
Definition on_key (o o' : option SignerEvmStateTable) (k : opkey) : bool :=
  match o, o' with
  | Some r, _ | None, Some r => bool_decide (key r = k)
  | None, None => false
  end.

Lemma same_tx_key a b : same_tx a b -> key a = key b.
Proof. intros (_&_&?&?&?&_). unfold key. congruence. Qed.

(** A change moves the status of the operation of its rows and of no other. *)
Lemma rows_change_status db db' o o' k :
  db_wf db -> db_wf db' -> rows_change db db' o o' ->
  if on_key o o' k then status db k = row_status o /\ status db' k = row_status o'
  else status db' k = status db k.
Proof.
  intros W W' Hr. unfold on_key.
  destruct Hr as [Heq _|row e _ _ _ _ Hn Heq _|i r r' Hi Hst _ Heq _|i r Hi Heq _]; cbn.
  - apply status_ext; [done..|]. by rewrite Heq.
  - case_bool_decide as Hk; [subst k; split|].
    + apply status_none. intros i r Hi Hk. eapply Hn, clash_key; eauto.
    + eapply status_row; [done|]. rewrite Heq. apply lookup_insert_eq.
    + apply status_ext; [done..|]. intros s Hs. rewrite Heq. split; intros [j Hj]; exists j.
      * rewrite lookup_insert_ne; [done|]. intros <-. destruct (wf_ids _ W _ _ Hj). lia.
      * apply lookup_insert_Some in Hj as [[_ <-]|[_ Hj]]; [by rewrite Hs in Hk|done].
  - case_bool_decide as Hk; [subst k; split|].
    + by eapply status_row.
    + rewrite <-(same_tx_key _ _ Hst). eapply status_row; [done|]. rewrite Heq. apply lookup_insert_eq.
    + apply status_ext; [done..|]. intros s Hs. rewrite Heq. split; intros [j Hj]; exists j.
      * rewrite lookup_insert_ne; [done|]. intros <-. congruence.
      * apply lookup_insert_Some in Hj as [[_ <-]|[_ Hj]]; [|done]. rewrite (same_tx_key _ _ Hst) in Hs. congruence.
  - case_bool_decide as Hk; [subst k; split|].
    + by eapply status_row.
    + apply status_none. intros j s Hj Hk. rewrite Heq in Hj. apply lookup_delete_Some in Hj as [Hne Hj].
      destruct Hne. eapply (wf_active _ W); [done..|]. by apply clash_key.
    + apply status_ext; [done..|]. intros s Hs. rewrite Heq. split; intros [j Hj]; exists j.
      * rewrite lookup_delete_ne; [done|]. intros <-. congruence.
      * by apply lookup_delete_Some in Hj as [_ Hj].
Qed.

(** ** Reading rows back *)

Lemma head_select P db i r :
  states db !! i = Some r -> P r = true -> (forall j r', states db !! j = Some r' -> P r' = true -> clash r' r) ->
  db_wf db -> head (select_states P db) = Some r.
Proof.
  intros Hi Hp Hall W. destruct (select_states P db) as [|r' l] eqn:E.
  - pose proof (select_nil _ _ _ _ E Hi). congruence.
  - assert (r' ∈ select_states P db) as Hin by (rewrite E; left). apply elem_of_select in Hin as [Hp' [j Hj]].
    assert (j = i) as -> by (eapply (wf_active _ W); eauto). cbn. congruence.
Qed.

Lemma head_none P db i r : head (select_states P db) = None -> states db !! i = Some r -> P r = false.
Proof. intros E. apply select_nil. by destruct (select_states P db). Qed.

Lemma head_some P db r : head (select_states P db) = Some r -> P r = true /\ exists i, states db !! i = Some r.
Proof.
  intros E. apply elem_of_select. destruct (select_states P db) as [|r' l]; [done|]. injection E as ->. left.
Qed.

Definition pending_in (chainID : string) (scope : SignType) (r : SignerEvmStateTable) : bool :=
  is_pending r && bool_decide (ChainID r = chainID) && bool_decide (Scope r = scope).

Lemma pending_in_spec c s r : pending_in c s r = true <-> State r = RowPending /\ ChainID r = c /\ Scope r = s.
Proof. unfold pending_in, is_pending. rewrite !andb_true_iff, !bool_decide_eq_true. tauto. Qed.

Lemma GetPending_row db i r :
  db_wf db -> states db !! i = Some r -> State r = RowPending ->
  GetPending db (ChainID r) (Scope r) = Some (pendingFromRow r).
Proof.
  intros W Hi Hs. unfold GetPending. fold (pending_in (ChainID r) (Scope r)).
  erewrite head_select; [done|exact Hi|by apply pending_in_spec| |done].
  intros j r' _ (H1 & H2 & H3)%pending_in_spec. split_and!; auto.
Qed.

Lemma GetPending_some db c s p :
  db_wf db -> GetPending db c s = Some p ->
  exists r, states db !! p_ID p = Some r /\ State r = RowPending /\ ChainID r = c /\ Scope r = s /\ p = pendingFromRow r.
Proof.
  intros W. unfold GetPending. fold (pending_in c s). intros (r & Hr & ->)%fmap_Some.
  apply head_some in Hr as [(H1 & H2 & H3)%pending_in_spec [i Hi]]. exists r.
  destruct (wf_ids _ W _ _ Hi) as [Hid _]. cbn. rewrite Hid. by split_and!.
Qed.

Lemma GetPending_none db c s i r :
  GetPending db c s = None -> states db !! i = Some r -> ChainID r = c -> Scope r = s -> State r <> RowPending.
Proof.
  unfold GetPending. fold (pending_in c s). intros Hn%fmap_None Hi Hc Hs Hp.
  pose proof (head_none _ _ _ _ Hn Hi) as Hf. assert (pending_in c s r = true) by by apply pending_in_spec. congruence.
Qed.

(** No pending row is left in the scope of a row that stopped being pending. *)
Lemma GetPending_gone db db' i r :
  db_wf db -> states db !! i = Some r -> State r = RowPending ->
  (forall j r', states db' !! j = Some r' -> j <> i /\ states db !! j = Some r' \/ State r' <> RowPending) ->
  GetPending db' (ChainID r) (Scope r) = None.
Proof.
  intros W Hi Hs Hall. destruct (GetPending db' _ _) as [p|] eqn:E; [|done]. exfalso. unfold GetPending in E.
  fold (pending_in (ChainID r) (Scope r)) in E. apply fmap_Some in E as (r' & Hh & _).
  apply head_some in Hh as [(H1 & H2 & H3)%pending_in_spec [j Hj]].
  destruct (Hall _ _ Hj) as [[Hne Hj']|?]; [|done]. apply Hne. eapply (wf_active _ W); [done..|]. split_and!; auto.
Qed.

Lemma GetOutcome_row db i r s :
  db_wf db -> states db !! i = Some r -> State r = RowOutcome s ->
  GetOutcome db (ChainID r) (Scope r) (Operation r) = outcomeFromRow r.
Proof.
  intros W Hi Hs. unfold GetOutcome. erewrite head_select; [reflexivity|exact Hi|..|done].
  - unfold is_pending. rewrite Hs, (bool_decide_false (RowOutcome s = RowPending)), !bool_decide_true, Z.eqb_refl by done. done.
  - intros j r' _. rewrite !andb_true_iff, !bool_decide_eq_true, Z.eqb_eq. intros (((_ & ?) & ?) & ?). split_and!; auto.
Qed.
