(* ===== verification/EvmSpec.v ===== *)
(** The calls of the EVM state store as steps, and what each one promises.

    [evm_call] lists the state-changing methods of the store, [run] executes one under
    a fate of the connection, [evm_steps] is any sequence of them.  [delta_ok] and
    [audits_ok] are the abstract specification: the row a call may take and leave, and
    the audit rows it must write; [exec_call_effect] proves that every call meets it. *)
From Stdlib Require Import ZArith Lia.
From stdpp Require Import base gmap list strings sorting.
From S2P Require Import Prelude Sql EvmState EvmStore EvmInv.

Local Open Scope Z_scope.

(** ** Calls *)

Inductive evm_call :=
| CAcquire (chainID owner : string) (ttl : Z)
| CRenew (fence : evmFence) (ttl : Z)
| CRelease (fence : evmFence)
| CRecord (fence : evmFence) (evidence : signedTxEvidence) (pending : pendingRecord)
| CMark (fence : evmFence) (pending : pendingRecord)
| CResolve (fence : evmFence) (pending : pendingRecord) (terminal : pendingTerminal)
| CConsume (fence : evmFence) (outcome : outcomeRecord)
| CAudit (fence : option evmFence) (chainID : string) (event : evmAuditEvent)
| CResolveTo (fence : option evmFence) (pending : pendingRecord) (res : option outcomeRecord) (event : evmAuditEvent)
| CSettle (fence : option evmFence) (outcome : outcomeRecord) (from : list evmOutcomeState)
    (to : option outcomeRecord) (event : evmAuditEvent).

Definition exec_call (actor : string) (now : Z) (c : evm_call) : txM unit :=
  match c with
  | CAcquire chainID owner ttl => AcquireLease actor now chainID owner ttl;; mret tt
  | CRenew fence ttl => RenewLease now fence ttl;; mret tt
  | CRelease fence => ReleaseLease fence
  | CRecord fence evidence pending => Record_ actor now fence evidence pending;; mret tt
  | CMark fence pending => MarkAmbiguous actor now fence pending
  | CResolve fence pending terminal => ResolvePending actor now fence pending terminal;; mret tt
  | CConsume fence outcome => ConsumeOutcome actor now fence outcome
  | CAudit fence chainID event => AppendAudit actor now fence chainID event
  | CResolveTo (Some fence) pending res event => AutoResolvePending actor now fence pending res event
  | CResolveTo None pending res event => ManualResolvePending actor now pending res event
  | CSettle (Some fence) outcome from to event => AutoSettleOutcome actor now fence outcome from to event
  | CSettle None outcome from to event => ManualSettleOutcome actor now outcome from to event
  end.

(** A single UPDATE outside a transaction: its answer may be lost as well. *)
Definition autocommit {A} (f : fate) (fn : txM A) (db : evm_db) : evm_db * result evm_error A :=
  match f with
  | FailedBefore => (db, Err ErrDB)
  | _ =>
    match fn db with
    | Err e => (db, Err e)
    | Ok (db', a) =>
      match f with
      | UnknownApplied => (db', Err ErrDB)
      | UnknownLost => (db, Err ErrDB)
      | _ => (db', Ok a)
      end
    end
  end.

Definition run (f : fate) (actor : string) (now : Z) (c : evm_call) (db : evm_db) : evm_db * result evm_error unit :=
  match c with
  | CRenew _ _ | CRelease _ => autocommit f (exec_call actor now c) db
  | _ => txn f (exec_call actor now c) db
  end.

(** [recordPendingEvmTx] builds both records from one signed transaction. *)
Definition call_ok (c : evm_call) : Prop :=
  match c with
  | CRecord _ e p =>
    e_ChainID e = p_ChainID p /\ e_Scope e = p_Scope p /\ e_Operation e = p_Operation p /\
    e_From e = p_From p /\ e_Nonce e = p_Nonce p /\ e_TxHash e = p_TxHash p
  | _ => True
  end.

Inductive evm_steps : nat -> evm_db -> evm_db -> Prop :=
| steps_refl db : evm_steps 0 db db
| steps_call n db db' f actor now c :
    evm_steps n db db' -> call_ok c -> evm_steps (S n) db (run f actor now c db').1.

(** ** The specification *)

Definition pending_row (p : pendingRecord) (r : SignerEvmStateTable) : Prop :=
  ID r = p_ID p /\ TxHash r = p_TxHash p /\ State r = RowPending /\ ChainID r = p_ChainID p /\ Scope r = p_Scope p.
Definition outcome_row (o : outcomeRecord) (r : SignerEvmStateTable) : Prop :=
  ID r = o_ID o /\ key r = (o_ChainID o, o_Scope o, o_Operation o).
Definition new_status (o : option outcomeRecord) : option row_state := (fun x => RowOutcome (o_State x)) <$> o.

(** The row a call takes and the row it leaves in its place. *)
Definition delta_ok (c : evm_call) (o o' : option SignerEvmStateTable) : Prop :=
  match c with
  | CRecord fence _ p =>
    o = None /\ exists row, o' = Some row /\ key row = (p_ChainID p, p_Scope p, p_Operation p) /\
      State row = RowPending /\ TxHash row = p_TxHash p /\ Nonce row = p_Nonce p /\ FromAddress row = p_From p /\
      LeaseEpoch row = f_Epoch fence
  | CMark _ p => exists r, o = Some r /\ pending_row p r /\ o' = Some (set_ambiguous true r)
  | CResolve _ p t =>
    exists r, o = Some r /\ pending_row p r /\
      row_status o' = if bool_decide (t_Kind t = terminalSuccessKeep) then Some (RowOutcome evmOutcomeSucceeded) else None
  | CConsume _ oc => exists r, o = Some r /\ outcome_row oc r /\ State r = RowOutcome evmOutcomeSucceeded /\ o' = None
  | CResolveTo _ p res _ => exists r, o = Some r /\ pending_row p r /\ row_status o' = new_status res
  | CSettle _ oc from to _ =>
    exists r s, o = Some r /\ outcome_row oc r /\ State r = RowOutcome s /\ s ∈ from /\ row_status o' = new_status to
  | _ => o = None /\ o' = None
  end.

Definition call_fence (c : evm_call) : option evmFence :=
  match c with
  | CRecord f _ _ | CMark f _ | CResolve f _ _ | CConsume f _ => Some f
  | CAudit f _ _ | CResolveTo f _ _ _ | CSettle f _ _ _ _ => f
  | CAcquire _ _ _ | CRenew _ _ | CRelease _ => None
  end.

Definition call_chain (c : evm_call) : string :=
  match c with
  | CAcquire chainID _ _ => chainID
  | CRenew f _ | CRelease f => f_ChainID f
  | CRecord _ _ p | CMark _ p | CResolve _ p _ | CResolveTo _ p _ _ => p_ChainID p
  | CConsume _ o | CSettle _ o _ _ _ => o_ChainID o
  | CAudit _ chainID _ => chainID
  end.

(** The names and hashes of its audit rows. *)
Definition call_events (c : evm_call) : list (evmAuditName * Hash) :=
  match c with
  | CAcquire _ _ _ => [(evmAuditLeaseAcquired, zeroHash)]
  | CRenew _ _ | CRelease _ => []
  | CRecord _ _ p => [(evmAuditRecorded, p_TxHash p)]
  | CMark _ p => [(evmAuditMarkedAmbiguous, p_TxHash p)]
  | CResolve _ p t => (fun nm => (nm, p_TxHash p)) <$> auditEvents (t_Kind t)
  | CConsume _ o => [(evmAuditOutcomeConsumed, o_TxHash o)]
  | CAudit _ _ e | CResolveTo _ _ _ e | CSettle _ _ _ _ e => [(a_Event e, a_TxHash e)]
  end.

Definition fence_epoch (c : evm_call) : Z := default 0 (f_Epoch <$> call_fence c).

Definition audit_row (chain : string) (ep : Z) (r : SignerEvmAuditTable) (e : evmAuditName * Hash) : Prop :=
  au_ChainID r = chain /\ au_LeaseEpoch r = ep /\ a_Event (au_Event r) = e.1 /\ a_TxHash (au_Event r) = e.2.

(** The audit rows: the call's events, on its chain and under its fence's epoch. *)
Definition audits_ok (c : evm_call) (l : list SignerEvmAuditTable) : Prop :=
  match c with
  | CAcquire chainID _ _ => l = [] \/ exists e, l = [e] /\ au_ChainID e = chainID /\ a_Event (au_Event e) = evmAuditLeaseAcquired
  | _ => Forall2 (audit_row (call_chain c) (fence_epoch c)) l (call_events c)
  end.

Definition lease_call (c : evm_call) : bool :=
  match c with CAcquire _ _ _ | CRenew _ _ | CRelease _ => true | _ => false end.

Record effect (now : Z) (c : evm_call) (db db' : evm_db) : Prop := {
  ef_rows : exists o o', rows_change db db' o o' /\ delta_ok c o o';
  ef_signed : signed_change db db';
  ef_audits : exists l, audits db' = audits db ++ l /\ audits_ok c l;
  ef_leases : lease_call c = false -> leases db' = leases db;
  ef_fence : forall f, call_fence c = Some f -> held now f db
}.

(** ** Statements inside transactions *)

Lemma lockPending_ok p db db' u :
  db_wf db -> lockPending p db = Ok (db', u) -> db' = db /\ exists r, states db !! p_ID p = Some r /\ pending_row p r.
Proof.
  intros W E. unfold lockPending in E. tx_step E.
  destruct (select_states _ db) as [|r l] eqn:Hs; [discriminate E|].
  destruct (Z.eqb_spec (ID r) (p_ID p)) as [H1|]; cbn in E; [|discriminate E].
  destruct (Z.eqb_spec (TxHash r) (p_TxHash p)) as [H2|]; cbn in E; [|discriminate E].
  apply ret_ok in E as [-> _]. split; [done|].
  match type of Hs with select_states ?P db = _ => assert (r ∈ select_states P db) as Hin by (rewrite Hs; left) end.
  apply elem_of_select in Hin as [[[Hp%bool_decide_eq_true Hc%bool_decide_eq_true]%andb_prop Hsc%bool_decide_eq_true]%andb_prop [i Hi]].
  exists r. destruct (wf_ids _ W _ _ Hi) as [Hid _]. split; [congruence|by split_and!].
Qed.

Lemma lockEvidence_ok i db db' u : lockEvidence i db = Ok (db', u) -> db' = db.
Proof. unfold lockEvidence. intros E. tx_step E. destruct (signed db !! i); by tx_step E. Qed.

Lemma one_row_ok n db db' u : one_row n db = Ok (db', u) -> db' = db /\ n = 1%nat.
Proof. unfold one_row. case_bool_decide; intros E; [by apply ret_ok in E as [-> _]|discriminate E]. Qed.

Lemma update_state_ok i P upd db db' n :
  update_state i P upd db = Ok (db', n) ->
  (exists r, states db !! i = Some r /\ P r = true /\ n = 1%nat /\
     db' = set_states (<[i := upd r]> (states db)) (next_state db) db) \/ n = 0%nat /\ db' = db.
Proof.
  unfold update_state. destruct (states db !! i) as [r|]; [|intros [= <- <-]; by right].
  destruct (P r) eqn:HP; [|intros [= <- <-]; by right]. destruct (duplicate _ _); [done|]. intros [= <- <-]. left. eauto.
Qed.

Lemma delete_state_ok i P db db' n :
  delete_state i P db = Ok (db', n) ->
  (exists r, states db !! i = Some r /\ P r = true /\ n = 1%nat /\
     db' = set_states (delete i (states db)) (next_state db) db) \/ n = 0%nat /\ db' = db.
Proof.
  unfold delete_state. destruct (states db !! i) as [r|]; [|intros [= <- <-]; by right].
  destruct (P r) eqn:HP; intros [= <- <-]; [left; eauto|by right].
Qed.

(** A state update or deletion, with the audit rows [l] after it. *)
Lemma update_change db i r r' l :
  states db !! i = Some r -> same_tx r' r -> State r' = State r \/ State r' <> RowPending ->
  rows_change db (with_audits l (set_states (<[i := r']> (states db)) (next_state db) db)) (Some r) (Some r').
Proof. intros. by eapply rows_update. Qed.

Lemma delete_change db i r l :
  states db !! i = Some r ->
  rows_change db (with_audits l (set_states (delete i (states db)) (next_state db) db)) (Some r) None.
Proof. intros. by eapply rows_delete. Qed.

Lemma insertAudit_events actor chain ep ev db db' u :
  insertAudit actor chain ep ev db = Ok (db', u) ->
  exists l, db' = with_audits l db /\
    Forall2 (audit_row chain ep) l [(a_Event ev, a_TxHash ev)].
Proof.
  intros (e & He & Ht & _ & ->)%insertAudit_ok. eexists. split; [done|]. constructor; [by split_and!|constructor].
Qed.

Lemma insert_audits_events actor chain ep evs db db' u :
  insert_audits actor chain ep evs db = Ok (db', u) ->
  exists l, db' = with_audits l db /\
    Forall2 (audit_row chain ep) l ((fun ev => (a_Event ev, a_TxHash ev)) <$> evs).
Proof.
  revert db. induction evs as [|e evs IH]; cbn; intros db E.
  - apply ret_ok in E as [-> _]. exists []. split; [|constructor]. unfold with_audits. rewrite app_nil_r. by destruct db.
  - tx_step E. apply insertAudit_events in E0 as (l1 & -> & H1). apply IH in E as (l2 & -> & H2). exists (l1 ++ l2).
    split; [unfold with_audits; cbn; by rewrite app_assoc|].
    change (Forall2 (audit_row chain ep) (l1 ++ l2)
      ([(a_Event e, a_TxHash e)] ++ ((fun ev => (a_Event ev, a_TxHash ev)) <$> evs))). by apply Forall2_app.
Qed.

Lemma by_hash_some db c h e :
  GetSignedTxByHash db c h = Some e -> (exists i, signed db !! i = Some e) /\ e_ChainID e = c /\ e_TxHash e = h.
Proof.
  unfold GetSignedTxByHash. intros Hh. 
  assert (e ∈ select_signed (fun e => bool_decide (e_ChainID e = c) && (e_TxHash e =? h)) db) as Hin.
  { destruct (select_signed _ db); [done|]. injection Hh as ->. left. }
  by apply elem_of_select_signed in Hin as [[?%bool_decide_eq_true ?%Z.eqb_eq]%andb_prop ?].
Qed.

Lemma by_hash_none db c h i e :
  GetSignedTxByHash db c h = None -> signed db !! i = Some e -> ~ (e_ChainID e = c /\ e_TxHash e = h).
Proof.
  unfold GetSignedTxByHash. intros Hh Hi [Hc Ht].
  assert (e ∈ select_signed (fun e => bool_decide (e_ChainID e = c) && (e_TxHash e =? h)) db) as Hin.
  { apply elem_of_select_signed. rewrite bool_decide_true, Ht, Z.eqb_refl by done. eauto. }
  destruct (select_signed _ db); [by apply not_elem_of_nil in Hin|done].
Qed.

Lemma sameEvidence_fields a b :
  sameEvidence a b = true ->
  e_ChainID a = e_ChainID b /\ e_Scope a = e_Scope b /\ e_Operation a = e_Operation b /\ e_From a = e_From b /\
  e_Nonce a = e_Nonce b /\ e_TxHash a = e_TxHash b.
Proof.
  unfold sameEvidence. intros H. repeat (apply andb_prop in H as [H ?]).
  repeat match goal with H : bool_decide _ = true |- _ => apply bool_decide_eq_true in H | H : (_ =? _) = true |- _ => apply Z.eqb_eq in H end.
  by split_and!.
Qed.

Lemma record_evidence_ok ep ev db db' id :
  db_wf db -> record_evidence ep ev db = Ok (db', id) ->
  signed_change db db' /\ states db' = states db /\ next_state db' = next_state db /\ leases db' = leases db /\
  audits db' = audits db /\ exists e, signed db' !! id = Some e /\ e_ChainID e = e_ChainID ev /\ e_Scope e = e_Scope ev /\
    e_Operation e = e_Operation ev /\ e_From e = e_From ev /\ e_Nonce e = e_Nonce ev /\ e_TxHash e = e_TxHash ev.
Proof.
  intros W E. unfold record_evidence in E. tx_step E.
  destruct (GetSignedTxByHash db _ _) as [ex|] eqn:Hg.
  - apply by_hash_some in Hg as ([i Hi] & _ & _). destruct (sameEvidence ex ev) eqn:Hs; cbn in E; tx_step E.
    split_and!; [by apply signed_same|done..|]. exists ex. split; [|by apply sameEvidence_fields].
    destruct (wf_tx_ids _ W _ _ Hi) as [-> _]. done.
  - unfold insert_signed in E. destruct (existsb _ _); [discriminate E|]. injection E as <- <-.
    split_and!; [|done..|].
    + eapply signed_insert; [..|reflexivity|reflexivity]; [done|]. intros i e' Hi. by eapply by_hash_none.
    + eexists. split; [apply lookup_insert_eq|]. done.
Qed.

Lemma insert_state_ok mk db db' id :
  insert_state mk db = Ok (db', id) ->
  id = next_state db /\ duplicate db (mk id) = false /\ is_Some (signed db !! SignedTxID (mk id)) /\
  db' = set_states (<[id := mk id]> (states db)) (id + 1) db.
Proof.
  unfold insert_state. destruct (duplicate _ _) eqn:Hd; [done|]. destruct (signed db !! _) eqn:Hs; [|done].
  intros [= <- <-]. split_and!; eauto.
Qed.

(** The two checks of [Record_] leave no row that clashes with the new pending row. *)
Lemma no_clash db row :
  db_wf db -> ID row = next_state db -> State row = RowPending -> duplicate db row = false ->
  select_states (fun r => negb (is_pending r) && bool_decide (ChainID r = ChainID row) &&
                          bool_decide (Scope r = Scope row) && (Operation r =? Operation row)) db = [] ->
  forall i r, states db !! i = Some r -> ~ clash r row.
Proof.
  intros W Hid Hp Hd Ha i r Hi (Hc & Hs & Hop). destruct (is_pending r) eqn:Hr.
  - assert (i <> ID row) as Hne by (destruct (wf_ids _ W _ _ Hi); lia).
    pose proof (proj1 (duplicate_false _ _) Hd i r Hi Hne) as Hk. unfold same_key in Hk.
    rewrite Hr, Hc, Hs, !bool_decide_true in Hk by done. unfold is_pending in Hk. by rewrite Hp in Hk.
  - pose proof (select_nil _ _ _ _ Ha Hi) as Hn. cbn in Hn.
    destruct Hop as [Ho|[Hst _]]; [|unfold is_pending in Hr; by rewrite Hst in Hr].
    rewrite Hr, Hc, Hs, Ho, !bool_decide_true, Z.eqb_refl in Hn by done. done.
Qed.

(** ** Every call meets its specification *)

(** Replaces the steps that only check by what they check. *)
Ltac tx_facts W :=
  repeat match goal with
  | H : fenceCheck _ _ _ = Ok _ |- _ => apply fenceCheck_ok in H as [-> ?]
  | H : fence_opt _ _ _ = Ok _ |- _ => apply fence_opt_ok in H as [-> ?]
  | H : lockPending _ _ = Ok _ |- _ => apply lockPending_ok in H as [-> (? & ? & ?)]; [|exact W]
  | H : lockEvidence _ _ = Ok _ |- _ => apply lockEvidence_ok in H as ->
  | H : one_row _ _ = Ok _ |- _ => apply one_row_ok in H as [-> ->]
  | H : insertAudit _ _ _ _ _ = Ok _ |- _ => apply insertAudit_events in H as (? & -> & ?)
  | H : insert_audits _ _ _ _ _ = Ok _ |- _ => apply insert_audits_events in H as (? & -> & ?)
  | H : update_state _ _ _ _ = Ok (_, 1%nat) |- _ =>
    apply update_state_ok in H as [(? & ? & ? & _ & ->)|[? _]]; [|discriminate]
  | H : delete_state _ _ _ = Ok (_, 1%nat) |- _ =>
    apply delete_state_ok in H as [(? & ? & ? & _ & ->)|[? _]]; [|discriminate]
  end.

Section effects.
Context (actor : string) (now : Z) (db : evm_db) (W : db_wf db).

Lemma effect_update c i r r' l :
  states db !! i = Some r -> same_tx r' r -> State r' = State r \/ State r' <> RowPending ->
  delta_ok c (Some r) (Some r') -> audits_ok c l -> (forall f, call_fence c = Some f -> held now f db) ->
  effect now c db (with_audits l (set_states (<[i := r']> (states db)) (next_state db) db)).
Proof.
  intros Hi Ht Hs Hd Ha Hf. split; [..|done].
  - exists (Some r), (Some r'). split; [by apply update_change|done].
  - by apply signed_same.
  - by exists l.
  - done.
Qed.

Lemma effect_delete c i r l :
  states db !! i = Some r -> delta_ok c (Some r) None -> audits_ok c l ->
  (forall f, call_fence c = Some f -> held now f db) ->
  effect now c db (with_audits l (set_states (delete i (states db)) (next_state db) db)).
Proof.
  intros Hi Hd Ha Hf. split; [..|done].
  - exists (Some r), None. split; [by apply delete_change|done].
  - by apply signed_same.
  - by exists l.
  - done.
Qed.

Lemma mark_effect fence p db' u : MarkAmbiguous actor now fence p db = Ok (db', u) -> effect now (CMark fence p) db db'.
Proof.
  intros E. unfold MarkAmbiguous in E. tx_step E. tx_facts W.
  match goal with Hr : states db !! _ = Some ?r, Hp : pending_row p ?r, Hu : update_state _ _ _ _ = _ |- _ =>
    pose proof Hp as (_ & Ht & _); unfold update_state in Hu; rewrite Hr, Ht, Z.eqb_refl in Hu;
    destruct (duplicate _ _); [discriminate Hu|injection Hu as <- <-];
    apply (effect_update _ _ r); [done|by destruct r|by left|by exists r|done|by intros ? [= <-]]
  end.
Qed.

Lemma resolve_effect fence p t db' u :
  ResolvePending actor now fence p t db = Ok (db', u) -> effect now (CResolve fence p t) db db'.
Proof.
  intros E. unfold ResolvePending in E. tx_step E. tx_facts W.
  match goal with H : Forall2 _ ?l _ |- _ => assert (audits_ok (CResolve fence p t) l) as Ha end.
  { cbn. match goal with H : Forall2 _ _ (_ <$> (_ <$> _)) |- _ => by rewrite <-list_fmap_compose in H end. }
  case_bool_decide as Hk; tx_facts W; simplify_eq.
  - eapply effect_update; [done|by split_and!|by right| |done|by intros ? [= <-]].
    eexists. split_and!; [done..|]. by rewrite bool_decide_true.
  - eapply effect_delete; [done| |done|by intros ? [= <-]].
    eexists. split_and!; [done..|]. by rewrite bool_decide_false.
Qed.

Lemma consume_effect fence o db' u : ConsumeOutcome actor now fence o db = Ok (db', u) -> effect now (CConsume fence o) db db'.
Proof.
  intros E. unfold ConsumeOutcome in E. tx_step E. tx_facts W.
  destruct (states db !! o_ID o) as [r|] eqn:Hr; [|discriminate E].
  case_bool_decide as H1; cbn in E; [|discriminate E]. case_bool_decide as H2; cbn in E; [|discriminate E].
  case_bool_decide as H3; cbn in E; [|discriminate E].
  destruct (Z.eqb_spec (Operation r) (o_Operation o)) as [H4|]; cbn in E; [|discriminate E].
  tx_step E. tx_facts W. simplify_eq. eapply effect_delete; [done| |done|by intros ? [= <-]].
  eexists. split_and!; [done| |done|done]. match goal with H : states db !! _ = Some ?r |- outcome_row _ ?r => destruct (wf_ids _ W _ _ H) as [? _] end.
  split; [done|]. unfold key. congruence.
Qed.

(** The epoch [fence_opt] returned is the call's. *)
Lemma fence_fact (fence : option evmFence) e :
  match fence with Some f => held now f db /\ e = f_Epoch f | None => e = 0 end ->
  e = default 0 (f_Epoch <$> fence) /\ forall f, fence = Some f -> held now f db.
Proof. destruct fence; [intros [? ->]|intros ->]; (split; [done|]); naive_solver. Qed.

Lemma audit_effect fence chain ev db' u : AppendAudit actor now fence chain ev db = Ok (db', u) -> effect now (CAudit fence chain ev) db db'.
Proof.
  intros E. unfold AppendAudit in E. tx_step E. tx_facts W.
  match goal with H : match fence with _ => _ end |- _ => apply fence_fact in H as [-> Hf] end. split; [..|done].
  - exists None, None. split; [by apply rows_same|done].
  - by apply signed_same.
  - by eexists.
  - done.
Qed.

Lemma resolve_to_effect fence p res ev db' u :
  resolvePendingTo actor now fence p res ev db = Ok (db', u) -> effect now (CResolveTo fence p res ev) db db'.
Proof.
  intros E. unfold resolvePendingTo in E. tx_step E. tx_facts W.
  match goal with H : match fence with _ => _ end |- _ => apply fence_fact in H as [-> Hf] end.
  destruct res as [o|].
  - match goal with H : (_ ≫= _) _ = Ok _ |- _ => tx_step H end. tx_facts W. simplify_eq.
    eapply effect_update; [done|by split_and!|by right| |done|done]. eexists. by split_and!.
  - tx_facts W. simplify_eq. eapply effect_delete; [done| |done|done]. eexists. by split_and!.
Qed.

Lemma checkSettleable_ok cur o from :
  checkSettleable cur o from = None ->
  o_ChainID cur = o_ChainID o /\ o_Scope cur = o_Scope o /\ o_Operation cur = o_Operation o /\ o_State cur ∈ from.
Proof.
  unfold checkSettleable. do 2 (case_bool_decide; cbn; [|done]).
  destruct (Z.eqb_spec (o_Operation cur) (o_Operation o)); cbn; [|done].
  destruct (_ || _); [done|]. by case_bool_decide.
Qed.

Lemma settle_effect fence o from to ev db' u :
  settleOutcome actor now fence o from to ev db = Ok (db', u) -> effect now (CSettle fence o from to ev) db db'.
Proof.
  intros E. unfold settleOutcome in E. tx_step E. tx_facts W.
  match goal with H : match fence with _ => _ end |- _ => apply fence_fact in H as [-> Hf] end.
  destruct (states db !! o_ID o) as [r|] eqn:Hr; [|discriminate E]. cbn in E.
  destruct (negb (is_pending r) && _) eqn:Hg; [|discriminate E].
  unfold outcomeFromRow in E. destruct (State r) as [|s] eqn:Hs; [discriminate E|]. cbn in E.
  destruct (checkSettleable _ o from) eqn:Hc; [discriminate E|]. apply checkSettleable_ok in Hc as (H1 & H2 & H3 & H4).
  cbn in *. tx_step E. tx_facts W.
  assert (outcome_row o r) as Ho.
  { destruct (wf_ids _ W _ _ Hr) as [? _]. split; [done|]. unfold key. congruence. }
  destruct to as [t|].
  - match goal with H : (_ ≫= _) _ = Ok _ |- _ => tx_step H end. tx_facts W. simplify_eq.
    eapply effect_update; [done|by split_and!|by right| |done|done]. eexists _, _. by split_and!.
  - tx_facts W. simplify_eq. eapply effect_delete; [done| |done|done]. eexists _, _. by split_and!.
Qed.

Lemma record_effect fence ev p db' p' :
  call_ok (CRecord fence ev p) -> Record_ actor now fence ev p db = Ok (db', p') -> effect now (CRecord fence ev p) db db'.
Proof.
  intros (Hc & Hs & Ho & Hf & Hn & Ht) E. unfold Record_ in E. tx_step E. tx_facts W.
  case_bool_decide as Ha; cbn in E; [|discriminate E].
  tx_step E. tx_facts W.
  match goal with H : record_evidence _ _ _ = Ok _ |- _ =>
    apply record_evidence_ok in H as (Hsg & Hst & Hnx & Hle & Hau & e & He & Hc' & Hs' & Ho' & Hf' & Hn' & Ht'); [|done] end.
  match goal with H : insert_state _ _ = Ok _ |- _ => apply insert_state_ok in H as (-> & Hd & _ & ->) end.
  set (row := mkRow _ _ _ _ _ _ _ _ _ _ _ _ _ _ _ _ _) in *.
  split; [..|done|by intros ? [= <-]].
  - exists None, (Some row). split; [eapply (rows_insert _ _ row e)|].
    + cbn. congruence.
    + done.
    + done.
    + split_and!; cbn; congruence.
    + eapply no_clash; [done|cbn; congruence|done| |exact Ha].
      unfold duplicate in *. by rewrite Hst in Hd.
    + cbn. congruence.
    + cbn. congruence.
    + split; [done|]. by exists row.
  - destruct Hsg as [H1 H2|e' H1 H2 H3 H4]; [by apply signed_same|by eapply (signed_insert _ _ e')].
  - eexists. split; [cbn; by rewrite Hau|done].
Qed.
End effects.

(** The lease calls touch the lease table and the audit table only. *)
Lemma acquire_ok actor now chain owner ttl db db' r :
  AcquireLease actor now chain owner ttl db = Ok (db', r) ->
  signed db' = signed db /\ next_tx db' = next_tx db /\ states db' = states db /\ next_state db' = next_state db /\
  exists l, l = default (mkLease "" 0 longAgo) (leases db !! chain) /\
  (if negb (l_ExpiresAt l <? now) && negb (bool_decide (l_Owner l = owner))
   then r = (0, false) /\ leases db' = <[chain := l]> (leases db) /\ audits db' = audits db
   else r = (uwrap 64 (l_Epoch l + 1), true) /\
     leases db' = <[chain := mkLease owner (uwrap 64 (l_Epoch l + 1)) (now + ttl)]> (leases db) /\
     exists e, audits db' = audits db ++ [e] /\ au_ChainID e = chain /\ a_Event (au_Event e) = evmAuditLeaseAcquired).
Proof.
  unfold AcquireLease. intros E. tx_step E. match goal with H : Ok _ = Ok _ |- _ => injection H as <- _ end.
  destruct (leases db !! chain) as [l|] eqn:Hl.
  - rewrite Hl in E. cbn [default].
    destruct (negb (l_ExpiresAt l <? now) && _) eqn:Hc; tx_step E.
    + split_and!; [done..|]. exists l. split; [done|]. rewrite Hc. split_and!; [done| |done]. by rewrite insert_id.
    + match goal with H : Ok _ = Ok _ |- _ => injection H as <- _ end.
      match goal with H : insertAudit _ _ _ _ _ = Ok _ |- _ => apply insertAudit_ok in H as (e & He & _ & _ & ->) end.
      split_and!; [done..|]. exists l. split; [done|]. rewrite Hc. split_and!; [done..|]. eexists. by split_and!.
  - cbn [leases set_leases] in E. rewrite lookup_insert_eq in E. cbn [default].
    destruct (negb (l_ExpiresAt (mkLease "" 0 longAgo) <? now) && _) eqn:Hc; tx_step E.
    + split_and!; [done..|]. eexists. split; [done|]. rewrite Hc. by split_and!.
    + match goal with H : Ok _ = Ok _ |- _ => injection H as <- _ end.
      match goal with H : insertAudit _ _ _ _ _ = Ok _ |- _ => apply insertAudit_ok in H as (e & He & _ & _ & ->) end.
      split_and!; [done..|]. eexists. split; [done|]. rewrite Hc. split_and!; [done|cbn; by rewrite insert_insert_eq|].
      eexists. by split_and!.
Qed.

Lemma renew_ok now fence ttl db db' b :
  RenewLease now fence ttl db = Ok (db', b) ->
  (b = true /\ exists l, held now fence db /\ leases db !! f_ChainID fence = Some l /\
    db' = set_leases (<[f_ChainID fence := mkLease (l_Owner l) (l_Epoch l) (now + ttl)]> (leases db)) db) \/
  (b = false /\ ~ held now fence db /\ db' = db).
Proof.
  unfold RenewLease, held. destruct (leases db !! f_ChainID fence) as [l|] eqn:Hl; [|intros [= <- <-]; right; naive_solver].
  destruct (bool_decide_reflect (l_Owner l = f_Owner fence)) as [H1|H1]; cbn; [|intros [= <- <-]; right; naive_solver].
  destruct (Z.eqb_spec (l_Epoch l) (f_Epoch fence)) as [H2|H2]; cbn; [|intros [= <- <-]; right; naive_solver].
  destruct (Z.gtb_spec (l_ExpiresAt l) now) as [H3|H3]; intros [= <- <-].
  - left. split; [done|]. exists l. split_and!; [|done..]. exists l. by split_and!; [..|lia].
  - right. split_and!; [done| |done]. intros (? & [= <-] & _ & _ & ?). lia.
Qed.

Lemma release_ok fence db db' u :
  ReleaseLease fence db = Ok (db', u) ->
  (exists l, leases db !! f_ChainID fence = Some l /\ l_Owner l = f_Owner fence /\ l_Epoch l = f_Epoch fence /\
    db' = set_leases (<[f_ChainID fence := mkLease (l_Owner l) (l_Epoch l) longAgo]> (leases db)) db) \/ db' = db.
Proof.
  unfold ReleaseLease. destruct (leases db !! f_ChainID fence) as [l|] eqn:Hl; [|intros [= <- _]; by right].
  destruct (bool_decide_reflect (l_Owner l = f_Owner fence)) as [H1|H1]; cbn; [|intros [= <- _]; by right].
  destruct (Z.eqb_spec (l_Epoch l) (f_Epoch fence)) as [H2|H2]; intros [= <- _]; [|by right]. left. eauto 6.
Qed.

(** A call that touches no transaction row. *)
Lemma lease_effect now c db db' :
  lease_call c = true -> signed db' = signed db -> next_tx db' = next_tx db -> states db' = states db ->
  next_state db' = next_state db -> (exists l, audits db' = audits db ++ l /\ audits_ok c l) -> effect now c db db'.
Proof.
  intros Hc ? ? ? ? Ha. split.
  - exists None, None. split; [by apply rows_same|by destruct c].
  - by apply signed_same.
  - done.
  - by rewrite Hc.
  - by destruct c.
Qed.

Lemma exec_call_effect actor now c db db' u :
  db_wf db -> call_ok c -> exec_call actor now c db = Ok (db', u) -> effect now c db db'.
Proof.
  intros W Hok E. destruct c as [chain owner ttl|f ttl|f|f ev p|f p|f p t|f o|f chain ev|f p res ev|f o from to ev];
    cbn in E; tx_step E.
  - match goal with H : AcquireLease _ _ _ _ _ _ = _ |- _ => apply acquire_ok in H as (?&?&?&?&l&_&Hl) end.
    apply lease_effect; [done..|]. destruct (_ && _).
    + exists []. rewrite app_nil_r. naive_solver.
    + destruct Hl as (_ & _ & e & ? & ? & ?). exists [e]. split; [done|]. right. by exists e.
  - match goal with H : RenewLease _ _ _ _ = _ |- _ => apply renew_ok in H as [(_ & l & _ & _ & ->)|(_ & _ & ->)] end;
      (apply lease_effect; [done..|]; exists []; rewrite app_nil_r; split; [done|constructor]).
  - apply release_ok in E as [(l & _ & _ & _ & ->)| ->];
      (apply lease_effect; [done..|]; exists []; rewrite app_nil_r; split; [done|constructor]).
  - by eapply record_effect.
  - by eapply mark_effect.
  - by eapply resolve_effect.
  - by eapply consume_effect.
  - by eapply audit_effect.
  - destruct f; by eapply resolve_to_effect.
  - destruct f; by eapply settle_effect.
Qed.

(** Whatever the fate, a call leaves the database as it was or as its execution leaves it. *)
Lemma run_cases f actor now c db :
  (run f actor now c db).1 = db \/ exists db' u, exec_call actor now c db = Ok (db', u) /\ (run f actor now c db).1 = db'.
Proof.
  unfold run, txn, autocommit.
  destruct c, f; try (by left); destruct (exec_call _ _ _ db) as [[db' u]|e]; cbn; eauto.
Qed.

Lemma effect_wf now c db db' : db_wf db -> effect now c db db' -> db_wf db'.
Proof. intros W [(o & o' & Hr & _) Hs _ _ _]. by eapply change_wf. Qed.

Lemma run_wf f actor now c db : db_wf db -> call_ok c -> db_wf (run f actor now c db).1.
Proof.
  intros W Hok. destruct (run_cases f actor now c db) as [-> |(db' & u & E & ->)]; [done|].
  by eapply effect_wf, exec_call_effect.
Qed.

Lemma steps_wf n db db' : evm_steps n db db' -> db_wf db -> db_wf db'.
Proof. induction 1; eauto using run_wf. Qed.

Lemma exec_call_fence actor now c fence db :
  call_fence c = Some fence -> ~ held now fence db -> exec_call actor now c db = Err errEvmLeaseNotHeld.
Proof.
  intros Hc Hn. assert (fenceCheck now fence db = Err errEvmLeaseNotHeld) as E by (destruct (fenceCheck_held now fence db) as [[_ ?]|[? _]]; done).
  destruct c as [| | |f ev p|f p|f p t|f o|f chain ev|f p res ev|f o from to ev]; try discriminate Hc; simplify_eq/=;
    cbn; unfold Record_, MarkAmbiguous, ResolvePending, ConsumeOutcome, AppendAudit, AutoResolvePending,
      resolvePendingTo, AutoSettleOutcome, settleOutcome, fence_opt, mbind, txM_bind; cbn; by rewrite E.
Qed.
