(* ===== verification/EvmProps.v ===== *)
(** Properties of the EVM state store: at most one live transaction per operation and
    scope, fencing by lease epochs, and exactness of recording and resolving.
    The witnesses run the store on a concrete lease and transaction. *)
From Stdlib Require Import ZArith Lia.
From stdpp Require Import base gmap list strings sorting.
From S2P Require Import Prelude Sql EvmState EvmStore EvmInv EvmSpec.

Local Open Scope Z_scope.

(** ** Leases over time *)

Definition lease_of (db : evm_db) (chain : string) : SignerEvmLeaseTable :=
  default (mkLease "" 0 longAgo) (leases db !! chain).

(** One call moves the epoch of a chain's lease by at most one, and changes the owner
    only together with the epoch. *)
Lemma run_lease f actor now c db chain :
  db_wf db -> call_ok c -> 0 <= l_Epoch (lease_of db chain) < MaxUint64 ->
  let l := lease_of db chain in let l' := lease_of (run f actor now c db).1 chain in
  l_Epoch l' = l_Epoch l /\ l_Owner l' = l_Owner l \/ l_Epoch l' = l_Epoch l + 1.
Proof.
  intros W Hok Hb. cbn. destruct (run_cases f actor now c db) as [-> |(db' & u & E & ->)]; [by left|].
  assert (leases db' = leases db -> l_Epoch (lease_of db' chain) = l_Epoch (lease_of db chain) /\
            l_Owner (lease_of db' chain) = l_Owner (lease_of db chain)) as Hsame.
  { intros H. unfold lease_of. by rewrite H. }
  destruct (lease_call c) eqn:Hc.
  2: { left. apply Hsame. apply (ef_leases now c db db'); [by eapply exec_call_effect|done]. }
  destruct c as [ch owner ttl|f0 ttl|f0| | | | | | |]; try discriminate Hc; cbn in E; tx_step E.
  - match goal with H : AcquireLease _ _ _ _ _ _ = _ |- _ => apply acquire_ok in H as (_&_&_&_&l&Hl&Hx) end.
    unfold lease_of in Hb |- *. destruct (decide (ch = chain)) as [->|Hne].
    + rewrite <-Hl in Hb |- *. destruct (_ && _); destruct Hx as (_ & -> & _); rewrite lookup_insert_eq; cbn; [by left|right].
      apply uint64_wrap_id; go_lia.
    + left. destruct (_ && _); destruct Hx as (_ & -> & _); by rewrite lookup_insert_ne.
  - match goal with H : RenewLease _ _ _ _ = _ |- _ => apply renew_ok in H as [(_ & l & _ & Hl & ->)|(_ & _ & ->)] end; [|by left].
    left. unfold lease_of. cbn. destruct (decide (f_ChainID f0 = chain)) as [<-|Hne].
    + by rewrite lookup_insert_eq, Hl.
    + by rewrite lookup_insert_ne.
  - apply release_ok in E as [(l & Hl & _ & _ & ->)| ->]; [|by left].
    left. unfold lease_of. cbn. destruct (decide (f_ChainID f0 = chain)) as [<-|Hne].
    + by rewrite lookup_insert_eq, Hl.
    + by rewrite lookup_insert_ne.
Qed.

(** Over [n] calls the epoch grows by at most [n], and the owner of an epoch is fixed. *)
Lemma steps_lease n db db' chain :
  evm_steps n db db' -> db_wf db -> 0 <= l_Epoch (lease_of db chain) -> l_Epoch (lease_of db chain) + Z.of_nat n <= MaxUint64 ->
  l_Epoch (lease_of db chain) <= l_Epoch (lease_of db' chain) <= l_Epoch (lease_of db chain) + Z.of_nat n /\
  (l_Epoch (lease_of db' chain) = l_Epoch (lease_of db chain) ->
   l_Owner (lease_of db' chain) = l_Owner (lease_of db chain)).
Proof.
  intros H W H0. induction H as [|n db db' f actor now c Hs IH Hok]; intros Hb; [split; [lia|done]|].
  destruct IH as [IH1 IH2]; [done..|lia|].
  destruct (run_lease f actor now c db' chain (steps_wf _ _ _ Hs W) Hok) as [[-> ->]| ->]; [lia|split; [lia|done]|split; lia].
Qed.

Lemma held_lease now f db : held now f db -> l_Owner (lease_of db (f_ChainID f)) = f_Owner f /\ l_Epoch (lease_of db (f_ChainID f)) = f_Epoch f.
Proof. unfold lease_of. by intros (l & -> & Ho & He & _). Qed.

Lemma run_unheld f actor now c fence db :
  call_fence c = Some fence -> ~ held now fence db ->
  run f actor now c db = (db, Err (if bool_decide (f = FailedBefore) then ErrDB else errEvmLeaseNotHeld)).
Proof.
  intros Hc Hn. pose proof (exec_call_fence actor now c fence db Hc Hn) as E.
  unfold run, txn. destruct c; try discriminate Hc; destruct f; rewrite ?E; done.
Qed.

(** ** A concrete run *)

Definition ev1 : signedTxEvidence := mkEvidence 0 "moca" 222888 "operator" 77 5 9 1001 [] 100 0.
Definition p1 : pendingRecord := mkPending 0 "moca" 0 "operator" 5 9 1001 77 false 0.
Definition fence1 : evmFence := mkFence "moca" "A" 1.
Definition keep1 : pendingTerminal := mkTerminal terminalSuccessKeep (Some 1) 120 "" "resolve".

(** Signer A takes the lease and records its transaction. *)
Definition db_leased : evm_db := (run Committed "a" 2000000 (CAcquire "moca" "A" 1000000) empty_db).1.
Definition db_recorded : evm_db := (run Committed "a" 2100000 (CRecord fence1 ev1 p1) db_leased).1.
Definition p1' : pendingRecord := mkPending 1 "moca" 1 "operator" 5 9 1001 77 false 1.

Lemma db_leased_steps : evm_steps 1 empty_db db_leased.
Proof. apply steps_call; [constructor|done]. Qed.
Lemma db_recorded_steps : evm_steps 2 empty_db db_recorded.
Proof. apply steps_call; [exact db_leased_steps|by split_and!]. Qed.
Lemma db_leased_wf : db_wf db_leased.
Proof. exact (steps_wf _ _ _ db_leased_steps empty_db_wf). Qed.
Lemma db_recorded_wf : db_wf db_recorded.
Proof. exact (steps_wf _ _ _ db_recorded_steps empty_db_wf). Qed.

(** ** Refinement *)

(** C12: every successful call of the store, in every reachable state, is one move of the
    abstract machine: the operation of the row it takes goes from that row's status to
    the status [delta_ok] allows for the call ([None]: free, pending, or an outcome), every
    other operation keeps its status, and the call's audit rows are written. *)
Theorem store_refines_status_machine n db actor now c db' u :
  evm_steps n empty_db db -> call_ok c -> exec_call actor now c db = Ok (db', u) ->
  exists o o' l, delta_ok c o o' /\ audits db' = audits db ++ l /\ audits_ok c l /\
    forall k, if on_key o o' k then status db k = row_status o /\ status db' k = row_status o'
              else status db' k = status db k.
Proof.
  intros Hs Hok E. pose proof (steps_wf _ _ _ Hs empty_db_wf) as W.
  destruct (exec_call_effect _ _ _ _ _ _ W Hok E) as [(o & o' & Hr & Hd) Hsg (l & Hl & Ha) _ _].
  exists o, o', l. split_and!; [done..|]. intros k. apply rows_change_status; [done|by eapply change_wf|done].
Qed.

Lemma store_refines_status_machine_witness :
  status db_recorded ("moca", "operator", 77)%string = Some RowPending /\
  exists db' u, exec_call "a" 2200000 (CResolve fence1 p1' keep1) db_recorded = Ok (db', u) /\
    exists o o' l, delta_ok (CResolve fence1 p1' keep1) o o' /\ audits db' = audits db_recorded ++ l /\
    audits_ok (CResolve fence1 p1' keep1) l /\
    forall k, if on_key o o' k then status db_recorded k = row_status o /\ status db' k = row_status o'
              else status db' k = status db_recorded k.
Proof.
  split; [vm_compute; reflexivity|]. eexists _, tt. split; [vm_compute; reflexivity|].
  eapply (store_refines_status_machine 2 _ "a" 2200000); [exact db_recorded_steps|exact I|vm_compute; reflexivity].
Defined.

(** C7: in every reachable state, an operation of a scope has at most one row, pending or
    outcome, a scope has at most one pending row, and each row refers to stored evidence
    of the same chain, scope, operation, sender, nonce and hash; so no two transactions of
    one operation, and no two unresolved transactions of one scope, are ever live. *)
Theorem one_live_transaction n db :
  evm_steps n empty_db db ->
  (forall i j r r', states db !! i = Some r -> states db !! j = Some r' ->
     ChainID r = ChainID r' -> Scope r = Scope r' ->
     Operation r = Operation r' \/ State r = RowPending /\ State r' = RowPending -> i = j) /\
  (forall i r, states db !! i = Some r -> exists e, GetSignedTx db (SignedTxID r) = Some e /\ backed e r).
Proof.
  intros Hs. pose proof (steps_wf _ _ _ Hs empty_db_wf) as W. split; [|exact (wf_backed _ W)].
  intros i j r r' Hi Hj ? ? ?. eapply (wf_active _ W); [done..|by split_and!].
Qed.

Lemma one_live_transaction_witness :
  is_Some (states db_recorded !! 1) /\
  (forall i r, states db_recorded !! i = Some r -> exists e, GetSignedTx db_recorded (SignedTxID r) = Some e /\ backed e r).
Proof. split; [vm_compute; eauto|]. exact (proj2 (one_live_transaction 2 db_recorded db_recorded_steps)). Defined.

(** The evidence and audit tables only grow: over any sequence of calls with any
    failures, every stored signed transaction keeps its id and contents, and the audit
    log keeps its rows in order. *)
Theorem evidence_and_audit_append_only n db db' :
  evm_steps n db db' -> db_wf db -> signed db ⊆ signed db' /\ exists l, audits db' = audits db ++ l.
Proof.
  intros H W. induction H as [|n db db' f actor now c Hs IH Hok]; [split; [done|exists []; by rewrite app_nil_r]|].
  destruct (IH W) as [Hsub [l Hl]]. pose proof (steps_wf _ _ _ Hs W) as W'.
  destruct (run_cases f actor now c db') as [-> |(db'' & u & E & ->)]; [by eauto|].
  destruct (exec_call_effect _ _ _ _ _ _ W' Hok E) as [_ Hsg (l' & Hl' & _) _ _]. split.
  - etrans; [done|]. by eapply signed_change_sub.
  - exists (l ++ l'). by rewrite Hl', Hl, app_assoc.
Qed.

Lemma evidence_and_audit_append_only_witness :
  signed db_leased ⊆ signed db_recorded /\ exists l, audits db_recorded = audits db_leased ++ l.
Proof.
  apply (evidence_and_audit_append_only 1); [|exact db_leased_wf]. apply steps_call; [constructor|by split_and!].
Defined.

(** ** Fencing *)

(** A fenced call whose fence is not the live lease of its chain (owner, epoch and
    expiry) changes nothing and is refused with [errEvmLeaseNotHeld], unless the
    connection failed first. *)
Theorem fenced_call_needs_the_lease f actor now c fence db :
  call_fence c = Some fence -> ~ held now fence db ->
  run f actor now c db = (db, Err (if bool_decide (f = FailedBefore) then ErrDB else errEvmLeaseNotHeld)).
Proof. apply run_unheld. Qed.

Lemma fenced_call_needs_the_lease_witness :
  run Committed "a" 3000000 (CRecord fence1 ev1 p1) db_leased = (db_leased, Err errEvmLeaseNotHeld).
Proof.
  apply (fenced_call_needs_the_lease Committed "a" 3000000 (CRecord fence1 ev1 p1) fence1); [reflexivity|].
  intros (l & Hl & _ & _ & Hlt). vm_compute in Hl. injection Hl as <-. cbn in Hlt. lia.
Defined.

(** C16: a lost lease is lost for good: once the chain's lease has a later epoch than a
    fence, or another owner in that epoch, every call under the fence is refused and
    changes nothing, after any number of further calls by anyone (within the 2^64 epochs). *)
Theorem stale_fence_refused_forever n db db' f actor now c fence :
  db_wf db -> call_fence c = Some fence ->
  (let l := lease_of db (f_ChainID fence) in
   0 <= f_Epoch fence /\ (f_Epoch fence < l_Epoch l \/ f_Epoch fence = l_Epoch l /\ l_Owner l <> f_Owner fence)) ->
  evm_steps n db db' -> l_Epoch (lease_of db (f_ChainID fence)) + Z.of_nat n <= MaxUint64 ->
  run f actor now c db' = (db', Err (if bool_decide (f = FailedBefore) then ErrDB else errEvmLeaseNotHeld)).
Proof.
  cbn. intros W Hc [H0 Hst] Hs Hb. apply (run_unheld f actor now c fence); [done|].
  intros [Ho He]%held_lease. destruct (steps_lease _ _ _ (f_ChainID fence) Hs W) as [H1 H2]; [lia|done|].
  destruct Hst as [?|[? Hne]]; [lia|]. apply Hne. rewrite <-H2; [done|lia].
Qed.

(** B takes over at the time A's lease expires; A comes back after B released. *)
Definition db_taken : evm_db := (run Committed "b" 3000001 (CAcquire "moca" "B" 1000000) db_recorded).1.
Lemma db_taken_wf : db_wf db_taken.
Proof. apply (run_wf Committed "b" 3000001 (CAcquire "moca" "B" 1000000)); [exact db_recorded_wf|exact I]. Qed.

Lemma stale_fence_refused_forever_witness :
  let db' := (run Committed "b" 3100000 (CRelease (mkFence "moca" "B" 2)) db_taken).1 in
  run Committed "a" 3200000 (CMark fence1 p1') db' = (db', Err errEvmLeaseNotHeld).
Proof.
  cbv zeta.
  apply (stale_fence_refused_forever 1 db_taken _ Committed "a" 3200000 (CMark fence1 p1') fence1);
    [exact db_taken_wf|reflexivity|split; [vm_compute; discriminate|left; vm_compute; reflexivity]| |vm_compute; discriminate].
  apply steps_call; [constructor|exact I].
Defined.

(** Acquiring the lease never fails, and succeeds exactly when the chain has no lease
    of another owner that is not yet past its expiry.  Granted, it is held under a fresh
    epoch and by no other fence; refused, the lease stays as it was. *)
Theorem acquire_exact actor now chain owner ttl db :
  0 < ttl -> 0 <= l_Epoch (lease_of db chain) < MaxUint64 ->
  exists db' r, AcquireLease actor now chain owner ttl db = Ok (db', r) /\
    let l := lease_of db chain in
    if (now <=? l_ExpiresAt l) && negb (bool_decide (l_Owner l = owner))
    then r = (0, false) /\ lease_of db' chain = l
    else r = (l_Epoch l + 1, true) /\
      forall f, f_ChainID f = chain -> held now f db' <-> f = mkFence chain owner (l_Epoch l + 1).
Proof.
  intros Httl Hb. assert (exists p, AcquireLease actor now chain owner ttl db = Ok p) as [[db' r] E].
  { unfold AcquireLease, mbind, txM_bind, read, mret, txM_ret. destruct (leases db !! chain) as [l|] eqn:Hl.
    - rewrite Hl. destruct (_ && _); [eauto|]. unfold insertAudit. eauto.
    - cbn [leases set_leases]. rewrite lookup_insert_eq. destruct (_ && _); [eauto|]. unfold insertAudit. eauto. }
  exists db', r. split; [done|]. cbn. apply acquire_ok in E as (_ & _ & _ & _ & l & Hl & H).
  fold (lease_of db chain) in Hl. subst l.
  replace (now <=? l_ExpiresAt (lease_of db chain)) with (negb (l_ExpiresAt (lease_of db chain) <? now)) by (rewrite Z.leb_antisym; done).
  destruct (_ && _).
  - destruct H as (-> & Hls & _). split; [done|]. unfold lease_of at 1. by rewrite Hls, lookup_insert_eq.
  - destruct H as (-> & Hls & _). rewrite uint64_wrap_id by go_lia. split; [done|]. rewrite uint64_wrap_id in Hls by go_lia.
    intros f <-. unfold held. rewrite Hls, lookup_insert_eq. split.
    + intros (l & [= <-] & Ho & He & _). cbn in Ho, He. destruct f; cbn in *. congruence.
    + intros Hf. eexists. split; [done|]. rewrite Hf. cbn. split_and!; [done..|lia].
Qed.

Lemma acquire_exact_witness :
  AcquireLease "b" 3000000 "moca" "B" 1000000 db_recorded = Ok (db_recorded, (0, false)) /\
  exists db', AcquireLease "b" 3000001 "moca" "B" 1000000 db_recorded = Ok (db', (2, true)) /\
    held 3000001 (mkFence "moca" "B" 2) db'.
Proof.
  split; [vm_compute; reflexivity|].
  destruct (acquire_exact "b" 3000001 "moca" "B" 1000000 db_recorded) as (db' & r & E & H);
    [lia|vm_compute; split; [discriminate|reflexivity]|].
  cbv zeta in H. assert (l_Epoch (lease_of db_recorded "moca") = 1) as He by (vm_compute; reflexivity).
  assert ((3000001 <=? l_ExpiresAt (lease_of db_recorded "moca")) &&
          negb (bool_decide (l_Owner (lease_of db_recorded "moca") = "B"%string)) = false) as Hc by (vm_compute; reflexivity).
  rewrite Hc, He in H. destruct H as [-> H]. exists db'. split; [exact E|]. by apply H.
Defined.

(** ** Recording and resolving *)

(** The operation has no row and the scope no pending one. *)
Definition scope_free (db : evm_db) (p : pendingRecord) : Prop :=
  forall i r, states db !! i = Some r -> ChainID r = p_ChainID p -> Scope r = p_Scope p ->
    Operation r <> p_Operation p /\ State r <> RowPending.
(** Evidence stored under the hash has the same contents. *)
Definition evidence_agrees (db : evm_db) (ev : signedTxEvidence) : Prop :=
  forall i e, signed db !! i = Some e -> e_ChainID e = e_ChainID ev -> e_TxHash e = e_TxHash ev -> sameEvidence e ev = true.

Lemma sameEvidence_refl a b :
  e_ChainID a = e_ChainID b -> e_EvmChainID a = e_EvmChainID b -> e_Scope a = e_Scope b ->
  e_Operation a = e_Operation b -> e_From a = e_From b -> e_Nonce a = e_Nonce b -> e_TxHash a = e_TxHash b ->
  e_Raw a = e_Raw b -> sameEvidence a b = true.
Proof. intros. unfold sameEvidence. by rewrite !bool_decide_true, !(proj2 (Z.eqb_eq _ _)) by done. Qed.

(** [record_evidence] succeeds exactly when the stored evidence agrees. *)
Lemma record_evidence_exact ep ev db :
  db_wf db ->
  (exists db1 id, record_evidence ep ev db = Ok (db1, id) /\ evidence_agrees db ev /\
     exists e, signed db1 !! id = Some e /\ sameEvidence e ev = true) \/
  (record_evidence ep ev db = Err errEvmStateConflict /\ ~ evidence_agrees db ev).
Proof.
  intros W. unfold record_evidence, mbind, txM_bind, read.
  destruct (GetSignedTxByHash db _ _) as [ex|] eqn:Hg.
  - apply by_hash_some in Hg as ([i Hi] & Hc & Ht). destruct (sameEvidence ex ev) eqn:Hs; cbn.
    + left. exists db, (e_ID ex). split; [done|]. split.
      * intros j e Hj Hc' Ht'. assert (j = i) as -> by (eapply (wf_hashes _ W); [done..| |]; congruence). congruence.
      * exists ex. split; [|done]. by destruct (wf_tx_ids _ W _ _ Hi) as [-> _].
    + right. split; [done|]. intros Ha. rewrite (Ha i ex Hi Hc Ht) in Hs. done.
  - left. unfold insert_signed. destruct (existsb _ _) eqn:Hx.
    + exfalso. apply existsb_exists in Hx as ([i e] & Hin & [Hc%bool_decide_eq_true Ht%Z.eqb_eq]%andb_prop).
      apply list_elem_of_In, elem_of_map_to_list in Hin. by eapply by_hash_none.
    + do 2 eexists. split; [done|]. split.
      * intros i e Hi Hc Ht. by destruct (by_hash_none _ _ _ _ _ Hg Hi).
      * eexists. split; [apply lookup_insert_eq|]. by apply sameEvidence_refl.
Qed.

(** The active-outcome query and the unique key decide [scope_free]. *)
Lemma scope_free_intro db p row :
  (forall i r, states db !! i = Some r -> ~ clash r row) -> ChainID row = p_ChainID p -> Scope row = p_Scope p ->
  Operation row = p_Operation p -> State row = RowPending -> scope_free db p.
Proof.
  intros Hn Hc Hs Ho Hp i r Hi Hc' Hs'. split; intros H; apply (Hn i r Hi); (split_and!; [congruence..|]);
    [left; congruence|by right].
Qed.

Lemma fenceCheck_pass now fence db : held now fence db -> fenceCheck now fence db = Ok (db, tt).
Proof. intros H. by destruct (fenceCheck_held now fence db) as [[-> _]|[_ ?]]. Qed.

(** The row [Record_] inserts, when the evidence has id [sid]. *)
Definition recorded_row (fence : evmFence) (p : pendingRecord) (sid id : Z) : SignerEvmStateTable :=
  mkRow id sid (p_ChainID p) (p_Scope p) (p_Operation p) (p_From p) (p_Nonce p) (p_TxHash p) None RowPending
    "" "" "" 0 "" false (f_Epoch fence).

(** [Record_] with the fence held, in terms of its last two statements. *)
Lemma Record_cases actor now fence ev p db :
  db_wf db -> held now fence db ->
  (Record_ actor now fence ev p db = Err errEvmStateConflict /\ ~ (scope_free db p /\ evidence_agrees db ev)) \/
  (exists db1 sid e db' p', evidence_agrees db ev /\ states db1 = states db /\ signed db1 !! sid = Some e /\
     sameEvidence e ev = true /\ Record_ actor now fence ev p db = Ok (db', p') /\
     states db' = <[next_state db := recorded_row fence p sid (next_state db)]> (states db) /\ signed db' = signed db1 /\
     p' = mkPending (next_state db) (p_ChainID p) sid (p_Scope p) (p_From p) (p_Nonce p) (p_TxHash p)
            (p_Operation p) (p_Ambiguous p) (f_Epoch fence) /\ scope_free db p).
Proof.
  intros W Hh. unfold Record_. rewrite (bind_Ok _ _ _ _ _ (fenceCheck_pass _ _ _ Hh)).
  erewrite (bind_Ok (read _)) by reflexivity. case_bool_decide as Ha; cbn [negb].
  2: { left. split; [done|]. intros [Hf _]. destruct (select_states _ db) as [|r l] eqn:E; [done|].
       match type of E with select_states ?P db = _ => assert (r ∈ select_states P db) as Hin by (rewrite E; left) end.
       apply elem_of_select in Hin as [[[[_ Hc%bool_decide_eq_true]%andb_prop Hs%bool_decide_eq_true]%andb_prop Ho%Z.eqb_eq]%andb_prop [i Hi]].
       by destruct (Hf i r Hi Hc Hs). }
  destruct (record_evidence_exact (f_Epoch fence) ev db W) as [(db1 & sid & E & Hag & e & He & Hse)|[E Hna]].
  2: { rewrite (bind_Err _ _ _ _ E). left. split; [done|]. by intros [_ ?]. }
  destruct (record_evidence_ok _ _ _ _ _ W E) as (_ & Hst & Hnx & _).
  rewrite (bind_Ok _ _ _ _ _ E). fold (recorded_row fence p sid).
  destruct (duplicate db1 (recorded_row fence p sid (next_state db))) eqn:Hd.
  - left. split; [apply bind_Err; unfold insert_state; by rewrite Hnx, Hd|]. intros [Hf _]. unfold duplicate in Hd. rewrite Hst in Hd.
    apply existsb_exists in Hd as ([i r] & Hin & [_ Hk]%andb_prop).
    apply list_elem_of_In, elem_of_map_to_list in Hin. unfold same_key in Hk. cbn in Hk.
    apply andb_prop in Hk as [[Hc%bool_decide_eq_true Hs%bool_decide_eq_true]%andb_prop Hp].
    destruct (Hf i r Hin Hc Hs) as [_ Hn]. unfold is_pending in Hp. by rewrite (bool_decide_false _ Hn) in Hp.
  - right. assert (scope_free db p) as Hfree.
    { eapply (scope_free_intro db p (recorded_row fence p sid (next_state db))); [|done..].
      eapply no_clash; [done..| |exact Ha]. unfold duplicate in *. by rewrite Hst in Hd. }
    assert (insert_state (recorded_row fence p sid) db1 =
      Ok (set_states (<[next_state db := recorded_row fence p sid (next_state db)]> (states db1)) (next_state db + 1) db1,
          next_state db)) as Ei.
    { unfold insert_state. rewrite Hnx, Hd. cbn [SignedTxID recorded_row]. by rewrite He. }
    rewrite (bind_Ok _ _ _ _ _ Ei), Hst. erewrite bind_Ok by reflexivity.
    exists db1, sid, e. do 2 eexists. by split_and!.
Qed.

(** Recording a transaction succeeds exactly when the lease is held, the operation has no
    row and the scope no pending one, and stored evidence under the hash agrees; the pending
    row and the evidence are then what the store returns.  Otherwise the call fails with the
    lease error or with a conflict. *)
Theorem record_exact actor now fence ev p db :
  db_wf db -> call_ok (CRecord fence ev p) -> p_Ambiguous p = false ->
  match Record_ actor now fence ev p db with
  | Ok (db', p') =>
    held now fence db /\ scope_free db p /\ evidence_agrees db ev /\
    GetPending db' (p_ChainID p) (p_Scope p) = Some p' /\ p_TxHash p' = p_TxHash p /\ p_Operation p' = p_Operation p /\
    exists e, GetSignedTx db' (p_SignedTxID p') = Some e /\ sameEvidence e ev = true
  | Err e =>
    e = errEvmLeaseNotHeld /\ ~ held now fence db \/
    e = errEvmStateConflict /\ held now fence db /\ ~ (scope_free db p /\ evidence_agrees db ev)
  end.
Proof.
  intros W Hok Hamb. destruct (fenceCheck_held now fence db) as [[_ Hh]|[E Hn]].
  2: { unfold Record_, mbind, txM_bind. rewrite E. by left. }
  destruct (Record_cases actor now fence ev p db W Hh) as [[-> Hn]|(db1 & sid & e & db' & p' & Hag & Hst & He & Hse & E & Hs' & Hsg' & -> & Hf)].
  - right. by split_and!.
  - rewrite E. split_and!; [done..| |done|done|].
    + assert (db_wf db') as W' by (eapply effect_wf; [exact W|eapply record_effect; done]).
      assert (states db' !! next_state db = Some (recorded_row fence p sid (next_state db))) as Hr by (rewrite Hs'; apply lookup_insert_eq).
      etrans; [exact (GetPending_row _ _ _ W' Hr eq_refl)|]. unfold pendingFromRow. cbn. by rewrite Hamb.
    + exists e. split; [|done]. unfold GetSignedTx. cbn. by rewrite Hsg'.
Qed.

Lemma record_exact_witness :
  (exists db', Record_ "a" 2100000 fence1 ev1 p1 db_leased = Ok (db', p1')) /\
  (Record_ "a" 2200000 fence1 ev1 p1 db_recorded = Err errEvmStateConflict) /\
  ~ (scope_free db_recorded p1 /\ evidence_agrees db_recorded ev1).
Proof.
  assert (Record_ "a" 2200000 fence1 ev1 p1 db_recorded = Err errEvmStateConflict) as E by (vm_compute; reflexivity).
  split; [eexists; vm_compute; reflexivity|]. split; [exact E|].
  pose proof (record_exact "a" 2200000 fence1 ev1 p1 db_recorded db_recorded_wf) as H. rewrite E in H.
  destruct H as [[H _]|(_ & _ & H)]; [by split_and!|reflexivity|discriminate H|exact H].
Defined.

Lemma lockPending_exact p db :
  lockPending p db =
  match GetPending db (p_ChainID p) (p_Scope p) with
  | None => Err errEvmRowGone
  | Some q => if (p_ID q =? p_ID p) && (p_TxHash q =? p_TxHash p) then Ok (db, tt) else Err errEvmStateConflict
  end.
Proof.
  unfold lockPending, GetPending. erewrite bind_Ok by reflexivity. destruct (select_states _ db) as [|r l]; [done|]. cbn.
  by destruct (ID r =? p_ID p), (TxHash r =? p_TxHash p).
Qed.

Lemma same_key_clash a b : same_key a b = true -> clash a b.
Proof.
  unfold same_key, is_pending. intros [[Hc%bool_decide_eq_true Hs%bool_decide_eq_true]%andb_prop Ho]%andb_prop.
  split_and!; [done..|]. apply orb_prop in Ho as [[?%bool_decide_eq_true ?%bool_decide_eq_true]%andb_prop|[_ ?%Z.eqb_eq]%andb_prop]; auto.
Qed.

(** In a well-formed database an update that keeps the transaction cannot collide. *)
Lemma update_state_hit i P upd db r :
  db_wf db -> states db !! i = Some r -> P r = true -> same_tx (upd r) r ->
  State (upd r) = State r \/ State (upd r) <> RowPending ->
  update_state i P upd db = Ok (set_states (<[i := upd r]> (states db)) (next_state db) db, 1%nat).
Proof.
  intros W Hi HP Ht Hs. unfold update_state. rewrite Hi, HP.
  assert (duplicate db (upd r) = false) as ->; [|done]. apply duplicate_false. intros j r' Hj Hne.
  apply not_true_is_false. intros Hk%same_key_clash. apply Hne. destruct (wf_ids _ W _ _ Hi) as [Hid _].
  rewrite (proj1 Ht), Hid. eapply (wf_active _ W); [done..|]. by apply clash_sym, (clash_same_tx _ (upd r)), clash_sym.
Qed.

(** The row after [ResolvePending] keeps the transaction as an outcome. *)
Definition kept_row (p : pendingRecord) (t : pendingTerminal) (r : SignerEvmStateTable) : SignerEvmStateTable :=
  mkRow (ID r) (SignedTxID r) (ChainID r) (Scope r) (Operation r) (FromAddress r) (Nonce r) (TxHash r)
    (Some (p_TxHash p)) (RowOutcome evmOutcomeSucceeded) (EvidenceTxHash r) (EvidenceKind r) (Reason r)
    (t_ReceiptBlock t) (t_Source t) (Ambiguous r) (LeaseEpoch r).

Lemma insert_audits_total actor chain ep evs db :
  exists l, insert_audits actor chain ep evs db = Ok (with_audits l db, tt).
Proof.
  revert db. induction evs as [|e evs IH]; intros db; cbn.
  - exists []. unfold with_audits. rewrite app_nil_r. by destruct db.
  - erewrite bind_Ok by reflexivity. match goal with |- context [insert_audits _ _ _ _ ?d] => destruct (IH d) as [l ->] end.
    eexists (_ :: l). unfold with_audits. cbn. by rewrite <-app_assoc.
Qed.

(** [ResolvePending] once the lease and the row are checked. *)
Lemma ResolvePending_ok actor now fence p t db r :
  db_wf db -> held now fence db -> states db !! p_ID p = Some r -> pending_row p r ->
  exists l, ResolvePending actor now fence p t db =
    Ok (with_audits l (set_states (if bool_decide (t_Kind t = terminalSuccessKeep)
                                   then <[p_ID p := kept_row p t r]> (states db) else delete (p_ID p) (states db))
                         (next_state db) db),
        if bool_decide (t_Kind t = terminalSuccessKeep) then
          Some (mkOutcome (p_ID p) (p_SignedTxID p) (p_ChainID p) (p_Scope p) (p_Operation p) (p_From p) (p_Nonce p)
            (p_TxHash p) (p_TxHash p) evmOutcomeSucceeded "" "" "" (t_ReceiptBlock t) (t_Source t))
        else None).
Proof.
  intros W Hh Hr (Hid & Ht & Hs & Hc & Hsc). unfold ResolvePending. rewrite (bind_Ok _ _ _ _ _ (fenceCheck_pass _ _ _ Hh)).
  assert (lockPending p db = Ok (db, tt)) as El.
  { rewrite lockPending_exact, <-Hc, <-Hsc. erewrite GetPending_row by done. cbn. by rewrite Hid, Ht, !Z.eqb_refl. }
  rewrite (bind_Ok _ _ _ _ _ El). case_bool_decide as Hk.
  - erewrite (bind_Ok (update_state _ _ _)); [|apply (update_state_hit _ _ _ _ _ W Hr); [by rewrite Ht, Z.eqb_refl|done|by right]].
    erewrite (bind_Ok (one_row 1)) by reflexivity.
    match goal with |- context [(insert_audits ?a ?c ?e ?v ≫= _) ?d] => destruct (insert_audits_total a c e v d) as [l El'] end.
    rewrite (bind_Ok _ _ _ _ _ El'). by exists l.
  - assert (delete_state (p_ID p) (fun r => TxHash r =? p_TxHash p) db =
            Ok (set_states (delete (p_ID p) (states db)) (next_state db) db, 1%nat)) as Ed.
    { unfold delete_state. by rewrite Hr, Ht, Z.eqb_refl. }
    rewrite (bind_Ok _ _ _ _ _ Ed). erewrite (bind_Ok (one_row 1)) by reflexivity.
    match goal with |- context [(insert_audits ?a ?c ?e ?v ≫= _) ?d] => destruct (insert_audits_total a c e v d) as [l El'] end.
    rewrite (bind_Ok _ _ _ _ _ El'). by exists l.
Qed.

(** Under the live lease, resolving a pending row that is still there always succeeds:
    the scope has no pending row afterwards, and the operation has a succeeded outcome
    with the transaction's hash if the result is kept, and no row at all otherwise (the
    collision with an active outcome cannot happen).  A vanished row and a different row
    are reported as such. *)
Theorem resolve_pending_exact actor now fence p t db :
  db_wf db -> held now fence db ->
  match GetPending db (p_ChainID p) (p_Scope p) with
  | None => ResolvePending actor now fence p t db = Err errEvmRowGone
  | Some q =>
    if (p_ID q =? p_ID p) && (p_TxHash q =? p_TxHash p) then
      exists db' o, ResolvePending actor now fence p t db = Ok (db', o) /\
        GetPending db' (p_ChainID p) (p_Scope p) = None /\
        let found := GetOutcome db' (p_ChainID p) (p_Scope p) (p_Operation q) in
        if bool_decide (t_Kind t = terminalSuccessKeep)
        then exists k, found = Some k /\ o_ID k = p_ID p /\ o_State k = evmOutcomeSucceeded /\
               o_TxHash k = p_TxHash p /\ o_ResultTxHash k = p_TxHash p /\ o_ReceiptBlock k = t_ReceiptBlock t
        else o = None /\ found = None
    else ResolvePending actor now fence p t db = Err errEvmStateConflict
  end.
Proof.
  intros W Hh. assert (forall e, lockPending p db = Err e -> ResolvePending actor now fence p t db = Err e) as Herr.
  { intros e E. unfold ResolvePending. rewrite (bind_Ok _ _ _ _ _ (fenceCheck_pass _ _ _ Hh)). by apply bind_Err. }
  destruct (GetPending db _ _) as [q|] eqn:Hg; [|by apply Herr; rewrite lockPending_exact, Hg].
  destruct ((p_ID q =? p_ID p) && _) eqn:Hq; [|by apply Herr; rewrite lockPending_exact, Hg, Hq].
  apply andb_prop in Hq as [Hi%Z.eqb_eq Ht%Z.eqb_eq].
  destruct (GetPending_some _ _ _ _ W Hg) as (r & Hr & Hs & Hc & Hsc & ->). rewrite Hi in Hr. cbn in Hi, Ht.
  destruct (ResolvePending_ok actor now fence p t db r) as [l E]; [done..|]. rewrite E.
  do 2 eexists. split; [done|]. rewrite <-Hc, <-Hsc. split.
  - eapply GetPending_gone; [done..|]. cbn. intros j r' Hj. case_bool_decide.
    + apply lookup_insert_Some in Hj as [[<- <-]|[? ?]]; [by right|by left].
    + apply lookup_delete_Some in Hj as [? ?]. by left.
  - assert (db_wf (with_audits l (set_states (if bool_decide (t_Kind t = terminalSuccessKeep)
      then <[p_ID p := kept_row p t r]> (states db) else delete (p_ID p) (states db)) (next_state db) db))) as W'.
    { eapply effect_wf; [exact W|]. eapply resolve_effect; [done|]. exact E. }
    cbn zeta. case_bool_decide as Hk.
    + erewrite (GetOutcome_row _ (p_ID p) (kept_row p t r)); [|done|apply lookup_insert_eq|done].
      eexists. split; [done|]. cbn. done.
    + split; [done|]. destruct (GetOutcome _ _ _ _) as [k|] eqn:Ho; [|done]. exfalso. unfold GetOutcome in Ho.
      apply bind_Some in Ho as (r' & Hr' & _). apply head_some in Hr' as [Hp [j Hj]]. cbn in Hj.
      apply lookup_delete_Some in Hj as [Hne Hj].
      apply andb_prop in Hp as [[[_ Hc'%bool_decide_eq_true]%andb_prop Hsc'%bool_decide_eq_true]%andb_prop Ho'%Z.eqb_eq].
      apply Hne. eapply (wf_active _ W); [done..|]. split_and!; auto.
Qed.

Lemma resolve_pending_exact_witness :
  GetPending db_recorded "moca" "operator" = Some p1' /\
  exists db' o, ResolvePending "a" 2200000 fence1 p1' keep1 db_recorded = Ok (db', o) /\
    exists k, GetOutcome db' "moca" "operator" 77 = Some k /\ o_ResultTxHash k = 1001.
Proof.
  assert (GetPending db_recorded "moca" "operator" = Some p1') as Hg by (vm_compute; reflexivity).
  split; [exact Hg|]. pose proof (resolve_pending_exact "a" 2200000 fence1 p1' keep1 db_recorded db_recorded_wf) as H.
  cbv beta in H. cbn [p_ChainID p_Scope p1'] in H. rewrite Hg in H.
  destruct H as (db' & o & E & _ & (k & Hk & _ & _ & _ & Hres & _)).
  - eexists. split; [vm_compute; reflexivity|]. vm_compute. by split_and!.
  - exists db', o. split; [exact E|]. exists k. split; [exact Hk|exact Hres].
Defined.

(** ** Evidence *)

Lemma ref_matches (e : signedTxEvidence) (ref : evidenceRef) :
  existsb id
    [negb (r_SignedTxID ref =? e_ID e); negb (bool_decide (r_ChainID ref = e_ChainID e));
     negb (bool_decide (r_Scope ref = e_Scope e)); negb (r_Operation ref =? e_Operation e);
     negb (r_From ref =? e_From e); negb (r_Nonce ref =? e_Nonce e); negb (r_TxHash ref =? e_TxHash e)] = false <->
  ref = mkRef (e_ID e) (e_ChainID e) (e_Scope e) (e_Operation e) (e_From e) (e_Nonce e) (e_TxHash e).
Proof.
  cbn [existsb id]. rewrite !orb_false_iff, !negb_false_iff, !bool_decide_eq_true, !Z.eqb_eq.
  destruct ref; cbn. split; [intros (-> & -> & -> & -> & -> & -> & -> & _); done|by intros [= -> -> -> -> -> -> ->]].
Qed.

(** The evidence check accepts exactly the rows whose bytes decode to a transaction that
    hashes to the recorded hash both ways, with the recorded chain id (a uint64), sender and
    nonce, and whose columns are those of the referring row; it then returns that
    transaction. *)
Theorem verify_evidence_exact `{EthTx} ev ref tx :
  verifySignedTxEvidence ev ref = Ok tx <->
  exists e, ev = Some e /\ UnmarshalBinary (e_Raw e) = Some tx /\ Keccak256Hash (e_Raw e) = e_TxHash e /\
    tx_Hash tx = e_TxHash e /\ tx_ChainId tx = Some (e_EvmChainID e) /\ is_uint64 (e_EvmChainID e) /\
    tx_Sender tx = Some (e_From e) /\ tx_Nonce tx = e_Nonce e /\
    ref = mkRef (e_ID e) (e_ChainID e) (e_Scope e) (e_Operation e) (e_From e) (e_Nonce e) (e_TxHash e).
Proof.
  unfold verifySignedTxEvidence. destruct ev as [e|]; [|split; [done|intros (e & [=] & _)]].
  destruct (UnmarshalBinary (e_Raw e)) as [tx'|] eqn:Hu; [|split; [done|naive_solver]].
  destruct (Z.eqb_spec (Keccak256Hash (e_Raw e)) (e_TxHash e)) as [H1|H1]; cbn -[existsb]; [|split; [done|naive_solver]].
  destruct (Z.eqb_spec (tx_Hash tx') (e_TxHash e)) as [H2|H2]; cbn -[existsb]; [|split; [done|naive_solver]].
  destruct (tx_ChainId tx') as [c|] eqn:Hch; [|split; [done|naive_solver]].
  destruct (negb _ || negb (c =? e_EvmChainID e)) eqn:H3; [split; [done|]|].
  { intros (e' & [= <-] & Hu' & _ & _ & Hc & H3' & _). exfalso. rewrite Hu in Hu'. injection Hu' as <-.
    rewrite Hch in Hc. injection Hc as ->. rewrite Z.eqb_refl in H3. unfold is_uint64 in H3'.
    apply orb_true_iff in H3 as [H3%negb_true_iff|H3]; [|done]. go_lia. }
  destruct (tx_Sender tx') as [sn|] eqn:Hse; [|split; [done|naive_solver]].
  destruct (Z.eqb_spec sn (e_From e)) as [H4|H4]; cbn -[existsb]; [|split; [done|naive_solver]].
  destruct (Z.eqb_spec (tx_Nonce tx') (e_Nonce e)) as [H5|H5]; cbn -[existsb]; [|split; [done|naive_solver]].
  destruct (existsb id _) eqn:H6.
  - split; [done|]. intros (e' & [= <-] & _ & _ & _ & _ & _ & _ & _ & Hr). apply ref_matches in Hr. congruence.
  - apply ref_matches in H6. apply orb_false_iff in H3 as [H3%negb_false_iff H3'%negb_false_iff%Z.eqb_eq]. subst c.
    split; [intros [= <-]|naive_solver]. exists e. split_and!; try congruence; go_lia.
Qed.
