(* ===== verification/EvmManager.v ===== *)
(** The signer's view of the EVM state, first part: the world, the per-scope memory,
    nonces, ending a pending row and retrying what only memory knows
    (modular/signer/evm_state_manager.go).

    A function is a computation on a [world]: the shared database, the process's memory
    and the trace of the bytes it handed to a node.  Every interaction with the outside
    (a store call, a chain query, the clock) is one tick; the class [Env] says what each
    tick answers.  Before each store call other processes may make any calls of their
    own ([others]: another signer, the disposition commands), and every store call has
    its own fate.  Scope locks make the functions of one scope sequential; logging and
    timeouts are dropped (a timeout is a failing answer).  Free text of audit rows and
    errors comes from [detail].

    The answers of a node to eth_sendRawTransaction come first (signer_client.go).  An error
    is what the code asks of it: its message, whether it wraps a context error or an HTTP
    error, and the JSON-RPC error object it wraps, if any. *)
From Stdlib Require Import ZArith Lia.
From stdpp Require Import base gmap list strings.
From S2P Require Import Prelude Strconv Sql EvmState EvmStore EvmInv EvmSpec.

Local Open Scope Z_scope.

(** ** Answers to a send *)

Record rpc_error := mkRpcError {
  ErrorCode : Z;
  rpc_msg : string
}.

Record send_error := mkSendError {
  se_Error : string;
  se_ctx : bool;
  se_http : bool;
  se_rpc : option rpc_error
}.

Definition containsAnyReason (msg : string) (reasons : list string) : bool := existsb (Contains msg) reasons.

Definition errMsgNonceTooLow : string := "nonce too low".
Definition errMsgNonceTooHigh : string := "nonce too high".
Definition errMsgInvalidNonce : string := "invalid nonce".
Definition errMsgNonceLowerThanAccount : string := "tx nonce is lower than account nonce".
Definition errMsgNonceHigherThanAccount : string := "tx nonce is higher than account nonce".

Definition evmRPCCodeInvalidParams : Z := -32602.
Definition evmRPCCodeInternal : Z := -32603.
Definition evmRPCCodeTimeout : Z := -32002.

Definition evmNotAdmittedReasons : list string :=
  ["failed to validate transaction"; "failed to build cosmos tx"; "failed to encode transaction";
   "insufficient funds"; "insufficient fee"; "intrinsic gas too low"]%string.

Definition isEvmNonceLowError (msg : string) : bool :=
  containsAnyReason msg [errMsgNonceTooLow; errMsgInvalidNonce; errMsgNonceLowerThanAccount].
Definition isEvmNonceHighError (msg : string) : bool :=
  containsAnyReason msg [errMsgNonceTooHigh; errMsgNonceHigherThanAccount].

Inductive evmSendOutcome := evmSendAccepted | evmSendAmbiguous | evmSendNonceRejected | evmSendRejected.

#[export] Instance evmSendOutcome_eq_dec : EqDecision evmSendOutcome.
Proof. solve_decision. Defined.

(** [ctx_done] is [ctx.Err() != nil]. *)
Definition classifyEvmSendError (ctx_done : bool) (err : option send_error) : evmSendOutcome :=
  match err with
  | None => evmSendAccepted
  | Some err =>
    if ctx_done || se_ctx err then evmSendAmbiguous
    else if se_http err then evmSendAmbiguous
    else match se_rpc err with
    | None => evmSendAmbiguous
    | Some rpcErr =>
      if (ErrorCode rpcErr =? evmRPCCodeTimeout) || (ErrorCode rpcErr =? evmRPCCodeInternal) then evmSendAmbiguous
      else if ErrorCode rpcErr =? evmRPCCodeInvalidParams then evmSendRejected
      else if isEvmNonceLowError (rpc_msg rpcErr) || isEvmNonceHighError (rpc_msg rpcErr) then evmSendNonceRejected
      else if containsAnyReason (rpc_msg rpcErr) evmNotAdmittedReasons then evmSendRejected
      else evmSendAmbiguous
    end
  end.

Definition evmNodeAnswered (ctx_done : bool) (err : option send_error) : bool :=
  match err with
  | None => true
  | Some err =>
    if ctx_done then false
    else if se_http err then false
    else match se_rpc err with
    | None => false
    | Some rpcErr => negb (ErrorCode rpcErr =? evmRPCCodeTimeout) && negb (ErrorCode rpcErr =? evmRPCCodeInternal)
    end
  end.

(** ** The world *)

Definition SignOperator : SignType := "operator".
Definition SignSeal : SignType := "seal".
Definition SignGc : SignType := "gc".

(** types.Receipt, as far as it is read *)
Record receipt := mkReceipt {
  r_Status : Z;
  r_BlockNumber : option Z
}.
Definition ReceiptStatusSuccessful : Z := 1.

Record CosmosTxView := mkView {
  v_Hash : string;
  v_Height : Z;
  v_Code : Z
}.
Inductive search_error := errCosmosIndexDisabled | ErrSearch.

(** The error values of this layer. *)
Inductive mgr_error :=
| ErrStore (e : evm_error)
| errEvmStateNotConfigured
| errEvmNonceUnsynced
| ErrNonceRefresh
| ErrKeepsChanging
| ErrExecutedElsewhere (id : Z)
| ErrBlocked (id : Z)
| ErrUnconfirmed
| ErrNotRecorded (e : evm_error)
| ErrChain
| ErrContext
| ErrSend (e : send_error)
| evmNonceRejectedError (e : send_error)
| ErrRefusalNotRecorded (e : mgr_error)
| ErrWaitReceipt
| PanicNilBlockNumber.

(** ** Memory *)

Record evmTerminalRetry := mkRetry {
  rt_pending : pendingRecord;
  rt_terminal : pendingTerminal;
  rt_epoch : Z
}.

Record evmAutoObservation := mkObservation {
  ob_txHash : Hash;
  ob_reason : string;
  ob_height : Z
}.

Record evmScopeMemory := mkMemory {
  epoch : Z;
  terminalRetry : option evmTerminalRetry;
  consumeUnknown : option outcomeRecord;
  awaiting : gmap Hash Hash;
  lastSeenPending : Z;
  autoSeen : option evmAutoObservation
}.

Definition empty_memory : evmScopeMemory := mkMemory 0 None None ∅ 0 None.

(** The local view of the lease (evm_lease.go). *)
Record leaseView := mkLeaseView {
  lv_held : bool;
  lv_epoch : Z;
  lv_lastRenew : Z
}.

Record world := mkWorld {
  w_tick : nat;
  w_db : evm_db;
  w_mem : gmap SignType evmScopeMemory;
  w_nonce : gmap SignType Z;
  w_audited : gset (string * Z);
  w_checked : gmap Z Z;
  w_lease : leaseView;
  w_sent : list Hash
}.

(** ** The outside *)

Class Env := {
  others : nat -> list (fate * string * Z * evm_call);
  fate_at : nat -> fate;
  db_now : nat -> Z;
  local_now : nat -> Z;
  ctx_done : nat -> bool;
  detail : nat -> string;
  Hex : Hash -> string;
  (** EVM node: a failed query is [None]; no receipt (yet) is [Some None]. *)
  transactionReceiptFn : nat -> Hash -> option (option receipt);
  waitForEvmTxFn : nat -> Hash -> option receipt;
  sendEvmTxFn : nat -> Hash -> option send_error;
  evm_ChainID : nat -> option Z;
  BlockNumber : nat -> option Z;
  NonceAt : nat -> Address -> Z -> option Z;
  PendingNonceAt : nat -> Address -> option Z;
  getCosmosNonceFn : nat -> SignType -> option Z;
  (** CometBFT node *)
  cosmos_Network : nat -> option string;
  SearchEthereumTx : nat -> Hash -> Z -> result search_error (option CosmosTxView);
  (** configuration *)
  configured : bool;
  st_chainID : string;
  st_evmChainID : Z;
  actor : string;
  lease_owner : string;
  lease_ttl : Z;
  keyAddress : SignType -> option Address;
  has_mocaClient : SignType -> bool;
  has_autoChain : bool;
  has_cosmos : bool
}.

Definition M (A : Type) : Type := world -> world * A.
#[export] Instance M_ret : MRet M := fun A a w => (w, a).
#[export] Instance M_bind : MBind M := fun A B f m w => let '(w', a) := m w in f a w'.

Definition gets {A} (f : world -> A) : M A := fun w => (w, f w).
Definition put (f : world -> world) : M unit := fun w => (f w, tt).

Definition set_tick (n : nat) w := mkWorld n (w_db w) (w_mem w) (w_nonce w) (w_audited w) (w_checked w) (w_lease w) (w_sent w).
Definition set_db db w := mkWorld (w_tick w) db (w_mem w) (w_nonce w) (w_audited w) (w_checked w) (w_lease w) (w_sent w).
Definition set_mem m w := mkWorld (w_tick w) (w_db w) m (w_nonce w) (w_audited w) (w_checked w) (w_lease w) (w_sent w).
Definition set_nonces m w := mkWorld (w_tick w) (w_db w) (w_mem w) m (w_audited w) (w_checked w) (w_lease w) (w_sent w).
Definition set_audited s w := mkWorld (w_tick w) (w_db w) (w_mem w) (w_nonce w) s (w_checked w) (w_lease w) (w_sent w).
Definition set_checked m w := mkWorld (w_tick w) (w_db w) (w_mem w) (w_nonce w) (w_audited w) m (w_lease w) (w_sent w).
Definition set_lease l w := mkWorld (w_tick w) (w_db w) (w_mem w) (w_nonce w) (w_audited w) (w_checked w) l (w_sent w).
Definition set_sent l w := mkWorld (w_tick w) (w_db w) (w_mem w) (w_nonce w) (w_audited w) (w_checked w) (w_lease w) l.

Section manager.
Context {En : Env} {Et : EthTx}.

(** One question to the outside. *)
Definition ask {A} (f : nat -> A) : M A := fun w => (set_tick (S (w_tick w)) w, f (w_tick w)).

Definition interfere (t : nat) (db : evm_db) : evm_db :=
  foldl (fun db '(f, a, n, c) => (run f a n c db).1) db (others t).

(** A write transaction, a read, and a single statement outside a transaction. *)
Definition write {A} (fn : string -> Z -> txM A) : M (result evm_error A) := fun w =>
  let t := w_tick w in
  let '(db, r) := txn (fate_at t) (fn actor (db_now t)) (interfere t (w_db w)) in
  (set_tick (S t) (set_db db w), r).
Definition statement {A} (fn : Z -> txM A) : M (result evm_error A) := fun w =>
  let t := w_tick w in
  let '(db, r) := autocommit (fate_at t) (fn (db_now t)) (interfere t (w_db w)) in
  (set_tick (S t) (set_db db w), r).
Definition query {A} (f : evm_db -> A) : M (result evm_error A) := fun w =>
  let t := w_tick w in
  let db := interfere t (w_db w) in
  (set_tick (S t) (set_db db w), if bool_decide (fate_at t = Committed) then Ok (f db) else Err ErrDB).

Definition memory (scope : SignType) (w : world) : evmScopeMemory := default empty_memory (w_mem w !! scope).
Definition upd_memory (scope : SignType) (f : evmScopeMemory -> evmScopeMemory) : M unit :=
  put (fun w => set_mem (<[scope := f (memory scope w)]> (w_mem w)) w).

Definition set_epoch e m := mkMemory e (terminalRetry m) (consumeUnknown m) (awaiting m) (lastSeenPending m) (autoSeen m).
Definition set_retry r m := mkMemory (epoch m) r (consumeUnknown m) (awaiting m) (lastSeenPending m) (autoSeen m).
Definition set_consume c m := mkMemory (epoch m) (terminalRetry m) c (awaiting m) (lastSeenPending m) (autoSeen m).
Definition set_awaiting a m := mkMemory (epoch m) (terminalRetry m) (consumeUnknown m) a (lastSeenPending m) (autoSeen m).
Definition set_last i m := mkMemory (epoch m) (terminalRetry m) (consumeUnknown m) (awaiting m) i (autoSeen m).
Definition set_seen o m := mkMemory (epoch m) (terminalRetry m) (consumeUnknown m) (awaiting m) (lastSeenPending m) o.

Definition setLastSeen (scope : SignType) (id : Z) : M unit := upd_memory scope (set_last id).
Definition clearLastSeen (scope : SignType) (id : Z) : M unit :=
  upd_memory scope (fun m => if lastSeenPending m =? id then set_last 0 m else m).

Definition set_event (ev : evmAuditName) (e : evmAuditEvent) : evmAuditEvent :=
  mkEvent ev (a_Scope e) (a_From e) (a_Nonce e) (a_TxHash e) (a_Operation e) (a_SignedTxID e)
    (a_ReceiptStatus e) (a_ReceiptBlock e) (a_ChainNonce e) (a_OutcomeID e) (a_OutcomeState e)
    (a_OutcomeReason e) (a_Detail e) (a_EvidenceTxHash e) (a_EvidenceKind e) (a_Actor e) (a_Reason e)
    (a_DecisionRef e) (a_ChainHeight e).
Definition set_detail (d : string) (e : evmAuditEvent) : evmAuditEvent :=
  mkEvent (a_Event e) (a_Scope e) (a_From e) (a_Nonce e) (a_TxHash e) (a_Operation e) (a_SignedTxID e)
    (a_ReceiptStatus e) (a_ReceiptBlock e) (a_ChainNonce e) (a_OutcomeID e) (a_OutcomeState e)
    (a_OutcomeReason e) d (a_EvidenceTxHash e) (a_EvidenceKind e) (a_Actor e) (a_Reason e)
    (a_DecisionRef e) (a_ChainHeight e).

(** ** Evidence *)

Definition verify (evidence : option signedTxEvidence) (ref : evidenceRef) : result evm_error Tx :=
  match verifySignedTxEvidence evidence ref, evidence with
  | Ok tx, Some ev => if negb (e_EvmChainID ev =? st_evmChainID) then Err errEvmEvidenceInvalid else Ok tx
  | Ok _, None => Err errEvmEvidenceInvalid
  | Err e, _ => Err e
  end.

Definition loadEvidence (fence : option evmFence) (kind : string) (rowID : Z) (ref : evidenceRef) (event : evmAuditEvent) :
    M (result mgr_error Tx) :=
  evidence ← query (fun db => GetSignedTx db (r_SignedTxID ref));
  match evidence with
  | Err e => mret (Err (ErrStore e))
  | Ok evidence =>
    match verify evidence ref with
    | Ok tx => mret (Ok tx)
    | Err e =>
      seen ← gets (fun w => bool_decide ((kind, rowID) ∈ w_audited w));
      (if (seen : bool) then mret tt else
         d ← ask detail;
         auditErr ← write (fun actor now => AppendAudit actor now fence st_chainID (set_detail d (set_event evmAuditEvidenceInvalid event)));
         match auditErr with
         | Ok _ => put (fun w => set_audited ({[(kind, rowID)]} ∪ w_audited w) w)
         | Err _ => mret tt
         end);;
      mret (Err (ErrStore e))
    end
  end.

(** ** Nonces *)

(** [nonceCache(scope) != nil] *)
Definition nonceCache (scope : SignType) : bool :=
  bool_decide (scope = SignOperator) || bool_decide (scope = SignSeal) || bool_decide (scope = SignGc).
Definition set_nonce (scope : SignType) (n : Z) : M unit := put (fun w => set_nonces (<[scope := n]> (w_nonce w)) w).

Definition refreshNonceFromChain (scope : SignType) : M (option mgr_error) :=
  if negb (nonceCache scope) then mret None
  else
    nonce ← ask (fun t => getCosmosNonceFn t scope);
    match nonce with
    | None => mret (Some ErrNonceRefresh)
    | Some n => set_nonce scope n;; mret None
    end.

Definition syncEvmScopeEpoch (fence : evmFence) (scope : SignType) (pending : option pendingRecord) : M (option mgr_error) :=
  synced ← gets (fun w => epoch (memory scope w) =? f_Epoch fence);
  if (synced : bool) then mret None
  else
    pending ← (match pending with
               | Some p => mret (Ok (Some p))
               | None => query (fun db => GetPending db st_chainID scope)
               end : M (result evm_error (option pendingRecord)));
    match pending with
    | Err e => mret (Some (ErrStore e))
    | Ok pending =>
      upd_memory scope (set_last (match pending with Some p => p_ID p | None => 0 end));;
      err ← (if nonceCache scope && has_mocaClient scope then
               nonce ← ask (fun t => getCosmosNonceFn t scope);
               match nonce with
               | None => mret (Some errEvmNonceUnsynced)
               | Some nonce =>
                 let nonce := match pending with
                              | Some p =>
                                if bool_decide (keyAddress scope = Some (p_From p)) && (uwrap 64 (p_Nonce p + 1) >? nonce)
                                then uwrap 64 (p_Nonce p + 1) else nonce
                              | None => nonce
                              end in
                 set_nonce scope nonce;; mret None
               end
             else mret None);
      match err with
      | Some e => mret (Some e)
      | None => upd_memory scope (set_epoch (f_Epoch fence));; mret None
      end
    end.

(** ** Ending a pending row *)

Definition readBackResolved (pending : pendingRecord) (terminal : pendingTerminal) : M (result evm_error bool) :=
  current ← query (fun db => GetPending db st_chainID (p_Scope pending));
  match current with
  | Err e => mret (Err e)
  | Ok current =>
    if match current with Some c => p_ID c =? p_ID pending | None => false end then mret (Ok false)
    else query (fun db => HasAudit db st_chainID (doneEvent (t_Kind terminal)) (p_TxHash pending) 0)
  end.

Definition readBackConsumed (outcome : outcomeRecord) : M (result evm_error bool) :=
  current ← query (fun db => GetOutcome db st_chainID (o_Scope outcome) (o_Operation outcome));
  match current with
  | Err e => mret (Err e)
  | Ok current =>
    if match current with Some c => o_ID c =? o_ID outcome | None => false end then mret (Ok false)
    else query (fun db => HasAudit db st_chainID evmAuditOutcomeConsumed zeroHash (o_ID outcome))
  end.

(** [None] is a nil error. *)
Definition applyTerminal (fence : evmFence) (pending : pendingRecord) (terminal : pendingTerminal) : M (option evm_error) :=
  res ← write (fun actor now => ResolvePending actor now fence pending terminal);
  err ← match res with
        | Ok _ => mret None
        | Err e =>
          if isEvmCommitUnknown e then
            done ← readBackResolved pending terminal;
            match done with Ok true => mret None | _ => mret (Some e) end
          else mret (Some e)
        end;
  match err with
  | None => clearLastSeen (p_Scope pending) (p_ID pending);; mret None
  | Some e => mret (Some e)
  end.

Fixpoint landed_among (kind : pendingTerminalKind) (pending : pendingRecord) (kinds : list pendingTerminalKind) :
    M (result evm_error (pendingTerminalKind * bool)) :=
  match kinds with
  | [] => mret (Ok (kind, false))
  | k :: kinds =>
    landed ← query (fun db => HasAudit db st_chainID (doneEvent k) (p_TxHash pending) 0);
    match landed with
    | Err e => mret (Err e)
    | Ok true => mret (Ok (k, true))
    | Ok false => landed_among kind pending kinds
    end
  end.
Definition landedTerminal (pending : pendingRecord) (kind : pendingTerminalKind) :
    M (result evm_error (pendingTerminalKind * bool)) :=
  landed_among kind pending
    (if bool_decide (kind = terminalSuccessConsume) || bool_decide (kind = terminalSuccessKeep)
     then [terminalSuccessConsume; terminalSuccessKeep] else [kind]).

Definition stashTerminal (fence : evmFence) (scope : SignType) (pending : pendingRecord) (terminal : pendingTerminal) : M unit :=
  upd_memory scope (set_retry (Some (mkRetry pending terminal (f_Epoch fence)))).

(** An answer: the hash (None is the empty string), whether the request is handled, the error. *)
Definition answer : Type := option Hash * bool * option mgr_error.
Definition unhandled : answer := (None, false, None).
Definition handled (e : mgr_error) : answer := (None, true, Some e).
Definition taken (h : Hash) : answer := (Some h, true, None).

Definition set_kind (k : pendingTerminalKind) (t : pendingTerminal) : pendingTerminal :=
  mkTerminal k (t_ReceiptStatus t) (t_ReceiptBlock t) (t_Detail t) (t_Source t).

(** The first part of [retryEvmMemory]: the terminal transition whose write failed.
    [None] means the request goes on. *)
Definition retry_terminal (fence : evmFence) (scope : SignType) (operation : Hash) (retry : evmTerminalRetry) : M (option answer) :=
  let pending := rt_pending retry in
  let terminal := if bool_decide (t_Kind (rt_terminal retry) = terminalSuccessConsume) && negb (p_Operation pending =? operation)
                  then set_kind terminalSuccessKeep (rt_terminal retry) else rt_terminal retry in
  err ← applyTerminal fence pending terminal;
  (** the error left, whether the transition was applied, and its kind *)
  state ← match err with
          | Some errEvmRowGone =>
            landed ← landedTerminal pending (t_Kind (rt_terminal retry));
            match landed with
            | Err e => mret (Err (ErrStore e))
            | Ok (_, false) => mret (Ok (false, terminal))
            | Ok (k, true) =>
              if bool_decide (k = terminalSuccessConsume) then
                upd_memory scope (fun m => set_awaiting (<[p_Operation pending := p_TxHash pending]> (awaiting m)) m);;
                mret (Ok (false, terminal))
              else mret (Ok (true, set_kind k terminal))
            end
          | Some e => mret (Err (ErrStore e))
          | None => mret (Ok (true, terminal))
          end;
  match state with
  | Err e => mret (Some (handled e))
  | Ok (applied, terminal) =>
    upd_memory scope (set_retry None);;
    if (applied : bool) then
      match t_Kind terminal with
      | terminalSuccessConsume => mret (Some (taken (p_TxHash pending)))
      | terminalNotAdmittedNonceLow | terminalNotAdmittedNonceHigh =>
        err ← refreshNonceFromChain scope;
        match err with Some e => mret (Some (handled e)) | None => mret None end
      | _ => mret None
      end
    else mret None
  end.

(** The second part: a consume whose commit is unknown. *)
Definition retry_consume (scope : SignType) (consume : outcomeRecord) : M (option answer) :=
  current ← query (fun db => GetOutcome db st_chainID (o_Scope consume) (o_Operation consume));
  match current with
  | Err e => mret (Some (handled (ErrStore e)))
  | Ok current =>
    if match current with Some c => o_ID c =? o_ID consume | None => false end then
      upd_memory scope (set_consume None);; mret None
    else
      consumed ← query (fun db => HasAudit db st_chainID evmAuditOutcomeConsumed zeroHash (o_ID consume));
      match consumed with
      | Err e => mret (Some (handled (ErrStore e)))
      | Ok consumed =>
        (if (consumed : bool)
         then upd_memory scope (fun m => set_awaiting (<[o_Operation consume := o_ResultTxHash consume]> (awaiting m)) m)
         else mret tt);;
        upd_memory scope (set_consume None);; mret None
      end
  end.

Definition retryEvmMemory (fence : evmFence) (scope : SignType) (operation : Hash) : M (option answer) :=
  mem ← gets (memory scope);
  let stale r := notAdmitted (t_Kind (rt_terminal r)) && negb (rt_epoch r =? f_Epoch fence) in
  retry ← (match terminalRetry mem with
           | Some r => if stale r then upd_memory scope (set_retry None);; mret None else mret (Some r)
           | None => mret None
           end : M (option evmTerminalRetry));
  first ← match retry with
          | Some r => retry_terminal fence scope operation r
          | None => mret None
          end;
  match first with
  | Some a => mret (Some a)
  | None =>
    second ← match consumeUnknown mem with
             | Some c => retry_consume scope c
             | None => mret None
             end;
    match second with
    | Some a => mret (Some a)
    | None =>
      if operation =? zeroHash then mret None
      else
        hash ← gets (fun w => awaiting (memory scope w) !! operation);
        upd_memory scope (fun m => set_awaiting (delete operation (awaiting m)) m);;
        mret (taken <$> hash)
    end
  end.

(** Hands the signed bytes to the node; the trace remembers them. *)
Definition send (signedTx : Tx) : M (option send_error) :=
  put (fun w => set_sent (w_sent w ++ [tx_Hash signedTx]) w);; ask (fun t => sendEvmTxFn t (tx_Hash signedTx)).

Definition rebroadcastPendingEvmTx (signedTx : Tx) : M unit :=
  done ← ask ctx_done;
  if (done : bool) then mret tt
  else _ ← send signedTx; mret tt.
End manager.
