(* ===== verification/EvmAuto.v ===== *)
(** Automatic dispositions: modular/signer/evm_state_auto.go.  A pending row without a
    receipt, and a blocked outcome, are ended when the chain shows how the transaction
    ended; a conclusion that rests on an absence needs a second sighting at a higher
    height. *)
From Stdlib Require Import ZArith Lia.
From stdpp Require Import base gmap list strings.
From S2P Require Import Prelude Sql EvmState EvmStore EvmInv EvmSpec EvmManager.

Local Open Scope Z_scope.

Section auto.
Context {En : Env} {Et : EthTx}.

Definition evmOutcomeSourceAuto : string := "auto".
Definition evmOutcomeSourceSubmit : string := "submit".
Definition evmOutcomeSourceResolve : string := "resolve".
Definition evmReasonReceiptMissing : string := "receipt_missing".
Definition evmReasonNonceGap : string := "nonce_gap".
Definition evmReasonDropped : string := "dropped".
Definition evmEvidenceKindEVM : string := "evm".
Definition evmEvidenceKindCosmos : string := "cosmos".
Definition evmSupersedeWindow : nat := 1000.
(** nanoseconds *)
Definition evmOutcomeCheckInterval : Z := 10000000000.
(** A variable of the source that only tests change. *)
Definition evmFailedTxRollsBack : bool := true.

(** A check passes or fails with an error. *)
Definition checkEvm : M bool :=
  id ← ask evm_ChainID;
  mret match id with
       | None => false
       | Some c => (0 <=? c) && (c <=? MaxUint64) && (c =? st_evmChainID)
       end.
Definition checkCosmos : M bool :=
  net ← ask cosmos_Network;
  mret match net with None => false | Some n => bool_decide (n = st_chainID) end.

Definition observe (scope : SignType) (txHash : Hash) (reason : string) (height : Z) : M bool :=
  seen ← gets (fun w => autoSeen (memory scope w));
  match seen with
  | Some o =>
    if (ob_txHash o =? txHash) && bool_decide (ob_reason o = reason) then mret (height >? ob_height o)
    else upd_memory scope (set_seen (Some (mkObservation txHash reason height)));; mret false
  | None => upd_memory scope (set_seen (Some (mkObservation txHash reason height)));; mret false
  end.
Definition forgetObservation (scope : SignType) : M unit := upd_memory scope (set_seen None).

Definition outcomeCheckDue (id : Z) : M bool :=
  now ← ask local_now;
  last ← gets (fun w => w_checked w !! id);
  if match last with Some l => now - l <? evmOutcomeCheckInterval | None => false end then mret false
  else put (fun w => set_checked (<[id := now]> (w_checked w)) w);; mret true.

Definition set_chain (nonce height : option Z) (e : evmAuditEvent) : evmAuditEvent :=
  mkEvent (a_Event e) (a_Scope e) (a_From e) (a_Nonce e) (a_TxHash e) (a_Operation e) (a_SignedTxID e)
    (a_ReceiptStatus e) (a_ReceiptBlock e) nonce (a_OutcomeID e) (a_OutcomeState e)
    (a_OutcomeReason e) (a_Detail e) (a_EvidenceTxHash e) (a_EvidenceKind e) (a_Actor e) (a_Reason e)
    (a_DecisionRef e) height.
Definition set_receipt (status block : option Z) (e : evmAuditEvent) : evmAuditEvent :=
  mkEvent (a_Event e) (a_Scope e) (a_From e) (a_Nonce e) (a_TxHash e) (a_Operation e) (a_SignedTxID e)
    status block (a_ChainNonce e) (a_OutcomeID e) (a_OutcomeState e)
    (a_OutcomeReason e) (a_Detail e) (a_EvidenceTxHash e) (a_EvidenceKind e) (a_Actor e) (a_Reason e)
    (a_DecisionRef e) (a_ChainHeight e).
Definition set_evidence (hash kind : string) (e : evmAuditEvent) : evmAuditEvent :=
  mkEvent (a_Event e) (a_Scope e) (a_From e) (a_Nonce e) (a_TxHash e) (a_Operation e) (a_SignedTxID e)
    (a_ReceiptStatus e) (a_ReceiptBlock e) (a_ChainNonce e) (a_OutcomeID e) (a_OutcomeState e)
    (a_OutcomeReason e) (a_Detail e) hash kind (a_Actor e) (a_Reason e) (a_DecisionRef e) (a_ChainHeight e).
Definition set_outcome (id : option Z) (state : option evmOutcomeState) (reason : string) (e : evmAuditEvent) : evmAuditEvent :=
  mkEvent (a_Event e) (a_Scope e) (a_From e) (a_Nonce e) (a_TxHash e) (a_Operation e) (a_SignedTxID e)
    (a_ReceiptStatus e) (a_ReceiptBlock e) (a_ChainNonce e) id state
    reason (a_Detail e) (a_EvidenceTxHash e) (a_EvidenceKind e) (a_Actor e) (a_Reason e)
    (a_DecisionRef e) (a_ChainHeight e).

Definition withCosmosEvidence (event : evmAuditEvent) (view : CosmosTxView) : evmAuditEvent :=
  let event := set_evidence (v_Hash view) evmEvidenceKindCosmos event in
  if v_Height view =? 0 then event else set_receipt (a_ReceiptStatus event) (Some (v_Height view)) event.

(** The zero record with some fields. *)
Definition partial_outcome (state : evmOutcomeState) (res : Hash) (block : Z) (reason source : string) : outcomeRecord :=
  mkOutcome 0 0 "" "" zeroHash 0 0 zeroHash res state "" "" reason block source.
Definition autoBlocked (reason : string) : outcomeRecord :=
  partial_outcome evmOutcomeBlockedUnknown zeroHash 0 reason evmOutcomeSourceAuto.

(** [(moved, err)] *)
Definition applyAutoPending (fence : evmFence) (scope : SignType) (pending : pendingRecord) (res : option outcomeRecord)
    (event : evmAuditEvent) (nextNonce : Z) : M (bool * option mgr_error) :=
  let event := match res with
               | Some o => set_outcome (Some (p_ID pending)) (Some (o_State o)) (o_Reason o) event
               | None => event
               end in
  r ← write (fun actor now => AutoResolvePending actor now fence pending res event);
  err ← match r with
        | Ok _ => mret None
        | Err e =>
          if isEvmCommitUnknown e then
            current ← query (fun db => GetPending db st_chainID scope);
            match current with
            | Ok c =>
              if match c with Some c => p_ID c =? p_ID pending | None => false end then mret (Some e)
              else
                done ← query (fun db => HasAudit db st_chainID (a_Event event) (p_TxHash pending) 0);
                match done with Ok true => mret None | _ => mret (Some e) end
            | Err _ => mret (Some e)
            end
          else mret (Some e)
        end;
  match err with
  | Some errEvmRowGone => mret (true, None)
  | Some e => mret (false, Some (ErrStore e))
  | None =>
    clearLastSeen scope (p_ID pending);;
    forgetObservation scope;;
    (if bool_decide (keyAddress scope = Some (p_From pending)) && nonceCache scope
     then set_nonce scope nextNonce else mret tt);;
    mret (true, None)
  end.

(** The branch for a nonce the chain has passed. *)
Definition dispose_used_nonce (fence : evmFence) (scope : SignType) (pending : pendingRecord) (base : evmAuditEvent)
    (height chainNonce : Z) : M (bool * option mgr_error) :=
  if negb has_cosmos then mret (false, None)
  else
    ok ← checkCosmos;
    if negb ok then mret (false, Some ErrChain)
    else
      view ← ask (fun t => SearchEthereumTx t (p_TxHash pending) height);
      match view with
      | Err errCosmosIndexDisabled => mret (false, None)
      | Err ErrSearch => mret (false, Some ErrChain)
      | Ok (Some view) =>
        if negb (v_Code view =? 0) then
          if negb evmFailedTxRollsBack then mret (false, None)
          else
            d ← ask detail;
            applyAutoPending fence scope pending None
              (set_detail d (set_event evmAuditAutoResolvedFailed (withCosmosEvidence base view))) chainNonce
        else forgetObservation scope;; mret (false, None)
      | Ok None =>
        again ← observe scope (p_TxHash pending) evmReasonReceiptMissing height;
        if negb again then mret (false, None)
        else
          d ← ask detail;
          applyAutoPending fence scope pending (Some (autoBlocked evmReasonReceiptMissing))
            (set_detail d (set_event evmAuditAutoBlockedMissing base)) chainNonce
      end.

(** The branch for a nonce that may still be used: [(moved, sent, err)]. *)
Definition dispose_open_nonce (fence : evmFence) (scope : SignType) (pending : pendingRecord) (signedTx : Tx)
    (base : evmAuditEvent) (height chainNonce : Z) : M (bool * bool * option mgr_error) :=
  pendingNonce ← ask (fun t => PendingNonceAt t (p_From pending));
  match pendingNonce with
  | None => mret (false, false, Some ErrChain)
  | Some pendingNonce =>
    if negb (pendingNonce =? chainNonce) then forgetObservation scope;; mret (false, false, None)
    else
      sendErr ← send signedTx;
      done ← ask ctx_done;
      let classified := classifyEvmSendError done sendErr in
      let high := match sendErr with Some e => isEvmNonceHighError (se_Error e) | None => false end in
      let conclusion :=
        if (chainNonce =? p_Nonce pending) && bool_decide (classified = evmSendRejected)
        then Some (evmReasonDropped, evmAuditAutoBlockedDropped)
        else if (chainNonce <? p_Nonce pending) && bool_decide (classified = evmSendNonceRejected) && high
        then Some (evmReasonNonceGap, evmAuditAutoBlockedNonceGap) else None in
      match conclusion with
      | None => forgetObservation scope;; mret (false, true, None)
      | Some (reason, ev) =>
        again ← observe scope (p_TxHash pending) reason height;
        if negb again then mret (false, true, None)
        else
          d ← ask detail;
          r ← applyAutoPending fence scope pending (Some (autoBlocked reason)) (set_detail d (set_event ev base)) chainNonce;
          mret (r.1, true, r.2)
      end
  end.

Definition autoDisposePending (fence : evmFence) (scope : SignType) (pending : pendingRecord) (signedTx : Tx) :
    M (bool * bool * option mgr_error) :=
  if negb has_autoChain then mret (false, false, None)
  else
    ok ← checkEvm;
    if negb ok then mret (false, false, Some ErrChain)
    else
      height ← ask BlockNumber;
      match height with
      | None => mret (false, false, Some ErrChain)
      | Some height =>
        chainNonce ← ask (fun t => NonceAt t (p_From pending) height);
        match chainNonce with
        | None => mret (false, false, Some ErrChain)
        | Some chainNonce =>
          let base := set_chain (Some chainNonce) (Some height) (pending_audit pending (evmAuditOther "")) in
          if chainNonce >? p_Nonce pending then
            r ← dispose_used_nonce fence scope pending base height chainNonce; mret (r.1, false, r.2)
          else dispose_open_nonce fence scope pending signedTx base height chainNonce
        end
      end.

Definition supersededBy (base : evmAuditEvent) (row : signedTxEvidence) (d : string) : evmAuditEvent :=
  set_detail d (set_evidence (Hex (e_TxHash row)) evmEvidenceKindEVM (set_event evmAuditAutoOutcomeSuperseded base)).

Definition applyAutoOutcome (fence : evmFence) (outcome : outcomeRecord) (to : option outcomeRecord) (event : evmAuditEvent) :
    M (bool * option mgr_error) :=
  let event := match to with
               | Some o => set_outcome (a_OutcomeID event) (Some (o_State o)) (a_OutcomeReason event) event
               | None => event
               end in
  r ← write (fun actor now => AutoSettleOutcome actor now fence outcome [evmOutcomeBlockedUnknown] to event);
  err ← match r with
        | Ok _ => mret None
        | Err e =>
          if isEvmCommitUnknown e then
            done ← query (fun db => HasAudit db st_chainID (a_Event event) zeroHash (o_ID outcome));
            match done with Ok true => mret None | _ => mret (Some e) end
          else mret (Some e)
        end;
  match err with
  | Some errEvmRowGone | Some errEvmStateConflict => mret (true, None)
  | Some e => mret (false, Some (ErrStore e))
  | None => put (fun w => set_checked (delete (o_ID outcome) (w_checked w)) w);; mret (true, None)
  end.

Definition receiptAtOrBelow (hash : Hash) (height : Z) : M (option bool) :=
  r ← ask (fun t => transactionReceiptFn t hash);
  mret match r with
       | None => None
       | Some None => Some false
       | Some (Some r) => Some match r_BlockNumber r with Some b => b <=? height | None => false end
       end.

(** [keep]: only the first failed read is reported. *)
Definition keep (readErr : option mgr_error) (e : mgr_error) : option mgr_error :=
  match readErr with Some _ => readErr | None => Some e end.

(** The receipts of the other transactions at the nonce: an answer, or the rows to
    search for and the first failed read. *)
Fixpoint settle_by_receipt (fence : evmFence) (outcome : outcomeRecord) (base : evmAuditEvent) (height : Z)
    (rows : list signedTxEvidence) (others : list signedTxEvidence) (readErr : option mgr_error) :
    M (bool * option mgr_error + list signedTxEvidence * option mgr_error) :=
  match rows with
  | [] => mret (inr (others, readErr))
  | row :: rows =>
    if e_TxHash row =? o_TxHash outcome then settle_by_receipt fence outcome base height rows others readErr
    else
      let ref := mkRef (e_ID row) (e_ChainID row) (e_Scope row) (e_Operation row) (e_From row) (e_Nonce row) (e_TxHash row) in
      match verify (Some row) ref with
      | Err _ => settle_by_receipt fence outcome base height rows others readErr
      | Ok _ =>
        included ← receiptAtOrBelow (e_TxHash row) height;
        match included with
        | Some true =>
          d ← ask detail; r ← applyAutoOutcome fence outcome None (supersededBy base row d); mret (inl r)
        | Some false => settle_by_receipt fence outcome base height rows (others ++ [row]) readErr
        | None => settle_by_receipt fence outcome base height rows (others ++ [row]) (keep readErr ErrChain)
        end
      end
  end.

Fixpoint settle_by_index (fence : evmFence) (outcome : outcomeRecord) (base : evmAuditEvent) (height : Z)
    (others : list signedTxEvidence) (readErr : option mgr_error) : M (bool * option mgr_error) :=
  match others with
  | [] => mret (false, readErr)
  | row :: others =>
    view ← ask (fun t => SearchEthereumTx t (e_TxHash row) height);
    match view with
    | Err errCosmosIndexDisabled => mret (false, readErr)
    | Err ErrSearch => settle_by_index fence outcome base height others (keep readErr ErrChain)
    | Ok (Some _) => d ← ask detail; applyAutoOutcome fence outcome None (supersededBy base row d)
    | Ok None => settle_by_index fence outcome base height others readErr
    end
  end.

Definition settle_by_cosmos (fence : evmFence) (outcome : outcomeRecord) (base : evmAuditEvent) (height : Z)
    (others : list signedTxEvidence) (readErr : option mgr_error) : M (bool * option mgr_error) :=
  if negb has_cosmos then mret (false, readErr)
  else
    ok ← checkCosmos;
    if negb ok then mret (false, keep readErr ErrChain)
    else
      view ← ask (fun t => SearchEthereumTx t (o_TxHash outcome) height);
      match view with
      | Err errCosmosIndexDisabled => mret (false, readErr)
      | Err ErrSearch => settle_by_index fence outcome base height others (keep readErr ErrChain)
      | Ok (Some view) =>
        if negb (v_Code view =? 0) && evmFailedTxRollsBack then
          d ← ask detail;
          applyAutoOutcome fence outcome None
            (set_detail d (set_event evmAuditAutoOutcomeFailed (withCosmosEvidence base view)))
        else settle_by_index fence outcome base height others readErr
      | Ok None => settle_by_index fence outcome base height others readErr
      end.

Definition autoSettleOutcome (fence : evmFence) (outcome : outcomeRecord) : M (bool * option mgr_error) :=
  if negb has_autoChain || negb (bool_decide (o_State outcome = evmOutcomeBlockedUnknown)) then mret (false, None)
  else
    due ← outcomeCheckDue (o_ID outcome);
    if negb due then mret (false, None)
    else
      ok ← checkEvm;
      if negb ok then mret (false, Some ErrChain)
      else
        height ← ask BlockNumber;
        match height with
        | None => mret (false, Some ErrChain)
        | Some height =>
          let base := set_chain None (Some height) (outcome_audit outcome (evmAuditOther "")) in
          let others readErr :=
            rows ← query (fun db => ListSignedTxAtNonce db st_chainID (o_From outcome) (o_Nonce outcome)
                                      (o_SignedTxID outcome) evmSupersedeWindow);
            match rows with
            | Err e => mret (false, Some (ErrStore e))
            | Ok rows =>
              r ← settle_by_receipt fence outcome base height rows [] readErr;
              match r with
              | inl r => mret r
              | inr (others, readErr) => settle_by_cosmos fence outcome base height others readErr
              end
            end in
          receipt ← ask (fun t => transactionReceiptFn t (o_TxHash outcome));
          match receipt with
          | None => others (Some ErrChain)
          | Some (Some (mkReceipt status (Some block))) =>
            if block >? height then others None
            else
              let event := set_receipt (Some status) (Some block) base in
              if negb (status =? ReceiptStatusSuccessful) then
                applyAutoOutcome fence outcome None (set_event evmAuditAutoOutcomeFailed event)
              else
                applyAutoOutcome fence outcome
                  (Some (partial_outcome evmOutcomeSucceeded (o_TxHash outcome) block "" evmOutcomeSourceAuto))
                  (set_event evmAuditAutoOutcomeSucceeded event)
          | Some _ => others None
          end
        end.
End auto.
