(* ===== verification/EvmResolve.v ===== *)
(** The signer's EVM requests: resolving the recorded state before signing
    ([resolvePendingEvmTx], evm_state_manager.go), submitting a signed transaction
    ([submitEvmTx], signer_client.go), and the lease loop (evm_lease.go). *)
From Stdlib Require Import ZArith Lia.
From stdpp Require Import base gmap list strings.
From S2P Require Import Prelude Sql EvmState EvmStore EvmInv EvmSpec EvmManager EvmAuto.

Local Open Scope Z_scope.

Section resolve.
Context {En : Env} {Et : EthTx}.

(** ** Resolving before signing *)

Definition evmResolveMaxDepth : nat := 4.

(** [again] is [resolveEvmState] one level deeper. *)
Definition consumeOutcome (again : M answer) (fence : evmFence) (scope : SignType) (outcome : outcomeRecord) : M answer :=
  r ← write (fun actor now => ConsumeOutcome actor now fence outcome);
  match r with
  | Ok _ => mret (taken (o_ResultTxHash outcome))
  | Err errEvmRowGone => again
  | Err e =>
    if isEvmCommitUnknown e then
      consumed ← readBackConsumed outcome;
      match consumed with
      | Ok true => mret (taken (o_ResultTxHash outcome))
      | _ => upd_memory scope (set_consume (Some outcome));; mret (handled (ErrStore e))
      end
    else mret (handled (ErrStore e))
  end.

(** Step 3: an active outcome of the operation. [None]: there is none. *)
Definition resolve_outcome (again : M answer) (fence : evmFence) (scope : SignType) (operation : Hash) : M (option answer) :=
  outcome ← query (fun db => GetOutcome db st_chainID scope operation);
  match outcome with
  | Err e => mret (Some (handled (ErrStore e)))
  | Ok None => mret None
  | Ok (Some outcome) =>
    ev ← loadEvidence (Some fence) "outcome" (o_ID outcome) (outcome_ref outcome) (outcome_audit outcome (evmAuditOther ""));
    match ev with
    | Err e => mret (Some (handled e))
    | Ok _ =>
      match o_State outcome with
      | evmOutcomeSucceeded => a ← consumeOutcome again fence scope outcome; mret (Some a)
      | evmOutcomeExecutedElsewhere => mret (Some (handled (ErrExecutedElsewhere (o_ID outcome))))
      | evmOutcomeBlockedUnknown =>
        r ← autoSettleOutcome fence outcome;
        if (r.1 : bool) then a ← again; mret (Some a)
        else mret (Some (handled (ErrBlocked (o_ID outcome))))
      end
    end
  end.

(** Step 4 without a pending row: was one removed by someone else? *)
Definition resolve_vanished (fence : evmFence) (scope : SignType) : M answer :=
  lastSeen ← gets (fun w => lastSeenPending (memory scope w));
  if lastSeen =? 0 then mret unhandled
  else
    d ← ask detail;
    r ← write (fun actor now => AppendAudit actor now (Some fence) st_chainID
          (mkEvent evmAuditPendingVanished scope 0 None zeroHash zeroHash None None None None None None "" d "" "" "" "" "" None));
    match r with
    | Err e => mret (handled (ErrStore e))
    | Ok _ =>
      err ← refreshNonceFromChain scope;
      match err with
      | Some e => mret (handled e)
      | None => clearLastSeen scope lastSeen;; mret unhandled
      end
    end.

(** The terminal state a receipt decides. *)
Definition receipt_terminal (pending : pendingRecord) (operation : Hash) (r : receipt) : pendingTerminal :=
  mkTerminal
    (if r_Status r =? ReceiptStatusSuccessful
     then if p_Operation pending =? operation then terminalSuccessConsume else terminalSuccessKeep
     else terminalFailed)
    (Some (r_Status r)) (default 0 (r_BlockNumber r)) "" evmOutcomeSourceResolve.

(** Step 4 with a pending row. *)
Definition resolve_pending (again : M answer) (fence : evmFence) (scope : SignType) (operation : Hash)
    (pending : pendingRecord) : M answer :=
  setLastSeen scope (p_ID pending);;
  ev ← loadEvidence (Some fence) "pending" (p_ID pending) (pending_ref pending) (pending_audit pending (evmAuditOther ""));
  match ev with
  | Err e => mret (Some (p_TxHash pending), true, Some e)
  | Ok signedTx =>
    receipt ← ask (fun t => transactionReceiptFn t (p_TxHash pending));
    match receipt with
    | Some (Some receipt) =>
      let terminal := receipt_terminal pending operation receipt in
      err ← applyTerminal fence pending terminal;
      match err with
      | Some errEvmRowGone => again
      | Some e => stashTerminal fence scope pending terminal;; mret (handled (ErrStore e))
      | None =>
        if bool_decide (t_Kind terminal = terminalSuccessConsume) then mret (taken (p_TxHash pending)) else mret unhandled
      end
    | _ =>
      '(moved, sent, _) ← autoDisposePending fence scope pending signedTx;
      if (moved : bool) then again
      else
        (if (sent : bool) then mret tt else rebroadcastPendingEvmTx signedTx);;
        mret (Some (p_TxHash pending), true, Some ErrUnconfirmed)
    end
  end.

Fixpoint resolveEvmState (depth : nat) (fence : evmFence) (scope : SignType) (operation : Hash) : M answer :=
  match depth with
  | O => mret (handled ErrKeepsChanging)
  | S depth =>
    let again := resolveEvmState depth fence scope operation in
    first ← retryEvmMemory fence scope operation;
    match first with
    | Some a => mret a
    | None =>
      second ← (if operation =? zeroHash then mret None else resolve_outcome again fence scope operation);
      match second with
      | Some a => mret a
      | None =>
        pending ← query (fun db => GetPending db st_chainID scope);
        match pending with
        | Err e => mret (handled (ErrStore e))
        | Ok None => resolve_vanished fence scope
        | Ok (Some pending) => resolve_pending again fence scope operation pending
        end
      end
    end
  end.

(** The lease to write under (evm_lease.go). *)
Definition lease_fence : M (option evmFence) :=
  now ← ask local_now;
  lv ← gets w_lease;
  mret (if negb (lv_held lv) || (now - lv_lastRenew lv >? lease_ttl `quot` 2) then None
        else Some (mkFence st_chainID lease_owner (lv_epoch lv))).

Definition is_unsynced (e : mgr_error) : bool := match e with errEvmNonceUnsynced => true | _ => false end.

Definition resolvePendingEvmTx (scope : SignType) (operation : Hash) : M answer :=
  if negb configured then mret (handled errEvmStateNotConfigured)
  else
    fence ← lease_fence;
    match fence with
    | None => mret (handled (ErrStore errEvmLeaseNotHeld))
    | Some fence =>
      syncErr ← syncEvmScopeEpoch fence scope None;
      match syncErr with
      | Some e =>
        if negb (is_unsynced e) then mret (handled e)
        else
          a ← resolveEvmState (S evmResolveMaxDepth) fence scope operation;
          if (a.1.2 : bool) then mret a else mret (handled e)
      | None => resolveEvmState (S evmResolveMaxDepth) fence scope operation
      end
    end.

(** ** Submitting (signer_client.go) *)

Definition recordPendingEvmTx (fence : evmFence) (scope : SignType) (operation : Hash) (signedTx : Tx) (raw : list Z) :
    M (result mgr_error pendingRecord) :=
  match tx_ChainId signedTx with
  | None => mret (Err ErrChain)
  | Some chainId =>
    if negb ((0 <=? chainId) && (chainId <=? MaxUint64)) then mret (Err ErrChain)
    else match tx_Sender signedTx with
    | None => mret (Err ErrChain)
    | Some from =>
      block ← ask BlockNumber;
      match block with
      | None => mret (Err ErrChain)
      | Some block =>
        let txHash := tx_Hash signedTx in
        let evidence := mkEvidence 0 st_chainID chainId scope operation from (tx_Nonce signedTx) txHash raw block 0 in
        let pending := mkPending 0 st_chainID 0 scope from (tx_Nonce signedTx) txHash operation false 0 in
        res ← write (fun actor now => Record_ actor now fence evidence pending);
        recorded ← match res with
                   | Ok p => mret (Ok p)
                   | Err e =>
                     if isEvmCommitUnknown e then
                       current ← query (fun db => GetPending db st_chainID scope);
                       match current with
                       | Ok (Some c) => if p_TxHash c =? txHash then mret (Ok c) else mret (Err e)
                       | _ => mret (Err e)
                       end
                     else mret (Err e)
                   end;
        match recorded with
        | Err e => mret (Err (ErrNotRecorded e))
        | Ok p => setLastSeen scope (p_ID p);; mret (Ok p)
        end
      end
    end
  end.

Definition markPendingEvmTxAmbiguous (fence : evmFence) (pending : pendingRecord) : M unit :=
  _ ← write (fun actor now => MarkAmbiguous actor now fence pending); mret tt.

Definition finishPendingEvmTx (fence : evmFence) (pending : pendingRecord) (terminal : pendingTerminal) : M (option evm_error) :=
  err ← applyTerminal fence pending terminal;
  match err with
  | Some e => stashTerminal fence (p_Scope pending) pending terminal;; mret (Some e)
  | None => mret None
  end.

Definition BroadcastTxRetry : nat := 3.

(** The loop that re-sends the same bytes, [attempts] more times at most. *)
Fixpoint resend (signedTx : Tx) (attempts : nat) : M unit :=
  match attempts with
  | O => mret tt
  | S attempts =>
    done ← ask ctx_done;
    if (done : bool) then mret tt
    else
      resendErr ← send signedTx;
      done ← ask ctx_done;
      if evmNodeAnswered done resendErr then mret tt else resend signedTx attempts
  end.

(** The wait for the receipt, and the transition it decides. *)
Definition await_receipt (fence : evmFence) (pending : pendingRecord) (txHash : Hash) : M (option Hash * option mgr_error) :=
  receipt ← ask (fun t => waitForEvmTxFn t txHash);
  match receipt with
  | None => mret (Some txHash, Some ErrWaitReceipt)
  | Some receipt =>
    err ← finishPendingEvmTx fence pending
            (mkTerminal terminalSuccessConsume (Some (r_Status receipt)) (default 0 (r_BlockNumber receipt)) ""
               evmOutcomeSourceSubmit);
    match err with
    | Some e => mret (Some txHash, Some (ErrNotRecorded e))
    | None =>
      (** the log line reads [receipt.BlockNumber.Uint64()] *)
      mret (Some txHash, match r_BlockNumber receipt with Some _ => None | None => Some PanicNilBlockNumber end)
    end
  end.

(** A refusal: the row is ended with [kind] before the error is returned. *)
Definition refuse (fence : evmFence) (pending : pendingRecord) (kind : pendingTerminalKind) (e : send_error)
    (err : mgr_error) : M (option Hash * option mgr_error) :=
  res ← finishPendingEvmTx fence pending (mkTerminal kind None 0 (se_Error e) "");
  match res with
  | Some e => mret (None, Some (ErrRefusalNotRecorded (ErrStore e)))
  | None => mret (None, Some err)
  end.

(** [raw] is [signedTx.MarshalBinary()]. *)
Definition submitEvmTx (scope : SignType) (operation : Hash) (signedTx : Tx) (raw : option (list Z)) :
    M (option Hash * option mgr_error) :=
  done ← ask ctx_done;
  if (done : bool) then mret (None, Some ErrContext)
  else if negb configured then mret (None, Some errEvmStateNotConfigured)
  else
    fence ← lease_fence;
    match fence, raw with
    | None, _ => mret (None, Some (ErrStore errEvmLeaseNotHeld))
    | _, None => mret (None, Some ErrChain)
    | Some fence, Some raw =>
      recorded ← recordPendingEvmTx fence scope operation signedTx raw;
      match recorded with
      | Err e => mret (None, Some e)
      | Ok pending =>
        sendErr ← send signedTx;
        done ← ask ctx_done;
        match classifyEvmSendError done sendErr, sendErr with
        | evmSendNonceRejected, Some e =>
          refuse fence pending (if isEvmNonceHighError (se_Error e) then terminalNotAdmittedNonceHigh else terminalNotAdmittedNonceLow)
            e (evmNonceRejectedError e)
        | evmSendRejected, Some e => refuse fence pending terminalNotAdmittedRejected e (ErrSend e)
        | evmSendAmbiguous, _ =>
          markPendingEvmTxAmbiguous fence pending;;
          resend signedTx (BroadcastTxRetry - 1);;
          await_receipt fence pending (tx_Hash signedTx)
        | _, _ => await_receipt fence pending (tx_Hash signedTx)
        end
      end
    end.

(** ** The lease loop (evm_lease.go) *)

Definition lose (fence : evmFence) (reason : string) : M unit :=
  lv ← gets w_lease;
  if negb (lv_held lv) || negb (lv_epoch lv =? f_Epoch fence) then mret tt
  else
    put (set_lease (mkLeaseView false (lv_epoch lv) (lv_lastRenew lv)));;
    _ ← write (fun actor now => AppendAudit actor now None st_chainID (plain_event evmAuditLeaseLost reason)); mret tt.

(** [lease_ttl] is in nanoseconds, the database's clock in microseconds. *)
Definition ttl_Microseconds : Z := lease_ttl `quot` 1000.

Definition tick : M unit :=
  lv ← gets w_lease;
  if negb (lv_held lv) then
    res ← write (fun actor now => AcquireLease actor now st_chainID lease_owner ttl_Microseconds);
    match res with
    | Ok (newEpoch, true) => now ← ask local_now; put (set_lease (mkLeaseView true newEpoch now))
    | _ => mret tt
    end
  else
    let fence := mkFence st_chainID lease_owner (lv_epoch lv) in
    renewed ← statement (fun now => RenewLease now fence ttl_Microseconds);
    match renewed with
    | Ok true =>
      now ← ask local_now;
      put (fun w => set_lease (mkLeaseView (lv_held (w_lease w)) (lv_epoch (w_lease w)) now) w)
    | Ok false => lose fence "renewal found the lease taken or expired"
    | Err _ =>
      now ← ask local_now;
      if now - lv_lastRenew lv >? lease_ttl then d ← ask detail; lose fence d else mret tt
    end.

Definition stop : M unit :=
  lv ← gets w_lease;
  put (set_lease (mkLeaseView false (lv_epoch lv) (lv_lastRenew lv)));;
  if negb (lv_held lv) then mret tt
  else _ ← statement (fun _ => ReleaseLease (mkFence st_chainID lease_owner (lv_epoch lv))); mret tt.
End resolve.
