(* ===== verification/EvmRecovery.v ===== *)
(** Start and recovery of the signer's EVM state: modular/signer/evm_state_recovery.go,
    and [backgroundSettleOutcomes] of evm_state_auto.go.  Work the source spawns on
    other goroutines is returned as [job]s, which run as operations of their own. *)
From Stdlib Require Import ZArith Lia.
From stdpp Require Import base gmap list strings.
From S2P Require Import Prelude Sql EvmState EvmStore EvmInv EvmSpec EvmManager EvmAuto EvmResolve.

Local Open Scope Z_scope.

Inductive job :=
| JobResolve (scope : SignType)
| JobSettle (fence : evmFence).

Inductive start_error :=
| StartNotConfigured
| StartRead (e : mgr_error)
| StartForeignChains (ids : gset string)
| StartInvalidPending (ids : list Z).

Definition evidence_invalid (e : mgr_error) : bool :=
  match e with ErrStore errEvmEvidenceInvalid => true | _ => false end.

Section recovery.
Context {En : Env} {Et : EthTx}.

Definition load_pending (fence : option evmFence) (p : pendingRecord) : M (result mgr_error Tx) :=
  loadEvidence fence "pending" (p_ID p) (pending_ref p) (pending_audit p (evmAuditOther "")).
Definition load_outcome (fence : option evmFence) (o : outcomeRecord) : M (result mgr_error Tx) :=
  loadEvidence fence "outcome" (o_ID o) (outcome_ref o) (outcome_audit o (evmAuditOther "")).

(** The pending rows whose evidence is invalid, or the first other error. *)
Fixpoint check_pendings (pendings : list pendingRecord) (invalid : list Z) : M (result mgr_error (list Z)) :=
  match pendings with
  | [] => mret (Ok invalid)
  | p :: pendings =>
    ev ← load_pending None p;
    match ev with
    | Ok _ => check_pendings pendings invalid
    | Err e => if evidence_invalid e then check_pendings pendings (invalid ++ [p_ID p]) else mret (Err e)
    end
  end.

Fixpoint check_outcomes (outcomes : list outcomeRecord) : M (option mgr_error) :=
  match outcomes with
  | [] => mret None
  | o :: outcomes =>
    ev ← load_outcome None o;
    match ev with
    | Ok _ => check_outcomes outcomes
    | Err e => if evidence_invalid e then check_outcomes outcomes else mret (Some e)
    end
  end.

(** [None] is a nil error. *)
Definition checkEvmStateOnStart : M (option start_error) :=
  if negb configured then mret (Some StartNotConfigured)
  else
    foreign ← query (fun db => ForeignChainIDs db st_chainID);
    match foreign with
    | Err e => mret (Some (StartRead (ErrStore e)))
    | Ok foreign =>
      if negb (bool_decide (foreign = ∅)) then mret (Some (StartForeignChains foreign))
      else
        pendings ← query (fun db => ListPending db st_chainID);
        match pendings with
        | Err e => mret (Some (StartRead (ErrStore e)))
        | Ok pendings =>
          invalid ← check_pendings pendings [];
          match invalid with
          | Err e => mret (Some (StartRead e))
          | Ok invalid =>
            outcomes ← query (fun db => ListOutcomes db st_chainID);
            match outcomes with
            | Err e => mret (Some (StartRead (ErrStore e)))
            | Ok outcomes =>
              err ← check_outcomes outcomes;
              mret match err with
                   | Some e => Some (StartRead e)
                   | None => if bool_decide (invalid = []) then None else Some (StartInvalidPending invalid)
                   end
            end
          end
        end
    end.

Fixpoint audit_loaded (fence : evmFence) (pendings : list pendingRecord) : M unit :=
  match pendings with
  | [] => mret tt
  | p :: pendings =>
    ev ← load_pending (Some fence) p;
    match ev with
    | Err _ => audit_loaded fence pendings
    | Ok _ =>
      d ← ask detail;
      let differs := match keyAddress (p_Scope p) with Some addr => negb (addr =? p_From p) | None => false end in
      let event := pending_audit p evmAuditLoadedOnStart in
      _ ← write (fun actor now => AppendAudit actor now (Some fence) st_chainID (if differs then set_detail d event else event));
      audit_loaded fence pendings
    end
  end.

Fixpoint load_outcomes (fence : evmFence) (outcomes : list outcomeRecord) : M unit :=
  match outcomes with
  | [] => mret tt
  | o :: outcomes => _ ← load_outcome (Some fence) o; load_outcomes fence outcomes
  end.

Definition recovered_scopes : list SignType := [SignOperator; SignSeal; SignGc].

(** [byScope]: a later row of a scope overwrites an earlier one. *)
Definition byScope (pendings : list pendingRecord) (scope : SignType) : option pendingRecord :=
  last (filter (fun p => p_Scope p = scope) pendings).

Fixpoint sync_scopes (fence : evmFence) (pendings : list pendingRecord) (scopes : list SignType) : M unit :=
  match scopes with
  | [] => mret tt
  | scope :: scopes => _ ← syncEvmScopeEpoch fence scope (byScope pendings scope); sync_scopes fence pendings scopes
  end.

Definition recoverEvmState (fence : evmFence) : M (list job) :=
  pendings ← query (fun db => ListPending db st_chainID);
  match pendings with
  | Err _ => mret []
  | Ok pendings =>
    audit_loaded fence pendings;;
    outcomes ← query (fun db => ListOutcomes db st_chainID);
    match outcomes with Ok outcomes => load_outcomes fence outcomes | Err _ => mret tt end;;
    sync_scopes fence pendings recovered_scopes;;
    mret ((JobResolve <$> filter (fun s => is_Some (byScope pendings s)) recovered_scopes) ++ [JobSettle fence])
  end.

(** [scopeLock] knows the scopes that have a nonce cache. *)
Definition backgroundResolveEvm (scope : SignType) : M unit :=
  if negb (nonceCache scope) then mret tt else _ ← resolvePendingEvmTx scope zeroHash; mret tt.

Fixpoint settle_all (fence : evmFence) (outcomes : list outcomeRecord) : M unit :=
  match outcomes with
  | [] => mret tt
  | o :: outcomes =>
    (if bool_decide (o_State o = evmOutcomeBlockedUnknown) && nonceCache (o_Scope o) then
       ev ← load_outcome (Some fence) o;
       match ev with Ok _ => _ ← autoSettleOutcome fence o; mret tt | Err _ => mret tt end
     else mret tt);;
    settle_all fence outcomes
  end.

Definition backgroundSettleOutcomes (fence : evmFence) : M unit :=
  outcomes ← query (fun db => ListOutcomes db st_chainID);
  match outcomes with Ok outcomes => settle_all fence outcomes | Err _ => mret tt end.

Definition run_job (j : job) : M unit :=
  match j with
  | JobResolve scope => backgroundResolveEvm scope
  | JobSettle fence => backgroundSettleOutcomes fence
  end.
End recovery.
