(* ===== verification/EvmRun.v ===== *)
(** What every function of the signer does to the shared database: only store calls, and
    no bytes are sent whose evidence is not stored.  [quiet P m] states this for the
    computation [m] where [P] holds of the database; the lemmas compose it along the
    monad, so that each function is proved by the shape of its definition. *)
From Stdlib Require Import ZArith Lia.
From stdpp Require Import base gmap list strings.
From S2P Require Import Prelude Sql EvmState EvmStore EvmInv EvmSpec EvmManager EvmAuto EvmResolve EvmRecovery.

Local Open Scope Z_scope.

(** ** Databases reached by store calls *)

Definition reach (db db' : evm_db) : Prop := exists n, evm_steps n db db'.

Lemma steps_trans n m db1 db2 db3 : evm_steps n db1 db2 -> evm_steps m db2 db3 -> evm_steps (m + n) db1 db3.
Proof. intros H1 H2. revert H1. induction H2; intros H1; [done|]. apply steps_call; auto. Qed.

#[export] Instance reach_preorder : PreOrder reach.
Proof.
  split.
  - intros db. exists 0%nat. constructor.
  - intros a b c [n Hn] [m Hm]. exists (m + n)%nat. by eapply steps_trans.
Qed.

Lemma reach_run f actor now c db : call_ok c -> reach db (run f actor now c db).1.
Proof. intros H. exists 1%nat. apply steps_call; [constructor|done]. Qed.

Lemma reach_wf db db' : reach db db' -> db_wf db -> db_wf db'.
Proof. intros [n H]. by eapply steps_wf. Qed.

(** Facts about the database that no store call undoes. *)
Class Stable (P : evm_db -> Prop) : Prop :=
  stable db db' : db_wf db -> reach db db' -> P db -> P db'.

#[export] Instance stable_true : Stable (fun _ => True).
Proof. done. Qed.
#[export] Instance stable_and P Q : Stable P -> Stable Q -> Stable (fun db => P db /\ Q db).
Proof. intros HP HQ db db' W R [? ?]. split; [by eapply HP|by eapply HQ]. Qed.

(** Evidence is stored for the hash. *)
Definition recorded (h : Hash) (db : evm_db) : Prop := exists i e, signed db !! i = Some e /\ e_TxHash e = h.

Lemma steps_signed n db db' : evm_steps n db db' -> db_wf db -> signed db ⊆ signed db'.
Proof.
  intros H W. induction H as [|n db db' f actor now c Hs IH Hok]; [done|]. etrans; [by apply IH|].
  destruct (run_cases f actor now c db') as [-> |(db'' & u & E & ->)]; [done|].
  assert (db_wf db') as W' by by eapply steps_wf.
  eapply signed_change_sub; [exact W'|]. eapply ef_signed. by eapply exec_call_effect.
Qed.

#[export] Instance recorded_stable h : Stable (recorded h).
Proof.
  intros db db' W [n Hn] (i & e & Hi & He). exists i, e. split; [|done]. eapply lookup_weaken; [done|]. by eapply steps_signed.
Qed.

(** A row that is not pending any more never is again. *)
Definition ended (i : Z) (db : evm_db) : Prop :=
  i < next_state db /\ forall r, states db !! i = Some r -> State r <> RowPending.

#[export] Instance ended_stable i : Stable (ended i).
Proof.
  intros db db' W [n Hn] He. induction Hn as [|n db db' f actor now c Hs IH Hok]; [done|].
  destruct (IH W He) as [Hlt Hp].
  destruct (run_cases f actor now c db') as [-> |(db'' & u & E & ->)]; [by split|].
  assert (db_wf db') as W' by by eapply steps_wf.
  destruct (exec_call_effect _ _ _ _ _ _ W' Hok E) as [(o & o' & Hr & _) _ _ _ _]. unfold ended.
  destruct Hr as [-> ->|row e Hid _ _ _ _ -> ->|k r r' Hk _ Hst -> ->|k r Hk -> ->]; split; try lia; try done.
  - intros r Hr. apply lookup_insert_Some in Hr as [[? _]|[_ Hr]]; [lia|by apply Hp].
  - intros r0 Hr. apply lookup_insert_Some in Hr as [[-> ->]|[_ Hr]]; [|by apply Hp].
    destruct Hst as [->|?]; [by apply Hp|done].
  - intros r0 Hr. apply lookup_delete_Some in Hr as [_ Hr]. by apply Hp.
Qed.

Section run.
Context {En : Env} {Et : EthTx}.

(** The other processes use the store as [call_ok] says. *)
Definition Env_ok : Prop := forall t f a n c, (f, a, n, c) ∈ others t -> call_ok c.

Context (HE : Env_ok).

Lemma interfere_reach t db : reach db (interfere t db).
Proof.
  unfold interfere. assert (forall f a n c, (f, a, n, c) ∈ others t -> call_ok c) as H by exact (HE t).
  revert db H. induction (others t) as [|[[[f a] n] c] l IH]; intros db H; cbn; [done|].
  etrans; [|apply IH; intros f' a' n' c' Hin; eapply H, list_elem_of_further, Hin].
  apply reach_run. eapply H. left.
Qed.

Definition ran (w w' : world) : Prop :=
  reach (w_db w) (w_db w') /\ forall h, h ∈ w_sent w' -> h ∈ w_sent w \/ recorded h (w_db w').

Lemma ran_refl w : ran w w.
Proof. split; [done|by left]. Qed.

Lemma ran_trans w1 w2 w3 : db_wf (w_db w1) -> ran w1 w2 -> ran w2 w3 -> ran w1 w3.
Proof.
  intros W [R1 S1] [R2 S2]. split; [by etrans|]. intros h [H|H]%S2; [|by right].
  apply S1 in H as [H|H]; [by left|right]. exact (recorded_stable h _ _ (reach_wf _ _ R1 W) R2 H).
Qed.

Lemma ran_same w w' : reach (w_db w) (w_db w') -> w_sent w' = w_sent w -> ran w w'.
Proof. intros R E. split; [done|]. rewrite E. by left. Qed.

Definition quiet {A} (P : evm_db -> Prop) (m : M A) : Prop :=
  forall w, db_wf (w_db w) -> P (w_db w) -> ran w (m w).1.

Lemma quiet_weaken {A} (P Q : evm_db -> Prop) (m : M A) : quiet Q m -> (forall db, P db -> Q db) -> quiet P m.
Proof. intros H HPQ w W HP. apply H; [done|by apply HPQ]. Qed.

Lemma quiet_bind {A B} P `{!Stable P} (m : M A) (f : A -> M B) :
  quiet P m -> (forall a, quiet P (f a)) -> quiet P (m ≫= f).
Proof.
  intros Hm Hf w W HP. unfold mbind, M_bind. specialize (Hm w W HP). destruct (m w) as [w' a] eqn:E. cbn in *.
  eapply ran_trans; [done|exact Hm|]. destruct Hm as [R _].
  apply Hf; [by eapply reach_wf|by eapply stable].
Qed.

(** As [quiet_bind], with a fact about the result. *)
Lemma quiet_bind_post {A B} P (Q : A -> evm_db -> Prop) `{!Stable P} (m : M A) (f : A -> M B) :
  quiet P m -> (forall w, db_wf (w_db w) -> P (w_db w) -> Q (m w).2 (w_db (m w).1)) ->
  (forall a, quiet (fun db => P db /\ Q a db) (f a)) -> quiet P (m ≫= f).
Proof.
  intros Hm HQ Hf w W HP. unfold mbind, M_bind. specialize (Hm w W HP). specialize (HQ w W HP).
  destruct (m w) as [w' a] eqn:E. cbn in *. eapply ran_trans; [done|exact Hm|]. destruct Hm as [R _].
  apply Hf; [by eapply reach_wf|split; [by eapply stable|done]].
Qed.

Lemma quiet_ret {A} P (a : A) : quiet P (mret a).
Proof. intros w _ _. apply ran_refl. Qed.

Lemma quiet_gets {A} P (f : world -> A) : quiet P (gets f).
Proof. intros w _ _. apply ran_refl. Qed.

Lemma quiet_ask {A} P (f : nat -> A) : quiet P (ask f).
Proof. intros w _ _. by apply ran_same. Qed.

Lemma quiet_put P (f : world -> world) :
  (forall w, w_db (f w) = w_db w /\ w_sent (f w) = w_sent w) -> quiet P (put f).
Proof. intros H w _ _. destruct (H w) as [E1 E2]. apply ran_same; [by cbn; rewrite E1|done]. Qed.

Lemma quiet_upd P scope f : quiet P (upd_memory scope f).
Proof. by apply quiet_put. Qed.

Lemma quiet_query {A} P (f : evm_db -> A) : quiet P (query f).
Proof. intros w _ _. apply ran_same; [apply interfere_reach|done]. Qed.

(** A write that does to the database what the call [c] does. *)
Definition as_call {A} (c : evm_call) (fn : string -> Z -> txM A) : Prop :=
  call_ok c /\ forall a n db, exec_call a n c db = match fn a n db with Ok (db', _) => Ok (db', tt) | Err e => Err e end.

Lemma txn_as_call {A} f (fn : txM A) (fn' : txM unit) db :
  fn' db = match fn db with Ok (db', _) => Ok (db', tt) | Err e => Err e end ->
  (txn f fn db).1 = (txn f fn' db).1.
Proof. intros E. unfold txn. rewrite E. by destruct f, (fn db) as [[]|]. Qed.

Lemma quiet_write {A} P c (fn : string -> Z -> txM A) :
  as_call c fn -> (forall f a n db, run f a n c db = txn f (exec_call a n c) db) -> quiet P (write fn).
Proof.
  intros [Hok Heq] Hrun w _ _. apply ran_same; unfold write.
  - destruct (txn _ _ _) as [db r] eqn:E. cbn. etrans; [apply interfere_reach|].
    assert (db = (run (fate_at (w_tick w)) actor (db_now (w_tick w)) c (interfere (w_tick w) (w_db w))).1) as ->.
    { rewrite Hrun, <-(txn_as_call _ _ _ _ (Heq actor (db_now (w_tick w)) _)), E. done. }
    by apply reach_run.
  - by destruct (txn _ _ _).
Qed.

Lemma quiet_statement {A} P c (fn : Z -> txM A) :
  as_call c (fun _ => fn) -> (forall f a n db, run f a n c db = autocommit f (exec_call a n c) db) -> quiet P (statement fn).
Proof.
  intros [Hok Heq] Hrun w _ _. apply ran_same; unfold statement.
  - destruct (autocommit _ _ _) as [db r] eqn:E. cbn. etrans; [apply interfere_reach|].
    assert (db = (run (fate_at (w_tick w)) actor (db_now (w_tick w)) c (interfere (w_tick w) (w_db w))).1) as ->.
    { rewrite Hrun. unfold autocommit in E |- *. rewrite Heq.
      destruct (fate_at (w_tick w)), (fn (db_now (w_tick w)) (interfere (w_tick w) (w_db w))) as [[]|]; cbn in E |- *; injection E as <- _; done. }
    by apply reach_run.
  - by destruct (autocommit _ _ _).
Qed.

Lemma bind_unit {A} (m : txM A) db : (m;; mret tt) db = match m db with Ok (db', _) => Ok (db', tt) | Err e => Err e end.
Proof. unfold mbind, txM_bind. by destruct (m db) as [[]|]. Qed.

Lemma same_unit (m : txM unit) db : m db = match m db with Ok (db', _) => Ok (db', tt) | Err e => Err e end.
Proof. by destruct (m db) as [[db' []]|]. Qed.
End run.

Create HintDb quiet.
#[export] Hint Extern 1 (Stable _) => exact _ : quiet.
#[export] Hint Resolve quiet_ret quiet_gets quiet_ask quiet_upd quiet_query : quiet.

(** Discharges the calls: [quiet_call c] for a write that is the call [c]. *)
Ltac quiet_call c :=
  match goal with HE : Env_ok |- _ => apply (quiet_write HE _ c); [|done] end; split; [try done|];
  intros; cbn [exec_call]; first [apply bind_unit | apply same_unit].

(** Follows the shape of a computation. *)
Ltac quiet_step :=
  first
    [ solve [eauto with quiet]
    | match goal with
      | |- quiet _ (_ ≫= _) => apply quiet_bind; [exact _| |intros ?]
      | |- quiet _ (let '(_, _) := ?x in _) => destruct x
      | |- quiet _ (match ?x with _ => _ end) => destruct x
      | |- quiet _ (put _) => apply quiet_put; intros; done
      end ].
Ltac quiet_all := cbv zeta; repeat quiet_step.

Lemma M_bind_eq {A B} (m : M A) (f : A -> M B) w : (m ≫= f) w = f (m w).2 (m w).1.
Proof. unfold mbind, M_bind. by destruct (m w). Qed.

Section functions.
Context {En : Env} {Et : EthTx} (HE : Env_ok).

Lemma quiet_audit P fence ev : quiet P (write (fun actor now => AppendAudit actor now fence st_chainID ev)).
Proof. quiet_call (CAudit fence st_chainID ev). Qed.

Lemma quiet_resolve P fence p t : quiet P (write (fun actor now => ResolvePending actor now fence p t)).
Proof. quiet_call (CResolve fence p t). Qed.

Lemma quiet_consume P fence o : quiet P (write (fun actor now => ConsumeOutcome actor now fence o)).
Proof. quiet_call (CConsume fence o). Qed.

Lemma quiet_mark P fence p : quiet P (write (fun actor now => MarkAmbiguous actor now fence p)).
Proof. quiet_call (CMark fence p). Qed.

Lemma quiet_auto_resolve P fence p r ev : quiet P (write (fun actor now => AutoResolvePending actor now fence p r ev)).
Proof. quiet_call (CResolveTo (Some fence) p r ev). Qed.

Lemma quiet_auto_settle P fence o from to ev : quiet P (write (fun actor now => AutoSettleOutcome actor now fence o from to ev)).
Proof. quiet_call (CSettle (Some fence) o from to ev). Qed.

Lemma quiet_acquire P chain owner ttl : quiet P (write (fun actor now => AcquireLease actor now chain owner ttl)).
Proof. quiet_call (CAcquire chain owner ttl). Qed.

Lemma quiet_renew P fence ttl : quiet P (statement (fun now => RenewLease now fence ttl)).
Proof. eapply (quiet_statement HE _ (CRenew fence ttl)); [split; [done|]|done]. intros. cbn. apply bind_unit. Qed.

Lemma quiet_release P fence : quiet P (statement (fun _ => ReleaseLease fence)).
Proof. eapply (quiet_statement HE _ (CRelease fence)); [split; [done|]|done]. intros. cbn. apply same_unit. Qed.
End functions.

#[export] Hint Resolve quiet_audit quiet_resolve quiet_consume quiet_mark quiet_auto_resolve quiet_auto_settle
  quiet_acquire quiet_renew quiet_release : quiet.

Section functions2.
Context {En : Env} {Et : EthTx} (HE : Env_ok) (P : evm_db -> Prop) {HP : Stable P}.

Lemma quiet_loadEvidence fence kind i ref ev : quiet P (loadEvidence fence kind i ref ev).
Proof. unfold loadEvidence. quiet_all. Qed.

Lemma quiet_refresh scope : quiet P (refreshNonceFromChain scope).
Proof. unfold refreshNonceFromChain, set_nonce. quiet_all. Qed.

Lemma quiet_sync fence scope p : quiet P (syncEvmScopeEpoch fence scope p).
Proof. unfold syncEvmScopeEpoch, set_nonce. quiet_all. Qed.

Lemma quiet_applyTerminal fence p t : quiet P (applyTerminal fence p t).
Proof. unfold applyTerminal, readBackResolved, clearLastSeen. quiet_all. Qed.
End functions2.

#[export] Hint Resolve quiet_loadEvidence quiet_refresh quiet_sync quiet_applyTerminal : quiet.

Section functions3.
Context {En : Env} {Et : EthTx} (HE : Env_ok) (P : evm_db -> Prop) {HP : Stable P}.

Lemma quiet_landed kind p kinds : quiet P (landed_among kind p kinds).
Proof. induction kinds; cbn; quiet_all. Qed.
End functions3.
#[export] Hint Resolve quiet_landed : quiet.

Section functions4.
Context {En : Env} {Et : EthTx} (HE : Env_ok) (P : evm_db -> Prop) {HP : Stable P}.

Lemma quiet_retry_terminal fence scope op r : quiet P (retry_terminal fence scope op r).
Proof. unfold retry_terminal, landedTerminal. quiet_all. Qed.

Lemma quiet_retry_consume scope c : quiet P (retry_consume scope c).
Proof. unfold retry_consume. quiet_all. Qed.

Lemma quiet_checkEvm : quiet P checkEvm.
Proof. unfold checkEvm. quiet_all. Qed.
Lemma quiet_checkCosmos : quiet P checkCosmos.
Proof. unfold checkCosmos. quiet_all. Qed.
Lemma quiet_observe scope h reason height : quiet P (observe scope h reason height).
Proof. unfold observe. quiet_all. Qed.
Lemma quiet_outcomeCheckDue i : quiet P (outcomeCheckDue i).
Proof. unfold outcomeCheckDue. quiet_all. Qed.
Lemma quiet_receiptAtOrBelow h height : quiet P (receiptAtOrBelow h height).
Proof. unfold receiptAtOrBelow. quiet_all. Qed.
End functions4.
#[export] Hint Resolve quiet_retry_terminal quiet_retry_consume quiet_checkEvm quiet_checkCosmos quiet_observe
  quiet_outcomeCheckDue quiet_receiptAtOrBelow : quiet.

Section functions5.
Context {En : Env} {Et : EthTx} (HE : Env_ok) (P : evm_db -> Prop) {HP : Stable P}.

Lemma quiet_retryEvmMemory fence scope op : quiet P (retryEvmMemory fence scope op).
Proof. unfold retryEvmMemory. quiet_all. Qed.

Lemma quiet_applyAutoPending fence scope p r ev n : quiet P (applyAutoPending fence scope p r ev n).
Proof. unfold applyAutoPending, clearLastSeen, forgetObservation, set_nonce. quiet_all. Qed.

Lemma quiet_applyAutoOutcome fence o to ev : quiet P (applyAutoOutcome fence o to ev).
Proof. unfold applyAutoOutcome. quiet_all. Qed.
End functions5.
#[export] Hint Resolve quiet_retryEvmMemory quiet_applyAutoPending quiet_applyAutoOutcome : quiet.

Section functions6.
Context {En : Env} {Et : EthTx} (HE : Env_ok) (P : evm_db -> Prop) {HP : Stable P}.

Lemma quiet_dispose_used fence scope p ev h n : quiet P (dispose_used_nonce fence scope p ev h n).
Proof. unfold dispose_used_nonce, forgetObservation. quiet_all. Qed.

Lemma quiet_settle_by_receipt fence o ev h rows others e : quiet P (settle_by_receipt fence o ev h rows others e).
Proof. revert others e. induction rows; intros; cbn -[verify]; quiet_all. Qed.

Lemma quiet_settle_by_index fence o ev h others e : quiet P (settle_by_index fence o ev h others e).
Proof. revert e. induction others; intros; cbn; quiet_all. Qed.
End functions6.
#[export] Hint Resolve quiet_dispose_used quiet_settle_by_receipt quiet_settle_by_index : quiet.

Section functions7.
Context {En : Env} {Et : EthTx} (HE : Env_ok) (P : evm_db -> Prop) {HP : Stable P}.

Lemma quiet_settle_by_cosmos fence o ev h others e : quiet P (settle_by_cosmos fence o ev h others e).
Proof. unfold settle_by_cosmos. quiet_all. Qed.

Lemma quiet_autoSettle fence o : quiet P (autoSettleOutcome fence o).
Proof. unfold autoSettleOutcome. quiet_all; eauto using quiet_settle_by_cosmos with quiet. Qed.

Lemma quiet_resolve_vanished fence scope : quiet P (resolve_vanished fence scope).
Proof. unfold resolve_vanished, clearLastSeen. quiet_all. Qed.

Lemma quiet_send tx : quiet (fun db => P db /\ recorded (tx_Hash tx) db) (send tx).
Proof.
  intros w _ [_ Hr]. split; [done|]. cbn. intros h [?|Hh]%elem_of_app; [by left|right].
  apply list_elem_of_singleton in Hh as ->. done.
Qed.

Lemma verify_hash e ref tx : verify (Some e) ref = Ok tx -> tx_Hash tx = e_TxHash e.
Proof.
  unfold verify, verifySignedTxEvidence. destruct (UnmarshalBinary _) as [tx'|]; [|done].
  destruct (Z.eqb_spec (tx_Hash tx') (e_TxHash e)) as [E|]; [|by rewrite orb_true_r].
  destruct (_ || _); [done|]. destruct (tx_ChainId tx'); [|done]. destruct (_ || _); [done|].
  destruct (tx_Sender tx'); [|done]. do 2 (destruct (negb _); [done|]). destruct (existsb _ _); [done|].
  destruct (negb _); [done|]. by intros [= <-].
Qed.

(** A verified transaction has stored evidence. *)
Lemma loadEvidence_recorded fence kind i ref ev w tx :
  (loadEvidence fence kind i ref ev w).2 = Ok tx -> recorded (tx_Hash tx) (w_db (loadEvidence fence kind i ref ev w).1).
Proof.
  unfold loadEvidence. rewrite !M_bind_eq. unfold query. cbn -[verify interfere mbind]. case_bool_decide as Hf; [|done].
  unfold GetSignedTx. destruct (verify _ ref) as [tx'|e] eqn:Hv.
  - cbn. intros [= <-]. destruct (signed _ !! _) as [e|] eqn:He; [|done]. exists (r_SignedTxID ref), e.
    split; [done|]. symmetry. by eapply verify_hash.
  - rewrite !M_bind_eq. done.
Qed.
End functions7.
#[export] Hint Resolve quiet_settle_by_cosmos quiet_autoSettle quiet_resolve_vanished quiet_send : quiet.

Section functions8.
Context {En : Env} {Et : EthTx} (HE : Env_ok) (P : evm_db -> Prop) {HP : Stable P}.

Lemma quiet_dispose_open fence scope p tx ev h n :
  quiet (fun db => P db /\ recorded (tx_Hash tx) db) (dispose_open_nonce fence scope p tx ev h n).
Proof. unfold dispose_open_nonce, forgetObservation. quiet_all. Qed.

Lemma quiet_rebroadcast tx : quiet (fun db => P db /\ recorded (tx_Hash tx) db) (rebroadcastPendingEvmTx tx).
Proof. unfold rebroadcastPendingEvmTx. quiet_all. Qed.

Lemma quiet_resend tx n : quiet (fun db => P db /\ recorded (tx_Hash tx) db) (resend tx n).
Proof. induction n; cbn; quiet_all. Qed.

Lemma quiet_finish fence p t : quiet P (finishPendingEvmTx fence p t).
Proof. unfold finishPendingEvmTx, stashTerminal. quiet_all. Qed.

Lemma quiet_consumeOutcome again fence scope o : quiet P again -> quiet P (consumeOutcome again fence scope o).
Proof. intros. unfold consumeOutcome, readBackConsumed. quiet_all. Qed.
End functions8.
#[export] Hint Resolve quiet_dispose_open quiet_rebroadcast quiet_resend quiet_finish quiet_consumeOutcome : quiet.

Section functions9.
Context {En : Env} {Et : EthTx} (HE : Env_ok) (P : evm_db -> Prop) {HP : Stable P}.

Lemma quiet_autoDispose fence scope p tx :
  quiet (fun db => P db /\ recorded (tx_Hash tx) db) (autoDisposePending fence scope p tx).
Proof. unfold autoDisposePending. quiet_all. Qed.

Lemma quiet_resolve_outcome again fence scope op : quiet P again -> quiet P (resolve_outcome again fence scope op).
Proof. intros. unfold resolve_outcome. quiet_all. Qed.

Lemma quiet_await fence p h : quiet P (await_receipt fence p h).
Proof. unfold await_receipt. quiet_all. Qed.

Lemma quiet_refuse fence p k e err : quiet P (refuse fence p k e err).
Proof. unfold refuse. quiet_all. Qed.

Lemma quiet_markAmbiguous fence p : quiet P (markPendingEvmTxAmbiguous fence p).
Proof. unfold markPendingEvmTxAmbiguous. quiet_all. Qed.

Lemma quiet_lease_fence : quiet P lease_fence.
Proof. unfold lease_fence. quiet_all. Qed.

(** The result of [loadEvidence] carries the recorded hash into its continuation. *)
Lemma quiet_load_bind {B} fence kind i ref ev (f : result mgr_error Tx -> M B) :
  (forall e, quiet P (f (Err e))) -> (forall tx, quiet (fun db => P db /\ recorded (tx_Hash tx) db) (f (Ok tx))) ->
  quiet P (loadEvidence fence kind i ref ev ≫= f).
Proof.
  intros He Ht. eapply (quiet_bind_post P (fun r db => match r with Ok tx => recorded (tx_Hash tx) db | Err _ => True end)).
  - by apply quiet_loadEvidence.
  - intros w _ _. destruct (loadEvidence _ _ _ _ _ w).2 as [tx|e] eqn:E; [|done]. by apply loadEvidence_recorded.
  - intros [tx|e]; [apply Ht|]. eapply quiet_weaken; [apply He|]. by intros db [? _].
Qed.
End functions9.
#[export] Hint Resolve quiet_autoDispose quiet_resolve_outcome quiet_await quiet_refuse quiet_markAmbiguous
  quiet_lease_fence : quiet.

Section functions10.
Context {En : Env} {Et : EthTx} (HE : Env_ok).

Lemma quiet_resolve_pending P {HP : Stable P} again fence scope op p :
  (forall Q, Stable Q -> quiet Q again) -> quiet P (resolve_pending again fence scope op p).
Proof.
  intros Ha. unfold resolve_pending, setLastSeen, stashTerminal. quiet_step; [eauto with quiet|].
  apply quiet_load_bind; [done|done|intros e; quiet_all|intros tx; quiet_all; eauto with quiet].
Qed.

Lemma quiet_resolveEvmState depth fence scope op P {HP : Stable P} : quiet P (resolveEvmState depth fence scope op).
Proof.
  revert P HP. induction depth as [|depth IH]; intros P HP; cbn; quiet_all.
  apply quiet_resolve_pending; eauto.
Qed.
End functions10.
#[export] Hint Resolve quiet_resolveEvmState : quiet.

(** ** Recording before sending *)

Lemma record_effect_recorded actor now fence ev p db db' p' :
  db_wf db -> call_ok (CRecord fence ev p) -> Record_ actor now fence ev p db = Ok (db', p') -> recorded (p_TxHash p) db'.
Proof.
  intros W Hok E. destruct (record_effect _ _ _ W _ _ _ _ _ Hok E) as [(o & o' & Hr & Hd) _ _ _ _].
  destruct Hd as (-> & row & -> & _ & _ & Ht & _). inversion Hr as [|? e Hid Hp He Hb| |]; subst.
  exists (SignedTxID row), e. split; [done|]. destruct Hb as (_&_&_&_&_&?). congruence.
Qed.

Lemma GetPending_recorded db c s p : db_wf db -> GetPending db c s = Some p -> recorded (p_TxHash p) db.
Proof.
  intros W (r & Hr & _ & _ & _ & ->)%GetPending_some; [|done]. destruct (wf_backed _ W _ _ Hr) as (e & He & Hb).
  exists (SignedTxID r), e. split; [done|]. cbn. by destruct Hb as (_&_&_&_&_&?).
Qed.

Section record.
Context {En : Env} {Et : EthTx} (HE : Env_ok).

(** A write that succeeds: what its transaction did. *)
Lemma write_ok {A} (fn : string -> Z -> txM A) w a :
  (write fn w).2 = Ok a ->
  fn actor (db_now (w_tick w)) (interfere (w_tick w) (w_db w)) = Ok (w_db (write fn w).1, a).
Proof.
  unfold write, txn. destruct (fate_at (w_tick w)), (fn _ _ _) as [[db' b]|e]; cbn; by intros [= <-].
Qed.

Lemma interfere_wf t db : db_wf db -> db_wf (interfere t db).
Proof. intros W. eapply reach_wf; [by apply interfere_reach|done]. Qed.

Lemma quiet_record P {HP : Stable P} fence scope op tx raw : quiet P (recordPendingEvmTx fence scope op tx raw).
Proof.
  unfold recordPendingEvmTx, setLastSeen. quiet_all.
  match goal with |- quiet _ (write (fun actor now => Record_ actor now ?f ?e ?p)) => quiet_call (CRecord f e p) end.
Qed.

Lemma record_recorded fence scope op tx raw w p :
  db_wf (w_db w) -> (recordPendingEvmTx fence scope op tx raw w).2 = Ok p ->
  recorded (tx_Hash tx) (w_db (recordPendingEvmTx fence scope op tx raw w).1).
Proof.
  intros W. unfold recordPendingEvmTx. destruct (tx_ChainId tx) as [c|]; [|done]. destruct (negb _); [done|].
  destruct (tx_Sender tx) as [from|]; [|done]. rewrite M_bind_eq. destruct (ask _ w).2 as [block|]; [|done].
  set (w1 := (ask _ w).1). assert (db_wf (w_db w1)) as W1 by done. clearbody w1.
  set (fn := fun actor now => Record_ actor now fence _ _). rewrite !M_bind_eq.
  destruct (write fn w1).2 as [p0|e] eqn:E.
  - cbn. intros _. apply write_ok in E.
    refine (record_effect_recorded _ _ _ _ _ _ _ _ (interfere_wf _ _ W1) _ E). by split_and!.
  - assert (db_wf (w_db (write fn w1).1)) as W2.
    { eapply reach_wf; [|exact W1]. eapply (quiet_write HE (fun _ => True) (CRecord fence _ _) fn); [|done|exact W1|exact I].
      split; [|intros; cbn; apply bind_unit]. by split_and!. }
    destruct (isEvmCommitUnknown e); [|by cbn]. rewrite M_bind_eq. set (w2 := (write fn w1).1) in *. clearbody w2.
    unfold query. cbn [fst snd]. case_bool_decide; [|by cbn].
    destruct (GetPending _ st_chainID scope) as [c0|] eqn:Hg; [|by cbn].
    destruct (Z.eqb_spec (p_TxHash c0) (tx_Hash tx)) as [Ht|]; [|by cbn]. cbn. intros _. rewrite <-Ht.
    eapply GetPending_recorded; [by apply interfere_wf|exact Hg].
Qed.

(** The signer's operations: a request resolves, then may submit; the lease loop ticks. *)
Lemma quiet_resolvePendingEvmTx P {HP : Stable P} scope op : quiet P (resolvePendingEvmTx scope op).
Proof. unfold resolvePendingEvmTx. quiet_all. Qed.

Lemma quiet_submitEvmTx P {HP : Stable P} scope op tx raw : quiet P (submitEvmTx scope op tx raw).
Proof.
  unfold submitEvmTx. quiet_step; [quiet_step|]. destruct a; [quiet_step|]. destruct (negb _); [quiet_step|].
  quiet_step; [quiet_step|]. destruct a as [fence|]; [|destruct raw; quiet_step]. destruct raw as [raw|]; [|quiet_step].
  eapply (quiet_bind_post P (fun r db => match r with Ok _ => recorded (tx_Hash tx) db | Err _ => True end)).
  - by apply quiet_record.
  - intros w W _. destruct (recordPendingEvmTx _ _ _ _ _ w).2 as [p|e] eqn:E; [|done]. by eapply record_recorded.
  - intros [p|e]; [|quiet_step]. quiet_all.
Qed.

Lemma quiet_tick P {HP : Stable P} : quiet P tick.
Proof. unfold tick, lose. quiet_all. Qed.

Lemma quiet_stop P {HP : Stable P} : quiet P stop.
Proof. unfold stop. quiet_all. Qed.
End record.

(** ** Start and recovery *)

#[export] Hint Resolve quiet_resolvePendingEvmTx : quiet.
#[export] Hint Unfold load_pending load_outcome : quiet.

Section recovery.
Context {En : Env} {Et : EthTx} (HE : Env_ok) (P : evm_db -> Prop) {HP : Stable P}.

Lemma quiet_check_pendings l bad : quiet P (check_pendings l bad).
Proof. revert bad. induction l; intros; cbn; quiet_all. Qed.
Lemma quiet_check_outcomes l : quiet P (check_outcomes l).
Proof. induction l; cbn; quiet_all. Qed.
Lemma quiet_audit_loaded fence l : quiet P (audit_loaded fence l).
Proof. induction l; cbn [audit_loaded]; quiet_all. Qed.
Lemma quiet_load_outcomes fence l : quiet P (load_outcomes fence l).
Proof. induction l; cbn; quiet_all. Qed.
Lemma quiet_sync_scopes fence p l : quiet P (sync_scopes fence p l).
Proof. induction l; cbn; quiet_all. Qed.
Lemma quiet_settle_all fence l : quiet P (settle_all fence l).
Proof. induction l; cbn; quiet_all. Qed.
End recovery.
#[export] Hint Resolve quiet_check_pendings quiet_check_outcomes quiet_audit_loaded quiet_load_outcomes
  quiet_sync_scopes quiet_settle_all : quiet.

Section recovery2.
Context {En : Env} {Et : EthTx} (HE : Env_ok) (P : evm_db -> Prop) {HP : Stable P}.

Lemma quiet_start : quiet P checkEvmStateOnStart.
Proof. unfold checkEvmStateOnStart. quiet_all. Qed.
Lemma quiet_recover fence : quiet P (recoverEvmState fence).
Proof. unfold recoverEvmState. quiet_all. Qed.
Lemma quiet_job j : quiet P (run_job j).
Proof. destruct j; cbn; unfold backgroundResolveEvm, backgroundSettleOutcomes; quiet_all. Qed.
End recovery2.
