(* ===== verification/EvmMgrProps.v ===== *)
(** Properties of the signer's EVM state manager (EvmManager.v, EvmAuto.v, EvmResolve.v):
    what is sent is recorded, a transition reported as applied is final, and an
    unhandled request may be signed.  The witnesses run the signer against a concrete
    chain that accepts and includes what it is sent. *)
From Stdlib Require Import ZArith Lia.
From stdpp Require Import base gmap list strings.
From S2P Require Import Prelude Sql EvmState EvmStore EvmInv EvmSpec EvmManager EvmAuto EvmResolve EvmRecovery EvmRun.

Local Open Scope Z_scope.

(** ** Runs of the signer *)

Inductive proc_op `{EthTx} :=
| PResolve (scope : SignType) (operation : Hash)
| PSubmit (scope : SignType) (operation : Hash) (signedTx : Tx) (raw : option (list Z))
| PTick
| PStop
| PStart
| PRecover (fence : evmFence)
| PJob (j : job).

Definition exec_op {En : Env} {Et : EthTx} (o : proc_op) (w : world) : world :=
  match o with
  | PResolve scope operation => (resolvePendingEvmTx scope operation w).1
  | PSubmit scope operation signedTx raw => (submitEvmTx scope operation signedTx raw w).1
  | PTick => (tick w).1
  | PStop => (stop w).1
  | PStart => (checkEvmStateOnStart w).1
  | PRecover fence => (recoverEvmState fence w).1
  | PJob j => (run_job j w).1
  end.

Definition exec_ops {En : Env} {Et : EthTx} (ops : list proc_op) (w : world) : world := foldl (fun w o => exec_op o w) w ops.

Definition start_world (db : evm_db) : world := mkWorld 0 db ∅ ∅ ∅ ∅ (mkLeaseView false 0 0) [].

Lemma exec_ops_ran {En : Env} {Et : EthTx} (HE : Env_ok) ops w : db_wf (w_db w) -> ran w (exec_ops ops w).
Proof.
  unfold exec_ops. revert w. induction ops as [|o ops IH]; intros w W; cbn; [apply ran_refl|].
  assert (ran w (exec_op o w)) as R.
  { destruct o; cbn; [apply (quiet_resolvePendingEvmTx HE (fun _ => True))|apply (quiet_submitEvmTx HE (fun _ => True))|
      apply (quiet_tick HE (fun _ => True))|apply (quiet_stop HE (fun _ => True))|apply (quiet_start HE (fun _ => True))|
      apply (quiet_recover HE (fun _ => True))|apply (quiet_job HE (fun _ => True))]; done. }
  eapply ran_trans; [done|exact R|]. apply IH. eapply reach_wf; [by destruct R|done].
Qed.

(** ** A concrete chain *)

(** A transaction is its bytes: chain id, sender, nonce. *)
Definition toy_hash (b : list Z) : Z := 1000 + foldr Z.add 0 b.
#[export] Instance toy_eth : EthTx := {|
  Tx := list Z;
  UnmarshalBinary := Some;
  Keccak256Hash := toy_hash;
  tx_Hash := toy_hash;
  tx_ChainId tx := head tx;
  tx_Sender tx := tx !! 1%nat;
  tx_Nonce tx := default 0 (tx !! 2%nat)
|}.

(** Every store call succeeds, the node accepts everything and includes it in block 50;
    [lost] says whose COMMIT answers are lost although they took effect. *)
Definition toy_env (lost : nat -> bool) : Env := {|
  others _ := [];
  fate_at t := if lost t then UnknownApplied else Committed;
  db_now t := 2000000 + Z.of_nat t;
  local_now t := 2000000000 + 1000 * Z.of_nat t;
  ctx_done _ := false;
  detail _ := "";
  Hex _ := "";
  transactionReceiptFn _ _ := Some (Some (mkReceipt 1 (Some 50)));
  waitForEvmTxFn _ _ := Some (mkReceipt 1 (Some 50));
  sendEvmTxFn _ _ := None;
  evm_ChainID _ := Some 7;
  BlockNumber _ := Some 49;
  NonceAt _ _ _ := Some 3;
  PendingNonceAt _ _ := Some 3;
  getCosmosNonceFn _ _ := Some 3;
  cosmos_Network _ := Some "moca"%string;
  SearchEthereumTx _ _ _ := Ok None;
  configured := true;
  st_chainID := "moca";
  st_evmChainID := 7;
  actor := "a";
  lease_owner := "A";
  lease_ttl := 30000000000;
  keyAddress _ := Some 5;
  has_mocaClient _ := true;
  has_autoChain := true;
  has_cosmos := true
|}.

Lemma toy_env_ok lost : @Env_ok (toy_env lost).
Proof. intros t f a n c H. by apply not_elem_of_nil in H. Qed.

Definition toy_tx : list Z := [7; 5; 3].

(** C14: nothing is handed to a node before it is recorded: whatever requests, lease ticks,
    start checks and recoveries a signer runs, whatever its chain answers, its connections do and other processes
    write, the hash of every transaction it sends, first or again, is the hash of a stored
    evidence row; and all it does to the database are store calls. *)
Theorem sent_bytes_are_recorded {En : Env} {Et : EthTx} (HE : Env_ok) ops w :
  db_wf (w_db w) -> w_sent w = [] ->
  let w' := exec_ops ops w in
  (exists n, evm_steps n (w_db w) (w_db w')) /\
  forall h, h ∈ w_sent w' -> exists i e, GetSignedTx (w_db w') i = Some e /\ e_TxHash e = h.
Proof.
  intros W Hs. cbn zeta. destruct (exec_ops_ran HE ops w W) as [R Hr]. split; [exact R|].
  intros h [Hh|Hh]%Hr; [|exact Hh]. rewrite Hs in Hh. by apply not_elem_of_nil in Hh.
Qed.

Lemma sent_bytes_are_recorded_witness :
  let ops : list (@proc_op toy_eth) := [PTick; PSubmit "operator" 77 toy_tx (Some toy_tx); PResolve "operator" 78] in
  let w' := @exec_ops (toy_env (fun _ => false)) toy_eth ops (start_world empty_db) in
  w_sent w' = [1015] /\ exists i e, GetSignedTx (w_db w') i = Some e /\ e_TxHash e = 1015.
Proof.
  cbv zeta. match goal with |- ?x = ?y /\ _ => assert (x = y) as E by (vm_compute; reflexivity) end. split; [exact E|].
  eapply (@sent_bytes_are_recorded (toy_env (fun _ => false)) toy_eth (toy_env_ok _)); [exact empty_db_wf|reflexivity|].
  rewrite E. left.
Defined.

(** ** Ending a pending row *)

(** A row keeps its chain and scope as long as it exists. *)
Definition scoped (i : Z) (c : string) (s : SignType) (db : evm_db) : Prop :=
  i < next_state db /\ forall r, states db !! i = Some r -> ChainID r = c /\ Scope r = s.

#[export] Instance scoped_stable i c s : Stable (scoped i c s).
Proof.
  intros db db' W [n Hn] He. induction Hn as [|n db db' f actor now call Hs IH Hok]; [done|].
  destruct (IH W He) as [Hlt Hp].
  destruct (run_cases f actor now call db') as [-> |(db'' & u & E & ->)]; [by split|].
  assert (db_wf db') as W' by by eapply steps_wf.
  destruct (exec_call_effect _ _ _ _ _ _ W' Hok E) as [(o & o' & Hr & _) _ _ _ _]. unfold scoped.
  destruct Hr as [-> ->|row e Hid _ _ _ _ -> ->|k r r' Hk Ht _ -> ->|k r Hk -> ->]; split; try lia; try done.
  - intros r Hr. apply lookup_insert_Some in Hr as [[? _]|[_ Hr]]; [lia|by apply Hp].
  - intros r0 Hr. apply lookup_insert_Some in Hr as [[-> ->]|[_ Hr]]; [|by apply Hp].
    destruct Ht as (_ & _ & -> & -> & _). by apply Hp.
  - intros r0 Hr. apply lookup_delete_Some in Hr as [_ Hr]. by apply Hp.
Qed.

Lemma GetPending_scoped db c s p : db_wf db -> GetPending db c s = Some p -> scoped (p_ID p) c s db /\ p_ChainID p = c /\ p_Scope p = s.
Proof.
  intros W (r & Hr & _ & Hc & Hs & ->)%GetPending_some; [|done]. split; [|done]. split.
  - destruct (wf_ids _ W _ _ Hr). lia.
  - intros r' Hr'. cbn in Hr, Hr'. by simplify_eq.
Qed.

(** The scope shows no pending row with the id: the row has ended. *)
Lemma other_pending_ended db i c s :
  db_wf db -> scoped i c s db -> (forall q, GetPending db c s = Some q -> p_ID q <> i) -> ended i db.
Proof.
  intros W [Hlt Hsc] Hq. split; [done|]. intros r Hr Hp. destruct (Hsc r Hr) as [<- <-].
  pose proof (GetPending_row _ _ _ W Hr Hp) as Hg. apply (Hq _ Hg). cbn. by destruct (wf_ids _ W _ _ Hr).
Qed.

(** The audit rows of a resolution are found by [HasAudit]. *)
Lemma resolved_has_audit db chain ep l t h :
  Forall2 (audit_row chain ep) l ((fun nm => (nm, h)) <$> auditEvents (t_Kind t)) ->
  forall db', audits db' = audits db ++ l -> HasAudit db' chain (doneEvent (t_Kind t)) h 0 = true.
Proof.
  intros Hf db' Ha. unfold HasAudit. apply existsb_exists.
  assert (exists r, r ∈ l /\ audit_row chain ep r (doneEvent (t_Kind t), h)) as (r & Hin & Hr).
  { assert ((doneEvent (t_Kind t), h) ∈ (fun nm => (nm, h)) <$> auditEvents (t_Kind t)) as Hd.
    { apply list_elem_of_fmap. exists (doneEvent (t_Kind t)). split; [done|]. destruct (t_Kind t); vm_compute; set_solver. }
    apply list_elem_of_lookup in Hd as [k Hk]. destruct (Forall2_lookup_r _ _ _ _ _ Hf Hk) as (r & Hr & Har).
    exists r. split; [by eapply list_elem_of_lookup_2|done]. }
  exists r. split; [apply list_elem_of_In; rewrite Ha; apply elem_of_app; by right|].
  destruct Hr as (-> & _ & He & Hh). cbn in He, Hh.
  rewrite He, Hh, !bool_decide_true, Z.eqb_refl, orb_true_r by done. done.
Qed.

(** What a successful [ResolvePending] leaves. *)
Lemma resolved_ended actor now fence p t db db' u :
  db_wf db -> ResolvePending actor now fence p t db = Ok (db', u) ->
  ended (p_ID p) db' /\ HasAudit db' (p_ChainID p) (doneEvent (t_Kind t)) (p_TxHash p) 0 = true.
Proof.
  intros W E. destruct (resolve_effect _ _ _ W _ _ _ _ _ E) as [(o & o' & Hr & Hd) _ (l & Hl & Ha) _ _].
  split; [|by eapply resolved_has_audit]. destruct Hd as (r & -> & (Hid & _ & Hp & _) & Hst).
  inversion Hr as [| |i ? r' Hi Ht _ Heq Hn|i ? Hi Heq Hn]; subst.
  - destruct (wf_ids _ W _ _ Hi) as [Hii ?]. rewrite Hid in Hii. subst i. split; [lia|].
    intros r0 H0. rewrite Heq, lookup_insert_eq in H0. injection H0 as <-. intros Hp'.
    unfold row_status in Hst. cbn in Hst. rewrite Hp' in Hst. by case_bool_decide.
  - destruct (wf_ids _ W _ _ Hi) as [Hii ?]. rewrite Hid in Hii. subst i. split; [lia|].
    intros r0 H0. by rewrite Heq, lookup_delete_eq in H0.
Qed.

Section terminal.
Context {En : Env} {Et : EthTx} (HE : Env_ok).

(** C28: Once the signer has seen a terminal transition of a pending row through, at once or by
    reading the state back after a lost COMMIT answer, the row is not pending and never
    will be again, and the transition's audit row is there. *)
Theorem applied_terminal_is_final fence p t db0 w :
  db_wf db0 -> GetPending db0 st_chainID (p_Scope p) = Some p -> reach db0 (w_db w) ->
  (applyTerminal fence p t w).2 = None ->
  let db' := w_db (applyTerminal fence p t w).1 in
  HasAudit db' st_chainID (doneEvent (t_Kind t)) (p_TxHash p) 0 = true /\
  forall db'' r, reach db' db'' -> states db'' !! p_ID p = Some r -> State r <> RowPending.
Proof.
  intros W0 Hg R Hres. destruct (GetPending_scoped _ _ _ _ W0 Hg) as (Hsc & Hc & _).
  assert (db_wf (w_db w)) as W by exact (reach_wf _ _ R W0).
  assert (scoped (p_ID p) st_chainID (p_Scope p) (w_db w)) as Hsw by exact (scoped_stable _ _ _ _ _ W0 R Hsc).
  assert (db_wf (w_db (applyTerminal fence p t w).1)) as W'.
  { eapply reach_wf; [|exact W]. exact (proj1 (quiet_applyTerminal HE (fun _ => True) fence p t w W I)). }
  cbn zeta. cut (HasAudit (w_db (applyTerminal fence p t w).1) st_chainID (doneEvent (t_Kind t)) (p_TxHash p) 0 = true /\
                 ended (p_ID p) (w_db (applyTerminal fence p t w).1)).
  { intros [Ha He]. split; [done|]. intros db'' r R'' Hr. exact (proj2 (ended_stable _ _ _ W' R'' He) r Hr). }
  clear W'. revert Hres. unfold applyTerminal. set (fn := fun actor now => ResolvePending actor now fence p t).
  rewrite !M_bind_eq. destruct (write fn w).2 as [o|e] eqn:Ew.
  - intros _. cbn. apply write_ok in Ew. destruct (resolved_ended _ _ _ _ _ _ _ _ (interfere_wf HE _ _ W) Ew) as [He Ha].
    rewrite <-Hc. done.
  - destruct (isEvmCommitUnknown e); [|done].
    assert (reach (w_db w) (w_db (write fn w).1)) as R1
      by exact (proj1 (quiet_resolve HE (fun _ => True) fence p t w W I)).
    set (w1 := (write fn w).1) in *. clearbody w1. unfold readBackResolved. rewrite !M_bind_eq.
    unfold query. cbn [fst snd]. case_bool_decide as Hf; [|done].
    assert (reach (w_db w) (interfere (w_tick w1) (w_db w1))) as R2 by (etrans; [exact R1|by apply interfere_reach]).
    set (db2 := interfere (w_tick w1) (w_db w1)) in *. clearbody db2.
    destruct (match GetPending db2 st_chainID (p_Scope p) with Some c => p_ID c =? p_ID p | None => false end) eqn:Hq; [done|].
    assert (ended (p_ID p) db2) as He2.
    { apply (other_pending_ended _ _ st_chainID (p_Scope p)); [exact (reach_wf _ _ R2 W)|exact (scoped_stable _ _ _ _ _ W R2 Hsw)|].
      intros q Hq'. rewrite Hq' in Hq. by apply Z.eqb_neq. }
    cbn -[interfere HasAudit]. case_bool_decide as Hf3; [|done].
    destruct (HasAudit _ _ _ _ _) eqn:Ha; [|done]. intros _. cbn -[interfere HasAudit]. split; [done|].
    exact (ended_stable _ _ _ (reach_wf _ _ R2 W) (interfere_reach HE _ _) He2).
Qed.
End terminal.

(** The database after signer A recorded [toy_tx] for operation 77. *)
Definition toy_fence : evmFence := mkFence "moca" "A" 1.
Definition toy_db : evm_db :=
  let env := toy_env (fun _ => false) in
  w_db (@recordPendingEvmTx env toy_eth toy_fence "operator" 77 toy_tx toy_tx (@exec_op env toy_eth PTick (start_world empty_db))).1.
Definition toy_pending : pendingRecord := mkPending 1 "moca" 1 "operator" 5 3 1015 77 false 1.

Lemma toy_db_wf : db_wf toy_db.
Proof.
  pose (env := toy_env (fun _ => false)). pose proof (toy_env_ok (fun _ => false)) as HE.
  assert (db_wf (w_db (@exec_op env toy_eth PTick (start_world empty_db)))) as W.
  { eapply reach_wf; [|exact empty_db_wf]. exact (proj1 (quiet_tick HE (fun _ => True) (start_world empty_db) empty_db_wf I)). }
  eapply reach_wf; [|exact W]. exact (proj1 (quiet_record HE (fun _ => True) _ _ _ _ _ _ W I)).
Qed.

(** The COMMIT's answer is lost; reading back finds the transition. *)
Lemma applied_terminal_is_final_witness :
  let env := toy_env (fun t => bool_decide (t = 0%nat)) in
  let t := mkTerminal terminalSuccessConsume (Some 1) 50 "" "submit" in
  let db' := w_db (@applyTerminal env toy_fence toy_pending t (start_world toy_db)).1 in
  (@write env _ (fun actor now => ResolvePending actor now toy_fence toy_pending t) (start_world toy_db)).2 = Err evmCommitUnknownError /\
  HasAudit db' "moca" evmAuditOutcomeConsumed 1015 0 = true.
Proof.
  cbv zeta. split; [vm_compute; reflexivity|].
  apply (@applied_terminal_is_final (toy_env (fun t => bool_decide (t = 0%nat))) (toy_env_ok _) toy_fence toy_pending
           (mkTerminal terminalSuccessConsume (Some 1) 50 "" "submit") toy_db (start_world toy_db));
    [exact toy_db_wf|vm_compute; reflexivity|reflexivity|vm_compute; reflexivity].
Defined.

(** ** An unhandled request may be signed *)

Section unhandled.
Context {En : Env} {Et : EthTx} (Hno : forall t, others t = []).

Lemma alone_ok : Env_ok.
Proof. intros t f a n c Hin. rewrite Hno in Hin. by apply not_elem_of_nil in Hin. Qed.

Lemma interfere_none t db : interfere t db = db.
Proof. unfold interfere. by rewrite Hno. Qed.

(** Computations that leave the state rows as they are. *)
Definition same_rows {A} (m : M A) : Prop := forall w, states (w_db (m w).1) = states (w_db w).

Lemma same_rows_bind {A B} (m : M A) (f : A -> M B) : same_rows m -> (forall a, same_rows (f a)) -> same_rows (m ≫= f).
Proof. intros Hm Hf w. rewrite M_bind_eq, Hf. apply Hm. Qed.

Lemma query_alone {A} (f : evm_db -> A) w : w_db (query f w).1 = w_db w.
Proof. unfold query. cbn. apply interfere_none. Qed.

Lemma query_value {A} (f : evm_db -> A) w a : (query f w).2 = Ok a -> a = f (w_db w).
Proof. unfold query. cbn. rewrite interfere_none. case_bool_decide; [by intros [= <-]|done]. Qed.

Lemma same_rows_audit fence ev : same_rows (write (fun actor now => AppendAudit actor now fence st_chainID ev)).
Proof.
  intros w. unfold write. rewrite interfere_none. unfold txn.
  destruct (AppendAudit actor (db_now (w_tick w)) fence st_chainID ev (w_db w)) as [[db' u]|e] eqn:E.
  - unfold AppendAudit in E. tx_step E. apply fence_opt_ok in E0 as [-> _]. apply insertAudit_ok in E as (e & _ & _ & _ & ->).
    by destruct (fate_at (w_tick w)).
  - by destruct (fate_at (w_tick w)).
Qed.

Lemma same_rows_load fence kind i ref ev : same_rows (loadEvidence fence kind i ref ev).
Proof.
  intros w. unfold loadEvidence. rewrite M_bind_eq. rewrite <-(query_alone (fun db => GetSignedTx db (r_SignedTxID ref)) w).
  destruct (query _ w).2 as [e|]; [|done]. destruct (verify _ _); [done|]. set (w1 := (query _ w).1). clearbody w1.
  rewrite M_bind_eq. cbn [gets fst snd]. rewrite M_bind_eq. cbn. destruct (bool_decide _); [done|].
  rewrite M_bind_eq, M_bind_eq. set (w2 := (ask detail w1).1). assert (states (w_db w2) = states (w_db w1)) as <- by done.
  rewrite <-same_rows_audit with (fence := fence) (ev := set_detail (ask detail w1).2 (set_event evmAuditEvidenceInvalid ev)) (w := w2).
  by destruct (write _ w2).2.
Qed.

(** No pending row in the scope and no row of the operation. *)
Definition free (scope : SignType) (op : Hash) (db : evm_db) : Prop :=
  GetPending db st_chainID scope = None /\ status db (st_chainID, scope, op) = None.

Lemma GetPending_ext db db' c s : states db' = states db -> GetPending db' c s = GetPending db c s.
Proof. unfold GetPending, select_states. by intros ->. Qed.
Lemma GetOutcome_ext db db' c s o : states db' = states db -> GetOutcome db' c s o = GetOutcome db c s o.
Proof. unfold GetOutcome, select_states. by intros ->. Qed.

Lemma free_ext scope op db db' : states db' = states db -> free scope op db -> free scope op db'.
Proof. unfold free, GetPending, status, select_states. by intros ->. Qed.

(** A write either leaves the database alone and fails, or commits, with or without its answer. *)
Lemma write_cases {A} (fn : string -> Z -> txM A) w :
  (w_db (write fn w).1 = w_db w /\ exists e, (write fn w).2 = Err e) \/
  exists a, fn actor (db_now (w_tick w)) (w_db w) = Ok (w_db (write fn w).1, a) /\
    ((write fn w).2 = Ok a \/ (write fn w).2 = Err evmCommitUnknownError).
Proof.
  unfold write. rewrite interfere_none. unfold txn.
  destruct (fate_at (w_tick w)), (fn _ _ (w_db w)) as [[db' a]|e]; cbn; eauto 6.
Qed.

(** After a transition seen through, the row is taken and the one left is the transition's. *)
Lemma applyTerminal_alone fence p t w :
  db_wf (w_db w) -> GetPending (w_db w) st_chainID (p_Scope p) = Some p -> (applyTerminal fence p t w).2 = None ->
  exists r o', rows_change (w_db w) (w_db (applyTerminal fence p t w).1) (Some r) o' /\ pending_row p r /\
    row_status o' = if bool_decide (t_Kind t = terminalSuccessKeep) then Some (RowOutcome evmOutcomeSucceeded) else None.
Proof.
  intros W Hg. unfold applyTerminal. set (fn := fun actor now => ResolvePending actor now fence p t). rewrite !M_bind_eq.
  destruct (write_cases fn w) as [[Hdb [e ->]]|(o & E & Hres)].
  - destruct (isEvmCommitUnknown e); [|done]. unfold readBackResolved. rewrite !M_bind_eq.
    pose proof (query_alone (fun db => GetPending db st_chainID (p_Scope p)) (write fn w).1) as Hq.
    destruct (query _ (write fn w).1).2 as [c|e'] eqn:Ec; [|done]. apply query_value in Ec as ->.
    rewrite Hdb, Hg, Z.eqb_refl. done.
  - destruct (resolve_effect _ _ _ W _ _ _ _ _ E) as [(x & o' & Hr & Hd) _ _ _ _]. destruct Hd as (r & -> & Hp & Hst).
    intros Hnone. exists r, o'. split; [|done].
    match goal with |- rows_change _ ?d _ _ => assert (d = w_db (write fn w).1) as ->; [|done] end. revert Hnone.
    destruct Hres as [-> | ->]; [done|]. change (isEvmCommitUnknown evmCommitUnknownError) with true. cbv iota.
    unfold readBackResolved. rewrite !M_bind_eq. set (q := query _ (write fn w).1).
    assert (w_db q.1 = w_db (write fn w).1) as Hq by apply query_alone. destruct q.2 as [c|e']; [|done].
    destruct (match c with Some c => p_ID c =? p_ID p | None => false end); [done|].
    set (q2 := query _ q.1). assert (w_db q2.1 = w_db q.1) as Hq2 by apply query_alone.
    destruct q2.2 as [[|]|]; [|done..]. intros _. exact (eq_trans Hq2 Hq).
Qed.

(** A pending row that ends frees its scope, and its operation unless the result is kept. *)
Lemma ended_free db db' r o' op :
  db_wf db -> db_wf db' -> rows_change db db' (Some r) o' -> State r = RowPending -> ChainID r = st_chainID ->
  row_status o' <> Some RowPending -> (Operation r = op -> row_status o' = None) ->
  (status db (st_chainID, Scope r, op) = None \/ Operation r = op) -> free (Scope r) op db'.
Proof.
  intros W W' Hr Hp Hc Ho Hop Hst. split.
  - rewrite <-Hc. inversion Hr as [| |i ? r' Hi _ _ Heq _|i ? Hi Heq _]; subst.
    + eapply GetPending_gone; [exact W|exact Hi|done|]. intros j x Hj. rewrite Heq in Hj.
      apply lookup_insert_Some in Hj as [[<- <-]|[? ?]]; [right|by left]. intros Hx. apply Ho. cbn. by rewrite Hx.
    + eapply GetPending_gone; [exact W|exact Hi|done|]. intros j x Hj. rewrite Heq in Hj.
      apply lookup_delete_Some in Hj as [? ?]. by left.
  - pose proof (rows_change_status _ _ _ _ (st_chainID, Scope r, op) W W' Hr) as H.
    destruct (on_key (Some r) o' (st_chainID, Scope r, op)) eqn:Hk.
    + destruct H as [_ ->]. apply Hop. cbn in Hk. apply bool_decide_eq_true in Hk. unfold key in Hk. congruence.
    + rewrite H. destruct Hst as [?|Hst]; [done|]. cbn in Hk. apply bool_decide_eq_false in Hk.
      destruct Hk. unfold key. congruence.
Qed.

(** ** Answers *)

(** An answer that leaves the request unhandled finds the operation free. *)
Definition answers_free (scope : SignType) (op : Hash) (m : M answer) : Prop :=
  forall w, db_wf (w_db w) -> (m w).2.1.2 = false -> free scope op (w_db (m w).1).

Lemma af_bind {A} scope op (m : M A) (f : A -> M answer) :
  quiet (fun _ => True) m -> (forall a, answers_free scope op (f a)) -> answers_free scope op (m ≫= f).
Proof.
  intros Hm Hf w W. rewrite M_bind_eq. apply Hf. eapply reach_wf; [|exact W]. exact (proj1 (Hm w W I)).
Qed.

Lemma af_handled scope op a : a.1.2 = true -> answers_free scope op (mret a).
Proof. intros H w _. cbn. by rewrite H. Qed.

(** Optional answers that are always handled. *)
Definition always_handled (m : M (option answer)) : Prop := forall w a, (m w).2 = Some a -> a.1.2 = true.

Lemma ah_bind {A} (m : M A) (f : A -> M (option answer)) : (forall a, always_handled (f a)) -> always_handled (m ≫= f).
Proof. intros Hf w a. rewrite M_bind_eq. apply Hf. Qed.

Lemma ah_ret o : (forall a, o = Some a -> a.1.2 = true) -> always_handled (mret o).
Proof. intros H w a. apply H. Qed.

Ltac ah_step :=
  match goal with
  | |- always_handled (_ ≫= _) => apply ah_bind; intros ?
  | |- always_handled (match ?x with _ => _ end) => destruct x
  | |- always_handled (mret _) => apply ah_ret; intros ?; first [by intros [= <-] | intros ?; by simplify_option_eq]
  end.

Lemma ah_retry_terminal fence scope op r : always_handled (retry_terminal fence scope op r).
Proof. unfold retry_terminal. cbv zeta. repeat ah_step. Qed.

Lemma ah_retry_consume scope c : always_handled (retry_consume scope c).
Proof. unfold retry_consume. repeat ah_step. Qed.

(** The two optional steps of [retryEvmMemory] pass their answers on. *)
Lemma ah_then (m : M (option answer)) (k : M (option answer)) :
  always_handled m -> always_handled k -> always_handled (a ← m; match a with Some a => mret (Some a) | None => k end).
Proof.
  intros Hm Hk w a. rewrite M_bind_eq. destruct (m w).2 as [a'|] eqn:E; [|apply Hk].
  intros [= <-]. by eapply Hm.
Qed.

Lemma ah_retryEvmMemory fence scope op : always_handled (retryEvmMemory fence scope op).
Proof.
  unfold retryEvmMemory. apply ah_bind; intros mem. cbv zeta. apply ah_bind; intros r.
  apply ah_then; [destruct r; [apply ah_retry_terminal|repeat ah_step]|].
  apply ah_then; [destruct (consumeUnknown mem); [apply ah_retry_consume|repeat ah_step]|].
  destruct (op =? zeroHash); [repeat ah_step|]. apply ah_bind; intros h. apply ah_bind; intros u.
  apply ah_ret. intros a Ha. destruct h; [|done]. by injection Ha as <-.
Qed.

(** Step 3: an answer, or no outcome of the operation and an untouched database. *)
Definition outcome_step (scope : SignType) (op : Hash) (m : M (option answer)) : Prop :=
  forall w, db_wf (w_db w) ->
  match (m w).2 with
  | Some a => a.1.2 = false -> free scope op (w_db (m w).1)
  | None => states (w_db (m w).1) = states (w_db w) /\ GetOutcome (w_db w) st_chainID scope op = None
  end.

Lemma os_some scope op (m : M answer) : answers_free scope op m -> outcome_step scope op (a ← m; mret (Some a)).
Proof. intros Hm w W. rewrite M_bind_eq. cbn. by apply Hm. Qed.

Lemma os_handled scope op a : a.1.2 = true -> outcome_step scope op (mret (Some a)).
Proof. intros H w _. cbn. by rewrite H. Qed.

(** As [outcome_step], for the part after an outcome was found. *)
Lemma os_bind_quiet {A} scope op (m : M A) (f : A -> M (option answer)) :
  quiet (fun _ => True) m -> (forall a w, db_wf (w_db w) -> match (f a w).2 with Some x => x.1.2 = false -> free scope op (w_db (f a w).1) | None => False end) ->
  forall w, db_wf (w_db w) -> match ((m ≫= f) w).2 with Some x => x.1.2 = false -> free scope op (w_db ((m ≫= f) w).1) | None => False end.
Proof. intros Hm Hf w W. rewrite M_bind_eq. apply Hf. eapply reach_wf; [|exact W]. exact (proj1 (Hm w W I)). Qed.

Section depth.
Context (fence : evmFence) (scope : SignType) (op : Hash) (again : M answer).
Context (Hagain : answers_free scope op again).

Lemma af_consume o : answers_free scope op (consumeOutcome again fence scope o).
Proof.
  unfold consumeOutcome. apply af_bind; [apply quiet_consume; exact alone_ok|]. intros [u|e]; [by apply af_handled|].
  assert (answers_free scope op (if isEvmCommitUnknown e
    then consumed ← readBackConsumed o;
         match consumed with Ok true => mret (taken (o_ResultTxHash o))
         | _ => upd_memory scope (set_consume (Some o));; mret (handled (ErrStore e)) end
    else mret (handled (ErrStore e)))) as H.
  { destruct (isEvmCommitUnknown e); [|by apply af_handled]. apply af_bind.
    - unfold readBackConsumed. pose proof alone_ok. quiet_all.
    - intros [[|]|]; [by apply af_handled|..]; (apply af_bind; [apply quiet_upd|intros; by apply af_handled]). }
  by destruct e.
Qed.

Lemma os_resolve_outcome : outcome_step scope op (resolve_outcome again fence scope op).
Proof.
  intros w W. unfold resolve_outcome. rewrite M_bind_eq.
  pose proof (query_alone (fun db => GetOutcome db st_chainID scope op) w) as Hq.
  destruct (query _ w).2 as [o|e] eqn:Eq; [apply query_value in Eq as ->|by cbn].
  destruct (GetOutcome (w_db w) st_chainID scope op) as [o|] eqn:Ho; [|exact (conj (f_equal states Hq) eq_refl)].
  set (w1 := (query _ w).1) in *. assert (db_wf (w_db w1)) as W1 by by rewrite Hq. clearbody w1.
  match goal with |- match ?m.2 with _ => _ end =>
    assert (match m.2 with Some x => x.1.2 = false -> free scope op (w_db m.1) | None => False end) as H; [|by destruct m.2] end.
  clear Hq Ho W w. revert w1 W1. apply os_bind_quiet; [apply quiet_loadEvidence; [exact alone_ok|exact _]|].
  intros [tx|e] w W; [|by cbn]. destruct (o_State o).
  - rewrite M_bind_eq. cbn. by apply af_consume.
  - by cbn.
  - revert w W. apply os_bind_quiet; [apply quiet_autoSettle; [exact alone_ok|exact _]|]. intros [[|] err] w W; cbn; [|done].
    rewrite M_bind_eq. cbn. by apply Hagain.
Qed.

(** The branch without a receipt. *)
Lemma dispose_free p tx w :
  db_wf (w_db w) -> recorded (tx_Hash tx) (w_db w) ->
  let m := '(moved, sent, _) ← autoDisposePending fence scope p tx;
           if (moved : bool) then again
           else (if (sent : bool) then mret tt else rebroadcastPendingEvmTx tx);; mret (Some (p_TxHash p), true, Some ErrUnconfirmed) in
  (m w).2.1.2 = false -> free scope op (w_db (m w).1).
Proof.
  intros W Hrec. cbn zeta. rewrite M_bind_eq. set (d := autoDisposePending _ _ _ _ w).
  assert (db_wf (w_db d.1)) as Wd.
  { eapply reach_wf; [|exact W]. exact (proj1 (quiet_autoDispose alone_ok (fun _ => True) fence scope p tx w W (conj I Hrec))). }
  destruct d.2 as [[[|] sent] e]; [by apply Hagain|]. rewrite M_bind_eq. by cbn.
Qed.

(** A receipt that ends the pending row without handing its result to the request. *)
Lemma terminal_free p r w :
  db_wf (w_db w) -> GetPending (w_db w) st_chainID scope = Some p -> GetOutcome (w_db w) st_chainID scope op = None ->
  let t := receipt_terminal p op r in
  (applyTerminal fence p t w).2 = None -> t_Kind t <> terminalSuccessConsume -> free scope op (w_db (applyTerminal fence p t w).1).
Proof.
  intros W Hg Ho t Ha Hk. destruct (GetPending_some _ _ _ _ W Hg) as (r0 & Hr0 & Hp0 & Hc0 & Hs0 & Hpr).
  assert (p_Scope p = scope) as Hps by by rewrite Hpr.
  destruct (applyTerminal_alone fence p t w W) as (r1 & o' & Hch & (Hid & _) & Hst); [by rewrite Hps|done|].
  assert (r1 = r0) as ->.
  { inversion Hch as [| |i ? r' Hi|i ? Hi]; subst; destruct (wf_ids _ W _ _ Hi) as [Hii _]; rewrite Hid in Hii; subst i; congruence. }
  assert (db_wf (w_db (applyTerminal fence p t w).1)) as W'.
  { eapply reach_wf; [|exact W]. exact (proj1 (quiet_applyTerminal alone_ok (fun _ => True) fence p t w W I)). }
  rewrite <-Hs0. eapply ended_free; [exact W|exact W'|exact Hch|done|done|..].
  - rewrite Hst. by case_bool_decide.
  - intros Hop. rewrite Hst. case_bool_decide as Hkeep; [|done]. exfalso. subst t. unfold receipt_terminal in Hkeep. cbn in Hkeep.
    destruct (r_Status r =? ReceiptStatusSuccessful); [|done].
    replace (p_Operation p) with op in Hkeep by (rewrite Hpr; cbn; congruence). by rewrite Z.eqb_refl in Hkeep.
  - destruct (status (w_db w) (st_chainID, Scope r0, op)) as [s|] eqn:Es; [right|by left].
    apply status_some in Es as (i & r1 & Hi & Hkey & Hs1); [|done]. unfold key in Hkey. injection Hkey as Hkc Hks Hko.
    destruct s as [|s].
    + assert (i = p_ID p) as -> by (eapply (wf_active _ W); [exact Hi|exact Hr0|]; split_and!; [congruence..|by right]). congruence.
    + pose proof (GetOutcome_row _ _ _ _ W Hi Hs1) as Hgo. rewrite Hkc, Hks, Hko, Hs0, Ho in Hgo.
      unfold outcomeFromRow in Hgo. by rewrite Hs1 in Hgo.
Qed.

(** Step 4 with a pending row. *)
Lemma resolve_pending_free p w :
  db_wf (w_db w) -> op <> zeroHash -> GetPending (w_db w) st_chainID scope = Some p ->
  GetOutcome (w_db w) st_chainID scope op = None ->
  (resolve_pending again fence scope op p w).2.1.2 = false -> free scope op (w_db (resolve_pending again fence scope op p w).1).
Proof.
  intros W Hop Hg Ho. unfold resolve_pending. rewrite M_bind_eq. set (w1 := (setLastSeen scope (p_ID p) w).1).
  assert (w_db w1 = w_db w) as E1 by done. clearbody w1. rewrite M_bind_eq.
  set (load := loadEvidence _ _ _ _ _). pose proof (same_rows_load (Some fence) "pending" (p_ID p) (pending_ref p) (pending_audit p (evmAuditOther "")) w1) as Hl.
  assert (db_wf (w_db (load w1).1)) as W2.
  { eapply reach_wf; [|rewrite <-E1 in W; exact W].
    refine (proj1 (quiet_loadEvidence alone_ok (fun _ => True) _ _ _ _ _ w1 _ I)). by rewrite E1. }
  fold load in Hl. rewrite E1 in Hl. pose proof (loadEvidence_recorded (Some fence) "pending" (p_ID p) (pending_ref p)
    (pending_audit p (evmAuditOther "")) w1) as Hrec. fold load in Hrec.
  destruct (load w1).2 as [tx|e]; [|by cbn]. specialize (Hrec tx eq_refl). set (w2 := (load w1).1) in *. clearbody w2.
  rewrite M_bind_eq. set (w3 := (ask _ w2).1). assert (w_db w3 = w_db w2) as E3 by done. clearbody w3.
  rewrite <-E3 in W2, Hl, Hrec.
  destruct (ask _ w2).2 as [[r|]|]; [|by apply dispose_free..].
  rewrite M_bind_eq. set (t := receipt_terminal p op r).
  assert (GetPending (w_db w3) st_chainID scope = Some p) as Hg3 by (rewrite <-Hg; by apply GetPending_ext).
  assert (GetOutcome (w_db w3) st_chainID scope op = None) as Ho3 by (rewrite <-Ho; by apply GetOutcome_ext).
  pose proof (terminal_free p r w3 W2 Hg3 Ho3) as Hfree. fold t in Hfree.
  assert (db_wf (w_db (applyTerminal fence p t w3).1)) as W4.
  { eapply reach_wf; [|exact W2]. exact (proj1 (quiet_applyTerminal alone_ok (fun _ => True) fence p t w3 W2 I)). }
  destruct (applyTerminal fence p t w3).2 as [e|] eqn:Ea.
  - destruct e; try (rewrite M_bind_eq; by cbn). by apply Hagain.
  - destruct (bool_decide_reflect (t_Kind t = terminalSuccessConsume)) as [Hk|Hk]; [by cbn|]. intros _. by apply Hfree.
Qed.
End depth.

Lemma same_rows_vanished fence scope : same_rows (resolve_vanished fence scope).
Proof.
  unfold resolve_vanished. apply same_rows_bind; [done|]. intros i. destruct (i =? 0); [done|].
  apply same_rows_bind; [done|]. intros d. apply same_rows_bind; [apply same_rows_audit|]. intros [u|e]; [|done].
  apply same_rows_bind; [|intros [e|]; [done|]; apply same_rows_bind; done].
  unfold refreshNonceFromChain. destruct (negb _); [done|]. apply same_rows_bind; [done|]. intros [n|]; [|done].
  by apply same_rows_bind.
Qed.

Lemma resolveEvmState_free depth fence scope op : op <> zeroHash -> answers_free scope op (resolveEvmState depth fence scope op).
Proof.
  intros Hop. induction depth as [|depth IH]; [by apply af_handled|]. cbn [resolveEvmState]. cbv zeta.
  set (again := resolveEvmState depth fence scope op) in *.
  assert (quiet (fun _ => True) again) as Hqa by (apply quiet_resolveEvmState; [exact alone_ok|exact _]). clearbody again.
  intros w W. rewrite M_bind_eq. pose proof (ah_retryEvmMemory fence scope op w) as Hah.
  assert (db_wf (w_db (retryEvmMemory fence scope op w).1)) as W1.
  { eapply reach_wf; [|exact W]. exact (proj1 (quiet_retryEvmMemory alone_ok (fun _ => True) fence scope op w W I)). }
  destruct (retryEvmMemory fence scope op w).2 as [a|]; [cbn; by rewrite (Hah a eq_refl)|]. set (w1 := (retryEvmMemory _ _ _ w).1) in *.
  clearbody w1. rewrite (proj2 (Z.eqb_neq op zeroHash) Hop). rewrite M_bind_eq.
  pose proof (os_resolve_outcome fence scope op again IH w1 W1) as Hos.
  assert (db_wf (w_db (resolve_outcome again fence scope op w1).1)) as W2.
  { eapply reach_wf; [|exact W1].
    exact (proj1 (quiet_resolve_outcome alone_ok (fun _ => True) again fence scope op Hqa w1 W1 I)). }
  destruct (resolve_outcome again fence scope op w1).2 as [a|]; [exact Hos|]. destruct Hos as [Hst Ho].
  set (w2 := (resolve_outcome _ _ _ _ w1).1) in *. clearbody w2. rewrite <-(GetOutcome_ext _ _ _ _ _ Hst) in Ho.
  rewrite M_bind_eq. pose proof (query_alone (fun db => GetPending db st_chainID scope) w2) as Hq.
  destruct (query _ w2).2 as [p|e] eqn:Ep; [apply query_value in Ep as ->|by cbn]. set (w3 := (query _ w2).1) in *. clearbody w3.
  rewrite <-Hq in *. clear Hq. destruct (GetPending (w_db w3) st_chainID scope) as [p|] eqn:Hg.
  - by apply (resolve_pending_free fence scope op again IH).
  - intros _. eapply free_ext; [apply same_rows_vanished|]. split; [done|].
    destruct (status (w_db w3) (st_chainID, scope, op)) as [s|] eqn:Es; [|done]. exfalso.
    apply status_some in Es as (i & r & Hi & Hkey & Hs); [|done]. unfold key in Hkey. injection Hkey as Hkc Hks Hko.
    destruct s as [|s].
    + by apply (GetPending_none _ _ _ _ _ Hg Hi).
    + pose proof (GetOutcome_row _ _ _ _ W2 Hi Hs) as Hgo. rewrite Hkc, Hks, Hko, Ho in Hgo.
      unfold outcomeFromRow in Hgo. by rewrite Hs in Hgo.
Qed.


(** C13: While no other process writes, a request for an operation (whose hash is not zero)
    that the recorded state neither answers nor blocks finds, when it is let through to
    sign, no pending row in its scope and no row of its operation, pending or outcome: every
    failed, lost or automatic step on the way has been accounted for. *)
Theorem unhandled_request_may_sign scope op w :
  db_wf (w_db w) -> op <> zeroHash -> (resolvePendingEvmTx scope op w).2.1.2 = false ->
  let db' := w_db (resolvePendingEvmTx scope op w).1 in
  GetPending db' st_chainID scope = None /\
  forall i r, states db' !! i = Some r -> ~ (ChainID r = st_chainID /\ Scope r = scope /\ Operation r = op).
Proof.
  intros W Hop Hu. cbn zeta. cut (free scope op (w_db (resolvePendingEvmTx scope op w).1)).
  { intros [Hg Hst]. split; [done|]. intros i r Hi (Hc & Hs & Ho). rewrite status_none in Hst.
    apply (Hst i r Hi). unfold key. congruence. }
  revert w W Hu. change (answers_free scope op (resolvePendingEvmTx scope op)). unfold resolvePendingEvmTx.
  destruct (negb configured); [by apply af_handled|]. apply af_bind; [apply quiet_lease_fence; exact _|].
  intros [fence|]; [|by apply af_handled]. apply af_bind; [apply quiet_sync; [exact alone_ok|exact _]|].
  intros [e|]; [|by apply resolveEvmState_free]. destruct (negb (is_unsynced e)); [by apply af_handled|].
  intros w W. rewrite M_bind_eq. destruct (resolveEvmState (S evmResolveMaxDepth) fence scope op w) as [w' [[h [|]] e']]; by cbn.
Qed.

(** ** The start check *)

Lemma loadEvidence_ok fence kind i ref ev w tx :
  (loadEvidence fence kind i ref ev w).2 = Ok tx ->
  w_db (loadEvidence fence kind i ref ev w).1 = w_db w /\ verify (GetSignedTx (w_db w) (r_SignedTxID ref)) ref = Ok tx.
Proof.
  unfold loadEvidence. rewrite M_bind_eq. pose proof (query_alone (fun db => GetSignedTx db (r_SignedTxID ref)) w) as Hq.
  destruct (query _ w).2 as [e|] eqn:Ee; [apply query_value in Ee as ->|done].
  destruct (verify _ ref) as [tx'|err]; [intros [= <-]; done|]. rewrite !M_bind_eq. done.
Qed.

Lemma check_pendings_keeps l bad w res : (check_pendings l bad w).2 = Ok res -> exists more, res = bad ++ more.
Proof.
  revert bad w. induction l as [|p l IH]; cbn [check_pendings]; intros bad w.
  - intros [= <-]. exists []. by rewrite app_nil_r.
  - rewrite M_bind_eq. destruct (load_pending None p w).2 as [tx|e]; [apply IH|]. destruct (evidence_invalid e); [|done].
    intros [more ->]%IH. rewrite <-app_assoc. by eexists.
Qed.

Lemma check_pendings_ok l w :
  (check_pendings l [] w).2 = Ok [] ->
  forall p, p ∈ l -> exists tx, verify (GetSignedTx (w_db w) (p_SignedTxID p)) (pending_ref p) = Ok tx.
Proof.
  revert w. induction l as [|p l IH]; cbn [check_pendings]; intros w; [set_solver|].
  rewrite M_bind_eq. pose proof (loadEvidence_ok None "pending" (p_ID p) (pending_ref p) (pending_audit p (evmAuditOther "")) w) as Hl.
  fold (load_pending None p) in Hl. destruct (load_pending None p w).2 as [tx|e].
  - destruct (Hl tx eq_refl) as [Hdb Hv]. intros H q [->|Hq]%elem_of_cons; [by exists tx|]. rewrite <-Hdb. by apply IH.
  - destruct (evidence_invalid e); [|done]. intros [more Hm]%check_pendings_keeps. done.
Qed.

(** A signer that starts has seen only rows of its own chain, in every table, and has
    verified the stored transaction of every pending row. *)
Theorem start_check_sound w :
  (checkEvmStateOnStart w).2 = None ->
  let db := w_db w in
  (forall i r, states db !! i = Some r -> ChainID r = st_chainID) /\
  (forall i e, signed db !! i = Some e -> e_ChainID e = st_chainID) /\
  (forall c l, leases db !! c = Some l -> c = st_chainID) /\
  (forall i r, states db !! i = Some r -> State r = RowPending ->
     exists tx, verify (GetSignedTx db (SignedTxID r)) (pending_ref (pendingFromRow r)) = Ok tx).
Proof.
  unfold checkEvmStateOnStart. destruct (negb configured); [done|]. rewrite M_bind_eq.
  pose proof (query_alone (fun db => ForeignChainIDs db st_chainID) w) as Hq.
  destruct (query _ w).2 as [f|] eqn:Ef; [apply query_value in Ef as ->|done]. set (w1 := (query _ w).1) in *. clearbody w1.
  case_bool_decide as Hf; [|done]. cbn [negb]. rewrite M_bind_eq.
  pose proof (query_alone (fun db => ListPending db st_chainID) w1) as Hq1.
  destruct (query _ w1).2 as [l|] eqn:El; [apply query_value in El as ->|done]. set (w2 := (query _ w1).1) in *. clearbody w2.
  rewrite M_bind_eq. destruct (check_pendings _ [] w2).2 as [bad|] eqn:Ec; [|done]. rewrite M_bind_eq.
  destruct (query _ _).2 as [os|]; [|done]. rewrite M_bind_eq. destruct (check_outcomes os _).2; [done|].
  cbn. case_bool_decide as Hb; [|done]. subst bad. intros _. cbn zeta.
  assert (forall c, c ∈ (ChainID <$> (map_to_list (states (w_db w))).*2) ++ (map_to_list (leases (w_db w))).*1 ++
    (e_ChainID <$> (map_to_list (signed (w_db w))).*2) ++ (au_ChainID <$> audits (w_db w)) -> c = st_chainID) as Hall.
  { intros c Hc. destruct (decide (c = st_chainID)) as [|Hne]; [done|]. exfalso.
    assert (c ∈ ForeignChainIDs (w_db w) st_chainID) as Hin.
    { unfold ForeignChainIDs. apply elem_of_difference. split; [by apply elem_of_list_to_set|]. by rewrite elem_of_singleton. }
    rewrite Hf in Hin. by apply not_elem_of_empty in Hin. }
  assert (forall i r, states (w_db w) !! i = Some r -> ChainID r = st_chainID) as Hrows.
  { intros i r Hi. apply Hall, elem_of_app. left. apply list_elem_of_fmap. exists r. split; [done|].
    apply list_elem_of_fmap. exists (i, r). split; [done|]. by apply elem_of_map_to_list. }
  split; [exact Hrows|]. split; [|split].
  - intros i e Hi. apply Hall, elem_of_app. right. apply elem_of_app. right. apply elem_of_app. left.
    apply list_elem_of_fmap. exists e. split; [done|]. apply list_elem_of_fmap. exists (i, e). split; [done|]. by apply elem_of_map_to_list.
  - intros c l Hl. apply Hall, elem_of_app. right. apply elem_of_app. left. apply list_elem_of_fmap.
    exists (c, l). split; [done|]. by apply elem_of_map_to_list.
  - intros i r Hi Hp. assert (w_db w2 = w_db w) as E2 by congruence. rewrite <-E2.
    apply (check_pendings_ok _ _ Ec (pendingFromRow r)). unfold ListPending. apply list_elem_of_fmap. exists r. split; [done|].
    apply elem_of_select. split; [|exists i; congruence].
    unfold is_pending. by rewrite Hp, !bool_decide_true by eauto.
Qed.
End unhandled.

(** Operation 78 is let through after the pending transaction of 77 turned out included. *)
Lemma unhandled_request_may_sign_witness :
  let env := toy_env (fun _ => false) in
  let w := set_lease (mkLeaseView true 1 2000000000) (start_world toy_db) in
  let w' := (@resolvePendingEvmTx env toy_eth "operator" 78 w).1 in
  GetPending toy_db "moca" "operator" = Some toy_pending /\ GetPending (w_db w') "moca" "operator" = None /\
  status (w_db w') ("moca", "operator", 77)%string = Some (RowOutcome evmOutcomeSucceeded).
Proof.
  cbv zeta. split; [vm_compute; reflexivity|]. split; [|vm_compute; reflexivity].
  apply (@unhandled_request_may_sign (toy_env (fun _ => false)) toy_eth (fun _ => eq_refl) "operator" 78
           (set_lease (mkLeaseView true 1 2000000000) (start_world toy_db)));
    [exact toy_db_wf|discriminate|vm_compute; reflexivity].
Defined.

Lemma start_check_sound_witness :
  (forall i r, states toy_db !! i = Some r -> State r = RowPending ->
     exists tx, @verify (toy_env (fun _ => false)) toy_eth (GetSignedTx toy_db (SignedTxID r)) (pending_ref (pendingFromRow r)) = Ok tx) /\
  is_Some (states toy_db !! 1).
Proof.
  split; [|vm_compute; eauto].
  apply (@start_check_sound (toy_env (fun _ => false)) toy_eth (fun _ => eq_refl) (start_world toy_db)). vm_compute. reflexivity.
Defined.
