(* ===== verification/GateDownload.v ===== *)
(** The download of an object by the gateway: [parseRange] and [downloadObject] of
    modular/gater/object_handler.go, with the calls to the downloader over their connections
    (base/gfspclient/downloader.go, base/gfspapp/download_server.go) and the handlers of
    the downloader (Downloader).

    The chain's answers, the clock, the fates of connections and of database statements,
    what other requests occupy of the downloader and how much of each write reaches the
    client are arguments.  A division by zero and an index out of range are panics ([None]). *)
From Stdlib Require Import ZArith Lia String Ascii.
From stdpp Require Import base gmap list strings pretty option.
From S2P Require Import AuthDb RequestAuth Prelude Strconv Sql Checksum Storage PieceStore PieceOp Hex UploadDb Traffic TaskKey Task TaskTypes Downloader.

Local Open Scope Z_scope.

(** ** Ranges *)

(** util.StringToInt64 *)
Definition StringToInt64 (s : string) : option Z :=
  match ParseInt s 64 with Ok i => Some i | Err _ => None end.

(** What comes before the last character if it is [c]: strings.HasSuffix and the slice. *)
Fixpoint strip_last (c : ascii) (s : string) : option string :=
  match s with
  | EmptyString => None
  | String d EmptyString => if decide (d = c) then Some ""%string else None
  | String d s => rest ← strip_last c s; Some (String d rest)
  end.

(** Whether there is a range, its first and its last byte; -1 is the end of the object. *)
Definition parseRange (rangeStr : string) : bool * Z * Z :=
  let none := (false, -1, -1) in
  if decide (rangeStr = ""%string) then none else
  let rangeStr := remove_char " " (ToLower rangeStr) in
  match strip_prefix "bytes=" rangeStr with
  | None => none
  | Some rangeStr =>
    match strip_last "-" rangeStr with
    | Some rangeStr =>
      match StringToInt64 rangeStr with
      | None => none
      | Some rangeStart => (true, rangeStart, -1)
      end
    | None =>
      match Split rangeStr "-" with
      | [a; b] =>
        match StringToInt64 a, StringToInt64 b with
        | Some rangeStart, Some rangeEnd => (true, rangeStart, rangeEnd)
        | _, _ => none
        end
      | _ => none
      end
    end
  end.

(** The number of segments, as a uint32. *)
Definition segmentPieceCountWithError (payloadSize maxSegmentSize : Z) : result string Z :=
  if maxSegmentSize =? 0 then Err "maxSegmentSize cannot be zero"%string
  else Ok (uwrap 32 (payloadSize / maxSegmentSize + (if payloadSize mod maxSegmentSize >? 0 then 1 else 0))).

(** ** Errors *)

Definition GateModularName : string := "gateway".
Definition ReceiveModularName : string := "receiver".
Definition DownloadModularName : string := "downloader".

Definition gate_err (http code : Z) (desc : string) : goerror := GfSpErr (mkGfSpError GateModularName http code desc).
Definition ErrInvalidRange : goerror := gate_err 400 50012 "invalid range params".
Definition ErrReplyData : goerror := gate_err 400 50037 "reply the downloaded data to client failed".
Definition ErrConsensusWithDetail (detail : string) : goerror := gate_err 500 55001 detail.
Definition ErrConsensusNotFoundWithDetail (detail : string) : goerror := gate_err 404 55002 detail.
Definition ErrDownloadExhaustResource : GfSpError :=
  mkGfSpError "gfsp-base-app" 400 990302 "server overload, try again later".

(** The texts of the errors of storage, database and traffic. *)
Record error_texts := mkTexts {
  storage_text : storage_error -> string;
  db_text : db_error -> string;
  traffic_text : traffic_error -> string;
  sql_text : sql_error -> string;
}.

Section errors.
Context (texts : error_texts).

Definition download_err (http code : Z) (desc : string) : goerror := GfSpErr (mkGfSpError DownloadModularName http code desc).
Definition detail_err (http code : Z) (desc : string) : goerror := GfSpErr (mkGfSpError ReceiveModularName http code desc).

(** The error values of the downloader, with their codes. *)
Definition download_goerror (e : Download.error) : goerror :=
  match e with
  | Download.ErrDanglingPointer => download_err 400 30001 "OoooH.... request lost"
  | Download.ErrObjectUnsealed => download_err 400 30002 "object unsealed"
  | Download.ErrExceedRequest => download_err 400 30003 "get piece request exceed"
  | Download.ErrExceedBucketQuota => download_err 406 30004 "bucket quota overflow"
  | Download.ErrInvalidParam => download_err 400 30005 "request params invalid"
  | Download.ErrNoSuchPiece => download_err 400 30006 "request params invalid, no such piece"
  | Download.ErrKeyFormat => download_err 400 30007 "invalid key format"
  | Download.ErrAccountFrozen => download_err 406 30008 "stream account has been frozen"
  | Download.ErrDownloadStatus => download_err 400 30009 "object cannot be downloaded"
  | Download.ErrPaymentStatusUnknown => download_err 503 30010 "stream account status is unavailable"
  | Download.ErrPieceStoreWithDetail e => detail_err 500 85101 (storage_text texts e)
  | Download.ErrPieceStoreNoSuchKeyWithDetail e => detail_err 404 85102 (storage_text texts e)
  | Download.ErrTrafficWithDetail what e => detail_err 500 85201 (what +:+ traffic_text texts e)
  | Download.ErrGfSpDBWithDetail what e => detail_err 500 85201 (what +:+ db_text texts e)
  | Download.ErrConsensusWithDetail e => detail_err 500 85201 e
  | Download.RawConsensus e => OtherErr e
  | Download.RawTraffic e => OtherErr (sql_text texts e)
  end.
End errors.

(** ** The response to the client *)

(** The headers that are set, the bytes that reached the client, the writes so far. *)
Record response := mkResponse { r_headers : gmap string string; r_body : bytes; r_writes : nat }.

Definition ContentTypeHeader : string := "Content-Type".
Definition ContentLengthHeader : string := "Content-Length".
Definition ContentRangeHeader : string := "Content-Range".
Definition ContentDispositionHeader : string := "Content-Disposition".

Definition SetHeader (k v : string) (w : response) : response :=
  mkResponse (<[k := v]> (r_headers w)) (r_body w) (r_writes w).
Definition DelHeader (k : string) (w : response) : response :=
  mkResponse (delete k (r_headers w)) (r_body w) (r_writes w).

(** A write either succeeds, or the connection breaks after some bytes. *)
Definition Write (broken : nat -> option nat) (data : bytes) (w : response) : response * Z * bool :=
  let sent := match broken (r_writes w) with None => data | Some n => take n data end in
  (mkResponse (r_headers w) (r_body w ++ sent) (S (r_writes w)), len sent,
   match broken (r_writes w) with None => true | Some _ => false end).

(** ** The downloader behind its connection *)

(** The state of the downloader and of the databases it uses. *)
Record backend (PS C : Type) := mkBackend {
  bk_store : PS;
  bk_downloader : downloader C;
  bk_db : spdb;
  bk_traffic : traffic_db;
}.
Arguments mkBackend {PS C}.
Arguments bk_store {PS C}.
Arguments bk_downloader {PS C}.
Arguments bk_db {PS C}.
Arguments bk_traffic {PS C}.

(** What happens during one call: the connection, whether resources are reserved, how many
    downloads are running, the quota's calls, the clock, the chain. *)
Record call_answers := mkAnswers {
  a_conn : fate;
  a_conn_text : string;
  a_reserved : bool;
  a_running : Z;
  a_quota : quota_calls;
  a_nowUs : Z;
  a_family : Z -> result string Z;
  a_sp : Z -> result string string;
}.

Definition set_running {C} (n : Z) (m : downloader C) : downloader C :=
  mkDownloader (pieceCache m) n (downloadParallel m) (challenging m) (challengeParallel m).

(** What the chain answers on an object and a bucket. *)
Record chain_object := mkChainObject {
  co_info : ObjectInfo;
  co_status : ObjectStatus;
  co_ContentType : string;
  co_LatestUpdatedTime : Z;
}.
Record chain_bucket := mkChainBucket { cb_info : BucketInfo; cb_meta : BucketMeta }.

Definition object_meta (o : chain_object) : ObjectMeta := mkObjectMeta (ObjId (co_info o)) (ObjVersion (co_info o)) (co_status o).

Section calls.
Context {PS C : Type} `{!PieceStore PS} `{!PieceCache C}.
Context (texts : error_texts) (unmarshal : string -> option GfSpError) (zone : Z -> Z) (monthlyFreeQuota : Z).
Implicit Types (b : backend PS C).

Definition ErrRPCUnknownWithDetail (detail text : string) : goerror :=
  match MakeGfSpError unmarshal (Some (OtherErr text)) with
  | Some gfspErr => GfSpErr gfspErr
  | None => GfSpErr (mkGfSpError "GfSpClient" 500 98001 (detail +:+ text))
  end.

(** OnDownloadPieceTask *)
Definition OnDownloadPieceTask (a : call_answers) (object : chain_object) (bucket : chain_bucket)
  (task : GfSpDownloadPieceTask.t) b : option (backend PS C * result goerror bytes) :=
  let '(d, t, e) := PreDownloadPiece zone monthlyFreeQuota (a_nowUs a) (a_quota a) true (object_meta object) (cb_meta bucket) task
    (a_family a) (a_sp a) (bk_db b) (bk_traffic b) in
  let b := mkBackend (bk_store b) (bk_downloader b) d t in
  match e with
  | Some e => Some (b, Err (download_goerror texts e))
  | None =>
    r ← HandleDownloadPieceTask (storage_text texts) task (bk_store b) (set_running (a_running a) (bk_downloader b));
    let '(m, r) := r in
    Some (mkBackend (bk_store b) m (bk_db b) (bk_traffic b),
          match r with Err e => Err (download_goerror texts e) | Ok data => Ok data end)
  end.

(** GfSpDownloadPiece: the response carries the error as a [GfSpError], nil if it has none. *)
Definition GfSpDownloadPiece (a : call_answers) (object : chain_object) (bucket : chain_bucket)
  (task : GfSpDownloadPieceTask.t) b : option (backend PS C * (option GfSpError * bytes)) :=
  if negb (a_reserved a) then Some (b, (Some ErrDownloadExhaustResource, []))
  else
    r ← OnDownloadPieceTask a object bucket task b;
    let '(b, r) := r in
    Some (b, match r with
             | Err e => (MakeGfSpError unmarshal (Some e), [])
             | Ok data => (None, data)
             end).

(** GetPiece of the client. *)
Definition client_GetPiece (a : call_answers) (object : chain_object) (bucket : chain_bucket)
  (task : GfSpDownloadPieceTask.t) b : option (backend PS C * result goerror bytes) :=
  match a_conn a with
  | FailedBefore | UnknownLost =>
    Some (b, Err (ErrRPCUnknownWithDetail "client failed to connect downloader, error: " (a_conn_text a)))
  | UnknownApplied =>
    r ← GfSpDownloadPiece a object bucket task b;
    Some (r.1, Err (ErrRPCUnknownWithDetail "client failed to download piece, error: " (a_conn_text a)))
  | Committed =>
    r ← GfSpDownloadPiece a object bucket task b;
    Some (r.1, match r.2.1 with Some e => Err (GfSpErr e) | None => Ok r.2.2 end)
  end.

(** RecoupQuota of the client and GfSpReimburseQuota: its error is only logged. *)
Definition client_RecoupQuota (conn db_fate : fate) (nowUs bucketID extraQuota : Z) (yearMonth : string) b : backend PS C :=
  match conn with
  | FailedBefore | UnknownLost => b
  | _ => mkBackend (bk_store b) (bk_downloader b) (bk_db b)
           (UpdateExtraQuota zone db_fate bucketID extraQuota yearMonth nowUs (bk_traffic b)).1
  end.
End calls.

(** ** downloadObject *)

(** The response, the backend, and the recovery tasks that were reported. *)
Record gworld (PS C : Type) := mkGworld {
  g_backend : backend PS C;
  g_response : response;
  g_reported : list GfSpRecoverPieceTask.t;
}.
Arguments mkGworld {PS C}.
Arguments g_backend {PS C}.
Arguments g_response {PS C}.
Arguments g_reported {PS C}.

(** The variables of downloadObject that its deferred function and its loop share.
    triggerRecovery and triggerRecoveryErr are set together. *)
Record locals := mkLocals {
  l_err : option goerror;
  extraQuota : Z;
  consumedQuota : Z;
  triggerRecovery : option goerror;
}.

Section download.
Context {PS C : Type} `{!PieceStore PS} `{!PieceCache C}.
Context (texts : error_texts) (unmarshal : string -> option GfSpError) (zone : Z -> Z) (monthlyFreeQuota : Z).
Context (g : app_options).
(** The calls to the downloader by their number, the writes that break, the clock in seconds. *)
Context (answers : nat -> call_answers) (broken : nat -> option nat) (clock : nat -> Z).
Implicit Types (w : gworld PS C).

Definition set_backend (b : backend PS C) w : gworld PS C := mkGworld b (g_response w) (g_reported w).
Definition set_response (r : response) w : gworld PS C := mkGworld (g_backend w) r (g_reported w).
Definition report (t : GfSpRecoverPieceTask.t) w : gworld PS C := mkGworld (g_backend w) (g_response w) (g_reported w ++ [t]).

(** GetInnerCode is 0 for nil. *)
Definition inner_code (err : goerror) : Z :=
  match MakeGfSpError unmarshal (Some err) with Some e => InnerCode e | None => 0 end.

(** How the loop ends: it returns an error, or comes to its end. *)
Inductive loop_end := Returned (err : goerror) | Finished.

Section pieces.
Context (object : chain_object) (bucket : chain_bucket) (params : Params) (account : string)
  (downloadSize segmentCount timeout : Z).

(** The task of the piece with number [idx]; only the first one is checked for quota. *)
Definition piece_task (idx : nat) (p : SegmentPieceInfo) : GfSpDownloadPieceTask.t :=
  GfSpDownloadPieceTask.InitDownloadPieceTask (co_info object) (cb_info bucket) params (TaskPriority TypeTaskDownloadObject)
    (bool_decide (idx = 0%nat)) account downloadSize (SegmentPieceKey_ p) (Offset p) (Length p)
    timeout (TaskMaxRetry g TypeTaskDownloadObject) (clock (2 + 4 * idx)) (clock (3 + 4 * idx)).

Definition recover_task (idx : nat) (segmentIdx : Z) : GfSpRecoverPieceTask.t :=
  GfSpRecoverPieceTask.InitRecoverPieceTask (co_info object) params (DefaultLargerTaskPriority + 1) segmentIdx (-1)
    (MaxSegmentSize params) 50 1 (clock (4 + 4 * idx)) (clock (5 + 4 * idx)).

(** What is given back when a piece fails. *)
Definition after_failure (idx : nat) (err : goerror) (l : locals) : locals :=
  let code := inner_code err in
  mkLocals (Some err)
    (if bool_decide (1 <= idx)%nat || (code =? 85101) || (code =? 85102) then uwrap 64 (downloadSize - consumedQuota l) else extraQuota l)
    (consumedQuota l) (triggerRecovery l).

Fixpoint serve_pieces (idx : nat) (pieceInfos : list SegmentPieceInfo) (l : locals) w : option (gworld PS C * locals * loop_end) :=
  match pieceInfos with
  | [] => Some (w, l, Finished)
  | p :: pieceInfos =>
    c ← client_GetPiece texts unmarshal zone monthlyFreeQuota (answers idx) object bucket (piece_task idx p) (g_backend w);
    let '(b, r) := c in
    let w := set_backend b w in
    match r with
    | Err err =>
      let l := after_failure idx err l in
      if inner_code err =? 85101 then
        s ← ParseSegmentIdx (SegmentPieceKey_ p);
        match s with
        | Err _ => Some (w, l, Returned err)
        | Ok segmentIdx =>
          if segmentIdx >=? segmentCount then Some (w, l, Returned err)
          else serve_pieces (S idx) pieceInfos (mkLocals (l_err l) (extraQuota l) (consumedQuota l) (Some err))
                 (report (recover_task idx segmentIdx) w)
        end
      else
        match triggerRecovery l with
        | None => Some (w, l, Returned err)
        | Some _ => serve_pieces (S idx) pieceInfos l w
        end
    | Ok pieceData =>
      match triggerRecovery l with
      | Some _ => serve_pieces (S idx) pieceInfos (mkLocals None (extraQuota l) (consumedQuota l) (triggerRecovery l)) w
      | None =>
        let '(resp, replyDataSize, written) := Write broken pieceData (g_response w) in
        let w := set_response resp w in
        if negb written then
          Some (w, mkLocals (Some ErrReplyData) (uwrap 64 (downloadSize - consumedQuota l)) (consumedQuota l) None, Returned ErrReplyData)
        else
          serve_pieces (S idx) pieceInfos
            (mkLocals None (extraQuota l) (uwrap 64 (consumedQuota l + uwrap 64 replyDataSize)) None) w
      end
    end
  end.
End pieces.

(** The call that gives back quota: its connection, its statement, its clock. *)
Context (recoup_conn recoup_fate : fate) (recoup_nowUs : Z).

(** The deferred function.  It looks at the variable [err], not at what is returned. *)
Definition deferred (bucketID dbUpdateTimeStamp : Z) (l : locals) w : gworld PS C :=
  match l_err l with
  | None => w
  | Some _ =>
    let w :=
      if extraQuota l >? 0 then
        set_backend (client_RecoupQuota zone recoup_conn recoup_fate recoup_nowUs bucketID (extraQuota l)
          (TimestampYearMonth zone dbUpdateTimeStamp) (g_backend w)) w
      else w in
    set_response (DelHeader ContentDispositionHeader (DelHeader ContentTypeHeader
      (DelHeader ContentRangeHeader (DelHeader ContentLengthHeader (g_response w))))) w
  end.

(** An error before the first piece. *)
Definition fail (err : goerror) w : option (gworld PS C * option goerror) :=
  Some (deferred 0 0 (mkLocals (Some err) 0 0 None) w, Some err).

(** The first and the last byte of the object that are sent, as int64. *)
Definition offsets (rangeHeader : string) (payloadSize : Z) : result goerror (bool * Z * Z) :=
  let '(isRange, rangeStart, rangeEnd) := parseRange rangeHeader in
  let last := (swrap 64 payloadSize -' 1)%go in
  if negb isRange then Ok (false, 0, last) else
  let rangeEnd := if (rangeEnd <? 0) || (rangeEnd >=? swrap 64 payloadSize) then last else rangeEnd in
  if (rangeStart <? 0) || (rangeEnd <? 0) || (rangeStart >? rangeEnd) then Err ErrInvalidRange
  else Ok (true, rangeStart, rangeEnd).

(** [names] are the bucket and the object of the request; the answers of the chain are on
    the object, on the bucket and on the parameters at the time of its last update. *)
Definition downloadObject (names : string * string) (account rangeHeader : string)
  (object : result string chain_object) (bucket : string -> result string chain_bucket) (params : Z -> result string Params)
  (dbUpdateTimeStamp : Z) w : option (gworld PS C * option goerror) :=
  let where_ := ", object_name: " +:+ names.2 +:+ ", bucket_name: " +:+ names.1 in
  match object with
  | Err e =>
    fail (if Contains e "No such object"
          then ErrConsensusNotFoundWithDetail ("failed to get object info from consensus, the object may be deleted. object_name: "
                 +:+ names.2 +:+ ", bucket_name: " +:+ names.1 +:+ ", error:" +:+ e)
          else ErrConsensusWithDetail ("failed to get object info from consensus" +:+ where_ +:+ ", error:" +:+ e)) w
  | Ok object =>
    match bucket (BucketName (co_info object)) with
    | Err e => fail (ErrConsensusWithDetail ("failed to get bucket info from consensus" +:+ where_ +:+ ", error: " +:+ e)) w
    | Ok bucket =>
      match params (co_LatestUpdatedTime object) with
      | Err e => fail (ErrConsensusWithDetail ("failed to get storage params from consensus" +:+ where_ +:+ ", error: " +:+ e)) w
      | Ok params =>
        match offsets rangeHeader (PayloadSize (co_info object)) with
        | Err e => fail e w
        | Ok (isRange, lowOffset, highOffset) =>
          let downloadSize := uwrap 64 (highOffset -' lowOffset +' 1)%go in
          timeout ← TaskTimeout g TypeTaskDownloadObject downloadSize;
          let task := GfSpDownloadObjectTask.InitDownloadObjectTask (co_info object) (cb_info bucket) params
            (TaskPriority TypeTaskDownloadObject) account lowOffset highOffset timeout
            (TaskMaxRetry g TypeTaskDownloadObject) (clock 0) (clock 1) in
          match SplitToSegmentPieceInfos (object_meta object) task with
          | Err e => fail (download_goerror texts e) w
          | Ok pieceInfos =>
            let resp := SetHeader ContentTypeHeader (co_ContentType object) (g_response w) in
            let resp :=
              if isRange : bool then SetHeader ContentRangeHeader
                ("bytes " +:+ pretty (uwrap 64 lowOffset) +:+ "-" +:+ pretty (uwrap 64 highOffset)) resp
              else SetHeader ContentLengthHeader (pretty (PayloadSize (co_info object))) resp in
            let w := set_response resp w in
            match segmentPieceCountWithError (PayloadSize (co_info object)) (MaxSegmentSize params) with
            | Err e => fail (OtherErr e) w
            | Ok segmentCount =>
              timeout ← TaskTimeout g TypeTaskDownloadObject 0;
              r ← serve_pieces object bucket params account downloadSize segmentCount timeout 0 pieceInfos
                    (mkLocals None 0 0 None) w;
              let '(w, l, e) := r in
              Some (deferred (b_Id (cb_meta bucket)) dbUpdateTimeStamp l w,
                    match e with
                    | Returned err => Some err
                    | Finished => triggerRecovery l
                    end)
            end
          end
        end
      end
    end
  end.
End download.
