(* ===== verification/GateDownloadFacts.v ===== *)
(** Lemmas on the gateway's download: one call to the downloader, and the loop over the
    pieces of a range, whatever happens to the calls and to the client's connection. *)
From Stdlib Require Import ZArith Lia String Ascii.
From stdpp Require Import base gmap list strings pretty option.
From S2P Require Import AuthDb RequestAuth Prelude Strconv Sql Checksum Storage PieceStore PieceOp Hex UploadDb Traffic TrafficProps TaskKey Task TaskTypes Uploader UploadFacts Downloader DownloadFacts DownloadProps GateDownload.

Local Open Scope Z_scope.

Section facts.
Context {PS C : Type} `{PL : PieceStoreLaws PS} `{CL : PieceCacheLaws C}.
Context (texts : error_texts) (unmarshal : string -> option GfSpError) (zone : Z -> Z) (monthlyFreeQuota : Z).
Context (g : app_options) (answers : nat -> call_answers) (broken : nat -> option nat) (clock : nat -> Z).
Implicit Types (b : backend PS C) (w : gworld PS C).

(** The server's errors reach the client as errors. *)
Lemma download_goerror_sent e : is_Some (MakeGfSpError unmarshal (Some (download_goerror texts e))).
Proof.
  unfold MakeGfSpError. destruct e; cbn -[String.index String.substring String.length]; try by eexists.
  all: destruct (String.index _ _ _); [|by eexists]; destruct (bool_decide _); [|by eexists];
       destruct (unmarshal _); [|by eexists]; destruct (_ =? 0); by eexists.
Qed.

(** ** One call *)

(** The bytes of a piece: the store has them or misses them, and the cache does not differ. *)
Definition piece_sound (store : PS) (c : C) (p : SegmentPieceInfo) (d : bytes) : Prop :=
  exists data, (piece_at store (SegmentPieceKey_ p) = Some data \/ piece_at store (SegmentPieceKey_ p) = None) /\
    (forall v, holds c (cacheKey (SegmentPieceKey_ p) (Offset p) (Length p)) v -> v = d) /\
    SegmentPieceKey_ p <> ""%string /\ is_int64 (len data) /\ is_int64 (Length p) /\
    0 <= Offset p < len data /\ d = range_of data (Offset p) (Length p).

(** The cache only loses entries. *)
Definition cache_le (c' c : C) : Prop := forall k v, holds c' k v -> holds c k v.

Lemma cache_le_refl c : cache_le c c.
Proof. by intros k v. Qed.
Lemma cache_le_trans c1 c2 c3 : cache_le c1 c2 -> cache_le c2 c3 -> cache_le c1 c3.
Proof. intros H1 H2 k v Hk. by apply H2, H1. Qed.

Lemma piece_sound_le store c c' p d : cache_le c' c -> piece_sound store c p d -> piece_sound store c' p d.
Proof.
  intros Hle (data & Hp & Hh & H). exists data. split; [done|]. split; [|done]. intros v Hv. by apply Hh, Hle.
Qed.

(** What the admission of a call does. *)
Definition admission (a : call_answers) object bucket task b : spdb * traffic_db * option Download.error :=
  PreDownloadPiece zone monthlyFreeQuota (a_nowUs a) (a_quota a) true (object_meta object) (cb_meta bucket) task
    (a_family a) (a_sp a) (bk_db b) (bk_traffic b).

(** Whether the call comes to the downloader. *)
Definition arrives (a : call_answers) : bool :=
  match a_conn a with Committed | UnknownApplied => a_reserved a | _ => false end.

Definition of_piece (p : SegmentPieceInfo) (task : GfSpDownloadPieceTask.t) : Prop :=
  GfSpDownloadPieceTask.PieceKey task = SegmentPieceKey_ p /\
  GfSpDownloadPieceTask.PieceOffset task = Offset p /\ GfSpDownloadPieceTask.PieceLength task = Length p.

(** A piece that is served is the piece. *)
Lemma handle_sound task p d (store : PS) (m : downloader C) :
  of_piece p task -> ps_ok store -> piece_sound store (pieceCache m) p d ->
  exists m' r, HandleDownloadPieceTask (storage_text texts) task store m = Some (m', r) /\ cache_le (pieceCache m') (pieceCache m) /\
    downloadParallel m' = downloadParallel m /\ (forall d', r = Ok d' -> d' = d) /\
    (admits (downloadParallel m) (downloading m) -> piece_at store (SegmentPieceKey_ p) <> None -> r = Ok d).
Proof.
  intros (Hk & Ho & Hl) Hok (data & Hp & Hh & Hne & Hlen & Hlen64 & Hoff & ->). unfold HandleDownloadPieceTask.
  destruct (enter _ _) as [n refused] eqn:He. destruct refused.
  { eexists _, _. split; [done|]. split; [apply cache_le_refl|]. split; [done|]. split; [done|].
    intros Had. by rewrite enter_admitted in He by done. }
  rewrite Hk, Ho, Hl, !int64_wrap_id by go_lia.
  destruct (cache_Get _ _) as [c' has] eqn:Hg.
  assert (cache_le c' (pieceCache m)) as Hle by (intros k v; by eapply get_keeps).
  destruct has as [v|].
  { apply get_holds, Hh in Hg as ->. eexists _, _. split; [done|]. split; [exact Hle|]. split; [done|]. split; [by intros ? [= ->]|done]. }
  destruct Hp as [Hp|Hp].
  - rewrite (get_piece_law store _ data) by (done || lia). eexists _, _. split; [done|]. split; [exact Hle|].
    split; [done|]. split; [by intros ? [= ->]|done].
  - destruct (get_missing_piece_law store (SegmentPieceKey_ p) (Offset p) (Length p) Hok Hp) as [e ->].
    eexists _, _. split; [done|]. split; [exact Hle|]. split; [done|]. split; [done|]. by intros _ ?.
Qed.

(** A call, whatever happens to it. *)
Lemma call_sound a object bucket task p d b :
  of_piece p task -> ps_ok (bk_store b) -> piece_sound (bk_store b) (pieceCache (bk_downloader b)) p d ->
  exists b' r, client_GetPiece texts unmarshal zone monthlyFreeQuota a object bucket task b = Some (b', r) /\
    bk_store b' = bk_store b /\ cache_le (pieceCache (bk_downloader b')) (pieceCache (bk_downloader b)) /\
    downloadParallel (bk_downloader b') = downloadParallel (bk_downloader b) /\
    (forall d', r = Ok d' -> d' = d) /\
    bk_traffic b' = (if arrives a then (admission a object bucket task b).1.2 else bk_traffic b) /\
    ((exists d', r = Ok d') -> arrives a = true /\ (admission a object bucket task b).2 = None) /\
    (a_conn a = Committed -> a_reserved a = true -> (admission a object bucket task b).2 = None ->
     admits (downloadParallel (bk_downloader b)) (a_running a) -> piece_at (bk_store b) (SegmentPieceKey_ p) <> None -> r = Ok d).
Proof.
  intros Ht Hok Hp. unfold client_GetPiece, arrives, GfSpDownloadPiece, OnDownloadPieceTask. fold (admission a object bucket task b).
  destruct (admission a object bucket task b) as [ [d1 t1] e1] eqn:Had.
  destruct (handle_sound task p d (bk_store b) (set_running (a_running a) (bk_downloader b)) Ht Hok Hp)
    as (m' & r & Hr & Hle & Hpar & Hd & Hserved).
  destruct (a_conn a), (a_reserved a); cbn [negb].
  all: try (eexists _, _; split; [reflexivity|]; cbn; split_and!; try done; [apply cache_le_refl|by intros [? ?] ]).
  all: destruct e1 as [e1|].
  all: try (destruct (download_goerror_sent e1) as [ge Hge]; eexists _, _; cbn -[MakeGfSpError]; rewrite ?Hge;
    (split; [reflexivity|]); cbn; split_and!; try done; [apply cache_le_refl|by intros [? ?] ]).
  all: cbn [bk_store bk_downloader bk_db bk_traffic]; rewrite Hr; destruct r as [d'|e].
  all: try (destruct (download_goerror_sent e) as [ge Hge]).
  all: eexists _, _; cbn -[MakeGfSpError]; rewrite ?Hge; (split; [reflexivity|]); cbn; split_and!; try done.
  all: try (by intros [? ?]).
  all: try (intros _ _ _ Hadm Hpa; specialize (Hserved Hadm Hpa); by simplify_eq).
  intros d'' [= <-]. by apply Hd.
Qed.

(** Only the first piece is charged. *)
Lemma admission_unchecked a object bucket task b :
  GfSpDownloadPieceTask.EnableCheck task = false -> (admission a object bucket task b).1.2 = bk_traffic b.
Proof.
  intros Hc. unfold admission, PreDownloadPiece. cbn [negb]. destruct (readable _ _) as [d ok]. destruct ok; [|done]. cbn [negb].
  destruct (GetBucketPrimarySPID _ _); [|done]. destruct (a_sp a _); [|done]. destruct (bool_decide _); [done|]. by rewrite Hc.
Qed.

(** ** The loop *)

Section loop.
Context (object : chain_object) (bucket : chain_bucket) (params : Params) (account : string)
  (downloadSize segmentCount timeout : Z) (store : PS).
Hypothesis (Hok : ps_ok store).

Notation task := (piece_task g clock object bucket params account downloadSize timeout).
Notation serve := (serve_pieces texts unmarshal zone monthlyFreeQuota g answers broken clock object bucket params account
  downloadSize segmentCount timeout).

Lemma of_piece_task idx p : of_piece p (task idx p).
Proof. by split. Qed.

(** The traffic table after the calls: only the first piece of all is charged. *)
Definition traffic_after (idx : nat) (ps : list SegmentPieceInfo) w : traffic_db :=
  match ps with
  | p :: _ => if decide (idx = 0%nat)
              then if arrives (answers 0) then (admission (answers 0) object bucket (task 0 p) (g_backend w)).1.2 else bk_traffic (g_backend w)
              else bk_traffic (g_backend w)
  | [] => bk_traffic (g_backend w)
  end.

Definition body_of w : bytes := r_body (g_response w).
Definition writes_of w : nat := r_writes (g_response w).
Definition cache_of w : C := pieceCache (bk_downloader (g_backend w)).

(** The first piece was admitted. *)
Definition admitted_first (idx : nat) (ps : list SegmentPieceInfo) w : Prop :=
  match ps with
  | p :: _ => idx = 0%nat -> arrives (answers 0) = true /\ (admission (answers 0) object bucket (task 0 p) (g_backend w)).2 = None
  | [] => True
  end.

(** What a run of the loop leaves: [sent] are the pieces that were written, [part] what a
    broken write has delivered of one. *)
Record outcome (idx : nat) ps (bs : list bytes) (l : locals) w w' (l' : locals) (e : loop_end) (sent part : bytes) : Prop := {
  out_store : bk_store (g_backend w') = bk_store (g_backend w);
  out_parallel : downloadParallel (bk_downloader (g_backend w')) = downloadParallel (bk_downloader (g_backend w));
  out_cache : cache_le (cache_of w') (cache_of w);
  out_traffic : bk_traffic (g_backend w') = traffic_after idx ps w;
  out_body : body_of w' = body_of w ++ sent ++ part;
  out_prefix : (sent ++ part) `prefix_of` concat bs;
  out_writes : (writes_of w <= writes_of w')%nat;
  out_consumed : consumedQuota l' = consumedQuota l + len sent;
  out_triggered : triggerRecovery l <> None ->
    triggerRecovery l' <> None /\ writes_of w' = writes_of w /\ sent = [] /\ part = [];
  out_reported : (length (g_reported w) <= length (g_reported w'))%nat /\
    (triggerRecovery l = None -> triggerRecovery l' <> None -> length (g_reported w) < length (g_reported w'))%nat;
  out_admitted : (writes_of w < writes_of w')%nat -> admitted_first idx ps w;
  out_headers : r_headers (g_response w') = r_headers (g_response w);
  out_end : match e with
            | Finished => part = [] /\ (triggerRecovery l' = None -> sent = concat bs /\ l_err l' = (if ps is [] then l_err l else None) /\
                            g_reported w' = g_reported w /\ (ps <> [] -> writes_of w < writes_of w')%nat)
            | Returned err => l_err l' = Some err /\
                (triggerRecovery l' = None ->
                 ((1 <= idx)%nat \/ (writes_of w < writes_of w')%nat -> extraQuota l' = downloadSize - consumedQuota l') /\
                 (part <> [] -> err = ErrReplyData))
            end;
}.

(** A step of the loop in front of the rest of it. *)
Lemma outcome_step idx p ps d bs l w l1 w1 w' l' e front sent part :
  bk_store (g_backend w1) = bk_store (g_backend w) ->
  downloadParallel (bk_downloader (g_backend w1)) = downloadParallel (bk_downloader (g_backend w)) ->
  cache_le (cache_of w1) (cache_of w) -> bk_traffic (g_backend w1) = traffic_after idx (p :: ps) w ->
  body_of w1 = body_of w ++ front -> consumedQuota l1 = consumedQuota l + len front ->
  r_headers (g_response w1) = r_headers (g_response w) ->
  (length (g_reported w) <= length (g_reported w1))%nat ->
  (triggerRecovery l = None -> triggerRecovery l1 <> None -> length (g_reported w) < length (g_reported w1))%nat ->
  (triggerRecovery l1 = None /\ triggerRecovery l = None /\ front = d /\ l_err l1 = None /\ g_reported w1 = g_reported w /\ writes_of w1 = S (writes_of w) /\
    admitted_first idx (p :: ps) w) \/
  (triggerRecovery l1 <> None /\ front = [] /\ writes_of w1 = writes_of w) ->
  outcome (S idx) ps bs l1 w1 w' l' e sent part ->
  outcome idx (p :: ps) (d :: bs) l w w' l' e (front ++ sent) part.
Proof.
  intros Hst Hpar Hca Htr Hbo Hco Hhe Hre1 Hre2 Hcase [O1 O2 O3 O4 O5 O6 O7 O8 O9 [O12 O13] O14 O10 O11].
  assert (bk_traffic (g_backend w') = bk_traffic (g_backend w1)) as Htr' by (rewrite O4; by destruct ps).
  split; try congruence.
  - by eapply cache_le_trans.
  - rewrite O5, Hbo. by rewrite !app_assoc.
  - destruct Hcase as [(_ & _ & -> & _)|(Ht & -> & _)].
    + rewrite <-app_assoc. cbn [concat]. by apply prefix_app.
    + destruct (O9 Ht) as (_ & _ & -> & ->). apply prefix_nil.
  - destruct Hcase as [(_ & _ & _ & _ & _ & Hw & _)|(_ & _ & Hw)]; lia.
  - rewrite O8, Hco. unfold len. rewrite length_app. lia.
  - intros Ht. destruct Hcase as [(_ & ? & _)|(Ht1 & -> & Hw)]; [done|]. destruct (O9 Ht1) as (H1 & H2 & -> & ->).
    split_and!; [done|congruence|done|done].
  - split; [lia|]. intros Ht Ht'. destruct (triggerRecovery l1) eqn:E; [|specialize (O13 eq_refl Ht'); lia].
    specialize (Hre2 Ht ltac:(done)). lia.
  - intros Hw. destruct Hcase as [(_ & _ & _ & _ & _ & _ & Ha)|(Ht1 & _ & Hw1)]; [done|]. destruct (O9 Ht1) as (_ & Hw2 & _). lia.
  - destruct e as [err|].
    + destruct O11 as [He Hx]. split; [done|]. intros Ht. specialize (Hx Ht) as [Hx Hp]. split; [|done]. intros _. apply Hx. left. lia.
    + destruct O11 as [He Hx]. split; [done|]. intros Ht. specialize (Hx Ht) as (Hsent & Herr & Hrep & Hwr).
      destruct Hcase as [(_ & _ & -> & Hl & Hr & Hw & _)|(Ht1 & _ & _)]; [|by destruct (O9 Ht1)].
      split; [cbn [concat]; congruence|]. split; [|split; [congruence|intros _; lia] ].
      rewrite Herr. by destruct ps.
Qed.

(** The loop ends, whatever the calls and the client do. *)
Lemma serve_spec ps bs idx l w :
  bk_store (g_backend w) = store ->
  Forall2 (fun p d => piece_sound store (cache_of w) p d /\ is_Some (ParseSegmentIdx (SegmentPieceKey_ p))) ps bs ->
  0 <= consumedQuota l -> consumedQuota l + len (concat bs) <= downloadSize <= MaxUint64 ->
  exists w' l' e sent part, serve idx ps l w = Some (w', l', e) /\ outcome idx ps bs l w w' l' e sent part.
Proof using All.
  revert bs idx l w. induction ps as [|p ps IH]; intros bs idx l w Hst Hf Hc0 Hc.
  { apply Forall2_nil_inv_l in Hf as ->. exists w, l, Finished, [], []. split; [done|]. split; try done; cbn.
    - apply cache_le_refl.
    - by rewrite app_nil_r.
    - unfold len. cbn. lia. }
  apply Forall2_cons_inv_l in Hf as (d & bs' & [Hp [s Hs] ] & Hf & ->). cbn [concat] in Hc.
  assert (len (d ++ concat bs') = len d + len (concat bs') /\ 0 <= len d /\ 0 <= len (concat bs')) as (Hlen & Hld & Hlb)
    by (unfold len; rewrite length_app; lia).
  destruct (call_sound (answers idx) object bucket (task idx p) p d (g_backend w)
    (of_piece_task idx p)) as (b & r & Hcall & Hbs & Hle & Hpar & Hd & Htr & Hadm & _); [by rewrite Hst|by rewrite Hst|].
  cbn [serve_pieces]. rewrite Hcall. cbn [mbind option_bind].
  assert (bk_traffic b = traffic_after idx (p :: ps) w) as Htr'.
  { rewrite Htr. cbn [traffic_after]. destruct (decide (idx = 0%nat)) as [->|Hi]; [done|].
    rewrite admission_unchecked by (cbn; by rewrite bool_decide_false). by destruct (arrives _). }
  assert (forall w1 : gworld PS C, cache_le (cache_of w1) (cache_of w) ->
    Forall2 (fun p d => piece_sound store (cache_of w1) p d /\ is_Some (ParseSegmentIdx (SegmentPieceKey_ p))) ps bs') as Hf'.
  { intros w1 Hw1. eapply Forall2_impl; [|exact Hf]. intros p' d' [H1 H2]. split; [|done]. by eapply piece_sound_le. }
  set (w0 := set_backend b w). assert (cache_le (cache_of w0) (cache_of w)) as Hw0 by exact Hle.
  assert (forall l1 rep, triggerRecovery l1 <> None -> consumedQuota l1 = consumedQuota l ->
    (length (g_reported w) <= length rep)%nat -> (triggerRecovery l = None -> length (g_reported w) < length rep)%nat ->
    exists w' l' e sent part, serve (S idx) ps l1 (mkGworld b (g_response w) rep) = Some (w', l', e) /\
      outcome idx (p :: ps) (d :: bs') l w w' l' e sent part) as Hskip.
  { intros l1 rep Ht Hcl Hr1 Hr2. destruct (IH bs' (S idx) l1 (mkGworld b (g_response w) rep)) as (w' & l' & e & sent & part & Hrun & Hout);
      [by rewrite <-Hst|by apply Hf'|lia|lia|].
    exists w', l', e, sent, part. split; [done|]. rewrite <-(app_nil_l sent).
    apply (outcome_step idx p ps d bs' l w l1 (mkGworld b (g_response w) rep)); try done;
      [by rewrite app_nil_r|unfold len; cbn; lia|by intros ? _; apply Hr2|]. by right. }
  assert (forall err l1, l_err l1 = Some err -> consumedQuota l1 = consumedQuota l -> triggerRecovery l1 = triggerRecovery l ->
    ((1 <= idx)%nat -> extraQuota l1 = downloadSize - consumedQuota l1) ->
    outcome idx (p :: ps) (d :: bs') l w w0 l1 (Returned err) [] []) as Hret.
  { intros err l1 He Hcl Ht Hx. split; try done.
    - by rewrite app_nil_r.
    - apply prefix_nil.
    - rewrite Hcl. unfold len. cbn. lia.
    - by rewrite Ht.
    - by rewrite Ht.
    - unfold writes_of. cbn. lia.
    - split; [done|]. intros _. split; [|done]. intros [Hi|Hi]; [by apply Hx|]. unfold writes_of in Hi. cbn in Hi. lia. }
  assert (forall d', r = Ok d' -> admitted_first idx (p :: ps) w) as Hadm'.
  { intros d' Hr. cbn. intros ->. apply Hadm. by exists d'. }
  destruct r as [d'|err].
  - specialize (Hadm' d' eq_refl). specialize (Hd d' eq_refl) as ->. destruct (triggerRecovery l) as [t|] eqn:Ht; [by apply Hskip; rewrite ?Ht|].
    unfold Write. fold w0. destruct (broken (r_writes (g_response w0))) as [n|] eqn:Hbr; cbn [negb].
    + eexists _, _, _, [], (take n d). split; [reflexivity|]. split; try done; cbn.
      * apply prefix_app_r. exists (drop n d). by rewrite take_drop.
      * unfold writes_of. cbn. lia.
      * unfold len. cbn. lia.
      * rewrite uint64_wrap_id by go_lia. by split_and!.
    + set (l1 := mkLocals None (extraQuota l) _ None).
      match goal with |- context [serve (S idx) ps l1 ?W] => set (w1 := W) end.
      assert (consumedQuota l1 = consumedQuota l + len d) as Hl1.
      { unfold l1. cbn. rewrite (uint64_wrap_id (len d)) by go_lia. rewrite uint64_wrap_id by go_lia. done. }
      destruct (IH bs' (S idx) l1 w1) as (w' & l' & e & sent & part & Hrun & Hout); [by rewrite <-Hst|by apply Hf'|lia|lia|].
      exists w', l', e, (d ++ sent), part. split; [done|].
      apply (outcome_step idx p ps d bs' l w l1 w1); try done. left. by split_and!.
  - assert ((1 <= idx)%nat -> extraQuota (after_failure unmarshal downloadSize idx err l) = downloadSize - consumedQuota l) as Hx.
    { intros Hi. cbn. rewrite bool_decide_true by done. cbn. by rewrite uint64_wrap_id by go_lia. }
    destruct (_ =? 85101); [rewrite Hs; destruct s as [seg|]; cbn [mbind option_bind] |].
    + destruct (seg >=? segmentCount); [|apply Hskip; try done; cbn; rewrite length_app; cbn; lia]. eexists _, _, _, [], []. split; [reflexivity|]. by apply Hret.
    + eexists _, _, _, [], []. split; [reflexivity|]. by apply Hret.
    + destruct (triggerRecovery _) eqn:Ht; [apply Hskip; cbn in Ht |- *; congruence || done |]. eexists _, _, _, [], []. split; [reflexivity|]. by apply Hret.
Qed.
(** When every call is answered, every piece is stored, and the connection holds, the loop
    comes to its end. *)
Lemma serve_works par ps bs idx l w :
  (forall k, a_conn (answers k) = Committed /\ a_reserved (answers k) = true /\ admits par (a_running (answers k))) ->
  (forall k, broken k = None) ->
  (forall k p b, k <> 0%nat -> (admission (answers k) object bucket (task k p) b).2 = None) ->
  bk_store (g_backend w) = store -> downloadParallel (bk_downloader (g_backend w)) = par ->
  (idx = 0%nat -> forall p, (admission (answers 0) object bucket (task 0 p) (g_backend w)).2 = None) ->
  Forall2 (fun p d => piece_sound store (cache_of w) p d /\ piece_at store (SegmentPieceKey_ p) <> None) ps bs ->
  triggerRecovery l = None ->
  exists w' l', serve idx ps l w = Some (w', l', Finished) /\ triggerRecovery l' = None.
Proof using All.
  intros Hans Hbr Hadm. revert bs idx l w. induction ps as [|p ps IH]; intros bs idx l w Hst Hpar H0 Hf Ht; [by exists w, l|].
  apply Forall2_cons_inv_l in Hf as (d & bs' & [Hp Hat] & Hf & ->). destruct (Hans idx) as (Hconn & Hres & Had).
  destruct (call_sound (answers idx) object bucket (task idx p) p d (g_backend w) (of_piece_task idx p))
    as (b & r & Hcall & Hbs & Hle & Hpar' & _ & _ & _ & Hok'); [by rewrite Hst|by rewrite Hst|].
  assert ((admission (answers idx) object bucket (task idx p) (g_backend w)).2 = None) as Ha by (destruct idx; [by apply H0|by apply Hadm]).
  rewrite Hst, Hpar in Hok'. rewrite (Hok' Hconn Hres Ha Had Hat) in Hcall.
  cbn [serve_pieces]. rewrite Hcall. cbn [mbind option_bind]. rewrite Ht. unfold Write. rewrite Hbr. cbn [negb].
  eapply IH; [cbn; congruence|cbn; congruence|done| |done].
  eapply Forall2_impl; [|exact Hf]. intros p' d' [H1 H2]. split; [|done]. by eapply piece_sound_le.
Qed.
End loop.
End facts.
