(* ===== verification/GateDownloadProps.v ===== *)
(** Properties of the gateway's download: the client receives a prefix of the range it asked
    for, all of it if no error is returned; after a failure the client is charged for what it
    received; and the failures after which it is charged for what it did not receive. *)
From Stdlib Require Import ZArith Lia String Ascii.
From stdpp Require Import base gmap list strings pretty option.
From S2P Require Import AuthDb RequestAuth Prelude Strconv Sql Checksum Storage StorageLaws PieceStore PieceOp Hex UploadDb Traffic TrafficProps TaskKey Task TaskTypes Uploader UploadFacts Downloader DownloadFacts DownloadProps GateDownload GateDownloadFacts.

Local Open Scope Z_scope.

(** ** Ranges *)

Lemma StringToInt64_pretty z : is_int64 z -> StringToInt64 (pretty z) = Some z.
Proof. intros Hz. unfold StringToInt64. rewrite ParseInt_pretty by go_lia. done. Qed.

(** The offsets lie in the object. *)
Lemma offsets_in header size isRange low high :
  0 < size <= MaxInt64 -> offsets header size = Ok (isRange, low, high) -> 0 <= low <= high /\ high < size.
Proof.
  intros Hs. unfold offsets. destruct (parseRange header) as [ [r a] e].
  rewrite (int64_wrap_id size) by go_lia. rewrite int64_wrap_id by go_lia. destruct r; cbn [negb]; [|intros [= <- <- <-]; lia].
  set (e' := if (e <? 0) || (e >=? size) then size - 1 else e).
  assert (e' < size) by (unfold e'; destruct (Z.ltb_spec e 0), (Z.geb_spec e size); cbn; lia).
  destruct ((a <? 0) || (e' <? 0) || (a >? e')) eqn:E; [done|]. intros [= <- <- <-].
  rewrite !orb_false_iff, Z.ltb_ge, Z.ltb_ge in E. rewrite Z.gtb_ltb, Z.ltb_ge in E. lia.
Qed.

(** A table in which the row that is charged is there. *)
Lemma row_charged_table zone monthly c record charged t r :
  row_charged zone monthly c record charged t = Some r ->
  table_ok (traffics t) -> rr_BucketID record <> 0 -> is_uint64 monthly -> (forall f, free_quota c = Ok f -> is_uint64 f) ->
  exists m, table_ok m /\ m !! read_key zone record = Some r /\
    forall x, <[read_key zone record := x]> m = <[read_key zone record := x]> (traffics t).
Proof.
  unfold row_charged. intros Hr Ht Hb Hm Hfree. destruct (traffics t !! read_key zone record) as [r0|] eqn:E.
  { injection Hr as ->. by exists (traffics t). }
  destruct (free_quota c) as [free|]; [|done]. specialize (Hfree free eq_refl). injection Hr as Hr.
  exists (<[read_key zone record := r]> (traffics t)). split; [|split; [apply lookup_insert_eq|intros; by rewrite insert_insert_eq] ].
  apply (table_ok_change (traffics t) (read_key zone record) free); [|done|exact Hb|apply TimeToYearMonth_nonempty|exact Hfree]. rewrite <-Hr.
  by apply (change_init (traffics t) (read_key zone record) free (rr_BucketName record) (mkQuota charged free monthly)).
Qed.

(** The table after the charge. *)
Lemma charged_table zone monthly c record charged now t r :
  row_charged zone monthly c record charged t = Some r ->
  table_ok (traffics t) -> rr_BucketID record <> 0 -> is_uint64 monthly -> (forall f, free_quota c = Ok f -> is_uint64 f) ->
  0 <= ReadSize record <= available charged r -> is_uint64 charged ->
  table_ok (traffics (charged_db zone record charged now r t)) /\
  traffics (charged_db zone record charged now r t) !! read_key zone record = Some (spend (ReadSize record) charged now r) /\
  consumed (spend (ReadSize record) charged now r) = consumed r + ReadSize record /\ 0 <= consumed r.
Proof.
  intros Hr Ht Hb Hm Hfree Hs Hq. destruct (row_charged_table _ _ _ _ _ _ _ Hr Ht Hb Hm Hfree) as (m & Hm' & Hrm & Heq).
  destruct (Hm' _ _ Hrm) as (_ & _ & _ & Hok). cbn [traffics charged_db].
  pose proof (row_ok_spend (ReadSize record) charged now r Hok Hs Hq) as Hok'.
  assert (consumed (spend (ReadSize record) charged now r) = consumed r + ReadSize record) as Hc
    by (unfold consumed, spend, from_free; cbn; lia).
  split; [rewrite <-Heq; by eapply table_ok_insert|]. split; [apply lookup_insert_eq|]. split; [done|].
  destruct Hok. unfold consumed. go_lia.
Qed.

Section download.
Context {PS C : Type} `{PL : PieceStoreLaws PS} `{CL : PieceCacheLaws C}.
Implicit Types (w : gworld PS C) (P : bytes).

(** The segments of the payload in the store are right or missing, and so is what the cache
    has of them. *)
Definition object_sound (o : chain_object) (n : nat) P w : Prop :=
  forall i, (i < segments_count n P)%nat ->
    let key := SegmentPieceKey (ObjId (co_info o)) (Z.of_nat i) (ObjVersion (co_info o)) in
    (piece_at (bk_store (g_backend w)) key = Some (segment n P i) \/ piece_at (bk_store (g_backend w)) key = None) /\
    forall offset limit v, holds (cache_of w) (cacheKey key offset limit) v -> v = range_of (segment n P i) offset limit.

Lemma sound_pieces o n P w ps bs :
  object_sound o n P w -> Z.of_nat (segments_count n P) <= MaxUint32 -> len P <= MaxInt64 ->
  Forall2 (piece_bytes (ObjId (co_info o)) (ObjVersion (co_info o)) n P) ps bs ->
  Forall2 (fun p d => piece_sound (bk_store (g_backend w)) (cache_of w) p d /\ is_Some (ParseSegmentIdx (SegmentPieceKey_ p))) ps bs.
Proof.
  intros Ho Hcount HP. apply Forall2_impl. intros p d (i & Hi & Hk & Hoff & Hl & ->). destruct (Ho i Hi) as [Hst Hca].
  assert (0 <= len (segment n P i) <= len P) by (unfold len, segment; rewrite length_take, length_drop; lia).
  split; [|rewrite Hk, ParseSegmentIdx_key by lia; by eexists].
  exists (segment n P i). rewrite Hk. split; [done|]. split; [apply Hca|]. split; [unfold SegmentPieceKey; by destruct (_ =? 0)|].
  split_and!; done || go_lia.
Qed.

(** The answers of the chain, and what they say of the payload. *)
Record request := mkReq { rq_names : string * string; rq_account : string; rq_range : string; rq_stamp : Z }.

Section run.
Context (texts : error_texts) (unmarshal : string -> option GfSpError) (zone : Z -> Z) (monthlyFreeQuota : Z).
Context (g : app_options) (answers : nat -> call_answers) (broken : nat -> option nat) (clock : nat -> Z).
Context (recoup_conn recoup_fate : fate) (recoup_nowUs : Z).
Context (o : chain_object) (bk : chain_bucket) (params : Params) (P : bytes).

Definition max : Z := MaxSegmentSize params.

(** The object has the payload [P], cut at the maximal segment size. *)
Record payload_ok : Prop := {
  pay_speed : 0 <= downloadSpeed g < MaxInt64;
  pay_max : 0 < max <= MaxInt64;
  pay_len : 0 < len P <= MaxInt64;
  pay_size : PayloadSize (co_info o) = len P;
  pay_count : Z.of_nat (segments_count (Z.to_nat max) P) <= MaxUint32;
}.
Hypothesis (Hpay : payload_ok).

Notation serve := (serve_pieces texts unmarshal zone monthlyFreeQuota g answers broken clock o bk params).
Notation download rq w := (downloadObject texts unmarshal zone monthlyFreeQuota g answers broken clock recoup_conn recoup_fate
  recoup_nowUs (rq_names rq) (rq_account rq) (rq_range rq) (Ok o) (fun _ => Ok bk) (fun _ => Ok params) (rq_stamp rq) w).

(** The bytes between two offsets. *)
Definition bytes_between (low high : Z) : bytes := take (Z.to_nat (high - low + 1)) (drop (Z.to_nat low) P).

Lemma length_between low high : 0 <= low <= high -> high < len P -> len (bytes_between low high) = high - low + 1.
Proof. intros. unfold bytes_between, len in *. rewrite length_take, length_drop. lia. Qed.

Lemma timeout_some size : exists t, TaskTimeout g TypeTaskDownloadObject size = Some t.
Proof.
  destruct Hpay as [Hs _ _ _ _]. unfold TaskTimeout, transfer_timeout, udiv. rewrite uint64_wrap_id by go_lia.
  destruct (Z.eqb_spec (downloadSpeed g + 1) 0); [lia|]. by eexists.
Qed.

(** The headers that are set before the first piece. *)
Definition with_headers (isRange : bool) (low high : Z) w : gworld PS C :=
  let resp := SetHeader ContentTypeHeader (co_ContentType o) (g_response w) in
  set_response (if isRange then SetHeader ContentRangeHeader
                  ("bytes " +:+ pretty (uwrap 64 low) +:+ "-" +:+ pretty (uwrap 64 high)) resp
                else SetHeader ContentLengthHeader (pretty (PayloadSize (co_info o))) resp) w.

Lemma with_headers_same isRange low high w :
  body_of (with_headers isRange low high w) = body_of w /\ writes_of (with_headers isRange low high w) = writes_of w.
Proof. by destruct isRange. Qed.

(** A download comes to its loop, with the pieces of the range. *)
Lemma download_loop rq isRange low high w :
  offsets (rq_range rq) (PayloadSize (co_info o)) = Ok (isRange, low, high) ->
  exists ps bs segmentCount timeout,
    Forall2 (piece_bytes (ObjId (co_info o)) (ObjVersion (co_info o)) (Z.to_nat max) P) ps bs /\
    concat bs = bytes_between low high /\ ps <> [] /\
    download rq w = (r ← serve (rq_account rq) (high - low + 1) segmentCount timeout 0 ps (mkLocals None 0 0 None)
                           (with_headers isRange low high w);
                     let '(w, l, e) := r in
                     Some (deferred zone recoup_conn recoup_fate recoup_nowUs (b_Id (cb_meta bk)) (rq_stamp rq) l w,
                           match e with Returned err => Some err | Finished => triggerRecovery l end)).
Proof using All.
  destruct Hpay as [Hs Hmax Hlen Hsize Hcount]. intros Hoff. rewrite Hsize in Hoff.
  destruct (offsets_in _ _ _ _ _ Hlen Hoff) as [Hlow Hhigh].
  destruct (timeout_some (high - low + 1)) as [t1 Ht1]. destruct (timeout_some 0) as [t2 Ht2].
  set (task := GfSpDownloadObjectTask.InitDownloadObjectTask (co_info o) (cb_info bk) params
    (TaskPriority TypeTaskDownloadObject) (rq_account rq) low high t1 (TaskMaxRetry g TypeTaskDownloadObject) (clock 0) (clock 1)).
  destruct (split_infos (object_meta o) task P Hmax Hlen Hsize Hcount Hlow Hhigh) as (ps & bs & Hsplit & Hbs & Hcat).
  change (concat bs = bytes_between low high) in Hcat.
  exists ps, bs, (uwrap 32 (PayloadSize (co_info o) / max + (if PayloadSize (co_info o) mod max >? 0 then 1 else 0))), t2.
  split; [exact Hbs|]. split; [exact Hcat|]. split.
  { intros ->. apply Forall2_nil_inv_l in Hbs as ->. apply (f_equal len) in Hcat. rewrite length_between in Hcat by done.
    unfold len in Hcat. cbn in Hcat. lia. }
  unfold downloadObject. cbn [mbind option_bind]. rewrite Hsize, Hoff. cbv beta iota zeta.
  assert (uwrap 64 (swrap 64 (swrap 64 (high - low) + 1)) = high - low + 1) as ->.
  { rewrite (int64_wrap_id (high - low)) by go_lia. rewrite int64_wrap_id by go_lia. by rewrite uint64_wrap_id by go_lia. }
  rewrite Ht1. cbn [mbind option_bind]. fold task. rewrite Hsplit. unfold segmentPieceCountWithError. fold max.
  destruct (Z.eqb_spec max 0); [lia|]. rewrite Ht2. cbn [mbind option_bind]. unfold with_headers. rewrite Hsize. by destruct isRange.
Qed.

(** The deferred function does not write, and does nothing when [err] is nil. *)
Lemma deferred_body id stamp l w :
  body_of (deferred zone recoup_conn recoup_fate recoup_nowUs id stamp l w) = body_of w /\
  writes_of (deferred zone recoup_conn recoup_fate recoup_nowUs id stamp l w) = writes_of w /\
  g_reported (deferred zone recoup_conn recoup_fate recoup_nowUs id stamp l w) = g_reported w.
Proof. unfold deferred. destruct (l_err l); [|done]. by destruct (extraQuota l >? 0). Qed.

(** The run of a download whose range lies in the object. *)
Lemma download_run rq isRange low high w :
  ps_ok (bk_store (g_backend w)) -> object_sound o (Z.to_nat max) P w ->
  offsets (rq_range rq) (PayloadSize (co_info o)) = Ok (isRange, low, high) ->
  let w0 := with_headers isRange low high w in
  exists ps bs timeout w' l' e sent part,
    concat bs = bytes_between low high /\ ps <> [] /\
    download rq w = Some (deferred zone recoup_conn recoup_fate recoup_nowUs (b_Id (cb_meta bk)) (rq_stamp rq) l' w',
                          match e with Returned err => Some err | Finished => triggerRecovery l' end) /\
    outcome zone monthlyFreeQuota g answers clock o bk params (rq_account rq) (high - low + 1) timeout 0 ps bs (mkLocals None 0 0 None)
      w0 w' l' e sent part.
Proof using All.
  intros Hok Hs Hoff w0. destruct (download_loop rq isRange low high w Hoff) as (ps & bs & segmentCount & timeout & Hbs & Hcat & Hne & ->).
  pose proof Hpay as [_ Hmax Hlen Hsize Hcount]. rewrite Hsize in Hoff. destruct (offsets_in _ _ _ _ _ Hlen Hoff) as [Hlow Hhigh].
  destruct (serve_spec texts unmarshal zone monthlyFreeQuota g answers broken clock o bk params (rq_account rq) (high - low + 1)
    segmentCount timeout (bk_store (g_backend w)) Hok ps bs 0 (mkLocals None 0 0 None) w0) as (w' & l' & e & sent & part & Hrun & Hout).
  - done.
  - apply (sound_pieces o (Z.to_nat max) P w); try done. lia.
  - done.
  - rewrite Hcat, length_between by done. cbn. go_lia.
  - exists ps, bs, timeout, w', l', e, sent, part. split; [done|]. split; [done|]. split; [|done].
    fold w0. by rewrite Hrun.
Qed.

(** The read that the first piece is charged with. *)
Definition read_of rq (low high : Z) : ReadRecord :=
  mkRead (b_Id (cb_meta bk)) (ObjId (co_info o)) (rq_account rq) (bucket_name (cb_info bk)) (ObjectName (co_info o))
    (high - low + 1) (a_nowUs (answers 0)).

(** What a download needs: every segment is stored and the object is sealed; every call
    reaches a downloader with room for it; the chain answers; the connection holds; and the
    first call may charge the bucket for the range. *)
Record works rq (low high : Z) w : Prop := {
  wk_stored : forall i, (i < segments_count (Z.to_nat max) P)%nat ->
    piece_at (bk_store (g_backend w)) (SegmentPieceKey (ObjId (co_info o)) (Z.of_nat i) (ObjVersion (co_info o))) <> None;
  wk_sealed : co_status o = OBJECT_STATUS_SEALED;
  wk_calls : forall k, a_conn (answers k) = Committed /\ a_reserved (answers k) = true /\
    admits (downloadParallel (bk_downloader (g_backend w))) (a_running (answers k));
  wk_chain : forall k, exists id operator, a_family (answers k) (b_FamilyId (cb_meta bk)) = Ok id /\ a_sp (answers k) id = Ok operator;
  wk_client : forall k, broken k = None;
  wk_table : table_ok (traffics (bk_traffic (g_backend w)));
  wk_bucket : b_Id (cb_meta bk) <> 0;
  wk_sizes : is_uint64 (b_ChargedReadQuota (cb_meta bk)) /\ is_uint64 monthlyFreeQuota /\
    forall f, free_quota (a_quota (answers 0)) = Ok f -> is_uint64 f;
  wk_database : quota_works (a_quota (answers 0));
  wk_quota : exists r, row_charged zone monthlyFreeQuota (a_quota (answers 0)) (read_of rq low high) (b_ChargedReadQuota (cb_meta bk))
      (bk_traffic (g_backend w)) = Some r /\ high - low + 1 <= available (b_ChargedReadQuota (cb_meta bk)) r;
}.

Lemma works_admitted rq low high w timeout k p (b : backend PS C) :
  works rq low high w -> is_uint64 (high - low + 1) -> k <> 0%nat \/ bk_traffic b = bk_traffic (g_backend w) ->
  (admission zone monthlyFreeQuota (answers k) o bk (piece_task g clock o bk params (rq_account rq) (high - low + 1) timeout k p) b).2 = None.
Proof.
  intros [_ Hseal _ Hchain _ Ht Hb (Hq & Hm & Hfree) Hdb (r & Hr & Ha)] Hsize Hk. destruct (Hchain k) as (id & operator & Hf & Hsp).
  unfold admission, PreDownloadPiece, readable. cbn [negb object_meta o_Status]. rewrite Hseal. cbn [negb]. unfold GetBucketPrimarySPID. rewrite Hf, Hsp.
  case_bool_decide; [done|]. cbn [piece_task GfSpDownloadPieceTask.InitDownloadPieceTask GfSpDownloadPieceTask.EnableCheck].
  destruct (decide (k = 0%nat)) as [->|Hk0]; [|by rewrite bool_decide_false].
  destruct Hk as [?|Hk]; [done|].
  rewrite bool_decide_true by done. rewrite Hk.
  match goal with |- context [charge_read ?z ?m ?q ?rec ?c ?cf ?t] =>
    pose proof (charge_read_admits z m q rec c cf t r Hdb Ht Hb Hsize Hq Hm Hfree Hr Ha) as Hc;
    destruct (charge_read z m q rec c cf t) as [t1 e] end. exact Hc.
Qed.

(** A download that has what it needs returns no error. *)
Lemma download_works rq isRange low high w :
  ps_ok (bk_store (g_backend w)) -> object_sound o (Z.to_nat max) P w -> works rq low high w ->
  offsets (rq_range rq) (PayloadSize (co_info o)) = Ok (isRange, low, high) ->
  exists w', download rq w = Some (w', None).
Proof using Hpay.
  intros Hok Hs Hw Hoff. destruct (download_loop rq isRange low high w Hoff) as (ps & bs & segmentCount & timeout & Hbs & _ & _ & ->).
  pose proof Hpay as [_ Hmax Hlen Hsize Hcount]. rewrite Hsize in Hoff. destruct (offsets_in _ _ _ _ _ Hlen Hoff) as [Hlow Hhigh].
  assert (is_uint64 (high - low + 1)) as Hu by go_lia. pose proof (wk_stored _ _ _ _ Hw) as Hstored.
  destruct (serve_works texts unmarshal zone monthlyFreeQuota g answers broken clock o bk params (rq_account rq) (high - low + 1)
    segmentCount timeout (bk_store (g_backend w)) Hok (downloadParallel (bk_downloader (g_backend w))) ps bs 0 (mkLocals None 0 0 None)
    (with_headers isRange low high w)) as (w' & l' & -> & Ht); try done.
  - apply Hw.
  - apply Hw.
  - intros k p b Hk. apply (works_admitted rq low high w); auto.
  - intros _ p. apply (works_admitted rq low high w); auto.
  - pose proof (sound_pieces o (Z.to_nat max) P w ps bs Hs Hcount ltac:(lia) Hbs) as Hf.
    clear -Hf Hbs Hstored. induction Hf as [|p d ps bs [H1 _] _ IH]; [constructor|].
    apply Forall2_cons_1 in Hbs as [(i & Hi & Hk & _) Hbs]. constructor; [|by apply IH]. split; [done|]. rewrite Hk. by apply Hstored.
  - cbn [mbind option_bind]. rewrite Ht. by eexists.
Qed.

(** C19: A download always ends.  When the segments are stored and the object is sealed, the
    calls, the chain and the database answer, there is quota, and the connection holds, it
    returns no error.  Without an error it has sent exactly the range that was asked for,
    with its headers; and whatever happens to the calls, to the database and to the
    client's connection, and also if segments are missing, it sends a prefix of the range.
    A range outside the object is refused before anything is charged. *)
Theorem download_delivers_range rq w :
  ps_ok (bk_store (g_backend w)) -> object_sound o (Z.to_nat max) P w ->
  match offsets (rq_range rq) (PayloadSize (co_info o)) with
  | Err err => exists w', download rq w = Some (w', Some err) /\ body_of w' = body_of w /\ bk_traffic (g_backend w') = bk_traffic (g_backend w)
  | Ok (isRange, low, high) =>
    0 <= low <= high /\ high < len P /\
    exists w' e sent, download rq w = Some (w', e) /\ (works rq low high w -> e = None) /\
      body_of w' = body_of w ++ sent /\ sent `prefix_of` bytes_between low high /\
      (e = None -> sent = bytes_between low high /\ r_headers (g_response w') = r_headers (g_response (with_headers isRange low high w)))
  end.
Proof using Hpay.
  intros Hok Hs. destruct (offsets _ _) as [ [ [isRange low] high]|err] eqn:Hoff.
  - pose proof Hpay as [_ _ Hlen Hsize _]. rewrite Hsize in Hoff. destruct (offsets_in _ _ _ _ _ Hlen Hoff) as [Hlow Hhigh].
    rewrite <-Hsize in Hoff. split; [done|]. split; [done|].
    destruct (download_run rq isRange low high w Hok Hs Hoff) as (ps & bs & timeout & w' & l' & e & sent & part & Hcat & Hne & Hdl & Hout).
    rewrite Hdl. eexists _, _, (sent ++ part). split; [done|].
    split.
    { intros Hw. destruct (download_works rq isRange low high w Hok Hs Hw Hoff) as [w2 E2]. rewrite Hdl in E2. by injection E2. }
    destruct Hout as [_ _ _ _ Hbody Hpre _ _ _ _ _ Hhead Hend]. rewrite (proj1 (with_headers_same _ _ _ _)) in Hbody.
    destruct (deferred_body (b_Id (cb_meta bk)) (rq_stamp rq) l' w') as (-> & _). split; [exact Hbody|].
    split; [by rewrite <-Hcat|]. intros He. destruct e as [err|]; [done|]. destruct Hend as [-> Hend].
    destruct (Hend He) as (-> & Herr & _). rewrite app_nil_r. split; [done|]. unfold deferred. rewrite Herr. by destruct ps.
  - eexists. unfold downloadObject. rewrite Hoff. split; [reflexivity|]. done.
Qed.

(** ** Accounting *)

(** The first piece was admitted for an account that is not the bucket's provider: it was charged. *)
Lemma admission_charged rq low high p timeout w t' :
  let record := read_of rq low high in
  let charged := b_ChargedReadQuota (cb_meta bk) in
  (forall id, a_sp (answers 0) id <> Ok (rq_account rq)) ->
  table_ok (traffics (bk_traffic (g_backend w))) -> b_Id (cb_meta bk) <> 0 -> is_uint64 (high - low + 1) -> is_uint64 charged ->
  is_uint64 monthlyFreeQuota -> (forall f, free_quota (a_quota (answers 0)) = Ok f -> is_uint64 f) ->
  admission zone monthlyFreeQuota (answers 0) o bk (piece_task g clock o bk params (rq_account rq) (high - low + 1) timeout 0 p) (g_backend w)
    = t' -> t'.2 = None ->
  exists r, row_charged zone monthlyFreeQuota (a_quota (answers 0)) record charged (bk_traffic (g_backend w)) = Some r /\
    ReadSize record <= available charged r /\
    t'.1.2 = charged_db zone record charged (check_now (a_quota (answers 0))) r (bk_traffic (g_backend w)).
Proof.
  intros record charged Hsp Ht Hb Hsize Hq Hm Hfree <-. unfold admission, PreDownloadPiece. cbn [negb].
  destruct (readable _ _) as [d ok]. destruct ok; [|done]. cbn [negb].
  destruct (GetBucketPrimarySPID _ _) as [id|]; [|done]. specialize (Hsp id).
  destruct (a_sp (answers 0) id) as [operator|]; [|done].
  rewrite bool_decide_false by (cbn; congruence). cbn [piece_task GfSpDownloadPieceTask.InitDownloadPieceTask
    GfSpDownloadPieceTask.EnableCheck bool_decide decide_rel].
  match goal with |- context [charge_read zone monthlyFreeQuota ?q ?rec ?c ?cf ?t] =>
    change rec with record; destruct (charge_read zone monthlyFreeQuota q record c cf t) as [t1 e] eqn:Hc end.
  rewrite bool_decide_true by done. cbn. intros ->. by eapply charge_read_charged in Hc.
Qed.

(** The key of the bucket's row in the month of the first piece. *)
Definition month_of rq low high : Z * string := read_key zone (read_of rq low high).

Record accountable rq low high w : Prop := {
  acc_operator : forall id, a_sp (answers 0) id <> Ok (rq_account rq);
  acc_table : table_ok (traffics (bk_traffic (g_backend w)));
  acc_bucket : b_Id (cb_meta bk) <> 0;
  acc_charged : is_uint64 (b_ChargedReadQuota (cb_meta bk));
  acc_monthly : is_uint64 monthlyFreeQuota;
  acc_free : forall f, free_quota (a_quota (answers 0)) = Ok f -> is_uint64 f;
  acc_recoup : recoup_conn = Committed /\ recoup_fate = Committed;
  acc_month : TimestampYearMonth zone recoup_nowUs = (month_of rq low high).2;
  acc_stamp : TimestampYearMonth zone (rq_stamp rq) = (month_of rq low high).2;
}.

(** What is given back is taken off the row. *)
Lemma deferred_recoups id (stamp : Z) l w r :
  recoup_conn = Committed /\ recoup_fate = Committed -> l_err l <> None ->
  let ym := TimestampYearMonth zone stamp in
  TimestampYearMonth zone recoup_nowUs = ym -> table_ok (traffics (bk_traffic (g_backend w))) ->
  traffics (bk_traffic (g_backend w)) !! (id, ym) = Some r -> 0 <= extraQuota l <= consumed r -> is_uint64 (extraQuota l) ->
  exists r', traffics (bk_traffic (g_backend (deferred zone recoup_conn recoup_fate recoup_nowUs id stamp l w))) !! (id, ym) = Some r' /\
    consumed r' = consumed r - extraQuota l.
Proof.
  intros [-> ->] Herr ym Hm Ht Hr He Hu. unfold deferred. destruct (l_err l); [|done]. destruct (Z.gtb_spec (extraQuota l) 0).
  - cbn [set_response set_backend g_backend client_RecoupQuota bk_traffic].
    destruct (recoup_same_month zone id (extraQuota l) ym recoup_nowUs (bk_traffic (g_backend w)) r) as (r' & Heq & Hc & _); try done.
    fold ym. rewrite Heq. exists r'. cbn. rewrite lookup_insert_eq. split; [done|]. rewrite Hc. lia.
  - exists r. cbn. split; [done|]. lia.
Qed.

(** C18: What a download is charged in the end, for an account that is not the bucket's provider:
    the bytes of the pieces that were written, which is the whole range if no error is
    returned.  This holds for every download that fails after its first piece was sent,
    unless a piece was unreadable; the bytes of a write that broke are not charged. *)
Theorem download_charge rq isRange low high w w' e :
  ps_ok (bk_store (g_backend w)) -> object_sound o (Z.to_nat max) P w -> accountable rq low high w ->
  offsets (rq_range rq) (PayloadSize (co_info o)) = Ok (isRange, low, high) ->
  download rq w = Some (w', e) -> e = None \/ ((writes_of w < writes_of w')%nat /\ g_reported w' = g_reported w) ->
  exists r r' sent part,
    row_charged zone monthlyFreeQuota (a_quota (answers 0)) (read_of rq low high) (b_ChargedReadQuota (cb_meta bk)) (bk_traffic (g_backend w)) = Some r /\
    traffics (bk_traffic (g_backend w')) !! month_of rq low high = Some r' /\ consumed r' = consumed r + len sent /\
    body_of w' = body_of w ++ sent ++ part /\ (e = None -> sent = bytes_between low high /\ part = []) /\
    (part <> [] -> e = Some ErrReplyData).
Proof using Hpay.
  intros Hok Hs Hacc Hoff Hrun Hcase.
  destruct (download_run rq isRange low high w Hok Hs Hoff) as (ps & bs & timeout & w1 & l' & e' & sent & part & Hcat & Hne & Hrun' & Hout).
  rewrite Hrun in Hrun'. injection Hrun' as -> ->. clear Hrun.
  destruct (deferred_body (b_Id (cb_meta bk)) (rq_stamp rq) l' w1) as (Hb & Hw & Hrep). rewrite Hw, Hrep in Hcase.
  destruct Hout as [_ _ _ Htr Hbody Hpre _ Hcons _ [_ Htrig] Hadm _ Hend]. rewrite (proj1 (with_headers_same _ _ _ _)) in Hbody.
  rewrite (proj2 (with_headers_same _ _ _ _)) in *. cbn in Hcons.
  (* no recovery was triggered, and something was written *)
  assert (triggerRecovery l' = None /\ (writes_of w < writes_of w1)%nat) as [Hnone Hwr].
  { destruct Hcase as [He|[Hwr Heq] ].
    - destruct e'; [done|]. split; [done|]. by apply Hend.
    - split; [|done]. destruct (triggerRecovery l') eqn:E; [|done]. specialize (Htrig eq_refl ltac:(done)).
      rewrite Heq in Htrig. cbn in Htrig. lia. }
  pose proof Hpay as [_ _ Hlen Hsize _]. rewrite Hsize in Hoff. destruct (offsets_in _ _ _ _ _ Hlen Hoff) as [Hlow Hhigh].
  destruct ps as [|p ps]; [done|]. specialize (Hadm Hwr eq_refl) as [Harr Hok0]. destruct Hacc as [A1 A2 A3 A4 A5 A6 A7 A8 A9].
  cbn [traffic_after] in Htr. rewrite decide_True, Harr in Htr by done. cbn [with_headers set_response g_backend] in Htr, Hok0.
  destruct (admission_charged rq low high p timeout w _ A1 A2 A3 ltac:(go_lia) A4 A5 A6 eq_refl Hok0) as (r & Hr & Ha & Heq).
  rewrite Heq in Htr. clear Heq.
  set (record := read_of rq low high) in *. set (q := b_ChargedReadQuota (cb_meta bk)) in *.
  destruct (charged_table _ _ _ _ _ (check_now (a_quota (answers 0))) _ _ Hr A2 A3 A5 A6 ltac:(cbn in Ha |- *; lia) A4)
    as (Hok1 & Hrow & Hc1 & Hr0). rewrite <-Htr in Hok1, Hrow.
  assert (len (sent ++ part) <= high - low + 1) as Hlsp.
  { rewrite <-(length_between low high), <-Hcat by done. apply prefix_length in Hpre. unfold len. lia. }
  assert (0 <= len sent <= high - low + 1) as Hls by (revert Hlsp; unfold len; rewrite length_app; lia).
  destruct e' as [err|].
  - destruct Hend as [Herr Hend]. destruct (Hend Hnone) as [Hx Hpart]. specialize (Hx (or_intror Hwr)). rewrite Hcons in Hx.
    change (ReadSize record) with (high - low + 1) in Hc1, Hrow.
    assert (month_of rq low high = (b_Id (cb_meta bk), TimestampYearMonth zone (rq_stamp rq))) as Hkey by (rewrite A9; done).
    fold (month_of rq low high) in Hrow. change (read_key zone record) with (month_of rq low high) in Hrow. rewrite Hkey in Hrow.
    destruct (deferred_recoups (b_Id (cb_meta bk)) (rq_stamp rq) l' w1 _ A7 ltac:(by rewrite Herr) ltac:(by rewrite A8, A9) Hok1 Hrow)
      as (r' & Hr' & Hcr'); [rewrite Hx, Hc1; unfold len in *; lia|rewrite Hx; unfold len in *; go_lia|].
    exists r, r', sent, part. rewrite Hkey. split_and!; try done; [rewrite Hcr', Hc1, Hx; lia|by rewrite Hb|]. intros Hp. by rewrite (Hpart Hp).
  - destruct Hend as [-> Hend]. destruct (Hend Hnone) as (-> & Herr & _). exists r, (spend (ReadSize record) q (check_now (a_quota (answers 0))) r), (concat bs), [].
    rewrite Hb. unfold deferred. rewrite Herr. rewrite Hcat in *. rewrite length_between in * by done.
    split_and!; try done.
Qed.

(** ** Charged for nothing *)

Definition first_admission rq low high w : spdb * traffic_db * option Download.error :=
  admission zone monthlyFreeQuota (answers 0) o bk
    (piece_task g clock o bk params (rq_account rq) (high - low + 1) 0 0 (mkPieceInfo "" 0 0)) (g_backend w).

(** The downloader charges the first piece before it looks at how many downloads it runs: a
    download that is refused for their number has been charged for the whole range, and
    nothing is given back. *)
Theorem refused_download_charged rq isRange low high w :
  accountable rq low high w ->
  offsets (rq_range rq) (PayloadSize (co_info o)) = Ok (isRange, low, high) ->
  a_conn (answers 0) = Committed -> a_reserved (answers 0) = true -> (first_admission rq low high w).2 = None ->
  MinInt64 <= a_running (answers 0) < MaxInt64 -> downloadParallel (bk_downloader (g_backend w)) <= a_running (answers 0) + 1 ->
  exists w' r r',
    download rq w = Some (w', Some (download_goerror texts Download.ErrExceedRequest)) /\ body_of w' = body_of w /\
    row_charged zone monthlyFreeQuota (a_quota (answers 0)) (read_of rq low high) (b_ChargedReadQuota (cb_meta bk)) (bk_traffic (g_backend w)) = Some r /\
    traffics (bk_traffic (g_backend w')) !! month_of rq low high = Some r' /\ consumed r' = consumed r + (high - low + 1).
Proof using All.
  intros [A1 A2 A3 A4 A5 A6 A7 A8 A9] Hoff Hconn Hres Hadm Hrun Hpar.
  destruct (download_loop rq isRange low high w Hoff) as (ps & bs & segmentCount & timeout & _ & _ & Hne & ->).
  pose proof Hpay as [_ _ Hlen Hsize _]. rewrite Hsize in Hoff. destruct (offsets_in _ _ _ _ _ Hlen Hoff) as [Hlow Hhigh].
  destruct ps as [|p ps]; [done|].
  destruct (first_admission rq low high w) as [ [d t] e] eqn:Hfa. cbn [snd] in Hadm. subst e.
  destruct (admission_charged rq low high (mkPieceInfo "" 0 0) 0 w _ A1 A2 A3 ltac:(go_lia) A4 A5 A6 Hfa eq_refl) as (r & Hr & Ha & Ht).
  destruct (charged_table _ _ _ _ _ (check_now (a_quota (answers 0))) _ _ Hr A2 A3 A5 A6 ltac:(cbn in Ha |- *; lia) A4)
    as (_ & Hrow & Hc & _). cbn [fst snd] in Ht.
  assert (enter (downloadParallel (bk_downloader (g_backend w))) (a_running (answers 0)) = (a_running (answers 0) + 1, true)) as Hent.
  { unfold enter. rewrite int64_wrap_id by go_lia. f_equal. lia. }
  cbn [serve_pieces]. unfold client_GetPiece, GfSpDownloadPiece, OnDownloadPieceTask. rewrite Hconn, Hres. cbn [negb with_headers set_response g_backend].
  match goal with |- context [PreDownloadPiece ?a1 ?a2 ?a3 ?a4 ?a5 ?a6 ?a7 ?a8 ?a9 ?a10 ?a11 ?a12] =>
    change (PreDownloadPiece a1 a2 a3 a4 a5 a6 a7 a8 a9 a10 a11 a12) with (first_admission rq low high w) end.
  rewrite Hfa. unfold HandleDownloadPieceTask. cbn [bk_downloader bk_store bk_db bk_traffic set_running downloadParallel downloading].
  rewrite Hent. cbn [mbind option_bind]. eexists _, r, (spend (high - low + 1) _ _ r).
  split; [reflexivity|]. split; [apply with_headers_same|]. split; [done|]. cbn. rewrite Ht. by split.
Qed.
End run.
End download.

(** ** Examples: object 7, five bytes in segments of two, bucket 9 with a quota of 60 *)

Local Definition ex_texts : error_texts := mkTexts (fun _ => "e"%string) (fun _ => "e"%string) (fun _ => "e"%string) (fun _ => "e"%string).
Local Definition ex_g : app_options := mkAppOptions 0 0 0 0 0 0 0 0 0 0 0 0 0 0 0 0 0 0 0.
Local Definition ex_P : bytes := [Byte.x61; Byte.x62; Byte.x63; Byte.x64; Byte.x65].
Local Definition ex_o : chain_object :=
  mkChainObject (mkObjectInfo "b" "o" 7 5 REDUNDANCY_EC_TYPE 0 false) OBJECT_STATUS_SEALED "text/plain" 100.
Local Definition ex_bk : chain_bucket := mkChainBucket (mkBucketInfo "b") (mkBucketMeta 9 60 1).
Local Definition ex_params : Params := mkParams 2 4 2 100.
Local Definition ex_now : Z := 1700000000000000.
Local Definition ex_answer (running : Z) : call_answers :=
  mkAnswers Committed "" true running (mkCalls Committed (Ok 100) Committed 1 Committed Committed 2) ex_now
    (fun _ => Ok 1) (fun _ => Ok "provider"%string).

(** The segments with these numbers are stored. *)
Local Definition ex_store (l : list nat) : StoreClient memoryStore :=
  NewStoreClient "memory" (foldr (fun i m =>
    match Memory.PutObject 1 m (SegmentPieceKey 7 (Z.of_nat i) 0) (NewReader (segment 2 ex_P i)) with
    | Some (m, _) => m | None => m end) (newMemoryStore "m") l).
Local Definition ex_w (l : list nat) : gworld (StoreClient memoryStore) LRU.t :=
  mkGworld (mkBackend (ex_store l) (mkDownloader [] 0 10 0 10) (mkSpdb (mkTables ∅ ∅ ∅ ∅) (fun _ => Committed) 0) (mkTrafficDB ∅ [] 1))
    (mkResponse ∅ [] 0) [].
Local Definition ex_run (running : nat -> Z) (broken : nat -> option nat) (account range : string) (l : list nat) (t : traffic_db)
  : option (gworld (StoreClient memoryStore) LRU.t * option goerror) :=
  let w := ex_w l in
  downloadObject ex_texts (fun _ => None) (fun _ => 0) 50 ex_g (fun k => ex_answer (running k)) broken (fun _ => 0) Committed Committed
    (ex_now + 5) ("b"%string, "o"%string) account range (Ok ex_o) (fun _ => Ok ex_bk) (fun _ => Ok ex_params) ex_now
    (mkGworld (mkBackend (bk_store (g_backend w)) (bk_downloader (g_backend w)) (bk_db (g_backend w)) t) (g_response w) []).
Local Definition ex_seen (r : option (gworld (StoreClient memoryStore) LRU.t * option goerror)) :=
  '(w, e) ← r; Some (body_of w, match e with Some (GfSpErr e) => Some (InnerCode e) | _ => None end,
                    option_map consumed (traffics (bk_traffic (g_backend w)) !! (9, "2023-11"%string)),
                    length (g_reported w), r_headers (g_response w) !! ContentLengthHeader).

Local Definition no_rows : traffic_db := mkTrafficDB ∅ [] 1.
Local Definition ex_broken (k : nat) : option nat := if decide (k = 1%nat) then Some 1%nat else None.
Local Definition ex_busy (n k : nat) : Z := if decide (k = n) then 20 else 0.

(** A download of which a piece in the middle is unreadable returns an error after the first
    piece, and has the whole object charged: the loop goes on to the last piece, whose
    success clears the variable that the deferred function looks at.  The Content-Length of
    the whole object stays, too.  If it is the last piece that is unreadable, what was not
    sent is given back. *)
Theorem unreadable_piece_keeps_charge :
  ex_seen (ex_run (fun _ => 0) (fun _ => None) "user" "" [0; 2]%nat no_rows)
    = Some ([Byte.x61; Byte.x62], Some 85101, Some 5, 1%nat, Some "5"%string) /\
  ex_seen (ex_run (fun _ => 0) (fun _ => None) "user" "" [0; 1]%nat no_rows)
    = Some ([Byte.x61; Byte.x62; Byte.x63; Byte.x64], Some 85101, Some 4, 1%nat, None).
Proof. by vm_compute. Qed.

(** The bucket's own provider reads without being charged, but when its download fails after
    the first piece the rest of it is given back all the same: the consumption of others
    (40 bytes) shrinks. *)
Theorem provider_refunded_uncharged :
  ex_seen (ex_run (fun _ => 0) (fun _ => None) "provider" "" [0; 1; 2]%nat
    (mkTrafficDB {[ (9, "2023-11"%string) := mkTraffic 9 "2023-11" "b" 40 0 0 100 60 50 1 ]} [] 1))
    = Some (ex_P, None, Some 40, 0%nat, Some "5"%string) /\
  ex_seen (ex_run (ex_busy 1) (fun _ => None) "provider" "" [0; 1; 2]%nat
    (mkTrafficDB {[ (9, "2023-11"%string) := mkTraffic 9 "2023-11" "b" 40 0 0 100 60 50 1 ]} [] 1))
    = Some ([Byte.x61; Byte.x62], Some 30003, Some 37, 0%nat, None).
Proof. by vm_compute. Qed.

Lemma ex_payload_ok : payload_ok ex_g ex_o ex_params ex_P.
Proof. split; vm_compute; try (split; congruence); done || congruence. Qed.

Lemma ex_sound l : l ∈ [ [0; 1; 2]; [0; 2] ]%nat -> object_sound ex_o 2 ex_P (ex_w l).
Proof.
  intros Hl i Hi. change (segments_count 2 ex_P) with 3%nat in Hi. split; [|intros ??? H; by apply not_elem_of_nil in H].
  apply elem_of_cons in Hl as [->|Hl]; [|apply list_elem_of_singleton in Hl as ->]; destruct i as [|[|[|i] ] ]; try lia; vm_compute; auto.
Qed.

Local Definition ex_req : request := mkReq ("b"%string, "o"%string) "user" "bytes=1-3" ex_now.

Lemma ex_works : works (fun _ => 0) 50 (fun _ => ex_answer 0) (fun _ => None) ex_o ex_bk ex_params ex_P ex_req 1 3 (ex_w [0; 1; 2]%nat).
Proof.
  split; try done; try (cbn; go_lia).
  - intros i Hi. change (segments_count _ ex_P) with 3%nat in Hi. destruct i as [|[|[|i] ] ]; try lia; by vm_compute.
  - intros _. by eexists _, _.
  - split; [cbn; go_lia|]. split; [go_lia|]. intros f [= <-]. go_lia.
  - match goal with |- exists r, ?x = Some r /\ _ => destruct x as [r|] eqn:E; [|by vm_compute in E] end.
    exists r. split; [done|]. vm_compute in E. injection E as <-. vm_compute. congruence.
Qed.

Lemma download_delivers_range_witness :
  exists w', ex_run (fun _ => 0) (fun _ => None) "user" "bytes=1-3" [0; 1; 2]%nat no_rows = Some (w', None) /\
    body_of w' = [Byte.x62; Byte.x63; Byte.x64].
Proof.
  pose proof (download_delivers_range ex_texts (fun _ => None) (fun _ => 0) 50 ex_g (fun _ => ex_answer 0) (fun _ => None) (fun _ => 0)
    Committed Committed (ex_now + 5) ex_o ex_bk ex_params ex_P ex_payload_ok ex_req (ex_w [0; 1; 2]%nat) I
    (ex_sound [0; 1; 2]%nat ltac:(by left))) as H.
  destruct H as (_ & _ & w' & e & sent & H1 & Hw & H2 & _ & H3). rewrite (Hw ex_works) in H1.
  destruct (H3 (Hw ex_works)) as [-> _]. exists w'. split; [exact H1|exact H2].
Defined.

Lemma ex_accountable running :
  accountable (fun _ => 0) 50 (fun k => ex_answer (running k)) Committed Committed (ex_now + 5) ex_o ex_bk
    (mkReq ("b"%string, "o"%string) "user" "" ex_now) 0 4 (ex_w [0; 1; 2]%nat).
Proof.
  split; [by intros id [=] |intros k r Hk; change (@None BucketTrafficTable = Some r) in Hk; done|done|cbn; go_lia|go_lia|intros f [= <-]; go_lia|done..].
Qed.

Lemma download_charge_witness :
  exists w' r' sent part, ex_run (fun _ => 0) ex_broken "user" "" [0; 1; 2]%nat no_rows = Some (w', Some ErrReplyData) /\
    traffics (bk_traffic (g_backend w')) !! (9, "2023-11"%string) = Some r' /\ consumed r' = 0 + len sent /\
    [Byte.x61; Byte.x62; Byte.x63] = sent ++ part.
Proof.
  destruct (ex_run (fun _ => 0) ex_broken "user" "" [0; 1; 2]%nat no_rows) as [ [w' e]|] eqn:Hrun; [|by vm_compute in Hrun].
  assert (e = Some ErrReplyData /\ body_of w' = [Byte.x61; Byte.x62; Byte.x63] /\ (0 < writes_of w')%nat /\ g_reported w' = [])
    as (-> & Hb & Hw & Hr) by (vm_compute in Hrun; injection Hrun as <- <-; vm_compute; split_and!; done || lia).
  destruct (download_charge ex_texts (fun _ => None) (fun _ => 0) 50 ex_g (fun _ => ex_answer 0) ex_broken (fun _ => 0)
    Committed Committed (ex_now + 5) ex_o ex_bk ex_params ex_P ex_payload_ok (mkReq ("b"%string, "o"%string) "user" "" ex_now)
    false 0 4 (ex_w [0; 1; 2]%nat) w' (Some ErrReplyData) ltac:(exact I) (ex_sound [0; 1; 2]%nat ltac:(by left)) (ex_accountable (fun _ => 0)) ltac:(by vm_compute)
    Hrun (or_intror (conj Hw Hr))) as (r & r' & sent & part & H1 & H2 & H3 & H4 & _).
  vm_compute in H1. injection H1 as <-. exists w', r', sent, part. rewrite Hb in H4. split_and!; [done|exact H2|exact H3|exact H4].
Defined.

Lemma refused_download_charged_witness :
  exists w' r', ex_run (ex_busy 0) (fun _ => None) "user" "" [0; 1; 2]%nat no_rows = Some (w', Some (download_goerror ex_texts Download.ErrExceedRequest)) /\
    body_of w' = [] /\ traffics (bk_traffic (g_backend w')) !! (9, "2023-11"%string) = Some r' /\ consumed r' = 0 + 5.
Proof.
  destruct (refused_download_charged ex_texts (fun _ => None) (fun _ => 0) 50 ex_g (fun k => ex_answer (ex_busy 0 k)) (fun _ => None) (fun _ => 0)
    Committed Committed (ex_now + 5) ex_o ex_bk ex_params ex_P ex_payload_ok (mkReq ("b"%string, "o"%string) "user" "" ex_now)
    false 0 4 (ex_w [0; 1; 2]%nat) (ex_accountable (ex_busy 0)) ltac:(by vm_compute) eq_refl eq_refl ltac:(by vm_compute)
    ltac:(vm_compute; split; congruence) ltac:(vm_compute; congruence)) as (w' & r & r' & H1 & H2 & H3 & H4 & H5).
  vm_compute in H3. injection H3 as <-. exists w', r'. split_and!; [exact H1|exact H2|exact H4|exact H5].
Defined.
