(* ===== verification/GateEndpoint.v ===== *)
(** The universal endpoint of the gateway, for browsers: getObjectByUniversalEndpointHandler
    of modular/gater/object_handler.go.  A request needs no signature in its headers; a
    private object needs one in the query, over the object's name and an expiry.

    The answers of the metadata service and of the chain, the clock (nanoseconds) and the
    request's URI are arguments; the download is [downloadObject]. *)
From Stdlib Require Import ZArith Lia String Ascii.
From stdpp Require Import base gmap list strings pretty option.
From S2P Require Import AuthDb Policy Authenticator RequestAuth Prelude Strconv Sql Checksum Hex Task Downloader GateDownload.

Local Open Scope Z_scope.

(** What the metadata service answers on a bucket and an object. *)
Record ep_bucket := mkEpBucket { eb_BucketName : string; eb_Visibility : string; eb_FamilyId : Z }.
Record ep_object := mkEpObject { eo_ObjectName : string; eo_Visibility : string; eo_Status : ObjectStatus }.

Definition PRIVATE : string := "VISIBILITY_TYPE_PRIVATE".

Definition isPrivateObject (bucket : ep_bucket) (object : ep_object) : bool :=
  bool_decide (eo_Visibility object = PRIVATE)
  || (bool_decide (eo_Visibility object = INHERIT) && bool_decide (eb_Visibility bucket = PRIVATE)).

Definition checkIfRequestFromBrowser (userAgent : string) : bool :=
  existsb (Contains userAgent) ["Chrome"; "Firefox"; "Safari"; "Opera"; "Edge"]%string.

(** ** Errors *)

Definition ErrInvalidQuery : goerror := gate_err 400 50010 "invalid request params for query".
Definition ErrSignature : goerror := gate_err 406 50015 "signature is invalid".
Definition ErrNoSuchObject : goerror := gate_err 404 50025 "no such object".
Definition ErrForbidden : goerror := gate_err 403 50026 "Forbidden to access".

(** The page that a browser is shown. *)
Definition errorCodeForPage (spErrCode : Z) : string :=
  if spErrCode =? 30004 then "NO_ENOUGH_QUOTA"
  else if spErrCode =? 50025 then "FILE_NOT_FOUND"
  else if spErrCode =? 50026 then "NO_PERMISSION"
  else "INTERNAL_ERROR".

(** ** Private documents of two kinds are redirected *)

Definition ObjectPdfSuffix : string := "pdf".
Definition ObjectXmlSuffix : string := "xml".
Definition objectSpecialSuffixUrlReplacement : string := "?objectPath=".

(** strings.Replace(s, old, new, 1) *)
Definition Replace1 (s old new : string) : string :=
  match cut old s with Some (a, b) => a +:+ new +:+ b | None => s end.

Definition special_suffix (requestURI : string) : bool :=
  let splitSuffix := default ""%string (head (reverse (Split requestURI "."))) in
  negb (Contains requestURI objectSpecialSuffixUrlReplacement)
  && (bool_decide (ToLower splitSuffix = ObjectPdfSuffix) || bool_decide (ToLower splitSuffix = ObjectXmlSuffix)).

(** The message that is signed to read a private object. *)
Definition signed_content (bucket : ep_bucket) (object : ep_object) (expiry : string) : string :=
  "Sign this message to access the file:" +:+ String newline ("moca://" +:+ eb_BucketName bucket +:+ "/" +:+ eo_ObjectName object)
  +:+ String newline "This signature will not cost you any fees." +:+ String newline "Expiration Time: " +:+ expiry.

(** ** The handler *)

(** The answers during one request: nil answers are [None]. *)
Record endpoint_answers := mkEndpoint {
  ea_bucket : result string (option ep_bucket);
  ea_spid : result string Z;
  ea_family : Z -> result string Z;
  ea_endpoint : Z -> result goerror string;
  ea_object : result string (option ep_object);
  ea_now : Z;
  ea_auth : fate;
}.

Inductive reply (W : Type) :=
| Redirected (url : string)
| Replied (w : W) (err : option goerror).
Arguments Redirected {W}.
Arguments Replied {W}.

Section endpoint.
Context (names : commonhttp) (time_Parse : string -> option Z) (int32_overflow : Z -> Z).
Context (RecoverAddr : bytes -> bytes -> option (string * bytes)) (hexutil_Decode : string -> option bytes) (TextHash : string -> bytes).
Context (acc_address : string -> option string) (valid_bucket valid_object : string -> bool) (fold : string -> string)
  (c : consensus) (auth_spid : Z) (ErrInvalidExpiryDateParam : goerror) (auth_text : gate_error -> goerror)
  (unmarshal : string -> option GfSpError) (query_escape : string -> string).
(** The download, from the account in whose name it is; the response before it. *)
Context {W : Type} (set_header : string -> string -> W -> W) (download : string -> W -> option (W * option goerror)).

(** The account that reads a private object. *)
Definition private_reader (a : endpoint_answers) (r : request) (bucket : ep_bucket) (object : ep_object) : result goerror string :=
  let expiry := url_query r (HTTPHeaderExpiryTimestamp names) in
  let signature := url_query r "signature" in
  if decide (expiry = ""%string \/ signature = ""%string) then Err ErrForbidden else
  match time_Parse expiry with
  | None => Err ErrInvalidExpiryDateParam
  | Some expiryDate =>
    if negb (age_ok names int32_overflow expiryDate (ea_now a)) then Err ErrInvalidExpiryDateParam else
    match VerifyPersonalSignature RecoverAddr hexutil_Decode TextHash (signed_content bucket object expiry) signature with
    | Err e => Err (auth_text e)
    | Ok account =>
      match ea_auth a with
      | Committed =>
        match verify_authentication acc_address fold c auth_spid AuthOpTypeGetObject account (vars r "bucket") (vars r "object") with
        | Ok true => Ok account
        | _ => Err ErrForbidden
        end
      | _ => Err ErrForbidden
      end
    end
  end.

(** The handler up to its deferred function.  [account] is the context's. *)
Definition universal_endpoint (a : endpoint_answers) (r : request) (requestURI account : string) (isDownload : bool) (w : W)
  : option (reply W) :=
  let bucketName := vars r "bucket" in
  let objectName := vars r "object" in
  let where_ := ", object_name: " +:+ objectName +:+ ", bucket_name: " +:+ bucketName in
  if negb (valid_bucket bucketName) || negb (valid_object objectName) then Some (Replied w (Some ErrInvalidQuery)) else
  match ea_bucket a with
  | Err _ | Ok None => Some (Replied w (Some ErrNoSuchObject))
  | Ok (Some bucket) =>
    match ea_spid a with
    | Err e => Some (Replied w (Some (ErrConsensusWithDetail ("failed to getSPID" +:+ where_ +:+ " ,error: " +:+ e))))
    | Ok spID =>
      match ea_family a (eb_FamilyId bucket) with
      | Err e => Some (Replied w (Some (ErrConsensusWithDetail ("failed to GetBucketPrimarySPID" +:+ where_ +:+ ",error: " +:+ e))))
      | Ok bucketSPID =>
        if negb (spID =? bucketSPID) then
          match ea_endpoint a bucketSPID with
          | Err e => Some (Replied w (Some e))
          | Ok spEndpoint =>
            (* an empty endpoint returns with a nil error *)
            if decide (spEndpoint = ""%string) then Some (Replied w None) else Some (Redirected (spEndpoint +:+ requestURI))
          end
        else
          match ea_object a with
          | Err _ | Ok None => Some (Replied w (Some ErrNoSuchObject))
          | Ok (Some object) =>
            if negb (bool_decide (eo_Status object = OBJECT_STATUS_SEALED)) then Some (Replied w (Some ErrNoSuchObject)) else
            let disposition := if isDownload then "attachment; filename=" +:+ String "034" (query_escape objectName) +:+ String "034" "" else "inline"%string in
            let serve account :=
              '(w, e) ← download account (set_header ContentDispositionHeader disposition w); Some (Replied w e) in
            if isPrivateObject bucket object then
              if special_suffix requestURI
              then Some (Redirected ("/" +:+ Replace1 (str_drop 1 requestURI) "/" objectSpecialSuffixUrlReplacement))
              else
                match private_reader a r bucket object with
                | Err e => Some (Replied w (Some e))
                | Ok account => serve account
                end
            else serve account
          end
      end
    end
  end.

(** The deferred function: a browser gets the code of a page instead of the error. *)
Definition getObjectByUniversalEndpointHandler (a : endpoint_answers) (r : request) (requestURI account : string) (isDownload : bool) (w : W)
  : option (reply W) :=
  reply ← universal_endpoint a r requestURI account isDownload w;
  Some (match reply with
        | Replied w (Some err) =>
          if checkIfRequestFromBrowser (header r "User-Agent")
          then Replied w (Some (OtherErr ("errorCode(" +:+ errorCodeForPage (inner_code unmarshal err) +:+ ")")))
          else reply
        | _ => reply
        end).
End endpoint.

(** ** Properties *)

Section props.
Context (names : commonhttp) (time_Parse : string -> option Z) (int32_overflow : Z -> Z).
Context (RecoverAddr : bytes -> bytes -> option (string * bytes)) (hexutil_Decode : string -> option bytes) (TextHash : string -> bytes).
Context (acc_address : string -> option string) (valid_bucket valid_object : string -> bool) (fold : string -> string)
  (c : consensus) (auth_spid : Z) (ErrInvalidExpiryDateParam : goerror) (auth_text : gate_error -> goerror)
  (unmarshal : string -> option GfSpError) (query_escape : string -> string).
Context {W : Type} (set_header : string -> string -> W -> W) (download : string -> W -> option (W * option goerror)).

Notation handler := (getObjectByUniversalEndpointHandler names time_Parse int32_overflow RecoverAddr hexutil_Decode TextHash acc_address
  valid_bucket valid_object fold c auth_spid ErrInvalidExpiryDateParam auth_text unmarshal query_escape set_header download).

(** Who may be anybody may not read the object. *)
Definition private (bucket : ep_bucket) (object : ep_object) : Prop :=
  eo_Visibility object = "VISIBILITY_TYPE_PRIVATE"%string \/
  eo_Visibility object = "VISIBILITY_TYPE_INHERIT"%string /\ eb_Visibility bucket = "VISIBILITY_TYPE_PRIVATE"%string.

Lemma isPrivateObject_spec bucket object : isPrivateObject bucket object = true <-> private bucket object.
Proof. unfold isPrivateObject. by rewrite orb_true_iff, andb_true_iff, !bool_decide_eq_true. Qed.

(** A date that passed less than a second ago, if at all, and lies not too far ahead.  The
    conversion of a distance of more than 68 years is up to the machine. *)
Definition unexpired (date now : Z) : Prop :=
  let d := date - now in
  Z.abs d < (2 ^ 31 - 1) * Second /\ - Second < d < (MaxExpiryAgeInSec names + 1) * Second \/
  (2 ^ 31 - 1) * Second <= Z.abs d /\ 0 <= int32_overflow d <= MaxExpiryAgeInSec names.

Lemma age_ok_unexpired date now : 0 <= MaxExpiryAgeInSec names -> age_ok names int32_overflow date now = true -> unexpired date now.
Proof.
  unfold age_ok, int32_seconds, unexpired. cbv zeta. intros Hmax. set (d := date - now). clearbody d.
  rewrite negb_true_iff, orb_false_iff, !Z.ltb_ge. intros [H1 H2]. destruct (Z.ltb_spec (Z.abs d) ((2 ^ 31 - 1) * Second)) as [Hd|Hd]; [left|right; lia].
  split; [done|]. unfold Second in *. assert (0 < 10 ^ 9) as H9 by lia. set (u := 10 ^ 9) in *. clearbody u.
  pose proof (Z.quot_rem' d u) as E. pose proof (Z.rem_bound_abs d u ltac:(lia)) as B. rewrite (Z.abs_eq u) in B by lia. split; nia.
Qed.

(** The owner of the query's signature, which is over the address of the object and an
    unexpired date, and who may get the object. *)
Definition signed_by (a : endpoint_answers) (r : request) (bucket : ep_bucket) (object : ep_object) (account : string) : Prop :=
  let expiry := url_query r (HTTPHeaderExpiryTimestamp names) in
  exists expiryDate,
    time_Parse expiry = Some expiryDate /\ unexpired expiryDate (ea_now a) /\
    VerifyPersonalSignature RecoverAddr hexutil_Decode TextHash
      ("Sign this message to access the file:" +:+ String newline ("moca://" +:+ eb_BucketName bucket +:+ "/" +:+ eo_ObjectName object)
       +:+ String newline "This signature will not cost you any fees." +:+ String newline "Expiration Time: " +:+ expiry)
      (url_query r "signature") = Ok account /\
    verify_authentication acc_address fold c auth_spid AuthOpTypeGetObject account (vars r "bucket") (vars r "object") = Ok true.

Lemma private_reader_signed a r bucket object account :
  private_reader names time_Parse int32_overflow RecoverAddr hexutil_Decode TextHash acc_address fold c auth_spid
    ErrInvalidExpiryDateParam auth_text a r bucket object = Ok account -> 0 <= MaxExpiryAgeInSec names -> signed_by a r bucket object account.
Proof.
  unfold private_reader, signed_by. destruct (decide _); [done|]. destruct (time_Parse _) as [date|]; [|done].
  destruct (age_ok _ _ _ _) eqn:Ha; [|done]. cbn [negb]. destruct (VerifyPersonalSignature _ _ _ _ _) as [acc|] eqn:Hs; [|done].
  destruct (ea_auth a); try done. destruct (verify_authentication _ _ _ _ _ _ _ _) as [ [] |] eqn:Hv; try done.
  intros [= ->] Hmax. exists date. split_and!; [done|by apply age_ok_unexpired|done|done].
Qed.

(** C20: Whatever the answers are, the universal endpoint only touches the response to serve a
    sealed object of which this provider is the primary one; a private object (or one that
    inherits this from its bucket) only for the account whose signature, over a text with the
    object's address and the date in the query, is in the query, and whom the authenticator
    permits to get it.  The date has then not passed more than a second ago, and does not
    lie further ahead than the limit (dates within 68 years). *)
Theorem private_object_needs_signature a r requestURI account isDownload w w' e :
  0 <= MaxExpiryAgeInSec names -> handler a r requestURI account isDownload w = Some (Replied w' e) ->
  w' = w \/
  exists bucket object reader w1 e1,
    ea_bucket a = Ok (Some bucket) /\ ea_object a = Ok (Some object) /\ eo_Status object = OBJECT_STATUS_SEALED /\
    (exists spID, ea_spid a = Ok spID /\ ea_family a (eb_FamilyId bucket) = Ok spID) /\
    (private bucket object /\ signed_by a r bucket object reader \/ ~ private bucket object /\ reader = account) /\
    download reader w1 = Some (w', e1) /\ (e = None <-> e1 = None).
Proof.
  intros Hmax. unfold getObjectByUniversalEndpointHandler. destruct (universal_endpoint _ _ _ _ _ _ _ _ _ _ _ _ _ _ _ _ _ _ _ _ _ _ _) as [rep|] eqn:Hu; [|done].
  cbn [mbind option_bind]. intros [= Hrep].
  assert (exists e1, rep = Replied w' e1 /\ (e = None <-> e1 = None)) as (e1 & -> & He).
  { destruct rep as [|w2 [err|] ]; [done|destruct (checkIfRequestFromBrowser _)|]; injection Hrep as -> <-; eauto. by eexists. }
  clear Hrep. revert Hu. unfold universal_endpoint. destruct (negb _ || negb _); [by intros [= <- _]; left|].
  destruct (ea_bucket a) as [ [bucket|]|] eqn:Hb; [|by intros [= <- _]; left..].
  destruct (ea_spid a) as [spID|] eqn:Hid; [|by intros [= <- _]; left].
  destruct (ea_family a _) as [bucketSPID|] eqn:Hf; [|by intros [= <- _]; left].
  destruct (Z.eqb_spec spID bucketSPID) as [<-|]; cbn [negb]; cycle 1.
  { destruct (ea_endpoint a bucketSPID); [destruct (decide _)|]; by intros [= <- _]; left. }
  destruct (ea_object a) as [ [object|]|] eqn:Ho; [|by intros [= <- _]; left..].
  destruct (bool_decide (eo_Status object = _)) eqn:Hst; [|by intros [= <- _]; left]. apply bool_decide_eq_true in Hst. cbn [negb].
  destruct (isPrivateObject bucket object) eqn:Hp; [destruct (special_suffix _); [done|]; destruct (private_reader _ _ _ _ _ _ _ _ _ _ _ _ _ _ _ _) as [reader|] eqn:Hr;
    [|by intros [= <- _]; left]|].
  - apply private_reader_signed in Hr; [|done]. apply isPrivateObject_spec in Hp.
    destruct (download reader _) as [ [w2 e2]|] eqn:Hd; [|done]. intros [= -> ->]. right. exists bucket, object, reader. naive_solver.
  - apply not_true_iff_false in Hp. rewrite isPrivateObject_spec in Hp.
    destruct (download account _) as [ [w2 e2]|] eqn:Hd; [|done]. intros [= -> ->]. right. exists bucket, object, account. naive_solver.
Qed.

(** A provider that the bucket is not with, and whose endpoint is not known, gets an empty
    answer without an error. *)
Theorem unknown_endpoint_empty_answer a r requestURI account isDownload w bucket spID bucketSPID :
  valid_bucket (vars r "bucket") = true -> valid_object (vars r "object") = true ->
  ea_bucket a = Ok (Some bucket) -> ea_spid a = Ok spID -> ea_family a (eb_FamilyId bucket) = Ok bucketSPID -> spID <> bucketSPID ->
  ea_endpoint a bucketSPID = Ok ""%string ->
  handler a r requestURI account isDownload w = Some (Replied w None).
Proof.
  intros Hvb Hvo Hb Hid Hf Hne He. unfold getObjectByUniversalEndpointHandler, universal_endpoint.
  rewrite Hvb, Hvo, Hb, Hid, Hf, (proj2 (Z.eqb_neq _ _) Hne), He. done.
Qed.
End props.
