(* ===== verification/GateUpload.v ===== *)
(** Uploads through the gateway: the handlers of modular/gater/object_handler.go that put
    objects, whole or in parts, for their owner or as the owner's agent, and that create
    folders, with the status check of query_util.go; the two handlers that report on an
    upload, with the state texts of store/types/store.go.

    A handler is a computation that leaves a trace of what it does to others: approvals it
    asks for, messages it has sent to the chain, tasks it hands to the uploader.  It ends,
    or exits early, with an error or without one.  The answers of the chain and of the other
    modules during the request are an argument. *)
From Stdlib Require Import ZArith Lia String Ascii.
From stdpp Require Import base gmap list strings pretty option.
From S2P Require Import AuthDb Policy Authenticator RequestAuth Prelude Strconv Sql Checksum Hex UploadDb TaskKey Task TaskTypes Downloader GateDownload GateEndpoint.

Local Open Scope Z_scope.

(** ** Handlers *)

(** MsgDelegateCreateObject and MsgDelegateUpdateObjectContent; the redundancy type is EC. *)
Record delegate_create := mkDelegateCreate {
  dc_Operator : string; dc_Creator : string; dc_BucketName : string; dc_ObjectName : string; dc_PayloadSize : Z;
  dc_ContentType : string; dc_Visibility : Z;
}.
Record delegate_update := mkDelegateUpdate {
  du_Updater : string; du_BucketName : string; du_ObjectName : string; du_PayloadSize : Z; du_ContentType : string;
}.

Inductive effect :=
| AskApproval (msg : delegate_create) (fingerprint : bytes)
| CreateObject (msg : delegate_create)
| UpdateContent (msg : delegate_update)
| Confirm (txHash : string)
| Upload (task : GfSpUploadObjectTask.t)
| ResumableUpload (task : GfSpResumableUploadObjectTask.t).

Inductive step (A : Type) := Continue (a : A) | Exit (err : option goerror) | Panicked.
Arguments Continue {A}.
Arguments Exit {A}.
Arguments Panicked {A}.

Definition hm (A : Type) : Type := list effect -> list effect * step A.

#[export] Instance hm_ret : MRet hm := fun A a t => (t, Continue a).
#[export] Instance hm_bind : MBind hm := fun A B f m t =>
  match m t with
  | (t, Continue a) => f a t
  | (t, Exit err) => (t, Exit err)
  | (t, Panicked) => (t, Panicked)
  end.

Definition exit {A} (err : option goerror) : hm A := fun t => (t, Exit err).
Definition reject {A} (err : goerror) : hm A := exit (Some err).
Definition emit (e : effect) : hm unit := fun t => (t ++ [e], Continue tt).
Definition check (b : bool) (err : goerror) : hm unit := if b then mret tt else reject err.
Definition or_fail {A} (wrap : string -> goerror) (r : result string A) : hm A :=
  match r with Ok a => mret a | Err e => reject (wrap e) end.
Definition or_return {A} (r : result goerror A) : hm A := match r with Ok a => mret a | Err e => reject e end.
Definition no_error (e : option goerror) : hm unit := match e with None => mret tt | Some e => reject e end.

(** ** What the chain and the other modules answer *)

Inductive sp_status := STATUS_IN_SERVICE | STATUS_IN_MAINTENANCE | STATUS_OTHER.
#[export] Instance sp_status_eq_dec : EqDecision sp_status.
Proof. solve_decision. Defined.

Record sp_info := mkSpInfo { si_status : sp_status; si_MaintenanceAddress : string }.

(** An object on the chain, with the times of its creation and of its last update. *)
Record put_object := mkPutObject {
  po_info : ObjectInfo;
  po_status : ObjectStatus;
  po_Creator : string;
  po_Owner : string;
  po_CreateAt : Z;
  po_UpdatedAt : Z;
}.

(** The shadow of an object that is being updated. *)
Record shadow_object := mkShadow { sh_PayloadSize : Z; sh_Version : Z; sh_UpdatedAt : Z }.

Record put_answers := mkPut {
  pa_sp : result string sp_info;
  pa_bucket_created : result string bool;
  pa_auth : AuthOpType -> result goerror bool;
  pa_infos : result string (Z * put_object);
  pa_object : result string put_object;
  pa_shadow : result string shadow_object;
  pa_params_at : Z -> result string Params;
  pa_params : result string Params;
  pa_approval : result goerror bool;
  pa_create : result goerror string;
  pa_update : result goerror string;
  pa_confirm : string -> option goerror;
  pa_upload : option goerror;
  pa_start : Z;
  pa_clock : nat -> Z;
  pa_log : GfSpTask.t -> GfSpTask.t;
}.

Definition ErrNoPermission : goerror := gate_err 401 50004 "no permission".
Definition ErrDecodeMsg : goerror := gate_err 400 50005 "gnfd msg decoding error".
Definition ErrRefuseApproval : goerror := gate_err 200 50007 "approval request is refused".
Definition ErrInvalidPayloadSize : goerror := gate_err 403 50016 "invalid payload".
Definition ErrInvalidComplete : goerror := gate_err 400 50027 "invalid complete".
Definition ErrInvalidOffset : goerror := gate_err 400 50028 "invalid offset".
Definition ErrSPUnavailable : goerror := gate_err 403 50029 "sp is not in service status".
Definition ErrBucketUnavailable : goerror := gate_err 403 50036 "bucket is not in service status".
Definition ErrInvalidObjectName : goerror := gate_err 400 50044 "invalid object name".

Definition ContentDefault : string := "application/octet-stream".

(** strconv.ParseBool *)
Definition ParseBool (s : string) : option bool :=
  if decide (s ∈ ["1"; "t"; "T"; "TRUE"; "true"; "True"]%string) then Some true
  else if decide (s ∈ ["0"; "f"; "F"; "FALSE"; "false"; "False"]%string) then Some false
  else None.

Definition fromSpMaintenanceAcct (spStatus : sp_status) (spMaintenanceAddr creatorAddr : string) : bool :=
  bool_decide (spStatus = STATUS_IN_MAINTENANCE) && bool_decide (spMaintenanceAddr = creatorAddr).

Definition shouldConfirmCosmosTx (txHash : string) : bool :=
  negb (bool_decide (txHash = ""%string)) && negb (HasPrefix txHash "0x") && negb (HasPrefix txHash "0X").

Section handlers.
Context (g : app_options) (OperatorAddress : string) (maxPayloadSize : Z).
Context (valid_bucket valid_object : string -> option goerror) (IsSQLInjection : string -> bool) (GenerateChecksum : bytes -> bytes).
(** VisibilityType_value has so many entries; VISIBILITY_TYPE_UNSPECIFIED is 0. *)
Context (visibility_types VISIBILITY_TYPE_INHERIT : Z).
(** GetLatestUpdatedTime of the times of creation and update; the error of a number or bool. *)
Context (GetLatestUpdatedTime : Z -> Z -> Z) (parse_error : string -> goerror).
Context (a : put_answers).

Definition consensus_error (what : string) (r : request) (e : string) : goerror :=
  ErrConsensusWithDetail (what +:+ ", object_name: " +:+ vars r "object" +:+ ", bucket_name: " +:+ vars r "bucket" +:+ ", error: " +:+ e).

Definition checkSPAndBucketStatus (bucketName creatorAddr : string) : hm unit :=
  spInfo ← or_fail (fun e => ErrConsensusWithDetail ("failed to query sp by operator address, operator_address: " +:+ OperatorAddress +:+ ", error: " +:+ e)) (pa_sp a);
  check (bool_decide (si_status spInfo = STATUS_IN_SERVICE) || fromSpMaintenanceAcct (si_status spInfo) (si_MaintenanceAddress spInfo) creatorAddr)
    ErrSPUnavailable;;
  created ← or_fail (fun e => ErrConsensusWithDetail ("failed to query bucket info by bucket name, bucket_name: " +:+ bucketName +:+ ", error: " +:+ e)) (pa_bucket_created a);
  check created ErrBucketUnavailable.

Definition authenticate (authType : AuthOpType) : hm unit :=
  authenticated ← or_return (pa_auth a authType);
  check authenticated ErrNoPermission.

Definition checkAndAssignShadowObjectInfo (o : put_object) : result string put_object :=
  let i := po_info o in
  if negb (ObjIsUpdating i) then Ok o else
  match pa_shadow a with
  | Err e => Err e
  | Ok s =>
    Ok (mkPutObject (mkObjectInfo (BucketName i) (ObjectName i) (ObjId i) (sh_PayloadSize s) (RedundancyType_ i) (sh_Version s) (ObjIsUpdating i))
          (po_status o) (po_Creator o) (po_Owner o) (po_CreateAt o) (sh_UpdatedAt s))
  end.

(** The family of the bucket and the object, with its shadow. *)
Definition query_infos (r : request) : hm (Z * put_object) :=
  let wrap := consensus_error "failed to get object info from consensus" r in
  '(family, object) ← or_fail wrap (pa_infos a);
  object ← or_fail wrap (checkAndAssignShadowObjectInfo object);
  mret (family, object).

Definition latest (o : put_object) : Z := GetLatestUpdatedTime (po_CreateAt o) (po_UpdatedAt o).

Definition params_error (r : request) : string -> goerror := consensus_error "failed to get storage params from consensus" r.

Definition task_timeout (size : Z) : hm Z :=
  match TaskTimeout g TypeTaskUpload size with Some t => mret t | None => fun t => (t, Panicked) end.

(** The task is created at the start of the request, and keeps a log. *)
Definition upload_task (family : Z) (object : ObjectInfo) (params : Params) (agent : bool) : hm unit :=
  timeout ← task_timeout (PayloadSize object);
  let task := GfSpUploadObjectTask.InitUploadObjectTask family object params timeout agent (pa_clock a 0) (pa_clock a 1) in
  emit (Upload (GfSpUploadObjectTask.set_task (pa_log a (GfSpTask.SetCreateTime (pa_start a) (GfSpUploadObjectTask.Task task))) task));;
  no_error (pa_upload a).

(** The parameters of a part: whether it is the last one, and where it begins. *)
Definition part_of (r : request) : hm (bool * Z) :=
  match ParseBool (url_query r "complete") with
  | None => reject ErrInvalidComplete
  | Some complete =>
    match ParseUint (url_query r "offset") 64 with
    | Err _ => reject ErrInvalidOffset
    | Ok offset => mret (complete, offset)
    end
  end.

Definition resumable_task (family : Z) (object : ObjectInfo) (params : Params) (part : bool * Z) (agent : bool) : hm unit :=
  timeout ← task_timeout (PayloadSize object);
  let task := GfSpResumableUploadObjectTask.InitResumableUploadObjectTask family object params timeout part.1 part.2 agent
                (pa_clock a 0) (pa_clock a 1) in
  emit (ResumableUpload (GfSpResumableUploadObjectTask.set_task
    (pa_log a (GfSpTask.SetCreateTime (pa_start a) (GfSpResumableUploadObjectTask.Task task))) task));;
  no_error (pa_upload a).

(** ** Uploads of the owner.  [ctx] is what NewRequestContext returns. *)

Definition enter_request (ctx : string * option goerror) : hm string := no_error ctx.2;; mret ctx.1.

Definition putObjectHandler (ctx : string * option goerror) (r : request) : hm unit :=
  account ← enter_request ctx;
  checkSPAndBucketStatus (vars r "bucket") account;;
  authenticate AuthOpTypePutObject;;
  '(family, object) ← query_infos r;
  let size := PayloadSize (po_info object) in
  check (negb ((size =? 0) || (size >? maxPayloadSize))) ErrInvalidPayloadSize;;
  params ← or_fail (params_error r) (pa_params_at a (latest object));
  upload_task family (po_info object) params false.

(** The parameters are the chain's present ones. *)
Definition resumablePutObjectHandler (ctx : string * option goerror) (r : request) : hm unit :=
  account ← enter_request ctx;
  checkSPAndBucketStatus (vars r "bucket") account;;
  authenticate AuthOpTypePutObject;;
  '(family, object) ← or_fail (consensus_error "failed to get object info from consensus" r) (pa_infos a);
  params ← or_fail (params_error r) (pa_params a);
  object ← or_fail (consensus_error "failed to get object info from consensus" r) (checkAndAssignShadowObjectInfo object);
  let size := PayloadSize (po_info object) in
  check (negb ((size =? 0) || (size >? MaxPayloadSize params))) ErrInvalidPayloadSize;;
  part ← part_of r;
  resumable_task family (po_info object) params part false.

(** ** Uploads of an agent *)

Definition bad_name (objectName : string) : bool :=
  Contains objectName ".." || bool_decide (objectName = "/"%string) || Contains objectName "\" || IsSQLInjection objectName.

Definition check_names (r : request) : hm unit := no_error (valid_bucket (vars r "bucket"));; no_error (valid_object (vars r "object")).

Definition content_type (r : request) : string :=
  if decide (header r ContentTypeHeader = ""%string) then ContentDefault else header r ContentTypeHeader.

Definition parsed_bool (s : string) : hm bool := match ParseBool s with Some b => mret b | None => reject (parse_error s) end.
Definition parsed_uint (s : string) : hm Z := match ParseUint s 64 with Ok n => mret n | Err _ => reject (parse_error s) end.

Definition fingerprint_of (r : request) : hm bytes :=
  match DecodeString (header r "X-Gnfd-Unsigned-Msg") with
  | Err _ => reject ErrDecodeMsg
  | Ok approvalMsg => mret (GenerateChecksum approvalMsg)
  end.

Definition visibility_of (r : request) : hm Z :=
  match ParseInt (url_query r "visibility") 32 with
  | Err _ => reject (parse_error (url_query r "visibility"))
  | Ok v =>
    if (v <? 0) || (v >=? visibility_types) then reject ErrInvalidQuery
    else mret (if v =? 0 then VISIBILITY_TYPE_INHERIT else v)
  end.

Definition create_msg (account : string) (r : request) (payloadSize visibility : Z) : delegate_create :=
  mkDelegateCreate OperatorAddress account (vars r "bucket") (vars r "object") payloadSize (content_type r) visibility.
Definition update_msg (account : string) (r : request) (payloadSize : Z) : delegate_update :=
  mkDelegateUpdate account (vars r "bucket") (vars r "object") payloadSize (content_type r).

(** Asks for the approval and creates the object; [refused] is what a refusal returns. *)
Definition create_object (refused : option goerror) (msg : delegate_create) (fingerprint : bytes) : hm string :=
  emit (AskApproval msg fingerprint);;
  approved ← or_return (pa_approval a);
  (if approved : bool then mret tt else exit refused);;
  emit (CreateObject msg);;
  or_return (pa_create a).

Definition confirm (txHash : string) : hm unit :=
  if shouldConfirmCosmosTx txHash then emit (Confirm txHash);; no_error (pa_confirm a txHash) else mret tt.

Definition agent_op (isUpdate : bool) : AuthOpType := if isUpdate then AuthOpTypeAgentUpdateObject else AuthOpTypeAgentPutObject.

Definition no_such_object (e : string) : bool := Contains e "No such object".

Definition delegatePutObjectHandler (ctx : string * option goerror) (r : request) : hm unit :=
  account ← enter_request ctx;
  isUpdate ← parsed_bool (url_query r "is_update");
  check_names r;;
  authenticate (agent_op isUpdate);;
  check (negb (bad_name (vars r "object"))) ErrInvalidObjectName;;
  params ← or_fail (params_error r) (pa_params_at a (pa_clock a 2));
  payloadSize ← parsed_uint (url_query r "payload_size");
  check (negb ((payloadSize =? 0) || (payloadSize >? MaxPayloadSize params))) ErrInvalidPayloadSize;;
  checkSPAndBucketStatus (vars r "bucket") account;;
  fingerprint ← fingerprint_of r;
  txHash ←
    (if isUpdate : bool then
       emit (UpdateContent (update_msg account r payloadSize));; or_return (pa_update a)
     else
       match pa_object a with
       | Err e =>
         if negb (no_such_object e) then reject (OtherErr e) else
         visibility ← visibility_of r;
         create_object None (create_msg account r payloadSize visibility) fingerprint
       | Ok object =>
         check (bool_decide (po_status object = OBJECT_STATUS_CREATED)
                && (bool_decide (po_Creator object = account) || bool_decide (po_Owner object = account))
                && (PayloadSize (po_info object) =? payloadSize)) ErrInvalidQuery;;
         mret ""%string
       end);
  confirm txHash;;
  '(family, object) ← query_infos r;
  upload_task family (po_info object) params true.

(** An error of the authenticator is not looked at: the request is refused without it. *)
Definition delegateResumablePutObjectHandler (ctx : string * option goerror) (r : request) : hm unit :=
  account ← enter_request ctx;
  isUpdate ← parsed_bool (url_query r "is_update");
  check_names r;;
  check (negb (bad_name (vars r "object"))) ErrInvalidObjectName;;
  checkSPAndBucketStatus (vars r "bucket") account;;
  payloadSize ← parsed_uint (url_query r "payload_size");
  params ← or_fail (params_error r) (pa_params a);
  check (negb ((payloadSize =? 0) || (payloadSize >? MaxPayloadSize params))) ErrInvalidPayloadSize;;
  check (match pa_auth a (agent_op isUpdate) with Ok b => b | Err _ => false end) ErrNoPermission;;
  fingerprint ← fingerprint_of r;
  txHash ←
    (if isUpdate : bool then
       object ← or_fail (consensus_error "failed to get object info from consensus" r) (pa_object a);
       if ObjIsUpdating (po_info object) then mret ""%string
       else emit (UpdateContent (update_msg account r payloadSize));; or_return (pa_update a)
     else
       visibility ← visibility_of r;
       match pa_object a with
       | Err e =>
         if no_such_object e then create_object (Some ErrRefuseApproval) (create_msg account r payloadSize visibility) fingerprint
         else reject (OtherErr e)
       | Ok object =>
         (* the request returns with a nil error *)
         if negb (bool_decide (po_status object = OBJECT_STATUS_CREATED)) then exit None else mret ""%string
       end);
  confirm txHash;;
  '(family, object) ← query_infos r;
  part ← part_of r;
  resumable_task family (po_info object) params part true.

Definition delegateCreateFolderHandler (ctx : string * option goerror) (r : request) : hm string :=
  account ← enter_request ctx;
  check_names r;;
  authenticate AuthOpTypeAgentPutObject;;
  check (negb (bad_name (vars r "object"))) ErrInvalidObjectName;;
  checkSPAndBucketStatus (vars r "bucket") account;;
  fingerprint ← fingerprint_of r;
  match pa_object a with
  | Ok _ => reject ErrInvalidQuery
  | Err e =>
    if negb (no_such_object e) then reject (OtherErr e) else
    visibility ← visibility_of r;
    txHash ← create_object None (create_msg account r 0 visibility) fingerprint;
    confirm txHash;;
    mret txHash
  end.
End handlers.

(** ** Reports on uploads *)

(** store/types/store.go; an unknown state prints as itself. *)
Definition StateToDescription (state : Z) : string :=
  if state =? 0 then "object meta is created onto the chain"
  else if state =? 1 then "object payload is uploading to the primary SP"
  else if bool_decide (state ∈ [2; 4; 5; 7; 8]) then "object payload is replicating to the secondary SPs in the background"
  else if state =? 3 then "something is wrong in uploading to primary"
  else if state =? 6 then "something is wrong in allocating secondary SPs"
  else if state =? 9 then "something is wrong in replicating secondary SPs"
  else if bool_decide (state ∈ [10; 11; 13]) then "object meta is sealing onto the chain in the background"
  else if state =? 12 then "something is wrong in signing the object"
  else if state =? 14 then "object is succeed to upload and seal onto the chain"
  else if state =? 15 then "something is wrong in sealing object"
  else if state =? 16 then "object has been discontinued"
  else TaskState_String state.

Definition MetadataModularName : string := "metadata".
Definition ErrNoRecord : GfSpError := mkGfSpError MetadataModularName 404 90003 "no uploading record".

Section reports.
Context (ErrGfSpDBWithDetail : db_error -> GfSpError) (not_found : db_error -> bool).
(** Error() prints as JSON, String() as protobuf's text format. *)
Context (json_text proto_text : GfSpError -> string).
Context (GetLatestUpdatedTime : Z -> Z -> Z) (a : put_answers).

(** The metadata service; [not_found] looks for the text of gorm's error. *)
Definition GfSpQueryUploadProgress (objectId : Z) (d : spdb) : spdb * result GfSpError (Z * string) :=
  let '(d, r) := GetUploadState objectId d in
  (d, match r with
      | Ok s => Ok s
      | Err e => if not_found e then Ok (0, ""%string) else Err (ErrGfSpDBWithDetail e)
      end).

Definition GfSpQueryResumableUploadSegment (objectId : Z) (d : spdb) : spdb * result GfSpError Z :=
  let '(d, r) := GetObjectIntegrity objectId (-1) d in
  (d, match r with
      | Ok integrityMeta => Ok (uwrap 32 (Z.of_nat (length (PieceChecksumList integrityMeta))))
      | Err (DbErr ErrRecordNotFound) | Err (DbWrapped _ ErrRecordNotFound) => Err ErrNoRecord
      | Err e => Err (ErrGfSpDBWithDetail e)
      end).

(** The offset from which the upload may be resumed. *)
Definition queryResumeOffsetHandler (ctx : string * option goerror) (r : request) (d : spdb) : spdb * step Z :=
  let guard : hm (put_object * Params) :=
    enter_request ctx;;
    authenticate a AuthOpTypeGetUploadingState;;
    object ← or_fail (consensus_error "failed to get object info from consensus" r) (pa_object a);
    params ← or_fail (params_error r) (pa_params_at a (latest GetLatestUpdatedTime object));
    mret (object, params) in
  match (guard []).2 with
  | Exit e => (d, Exit e)
  | Panicked => (d, Panicked)
  | Continue (object, params) =>
    let '(d, s) := GfSpQueryResumableUploadSegment (ObjId (po_info object)) d in
    let offset segmentCount := uwrap 64 (segmentCount * MaxSegmentSize params) in
    (d, match s with
        | Ok segmentCount => Continue (offset segmentCount)
        | Err e => if decide (json_text e = proto_text ErrNoRecord) then Continue (offset 0) else Exit (Some (GfSpErr e))
        end)
  end.

(** The description of the state, and of the error. *)
Definition queryUploadProgressHandler (ctx : string * option goerror) (r : request) (d : spdb) : spdb * step (string * string) :=
  let guard : hm put_object :=
    enter_request ctx;;
    authenticate a AuthOpTypeGetUploadingState;;
    or_fail (consensus_error "failed to get object info from consensus" r) (pa_object a) in
  match (guard []).2 with
  | Exit e => (d, Exit e)
  | Panicked => (d, Panicked)
  | Continue object =>
    match po_status object with
    | OBJECT_STATUS_CREATED =>
      let '(d, s) := GfSpQueryUploadProgress (ObjId (po_info object)) d in
      (d, match s with
          | Ok (taskState, errDescription) => Continue (StateToDescription taskState, errDescription)
          | Err e =>
            if Contains (json_text e) "no uploading record" then Continue (StateToDescription 0, ""%string)
            else Exit (Some (GfSpErr e))
          end)
    | OBJECT_STATUS_SEALED =>
      (d, Continue (if ObjIsUpdating (po_info object) then (""%string, ""%string) else (StateToDescription 14, ""%string)))
    | OBJECT_STATUS_DISCONTINUED => (d, Continue (StateToDescription 16, ""%string))
    end
  end.
End reports.
