(* ===== verification/GateUploadProps.v ===== *)
(** Properties of the gateway's uploads: every effect of a request is one its guards allow, an
    answer without an error does not mean that something was uploaded, and the offset from
    which a resumable upload goes on is the one the uploader accepts, except at both ends. *)
From Stdlib Require Import ZArith Lia String Ascii.
From stdpp Require Import base gmap list strings pretty option.
From S2P Require Import AuthDb Policy Authenticator RequestAuth Prelude Strconv Sql Checksum Hex Storage PieceStore PieceOp UploadDb TaskKey Task TaskTypes TQueue Uploader UploadFacts UploadProps Resumable ResumableProgress ResumableProps Downloader GateDownload GateEndpoint GateUpload.

Local Open Scope Z_scope.

(** ** A logic of effects *)

(** Every effect of the computation has [P], and if it continues its value has [Q]. *)
Definition emits {A} (P : effect -> Prop) (m : hm A) (Q : A -> Prop) : Prop :=
  forall t, exists es, (m t).1 = t ++ es /\ Forall P es /\ match (m t).2 with Continue a => Q a | _ => True end.

Lemma emits_bind {A B} P (m : hm A) (f : A -> hm B) Q R :
  emits P m Q -> (forall a, Q a -> emits P (f a) R) -> emits P (m ≫= f) R.
Proof.
  intros Hm Hf t. unfold mbind, hm_bind. destruct (Hm t) as (es & Ht & Hp & Hq). destruct (m t) as [t1 s]. cbn in Ht, Hq. subst t1.
  destruct s as [a| |]; [|by exists es..]. destruct (Hf a Hq (t ++ es)) as (es' & Ht' & Hp' & Hr').
  exists (es ++ es'). rewrite Ht', app_assoc. split; [done|]. split; [by apply Forall_app|done].
Qed.

Lemma emits_weaken {A} P (m : hm A) Q R : emits P m Q -> (forall a, Q a -> R a) -> emits P m R.
Proof. intros Hm HQ t. destruct (Hm t) as (es & Ht & Hp & Hq). exists es. split_and!; try done. destruct (m t).2; auto. Qed.

Lemma emits_run {A} P (m : hm A) Q : emits P m Q -> Forall P (m []).1.
Proof. intros Hm. destruct (Hm []) as (es & -> & ? & _). done. Qed.

(** What emits nothing. *)
Lemma emits_pure {A} P (m : hm A) Q : (forall t, (m t).1 = t /\ match (m t).2 with Continue a => Q a | _ => True end) -> emits P m Q.
Proof. intros H t. destruct (H t) as [-> Hq]. exists []. by rewrite app_nil_r. Qed.

Lemma emits_ret {A} P (a : A) (Q : A -> Prop) : Q a -> emits P (mret a) Q.
Proof. intros Hq. by apply emits_pure. Qed.
Lemma emits_emit (P : effect -> Prop) e : P e -> emits P (emit e) (fun _ => True).
Proof. intros He t. exists [e]. split_and!; [done|by constructor|done]. Qed.
Lemma emits_check P b err : emits P (check b err) (fun _ => b = true).
Proof. apply emits_pure. by destruct b. Qed.
Lemma emits_or_fail {A} P wrap (r : result string A) : emits P (or_fail wrap r) (fun a => r = Ok a).
Proof. apply emits_pure. by destruct r. Qed.
Lemma emits_or_return {A} P (r : result goerror A) : emits P (or_return r) (fun a => r = Ok a).
Proof. apply emits_pure. by destruct r. Qed.
Lemma emits_no_error P e : emits P (no_error e) (fun _ => e = None).
Proof. apply emits_pure. by destruct e. Qed.
Lemma emits_exit {A} P err (Q : A -> Prop) : emits P (exit err) Q.
Proof. by apply emits_pure. Qed.
Lemma emits_reject {A} P err (Q : A -> Prop) : emits P (reject err) Q.
Proof. by apply emits_pure. Qed.

Create HintDb emits.
#[export] Hint Resolve emits_check emits_or_fail emits_or_return emits_no_error emits_exit emits_reject : emits.

(** The next step of a handler, by a known lemma; its facts become hypotheses. *)
Tactic Notation "next" simple_intropattern(x) simple_intropattern(H) :=
  eapply emits_bind; [solve [eauto with emits]|intros x H; cbn [fst snd] in *; cbv beta in *].

Section guards.
Context (g : app_options) (OperatorAddress : string) (maxPayloadSize : Z).
Context (valid_bucket valid_object : string -> option goerror) (IsSQLInjection : string -> bool) (GenerateChecksum : bytes -> bytes).
Context (visibility_types VISIBILITY_TYPE_INHERIT : Z).
Context (GetLatestUpdatedTime : Z -> Z -> Z) (parse_error : string -> goerror).
Context (a : put_answers).

(** The provider serves the account, and the bucket is in service. *)
Definition in_service (account : string) : Prop :=
  (exists sp, pa_sp a = Ok sp /\ (si_status sp = STATUS_IN_SERVICE \/ si_status sp = STATUS_IN_MAINTENANCE /\ si_MaintenanceAddress sp = account)) /\
  pa_bucket_created a = Ok true.

Lemma status_spec P bucketName account :
  emits P (checkSPAndBucketStatus OperatorAddress a bucketName account) (fun _ => in_service account).
Proof.
  unfold checkSPAndBucketStatus. next sp Hsp. next u Hst. next created Hb. eapply emits_weaken; [apply emits_check|]. intros _ ->.
  split; [|done]. exists sp. split; [done|].
  apply orb_true_iff in Hst as [?%bool_decide_eq_true|Hst]; [by left|]. unfold fromSpMaintenanceAcct in Hst.
  apply andb_true_iff in Hst as [?%bool_decide_eq_true ?%bool_decide_eq_true]. by right.
Qed.

Lemma authenticate_spec P op : emits P (authenticate a op) (fun _ => pa_auth a op = Ok true).
Proof. unfold authenticate. next b Hb. eapply emits_weaken; [apply emits_check|]. by intros _ ->. Qed.

(** The object on the chain, or its shadow while it is updated. *)
Definition current (family : Z) (object : put_object) : Prop :=
  exists o, pa_infos a = Ok (family, o) /\ checkAndAssignShadowObjectInfo a o = Ok object.

Lemma query_infos_spec P r : emits P (query_infos a r) (fun fo => current fo.1 fo.2).
Proof. unfold query_infos. next [family o] Ho. next object Hs. apply emits_ret. by exists o. Qed.

Lemma enter_spec P ctx : emits P (enter_request ctx) (fun account => ctx = (account, None)).
Proof. unfold enter_request. next u He. apply emits_ret. destruct ctx. cbn in *. congruence. Qed.
Hint Resolve status_spec authenticate_spec query_infos_spec enter_spec : emits.

Lemma timeout_spec P size : emits P (task_timeout g size) (fun _ => True).
Proof. apply emits_pure. unfold task_timeout. by destruct (TaskTimeout _ _ _). Qed.

(** A whole upload of the object with its parameters. *)
Definition upload_of (family : Z) (object : put_object) (params : Params) (agent : bool) (task : GfSpUploadObjectTask.t) : Prop :=
  GfSpUploadObjectTask.VirtualGroupFamilyId task = family /\ GfSpUploadObjectTask.ObjectInfo_ task = po_info object /\
  GfSpUploadObjectTask.StorageParams task = params /\ GfSpUploadObjectTask.IsAgentUpload task = agent.

Lemma upload_task_spec (P : effect -> Prop) family object params agent :
  (forall task, upload_of family object params agent task -> P (Upload task)) ->
  emits P (upload_task g a family (po_info object) params agent) (fun _ => True).
Proof.
  intros HP. unfold upload_task. eapply emits_bind; [apply timeout_spec|intros timeout _].
  eapply emits_bind; [apply emits_emit, HP; by split_and!|intros _ _]. eapply emits_weaken; [apply emits_no_error|done].
Qed.

Definition part_upload_of (r : request) (family : Z) (object : put_object) (params : Params) (agent : bool) (task : GfSpResumableUploadObjectTask.t) : Prop :=
  GfSpResumableUploadObjectTask.VirtualGroupFamilyId task = family /\ GfSpResumableUploadObjectTask.ObjectInfo_ task = po_info object /\
  GfSpResumableUploadObjectTask.StorageParams task = params /\ GfSpResumableUploadObjectTask.IsAgentUpload task = agent /\
  ParseBool (url_query r "complete") = Some (GfSpResumableUploadObjectTask.Completed task) /\
  ParseUint (url_query r "offset") 64 = Ok (GfSpResumableUploadObjectTask.Offset task).

Lemma part_of_spec P r : emits P (part_of r) (fun part => ParseBool (url_query r "complete") = Some part.1 /\ ParseUint (url_query r "offset") 64 = Ok part.2).
Proof. apply emits_pure. unfold part_of. destruct (ParseBool _); [|done]. by destruct (ParseUint _ _). Qed.

Lemma resumable_task_spec (P : effect -> Prop) r family object params part agent :
  ParseBool (url_query r "complete") = Some part.1 /\ ParseUint (url_query r "offset") 64 = Ok part.2 ->
  (forall task, part_upload_of r family object params agent task -> P (ResumableUpload task)) ->
  emits P (resumable_task g a family (po_info object) params part agent) (fun _ => True).
Proof.
  intros [Hc Ho] HP. unfold resumable_task. eapply emits_bind; [apply timeout_spec|intros timeout _].
  eapply emits_bind; [apply emits_emit, HP; by split_and!|intros _ _]. eapply emits_weaken; [apply emits_no_error|done].
Qed.

(** ** Owners *)

(** What an owner's request may do: hand the object to the uploader, in the name of the
    account of the request, which may put it. *)
Definition owner_may (ctx : string * option goerror) (r : request) (e : effect) : Prop :=
  exists account family object params,
    ctx = (account, None) /\ in_service account /\ pa_auth a AuthOpTypePutObject = Ok true /\ current family object /\
    match e with
    | Upload task =>
      0 < PayloadSize (po_info object) <= maxPayloadSize /\ pa_params_at a (latest GetLatestUpdatedTime object) = Ok params /\
      upload_of family object params false task
    | ResumableUpload task =>
      0 < PayloadSize (po_info object) <= MaxPayloadSize params /\ pa_params a = Ok params /\
      part_upload_of r family object params false task
    | _ => False
    end.

Lemma size_checked size max : 0 <= size -> negb ((size =? 0) || (size >? max)) = true -> 0 < size <= max.
Proof. intros H0 H%negb_true_iff. apply orb_false_iff in H as [?%Z.eqb_neq ?]. lia. Qed.

(** A put hands over at most one task, and only what the guards allow. *)
Theorem owner_uploads_guarded ctx r :
  (forall family object, current family object -> 0 <= PayloadSize (po_info object)) ->
  Forall (owner_may ctx r) (putObjectHandler g OperatorAddress maxPayloadSize GetLatestUpdatedTime a ctx r []).1 /\
  Forall (owner_may ctx r) (resumablePutObjectHandler g OperatorAddress a ctx r []).1.
Proof using Type.
  clear valid_bucket valid_object IsSQLInjection parse_error. intros Hsize.
  assert (emits (owner_may ctx r) (putObjectHandler g OperatorAddress maxPayloadSize GetLatestUpdatedTime a ctx r) (fun _ => True)) as Hput.
  { unfold putObjectHandler. next account Hctx. next u1 Hst. next u2 Hau. next [family object] Hcur. next u3 Hsz. next params Hpa.
    apply upload_task_spec. intros task Ht. exists account, family, object, params.
    apply size_checked in Hsz; [|by eapply Hsize]. tauto. }
  assert (emits (owner_may ctx r) (resumablePutObjectHandler g OperatorAddress a ctx r) (fun _ => True)) as Hres.
  { unfold resumablePutObjectHandler. next account Hctx. next u1 Hst. next u2 Hau. next [family o] Ho. next params Hpa. next object Hs.
    assert (current family object) as Hcur by (by exists o).
    next u3 Hsz. eapply emits_bind; [apply part_of_spec|]. intros part Hpart. apply (resumable_task_spec _ r); [done|].
    intros task Ht. exists account, family, object, params. apply size_checked in Hsz; [|by eapply Hsize]. tauto. }
  split; by eapply emits_run.
Qed.

(** ** Agents *)

Lemma create_object_emits (P : effect -> Prop) refused msg fingerprint :
  P (AskApproval msg fingerprint) -> (pa_approval a = Ok true -> P (CreateObject msg)) ->
  emits P (create_object a refused msg fingerprint) (fun tx => pa_create a = Ok tx).
Proof.
  intros H1 H2. unfold create_object. eapply emits_bind; [by apply emits_emit|intros _ _]. next approved Ha.
  eapply (emits_bind _ _ _ (fun _ => approved = true)); [apply emits_pure; by destruct approved|intros _ ->].
  eapply emits_bind; [by apply emits_emit, H2|intros _ _]. apply emits_or_return.
Qed.

Lemma confirm_spec (P : effect -> Prop) tx : (shouldConfirmCosmosTx tx = true -> P (Confirm tx)) -> emits P (confirm a tx) (fun _ => True).
Proof.
  intros HP. unfold confirm. destruct (shouldConfirmCosmosTx tx); [|by apply emits_ret].
  eapply emits_bind; [by apply emits_emit, HP|intros _ _]. eapply emits_weaken; [apply emits_no_error|done].
Qed.

Lemma parsed_bool_spec P s : emits P (parsed_bool parse_error s) (fun b => ParseBool s = Some b).
Proof. apply emits_pure. unfold parsed_bool. by destruct (ParseBool s). Qed.
Lemma parsed_uint_spec P s : emits P (parsed_uint parse_error s) (fun n => ParseUint s 64 = Ok n).
Proof. apply emits_pure. unfold parsed_uint. by destruct (ParseUint s 64). Qed.
Lemma names_spec P r :
  emits P (check_names valid_bucket valid_object r) (fun _ => valid_bucket (vars r "bucket") = None /\ valid_object (vars r "object") = None).
Proof. unfold check_names. next u H1. eapply emits_weaken; [apply emits_no_error|done]. Qed.
Lemma fingerprint_spec P r : emits P (fingerprint_of GenerateChecksum r) (fun _ => True).
Proof. apply emits_pure. unfold fingerprint_of. by destruct (DecodeString _). Qed.
Lemma visibility_spec P r :
  emits P (visibility_of visibility_types VISIBILITY_TYPE_INHERIT parse_error r)
    (fun v => v = VISIBILITY_TYPE_INHERIT \/ 0 < v < visibility_types).
Proof.
  apply emits_pure. intros t. unfold visibility_of. destruct (ParseInt _ _) as [v|]; [|done].
  destruct (_ || _) eqn:E; [done|]. split; [done|]. cbn. destruct (Z.eqb_spec v 0); [by left|right]. lia.
Qed.
Hint Resolve parsed_bool_spec parsed_uint_spec names_spec fingerprint_spec visibility_spec part_of_spec : emits.

(** The account of the request acts on an object with a fair name, while the bucket is in
    service: it may update the object's content, or create it with a visibility. *)
Definition agent_of (ctx : string * option goerror) (r : request) (account : string) : Prop :=
  ctx = (account, None) /\ in_service account /\ valid_bucket (vars r "bucket") = None /\ valid_object (vars r "object") = None /\
  bad_name IsSQLInjection (vars r "object") = false.

Definition may_create (r : request) (account : string) (sizes : Z -> Prop) (msg : delegate_create) : Prop :=
  pa_auth a AuthOpTypeAgentPutObject = Ok true /\ (exists e, pa_object a = Err e /\ no_such_object e = true) /\
  dc_Operator msg = OperatorAddress /\ dc_Creator msg = account /\ dc_BucketName msg = vars r "bucket" /\ dc_ObjectName msg = vars r "object" /\
  sizes (dc_PayloadSize msg) /\ (dc_Visibility msg = VISIBILITY_TYPE_INHERIT \/ 0 < dc_Visibility msg < visibility_types).

(** What an agent's request may do.  An object is created only if the approver has approved. *)
Definition agent_may (ctx : string * option goerror) (r : request) (sizes : Z -> Prop) (e : effect) : Prop :=
  exists account, agent_of ctx r account /\
    match e with
    | AskApproval msg _ => may_create r account sizes msg
    | CreateObject msg => may_create r account sizes msg /\ pa_approval a = Ok true
    | UpdateContent msg =>
      pa_auth a AuthOpTypeAgentUpdateObject = Ok true /\ du_Updater msg = account /\ du_BucketName msg = vars r "bucket" /\
      du_ObjectName msg = vars r "object" /\ sizes (du_PayloadSize msg)
    | Confirm txHash => txHash <> ""%string /\ (pa_create a = Ok txHash \/ pa_update a = Ok txHash)
    | Upload task =>
      exists op family object params, pa_auth a (agent_op op) = Ok true /\ current family object /\ upload_of family object params true task
    | ResumableUpload task =>
      exists op family object params, pa_auth a (agent_op op) = Ok true /\ current family object /\ part_upload_of r family object params true task
    end.

Lemma confirmed tx : shouldConfirmCosmosTx tx = true -> tx <> ""%string.
Proof. unfold shouldConfirmCosmosTx. intros H ->. by cbn in H. Qed.

Definition payload_in (max : result string Params) (size : Z) : Prop := exists params, max = Ok params /\ 0 < size <= MaxPayloadSize params.

Lemma parse_uint_nonneg s n max size : 0 <= n -> parse_uint_loop s n max = Ok size -> 0 <= size.
Proof.
  revert n. induction s as [|c s IH]; cbn; intros n Hn; [by intros [= <-]|]. unfold digit_val.
  destruct (_ && _) eqn:E; [|done]. destruct (_ >? max); [done|]. apply IH. lia.
Qed.

Lemma parsed_size s params size : ParseUint s 64 = Ok size -> negb ((size =? 0) || (size >? MaxPayloadSize params)) = true ->
  0 < size <= MaxPayloadSize params.
Proof. intros Hp. apply size_checked. unfold ParseUint in Hp. destruct s; [done|]. by eapply parse_uint_nonneg. Qed.

Lemma update_allowed ctx r account sizes size :
  agent_of ctx r account -> pa_auth a (agent_op true) = Ok true -> sizes size ->
  agent_may ctx r sizes (UpdateContent (update_msg account r size)).
Proof. intros Ha Hau Hs. by exists account. Qed.

Lemma create_allowed ctx r account sizes size visibility e fingerprint :
  agent_of ctx r account -> pa_auth a (agent_op false) = Ok true -> sizes size -> pa_object a = Err e -> no_such_object e = true ->
  visibility = VISIBILITY_TYPE_INHERIT \/ 0 < visibility < visibility_types ->
  let msg := create_msg OperatorAddress account r size visibility in
  agent_may ctx r sizes (AskApproval msg fingerprint) /\ (pa_approval a = Ok true -> agent_may ctx r sizes (CreateObject msg)).
Proof.
  intros Ha Hau Hs Ho He Hv msg. assert (may_create r account sizes msg) by (split_and!; by eauto).
  split; [by exists account|]. intros Hap. by exists account.
Qed.

Lemma confirm_allowed ctx r account sizes tx :
  agent_of ctx r account -> tx = ""%string \/ pa_create a = Ok tx \/ pa_update a = Ok tx ->
  emits (agent_may ctx r sizes) (confirm a tx) (fun _ => True).
Proof. intros Ha Htx. apply confirm_spec. intros Hne%confirmed. exists account. split; [done|]. split; [done|]. naive_solver. Qed.

(** A transaction of the request, if there is one. *)
Definition own_tx (tx : string) : Prop := tx = ""%string \/ pa_create a = Ok tx \/ pa_update a = Ok tx.

Lemma delegate_put_spec ctx r :
  emits (agent_may ctx r (payload_in (pa_params_at a (pa_clock a 2))))
    (delegatePutObjectHandler g OperatorAddress valid_bucket valid_object IsSQLInjection GenerateChecksum visibility_types
       VISIBILITY_TYPE_INHERIT parse_error a ctx r) (fun _ => True).
Proof.
  unfold delegatePutObjectHandler. next account Hctx. next isUpdate Hu. next u1 Hn. next u2 Hau. next u3 Hbad%negb_true_iff. next params Hpa.
  next size Hsize. next u4 Hsz. next u5 Hst. next fingerprint Hf. destruct Hn as [Hvb Hvo].
  assert (agent_of ctx r account) as Ha by (by split_and!).
  assert (payload_in (pa_params_at a (pa_clock a 2)) size) as Hs by (exists params; split; [done|by eapply parsed_size]).
  eapply (emits_bind _ _ _ own_tx).
  - destruct isUpdate.
    + eapply emits_bind; [by apply emits_emit, update_allowed|intros _ _]. eapply emits_weaken; [apply emits_or_return|]. intros tx Htx. by right; right.
    + destruct (pa_object a) as [object|e] eqn:Ho.
      * next u6 Hc. apply emits_ret. by left.
      * destruct (no_such_object e) eqn:He; cbn [negb]; [|apply emits_reject]. next visibility Hv.
        destruct (create_allowed ctx r account _ size visibility e fingerprint Ha Hau Hs Ho He Hv).
        eapply emits_weaken; [by apply create_object_emits|]. intros tx Htx. by right; left.
  - intros tx Htx. eapply emits_bind; [by eapply confirm_allowed|intros _ _]. next [family object] Hcur.
    apply upload_task_spec. intros task Ht. exists account. split; [done|]. by exists isUpdate, family, object, params.
Qed.

Lemma delegate_resumable_spec ctx r :
  emits (agent_may ctx r (payload_in (pa_params a)))
    (delegateResumablePutObjectHandler g OperatorAddress valid_bucket valid_object IsSQLInjection GenerateChecksum visibility_types
       VISIBILITY_TYPE_INHERIT parse_error a ctx r) (fun _ => True).
Proof.
  unfold delegateResumablePutObjectHandler. next account Hctx. next isUpdate Hu. next u1 Hn. next u3 Hbad%negb_true_iff. next u5 Hst.
  next size Hsize. next params Hpa. next u4 Hsz. next u2 Hau. next fingerprint Hf. destruct Hn as [Hvb Hvo].
  assert (pa_auth a (agent_op isUpdate) = Ok true) as Hau' by (destruct (pa_auth a (agent_op isUpdate)); congruence).
  assert (agent_of ctx r account) as Ha by (by split_and!).
  assert (payload_in (pa_params a) size) as Hs by (exists params; split; [done|by eapply parsed_size]).
  eapply (emits_bind _ _ _ own_tx).
  - destruct isUpdate.
    + next object Ho. destruct (ObjIsUpdating _); [apply emits_ret; by left|].
      eapply emits_bind; [by apply emits_emit, update_allowed|intros _ _]. eapply emits_weaken; [apply emits_or_return|]. intros tx Htx. by right; right.
    + next visibility Hv. destruct (pa_object a) as [object|e] eqn:Ho.
      * destruct (bool_decide (po_status object = _)); cbn [negb]; [|apply emits_exit]. apply emits_ret. by left.
      * destruct (no_such_object e) eqn:He; [|apply emits_reject].
        destruct (create_allowed ctx r account _ size visibility e fingerprint Ha Hau' Hs Ho He Hv).
        eapply emits_weaken; [by apply create_object_emits|]. intros tx Htx. by right; left.
  - intros tx Htx. eapply emits_bind; [by eapply confirm_allowed|intros _ _]. next [family object] Hcur. next part Hpart.
    apply (resumable_task_spec _ r); [done|]. intros task Ht. exists account. split; [done|]. by exists isUpdate, family, object, params.
Qed.

Lemma delegate_folder_spec ctx r :
  emits (agent_may ctx r (fun size => size = 0))
    (delegateCreateFolderHandler OperatorAddress valid_bucket valid_object IsSQLInjection GenerateChecksum visibility_types
       VISIBILITY_TYPE_INHERIT parse_error a ctx r) (fun _ => True).
Proof.
  unfold delegateCreateFolderHandler. next account Hctx. next u1 Hn. next u2 Hau. next u3 Hbad%negb_true_iff. next u5 Hst. next fingerprint Hf.
  destruct Hn as [Hvb Hvo]. assert (agent_of ctx r account) as Ha by (by split_and!).
  destruct (pa_object a) as [object|e] eqn:Ho; [apply emits_reject|]. destruct (no_such_object e) eqn:He; cbn [negb]; [|apply emits_reject].
  next visibility Hv. destruct (create_allowed ctx r account (fun size => size = 0) 0 visibility e fingerprint Ha Hau eq_refl Ho He Hv).
  eapply emits_bind; [by apply create_object_emits|]. intros tx Htx.
  eapply emits_bind; [eapply confirm_allowed; [done|by right; left]|intros _ _]. by apply emits_ret.
Qed.

(** C6: Whatever is answered, an agent's request only does what the guards allow: the
    account of the request is permitted to put or to update the object, and an object is
    only created if the chain knows of none with its name and after the approver has agreed.
    An approval that is asked for and a message that is sent name a payload within the
    chain's limit (none for a folder). What is uploaded is the object on the chain, or its
    shadow while it is updated; its payload is not compared with the limit again. *)
Theorem agent_effects_guarded ctx r :
  Forall (agent_may ctx r (payload_in (pa_params_at a (pa_clock a 2))))
    (delegatePutObjectHandler g OperatorAddress valid_bucket valid_object IsSQLInjection GenerateChecksum visibility_types
       VISIBILITY_TYPE_INHERIT parse_error a ctx r []).1 /\
  Forall (agent_may ctx r (payload_in (pa_params a)))
    (delegateResumablePutObjectHandler g OperatorAddress valid_bucket valid_object IsSQLInjection GenerateChecksum visibility_types
       VISIBILITY_TYPE_INHERIT parse_error a ctx r []).1 /\
  Forall (agent_may ctx r (fun size => size = 0))
    (delegateCreateFolderHandler OperatorAddress valid_bucket valid_object IsSQLInjection GenerateChecksum visibility_types
       VISIBILITY_TYPE_INHERIT parse_error a ctx r []).1.
Proof. split_and!; eapply emits_run; [apply delegate_put_spec|apply delegate_resumable_spec|apply delegate_folder_spec]. Qed.

(** ** Answers without an error *)

Definition not_upload (e : effect) : Prop := match e with Upload _ | ResumableUpload _ => False | _ => True end.

(** The computation exits without an error only because of [P], and then uploads nothing. *)
Definition silent {A} (P : Prop) (m : hm A) : Prop :=
  forall t, (m t).2 = Exit None -> P /\ exists es, (m t).1 = t ++ es /\ Forall not_upload es.

Lemma silent_bind {A B} P (m : hm A) (f : A -> hm B) :
  silent P m -> emits not_upload m (fun _ => True) -> (forall a, silent P (f a)) -> silent P (m ≫= f).
Proof.
  intros Hm He Hf t. unfold mbind, hm_bind. specialize (Hm t). destruct (He t) as (es & Ht & Hes & _).
  destruct (m t) as [t1 s]. cbn in *. subst t1. destruct s as [x| |]; [|intros H; injection H as ->; by apply Hm|done].
  intros H. destruct (Hf x _ H) as (HP & es' & Ht' & Hes'). split; [done|]. exists (es ++ es'). rewrite Ht', app_assoc.
  split; [done|by apply Forall_app].
Qed.

(** Steps that fail with an error, if at all. *)
Definition loud {A} (m : hm A) : Prop := forall t, (m t).2 <> Exit None.
Lemma loud_silent {A} P (m : hm A) : loud m -> silent P m.
Proof. intros Hm t H. by destruct (Hm t). Qed.

Lemma loud_bind {A B} (m : hm A) (f : A -> hm B) : loud m -> (forall a, loud (f a)) -> loud (m ≫= f).
Proof. intros Hm Hf t. unfold mbind, hm_bind. specialize (Hm t). destruct (m t) as [t1 [x| |] ]; [apply Hf|intros [= ->]; by apply Hm|done]. Qed.
Lemma loud_ret {A} (x : A) : loud (mret x). Proof. done. Qed.
Lemma loud_reject {A} e : loud (reject e : hm A). Proof. done. Qed.
Lemma loud_emit e : loud (emit e). Proof. done. Qed.
Lemma loud_check b e : loud (check b e). Proof. by destruct b. Qed.
Lemma loud_or_fail {A} wrap (r : result string A) : loud (or_fail wrap r). Proof. by destruct r. Qed.
Lemma loud_or_return {A} (r : result goerror A) : loud (or_return r). Proof. by destruct r. Qed.
Lemma loud_no_error e : loud (no_error e). Proof. by destruct e. Qed.
Lemma loud_timeout size : loud (task_timeout g size). Proof. intros t. unfold task_timeout. by destruct (TaskTimeout _ _ _). Qed.
Hint Resolve loud_bind loud_ret loud_reject loud_emit loud_check loud_or_fail loud_or_return loud_no_error loud_timeout : emits.

Lemma loud_status b c : loud (checkSPAndBucketStatus OperatorAddress a b c).
Proof. unfold checkSPAndBucketStatus. auto 10 with emits. Qed.
Lemma loud_authenticate op : loud (authenticate a op).
Proof. unfold authenticate. auto with emits. Qed.
Lemma loud_infos r : loud (query_infos a r).
Proof. unfold query_infos. apply loud_bind; [auto with emits|intros [? ?] ]. auto with emits. Qed.
Lemma loud_enter ctx : loud (enter_request ctx).
Proof. unfold enter_request. auto with emits. Qed.
Lemma loud_names r : loud (check_names valid_bucket valid_object r).
Proof. unfold check_names. auto with emits. Qed.
Lemma loud_bool s : loud (parsed_bool parse_error s).
Proof. unfold parsed_bool. destruct (ParseBool s); auto with emits. Qed.
Lemma loud_uint s : loud (parsed_uint parse_error s).
Proof. unfold parsed_uint. destruct (ParseUint s 64); auto with emits. Qed.
Lemma loud_fingerprint r : loud (fingerprint_of GenerateChecksum r).
Proof. unfold fingerprint_of. destruct (DecodeString _); auto with emits. Qed.
Lemma loud_visibility r : loud (visibility_of visibility_types VISIBILITY_TYPE_INHERIT parse_error r).
Proof. unfold visibility_of. destruct (ParseInt _ _); [destruct (_ || _)|]; auto with emits. Qed.
Lemma loud_part r : loud (part_of r).
Proof. unfold part_of. destruct (ParseBool _); [destruct (ParseUint _ _)|]; auto with emits. Qed.
Lemma loud_confirm tx : loud (confirm a tx).
Proof. unfold confirm. destruct (shouldConfirmCosmosTx tx); auto with emits. Qed.
Lemma loud_upload family object params agent : loud (upload_task g a family object params agent).
Proof. unfold upload_task. auto with emits. Qed.
Lemma loud_resumable family object params part agent : loud (resumable_task g a family object params part agent).
Proof. unfold resumable_task. auto with emits. Qed.
Hint Resolve loud_status loud_authenticate loud_infos loud_enter loud_names loud_bool loud_uint loud_fingerprint loud_visibility loud_part
  loud_confirm loud_upload loud_resumable loud_silent : emits.

Lemma create_silent msg fingerprint : silent (pa_approval a = Ok false) (create_object a None msg fingerprint).
Proof.
  intros t. unfold create_object, or_return, mbind, hm_bind. cbn. destruct (pa_approval a) as [ [] |]; cbn; [by destruct (pa_create a)| |done].
  intros _. split; [done|]. eexists. split; [reflexivity|]. by constructor.
Qed.

Lemma create_loud err msg fingerprint : loud (create_object a (Some err) msg fingerprint).
Proof.
  intros t. unfold create_object, or_return, mbind, hm_bind. cbn. destruct (pa_approval a) as [ [] |]; cbn; [by destruct (pa_create a)|done..].
Qed.

Lemma not_upload_create refused msg fingerprint : emits not_upload (create_object a refused msg fingerprint) (fun _ => True).
Proof. eapply emits_weaken; [by apply create_object_emits|done]. Qed.

(** A step of a handler that cannot exit silently, before what may. *)
Tactic Notation "quiet" simple_intropattern(x) :=
  apply silent_bind; [solve [auto with emits]|solve [eapply emits_weaken; [eauto with emits|done] ]|intros x].

(** A computation that continues has done [Q] last. *)
Definition lastly {A} (Q : effect -> Prop) (m : hm A) : Prop :=
  forall t x, (m t).2 = Continue x -> exists e, list.last (m t).1 = Some e /\ Q e.

Lemma lastly_bind {A B} Q (m : hm A) (f : A -> hm B) : (forall x, lastly Q (f x)) -> lastly Q (m ≫= f).
Proof. intros Hf t y. unfold mbind, hm_bind. destruct (m t) as [t1 [x| |] ]; [apply Hf|done..]. Qed.

Lemma lastly_emit (Q : effect -> Prop) e (err : option goerror) : (err = None -> Q e) -> lastly Q (emit e;; no_error err).
Proof.
  intros HQ t x. unfold emit, no_error, mbind, hm_bind. destruct err; cbn; [done|]. intros _. exists e. by rewrite last_snoc; auto.
Qed.

Lemma lastly_upload family object params agent :
  lastly (fun e => (exists task, e = Upload task) /\ pa_upload a = None)
    (upload_task g a family object params agent).
Proof. unfold upload_task. apply lastly_bind. intros timeout. apply lastly_emit. eauto. Qed.

Lemma lastly_resumable family object params part agent :
  lastly (fun e => (exists task, e = ResumableUpload task) /\ pa_upload a = None)
    (resumable_task g a family object params part agent).
Proof. unfold resumable_task. apply lastly_bind. intros timeout. apply lastly_emit. eauto. Qed.

(** C37: An agent's put that ends without an error has handed its task to the uploader as its
    last effect, and the uploader has answered without an error; or nothing was handed over
    because the approver has refused (the upload of a whole object), or the object is not
    to be uploaded any more (of a part): these requests end early, without an error. *)
Theorem silent_agent_requests ctx r :
  let put := delegatePutObjectHandler g OperatorAddress valid_bucket valid_object IsSQLInjection GenerateChecksum visibility_types
    VISIBILITY_TYPE_INHERIT parse_error a ctx r [] in
  let part := delegateResumablePutObjectHandler g OperatorAddress valid_bucket valid_object IsSQLInjection GenerateChecksum visibility_types
    VISIBILITY_TYPE_INHERIT parse_error a ctx r [] in
  (put.2 = Continue tt -> exists task, list.last put.1 = Some (Upload task) /\ pa_upload a = None) /\
  (part.2 = Continue tt -> exists task, list.last part.1 = Some (ResumableUpload task) /\ pa_upload a = None) /\
  (put.2 = Exit None -> pa_approval a = Ok false /\ Forall not_upload put.1) /\
  (part.2 = Exit None -> (exists object, pa_object a = Ok object /\ po_status object <> OBJECT_STATUS_CREATED) /\ Forall not_upload part.1).
Proof.
  assert (silent (pa_approval a = Ok false) (delegatePutObjectHandler g OperatorAddress valid_bucket valid_object IsSQLInjection
    GenerateChecksum visibility_types VISIBILITY_TYPE_INHERIT parse_error a ctx r)) as H1.
  { unfold delegatePutObjectHandler. quiet account. quiet isUpdate. quiet u1. quiet u2. quiet u3. quiet params. quiet size. quiet u4. quiet u5. quiet f.
    apply silent_bind.
    - destruct isUpdate; [auto with emits|]. destruct (pa_object a) as [object|e]; [auto with emits|]. destruct (negb _); [auto with emits|].
      quiet v. apply create_silent.
    - destruct isUpdate; [eapply emits_bind; [by apply emits_emit|intros _ _]; eapply emits_weaken; [apply emits_or_return|done] |].
      destruct (pa_object a) as [object|e]; [next u6 H6; by apply emits_ret|]. destruct (negb _); [apply emits_reject|]. next v Hv. apply not_upload_create.
    - intros tx. apply loud_silent, loud_bind; [auto with emits|intros _]. apply loud_bind; [auto with emits|intros [family object] ]. auto with emits. }
  assert (silent (exists object, pa_object a = Ok object /\ po_status object <> OBJECT_STATUS_CREATED) (delegateResumablePutObjectHandler g OperatorAddress
    valid_bucket valid_object IsSQLInjection GenerateChecksum visibility_types VISIBILITY_TYPE_INHERIT parse_error a ctx r)) as H2.
  { unfold delegateResumablePutObjectHandler. quiet account. quiet isUpdate. quiet u1. quiet u2. quiet u3. quiet size. quiet params. quiet u4. quiet u5. quiet f.
    apply silent_bind.
    - destruct isUpdate; [apply loud_silent, loud_bind; [auto with emits|intros object]; destruct (ObjIsUpdating _); auto with emits|]. quiet v.
      destruct (pa_object a) as [object|e] eqn:Ho; [|destruct (no_such_object e); [apply loud_silent, create_loud|auto with emits] ].
      destruct (bool_decide (po_status object = _)) eqn:Hs; cbn [negb]; [auto with emits|]. apply bool_decide_eq_false in Hs.
      intros t _. split; [by exists object|]. exists []. by rewrite app_nil_r.
    - destruct isUpdate.
      { next object Ho. destruct (ObjIsUpdating _); [by apply emits_ret|].
        eapply emits_bind; [by apply emits_emit|intros _ _]; eapply emits_weaken; [apply emits_or_return|done]. }
      next v Hv. destruct (pa_object a) as [object|e]; [|destruct (no_such_object e); [apply not_upload_create|apply emits_reject] ].
      destruct (bool_decide (po_status object = _)); cbn [negb]; [by apply emits_ret|apply emits_exit].
    - intros tx. apply loud_silent, loud_bind; [auto with emits|intros _]. apply loud_bind; [auto with emits|intros [family object] ]. auto with emits. }
  cbv zeta. split_and!; intros H; [| |destruct (H1 _ H) as (? & es & -> & ?); done|destruct (H2 _ H) as (? & es & -> & ?); done].
  - assert (lastly (fun e => (exists task, e = Upload task) /\ pa_upload a = None) (delegatePutObjectHandler g OperatorAddress valid_bucket valid_object
      IsSQLInjection GenerateChecksum visibility_types VISIBILITY_TYPE_INHERIT parse_error a ctx r)) as HL.
    { unfold delegatePutObjectHandler. do 12 (apply lastly_bind; intros ?). apply lastly_bind. intros [family object]. apply lastly_upload. }
    destruct (HL _ _ H) as (e & He & [task ->] & Hu). by exists task.
  - assert (lastly (fun e => (exists task, e = ResumableUpload task) /\ pa_upload a = None) (delegateResumablePutObjectHandler g OperatorAddress
      valid_bucket valid_object IsSQLInjection GenerateChecksum visibility_types VISIBILITY_TYPE_INHERIT parse_error a ctx r)) as HL.
    { unfold delegateResumablePutObjectHandler. do 12 (apply lastly_bind; intros ?). apply lastly_bind. intros [family object]. apply lastly_bind. intros part. apply lastly_resumable. }
    destruct (HL _ _ H) as (e & He & [task ->] & Hu). by exists task.
Qed.
End guards.

(** ** Resuming *)

Section resume.
Context (GenerateChecksum : bytes -> bytes) (checksum_nonempty : forall b, GenerateChecksum b <> []).
Context (ErrGfSpDBWithDetail : db_error -> GfSpError) (json_text proto_text : GfSpError -> string).
Context (GetLatestUpdatedTime : Z -> Z -> Z) (a : put_answers) (info : UploadInfo) (P : bytes) (object : put_object) (params : Params).

Let max : Z := MaxSegmentSize params.
Let n : nat := Z.to_nat (MaxSegmentPieceSize (len P) max).

(** The uploader has recorded [k] segments of the object, which is not being updated. *)
Record uploading (k : nat) (d : spdb) : Prop := {
  up_auth : pa_auth a AuthOpTypeGetUploadingState = Ok true;
  up_object : pa_object a = Ok object;
  up_id : ObjId (po_info object) = Id info;
  up_params : pa_params_at a (latest GetLatestUpdatedTime object) = Ok params;
  up_new : IsUpdating info = false;
  up_max : 0 < max <= MaxInt64;
  up_len : 0 < len P <= MaxInt64;
  up_count : Z.of_nat (segments_count n P) <= MaxUint32;
  up_progress : progress GenerateChecksum info n P k (tabs d);
  up_db : fates d (calls d) = Committed;
}.

(** What the database answers. *)
Lemma recorded k d :
  uploading k d ->
  match k with
  | O => (GetObjectIntegrity (Id info) (-1) d).2 = Err (DbErr ErrRecordNotFound)
  | S _ => exists m, (GetObjectIntegrity (Id info) (-1) d).2 = Ok m /\ length (PieceChecksumList m) = k /\ ObjectSize m = size_upto n P k
  end.
Proof using checksum_nonempty.
  intros [_ _ _ _ Hnew _ _ _ [_ Hrow] Hf]. unfold row_of in Hrow. rewrite Hnew in Hrow. change PrimarySPRedundancyIndex with (-1) in Hrow.
  unfold GetObjectIntegrity, query. rewrite Hf. cbn [snd].
  destruct k as [|k]; [by destruct (integrity_table _ _ !! _)|]. destruct Hrow as [h Hrow].
  destruct (integrity_table _ _ !! _) as [row|]; [|done]. injection Hrow as -> -> ->.
  rewrite DecodeString_EncodeToString, checksum_list_text, cs_nonempty by done. eexists. split; [done|]. cbn [PieceChecksumList ObjectSize].
  split; [|done]. unfold checksums_of. by rewrite length_fmap, length_seq.
Qed.

Notation answer account d r := (queryResumeOffsetHandler ErrGfSpDBWithDetail json_text proto_text GetLatestUpdatedTime a (account, None) r d).2.

Lemma resume_answer account k d r :
  uploading k d ->
  answer account d r = match k with
                     | O => if decide (json_text ErrNoRecord = proto_text ErrNoRecord) then Continue 0 else Exit (Some (GfSpErr ErrNoRecord))
                     | S _ => Continue (uwrap 64 (Z.of_nat k * max))
                     end.
Proof using checksum_nonempty.
  intros Hup. pose proof (recorded k d Hup) as Hrec. destruct Hup as [Hau Hob Hid Hpa _ Hmax _ Hcount [Hk _] _].
  unfold queryResumeOffsetHandler, enter_request, authenticate, mbind, hm_bind. cbn -[GfSpQueryResumableUploadSegment uwrap]. rewrite Hau. cbn -[GfSpQueryResumableUploadSegment uwrap].
  rewrite Hob. cbn -[GfSpQueryResumableUploadSegment uwrap]. rewrite Hpa. cbn -[GfSpQueryResumableUploadSegment uwrap].
  rewrite Hid. unfold GfSpQueryResumableUploadSegment. change PrimarySPRedundancyIndex with (-1).
  destruct (GetObjectIntegrity (Id info) (-1) d) as [d1 s]. cbn -[uwrap] in Hrec |- *.
  destruct k as [|k]; [subst s; cbn -[uwrap]; by case_decide|].
  destruct Hrec as (m & -> & Hl & _). cbn. rewrite Hl. do 2 f_equal. f_equal. unfold uwrap. rewrite Z.mod_small; go_lia.
Qed.

(** A part of the object that begins at an offset. *)
Definition part_at (task : GfSpResumableUploadObjectTask.t) (offset : Z) : Prop :=
  PayloadSize (GfSpResumableUploadObjectTask.ObjectInfo_ task) = len P /\
  MaxSegmentSize (GfSpResumableUploadObjectTask.StorageParams task) = max /\ GfSpResumableUploadObjectTask.Offset task = offset.

Lemma max_segment k d : uploading k d -> n = Z.to_nat (Z.min (len P) max) /\ (0 < n)%nat.
Proof.
  intros [_ _ _ _ _ Hmax Hlen _ _ _]. unfold n, MaxSegmentPieceSize. destruct (Z.gtb_spec (len P) max); rewrite int64_wrap_id by go_lia; lia.
Qed.

(** C21: While a resumable upload of a new object (not the update of one) is under way, and
    the segment size has not changed since it began, the offset that the gateway reports is
    the number of bytes recorded so far, and the uploader accepts a part that begins there,
    if its task has the same payload and segment size. *)
Theorem resume_offset_accepted account k d r task :
  uploading k d -> (0 < k < segments_count n P)%nat -> part_at task (Z.of_nat k * max) ->
  answer account d r = Continue (size_upto n P k) /\ size_upto n P k = Z.of_nat k * max /\
  (validateResumableUploadOffset info task d).2 = None.
Proof using checksum_nonempty.
  intros Hup Hk (Hsize & Hm & Hoff). rewrite (resume_answer account k d r Hup). pose proof (recorded k d Hup) as Hrec.
  destruct (max_segment k d Hup) as [Hn Hn0]. destruct Hup as [_ _ _ _ Hnew Hmax Hlen _ _ _].
  assert (k * n < length P)%nat as Hkn by (apply count_spec; lia). assert (max < len P) as Hlt by (unfold len in *; nia).
  assert (Z.of_nat n = max) as Hnm by lia. assert (size_upto n P k = Z.of_nat k * max) as Hs by (unfold size_upto, len in *; nia).
  assert (Z.of_nat k * max < len P) as Hko by (unfold len in *; nia).
  destruct k as [|k]; [lia|]. destruct Hrec as (m & Hg & _ & Hms). rewrite Hs. rewrite uint64_wrap_id by go_lia. split_and!; [done|done|].
  unfold validateResumableUploadOffset. rewrite Hsize, Hm, Hoff, Hnew. destruct (Z.eqb_spec max 0); [lia|].
  destruct (Z.gtb_spec (len P) max); [|lia]. destruct (Z.gtb_spec (Z.of_nat (S k) * max) (len P)); [lia|].
  destruct (Z.eqb_spec (Z.of_nat (S k) * max) (len P)); [lia|]. rewrite Z_mod_mult, andb_false_r. cbn [orb andb negb Z.eqb].
  change PrimarySPRedundancyIndex with (-1). destruct (GetObjectIntegrity (Id info) (-1) d) as [d1 res]. cbn in Hg. subst res. cbn.
  rewrite Hms, Hs. by destruct (Z.gtb_spec (Z.of_nat (S k) * max) (Z.of_nat (S k) * max)); [lia|].
Qed.

(** At both ends of a resumable upload of a new object (not the update of one) the
    report is of no use. Before the first segment is recorded the answer is an error,
    although the code means to ignore it: it compares the JSON text of the error with the
    protobuf text of another. When all segments are recorded but the last one is not full,
    the offset lies behind the payload, and the uploader refuses a task of the same payload
    and segment size that begins there. *)
Theorem resume_offset_useless account k d r task :
  (forall e, exists s, json_text e = String "{" s) -> (forall e s, proto_text e <> String "{" s) ->
  uploading k d ->
  (k = 0%nat -> answer account d r = Exit (Some (GfSpErr ErrNoRecord))) /\
  (k = segments_count n P -> len P mod max <> 0 -> part_at task (Z.of_nat k * max) ->
     Z.of_nat k * max <= MaxUint64 -> answer account d r = Continue (Z.of_nat k * max) /\ len P < Z.of_nat k * max /\
     (validateResumableUploadOffset info task d).2 = Some ErrInvalidResumeOffset).
Proof using checksum_nonempty.
  intros Hj Hp Hup. rewrite (resume_answer account k d r Hup). destruct (max_segment k d Hup) as [Hn Hn0]. destruct Hup as [_ _ _ _ _ Hmax Hlen _ _ _]. split.
  - intros ->. destruct (Hj ErrNoRecord) as [s Hs]. rewrite decide_False; [done|]. rewrite Hs. intros E. by destruct (Hp ErrNoRecord s).
  - intros Hk Hmod (Hsize & Hm & Hoff) Hk64. assert (len P < Z.of_nat k * max) as Hbeyond.
    { assert (~ (k < segments_count n P)%nat) as Hge by lia. rewrite count_spec in Hge by done.
      assert (0 < k)%nat by (rewrite Hk; apply count_spec; unfold len in *; lia).
      destruct (Z.le_gt_cases (len P) max) as [Hle|Hgt].
      - assert (len P <> max) by (intros E; rewrite E in Hmod; by rewrite Z_mod_same_full in Hmod). nia.
      - assert (Z.of_nat n = max) as Hnm by lia. assert (Z.of_nat k * max <> len P) by (intros E; rewrite <-E in Hmod; by rewrite Z_mod_mult in Hmod).
        unfold len in *. nia. }
    destruct k as [|k]; [lia|]. rewrite uint64_wrap_id by go_lia. split_and!; [done|done|].
    unfold validateResumableUploadOffset. rewrite Hsize, Hm, Hoff. destruct (Z.eqb_spec max 0); [lia|].
    by destruct (Z.gtb_spec (Z.of_nat (S k) * max) (len P)); [|lia].
Qed.
End resume.
