(* ===== verification/GateCases.v ===== *)
(** Concrete requests to the gateway: the universal endpoint serves a private object to the
    account that signed for it; five bytes in segments of two are put by their owner and by
    an agent, and resumed after two segments. *)
From Stdlib Require Import ZArith Lia String Ascii.
From stdpp Require Import base gmap list strings pretty option.
From S2P Require Import Prelude Strconv Sql Checksum Hex AuthDb Policy PolicyProps Authenticator RequestAuth AuthProps AuthCases Task Downloader GateDownload GateEndpoint Storage PieceStore PieceOp UploadDb TaskKey TaskTypes TQueue Uploader UploadFacts Resumable ResumableProgress GateUpload GateUploadProps.

Local Open Scope Z_scope.

(** ** The universal endpoint *)

Local Definition ex_signed : request :=
  mkRequest (ex_fields []) (ex_fields [("X-Gnfd-Expiry-Timestamp", "T200"); ("signature", "00")])%string ex_vars
    "DownloadObjectByUniversalEndpoint" (Some ""%string).
Local Definition ex_answers : endpoint_answers :=
  mkEndpoint (Ok (Some (mkEpBucket "bucket" "VISIBILITY_TYPE_PRIVATE" 1))) (Ok 7) (fun _ => Ok 7) (fun _ => Ok ""%string)
    (Ok (Some (mkEpObject "object" "VISIBILITY_TYPE_INHERIT" OBJECT_STATUS_SEALED))) ex_now Committed.

(** The response is the list of accounts it was served to. *)
Local Definition ex_endpoint (a : endpoint_answers) (r : request) : option (reply (list string)) :=
  getObjectByUniversalEndpointHandler ex_names ex_parse (fun _ => 0) ex_recover (fun _ => Some (replicate 65 Byte.x00)) (fun _ => [])
    ex_address (fun _ => true) (fun _ => true) id (ex_consensus (ex_tables 150)) 7 ErrForbidden (fun _ => ErrForbidden) (fun _ => None) id
    (fun _ _ w => w) (fun account w => Some (account :: w, None)) a r "/download/bucket/object" "" true [].

Lemma private_object_needs_signature_witness :
  ex_endpoint ex_answers ex_signed = Some (Replied [ex_alice] None) /\
  exists bucket object reader w1,
    ea_bucket ex_answers = Ok (Some bucket) /\ ea_object ex_answers = Ok (Some object) /\ private bucket object /\
    reader :: w1 = [ex_alice] /\
    signed_by ex_names ex_parse (fun _ => 0) ex_recover (fun _ => Some (replicate 65 Byte.x00)) (fun _ => []) ex_address id
      (ex_consensus (ex_tables 150)) 7 ex_answers ex_signed bucket object reader.
Proof.
  assert (ex_endpoint ex_answers ex_signed = Some (Replied [ex_alice] None)) as E by (by vm_compute).
  split; [exact E|].
  destruct (private_object_needs_signature ex_names ex_parse (fun _ => 0) ex_recover (fun _ => Some (replicate 65 Byte.x00)) (fun _ => [])
    ex_address (fun _ => true) (fun _ => true) id (ex_consensus (ex_tables 150)) 7 ErrForbidden (fun _ => ErrForbidden) (fun _ => None) id
    (fun _ _ w => w) (fun account w => Some (account :: w, None)) ex_answers ex_signed "/download/bucket/object" "" true [] [ex_alice] None ltac:(done) E)
    as [H|(bucket & object & reader & w1 & e1 & Hb & Ho & _ & _ & Hs & Hd & _)]; [done|].
  exists bucket, object, reader, w1. injection Hb as <-. injection Ho as <-. injection Hd as <- <- _.
  destruct Hs as [ [Hp Hs]|[Hp _] ]; [by split_and!|]. destruct Hp. by right.
Defined.

Lemma unknown_endpoint_empty_answer_witness :
  ex_endpoint (mkEndpoint (ea_bucket ex_answers) (Ok 8) (ea_family ex_answers) (ea_endpoint ex_answers) (ea_object ex_answers) ex_now Committed)
    ex_signed = Some (Replied [] None).
Proof.
  apply (unknown_endpoint_empty_answer ex_names ex_parse (fun _ => 0) ex_recover (fun _ => Some (replicate 65 Byte.x00)) (fun _ => [])
    ex_address (fun _ => true) (fun _ => true) id (ex_consensus (ex_tables 150)) 7 ErrForbidden (fun _ => ErrForbidden) (fun _ => None) id
    (fun _ _ w => w) (fun account w => Some (account :: w, None)) _ ex_signed "/download/bucket/object" "" true []
    (mkEpBucket "bucket" "VISIBILITY_TYPE_PRIVATE" 1) 8 7); reflexivity || lia.
Defined.

(** ** Uploads *)

Local Definition ex_options : app_options := mkAppOptions 100 100 100 90 300 300 300 1800 300 1800 3 3 1 3 3 3 3 2 2.
Local Definition ex_put_object (status : ObjectStatus) : put_object :=
  mkPutObject (mkObjectInfo "b" "o" 7 5 REDUNDANCY_EC_TYPE 0 false) status "alice" "alice" 10 10.
Local Definition ex_params : Params := mkParams 2 4 2 100.
Local Definition ex_answer (object : result string put_object) (approval : bool) : put_answers :=
  mkPut (Ok (mkSpInfo STATUS_IN_SERVICE "")) (Ok true) (fun _ => Ok true) (Ok (3, ex_put_object OBJECT_STATUS_CREATED)) object
    (Err ""%string) (fun _ => Ok ex_params) (Ok ex_params) (Ok approval) (Ok ""%string) (Ok ""%string) (fun _ => None) None 10 (fun _ => 10) id.
Local Definition ex_request : request :=
  mkRequest (fun _ => ""%string)
    (fun k => if decide (k = "payload_size"%string) then "5" else if decide (k = "offset"%string) then "4"
              else if decide (k = "visibility"%string) then "1" else "0")%string
    (fun k => if decide (k = "bucket"%string) then "b" else "o")%string "PutObject" (Some ""%string).
Local Definition ex_ctx : string * option goerror := ("alice"%string, None).

Lemma owner_uploads_guarded_witness :
  exists task,
    (putObjectHandler ex_options "sp" 100 Z.max (ex_answer (Ok (ex_put_object OBJECT_STATUS_CREATED)) true) ex_ctx ex_request []).1 = [Upload task] /\
    owner_may 100 Z.max (ex_answer (Ok (ex_put_object OBJECT_STATUS_CREATED)) true) ex_ctx ex_request (Upload task).
Proof.
  destruct (owner_uploads_guarded ex_options "sp" 100 Z.max (ex_answer (Ok (ex_put_object OBJECT_STATUS_CREATED)) true) ex_ctx ex_request)
    as [H _]; [intros family object (o & [= <- <-] & [= <-]); cbn; lia|].
  eexists. split; [reflexivity|]. by apply Forall_singleton.
Defined.

Local Definition ex_agent_put (a : put_answers) : list effect * step unit :=
  delegatePutObjectHandler ex_options "sp" (fun _ => None) (fun _ => None) (fun _ => false) id 4 3 OtherErr a ex_ctx ex_request [].
Local Definition ex_agent_part (a : put_answers) : list effect * step unit :=
  delegateResumablePutObjectHandler ex_options "sp" (fun _ => None) (fun _ => None) (fun _ => false) id 4 3 OtherErr a ex_ctx ex_request [].

(** Both silences happen: a refused approval, and a part of an object that is sealed. *)
Lemma silent_agent_requests_witness :
  let refused := ex_answer (Err "No such object"%string) false in
  let sealed := ex_answer (Ok (ex_put_object OBJECT_STATUS_SEALED)) true in
  (ex_agent_put refused).2 = Exit None /\ Forall not_upload (ex_agent_put refused).1 /\
  (ex_agent_part sealed).2 = Exit None /\ Forall not_upload (ex_agent_part sealed).1.
Proof.
  cbv zeta. set (refused := ex_answer (Err "No such object"%string) false). set (sealed := ex_answer (Ok (ex_put_object OBJECT_STATUS_SEALED)) true).
  assert ((ex_agent_put refused).2 = Exit None) as H1 by (by vm_compute). assert ((ex_agent_part sealed).2 = Exit None) as H2 by (by vm_compute).
  pose proof (silent_agent_requests ex_options "sp" (fun _ => None) (fun _ => None) (fun _ => false) id 4 3 OtherErr refused ex_ctx ex_request) as (_ & _ & S1 & _).
  pose proof (silent_agent_requests ex_options "sp" (fun _ => None) (fun _ => None) (fun _ => false) id 4 3 OtherErr sealed ex_ctx ex_request) as (_ & _ & _ & S2).
  split_and!; [exact H1|exact (proj2 (S1 H1))|exact H2|exact (proj2 (S2 H2))].
Defined.

(** ** Resuming *)

Local Definition ex_hash (b : bytes) : bytes := Byte.x00 :: b.
Local Definition ex_payload : bytes := [Byte.x61; Byte.x62; Byte.x63; Byte.x64; Byte.x65].
Local Definition ex_info : UploadInfo := mkUploadInfo 7 0 [] false true.
Local Definition ex_spdb (k : nat) : spdb :=
  mkSpdb (set_integrity_table 7
    (match k with O => ∅ | _ =>
       {[ (7, -1) := mkIntegrityRow 7 (-1) (EncodeToString []) (BytesSliceToString (checksums_of ex_hash 2 ex_payload k)) (size_upto 2 ex_payload k) ]} end)
    (mkTables ∅ ∅ ∅ ∅)) (fun _ => Committed) 0.
Local Definition ex_part (offset : Z) : GfSpResumableUploadObjectTask.t :=
  GfSpResumableUploadObjectTask.InitResumableUploadObjectTask 3 (po_info (ex_put_object OBJECT_STATUS_CREATED)) ex_params 60 false offset false 10 10.

Local Definition ex_uploading (k : nat) : Prop :=
  uploading ex_hash Z.max (ex_answer (Ok (ex_put_object OBJECT_STATUS_CREATED)) true) ex_info ex_payload (ex_put_object OBJECT_STATUS_CREATED) ex_params k (ex_spdb k).

Local Ltac solve_uploading :=
  split; [reflexivity..|vm_compute; split; [reflexivity|discriminate] |vm_compute; split; [reflexivity|discriminate] |vm_compute; discriminate| |reflexivity];
  split; [vm_compute; lia|vm_compute; try (by exists []); reflexivity].

Local Definition ex_resume (k : nat) : step Z :=
  (queryResumeOffsetHandler (fun _ => ErrNoRecord) (fun _ => "{}"%string) (fun _ => ""%string) Z.max
     (ex_answer (Ok (ex_put_object OBJECT_STATUS_CREATED)) true) ex_ctx ex_request (ex_spdb k)).2.

Lemma resume_offset_accepted_witness :
  ex_uploading 2 /\ ex_resume 2 = Continue 4 /\ (validateResumableUploadOffset ex_info (ex_part 4) (ex_spdb 2)).2 = None.
Proof.
  assert (ex_uploading 2) as Hup by solve_uploading. split; [exact Hup|].
  destruct (resume_offset_accepted ex_hash ltac:(done) (fun _ => ErrNoRecord) (fun _ => "{}"%string) (fun _ => ""%string) Z.max
    (ex_answer (Ok (ex_put_object OBJECT_STATUS_CREATED)) true) ex_info ex_payload (ex_put_object OBJECT_STATUS_CREATED) ex_params "alice" 2 (ex_spdb 2) ex_request
    (ex_part 4) Hup ltac:(vm_compute; lia) ltac:(by split_and!)) as (H1 & H2 & H3).
  split; [exact H1|exact H3].
Defined.

Lemma resume_offset_useless_witness :
  ex_uploading 0 /\ ex_resume 0 = Exit (Some (GfSpErr ErrNoRecord)) /\
  ex_uploading 3 /\ ex_resume 3 = Continue 6 /\ (validateResumableUploadOffset ex_info (ex_part 6) (ex_spdb 3)).2 = Some ErrInvalidResumeOffset.
Proof.
  assert (ex_uploading 0) as H0 by solve_uploading. assert (ex_uploading 3) as H3 by solve_uploading.
  destruct (resume_offset_useless ex_hash ltac:(done) (fun _ => ErrNoRecord) (fun _ => "{}"%string) (fun _ => ""%string) Z.max
    (ex_answer (Ok (ex_put_object OBJECT_STATUS_CREATED)) true) ex_info ex_payload (ex_put_object OBJECT_STATUS_CREATED) ex_params "alice" 0 (ex_spdb 0) ex_request
    (ex_part 6) ltac:(intros; by eexists) ltac:(done) H0) as [A _].
  destruct (resume_offset_useless ex_hash ltac:(done) (fun _ => ErrNoRecord) (fun _ => "{}"%string) (fun _ => ""%string) Z.max
    (ex_answer (Ok (ex_put_object OBJECT_STATUS_CREATED)) true) ex_info ex_payload (ex_put_object OBJECT_STATUS_CREATED) ex_params "alice" 3 (ex_spdb 3) ex_request
    (ex_part 6) ltac:(intros; by eexists) ltac:(done) H3) as [_ B].
  destruct B as (B1 & _ & B2); [reflexivity|vm_compute; discriminate|by split_and!|vm_compute; discriminate|].
  split_and!; [exact H0|exact (A eq_refl)|exact H3|exact B1|exact B2].
Defined.
