(* ===== verification/EvmDispose.v ===== *)
(** Manual dispositions: modular/signer/evm_disposition.go.  A command of the signer-evm
    tool ends a pending row, or settles an active outcome, on evidence from the chain at two
    heights, or on the decision of an operator.  The tool is a process of its own: it writes
    to the database like any other, without a lease.

    The texts of the report (its errors, notes and the description of the action) are not
    modelled; whether there is an error is the exit code, the action is a value. *)
From Stdlib Require Import ZArith Lia String Ascii.
From stdpp Require Import base gmap list strings pretty.
From S2P Require Import AuthDb RequestAuth Hex Prelude Strconv Sql EvmState EvmStore EvmInv EvmSpec EvmManager EvmAuto.

Local Open Scope Z_scope.

Definition EvmDisposeExitOK : Z := 0.
Definition EvmDisposeExitError : Z := 1.
Definition EvmDisposeExitNotProven : Z := 2.
Definition EvmDisposeExitPrecondition : Z := 3.
Definition EvmDisposeExitEvidenceInvalid : Z := 4.

Definition EvmDisposeResolve : string := "resolve".
Definition EvmDisposeResolveOutcome : string := "resolve-outcome".
Definition EvmDisposeRelease : string := "release".
Definition EvmDisposeDisposeOutcome : string := "dispose-outcome".

Definition EvmDisposeMaxScanBlocks : Z := 10000.

Definition evmAuditManualResolveSuccess : evmAuditName := evmAuditOther "manual_resolve_success".
Definition evmAuditManualResolveFailed : evmAuditName := evmAuditOther "manual_resolve_failed".
Definition evmAuditManualResolveOtherTxFailed : evmAuditName := evmAuditOther "manual_resolve_other_tx_failed".
Definition evmAuditManualResolveOtherUnrelated : evmAuditName := evmAuditOther "manual_resolve_other_tx_unrelated".
Definition evmAuditManualResolveSameCall : evmAuditName := evmAuditOther "manual_resolve_other_tx_same_call".
Definition evmAuditManualResolveElsewhere : evmAuditName := evmAuditOther "manual_resolve_executed_elsewhere".
Definition evmAuditManualResolveUnknown : evmAuditName := evmAuditOther "manual_resolve_unknown".
Definition evmAuditManualResolveNonceGap : evmAuditName := evmAuditOther "manual_resolve_nonce_gap".
Definition evmAuditManualOutcomeResolved : evmAuditName := evmAuditOther "manual_outcome_resolved".
Definition evmAuditManualReleaseUnknown : evmAuditName := evmAuditOther "manual_release_unknown".
Definition evmAuditManualDisposeOutcome : evmAuditName := evmAuditOther "manual_dispose_outcome".
Definition evmAuditManualRejected : evmAuditName := evmAuditOther "manual_rejected".

Definition evmOutcomeSourceManual : string := "manual".
Definition evmReasonOtherTxUnverified : string := "other_tx_unverified".

Inductive branch :=
| EvmBranchOriginalSucceeded | EvmBranchOriginalFailed | EvmBranchNonceUnused | EvmBranchNonceNotReached
| EvmBranchOtherTxFailed | EvmBranchOwnOtherOp | EvmBranchPlainTransfer | EvmBranchSameCall | EvmBranchCosmosSameOp
| EvmBranchUndetermined | EvmBranchOccupierMissing | EvmBranchNonceGap | EvmBranchGapUnproven | EvmBranchGapNotProbed.
#[export] Instance branch_eq_dec : EqDecision branch.
Proof. solve_decision. Defined.

Definition branch_name (b : branch) : string :=
  match b with
  | EvmBranchOriginalSucceeded => "original_succeeded"
  | EvmBranchOriginalFailed => "original_failed"
  | EvmBranchNonceUnused => "nonce_unused"
  | EvmBranchNonceNotReached => "nonce_not_reached"
  | EvmBranchOtherTxFailed => "a_other_tx_failed"
  | EvmBranchOwnOtherOp => "b_own_other_operation"
  | EvmBranchPlainTransfer => "c_plain_transfer"
  | EvmBranchSameCall => "d_same_call"
  | EvmBranchCosmosSameOp => "d_prime_cosmos_same_operation"
  | EvmBranchUndetermined => "e_undetermined"
  | EvmBranchOccupierMissing => "f_occupier_not_found"
  | EvmBranchNonceGap => "g_nonce_gap"
  | EvmBranchGapUnproven => "gap_unproven"
  | EvmBranchGapNotProbed => "gap_not_probed"
  end.

(** ** The outside, beyond what the signer asks *)

Record EvmBlockTx := mkBlockTx { bt_Hash : Hash; bt_From : Address; bt_Nonce : Z }.
Inductive block_error := errEvmBlockUnavailable | ErrBlock.

(** go-ethereum on transactions, the messages of the chain with their protobuf encoding and
    the name of their type, and the further calls of both nodes.  [exit_of] is the message
    with nothing but its operator, of a MsgCompleteStorageProviderExit. *)
Class DisposeEnv {Et : EthTx} := {
  tx_To : Tx -> option Address;
  tx_Value : Tx -> Z;
  tx_Data : Tx -> list Z;
  tx_SenderFor : Z -> Tx -> option Address;
  HexToHash : string -> Hash;
  AddressHex : Address -> string;
  Msg : Type;
  exit_of : Msg -> option Msg;
  proto_Marshal : Msg -> option (list Z);
  type_name : Msg -> list Z;
  ParseChainID : string -> option Z;
  os_user : string;
  TransactionByHash : nat -> Hash -> option (option Tx);
  CodeAt : nat -> Address -> Z -> option (list Z);
  BlockTransactions : nat -> Z -> result block_error (list EvmBlockTx);
  cosmos_Tx : nat -> string -> result search_error (option (CosmosTxView * list string * option (list Msg)));
  SearchAccSeq : nat -> string -> Z -> result search_error (list (CosmosTxView * list string * option (list Msg)));
}.

Section operations.
Context {Et : EthTx} {De : DisposeEnv}.

Definition evmOperationFingerprint (msg : Msg) : option Hash :=
  match proto_Marshal msg with
  | None => None
  | Some msgBytes => Some (Keccak256Hash (type_name msg ++ [0] ++ msgBytes))
  end.

Definition completeSPExitEvmFingerprint (bare : Msg) : option Hash := evmOperationFingerprint bare.

Definition evmOperationOf (msg : Msg) : option Hash :=
  match exit_of msg with
  | Some bare => completeSPExitEvmFingerprint bare
  | None => evmOperationFingerprint msg
  end.

(** The first 18 of the 20 bytes are zero. *)
Definition isPossiblePrecompile (address : Address) : bool := Z.shiftr address 16 =? 0.
End operations.

(** A Cosmos transaction: the view, its tx.acc_seq attributes, its messages if they decode. *)
Abbreviation cosmos_tx := (CosmosTxView * list string * option (list Msg))%type.

(** ** Requests and reports *)

Record EvmDisposeRequest := mkDispose {
  Command : string;
  req_Scope : string;
  req_TxHash : Hash;
  OutcomeID : Z;
  Operator : string;
  Reason : string;
  BusinessEvidence : string;
  DecisionRef : string;
  EvidenceTx : Hash;
  EvidenceCosmosTx : string;
  ScanBlocks : Z;
  AcceptUnknown : bool;
  AcceptGap : bool;
  DryRun : bool;
}.

Inductive action :=
| ActionNone
| TurnPending (state : evmOutcomeState) (reason : string) (res : Hash)
| DeletePending
| UpdateOutcome (state : evmOutcomeState) (res : Hash)
| DeleteOutcome.

Section records.
Context {Et : EthTx} {De : DisposeEnv}.

Record EvmDisposeOccupier := mkOccupier {
  oc_Kind : string;
  oc_Hash : string;
  oc_Block : Z;
  oc_Succeeded : bool;
  oc_Operation : option Hash;
  oc_tx : option Tx;
  oc_cosmos : option cosmos_tx;
}.

Record EvmDisposeSample := mkSample {
  sa_Height : Z;
  sa_ChainNonce : Z;
  sa_PendingNonce : option Z;
  sa_Branch : option branch;
  sa_ReceiptBlock : Z;
  sa_Occupier : option EvmDisposeOccupier;
}.

Record EvmDisposeReport := mkReport {
  Samples : list EvmDisposeSample;
  Branch : option branch;
  Action : option action;
  Applied : bool;
  Event : option evmAuditName;
  ExitCode : Z;
}.

Record evmDisposeTarget := mkTarget {
  tg_evidence : signedTxEvidence;
  tg_tx : Tx;
  tg_operation : Hash;
  tg_probeGap : bool;
  tg_gapIsBranch : bool;
}.

End records.

(** What the tool remembers of the nodes. *)
Record evmDisposer := mkDisposer { cosmosChecked : bool; blocks : gmap Z (list EvmBlockTx) }.

Definition isEvmScope (scope : SignType) : bool := bool_decide (scope ∈ [SignOperator; SignSeal; SignGc]).

Definition blank (s : string) : bool := bool_decide (TrimSpace s = ""%string).

(** strings.ToUpper of ASCII text. *)
Definition upper_char (c : ascii) : ascii :=
  let n := N_of_ascii c in if ((97 <=? n)%N && (n <=? 122)%N)%bool then ascii_of_N (n - 32) else c.
Definition ToUpper (s : string) : string := string_of_list_ascii (upper_char <$> list_ascii_of_string s).

(** Whether the request is accepted. *)
Definition checkEvmDisposeRequest (req : EvmDisposeRequest) : bool :=
  let cmd c := bool_decide (Command req = c) in
  let decision := cmd EvmDisposeRelease || cmd EvmDisposeDisposeOutcome in
  negb (blank (Operator req) || blank (Reason req)) &&
  (if cmd EvmDisposeResolve then isEvmScope (req_Scope req) && negb (req_TxHash req =? zeroHash)
   else if cmd EvmDisposeResolveOutcome || decision then
     negb (OutcomeID req =? 0) && negb (AcceptUnknown req || AcceptGap req)
   else false) &&
  negb (cmd EvmDisposeRelease && (blank (DecisionRef req) || blank (BusinessEvidence req))) &&
  negb (decision && (negb (EvidenceTx req =? zeroHash) || negb (bool_decide (EvidenceCosmosTx req = ""%string)) ||
                     negb (ScanBlocks req =? 0))) &&
  (ScanBlocks req <=? EvmDisposeMaxScanBlocks).

Section dispose.
Context {En : Env} {Et : EthTx} {De : DisposeEnv}.
(** One command.  [polls] is how often BlockNumber may be asked again before the wait ends. *)
Context (req : EvmDisposeRequest) (polls : nat).
Implicit Types (c : evmDisposer) (target : evmDisposeTarget) (report : EvmDisposeReport) (base : evmAuditEvent) (sample : EvmDisposeSample).

(** ** Reports *)

Definition evmManualActor : string := TrimSpace (Operator req) +:+ " (os user " +:+ os_user +:+ ")".

Definition lastSample report : option EvmDisposeSample := list.last (Samples report).

Definition manualEvent report base (event : evmAuditName) : evmAuditEvent :=
  let '(nonce, height) := match lastSample report with
                          | Some s => (Some (sa_ChainNonce s), Some (sa_Height s))
                          | None => (a_ChainNonce base, a_ChainHeight base)
                          end in
  mkEvent event (a_Scope base) (a_From base) (a_Nonce base) (a_TxHash base) (a_Operation base) (a_SignedTxID base)
    (a_ReceiptStatus base) (a_ReceiptBlock base) nonce (a_OutcomeID base) (a_OutcomeState base)
    (a_OutcomeReason base) (a_Detail base) (a_EvidenceTxHash base) (a_EvidenceKind base) evmManualActor (Reason req)
    (if bool_decide (DecisionRef req = ""%string) then a_DecisionRef base else DecisionRef req) height.

Definition fail_with (code : Z) report : EvmDisposeReport :=
  mkReport (Samples report) (Branch report) (Action report) (Applied report) (Event report) code.
Definition set_action (a : action) report : EvmDisposeReport :=
  mkReport (Samples report) (Branch report) (Some a) (Applied report) (Event report) (ExitCode report).
Definition set_audit (e : evmAuditName) report : EvmDisposeReport :=
  mkReport (Samples report) (Branch report) (Action report) (Applied report) (Some e) (ExitCode report).
Definition set_branch (b : option branch) report : EvmDisposeReport :=
  mkReport (Samples report) b (Action report) (Applied report) (Event report) (ExitCode report).
Definition add_sample sample report : EvmDisposeReport :=
  mkReport (Samples report ++ [sample]) (Branch report) (Action report) (Applied report) (Event report) (ExitCode report).

Definition reject base (code : Z) report : M EvmDisposeReport :=
  let report := set_action ActionNone (fail_with code report) in
  if DryRun req then mret report else
  d ← ask detail;
  r ← write (fun actor now => AppendAudit actor now None st_chainID (set_detail d (manualEvent report base evmAuditManualRejected)));
  mret (match r with Ok _ => set_audit evmAuditManualRejected report | Err _ => report end).

(** The evidence with its transaction, or the report with which the command ends. *)
Definition checkEvidence (ref : evidenceRef) base report : M (EvmDisposeReport + signedTxEvidence * Tx) :=
  evidence ← query (fun db => GetSignedTx db (r_SignedTxID ref));
  match evidence with
  | Err _ => mret (inl (fail_with EvmDisposeExitError report))
  | Ok evidence =>
    match verify evidence ref, evidence with
    | Ok tx, Some ev => mret (inr (ev, tx))
    | _, _ =>
      let report := fail_with EvmDisposeExitEvidenceInvalid report in
      if DryRun req then mret (inl report) else
      d ← ask detail;
      r ← write (fun actor now => AppendAudit actor now None st_chainID (set_detail d (manualEvent report base evmAuditEvidenceInvalid)));
      mret (inl (match r with Ok _ => set_audit evmAuditEvidenceInvalid report | Err _ => report end))
    end
  end.

(** ** The chain at one height *)

(** Whether the CometBFT node serves the chain of the row; [None] if it cannot be asked or
    serves another. *)
Definition checkCosmosOnce (evidence : signedTxEvidence) c : M (option evmDisposer) :=
  if negb has_cosmos || cosmosChecked c then mret (Some c) else
  network ← ask cosmos_Network;
  mret (match network with
        | None => None
        | Some network => if negb (bool_decide (network = e_ChainID evidence)) then None else Some (mkDisposer true (blocks c))
        end).

(** A receipt at or below the height. *)
Definition included (r : option receipt) (height : Z) : option (bool * Z) :=
  match r with
  | Some r =>
    match r_BlockNumber r with
    | Some b => if uwrap 64 b >? height then None else Some (r_Status r =? ReceiptStatusSuccessful, uwrap 64 b)
    | None => None
    end
  | None => None
  end.

(** [None] is an error, [Some None] no occupier. *)
Definition evmOccupier (evidence : signedTxEvidence) (hash : Hash) (height : Z) : M (option (option EvmDisposeOccupier)) :=
  if hash =? e_TxHash evidence then mret (Some None) else
  found ← ask (fun t => TransactionByHash t hash);
  match found with
  | None => mret None
  | Some None => mret (Some None)
  | Some (Some tx) =>
    if negb (bool_decide (tx_SenderFor (e_EvmChainID evidence) tx = Some (e_From evidence))) ||
       negb (tx_Nonce tx =? e_Nonce evidence) || negb (tx_Hash tx =? hash)
    then mret (Some None)
    else
      receipt ← ask (fun t => transactionReceiptFn t hash);
      match receipt with
      | None => mret None
      | Some receipt =>
        mret (Some (match included receipt height with
                    | None => None
                    | Some (ok, block) => Some (mkOccupier evmEvidenceKindEVM (Hex hash) block ok None (Some tx) None)
                    end))
      end
  end.

Definition EqualFold (a b : string) : bool := bool_decide (ToLower a = ToLower b).

Definition accSeq (evidence : signedTxEvidence) : string := AddressHex (e_From evidence) +:+ "/" +:+ pretty (e_Nonce evidence).

(** strings.ToUpper(strings.TrimPrefix(hash, "0x")) *)
Definition upper_hash (hash : string) : string := ToUpper (TrimPrefix hash "0x").

Definition cosmosOccupier (evidence : signedTxEvidence) (view : cosmos_tx) (height : Z) : option EvmDisposeOccupier :=
  let '(v, accSeqs, _) := view in
  if negb (existsb (fun s => EqualFold s (accSeq evidence)) accSeqs) then None
  else if (v_Height v =? 0) || (v_Height v >? height) then None
  else Some (mkOccupier evmEvidenceKindCosmos (upper_hash (v_Hash v)) (v_Height v) (v_Code v =? 0) None None (Some view)).

(** The transaction of --evidence-cosmos-tx. *)
Definition cosmos_evidence (evidence : signedTxEvidence) (height : Z) c : M (evmDisposer * option (option EvmDisposeOccupier)) :=
  if bool_decide (EvidenceCosmosTx req = ""%string) then mret (c, Some None) else
  if negb has_cosmos then mret (c, None) else
  checked ← checkCosmosOnce evidence c;
  match checked with
  | None => mret (c, None)
  | Some c =>
    view ← ask (fun t => cosmos_Tx t (EvidenceCosmosTx req));
    mret (c, match view with
             | Err errCosmosIndexDisabled | Ok None => Some None
             | Err ErrSearch => None
             | Ok (Some view) => Some (cosmosOccupier evidence view height)
             end)
  end.

(** The transactions of a block that may be the occupier, until one is. *)
Fixpoint scan_block (evidence : signedTxEvidence) (height : Z) (txs : list EvmBlockTx) : M (option (option EvmDisposeOccupier)) :=
  match txs with
  | [] => mret (Some None)
  | tx :: txs =>
    if negb (bt_From tx =? e_From evidence) || negb (bt_Nonce tx =? e_Nonce evidence) || (bt_Hash tx =? e_TxHash evidence)
    then scan_block evidence height txs
    else
      occupier ← evmOccupier evidence (bt_Hash tx) height;
      match occupier with
      | Some None => scan_block evidence height txs
      | _ => mret occupier
      end
  end.

(** [n] blocks from [block] on. *)
Fixpoint scan_blocks (evidence : signedTxEvidence) (height : Z) (n : nat) (block : Z) c : M (evmDisposer * option (option EvmDisposeOccupier)) :=
  match n with
  | O => mret (c, Some None)
  | S n =>
    txs ← match blocks c !! block with
          | Some txs => mret (Ok txs)
          | None => ask (fun t => BlockTransactions t block)
          end;
    match txs with
    | Err errEvmBlockUnavailable => scan_blocks evidence height n (block + 1) c
    | Err ErrBlock => mret (c, None)
    | Ok txs =>
      let c := mkDisposer (cosmosChecked c) (<[block := txs]> (blocks c)) in
      occupier ← scan_block evidence height txs;
      match occupier with
      | Some None => scan_blocks evidence height n (block + 1) c
      | _ => mret (c, occupier)
      end
    end
  end.

Fixpoint first_cosmos (evidence : signedTxEvidence) (height : Z) (views : list cosmos_tx) : option EvmDisposeOccupier :=
  match views with
  | [] => None
  | view :: views =>
    match cosmosOccupier evidence view height with
    | Some occupier => Some occupier
    | None => first_cosmos evidence height views
    end
  end.

Definition search_acc_seq (evidence : signedTxEvidence) (height : Z) c : M (evmDisposer * option (option EvmDisposeOccupier)) :=
  checked ← checkCosmosOnce evidence c;
  match checked with
  | None => mret (c, None)
  | Some c =>
    if negb has_cosmos then mret (c, Some None) else
    views ← ask (fun t => SearchAccSeq t (accSeq evidence) height);
    mret (c, match views with
             | Err errCosmosIndexDisabled => Some None
             | Err ErrSearch => None
             | Ok views => Some (first_cosmos evidence height views)
             end)
  end.

(** The number of blocks that are scanned. *)
Definition scan_range (evidence : signedTxEvidence) (height : Z) : nat :=
  let end_ := uwrap 64 (uwrap 64 (e_RecordedBlock evidence + ScanBlocks req) - 1) in
  Z.to_nat (Z.min end_ height - e_RecordedBlock evidence + 1).

Definition findOccupier (evidence : signedTxEvidence) (height : Z) c : M (evmDisposer * option (option EvmDisposeOccupier)) :=
  given ← (if EvidenceTx req =? zeroHash then mret (Some None) else evmOccupier evidence (EvidenceTx req) height);
  match given with
  | None => mret (c, None)
  | Some (Some occupier) => mret (c, Some (Some occupier))
  | Some None =>
    '(c, named) ← cosmos_evidence evidence height c;
    match named with
    | None => mret (c, None)
    | Some (Some occupier) => mret (c, Some (Some occupier))
    | Some None =>
      if ScanBlocks req =? 0 then mret (c, Some None) else
      '(c, scanned) ← scan_blocks evidence height (scan_range evidence height) (e_RecordedBlock evidence) c;
      match scanned with
      | None => mret (c, None)
      | Some (Some occupier) => mret (c, Some (Some occupier))
      | Some None => search_acc_seq evidence height c
      end
    end
  end.

Definition with_branch (b : branch) sample : EvmDisposeSample :=
  mkSample (sa_Height sample) (sa_ChainNonce sample) (sa_PendingNonce sample) (Some b) (sa_ReceiptBlock sample) (sa_Occupier sample).
Definition with_pending (n : Z) sample : EvmDisposeSample :=
  mkSample (sa_Height sample) (sa_ChainNonce sample) (Some n) (sa_Branch sample) (sa_ReceiptBlock sample) (sa_Occupier sample).
Definition with_receipt_block (b : Z) sample : EvmDisposeSample :=
  mkSample (sa_Height sample) (sa_ChainNonce sample) (sa_PendingNonce sample) (sa_Branch sample) b (sa_Occupier sample).
Definition with_occupier (o : EvmDisposeOccupier) sample : EvmDisposeSample :=
  mkSample (sa_Height sample) (sa_ChainNonce sample) (sa_PendingNonce sample) (sa_Branch sample) (sa_ReceiptBlock sample) (Some o).

(** The account had no code in the block and in the one before it. *)
Definition no_code (address : Address) (block : Z) : M bool :=
  before ← ask (fun t => CodeAt t address (block - 1));
  match before with
  | Some [] =>
    at_ ← ask (fun t => CodeAt t address block);
    mret (match at_ with Some [] => true | _ => false end)
  | _ => mret false
  end.

(** An occupier that this provider did not sign. *)
Definition classify_foreign target sample (tx : Tx) (block : Z) : M (EvmDisposeSample * bool) :=
  let original := tg_tx target in
  if match tx_To tx, tx_To original with Some a, Some b => a =? b | _, _ => false end &&
     (tx_Value tx =? tx_Value original) && bool_decide (tx_Data tx = tx_Data original)
  then mret (with_branch EvmBranchSameCall sample, false)
  else
    let undetermined := with_branch EvmBranchUndetermined sample in
    match tx_To tx with
    | None => mret (undetermined, false)
    | Some to =>
      if negb (bool_decide (tx_Data tx = [])) || isPossiblePrecompile to || (block =? 0) then mret (undetermined, false)
      else
        plain ← no_code to block;
        mret (if plain : bool then with_branch EvmBranchPlainTransfer sample else undetermined, false)
    end.

(** The result says whether there was an error. *)
Definition classify target (occupier : EvmDisposeOccupier) sample : M (EvmDisposeSample * bool) :=
  if negb (oc_Succeeded occupier) then
    mret (with_branch (if evmFailedTxRollsBack then EvmBranchOtherTxFailed else EvmBranchUndetermined) sample, false)
  else
    match oc_cosmos occupier, oc_tx occupier with
    | Some (_, _, msgs), _ =>
      let same msg := bool_decide (evmOperationOf msg = Some (tg_operation target)) in
      mret (with_branch (match msgs with
                         | Some msgs => if existsb same msgs then EvmBranchCosmosSameOp else EvmBranchUndetermined
                         | None => EvmBranchUndetermined
                         end) sample, false)
    | None, Some tx =>
      own ← query (fun db => GetSignedTxByHash db (e_ChainID (tg_evidence target)) (tx_Hash tx));
      match own with
      | Err _ => mret (sample, true)
      | Ok None => classify_foreign target sample tx (oc_Block occupier)
      | Ok (Some own) =>
        match verify (Some own) (mkRef (e_ID own) (e_ChainID own) (e_Scope own) (e_Operation own) (e_From own) (e_Nonce own) (e_TxHash own)) with
        | Err _ => mret (with_branch EvmBranchUndetermined sample, false)
        | Ok _ =>
          let occupier := mkOccupier (oc_Kind occupier) (oc_Hash occupier) (oc_Block occupier) (oc_Succeeded occupier)
                            (Some (e_Operation own)) (oc_tx occupier) (oc_cosmos occupier) in
          mret (with_branch (if e_Operation own =? tg_operation target then EvmBranchSameCall else EvmBranchOwnOtherOp)
                  (with_occupier occupier sample), false)
        end
      end
    | None, None => mret (sample, true)
    end.

Definition assessGap target sample : M (EvmDisposeSample * bool) :=
  pending ← ask (fun t => PendingNonceAt t (e_From (tg_evidence target)));
  match pending with
  | None => mret (sample, true)
  | Some pending =>
    let sample := with_pending pending sample in
    if negb (tg_probeGap target) then mret (with_branch EvmBranchGapNotProbed sample, false) else
    if negb (pending =? sa_ChainNonce sample) then mret (with_branch EvmBranchGapUnproven sample, false) else
    sendErr ← send (tg_tx target);
    done ← (match sendErr with Some _ => ask ctx_done | None => mret false end);
    mret (with_branch (match sendErr with
                       | None => EvmBranchGapUnproven
                       | Some e =>
                         if bool_decide (classifyEvmSendError done sendErr = evmSendNonceRejected) && isEvmNonceHighError (se_Error e)
                         then EvmBranchNonceGap else EvmBranchGapUnproven
                       end) sample, false)
  end.

(** The original among the Cosmos transactions: [None] is an error. *)
Definition original_in_cosmos (evidence : signedTxEvidence) (height : Z) c : M (evmDisposer * option (option CosmosTxView)) :=
  if negb has_cosmos then mret (c, Some None) else
  checked ← checkCosmosOnce evidence c;
  match checked with
  | None => mret (c, None)
  | Some c =>
    view ← ask (fun t => SearchEthereumTx t (e_TxHash evidence) height);
    mret (c, match view with
             | Err errCosmosIndexDisabled | Ok None => Some None
             | Err ErrSearch => None
             | Ok (Some view) => Some (if negb (v_Code view =? 0) && evmFailedTxRollsBack then Some view else None)
             end)
  end.

Definition assess_used target sample c : M (evmDisposer * EvmDisposeSample * bool) :=
  let evidence := tg_evidence target in
  '(c, failed) ← original_in_cosmos evidence (sa_Height sample) c;
  match failed with
  | None => mret (c, sample, true)
  | Some (Some view) => mret (c, with_branch EvmBranchOriginalFailed (with_receipt_block (v_Height view) sample), false)
  | Some None =>
    '(c, occupier) ← findOccupier evidence (sa_Height sample) c;
    match occupier with
    | None => mret (c, sample, true)
    | Some None => mret (c, with_branch EvmBranchOccupierMissing sample, false)
    | Some (Some occupier) =>
      '(sample, err) ← classify target occupier (with_occupier occupier sample);
      mret (c, sample, err)
    end
  end.

Definition assess target (height : Z) c : M (evmDisposer * EvmDisposeSample * bool) :=
  let evidence := tg_evidence target in
  let empty := mkSample height 0 None None 0 None in
  receipt ← ask (fun t => transactionReceiptFn t (e_TxHash evidence));
  match receipt with
  | None => mret (c, empty, true)
  | Some receipt =>
    let sample := match included receipt height with
                  | Some (ok, block) =>
                    with_branch (if ok : bool then EvmBranchOriginalSucceeded else EvmBranchOriginalFailed) (with_receipt_block block empty)
                  | None => empty
                  end in
    nonce ← ask (fun t => NonceAt t (e_From evidence) height);
    match nonce with
    | None => mret (c, sample, true)
    | Some nonce =>
      let sample := mkSample height nonce None (sa_Branch sample) (sa_ReceiptBlock sample) None in
      match sa_Branch sample with
      | Some _ => mret (c, sample, false)
      | None =>
        if nonce =? e_Nonce evidence then mret (c, with_branch EvmBranchNonceUnused sample, false)
        else if nonce <? e_Nonce evidence then
          if negb (tg_gapIsBranch target) then mret (c, with_branch EvmBranchNonceNotReached sample, false)
          else '(sample, err) ← assessGap target sample; mret (c, sample, err)
        else assess_used target sample c
      end
    end
  end.

(** ** Two heights *)

(** What two samples must agree on: the branch with the occupier, or with the nonce. *)
Definition sample_key sample : option branch * option (string * string) * option Z :=
  match sa_Branch sample with
  | Some EvmBranchNonceGap | Some EvmBranchGapUnproven | Some EvmBranchGapNotProbed =>
    (sa_Branch sample, None, Some (sa_ChainNonce sample))
  | b => (b, (fun o => (oc_Kind o, oc_Hash o)) <$> sa_Occupier sample, None)
  end.

Fixpoint waitHeight (polls : nat) (want : Z) : M (option Z) :=
  height ← ask BlockNumber;
  match height with
  | None => mret None
  | Some height =>
    if height >=? want then mret (Some height) else
    match polls with
    | O => mret None
    | S polls => waitHeight polls want
    end
  end.

(** The second sample, or the report with which the command ends. *)
Definition assessTwice target base report : M (EvmDisposeReport + EvmDisposeReport * EvmDisposeSample) :=
  let stop report : M (EvmDisposeReport + EvmDisposeReport * EvmDisposeSample) :=
    report ← reject base EvmDisposeExitError report; mret (inl report) in
  chainID ← ask evm_ChainID;
  match chainID with
  | None => stop report
  | Some chainID =>
    if negb ((0 <=? chainID) && (chainID <=? MaxUint64)) || negb (chainID =? e_EvmChainID (tg_evidence target)) then stop report else
    first ← ask BlockNumber;
    match first with
    | None => stop report
    | Some first =>
      '(c, a, err) ← assess target first (mkDisposer false ∅);
      let report := add_sample a report in
      if err : bool then stop report else
      second ← waitHeight polls (uwrap 64 (first + 1));
      match second with
      | None => stop report
      | Some second =>
        '(_, b, err) ← assess target second c;
        let report := add_sample b report in
        if err : bool then stop report else
        if negb (bool_decide (sample_key a = sample_key b))
        then report ← reject base EvmDisposeExitNotProven (set_branch None report); mret (inl report)
        else mret (inr (set_branch (sa_Branch b) report, b))
      end
    end
  end.

(** ** The commands *)

Definition withOccupier base sample : evmAuditEvent :=
  let base := match sa_Occupier sample with
              | None => base
              | Some o =>
                let base := set_evidence (oc_Hash o) (oc_Kind o) base in
                match oc_Operation o with
                | Some operation => set_detail ("occupier operation " +:+ Hex operation) base
                | None => base
                end
              end in
  if sa_ReceiptBlock sample =? 0 then base else set_receipt (a_ReceiptStatus base) (Some (sa_ReceiptBlock sample)) base.

Definition finishWrite base (event : evmAuditName) (err : option evm_error) report : M EvmDisposeReport :=
  match err with
  | None => mret (mkReport (Samples report) (Branch report) (Action report) true (Some event) EvmDisposeExitOK)
  | Some errEvmRowGone | Some errEvmStateConflict => reject base EvmDisposeExitPrecondition report
  | Some _ => mret (fail_with EvmDisposeExitError report)
  end.

(** The outcome that a pending row becomes. *)
Definition kept sample (state : evmOutcomeState) (reason : string) (res : Hash) : outcomeRecord :=
  let '(hash, kind, block) :=
    match sa_Occupier sample with
    | Some o => (oc_Hash o, oc_Kind o, if bool_decide (oc_Kind o = evmEvidenceKindEVM) then oc_Block o else sa_ReceiptBlock sample)
    | None => (""%string, ""%string, sa_ReceiptBlock sample)
    end in
  mkOutcome 0 0 "" "" zeroHash 0 0 zeroHash res state hash kind reason block evmOutcomeSourceManual.

Definition occupier_hash sample : Hash :=
  match sa_Occupier sample with Some o => HexToHash (oc_Hash o) | None => zeroHash end.

(** What a branch makes of a pending row: nothing, or an outcome or none with an audit event. *)
Definition conclusion (pending : pendingRecord) sample : option (option outcomeRecord * evmAuditName) :=
  match sa_Branch sample with
  | Some EvmBranchOriginalSucceeded => Some (Some (kept sample evmOutcomeSucceeded "" (p_TxHash pending)), evmAuditManualResolveSuccess)
  | Some EvmBranchOriginalFailed => Some (None, evmAuditManualResolveFailed)
  | Some EvmBranchOtherTxFailed => Some (None, evmAuditManualResolveOtherTxFailed)
  | Some EvmBranchOwnOtherOp | Some EvmBranchPlainTransfer => Some (None, evmAuditManualResolveOtherUnrelated)
  | Some EvmBranchSameCall => Some (Some (kept sample evmOutcomeSucceeded "" (occupier_hash sample)), evmAuditManualResolveSameCall)
  | Some EvmBranchCosmosSameOp => Some (Some (kept sample evmOutcomeExecutedElsewhere "" zeroHash), evmAuditManualResolveElsewhere)
  | Some EvmBranchUndetermined =>
    if AcceptUnknown req then Some (Some (kept sample evmOutcomeBlockedUnknown evmReasonOtherTxUnverified zeroHash), evmAuditManualResolveUnknown) else None
  | Some EvmBranchOccupierMissing =>
    if AcceptUnknown req then Some (Some (kept sample evmOutcomeBlockedUnknown evmReasonReceiptMissing zeroHash), evmAuditManualResolveUnknown) else None
  | Some EvmBranchNonceGap =>
    if AcceptGap req then Some (Some (kept sample evmOutcomeBlockedUnknown evmReasonNonceGap zeroHash), evmAuditManualResolveNonceGap) else None
  | _ => None
  end.

(** The write, read back when the answer to its COMMIT was lost. *)
Definition write_pending (pending : pendingRecord) (res : option outcomeRecord) (event : evmAuditEvent) : M (option evm_error) :=
  r ← write (fun actor now => ManualResolvePending actor now pending res event);
  match r with
  | Ok _ => mret None
  | Err e =>
    if isEvmCommitUnknown e then
      current ← query (fun db => GetPending db st_chainID (req_Scope req));
      match current with
      | Ok current =>
        if match current with Some p => p_ID p =? p_ID pending | None => false end then mret (Some e)
        else
          done ← query (fun db => HasAudit db st_chainID (a_Event event) (p_TxHash pending) 0);
          mret (match done with Ok true => None | _ => Some e end)
      | Err _ => mret (Some e)
      end
    else mret (Some e)
  end.

Definition resolve report : M EvmDisposeReport :=
  pending ← query (fun db => GetPending db st_chainID (req_Scope req));
  match pending with
  | Err _ => mret (fail_with EvmDisposeExitError report)
  | Ok None => mret (fail_with EvmDisposeExitPrecondition report)
  | Ok (Some pending) =>
    if negb (p_TxHash pending =? req_TxHash req) then mret (fail_with EvmDisposeExitPrecondition report) else
    let base := pending_audit pending (evmAuditOther "") in
    evidence ← checkEvidence (pending_ref pending) base report;
    match evidence with
    | inl report => mret report
    | inr (evidence, tx) =>
      assessed ← assessTwice (mkTarget evidence tx (p_Operation pending) (negb (DryRun req)) true) base report;
      match assessed with
      | inl report => mret report
      | inr (report, sample) =>
        let base := withOccupier base sample in
        match conclusion pending sample with
        | None => reject base EvmDisposeExitNotProven report
        | Some (res, event) =>
          let audit := manualEvent report base event in
          let audit := match res with
                       | Some o => set_outcome (Some (p_ID pending)) (Some (o_State o)) (o_Reason o) audit
                       | None => audit
                       end in
          let report := set_action (match res with
                                    | Some o => TurnPending (o_State o) (o_Reason o) (o_ResultTxHash o)
                                    | None => DeletePending
                                    end) report in
          if DryRun req then mret report else
          err ← write_pending pending res audit;
          finishWrite base event err report
        end
      end
    end
  end.

Definition write_outcome (outcome : outcomeRecord) (from : list evmOutcomeState) (to : option outcomeRecord) (event : evmAuditEvent) :
    M (option evm_error) :=
  r ← write (fun actor now => ManualSettleOutcome actor now outcome from to event);
  match r with
  | Ok _ => mret None
  | Err e =>
    if isEvmCommitUnknown e then
      done ← query (fun db => HasAudit db st_chainID (a_Event event) zeroHash (o_ID outcome));
      mret (match done with Ok true => None | _ => Some e end)
    else mret (Some e)
  end.

Definition settle (outcome : outcomeRecord) (from : list evmOutcomeState) (to : option outcomeRecord) base (event : evmAuditEvent)
  report : M EvmDisposeReport :=
  if DryRun req then mret report else
  err ← write_outcome outcome from to event;
  finishWrite base (a_Event event) err report.

Definition loadOutcome (states : list evmOutcomeState) report : M (EvmDisposeReport + outcomeRecord) :=
  outcome ← query (fun db => GetOutcomeByID db st_chainID (OutcomeID req));
  match outcome with
  | Err _ => mret (inl (fail_with EvmDisposeExitError report))
  | Ok None =>
    report ← reject (set_outcome (Some (OutcomeID req)) None "" (plain_event (evmAuditOther "") "")) EvmDisposeExitPrecondition report;
    mret (inl report)
  | Ok (Some outcome) =>
    if bool_decide (o_State outcome ∈ states) then mret (inr outcome)
    else report ← reject (outcome_audit outcome (evmAuditOther "")) EvmDisposeExitPrecondition report; mret (inl report)
  end.

(** What a branch makes of an outcome that is blocked. *)
Definition outcome_conclusion (outcome : outcomeRecord) sample : option (option outcomeRecord) :=
  let to state res block :=
    let '(hash, kind) := match sa_Occupier sample with Some o => (oc_Hash o, oc_Kind o) | None => (""%string, ""%string) end in
    mkOutcome 0 0 "" "" zeroHash 0 0 zeroHash res state hash kind "" block evmOutcomeSourceManual in
  match sa_Branch sample with
  | Some EvmBranchOriginalSucceeded => Some (Some (to evmOutcomeSucceeded (o_TxHash outcome) (sa_ReceiptBlock sample)))
  | Some EvmBranchSameCall =>
    Some (Some (to evmOutcomeSucceeded (occupier_hash sample) (match sa_Occupier sample with Some o => oc_Block o | None => 0 end)))
  | Some EvmBranchCosmosSameOp => Some (Some (to evmOutcomeExecutedElsewhere zeroHash 0))
  | Some EvmBranchOriginalFailed | Some EvmBranchOtherTxFailed | Some EvmBranchOwnOtherOp | Some EvmBranchPlainTransfer => Some None
  | _ => None
  end.

Definition resolveOutcome report : M EvmDisposeReport :=
  loaded ← loadOutcome [evmOutcomeBlockedUnknown] report;
  match loaded with
  | inl report => mret report
  | inr outcome =>
    let base := outcome_audit outcome (evmAuditOther "") in
    evidence ← checkEvidence (outcome_ref outcome) base report;
    match evidence with
    | inl report => mret report
    | inr (evidence, tx) =>
      assessed ← assessTwice (mkTarget evidence tx (o_Operation outcome) false false) base report;
      match assessed with
      | inl report => mret report
      | inr (report, sample) =>
        let base := withOccupier base sample in
        match outcome_conclusion outcome sample with
        | None => reject base EvmDisposeExitNotProven report
        | Some to =>
          let event := manualEvent report base evmAuditManualOutcomeResolved in
          let event := set_detail (TrimSpace (a_Detail event +:+ " branch " +:+ match sa_Branch sample with Some b => branch_name b | None => "" end)) event in
          let event := match to with
                       | Some o => set_outcome (a_OutcomeID event) (Some (o_State o)) "" event
                       | None => event
                       end in
          let report := set_action (match to with Some o => UpdateOutcome (o_State o) (o_ResultTxHash o) | None => DeleteOutcome end) report in
          settle outcome [evmOutcomeBlockedUnknown] to base event report
        end
      end
    end
  end.

Definition settleByDecision report : M EvmDisposeReport :=
  let release := bool_decide (Command req = EvmDisposeRelease) in
  let '(states, name) :=
    if release then ([evmOutcomeBlockedUnknown], evmAuditManualReleaseUnknown)
    else ([evmOutcomeSucceeded; evmOutcomeExecutedElsewhere], evmAuditManualDisposeOutcome) in
  loaded ← loadOutcome states report;
  match loaded with
  | inl report => mret report
  | inr outcome =>
    let base := outcome_audit outcome (evmAuditOther "") in
    (* dispose-outcome reads the evidence too, but only for a note *)
    evidence ← (if release then checkEvidence (outcome_ref outcome) base report
                else _ ← query (fun db => GetSignedTx db (o_SignedTxID outcome)); mret (inl report));
    match evidence, release with
    | inl report, true => mret report
    | _, _ =>
      let event := manualEvent report base name in
      let event := if release then set_detail ("business evidence: " +:+ BusinessEvidence req) event else event in
      settle outcome states None base event (set_action DeleteOutcome report)
    end
  end.

(** [st_evmChainID] is what ParseChainID makes of the chain id of the request. *)
Definition disposeEvmState : M EvmDisposeReport :=
  let report := mkReport [] None None false None EvmDisposeExitOK in
  if negb (checkEvmDisposeRequest req) then mret (fail_with EvmDisposeExitError report)
  else if match ParseChainID st_chainID with Some n => negb ((0 <=? n) && (n <=? MaxUint64) && (n =? st_evmChainID)) | None => true end
  then mret (fail_with EvmDisposeExitError report)
  else if bool_decide (Command req = EvmDisposeResolve) then resolve report
  else if bool_decide (Command req = EvmDisposeResolveOutcome) then resolveOutcome report
  else settleByDecision report.
End dispose.

(** ** The report of signer-evm list: modular/signer/evm_state_report.go *)

Record EvmStateRow := mkStateRow {
  row_Kind : string;
  row_ID : Z;
  row_Scope : SignType;
  row_State : option evmOutcomeState;
  row_Reason : string;
  row_From : Address;
  row_Nonce : Z;
  row_TxHash : Hash;
  row_ResultTxHash : Hash;
  row_EvidenceTxHash : string;
  row_Operation : Hash;
  row_Ambiguous : bool;
  row_SignedTxID : Z;
  row_RecordedBlock : Z;
  row_EvidenceValid : bool;
}.

Record EvmLeaseView := mkLeaseRow { lr_Owner : string; lr_Epoch : Z; lr_ExpiresAt : Z; lr_Live : bool }.

Record EvmStateReport := mkStateReport {
  rep_Pending : list EvmStateRow;
  rep_Outcomes : list EvmStateRow;
  rep_Lease : option EvmLeaseView;
  rep_ForeignChainIDs : gset string;
}.

Definition pending_line (p : pendingRecord) : EvmStateRow :=
  mkStateRow "pending" (p_ID p) (p_Scope p) None "" (p_From p) (p_Nonce p) (p_TxHash p) zeroHash "" (p_Operation p) (p_Ambiguous p)
    (p_SignedTxID p) 0 false.
Definition outcome_line (o : outcomeRecord) : EvmStateRow :=
  mkStateRow "outcome" (o_ID o) (o_Scope o) (Some (o_State o)) (o_Reason o) (o_From o) (o_Nonce o) (o_TxHash o) (o_ResultTxHash o)
    (o_EvidenceTxHash o) (o_Operation o) false (o_SignedTxID o) 0 false.

Section inspect.
Context {En : Env} {Et : EthTx}.

Definition inspectEvidence (ref : evidenceRef) (row : EvmStateRow) : M (result evm_error EvmStateRow) :=
  evidence ← query (fun db => GetSignedTx db (r_SignedTxID ref));
  mret (match evidence with
        | Err e => Err e
        | Ok evidence =>
          Ok (mkStateRow (row_Kind row) (row_ID row) (row_Scope row) (row_State row) (row_Reason row) (row_From row) (row_Nonce row)
                (row_TxHash row) (row_ResultTxHash row) (row_EvidenceTxHash row) (row_Operation row) (row_Ambiguous row) (row_SignedTxID row)
                (match evidence with Some ev => e_RecordedBlock ev | None => row_RecordedBlock row end)
                (match verify evidence ref with Ok _ => true | Err _ => false end))
        end).

Fixpoint inspect_rows (l : list (evidenceRef * EvmStateRow)) : M (result evm_error (list EvmStateRow)) :=
  match l with
  | [] => mret (Ok [])
  | (ref, row) :: l =>
    row ← inspectEvidence ref row;
    match row with
    | Err e => mret (Err e)
    | Ok row =>
      rows ← inspect_rows l;
      mret (match rows with Ok rows => Ok (row :: rows) | Err e => Err e end)
    end
  end.

Definition InspectEvmState : M (result evm_error EvmStateReport) :=
  foreign ← query (fun db => ForeignChainIDs db st_chainID);
  match foreign with
  | Err e => mret (Err e)
  | Ok foreign =>
    pendings ← query (fun db => ListPending db st_chainID);
    match pendings with
    | Err e => mret (Err e)
    | Ok pendings =>
      pending_rows ← inspect_rows ((fun p => (pending_ref p, pending_line p)) <$> pendings);
      match pending_rows with
      | Err e => mret (Err e)
      | Ok pending_rows =>
        outcomes ← query (fun db => ListOutcomes db st_chainID);
        match outcomes with
        | Err e => mret (Err e)
        | Ok outcomes =>
          outcome_rows ← inspect_rows ((fun o => (outcome_ref o, outcome_line o)) <$> outcomes);
          match outcome_rows with
          | Err e => mret (Err e)
          | Ok outcome_rows =>
            now ← ask db_now;
            lease ← query (fun db => leases db !! st_chainID);
            mret (match lease with
                  | Err e => Err e
                  | Ok lease =>
                    Ok (mkStateReport pending_rows outcome_rows
                          ((fun l => mkLeaseRow (l_Owner l) (l_Epoch l) (l_ExpiresAt l) (l_ExpiresAt l >? now)) <$> lease) foreign)
                  end)
          end
        end
      end
    end
  end.
End inspect.
