(* ===== verification/EvmDisposeProps.v ===== *)
(** Properties of the manual dispositions: what is changed was proven at two heights, what
    was applied is final and audited, a dry run changes nothing.  They rest on what the
    dispositions read and write: only store calls and the recorded bytes ([quiet]), nothing
    at all in a dry run ([reads]); and on what the answers of the chain were when a sample
    names a branch ([shows]).  The witnesses run the tool on a chain on which another
    transaction took the nonce. *)
From Stdlib Require Import ZArith Lia String Ascii.
From stdpp Require Import base gmap list strings pretty.
From S2P Require Import AuthDb RequestAuth Hex Prelude Strconv Sql EvmState EvmStore EvmInv EvmSpec EvmManager EvmAuto EvmResolve EvmRecovery EvmRun EvmMgrProps EvmDispose.

Local Open Scope Z_scope.

(** ** What the chain answered *)

Section shows.
Context {En : Env} {Et : EthTx} {De : DisposeEnv}.
Implicit Types (ev : signedTxEvidence) (h : Z).

(** The original has a receipt at or below the height. *)
Definition original ev h (ok : bool) : Prop :=
  exists t r block, transactionReceiptFn t (e_TxHash ev) = Some r /\ included r h = Some (ok, block).

(** A Cosmos transaction carried the original, and failed. *)
Definition original_aborted ev h : Prop :=
  exists t v, SearchEthereumTx t (e_TxHash ev) h = Ok (Some v) /\ v_Code v <> 0.

Definition nonce_used ev h : Prop := exists t n, NonceAt t (e_From ev) h = Some n /\ e_Nonce ev < n.

(** Another transaction of the sender with the nonce, in a block at or below the height. *)
Record occupies_evm ev h (tx : Tx) (ok : bool) (block : Z) : Prop := {
  oe_found : exists t, TransactionByHash t (tx_Hash tx) = Some (Some tx);
  oe_other : tx_Hash tx <> e_TxHash ev;
  oe_sender : tx_SenderFor (e_EvmChainID ev) tx = Some (e_From ev);
  oe_nonce : tx_Nonce tx = e_Nonce ev;
  oe_receipt : exists t r, transactionReceiptFn t (tx_Hash tx) = Some r /\ included r h = Some (ok, block);
}.

Record occupies_cosmos ev h (view : cosmos_tx) (ok : bool) : Prop := {
  oc_found : (exists t hash, cosmos_Tx t hash = Ok (Some view)) \/ (exists t l, SearchAccSeq t (accSeq ev) h = Ok l /\ view ∈ l);
  oc_signed : exists s, s ∈ view.1.2 /\ EqualFold s (accSeq ev) = true;
  oc_height : v_Height view.1.1 <> 0 /\ v_Height view.1.1 <= h;
  oc_code : ok = (v_Code view.1.1 =? 0);
}.

Definition occupied ev h (o : EvmDisposeOccupier) : Prop :=
  (oc_cosmos o = None /\ exists tx, oc_tx o = Some tx /\ occupies_evm ev h tx (oc_Succeeded o) (oc_Block o)) \/
  (exists view, oc_cosmos o = Some view /\ occupies_cosmos ev h view (oc_Succeeded o)).

(** This provider signed the transaction, for an operation. *)
Definition signed_own (tx : Tx) (operation : Hash) (db : evm_db) : Prop :=
  exists i own, signed db !! i = Some own /\ e_TxHash own = tx_Hash tx /\ e_Operation own = operation /\
    exists ref tx', verify (Some own) ref = Ok tx'.

Definition same_call (tx original : Tx) : Prop :=
  (exists a, tx_To tx = Some a /\ tx_To original = Some a) /\ tx_Value tx = tx_Value original /\ tx_Data tx = tx_Data original.

Definition plain_transfer (tx : Tx) (block : Z) : Prop :=
  exists to, tx_To tx = Some to /\ tx_Data tx = [] /\ isPossiblePrecompile to = false /\
    (exists t, CodeAt t to (block - 1) = Some []) /\ (exists t, CodeAt t to block = Some []).

(** The node refused the bytes because the account's nonce is lower. *)
Definition gap ev (tx : Tx) h : Prop :=
  exists t n t' t'' e, NonceAt t (e_From ev) h = Some n /\ n < e_Nonce ev /\ PendingNonceAt t' (e_From ev) = Some n /\
    sendEvmTxFn t'' (tx_Hash tx) = Some e /\ isEvmNonceHighError (se_Error e) = true.

(** The proof behind a branch, at a height. *)
Definition shows (target : evmDisposeTarget) h (b : branch) (db : evm_db) : Prop :=
  let ev := tg_evidence target in
  match b with
  | EvmBranchOriginalSucceeded => original ev h true
  | EvmBranchOriginalFailed => original ev h false \/ nonce_used ev h /\ original_aborted ev h
  | EvmBranchOtherTxFailed =>
    nonce_used ev h /\ ((exists tx block, occupies_evm ev h tx false block) \/ exists view, occupies_cosmos ev h view false)
  | EvmBranchOwnOtherOp =>
    nonce_used ev h /\ exists tx block op, occupies_evm ev h tx true block /\ signed_own tx op db /\ op <> tg_operation target
  | EvmBranchPlainTransfer => nonce_used ev h /\ exists tx block, occupies_evm ev h tx true block /\ plain_transfer tx block
  | EvmBranchSameCall =>
    nonce_used ev h /\ exists tx block, occupies_evm ev h tx true block /\ (signed_own tx (tg_operation target) db \/ same_call tx (tg_tx target))
  | EvmBranchCosmosSameOp =>
    nonce_used ev h /\ exists v s msgs msg, occupies_cosmos ev h (v, s, Some msgs) true /\ msg ∈ msgs /\
      evmOperationOf msg = Some (tg_operation target)
  | EvmBranchNonceGap => gap ev (tg_tx target) h
  | _ => True
  end.

Lemma stored_stable i e db db' : db_wf db -> reach db db' -> signed db !! i = Some e -> signed db' !! i = Some e.
Proof. intros W [n Hn] H. eapply lookup_weaken; [done|]. by eapply steps_signed. Qed.

#[export] Instance signed_own_stable tx op : Stable (signed_own tx op).
Proof. intros db db' W R (i & own & Hi & H). exists i, own. split; [by eapply stored_stable|done]. Qed.

#[export] Instance stable_prop (φ : Prop) : Stable (fun _ => φ).
Proof. by intros db db'. Qed.

#[export] Instance stable_forall {A} (Q : A -> evm_db -> Prop) : (forall a, Stable (Q a)) -> Stable (fun db => forall a, Q a db).
Proof. intros H db db' W R HQ a. by eapply stable. Qed.
#[export] Instance stable_impl (φ : Prop) Q : Stable Q -> Stable (fun db => φ -> Q db).
Proof. intros H db db' W R HQ Hφ. eapply stable; [done|exact R|by apply HQ]. Qed.
#[export] Instance stable_exists {A} (Q : A -> evm_db -> Prop) : (forall a, Stable (Q a)) -> Stable (fun db => exists a, Q a db).
Proof. intros H db db' W R [a HQ]. exists a. by eapply stable. Qed.
#[export] Instance stored_stable_class i e : Stable (fun db => signed db !! i = Some e).
Proof. intros db db' W R. by apply stored_stable. Qed.

#[export] Instance shows_stable target h b : Stable (shows target h b).
Proof.
  intros db db' W R. unfold shows. destruct b; try done.
  - intros [Hn (tx & block & op & Ho & Hs & Hd)]. split; [done|]. exists tx, block, op. split_and!; [done|by eapply stable|done].
  - intros [Hn (tx & block & Ho & [Hs|Hs])]; (split; [done|]); exists tx, block; (split; [done|]); [left; by eapply stable|by right].
Qed.
End shows.

(** ** Answers *)

Section returns.
Context {En : Env} {Et : EthTx} {De : DisposeEnv}.

(** Whatever the world, the result has [Q]. *)
Definition returns {A} (m : M A) (Q : A -> Prop) : Prop := forall w, Q (m w).2.

Lemma returns_bind {A B} (m : M A) (f : A -> M B) Q R :
  returns m Q -> (forall a, Q a -> returns (f a) R) -> returns (m ≫= f) R.
Proof. intros Hm Hf w. rewrite M_bind_eq. apply Hf, Hm. Qed.
Lemma returns_ret {A} (a : A) (Q : A -> Prop) : Q a -> returns (mret a) Q.
Proof. by intros H w. Qed.
Lemma returns_ask {A} (f : nat -> A) : returns (ask f) (fun a => exists t, f t = a).
Proof. intros w. by exists (w_tick w). Qed.
Lemma returns_any {A} (m : M A) : returns m (fun _ => True).
Proof. done. Qed.
Lemma returns_weaken {A} (m : M A) (Q R : A -> Prop) : returns m Q -> (forall a, Q a -> R a) -> returns m R.
Proof. intros H HQ w. apply HQ, H. Qed.

Implicit Types (ev : signedTxEvidence) (h : Z) (c : evmDisposer).

(** What the searches find occupies the nonce. *)
Definition finds ev h (r : option (option EvmDisposeOccupier)) : Prop := forall o, r = Some (Some o) -> occupied ev h o.

Lemma finds_none ev h : finds ev h (Some None).
Proof. by intros o. Qed.
Lemma finds_error ev h : finds ev h None.
Proof. by intros o. Qed.

Lemma returns_evmOccupier ev hash h : returns (evmOccupier ev hash h) (finds ev h).
Proof.
  unfold evmOccupier. destruct (Z.eqb_spec hash (e_TxHash ev)) as [|Hne]; [by apply returns_ret|].
  eapply returns_bind; [apply returns_ask|]. intros [ [tx|]|] [t Ht]; [|by apply returns_ret..].
  destruct (bool_decide _) eqn:Hs; [|by apply returns_ret]. apply bool_decide_eq_true in Hs. cbn [negb orb].
  destruct (Z.eqb_spec (tx_Nonce tx) (e_Nonce ev)) as [Hn|]; [|by apply returns_ret]. cbn [negb orb].
  destruct (Z.eqb_spec (tx_Hash tx) hash) as [Hh|]; [|by apply returns_ret]. cbn [negb]. subst hash.
  eapply returns_bind; [apply returns_ask|]. intros [r|] [t' Ht']; [|by apply returns_ret].
  apply returns_ret. destruct (included r h) as [ [ok block]|] eqn:Hi; [|by intros o].
  intros o [= <-]. left. split; [done|]. exists tx. split; [done|]. split; eauto.
Qed.

Lemma finds_cosmos ev h view :
  (exists t hash, cosmos_Tx t hash = Ok (Some view)) \/ (exists t l, SearchAccSeq t (accSeq ev) h = Ok l /\ view ∈ l) ->
  finds ev h (Some (cosmosOccupier ev view h)).
Proof.
  intros Hf o. unfold cosmosOccupier. destruct view as [ [v s] msgs]. destruct (existsb _ s) eqn:Hs; [|done].
  cbn [negb]. destruct (Z.eqb_spec (v_Height v) 0) as [|H0]; [done|]. destruct (Z.gtb_spec (v_Height v) h) as [|Hh]; [done|].
  intros [= <-]. right. exists (v, s, msgs). split; [done|]. split; try done.
  apply existsb_exists in Hs as (x & Hx%list_elem_of_In & Hx'). by exists x.
Qed.

Lemma returns_cosmos_evidence req ev h c : returns (cosmos_evidence req ev h c) (fun x => finds ev h x.2).
Proof.
  unfold cosmos_evidence. destruct (bool_decide _); [by apply returns_ret|]. destruct (negb _); [by apply returns_ret|].
  eapply returns_bind; [apply returns_any|]. intros [c'|] _; [|by apply returns_ret].
  eapply returns_bind; [apply returns_ask|]. intros [ [view|]|[]] [t Ht]; apply returns_ret; try done.
  apply finds_cosmos. left. by exists t, (EvidenceCosmosTx req).
Qed.

Lemma returns_scan_block ev h txs : returns (scan_block ev h txs) (finds ev h).
Proof.
  induction txs as [|tx txs IH]; [by apply returns_ret|]. cbn. destruct (_ || _); [exact IH|].
  eapply returns_bind; [apply returns_evmOccupier|]. intros [ [o|]|] H; [|exact IH|]; by apply returns_ret.
Qed.

Lemma returns_scan_blocks ev h n block c : returns (scan_blocks ev h n block c) (fun x => finds ev h x.2).
Proof.
  revert block c. induction n as [|n IH]; intros block c; [by apply returns_ret|]. cbn.
  eapply returns_bind; [apply returns_any|]. intros [txs|[]] _; [|apply IH|by apply returns_ret].
  eapply returns_bind; [apply returns_scan_block|]. intros [ [o|]|] H; [|apply IH|]; by apply returns_ret.
Qed.

Lemma first_cosmos_finds ev h views l :
  (exists t, SearchAccSeq t (accSeq ev) h = Ok l) -> (forall v, v ∈ views -> v ∈ l) -> finds ev h (Some (first_cosmos ev h views)).
Proof.
  intros [t Ht] Hl. induction views as [|view views IH]; [done|]. cbn. destruct (cosmosOccupier ev view h) as [o|] eqn:Ho.
  - rewrite <-Ho. apply finds_cosmos. right. exists t, l. split; [done|]. apply Hl. left.
  - apply IH. intros v Hv. apply Hl. by right.
Qed.

Lemma returns_search ev h c : returns (search_acc_seq ev h c) (fun x => finds ev h x.2).
Proof.
  unfold search_acc_seq. eapply returns_bind; [apply returns_any|]. intros [c'|] _; [|by apply returns_ret].
  destruct (negb _); [by apply returns_ret|]. eapply returns_bind; [apply returns_ask|].
  intros [views|[]] [t Ht]; apply returns_ret; try done. eapply first_cosmos_finds; [by exists t|done].
Qed.

Lemma returns_findOccupier req ev h c : returns (findOccupier req ev h c) (fun x => finds ev h x.2).
Proof.
  unfold findOccupier. eapply returns_bind with (Q := finds ev h); [destruct (_ =? _); [by apply returns_ret|apply returns_evmOccupier]|].
  intros [ [o|]|] H; [by apply returns_ret| |by apply returns_ret].
  eapply returns_bind; [apply returns_cosmos_evidence|]. intros [c1 [ [o|]|]] H1; [by apply returns_ret| |by apply returns_ret].
  destruct (_ =? _); [by apply returns_ret|].
  eapply returns_bind; [apply returns_scan_blocks|]. intros [c2 [ [o|]|]] H2; [by apply returns_ret| |by apply returns_ret].
  apply returns_search.
Qed.
End returns.

(** ** Store calls *)

Section calls.
Context {En : Env} {Et : EthTx} {De : DisposeEnv} (HE : Env_ok) (P : evm_db -> Prop) {HP : Stable P}.
Context (req : EvmDisposeRequest).

Lemma quiet_manual_resolve p res ev : quiet P (write (fun actor now => ManualResolvePending actor now p res ev)).
Proof. quiet_call (CResolveTo None p res ev). Qed.
Lemma quiet_manual_settle o from to ev : quiet P (write (fun actor now => ManualSettleOutcome actor now o from to ev)).
Proof. quiet_call (CSettle None o from to ev). Qed.

Lemma quiet_write_pending p res ev : quiet P (write_pending req p res ev).
Proof. unfold write_pending. apply quiet_bind; [exact _|apply quiet_manual_resolve|intros ?]. quiet_all. Qed.
Lemma quiet_write_outcome o from to ev : quiet P (write_outcome o from to ev).
Proof. unfold write_outcome. apply quiet_bind; [exact _|apply quiet_manual_settle|intros ?]. quiet_all. Qed.
Lemma quiet_reject base code r : quiet P (reject req base code r).
Proof. unfold reject. quiet_all. Qed.
Lemma quiet_checkEvidence ref base r : quiet P (checkEvidence req ref base r).
Proof. unfold checkEvidence. quiet_all. Qed.
Lemma quiet_checkCosmosOnce ev c : quiet P (checkCosmosOnce ev c).
Proof. unfold checkCosmosOnce. quiet_all. Qed.
Lemma quiet_evmOccupier ev hash h : quiet P (evmOccupier ev hash h).
Proof. unfold evmOccupier. quiet_all. Qed.
Lemma quiet_no_code a b : quiet P (no_code a b).
Proof. unfold no_code. quiet_all. Qed.
Lemma quiet_waitHeight polls want : quiet P (waitHeight polls want).
Proof. induction polls; cbn; quiet_all. Qed.
End calls.
#[export] Hint Resolve quiet_write_pending quiet_write_outcome quiet_reject quiet_checkEvidence quiet_checkCosmosOnce quiet_evmOccupier
  quiet_no_code quiet_waitHeight : quiet.

Section calls2.
Context {En : Env} {Et : EthTx} {De : DisposeEnv} (HE : Env_ok) (P : evm_db -> Prop) {HP : Stable P}.
Context (req : EvmDisposeRequest).

Lemma quiet_cosmos_evidence ev h c : quiet P (cosmos_evidence req ev h c).
Proof. unfold cosmos_evidence. quiet_all. Qed.
Lemma quiet_scan_block ev h txs : quiet P (scan_block ev h txs).
Proof. induction txs; cbn; quiet_all. Qed.
Lemma quiet_search ev h c : quiet P (search_acc_seq ev h c).
Proof. unfold search_acc_seq. quiet_all. Qed.
Lemma quiet_original_in_cosmos ev h c : quiet P (original_in_cosmos ev h c).
Proof. unfold original_in_cosmos. quiet_all. Qed.
Lemma quiet_classify_foreign target s tx b : quiet P (classify_foreign target s tx b).
Proof. unfold classify_foreign. quiet_all. Qed.
Lemma quiet_finishWrite base ev err r : quiet P (finishWrite req base ev err r).
Proof. unfold finishWrite. quiet_all. Qed.
Lemma quiet_assessGap target s : quiet (fun db => P db /\ recorded (tx_Hash (tg_tx target)) db) (assessGap target s).
Proof. unfold assessGap. quiet_all. Qed.
End calls2.
#[export] Hint Resolve quiet_cosmos_evidence quiet_scan_block quiet_search quiet_original_in_cosmos quiet_classify_foreign quiet_finishWrite
  quiet_assessGap : quiet.

Section calls3.
Context {En : Env} {Et : EthTx} {De : DisposeEnv} (HE : Env_ok) (P : evm_db -> Prop) {HP : Stable P}.
Context (req : EvmDisposeRequest) (polls : nat).

Lemma quiet_scan_blocks ev h n b c : quiet P (scan_blocks ev h n b c).
Proof. revert b c. induction n; intros b c; cbn; quiet_all. Qed.
Hint Resolve quiet_scan_blocks : quiet.
Lemma quiet_findOccupier ev h c : quiet P (findOccupier req ev h c).
Proof. unfold findOccupier. quiet_all. Qed.
Lemma quiet_classify target o s : quiet P (classify target o s).
Proof. unfold classify. quiet_all. Qed.
Lemma quiet_loadOutcome states r : quiet P (loadOutcome req states r).
Proof. unfold loadOutcome. quiet_all. Qed.
Lemma quiet_settle o from to base ev r : quiet P (settle req o from to base ev r).
Proof. unfold settle. quiet_all. Qed.
End calls3.
#[export] Hint Resolve quiet_findOccupier quiet_classify quiet_loadOutcome quiet_settle : quiet.

Section calls4.
Context {En : Env} {Et : EthTx} {De : DisposeEnv} (HE : Env_ok) (P : evm_db -> Prop) {HP : Stable P}.
Context (req : EvmDisposeRequest) (polls : nat).

Lemma quiet_assess_used target s c : quiet P (assess_used req target s c).
Proof. unfold assess_used. quiet_all. Qed.
Lemma quiet_settleByDecision r : quiet P (settleByDecision req r).
Proof. unfold settleByDecision. quiet_all. Qed.
End calls4.
#[export] Hint Resolve quiet_assess_used quiet_settleByDecision : quiet.

Section calls5.
Context {En : Env} {Et : EthTx} {De : DisposeEnv} (HE : Env_ok) (P : evm_db -> Prop) {HP : Stable P}.
Context (req : EvmDisposeRequest) (polls : nat).

Lemma quiet_assess target h c : quiet (fun db => P db /\ recorded (tx_Hash (tg_tx target)) db) (assess req target h c).
Proof. unfold assess. quiet_all. Qed.
Hint Resolve quiet_assess : quiet.
Lemma quiet_assessTwice target base r :
  quiet (fun db => P db /\ recorded (tx_Hash (tg_tx target)) db) (assessTwice req polls target base r).
Proof. unfold assessTwice. quiet_all. Qed.

(** The evidence that was verified is stored. *)
Lemma checkEvidence_stored ref base r w ev tx :
  db_wf (w_db w) -> (checkEvidence req ref base r w).2 = inr (ev, tx) ->
  verify (Some ev) ref = Ok tx /\ exists i, signed (w_db (checkEvidence req ref base r w).1) !! i = Some ev.
Proof.
  intros W. unfold checkEvidence. rewrite M_bind_eq. unfold query. cbn [fst snd]. case_bool_decide; [|done].
  destruct (GetSignedTx (interfere (w_tick w) (w_db w)) (r_SignedTxID ref)) as [e|] eqn:Hg.
  - destruct (verify (Some e) ref) as [t|] eqn:Hv; [intros [= -> ->]; split; [done|]; exists (r_SignedTxID ref); exact Hg|].
    cbn. destruct (DryRun req); [done|]. rewrite !M_bind_eq. by destruct (write _ _).2.
  - destruct (verify None ref) as [t|] eqn:Hv; (destruct (DryRun req); [done|]); rewrite !M_bind_eq; by destruct (write _ _).2.
Qed.

Lemma quiet_evidence_bind {B} ref base r (f : EvmDisposeReport + signedTxEvidence * Tx -> M B) :
  (forall r', quiet P (f (inl r'))) ->
  (forall ev tx, quiet (fun db => P db /\ recorded (tx_Hash tx) db) (f (inr (ev, tx)))) ->
  quiet P (checkEvidence req ref base r ≫= f).
Proof.
  intros Hl Hr. eapply (quiet_bind_post P (fun a db => match a with inr (_, tx) => recorded (tx_Hash tx) db | _ => True end));
    [by apply quiet_checkEvidence| |].
  - intros w W _. destruct (checkEvidence req ref base r w).2 as [|[ev tx]] eqn:E; [done|].
    destruct (checkEvidence_stored _ _ _ _ _ _ W E) as [Hv [i Hi]]. exists i, ev. split; [done|]. symmetry. by eapply verify_hash.
  - intros [r'|[ev tx]]; [|apply Hr]. eapply quiet_weaken; [apply Hl|]. by intros db [? _].
Qed.
End calls5.

Section calls6.
Context {En : Env} {Et : EthTx} {De : DisposeEnv} (HE : Env_ok) (P : evm_db -> Prop) {HP : Stable P}.
Context (req : EvmDisposeRequest) (polls : nat).
Lemma quiet_assessTwice_of tx target base r :
  tg_tx target = tx -> quiet (fun db => P db /\ recorded (tx_Hash tx) db) (assessTwice req polls target base r).
Proof. intros <-. by apply quiet_assessTwice. Qed.
Hint Resolve quiet_assessTwice_of : quiet.

Lemma quiet_resolve_manual r : quiet P (resolve req polls r).
Proof.
  unfold resolve. cbv zeta. apply quiet_bind; [exact _|auto with quiet|intros [ [p|]|] ]; [|auto with quiet..].
  destruct (negb _); [auto with quiet|]. apply quiet_evidence_bind; [done|exact _|intros r'|intros ev tx]; quiet_all.
Qed.
Lemma quiet_resolveOutcome r : quiet P (resolveOutcome req polls r).
Proof.
  unfold resolveOutcome. cbv zeta. apply quiet_bind; [exact _|auto with quiet|intros [r'|o] ]; [auto with quiet|].
  apply quiet_evidence_bind; [done|exact _|intros r'|intros ev tx]; quiet_all.
Qed.
Hint Resolve quiet_resolve_manual quiet_resolveOutcome : quiet.
Lemma quiet_dispose : quiet P (disposeEvmState req polls).
Proof. unfold disposeEvmState. quiet_all. Qed.
End calls6.

(** ** Dry runs *)

Section dry.
Context {En : Env} {Et : EthTx} {De : DisposeEnv}.

(** Nothing is sent, and only other processes write. *)
Definition reads {A} (m : M A) : Prop :=
  forall w, w_sent (m w).1 = w_sent w /\ exists ts, w_db (m w).1 = foldl (fun db t => interfere t db) (w_db w) ts.

Lemma reads_ret {A} (a : A) : reads (mret a).
Proof. intros w. split; [done|]. by exists []. Qed.
Lemma reads_ask {A} (f : nat -> A) : reads (ask f).
Proof. intros w. split; [done|]. by exists []. Qed.
Lemma reads_query {A} (f : evm_db -> A) : reads (query f).
Proof. intros w. split; [done|]. by exists [w_tick w]. Qed.
Lemma reads_bind {A B} (m : M A) (f : A -> M B) : reads m -> (forall a, reads (f a)) -> reads (m ≫= f).
Proof.
  intros Hm Hf w. rewrite M_bind_eq. destruct (Hm w) as [Hs [ts Hd]]. destruct (Hf (m w).2 (m w).1) as [Hs' [ts' Hd'] ].
  split; [by rewrite Hs'|]. exists (ts ++ ts'). by rewrite Hd', Hd, foldl_app.
Qed.
End dry.

Create HintDb reads.
#[export] Hint Resolve reads_ret reads_ask reads_query : reads.

Ltac reads_step :=
  first
    [ solve [eauto with reads]
    | match goal with
      | |- reads (_ ≫= _) => apply reads_bind; [|intros ?]
      | |- reads (let '(_, _) := ?x in _) => destruct x
      | |- reads (match ?x with _ => _ end) => destruct x
      end ].
Ltac reads_all := cbv zeta; repeat reads_step.

Section dry_calls.
Context {En : Env} {Et : EthTx} {De : DisposeEnv} (req : EvmDisposeRequest) (polls : nat) (Hdry : DryRun req = true).

Lemma reads_reject base code r : reads (reject req base code r).
Proof using Hdry. unfold reject. rewrite Hdry. reads_all. Qed.
Lemma reads_checkEvidence ref base r : reads (checkEvidence req ref base r).
Proof using Hdry. unfold checkEvidence. rewrite Hdry. reads_all. Qed.
Lemma reads_settle o from to base ev r : reads (settle req o from to base ev r).
Proof using Hdry. unfold settle. rewrite Hdry. reads_all. Qed.
Lemma reads_checkCosmosOnce ev c : reads (checkCosmosOnce ev c).
Proof using Type. unfold checkCosmosOnce. reads_all. Qed.
Lemma reads_evmOccupier ev hash h : reads (evmOccupier ev hash h).
Proof using Type. unfold evmOccupier. reads_all. Qed.
Lemma reads_no_code a b : reads (no_code a b).
Proof using Type. unfold no_code. reads_all. Qed.
Lemma reads_waitHeight n want : reads (waitHeight n want).
Proof using Type. induction n; cbn; reads_all. Qed.
Hint Resolve reads_reject reads_checkEvidence reads_settle reads_checkCosmosOnce reads_evmOccupier reads_no_code reads_waitHeight : reads.

Lemma reads_cosmos_evidence ev h c : reads (cosmos_evidence req ev h c).
Proof using Type. unfold cosmos_evidence. reads_all. Qed.
Lemma reads_scan_block ev h txs : reads (scan_block ev h txs).
Proof using Type. induction txs; cbn; reads_all. Qed.
Hint Resolve reads_scan_block : reads.
Lemma reads_scan_blocks ev h n b c : reads (scan_blocks ev h n b c).
Proof using Type. revert b c. induction n; intros b c; cbn; reads_all. Qed.
Lemma reads_search ev h c : reads (search_acc_seq ev h c).
Proof using Type. unfold search_acc_seq. reads_all. Qed.
Hint Resolve reads_cosmos_evidence reads_scan_blocks reads_search : reads.
Lemma reads_findOccupier ev h c : reads (findOccupier req ev h c).
Proof using Type. unfold findOccupier. reads_all. Qed.
Lemma reads_classify_foreign target s tx b : reads (classify_foreign target s tx b).
Proof using Type. unfold classify_foreign. reads_all. Qed.
Hint Resolve reads_findOccupier reads_classify_foreign : reads.
Lemma reads_classify target o s : reads (classify target o s).
Proof using Type. unfold classify. reads_all. Qed.
Hint Resolve reads_classify : reads.

(** An assessment that does not probe sends nothing. *)
Lemma reads_assess target h c : tg_probeGap target = false -> reads (assess req target h c).
Proof using Type. intros Hp. unfold assess, assess_used, assessGap, original_in_cosmos. rewrite Hp. cbn [negb]. reads_all. Qed.
Hint Resolve reads_assess : reads.
Lemma reads_assessTwice target base r : tg_probeGap target = false -> reads (assessTwice req polls target base r).
Proof using Hdry. intros Hp. unfold assessTwice. reads_all. Qed.
Hint Resolve reads_assessTwice : reads.
Lemma reads_loadOutcome states r : reads (loadOutcome req states r).
Proof using Hdry. unfold loadOutcome. reads_all. Qed.
Hint Resolve reads_loadOutcome : reads.

Lemma reads_dispose : reads (disposeEvmState req polls).
Proof using Hdry. unfold disposeEvmState, resolve, resolveOutcome, settleByDecision. rewrite Hdry. cbn [negb]. reads_all. Qed.
End dry_calls.

(** ** Samples *)

Section samples.
Context {En : Env} {Et : EthTx} {De : DisposeEnv} (HE : Env_ok) (req : EvmDisposeRequest).
Implicit Types (target : evmDisposeTarget) (s : EvmDisposeSample) (h : Z).

(** Started where [P] holds of the database, the result and the database it leaves have [Q]. *)
Definition yields {A} (P : evm_db -> Prop) (m : M A) (Q : A -> evm_db -> Prop) : Prop :=
  forall w, db_wf (w_db w) -> P (w_db w) -> Q (m w).2 (w_db (m w).1).

Lemma yields_bind {A B} P `{!Stable P} (m : M A) (f : A -> M B) Q R :
  quiet P m -> yields P m Q -> (forall a, yields (fun db => P db /\ Q a db) (f a) R) -> yields P (m ≫= f) R.
Proof.
  intros Hq Hm Hf w W HP. rewrite M_bind_eq. destruct (Hq w W HP) as [Hr _].
  apply Hf; [by eapply reach_wf|]. split; [by eapply stable|by apply Hm].
Qed.

Lemma yields_ret {A} (P : evm_db -> Prop) (a : A) (Q : A -> evm_db -> Prop) : (forall db, P db -> Q a db) -> yields P (mret a) Q.
Proof. intros H w _ HP. by apply H. Qed.

Lemma yields_returns {A} P (m : M A) Q : returns m Q -> yields P m (fun a _ => Q a).
Proof. intros H w _ _. apply H. Qed.

Lemma yields_weaken {A} (P P' : evm_db -> Prop) (m : M A) (Q Q' : A -> evm_db -> Prop) :
  yields P m Q -> (forall db, P' db -> P db) -> (forall a db, Q a db -> Q' a db) -> yields P' m Q'.
Proof. intros H HP HQ w W H'. by apply HQ, H, HP. Qed.

(** The answer to a question, and nothing new about the database. *)
Lemma yields_ask_bind {A B} P `{!Stable P} (f : nat -> A) (k : A -> M B) R :
  (forall t, yields P (k (f t)) R) -> yields P (ask f ≫= k) R.
Proof. intros H w W HP. rewrite M_bind_eq. cbn. by apply (H (w_tick w)). Qed.

(** The sample is of the height, and its branch is shown. *)
Definition sample_shows target h (s : EvmDisposeSample) (db : evm_db) : Prop :=
  sa_Height s = h /\ exists b, sa_Branch s = Some b /\ shows target h b db.
Definition sound target h (x : EvmDisposeSample * bool) (db : evm_db) : Prop := x.2 = false -> sample_shows target h x.1 db.

#[local] Instance sample_shows_stable target h s : Stable (sample_shows target h s).
Proof. intros db db' W R [Hh (b & Hb & Hs)]. split; [done|]. exists b. split; [done|by eapply stable]. Qed.

Lemma shown target h s b db : sa_Height s = h -> shows target h b db -> sound target h (with_branch b s, false) db.
Proof. intros Hh Hs _. split; [done|]. by exists b. Qed.
Lemma sound_error target h s db : sound target h (s, true) db.
Proof. done. Qed.

Lemma yields_no_code P a b :
  yields P (no_code a b) (fun r _ => r = true -> (exists t, CodeAt t a (b - 1) = Some []) /\ (exists t, CodeAt t a b = Some [])).
Proof.
  apply yields_returns. unfold no_code. eapply returns_bind; [apply returns_ask|]. intros [ [|]|] [t Ht]; [|by apply returns_ret..].
  eapply returns_bind; [apply returns_ask|]. intros [ [|]|] [t' Ht']; apply returns_ret; [|done..]. eauto.
Qed.

Lemma classify_foreign_sound target s tx block h :
  sa_Height s = h -> nonce_used (tg_evidence target) h -> occupies_evm (tg_evidence target) h tx true block ->
  yields (fun _ => True) (classify_foreign target s tx block) (sound target h).
Proof.
  intros Hh Hn Ho. unfold classify_foreign. cbv zeta. destruct (_ && _) eqn:Hsame.
  { apply yields_ret. intros db _. apply shown; [done|]. split; [done|]. exists tx, block. split; [done|right].
    apply andb_true_iff in Hsame as [ [Hto Hv]%andb_true_iff Hd%bool_decide_eq_true]. split_and!; [|by apply Z.eqb_eq|done].
    destruct (tx_To tx), (tx_To (tg_tx target)); try done. apply Z.eqb_eq in Hto as ->. eauto. }
  destruct (tx_To tx) as [to|] eqn:Hto; [|apply yields_ret; intros; by apply shown].
  destruct (negb _ || _ || _) eqn:Hc; [apply yields_ret; intros; by apply shown|].
  apply orb_false_iff in Hc as [ [Hd%negb_false_iff%bool_decide_eq_true Hpre]%orb_false_iff _].
  eapply yields_bind; [exact _|auto with quiet|apply yields_no_code|]. intros [|]; apply yields_ret; intros db [_ Hcode]; apply shown; try done.
  split; [done|]. exists tx, block. split; [done|]. destruct (Hcode eq_refl). by exists to.
Qed.

Lemma classify_sound target o s h :
  sa_Height s = h -> nonce_used (tg_evidence target) h -> occupied (tg_evidence target) h o ->
  yields (fun _ => True) (classify target o s) (sound target h).
Proof.
  intros Hh Hn Ho. unfold classify. destruct (oc_Succeeded o) eqn:Hok; cbn [negb].
  2: { apply yields_ret. intros db _. apply shown; [done|]. split; [done|]. unfold occupied in Ho. rewrite Hok in Ho.
       destruct Ho as [ [_ (tx & _ & H)]|(v & _ & H)]; [left; by exists tx, (oc_Block o)|right; by exists v]. }
  destruct Ho as [ [Hc (tx & Htx & H)]|(v & Hc & H)]; rewrite Hok in H; rewrite Hc.
  2: { destruct v as [ [v sq] [msgs|] ]; apply yields_ret; intros db _; [|by apply shown].
       destruct (existsb _ msgs) eqn:He; apply shown; try done. split; [done|].
       apply existsb_exists in He as (msg & Hin%list_elem_of_In & Hop%bool_decide_eq_true). by exists v, sq, msgs, msg. }
  rewrite Htx. eapply (yields_bind _ _ _ (fun own db => match own with Ok (Some own) =>
    (exists i, signed db !! i = Some own) /\ e_TxHash own = tx_Hash tx | _ => True end)); [auto with quiet| |].
  { intros w W _. unfold query. cbn [fst snd w_db set_tick set_db]. case_bool_decide; [|done].
    destruct (GetSignedTxByHash _ _ _) as [own|] eqn:Hg; [|done]. destruct (by_hash_some _ _ _ _ Hg) as (? & _ & ?). done. }
  intros [ [own|]|e]; [|eapply yields_weaken; [by apply classify_foreign_sound|done|done]|apply yields_ret; intros; apply sound_error].
  destruct (verify _ _) eqn:Hv; [|apply yields_ret; intros; by apply shown].
  apply yields_ret. intros db [_ [ [i Hi] Hhash] ]. assert (signed_own tx (e_Operation own) db) as Hs by (exists i, own; eauto 6).
  destruct (Z.eqb_spec (e_Operation own) (tg_operation target)) as [E|E]; (apply shown; [done|split; [done|] ]).
  - exists tx, (oc_Block o). split; [done|left]. by rewrite <-E.
  - by exists tx, (oc_Block o), (e_Operation own).
Qed.

(** An assessment of which the sample is [x.1.2] and the error [x.2]. *)
Definition assessed target h (x : evmDisposer * EvmDisposeSample * bool) (db : evm_db) : Prop := sound target h (x.1.2, x.2) db.

#[local] Instance assessed_stable target h x : Stable (assessed target h x).
Proof. intros db db' W R H He. eapply stable; [done|exact R|by apply H]. Qed.

Lemma assessed_error target h c s db : assessed target h (c, s, true) db.
Proof. done. Qed.

Lemma gap_sound target s h t :
  sa_Height s = h -> NonceAt t (e_From (tg_evidence target)) h = Some (sa_ChainNonce s) -> sa_ChainNonce s < e_Nonce (tg_evidence target) ->
  yields (recorded (tx_Hash (tg_tx target))) (assessGap target s) (sound target h).
Proof.
  intros Hh Hn Hlt. unfold assessGap. apply yields_ask_bind; [exact _|]. intros t1.
  destruct (PendingNonceAt t1 _) as [pending|] eqn:Hp; [|apply yields_ret; intros; apply sound_error].
  destruct (negb (tg_probeGap target)); [apply yields_ret; intros; by apply shown|].
  destruct (Z.eqb_spec pending (sa_ChainNonce (with_pending pending s))) as [E|]; cbn [negb]; [|apply yields_ret; intros; by apply shown].
  cbn in E. intros w W _. unfold send. rewrite !M_bind_eq. cbn [put ask fst snd set_tick w_tick set_sent].
  destruct (sendEvmTxFn (w_tick w) _) as [e|] eqn:He.
  - cbn [ask fst snd]. destruct (_ && _) eqn:Hc; apply shown; try done. cbn.
    apply andb_true_iff in Hc as [_ Hhigh]. exists t, (sa_ChainNonce s), t1, (w_tick w), e. split_and!; [done|done|by rewrite <-E|done|done].
  - by apply shown.
Qed.

Lemma used_sound target s c h :
  sa_Height s = h -> nonce_used (tg_evidence target) h ->
  yields (fun _ => True) (assess_used req target s c) (assessed target h).
Proof.
  intros Hh Hn. unfold assess_used. rewrite Hh.
  eapply (yields_bind _ _ _ (fun x _ => forall v, x.2 = Some (Some v) -> original_aborted (tg_evidence target) h)); [auto with quiet| |].
  { apply yields_returns. unfold original_in_cosmos. destruct (negb _); [by apply returns_ret|].
    eapply returns_bind; [apply returns_any|]. intros [c'|] _; [|by apply returns_ret].
    eapply returns_bind; [apply returns_ask|]. intros [ [v|]|[]] [t Ht]; apply returns_ret; try done. intros v'. cbn.
    destruct (Z.eqb_spec (v_Code v) 0) as [|Hcode]; [done|]. intros _. by exists t, v. }
  intros [c1 [ [v|]|]]; [| |apply yields_ret; intros; apply assessed_error].
  { apply yields_ret. intros db [_ Ha] _. split; [done|]. eexists. split; [done|]. right. split; [done|by eapply Ha]. }
  eapply (yields_bind _ _ _ (fun x _ => finds (tg_evidence target) h x.2)); [auto with quiet|apply yields_returns, returns_findOccupier|].
  intros [c2 [ [o|]|]]; [| |apply yields_ret; intros; apply assessed_error].
  2: { apply yields_ret. intros db _. by apply shown. }
  intros w W [_ Hf]. pose proof (classify_sound target o (with_occupier o s) h Hh Hn (Hf o eq_refl)) as Hc.
  rewrite M_bind_eq. specialize (Hc w W I). destruct (classify target o (with_occupier o s) w) as [w' [s' e] ]. exact Hc.
Qed.

Lemma assess_sound target h c : yields (recorded (tx_Hash (tg_tx target))) (assess req target h c) (assessed target h).
Proof.
  unfold assess. apply yields_ask_bind; [exact _|]. intros t. destruct (transactionReceiptFn t _) as [r|] eqn:Hr; [|apply yields_ret; intros; apply assessed_error].
  apply yields_ask_bind; [exact _|]. intros t1. destruct (NonceAt t1 _ h) as [n|] eqn:Hn; [|apply yields_ret; intros; apply assessed_error].
  destruct (included r h) as [ [ok block]|] eqn:Hi; cbn [sa_Branch with_branch with_receipt_block].
  { apply yields_ret. intros db _ _. split; [done|]. eexists. split; [done|].
    assert (original (tg_evidence target) h ok) as Ho by (by exists t, r, block). destruct ok; [done|by left]. }
  destruct (Z.eqb_spec n (e_Nonce (tg_evidence target))); [apply yields_ret; intros; by apply shown|].
  destruct (Z.ltb_spec n (e_Nonce (tg_evidence target))) as [Hlt|Hge].
  - destruct (negb _); [apply yields_ret; intros; by apply shown|]. intros w W HP. rewrite M_bind_eq.
    pose proof (gap_sound target (mkSample h n None None 0 None) h t1 eq_refl Hn Hlt w W HP) as Hg.
    destruct (assessGap _ _ w) as [w' [s' e] ]. exact Hg.
  - eapply yields_weaken; [apply used_sound; [done|]|done|done]. exists t1, n. split; [done|]. lia.
Qed.

Lemma returns_waitHeight polls want : returns (waitHeight polls want) (fun r => forall h, r = Some h -> want <= h /\ exists t, BlockNumber t = Some h).
Proof.
  induction polls as [|polls IH]; cbn; (eapply returns_bind; [apply returns_ask|]); intros [h|] [t Ht]; try (by apply returns_ret);
    (destruct (Z.geb_spec h want); [apply returns_ret; intros h' [= <-]; eauto|]); [by apply returns_ret|exact IH].
Qed.

(** Two heights at which the same branch is shown. *)
Definition shown_twice target (s : EvmDisposeSample) (db : evm_db) : Prop :=
  exists h1 h2 b, (exists t, BlockNumber t = Some h1) /\ (exists t, BlockNumber t = Some h2) /\ uwrap 64 (h1 + 1) <= h2 /\
    sa_Branch s = Some b /\ shows target h1 b db /\ shows target h2 b db.

#[local] Instance shown_twice_stable target s : Stable (shown_twice target s).
Proof.
  intros db db' W R (h1 & h2 & b & ? & ? & ? & ? & H1 & H2). exists h1, h2, b. split_and!; try done; by eapply stable.
Qed.

Lemma sample_key_branch a b : sample_key a = sample_key b -> sa_Branch a = sa_Branch b.
Proof. unfold sample_key. destruct (sa_Branch a) as [ []|], (sa_Branch b) as [ []|]; congruence. Qed.

Lemma assessTwice_sound polls target base report :
  yields (recorded (tx_Hash (tg_tx target))) (assessTwice req polls target base report)
    (fun x db => forall r s, x = inr (r, s) -> shown_twice target s db).
Proof.
  assert (forall P base code report, yields P (report ← reject req base code report; mret (inl report : EvmDisposeReport + EvmDisposeReport * EvmDisposeSample))
            (fun x db => forall r s, x = inr (r, s) -> shown_twice target s db)) as Hstop by (intros P b code r w _ _; by rewrite M_bind_eq).
  unfold assessTwice. apply yields_ask_bind; [exact _|]. intros t. destruct (evm_ChainID t) as [chainID|]; [|apply Hstop].
  destruct (_ || _); [apply Hstop|]. apply yields_ask_bind; [exact _|]. intros t1. destruct (BlockNumber t1) as [first|] eqn:Hfirst; [|apply Hstop].
  eapply (yields_bind _ _ _ (assessed target first)); [by eapply quiet_weaken; [by apply (quiet_assess HE (fun _ => True))|]|apply assess_sound|].
  intros [ [c a] [|] ]; [apply Hstop|]. cbv zeta.
  eapply (yields_bind _ _ _ (fun r _ => forall h, r = Some h -> uwrap 64 (first + 1) <= h /\ exists t, BlockNumber t = Some h));
    [auto with quiet|apply yields_returns, returns_waitHeight|].
  intros [second|]; [|apply Hstop].
  eapply (yields_bind _ _ _ (assessed target second)); [by eapply quiet_weaken; [by apply (quiet_assess HE (fun _ => True))|intros db [ [? _] _] ]
    |by eapply yields_weaken; [apply assess_sound|intros db [ [? _] _]|]|].
  intros [ [c' b] [|] ]; [apply Hstop|]. cbv zeta. case_bool_decide as Hkey; cbn [negb]; [|apply Hstop].
  apply yields_ret. intros db [ [ [_ Ha] Hsecond] Hb] r s [= _ <-]. destruct (Hsecond _ eq_refl) as [Hlt Ht2].
  destruct (Ha eq_refl) as [_ (b1 & Hb1 & Hs1)]. destruct (Hb eq_refl) as [_ (b2 & Hb2 & Hs2)]. cbn in Hb1, Hb2.
  assert (b1 = b2) as -> by (apply sample_key_branch in Hkey; congruence).
  exists first, second, b2. split_and!; try done. by exists t1.
Qed.
End samples.

(** ** The write *)

(** The audit row of a call with a single event is found by [HasAudit]. *)
Lemma single_has_audit db db' chain ep l nm h i :
  audits db' = audits db ++ l -> Forall2 (audit_row chain ep) l [(nm, h)] -> i = 0 \/ (forall r, r ∈ l -> a_OutcomeID (au_Event r) = Some i) ->
  HasAudit db' chain nm (if i =? 0 then h else zeroHash) i = true.
Proof.
  intros Ha Hf Hi. destruct (Forall2_cons_inv_r _ _ _ _ Hf) as (r & l' & (Hc & _ & He & Hh) & _ & ->).
  unfold HasAudit. apply existsb_exists. exists r. split; [apply list_elem_of_In; rewrite Ha; apply elem_of_app; right; left|].
  cbn in He, Hh. rewrite Hc, He, !bool_decide_true by done. destruct (Z.eqb_spec i 0) as [->|Hne].
  - by rewrite Hh, Z.eqb_refl, orb_true_r.
  - destruct Hi as [|Hi]; [done|]. rewrite bool_decide_true; [done|]. apply Hi. left.
Qed.

Lemma manual_resolved actor now p res ev db db' u :
  db_wf db -> ManualResolvePending actor now p res ev db = Ok (db', u) -> a_TxHash ev = p_TxHash p ->
  ended (p_ID p) db' /\ HasAudit db' (p_ChainID p) (a_Event ev) (p_TxHash p) 0 = true.
Proof.
  intros W E Hh. assert (exec_call actor now (CResolveTo None p res ev) db = Ok (db', u)) as Ec by exact E.
  destruct (exec_call_effect actor now (CResolveTo None p res ev) db db' u W I Ec) as [ (o & o' & Hr & Hd) _ (l & Hl & Ha) _ _].
  split.
  2: { rewrite <-Hh. by apply (single_has_audit db db' _ _ l _ _ 0 Hl Ha); left. }
  destruct Hd as (r & -> & (Hid & _ & Hp & _) & Hst).
  inversion Hr as [| |i ? r' Hi Ht _ Heq Hn|i ? Hi Heq Hn]; subst.
  - destruct (wf_ids _ W _ _ Hi) as [Hii ?]. rewrite Hid in Hii. subst i. split; [lia|].
    intros r0 H0. rewrite Heq, lookup_insert_eq in H0. injection H0 as <-. intros Hp'.
    unfold row_status in Hst. cbn in Hst. rewrite Hp' in Hst. by destruct res.
  - destruct (wf_ids _ W _ _ Hi) as [Hii ?]. rewrite Hid in Hii. subst i. split; [lia|].
    intros r0 H0. by rewrite Heq, lookup_delete_eq in H0.
Qed.

(** What the write does to the rows. *)
Definition row_write (p : pendingRecord) (res : option outcomeRecord) (db db' : evm_db) : Prop :=
  exists r, states db !! p_ID p = Some r /\ pending_row p r /\
    states db' = match res with
                 | Some o => <[p_ID p := set_ambiguous false (outcomeColumns o r)]> (states db)
                 | None => delete (p_ID p) (states db)
                 end.

Lemma manual_resolve_row actor now p res ev db db' u :
  db_wf db -> ManualResolvePending actor now p res ev db = Ok (db', u) -> row_write p res db db'.
Proof.
  intros W E. unfold ManualResolvePending, resolvePendingTo in E. tx_step E. tx_facts W. destruct res as [o|].
  - match goal with H : (_ ≫= _) _ = Ok _ |- _ => tx_step H end. tx_facts W. simplify_eq. by eexists.
  - tx_facts W. simplify_eq. by eexists.
Qed.

(** A store method reports a lost COMMIT only if it was lost. *)
Lemma manual_resolve_known actor now p res ev db : ManualResolvePending actor now p res ev db <> Err evmCommitUnknownError.
Proof.
  unfold ManualResolvePending, resolvePendingTo, lockPending, lockEvidence, update_state, delete_state, one_row, insertAudit, fail, read, mbind, txM_bind, mret, txM_ret. cbn.
  repeat case_match; simplify_eq; done.
Qed.

Section writes.
Context {En : Env} {Et : EthTx} {De : DisposeEnv} (HE : Env_ok) (req : EvmDisposeRequest).

(** Unless a COMMIT is lost with its answer, a write whose answer is lost took effect. *)
Lemma write_landed {A} (fn : string -> Z -> txM A) w e :
  (forall t, fate_at t <> UnknownLost) -> (forall db, fn actor (db_now (w_tick w)) db <> Err evmCommitUnknownError) ->
  (write fn w).2 = Err e -> isEvmCommitUnknown e = true ->
  exists a, fn actor (db_now (w_tick w)) (interfere (w_tick w) (w_db w)) = Ok (w_db (write fn w).1, a).
Proof.
  intros Hl Hn E He%bool_decide_eq_true. subst e. revert E. unfold write, txn. specialize (Hl (w_tick w)).
  specialize (Hn (interfere (w_tick w) (w_db w))). destruct (fate_at (w_tick w)), (fn _ _ _) as [[db' b]|e]; cbn; try done; try congruence; eauto.
Qed.

(** The row has ended for good, and the event is audited; and unless a COMMIT was lost with
    its answer, the write was made, after [db0]. *)
Definition written (db0 : evm_db) (p : pendingRecord) (res : option outcomeRecord) (nm : evmAuditName) (db : evm_db) : Prop :=
  ended (p_ID p) db /\ HasAudit db st_chainID nm (p_TxHash p) 0 = true /\
  ((forall t, fate_at t <> UnknownLost) ->
   exists db1 db2, reach db0 db1 /\ reach db1 db2 /\ reach db2 db /\ row_write p res db1 db2).

Lemma manual_resolve_reach w p res ev :
  reach (interfere (w_tick w) (w_db w)) (w_db (write (fun actor now => ManualResolvePending actor now p res ev) w).1).
Proof.
  unfold write. destruct (txn _ _ _) as [db r] eqn:E. cbn.
  assert (db = (run (fate_at (w_tick w)) actor (db_now (w_tick w)) (CResolveTo None p res ev) (interfere (w_tick w) (w_db w))).1) as ->; [|by apply reach_run].
  unfold run. cbn [exec_call]. unfold txn in *. destruct (fate_at _); repeat case_match; simplify_eq; try done; cbn in *; simplify_eq; try done.
Qed.

Lemma write_pending_sound db0 p res ev :
  a_TxHash ev = p_TxHash p -> p_ChainID p = st_chainID ->
  yields (fun db => reach db0 db /\ scoped (p_ID p) st_chainID (req_Scope req) db) (write_pending req p res ev)
    (fun err db => err = None -> written db0 p res (a_Event ev) db).
Proof.
  intros Hh Hc w W [R0 Hsw]. unfold write_pending. set (fn := fun actor now => ManualResolvePending actor now p res ev).
  pose proof (interfere_wf HE (w_tick w) _ W) as Wi. pose proof (manual_resolve_reach w p res ev) as Ri. change (fun actor now => _) with fn in Ri.
  assert (reach db0 (interfere (w_tick w) (w_db w))) as R0' by (etrans; [exact R0|by apply interfere_reach]).
  rewrite !M_bind_eq. destruct (write fn w).2 as [o|e] eqn:Ew.
  { intros _. apply write_ok in Ew. unfold written. rewrite <-Hc.
    destruct (manual_resolved actor (db_now (w_tick w)) p res ev _ _ o Wi Ew Hh) as [He Ha]. split_and!; [exact He|exact Ha|].
    intros _. exists (interfere (w_tick w) (w_db w)), (w_db (write fn w).1). split_and!; [done|done|reflexivity|].
    by eapply manual_resolve_row. }
  destruct (isEvmCommitUnknown e) eqn:Hu; [|done].
  assert ((forall t, fate_at t <> UnknownLost) -> row_write p res (interfere (w_tick w) (w_db w)) (w_db (write fn w).1)) as Hland.
  { intros Hl. destruct (write_landed fn w e Hl) as [a Ea]; [intros db; apply manual_resolve_known|done|done|]. by eapply manual_resolve_row. }
  assert (reach (w_db w) (w_db (write fn w).1)) as R1 by (etrans; [by apply interfere_reach|exact Ri]).
  set (w1 := (write fn w).1) in *. clearbody w1. rewrite !M_bind_eq.
  unfold query. cbn [fst snd]. case_bool_decide as Hf; [|done].
  assert (reach (w_db w1) (interfere (w_tick w1) (w_db w1))) as R2' by (by apply interfere_reach).
  assert (reach (w_db w) (interfere (w_tick w1) (w_db w1))) as R2 by (by etrans).
  set (db2 := interfere (w_tick w1) (w_db w1)) in *. clearbody db2.
  destruct (match GetPending db2 st_chainID (req_Scope req) with Some c => p_ID c =? p_ID p | None => false end) eqn:Hq; [done|].
  assert (ended (p_ID p) db2) as He2.
  { apply (other_pending_ended _ _ st_chainID (req_Scope req)); [exact (reach_wf _ _ R2 W)|exact (scoped_stable _ _ _ _ _ W R2 Hsw)|].
    intros q Hq'. rewrite Hq' in Hq. by apply Z.eqb_neq. }
  rewrite M_bind_eq. cbn -[interfere HasAudit]. case_bool_decide as Hf3; [|done].
  destruct (HasAudit _ _ _ _ _) eqn:Ha; [|done]. intros _. cbn -[interfere HasAudit]. split_and!; [|exact Ha|].
  - exact (ended_stable _ _ _ (reach_wf _ _ R2 W) (interfere_reach HE _ _) He2).
  - intros Hl. exists (interfere (w_tick w) (w_db w)), (w_db w1). split_and!; [done|exact Ri| |by apply Hland].
    etrans; [exact R2'|by apply interfere_reach].
Qed.

(** Reports that say that nothing was applied stay so, except at the end of a write. *)
Definition unapplied (r : EvmDisposeReport) : Prop := Applied r = false.

Lemma returns_reject base code r : unapplied r -> returns (reject req base code r) unapplied.
Proof.
  intros H. unfold reject. destruct (DryRun req); [by apply returns_ret|]. eapply returns_bind; [apply returns_any|]. intros d _.
  eapply returns_bind; [apply returns_any|]. intros [|] _; by apply returns_ret.
Qed.

Lemma returns_checkEvidence ref base r :
  unapplied r -> returns (checkEvidence req ref base r) (fun x => match x with inl r => unapplied r | inr _ => True end).
Proof.
  intros H. unfold checkEvidence. eapply returns_bind; [apply returns_any|]. intros [e|] _; [|by apply returns_ret].
  assert (forall ev, returns (d ← ask detail; r0 ← write (fun actor now => AppendAudit actor now None st_chainID (set_detail d ev));
    mret (inl (match r0 with Ok _ => set_audit evmAuditEvidenceInvalid (fail_with EvmDisposeExitEvidenceInvalid r) | Err _ => fail_with EvmDisposeExitEvidenceInvalid r end) : EvmDisposeReport + signedTxEvidence * Tx))
    (fun x => match x with inl r => unapplied r | inr _ => True end)) as Hw.
  { intros ev. eapply returns_bind; [apply returns_any|]. intros d _. eapply returns_bind; [apply returns_any|]. intros [|] _; by apply returns_ret. }
  destruct (verify _ _), e; try (by apply returns_ret); (destruct (DryRun req); [by apply returns_ret|apply Hw]).
Qed.

Lemma returns_assessTwice polls target base r :
  unapplied r -> returns (assessTwice req polls target base r) (fun x => match x with inl r | inr (r, _) => unapplied r end).
Proof.
  intros H. unfold assessTwice. cbv zeta.
  assert (forall code r', unapplied r' -> returns (report ← reject req base code r'; mret (inl report : EvmDisposeReport + EvmDisposeReport * EvmDisposeSample))
    (fun x => match x with inl r | inr (r, _) => unapplied r end)) as Hstop.
  { intros code r' H'. eapply returns_bind; [by apply returns_reject|]. intros r'' H''. by apply returns_ret. }
  eapply returns_bind; [apply returns_any|]. intros [i|] _; [|by apply Hstop]. destruct (_ || _); [by apply Hstop|].
  eapply returns_bind; [apply returns_any|]. intros [first|] _; [|by apply Hstop].
  eapply returns_bind; [apply returns_any|]. intros [ [c a] [|] ] _; [by apply Hstop|].
  eapply returns_bind; [apply returns_any|]. intros [second|] _; [|by apply Hstop].
  eapply returns_bind; [apply returns_any|]. intros [ [c' b] [|] ] _; [by apply Hstop|].
  destruct (negb _); [by apply Hstop|by apply returns_ret].
Qed.
End writes.

(** ** Pending rows *)

Definition blank_report `{DisposeEnv} : EvmDisposeReport := mkReport [] None None false None EvmDisposeExitOK.

Section resolving.
Context {En : Env} {Et : EthTx} {De : DisposeEnv} (HE : Env_ok) (req : EvmDisposeRequest) (polls : nat).

(** The branches that let a row end this way. *)
Definition decided (b : branch) (a : option action) : Prop :=
  match a with
  | Some DeletePending => b ∈ [EvmBranchOriginalFailed; EvmBranchOtherTxFailed; EvmBranchOwnOtherOp; EvmBranchPlainTransfer]
  | Some (TurnPending evmOutcomeSucceeded _ _) => b ∈ [EvmBranchOriginalSucceeded; EvmBranchSameCall]
  | Some (TurnPending evmOutcomeExecutedElsewhere _ _) => b = EvmBranchCosmosSameOp
  | Some (TurnPending evmOutcomeBlockedUnknown _ _) =>
    AcceptUnknown req = true /\ b ∈ [EvmBranchUndetermined; EvmBranchOccupierMissing] \/ AcceptGap req = true /\ b = EvmBranchNonceGap
  | _ => False
  end.

(** The pending row of [db0] became, in [db1], what the action says; no other row changed. *)
Definition becomes (p : pendingRecord) (a : option action) (db0 db1 : evm_db) : Prop :=
  exists r, states db0 !! p_ID p = Some r /\ pending_row p r /\
    match a with
    | Some DeletePending => states db1 = delete (p_ID p) (states db0)
    | Some (TurnPending st reason res) =>
      exists r', states db1 = <[p_ID p := r']> (states db0) /\ same_tx r' r /\ State r' = RowOutcome st /\ EvmState.Reason r' = reason /\
        ResultTxHash r' = (if res =? zeroHash then None else Some res)
    | _ => False
    end.

Lemma row_write_becomes p res db0 db1 :
  row_write p res db0 db1 ->
  becomes p (Some (match res with Some o => TurnPending (o_State o) (o_Reason o) (o_ResultTxHash o) | None => DeletePending end)) db0 db1.
Proof.
  intros (r & Hr & Hp & E). exists r. split_and!; [done..|]. destruct res as [o|]; [|exact E].
  eexists. split; [exact E|]. by split_and!.
Qed.

(** What an applied resolution rests on, and what it leaves. *)
Definition resolution (db0 : evm_db) (r : EvmDisposeReport) (db : evm_db) : Prop :=
  exists p ev tx, p_TxHash p = req_TxHash req /\ p_Scope p = req_Scope req /\ verify (Some ev) (pending_ref p) = Ok tx /\
    (exists i, GetSignedTx db i = Some ev) /\
    (exists h1 h2 b, (exists t, BlockNumber t = Some h1) /\ (exists t, BlockNumber t = Some h2) /\ uwrap 64 (h1 + 1) <= h2 /\
       let target := mkTarget ev tx (p_Operation p) true true in
       shows target h1 b db /\ shows target h2 b db /\ decided b (Action r)) /\
    ended (p_ID p) db /\ (exists nm, Event r = Some nm /\ HasAudit db st_chainID nm (p_TxHash p) 0 = true) /\
    ((forall t, fate_at t <> UnknownLost) ->
     exists db1 db2, reach db0 db1 /\ reach db1 db2 /\ reach db2 db /\ becomes p (Action r) db1 db2).

Lemma conclusion_decided p s res nm :
  conclusion req p s = Some (res, nm) ->
  exists b, sa_Branch s = Some b /\
    decided b (Some (match res with Some o => TurnPending (o_State o) (o_Reason o) (o_ResultTxHash o) | None => DeletePending end)).
Proof.
  unfold conclusion. destruct (sa_Branch s) as [b|] eqn:Hb; [|done]. intros H. exists b. split; [done|].
  destruct b; try discriminate H;
    repeat match type of H with (if ?c then _ else _) = _ => destruct c eqn:?; [|discriminate H] end;
    injection H as <- <-; unfold kept; destruct (sa_Occupier s); cbn; try done; try (by left); try set_solver; by right.
Qed.

Lemma manual_event_hash report base s nm p :
  a_TxHash (manualEvent req report (withOccupier (pending_audit p base) s) nm) = p_TxHash p.
Proof.
  unfold manualEvent, withOccupier. destruct (lastSample report); destruct (sa_Occupier s) as [o|]; [destruct (oc_Operation o)| |destruct (oc_Operation o)|];
    by destruct (_ =? _).
Qed.

Lemma quiet_reject_end P {HP : Stable P} db0 base code r : unapplied r -> yields P (reject req base code r) (fun r db => Applied r = true -> resolution db0 r db).
Proof. intros Hr w _ _ Ha. pose proof (returns_reject req base code r Hr w) as E. unfold unapplied in E. by rewrite E in Ha. Qed.

#[local] Instance reach_stable db0 : Stable (reach db0).
Proof. intros db db' _ R H. by etrans. Qed.

Lemma resolve_sound db0 r0 : unapplied r0 -> yields (reach db0) (resolve req polls r0) (fun r db => Applied r = true -> resolution db0 r db).
Proof.
  intros H0. assert (forall P r, unapplied r -> yields P (mret r) (fun r db => Applied r = true -> resolution db0 r db)) as Hret
    by (intros P r Hr; apply yields_ret; intros db _ Ha; by rewrite Hr in Ha).
  unfold resolve.
  eapply (yields_bind _ _ _ (fun x db => forall p, x = Ok (Some p) -> scoped (p_ID p) st_chainID (req_Scope req) db /\ p_ChainID p = st_chainID /\ p_Scope p = req_Scope req));
    [auto with quiet| |].
  { intros w W _. unfold query. cbn [fst snd]. case_bool_decide; [|done]. intros p [= Hp]. apply GetPending_scoped; [by apply interfere_wf|done]. }
  intros [ [p|]|e]; [|by apply Hret..]. destruct (Z.eqb_spec (p_TxHash p) (req_TxHash req)) as [Hhash|]; cbn [negb]; [|by apply Hret].
  eapply (yields_bind _ _ _ (fun x db => (forall ev tx, x = inr (ev, tx) -> verify (Some ev) (pending_ref p) = Ok tx /\ exists i, signed db !! i = Some ev) /\
    forall r, x = inl r -> unapplied r)); [auto with quiet| |].
  { intros w W _. split; [intros ev tx Hx; by eapply checkEvidence_stored|].
    intros r Hr. pose proof (returns_checkEvidence req (pending_ref p) (pending_audit p (evmAuditOther "")) r0 H0 w) as Hu. by rewrite Hr in Hu. }
  intros [r|[ev tx]].
  { intros w W [_ [_ Hu] ] Ha. cbn in Ha. by rewrite (Hu _ eq_refl) in Ha. }
  set (target := mkTarget ev tx (p_Operation p) (negb (DryRun req)) true).
  eapply (yields_bind _ _ _ (fun x db => (forall r s, x = inr (r, s) -> shown_twice target s db /\ unapplied r) /\ forall r, x = inl r -> unapplied r)).
  { eapply quiet_weaken; [by apply (quiet_assessTwice_of HE (fun _ => True) req polls tx target)|].
    intros db [_ [Hv _] ]. destruct (Hv _ _ eq_refl) as [Hver [i Hi] ]. split; [done|]. exists i, ev. split; [done|]. symmetry. by eapply verify_hash. }
  { intros w W [_ [Hv _] ]. destruct (Hv _ _ eq_refl) as [Hver [i Hi] ].
    assert (recorded (tx_Hash (tg_tx target)) (w_db w)) as Hrec by (exists i, ev; split; [done|]; symmetry; by eapply verify_hash).
    pose proof (returns_assessTwice req polls target (pending_audit p (evmAuditOther "")) r0 H0 w) as Hu.
    split; [|intros r Hr; by rewrite Hr in Hu]. intros r s Hr. rewrite Hr in Hu. split; [|done].
    by eapply (assessTwice_sound HE req polls target _ _ w W Hrec). }
  intros [r|[r s] ].
  { intros w W [_ [_ Hu] ] Ha. cbn in Ha. by rewrite (Hu _ eq_refl) in Ha. }
  cbv zeta. destruct (conclusion req p s) as [ [res nm]|] eqn:Hc.
  2: { intros w W [_ [Hs _] ]. destruct (Hs _ _ eq_refl) as [_ Hr]. by apply (quiet_reject_end (fun _ => True) db0). }
  destruct (DryRun req) eqn:Hdry.
  { intros w W [_ [Hs _] ] Ha. destruct (Hs _ _ eq_refl) as [_ Hr]. unfold unapplied in Hr. cbn in Ha. by rewrite Hr in Ha. }
  set (audit := match res with Some _ => set_outcome _ _ _ _ | None => _ end).
  assert (a_TxHash audit = p_TxHash p /\ a_Event audit = nm) as [Hah Han]
    by (unfold audit; destruct res; (split; [apply manual_event_hash|unfold manualEvent; by destruct (lastSample r)])).
  clearbody audit. intros w W [ [ [R0 Hp] [Hv _] ] [Hs _] ].
  destruct (Hp _ eq_refl) as (Hsc & Hchain & Hscope). destruct (Hv _ _ eq_refl) as [Hver [i Hi] ]. destruct (Hs _ _ eq_refl) as [Htwice Hr].
  rewrite M_bind_eq.
  pose proof (write_pending_sound HE req db0 p res audit Hah Hchain w W (conj R0 Hsc)) as Hwr.
  destruct (quiet_write_pending HE (fun _ => True) req p res audit w W I) as [R _].
  destruct (write_pending req p res audit w) as [w1 [e|] ]; cbn [fst snd] in *.
  { intros Ha. unfold finishWrite in *. destruct e; try (cbn in Ha; by rewrite Hr in Ha).
    all: exfalso; match type of Ha with Applied (reject _ ?b ?c ?x _).2 = true => pose proof (returns_reject req b c x Hr w1) as E end;
      unfold unapplied in E; by rewrite E in Ha. }
  intros _. destruct (Hwr eq_refl) as (Hend & Haud & Hrow). rewrite Han in Haud.
  destruct (conclusion_decided _ _ _ _ Hc) as (b & Hb & Hd).
  destruct (stable _ _ W R Htwice) as (h1 & h2 & b' & ? & ? & ? & Hb' & H1 & H2). assert (b' = b) as -> by congruence.
  exists p, ev, tx. split_and!; [done|done|done|exists i; by eapply stored_stable| |done|by exists nm|].
  - exists h1, h2, b. by split_and!.
  - intros Hl. destruct (Hrow Hl) as (db1 & db2 & ? & ? & ? & Hb1). exists db1, db2. split_and!; [done..|]. by apply row_write_becomes.
Qed.

Lemma dispose_resolve_sound db0 :
  Command req = EvmDisposeResolve -> yields (reach db0) (disposeEvmState req polls) (fun r db => Applied r = true -> resolution db0 r db).
Proof.
  intros Hcmd. unfold disposeEvmState. cbv zeta. destruct (negb _); [by apply yields_ret|]. match goal with |- yields _ (if ?c then _ else _) _ => destruct c end; [by apply yields_ret|].
  rewrite bool_decide_true by done. by apply resolve_sound.
Qed.

(** C15: Whatever the nodes and the database answer and other processes write: a resolve command
    that was applied ended the pending row of its transaction for good, with an audit row of
    the event it reports.  Unless a COMMIT was lost with its answer, the row was pending until
    the command deleted it, or gave it the state, reason and result that the report names, and
    no other row was changed by this.  Its evidence is stored and valid, and at two heights, one above the other, the chain
    showed the same branch.  The row was deleted, so that the operation may be signed again,
    only because the original failed, or another transaction of the account took its nonce
    that failed, is one of another operation of this provider, or is a plain transfer.  It
    became a success only because the original or the same call succeeded, and a blocked
    row only where the operator accepted this. *)
Theorem manual_resolve_proven w :
  db_wf (w_db w) -> Command req = EvmDisposeResolve -> Applied (disposeEvmState req polls w).2 = true ->
  let r := (disposeEvmState req polls w).2 in
  let db := w_db (disposeEvmState req polls w).1 in
  exists p ev tx, p_TxHash p = req_TxHash req /\ p_Scope p = req_Scope req /\ verify (Some ev) (pending_ref p) = Ok tx /\
    (exists i, GetSignedTx db i = Some ev) /\
    (exists h1 h2 b, (exists t, BlockNumber t = Some h1) /\ (exists t, BlockNumber t = Some h2) /\ uwrap 64 (h1 + 1) <= h2 /\
       let target := mkTarget ev tx (p_Operation p) true true in
       shows target h1 b db /\ shows target h2 b db /\ decided b (Action r)) /\
    (forall db'' row, reach db db'' -> states db'' !! p_ID p = Some row -> State row <> RowPending) /\
    (exists nm, Event r = Some nm /\ HasAudit db st_chainID nm (p_TxHash p) 0 = true) /\
    ((forall t, fate_at t <> UnknownLost) ->
     exists db1 db2, reach (w_db w) db1 /\ reach db1 db2 /\ reach db2 db /\ becomes p (Action r) db1 db2).
Proof.
  intros W Hcmd Ha. destruct (dispose_resolve_sound (w_db w) Hcmd w W (reflexivity _) Ha) as (p & ev & tx & Hh & Hs & Hv & Hst & Hc & He & Hn & Hb). cbv zeta.
  exists p, ev, tx. split_and!; try done. intros db'' row R Hrow. refine (proj2 (ended_stable _ _ _ _ R He) row Hrow).
  eapply reach_wf; [|exact W]. exact (proj1 (quiet_dispose HE (fun _ => True) req polls w W I)).
Qed.

(** ** Exit codes and dry runs *)

















(** *** An applied change is audited *)




















(** C39: A dry run writes nothing and sends nothing: the database is as other processes leave it. *)
Theorem dry_run_changes_nothing w :
  DryRun req = true ->
  let w' := (disposeEvmState req polls w).1 in
  w_sent w' = w_sent w /\ (exists ts, w_db w' = foldl (fun db t => interfere t db) (w_db w) ts) /\
  ((forall t, others t = []) -> w_db w' = w_db w).
Proof using Type.
  intros Hdry. destruct (reads_dispose req polls Hdry w) as [Hs [ts Hd] ]. cbv zeta. split_and!; [done|by exists ts|].
  intros Hno. rewrite Hd. clear Hd. induction ts as [|t ts IH] using rev_ind; [done|]. rewrite foldl_app. cbn. by rewrite interfere_none.
Qed.

(** ** Outcomes *)

(** The branches that let a blocked outcome end this way. *)
Definition settled (b : branch) (a : option action) : Prop :=
  match a with
  | Some DeleteOutcome => b ∈ [EvmBranchOriginalFailed; EvmBranchOtherTxFailed; EvmBranchOwnOtherOp; EvmBranchPlainTransfer]
  | Some (UpdateOutcome evmOutcomeSucceeded _) => b ∈ [EvmBranchOriginalSucceeded; EvmBranchSameCall]
  | Some (UpdateOutcome evmOutcomeExecutedElsewhere _) => b = EvmBranchCosmosSameOp
  | _ => False
  end.

Lemma outcome_conclusion_settled o s to :
  outcome_conclusion o s = Some to ->
  exists b, sa_Branch s = Some b /\ settled b (Some (match to with Some x => UpdateOutcome (o_State x) (o_ResultTxHash x) | None => DeleteOutcome end)).
Proof.
  unfold outcome_conclusion. destruct (sa_Branch s) as [b|] eqn:Hb; [|done]. intros H. exists b. split; [done|].
  destruct b; try discriminate H; injection H as <-; destruct (sa_Occupier s); cbn; set_solver.
Qed.

Definition settlement (r : EvmDisposeReport) (db : evm_db) : Prop :=
  exists o ev tx, o_State o = evmOutcomeBlockedUnknown /\ verify (Some ev) (outcome_ref o) = Ok tx /\ (exists i, GetSignedTx db i = Some ev) /\
    exists h1 h2 b, (exists t, BlockNumber t = Some h1) /\ (exists t, BlockNumber t = Some h2) /\ uwrap 64 (h1 + 1) <= h2 /\
      let target := mkTarget ev tx (o_Operation o) false false in
      shows target h1 b db /\ shows target h2 b db /\ settled b (Action r).

Lemma not_applied_sound P (m : M EvmDisposeReport) :
  returns m unapplied -> yields P m (fun r db => Applied r = true -> settlement r db).
Proof using Type. intros H w _ _ Ha. pose proof (H w) as E. unfold unapplied in E. by rewrite E in Ha. Qed.

Lemma resolveOutcome_sound r0 : unapplied r0 -> yields (fun _ => True) (resolveOutcome req polls r0) (fun r db => Applied r = true -> settlement r db).
Proof using HE.
  intros H0. unfold resolveOutcome.
  eapply (yields_bind _ _ _ (fun x _ => match x with inl r => unapplied r | inr o => o_State o = evmOutcomeBlockedUnknown end)); [auto with quiet| |].
  { apply yields_returns. unfold loadOutcome. eapply returns_bind; [apply returns_any|]. intros [ [o|]|] _; [|..|by apply returns_ret].
    - case_bool_decide as Hin; [apply returns_ret; set_solver|]. eapply returns_bind; [by apply returns_reject|]. intros r' H'. by apply returns_ret.
    - eapply returns_bind; [by apply returns_reject|]. intros r' H'. by apply returns_ret. }
  intros [r1|o]; [intros w _ [_ Hu] Ha; unfold unapplied in Hu; cbn in Ha; by rewrite Hu in Ha|].
  eapply (yields_bind _ _ _ (fun x db => (forall ev tx, x = inr (ev, tx) -> verify (Some ev) (outcome_ref o) = Ok tx /\ exists i, signed db !! i = Some ev) /\
    forall r, x = inl r -> unapplied r)); [auto with quiet| |].
  { intros w W _. split; [intros ev tx Hx; by eapply checkEvidence_stored|].
    intros r Hr. pose proof (returns_checkEvidence req (outcome_ref o) (outcome_audit o (evmAuditOther "")) r0 H0 w) as Hu. by rewrite Hr in Hu. }
  intros [r|[ev tx] ]; [intros w W [_ [_ Hu] ] Ha; cbn in Ha; by rewrite (Hu _ eq_refl) in Ha|].
  set (target := mkTarget ev tx (o_Operation o) false false).
  eapply (yields_bind _ _ _ (fun x db => (forall r s, x = inr (r, s) -> shown_twice target s db /\ unapplied r) /\ forall r, x = inl r -> unapplied r)).
  { eapply quiet_weaken; [by apply (quiet_assessTwice_of HE (fun _ => True) req polls tx target)|].
    intros db [_ [Hv _] ]. destruct (Hv _ _ eq_refl) as [Hver [i Hi] ]. split; [done|]. exists i, ev. split; [done|]. symmetry. by eapply verify_hash. }
  { intros w W [_ [Hv _] ]. destruct (Hv _ _ eq_refl) as [Hver [i Hi] ].
    assert (recorded (tx_Hash (tg_tx target)) (w_db w)) as Hrec by (exists i, ev; split; [done|]; symmetry; by eapply verify_hash).
    pose proof (returns_assessTwice req polls target (outcome_audit o (evmAuditOther "")) r0 H0 w) as Hu.
    split; [|intros r Hr; by rewrite Hr in Hu]. intros r s Hr. rewrite Hr in Hu. split; [|done].
    by eapply (assessTwice_sound HE req polls target _ _ w W Hrec). }
  intros [r|[r s] ]; [intros w W [_ [_ Hu] ] Ha; cbn in Ha; by rewrite (Hu _ eq_refl) in Ha|].
  cbv zeta. destruct (outcome_conclusion o s) as [to|] eqn:Hc.
  2: { intros w W [_ [Hs _] ]. destruct (Hs _ _ eq_refl) as [_ Hr]. apply (not_applied_sound (fun _ => True)); [by apply returns_reject|done|done]. }
  match goal with |- yields _ (settle _ _ _ _ _ ?e _) _ => set (audit := e); clearbody audit end.
  intros w W [ [ [_ Hstate] [Hv _] ] [Hs _] ] Ha. destruct (Hv _ _ eq_refl) as [Hver [i Hi] ]. destruct (Hs _ _ eq_refl) as [Htwice Hr].
  match type of Ha with Applied (?m w).2 = true => destruct (quiet_settle HE (fun _ => True) req o [evmOutcomeBlockedUnknown] to
    (withOccupier (outcome_audit o (evmAuditOther "")) s) audit (set_action match to with Some x => UpdateOutcome (o_State x) (o_ResultTxHash x) | None => DeleteOutcome end r) w W I) as [R _] end.
  destruct (outcome_conclusion_settled _ _ _ Hc) as (b & Hb & Hd).
  destruct (stable _ _ W R Htwice) as (h1 & h2 & b' & ? & ? & ? & Hb' & H1 & H2). assert (b' = b) as -> by congruence.
  exists o, ev, tx. split_and!; [done|done|exists i; by eapply stored_stable|]. exists h1, h2, b. cbv zeta. split_and!; [done..|exact H1|exact H2|].
  revert Ha. unfold unapplied in Hr. unfold settle. destruct (DryRun req); [cbn; by rewrite Hr|]. rewrite M_bind_eq.
  set (w1 := (write_outcome _ _ _ _ w).1). destruct (write_outcome _ _ _ _ w).2 as [e|]; [|done].
  intros Ha. unfold finishWrite in Ha. destruct e; try (cbn in Ha; by rewrite Hr in Ha);
    match type of Ha with Applied (reject _ ?b ?c ?x _).2 = true => pose proof (returns_reject req b c x Hr w1) as E end; unfold unapplied in E; by rewrite E in Ha.
Qed.

(** A resolve-outcome command that was applied settled a blocked outcome whose evidence is
    stored and valid, on a branch that the chain showed at two heights: the outcome was
    deleted only if the operation did not run, and became a success only if it did. *)
Theorem manual_settle_proven w :
  db_wf (w_db w) -> Command req = EvmDisposeResolveOutcome -> Applied (disposeEvmState req polls w).2 = true ->
  let r := (disposeEvmState req polls w).2 in
  let db := w_db (disposeEvmState req polls w).1 in
  exists o ev tx, o_State o = evmOutcomeBlockedUnknown /\ verify (Some ev) (outcome_ref o) = Ok tx /\ (exists i, GetSignedTx db i = Some ev) /\
    exists h1 h2 b, (exists t, BlockNumber t = Some h1) /\ (exists t, BlockNumber t = Some h2) /\ uwrap 64 (h1 + 1) <= h2 /\
      let target := mkTarget ev tx (o_Operation o) false false in
      shows target h1 b db /\ shows target h2 b db /\ settled b (Action r).
Proof using HE.
  intros W Hcmd. cbv zeta. cut (yields (fun _ => True) (disposeEvmState req polls) (fun r db => Applied r = true -> settlement r db)); [intros H; exact (H w W I)|].
  unfold disposeEvmState. cbv zeta. destruct (negb _); [by apply yields_ret|].
  match goal with |- yields _ (if ?c then _ else _) _ => destruct c end; [by apply yields_ret|].
  rewrite Hcmd. cbn. by apply resolveOutcome_sound.
Qed.
End resolving.

(** ** The report *)

Section inspect.
Context {En : Env} {Et : EthTx} (Hno : forall t, others t = []) (Hfine : forall t, fate_at t = Committed).

(** A line with the result of the evidence check. *)
Definition inspected (db : evm_db) (x : evidenceRef * EvmStateRow) : EvmStateRow :=
  let '(ref, row) := x in
  let evidence := GetSignedTx db (r_SignedTxID ref) in
  mkStateRow (row_Kind row) (row_ID row) (row_Scope row) (row_State row) (row_Reason row) (row_From row) (row_Nonce row)
    (row_TxHash row) (row_ResultTxHash row) (row_EvidenceTxHash row) (row_Operation row) (row_Ambiguous row) (row_SignedTxID row)
    (default (row_RecordedBlock row) (e_RecordedBlock <$> evidence))
    (match verify evidence ref with Ok _ => true | Err _ => false end).

Lemma query_fine {A} (f : evm_db -> A) w : (query f w).2 = Ok (f (w_db w)) /\ w_db (query f w).1 = w_db w.
Proof. unfold query. cbn. by rewrite (interfere_none Hno), Hfine. Qed.

Lemma inspect_rows_fine l w : (inspect_rows l w).2 = Ok (inspected (w_db w) <$> l) /\ w_db (inspect_rows l w).1 = w_db w.
Proof.
  revert w. induction l as [|[ref row] l IH]; intros w; [done|]. cbn [inspect_rows]. rewrite M_bind_eq. unfold inspectEvidence. rewrite M_bind_eq.
  destruct (query_fine (fun db => GetSignedTx db (r_SignedTxID ref)) w) as [-> Hw]. set (w1 := (query _ w).1) in *. clearbody w1. cbn [fst snd mret M_ret].
  rewrite M_bind_eq. destruct (IH w1) as [E1 E2]. rewrite Hw in E1, E2. cbn [fst snd mret M_ret]. rewrite E1. split; [|exact E2].
  cbn. do 2 f_equal. unfold inspected. f_equal. by destruct (GetSignedTx _ _).
Qed.

(** When the database answers, the report lists every pending row and every outcome of the
    chain, each with whether its evidence is valid, and changes nothing. *)
Theorem inspect_exact w :
  exists report, (InspectEvmState w).2 = Ok report /\ w_db (InspectEvmState w).1 = w_db w /\
    rep_Pending report = (fun p => inspected (w_db w) (pending_ref p, pending_line p)) <$> ListPending (w_db w) st_chainID /\
    rep_Outcomes report = (fun o => inspected (w_db w) (outcome_ref o, outcome_line o)) <$> ListOutcomes (w_db w) st_chainID /\
    rep_ForeignChainIDs report = ForeignChainIDs (w_db w) st_chainID.
Proof.
  unfold InspectEvmState. rewrite M_bind_eq.
  destruct (query_fine (fun db => ForeignChainIDs db st_chainID) w) as [-> Hw1]. set (w1 := (query _ w).1) in *. clearbody w1. rewrite M_bind_eq.
  destruct (query_fine (fun db => ListPending db st_chainID) w1) as [-> Hw2]. set (w2 := (query _ w1).1) in *. clearbody w2. rewrite M_bind_eq.
  destruct (inspect_rows_fine ((fun p => (pending_ref p, pending_line p)) <$> ListPending (w_db w1) st_chainID) w2) as [-> Hw3].
  set (w3 := (inspect_rows _ w2).1) in *. clearbody w3. rewrite M_bind_eq.
  destruct (query_fine (fun db => ListOutcomes db st_chainID) w3) as [-> Hw4]. set (w4 := (query _ w3).1) in *. clearbody w4. rewrite M_bind_eq.
  destruct (inspect_rows_fine ((fun o => (outcome_ref o, outcome_line o)) <$> ListOutcomes (w_db w3) st_chainID) w4) as [-> Hw5].
  set (w5 := (inspect_rows _ w4).1) in *. clearbody w5. rewrite !M_bind_eq. cbn [ask fst snd].
  destruct (query_fine (fun db => leases db !! st_chainID) (set_tick (S (w_tick w5)) w5)) as [-> Hw6]. cbn in Hw6. rewrite Hw5, Hw4, Hw3, Hw2, Hw1 in *.
  eexists. split; [done|]. split; [cbn; congruence|]. cbn. by rewrite <-!list_fmap_compose.
Qed.
End inspect.

(** ** A chain on which another transaction of the account took the nonce, and failed *)

Definition toy_other : list Z := [7; 5; 3; 9].
Definition toy_dispose_env : Env := {|
  others _ := [];
  fate_at _ := Committed;
  db_now t := 2000000 + Z.of_nat t;
  local_now t := 2000000000 + 1000 * Z.of_nat t;
  ctx_done _ := false;
  detail _ := "";
  Hex h := pretty h;
  transactionReceiptFn _ h := if h =? 1024 then Some (Some (mkReceipt 0 (Some 50))) else Some None;
  waitForEvmTxFn _ _ := None;
  sendEvmTxFn _ _ := None;
  evm_ChainID _ := Some 7;
  BlockNumber t := Some (60 + Z.of_nat t);
  NonceAt _ _ _ := Some 4;
  PendingNonceAt _ _ := Some 4;
  getCosmosNonceFn _ _ := Some 4;
  cosmos_Network _ := Some "moca"%string;
  SearchEthereumTx _ _ _ := Ok None;
  configured := true;
  st_chainID := "moca";
  st_evmChainID := 7;
  actor := "cli";
  lease_owner := "";
  lease_ttl := 0;
  keyAddress _ := None;
  has_mocaClient _ := false;
  has_autoChain := true;
  has_cosmos := false
|}.

#[local] Instance toy_dispose : @DisposeEnv toy_eth := {|
  tx_To _ := Some 0;
  tx_Value _ := 0;
  tx_Data tx := drop 3 tx;
  tx_SenderFor chain (tx : @Tx toy_eth) := if bool_decide (head tx = Some chain) then tx !! 1%nat else None;
  HexToHash _ := 0;
  AddressHex a := pretty a;
  Msg := unit;
  exit_of _ := None;
  proto_Marshal _ := None;
  type_name _ := [];
  ParseChainID _ := Some 7;
  os_user := "root";
  TransactionByHash _ h := if h =? 1024 then Some (Some toy_other) else Some None;
  CodeAt _ _ _ := Some [];
  BlockTransactions _ _ := Ok [];
  cosmos_Tx _ _ := Ok None;
  SearchAccSeq _ _ _ := Ok []
|}.

Lemma toy_dispose_env_ok : @Env_ok toy_dispose_env.
Proof. intros t f a n c H. by apply not_elem_of_nil in H. Qed.

Definition toy_request (command : string) (outcome : Z) (evidence : Hash) (unknown dry : bool) : EvmDisposeRequest :=
  mkDispose command "operator" 1015 outcome "alice" "stuck" "" "" evidence "" 0 unknown false dry.

Local Notation toy_run rq db := (@disposeEvmState toy_dispose_env toy_eth toy_dispose rq 0 (start_world db)).

(** The other transaction failed, so the pending row is deleted. *)
Lemma manual_resolve_proven_witness :
  let rq := toy_request "resolve" 0 1024 false false in
  Action (toy_run rq toy_db).2 = Some DeletePending /\
  exists p, p_TxHash p = 1015 /\
    forall db'' row, reach (w_db (toy_run rq toy_db).1) db'' -> states db'' !! p_ID p = Some row -> State row <> RowPending.
Proof.
  cbv zeta. split; [vm_compute; reflexivity|].
  destruct (@manual_resolve_proven toy_dispose_env toy_eth toy_dispose toy_dispose_env_ok (toy_request "resolve" 0 1024 false false) 0 (start_world toy_db)
    toy_db_wf eq_refl ltac:(vm_compute; reflexivity)) as (p & ev & tx & Hp & _ & _ & _ & _ & He & _).
  exists p. split; [exact Hp|exact He].
Defined.

(** Without the other transaction at hand, the operator blocked the row. *)
Definition toy_blocked : evm_db := w_db (toy_run (toy_request "resolve" 0 0 true false) toy_db).1.

Lemma toy_blocked_wf : db_wf toy_blocked.
Proof.
  eapply reach_wf; [|exact toy_db_wf].
  exact (proj1 (@quiet_dispose toy_dispose_env toy_eth toy_dispose toy_dispose_env_ok (fun _ => True) _
    (toy_request "resolve" 0 0 true false) 0 (start_world toy_db) toy_db_wf I)).
Qed.

Lemma manual_settle_proven_witness :
  let rq := toy_request "resolve-outcome" 1 1024 false false in
  Action (toy_run rq toy_blocked).2 = Some DeleteOutcome /\
  exists o, o_State o = evmOutcomeBlockedUnknown /\ settled EvmBranchOtherTxFailed (Action (toy_run rq toy_blocked).2).
Proof.
  cbv zeta. assert (Action (toy_run (toy_request "resolve-outcome" 1 1024 false false) toy_blocked).2 = Some DeleteOutcome) as E by (vm_compute; reflexivity).
  split; [exact E|].
  destruct (@manual_settle_proven toy_dispose_env toy_eth toy_dispose toy_dispose_env_ok (toy_request "resolve-outcome" 1 1024 false false) 0 (start_world toy_blocked)
    toy_blocked_wf eq_refl ltac:(vm_compute; reflexivity)) as (o & ev & tx & Ho & _).
  exists o. split; [exact Ho|]. rewrite E. right. left.
Defined.

Lemma dry_run_changes_nothing_witness :
  let rq := toy_request "resolve" 0 1024 false true in
  Action (toy_run rq toy_db).2 = Some DeletePending /\ w_db (toy_run rq toy_db).1 = toy_db.
Proof.
  cbv zeta. split; [vm_compute; reflexivity|].
  exact (proj2 (proj2 (@dry_run_changes_nothing toy_dispose_env toy_eth toy_dispose (toy_request "resolve" 0 1024 false true) 0 (start_world toy_db) eq_refl)) (fun _ => eq_refl)).
Defined.
